(* ===== verification/_CoqProject ===== *)
-Q . S2P
Prelude.v
Float64.v
Sha1.v
KvHeader.v
KvPolicy.v
KvStore.v
KvEvict.v
KvSession.v
StreamText.v
ToolText.v
LayerPack.v
PromptPrefix.v
Libc.v
GpuArgs.v
SsdPlan.v
Gguf.v
HashTable.v
Pretok.v
Vocab.v
Bpe.v
Chat.v
Sampling.v
Sampler.v
Json.v
ImageLayout.v
Session.v
Half.v
KvCache.v
Payload.v
Checkpoint.v
LiveState.v
Scheduler.v
Executor.v
ToolMemory.v
ToolCalls.v
ToolMap.v
Continuation.v
AgentTool.v
AgentEdit.v
AgentRead.v
DistWire.v
DistRoute.v
LayerSlice.v
DistWork.v
DistSpan.v
DistModel.v
DistSession.v
DistPipeline.v
DistGuard.v
