(* ===== verification/Prelude.v ===== *)
(** * Verification development for ds4 (root file)

    ds4 runs DeepSeek and GLM models on one machine, or on several: [ds4.c] opens
    a GGUF file, tokenizes, evaluates the network on CPU or GPU and samples;
    [ds4_server.c] serves it over HTTP, [ds4_kvstore.c] keeps evaluated prompts on
    disk, [ds4_distributed.c] spreads the layers over machines, [ds4_agent.c] is an
    agent that edits files; small modules place layers on devices and plan memory.
    This development models the program's own decision logic, the parts where a
    mistake loses data, corrupts a prompt, blocks a thread or overruns a bound, as
    executable functions, and proves what those parts promise.  The network's
    arithmetic is not modelled.

    ** Conventions

    A byte is an integer in [0, 256) and a buffer is the list of its bytes; a C
    string is a buffer without its NUL ([cget] reads the NUL past the end).
    Machine integers are [Z] with the wrap-around written out ([u8], [u32],
    [u64], [i32] below) wherever the code computes in a width; positions in a
    buffer are natural numbers.  Loops that are not structural take fuel; a
    result [None] (or [DieFuel], [CFuel]) is a loop that would not have ended,
    and each component has a theorem that its fuel is enough.  Errors are values
    of the component's own option or sum type.  Mutable objects are passed and
    returned; where two names share a buffer (the in-place unescape of
    [ToolText]) the model has the buffer and both cursors, and where objects point
    to each other ([ToolMemory]) it has a heap.  Threads are transition functions
    whose labels are the sections run under a mutex ([Scheduler], [Executor],
    [DistPipeline]).  Floating point is [SpecFloat] binary32 or binary64, or bit
    patterns ([Half], [DistWire]).  The platform is little-endian LP64.

    Code outside the repository is an argument of the definitions that use it:
    [exp2], [expf], [logf] and [nextafterf] of libm, [qsort] (class [Qsort]),
    [strerror], the name that [mkstemp] picks, the outcomes of file-system calls
    and allocations, the CUDA device probe in [GpuArgs].  So are the kernels: the
    inference engine of [KvSession] (class [KvEngine]) and of [PromptPrefix], the
    CPU kernels of [Session] ([CpuKernels]), what a payload restores
    ([PayloadFormat], with its instance for the CPU in [Payload]), whether a
    backend can cut its state back ([Continuation]), and the layer kernels of
    [LayerSlice] ([SliceKernels]).

    ** Files

    - [Prelude]: bytes, C strings, machine integers, little-endian fields,
      decimal printing, ctype; the shared tactics ([bool_prop], [case_if],
      [zdiv]) and the hint databases [ds4].
    - [Float64]: IEEE operations, printing, bit patterns, and the order of the
      comparisons.  [Libc]: [strtol], [strtod] and their relatives.
    - [Half]: binary16 and binary32; the conversions are exact, or round to
      nearest ([half_rounds_to_nearest]).

    The checkpoint store, [ds4_kvstore.c]:
    - [Sha1]: the streaming hash ([sha1_update] on its 64-byte block), fed in any
      pieces, refines the hash of the padded message ([sha1_streaming_refines]).
    - [KvHeader]: the 48-byte header and file names.  Headers round-trip
      ([header_roundtrip]), and an accepted header is a valid one.
    - [KvPolicy]: where to cut a prompt, when to store, what fits.
    - [KvStore]: the directory as a list of files, [kv_cache_refresh], and the
      longest-prefix lookup ([find_text_prefix_best]).
    - [KvEvict]: scores in binary64 and the eviction loop, which brings the index
      within its budget and removes nothing it need not; files whose [unlink] fails
      stay, without their entry ([evict_within_budget]).
    - [KvSession]: storing and loading the live session through temporary files.
      A load restores only text that hashes to its key and is a prefix of the
      prompt ([load_restores_verified_prefix]).

    Text on its way to and from the model, [ds4_server.c], [ds4_tool_text.h],
    [ds4_prompt_prefix.c]:
    - [StreamText]: stop strings and UTF-8 boundaries of a stream.
    - [ToolText]: tool bodies and attributes between tags: readers invert
      writers, a body cannot close its tag, streaming in fragments is safe.
    - [PromptPrefix]: few-shot files: total parsing, nothing lost, round trip,
      and the prompt they become.
    - [Json]: reading and writing the JSON of requests ([json_skip_exact]).
    - [ToolCalls]: tool calls written into a prompt and read from generated text,
      in DSML and in the syntax of GLM ([dsml_calls_roundtrip],
      [glm_calls_roundtrip]).

    The tokenizer and the sampler, [ds4.c], and images, [ds4_image.c]:
    - [HashTable]: the open-addressed string tables ([table_refines_map]).
    - [Pretok]: the JoyAI and GLM4 splitters: total, lossless, on character
      boundaries.
    - [Vocab]: [vocab_load] on the cursor of [Gguf] and the tables of
      [HashTable]; [vocab_ok] is what a loaded vocabulary guarantees.
    - [Bpe]: byte-pair encoding and [ds4_token_text].  Tokenizing is lossless
      ([tokenize_lossless]), text cannot forge a chat marker, and the merge loop
      computes a normal form of the reference rewriting
      ([merge_loop_refines_bpe]).
    - [Chat]: prompts, messages, transcripts and tool output as tokens
      ([chat_roles_exact]).  The client lemmas are proved against the class
      [TextMeaning] of token-list meanings, which the encoder implements twice:
      [spells] and [unmarked].
    - [Sampling], [Sampler]: the argmax family, and sampling with a temperature:
      the heap and the partial sort give the distribution of sorting everything
      ([build_probabilities_reference]).
    - [ImageLayout]: the token block of an image, and prompts cut around such
      blocks ([accepted_size_has_layout]).

    Sessions, [ds4.c]:
    - [Session]: the tokens, images and logits of CPU sessions, also of those that
      load what others saved, stay those of a computation from the start
      ([session_cache_exact]).
    - [KvCache]: the buffers behind it, row by row.
    - [Payload]: saving a session and loading any file ([payload_load_safe]); both
      are the calls of [Session] ([load_saved], [load_failed_call]).
    - [Checkpoint]: [KvSession] run with the sessions and payloads: what was
      stored is found and restored ([stored_session_is_restored]).

    The server, [ds4_server.c]:
    - [LiveState]: what a slot remembers of the protocol beside its session.
    - [Continuation]: the ways in which a request continues a live session or a
      checkpoint, and their order ([continuation_is_reused]).
    - [ToolMemory]: the text of tool calls by id, on a heap of linked objects,
      refines a list ([tool_memory_refines]); [ToolMap] keeps it in checkpoint
      files ([tool_map_roundtrip]).
    - [Scheduler]: jobs and slots, batched and with one worker: every job is
      accounted for, and completes unless the slot it must continue on never
      settles ([jobs_accounted], [accepted_job_completes]).
    - [Executor]: one model for all slots: exclusive use, batched decoding, and no
      decoder waits for ever ([model_exclusive], [decode_calls_refine],
      [decode_returns]).

    The agent, [ds4_agent.c]:
    - [AgentTool]: tool calls read while they are generated: the pieces do not
      matter ([agent_stream_pieces]), and what the server writes the agent reads
      ([agent_reads_dsml_calls], [agent_reads_glm_calls]).
    - [AgentEdit]: an edit replaces exactly the place that matches or changes
      nothing, while other processes change the files between its steps
      ([edit_exact_or_untouched]), and what was checked while it was generated can
      be done ([preflight_edit_succeeds]).
    - [AgentRead]: reading a file in parts shows it exactly
      ([raw_reading_is_exact]).

    Several machines, [ds4_distributed.c], and the slices of [ds4.c] they run:
    - [DistWire]: frames and records, packed and read back; activations in 32, 16
      and 8 bits.
    - [DistRoute]: the registry, the search for a route and its encoding
      ([route_read_as_planned]).
    - [LayerSlice]: evaluating some of the layers; slices one after another are
      the model ([slices_compose]).
    - [DistWork]: workers, the relay of results, and the coordinator's span;
      [DistSpan] and [DistModel] prove that a span over a route is the model on
      one machine ([distributed_equals_one_machine]).
    - [DistSession]: prefill, decoding and recovery by replay
      ([distributed_conversation_exact], [failed_decode_replays_token_twice]).
    - [DistPipeline]: the three threads of a pipelined prefill: chunks arrive in
      order, and it ends ([pipelined_prefill_in_order],
      [pipelined_prefill_returns]).
    - [DistGuard]: a worker against arbitrary frames ([any_frame_is_guarded]).

    Resources:
    - [Gguf]: the bounds-checked cursor, the metadata walker, lookups and the
      tensor directory: every accepted value and tensor lies in the file
      ([model_open_in_bounds]); tensor sizes are exact unless the rounding wraps.
    - [LayerPack]: greedy placement of layers is valid and the earliest possible
      ([layer_placement_optimal]), and is printed as it is.
    - [GpuArgs]: device and memory lists, and a layout line that never overruns
      its buffer.
    - [SsdPlan]: the expert-cache plan, sizes in gibibytes, and the locked
      memory as a trace of system calls.

    ** How the parts interact

    A prompt is built by [Chat] from [Bpe], [Pretok] and [Vocab], which reads
    its strings with [Gguf]; few-shot turns come from [PromptPrefix], tool
    output is escaped by the functions of [ToolText], and [ToolCalls] writes the
    arguments that [Json] reads.  Clients' jobs pass [Scheduler] to a slot, whose
    [LiveState] and [Session] are what [Continuation] goes on from; otherwise it
    looks the prompt up with [KvStore] and loads it with [KvSession], whose keys
    are [Sha1] digests and whose files start with [KvHeader], hold the [Payload]
    of a session and end with a [ToolMap].  [Checkpoint] is [KvSession] with the
    engine of [Session] and [Payload].  After generation the session is stored
    where [KvPolicy] says, making room with [KvEvict].  Slots share the model by
    [Executor]; tokens are drawn by [Sampler].  Generated text passes
    [StreamText], [ToolText] and [ToolCalls] on its way out, and replayed calls
    get their text from [ToolMemory].  The agent reads calls with [AgentTool],
    whose round trips are about the text of [ToolCalls], and runs [AgentEdit] and
    [AgentRead] on one file system.  A distributed session ([DistSession],
    [DistPipeline]) evaluates spans with [DistWork] over the routes of
    [DistRoute]; all of them speak [DistWire], which rounds activations with
    [Half], and every machine runs a [LayerSlice].  [LayerPack], [GpuArgs] and
    [SsdPlan] decide once, at start-up, where the model lives.

    ** Fuel

    Scans over a buffer get its length, plus one where the loop must also see
    the end; every round consumes a byte or returns (JSON, the tool-call parsers
    of the server and of the agent, the lines of a file).  The string tables get
    their capacity: a search meets a free slot within one turn of the table.
    The merge loop gets one more round than there are symbols, since each round
    removes one.  [next_pow2] gets 65 rounds, one per bit and the test.  The
    eviction loop gets one round per entry of the directory, walks and pruning of
    [ToolMemory] the size of the heap, dispatching the length of the queue.
    Nested metadata arrays get the nine levels the code allows, symbolic links the
    forty of the kernel, normalizing a binary16 number its ten bits, sifting a
    heap its size.  The search for a route gets one round more than there are
    workers, and so does following a request along it; the chunks of a prefill get
    the number of tokens plus one, copying a message its length plus one.  Decimal
    printing gets 20 digits, enough for 64 bits.

    ** Not modelled

    The transformer itself, on CPU ([ds4.c]) and on GPUs ([ds4_cuda.cu],
    [ds4_metal.m], [ds4_rocm.cu]): kernels, graphs, GLM graphs, draft models; the
    NEON variants of the conversions.  The sockets and request formats of the HTTP
    server.  The agent's terminal, shell jobs and searches, and what other
    processes do between its last check of a file and the [rename].  Partial reads and
    timeouts of connections, snapshots of distributed sessions, and the
    tensor-parallel runtime ([ds4_tp.c]).  Pixels of images, web fetching, the
    command line, benchmarks; vendored [linenoise.c] and [rax.c] (radix trees are
    finite maps); conversion tools and tests.  Release of memory, growth of arrays
    and log messages are left out of the components that are modelled, except
    where they are what a theorem is about ([SsdPlan], [KvSession]); sums of sizes
    in [ToolMemory] are unbounded, writes to checkpoint files do not fail in
    [Payload] and [ToolMap], cancelling a distributed prompt and failing to create
    a thread do not happen. *)

From stdpp Require Export base list strings gmap.
From Stdlib Require Export ZArith Lia ZifyNat.

#[local] Open Scope Z_scope.

(** ** Bytes and C strings *)

(** A byte is an integer in [0, 256); a buffer is the list of its bytes. *)
Abbreviation bytes := (list Z).

Definition is_byte (b : Z) : Prop := 0 <= b < 256.

Abbreviation bytes_ok := (Forall is_byte).

#[export] Instance is_byte_dec b : Decision (is_byte b).
Proof. unfold is_byte. apply _. Defined.

(** The bytes of a string literal. *)
Fixpoint bs (s : string) : bytes :=
  match s with
  | EmptyString => []
  | String a s' => Z.of_N (Ascii.N_of_ascii a) :: bs s'
  end.

(** Length as an integer. *)
Definition zlen {A} (l : list A) : Z := Z.of_nat (length l).

(** Reading a NUL-terminated C string: past its bytes there is the NUL. *)
Definition cget (s : bytes) (i : nat) : Z := nth i s 0.

(** [memcmp(data, p, |p|) == 0] with the length test in front. *)
Fixpoint starts_with (p l : bytes) : bool :=
  match p, l with
  | [], _ => true
  | _ :: _, [] => false
  | a :: p', b :: l' => (a =? b) && starts_with p' l'
  end.

(** Equality of two byte strings ([strcmp(a, b) == 0]). *)
Fixpoint bytes_eqb (a b : bytes) : bool :=
  match a, b with
  | [], [] => true
  | x :: a', y :: b' => (x =? y) && bytes_eqb a' b'
  | _, _ => false
  end.

(** [memcpy(dst + off, src, |src|)] into an array. *)
Definition splice {A} (off : nat) (src dst : list A) : list A :=
  take off dst ++ src ++ drop (off + length src) dst.

(** [strstr]: the first position at which [p] occurs in [l]. *)
Fixpoint strstr (p l : bytes) : option nat :=
  if starts_with p l then Some 0%nat
  else match l with [] => None | _ :: l' => S <$> strstr p l' end.

(** ** Machine integers: values are kept in range by explicit wrap-around. *)
Definition U8_MAX : Z := 255.
Definition U32_MAX : Z := 4294967295.
Definition U64_MAX : Z := 18446744073709551615.
Definition INT32_MAX : Z := 2147483647.
Definition INT64_MAX : Z := 9223372036854775807.

Definition u8 (x : Z) : Z := x mod 256.
Definition u16 (x : Z) : Z := x mod 65536.
Definition u32 (x : Z) : Z := x mod 4294967296.
Definition u64 (x : Z) : Z := x mod 18446744073709551616.

(** Conversion of an unsigned 32-bit value to [int]. *)
Definition i32 (x : Z) : Z :=
  let y := u32 x in if y <=? INT32_MAX then y else y - 4294967296.

Definition is_u32 (x : Z) : Prop := 0 <= x <= U32_MAX.
Definition is_u64 (x : Z) : Prop := 0 <= x <= U64_MAX.

(** ** Shared tactics *)

(** Turn boolean tests of the code into propositions. *)
Ltac bool_prop :=
  repeat match goal with
  | H : (_ && _)%bool = true |- _ => apply andb_true_iff in H as [? ?]
  | H : (_ && _)%bool = false |- _ => apply andb_false_iff in H
  | H : (_ || _)%bool = true |- _ => apply orb_true_iff in H
  | H : (_ || _)%bool = false |- _ => apply orb_false_iff in H as [? ?]
  | H : negb _ = true |- _ => apply negb_true_iff in H
  | H : negb _ = false |- _ => apply negb_false_iff in H
  | H : (_ =? _) = true |- _ => apply Z.eqb_eq in H
  | H : (_ =? _) = false |- _ => apply Z.eqb_neq in H
  | H : (_ <? _) = true |- _ => apply Z.ltb_lt in H
  | H : (_ <? _) = false |- _ => apply Z.ltb_ge in H
  | H : (_ <=? _) = true |- _ => apply Z.leb_le in H
  | H : (_ <=? _) = false |- _ => apply Z.leb_gt in H
  | H : (_ =? _)%nat = true |- _ => apply Nat.eqb_eq in H
  | H : (_ =? _)%nat = false |- _ => apply Nat.eqb_neq in H
  | H : (_ <? _)%nat = true |- _ => apply Nat.ltb_lt in H
  | H : (_ <? _)%nat = false |- _ => apply Nat.ltb_ge in H
  | H : (_ <=? _)%nat = true |- _ => apply Nat.leb_le in H
  | H : (_ <=? _)%nat = false |- _ => apply Nat.leb_gt in H
  end.

(** Split on the tests of the goal, innermost first, recording each. *)
Ltac case_if :=
  match goal with
  | |- context [if ?b then _ else _] =>
      lazymatch b with
      | context [if _ then _ else _] => fail
      | _ => let E := fresh "E" in destruct b eqn:E
      end
  end.

Ltac case_if_in H :=
  match type of H with
  | context [if ?b then _ else _] =>
      lazymatch b with
      | context [if _ then _ else _] => fail
      | _ => let E := fresh "E" in destruct b eqn:E
      end
  end.

(** Linear arithmetic with division and modulo by literals. *)
Ltac zdiv := zify; Z.to_euclidean_division_equations; lia.

(** ** Lemmas on machine integers *)
Section Widths.
Lemma u8_range x : 0 <= u8 x < 256.
Proof. apply Z.mod_pos_bound. lia. Qed.

Lemma u32_range x : is_u32 (u32 x).
Proof. unfold is_u32, U32_MAX, u32. pose proof (Z.mod_pos_bound x 4294967296). lia. Qed.

Lemma u64_range x : is_u64 (u64 x).
Proof.
  unfold is_u64, U64_MAX, u64.
  pose proof (Z.mod_pos_bound x 18446744073709551616). lia.
Qed.

Lemma u8_small x : is_byte x -> u8 x = x.
Proof. intros H. apply Z.mod_small, H. Qed.

Lemma u32_small x : is_u32 x -> u32 x = x.
Proof. unfold is_u32, U32_MAX. intros H. apply Z.mod_small. lia. Qed.

Lemma u64_small x : is_u64 x -> u64 x = x.
Proof. unfold is_u64, U64_MAX. intros H. apply Z.mod_small. lia. Qed.

Lemma u8_is_byte x : is_byte (u8 x).
Proof. apply u8_range. Qed.

Lemma i32_small x : 0 <= x <= INT32_MAX -> i32 x = x.
Proof.
  unfold i32, INT32_MAX. intros H.
  rewrite u32_small by (unfold is_u32, U32_MAX; lia).
  destruct (Z.leb_spec x 2147483647); lia.
Qed.

Lemma i32_range x : - INT32_MAX - 1 <= i32 x <= INT32_MAX.
Proof. unfold i32, u32, INT32_MAX. cbv zeta. destruct (Z.leb_spec (x mod 4294967296) 2147483647); zdiv. Qed.

(** An [int] through [uint32_t] and back. *)
Lemma i32_u32 x : - INT32_MAX - 1 <= x <= INT32_MAX -> i32 (u32 x) = x.
Proof.
  unfold i32, u32, INT32_MAX. intros H. cbv zeta. rewrite !Z.mod_mod by lia.
  destruct (Z.leb_spec (x mod 4294967296) 2147483647); zdiv.
Qed.
End Widths.

(** ** Lemmas on bytes *)
Section Bytes.
Lemma bytes_eqb_eq a b : bytes_eqb a b = true <-> a = b.
Proof.
  revert b. induction a as [|x a IH]; intros [|y b]; simpl; try (split; done).
  rewrite andb_true_iff, Z.eqb_eq, IH. split.
  - intros [-> ->]. done.
  - intros [= -> ->]. done.
Qed.

Lemma bytes_eqb_neq a b : bytes_eqb a b = false <-> a <> b.
Proof. rewrite <- bytes_eqb_eq. destruct (bytes_eqb a b); split; congruence. Qed.

Lemma bytes_eqb_refl a : bytes_eqb a a = true.
Proof. by apply bytes_eqb_eq. Qed.

Lemma starts_with_iff p l : starts_with p l = true <-> exists r, l = p ++ r.
Proof.
  revert l. induction p as [|x p IH]; intros [|y l]; simpl.
  - split; [by exists [] | done].
  - split; [by exists (y :: l) | done].
  - split; [done | by intros [r ?]].
  - rewrite andb_true_iff, Z.eqb_eq, IH. split.
    + intros [-> [r ->]]. by exists r.
    + intros [r [= -> ->]]. split; [done | by exists r].
Qed.

Lemma starts_with_app p l : starts_with p (p ++ l) = true.
Proof. apply starts_with_iff. by exists l. Qed.

Lemma starts_with_take p l : starts_with p l = true -> take (length p) l = p.
Proof. intros [r ->]%starts_with_iff. by rewrite take_app_length. Qed.

Lemma starts_with_length p l : starts_with p l = true -> (length p <= length l)%nat.
Proof. intros [r ->]%starts_with_iff. rewrite length_app. lia. Qed.

Lemma strstr_Some p l i :
  strstr p l = Some i ->
  starts_with p (drop i l) = true /\ forall j, (j < i)%nat -> starts_with p (drop j l) = false.
Proof.
  revert i. induction l as [|c l IH]; intros i; cbn [strstr]; case_if; try done.
  - intros [= <-]. split; [done | lia].
  - intros [= <-]. split; [done | lia].
  - destruct (strstr p l) as [k|]; [|done]. intros [= <-]. destruct (IH k eq_refl) as [H1 H2].
    split; [done|]. intros [|j] Hj; [done|]. apply H2. lia.
Qed.

Lemma strstr_None p l j : p <> [] -> strstr p l = None -> starts_with p (drop j l) = false.
Proof.
  intros Hp. revert j. induction l as [|c l IH]; intros j; cbn [strstr]; case_if; try done.
  - intros _. by rewrite drop_nil.
  - destruct (strstr p l) eqn:El; [done|]. intros _. destruct j; [done|]. by apply IH.
Qed.

Lemma zlen_nonneg {A} (l : list A) : 0 <= zlen l.
Proof. unfold zlen. lia. Qed.

Lemma zlen_app {A} (l k : list A) : zlen (l ++ k) = zlen l + zlen k.
Proof. unfold zlen. rewrite length_app. lia. Qed.

Lemma bs_ok s : bytes_ok (bs s).
Proof.
  induction s as [|a s IH]; simpl; constructor; [|done].
  unfold is_byte. pose proof (Ascii.N_ascii_bounded a). lia.
Qed.

Lemma splice_length {A} off (src dst : list A) :
  (off + length src <= length dst)%nat -> length (splice off src dst) = length dst.
Proof. intros H. unfold splice. rewrite !length_app, length_take, length_drop. lia. Qed.
End Bytes.

(** ** Bits and little-endian bytes *)

(** The [n] low bytes of [v], least significant first. *)
Fixpoint le_bytes (n : nat) (v : Z) : bytes :=
  match n with
  | O => []
  | S n' => u8 v :: le_bytes n' (Z.shiftr v 8)
  end.

Fixpoint le_val (l : bytes) : Z :=
  match l with
  | [] => 0
  | b :: l' => Z.lor b (Z.shiftl (le_val l') 8)
  end.

Section Bits.
(** Disjoint bits: [or] is addition. *)
Lemma lor_shiftl_add a b n :
  0 <= n -> 0 <= a < 2 ^ n -> Z.lor a (Z.shiftl b n) = a + b * 2 ^ n.
Proof.
  intros Hn Ha. rewrite <- Z.add_nocarry_lor; [by rewrite Z.shiftl_mul_pow2|].
  apply Z.bits_inj'. intros i Hi. rewrite Z.land_spec, Z.bits_0, Z.shiftl_spec by lia.
  destruct (Z.ltb_spec i n).
  - rewrite (Z.testbit_neg_r b) by lia. apply andb_false_r.
  - rewrite <- (Z.mod_small a (2 ^ n)), Z.mod_pow2_bits_high by lia. done.
Qed.

Lemma le_bytes_length n v : length (le_bytes n v) = n.
Proof. revert v. induction n; intros v; simpl; by f_equal. Qed.

Lemma le_bytes_ok n v : bytes_ok (le_bytes n v).
Proof. revert v. induction n; intros v; simpl; constructor; auto. apply u8_is_byte. Qed.

Lemma le_val_cons b l : is_byte b -> le_val (b :: l) = b + le_val l * 256.
Proof. intros Hb. simpl. by rewrite lor_shiftl_add by (unfold is_byte in Hb; lia). Qed.

Lemma le_val_le_bytes n v : le_val (le_bytes n v) = v mod 2 ^ (8 * Z.of_nat n).
Proof.
  revert v. induction n as [|n IH]; intros v; [by rewrite Z.mod_1_r|].
  cbn [le_bytes]. rewrite le_val_cons, IH by apply u8_is_byte.
  replace (8 * Z.of_nat (S n)) with (8 + 8 * Z.of_nat n) by lia.
  rewrite Z.shiftr_div_pow2, Z.pow_add_r, Z.rem_mul_r by lia. unfold u8.
  change (2 ^ 8) with 256. lia.
Qed.

Lemma le_val_range l : bytes_ok l -> 0 <= le_val l < 2 ^ (8 * zlen l).
Proof.
  induction 1 as [|b l Hb Hl IH]; [done|].
  rewrite le_val_cons by done. unfold zlen in *. cbn [length].
  replace (8 * Z.of_nat (S (length l))) with (8 + 8 * Z.of_nat (length l)) by lia.
  rewrite Z.pow_add_r by lia. change (2 ^ 8) with 256. unfold is_byte in Hb. nia.
Qed.

Lemma le_bytes_le_val l : bytes_ok l -> le_bytes (length l) (le_val l) = l.
Proof.
  induction 1 as [|b l Hb Hl IH]; [done|].
  rewrite le_val_cons by done. cbn [length le_bytes]. unfold is_byte in Hb.
  rewrite Z.shiftr_div_pow2 by lia. change (2 ^ 8) with 256.
  f_equal; [unfold u8; zdiv|].
  replace ((b + le_val l * 256) / 256) with (le_val l) by zdiv. done.
Qed.
Lemma le_val_bytes4 v : is_u32 v -> le_val (le_bytes 4 v) = v.
Proof.
  intros H. rewrite le_val_le_bytes. apply Z.mod_small.
  unfold is_u32, U32_MAX in H. change (2 ^ (8 * Z.of_nat 4)) with 4294967296. lia.
Qed.

Lemma le_val_bytes8 v : is_u64 v -> le_val (le_bytes 8 v) = v.
Proof.
  intros H. rewrite le_val_le_bytes. apply Z.mod_small.
  unfold is_u64, U64_MAX in H. change (2 ^ (8 * Z.of_nat 8)) with 18446744073709551616. lia.
Qed.
End Bits.

(** ** Decimal printing ([%d] of a nonnegative value) *)
Fixpoint dec_digits (fuel : nat) (n : Z) : bytes :=
  match fuel with
  | O => []
  | S fuel' => (if n <? 10 then [] else dec_digits fuel' (n / 10)) ++ [48 + n mod 10]
  end.

Definition dec_print (n : Z) : bytes := dec_digits 20 n.

(** [%d] of an [int]. *)
Definition print_int (z : Z) : bytes := if z <? 0 then 45 :: dec_print (- z) else dec_print z.

(** ** ctype.h in the C locale *)
Definition isdigit (c : Z) : bool := (48 <=? c) && (c <=? 57).
Definition isupper (c : Z) : bool := (65 <=? c) && (c <=? 90).
Definition islower (c : Z) : bool := (97 <=? c) && (c <=? 122).
Definition isxdigit (c : Z) : bool :=
  isdigit c || ((65 <=? c) && (c <=? 70)) || ((97 <=? c) && (c <=? 102)).
Definition isspace (c : Z) : bool := (c =? 32) || ((9 <=? c) && (c <=? 13)).
Definition tolower (c : Z) : Z := if isupper c then c + 32 else c.

(** ** Helpful steps

    A rank that no step increases, a process whose step decreases it and that
    stays the same until then, and weak fairness lead to a goal. Times are
    numbers; what a process does at a time is given. *)
Section Helpful.
Context {P : Type} (live goal : nat -> Prop) (rank : nat -> nat) (helper : nat -> P -> Prop) (turn blocked : P -> nat -> Prop).
Context (Hstep : forall n, live n -> goal n \/ (live (S n) /\
  ((rank (S n) < rank n)%nat \/
   (rank (S n) = rank n /\ forall p, helper n p -> ~ turn p n /\ helper (S n) p)))).
Context (Hhelper : forall n, live n -> exists p, helper n p) (Hready : forall n p, live n -> helper n p -> ~ blocked p n).
Context (Hfair : forall p n, exists m, (n <= m)%nat /\ (blocked p m \/ turn p m)).

Lemma helpful_waits d : forall n p, live n -> helper n p -> blocked p (n + d)%nat \/ turn p (n + d)%nat ->
  exists m, (n <= m)%nat /\ (goal m \/ (live m /\ (rank m < rank n)%nat)).
Proof using Hstep Hready.
  induction d as [|d IH]; intros n p Hl Hp Hb; destruct (Hstep n Hl) as [Hg|[Hl' [Hlt|[Heq Hsame]]]];
    try (exists n; split; [lia | by left]); try (exists (S n); split; [lia | by right]);
    destruct (Hsame p Hp) as [Hnt Hp'].
  - rewrite Nat.add_0_r in Hb. destruct Hb as [Hb|Hb]; [by destruct (Hready n p Hl Hp) | done].
  - rewrite <- Nat.add_succ_comm in Hb. destruct (IH (S n) p Hl' Hp' Hb) as (m & Hm & Hor). exists m.
    split; [lia|]. rewrite Heq in Hor. exact Hor.
Qed.

Lemma helpful_eventually n : live n -> exists m, (n <= m)%nat /\ goal m.
Proof using Hstep Hready Hhelper Hfair.
  assert (H : forall r n, rank n = r -> live n -> exists m, (n <= m)%nat /\ goal m); [|by apply (H (rank n))].
  clear n. intros r. induction r as [r IH] using lt_wf_ind. intros n Hr Hl. destruct (Hhelper n Hl) as [p Hp].
  destruct (Hfair p n) as (k & Hk & Hb). replace k with (n + (k - n))%nat in Hb by lia.
  destruct (helpful_waits _ n p Hl Hp Hb) as (m & Hm & [Hg|[Hl' Hlt]]); [by exists m|].
  destruct (IH (rank m) ltac:(lia) m eq_refl Hl') as (m' & Hm' & Hg). exists m'. split; [lia | done].
Qed.
End Helpful.

(** ** Hint databases *)
Create HintDb ds4.
Create Rewrite HintDb ds4.
#[export] Hint Resolve u8_is_byte u8_range u32_range u64_range bs_ok zlen_nonneg : ds4.
#[export] Hint Rewrite @zlen_app bytes_eqb_refl starts_with_app : ds4.
