(* ===== verification/Float64.v ===== *)
(** IEEE binary64 arithmetic as the C code uses it: values are [SpecFloat]'s,
    rounded to nearest even, and printed as [printf] prints them. *)

From Stdlib Require Import Floats.SpecFloat.
From S2P Require Import Prelude.

#[local] Open Scope Z_scope.

Module F64.
Definition of_Z (z : Z) : spec_float := binary_normalize 53 1024 z 0 false.
Definition add : spec_float -> spec_float -> spec_float := SFadd 53 1024.
Definition mul : spec_float -> spec_float -> spec_float := SFmul 53 1024.
Definition div : spec_float -> spec_float -> spec_float := SFdiv 53 1024.
Definition opp : spec_float -> spec_float := SFopp.
Definition lt (a b : spec_float) : bool := SFltb a b.
Definition eq (a b : spec_float) : bool := SFeqb a b.

(** A decimal literal p/q with exact p and q: the nearest double. *)
Definition ratio (p q : Z) : spec_float := div (of_Z p) (of_Z q).

(** The double nearest to [num / den]: at least 70 quotient bits, and a last bit
    that says whether more follow, decide the rounding. *)
Definition of_ratio (num den : Z) : spec_float :=
  if num =? 0 then S754_zero false
  else
    let s := Z.max 0 (70 + Z.log2 den - Z.log2 num) in
    let n := num * 2 ^ s in
    binary_normalize 53 1024 (2 * (n / den) + (if n mod den =? 0 then 0 else 1)) (- (s + 1)) false.

(** The quotient of nonnegative [a] by positive [b], rounded half to even. *)
Definition div_half_even (a b : Z) : Z :=
  let q := a / b in
  let r := a mod b in
  if 2 * r <? b then q
  else if b <? 2 * r then q + 1
  else if Z.even q then q else q + 1.

(** [m * 2^e * 10^digits] rounded to an integer. *)
Definition scaled (m : positive) (e : Z) (digits : nat) : Z :=
  let n := Zpos m * 10 ^ Z.of_nat digits in
  if 0 <=? e then n * 2 ^ e else div_half_even n (2 ^ (- e)).

Definition fixed_digits (digits : nat) (q : Z) : bytes :=
  let p := 10 ^ Z.of_nat digits in
  dec_digits 320 (q / p) ++
  match digits with
  | O => []
  | _ => [46] ++ map (fun i => 48 + q / 10 ^ Z.of_nat (digits - 1 - i) mod 10) (seq 0 digits)
  end.

(** [printf("%.<digits>f", f)]. *)
Definition print_fixed (digits : nat) (f : spec_float) : bytes :=
  match f with
  | S754_zero s => (if s then [45] else []) ++ fixed_digits digits 0
  | S754_finite s m e => (if s then [45] else []) ++ fixed_digits digits (scaled m e digits)
  | S754_infinity s => (if s then [45] else []) ++ bs "inf"
  | S754_nan => bs "nan"
  end.
End F64.

(** binary32, as C's [float] on a platform that evaluates in its own width. *)
Module F32.
Definition of_Z (z : Z) : spec_float := binary_normalize 24 128 z 0 false.
Definition add : spec_float -> spec_float -> spec_float := SFadd 24 128.
Definition sub : spec_float -> spec_float -> spec_float := SFsub 24 128.
Definition mul : spec_float -> spec_float -> spec_float := SFmul 24 128.
Definition div : spec_float -> spec_float -> spec_float := SFdiv 24 128.

(** [(float)d] of a double. *)
Definition of_f64 (f : spec_float) : spec_float :=
  match f with
  | S754_finite s m e => binary_normalize 24 128 (if s then Zneg m else Zpos m) e s
  | _ => f
  end.
End F32.

(** [isfinite]. *)
Definition isfinite (f : spec_float) : bool :=
  match f with S754_zero _ | S754_finite _ _ _ => true | _ => false end.

(** [a <= b]. *)
Definition fle (a b : spec_float) : bool := SFleb a b.

(** The value of an IEEE bit pattern with [mw] mantissa and [ew] exponent bits. *)
Definition float_of_bits (mw ew : Z) (b : Z) : spec_float :=
  let s := Z.testbit b (mw + ew) in
  let e := Z.land (Z.shiftr b mw) (2 ^ ew - 1) in
  let m := Z.land b (2 ^ mw - 1) in
  let emin := 3 - 2 ^ (ew - 1) - (mw + 1) in
  if e =? 0 then
    match m with Zpos p => S754_finite s p emin | _ => S754_zero s end
  else if e =? 2 ^ ew - 1 then (if m =? 0 then S754_infinity s else S754_nan)
  else match m + 2 ^ mw with Zpos p => S754_finite s p (e + emin - 1) | _ => S754_nan end.

Definition f32_of_bits : Z -> spec_float := float_of_bits 23 8.
Definition f64_of_bits : Z -> spec_float := float_of_bits 52 11.

Example f32_one : f32_of_bits 1065353216 = F32.of_Z 1.
Proof. reflexivity. Qed.

Example f32_tiny : f32_of_bits 1 = S754_finite false 1 (-149).
Proof. reflexivity. Qed.

Example f64_half : F32.of_f64 (f64_of_bits 4602678819172646912) = F32.of_f64 (F64.ratio 1 2).
Proof. reflexivity. Qed.

Example of_ratio_tenth : F64.of_ratio 1 10 = f64_of_bits 0x3fb999999999999a.
Proof. reflexivity. Qed.

Example print_fixed_384 : F64.print_fixed 1 (F64.div (F64.of_Z 41231686042) (F64.of_Z 1073741824)) = bs "38.4".
Proof. reflexivity. Qed.

Example print_fixed_half : F64.print_fixed 0 (F64.div (F64.of_Z 5) (F64.of_Z 2)) = bs "2".
Proof. reflexivity. Qed.

(** ** The order of the comparisons *)

(** Where a number stands: sign and class, then exponent and mantissa; none for
    NaN.  The two zeros stand together. *)
Definition float_key (f : spec_float) : option (Z * Z * Z) :=
  match f with
  | S754_nan => None
  | S754_infinity true => Some (-2, 0, 0)
  | S754_finite true m e => Some (-1, - e, Zneg m)
  | S754_zero _ => Some (0, 0, 0)
  | S754_finite false m e => Some (1, e, Zpos m)
  | S754_infinity false => Some (2, 0, 0)
  end.

Definition key_lt (a b : Z * Z * Z) : Prop :=
  let '(a1, a2, a3) := a in let '(b1, b2, b3) := b in
  a1 < b1 \/ (a1 = b1 /\ (a2 < b2 \/ (a2 = b2 /\ a3 < b3))).

Section Order.
Lemma SFcompare_key f g :
  match SFcompare f g, float_key f, float_key g with
  | Some Lt, Some a, Some b => key_lt a b
  | Some Eq, Some a, Some b => a = b
  | Some Gt, Some a, Some b => key_lt b a
  | None, None, _ | None, _, None => True
  | _, _, _ => False
  end.
Proof.
  destruct f as [[]|[]| |[] m e], g as [[]|[]| |[] m' e']; cbn; try done; try lia.
  - destruct (Z.compare_spec e e'); cbn; [|lia|lia]. subst.
    change (Pos.compare_cont Eq m m') with (Pos.compare m m').
    destruct (Pos.compare_spec m m'); cbn; [by subst|lia|lia].
  - destruct (Z.compare_spec e e'); cbn; [|lia|lia]. subst.
    change (Pos.compare_cont Eq m m') with (Pos.compare m m').
    destruct (Pos.compare_spec m m'); cbn; [by subst|lia|lia].
Qed.

Lemma SFltb_iff f g : SFltb f g = true <->
  exists a b, float_key f = Some a /\ float_key g = Some b /\ key_lt a b.
Proof.
  pose proof (SFcompare_key f g) as H. unfold SFltb, key_lt in *.
  destruct (float_key f) as [[[a1 a2] a3]|]; destruct (float_key g) as [[[b1 b2] b3]|];
    destruct (SFcompare f g) as [[| |]|];
    try done; split; try done; try (intros _; by repeat eexists);
    intros (x & y & Hx & Hy & Hl); try done;
    injection Hx as <-; injection Hy as <-; try (injection H as -> -> ->); lia.
Qed.

Lemma SFeqb_iff f g : SFeqb f g = true <-> exists a, float_key f = Some a /\ float_key g = Some a.
Proof.
  pose proof (SFcompare_key f g) as H. unfold SFeqb, key_lt in *.
  destruct (float_key f) as [[[a1 a2] a3]|]; destruct (float_key g) as [[[b1 b2] b3]|];
    destruct (SFcompare f g) as [[| |]|];
    try done; split; try done; try (intros _; rewrite H; by eexists);
    intros (x & Hx & Hy); try done;
    (assert ((a1, a2, a3) = (b1, b2, b3)) as E by congruence); injection E as -> -> ->; lia.
Qed.

Lemma SFltb_irrefl f : SFltb f f = false.
Proof.
  apply not_true_is_false. rewrite SFltb_iff. intros ([[a1 a2] a3] & [[b1 b2] b3] & Ha & Hb & Hl).
  rewrite Ha in Hb. injection Hb as <- <- <-. cbn in Hl. lia.
Qed.

Lemma SFltb_trans f g h : SFltb f g = true -> SFltb g h = true -> SFltb f h = true.
Proof.
  rewrite !SFltb_iff. intros ([[a1 a2] a3] & [[b1 b2] b3] & Ha & Hb & Hl) ([[c1 c2] c3] & [[d1 d2] d3] & Hc & Hd & Hl').
  rewrite Hb in Hc. injection Hc as <- <- <-. exists (a1, a2, a3), (d1, d2, d3). split_and!; [done|done|].
  cbn in *. lia.
Qed.

Lemma SFltb_asym f g : SFltb f g = true -> SFltb g f = false.
Proof.
  intros H. apply not_true_is_false. intros H'.
  pose proof (SFltb_trans _ _ _ H H') as E. by rewrite SFltb_irrefl in E.
Qed.

(** Numbers in the order at all, not NaN, are comparable. *)
Lemma SFltb_total f g : is_Some (float_key f) -> is_Some (float_key g) ->
  SFltb f g = true \/ SFeqb f g = true \/ SFltb g f = true.
Proof.
  intros [a Ha] [b Hb]. rewrite !SFltb_iff, SFeqb_iff. rewrite Ha, Hb.
  destruct a as [[a1 a2] a3], b as [[b1 b2] b3].
  destruct (Z.lt_trichotomy a1 b1) as [H|[->|H]]; [left|destruct (Z.lt_trichotomy a2 b2) as [H|[->|H]];
    [left| destruct (Z.lt_trichotomy a3 b3) as [H|[->|H]]; [left|right; left|right; right] |right; right]|right; right];
    repeat eexists; cbn; lia.
Qed.

Lemma SFltb_key f g : SFltb f g = true -> is_Some (float_key f) /\ is_Some (float_key g).
Proof. intros (a & b & -> & -> & _)%SFltb_iff. split; by eexists. Qed.

(** Equal numbers stand in the same relation to any other. *)
Lemma SFeqb_ltb_r f g h : SFeqb f g = true -> SFltb h f = SFltb h g.
Proof.
  intros (a & Ha & Hb)%SFeqb_iff. apply Bool.eq_iff_eq_true. rewrite !SFltb_iff. by rewrite Ha, Hb.
Qed.

Lemma SFeqb_ltb_l f g h : SFeqb f g = true -> SFltb f h = SFltb g h.
Proof.
  intros (a & Ha & Hb)%SFeqb_iff. apply Bool.eq_iff_eq_true. rewrite !SFltb_iff. by rewrite Ha, Hb.
Qed.

Lemma SFeqb_sym f g : SFeqb f g = SFeqb g f.
Proof. apply Bool.eq_iff_eq_true. rewrite !SFeqb_iff. split; intros (a & ? & ?); by exists a. Qed.

Lemma SFeqb_trans f g h : SFeqb f g = true -> SFeqb g h = true -> SFeqb f h = true.
Proof.
  rewrite !SFeqb_iff. intros (a & Ha & Hb) (b & Hc & Hd). exists a. split; [done | congruence].
Qed.
End Order.
