(* ===== verification/Sha1.v ===== *)
(** * The streaming SHA-1 of the checkpoint store (ds4_kvstore.c).

    The hash context keeps a partially filled 64-byte block; [sha1_update]
    copies bytes into it and compresses each full block.  The reference
    definition pads the whole message and folds the compression over its
    blocks. *)

From S2P Require Import Prelude.

#[local] Open Scope Z_scope.

Record sha1_ctx := Sha1Ctx {
  sc_h : list Z;        (* h[5] *)
  sc_bytes : Z;         (* bytes hashed, uint64_t *)
  sc_block : bytes;     (* block[64] *)
  sc_used : nat         (* bytes of block in use *)
}.

Definition rol32 (v : Z) (n : Z) : Z :=
  Z.lor (u32 (Z.shiftl v n)) (Z.shiftr v (32 - n)).

(** One 32-bit big-endian word of the block. *)
Definition be_word (block : bytes) (i : nat) : Z :=
  Z.lor (Z.shiftl (cget block (i * 4)) 24)
    (Z.lor (Z.shiftl (cget block (i * 4 + 1)) 16)
       (Z.lor (Z.shiftl (cget block (i * 4 + 2)) 8) (cget block (i * 4 + 3)))).

(** The message schedule: [n] more words after those already in [w]. *)
Fixpoint sha1_schedule (n : nat) (w : list Z) : list Z :=
  match n with
  | O => w
  | S n' =>
      let i := length w in
      let x := Z.lxor (Z.lxor (cget w (i - 3)) (cget w (i - 8)))
                      (Z.lxor (cget w (i - 14)) (cget w (i - 16))) in
      sha1_schedule n' (w ++ [rol32 x 1])
  end.

(** The working variables a, b, cc, d, e. *)
Record sha1_vars := Vars { va : Z; vb : Z; vc : Z; vd : Z; ve : Z }.

Definition sha1_round (w : list Z) (s : sha1_vars) (i : nat) : sha1_vars :=
  let '(Vars a b cc d e) := s in
  let '(f, k) :=
    if (i <? 20)%nat then
      (Z.lor (Z.land b cc) (Z.land (u32 (Z.lnot b)) d), 0x5a827999)
    else if (i <? 40)%nat then (Z.lxor (Z.lxor b cc) d, 0x6ed9eba1)
    else if (i <? 60)%nat then
      (Z.lor (Z.lor (Z.land b cc) (Z.land b d)) (Z.land cc d), 0x8f1bbcdc)
    else (Z.lxor (Z.lxor b cc) d, 0xca62c1d6) in
  let tmp := u32 (rol32 a 5 + f + e + k + cget w i) in
  Vars tmp a (rol32 b 30) cc d.

Definition sha1_compress (h : list Z) (block : bytes) : list Z :=
  let w := sha1_schedule 64 (be_word block <$> seq 0 16) in
  let s0 := Vars (cget h 0) (cget h 1) (cget h 2) (cget h 3) (cget h 4) in
  let s := foldl (sha1_round w) s0 (seq 0 80) in
  [u32 (cget h 0 + va s); u32 (cget h 1 + vb s); u32 (cget h 2 + vc s);
   u32 (cget h 3 + vd s); u32 (cget h 4 + ve s)].

Definition sha1_transform (c : sha1_ctx) (block : bytes) : sha1_ctx :=
  Sha1Ctx (sha1_compress (sc_h c) block) (sc_bytes c) (sc_block c) (sc_used c).

Definition sha1_h0 : list Z :=
  [0x67452301; 0xefcdab89; 0x98badcfe; 0x10325476; 0xc3d2e1f0].

(** [block] is not written by the code: its content is arbitrary. *)
Definition sha1_init (garbage : bytes) : sha1_ctx := Sha1Ctx sha1_h0 0 garbage 0.

(** The copy loop; every round consumes at least one byte, so the length of
    the input is enough fuel. *)
Fixpoint sha1_update_loop (fuel : nat) (c : sha1_ctx) (p : bytes) : sha1_ctx :=
  match fuel with
  | O => c
  | S fuel' =>
      match p with
      | [] => c
      | _ :: _ =>
          let n := Nat.min (64 - sc_used c) (length p) in
          let block := splice (sc_used c) (take n p) (sc_block c) in
          let used := (sc_used c + n)%nat in
          let c1 := Sha1Ctx (sc_h c) (sc_bytes c) block used in
          let c2 :=
            if (used =? 64)%nat then
              let t := sha1_transform c1 block in
              Sha1Ctx (sc_h t) (sc_bytes t) (sc_block t) 0
            else c1 in
          sha1_update_loop fuel' c2 (drop n p)
      end
  end.

Definition sha1_update (c : sha1_ctx) (p : bytes) : sha1_ctx :=
  sha1_update_loop (length p)
    (Sha1Ctx (sc_h c) (u64 (sc_bytes c + zlen p)) (sc_block c) (sc_used c)) p.

(** [while (c->used != 56) sha1_update(c, &zero, 1)]: at most 63 rounds from
    any fill level below 64. *)
Fixpoint sha1_pad_zeros (fuel : nat) (c : sha1_ctx) : sha1_ctx :=
  match fuel with
  | O => c
  | S fuel' =>
      if (sc_used c =? 56)%nat then c
      else sha1_pad_zeros fuel' (sha1_update c [0])
  end.

(** [v >> (8 * i)] for i = 7 .. 0, each byte truncated. *)
Definition be64 (v : Z) : bytes :=
  (fun i => u8 (Z.shiftr v (8 * Z.of_nat i))) <$> [7; 6; 5; 4; 3; 2; 1; 0]%nat.

Definition be32_out (v : Z) : bytes :=
  [u8 (Z.shiftr v 24); u8 (Z.shiftr v 16); u8 (Z.shiftr v 8); u8 v].

Definition sha1_final (c : sha1_ctx) : bytes :=
  let bits := u64 (sc_bytes c * 8) in
  let c1 := sha1_update c [0x80] in
  let c2 := sha1_pad_zeros 64 c1 in
  let c3 := sha1_update c2 (be64 bits) in
  concat (be32_out <$> take 5 (sc_h c3)).

Definition hex_digits : bytes := bs "0123456789abcdef".

Definition hex20 (inp : bytes) : bytes :=
  concat ((fun b => [cget hex_digits (Z.to_nat (Z.shiftr b 4));
                     cget hex_digits (Z.to_nat (Z.land b 15))]) <$> take 20 inp).

Definition sha1_bytes_hex_from (garbage p : bytes) : bytes :=
  hex20 (sha1_final (sha1_update (sha1_init garbage) p)).

(** [ds4_kvstore_sha1_bytes_hex]; the stack block starts as arbitrary bytes. *)
Definition sha1_bytes_hex (p : bytes) : bytes :=
  sha1_bytes_hex_from (replicate 64 0) p.

(** ** Reference definition: pad the message, fold over its 64-byte blocks. *)

Fixpoint sha1_fold (n : nat) (h : list Z) (m : bytes) : list Z :=
  match n with
  | O => h
  | S n' => sha1_fold n' (sha1_compress h (take 64 m)) (drop 64 m)
  end.

(** Zero bytes between the 0x80 marker and the 8-byte length. *)
Definition sha1_zeros (n : nat) : nat := (119 - n mod 64) mod 64.

Definition sha1_padded (m : bytes) : bytes :=
  m ++ [0x80] ++ replicate (sha1_zeros (length m)) 0 ++ be64 (u64 (u64 (zlen m) * 8)).

Definition sha1_spec (m : bytes) : bytes :=
  let p := sha1_padded m in
  concat (be32_out <$> sha1_fold (length p / 64) sha1_h0 p).

(** ** The streaming context represents the message absorbed so far. *)

Definition sha1_repr (c : sha1_ctx) (m : bytes) : Prop :=
  length (sc_block c) = 64%nat /\
  sc_used c = (length m mod 64)%nat /\
  sc_h c = sha1_fold (length m / 64) sha1_h0 m /\
  take (sc_used c) (sc_block c) = drop (64 * (length m / 64)) m.

Lemma sha1_fold_app_l n h m x :
  (64 * n <= length m)%nat -> sha1_fold n h (m ++ x) = sha1_fold n h m.
Proof.
  revert h m. induction n as [|n IH]; intros h m Hn; cbn [sha1_fold]; [done|].
  rewrite take_app_le, drop_app_le by lia. apply IH. rewrite length_drop. lia.
Qed.

Lemma sha1_fold_S_r n h m :
  sha1_fold (S n) h m = sha1_compress (sha1_fold n h m) (take 64 (drop (64 * n) m)).
Proof.
  revert h m. induction n as [|n IH]; intros h m; [done|].
  change (sha1_fold (S (S n)) h m)
    with (sha1_fold (S n) (sha1_compress h (take 64 m)) (drop 64 m)).
  rewrite IH, drop_drop. cbn [sha1_fold]. by replace (64 * S n)%nat with (64 + 64 * n)%nat by lia.
Qed.

Lemma sha1_fold_length n h m : length h = 5%nat -> length (sha1_fold n h m) = 5%nat.
Proof. revert h m. induction n as [|n IH]; intros h m Hh; [done | by apply IH]. Qed.

Lemma sha1_init_repr g : length g = 64%nat -> sha1_repr (sha1_init g) [].
Proof. intros Hg. unfold sha1_repr, sha1_init; simpl. by rewrite Hg, take_0. Qed.

(** One round of the copy loop that does not complete the block. *)
Lemma sha1_copy_partial c m p b :
  sha1_repr c m -> (length m mod 64 + length p < 64)%nat ->
  sha1_repr (Sha1Ctx (sc_h c) b (splice (sc_used c) p (sc_block c)) (sc_used c + length p)) (m ++ p).
Proof.
  intros (Hl & Hu & Hh & Hp) Hlt.
  assert (Hd : ((length m + length p) / 64 = length m / 64)%nat) by zdiv.
  unfold sha1_repr; cbn [sc_h sc_bytes sc_block sc_used]. rewrite length_app, Hd.
  split_and!; [rewrite splice_length; lia | rewrite Hu; zdiv | | ].
  - rewrite sha1_fold_app_l by zdiv. done.
  - rewrite drop_app_le, <- Hp by zdiv. unfold splice.
    rewrite app_assoc, take_app_le by (rewrite length_app, length_take; lia).
    rewrite take_ge; [done | rewrite length_app, length_take; lia].
Qed.

(** One round that completes the block and compresses it. *)
Lemma sha1_copy_full c m p b :
  sha1_repr c m -> (length m mod 64 + length p = 64)%nat ->
  let block := splice (sc_used c) p (sc_block c) in
  sha1_repr (Sha1Ctx (sha1_compress (sc_h c) block) b block 0) (m ++ p).
Proof.
  intros (Hl & Hu & Hh & Hp) Hlt block.
  assert (Hd : ((length m + length p) / 64 = S (length m / 64))%nat) by zdiv.
  unfold sha1_repr; cbn [sc_h sc_bytes sc_block sc_used]. rewrite length_app, Hd.
  assert (Hb : block = drop (64 * (length m / 64)) m ++ p).
  { unfold block, splice. rewrite Hp, (drop_ge (sc_block c)) by (rewrite Hl, Hu; lia).
    by rewrite app_nil_r. }
  split_and!; [unfold block; rewrite splice_length; lia | zdiv | | ].
  - rewrite sha1_fold_S_r, sha1_fold_app_l, <- Hh by zdiv. f_equal.
    rewrite drop_app_le by zdiv. rewrite Hb, take_ge; [done|].
    rewrite length_app, length_drop. zdiv.
  - rewrite take_0, drop_ge; [done | rewrite length_app; zdiv].
Qed.

Lemma sha1_update_loop_repr fuel : forall c m p,
  sha1_repr c m -> (length p <= fuel)%nat ->
  sha1_repr (sha1_update_loop fuel c p) (m ++ p) /\
  sc_bytes (sha1_update_loop fuel c p) = sc_bytes c.
Proof.
  induction fuel as [|fuel IH]; intros c m p Hc Hf.
  { destruct p; [|simpl in Hf; lia]. by rewrite app_nil_r. }
  destruct p as [|b p0]; [by rewrite app_nil_r|].
  assert (Hp : (0 < length (b :: p0))%nat) by (simpl; lia).
  cbn [sha1_update_loop]. set (p := b :: p0) in *.
  set (n := Nat.min (64 - sc_used c) (length p)).
  assert (Hu : sc_used c = (length m mod 64)%nat) by apply Hc.
  assert (Hn : (0 < n <= length p)%nat) by (subst n; zdiv).
  assert (Ht : length (take n p) = n) by (rewrite length_take; lia).
  replace (m ++ p) with ((m ++ take n p) ++ drop n p)
    by (rewrite <- app_assoc, take_drop; done).
  destruct (Nat.eqb_spec (sc_used c + n) 64) as [E|E]; cbn [sha1_transform sc_h sc_bytes sc_block].
  - edestruct IH as [H1 H2]; [| |split; [exact H1 | exact H2]].
    + apply sha1_copy_full; [done | rewrite Ht; lia].
    + rewrite length_drop. lia.
  - edestruct IH as [H1 H2]; [| |split; [exact H1 | exact H2]].
    + rewrite <- Ht at 2. apply sha1_copy_partial; [done | rewrite Ht; subst n; zdiv].
    + rewrite length_drop. lia.
Qed.

Lemma sha1_update_repr c m p :
  sha1_repr c m ->
  sha1_repr (sha1_update c p) (m ++ p) /\
  sc_bytes (sha1_update c p) = u64 (sc_bytes c + zlen p).
Proof. intros Hc. unfold sha1_update. apply sha1_update_loop_repr; [exact Hc | lia]. Qed.

Lemma sha1_pad_zeros_repr fuel : forall c m,
  sha1_repr c m -> ((120 - length m mod 64) mod 64 <= fuel)%nat ->
  sha1_repr (sha1_pad_zeros fuel c) (m ++ replicate ((120 - length m mod 64) mod 64) 0).
Proof.
  induction fuel as [|fuel IH]; intros c m Hc Hf; cbn [sha1_pad_zeros].
  { replace ((120 - length m mod 64) mod 64)%nat with O by lia. by rewrite app_nil_r. }
  assert (Hu : sc_used c = (length m mod 64)%nat) by apply Hc.
  destruct (Nat.eqb_spec (sc_used c) 56) as [E|E].
  - replace ((120 - length m mod 64) mod 64)%nat with O by zdiv. by rewrite app_nil_r.
  - destruct (sha1_update_repr c m [0] Hc) as [H1 _].
    apply IH in H1; rewrite length_app in *; cbn [length] in *; [|zdiv].
    replace ((120 - length m mod 64) mod 64)%nat
      with (S ((120 - (length m + 1) mod 64) mod 64)) by zdiv.
    by rewrite <- app_assoc in H1.
Qed.

Lemma sha1_zeros_succ n : ((120 - (n + 1) mod 64) mod 64)%nat = sha1_zeros n.
Proof. unfold sha1_zeros. zdiv. Qed.

Lemma sha1_final_repr c m :
  sha1_repr c m -> sc_bytes c = u64 (zlen m) -> sha1_final c = sha1_spec m.
Proof.
  intros Hc Hb. unfold sha1_final.
  destruct (sha1_update_repr c m [0x80] Hc) as [H1 _].
  apply (sha1_pad_zeros_repr 64) in H1; [|zdiv].
  apply (fun H => proj1 (sha1_update_repr _ _ (be64 (u64 (sc_bytes c * 8))) H)) in H1.
  destruct H1 as (_ & _ & -> & _).
  assert (Hz : ((120 - length (m ++ [128%Z]) mod 64) mod 64)%nat = sha1_zeros (length m)).
  { rewrite length_app. apply sha1_zeros_succ. }
  rewrite Hb, Hz, <- !app_assoc.
  fold (sha1_padded m). unfold sha1_spec. f_equal. f_equal.
  apply take_ge. by rewrite sha1_fold_length.
Qed.

Lemma sha1_from_spec garbage p :
  length garbage = 64%nat -> sha1_bytes_hex_from garbage p = hex20 (sha1_spec p).
Proof.
  intros Hg. unfold sha1_bytes_hex_from.
  destruct (sha1_update_repr _ [] p (sha1_init_repr garbage Hg)) as [H1 H2].
  f_equal. apply sha1_final_repr; [done | by rewrite H2].
Qed.

Lemma sha1_spec_length p : length (sha1_spec p) = 20%nat.
Proof.
  unfold sha1_spec. pose proof (sha1_fold_length (length (sha1_padded p) / 64) sha1_h0 (sha1_padded p) eq_refl) as H.
  destruct (sha1_fold _ _ _) as [|a [|b [|c [|d [|e [|f l]]]]]]; try done.
Qed.

Lemma sha1_spec_ok p : bytes_ok (sha1_spec p).
Proof.
  unfold sha1_spec. apply Forall_concat, Forall_fmap, Forall_true. intros x. unfold be32_out. cbn.
  repeat constructor; apply u8_is_byte.
Qed.

(** Lower-case hexadecimal digits, as [hex20] writes them. *)
Definition is_lhex (c : Z) : bool := isdigit c || ((97 <=? c) && (c <=? 102)).

Lemma hex_digit_lhex n : (n < 16)%nat -> is_lhex (cget hex_digits n) = true.
Proof. intros H. do 16 (destruct n as [|n]; [done|]). lia. Qed.

Lemma hex20_lhex d : bytes_ok d -> Forall (fun c => is_lhex c = true) (hex20 d).
Proof.
  intros Hd. unfold hex20. apply Forall_concat, Forall_fmap.
  apply (Forall_impl is_byte); [by apply Forall_take|]. intros b Hb. cbn.
  unfold is_byte in Hb.
  assert (0 <= Z.shiftr b 4 < 16) by (rewrite Z.shiftr_div_pow2 by lia; zdiv).
  assert (0 <= Z.land b 15 < 16).
  { change 15 with (Z.ones 4). rewrite Z.land_ones by lia. apply Z.mod_pos_bound. lia. }
  repeat constructor; apply hex_digit_lhex; lia.
Qed.

Lemma hex20_length d : length d = 20%nat -> length (hex20 d) = 40%nat.
Proof.
  intros H. unfold hex20. rewrite take_ge by lia.
  do 20 (destruct d as [|? d]; [done|]). destruct d; done.
Qed.

Lemma sha1_bytes_hex_lhex p : Forall (fun c => is_lhex c = true) (sha1_bytes_hex p).
Proof.
  unfold sha1_bytes_hex. rewrite sha1_from_spec by done. apply hex20_lhex, sha1_spec_ok.
Qed.

Lemma sha1_bytes_hex_length p : length (sha1_bytes_hex p) = 40%nat.
Proof.
  unfold sha1_bytes_hex. rewrite sha1_from_spec by done. apply hex20_length, sha1_spec_length.
Qed.

(** Any number of updates absorbs the pieces one after another. *)
Lemma sha1_updates_repr pieces : forall c m,
  sha1_repr c m -> sc_bytes c = u64 (zlen m) ->
  sha1_repr (foldl sha1_update c pieces) (m ++ concat pieces) /\
  sc_bytes (foldl sha1_update c pieces) = u64 (zlen (m ++ concat pieces)).
Proof.
  induction pieces as [|p pieces IH]; intros c m Hc Hb; cbn [foldl concat].
  { by rewrite app_nil_r. }
  destruct (sha1_update_repr c m p Hc) as [H1 H2]. rewrite app_assoc. apply IH; [done|].
  rewrite H2, Hb, zlen_app. unfold u64. apply Zplus_mod_idemp_l.
Qed.

(** C38: the streaming implementation computes the padded-message reference
    digest, however the message is cut into updates and whatever the uninitialised
    block contains; [sha1_bytes_hex] is the case of one update. *)
Theorem sha1_streaming_refines (garbage : bytes) (pieces : list bytes) (Hg : length garbage = 64%nat) :
  sha1_final (foldl sha1_update (sha1_init garbage) pieces) = sha1_spec (concat pieces) /\
  sha1_bytes_hex_from garbage (concat pieces) = hex20 (sha1_spec (concat pieces)).
Proof.
  split; [|by apply sha1_from_spec].
  destruct (sha1_updates_repr pieces (sha1_init garbage) [] (sha1_init_repr garbage Hg) eq_refl) as [H1 H2].
  by apply sha1_final_repr.
Qed.

Lemma sha1_streaming_refines_witness :
  length (replicate 64 7) = 64%nat /\
  sha1_final (foldl sha1_update (sha1_init (replicate 64 7)) [bs "a"; []; replicate 70 98; bs "c"]) =
    sha1_spec (concat [bs "a"; []; replicate 70 98; bs "c"]) /\
  sha1_bytes_hex_from (replicate 64 7) (concat [bs "a"; []; replicate 70 98; bs "c"]) =
    hex20 (sha1_spec (concat [bs "a"; []; replicate 70 98; bs "c"])).
Proof.
  split; [reflexivity|].
  apply (sha1_streaming_refines (replicate 64 7) [bs "a"; []; replicate 70 98; bs "c"]). reflexivity.
Defined.
