(* ===== verification/KvHeader.v ===== *)
(** * The KVC checkpoint envelope (ds4_kvstore.c): little-endian fields, the
    48-byte fixed header with the text length behind it, and file names. *)

From S2P Require Import Prelude Sha1.

#[local] Open Scope Z_scope.

(** ** Constants *)
Definition KV_CACHE_MAGIC0 : Z := 75.
Definition KV_CACHE_MAGIC1 : Z := 86.
Definition KV_CACHE_MAGIC2 : Z := 67.
Definition KV_CACHE_VERSION : Z := 1.
Definition KV_CACHE_PAYLOAD_ABI : Z := 2.
Definition DS4_KVSTORE_FIXED_HEADER : nat := 48.

Definition DS4_KVSTORE_REASON_UNKNOWN : Z := 0.
Definition DS4_KVSTORE_REASON_COLD : Z := 1.
Definition DS4_KVSTORE_REASON_CONTINUED : Z := 2.
Definition DS4_KVSTORE_REASON_EVICT : Z := 3.
Definition DS4_KVSTORE_REASON_SHUTDOWN : Z := 4.
Definition DS4_KVSTORE_REASON_AGENT_SYSTEM : Z := 5.
Definition DS4_KVSTORE_REASON_AGENT_SESSION : Z := 6.

Definition DS4_KVSTORE_EXT_RESPONSES_VISIBLE : Z := 2.
Definition DS4_KVSTORE_EXT_THINKING_VISIBLE : Z := 4.

(** The index entry; a cleared one is all zeros. *)
Record ds4_kvstore_entry := Entry {
  e_sha : bytes;
  e_path : bytes;
  e_quant_bits : Z;
  e_model_id : Z;
  e_reason : Z;
  e_tokens : Z;
  e_hits : Z;
  e_ctx_size : Z;
  e_ext_flags : Z;
  e_created_at : Z;
  e_last_used : Z;
  e_payload_bytes : Z;
  e_text_bytes : Z;
  e_file_size : Z
}.

(** [reason == NULL] is [None]. *)
Definition reason_code (reason : option bytes) : Z :=
  match reason with
  | None => DS4_KVSTORE_REASON_UNKNOWN
  | Some r =>
      if bytes_eqb r (bs "cold") then DS4_KVSTORE_REASON_COLD
      else if bytes_eqb r (bs "continued") then DS4_KVSTORE_REASON_CONTINUED
      else if bytes_eqb r (bs "evict") then DS4_KVSTORE_REASON_EVICT
      else if bytes_eqb r (bs "shutdown") then DS4_KVSTORE_REASON_SHUTDOWN
      else if bytes_eqb r (bs "agent-system") then DS4_KVSTORE_REASON_AGENT_SYSTEM
      else if bytes_eqb r (bs "agent-session") then DS4_KVSTORE_REASON_AGENT_SESSION
      else DS4_KVSTORE_REASON_UNKNOWN
  end.

Definition key_kind (ext_flags : Z) : bytes :=
  if negb (Z.land ext_flags DS4_KVSTORE_EXT_RESPONSES_VISIBLE =? 0) then bs "responses-visible"
  else if negb (Z.land ext_flags DS4_KVSTORE_EXT_THINKING_VISIBLE =? 0) then bs "thinking-visible"
  else bs "token-text".

(** ** Little-endian fields: writes at [p + off], reads at [p + off]. *)
Definition le_put32 (off : nat) (v : Z) (p : bytes) : bytes :=
  splice off [u8 v; u8 (Z.shiftr v 8); u8 (Z.shiftr v 16); u8 (Z.shiftr v 24)] p.

Definition le_put64 (off : nat) (v : Z) (p : bytes) : bytes :=
  splice off ((fun i => u8 (Z.shiftr v (8 * Z.of_nat i))) <$> seq 0 8) p.

Definition le_get32 (p : bytes) (off : nat) : Z :=
  Z.lor (cget p off)
    (Z.lor (Z.shiftl (cget p (off + 1)) 8)
       (Z.lor (Z.shiftl (cget p (off + 2)) 16) (Z.shiftl (cget p (off + 3)) 24))).

Definition le_get64 (p : bytes) (off : nat) : Z :=
  foldl (fun v i => Z.lor (u64 (Z.shiftl v 8)) (cget p (off + i))) 0 [7; 6; 5; 4; 3; 2; 1; 0]%nat.

(** ** Header *)
Definition fill_header (model_id quant_bits reason ext_flags tokens hits ctx_size
                        created_at last_used payload_bytes : Z) : bytes :=
  let h := replicate DS4_KVSTORE_FIXED_HEADER 0 in
  let h := <[0%nat := KV_CACHE_MAGIC0]> h in
  let h := <[1%nat := KV_CACHE_MAGIC1]> h in
  let h := <[2%nat := KV_CACHE_MAGIC2]> h in
  let h := <[3%nat := KV_CACHE_VERSION]> h in
  let h := <[4%nat := quant_bits]> h in
  let h := <[5%nat := reason]> h in
  let h := <[6%nat := ext_flags]> h in
  let h := <[7%nat := model_id]> h in
  let h := le_put32 8 tokens h in
  let h := le_put32 12 hits h in
  let h := le_put32 16 ctx_size h in
  let h := <[20%nat := KV_CACHE_PAYLOAD_ABI]> h in
  let h := le_put64 24 created_at h in
  let h := le_put64 32 last_used h in
  le_put64 40 payload_bytes h.

(** [fread(buf, 1, n, fp)] of exactly [n] bytes from the rest of a file. *)
Definition fread_exact (n : nat) (fp : bytes) : option (bytes * bytes) :=
  if (n <=? length fp)%nat then Some (take n fp, drop n fp) else None.

(** Reads the header and the text length; [sha], [path] and [file_size] of
    the entry keep the values the caller passed.  On success the entry, the
    text length and the rest of the file. *)
Definition read_header (fp : bytes) (e : ds4_kvstore_entry)
  : option (ds4_kvstore_entry * Z * bytes) :=
  match fread_exact DS4_KVSTORE_FIXED_HEADER fp with
  | None => None
  | Some (h, fp1) =>
      if negb (cget h 0 =? KV_CACHE_MAGIC0) || negb (cget h 1 =? KV_CACHE_MAGIC1) ||
         negb (cget h 2 =? KV_CACHE_MAGIC2) || negb (cget h 3 =? KV_CACHE_VERSION)
      then None
      else if negb (cget h 20 =? KV_CACHE_PAYLOAD_ABI) then None
      else
        match fread_exact 4 fp1 with
        | None => None
        | Some (tb, fp2) =>
            let text_bytes := le_get32 tb 0 in
            let e' := {|
              e_sha := e_sha e; e_path := e_path e;
              e_quant_bits := cget h 4;
              e_model_id := cget h 7;
              e_reason := if cget h 5 <=? DS4_KVSTORE_REASON_AGENT_SESSION then cget h 5
                          else DS4_KVSTORE_REASON_UNKNOWN;
              e_tokens := le_get32 h 8;
              e_hits := le_get32 h 12;
              e_ctx_size := le_get32 h 16;
              e_ext_flags := cget h 6;
              e_created_at := le_get64 h 24;
              e_last_used := le_get64 h 32;
              e_payload_bytes := le_get64 h 40;
              e_text_bytes := text_bytes;
              e_file_size := e_file_size e |} in
            if negb (e_tokens e' =? 0) && ((e_quant_bits e' =? 2) || (e_quant_bits e' =? 4))
            then Some (e', text_bytes, fp2) else None
        end
  end.

Definition entry_zero : ds4_kvstore_entry :=
  Entry [] [] 0 0 0 0 0 0 0 0 0 0 0 0.

(** ** Names *)
Definition sha_hex_name (name : bytes) : option bytes :=
  if negb (length name =? 43)%nat || negb (bytes_eqb (drop 40 name) (bs ".kv")) then None
  else if forallb isxdigit (take 40 name) then Some (tolower <$> take 40 name)
  else None.

Definition path_join (dir name : bytes) : bytes :=
  let b := dir in
  let b := if (length b =? 0)%nat || negb (cget b (length b - 1) =? 47) then b ++ [47] else b in
  b ++ name.

Definition path_for_sha (dir sha : bytes) : bytes :=
  path_join dir (take 40 sha ++ bs ".kv").

(** ** Lemmas on fields *)
Lemma le_put32_eq off v p : le_put32 off v p = splice off (le_bytes 4 v) p.
Proof. unfold le_put32. cbn [le_bytes]. by rewrite !Z.shiftr_shiftr by lia. Qed.

Lemma le_put64_eq off v p : le_put64 off v p = splice off (le_bytes 8 v) p.
Proof.
  unfold le_put64. cbn [le_bytes]. rewrite !Z.shiftr_shiftr by lia.
  cbn [seq fmap list_fmap]. by rewrite Z.shiftr_0_r.
Qed.

Lemma cget_drop p off i : cget p (off + i) = cget (drop off p) i.
Proof. unfold cget. by rewrite nth_skipn. Qed.

Lemma le_get32_val p off :
  (off + 4 <= length p)%nat -> le_get32 p off = le_val (take 4 (drop off p)).
Proof.
  intros H. unfold le_get32. rewrite <- (Nat.add_0_r off) at 1. rewrite !cget_drop.
  assert (4 <= length (drop off p))%nat by (rewrite length_drop; lia).
  destruct (drop off p) as [|b0 [|b1 [|b2 [|b3 q]]]]; simpl in *; try lia.
  by rewrite !Z.shiftl_lor, !Z.shiftl_shiftl, Z.shiftl_0_l, Z.lor_0_r by lia.
Qed.

Lemma le_fold_val l :
  bytes_ok l -> (length l <= 8)%nat ->
  foldl (fun v b => Z.lor (u64 (Z.shiftl v 8)) b) 0 (rev l) = le_val l.
Proof.
  induction 1 as [|b l Hb Hl IH]; intros Hlen; [done|]. cbn [rev length] in *.
  rewrite foldl_app, IH by lia. cbn [foldl le_val].
  pose proof (le_val_range l Hl) as Hr.
  assert (2 ^ (8 * zlen l) <= 2 ^ 56) by (apply Z.pow_le_mono_r; unfold zlen; lia).
  rewrite u64_small, Z.lor_comm; [done|].
  rewrite Z.shiftl_mul_pow2 by lia. unfold is_u64, U64_MAX. lia.
Qed.

Lemma le_get64_val p off :
  (off + 8 <= length p)%nat -> bytes_ok p -> le_get64 p off = le_val (take 8 (drop off p)).
Proof.
  intros H Hp. rewrite <- le_fold_val.
  2: { by apply Forall_take, Forall_drop. }
  2: { rewrite length_take. lia. }
  unfold le_get64. cbn [foldl]. rewrite !cget_drop.
  assert (8 <= length (drop off p))%nat by (rewrite length_drop; lia).
  destruct (drop off p) as [|b0 [|b1 [|b2 [|b3 [|b4 [|b5 [|b6 [|b7 q]]]]]]]]; simpl in *; try lia.
  done.
Qed.

(** ** The header as a list of fields *)
Definition header_fields (m q r x t h c ca lu pb : Z) : bytes :=
  [KV_CACHE_MAGIC0; KV_CACHE_MAGIC1; KV_CACHE_MAGIC2; KV_CACHE_VERSION; q; r; x; m] ++
  le_bytes 4 t ++ le_bytes 4 h ++ le_bytes 4 c ++ [KV_CACHE_PAYLOAD_ABI; 0; 0; 0] ++
  le_bytes 8 ca ++ le_bytes 8 lu ++ le_bytes 8 pb.

Lemma fill_header_eq m q r x t h c ca lu pb :
  fill_header m q r x t h c ca lu pb = header_fields m q r x t h c ca lu pb.
Proof. unfold fill_header. rewrite !le_put32_eq, !le_put64_eq. reflexivity. Qed.

Lemma fill_header_length m q r x t h c ca lu pb :
  length (fill_header m q r x t h c ca lu pb) = DS4_KVSTORE_FIXED_HEADER.
Proof. by rewrite fill_header_eq. Qed.

Lemma fill_header_ok m q r x t h c ca lu pb :
  is_byte m -> is_byte q -> is_byte r -> is_byte x ->
  bytes_ok (fill_header m q r x t h c ca lu pb).
Proof.
  intros. rewrite fill_header_eq. unfold header_fields.
  rewrite !Forall_app, !Forall_cons, !Forall_nil.
  split_and!; try apply le_bytes_ok; try done; unfold is_byte; by vm_compute.
Qed.

Lemma fread_exact_app n a rest : length a = n -> fread_exact n (a ++ rest) = Some (a, rest).
Proof.
  intros <-. unfold fread_exact. rewrite length_app.
  destruct (Nat.leb_spec (length a) (length a + length rest)); [|lia].
  by rewrite take_app_length, drop_app_length.
Qed.

Lemma fread_exact_Some n fp a rest :
  fread_exact n fp = Some (a, rest) -> fp = a ++ rest /\ length a = n.
Proof.
  unfold fread_exact. destruct (Nat.leb_spec n (length fp)); [|done]. intros [= <- <-].
  rewrite take_drop, length_take. split; [done | lia].
Qed.

(** The fields a store accepts: bytes and machine words, a known routed
    quantisation and at least one token. *)
Record header_valid (m q r x t h c ca lu pb tb : Z) : Prop := {
  hv_m : is_byte m; hv_x : is_byte x; hv_q : q = 2 \/ q = 4;
  hv_r : 0 <= r <= DS4_KVSTORE_REASON_AGENT_SESSION;
  hv_t : is_u32 t; hv_t0 : t <> 0; hv_h : is_u32 h; hv_c : is_u32 c;
  hv_ca : is_u64 ca; hv_lu : is_u64 lu; hv_pb : is_u64 pb; hv_tb : is_u32 tb
}.

(** What reading back a written header gives, for every remaining file. *)
Lemma read_header_fill m q r x t h c ca lu pb tb rest e :
  header_valid m q r x t h c ca lu pb tb ->
  read_header (fill_header m q r x t h c ca lu pb ++ le_put32 0 tb (replicate 4 0) ++ rest) e =
  Some (Entry (e_sha e) (e_path e) q m r t h c x ca lu pb tb (e_file_size e), tb, rest).
Proof.
  intros [Hm Hx Hq Hr Ht Ht0 Hh Hc Hca Hlu Hpb Htb]. unfold read_header.
  assert (Hq' : is_byte q) by (unfold is_byte; lia).
  assert (Hr' : is_byte r) by (unfold is_byte, DS4_KVSTORE_REASON_AGENT_SESSION in *; lia).
  pose proof (fill_header_ok m q r x t h c ca lu pb Hm Hq' Hr' Hx) as Hok.
  rewrite fread_exact_app by apply fill_header_length.
  set (hd := fill_header m q r x t h c ca lu pb) in *.
  assert (Hhd : hd = header_fields m q r x t h c ca lu pb) by apply fill_header_eq.
  rewrite !(le_get32_val hd), !(le_get64_val hd)
    by (try apply Hok; unfold hd; rewrite fill_header_length; unfold DS4_KVSTORE_FIXED_HEADER; lia).
  rewrite Hhd. unfold header_fields at 1 2 3 4 5. cbn [cget nth app].
  rewrite le_put32_eq. change (splice 0 (le_bytes 4 tb) (replicate 4 0)) with (le_bytes 4 tb ++ []).
  rewrite app_nil_r, fread_exact_app by apply le_bytes_length.
  rewrite le_get32_val by (rewrite le_bytes_length; lia).
  change (take 4 (drop 0 (le_bytes 4 tb))) with (le_bytes 4 tb).
  change (take 4 (drop 8 (header_fields m q r x t h c ca lu pb))) with (le_bytes 4 t).
  change (take 4 (drop 12 (header_fields m q r x t h c ca lu pb))) with (le_bytes 4 h).
  change (take 4 (drop 16 (header_fields m q r x t h c ca lu pb))) with (le_bytes 4 c).
  change (take 8 (drop 24 (header_fields m q r x t h c ca lu pb))) with (le_bytes 8 ca).
  change (take 8 (drop 32 (header_fields m q r x t h c ca lu pb))) with (le_bytes 8 lu).
  change (take 8 (drop 40 (header_fields m q r x t h c ca lu pb))) with (le_bytes 8 pb).
  rewrite !le_val_bytes4, !le_val_bytes8 by done.
  unfold header_fields, cget. cbn [nth app e_tokens e_quant_bits].
  rewrite (proj2 (Z.leb_le r DS4_KVSTORE_REASON_AGENT_SESSION)) by lia.
  rewrite (proj2 (Z.eqb_neq t 0)) by done.
  destruct Hq as [-> | ->]; reflexivity.
Qed.

Lemma reason_code_range r : 0 <= reason_code r <= DS4_KVSTORE_REASON_AGENT_SESSION.
Proof.
  unfold DS4_KVSTORE_REASON_AGENT_SESSION. destruct r as [r|]; [|done].
  unfold reason_code. repeat case_if; done.
Qed.

(** ** File names *)
Lemma lhex_facts c : is_lhex c = true -> isxdigit c = true /\ tolower c = c /\ c <> 47.
Proof.
  unfold is_lhex, isxdigit, tolower, isdigit, isupper. intros H.
  assert (48 <= c <= 57 \/ 97 <= c <= 102) by (bool_prop; destruct H; bool_prop; lia).
  split; [|split; [|lia]].
  - destruct (Z.leb_spec 48 c), (Z.leb_spec c 57), (Z.leb_spec 97 c), (Z.leb_spec c 102);
      cbn; rewrite ?orb_true_r; done || lia.
  - destruct (Z.leb_spec 65 c), (Z.leb_spec c 90); cbn; lia.
Qed.

Lemma tolower_lhex l : Forall (fun c => is_lhex c = true) l -> tolower <$> l = l.
Proof.
  induction 1 as [|c l Hc Hl IH]; [done|]. cbn [fmap list_fmap]. rewrite IH.
  f_equal. by apply lhex_facts.
Qed.

Lemma sha_hex_name_lhex sha :
  length sha = 40%nat -> Forall (fun c => is_lhex c = true) sha ->
  sha_hex_name (sha ++ bs ".kv") = Some sha.
Proof.
  intros Hl Hs. unfold sha_hex_name. rewrite length_app, Hl.
  rewrite <- Hl, drop_app_length, take_app_length. cbn [Nat.add length bs].
  rewrite bytes_eqb_refl, Hl. cbn [Nat.eqb Nat.add negb orb].
  rewrite (proj2 (forallb_forall _ _)).
  - by rewrite tolower_lhex.
  - intros c Hc%list_elem_of_In. rewrite Forall_forall in Hs. by apply lhex_facts, Hs.
Qed.

(** A name is accepted exactly when it is forty hexadecimal digits and the
    suffix; the key is the digits in lower case. *)
Lemma sha_hex_name_sound name sha :
  sha_hex_name name = Some sha ->
  exists digits, name = digits ++ bs ".kv" /\ length digits = 40%nat /\
    Forall (fun c => isxdigit c = true) digits /\ sha = tolower <$> digits.
Proof.
  unfold sha_hex_name. case_if; [done|]. bool_prop. case_if; [|done]. intros [= <-].
  apply bytes_eqb_eq in H0. exists (take 40 name). rewrite <- H0, take_drop, length_take.
  split_and!; [done | lia | | done].
  apply Forall_forall. intros c Hc%list_elem_of_In. revert c Hc. by apply forallb_forall.
Qed.

Lemma le_get32_range p off : (off + 4 <= length p)%nat -> bytes_ok p -> is_u32 (le_get32 p off).
Proof.
  intros H Hp. rewrite le_get32_val by done.
  assert (Hok : bytes_ok (take 4 (drop off p))) by (by apply Forall_take, Forall_drop).
  pose proof (le_val_range _ Hok) as Hr. unfold zlen in Hr. rewrite length_take, length_drop in Hr.
  replace (4 `min` (length p - off))%nat with 4%nat in Hr by lia.
  unfold is_u32, U32_MAX. change (2 ^ (8 * Z.of_nat 4)) with 4294967296 in Hr. lia.
Qed.

Lemma le_get64_range p off : (off + 8 <= length p)%nat -> bytes_ok p -> is_u64 (le_get64 p off).
Proof.
  intros H Hp. rewrite le_get64_val by done.
  assert (Hok : bytes_ok (take 8 (drop off p))) by (by apply Forall_take, Forall_drop).
  pose proof (le_val_range _ Hok) as Hr. unfold zlen in Hr. rewrite length_take, length_drop in Hr.
  replace (8 `min` (length p - off))%nat with 8%nat in Hr by lia.
  unfold is_u64, U64_MAX. change (2 ^ (8 * Z.of_nat 8)) with 18446744073709551616 in Hr. lia.
Qed.

Lemma cget_byte p i : bytes_ok p -> is_byte (cget p i).
Proof.
  intros Hp. unfold cget. rewrite nth_lookup. destruct (p !! i) as [b|] eqn:E; cbn; [|done].
  by eapply Forall_lookup_1.
Qed.

(** ** Properties *)

(** a header written with in-range fields reads back field by field,
    with the text length, leaving the file positioned at the text. *)
Theorem header_roundtrip (m q r x t h c ca lu pb tb : Z) (rest : bytes) (e : ds4_kvstore_entry)
    (Hv : header_valid m q r x t h c ca lu pb tb) :
  read_header (fill_header m q r x t h c ca lu pb ++ le_put32 0 tb (replicate 4 0) ++ rest) e =
  Some (Entry (e_sha e) (e_path e) q m r t h c x ca lu pb tb (e_file_size e), tb, rest).
Proof. by apply read_header_fill. Qed.

Lemma header_roundtrip_witness :
  header_valid 1 4 3 8 70000 5 4096 1700000000 1700000001 5000000000 12 /\
  read_header (fill_header 1 4 3 8 70000 5 4096 1700000000 1700000001 5000000000 ++
               le_put32 0 12 (replicate 4 0) ++ bs "hello") entry_zero =
  Some (Entry [] [] 4 1 3 70000 5 4096 8 1700000000 1700000001 5000000000 12 0, 12, bs "hello").
Proof.
  assert (H : header_valid 1 4 3 8 70000 5 4096 1700000000 1700000001 5000000000 12).
  { constructor; unfold is_byte, is_u32, is_u64, U32_MAX, U64_MAX, DS4_KVSTORE_REASON_AGENT_SESSION; lia. }
  split; [exact H | exact (header_roundtrip _ _ _ _ _ _ _ _ _ _ _ (bs "hello") entry_zero H)].
Defined.

(** whatever bytes a file holds, an accepted header has the KVC magic,
    version and payload ABI, and yields fields in their machine ranges with a
    known reason, a supported quantisation and at least one token. *)
Theorem header_accepts_only_valid (fp : bytes) (e e' : ds4_kvstore_entry) (tb : Z) (rest : bytes)
    (Hok : bytes_ok fp) (Hr : read_header fp e = Some (e', tb, rest)) :
  take 4 fp = [KV_CACHE_MAGIC0; KV_CACHE_MAGIC1; KV_CACHE_MAGIC2; KV_CACHE_VERSION] /\
  cget fp 20 = KV_CACHE_PAYLOAD_ABI /\ drop 52 fp = rest /\ (52 <= length fp)%nat /\
  header_valid (e_model_id e') (e_quant_bits e') (e_reason e') (e_ext_flags e') (e_tokens e')
    (e_hits e') (e_ctx_size e') (e_created_at e') (e_last_used e') (e_payload_bytes e') tb /\
  e_text_bytes e' = tb.
Proof.
  unfold read_header in Hr.
  destruct (fread_exact _ fp) as [[h fp1]|] eqn:E1; [|done].
  apply fread_exact_Some in E1 as [-> Hh]. unfold DS4_KVSTORE_FIXED_HEADER in Hh.
  apply Forall_app in Hok as [Hokh Hok1].
  case_if_in Hr; [done|]. case_if_in Hr; [done|].
  destruct (fread_exact 4 fp1) as [[tbb fp2]|] eqn:E2; [|done].
  apply fread_exact_Some in E2 as [-> Htb]. apply Forall_app in Hok1 as [Hoktb _].
  cbn [e_tokens e_quant_bits] in Hr. case_if_in Hr; [|done]. bool_prop.
  injection Hr as <- <- <-. cbn [e_model_id e_quant_bits e_reason e_ext_flags e_tokens e_hits
    e_ctx_size e_created_at e_last_used e_payload_bytes e_text_bytes].
  split_and!.
  - rewrite take_app_le by lia. unfold cget in *. destruct h as [|h0 [|h1 [|h2 [|h3 h4]]]]; cbn in Hh; try lia.
    cbn in *. by subst.
  - unfold cget in *. rewrite app_nth1 by lia. done.
  - rewrite app_assoc, drop_app_length'; [done | rewrite length_app; lia].
  - rewrite !length_app. lia.
  - constructor; try apply cget_byte; try apply le_get32_range; try apply le_get64_range;
      try done; try lia.
    + unfold DS4_KVSTORE_REASON_UNKNOWN. case_if; bool_prop; [|unfold DS4_KVSTORE_REASON_AGENT_SESSION; lia].
      pose proof (cget_byte h 5 Hokh). unfold is_byte in *. lia.
  - done.
Qed.

Lemma header_accepts_only_valid_witness :
  let fp := fill_header 1 4 3 8 70000 5 4096 17 18 19 ++ [12; 0; 0; 0] in
  bytes_ok fp /\ exists e', read_header fp entry_zero = Some (e', 12, []) /\
  header_valid (e_model_id e') (e_quant_bits e') (e_reason e') (e_ext_flags e') (e_tokens e')
    (e_hits e') (e_ctx_size e') (e_created_at e') (e_last_used e') (e_payload_bytes e') 12.
Proof.
  assert (Hok : bytes_ok (fill_header 1 4 3 8 70000 5 4096 17 18 19 ++ [12; 0; 0; 0])).
  { vm_compute. repeat constructor; discriminate. }
  split; [exact Hok|]. eexists. split; [vm_compute; reflexivity|].
  eapply (header_accepts_only_valid _ entry_zero _ _ _ Hok). vm_compute. reflexivity.
Defined.
