(* ===== verification/KvPolicy.v ===== *)
(** * Checkpoint policy of the store (ds4_kvstore.c): where to cut a prompt,
    when to store a continued checkpoint, and what fits the disk budget. *)

From S2P Require Import Prelude KvHeader.

#[local] Open Scope Z_scope.

Record ds4_kvstore_options := Options {
  o_min_tokens : Z;
  o_cold_max_tokens : Z;
  o_continued_interval_tokens : Z;
  o_boundary_trim_tokens : Z;
  o_boundary_align_tokens : Z
}.

Definition default_options : ds4_kvstore_options := Options 512 30000 10000 32 2048.

(** The store. [kc_cap] is the capacity of the entry array. *)
Record ds4_kvstore := Store {
  kc_enabled : bool;
  kc_dir : bytes;
  kc_budget_bytes : Z;
  kc_reject_different_quant : bool;
  kc_opt : ds4_kvstore_options;
  kc_continued_last_store_tokens : Z;
  kc_entry : list ds4_kvstore_entry;
  kc_cap : Z
}.

Definition set_continued_last (kc : ds4_kvstore) (n : Z) : ds4_kvstore :=
  Store (kc_enabled kc) (kc_dir kc) (kc_budget_bytes kc) (kc_reject_different_quant kc)
    (kc_opt kc) n (kc_entry kc) (kc_cap kc).

Definition set_entries (kc : ds4_kvstore) (es : list ds4_kvstore_entry) (cap : Z) : ds4_kvstore :=
  Store (kc_enabled kc) (kc_dir kc) (kc_budget_bytes kc) (kc_reject_different_quant kc)
    (kc_opt kc) (kc_continued_last_store_tokens kc) es cap.

(** [int] division and remainder truncate. *)
Definition store_len (kc : ds4_kvstore) (tokens : Z) : Z :=
  let trim := o_boundary_trim_tokens (kc_opt kc) in
  let align := o_boundary_align_tokens (kc_opt kc) in
  if o_min_tokens (kc_opt kc) + trim <? tokens then
    let stable := tokens - trim in
    let stable := if 0 <? align then stable - Z.rem stable align else stable in
    if o_min_tokens (kc_opt kc) <=? stable then stable else tokens
  else tokens.

(** The scan for the last user marker in front of the first assistant one. *)
Fixpoint anchor_scan (prompt : list Z) (i last_user user_token_id assistant_token_id : Z) : Z :=
  match prompt with
  | [] => last_user
  | token :: rest =>
      if token =? assistant_token_id then last_user
      else anchor_scan rest (i + 1) (if token =? user_token_id then i else last_user)
             user_token_id assistant_token_id
  end.

Definition chat_anchor_pos (kc : ds4_kvstore) (prompt : option (list Z))
    (user_token_id assistant_token_id : Z) : Z :=
  match prompt with
  | None => -1
  | Some v =>
      if (user_token_id <? 0) || (assistant_token_id <? 0) then -1
      else
        let last_user := anchor_scan v 0 (-1) user_token_id assistant_token_id in
        if o_min_tokens (kc_opt kc) <=? last_user then last_user else -1
  end.

Definition continued_step (kc : ds4_kvstore) : Z :=
  if negb (kc_enabled kc) || (o_continued_interval_tokens (kc_opt kc) <=? 0) then 0
  else
    let step := o_continued_interval_tokens (kc_opt kc) in
    let align := o_boundary_align_tokens (kc_opt kc) in
    if 0 <? align then
      let step := Z.quot (step + align - 1) align * align in
      if step <=? 0 then align else step
    else step.

Definition continued_store_target (kc : ds4_kvstore) (live_tokens : Z) : Z :=
  let step := continued_step kc in
  if step <=? 0 then 0
  else if live_tokens <? o_min_tokens (kc_opt kc) then 0
  else if negb (Z.rem live_tokens step =? 0) then 0
  else if live_tokens <=? kc_continued_last_store_tokens kc then 0
  else live_tokens.

Definition note_store (kc : ds4_kvstore) (tokens : Z) : ds4_kvstore :=
  if kc_continued_last_store_tokens kc <? tokens then set_continued_last kc tokens else kc.

Definition suppress_continued_store (kc : ds4_kvstore) (tokens : Z) : Z * ds4_kvstore :=
  if negb (continued_store_target kc tokens =? tokens) then (-1, kc)
  else (kc_continued_last_store_tokens kc, note_store kc tokens).

Definition restore_suppressed_continued (kc : ds4_kvstore) (old_tokens suppressed_tokens : Z)
  : ds4_kvstore :=
  if (0 <=? old_tokens) && (kc_continued_last_store_tokens kc =? suppressed_tokens)
  then set_continued_last kc old_tokens else kc.

(** ** Sizes: [uint64_t] arithmetic, every subtraction guarded. *)
Definition kv_fixed : Z := Z.of_nat DS4_KVSTORE_FIXED_HEADER + 4.

Definition cache_file_size_bytes (text_bytes payload_bytes trailer_bytes : Z) : option Z :=
  if (u64 (U64_MAX - kv_fixed) <? text_bytes) ||
     (u64 (U64_MAX - kv_fixed - text_bytes) <? payload_bytes) ||
     (u64 (U64_MAX - kv_fixed - text_bytes - payload_bytes) <? trailer_bytes)
  then None
  else Some (u64 (kv_fixed + text_bytes + payload_bytes + trailer_bytes)).

Definition cache_budget_required (file_bytes : Z) : option Z :=
  let slack := file_bytes / 100 in
  let slack := if negb (file_bytes mod 100 =? 0) then u64 (slack + 1) else slack in
  if u64 (U64_MAX - file_bytes) <? slack then None
  else Some (u64 (file_bytes + slack)).

(** The verdict with the two sizes reported (0 when not written).  A NULL
    store is [None]. *)
Definition file_size_fits (kc : option ds4_kvstore) (text_bytes payload_bytes trailer_bytes : Z)
  : bool * Z * Z :=
  match cache_file_size_bytes text_bytes payload_bytes trailer_bytes with
  | None => (false, 0, 0)
  | Some file_bytes =>
      match kc with
      | None => (true, file_bytes, 0)
      | Some kc =>
          if kc_budget_bytes kc =? 0 then (true, file_bytes, 0)
          else match cache_budget_required file_bytes with
               | None => (false, file_bytes, 0)
               | Some required => (required <=? kc_budget_bytes kc, file_bytes, required)
               end
      end
  end.

(** ** Theorems *)
Section Policy.
Variable kc : ds4_kvstore.

(** Options as the front ends set them: no negative count. *)
Definition options_nonneg : Prop :=
  0 <= o_min_tokens (kc_opt kc) /\ 0 <= o_boundary_trim_tokens (kc_opt kc) /\
  0 <= o_boundary_align_tokens (kc_opt kc).

Lemma rem_pos a b : 0 <= a -> 0 < b -> Z.rem a b = a mod b.
Proof. intros. apply Z.rem_mod_nonneg; lia. Qed.

Lemma store_len_cut tokens :
  options_nonneg ->
  let n := store_len kc tokens in
  let align := o_boundary_align_tokens (kc_opt kc) in
  n <= tokens /\
  (n <> tokens ->
     o_min_tokens (kc_opt kc) <= n /\ n <= tokens - o_boundary_trim_tokens (kc_opt kc) /\
     (0 < align -> n mod align = 0 /\ tokens - o_boundary_trim_tokens (kc_opt kc) - n < align)).
Proof.
  intros (Hm & Ht & Ha). unfold store_len. cbv zeta.
  destruct (Z.ltb_spec (o_min_tokens (kc_opt kc) + o_boundary_trim_tokens (kc_opt kc)) tokens);
    [|lia].
  destruct (Z.ltb_spec 0 (o_boundary_align_tokens (kc_opt kc))).
  - rewrite rem_pos by lia.
    set (a := o_boundary_align_tokens (kc_opt kc)) in *.
    set (x := tokens - o_boundary_trim_tokens (kc_opt kc)) in *.
    pose proof (Z.mod_pos_bound x a). case_if; bool_prop; [|lia].
    split; [lia|]. intros _. split_and!; try lia. intros _. split; [|lia].
    rewrite Zminus_mod_idemp_r, Z.sub_diag. apply Z.mod_0_l. lia.
  - case_if; bool_prop; lia.
Qed.

Lemma anchor_scan_spec v : forall i last u a,
  let r := anchor_scan v i last u a in
  r = last /\ (forall k, (k < length v)%nat -> v !! k = Some u -> u <> a ->
               exists j, (j < k)%nat /\ v !! j = Some a) \/
  i <= r < i + zlen v /\ v !! Z.to_nat (r - i) = Some u /\ u <> a /\
  (forall j, (j < Z.to_nat (r - i))%nat -> v !! j <> Some a) /\
  (forall k, (Z.to_nat (r - i) < k)%nat -> v !! k = Some u ->
     exists j, (j < k)%nat /\ v !! j = Some a).
Proof.
  induction v as [|t v IH]; intros i last u a; cbn [anchor_scan].
  { left. split; [done|]. intros k Hk. simpl in Hk. lia. }
  destruct (Z.eqb_spec t a) as [->|Hta].
  { left. split; [done|]. intros k _ Hk Hua. exists 0%nat. split; [|done].
    destruct k; [simpl in Hk; congruence | lia]. }
  specialize (IH (i + 1) (if t =? u then i else last) u a). cbn zeta in IH.
  set (r := anchor_scan v (i + 1) _ u a) in *.
  unfold zlen in *. cbn [length].
  destruct IH as [[Hr Hno] | (Hr & Hu & Hua & Hb & Hafter)].
  - destruct (Z.eqb_spec t u) as [->|Htu].
    + right. rewrite Hr, Z.sub_diag. split_and!; [lia | lia | done | done | intros; simpl in *; lia | ].
      intros k Hk Hvk. destruct k as [|k]; [simpl in Hk; lia|]. simpl in Hvk.
      destruct (Hno k) as (j & Hj & Hvj); [by eapply lookup_lt_Some | done | done|].
      exists (S j). split; [lia | done].
    + left. split; [done|]. intros [|k] Hk Hvk Hua; [simpl in Hvk; congruence|].
      simpl in Hvk. destruct (Hno k) as (j & Hj & Hvj); [simpl in Hk; lia | done | done|].
      exists (S j). split; [lia | done].
  - right. replace (Z.to_nat (r - i)) with (S (Z.to_nat (r - (i + 1)))) by lia.
    split_and!; [lia | lia | done | done | | ].
    + intros [|j] Hj; simpl; [congruence | apply Hb; lia].
    + intros [|k] Hk Hvk; [lia|]. simpl in Hvk.
      destruct (Hafter k) as (j & Hj & Hvj); [lia | done|]. exists (S j). split; [lia | done].
Qed.

(** The returned anchor is the last user marker before any assistant
    marker, and is far enough into the prompt. *)
Lemma chat_anchor_sound v u a :
  let r := chat_anchor_pos kc (Some v) u a in
  r <> -1 ->
  o_min_tokens (kc_opt kc) <= r /\
  (0 <= r -> v !! Z.to_nat r = Some u /\
   (forall j, (j < Z.to_nat r)%nat -> v !! j <> Some a) /\
   (forall k, (Z.to_nat r < k)%nat -> v !! k = Some u ->
      exists j, (j < k)%nat /\ v !! j = Some a)).
Proof.
  cbv zeta. unfold chat_anchor_pos. case_if; [done|]. case_if; [|done]. bool_prop. intros Hr.
  split; [done|]. intros Hr0.
  pose proof (anchor_scan_spec v 0 (-1) u a) as [[Hl _] | (Hr' & Hu & _ & Hb & Ha)]; [lia|].
  rewrite Z.sub_0_r in *. done.
Qed.

(** The interval rounded up to the alignment: the least multiple of the
    alignment that is at least the interval. *)
Lemma continued_step_spec :
  kc_enabled kc = true ->
  0 < o_continued_interval_tokens (kc_opt kc) ->
  0 < o_boundary_align_tokens (kc_opt kc) ->
  let s := continued_step kc in
  let iv := o_continued_interval_tokens (kc_opt kc) in
  let al := o_boundary_align_tokens (kc_opt kc) in
  s mod al = 0 /\ iv <= s < iv + al.
Proof.
  intros He Hi Ha. unfold continued_step. rewrite He. cbv zeta. cbn [negb orb].
  destruct (Z.leb_spec (o_continued_interval_tokens (kc_opt kc)) 0); [lia|].
  destruct (Z.ltb_spec 0 (o_boundary_align_tokens (kc_opt kc))); [|lia].
  set (iv := o_continued_interval_tokens (kc_opt kc)) in *.
  set (al := o_boundary_align_tokens (kc_opt kc)) in *.
  rewrite Z.quot_div_nonneg by lia.
  pose proof (Z.div_mod (iv + al - 1) al ltac:(lia)).
  pose proof (Z.mod_pos_bound (iv + al - 1) al ltac:(lia)).
  case_if; bool_prop; [nia|]. split; [apply Z_mod_mult | nia].
Qed.

Lemma continued_target_spec live :
  0 <= live -> continued_store_target kc live <> 0 ->
  continued_store_target kc live = live /\ 0 < continued_step kc /\
  live mod continued_step kc = 0 /\ o_min_tokens (kc_opt kc) <= live /\
  kc_continued_last_store_tokens kc < live.
Proof.
  intros Hl. unfold continued_store_target. cbv zeta.
  destruct (Z.leb_spec (continued_step kc) 0); [done|].
  case_if; [done|]. case_if; [done|]. case_if; [done|]. bool_prop.
  rewrite rem_pos in * by lia. intros _. split_and!; lia.
Qed.
End Policy.

Lemma note_store_monotone kc n :
  kc_continued_last_store_tokens (note_store kc n) =
  Z.max (kc_continued_last_store_tokens kc) n.
Proof. unfold note_store. case_if; bool_prop; cbn; lia. Qed.

(** After a store is noted, the same frontier is not a target again. *)
Lemma note_store_blocks kc n m :
  m <= n -> continued_store_target (note_store kc n) m = 0.
Proof.
  intros Hm. pose proof (note_store_monotone kc n) as Hn.
  unfold continued_store_target. cbv zeta.
  case_if; [done|]. case_if; [done|]. case_if; [done|].
  rewrite (proj2 (Z.leb_le m _)) by lia. done.
Qed.

Lemma set_continued_last_self kc :
  set_continued_last kc (kc_continued_last_store_tokens kc) = kc.
Proof. by destruct kc. Qed.

Lemma set_continued_last_twice kc a b :
  set_continued_last (set_continued_last kc a) b = set_continued_last kc b.
Proof. done. Qed.

(** Suppressing a boundary and restoring it gives the store back. *)
Lemma suppress_restore kc tokens old kc' :
  0 <= kc_continued_last_store_tokens kc ->
  suppress_continued_store kc tokens = (old, kc') ->
  restore_suppressed_continued kc' old tokens = kc.
Proof.
  intros H0. unfold suppress_continued_store, restore_suppressed_continued.
  destruct (Z.eqb_spec (continued_store_target kc tokens) tokens) as [E|E]; cbn [negb];
    intros [= <- <-]; [|done].
  rewrite (proj2 (Z.leb_le 0 _)) by done. cbn [andb].
  unfold note_store. destruct (Z.ltb_spec (kc_continued_last_store_tokens kc) tokens).
  - cbn [kc_continued_last_store_tokens set_continued_last]. rewrite Z.eqb_refl.
    rewrite set_continued_last_twice. apply set_continued_last_self.
  - case_if; [apply set_continued_last_self | done].
Qed.

Lemma slack_round_up f :
  0 <= f <= U64_MAX ->
  (if negb (f mod 100 =? 0) then (f / 100 + 1) mod 18446744073709551616 else f / 100)
  = (f + 99) / 100.
Proof.
  unfold U64_MAX. intros Hf. case_if; bool_prop; [rewrite Z.mod_small by zdiv|]; zdiv.
Qed.

(** An accepted file size is the exact sum and fits the budget with its 1%
    headroom: no 64-bit wrap-around happens on the way. *)
Lemma file_size_fits_exact kc tb pb trb fb rb :
  0 <= tb -> 0 <= pb -> 0 <= trb ->
  file_size_fits (Some kc) tb pb trb = (true, fb, rb) ->
  fb = kv_fixed + tb + pb + trb /\ fb <= U64_MAX /\
  (kc_budget_bytes kc <> 0 ->
     rb = fb + (fb + 99) / 100 /\ rb <= kc_budget_bytes kc /\ rb <= U64_MAX).
Proof.
  intros Ht Hp Htr. unfold file_size_fits, cache_file_size_bytes.
  unfold kv_fixed, DS4_KVSTORE_FIXED_HEADER, u64, U64_MAX.
  change (Z.of_nat 48 + 4) with 52.
  case_if; [done|]. bool_prop.
  rewrite !(Z.mod_small _ 18446744073709551616) in * by lia.
  destruct (Z.eqb_spec (kc_budget_bytes kc) 0); [intros [= <- <-]; lia|].
  unfold cache_budget_required, u64, U64_MAX. cbv zeta.
  set (f := 52 + tb + pb + trb) in *.
  rewrite slack_round_up by (unfold U64_MAX; lia). rewrite (Z.mod_small (18446744073709551615 - f)) by lia.
  case_if; [done|]. bool_prop. rewrite Z.mod_small by zdiv.
  intros [= Hb <- <-]. apply Z.leb_le in Hb. lia.
Qed.

(** The refusal is not spurious: when the exact sizes fit, it accepts. *)
Lemma file_size_fits_complete kc tb pb trb :
  0 <= tb -> 0 <= pb -> 0 <= trb ->
  let fb := kv_fixed + tb + pb + trb in
  fb + (fb + 99) / 100 <= kc_budget_bytes kc -> kc_budget_bytes kc <= U64_MAX ->
  file_size_fits (Some kc) tb pb trb = (true, fb, fb + (fb + 99) / 100).
Proof.
  intros Ht Hp Htr. unfold file_size_fits, cache_file_size_bytes, cache_budget_required.
  unfold kv_fixed, DS4_KVSTORE_FIXED_HEADER, u64, U64_MAX. cbv zeta.
  change (Z.of_nat 48 + 4) with 52. set (f := 52 + tb + pb + trb). intros Hb Hmax.
  assert (0 <= (f + 99) / 100) by zdiv.
  rewrite (Z.mod_small (18446744073709551615 - 52)), (Z.mod_small (18446744073709551615 - 52 - tb)),
    (Z.mod_small (18446744073709551615 - 52 - tb - pb)) by lia.
  case_if; [bool_prop; lia|]. rewrite (Z.mod_small f) by lia.
  destruct (Z.eqb_spec (kc_budget_bytes kc) 0); [lia|].
  rewrite slack_round_up by (unfold U64_MAX; lia). rewrite (Z.mod_small (18446744073709551615 - f)) by lia.
  case_if; [bool_prop; lia|]. rewrite Z.mod_small by lia.
  by rewrite (proj2 (Z.leb_le _ _)) by lia.
Qed.

(** ** Properties *)

(** a shortened store length is a multiple of the boundary alignment,
    stays at least the minimum, trims at least the boundary tokens and less
    than one alignment more. *)
Theorem store_len_aligned (kc : ds4_kvstore) (tokens : Z) (Ho : options_nonneg kc) :
  let n := store_len kc tokens in
  let align := o_boundary_align_tokens (kc_opt kc) in
  n <= tokens /\
  (n <> tokens ->
     o_min_tokens (kc_opt kc) <= n /\ n <= tokens - o_boundary_trim_tokens (kc_opt kc) /\
     (0 < align -> n mod align = 0 /\ tokens - o_boundary_trim_tokens (kc_opt kc) - n < align)).
Proof. by apply store_len_cut. Qed.

Definition default_store : ds4_kvstore := Store true [47] 4294967296 false default_options 0 [] 0.

Lemma store_len_aligned_witness :
  options_nonneg default_store /\ store_len default_store 11000 = 10240 /\
  store_len default_store 11000 <= 11000.
Proof.
  assert (H : options_nonneg default_store) by (unfold options_nonneg; cbn; lia).
  split; [exact H|]. split; [reflexivity|].
  exact (proj1 (store_len_aligned default_store 11000 H)).
Defined.

(** an accepted checkpoint size is the exact sum of its parts, without
    64-bit wrap-around, and fits the budget with the 1% headroom. *)
Theorem accepted_size_is_exact (kc : ds4_kvstore) (tb pb trb fb rb : Z)
    (Ht : 0 <= tb) (Hp : 0 <= pb) (Htr : 0 <= trb)
    (Hf : file_size_fits (Some kc) tb pb trb = (true, fb, rb)) :
  fb = kv_fixed + tb + pb + trb /\ fb <= U64_MAX /\
  (kc_budget_bytes kc <> 0 ->
     rb = fb + (fb + 99) / 100 /\ rb <= kc_budget_bytes kc /\ rb <= U64_MAX).
Proof. by apply file_size_fits_exact. Qed.

Lemma accepted_size_is_exact_witness :
  file_size_fits (Some default_store) 100 5000000 7 = (true, 5000159, 5050161) /\
  5000159 = kv_fixed + 100 + 5000000 + 7.
Proof.
  split; [vm_compute; reflexivity|].
  apply (accepted_size_is_exact default_store 100 5000000 7 5000159 5050161); try lia.
  vm_compute. reflexivity.
Defined.

(** continued checkpoints happen exactly at positive multiples of the
    aligned interval that are past the last stored frontier; after noting a
    store, no frontier up to it is stored again. *)
Theorem continued_frontiers (kc : ds4_kvstore) (live n m : Z)
    (Hl : 0 <= live) (Hm : m <= n)
    (He : kc_enabled kc = true) (Hi : 0 < o_continued_interval_tokens (kc_opt kc))
    (Ha : 0 < o_boundary_align_tokens (kc_opt kc)) :
  (continued_store_target kc live <> 0 ->
     continued_store_target kc live = live /\
     live mod continued_step kc = 0 /\ live mod o_boundary_align_tokens (kc_opt kc) = 0 /\
     o_min_tokens (kc_opt kc) <= live /\ kc_continued_last_store_tokens kc < live) /\
  continued_store_target (note_store kc n) m = 0.
Proof.
  split; [|by apply note_store_blocks]. intros Ht.
  destruct (continued_target_spec kc live Hl Ht) as (H1 & H2 & H3 & H4 & H5).
  destruct (continued_step_spec kc He Hi Ha) as [H6 _]. split_and!; try done.
  apply Z.mod_divide in H3, H6; try lia. apply Z.mod_divide; [lia|]. by etrans.
Qed.

Lemma continued_frontiers_witness :
  continued_store_target default_store 20480 = 20480 /\
  continued_store_target (note_store default_store 20480) 10240 = 0.
Proof.
  split; [vm_compute; reflexivity|].
  apply (continued_frontiers default_store 20480 20480 10240); cbn; (lia || reflexivity).
Defined.
