(* ===== verification/KvStore.v ===== *)
(** * The checkpoint store's index (ds4_kvstore.c): the directory scan and the
    longest-prefix lookup

    The directory is an association list from paths to contents, in the order
    [readdir] returns; the index is rebuilt from it by reading each header.  The
    directory opens and its files are readable: failures of [opendir] and [fopen]
    (which leave an empty index, or out the file) are not modelled. *)

From S2P Require Import Prelude Sha1 KvHeader KvPolicy.

#[local] Open Scope Z_scope.

(** ** The file system: regular files by path, in directory order. *)
Abbreviation kvfs := (list (bytes * bytes)).

Fixpoint fs_lookup (fs : kvfs) (path : bytes) : option bytes :=
  match fs with
  | [] => None
  | (p, c) :: fs' => if bytes_eqb p path then Some c else fs_lookup fs' path
  end.

Fixpoint fs_unlink (fs : kvfs) (path : bytes) : kvfs :=
  match fs with
  | [] => []
  | (p, c) :: fs' => if bytes_eqb p path then fs' else (p, c) :: fs_unlink fs' path
  end.

(** Creates or replaces the content of [path]. *)
Fixpoint fs_write (fs : kvfs) (path content : bytes) : kvfs :=
  match fs with
  | [] => [(path, content)]
  | (p, c) :: fs' =>
      if bytes_eqb p path then (p, content) :: fs' else (p, c) :: fs_write fs' path content
  end.

(** [rename(from, to)] replaces [to]. *)
Definition fs_rename (fs : kvfs) (from to : bytes) : kvfs :=
  match fs_lookup fs from with
  | None => fs
  | Some c => fs_write (fs_unlink fs from) to c
  end.

(** Names [readdir] yields for [dir]. *)
Definition dir_name (dir path : bytes) : option bytes :=
  let d := path_join dir [] in
  if starts_with d path then
    let n := drop (length d) path in
    if existsb (Z.eqb 47) n then None else Some n
  else None.

Definition readdir (fs : kvfs) (dir : bytes) : list bytes := omap (dir_name dir) (fs.*1).

(** ** The index *)
Definition set_file (e : ds4_kvstore_entry) (sha path : bytes) (size : Z) : ds4_kvstore_entry :=
  Entry sha path (e_quant_bits e) (e_model_id e) (e_reason e) (e_tokens e) (e_hits e)
    (e_ctx_size e) (e_ext_flags e) (e_created_at e) (e_last_used e) (e_payload_bytes e)
    (e_text_bytes e) size.

Definition read_entry_file (fs : kvfs) (path sha : bytes) : option ds4_kvstore_entry :=
  match fs_lookup fs path with
  | None => None
  | Some content =>
      if zlen content <? kv_fixed then None
      else
        match read_header content entry_zero with
        | None => None
        | Some (e, text_bytes, _) =>
            if (u64 (U64_MAX - kv_fixed) <? text_bytes) ||
               (u64 (U64_MAX - kv_fixed - text_bytes) <? e_payload_bytes e) then None
            else
              let expected := u64 (kv_fixed + text_bytes + e_payload_bytes e) in
              if zlen content <? expected then None
              else Some (set_file e sha path (zlen content))
        end
  end.

Definition cache_push (kc : ds4_kvstore) (e : ds4_kvstore_entry) : ds4_kvstore :=
  let cap := if zlen (kc_entry kc) =? kc_cap kc
             then (if negb (kc_cap kc =? 0) then kc_cap kc * 2 else 16) else kc_cap kc in
  set_entries kc (kc_entry kc ++ [e]) cap.

Definition store_clear (kc : ds4_kvstore) : ds4_kvstore := set_entries kc [] 0.

(** One directory name of the refresh loop. *)
Definition refresh_name (fs : kvfs) (kc : ds4_kvstore) (name : bytes) : ds4_kvstore :=
  match sha_hex_name name with
  | None => kc
  | Some sha =>
      match read_entry_file fs (path_join (kc_dir kc) name) sha with
      | Some e => cache_push kc e
      | None => kc
      end
  end.

Definition cache_refresh (fs : kvfs) (kc : ds4_kvstore) : ds4_kvstore :=
  if negb (kc_enabled kc) then kc
  else foldl (refresh_name fs) (store_clear kc) (readdir fs (kc_dir kc)).

(** Rewrites the header in place with a new hit count and [now]. *)
Definition touch_file (fs : kvfs) (path : bytes) (hits now : Z) : bool * kvfs :=
  match fs_lookup fs path with
  | None => (false, fs)
  | Some content =>
      match read_header content entry_zero with
      | None => (false, fs)
      | Some (e, _, _) =>
          let h := fill_header (e_model_id e) (e_quant_bits e) (e_reason e) (e_ext_flags e)
                     (e_tokens e) hits (e_ctx_size e) (e_created_at e) now (e_payload_bytes e) in
          (true, fs_write fs path (splice 0 h content))
      end
  end.

(** ** Prefix lookup *)
Definition byte_prefix_match (text prefix : bytes) : bool := starts_with prefix text.

Definition find_candidate (kc : ds4_kvstore) (prompt_text : bytes) (model_id quant_bits ctx_size : Z)
    (e : ds4_kvstore_entry) : bool :=
  negb ((zlen prompt_text <? e_text_bytes e) || (U64_MAX <? e_text_bytes e)) &&
  negb (i32 (e_tokens e) <? o_min_tokens (kc_opt kc)) &&
  (e_model_id e =? u8 model_id) &&
  negb (u32 ctx_size <? e_ctx_size e) &&
  negb (kc_reject_different_quant kc && negb (e_quant_bits e =? u8 quant_bits)).

(** The body of the scan: skip tests in the source's order, the hash last. *)
Definition find_step (kc : ds4_kvstore) (prompt_text : bytes) (model_id quant_bits ctx_size : Z)
    (best : option (nat * ds4_kvstore_entry)) (i : nat) (e : ds4_kvstore_entry)
  : option (nat * ds4_kvstore_entry) :=
  if negb (find_candidate kc prompt_text model_id quant_bits ctx_size e) then best
  else
    let worse := match best with
                 | None => false
                 | Some (_, b) =>
                     (e_text_bytes e <? e_text_bytes b) ||
                     ((e_text_bytes e =? e_text_bytes b) && (e_tokens e <=? e_tokens b))
                 end in
    if worse then best
    else if bytes_eqb (sha1_bytes_hex (take (Z.to_nat (e_text_bytes e)) prompt_text)) (e_sha e)
         then Some (i, e) else best.

Fixpoint find_scan (kc : ds4_kvstore) (prompt_text : bytes) (model_id quant_bits ctx_size : Z)
    (best : option (nat * ds4_kvstore_entry)) (i : nat) (es : list ds4_kvstore_entry)
  : option (nat * ds4_kvstore_entry) :=
  match es with
  | [] => best
  | e :: rest =>
      find_scan kc prompt_text model_id quant_bits ctx_size
        (find_step kc prompt_text model_id quant_bits ctx_size best i e) (S i) rest
  end.

(** The index of the best entry ([None] is -1) and the refreshed store. *)
Definition find_text_prefix (fs : kvfs) (kc : ds4_kvstore) (prompt_text : option bytes)
    (model_id quant_bits ctx_size : Z) : option (nat * ds4_kvstore_entry) * ds4_kvstore :=
  match prompt_text with
  | None => (None, kc)
  | Some text =>
      let kc1 := cache_refresh fs kc in
      (find_scan kc1 text model_id quant_bits ctx_size None 0 (kc_entry kc1), kc1)
  end.

(** ** Facts on the file system *)

Lemma fs_lookup_Some fs p c : NoDup (fs.*1) -> (p, c) ∈ fs -> fs_lookup fs p = Some c.
Proof.
  induction fs as [|[q d] fs IH]; cbn [fmap list_fmap fst fs_lookup]; intros Hnd Hin;
    [by apply not_elem_of_nil in Hin|].
  apply NoDup_cons in Hnd as [Hq Hnd]. apply elem_of_cons in Hin as [[= <- <-]|Hin].
  - by rewrite bytes_eqb_refl.
  - destruct (bytes_eqb q p) eqn:E; [|by apply IH].
    apply bytes_eqb_eq in E as ->. destruct Hq. apply list_elem_of_fmap. by exists (p, c).
Qed.

Lemma fs_lookup_elem fs p c : fs_lookup fs p = Some c -> (p, c) ∈ fs.
Proof.
  induction fs as [|[q d] fs IH]; cbn [fs_lookup]; [done|].
  destruct (bytes_eqb q p) eqn:E.
  - apply bytes_eqb_eq in E as ->. intros [= ->]. left.
  - intros H. right. auto.
Qed.

Lemma fs_unlink_split fs p c :
  fs_lookup fs p = Some c ->
  exists f1 f2, fs = f1 ++ (p, c) :: f2 /\ fs_unlink fs p = f1 ++ f2 /\ p ∉ f1.*1.
Proof.
  induction fs as [|[q d] fs IH]; cbn [fs_lookup fs_unlink]; [done|].
  destruct (bytes_eqb q p) eqn:E.
  - apply bytes_eqb_eq in E as ->. intros [= ->]. exists [], fs. split_and!; [done..|].
    apply not_elem_of_nil.
  - intros (f1 & f2 & -> & -> & Hf)%IH. exists ((q, d) :: f1), f2. split_and!; [done..|].
    cbn [fmap list_fmap fst]. apply bytes_eqb_neq in E. by intros [?|?]%elem_of_cons.
Qed.

Lemma fs_unlink_sub fs p pc : pc ∈ fs_unlink fs p -> pc ∈ fs.
Proof.
  induction fs as [|[q d] fs IH]; cbn [fs_unlink]; [done|].
  case_if; [by right|]. rewrite !elem_of_cons. naive_solver.
Qed.

Lemma fs_unlink_NoDup fs p : NoDup (fs.*1) -> NoDup ((fs_unlink fs p).*1).
Proof.
  induction fs as [|[q d] fs IH]; cbn [fs_unlink]; [done|]. cbn [fmap list_fmap fst].
  intros [Hq Hnd]%NoDup_cons. case_if; [done|]. cbn [fmap list_fmap fst]. constructor; [|by apply IH].
  intros ([q' d'] & -> & Hin)%list_elem_of_fmap. apply Hq, list_elem_of_fmap.
  exists (q', d'). split; [done|]. by eapply fs_unlink_sub.
Qed.

Lemma fs_write_lookup fs p c : fs_lookup (fs_write fs p c) p = Some c.
Proof.
  induction fs as [|[q d] fs IH]; cbn [fs_write fs_lookup]; [by rewrite bytes_eqb_refl|].
  destruct (bytes_eqb q p) eqn:E; cbn [fs_lookup]; by rewrite E.
Qed.

Lemma fs_write_elem fs p c pc : pc ∈ fs_write fs p c -> pc = (p, c) \/ pc ∈ fs.
Proof.
  induction fs as [|[q d] fs IH]; cbn [fs_write].
  - intros [->|Hn]%elem_of_cons; [by left | by apply not_elem_of_nil in Hn].
  - case_if.
    + apply bytes_eqb_eq in E as ->. rewrite !elem_of_cons. naive_solver.
    + rewrite !elem_of_cons. naive_solver.
Qed.

Lemma fs_write_NoDup fs p c : NoDup (fs.*1) -> NoDup ((fs_write fs p c).*1).
Proof.
  induction fs as [|[q d] fs IH]; cbn [fs_write fmap list_fmap fst].
  - intros _. by apply NoDup_singleton.
  - intros [Hq Hnd]%NoDup_cons. case_if; cbn [fmap list_fmap fst]; constructor; [done|done| |].
    + intros ([q' d'] & Heq & Hin)%list_elem_of_fmap. simpl in Heq. subst q'.
      apply fs_write_elem in Hin as [[= -> ->]|Hin]; [by rewrite bytes_eqb_refl in E|].
      apply Hq, list_elem_of_fmap. by exists (q, d').
    + by apply IH.
Qed.

(** Writing a scratch file and removing it adds nothing. *)
Lemma fs_write_unlink_sub fs p c pc : pc ∈ fs_unlink (fs_write fs p c) p -> pc ∈ fs.
Proof.
  induction fs as [|[q d] fs IH]; cbn [fs_write fs_unlink].
  - rewrite bytes_eqb_refl. done.
  - destruct (bytes_eqb q p) eqn:E; cbn [fs_unlink]; rewrite E; [by right|].
    rewrite !elem_of_cons. naive_solver.
Qed.

Lemma dir_name_path dir p n : dir_name dir p = Some n -> path_join dir n = p.
Proof.
  unfold dir_name. destruct (starts_with (path_join dir []) p) eqn:E; [|done].
  case_if; [done|]. intros [= <-]. apply starts_with_iff in E as [r ->].
  rewrite drop_app_length. unfold path_join. by rewrite app_nil_r.
Qed.

Lemma dir_name_join dir n : existsb (Z.eqb 47) n = false -> dir_name dir (path_join dir n) = Some n.
Proof.
  intros Hn. assert (Hj : path_join dir n = path_join dir [] ++ n).
  { unfold path_join. by rewrite app_nil_r. }
  unfold dir_name. by rewrite Hj, starts_with_app, drop_app_length, Hn.
Qed.

(** The name of a checkpoint is recognised in its directory. *)
Lemma dir_name_sha dir sha :
  length sha = 40%nat -> Forall (fun c => is_lhex c = true) sha ->
  dir_name dir (path_for_sha dir sha) = Some (sha ++ bs ".kv").
Proof.
  intros Hl Hs. unfold path_for_sha. rewrite take_ge by lia. apply dir_name_join.
  rewrite existsb_app. apply orb_false_iff. split; [|done].
  induction Hs as [|c l Hc Hs IH]; [done|]. cbn [existsb]. apply orb_false_iff. split.
  - apply Z.eqb_neq. intros <-. done.
  - clear -Hs. induction Hs as [|c l Hc Hs IH]; [done|]. cbn [existsb].
    apply orb_false_iff. split; [apply Z.eqb_neq; intros <-; done | done].
Qed.

(** The index entry of one file of the directory. *)
Definition entry_of (fs : kvfs) (dir path : bytes) : option ds4_kvstore_entry :=
  match dir_name dir path with
  | None => None
  | Some name => match sha_hex_name name with
                 | None => None
                 | Some sha => read_entry_file fs path sha
                 end
  end.

Lemma refresh_entries fs kc paths :
  kc_entry (foldl (refresh_name fs) kc (omap (dir_name (kc_dir kc)) paths)) =
  kc_entry kc ++ omap (entry_of fs (kc_dir kc)) paths /\
  kc_dir (foldl (refresh_name fs) kc (omap (dir_name (kc_dir kc)) paths)) = kc_dir kc.
Proof.
  revert kc. induction paths as [|p paths IH]; intros kc; cbn [omap list_omap].
  { by rewrite app_nil_r. }
  unfold entry_of at 1. destruct (dir_name (kc_dir kc) p) as [n|] eqn:En; [|apply IH].
  cbn [foldl]. unfold refresh_name at 2 4. rewrite (dir_name_path _ _ _ En).
  destruct (sha_hex_name n) as [sha|]; [|apply IH].
  destruct (read_entry_file fs p sha) as [e|]; [|apply IH].
  change (kc_dir kc) with (kc_dir (cache_push kc e)). destruct (IH (cache_push kc e)) as [-> ->].
  split; [|done]. cbn [cache_push set_entries kc_entry]. by rewrite <- app_assoc.
Qed.

Lemma cache_refresh_entries fs kc :
  kc_enabled kc = true ->
  kc_entry (cache_refresh fs kc) = omap (entry_of fs (kc_dir kc)) (fs.*1).
Proof.
  intros He. unfold cache_refresh. rewrite He. cbn [negb]. unfold readdir.
  by apply (refresh_entries fs (store_clear kc)).
Qed.

Lemma set_entries_self kc : exists es cap, kc = set_entries kc es cap.
Proof. exists (kc_entry kc), (kc_cap kc). by destruct kc. Qed.

(** Refreshing rebuilds the index and nothing else. *)
Lemma refresh_name_config fs kc n :
  exists es cap, refresh_name fs kc n = set_entries kc es cap.
Proof.
  unfold refresh_name. destruct (sha_hex_name n) as [sha|]; [|apply set_entries_self].
  destruct (read_entry_file fs (path_join (kc_dir kc) n) sha) as [e|]; [|apply set_entries_self].
  by eexists _, _.
Qed.

Lemma cache_refresh_config fs kc : exists es cap, cache_refresh fs kc = set_entries kc es cap.
Proof.
  unfold cache_refresh. case_if; [apply set_entries_self|].
  assert (H : forall ns k0, (exists es cap, k0 = set_entries kc es cap) ->
    exists es cap, foldl (refresh_name fs) k0 ns = set_entries kc es cap).
  { induction ns as [|n ns IH]; intros k0 H0; [done|]. cbn [foldl]. apply IH.
    destruct H0 as (es & cap & ->). destruct (refresh_name_config fs (set_entries kc es cap) n)
      as (es' & cap' & ->). by exists es', cap'. }
  apply H. by eexists _, _.
Qed.

(** ** Lookup theorems *)
Section Find.
Variables (kc : ds4_kvstore) (text : bytes) (model_id quant_bits ctx_size : Z).

Let candidate := find_candidate kc text model_id quant_bits ctx_size.

(** An entry usable for the prompt: compatible, and its name is the hash
    of the prompt bytes it claims to hold. *)
Definition usable (e : ds4_kvstore_entry) : Prop :=
  candidate e = true /\
  sha1_bytes_hex (take (Z.to_nat (e_text_bytes e)) text) = e_sha e.

(** [b] holds at least as long a prefix as [e]; on equal text, at least as
    many tokens. *)
Definition at_least (b e : ds4_kvstore_entry) : Prop :=
  e_text_bytes e < e_text_bytes b \/
  e_text_bytes e = e_text_bytes b /\ e_tokens e <= e_tokens b.

#[local] Instance at_least_trans : Transitive at_least.
Proof. unfold at_least. intros x y z. lia. Qed.

#[local] Instance at_least_refl : Reflexive at_least.
Proof. unfold at_least. intros x. lia. Qed.

Lemma find_step_spec best i e :
  let r := find_step kc text model_id quant_bits ctx_size best i e in
  (r = best \/ r = Some (i, e) /\ usable e) /\
  (forall j b, best = Some (j, b) -> exists j' b', r = Some (j', b') /\ at_least b' b) /\
  (usable e -> exists j' b', r = Some (j', b') /\ at_least b' e).
Proof.
  cbv zeta. unfold find_step, usable, at_least. fold candidate.
  destruct (candidate e) eqn:Ec; cbn [negb]; [|split_and!; [by left | | by intros [? ?]]].
  2: { intros j b ->. exists j, b. split; [done | lia]. }
  set (w := match best with None => false | Some (_, b) => _ end).
  destruct w eqn:Ew.
  - split_and!; [by left | intros j b ->; exists j, b; split; [done | lia] | intros _].
    subst w. destruct best as [[j b]|]; [|done]. exists j, b. split; [done|]. bool_prop.
    destruct Ew as [Ew|Ew]; bool_prop; lia.
  - destruct (bytes_eqb _ _) eqn:Eh.
    + apply bytes_eqb_eq in Eh. split_and!; [by right | | intros _; exists i, e; split; [done|lia]].
      intros j b ->. exists i, e. split; [done|]. subst w. bool_prop. destruct H0; bool_prop; lia.
    + split_and!; [by left | intros j b ->; exists j, b; split; [done|lia] |].
      intros [_ Hh]. apply bytes_eqb_neq in Eh. congruence.
Qed.

Lemma find_scan_spec es : forall best i,
  let r := find_scan kc text model_id quant_bits ctx_size best i es in
  (r = best \/ exists k e, r = Some (i + k, e)%nat /\ es !! k = Some e /\ usable e) /\
  (forall j b, best = Some (j, b) -> exists j' b', r = Some (j', b') /\ at_least b' b) /\
  (forall e, e ∈ es -> usable e -> exists j' b', r = Some (j', b') /\ at_least b' e).
Proof.
  induction es as [|e es IH]; intros best i; cbv zeta; cbn [find_scan].
  { split_and!; [by left | | by intros e He%not_elem_of_nil].
    intros j b ->. exists j, b. split; [done | apply at_least_refl]. }
  destruct (find_step_spec best i e) as (Hs1 & Hs2 & Hs3).
  set (best' := find_step kc text model_id quant_bits ctx_size best i e) in *.
  destruct (IH best' (S i)) as (H1 & H2 & H3).
  split_and!.
  - destruct H1 as [-> | (k & e' & -> & Hk & Hu)].
    + destruct Hs1 as [-> | [-> Hu]]; [by left | right]. exists 0%nat, e.
      by rewrite Nat.add_0_r.
    + right. exists (S k), e'. split; [f_equal; f_equal; lia | done].
  - intros j b Hb. destruct (Hs2 j b Hb) as (j1 & b1 & Hb1 & Ha1).
    destruct (H2 j1 b1 Hb1) as (j2 & b2 & -> & Ha2). exists j2, b2. split; [done|]. by etrans.
  - intros e' [-> | He']%elem_of_cons Hu; [|by apply H3].
    destruct (Hs3 Hu) as (j1 & b1 & Hb1 & Ha1).
    destruct (H2 j1 b1 Hb1) as (j2 & b2 & -> & Ha2). exists j2, b2. split; [done|]. by etrans.
Qed.
End Find.

Lemma find_text_prefix_spec fs kc text model_id quant_bits ctx_size r kc1 :
  find_text_prefix fs kc (Some text) model_id quant_bits ctx_size = (r, kc1) ->
  kc1 = cache_refresh fs kc /\
  match r with
  | Some (i, e) =>
      kc_entry kc1 !! i = Some e /\
      usable kc1 text model_id quant_bits ctx_size e /\
      (forall e', e' ∈ kc_entry kc1 -> usable kc1 text model_id quant_bits ctx_size e' ->
         at_least e e')
  | None => forall e', e' ∈ kc_entry kc1 -> ~ usable kc1 text model_id quant_bits ctx_size e'
  end.
Proof.
  unfold find_text_prefix. set (k1 := cache_refresh fs kc). intros [= <- <-]. split; [done|].
  destruct (find_scan_spec k1 text model_id quant_bits ctx_size (kc_entry k1) None 0)
    as (H1 & _ & H3).
  destruct (find_scan k1 text model_id quant_bits ctx_size None 0 (kc_entry k1)) as [[i e]|] eqn:E.
  - destruct H1 as [?|(k & e' & [= -> ->] & Hk & Hu)]; [done|]. split_and!; [done..|].
    intros e'' He Hu'. destruct (H3 e'' He Hu') as (j & b & [= -> ->] & Ha). done.
  - intros e' He Hu. by destruct (H3 e' He Hu) as (j & b & ? & _).
Qed.

(** C37: prefix lookup returns a usable entry that no usable entry of the
    directory beats, and reports a miss only when none is usable. *)
Theorem find_text_prefix_best (fs : kvfs) (kc : ds4_kvstore) (text : bytes)
    (model_id quant_bits ctx_size : Z) :
  let '(r, kc1) := find_text_prefix fs kc (Some text) model_id quant_bits ctx_size in
  match r with
  | Some (i, e) =>
      kc_entry kc1 !! i = Some e /\
      usable kc1 text model_id quant_bits ctx_size e /\
      (forall e', e' ∈ kc_entry kc1 -> usable kc1 text model_id quant_bits ctx_size e' ->
         at_least e e')
  | None => forall e', e' ∈ kc_entry kc1 -> ~ usable kc1 text model_id quant_bits ctx_size e'
  end.
Proof.
  destruct (find_text_prefix fs kc (Some text) model_id quant_bits ctx_size) as [r kc1] eqn:E.
  by apply find_text_prefix_spec in E as [_ ?].
Qed.
