(* ===== verification/KvEvict.v ===== *)
(** * Eviction under a byte budget (ds4_kvstore.c)

    Every checkpoint has a score, its age-decayed usefulness per byte in binary64
    arithmetic with libm's [exp2] as a parameter; the store removes the entry of
    the lowest score until the budget holds what is there and what is coming. *)

From Stdlib Require Import Floats.SpecFloat.
From S2P Require Import Prelude Float64 Sha1 KvHeader KvPolicy KvStore.

#[local] Open Scope Z_scope.

(** ** Eviction *)
Record eviction_context := EvictCtx {
  ec_text : option bytes;
  ec_model_id : Z;
  ec_quant_bits : Z;
  ec_ctx_size : Z;
  ec_reject_different_quant : bool
}.

Definition incoming_supersedes_continued (e : ds4_kvstore_entry) (incoming : option eviction_context)
  : bool :=
  match incoming with
  | None => false
  | Some inc =>
      match ec_text inc with
      | None => false
      | Some text =>
          if negb (e_reason e =? DS4_KVSTORE_REASON_CONTINUED) then false
          else if (e_text_bytes e =? 0) || (U64_MAX <? e_text_bytes e) then false
          else if zlen text <=? e_text_bytes e then false
          else if negb (e_model_id e =? ec_model_id inc) then false
          else if ec_reject_different_quant inc && negb (e_quant_bits e =? ec_quant_bits inc) then false
          else if e_ctx_size e <? ec_ctx_size inc then false
          else bytes_eqb (sha1_bytes_hex (take (Z.to_nat (e_text_bytes e)) text)) (e_sha e)
      end
  end.

Definition reason_is_anchor (reason : Z) : bool :=
  (reason =? DS4_KVSTORE_REASON_COLD) || (reason =? DS4_KVSTORE_REASON_EVICT) ||
  (reason =? DS4_KVSTORE_REASON_SHUTDOWN).

Definition DS4_KVSTORE_HIT_HALF_LIFE_SECONDS : Z := 6 * 60 * 60.
Definition KV_CACHE_MIN_EFFECTIVE_HITS : spec_float := F64.ratio 1 100.
Definition KV_CACHE_CONTINUED_PREFIX_MIN_FACTOR : spec_float := F64.ratio 5 100.
Definition KV_CACHE_CONTINUED_PREFIX_HIT_FACTOR : spec_float := F64.ratio 45 100.
Definition KV_CACHE_ANCHOR_REASON_SCORE_FACTOR : spec_float := F64.of_Z 2.

Section Eviction.
(** libm's [exp2]. *)
Context (exp2 : spec_float -> spec_float).

Definition entry_eviction_score (e : ds4_kvstore_entry) (now : Z)
    (incoming : option eviction_context) : spec_float :=
  if e_file_size e =? 0 then F64.of_Z 0
  else
    let effective_hits := F64.of_Z (e_hits e) in
    let used_at := if negb (e_last_used e =? 0) then e_last_used e else e_created_at e in
    let effective_hits :=
      if used_at =? 0 then F64.of_Z 0
      else if used_at <? now then
        let elapsed := F64.of_Z (now - used_at) in
        let eh := F64.mul effective_hits
          (exp2 (F64.div (F64.opp elapsed) (F64.of_Z DS4_KVSTORE_HIT_HALF_LIFE_SECONDS))) in
        if F64.lt eh KV_CACHE_MIN_EFFECTIVE_HITS then F64.of_Z 0 else eh
      else effective_hits in
    let score := F64.div (F64.mul (F64.add effective_hits (F64.of_Z 1)) (F64.of_Z (e_tokens e)))
                         (F64.of_Z (e_file_size e)) in
    let score := if reason_is_anchor (e_reason e)
                 then F64.mul score KV_CACHE_ANCHOR_REASON_SCORE_FACTOR else score in
    if incoming_supersedes_continued e incoming then
      let h := if F64.lt (F64.of_Z 0) effective_hits
               then F64.div effective_hits (F64.add effective_hits (F64.of_Z 1))
               else F64.of_Z 0 in
      F64.mul score (F64.add KV_CACHE_CONTINUED_PREFIX_MIN_FACTOR
                             (F64.mul KV_CACHE_CONTINUED_PREFIX_HIT_FACTOR h))
    else score.

(** The scan for the victim: lower score first, older use on a tie. *)
Fixpoint victim_scan (now : Z) (incoming : option eviction_context)
    (es : list ds4_kvstore_entry) (i : nat)
    (victim : nat) (ve : ds4_kvstore_entry) (vscore : spec_float) : nat * ds4_kvstore_entry :=
  match es with
  | [] => (victim, ve)
  | e :: rest =>
      let score := entry_eviction_score e now incoming in
      if F64.lt score vscore || (F64.eq score vscore && (e_last_used e <? e_last_used ve))
      then victim_scan now incoming rest (S i) i e score
      else victim_scan now incoming rest (S i) victim ve vscore
  end.

(** [unlink] may fail for a path (permissions, a concurrent removal). *)
Context (unlink_fails : bytes -> bool).

Definition do_unlink (fs : kvfs) (path : bytes) : bool * kvfs :=
  match fs_lookup fs path with
  | None => (false, fs)
  | Some _ => if unlink_fails path then (false, fs) else (true, fs_unlink fs path)
  end.

(** [while (total > target && kc->len > 0)]: each round drops an entry, so
    the number of entries is enough fuel. *)
Fixpoint evict_loop (fuel : nat) (now : Z) (incoming : option eviction_context) (target : Z)
    (fs : kvfs) (kc : ds4_kvstore) (total : Z) : kvfs * ds4_kvstore * Z :=
  match fuel with
  | O => (fs, kc, total)
  | S fuel' =>
      match kc_entry kc with
      | [] => (fs, kc, total)
      | e0 :: es =>
          if target <? total then
            let '(victim, e) :=
              victim_scan now incoming es 1 0 e0 (entry_eviction_score e0 now incoming) in
            let '(ok, fs') := do_unlink fs (e_path e) in
            let total' := if ok then (if e_file_size e <=? total then total - e_file_size e else 0)
                          else 0 in
            evict_loop fuel' now incoming target fs'
              (set_entries kc (delete victim (kc_entry kc)) (kc_cap kc)) total'
          else (fs, kc, total)
      end
  end.

Definition total_size (es : list ds4_kvstore_entry) : Z :=
  foldl (fun t e => u64 (t + e_file_size e)) 0 es.

Definition evict (now : Z) (fs : kvfs) (kc : ds4_kvstore) (extra_bytes : Z)
    (incoming : option eviction_context) : kvfs * ds4_kvstore :=
  if negb (kc_enabled kc) || (kc_budget_bytes kc =? 0) then (fs, kc)
  else if kc_budget_bytes kc <? extra_bytes then (fs, kc)
  else
    let kc1 := cache_refresh fs kc in
    let target := kc_budget_bytes kc1 - extra_bytes in
    let '(fs', kc', _) := evict_loop (length (kc_entry kc1)) now incoming target fs kc1
                            (total_size (kc_entry kc1)) in
    (fs', kc').
End Eviction.

Definition DS4_KVSTORE_DEFAULT_MB : Z := 4096.

(** [ds4_kvstore_open]; [mkdir_ok] is the outcome of creating the directory. *)
Definition store_open (exp2 : spec_float -> spec_float) (unlink_fails : bytes -> bool)
    (mkdir_ok : bool) (now : Z) (fs : kvfs) (dir : option bytes) (budget_mb : Z)
    (reject_different_quant : bool) (opt : ds4_kvstore_options) : option (kvfs * ds4_kvstore) :=
  match dir with
  | None => None
  | Some dir =>
      if negb mkdir_ok then None
      else
        let budget_mb := if budget_mb =? 0 then DS4_KVSTORE_DEFAULT_MB else budget_mb in
        let kc := Store true dir (u64 (u64 (budget_mb * 1024) * 1024)) reject_different_quant
                    opt 0 [] 0 in
        Some (evict exp2 unlink_fails now fs kc 0 None)
  end.


(** ** The order on scores *)

Section ScoreOrder.
Definition sf_is_nan (f : spec_float) : bool := match f with S754_nan => true | _ => false end.

(** The place of a number in the order of [Float64]; a score is never NaN. *)
Definition sf_key (f : spec_float) : Z * Z * Z := default (3, 0, 0) (float_key f).

Lemma float_key_not_nan f : sf_is_nan f = false -> float_key f = Some (sf_key f).
Proof. by destruct f as [[]|[]| |[] ? ?]. Qed.

Lemma lt_key f g : sf_is_nan f = false -> sf_is_nan g = false ->
  (F64.lt f g = true <-> key_lt (sf_key f) (sf_key g)).
Proof.
  intros Hf%float_key_not_nan Hg%float_key_not_nan. unfold F64.lt. rewrite SFltb_iff, Hf, Hg.
  split; [by intros (? & ? & [= <-] & [= <-] & ?) | by eauto].
Qed.

Lemma eq_key f g : sf_is_nan f = false -> sf_is_nan g = false ->
  (F64.eq f g = true <-> sf_key f = sf_key g).
Proof.
  intros Hf%float_key_not_nan Hg%float_key_not_nan. unfold F64.eq. rewrite SFeqb_iff, Hf, Hg.
  split; [intros (? & ? & ?); congruence | intros ->; by eauto].
Qed.
End ScoreOrder.

(** ** The victim *)
Section Victim.
Context (exp2 : spec_float -> spec_float) (now : Z) (incoming : option eviction_context).

Let score (e : ds4_kvstore_entry) : spec_float := entry_eviction_score exp2 e now incoming.

Lemma victim_scan_elem es : forall i v ve vs v' e',
  victim_scan exp2 now incoming es i v ve vs = (v', e') ->
  (v' = v /\ e' = ve) \/ exists k, v' = (i + k)%nat /\ es !! k = Some e'.
Proof.
  induction es as [|e es IH]; intros i v ve vs v' e'; cbn [victim_scan].
  { intros [= <- <-]. by left. }
  case_if; intros H; apply IH in H as [[-> ->]|(k & -> & Hk)].
  - right. exists 0%nat. split; [lia | done].
  - right. exists (S k). split; [lia | done].
  - by left.
  - right. exists (S k). split; [lia | done].
Qed.

(** Evicting [a] before [b]: a lower score, or an older use on a tie. *)
Definition evict_before (a b : ds4_kvstore_entry) : Prop :=
  key_lt (sf_key (score a)) (sf_key (score b)) \/
  sf_key (score a) = sf_key (score b) /\ e_last_used a <= e_last_used b.

Lemma evict_before_refl a : evict_before a a.
Proof. right. split; [done | lia]. Qed.

Lemma evict_before_trans a b c : evict_before a b -> evict_before b c -> evict_before a c.
Proof.
  unfold evict_before, key_lt.
  destruct (sf_key (score a)) as [[a1 a2] a3], (sf_key (score b)) as [[b1 b2] b3],
    (sf_key (score c)) as [[c1 c2] c3].
  intros [H1 | [[= -> -> ->] H1]] [H2 | [[= -> -> ->] H2]]; [left; lia | left; lia | left; lia |].
  right. split; [done | lia].
Qed.

Lemma victim_step a b :
  sf_is_nan (score a) = false -> sf_is_nan (score b) = false ->
  if F64.lt (score a) (score b) || (F64.eq (score a) (score b) && (e_last_used a <? e_last_used b))
  then evict_before a b else evict_before b a.
Proof.
  intros Ha Hb. pose proof (lt_key _ _ Ha Hb) as Hlt. pose proof (eq_key _ _ Ha Hb) as Heq.
  unfold evict_before.
  destruct (F64.lt (score a) (score b)); cbn [orb]; [left; by apply Hlt|].
  assert (Hn : ~ key_lt (sf_key (score a)) (sf_key (score b))) by (intros ?%Hlt; done).
  destruct (F64.eq (score a) (score b)); cbn [andb].
  - assert (Hk : sf_key (score a) = sf_key (score b)) by (by apply Heq).
    case_if; bool_prop; right; split; (done || lia).
  - assert (Hk : sf_key (score a) <> sf_key (score b)) by (intros ?%Heq; done).
    left. unfold key_lt in *.
    destruct (sf_key (score a)) as [[a1 a2] a3], (sf_key (score b)) as [[b1 b2] b3].
    assert (~ (a1 = b1 /\ a2 = b2 /\ a3 = b3)) by (intros (-> & -> & ->); done). lia.
Qed.

(** The scan finds an entry that no other must be evicted before. *)
Lemma victim_scan_min es : forall i v ve v' e',
  Forall (fun e => sf_is_nan (score e) = false) (ve :: es) ->
  victim_scan exp2 now incoming es i v ve (score ve) = (v', e') ->
  Forall (evict_before e') (ve :: es).
Proof.
  induction es as [|e es IH]; intros i v ve v' e' Hn; cbn [victim_scan].
  { intros [= <- <-]. constructor; [apply evict_before_refl | done]. }
  apply Forall_cons in Hn as [Hve [He Hes]%Forall_cons].
  pose proof (victim_step e ve He Hve) as Hst. fold (score e).
  case_if; intros H; apply IH in H; try (by constructor);
    apply Forall_cons in H as [Hb Hrest].
  - constructor; [|by constructor]. by eapply evict_before_trans.
  - constructor; [done|]. constructor; [|done]. by eapply evict_before_trans.
Qed.
End Victim.

(** ** The eviction loop and the disk *)
Section EvictLoop.
Context (exp2 : spec_float -> spec_float) (dir : bytes).

(** The entry of one file, independent of the rest of the directory. *)
Definition entry_at (pc : bytes * bytes) : option ds4_kvstore_entry := entry_of [pc] dir pc.1.

Definition index_of (fs : kvfs) : list ds4_kvstore_entry := omap entry_at fs.

Definition sum_sizes (es : list ds4_kvstore_entry) : Z :=
  foldr (fun e t => e_file_size e + t) 0 es.

Lemma read_entry_file_ext fs fs' p sha :
  fs_lookup fs p = fs_lookup fs' p -> read_entry_file fs p sha = read_entry_file fs' p sha.
Proof. unfold read_entry_file. by intros ->. Qed.

Lemma index_of_eq fs : NoDup (fs.*1) -> omap (entry_of fs dir) (fs.*1) = index_of fs.
Proof.
  intros Hnd. unfold index_of.
  assert (H : forall l, l ⊆ fs -> omap (entry_of fs dir) (l.*1) = omap entry_at l).
  { induction l as [|[p c] l IH]; intros Hl; [done|]. cbn [fmap list_fmap fst omap list_omap].
    rewrite IH by set_solver.
    replace (entry_of fs dir p) with (entry_at (p, c)); [done|].
    unfold entry_at, entry_of. cbn [fst].
    destruct (dir_name dir p) as [n|]; [|done]. destruct (sha_hex_name n) as [s|]; [|done].
    apply read_entry_file_ext. rewrite (fs_lookup_Some fs p c); [|done|apply Hl; left].
    cbn [fs_lookup]. by rewrite bytes_eqb_refl. }
  by apply H.
Qed.

Lemma entry_at_file p c e : entry_at (p, c) = Some e -> e_path e = p /\ e_file_size e = zlen c.
Proof.
  unfold entry_at, entry_of. cbn [fst]. destruct (dir_name dir p); [|done].
  destruct (sha_hex_name _); [|done]. unfold read_entry_file. cbn [fs_lookup].
  rewrite bytes_eqb_refl. case_if; [done|]. destruct (read_header c entry_zero) as [[[e0 tb] r]|]; [|done].
  case_if; [done|]. case_if; [done|]. by intros [= <-].
Qed.

Lemma index_paths fs : NoDup (fs.*1) -> NoDup (e_path <$> index_of fs).
Proof.
  unfold index_of. induction fs as [|[p c] fs IH]; intros Hnd; [constructor|].
  cbn [fmap list_fmap fst] in Hnd. apply NoDup_cons in Hnd as [Hp Hnd].
  cbn [omap list_omap]. destruct (entry_at (p, c)) as [e|] eqn:E; [|by apply IH].
  cbn [fmap list_fmap]. constructor; [|by apply IH].
  apply entry_at_file in E as [-> _]. intros Hin. apply Hp.
  apply list_elem_of_fmap in Hin as (e' & -> & Hin). apply list_elem_of_omap in Hin as ([q d] & Hq & E').
  apply entry_at_file in E' as [-> _]. apply list_elem_of_fmap. by exists (q, d).
Qed.

Lemma index_unlink fs v e :
  NoDup (fs.*1) -> index_of fs !! v = Some e ->
  is_Some (fs_lookup fs (e_path e)) /\
  NoDup ((fs_unlink fs (e_path e)).*1) /\
  index_of (fs_unlink fs (e_path e)) = delete v (index_of fs) /\
  sum_sizes (index_of fs) = e_file_size e + sum_sizes (delete v (index_of fs)) /\
  (forall pc, pc ∈ fs_unlink fs (e_path e) -> pc ∈ fs) /\
  (forall pc, pc ∈ fs -> entry_at pc = None -> pc ∈ fs_unlink fs (e_path e)).
Proof.
  intros Hnd Hv.
  assert (Hin : e ∈ index_of fs) by (by eapply list_elem_of_lookup_2).
  apply list_elem_of_omap in Hin as ([p c] & Hpc & He).
  destruct (entry_at_file _ _ _ He) as [Hp Hsz]. rewrite Hp.
  pose proof (fs_lookup_Some _ _ _ Hnd Hpc) as Hl.
  destruct (fs_unlink_split fs p c Hl) as (f1 & f2 & Hfs & Hun & _). rewrite Hun.
  pose proof (index_paths fs Hnd) as Hnp.
  assert (Hidx : index_of fs = index_of f1 ++ e :: index_of f2).
  { rewrite Hfs. unfold index_of. rewrite omap_app. cbn [omap list_omap]. by rewrite He. }
  assert (Hvv : v = length (index_of f1)).
  { eapply (NoDup_lookup (e_path <$> index_of fs) _ _ (e_path e)); [done| |];
      rewrite list_lookup_fmap; [by rewrite Hv|].
    by rewrite Hidx, list_lookup_middle. }
  rewrite Hidx, Hvv, delete_middle. split_and!.
  - by rewrite Hl.
  - subst fs. rewrite fmap_app in Hnd. cbn [fmap list_fmap] in Hnd. rewrite fmap_app.
    apply NoDup_app in Hnd as (H1 & H2 & H3). apply NoDup_cons in H3 as [_ H3].
    apply NoDup_app. split_and!; [done | set_solver | done].
  - unfold index_of. by rewrite omap_app.
  - unfold sum_sizes. rewrite !foldr_app. cbn [foldr].
    generalize (foldr (fun e t => e_file_size e + t) 0 (index_of f2)) as z.
    generalize (index_of f1) as l. induction l as [|x l IH]; intros z; cbn [foldr]; [lia|].
    rewrite IH. lia.
  - intros pc. subst fs. set_solver.
  - intros pc. subst fs. rewrite !elem_of_app, elem_of_cons.
    intros [?|[->|?]] Hno; [by left | congruence | by right].
Qed.

Lemma sum_sizes_nonneg fs : 0 <= sum_sizes (index_of fs).
Proof.
  unfold index_of. induction fs as [|[p c] fs IH]; cbn [omap list_omap]; [done|].
  destruct (entry_at (p, c)) as [e|] eqn:E; [|done]. cbn [sum_sizes foldr] in *.
  fold (sum_sizes (omap entry_at fs)). apply entry_at_file in E as [_ ->].
  pose proof (zlen_nonneg c). lia.
Qed.

(** What the loop leaves: the directory's index within the target, or, after an
    unlink that failed, the index without that entry, whose file stays. *)
Definition evicted_to (uf : bytes -> bool) (target : Z) (fs : kvfs) (kc : ds4_kvstore) : Prop :=
  kc_entry kc = index_of fs /\ sum_sizes (index_of fs) <= target \/
  exists v e, index_of fs !! v = Some e /\ uf (e_path e) = true /\ kc_entry kc = delete v (index_of fs).

Lemma evict_loop_stops uf fuel now inc target fs kc : 0 <= target ->
  evict_loop exp2 uf fuel now inc target fs kc 0 = (fs, kc, 0).
Proof.
  intros Ht. destruct fuel; [done|]. cbn [evict_loop]. destruct (kc_entry kc); [done|].
  by rewrite (proj2 (Z.ltb_ge _ _)) by lia.
Qed.

Lemma evict_loop_spec uf fuel : forall now inc target fs kc total fs' kc' total',
  NoDup (fs.*1) -> kc_entry kc = index_of fs -> total = sum_sizes (kc_entry kc) ->
  (length (kc_entry kc) <= fuel)%nat -> 0 <= target ->
  evict_loop exp2 uf fuel now inc target fs kc total = (fs', kc', total') ->
  NoDup (fs'.*1) /\ evicted_to uf target fs' kc' /\
  kc' = set_entries kc (kc_entry kc') (kc_cap kc) /\
  (forall pc, pc ∈ fs' -> pc ∈ fs) /\
  (forall pc, pc ∈ fs -> entry_at pc = None -> pc ∈ fs').
Proof.
  induction fuel as [|fuel IH]; intros now inc target fs kc total fs' kc' total' Hnd Hidx Htot Hf Ht;
    cbn [evict_loop].
  { intros [= <- <- <-]. destruct (kc_entry kc) eqn:E; [|simpl in Hf; lia].
    split_and!; [done | left; rewrite <- Hidx; split; [congruence | cbn; lia] | rewrite <- E; by destruct kc | done | done]. }
  destruct (kc_entry kc) as [|e0 es] eqn:E.
  { intros [= <- <- <-].
    split_and!; [done | left; rewrite <- Hidx; split; [congruence | cbn; lia] | by destruct kc | done | done]. }
  destruct (Z.ltb_spec target total) as [Hlt|Hge].
  2:{ intros [= <- <- <-].
      split_and!; [done | left; rewrite <- Hidx; split; [congruence | lia] | by destruct kc | done | done]. }
  destruct (victim_scan exp2 now inc es 1 0 e0 _) as [v e] eqn:Ev.
  assert (Hv : index_of fs !! v = Some e).
  { apply victim_scan_elem in Ev as [[-> ->]|(k & -> & Hk)]; rewrite <- Hidx; done. }
  destruct (index_unlink fs v e Hnd Hv) as ([c Hl] & Hnd' & Hidx' & Hsum & Hsub & Hkeep).
  unfold do_unlink. rewrite Hl. destruct (uf (e_path e)) eqn:Euf.
  { rewrite evict_loop_stops by done. intros [= <- <- <-]. split_and!; [done | | by destruct kc | done | done].
    right. exists v, e. cbn [set_entries kc_entry]. by rewrite Hidx. }
  assert (Hs : (e_file_size e <=? total) = true).
  { apply Z.leb_le. rewrite Htot, Hidx, Hsum, <- Hidx'.
    pose proof (sum_sizes_nonneg (fs_unlink fs (e_path e))). lia. }
  rewrite Hs. intros HL. apply IH in HL; [| done | | | | done].
  - destruct HL as (H1 & H2 & H4 & H5 & H6). split_and!; [done | done | done | | ].
    + intros pc Hpc. by apply Hsub, H5.
    + intros pc Hpc Hno. apply H6; [by apply Hkeep | done].
  - cbn [set_entries kc_entry]. by rewrite Hidx, Hidx'.
  - cbn [set_entries kc_entry]. rewrite Htot, Hidx, Hsum. lia.
  - cbn [set_entries kc_entry].
    rewrite length_delete by (by rewrite Hidx, Hv). simpl in *. lia.
Qed.

Lemma total_size_sum fs :
  sum_sizes (index_of fs) <= U64_MAX -> total_size (index_of fs) = sum_sizes (index_of fs).
Proof.
  unfold total_size.
  assert (H : forall z, 0 <= z -> z + sum_sizes (index_of fs) <= U64_MAX ->
    foldl (fun t e => u64 (t + e_file_size e)) z (index_of fs) = z + sum_sizes (index_of fs)).
  { unfold index_of. induction fs as [|[p c] fs IH]; intros z Hz Hle; cbn [omap list_omap] in *;
      [cbn; lia|].
    destruct (entry_at (p, c)) as [e|] eqn:E; [|by apply IH].
    cbn [sum_sizes foldr foldl] in *. fold (sum_sizes (omap entry_at fs)) in *.
    apply entry_at_file in E as [_ Hsz]. pose proof (zlen_nonneg c).
    pose proof (sum_sizes_nonneg fs) as Hp. unfold index_of in Hp.
    rewrite u64_small by (unfold is_u64; lia). rewrite IH by lia. lia. }
  intros Hle. rewrite H by lia. lia.
Qed.
End EvictLoop.

(** Whatever the outcome of the unlinks, eviction only removes files and
    only rebuilds the index. *)
Lemma evict_loop_sub exp2 uf fuel : forall now inc target fs kc total fs' kc' total',
  evict_loop exp2 uf fuel now inc target fs kc total = (fs', kc', total') ->
  (forall pc, pc ∈ fs' -> pc ∈ fs) /\ (NoDup (fs.*1) -> NoDup (fs'.*1)) /\
  exists es cap, kc' = set_entries kc es cap.
Proof.
  induction fuel as [|fuel IH]; intros now inc target fs kc total fs' kc' total'; cbn [evict_loop].
  { intros [= <- <- <-]. split_and!; [done | done | apply set_entries_self]. }
  destruct (kc_entry kc) as [|e0 es]; [intros [= <- <- <-]; split_and!; [done|done|apply set_entries_self]|].
  case_if; [|intros [= <- <- <-]; split_and!; [done|done|apply set_entries_self]].
  destruct (victim_scan _ _ _ _ _ _ _ _) as [v e]. unfold do_unlink.
  destruct (fs_lookup fs (e_path e)); [destruct (uf (e_path e))|]; intros HL; apply IH in HL;
    destruct HL as (H1 & H2 & (es' & cap' & ->)); split_and!; try done; try (by eexists _, _).
  - intros pc Hpc. by eapply fs_unlink_sub, H1.
  - intros Hnd. by apply H2, fs_unlink_NoDup.
Qed.

Lemma evict_sub exp2 uf now fs kc extra inc fs' kc' :
  evict exp2 uf now fs kc extra inc = (fs', kc') ->
  (forall pc, pc ∈ fs' -> pc ∈ fs) /\ (NoDup (fs.*1) -> NoDup (fs'.*1)) /\
  exists es cap, kc' = set_entries kc es cap.
Proof.
  unfold evict. case_if; [intros [= <- <-]; split_and!; [done|done|apply set_entries_self]|].
  case_if; [intros [= <- <-]; split_and!; [done|done|apply set_entries_self]|].
  destruct (cache_refresh_config fs kc) as (es & cap & ->).
  destruct (evict_loop _ _ _ _ _ _ _ _ _) as [[fs1 kc1] t1] eqn:EL. intros [= -> ->].
  apply evict_loop_sub in EL as (H1 & H2 & (es' & cap' & ->)). split_and!; [done | done|].
  by eexists _, _.
Qed.

(** Nothing is touched without a budget, for more than the whole budget, or when
    everything fits. *)
Lemma evict_idle exp2 uf now fs kc extra inc :
  kc_enabled kc = false \/ kc_budget_bytes kc = 0 \/ kc_budget_bytes kc < extra ->
  evict exp2 uf now fs kc extra inc = (fs, kc).
Proof.
  unfold evict. intros H. case_if; [done|]. case_if; [done|]. bool_prop. exfalso.
  destruct H as [H|[H|H]]; [congruence | lia | lia].
Qed.

(** C36: eviction makes room whatever unlinks fail: it leaves the checkpoints of
    the directory, all indexed, within the budget less the reserved bytes; or a
    file of the directory could not be unlinked, and then the index is the
    directory's without that one file.  It removes only checkpoint files, and none
    when everything fits.  A store that is disabled or has no budget, and a request
    beyond the whole budget, change nothing.  (The directory holds less than 2^64
    bytes, and no name twice.) *)
Theorem evict_within_budget (exp2 : spec_float -> spec_float) (uf : bytes -> bool) (now : Z) (fs : kvfs)
    (kc : ds4_kvstore) (extra : Z) (inc : option eviction_context) (fs' : kvfs) (kc' : ds4_kvstore)
    (Hx : 0 <= extra) (Hnd : NoDup (fs.*1))
    (Hsum : sum_sizes (index_of (kc_dir kc) fs) <= U64_MAX)
    (Hev : evict exp2 uf now fs kc extra inc = (fs', kc')) :
  (kc_enabled kc && negb (kc_budget_bytes kc =? 0) && (extra <=? kc_budget_bytes kc) = true ->
     evicted_to (kc_dir kc) uf (kc_budget_bytes kc - extra) fs' kc' /\
     index_of (kc_dir kc) fs' = kc_entry (cache_refresh fs' kc') /\
     (sum_sizes (index_of (kc_dir kc) fs) + extra <= kc_budget_bytes kc -> fs' = fs)) /\
  (kc_enabled kc && negb (kc_budget_bytes kc =? 0) && (extra <=? kc_budget_bytes kc) = false ->
     fs' = fs /\ kc' = kc) /\
  (forall pc, pc ∈ fs' -> pc ∈ fs) /\
  (forall pc, pc ∈ fs -> entry_at (kc_dir kc) pc = None -> pc ∈ fs').
Proof.
  destruct (kc_enabled kc && _ && _) eqn:Hon.
  - apply andb_true_iff in Hon as [[Hen Hb]%andb_true_iff Hle]. bool_prop.
    unfold evict in Hev. rewrite Hen in Hev. cbn [negb orb] in Hev.
    rewrite (proj2 (Z.eqb_neq _ _)), (proj2 (Z.ltb_ge _ _)) in Hev by done.
    destruct (cache_refresh_config fs kc) as (es & cap & Hkc1).
    pose proof (cache_refresh_entries fs kc Hen) as Hes.
    rewrite (index_of_eq _ _ Hnd) in Hes. rewrite Hkc1 in *. cbn [set_entries kc_entry kc_budget_bytes] in *. subst es.
    rewrite (total_size_sum (kc_dir kc)) in Hev by done.
    destruct (evict_loop _ _ _ _ _ _ _ _ _) as [[fs1 kc1] t1] eqn:EL. injection Hev as -> ->.
    pose proof EL as EL'.
    apply (evict_loop_spec exp2 (kc_dir kc)) in EL; cbn [set_entries kc_entry kc_cap]; [|done|done|done|done|lia].
    destruct EL as (Hnd' & Hto & Hkc' & Hsub & Hkeep). split_and!; [|done|done|done]. intros _. split_and!; [done| |].
    + rewrite cache_refresh_entries by (by rewrite Hkc').
      replace (kc_dir kc') with (kc_dir kc) by (by rewrite Hkc'). by rewrite index_of_eq.
    + intros Hfit. destruct (index_of (kc_dir kc) fs) as [|e0 l] eqn:E in EL'; cbn [length evict_loop set_entries kc_entry] in EL';
        [by injection EL' as -> _ _|].
      rewrite (proj2 (Z.ltb_ge _ _)) in EL' by (try rewrite E in Hfit; lia). by injection EL' as -> _ _.
  - rewrite evict_idle in Hev. { injection Hev as <- <-. done. }
    destruct (kc_enabled kc); [|by left]. destruct (Z.eqb_spec (kc_budget_bytes kc) 0); [by right; left|].
    cbn [andb negb] in Hon. bool_prop. right. right. lia.
Qed.

(** A directory with one checkpoint of 57 bytes and a foreign file, and a
    budget that has room for neither. *)
Module EvictExample.
Definition ck : bytes := fill_header 1 4 3 0 70000 5 4096 17 18 0 ++ le_put32 0 5 (replicate 4 0) ++ bs "hello".
Definition ck_path : bytes := bs "/c/" ++ replicate 40 97 ++ bs ".kv".
Definition fs : kvfs := [(ck_path, ck); (bs "/c/notes.txt", bs "keep")].
Definition kc : ds4_kvstore := Store true (bs "/c") 60 false default_options 0 [] 0.
Definition exp2 (_ : spec_float) : spec_float := F64.of_Z 1.
End EvictExample.

Lemma evict_within_budget_witness :
  exists fs' kc', evict EvictExample.exp2 (fun _ => false) 100 EvictExample.fs EvictExample.kc 10 None =
    (fs', kc') /\ fs' = [(bs "/c/notes.txt", bs "keep")] /\
  evicted_to (bs "/c") (fun _ => false) 50 fs' kc' /\ index_of (bs "/c") fs' = kc_entry (cache_refresh fs' kc').
Proof.
  destruct (evict EvictExample.exp2 (fun _ => false) 100 EvictExample.fs EvictExample.kc 10 None)
    as [fs' kc'] eqn:E.
  exists fs', kc'. split; [done|].
  split; [vm_compute in E; by injection E as <- <-|].
  assert (NoDup (EvictExample.fs.*1)) as H3 by (apply (bool_decide_unpack _); vm_compute; exact I).
  assert (sum_sizes (index_of (kc_dir EvictExample.kc) EvictExample.fs) <= U64_MAX) as H4
    by (vm_compute; discriminate).
  destruct (evict_within_budget EvictExample.exp2 (fun _ => false) 100 EvictExample.fs EvictExample.kc 10 None fs' kc'
    ltac:(lia) H3 H4 E) as (H & _).
  destruct (H eq_refl) as (H5 & H6 & _). split; [exact H5 | exact H6].
Defined.

(** An unlink that fails leaves its file, and no entry for it. *)
Example failed_unlink_drops_entry :
  let '(fs', kc') := evict EvictExample.exp2 (fun _ => true) 100 EvictExample.fs EvictExample.kc 10 None in
  fs' = EvictExample.fs /\ kc_entry kc' = [].
Proof. vm_compute. split; reflexivity. Qed.
