(* ===== verification/KvSession.v ===== *)
(** * Storing and loading checkpoints of a live session (ds4_kvstore.c)

    A checkpoint is written to a temporary file and renamed; loading verifies
    the stored text against its SHA-1 key before the session is touched.  The
    inference session and the engine are the class [KvEngine]. *)

From Stdlib Require Import Floats.SpecFloat.
From S2P Require Import Prelude Float64 Sha1 KvHeader KvPolicy KvStore KvEvict.

#[local] Open Scope Z_scope.

(** What the store needs of the inference engine and its session: the
    session's payload is opaque bytes. *)
Class KvEngine (Sess : Type) := {
  routed_quant_bits : Z;
  engine_model_id : Z;
  token_text : Z -> bytes;
  tokenize_rendered_chat : bytes -> list Z;
  session_ctx : Sess -> Z;
  session_tokens : Sess -> option (list Z);
  session_stage_payload : Sess -> option bytes;
  (** success, the new session, and the file after the payload *)
  session_load_payload : Sess -> bytes -> Z -> bool * Sess * bytes;
  session_invalidate : Sess -> Sess
}.

(** Protocol hooks for the bytes behind the payload.  A hook that is NULL is
    [None]; a hook that fails returns [None]. *)
Record trailer_hooks := Hooks {
  th_ext_flag : Z;
  th_serialized_size : option (bytes -> option Z);
  th_write : option (bytes -> option bytes);
  th_has_load : bool
}.

(** Outcomes of the calls that may fail, and the clock. *)
Record store_io := StoreIO {
  io_now : Z;
  io_pid : Z;
  io_open_tmp : bool;
  io_write : option bytes;    (* [Some partial]: a write failed after these bytes *)
  io_close : bool;
  io_rename : bool
}.

Definition render_tokens_text `{KvEngine Sess} (tokens : list Z) : bytes :=
  foldl (fun b t => b ++ token_text t) [] tokens.

Definition tokens_copy_prefix (src : option (list Z)) (n : Z) : list Z :=
  match src with
  | None => []
  | Some v =>
      let n := if zlen v <? n then zlen v else n in
      take (Z.to_nat n) v
  end.

Definition tokens_append (dst src : list Z) : list Z := foldl (fun d t => d ++ [t]) dst src.

Definition build_prompt_from_exact_prefix_and_text_suffix `{KvEngine Sess}
    (exact_prefix : list Z) (suffix_text : bytes) : list Z :=
  tokens_append exact_prefix (tokenize_rendered_chat suffix_text).

Definition file_text_matches (fs : kvfs) (path sha text : bytes) : bool :=
  if U32_MAX <? zlen text then false
  else
    match fs_lookup fs path with
    | None => false
    | Some content =>
        match read_header content entry_zero with
        | Some (_, text_bytes, rest) =>
            if negb (text_bytes =? u32 (zlen text)) then false
            else match fread_exact (Z.to_nat text_bytes) rest with
                 | None => false
                 | Some (stored, _) =>
                     bytes_eqb (sha1_bytes_hex stored) sha && bytes_eqb stored text
                 end
        | None => false
        end
    end.

Section Session.
Context {Sess : Type} `{KvEngine Sess}.
Context (exp2 : spec_float -> spec_float) (unlink_fails : bytes -> bool).

Definition existing_compatible (fs : kvfs) (kc : ds4_kvstore) (path sha text : bytes)
    (model_id quant_bits ctx_size : Z) : bool * kvfs :=
  match fs_lookup fs path with
  | None => (false, fs)
  | Some _ =>
      match read_entry_file fs path sha with
      | None => (false, fs)
      | Some e =>
          let compatible :=
            (e_model_id e =? u8 model_id) &&
            (negb (kc_reject_different_quant kc) || (e_quant_bits e =? u8 quant_bits)) &&
            (e_ctx_size e <=? u32 ctx_size) &&
            file_text_matches fs path sha text in
          if compatible then (true, fs) else (false, snd (do_unlink unlink_fails fs path))
      end
  end.

Definition trailer_serialized_size (hooks : option trailer_hooks) (text : bytes) : option Z :=
  match hooks with
  | None => Some 0
  | Some h => match th_serialized_size h with None => Some 0 | Some f => f text end
  end.

Definition trailer_write (hooks : option trailer_hooks) (text : bytes) : option bytes :=
  match hooks with
  | None => Some []
  | Some h => match th_write h with None => Some [] | Some f => f text end
  end.

(** Replaces the trailer of an existing checkpoint; the flag is set only
    when bytes were written.  A failed trailer leaves the truncated file. *)
Definition rewrite_trailer (fs : kvfs) (path text : bytes) (hooks : option trailer_hooks) (now : Z)
  : kvfs :=
  match hooks with
  | None => fs
  | Some hk =>
      match th_write hk, th_serialized_size hk with
      | Some _, Some _ =>
          match trailer_serialized_size hooks text with
          | None => fs
          | Some trailer_est =>
              if trailer_est =? 0 then fs
              else
                match fs_lookup fs path with
                | None => fs
                | Some content =>
                    match read_header content entry_zero with
                    | None => fs
                    | Some (hdr, text_bytes, _) =>
                        let end_ := u64 (kv_fixed + text_bytes + e_payload_bytes hdr) in
                        if end_ <=? INT64_MAX then
                          (* ftruncate extends a shorter file with zeros *)
                          let body := take (Z.to_nat end_) content in
                          let body := body ++ replicate (Z.to_nat end_ - length body) 0 in
                          match trailer_write hooks text with
                          | None => fs_write fs path body
                          | Some tr =>
                              let file := body ++ tr in
                              if 0 <? zlen tr then
                                let h := fill_header (e_model_id hdr) (e_quant_bits hdr) (e_reason hdr)
                                  (Z.lor (e_ext_flags hdr) (th_ext_flag hk)) (e_tokens hdr) (e_hits hdr)
                                  (e_ctx_size hdr) (e_created_at hdr) now (e_payload_bytes hdr) in
                                fs_write fs path (splice 0 h file)
                              else fs_write fs path file
                          end
                        else fs
                    end
                end
          end
      | _, _ => fs
      end
  end.

(** [path.tmp.<pid>] *)
Definition tmp_path (path : bytes) (pid : Z) : bytes := path ++ bs ".tmp." ++ dec_print pid.

(** The complete image of a new checkpoint file. *)
Definition checkpoint_image (h text payload trailer : bytes) : bytes :=
  h ++ le_put32 0 (u32 (zlen text)) (replicate 4 0) ++ text ++ payload ++ trailer.

Definition store_live_prefix_text (io : store_io) (fs : kvfs) (kc : ds4_kvstore) (session : Sess)
    (tokens : option (list Z)) (store_len : Z) (reason : option bytes)
    (cache_text_override : option bytes) (cache_text_ext : Z) (hooks : option trailer_hooks)
  : bool * kvfs * ds4_kvstore :=
  if negb (kc_enabled kc) then (false, fs, kc)
  else match tokens with
  | None => (false, fs, kc)
  | Some _ =>
  if store_len <? o_min_tokens (kc_opt kc) then (false, fs, kc)
  else
  let store_tokens := tokens_copy_prefix tokens store_len in
  let quant_bits := routed_quant_bits in
  if negb (quant_bits =? 2) && negb (quant_bits =? 4) then (false, fs, kc)
  else
  let model_id := engine_model_id in
  match session_tokens session with
  | None => (false, fs, kc)
  | Some live_tokens =>
  if negb (zlen live_tokens =? zlen store_tokens) || negb (starts_with store_tokens live_tokens)
  then (false, fs, kc)
  else
  let text_override := match cache_text_override with
                       | Some (_ :: _) => true | _ => false end in
  let text := if text_override then default [] cache_text_override
              else render_tokens_text store_tokens in
  if U32_MAX <? zlen text then (false, fs, kc)
  else match trailer_serialized_size hooks text with
  | None => (false, fs, kc)
  | Some trailer_est_bytes =>
  let sha := sha1_bytes_hex text in
  let path := path_for_sha (kc_dir kc) sha in
  let rc := reason_code reason in
  match existing_compatible fs kc path sha text model_id quant_bits (session_ctx session) with
  | (true, fs1) => (true, rewrite_trailer fs1 path text hooks (io_now io), kc)
  | (false, fs1) =>
  match session_stage_payload session with
  | None => (false, fs1, kc)
  | Some payload =>
  let payload_bytes := zlen payload in
  match file_size_fits (Some kc) (zlen text) payload_bytes trailer_est_bytes with
  | (false, _, _) => (false, fs1, kc)
  | (true, est_file_bytes, _) =>
  let incoming := EvictCtx (Some text) (u8 model_id) (u8 quant_bits) (u32 (session_ctx session))
                    (kc_reject_different_quant kc) in
  let '(fs2, kc2) := evict exp2 unlink_fails (io_now io) fs1 kc est_file_bytes (Some incoming) in
  let tmp := tmp_path path (io_pid io) in
  if negb (io_open_tmp io) then (false, fs2, kc2)
  else
  let ext_flags := match hooks with
                   | Some h => if 0 <? trailer_est_bytes then th_ext_flag h else 0
                   | None => 0 end in
  let ext_flags := if text_override then Z.lor ext_flags cache_text_ext else ext_flags in
  let h := fill_header (u8 model_id) (u8 quant_bits) rc ext_flags (u32 (zlen store_tokens)) 0
             (u32 (session_ctx session)) (io_now io) (io_now io) payload_bytes in
  let discard partial := (false, snd (do_unlink unlink_fails (fs_write fs2 tmp partial) tmp), kc2) in
  match io_write io, trailer_write hooks text with
  | Some partial, _ => discard partial
  | None, None => discard (checkpoint_image h text payload [])
  | None, Some trailer =>
      let image := checkpoint_image h text payload trailer in
      if negb (io_close io) then discard image
      else match file_size_fits (Some kc2) (zlen text) payload_bytes (zlen trailer) with
      | (false, _, _) => discard image
      | (true, _, _) =>
          if negb (io_rename io) then discard image
          else (true, fs_rename (fs_write fs2 tmp image) tmp path, kc2)
      end
  end
  end end end end end end.

Definition store_live_prefix (io : store_io) (fs : kvfs) (kc : ds4_kvstore) (session : Sess)
    (tokens : option (list Z)) (store_len : Z) (reason : option bytes) (hooks : option trailer_hooks)
  : bool * kvfs * ds4_kvstore :=
  store_live_prefix_text io fs kc session tokens store_len reason None 0 hooks.

Definition maybe_store_continued (io : store_io) (fs : kvfs) (kc : ds4_kvstore) (session : Sess)
    (hooks : option trailer_hooks) : bool * kvfs * ds4_kvstore :=
  match session_tokens session with
  | None => (false, fs, kc)
  | Some tokens =>
      let target := continued_store_target kc (zlen tokens) in
      if target =? 0 then (false, fs, kc)
      else
        match store_live_prefix io fs kc session (Some tokens) target (Some (bs "continued")) hooks with
        | (true, fs', kc') => (true, fs', note_store kc' target)
        | (false, fs', kc') => (false, fs', kc')
        end
  end.

(** ** Loading *)
Record load_result := LoadResult {
  lr_tokens : Z; lr_text_bytes : Z; lr_quant_bits : Z; lr_ext_flags : Z; lr_path : bytes
}.

(** Everything the call changes: the session, the directory, the store,
    the rebuilt prompt, the result, and the bytes handed to the load hook. *)
Record load_out := LoadOut {
  lo_loaded : Z;
  lo_session : Sess;
  lo_fs : kvfs;
  lo_kc : ds4_kvstore;
  lo_prompt : list Z;
  lo_result : option load_result;
  lo_trailer : option bytes
}.

(** The checks on the cached text, before any engine state is touched. *)
Definition check_cached_text (hdr : ds4_kvstore_entry) (text_bytes : Z) (rest : bytes)
    (model_id : Z) (sha prompt_text : bytes) : option (bytes * bytes) :=
  if negb (e_model_id hdr =? u8 model_id) then None
  else if zlen prompt_text <? text_bytes then None
  else match fread_exact (Z.to_nat text_bytes) rest with
  | None => None
  | Some (cached_text, rest') =>
      if negb (bytes_eqb (sha1_bytes_hex cached_text) sha) then None
      else if negb (byte_prefix_match prompt_text cached_text) then None
      else Some (cached_text, rest')
  end.

Definition try_load_text (now : Z) (fs : kvfs) (kc : ds4_kvstore) (session : Sess)
    (prompt_text : option bytes) (hooks : option trailer_hooks) : load_out :=
  let miss s fs kc := LoadOut 0 s fs kc [] None None in
  match prompt_text with
  | None => miss session fs kc
  | Some text =>
  if negb (kc_enabled kc) then miss session fs kc
  else
  let quant_bits := routed_quant_bits in
  if negb (quant_bits =? 2) && negb (quant_bits =? 4) then miss session fs kc
  else
  let model_id := engine_model_id in
  match find_text_prefix fs kc (Some text) model_id quant_bits (session_ctx session) with
  | (None, kc1) => miss session fs kc1
  | (Some (_, e), kc1) =>
  let path := e_path e in
  match fs_lookup fs path with
  | None => miss session fs kc1
  | Some content =>
  match read_header content entry_zero with
  | None => miss session fs kc1
  | Some (hdr, text_bytes, rest) =>
  match check_cached_text hdr text_bytes rest model_id (e_sha e) text with
  | None => miss session fs kc1
  | Some (_, rest') =>
  match session_load_payload session rest' (e_payload_bytes hdr) with
  | (false, s1, _) => miss (session_invalidate s1) fs kc1
  | (true, s1, trailer) =>
      let good := match session_tokens s1 with
                  | Some t => zlen t =? i32 (e_tokens hdr) | None => false end in
      if negb good then
        miss (session_invalidate s1) (snd (do_unlink unlink_fails fs path)) kc1
      else
        let loaded := i32 (e_tokens hdr) in
        let prompt := build_prompt_from_exact_prefix_and_text_suffix
                        (default [] (session_tokens s1)) (drop (Z.to_nat text_bytes) text) in
        let hook := match hooks with
                    | Some h => if th_has_load h &&
                                   negb (Z.land (e_ext_flags hdr) (th_ext_flag h) =? 0)
                                then Some trailer else None
                    | None => None end in
        if 0 <? loaded then
          LoadOut loaded s1 (snd (touch_file fs path (u32 (e_hits hdr + 1)) now))
            (set_continued_last kc1 loaded) prompt
            (Some (LoadResult loaded text_bytes (e_quant_bits hdr) (e_ext_flags hdr) path)) hook
        else LoadOut loaded s1 fs kc1 prompt None hook
  end end end end end end.
End Session.

(** ** Lemmas *)
Lemma tokens_append_app d s : tokens_append d s = d ++ s.
Proof.
  unfold tokens_append. revert d. induction s as [|t s IH]; intros d; cbn [foldl].
  - by rewrite app_nil_r.
  - by rewrite IH, <- app_assoc.
Qed.

Lemma check_cached_text_spec hdr tb rest m sha prompt cached rest' :
  check_cached_text hdr tb rest m sha prompt = Some (cached, rest') ->
  e_model_id hdr = u8 m /\ rest = cached ++ rest' /\ length cached = Z.to_nat tb /\
  sha1_bytes_hex cached = sha /\ exists suffix, prompt = cached ++ suffix.
Proof.
  unfold check_cached_text. case_if; [done|]. case_if; [done|]. bool_prop.
  destruct (fread_exact _ rest) as [[c r]|] eqn:Er; [|done].
  apply fread_exact_Some in Er as [-> Hl].
  case_if; [done|]. case_if; [done|]. bool_prop. intros [= -> ->].
  apply bytes_eqb_eq in E1. apply starts_with_iff in E2. done.
Qed.

Section SessionFacts.
Context {Sess : Type} `{KvEngine Sess}.
Context (exp2 : spec_float -> spec_float).

(** A load that reports tokens has verified the bytes it restores: they are
    a prefix of the prompt, and the rebuilt prompt continues with exactly
    the remaining text. *)
Lemma try_load_text_spec uf now fs kc s text hooks :
  let o := try_load_text uf now fs kc s (Some text) hooks in
  lo_loaded o <> 0 ->
  exists e content hdr tb cached rest suffix live,
    e ∈ kc_entry (cache_refresh fs kc) /\
    fs_lookup fs (e_path e) = Some content /\
    read_header content entry_zero = Some (hdr, tb, cached ++ rest) /\ length cached = Z.to_nat tb /\
    e_model_id hdr = u8 engine_model_id /\
    sha1_bytes_hex cached = e_sha e /\
    text = cached ++ suffix /\
    session_tokens (lo_session o) = Some live /\
    zlen live = lo_loaded o /\ lo_loaded o = i32 (e_tokens hdr) /\
    lo_prompt o = live ++ tokenize_rendered_chat suffix.
Proof.
  cbv zeta. unfold try_load_text.
  case_if; [done|]. case_if; [done|].
  destruct (find_text_prefix _ _ _ _ _ _) as [[[i e]|] kc1] eqn:Ef; [|done].
  apply find_text_prefix_spec in Ef as [-> (He & _)].
  destruct (fs_lookup fs (e_path e)) as [content|] eqn:El; [|done].
  destruct (read_header content entry_zero) as [[[hdr tb] rest]|] eqn:Eh; [|done].
  destruct (check_cached_text _ _ _ _ _ _) as [[cached rest']|] eqn:Ec; [|done].
  apply check_cached_text_spec in Ec as (Hm & -> & Hlen & Hsha & suffix & ->).
  destruct (session_load_payload s rest' (e_payload_bytes hdr)) as [[ok s1] trailer].
  destruct ok; [|done]. cbn [negb].
  destruct (session_tokens s1) as [live|] eqn:Et; [|done].
  destruct (Z.eqb_spec (zlen live) (i32 (e_tokens hdr))) as [Hz|]; [|done]. cbn [negb].
  unfold build_prompt_from_exact_prefix_and_text_suffix.
  rewrite tokens_append_app, <- Hlen, drop_app_length. cbn [default].
  case_if; cbn [lo_loaded lo_session lo_prompt]; intros _;
    exists e, content, hdr, tb, cached, rest', suffix, live; split_and!;
    done || by eapply list_elem_of_lookup_2.
Qed.

(** The path a text is stored under. *)
Definition text_path (kc : ds4_kvstore) (text : bytes) : bytes :=
  path_for_sha (kc_dir kc) (sha1_bytes_hex text).

Lemma do_unlink_sub uf fs p pc : pc ∈ snd (do_unlink uf fs p) -> pc ∈ fs.
Proof.
  unfold do_unlink. destruct (fs_lookup fs p); [|done]. destruct (uf p); [done|].
  apply fs_unlink_sub.
Qed.

Lemma existing_compatible_sub uf fs kc path sha text m q c b fs' pc :
  existing_compatible uf fs kc path sha text m q c = (b, fs') -> pc ∈ fs' -> pc ∈ fs.
Proof.
  unfold existing_compatible. destruct (fs_lookup fs path); [|by intros [= <- <-]].
  destruct (read_entry_file fs path sha); [|by intros [= <- <-]].
  case_if; intros [= <- <-]; [done|]. apply do_unlink_sub.
Qed.

Lemma discard_tmp_sub fs tmp c pc :
  pc ∈ snd (do_unlink (fun _ => false) (fs_write fs tmp c) tmp) -> pc ∈ fs.
Proof. unfold do_unlink. rewrite fs_write_lookup. apply fs_write_unlink_sub. Qed.

(** A store that fails leaves no new or changed file behind. *)
Lemma store_failure_spec io fs kc s toks n reason ov ext hooks fs' kc' :
  store_live_prefix_text exp2 (fun _ => false) io fs kc s toks n reason ov ext hooks
    = (false, fs', kc') ->
  forall pc, pc ∈ fs' -> pc ∈ fs.
Proof.
  unfold store_live_prefix_text. cbv zeta.
  destruct (negb (kc_enabled kc)); [by intros [= <- <-]|].
  destruct toks as [tk|]; [|by intros [= <- <-]].
  destruct (n <? _); [by intros [= <- <-]|].
  destruct (_ && _); [by intros [= <- <-]|].
  destruct (session_tokens s) as [live|]; [|by intros [= <- <-]].
  destruct (_ || _); [by intros [= <- <-]|].
  match goal with |- context [U32_MAX <? zlen ?t] => set (text := t) end.
  destruct (U32_MAX <? zlen text); [by intros [= <- <-]|].
  destruct (trailer_serialized_size hooks text) as [est|]; [|by intros [= <- <-]].
  destruct (existing_compatible _ _ _ _ _ _ _ _ _) as [[|] fs1] eqn:Ee; [done|].
  pose proof (fun pc => existing_compatible_sub _ _ _ _ _ _ _ _ _ _ _ pc Ee) as Hs1.
  destruct (session_stage_payload s) as [payload|]; [|by intros [= <- <-]].
  destruct (file_size_fits _ _ _ _) as [[[|] ?] ?]; [|by intros [= <- <-]].
  destruct (evict _ _ _ _ _ _ _) as [fs2 kc2] eqn:Ev. apply evict_sub in Ev as (Hs2 & _ & _).
  destruct (negb (io_open_tmp io)); [intros [= <- <-]; auto|].
  assert (Hd : forall tmp c pc,
    pc ∈ snd (do_unlink (fun _ => false) (fs_write fs2 tmp c) tmp) -> pc ∈ fs).
  { intros tmp c pc Hpc. by eapply Hs1, Hs2, discard_tmp_sub. }
  destruct (io_write io); [intros [= <- <-]; eauto|].
  destruct (trailer_write hooks text); [|intros [= <- <-]; eauto].
  destruct (negb (io_close io)); [intros [= <- <-]; eauto|].
  destruct (file_size_fits _ _ _ _) as [[[|] ?] ?]; [|intros [= <- <-]; eauto].
  destruct (negb (io_rename io)); [intros [= <- <-]; eauto | done].
Qed.

(** What the store finds of the text it is to write. *)
Definition existing (uf : bytes -> bool) (fs : kvfs) (kc : ds4_kvstore) (s : Sess) (text : bytes) : bool * kvfs :=
  existing_compatible uf fs kc (text_path kc text) (sha1_bytes_hex text) text engine_model_id routed_quant_bits (session_ctx s).

Lemma existing_none uf fs kc s text : fs_lookup fs (text_path kc text) = None -> existing uf fs kc s text = (false, fs).
Proof. intros Hno. unfold existing, existing_compatible. by rewrite Hno. Qed.

Lemma existing_NoDup uf fs kc s text : NoDup (fs.*1) -> NoDup ((existing uf fs kc s text).2.*1).
Proof.
  intros Hnd. unfold existing, existing_compatible. destruct (fs_lookup fs (text_path kc text)) eqn:El; [|done]. destruct (read_entry_file _ _ _); [|done].
  case_if; [done|]. cbn [snd]. unfold do_unlink. rewrite El. destruct (uf _); [done|]. by apply fs_unlink_NoDup.
Qed.

(** A successful store of text that no compatible file holds yet: the directory
    after eviction plus one complete image, put in place by the rename. *)
Lemma store_fresh_spec uf io fs kc s tk n reason hooks fs' kc' :
  let st := tokens_copy_prefix (Some tk) n in
  let text := render_tokens_text st in
  (existing uf fs kc s text).1 = false ->
  store_live_prefix exp2 uf io fs kc s (Some tk) n reason hooks = (true, fs', kc') ->
  exists fs2 payload trailer ext fb rb,
    let tmp := tmp_path (text_path kc text) (io_pid io) in
    let h := fill_header (u8 engine_model_id) (u8 routed_quant_bits) (reason_code reason) ext
               (u32 (zlen st)) 0 (u32 (session_ctx s)) (io_now io) (io_now io) (zlen payload) in
    kc_enabled kc = true /\ o_min_tokens (kc_opt kc) <= n /\
    (routed_quant_bits = 2 \/ routed_quant_bits = 4) /\ zlen text <= U32_MAX /\
    (exists extra inc, evict exp2 uf (io_now io) (existing uf fs kc s text).2 kc extra inc = (fs2, kc')) /\
    fs' = fs_rename (fs_write fs2 tmp (checkpoint_image h text payload trailer)) tmp
            (text_path kc text) /\
    file_size_fits (Some kc') (zlen text) (zlen payload) (zlen trailer) = (true, fb, rb) /\
    (ext = 0 \/ exists hk, hooks = Some hk /\ ext = th_ext_flag hk) /\
    session_stage_payload s = Some payload.
Proof.
  cbv zeta. intros Hno. unfold store_live_prefix, store_live_prefix_text. cbv zeta.
  destruct (kc_enabled kc); [|done]. cbn [negb].
  destruct (Z.ltb_spec n (o_min_tokens (kc_opt kc))); [done|].
  destruct (negb (routed_quant_bits =? 2) && negb (routed_quant_bits =? 4)) eqn:Eq; [done|].
  destruct (session_tokens s) as [live|]; [|done].
  destruct (_ || _); [done|].
  set (text := render_tokens_text _) in *.
  destruct (Z.ltb_spec U32_MAX (zlen text)); [done|].
  destruct (trailer_serialized_size hooks text) as [est|]; [|done].
  fold (text_path kc text). fold (existing uf fs kc s text). destruct (existing uf fs kc s text) as [b fs1]. cbn [fst snd] in *. subst b.
  destruct (session_stage_payload s) as [payload|]; [|done].
  destruct (file_size_fits _ _ _ _) as [[[|] ?] ?]; [|done].
  destruct (evict _ _ _ _ _ _ _) as [fs2 kc2] eqn:Ev.
  destruct (negb (io_open_tmp io)); [done|].
  destruct (io_write io); [done|].
  destruct (trailer_write hooks text) as [trailer|]; [|done].
  destruct (negb (io_close io)); [done|].
  destruct (file_size_fits (Some kc2) _ _ _) as [[[|] fb] rb] eqn:Ef; [|done].
  destruct (negb (io_rename io)); [done|]. intros [= <- <-].
  eexists fs2, payload, trailer, _, fb, rb. split_and!; try done.
  - bool_prop. destruct Eq; bool_prop; auto.
  - eauto.
  - destruct hooks as [hk|]; [|by left]. case_if; [right; eauto | by left].
Qed.

Lemma tmp_path_ne p pid : tmp_path p pid <> p.
Proof.
  unfold tmp_path. intros Heq. apply (f_equal length) in Heq. rewrite !length_app in Heq.
  cbn [bs length] in Heq. lia.
Qed.

Lemma fs_rename_new fs2 tmp path image :
  NoDup (fs2.*1) ->
  let fs' := fs_rename (fs_write fs2 tmp image) tmp path in
  NoDup (fs'.*1) /\ fs_lookup fs' path = Some image.
Proof.
  intros Hnd. cbv zeta. unfold fs_rename. rewrite fs_write_lookup. split; [|apply fs_write_lookup].
  by apply fs_write_NoDup, fs_unlink_NoDup, fs_write_NoDup.
Qed.

(** The image of a store reads back as an index entry with its fields. *)
Lemma image_entry fs path sha m q rc ext t c now text payload trailer :
  let h := fill_header m q rc ext t 0 c now now (zlen payload) in
  header_valid m q rc ext t 0 c now now (zlen payload) (zlen text) ->
  kv_fixed + zlen text + zlen payload + zlen trailer <= U64_MAX ->
  fs_lookup fs path = Some (checkpoint_image h text payload trailer) ->
  read_entry_file fs path sha =
  Some (Entry sha path q m rc t 0 c ext now now (zlen payload) (zlen text)
          (zlen (checkpoint_image h text payload trailer))).
Proof.
  cbv zeta. intros Hv Hmax Hl. unfold read_entry_file. rewrite Hl.
  set (h := fill_header _ _ _ _ _ _ _ _ _ _) in *.
  pose proof (zlen_nonneg text). pose proof (zlen_nonneg payload). pose proof (zlen_nonneg trailer).
  assert (Hlen : zlen (checkpoint_image h text payload trailer) =
                 kv_fixed + zlen text + zlen payload + zlen trailer).
  { unfold checkpoint_image. rewrite !zlen_app, le_put32_eq.
    change (splice 0 (le_bytes 4 (u32 (zlen text))) (replicate 4 0))
      with (le_bytes 4 (u32 (zlen text)) ++ []).
    rewrite app_nil_r. unfold zlen at 1 2. unfold h.
    rewrite fill_header_length, le_bytes_length. unfold kv_fixed. lia. }
  rewrite Hlen.
  unfold checkpoint_image. rewrite u32_small by apply Hv.
  unfold h. rewrite (read_header_fill _ _ _ _ _ _ _ _ _ _ _ _ entry_zero Hv).
  cbn [e_payload_bytes]. unfold kv_fixed, DS4_KVSTORE_FIXED_HEADER, u64, U64_MAX in *.
  change (Z.of_nat 48 + 4) with 52 in *.
  rewrite !(Z.mod_small _ 18446744073709551616) by lia.
  repeat case_if; try done; bool_prop; try lia.
Qed.

(** The entry of a fresh checkpoint is usable for every prompt that starts
    with its text. *)
Lemma fresh_entry_usable kc path (text suffix : bytes) t c c0 now pb fsize rc ext :
  zlen text <= U32_MAX -> 0 <= t <= INT32_MAX -> o_min_tokens (kc_opt kc) <= t -> u32 c <= u32 c0 ->
  usable kc (text ++ suffix) engine_model_id routed_quant_bits c0
    (Entry (sha1_bytes_hex text) path (u8 routed_quant_bits) (u8 engine_model_id) rc t 0
       (u32 c) ext now now pb (zlen text) fsize).
Proof.
  intros Ht Hti Hm Hc. unfold usable, find_candidate. cbn [e_text_bytes e_tokens e_model_id e_ctx_size e_quant_bits e_sha].
  rewrite i32_small by done. split.
  - rewrite zlen_app, !Z.eqb_refl. cbn [negb]. rewrite andb_false_r. cbn [negb].
    pose proof (zlen_nonneg suffix). unfold U32_MAX, U64_MAX in *.
    rewrite (proj2 (Z.ltb_ge _ _)), (proj2 (Z.ltb_ge 18446744073709551615 _)),
      (proj2 (Z.ltb_ge t _)), (proj2 (Z.ltb_ge (u32 c0) _)) by lia. done.
  - unfold zlen. by rewrite Nat2Z.id, take_app_length.
Qed.

Lemma copy_prefix_length tk n :
  0 <= n <= zlen tk -> zlen (tokens_copy_prefix (Some tk) n) = n.
Proof.
  intros Hn. unfold tokens_copy_prefix. destruct (Z.ltb_spec (zlen tk) n); [lia|].
  unfold zlen in *. rewrite length_take. lia.
Qed.

(** A checkpoint file under its text's name is in the index. *)
Lemma stored_listed fs kc kc' text img e :
  kc_enabled kc' = true -> kc_dir kc' = kc_dir kc ->
  fs_lookup fs (text_path kc text) = Some img ->
  read_entry_file fs (text_path kc text) (sha1_bytes_hex text) = Some e ->
  e ∈ kc_entry (cache_refresh fs kc').
Proof.
  intros Hen Hdir Hl He. rewrite cache_refresh_entries by done. apply list_elem_of_omap.
  exists (text_path kc text). split.
  - apply list_elem_of_fmap. exists (text_path kc text, img). split; [done|]. by apply fs_lookup_elem.
  - unfold entry_of. rewrite Hdir. unfold text_path at 1.
    rewrite dir_name_sha by (apply sha1_bytes_hex_length || apply sha1_bytes_hex_lhex).
    rewrite sha_hex_name_lhex by (apply sha1_bytes_hex_length || apply sha1_bytes_hex_lhex).
    exact He.
Qed.

Lemma store_then_find_spec uf io fs kc s tk n reason hooks fs' kc' suffix r kc1 :
  let text := render_tokens_text (tokens_copy_prefix (Some tk) n) in
  NoDup (fs.*1) -> fs_lookup fs (text_path kc text) = None ->
  0 < o_min_tokens (kc_opt kc) -> n <= zlen tk -> zlen tk <= INT32_MAX ->
  is_u64 (io_now io) -> (forall hk, hooks = Some hk -> is_byte (th_ext_flag hk)) ->
  store_live_prefix exp2 uf io fs kc s (Some tk) n reason hooks = (true, fs', kc') ->
  find_text_prefix fs' kc' (Some (text ++ suffix)) engine_model_id routed_quant_bits
    (session_ctx s) = (r, kc1) ->
  exists i e, r = Some (i, e) /\ zlen text <= e_text_bytes e.
Proof.
  cbv zeta. intros Hnd Hno Hmin Hn Hmax Hnow Hext Hst Hf.
  apply store_fresh_spec in Hst; [|by rewrite existing_none]. rewrite existing_none in Hst by done. cbn [snd] in Hst.
  destruct Hst as (fs2 & payload & trailer & ext & fb & rb & Hen & Hnm & Hq & Htl &
                   (extra & inc & Hev) & -> & Hfit & Hx & _).
  set (text := render_tokens_text _) in *.
  apply evict_sub in Hev as (_ & Hnd2 & (es & cap & Hkc')).
  destruct (fs_rename_new fs2 (tmp_path (text_path kc text) (io_pid io)) (text_path kc text)
    (checkpoint_image (fill_header (u8 engine_model_id) (u8 routed_quant_bits) (reason_code reason)
       ext (u32 (zlen (tokens_copy_prefix (Some tk) n))) 0 (u32 (session_ctx s)) (io_now io)
       (io_now io) (zlen payload)) text payload trailer) (Hnd2 Hnd)) as [Hnd' Hl].
  set (fs' := fs_rename _ _ _) in *.
  rewrite copy_prefix_length, u32_small in Hl by (unfold is_u32, U32_MAX, INT32_MAX in *; lia).
  apply file_size_fits_exact in Hfit; try apply zlen_nonneg.
  destruct Hfit as (Hfb & Hfbm & _).
  pose proof (zlen_nonneg text). pose proof (zlen_nonneg payload). pose proof (zlen_nonneg trailer).
  assert (Hv : header_valid (u8 engine_model_id) (u8 routed_quant_bits) (reason_code reason) ext n 0
                 (u32 (session_ctx s)) (io_now io) (io_now io) (zlen payload) (zlen text)).
  { unfold kv_fixed in Hfb. constructor; try done; try apply u8_is_byte; try apply u32_range;
      try apply reason_code_range; unfold is_u32, is_u64, U32_MAX, INT32_MAX in *; try lia.
    - destruct Hx as [-> | (hk & Hhk & ->)]; [done | by apply Hext].
    - destruct Hq as [-> | ->]; auto. }
  pose proof (image_entry fs' (text_path kc text) (sha1_bytes_hex text) _ _ _ _ _ _ _ text payload trailer Hv
    ltac:(lia) Hl) as He.
  apply find_text_prefix_spec in Hf as [-> Hf].
  assert (Hen' : kc_enabled kc' = true) by (by rewrite Hkc').
  assert (Hdir : kc_dir kc' = kc_dir kc) by (by rewrite Hkc').
  match type of He with _ = Some ?e0 => set (e1 := e0) in * end.
  pose proof (stored_listed fs' kc kc' text _ e1 Hen' Hdir Hl He) as Hin.
  assert (Hu : usable (cache_refresh fs' kc') (text ++ suffix) engine_model_id routed_quant_bits
                 (session_ctx s) e1).
  { apply fresh_entry_usable; [done | unfold INT32_MAX in *; lia | | done].
    destruct (cache_refresh_config fs' kc') as (es' & cap' & ->). rewrite Hkc'. exact Hnm. }
  destruct r as [[i e]|]; [|by destruct (Hf e1 Hin Hu)].
  destruct Hf as (_ & _ & Hbest). exists i, e. split; [done|].
  specialize (Hbest e1 Hin Hu). unfold at_least in Hbest. cbn [e1 e_text_bytes] in Hbest. lia.
Qed.
End SessionFacts.

(** ** Properties *)

(** What a successful load guarantees about the bytes it restored. *)
Definition load_verified {Sess : Type} `{KvEngine Sess} (fs : kvfs) (kc : ds4_kvstore) (text : bytes)
    (o : load_out) : Prop :=
  exists e content hdr tb cached rest suffix live,
    e ∈ kc_entry (cache_refresh fs kc) /\
    fs_lookup fs (e_path e) = Some content /\
    read_header content entry_zero = Some (hdr, tb, cached ++ rest) /\
    length cached = Z.to_nat tb /\
    e_model_id hdr = u8 engine_model_id /\
    sha1_bytes_hex cached = e_sha e /\
    text = cached ++ suffix /\
    session_tokens (lo_session o) = Some live /\
    zlen live = lo_loaded o /\ lo_loaded o = i32 (e_tokens hdr) /\
    lo_prompt o = live ++ tokenize_rendered_chat suffix.

(** C24: a load that reports tokens restored a checkpoint of this model whose
    stored text is a prefix of the prompt; the live session holds exactly the
    tokens reported, and the rebuilt prompt is those tokens followed by the
    tokens of the remaining text. *)
Theorem load_restores_verified_prefix {Sess : Type} `{KvEngine Sess} (uf : bytes -> bool) (now : Z)
    (fs : kvfs) (kc : ds4_kvstore) (s : Sess) (text : bytes) (hooks : option trailer_hooks)
    (Hload : lo_loaded (try_load_text uf now fs kc s (Some text) hooks) <> 0) :
  load_verified fs kc text (try_load_text uf now fs kc s (Some text) hooks).
Proof. by apply (try_load_text_spec uf now fs kc s text hooks). Qed.

(** a store that reports failure leaves in the directory only files that
    were there before, with their old content: no partial checkpoint. *)
Theorem failed_store_adds_nothing {Sess : Type} `{KvEngine Sess} (exp2 : spec_float -> spec_float)
    (io : store_io) (fs : kvfs) (kc : ds4_kvstore) (s : Sess) (toks : option (list Z)) (n : Z)
    (reason ov : option bytes) (ext : Z) (hooks : option trailer_hooks) (fs' : kvfs)
    (kc' : ds4_kvstore)
    (Hst : store_live_prefix_text exp2 (fun _ => false) io fs kc s toks n reason ov ext hooks
           = (false, fs', kc')) :
  forall pc, pc ∈ fs' -> pc ∈ fs.
Proof. by eapply store_failure_spec. Qed.

(** after a successful store of new text, looking up any prompt that
    begins with that text finds a checkpoint at least as long. *)
Theorem stored_checkpoint_is_found {Sess : Type} `{KvEngine Sess} (exp2 : spec_float -> spec_float)
    (uf : bytes -> bool) (io : store_io) (fs : kvfs) (kc : ds4_kvstore) (s : Sess) (tk : list Z) (n : Z)
    (reason : option bytes) (hooks : option trailer_hooks) (fs' : kvfs) (kc' : ds4_kvstore)
    (suffix : bytes)
    (Hnd : NoDup (fs.*1))
    (Hno : fs_lookup fs (text_path kc (render_tokens_text (tokens_copy_prefix (Some tk) n))) = None)
    (Hmin : 0 < o_min_tokens (kc_opt kc)) (Hn : n <= zlen tk <= INT32_MAX)
    (Hnow : is_u64 (io_now io)) (Hx : forall hk, hooks = Some hk -> is_byte (th_ext_flag hk))
    (Hst : store_live_prefix exp2 uf io fs kc s (Some tk) n reason hooks = (true, fs', kc')) :
  exists i e, fst (find_text_prefix fs' kc'
      (Some (render_tokens_text (tokens_copy_prefix (Some tk) n) ++ suffix))
      engine_model_id routed_quant_bits (session_ctx s)) = Some (i, e) /\
    zlen (render_tokens_text (tokens_copy_prefix (Some tk) n)) <= e_text_bytes e.
Proof.
  destruct (find_text_prefix _ _ _ _ _ _) as [r kc1] eqn:Ef. cbn [fst].
  eapply store_then_find_spec; try done; tauto.
Qed.

(** ** A concrete engine: one-byte tokens, the payload is the token list. *)
Module Toy.
#[export] Instance engine : KvEngine (list Z) := {|
  routed_quant_bits := 2;
  engine_model_id := 0;
  token_text t := [t];
  tokenize_rendered_chat s := s;
  session_ctx _ := 4096;
  session_tokens s := Some s;
  session_stage_payload s := Some s;
  session_load_payload _ rest n := (true, take (Z.to_nat n) rest, drop (Z.to_nat n) rest);
  session_invalidate _ := []
|}.

Definition exp2_one (_ : spec_float) : spec_float := F64.of_Z 1.
Definition no_fail (_ : bytes) : bool := false.
Definition io : store_io := StoreIO 1000 77 true None true true.
Definition kc : ds4_kvstore := Store true (bs "/kv") 1000000 false (Options 2 30 10 1 2) 0 [] 0.
Definition other : kvfs := [(bs "/kv/notes.txt", bs "hello")].
Definition session : list Z := bs "abcd".
Definition stored : bool * kvfs * ds4_kvstore :=
  store_live_prefix exp2_one no_fail io other kc session (Some session) 4 (Some (bs "cold")) None.
End Toy.
Import Toy.

Lemma stored_checkpoint_is_found_witness :
  fst (fst Toy.stored) = true /\
  exists i e, fst (find_text_prefix (snd (fst Toy.stored)) (snd Toy.stored)
      (Some (render_tokens_text (tokens_copy_prefix (Some Toy.session) 4) ++ bs "ef"))
      engine_model_id routed_quant_bits (session_ctx Toy.session)) = Some (i, e) /\
    zlen (render_tokens_text (tokens_copy_prefix (Some Toy.session) 4)) <= e_text_bytes e.
Proof.
  split; [vm_compute; reflexivity|].
  apply (stored_checkpoint_is_found Toy.exp2_one Toy.no_fail Toy.io Toy.other Toy.kc Toy.session
    Toy.session 4 (Some (bs "cold")) None (snd (fst Toy.stored)) (snd Toy.stored) (bs "ef")).
  - apply NoDup_singleton.
  - vm_compute. reflexivity.
  - vm_compute. reflexivity.
  - vm_compute. split; intros H; discriminate H.
  - vm_compute. split; intros H; discriminate H.
  - intros hk H. discriminate H.
  - vm_compute. reflexivity.
Defined.

Lemma load_restores_verified_prefix_witness :
  lo_loaded (try_load_text Toy.no_fail 2000 (snd (fst Toy.stored)) (snd Toy.stored) []
               (Some (bs "abcdef")) None) = 4 /\
  load_verified (snd (fst Toy.stored)) (snd Toy.stored) (bs "abcdef")
    (try_load_text Toy.no_fail 2000 (snd (fst Toy.stored)) (snd Toy.stored) []
               (Some (bs "abcdef")) None).
Proof.
  split; [vm_compute; reflexivity|]. apply load_restores_verified_prefix.
  intros H. vm_compute in H. discriminate H.
Defined.

(** The write of the image fails half-way. *)
Definition Toy_failing : store_io := StoreIO 1000 77 true (Some (bs "KVC")) true true.

Lemma failed_store_adds_nothing_witness :
  exists fs' kc',
    store_live_prefix_text Toy.exp2_one Toy.no_fail Toy_failing Toy.other Toy.kc Toy.session
      (Some Toy.session) 4 None None 0 None = (false, fs', kc') /\
    forall pc, pc ∈ fs' -> pc ∈ Toy.other.
Proof.
  eexists _, _. split; [vm_compute; reflexivity|].
  eapply (failed_store_adds_nothing Toy.exp2_one Toy_failing Toy.other Toy.kc Toy.session
    (Some Toy.session) 4 None None 0 None). vm_compute. reflexivity.
Defined.
