(* ===== verification/StreamText.v ===== *)
(** Streamed text: stop sequences and UTF-8 boundaries ([ds4_server.c]).

    A stream emits prefixes of the generated bytes while generation goes on.
    [stop_list_*] finds stop sequences and the length that may be emitted
    before a stop could still complete; [utf8_stream_safe_len] holds back a
    trailing incomplete character.  The theorems say that no continuation of
    the stream can make an emitted byte part of a stop sequence, and that the
    cut is the last character boundary. *)

From S2P Require Import Prelude.

#[local] Open Scope Z_scope.

(** ** Stop sequences *)

Record stop_list := StopList { stops_v : list bytes; stops_max_len : nat }.

Definition stop_list_clear (stops : stop_list) : stop_list := StopList [] 0.

Definition stop_list_push (stops : stop_list) (s : option bytes) : stop_list :=
  match s with
  | None | Some [] => stops
  | Some s =>
      StopList (stops_v stops ++ [s])
        (if (stops_max_len stops <? length s)%nat then length s else stops_max_len stops)
  end.

(** The scan over the stop strings: the best position so far and its length. *)
Fixpoint stop_scan (vs : list bytes) (text : bytes) (from : nat) (best : option (nat * nat))
  : option (nat * nat) :=
  match vs with
  | [] => best
  | v :: vs' =>
      let best' :=
        match strstr v (drop from text) with
        | None => best
        | Some i =>
            let ppos := (from + i)%nat in
            match best with
            | Some (bp, _) => if (ppos <? bp)%nat then Some (ppos, length v) else best
            | None => Some (ppos, length v)
            end
        end in
      stop_scan vs' text from best'
  end.

Definition stop_list_find_from (stops : stop_list) (text : option bytes) (from : nat)
  : option (nat * nat) :=
  match stops_v stops, text with
  | [], _ | _, None => None
  | vs, Some text => stop_scan vs text from None
  end.

Definition stop_list_stream_safe_len (stops : stop_list) (text_len : nat) : nat :=
  if match stops_v stops with [] => true | _ => false end || (stops_max_len stops <=? 1)%nat
  then text_len
  else
    let hold := (stops_max_len stops - 1)%nat in
    if (hold <? text_len)%nat then (text_len - hold)%nat else 0%nat.

(** ** UTF-8 boundaries *)

Definition utf8_expected_len (c : Z) : Z :=
  if c <? 128 then 1
  else if (194 <=? c) && (c <=? 223) then 2
  else if (224 <=? c) && (c <=? 239) then 3
  else if (240 <=? c) && (c <=? 244) then 4
  else 1.

Definition is_cont (c : Z) : bool := Z.land c 192 =? 128.

(** The backwards loop over continuation bytes; [k] counts down from 4. *)
Fixpoint utf8_back (s : bytes) (start p k : nat) : nat :=
  match k with
  | O => p
  | S k' =>
      if (start <? p)%nat && is_cont (cget s (p - 1)) then utf8_back s start (p - 1) k' else p
  end.

Definition utf8_stream_safe_len (s : bytes) (start limit : nat) (final : bool) : nat :=
  if final || (limit <=? start)%nat then limit
  else
    let p := utf8_back s start limit 4 in
    if (p =? limit)%nat then
      if 1 <? utf8_expected_len (cget s (limit - 1)) then (limit - 1)%nat else limit
    else if (p =? start)%nat && is_cont (cget s p) then start
    else
      let lead := (p - 1)%nat in
      let need := utf8_expected_len (cget s lead) in
      if Z.of_nat (limit - lead) <? need then lead else limit.

(** ** Facts on stop sequences *)

(** The list as pushes build it: no empty string, and a true maximum. *)
Definition stops_ok (stops : stop_list) : Prop :=
  Forall (fun v => v <> [] /\ (length v <= stops_max_len stops)%nat) (stops_v stops).

Lemma stops_ok_clear stops : stops_ok (stop_list_clear stops).
Proof. constructor. Qed.

Lemma stops_ok_push stops s : stops_ok stops -> stops_ok (stop_list_push stops s).
Proof.
  unfold stops_ok. intros H. destruct s as [[|c s]|]; try done. cbn [stop_list_push stops_v stops_max_len].
  apply Forall_app. split.
  - eapply Forall_impl; [exact H|]. intros v [Hv Hl]. split; [done|]. case_if; bool_prop; lia.
  - constructor; [|done]. split; [done|]. case_if; bool_prop; lia.
Qed.

(** An occurrence of a stop string at or after [from]. *)
Definition stop_at (vs : list bytes) (text : bytes) (from i : nat) (v : bytes) : Prop :=
  v ∈ vs /\ (from <= i)%nat /\ starts_with v (drop i text) = true.

Lemma strstr_from v text from i :
  strstr v (drop from text) = Some i ->
  starts_with v (drop (from + i) text) = true /\
  forall j, (from <= j < from + i)%nat -> starts_with v (drop j text) = false.
Proof.
  intros H. apply strstr_Some in H as [H1 H2]. rewrite drop_drop in H1. split; [done|].
  intros j Hj. specialize (H2 (j - from)%nat ltac:(lia)). rewrite drop_drop in H2.
  by replace (from + (j - from))%nat with j in H2 by lia.
Qed.

Lemma strstr_from_None v text from j :
  strstr v (drop from text) = None -> (from <= j)%nat -> v <> [] -> starts_with v (drop j text) = false.
Proof.
  intros H Hj Hv. destruct (starts_with v (drop j text)) eqn:E; [|done].
  pose proof (strstr_None _ _ (j - from) Hv H) as E'. rewrite drop_drop in E'.
  replace (from + (j - from))%nat with j in E' by lia. congruence.
Qed.

Lemma stop_scan_spec vs text from : forall best,
  Forall (fun v => v <> []) vs ->
  match stop_scan vs text from best with
  | None => best = None /\ forall i v, ~ stop_at vs text from i v
  | Some (p, n) =>
      (best = Some (p, n) \/ exists v, n = length v /\ stop_at vs text from p v) /\
      (forall bp bn, best = Some (bp, bn) -> (p <= bp)%nat) /\
      (forall i v, stop_at vs text from i v -> (p <= i)%nat)
  end.
Proof.
  induction vs as [|v vs IH]; intros best Hne; cbn [stop_scan].
  { destruct best as [[p n]|]; [split_and!; [by left | intros ?? [= <- <-]; lia |] | split; [done|]];
      intros i v [Hv _]; by apply not_elem_of_nil in Hv. }
  apply Forall_cons in Hne as [Hv Hne]. specialize (fun b => IH b Hne).
  assert (Hsub : forall i w, stop_at vs text from i w -> stop_at (v :: vs) text from i w).
  { intros i w (H1 & H2 & H3). split_and!; [by right | done | done]. }
  destruct (strstr v (drop from text)) as [k|] eqn:Ek.
  - apply strstr_from in Ek as [E1 E2].
    set (best' := match best with Some (bp, _) => _ | None => _ end).
    assert (Hhit : stop_at (v :: vs) text from (from + k) v) by (split_and!; [left | lia | done]).
    assert (Hb' : exists bp bn, best' = Some (bp, bn) /\ (bp <= from + k)%nat /\
      (best = Some (bp, bn) \/ bn = length v /\ bp = (from + k)%nat) /\
      (forall b n, best = Some (b, n) -> (bp <= b)%nat)).
    { unfold best'. destruct best as [[b n]|].
      - case_if; bool_prop; eexists _, _; (split_and!; [done | lia | tauto | intros ?? [= <- <-]; lia]).
      - eexists _, _. split_and!; [done | lia | tauto | done]. }
    destruct Hb' as (bp & bn & Eb & Hle & Hor & Hmin). specialize (IH best'). rewrite Eb in IH.
    rewrite Eb. destruct (stop_scan vs text from (Some (bp, bn))) as [[p n]|]; [|by destruct IH].
    destruct IH as (H1 & H2 & H3). specialize (H2 _ _ eq_refl). split_and!.
    + destruct H1 as [[= <- <-]|(w & -> & Hw)]; [|right; eauto].
      destruct Hor as [->|[-> ->]]; [by left | right; eauto].
    + intros b n' Hb. specialize (Hmin _ _ Hb). lia.
    + intros i w (Hw & Hi & Hs). apply elem_of_cons in Hw as [->|Hw]; [|by apply (H3 i w)].
      destruct (Nat.le_gt_cases (from + k) i); [lia|]. rewrite E2 in Hs by lia. done.
  - specialize (IH best). destruct (stop_scan vs text from best) as [[p n]|].
    + destruct IH as (H1 & H2 & H3). split_and!; [|done|].
      * destruct H1 as [?|(w & -> & Hw)]; [by left | right; eauto].
      * intros i w (Hw & Hi & Hs). apply elem_of_cons in Hw as [->|Hw]; [|by apply (H3 i w)].
        rewrite (strstr_from_None v text from i) in Hs by done. done.
    + destruct IH as [-> H]. split; [done|]. intros i w (Hw & Hi & Hs).
      apply elem_of_cons in Hw as [->|Hw]; [|by apply (H i w)].
      rewrite (strstr_from_None v text from i) in Hs by done. done.
Qed.

Lemma find_from_spec stops text from :
  stops_ok stops ->
  match stop_list_find_from stops (Some text) from with
  | None => forall i v, ~ stop_at (stops_v stops) text from i v
  | Some (p, n) =>
      (exists v, n = length v /\ stop_at (stops_v stops) text from p v) /\
      forall i v, stop_at (stops_v stops) text from i v -> (p <= i)%nat
  end.
Proof.
  intros Hok. unfold stop_list_find_from. destruct (stops_v stops) as [|v0 vs] eqn:Ev.
  { intros i v [Hv _]. by apply not_elem_of_nil in Hv. }
  rewrite <- Ev. assert (Hne : Forall (fun v => v <> []) (stops_v stops)).
  { eapply Forall_impl; [exact Hok | by intros ? []]. }
  pose proof (stop_scan_spec (stops_v stops) text from None Hne) as H.
  destruct (stop_scan (stops_v stops) text from None) as [[p n]|].
  - destruct H as (H0 & _ & H2). destruct H0 as [H0|H1]; done.
  - apply H.
Qed.

(** A stop string that ends inside [text] was already there. *)
Lemma stop_at_prefix vs text t from i v :
  stop_at vs (text ++ t) from i v -> (i + length v <= length text)%nat -> stop_at vs text from i v.
Proof.
  intros (Hv & Hi & Hs) Hl. split_and!; [done | done |].
  rewrite drop_app_le in Hs by lia. apply starts_with_iff in Hs as [r Hr].
  apply starts_with_iff. exists (drop (length v) (drop i text)).
  rewrite <- (take_drop (length v) (drop i text)) at 1. f_equal.
  apply (f_equal (take (length v))) in Hr. rewrite take_app_length in Hr.
  by rewrite take_app_le in Hr by (rewrite length_drop; lia).
Qed.

Lemma stop_hold_back stops text t from p n :
  stops_ok stops ->
  stop_list_find_from stops (Some text) from = None ->
  stop_list_find_from stops (Some (text ++ t)) from = Some (p, n) ->
  (stop_list_stream_safe_len stops (length text) <= p)%nat.
Proof.
  intros Hok H1 H2. pose proof (find_from_spec stops text from Hok) as S1. rewrite H1 in S1.
  pose proof (find_from_spec stops (text ++ t) from Hok) as S2. rewrite H2 in S2.
  destruct S2 as [(v & -> & Hs) _].
  destruct (Nat.le_gt_cases (p + length v) (length text)) as [Hle|Hgt].
  { destruct (S1 p v). by eapply stop_at_prefix. }
  assert (Hv : (length v <= stops_max_len stops)%nat).
  { unfold stops_ok in Hok. rewrite Forall_forall in Hok. apply Hok. apply Hs. }
  unfold stop_list_stream_safe_len. destruct (stops_v stops) as [|v0 vs] eqn:Ev.
  { destruct Hs as [Hs _]. by apply not_elem_of_nil in Hs. }
  cbn [orb]. destruct (Nat.leb_spec (stops_max_len stops) 1); [lia|]. case_if; bool_prop; lia.
Qed.

(** ** Facts on UTF-8 boundaries *)

(** A well-formed character: a lead byte announcing its length, then
    continuation bytes. *)
Definition utf8_char (c : bytes) : Prop :=
  match c with
  | [] => False
  | lead :: conts =>
      is_cont lead = false /\ Forall (fun b => is_cont b = true) conts /\
      zlen c = utf8_expected_len lead
  end.

Lemma utf8_expected_range c : 1 <= utf8_expected_len c <= 4.
Proof. unfold utf8_expected_len. repeat case_if; lia. Qed.

Lemma utf8_back_chunk pre lead conts rest start k :
  is_cont lead = false -> Forall (fun b => is_cont b = true) conts ->
  (start <= length pre)%nat -> (length conts < k)%nat ->
  utf8_back (pre ++ (lead :: conts) ++ rest) start (length pre + S (length conts)) k =
  (length pre + 1)%nat.
Proof.
  intros Hl. revert rest k. induction conts as [|c conts IH] using rev_ind; intros rest k Hc Hs Hk;
    (destruct k as [|k]; [simpl in Hk; lia|]); cbn [utf8_back].
  - cbn [length]. replace (length pre + 1 - 1)%nat with (length pre) by lia.
    unfold cget. rewrite app_nth2, Nat.sub_diag by lia. cbn [app nth]. rewrite Hl.
    by rewrite andb_false_r.
  - apply Forall_app in Hc as [Hc Hlast]. apply Forall_cons in Hlast as [Hlast _].
    rewrite length_app in *. cbn [length] in *.
    replace (length pre + S (length conts + 1) - 1)%nat with (length pre + S (length conts))%nat by lia.
    replace (pre ++ (lead :: conts ++ [c]) ++ rest) with (pre ++ (lead :: conts) ++ c :: rest)
      by (simpl; by rewrite <- app_assoc).
    replace (cget (pre ++ (lead :: conts) ++ c :: rest) (length pre + S (length conts))) with c.
    + rewrite Hlast. destruct (Nat.ltb_spec start (length pre + S (length conts + 1))); [|lia].
      cbn [andb]. apply IH; [done | done | lia].
    + unfold cget. rewrite app_assoc, app_nth2 by (rewrite length_app; cbn [length]; lia).
      rewrite length_app. cbn [length]. by rewrite Nat.sub_diag.
Qed.

(** The last chunk of the window decides: kept when it is complete. *)
Lemma utf8_safe_chunk pre lead conts rest start :
  is_cont lead = false -> Forall (fun b => is_cont b = true) conts ->
  (start <= length pre)%nat -> Z.of_nat (length conts) < 4 ->
  utf8_stream_safe_len (pre ++ (lead :: conts) ++ rest) start (length pre + S (length conts)) false =
  if Z.of_nat (S (length conts)) <? utf8_expected_len lead then length pre
  else (length pre + S (length conts))%nat.
Proof.
  intros Hl Hc Hs Hk. unfold utf8_stream_safe_len.
  destruct (Nat.leb_spec (length pre + S (length conts)) start); [lia|]. cbn [orb].
  rewrite utf8_back_chunk by (done || lia).
  assert (Hlead : cget (pre ++ (lead :: conts) ++ rest) (length pre) = lead).
  { unfold cget. rewrite app_nth2 by lia. by rewrite Nat.sub_diag. }
  replace (length pre + 1 - 1)%nat with (length pre) by lia. rewrite Hlead.
  destruct (Nat.eqb_spec (length pre + 1) (length pre + S (length conts))) as [E|E].
  - assert (Hn : length conts = 0%nat) by lia. rewrite Hn.
    replace (length pre + 1 - 1)%nat with (length pre) by lia. by rewrite Hlead.
  - destruct (Nat.eqb_spec (length pre + 1) start); [lia|]. cbn [andb].
    by replace (length pre + S (length conts) - length pre)%nat with (S (length conts)) by lia.
Qed.

Lemma utf8_safe_boundary pre chars part rest :
  Forall utf8_char chars ->
  (part = [] \/ exists more, more <> [] /\ utf8_char (part ++ more)) ->
  utf8_stream_safe_len (pre ++ concat chars ++ part ++ rest) (length pre)
    (length (pre ++ concat chars ++ part)) false = length (pre ++ concat chars).
Proof.
  intros Hch Hp. destruct part as [|lead conts].
  - clear Hp. destruct chars as [|c chars _] using rev_ind.
    { cbn. rewrite !app_nil_r. unfold utf8_stream_safe_len. by rewrite Nat.leb_refl. }
    apply Forall_app in Hch as [_ Hc]. apply Forall_cons in Hc as [Hc _].
    destruct c as [|lead conts]; [done|]. destruct Hc as (Hl & Hc & Hn).
    pose proof (utf8_expected_range lead). unfold zlen in Hn. cbn [length] in Hn.
    rewrite concat_app. cbn [concat]. rewrite !app_nil_r.
    rewrite <- !app_assoc. change ([] ++ rest) with rest. rewrite app_assoc.
    rewrite (app_assoc pre (concat chars) (lead :: conts)).
    rewrite (length_app (pre ++ concat chars)). cbn [length].
    rewrite utf8_safe_chunk; [| done | done | rewrite length_app; lia | lia].
    case_if; bool_prop; lia.
  - destruct Hp as [?|(more & Hm & Hl & Hc & Hn)]; [done|]. apply Forall_app in Hc as [Hc _].
    pose proof (utf8_expected_range lead). unfold zlen in Hn. change (lead :: conts ++ more) with ((lead :: conts) ++ more) in Hn.
    rewrite length_app in Hn. cbn [length] in Hn.
    assert (0 < length more)%nat by (destruct more; simpl; [done | lia]).
    rewrite !app_assoc. rewrite (length_app (pre ++ concat chars)). cbn [length].
    rewrite <- (app_assoc (pre ++ concat chars)).
    rewrite utf8_safe_chunk; [| done | done | rewrite length_app; lia | lia].
    case_if; bool_prop; lia.
Qed.

Lemma utf8_back_spec s start k : forall p, (start <= p)%nat ->
  (start <= utf8_back s start p k <= p)%nat /\
  forall i, (utf8_back s start p k <= i < p)%nat -> is_cont (cget s i) = true.
Proof.
  induction k as [|k IH]; intros p Hp; cbn [utf8_back]; [split; [lia | intros; lia]|].
  case_if; bool_prop; [|split; [lia | intros; lia]].
  destruct (IH (p - 1)%nat ltac:(lia)) as [H1 H2]. split; [lia|]. intros i Hi.
  destruct (Nat.eq_dec i (p - 1)) as [->|]; [done|]. apply H2. lia.
Qed.

Lemma is_cont_high c : is_byte c -> is_cont c = true -> 128 <= c.
Proof.
  unfold is_cont, is_byte. intros Hb H. apply Z.eqb_eq in H.
  destruct (Z.le_gt_cases 128 c); [done|]. exfalso.
  assert (Ht : Z.testbit (Z.land c 192) 7 = true) by (by rewrite H).
  rewrite Z.land_spec in Ht. apply andb_true_iff in Ht as [Ht _].
  rewrite Z.testbit_true in Ht by lia. change (2 ^ 7) with 128 in Ht. rewrite Z.div_small in Ht by lia. done.
Qed.

Lemma utf8_expected_high c : 1 < utf8_expected_len c -> 128 <= c.
Proof. unfold utf8_expected_len. case_if; bool_prop; lia. Qed.

(** The cut keeps the window and drops only bytes of a character in progress. *)
Lemma utf8_stream_safe_len_cut s start limit :
  bytes_ok s -> (start <= limit)%nat ->
  let cut := utf8_stream_safe_len s start limit false in
  (start <= cut <= limit)%nat /\ forall i, (cut <= i < limit)%nat -> 128 <= cget s i.
Proof.
  intros Hok Hsl. cbv zeta. unfold utf8_stream_safe_len. cbn [orb].
  destruct (Nat.leb_spec limit start); [split; [lia | intros; lia]|].
  destruct (utf8_back_spec s start 4 limit Hsl) as [Hr Hc]. set (p := utf8_back s start limit 4) in *.
  assert (Hb : forall i, is_byte (cget s i)).
  { intros i. unfold cget. destruct (nth_in_or_default i s 0) as [Hin| ->]; [|unfold is_byte; lia].
    rewrite List.Forall_forall in Hok. by apply Hok. }
  assert (Hcont : forall i, (p <= i < limit)%nat -> 128 <= cget s i) by (intros; apply is_cont_high; auto).
  destruct (Nat.eqb_spec p limit).
  { case_if; bool_prop; [|split; [lia | intros; lia]]. split; [lia|]. intros i Hi.
    replace i with (limit - 1)%nat by lia. by apply utf8_expected_high. }
  destruct ((p =? start)%nat && is_cont (cget s p)) eqn:E.
  { bool_prop. split; [lia|]. intros i Hi. apply Hcont. lia. }
  case_if; bool_prop; [|split; [lia | intros; lia]].
  assert (Hp : p <> start \/ is_cont (cget s p) = false) by (destruct E as [E|E]; bool_prop; [by left | by right]).
  destruct (Nat.eq_dec p start) as [He|He].
  { destruct Hp as [?|Hp]; [done|]. specialize (Hc p ltac:(lia)). congruence. }
  split; [lia|]. intros i Hi. destruct (Nat.eq_dec i (p - 1)) as [->|]; [|apply Hcont; lia].
  apply utf8_expected_high. lia.
Qed.

(** ** Properties *)

(** when no stop string was found so far, the bytes released to the
    client lie before every stop string that any continuation completes. *)
Theorem stop_stream_safe (stops : stop_list) (text t : bytes) (from p n : nat)
    (Hok : stops_ok stops)
    (H1 : stop_list_find_from stops (Some text) from = None)
    (H2 : stop_list_find_from stops (Some (text ++ t)) from = Some (p, n)) :
  (stop_list_stream_safe_len stops (length text) <= p)%nat /\
  (exists v, n = length v /\ stop_at (stops_v stops) (text ++ t) from p v) /\
  forall i v, stop_at (stops_v stops) (text ++ t) from i v -> (p <= i)%nat.
Proof.
  split; [by apply (stop_hold_back stops text t from p n)|].
  pose proof (find_from_spec stops (text ++ t) from Hok) as H. by rewrite H2 in H.
Qed.

Lemma stop_stream_safe_witness :
  let stops := stop_list_push (StopList [] 0) (Some (bs "END.")) in
  stop_list_find_from stops (Some (bs "the EN")) 0 = None /\
  stop_list_find_from stops (Some (bs "the EN" ++ bs "D.")) 0 = Some (4%nat, 4%nat) /\
  (stop_list_stream_safe_len stops 6 <= 4)%nat.
Proof.
  set (stops := stop_list_push (StopList [] 0) (Some (bs "END."))).
  split; [vm_compute; reflexivity|]. split; [vm_compute; reflexivity|].
  refine (proj1 (stop_stream_safe stops (bs "the EN") (bs "D.") 0 4 4 _ _ _));
    [apply stops_ok_push; constructor | vm_compute; reflexivity | vm_compute; reflexivity].
Defined.

(** for a stream of well-formed characters cut anywhere, the released
    length is exactly the last character boundary of the window. *)
Theorem utf8_stream_boundary (pre : bytes) (chars : list bytes) (part rest : bytes)
    (Hc : Forall utf8_char chars)
    (Hp : part = [] \/ exists more, more <> [] /\ utf8_char (part ++ more)) :
  utf8_stream_safe_len (pre ++ concat chars ++ part ++ rest) (length pre)
    (length (pre ++ concat chars ++ part)) false = length (pre ++ concat chars).
Proof. by apply utf8_safe_boundary. Qed.

Lemma utf8_stream_boundary_witness :
  utf8_stream_safe_len ([104; 105] ++ concat [[226; 148; 130]; [33]] ++ [240; 159] ++ []) 2 8 false = 6%nat.
Proof.
  apply (utf8_stream_boundary [104; 105] [[226; 148; 130]; [33]] [240; 159] []).
  - repeat constructor.
  - right. exists [152; 128]. split; [done|]. repeat constructor.
Defined.
