(* ===== verification/ToolText.v ===== *)
(** Tool-call text ([ds4_tool_text.h], [ds4_server.c]).

    Tool arguments travel inside tags.  A body is literal data in which only
    the body's own closing delimiter, and the spellings that would collide with
    its escape, are escaped; an attribute is XML-escaped.  The file models the
    writers, the readers (the in-place unescape on its buffer) and the length
    of a partially generated body that may be streamed, and proves that readers
    invert writers, that an escaped body cannot close its tag, and that
    unescaping the streamed fragments one by one is unescaping the body. *)

From S2P Require Import Prelude StreamText.

#[local] Open Scope Z_scope.

(** ** [ds4_tool_text.h] *)

Definition amp_semi : bytes := bs "amp;".
Definition lt_semi : bytes := bs "lt;".

(** [while (!strncmp(s, "amp;", 4)) s += 4;] *)
Fixpoint strip_amp (fuel : nat) (s : bytes) : bytes :=
  match fuel with
  | O => s
  | S fuel' => if starts_with amp_semi s then strip_amp fuel' (drop 4 s) else s
  end.

Definition ds4_tool_text_escaped_close (s end_ : bytes) : bool :=
  if negb (cget s 0 =? 38) then false
  else
    let s := drop 1 s in
    let s := strip_amp (length s) s in
    starts_with lt_semi s && starts_with (drop 1 end_) (drop 3 s).

Definition ds4_tool_text_needs_escape (s end_ : bytes) : bool :=
  starts_with end_ s || ds4_tool_text_escaped_close s end_.

(** The in-place loop: [r] is the read cursor, [out] the write cursor, both in
    the same buffer; the result is the string before the final terminator. *)
Fixpoint unescape_loop (fuel : nat) (buf : bytes) (r out : nat) (end_ : bytes) : bytes :=
  match fuel with
  | O => take out buf
  | S fuel' =>
      if (length buf <=? r)%nat then take out buf
      else if ds4_tool_text_escaped_close (drop r buf) end_ then
        if starts_with (bs "&amp;") (drop r buf)
        then unescape_loop fuel' (<[out := 38]> buf) (r + 5) (out + 1) end_
        else unescape_loop fuel' (<[out := 60]> buf) (r + 4) (out + 1) end_
      else unescape_loop fuel' (<[out := cget buf r]> buf) (r + 1) (out + 1) end_
  end.

Definition ds4_tool_text_unescape (s end_ : bytes) : bytes := unescape_loop (length s) s 0 0 end_.

(** [s] is the first [n] bytes of the fragment. *)
Definition ds4_tool_text_partial_escape (s end_ : bytes) : bool :=
  match s with
  | [] => false
  | c :: s =>
      if negb (c =? 38) then false
      else
        let s := strip_amp (length s) s in
        if (length s <? 4)%nat && starts_with s amp_semi then true
        else if (length s <? 3)%nat then starts_with s lt_semi
        else if negb (starts_with lt_semi s) then false
        else
          let s := drop 3 s in
          (length s <? length (drop 1 end_))%nat && starts_with s (drop 1 end_)
  end.

(** ** The writers of [ds4_server.c] *)

Definition DSML_PARAM_END : bytes := bs "</｜DSML｜parameter>".

(** The loop of [append_glm_tag_body_text] and [append_dsml_parameter_text]. *)
Fixpoint tag_body_escape (s end_ : bytes) : bytes :=
  match s with
  | [] => []
  | c :: s' =>
      if ds4_tool_text_needs_escape s end_
      then (if c =? 60 then bs "&lt;" else bs "&amp;") ++ tag_body_escape s' end_
      else c :: tag_body_escape s' end_
  end.

Definition append_glm_tag_body_text (b : bytes) (s : option bytes) (end_ : bytes) : bytes :=
  b ++ tag_body_escape (default [] s) end_.

Definition append_dsml_parameter_text (b : bytes) (s : option bytes) : bytes :=
  b ++ tag_body_escape (default [] s) DSML_PARAM_END.

Definition append_glm_arg_key_text (b : bytes) (s : option bytes) : bytes :=
  append_glm_tag_body_text b s (bs "</arg_key>").

Definition append_glm_arg_value_text (b : bytes) (s : option bytes) : bytes :=
  append_glm_tag_body_text b s (bs "</arg_value>").

Definition append_glm_tool_response_text (b : bytes) (s : option bytes) : bytes :=
  append_glm_tag_body_text b s (bs "</tool_response>").

Definition append_tool_result_text (b : bytes) (s : option bytes) : bytes :=
  b ++ tag_body_escape (default [] s) (bs "</tool_result>").

Fixpoint json_literal_escape (s : bytes) : bytes :=
  match s with
  | [] => []
  | c :: s' =>
      if starts_with DSML_PARAM_END s then bs "\u003c" ++ json_literal_escape s'
      else c :: json_literal_escape s'
  end.

Definition append_dsml_json_literal (b : bytes) (s : option bytes) : bytes :=
  b ++ json_literal_escape (default [] s).

Definition attr_escape_char (c : Z) : bytes :=
  if c =? 38 then bs "&amp;"
  else if c =? 60 then bs "&lt;"
  else if c =? 62 then bs "&gt;"
  else if c =? 34 then [38] ++ bs "quot;"
  else [c].

Definition append_dsml_attr_escaped (b : bytes) (s : option bytes) : bytes :=
  b ++ flat_map attr_escape_char (default [] s).

Record json_arg := JsonArg { arg_key : bytes; arg_value : bytes; arg_is_string : bool }.

Definition append_dsml_arg (b : bytes) (arg : json_arg) : bytes :=
  let b := b ++ bs "<｜DSML｜parameter name=" ++ [34] in
  let b := append_dsml_attr_escaped b (Some (arg_key arg)) in
  let b := b ++ [34] ++ bs " string=" ++ [34] in
  let b := b ++ (if arg_is_string arg then bs "true" else bs "false") in
  let b := b ++ [34] ++ bs ">" in
  let b := if arg_is_string arg then append_dsml_parameter_text b (Some (arg_value arg))
           else append_dsml_json_literal b (Some (arg_value arg)) in
  b ++ DSML_PARAM_END ++ [10].

(** ** The readers of attributes *)

Fixpoint dsml_unescape_loop (fuel : nat) (s : bytes) : bytes :=
  match fuel, s with
  | O, _ | _, [] => []
  | S fuel', c :: s' =>
      if negb (c =? 38) then c :: dsml_unescape_loop fuel' s'
      else if starts_with (bs "&amp;") s then 38 :: dsml_unescape_loop fuel' (drop 5 s)
      else if starts_with (bs "&lt;") s then 60 :: dsml_unescape_loop fuel' (drop 4 s)
      else if starts_with (bs "&gt;") s then 62 :: dsml_unescape_loop fuel' (drop 4 s)
      else if starts_with (bs "&quot;") s then 34 :: dsml_unescape_loop fuel' (drop 6 s)
      else if starts_with (bs "&apos;") s then 39 :: dsml_unescape_loop fuel' (drop 6 s)
      else 38 :: dsml_unescape_loop fuel' s'
  end.

Definition dsml_unescape_text (s : option bytes) : bytes :=
  let s := default [] s in dsml_unescape_loop (length s) s.

(** [char pat[64]] holds [name=] and a quote, cut at 63 bytes. *)
Definition dsml_attr (tag name : bytes) : option bytes :=
  let pat := take 63 (name ++ bs "=" ++ [34]) in
  match strstr pat tag with
  | None => None
  | Some i =>
      let p := drop (i + length pat) tag in
      match strstr [34] p with
      | None => None
      | Some q => Some (dsml_unescape_text (Some (take q p)))
      end
  end.

(** ** Streaming a body that is still being generated *)

(** The last index [j] of [lo <= j < hi] with [raw[j] = c]. *)
Fixpoint rfind (raw : bytes) (c : Z) (lo hi : nat) : option nat :=
  match hi with
  | O => None
  | S i => if (i <? lo)%nat then None
           else if cget raw i =? c then Some i else rfind raw c lo i
  end.

(** Hold back a tail that may become the closing delimiter. *)
Definition hold_close (raw : bytes) (start raw_len : nat) (param_end : bytes) : nat :=
  let end_len := length param_end in
  let scan := if (start + end_len <? raw_len)%nat then (raw_len - end_len)%nat else start in
  match rfind raw 60 scan raw_len with
  | Some marker =>
      let tail := (raw_len - marker)%nat in
      if (tail <? end_len)%nat && bytes_eqb (take tail (drop marker raw)) (take tail param_end)
      then marker else raw_len
  | None => raw_len
  end.

(** Hold back a tail that may become an escape of the delimiter. *)
Definition hold_escape (raw : bytes) (start limit : nat) (param_end : bytes) : nat :=
  match rfind raw 38 start limit with
  | Some i =>
      if ds4_tool_text_partial_escape (take (limit - i) (drop i raw)) param_end then i else limit
  | None => limit
  end.

Definition tool_param_value_stream_safe_len (raw : bytes) (start raw_len : nat)
    (param_end : bytes) (is_string : bool) : nat :=
  let limit := hold_close raw start raw_len param_end in
  let limit := if is_string then hold_escape raw start limit param_end else limit in
  utf8_stream_safe_len raw start limit false.

(** ** The escape forms *)

(** The pure reading of the in-place loop. *)
Fixpoint unesc (fuel : nat) (s end_ : bytes) : bytes :=
  match fuel, s with
  | O, _ | _, [] => []
  | S fuel', c :: s' =>
      if ds4_tool_text_escaped_close s end_ then
        if starts_with (bs "&amp;") s then 38 :: unesc fuel' (drop 5 s) end_
        else 60 :: unesc fuel' (drop 4 s) end_
      else c :: unesc fuel' s' end_
  end.

Lemma unescape_loop_unesc fuel : forall buf r out e,
  (out <= r)%nat -> (length buf - r <= fuel)%nat ->
  unescape_loop fuel buf r out e = take out buf ++ unesc fuel (drop r buf) e.
Proof.
  induction fuel as [|fuel IH]; intros buf r out e Ho Hf; cbn [unescape_loop].
  { cbn [unesc]. by rewrite app_nil_r. }
  destruct (Nat.leb_spec (length buf) r) as [Hr|Hr].
  { rewrite drop_ge by done. cbn [unesc]. by rewrite app_nil_r. }
  assert (Hd : drop r buf = cget buf r :: drop (S r) buf).
  { apply drop_S. unfold cget. rewrite nth_lookup.
    by destruct (lookup_lt_is_Some_2 buf r Hr) as [x ->]. }
  assert (Hins : forall c n, (r < n)%nat -> take (out + 1) (<[out:=c]> buf) ++ unesc fuel (drop n (<[out:=c]> buf)) e
    = take out buf ++ c :: unesc fuel (drop n buf) e).
  { intros c n Hn. rewrite drop_insert_lt by lia. rewrite Nat.add_1_r.
    rewrite (take_S_r _ _ c) by (apply list_lookup_insert_eq; lia).
    rewrite take_insert_ge by lia. by rewrite <- app_assoc. }
  rewrite Hd. cbn [unesc]. rewrite <- Hd.
  case_if; [case_if|]; (rewrite IH by (rewrite ?length_insert; lia)); rewrite Hins by lia.
  - by rewrite drop_drop.
  - by rewrite drop_drop.
  - by rewrite Nat.add_1_r.
Qed.

Lemma unescape_unesc s e : ds4_tool_text_unescape s e = unesc (length s) s e.
Proof. unfold ds4_tool_text_unescape. rewrite unescape_loop_unesc by lia. done. Qed.

Definition amps (k : nat) : bytes := concat (replicate k amp_semi).

Lemma amps_S k : amps (S k) = amp_semi ++ amps k.
Proof. done. Qed.

Lemma strip_amp_ex fuel : forall s, exists k,
  s = amps k ++ strip_amp fuel s /\ ((length s <= fuel)%nat -> starts_with amp_semi (strip_amp fuel s) = false).
Proof.
  induction fuel as [|fuel IH]; intros s; cbn [strip_amp].
  { exists 0%nat. split; [done|]. intros Hl. destruct s; [done | simpl in Hl; lia]. }
  destruct (starts_with amp_semi s) eqn:E; [|by exists 0%nat].
  apply starts_with_iff in E as [r ->]. change 4%nat with (length amp_semi). rewrite drop_app_length.
  destruct (IH r) as (k & Hk & Hs). exists (S k). split.
  - by rewrite amps_S, <- app_assoc, <- Hk.
  - intros Hl. apply Hs. rewrite length_app in Hl. change (length amp_semi) with 4%nat in Hl. lia.
Qed.

Lemma amps_uniq k k' r r' :
  amps k ++ r = amps k' ++ r' -> starts_with amp_semi r = false -> starts_with amp_semi r' = false ->
  k = k' /\ r = r'.
Proof.
  revert k'. induction k as [|k IH]; intros [|k'] Heq Hr Hr'; rewrite ?amps_S in Heq;
    change (amps 0) with (@nil Z) in Heq; cbn [app] in Heq.
  - done.
  - subst r. rewrite <- app_assoc, starts_with_app in Hr. done.
  - subst r'. rewrite <- app_assoc, starts_with_app in Hr'. done.
  - rewrite <- !app_assoc in Heq. apply app_inv_head in Heq. destruct (IH k' Heq Hr Hr') as [-> ->]. done.
Qed.

Lemma strip_amps k r fuel :
  starts_with amp_semi r = false -> (length (amps k ++ r) <= fuel)%nat ->
  strip_amp fuel (amps k ++ r) = r.
Proof.
  intros Hr Hf. destruct (strip_amp_ex fuel (amps k ++ r)) as (k' & Heq & Hs).
  specialize (Hs Hf). by destruct (amps_uniq _ _ _ _ Heq Hr Hs) as [_ <-].
Qed.

(** Bytes that neither start an escape nor are escaped. *)
Definition plain (p : bytes) : Prop := Forall (fun c => c <> 38 /\ c <> 60) p.

#[export] Instance plain_dec p : Decision (plain p).
Proof. unfold plain. apply _. Defined.

Lemma plain_amps k : plain (amps k).
Proof.
  induction k as [|k IH]; [constructor|]. rewrite amps_S. apply Forall_app.
  split; [by apply (bool_decide_unpack _) | exact IH].
Qed.

Section Delimiter.
Context (tl : bytes) (Htl : plain tl).

Abbreviation end_ := (60 :: tl).

(** The escape after its ampersand. *)
Definition esc_head (k : nat) : bytes := amps k ++ lt_semi ++ tl.

Definition esc_form (k : nat) (r s : bytes) : Prop := s = 38 :: esc_head k ++ r.

Lemma esc_head_strip k r : strip_amp (length (esc_head k ++ r)) (esc_head k ++ r) = lt_semi ++ tl ++ r.
Proof.
  unfold esc_head. rewrite <- !app_assoc. by rewrite strip_amps by (done || lia).
Qed.

Lemma esc_head_uniq k k' r r' : esc_head k ++ r = esc_head k' ++ r' -> k = k' /\ r = r'.
Proof.
  unfold esc_head. rewrite <- !app_assoc. intros H. apply amps_uniq in H as [-> H]; try done.
  split; [done|]. by apply app_inv_head, app_inv_head in H.
Qed.

Lemma plain_esc_head k : plain (esc_head k).
Proof.
  unfold esc_head. apply Forall_app. split; [apply plain_amps|]. apply Forall_app.
  split; [by apply (bool_decide_unpack _) | exact Htl].
Qed.

Lemma escaped_close_iff s :
  ds4_tool_text_escaped_close s end_ = true <-> exists k r, esc_form k r s.
Proof.
  unfold ds4_tool_text_escaped_close, esc_form. split.
  - intros H. case_if_in H; [done|]. apply negb_false_iff, Z.eqb_eq in E.
    destruct s as [|c s]; [done|]. unfold cget in E. cbn [nth] in E. subst c.
    change (drop 1 (38 :: s)) with s in H.
    destruct (strip_amp_ex (length s) s) as (k & Heq & _). apply andb_true_iff in H as [H1 H2].
    apply starts_with_iff in H1 as [r Hr]. rewrite Hr in H2.
    change 3%nat with (length lt_semi) in H2. rewrite drop_app_length in H2.
    apply starts_with_iff in H2 as [r' ->]. exists k, r'. rewrite Heq at 1. rewrite Hr.
    unfold esc_head. by rewrite <- !app_assoc.
  - intros (k & r & ->). change (cget (38 :: esc_head k ++ r) 0) with 38. cbn [negb Z.eqb Pos.eqb].
    change (drop 1 (38 :: esc_head k ++ r)) with (esc_head k ++ r).
    rewrite esc_head_strip, starts_with_app.
    change 3%nat with (length lt_semi). rewrite drop_app_length. cbn [andb drop]. apply starts_with_app.
Qed.

Lemma esc_form_uniq k k' r r' s : esc_form k r s -> esc_form k' r' s -> k = k' /\ r = r'.
Proof. unfold esc_form. intros -> H. injection H as H. by apply esc_head_uniq in H. Qed.

Lemma needs_escape_char c s :
  ds4_tool_text_needs_escape (c :: s) end_ = true ->
  c = 60 /\ starts_with tl s = true \/ c = 38 /\ exists k r, esc_form k r (c :: s).
Proof.
  unfold ds4_tool_text_needs_escape. intros [H|H]%orb_true_iff.
  - cbn [starts_with] in H. bool_prop. left. split; [lia | done].
  - apply escaped_close_iff in H as (k & r & H). right. split; [by injection H | by exists k, r].
Qed.

(** Plain text passes through the writer, both ways. *)
Lemma escape_prefix p : plain p -> forall s, starts_with p (tag_body_escape s end_) = starts_with p s.
Proof.
  induction p as [|x p IH]; intros Hp s; [done|]. apply Forall_cons in Hp as [[Hx1 Hx2] Hp].
  destruct s as [|c s]; [done|]. cbn [tag_body_escape].
  destruct (ds4_tool_text_needs_escape (c :: s) end_) eqn:E.
  - apply needs_escape_char in E as [[-> _]|[-> _]];
      [change (bs "&lt;") with (38 :: lt_semi); change (60 =? 60) with true
      |change (bs "&amp;") with (38 :: amp_semi); change (38 =? 60) with false];
      cbn [app starts_with]; rewrite (proj2 (Z.eqb_neq x 38)) by done; rewrite ?(proj2 (Z.eqb_neq x 60)) by done; done.
  - cbn [starts_with]. by rewrite IH.
Qed.

Lemma escape_plain p s : plain p -> tag_body_escape (p ++ s) end_ = p ++ tag_body_escape s end_.
Proof.
  induction p as [|x p IH]; intros Hp; [done|]. apply Forall_cons in Hp as [[Hx1 Hx2] Hp].
  cbn [app tag_body_escape]. destruct (ds4_tool_text_needs_escape (x :: p ++ s) end_) eqn:E.
  - apply needs_escape_char in E as [[-> _]|[-> _]]; lia.
  - by rewrite IH.
Qed.

(** An unescaped character does not become an escape in front of escaped text. *)
Lemma escape_no_new_close c s :
  ds4_tool_text_needs_escape (c :: s) end_ = false ->
  ds4_tool_text_escaped_close (c :: tag_body_escape s end_) end_ = false.
Proof.
  intros H. destruct (ds4_tool_text_escaped_close (c :: tag_body_escape s end_) end_) eqn:E; [|done].
  apply escaped_close_iff in E as (k & r & E). injection E as -> E.
  assert (Hs : starts_with (esc_head k) s = true).
  { rewrite <- escape_prefix by apply plain_esc_head. rewrite E. apply starts_with_app. }
  apply starts_with_iff in Hs as [r' ->].
  assert (Ht : ds4_tool_text_escaped_close (38 :: esc_head k ++ r') end_ = true).
  { apply escaped_close_iff. by exists k, r'. }
  unfold ds4_tool_text_needs_escape in H. rewrite Ht, orb_true_r in H. done.
Qed.

Lemma escape_roundtrip s : forall fuel, (length (tag_body_escape s end_) <= fuel)%nat ->
  unesc fuel (tag_body_escape s end_) end_ = s.
Proof.
  induction s as [|c s IH]; intros fuel Hf; [by destruct fuel|]. cbn [tag_body_escape] in *.
  destruct (ds4_tool_text_needs_escape (c :: s) end_) eqn:E.
  - apply needs_escape_char in E as [[-> Hs]|[-> (k & r & Hk)]].
    + change (60 =? 60) with true in *. cbn iota in *. destruct fuel as [|fuel]; [cbn in Hf; lia|].
      cbn [bs app unesc].
      assert (Hc : ds4_tool_text_escaped_close (bs "&lt;" ++ tag_body_escape s end_) end_ = true).
      { apply escaped_close_iff. rewrite <- escape_prefix in Hs by done.
        apply starts_with_iff in Hs as [r ->]. by exists 0%nat, r. }
      cbn [bs app] in Hc. rewrite Hc. cbn [starts_with]. cbn [drop skipn andb Z.eqb]. cbn.
      f_equal. apply IH. cbn in Hf. lia.
    + change (38 =? 60) with false in *. cbn iota in *. destruct fuel as [|fuel]; [cbn in Hf; lia|].
      cbn [bs app unesc].
      assert (Hc : ds4_tool_text_escaped_close (bs "&amp;" ++ tag_body_escape s end_) end_ = true).
      { apply escaped_close_iff. injection Hk as ->. exists (S k), (tag_body_escape r end_).
        rewrite escape_plain by apply plain_esc_head. done. }
      cbn [bs app] in Hc. rewrite Hc. cbn. f_equal. apply IH. cbn in Hf. lia.
  - destruct fuel as [|fuel]; [cbn in Hf; lia|]. cbn [unesc]. rewrite escape_no_new_close by done.
    f_equal. apply IH. cbn in Hf. lia.
Qed.

(** An escaped body never contains its closing delimiter. *)
Lemma escape_no_end s : strstr end_ (tag_body_escape s end_) = None.
Proof.
  induction s as [|c s IH]; [done|]. cbn [tag_body_escape].
  destruct (ds4_tool_text_needs_escape (c :: s) end_) eqn:E.
  - apply needs_escape_char in E as [[-> _]|[-> _]]; cbn; by rewrite IH.
  - cbn [strstr]. rewrite IH. cbn [starts_with]. rewrite escape_prefix by done.
    unfold ds4_tool_text_needs_escape in E. apply orb_false_iff in E as [E _]. cbn [starts_with] in E.
    by rewrite E.
Qed.

(** *** Splitting a body between escapes *)

Lemma esc_head_0 r : 38 :: esc_head 0 ++ r = bs "&lt;" ++ tl ++ r.
Proof. unfold esc_head. by rewrite <- !app_assoc. Qed.

Lemma esc_head_S k r : 38 :: esc_head (S k) ++ r = bs "&amp;" ++ esc_head k ++ r.
Proof. unfold esc_head. rewrite amps_S, <- !app_assoc. done. Qed.

(** One unescaping step on an escape. *)
Lemma unesc_step_esc f k r :
  unesc (S f) (38 :: esc_head k ++ r) end_ =
  match k with
  | O => 60 :: unesc f (tl ++ r) end_
  | S k' => 38 :: unesc f (esc_head k' ++ r) end_
  end.
Proof.
  cbn [unesc]. rewrite (proj2 (escaped_close_iff _)) by (by exists k, r).
  destruct k as [|k].
  - by rewrite esc_head_0.
  - rewrite esc_head_S. by rewrite starts_with_app.
Qed.

Lemma esc_head_length k : (3 <= length (esc_head k))%nat.
Proof. unfold esc_head. rewrite !length_app. cbn. lia. Qed.

Lemma unesc_split n : forall w u f1 f2 f3,
  (length w <= n)%nat -> (length w + length u <= f1)%nat -> (length w <= f2)%nat -> (length u <= f3)%nat ->
  (forall j, (j < length w)%nat ->
     ds4_tool_text_escaped_close (drop j (w ++ u)) end_ = true ->
     ds4_tool_text_escaped_close (drop j w) end_ = true) ->
  unesc f1 (w ++ u) end_ = unesc f2 w end_ ++ unesc f3 u end_.
Proof.
  assert (Hfuel : forall m s f f', (length s <= m)%nat -> (length s <= f)%nat -> (length s <= f')%nat ->
    unesc f s end_ = unesc f' s end_).
  { induction m as [|m IH]; intros [|c s] [|f] [|f'] Hm Hf Hf'; cbn [length] in *; try lia; try done.
    destruct (ds4_tool_text_escaped_close (c :: s) end_) eqn:E.
    - apply escaped_close_iff in E as (k & r & Hk). pose proof Hk as [= -> Hs]. rewrite Hs in *.
      rewrite !unesc_step_esc. rewrite length_app in *. pose proof (esc_head_length k).
      destruct k as [|k]; f_equal; apply IH; unfold esc_head in *; rewrite ?amps_S, ?length_app in *;
        cbn [length lt_semi amp_semi bs] in *; lia.
    - cbn [unesc]. rewrite E. f_equal. apply IH; lia. }
  induction n as [|n IH]; intros [|c w] u f1 f2 f3 Hn H1 H2 H3 Hj; cbn [length] in *; try lia.
  - destruct f2; cbn [unesc app]; apply (Hfuel (length u)); lia.
  - destruct f2; cbn [unesc app]; apply (Hfuel (length u)); lia.
  - destruct f1 as [|f1]; [lia|]. destruct f2 as [|f2]; [lia|].
    destruct (ds4_tool_text_escaped_close (c :: w) end_) eqn:E.
    + apply escaped_close_iff in E as (k & r & Hk). pose proof Hk as [= -> Hs]. rewrite Hs in *.
      cbn [app]. rewrite <- app_assoc, !unesc_step_esc. rewrite length_app in *.
      destruct k as [|k]; cbn [app]; f_equal; rewrite app_assoc; apply IH; try done;
        try (unfold esc_head in *; rewrite ?amps_S, ?length_app in *;
             cbn [length lt_semi amp_semi bs] in *; lia).
      * intros j Hlt Hc. specialize (Hj (4 + j)%nat). apply Hj; [|].
        { unfold esc_head. rewrite !length_app in *. cbn. lia. }
        { exact Hc. }
      * intros j Hlt Hc. specialize (Hj (5 + j)%nat). rewrite esc_head_S in Hj. apply Hj; [|exact Hc].
        unfold esc_head in *. rewrite amps_S, !length_app in *. cbn in *. lia.
    + cbn [app unesc]. rewrite E.
      destruct (ds4_tool_text_escaped_close (c :: w ++ u) end_) eqn:E'.
      { specialize (Hj 0%nat ltac:(lia) E'). cbn [drop] in Hj. unfold drop in Hj. cbn in Hj. congruence. }
      cbn [app]. f_equal. apply IH; try lia. intros j Hlt. apply (Hj (S j)). lia.
Qed.

(** *** Incomplete escapes *)

Definition partial_rest (s : bytes) : bool :=
  if (length s <? 4)%nat && starts_with s amp_semi then true
  else if (length s <? 3)%nat then starts_with s lt_semi
  else if negb (starts_with lt_semi s) then false
  else (length (drop 3 s) <? length tl)%nat && starts_with (drop 3 s) tl.

Lemma partial_escape_cons s :
  ds4_tool_text_partial_escape (38 :: s) end_ = partial_rest (strip_amp (length s) s).
Proof. done. Qed.

Lemma strip_amp_S s : strip_amp (length (amp_semi ++ s)) (amp_semi ++ s) = strip_amp (length s) s.
Proof.
  destruct (strip_amp_ex (length s) s) as (k & Hk & Hn). specialize (Hn ltac:(lia)).
  set (r := strip_amp (length s) s) in *. clearbody r. subst s.
  rewrite app_assoc, <- amps_S. by apply strip_amps.
Qed.

Lemma partial_rest_true k : forall w u,
  u <> [] -> w ++ u = esc_head k -> partial_rest (strip_amp (length w) w) = true.
Proof.
  unfold esc_head. induction k as [|k IH]; intros w u Hu Hw.
  - change (amps 0) with (@nil Z) in Hw. cbn [app] in Hw.
    assert (Hl : (length w < 3 + length tl)%nat).
    { apply (f_equal length) in Hw. rewrite !length_app in Hw. cbn in Hw. destruct u; [done|].
      cbn in Hw. lia. }
    destruct w as [|x0 [|x1 [|x2 w]]]; cbn in Hw.
    + done.
    + by injection Hw as -> _.
    + by injection Hw as -> -> _.
    + injection Hw as -> -> -> Hw.
      change (Z.pos _ :: Z.pos _ :: Z.pos _ :: w) with (lt_semi ++ w).
      assert (Hs : strip_amp (length (lt_semi ++ w)) (lt_semi ++ w) = lt_semi ++ w) by done.
      rewrite Hs. unfold partial_rest. rewrite starts_with_app.
      change (drop 3 (lt_semi ++ w)) with w.
      replace ((length (lt_semi ++ w) <? 4)%nat && starts_with (lt_semi ++ w) amp_semi) with false
        by (rewrite andb_false_r || (by destruct (_ <? _)%nat); done).
      rewrite (proj2 (Nat.ltb_ge (length (lt_semi ++ w)) 3)) by (rewrite length_app; cbn; lia).
      cbn [negb]. cbn [length] in Hl. apply andb_true_iff.
      split; [apply Nat.ltb_lt; lia | rewrite <- Hw; apply starts_with_app].
  - rewrite amps_S, <- app_assoc in Hw.
    destruct (Nat.le_gt_cases 4 (length w)) as [Hl|Hl].
    + assert (Hw4 : take 4 w = amp_semi).
      { apply (f_equal (take 4)) in Hw. by rewrite take_app_le in Hw by lia. }
      rewrite <- (take_drop 4 w), Hw4 in Hw |- *. rewrite strip_amp_S.
      rewrite <- app_assoc in Hw. apply app_inv_head in Hw. by apply (IH _ u).
    + assert (Hs : starts_with w amp_semi = true).
      { apply starts_with_iff. exists (drop (length w) amp_semi).
        rewrite <- (take_drop (length w) amp_semi) at 1. f_equal.
        apply (f_equal (take (length w))) in Hw. rewrite take_app_length, take_app_le in Hw; [done|].
        cbn. lia. }
      assert (Hn : strip_amp (length w) w = w).
      { destruct w as [|x0 [|x1 [|x2 [|x3 w]]]]; try done; cbn [length] in Hl; try lia;
          cbn [strip_amp length amp_semi bs starts_with]; by rewrite ?andb_false_r. }
      rewrite Hn. unfold partial_rest. rewrite Hs. destruct (Nat.ltb_spec (length w) 4); [done | lia].
Qed.

Lemma partial_escape_complete w t :
  w <> [] -> ds4_tool_text_escaped_close w end_ = false ->
  ds4_tool_text_escaped_close (w ++ t) end_ = true -> ds4_tool_text_partial_escape w end_ = true.
Proof.
  intros Hw Hf Ht. destruct w as [|c w]; [done|]. apply escaped_close_iff in Ht as (k & r & Hk).
  injection Hk as -> Hk. rewrite partial_escape_cons.
  destruct (Nat.le_gt_cases (length (esc_head k)) (length w)) as [Hl|Hl].
  - assert (Ht : ds4_tool_text_escaped_close (38 :: w) end_ = true); [|congruence].
    apply escaped_close_iff. exists k, (drop (length (esc_head k)) w). unfold esc_form. f_equal.
    rewrite <- (take_drop (length (esc_head k)) w) at 1. f_equal.
    apply (f_equal (take (length (esc_head k)))) in Hk.
    by rewrite take_app_length, take_app_le in Hk.
  - apply (partial_rest_true k w (drop (length w) (esc_head k))).
    + intros H. apply (f_equal length) in H. rewrite length_drop in H. cbn in H. lia.
    + rewrite <- (take_drop (length w) (esc_head k)) at 2. f_equal.
      apply (f_equal (take (length w))) in Hk. rewrite take_app_length, take_app_le in Hk by lia. done.
Qed.
End Delimiter.

(** ** Streaming *)

Lemma rfind_spec raw c lo hi :
  match rfind raw c lo hi with
  | Some j => (lo <= j < hi)%nat /\ cget raw j = c /\ forall i, (j < i < hi)%nat -> cget raw i <> c
  | None => forall i, (lo <= i < hi)%nat -> cget raw i <> c
  end.
Proof.
  induction hi as [|hi IH]; cbn [rfind]; [intros; lia|].
  destruct (Nat.ltb_spec hi lo); [intros; lia|]. case_if; bool_prop; [split_and!; [lia | lia | done | intros; lia]|].
  destruct (rfind raw c lo hi) as [j|].
  - destruct IH as (H1 & H2 & H3). split_and!; [lia | lia | done |]. intros i Hi.
    destruct (Nat.eq_dec i hi) as [->|]; [done | apply H3; lia].
  - intros i Hi. destruct (Nat.eq_dec i hi) as [->|]; [done | apply IH; lia].
Qed.

Lemma cget_app_l a b i : (i < length a)%nat -> cget (a ++ b) i = cget a i.
Proof. intros H. unfold cget. by rewrite app_nth1. Qed.

Lemma cget_app_r a b i : cget (a ++ b) (length a + i) = cget b i.
Proof. unfold cget. rewrite app_nth2 by lia. f_equal. lia. Qed.

Lemma cget_drop_add s j i : cget (drop j s) i = cget s (j + i).
Proof. unfold cget. by rewrite nth_skipn. Qed.

Lemma plain_gt mid : plain mid -> plain (mid ++ [62]).
Proof. intros H. apply Forall_app. split; [done|]. repeat constructor; lia. Qed.

Section Stream.
Context (mid : bytes) (Hmid : plain mid) (raw t : bytes) (start : nat).
Context (Hraw : bytes_ok raw) (Hstart : (start <= length raw)%nat).

Let tl := mid ++ [62].
Let end_ := 60 :: tl.

(** A plain block of [raw ++ t] has no ampersand or angle bracket. *)
Lemma plain_block p b i r :
  drop p (raw ++ t) = b ++ r -> plain b -> (p <= i < p + length b)%nat -> (i < length raw)%nat ->
  cget raw i <> 38 /\ cget raw i <> 60.
Proof.
  intros Hd Hb Hi Hl. unfold plain in Hb. rewrite List.Forall_forall in Hb. apply Hb.
  replace (cget raw i) with (cget b (i - p)).
  - unfold cget. apply nth_In. lia.
  - rewrite <- (cget_app_l b r), <- Hd, cget_drop_add by lia. rewrite Nat.add_comm, Nat.sub_add by lia.
    by apply cget_app_l.
Qed.

Lemma hold_close_spec :
  let limit := hold_close raw start (length raw) end_ in
  (start <= limit <= length raw)%nat /\
  forall p, (start <= p <= length raw)%nat -> starts_with end_ (drop p (raw ++ t)) = true ->
    (length raw < p + length end_)%nat -> (limit <= p)%nat.
Proof.
  cbv zeta. unfold hold_close.
  set (scan := if (start + length end_ <? length raw)%nat then (length raw - length end_)%nat else start).
  assert (Hscan : (start <= scan)%nat /\ forall p, (start <= p)%nat ->
    (length raw < p + length end_)%nat -> (scan <= p)%nat).
  { unfold scan. case_if; bool_prop; split; try lia; intros; lia. }
  destruct Hscan as [Hs1 Hs2]. pose proof (rfind_spec raw 60 scan (length raw)) as Hr.
  assert (Hlast : forall p, (start <= p < length raw)%nat -> starts_with end_ (drop p (raw ++ t)) = true ->
    (length raw < p + length end_)%nat -> rfind raw 60 scan (length raw) = Some p /\
    take (length raw - p) (drop p raw) = take (length raw - p) end_).
  { intros p Hp Hst Hend. apply starts_with_iff in Hst as [r Hst]. cbn [app end_] in Hst.
    assert (Hp60 : cget raw p = 60).
    { rewrite <- (cget_app_l raw t) by lia. rewrite <- (Nat.add_0_r p), <- cget_drop_add, Hst. done. }
    assert (Htl : drop (S p) (raw ++ t) = tl ++ r).
    { rewrite <- Nat.add_1_r, <- drop_drop, Hst. done. }
    specialize (Hs2 p ltac:(lia) Hend). split.
    - destruct (rfind raw 60 scan (length raw)) as [j|].
      + destruct Hr as (H1 & H2 & H3). f_equal.
        destruct (Nat.lt_trichotomy j p) as [Hlt|[->|Hgt]]; [by exfalso; apply (H3 p); [lia|] | done |].
        destruct (plain_block (S p) tl j r Htl (plain_gt mid Hmid)); [|lia|done].
        unfold end_ in Hend. cbn [length] in Hend. lia.
      + exfalso. apply (Hr p); [lia | done].
    - rewrite drop_app_le in Hst by lia. apply (f_equal (take (length raw - p))) in Hst.
      rewrite take_app_le in Hst by (rewrite length_drop; lia). rewrite Hst.
      change (60 :: tl ++ r) with (end_ ++ r). by rewrite take_app_le by lia. }
  destruct (rfind raw 60 scan (length raw)) as [marker|] eqn:Er.
  - destruct Hr as (H1 & H2 & H3). split.
    + case_if; lia.
    + intros p Hp Hst Hend. destruct (Nat.eq_dec p (length raw)) as [->|]; [case_if; lia|].
      destruct (Hlast p ltac:(lia) Hst Hend) as [[= ->] Heq]. rewrite Heq, bytes_eqb_refl.
      destruct (Nat.ltb_spec (length raw - p) (length end_)); [cbn [andb]; lia | lia].
  - split; [lia|]. intros p Hp Hst Hend. destruct (Nat.eq_dec p (length raw)) as [->|]; [lia|].
    by destruct (Hlast p ltac:(lia) Hst Hend).
Qed.

(** No escape of [raw ++ t] that begins before the limit crosses it. *)
Lemma hold_escape_spec limit :
  (start <= limit <= length raw)%nat ->
  let cut := hold_escape raw start limit end_ in
  (start <= cut <= limit)%nat /\
  forall p k r, (start <= p < cut)%nat -> esc_form tl k r (drop p (raw ++ t)) ->
    (p + S (length (esc_head tl k)) <= cut)%nat.
Proof.
  intros Hl. cbv zeta. unfold hold_escape. pose proof (rfind_spec raw 38 start limit) as Hr.
  assert (Hesc : forall p k r, (start <= p < limit)%nat -> esc_form tl k r (drop p (raw ++ t)) ->
    cget raw p = 38 /\ forall i, (p < i < p + S (length (esc_head tl k)))%nat -> (i < length raw)%nat ->
      cget raw i <> 38).
  { intros p k r Hp Hk. unfold esc_form in Hk. split.
    - rewrite <- (cget_app_l raw t) by lia. rewrite <- (Nat.add_0_r p), <- cget_drop_add, Hk. done.
    - intros i Hi Hlen. apply (plain_block (S p) (esc_head tl k) i r); [|apply plain_esc_head, (plain_gt mid Hmid)|lia|done].
      rewrite <- Nat.add_1_r, <- drop_drop, Hk. done. }
  destruct (rfind raw 38 start limit) as [i|].
  - destruct Hr as (H1 & H2 & H3).
    destruct (ds4_tool_text_partial_escape (take (limit - i) (drop i raw)) end_) eqn:E; (split; [lia|]).
    + intros p k r Hp Hk. destruct (Hesc p k r ltac:(lia) Hk) as [_ Hno].
      destruct (Nat.le_gt_cases (p + S (length (esc_head tl k))) i); [done|].
      destruct (Hno i); [lia | lia | done].
    + intros p k r Hp Hk. destruct (Hesc p k r ltac:(lia) Hk) as [Hp38 Hno].
      assert (Hpi : (p <= i)%nat) by (destruct (Nat.le_gt_cases p i); [done | exfalso; apply (H3 p); [lia | done]]).
      destruct (Nat.eq_dec p i) as [->|Hne].
      2:{ destruct (Nat.le_gt_cases (p + S (length (esc_head tl k))) limit); [done|].
          destruct (Hno i); [lia | lia | done]. }
      destruct (Nat.le_gt_cases (i + S (length (esc_head tl k))) limit) as [|Hgt]; [done|].
      set (w := take (limit - i) (drop i raw)) in *.
      assert (Hwl : length w = (limit - i)%nat) by (unfold w; rewrite length_take, length_drop; lia).
      assert (Hfull : drop i (raw ++ t) = w ++ drop (limit - i) (drop i raw ++ t)).
      { rewrite drop_app_le by lia. unfold w.
        rewrite <- (take_drop (limit - i) (drop i raw ++ t)) at 1. f_equal.
        by rewrite take_app_le by (rewrite length_drop; lia). }
      assert (Hnc : ds4_tool_text_escaped_close w end_ = false).
      { destruct (ds4_tool_text_escaped_close w end_) eqn:Ec; [|done].
        apply (escaped_close_iff tl) in Ec as (k' & r' & Hk').
        assert (Hf2 : esc_form tl k' (r' ++ drop (limit - i) (drop i raw ++ t)) (drop i (raw ++ t))).
        { unfold esc_form in *. rewrite Hfull, Hk'. cbn [app]. by rewrite <- app_assoc. }
        destruct (esc_form_uniq tl _ _ _ _ _ Hk Hf2) as [<- _].
        rewrite Hk' in Hwl. cbn [length] in Hwl. rewrite length_app in Hwl. lia. }
      assert (Hpe : ds4_tool_text_partial_escape w end_ = true); [|congruence].
      apply (partial_escape_complete tl w (drop (limit - i) (drop i raw ++ t))); [|done|].
      * intros ->. cbn in Hwl. lia.
      * rewrite <- Hfull. apply (escaped_close_iff tl). by exists k, r.
  - split; [lia|]. intros p k r Hp Hk. destruct (Hesc p k r ltac:(lia) Hk) as [Hp38 _].
    by destruct (Hr p ltac:(lia)).
Qed.

Lemma safe_len_spec :
  let cut := tool_param_value_stream_safe_len raw start (length raw) end_ true in
  (start <= cut <= length raw)%nat /\
  (forall p, (start <= p <= length raw)%nat -> starts_with end_ (drop p (raw ++ t)) = true ->
     (length raw < p + length end_)%nat -> (cut <= p)%nat) /\
  forall p k r, (start <= p < cut)%nat -> esc_form tl k r (drop p (raw ++ t)) ->
    (p + S (length (esc_head tl k)) <= cut)%nat.
Proof.
  cbv zeta. unfold tool_param_value_stream_safe_len.
  destruct hold_close_spec as [H1 H2]. set (l1 := hold_close raw start (length raw) end_) in *.
  destruct (hold_escape_spec l1 H1) as [H3 H4]. set (l2 := hold_escape raw start l1 end_) in *.
  destruct (utf8_stream_safe_len_cut raw start l2 Hraw ltac:(lia)) as [H5 H6].
  set (l3 := utf8_stream_safe_len raw start l2 false) in *. split_and!; [lia | lia | |].
  - intros p Hp Hs He. specialize (H2 p Hp Hs He). lia.
  - intros p k r Hp Hk. specialize (H4 p k r ltac:(lia) Hk).
    destruct (Nat.le_gt_cases (p + S (length (esc_head tl k))) l3); [done|].
    (* the last byte of the escape is the '>' of the delimiter *)
    set (q := (p + length (esc_head tl k))%nat) in *.
    assert (Hq : cget raw q = 62).
    { rewrite <- (cget_app_l raw t) by (unfold q; lia). unfold q. rewrite <- cget_drop_add, Hk.
      pose proof (esc_head_length tl k).
      replace (esc_head tl k) with ((amps k ++ lt_semi ++ mid) ++ [62])
        by (unfold esc_head, tl; by rewrite <- !app_assoc).
      rewrite length_app. cbn [length].
      replace (length (amps k ++ lt_semi ++ mid) + 1)%nat with (S (length (amps k ++ lt_semi ++ mid) + 0)) by lia.
      change (38 :: ((amps k ++ lt_semi ++ mid) ++ [62]) ++ r) with ([38] ++ ((amps k ++ lt_semi ++ mid) ++ [62]) ++ r).
      rewrite <- (app_assoc _ [62]).
      change (S (length (amps k ++ lt_semi ++ mid) + 0)) with (length [38] + (length (amps k ++ lt_semi ++ mid) + 0))%nat.
      by rewrite !cget_app_r. }
    specialize (H6 q ltac:(lia)). lia.
Qed.

Lemma fragment_split :
  let cut := tool_param_value_stream_safe_len raw start (length raw) end_ true in
  ds4_tool_text_unescape (drop start (raw ++ t)) end_ =
  ds4_tool_text_unescape (drop start (take cut raw)) end_ ++
  ds4_tool_text_unescape (drop cut (raw ++ t)) end_.
Proof.
  cbv zeta. destruct safe_len_spec as (Hc & _ & Hesc).
  set (cut := tool_param_value_stream_safe_len raw start (length raw) end_ true) in *.
  set (w := drop start (take cut raw)). set (u := drop cut (raw ++ t)).
  assert (Hwl : length w = (cut - start)%nat) by (unfold w; rewrite length_drop, length_take; lia).
  assert (Hw : drop start (raw ++ t) = w ++ u).
  { unfold w, u. rewrite <- (take_drop cut (raw ++ t)) at 1.
    rewrite drop_app_le, take_app_le by (rewrite ?length_take, ?length_app; lia). done. }
  rewrite !unescape_unesc, Hw.
  apply (unesc_split tl (length w)); rewrite ?length_app; try lia.
  intros j Hj He. apply (escaped_close_iff tl) in He as (k & r & Hk). rewrite <- Hw, drop_drop in Hk.
  specialize (Hesc (start + j)%nat k r ltac:(lia) Hk). apply (escaped_close_iff tl).
  assert (Hjw : drop j w ++ u = 38 :: esc_head tl k ++ r).
  { rewrite <- Hk, <- drop_drop, Hw. by rewrite drop_app_le by lia. }
  exists k, (drop (S (length (esc_head tl k))) (drop j w)). unfold esc_form.
  assert (Hl2 : (S (length (esc_head tl k)) <= length (drop j w))%nat) by (rewrite length_drop; lia).
  rewrite <- (take_drop (S (length (esc_head tl k))) (drop j w)) at 1.
  change (38 :: esc_head tl k ++ drop (S (length (esc_head tl k))) (drop j w))
    with ((38 :: esc_head tl k) ++ drop (S (length (esc_head tl k))) (drop j w)).
  f_equal. rewrite <- (take_app_le _ u) by done. rewrite Hjw.
  change (38 :: esc_head tl k ++ r) with ((38 :: esc_head tl k) ++ r). by apply take_app_length'.
Qed.
End Stream.

(** ** Attributes *)

Lemma attr_escape_loop s : forall fuel, (length (flat_map attr_escape_char s) <= fuel)%nat ->
  dsml_unescape_loop fuel (flat_map attr_escape_char s) = s.
Proof.
  induction s as [|c s IH]; intros fuel Hf; [by destruct fuel|]. cbn [flat_map] in *.
  rewrite length_app in Hf.
  assert (Hc : c = 38 \/ c = 60 \/ c = 62 \/ c = 34 \/ (c <> 38 /\ attr_escape_char c = [c])).
  { unfold attr_escape_char. repeat case_if; bool_prop; auto. by repeat right. }
  destruct fuel as [|fuel].
  { exfalso. destruct Hc as [->|[->|[->|[->|[_ E]]]]]; [..|rewrite E in Hf]; cbn in Hf; lia. }
  destruct Hc as [->|[->|[->|[->|[Hc E]]]]].
  5:{ rewrite E in *. cbn [app dsml_unescape_loop]. rewrite (proj2 (Z.eqb_neq c 38)) by done.
      cbn [negb]. f_equal. apply IH. cbn in Hf. lia. }
  all: cbn in Hf; cbn [app attr_escape_char Z.eqb Pos.eqb bs dsml_unescape_loop negb starts_with andb drop];
    cbn; f_equal; apply IH; lia.
Qed.

Lemma attr_roundtrip s : dsml_unescape_text (Some (flat_map attr_escape_char s)) = s.
Proof. by apply attr_escape_loop. Qed.

Lemma attr_no_quote s rest :
  strstr [34] (flat_map attr_escape_char s ++ 34 :: rest) = Some (length (flat_map attr_escape_char s)).
Proof.
  assert (H : Forall (fun c => c <> 34) (flat_map attr_escape_char s)).
  { induction s as [|c s IH]; [constructor|]. cbn [flat_map]. apply Forall_app. split; [|done].
    unfold attr_escape_char. repeat case_if; bool_prop; try by apply (bool_decide_unpack _).
    by repeat constructor. }
  induction H as [|c l Hc Hl IH]; [done|]. cbn [app strstr starts_with length].
  rewrite (proj2 (Z.eqb_neq 34 c)) by done. cbn [andb]. by rewrite IH.
Qed.

(** The reader finds the attribute the writer wrote, wherever the tag begins
    with no earlier match of the name. *)
Lemma dsml_attr_written pre name v rest :
  (length name <= 61)%nat ->
  (forall j, (j < length pre)%nat ->
     starts_with (name ++ [61; 34]) (drop j (pre ++ name ++ [61; 34] ++ flat_map attr_escape_char v ++ 34 :: rest)) = false) ->
  dsml_attr (pre ++ name ++ [61; 34] ++ flat_map attr_escape_char v ++ 34 :: rest) name = Some v.
Proof.
  intros Hn Hpre. unfold dsml_attr. change (bs "=" ++ [34]) with [61; 34].
  rewrite take_ge by (rewrite length_app; cbn; lia).
  set (tag := pre ++ name ++ [61; 34] ++ flat_map attr_escape_char v ++ 34 :: rest) in *.
  assert (Hd : drop (length pre) tag = (name ++ [61; 34]) ++ flat_map attr_escape_char v ++ 34 :: rest).
  { unfold tag. by rewrite drop_app_length, <- app_assoc. }
  assert (Hs : strstr (name ++ [61; 34]) tag = Some (length pre)).
  { destruct (strstr (name ++ [61; 34]) tag) as [i|] eqn:E.
    - apply strstr_Some in E as [E1 E2]. f_equal. destruct (Nat.lt_trichotomy i (length pre)) as [H|[H|H]]; [|done|].
      + rewrite Hpre in E1 by done. done.
      + specialize (E2 (length pre) H). rewrite Hd, starts_with_app in E2. done.
    - apply (strstr_None _ _ (length pre)) in E; [|by destruct name]. rewrite Hd, starts_with_app in E. done. }
  rewrite Hs, <- drop_drop, Hd, drop_app_length, attr_no_quote.
  by rewrite take_app_length, attr_roundtrip.
Qed.

(** ** Properties *)

(** The delimiters the program uses: [<], plain text, [>]. *)
Definition closing_tag (end_ : bytes) : Prop := exists mid, end_ = 60 :: mid ++ [62] /\ plain mid.

(** a tool body written between tags reads back as itself, and its
    written form never contains the closing delimiter. *)
Theorem tool_body_roundtrip (s end_ : bytes) (He : closing_tag end_) :
  ds4_tool_text_unescape (append_glm_tag_body_text [] (Some s) end_) end_ = s /\
  strstr end_ (append_glm_tag_body_text [] (Some s) end_) = None.
Proof.
  destruct He as (mid & -> & Hm). pose proof (plain_gt mid Hm) as Htl.
  unfold append_glm_tag_body_text. cbn [default from_option app]. split.
  - rewrite unescape_unesc. apply (escape_roundtrip _ Htl). done.
  - by apply (escape_no_end _ Htl).
Qed.

Lemma tool_body_roundtrip_witness :
  closing_tag DSML_PARAM_END /\
  ds4_tool_text_unescape (append_glm_tag_body_text []
    (Some (bs "a</｜DSML｜parameter>b&lt;/｜DSML｜parameter>&lt;x>")) DSML_PARAM_END) DSML_PARAM_END =
  bs "a</｜DSML｜parameter>b&lt;/｜DSML｜parameter>&lt;x>".
Proof.
  assert (H : closing_tag DSML_PARAM_END).
  { exists (bs "/｜DSML｜parameter"). split; [reflexivity | by apply (bool_decide_unpack _)]. }
  split; [exact H|]. exact (proj1 (tool_body_roundtrip _ _ H)).
Defined.

(** a body streamed up to the safe length is unescaped fragment by
    fragment without changing the result, and no closing delimiter that the
    continuation completes begins before the cut. *)
Theorem tool_stream_fragments (raw t end_ : bytes) (start : nat)
    (He : closing_tag end_) (Hraw : bytes_ok raw) (Hs : (start <= length raw)%nat) :
  let cut := tool_param_value_stream_safe_len raw start (length raw) end_ true in
  (start <= cut <= length raw)%nat /\
  ds4_tool_text_unescape (drop start (raw ++ t)) end_ =
    ds4_tool_text_unescape (drop start (take cut raw)) end_ ++
    ds4_tool_text_unescape (drop cut (raw ++ t)) end_ /\
  forall p, (start <= p <= length raw)%nat -> starts_with end_ (drop p (raw ++ t)) = true ->
    (length raw < p + length end_)%nat -> (cut <= p)%nat.
Proof.
  destruct He as (mid & -> & Hm).
  destruct (safe_len_spec mid Hm raw t start Hraw Hs) as (H1 & H2 & _).
  split_and!; [lia | lia | by apply fragment_split | exact H2].
Qed.

Lemma tool_stream_fragments_witness :
  let raw := bs "x &amp;lt;/arg_va" in
  tool_param_value_stream_safe_len raw 0 17 (bs "</arg_value>") true = 2%nat /\
  (0 <= tool_param_value_stream_safe_len raw 0 (length raw) (bs "</arg_value>") true <= length raw)%nat.
Proof.
  split; [vm_compute; reflexivity|].
  refine (proj1 (tool_stream_fragments (bs "x &amp;lt;/arg_va") (bs "lue>") (bs "</arg_value>") 0 _ _ _)).
  - exists (bs "/arg_value"). split; [reflexivity | by apply (bool_decide_unpack _)].
  - apply bs_ok.
  - lia.
Defined.

(** an attribute value is read back from the tag it was written into, and
    its escaped form has no quote that would end it early. *)
Theorem dsml_attr_roundtrip (pre name v rest : bytes) (Hn : (length name <= 61)%nat)
    (Hpre : forall j, (j < length pre)%nat ->
       starts_with (name ++ [61; 34])
         (drop j (append_dsml_attr_escaped (pre ++ name ++ [61; 34]) (Some v) ++ 34 :: rest)) = false) :
  dsml_attr (append_dsml_attr_escaped (pre ++ name ++ [61; 34]) (Some v) ++ 34 :: rest) name = Some v.
Proof.
  unfold append_dsml_attr_escaped in *. cbn [default from_option] in *. rewrite <- !app_assoc in *.
  by apply dsml_attr_written.
Qed.

Lemma dsml_attr_roundtrip_witness :
  dsml_attr (append_dsml_attr_escaped (bs "<p " ++ bs "name" ++ [61; 34]) (Some (bs "a<b&c>")) ++ 34 :: bs " x>")
    (bs "name") = Some (bs "a<b&c>").
Proof.
  apply (dsml_attr_roundtrip (bs "<p ") (bs "name") (bs "a<b&c>") (bs " x>")).
  - cbn. lia.
  - intros [|[|[|j]]] Hj; [reflexivity..|cbn in Hj; lia].
Defined.
