(* ===== verification/LayerPack.v ===== *)
(** Placement of layers on devices ([ds4_layer_pack.c]).

    The packer assigns the embedding, the transformer layers and the output
    head, in forward order, to GPUs of given byte budgets, spilling to the CPU
    tier.  The theorems show the placement is monotone, respects every budget,
    and is the earliest one: every monotone placement that respects the
    budgets puts each entry on the same or a later tier. *)

From S2P Require Import Prelude Float64.

#[local] Open Scope Z_scope.

Definition DS4_LAYER_PACK_MAX_GPUS : Z := 16.
Definition DS4_LAYER_PACK_CPU : Z := -1.

Record ds4_layer_pack_config := PackConfig {
  lp_gpu_budget_bytes : list Z;
  lp_n_gpus : Z
}.

(** ** Operations *)

(** [while (d < n_gpus && entry_bytes[e] > budget[d]) d++;] with [fuel] the
    number of devices left. *)
Fixpoint advance (fuel n_gpus d : nat) (budget : list Z) (entry : Z) : nat :=
  match fuel with
  | O => d
  | S fuel' =>
      if (d <? n_gpus)%nat && (nth d budget 0 <? entry)
      then advance fuel' n_gpus (S d) budget entry
      else d
  end.

(** The loop over the entries: [d] and the local budgets are its state. *)
Fixpoint place_loop (n_gpus d : nat) (budget : list Z) (entries : list Z) : list Z :=
  match entries with
  | [] => []
  | e :: rest =>
      let d := advance (n_gpus - d) n_gpus d budget e in
      if (d <? n_gpus)%nat
      then Z.of_nat d :: place_loop n_gpus d (<[d := nth d budget 0 - e]> budget) rest
      else DS4_LAYER_PACK_CPU :: place_loop n_gpus d budget rest
  end.

(** The return code and, on success, the devices of the entries. *)
Definition ds4_compute_layer_placement (entry_bytes : option (list Z)) (n_entries : Z)
    (cfg : option ds4_layer_pack_config) (have_out : bool) : Z * option (list Z) :=
  match entry_bytes, cfg with
  | Some es, Some cfg =>
      if negb have_out then (1, None)
      else if n_entries <? 0 then (2, None)
      else if (lp_n_gpus cfg <? 0) || (DS4_LAYER_PACK_MAX_GPUS <? lp_n_gpus cfg) then (3, None)
      else
        let n := Z.to_nat (lp_n_gpus cfg) in
        (0, Some (place_loop n 0 (take n (lp_gpu_budget_bytes cfg)) (take (Z.to_nat n_entries) es)))
  | _, _ => (1, None)
  end.

(** ** The layout summary *)

Definition device_at (devs : list Z) (i : Z) : Z := nth (Z.to_nat i) devs 0.

(** [strncat(buf, s, buflen - strlen(buf) - 1)]. *)
Definition strncat (buf s : bytes) (buflen : nat) : bytes :=
  buf ++ take (buflen - length buf - 1) s.

Definition append_pseudo_layer_tags (buf : bytes) (buflen : nat) (devs : list Z)
    (tier n_entries n_layers : Z) : bytes :=
  let buf := if (0 <? n_entries) && (device_at devs 0 =? tier)
             then strncat buf (bs " + embedding") buflen else buf in
  if (1 <? n_entries) && (n_layers + 1 <? n_entries) && (device_at devs (n_layers + 1) =? tier)
  then strncat buf (bs " + output head") buflen else buf.

(** The loop over the transformer layers; [first] and [last] start at -1. *)
Fixpoint layer_range (fuel : nat) (devs : list Z) (tier n_entries n_layers i first last : Z) : Z * Z :=
  match fuel with
  | O => (first, last)
  | S fuel' =>
      if (i <=? n_layers) && (i <? n_entries) then
        if device_at devs i =? tier
        then layer_range fuel' devs tier n_entries n_layers (i + 1)
               (if first <? 0 then i - 1 else first) (i - 1)
        else layer_range fuel' devs tier n_entries n_layers (i + 1) first last
      else (first, last)
  end.

Definition print_layer_range_for_tier (devs : list Z) (tier n_entries n_layers : Z) : bytes * bool :=
  let '(first, last) := layer_range (Z.to_nat n_layers) devs tier n_entries n_layers 1 (-1) (-1) in
  if first <? 0 then (bs "(no transformer layers)", false)
  else if first =? last then (bs "layer " ++ print_int first, true)
  else (bs "layers " ++ print_int first ++ bs "-" ++ print_int last, true).

Definition gib (b : Z) : SpecFloat.spec_float := F64.div (F64.of_Z b) (F64.of_Z 1073741824).

Definition print_gpu_line (devs : list Z) (n_entries n_layers : Z) (used budget : option (list Z))
    (d : nat) : bytes :=
  let '(range, _) := print_layer_range_for_tier devs (Z.of_nat d) n_entries n_layers in
  bs "  GPU" ++ print_int (Z.of_nat d) ++ bs ": " ++ range ++
  append_pseudo_layer_tags [] 64 devs (Z.of_nat d) n_entries n_layers ++
  match used, budget with
  | Some u, Some b =>
      bs "  (" ++ F64.print_fixed 1 (gib (nth d u 0)) ++ bs " / " ++
      F64.print_fixed 1 (gib (nth d b 0)) ++ bs " GB)"
  | _, _ => []
  end ++ [10].

Definition ds4_layer_pack_print (have_out : bool) (devs : option (list Z)) (n_entries n_layers : Z)
    (used budget : option (list Z)) (n_gpus : Z) : bytes :=
  match devs with
  | Some devs =>
      if negb have_out then []
      else
        let cpu_present := existsb (fun d => d =? DS4_LAYER_PACK_CPU) (take (Z.to_nat n_entries) devs) in
        bs "multi-GPU layout:" ++ [10] ++
        flat_map (print_gpu_line devs n_entries n_layers used budget) (seq 0 (Z.to_nat n_gpus)) ++
        (if cpu_present then
           bs "  CPU : " ++ fst (print_layer_range_for_tier devs DS4_LAYER_PACK_CPU n_entries n_layers) ++
           append_pseudo_layer_tags [] 64 devs DS4_LAYER_PACK_CPU n_entries n_layers ++ [10]
         else [])
  | None => []
  end.

(** ** Specification of a placement *)

(** Tiers in order: the GPUs, then the CPU. *)
Definition rank (n_gpus : nat) (dev : Z) : nat :=
  if dev =? DS4_LAYER_PACK_CPU then n_gpus else Z.to_nat dev.

(** The bytes a tier holds. *)
Fixpoint sum_on (k : nat) (es : list Z) (rs : list nat) : Z :=
  match es, rs with
  | e :: es, r :: rs => (if (r =? k)%nat then e else 0) + sum_on k es rs
  | _, _ => 0
  end.

(** A list of tiers from [d] on, never going back. *)
Fixpoint mono_from (d : nat) (rs : list nat) : Prop :=
  match rs with
  | [] => True
  | r :: rs => (d <= r)%nat /\ mono_from r rs
  end.

Record placement_ok (n : nat) (budget es : list Z) (d : nat) (rs : list nat) : Prop := {
  po_len : length rs = length es;
  po_mono : mono_from d rs;
  po_tier : Forall (fun r => (r <= n)%nat) rs;
  po_fits : forall k, (d <= k < n)%nat -> sum_on k es rs <= nth k budget 0
}.

(** ** Facts *)

Lemma advance_spec fuel n d budget e :
  (fuel = n - d)%nat -> (d <= n)%nat ->
  let d' := advance fuel n d budget e in
  (d <= d' <= n)%nat /\ (forall k, (d <= k < d')%nat -> nth k budget 0 < e) /\
  ((d' < n)%nat -> e <= nth d' budget 0).
Proof.
  revert d. induction fuel as [|fuel IH]; intros d Hf Hd; cbn [advance].
  { split_and!; [lia | lia | intros; lia | intros; lia]. }
  case_if; bool_prop.
  - destruct (IH (S d)) as (H1 & H2 & H3); [lia | lia |]. split_and!; [lia | lia | | done].
    intros k Hk. destruct (Nat.eq_dec k d) as [->|]; [lia | apply H2; lia].
  - split_and!; [lia | lia | intros; lia |]. intros H. destruct E as [E|E]; bool_prop; lia.
Qed.

Lemma mono_from_weaken d d' rs : (d' <= d)%nat -> mono_from d rs -> mono_from d' rs.
Proof. destruct rs; cbn; [done|]. intros H [H1 H2]. split; [lia | done]. Qed.

Lemma sum_on_below k d es rs : mono_from d rs -> (k < d)%nat -> sum_on k es rs = 0.
Proof.
  revert d es. induction rs as [|r rs IH]; intros d [|e es] Hm Hk; cbn [sum_on]; try done.
  destruct Hm as [H1 H2]. destruct (Nat.eqb_spec r k); [lia|]. rewrite (IH r); [lia | done | lia].
Qed.

Lemma sum_on_nonneg k es rs : Forall (fun e => 0 <= e) es -> 0 <= sum_on k es rs.
Proof.
  intros H. revert rs. induction H as [|e es He Hes IH]; intros [|r rs]; cbn [sum_on]; try lia.
  specialize (IH rs). case_if; lia.
Qed.

Lemma place_loop_ok n es : forall d budget,
  Forall (fun e => 0 <= e) es -> (d <= n)%nat -> (n <= length budget)%nat ->
  (forall k, (d <= k < n)%nat -> 0 <= nth k budget 0) ->
  placement_ok n budget es d (rank n <$> place_loop n d budget es).
Proof.
  induction es as [|e es IH]; intros d budget Hes Hd Hlen Hb.
  { constructor; cbn; [done | done | constructor | intros; by apply Hb]. }
  apply Forall_cons in Hes as [He Hes]. cbn [place_loop].
  destruct (advance_spec (n - d) n d budget e eq_refl Hd) as (H1 & H2 & H3).
  set (d' := advance (n - d) n d budget e) in *.
  destruct (Nat.ltb_spec d' n) as [Hlt|Hge]; cbn [fmap list_fmap].
  - assert (Hr : rank n (Z.of_nat d') = d').
    { unfold rank, DS4_LAYER_PACK_CPU. destruct (Z.eqb_spec (Z.of_nat d') (-1)); lia. }
    rewrite Hr. set (budget' := <[d' := nth d' budget 0 - e]> budget).
    assert (Hnth : forall k, nth k budget' 0 = if (k =? d')%nat then nth d' budget 0 - e else nth k budget 0).
    { intros k. unfold budget'. rewrite !nth_lookup. destruct (Nat.eqb_spec k d') as [->|Hk].
      - by rewrite list_lookup_insert_eq by lia.
      - by rewrite list_lookup_insert_ne by done. }
    destruct (IH d' budget') as [P1 P2 P3 P4]; [done | lia | | |].
    { unfold budget'. by rewrite length_insert. }
    { intros k Hk. rewrite Hnth. case_if; bool_prop; [specialize (H3 Hlt); lia | apply Hb; lia]. }
    constructor; cbn [length mono_from sum_on].
    + by rewrite P1.
    + split; [lia | done].
    + constructor; [lia | done].
    + intros k Hk. destruct (Nat.eqb_spec d' k) as [->|Hne].
      * specialize (P4 k ltac:(lia)). rewrite Hnth, Nat.eqb_refl in P4. lia.
      * destruct (Nat.le_gt_cases d' k).
        -- specialize (P4 k ltac:(lia)). rewrite Hnth in P4.
           destruct (Nat.eqb_spec k d'); [lia|]. lia.
        -- rewrite (sum_on_below k d'); [specialize (Hb k); lia | done | lia].
  - assert (Hr : rank n DS4_LAYER_PACK_CPU = n) by done. rewrite Hr.
    assert (Hd' : d' = n) by lia. rewrite Hd' in *.
    destruct (IH n budget) as [P1 P2 P3 P4]; [done | lia | done | intros; lia |].
    constructor; cbn [length mono_from sum_on].
    + by rewrite P1.
    + split; [lia | done].
    + constructor; [lia | done].
    + intros k Hk. destruct (Nat.eqb_spec n k); [lia|].
      rewrite (sum_on_below k n); [specialize (Hb k); lia | done | lia].
Qed.

(** The greedy placement is never later than another admissible one. *)
Lemma place_loop_first n es : forall d budget rs,
  Forall (fun e => 0 <= e) es -> (d <= n)%nat -> (n <= length budget)%nat ->
  placement_ok n budget es d rs ->
  Forall2 le (rank n <$> place_loop n d budget es) rs.
Proof.
  induction es as [|e es IH]; intros d budget rs Hes Hd Hlen [P1 P2 P3 P4].
  { destruct rs; [constructor | done]. }
  apply Forall_cons in Hes as [He Hes]. destruct rs as [|r rs]; [done|].
  cbn [length mono_from] in *. destruct P2 as [P2 P2']. apply Forall_cons in P3 as [P3 P3'].
  injection P1 as P1. cbn [place_loop].
  destruct (advance_spec (n - d) n d budget e eq_refl Hd) as (H1 & H2 & H3).
  set (d' := advance (n - d) n d budget e) in *.
  assert (Hdr : (d' <= r)%nat).
  { destruct (Nat.le_gt_cases d' r) as [|Hgt]; [done|]. specialize (H2 r ltac:(lia)).
    specialize (P4 r ltac:(lia)). cbn [sum_on] in P4. rewrite Nat.eqb_refl in P4.
    pose proof (sum_on_nonneg r es rs Hes). lia. }
  destruct (Nat.ltb_spec d' n) as [Hlt|Hge]; cbn [fmap list_fmap].
  - assert (Hr : rank n (Z.of_nat d') = d').
    { unfold rank, DS4_LAYER_PACK_CPU. destruct (Z.eqb_spec (Z.of_nat d') (-1)); lia. }
    rewrite Hr. constructor; [done|]. apply IH; [done | lia | by rewrite length_insert |].
    constructor; [done | by eapply mono_from_weaken | done |]. intros k Hk.
    specialize (P4 k ltac:(lia)). cbn [sum_on] in P4.
    destruct (Nat.eq_dec k d') as [->|Hne].
    + rewrite nth_lookup, list_lookup_insert_eq by lia. cbn.
      destruct (Nat.eqb_spec r d') as [->|Hrd]; [lia|].
      rewrite (sum_on_below d' r) by (done || lia). specialize (H3 Hlt). lia.
    + rewrite nth_lookup, list_lookup_insert_ne, <- nth_lookup by done.
      destruct (r =? k)%nat; lia.
  - assert (Hd' : d' = n) by lia. assert (Hrn : r = n) by lia.
    constructor; [change (rank n DS4_LAYER_PACK_CPU) with n; lia|]. rewrite Hd' in *. apply IH; [done | lia | done |].
    constructor; [done | by rewrite <- Hrn | done | intros; lia].
Qed.

(** ** Properties *)

(** A configuration as the C type allows it: sixteen nonnegative budgets. *)
Definition config_ok (cfg : ds4_layer_pack_config) : Prop :=
  0 <= lp_n_gpus cfg <= DS4_LAYER_PACK_MAX_GPUS /\
  length (lp_gpu_budget_bytes cfg) = Z.to_nat DS4_LAYER_PACK_MAX_GPUS /\
  Forall (fun b => 0 <= b) (lp_gpu_budget_bytes cfg).

(** C40: the packer accepts every such configuration; its placement never
    goes back to an earlier tier, keeps every GPU within its budget, and puts
    each entry on the earliest tier any such placement can. *)
Theorem layer_placement_optimal (es : list Z) (cfg : ds4_layer_pack_config)
    (He : Forall (fun e => 0 <= e) es) (Hc : config_ok cfg) :
  let n := Z.to_nat (lp_n_gpus cfg) in
  exists devs,
    ds4_compute_layer_placement (Some es) (zlen es) (Some cfg) true = (0, Some devs) /\
    placement_ok n (lp_gpu_budget_bytes cfg) es 0 (rank n <$> devs) /\
    forall rs, placement_ok n (lp_gpu_budget_bytes cfg) es 0 rs -> Forall2 le (rank n <$> devs) rs.
Proof.
  cbv zeta. destruct Hc as ([Hn1 Hn2] & Hlen & Hb). unfold DS4_LAYER_PACK_MAX_GPUS in *.
  unfold ds4_compute_layer_placement. cbn [negb].
  replace (zlen es <? 0) with false by (symmetry; apply Z.ltb_ge, zlen_nonneg).
  replace (lp_n_gpus cfg <? 0) with false by (symmetry; apply Z.ltb_ge; lia).
  replace (DS4_LAYER_PACK_MAX_GPUS <? lp_n_gpus cfg) with false
    by (symmetry; apply Z.ltb_ge; unfold DS4_LAYER_PACK_MAX_GPUS; lia).
  cbn [orb]. eexists. split; [reflexivity|].
  rewrite (take_ge es) by (unfold zlen; lia).
  set (n := Z.to_nat (lp_n_gpus cfg)). set (bud := lp_gpu_budget_bytes cfg) in *.
  assert (Hnth : forall k, (k < n)%nat -> nth k (take n bud) 0 = nth k bud 0).
  { intros k Hk. rewrite nth_firstn. destruct (Nat.ltb_spec k n); [done | lia]. }
  assert (Hiff : forall rs, placement_ok n bud es 0 rs <-> placement_ok n (take n bud) es 0 rs).
  { intros rs. split; intros [P1 P2 P3 P4]; (constructor; [done | done | done |]); intros k Hk;
      specialize (P4 k Hk); rewrite Hnth in * by lia; done. }
  assert (Hl : (n <= length (take n bud))%nat) by (rewrite length_take; lia).
  rewrite Hiff. split.
  - apply place_loop_ok; [done | lia | done |]. intros k Hk. rewrite Hnth by lia.
    rewrite List.Forall_forall in Hb. apply Hb, nth_In. lia.
  - intros rs Hrs%Hiff. apply place_loop_first; [done | lia | done | done].
Qed.

Lemma layer_placement_optimal_witness :
  let cfg := PackConfig ([40; 0; 25] ++ replicate 13 0) 3 in
  let es := [10; 20; 15; 5; 12] in
  config_ok cfg /\ ds4_compute_layer_placement (Some es) 5 (Some cfg) true = (0, Some [0; 0; 2; 2; -1]) /\
  exists devs, ds4_compute_layer_placement (Some es) (zlen es) (Some cfg) true = (0, Some devs) /\
    placement_ok 3 (lp_gpu_budget_bytes cfg) es 0 (rank 3 <$> devs).
Proof.
  set (cfg := PackConfig ([40; 0; 25] ++ replicate 13 0) 3). set (es := [10; 20; 15; 5; 12]).
  assert (Hc : config_ok cfg).
  { split; [cbn; unfold DS4_LAYER_PACK_MAX_GPUS; lia|]. split; [done|]. by apply (bool_decide_unpack _). }
  split; [exact Hc|]. split; [vm_compute; reflexivity|].
  assert (He : Forall (fun e => 0 <= e) es) by (by apply (bool_decide_unpack _)).
  destruct (layer_placement_optimal es cfg He Hc) as (devs & H1 & H2 & _).
  exists devs. split; [exact H1 | exact H2].
Defined.

(** The layer range of a tier is the first and the last layer it holds. *)
Lemma layer_range_spec devs tier n_entries n_layers fuel : forall i first last,
  1 <= i -> Z.of_nat fuel = n_layers + 1 - i ->
  (first = -1 /\ last = -1 \/ 0 <= first <= last /\ last < i - 1) ->
  let '(f, l) := layer_range fuel devs tier n_entries n_layers i first last in
  (f = -1 <-> first = -1 /\ forall j, i <= j <= n_layers -> j < n_entries -> device_at devs j <> tier) /\
  (f <> -1 -> 0 <= f <= l /\
     (forall j, i <= j <= n_layers -> j < n_entries -> device_at devs j = tier -> f <= j - 1 <= l) /\
     (l = last \/ i <= l + 1 <= n_layers /\ l + 1 < n_entries /\ device_at devs (l + 1) = tier) /\
     (f = first \/ first = -1 /\ i <= f + 1 <= n_layers /\ f + 1 < n_entries /\ device_at devs (f + 1) = tier)).
Proof.
  induction fuel as [|fuel IH]; intros i first last Hi Hf Hst; cbn [layer_range].
  { split; [split; [intros; split; [done | intros; lia] | by intros []]|].
    intros Hn. split_and!; [lia | lia | intros; lia | by left | by left]. }
  case_if; bool_prop.
  - case_if; bool_prop.
    + assert (Hst' : 0 <= (if first <? 0 then i - 1 else first) <= i - 1 /\ i - 1 < i + 1 - 1)
        by (case_if; bool_prop; lia).
      specialize (IH (i + 1) (if first <? 0 then i - 1 else first) (i - 1) ltac:(lia) ltac:(lia) (or_intror Hst')).
      destruct (layer_range fuel devs tier n_entries n_layers (i + 1) _ (i - 1)) as [f l].
      destruct IH as [IH1 IH2]. split.
      * split; [intros Hf1; apply IH1 in Hf1 as [? _]; lia | intros [_ Hno]; by destruct (Hno i ltac:(lia))].
      * intros Hne. destruct (IH2 Hne) as (H1 & H2 & H3 & H4). split_and!; [lia | lia | | | ].
        -- intros j Hj Hje Hd. destruct (Z.eq_dec j i) as [->|]; [|apply H2; (lia || done)].
           split; [|destruct H3 as [->|[]]; lia]. destruct H4 as [->|[]]; [case_if; bool_prop; lia | lia].
        -- right. destruct H3 as [->|(Hl & ? & ?)]; [split_and!; [lia | lia | lia |] | split_and!; [lia | lia | lia | done]].
           by replace (i - 1 + 1) with i by lia.
        -- destruct H4 as [->|(? & ? & ?)]; [|lia]. case_if; bool_prop; [right | by left].
           split_and!; [lia | lia | lia | lia |]. by replace (i - 1 + 1) with i by lia.
    + assert (Hst' : first = -1 /\ last = -1 \/ 0 <= first <= last /\ last < i + 1 - 1) by lia.
      specialize (IH (i + 1) first last ltac:(lia) ltac:(lia) Hst').
      destruct (layer_range fuel devs tier n_entries n_layers (i + 1) first last) as [f l].
      destruct IH as [IH1 IH2]. split.
      * rewrite IH1. split; intros [Hx Hno]; (split; [done|]); intros j Hj Hje;
          [destruct (Z.eq_dec j i) as [->|]; [done | apply Hno; lia] | apply Hno; lia].
      * intros Hne. destruct (IH2 Hne) as (H1 & H2 & H3 & H4). split_and!; [lia | lia | | | ].
        -- intros j Hj Hje Hd. destruct (Z.eq_dec j i) as [->|]; [done | apply H2; (lia || done)].
        -- destruct H3 as [?|(Hl & ? & ?)]; [by left | right; split_and!; [lia | lia | done | done]].
        -- destruct H4 as [?|(? & Hl & ? & ?)]; [by left | right; split_and!; [done | lia | lia | done | done]].
  - assert (Hout : forall j, i <= j <= n_layers -> j < n_entries -> False) by (destruct E; bool_prop; lia).
    split; [split; [intros; split; [done | intros j Hj Hje; by destruct (Hout j)] | by intros []]|].
    intros Hn. split_and!; [lia | lia | intros j Hj Hje; by destruct (Hout j) | by left | by left].
Qed.

(** the summary prints, for every tier, exactly its first and last
    transformer layers (from 0), one number when they coincide, and the stub
    when the tier holds none. *)
Theorem layer_range_printed (devs : list Z) (tier n_entries n_layers : Z) (Hn : 0 <= n_layers) :
  let holds j := 0 <= j < n_layers /\ j + 1 < n_entries /\ device_at devs (j + 1) = tier in
  let out := print_layer_range_for_tier devs tier n_entries n_layers in
  (out = (bs "(no transformer layers)", false) /\ forall j, ~ holds j) \/
  exists f l, holds f /\ holds l /\ (forall j, holds j -> f <= j <= l) /\
    out = (if f =? l then bs "layer " ++ print_int f
           else bs "layers " ++ print_int f ++ bs "-" ++ print_int l, true).
Proof.
  cbv zeta. unfold print_layer_range_for_tier.
  assert (Hst : (-1 = -1 /\ -1 = -1) \/ 0 <= -1 <= -1 /\ -1 < 1 - 1) by lia.
  pose proof (layer_range_spec devs tier n_entries n_layers (Z.to_nat n_layers) 1 (-1) (-1)
    ltac:(lia) ltac:(lia) Hst) as H.
  destruct (layer_range (Z.to_nat n_layers) devs tier n_entries n_layers 1 (-1) (-1)) as [f l].
  destruct H as [H1 H2]. destruct (Z.eq_dec f (-1)) as [->|Hne].
  - left. split; [done|]. intros j (Hj & Hje & Hd). destruct H1 as [H1 _].
    destruct (H1 eq_refl) as [_ Hno]. by apply (Hno (j + 1)); [lia | lia |].
  - right. destruct (H2 Hne) as (Hfl & Hall & Hl & Hf). exists f, l.
    destruct (Z.ltb_spec f 0); [lia|].
    destruct Hf as [?|(_ & Hf & Hfe & Hfd)]; [lia|]. destruct Hl as [?|(Hl & Hle & Hld)]; [lia|].
    split_and!; try lia; try done.
    + intros j (Hj & Hje & Hjd). specialize (Hall (j + 1) ltac:(lia) Hje Hjd). lia.
    + by destruct (f =? l).
Qed.

Lemma layer_range_printed_witness :
  let devs := [0; 0; 0; 1; 1; -1] in
  print_layer_range_for_tier devs 1 6 4 = (bs "layers 2-3", true) /\
  exists f l, (0 <= f < 4 /\ f + 1 < 6 /\ device_at devs (f + 1) = 1) /\
    print_layer_range_for_tier devs 1 6 4 =
      (if f =? l then bs "layer " ++ print_int f
       else bs "layers " ++ print_int f ++ bs "-" ++ print_int l, true).
Proof.
  split; [vm_compute; reflexivity|].
  destruct (layer_range_printed [0; 0; 0; 1; 1; -1] 1 6 4 ltac:(lia)) as [[E _]|(f & l & Hf & _ & _ & E)].
  - vm_compute in E. discriminate.
  - exists f, l. split; [exact Hf | exact E].
Defined.
