(* ===== verification/PromptPrefix.v ===== *)
(** Prompt-prefix files ([ds4_prompt_prefix.c], [ds4_prompt_prefix.h]).

    A prefix file is a few-shot conversation: turns that start at the beginning
    of a line with [USER:] or [ASSISTANT:].  The file models the parser with
    its error values and line numbers, loading through the C file interface,
    and the appending of a prefix to a prompt.  The theorems show the parser
    terminates, what an accepted file is made of (nothing of it is lost), the
    round trip from turns to text and back, and the shape of the appended
    prompt. *)

From S2P Require Import Prelude.

#[local] Open Scope Z_scope.

Inductive ds4_prompt_prefix_role := DS4_PROMPT_PREFIX_USER | DS4_PROMPT_PREFIX_ASSISTANT.

#[export] Instance role_eq_dec : EqDecision ds4_prompt_prefix_role.
Proof. solve_decision. Defined.

Record ds4_prompt_prefix_turn := Turn {
  t_role : ds4_prompt_prefix_role;
  t_content : bytes
}.

(** The messages of [prefix_error], with their arguments. *)
Inductive prefix_err :=
| EInvalidOutput
| EEmptyFile
| ENulByte
| EMarker (line : Z)
| EExpected (line : Z) (expected : ds4_prompt_prefix_role)
| EEmptyTurn (line : Z) (role : ds4_prompt_prefix_role)
| ETooMany
| ENoMemory
| ENoTurns
| ENotAssistant
| EInvalidPath
| EOpen (path : bytes)
| ESeek (path : bytes)
| ESize (path : bytes)
| ERewind (path : bytes)
| ERead (path : bytes)
| EClose (path : bytes)
| EInFile (path : bytes) (e : prefix_err).

Definition user_marker : bytes := bs "USER:".
Definition assistant_marker : bytes := bs "ASSISTANT:".

Definition prefix_marker_at (data : bytes) (pos : nat) : option (ds4_prompt_prefix_role * nat) :=
  if starts_with user_marker (drop pos data) then Some (DS4_PROMPT_PREFIX_USER, length user_marker)
  else if starts_with assistant_marker (drop pos data)
  then Some (DS4_PROMPT_PREFIX_ASSISTANT, length assistant_marker)
  else None.

Definition is_marker (data : bytes) (pos : nat) : bool :=
  match prefix_marker_at data pos with Some _ => true | None => false end.

(** The inner loop: the next turn's position and line, if any. *)
Fixpoint scan_next (fuel : nat) (data : bytes) (i : nat) (scan_line : Z) : option (nat * Z) :=
  match fuel with
  | O => None
  | S fuel' =>
      if (length data <=? i)%nat then None
      else if negb (cget data i =? 10) then scan_next fuel' data (S i) scan_line
      else
        let scan_line := scan_line + 1 in
        if (S i <? length data)%nat && is_marker data (S i) then Some (S i, scan_line)
        else scan_next fuel' data (S i) scan_line
  end.

(** Drop one trailing newline, with the carriage return in front of it. *)
Definition trim_end (data : bytes) (content_start content_end : nat) : nat :=
  if (content_start <? content_end)%nat && (cget data (content_end - 1) =? 10) then
    let content_end := (content_end - 1)%nat in
    if (content_start <? content_end)%nat && (cget data (content_end - 1) =? 13)
    then (content_end - 1)%nat else content_end
  else content_end.

Definition skip_sep (data : bytes) (content_start : nat) : nat :=
  if (content_start <? length data)%nat &&
     ((cget data content_start =? 32) || (cget data content_start =? 9))
  then S content_start else content_start.

Definition prefix_copy_content (data : bytes) (start end_ : nat) : bytes :=
  take (end_ - start) (drop start data).

Definition expected_role (count : nat) : ds4_prompt_prefix_role :=
  if (count mod 2 =? 0)%nat then DS4_PROMPT_PREFIX_USER else DS4_PROMPT_PREFIX_ASSISTANT.

(** [sizeof(ds4_prompt_prefix_turn)]: an enum, padding and a pointer. *)
Definition turn_size : Z := 16.

Section Parse.
(** The outcomes of [realloc] and [malloc] for the turn of a given index. *)
Context (realloc_ok malloc_ok : nat -> bool).

(** One iteration of the loop: the turn, the next position and its line. *)
Definition parse_turn (data : bytes) (pos : nat) (line : Z) (count : nat)
  : prefix_err + (ds4_prompt_prefix_turn * nat * Z) :=
  match prefix_marker_at data pos with
  | None => inl (EMarker line)
  | Some (role, marker_len) =>
      let expected := expected_role count in
      if negb (bool_decide (role = expected)) then inl (EExpected line expected)
      else
        let content_start := skip_sep data (pos + marker_len) in
        let '(next, next_line) :=
          match scan_next (length data - content_start) data content_start line with
          | Some r => r
          | None => (length data, line)
          end in
        let content_end := trim_end data content_start next in
        if (content_end =? content_start)%nat then inl (EEmptyTurn line role)
        else if Z.of_nat count =? U64_MAX / turn_size then inl ETooMany
        else if negb (realloc_ok count) then inl ENoMemory
        else if negb (malloc_ok count) then inl ENoMemory
        else inr (Turn role (prefix_copy_content data content_start content_end), next, next_line)
  end.

(** The loop; [None] is running out of fuel. *)
Fixpoint parse_loop (fuel : nat) (data : bytes) (pos : nat) (line : Z)
    (turns : list ds4_prompt_prefix_turn) : option (prefix_err + list ds4_prompt_prefix_turn) :=
  if (length data <=? pos)%nat then Some (inr turns)
  else
    match fuel with
    | O => None
    | S fuel' =>
        match parse_turn data pos line (length turns) with
        | inl e => Some (inl e)
        | inr (t, next, next_line) => parse_loop fuel' data next next_line (turns ++ [t])
        end
    end.

Definition bom : bytes := [239; 187; 191].

Definition ds4_prompt_prefix_parse (have_out : bool) (data : option bytes)
  : option (prefix_err + list ds4_prompt_prefix_turn) :=
  if negb have_out then Some (inl EInvalidOutput)
  else
    match data with
    | None | Some [] => Some (inl EEmptyFile)
    | Some data =>
        if existsb (fun c => c =? 0) data then Some (inl ENulByte)
        else
          let pos := if starts_with bom data then 3%nat else 0%nat in
          match parse_loop (length data) data pos 1 [] with
          | None => None
          | Some (inl e) => Some (inl e)
          | Some (inr turns) =>
              match last turns with
              | None => Some (inl ENoTurns)
              | Some t =>
                  if bool_decide (t_role t = DS4_PROMPT_PREFIX_ASSISTANT)
                  then Some (inr turns) else Some (inl ENotAssistant)
              end
          end
    end.

(** The outcomes of the calls of [ds4_prompt_prefix_load]: [pi_size] is what
    [ftell] returns and [pi_read] the bytes [fread] delivers. *)
Record prefix_io := PrefixIO {
  pi_open : bool; pi_seek_end : bool; pi_size : Z; pi_seek_set : bool;
  pi_malloc : bool; pi_read : bytes; pi_close : bool
}.

Definition ds4_prompt_prefix_load (have_out : bool) (path : option bytes) (io : prefix_io)
  : option (prefix_err + list ds4_prompt_prefix_turn) :=
  match path with
  | None | Some [] => Some (inl EInvalidPath)
  | Some path =>
      if negb have_out then Some (inl EInvalidPath)
      else if negb (pi_open io) then Some (inl (EOpen path))
      else if negb (pi_seek_end io) then Some (inl (ESeek path))
      else if (pi_size io <? 0) || (U64_MAX - 1 <? pi_size io) then Some (inl (ESize path))
      else if negb (pi_seek_set io) then Some (inl (ERewind path))
      else
        let len := pi_size io in
        if negb (pi_malloc io) then Some (inl ENoMemory)
        else if negb (len =? 0) && negb (zlen (pi_read io) =? len) then Some (inl (ERead path))
        else if negb (pi_close io) then Some (inl (EClose path))
        else
          match ds4_prompt_prefix_parse true (Some (if len =? 0 then [] else pi_read io)) with
          | Some (inl e) => Some (inl (EInFile path e))
          | r => r
          end
  end.
End Parse.

(** ** Appending to a prompt: the engine is an interface. *)
Class ChatEngine := {
  chat_append_message : list Z -> bytes -> bytes -> list Z;
  engine_is_glm_dsa : bool;
  token_eos : Z
}.

Definition append_turn `{ChatEngine} (tokens : list Z) (turn : ds4_prompt_prefix_turn) : list Z :=
  let assistant := bool_decide (t_role turn = DS4_PROMPT_PREFIX_ASSISTANT) in
  let tokens := chat_append_message tokens (if assistant then bs "assistant" else bs "user")
                  (t_content turn) in
  if assistant && negb engine_is_glm_dsa then tokens ++ [token_eos] else tokens.

Definition ds4_prompt_prefix_append `{ChatEngine} (tokens : list Z)
    (prefix : option (list ds4_prompt_prefix_turn)) : list Z :=
  match prefix with
  | None => tokens
  | Some turns => foldl append_turn tokens turns
  end.

(** ** Slices of the file *)
Abbreviation slice := prefix_copy_content.

Lemma slice_app data a b c : (a <= b <= c)%nat -> slice data a c = slice data a b ++ slice data b c.
Proof.
  intros H. unfold prefix_copy_content.
  replace (c - a)%nat with ((b - a) + (c - b))%nat by lia.
  rewrite <- (take_take_drop (drop a data) (b - a) (c - b)). rewrite drop_drop.
  by replace (a + (b - a))%nat with b by lia.
Qed.

Lemma slice_nil data a : slice data a a = [].
Proof. unfold prefix_copy_content. by rewrite Nat.sub_diag. Qed.

Lemma slice_one data a : (a < length data)%nat -> slice data a (S a) = [cget data a].
Proof.
  intros H. unfold prefix_copy_content. replace (S a - a)%nat with 1%nat by lia.
  rewrite (drop_S data (cget data a) a); [done|].
  unfold cget. rewrite nth_lookup. by destruct (lookup_lt_is_Some_2 data a H) as [x ->].
Qed.

Lemma slice_length data a b : (b <= length data)%nat -> length (slice data a b) = (b - a)%nat.
Proof. intros H. unfold prefix_copy_content. rewrite length_take, length_drop. lia. Qed.

Lemma slice_drop data a b : (a <= b)%nat -> drop a data = slice data a b ++ drop b data.
Proof.
  intros H. unfold prefix_copy_content. rewrite <- (take_drop (b - a) (drop a data)) at 1.
  rewrite drop_drop. by replace (a + (b - a))%nat with b by lia.
Qed.

Lemma starts_with_slice m data pos :
  starts_with m (drop pos data) = true -> slice data pos (pos + length m) = m.
Proof.
  intros H%starts_with_take. unfold prefix_copy_content.
  by replace (pos + length m - pos)%nat with (length m) by lia.
Qed.

(** ** The pieces of a turn *)
Definition marker_of (r : ds4_prompt_prefix_role) : bytes :=
  match r with
  | DS4_PROMPT_PREFIX_USER => user_marker
  | DS4_PROMPT_PREFIX_ASSISTANT => assistant_marker
  end.

Definition newlines (l : bytes) : Z := Z.of_nat (length (List.filter (Z.eqb 10) l)).

Lemma newlines_app a b : newlines (a ++ b) = newlines a + newlines b.
Proof. unfold newlines. rewrite List.filter_app, length_app. lia. Qed.

(** The text of a turn: its marker, at most one blank, the content, and the
    line end that belongs to the file and not to the content. *)
Definition turn_text (t : ds4_prompt_prefix_turn) (piece : bytes) : Prop :=
  t_content t <> [] /\
  exists sep term, (sep = [] \/ sep = [32] \/ sep = [9]) /\
    (term = [] \/ term = [10] \/ term = [13; 10]) /\
    piece = marker_of (t_role t) ++ sep ++ t_content t ++ term.

Lemma prefix_marker_spec data pos role n :
  prefix_marker_at data pos = Some (role, n) ->
  n = length (marker_of role) /\ slice data pos (pos + n) = marker_of role /\
  (pos + n <= length data)%nat.
Proof.
  unfold prefix_marker_at. intros H.
  assert (Hm : n = length (marker_of role) /\ starts_with (marker_of role) (drop pos data) = true).
  { case_if_in H; [by injection H as <- <-|]. case_if_in H; [by injection H as <- <- | done]. }
  destruct Hm as [-> Hm]. split_and!; [done | by apply starts_with_slice |].
  apply starts_with_length in Hm. rewrite length_drop in Hm.
  destruct role; cbn in *; lia.
Qed.

Lemma scan_next_spec fuel : forall data i line,
  fuel = (length data - i)%nat ->
  match scan_next fuel data i line with
  | Some (n, l) =>
      (i < n < length data)%nat /\ cget data (n - 1) = 10 /\ is_marker data n = true /\
      l = line + newlines (slice data i n) /\
      forall j, (i <= j)%nat -> (S j < n)%nat -> cget data j = 10 -> is_marker data (S j) = false
  | None =>
      forall j, (i <= j)%nat -> (S j < length data)%nat -> cget data j = 10 -> is_marker data (S j) = false
  end.
Proof.
  induction fuel as [|fuel IH]; intros data i line Hf; cbn [scan_next]; [intros; lia|].
  destruct (Nat.leb_spec (length data) i); [lia|].
  destruct (Z.eqb_spec (cget data i) 10) as [E|E]; cbn [negb].
  - destruct ((S i <? length data)%nat && is_marker data (S i)) eqn:Em; bool_prop.
    + split_and!; [lia | lia | by replace (S i - 1)%nat with i by lia | done | | intros; lia].
      rewrite slice_one, E by lia. done.
    + specialize (IH data (S i) (line + 1) ltac:(lia)).
      assert (Hi : (S i < length data)%nat -> is_marker data (S i) = false).
      { intros. destruct Em as [Em|Em]; [|done]. bool_prop. lia. }
      destruct (scan_next fuel data (S i) (line + 1)) as [[n l]|].
      * destruct IH as (H1 & H2 & H3 & H4 & H5). split_and!; [lia | lia | done | done | |].
        -- rewrite (slice_app data i (S i) n), newlines_app, slice_one, E by lia.
           change (newlines [10]) with 1. lia.
        -- intros j Hj Hn Hc. destruct (Nat.eq_dec j i) as [->|]; [apply Hi; lia | apply H5; (lia || done)].
      * intros j Hj Hn Hc. destruct (Nat.eq_dec j i) as [->|]; [apply Hi; lia | apply IH; (lia || done)].
  - specialize (IH data (S i) line ltac:(lia)).
    destruct (scan_next fuel data (S i) line) as [[n l]|].
    + destruct IH as (H1 & H2 & H3 & H4 & H5). split_and!; [lia | lia | done | done | |].
      * rewrite (slice_app data i (S i) n), newlines_app, slice_one by lia.
        replace (newlines [cget data i]) with 0; [lia|]. unfold newlines. cbn [List.filter].
        by rewrite (proj2 (Z.eqb_neq 10 (cget data i))) by lia.
      * intros j Hj Hn Hc. destruct (Nat.eq_dec j i) as [->|]; [done | apply H5; (lia || done)].
    + intros j Hj Hn Hc. destruct (Nat.eq_dec j i) as [->|]; [done | apply IH; (lia || done)].
Qed.

Lemma trim_end_spec data cs ce :
  (cs <= ce <= length data)%nat ->
  let e := trim_end data cs ce in
  (cs <= e <= ce)%nat /\
  (slice data e ce = [] \/ slice data e ce = [10] \/ slice data e ce = [13; 10]).
Proof.
  intros H. cbv zeta. unfold trim_end.
  destruct ((cs <? ce)%nat && (cget data (ce - 1) =? 10)) eqn:E; bool_prop.
  - assert (H10 : slice data (ce - 1) ce = [10]).
    { replace ce with (S (ce - 1)) at 2 by lia. rewrite slice_one by lia. congruence. }
    destruct ((cs <? ce - 1)%nat && (cget data (ce - 1 - 1) =? 13)) eqn:E'; bool_prop.
    + split; [lia|]. right. right. rewrite (slice_app data _ (ce - 1)), H10 by lia.
      replace (ce - 1)%nat with (S (ce - 1 - 1)) at 2 by lia. rewrite slice_one by lia.
      match goal with H : cget _ _ = 13 |- _ => by rewrite H end.
    + split; [lia|]. by right; left.
  - split; [lia|]. left. apply slice_nil.
Qed.

Lemma skip_sep_spec data cs :
  (cs <= length data)%nat ->
  (cs <= skip_sep data cs <= length data)%nat /\
  (slice data cs (skip_sep data cs) = [] \/ slice data cs (skip_sep data cs) = [32] \/
   slice data cs (skip_sep data cs) = [9]).
Proof.
  intros H. unfold skip_sep. case_if; bool_prop.
  - split; [lia|]. right. rewrite slice_one by lia.
    match goal with Hc : _ \/ _ |- _ => destruct Hc end; bool_prop; [left | right]; by f_equal.
  - split; [lia|]. left. apply slice_nil.
Qed.

Lemma skip_sep_newlines data cs : newlines (slice data cs (skip_sep data cs)) = 0.
Proof.
  unfold skip_sep. case_if; bool_prop; [|by rewrite slice_nil].
  rewrite slice_one by done.
  match goal with Hc : _ \/ _ |- _ => destruct Hc end; bool_prop;
    match goal with Hc : cget _ _ = _ |- _ => by rewrite Hc end.
Qed.

Lemma trim_end_newlines data cs ce :
  (cs <= ce <= length data)%nat ->
  newlines (slice data cs ce) = newlines (slice data cs (trim_end data cs ce)) + newlines (slice data (trim_end data cs ce) ce).
Proof.
  intros H. destruct (trim_end_spec data cs ce H) as [H1 _].
  by rewrite (slice_app data cs (trim_end data cs ce) ce), newlines_app by lia.
Qed.

Section ParseFacts.
Context (realloc_ok malloc_ok : nat -> bool).

(** A parsed turn is the piece of the file up to the next turn. *)
Lemma parse_turn_spec data pos line count t next next_line :
  parse_turn realloc_ok malloc_ok data pos line count = inr (t, next, next_line) ->
  (pos < next <= length data)%nat /\ turn_text t (slice data pos next) /\
  t_role t = expected_role count /\
  ((next < length data)%nat -> next_line = line + newlines (slice data pos next)).
Proof.
  unfold parse_turn. destruct (prefix_marker_at data pos) as [[role n]|] eqn:Em; [|done].
  apply prefix_marker_spec in Em as (-> & Em & Hlen).
  case_bool_decide as Hrole; [|done]. cbn [negb].
  destruct (skip_sep_spec data (pos + length (marker_of role)) Hlen) as [Hs Hsep].
  pose proof (skip_sep_newlines data (pos + length (marker_of role))) as Hsn.
  set (cs := skip_sep data (pos + length (marker_of role))) in *.
  pose proof (scan_next_spec (length data - cs) data cs line eq_refl) as Hsc.
  assert (Hnl : newlines (slice data pos cs) = 0).
  { rewrite (slice_app data pos (pos + length (marker_of role))), newlines_app, Em, Hsn by lia.
    by destruct role. }
  assert (Hgen : forall nx nl, (cs <= nx <= length data)%nat ->
    ((nx < length data)%nat -> nl = line + newlines (slice data cs nx)) ->
    (if (trim_end data cs nx =? cs)%nat then inl (EEmptyTurn line role)
     else if Z.of_nat count =? U64_MAX / turn_size then inl ETooMany
     else if negb (realloc_ok count) then inl ENoMemory
     else if negb (malloc_ok count) then inl ENoMemory
     else inr (Turn role (slice data cs (trim_end data cs nx)), nx, nl)) = inr (t, next, next_line) ->
    (pos < next <= length data)%nat /\ turn_text t (slice data pos next) /\
    t_role t = expected_role count /\
    ((next < length data)%nat -> next_line = line + newlines (slice data pos next))).
  { intros nx nl Hnx Hline. destruct (trim_end_spec data cs nx Hnx) as [Ht Hterm].
    set (ce := trim_end data cs nx) in *.
    destruct (Nat.eqb_spec ce cs); [done|]. repeat (case_if; [done|]). intros [= <- <- <-].
    assert (0 < length (marker_of role))%nat by (destruct role; cbn; lia).
    split_and!; [lia | lia | | done |].
    - split; cbn [t_content t_role].
      + intros Hc. apply (f_equal length) in Hc. rewrite slice_length in Hc by lia. cbn in Hc. lia.
      + exists (slice data (pos + length (marker_of role)) cs), (slice data ce nx).
        split_and!; [done | done |]. rewrite <- Em at 1.
        by rewrite <- !slice_app by lia.
    - intros Hlt. rewrite (slice_app data pos cs nx), newlines_app, Hnl by lia. rewrite Hline by lia. lia. }
  destruct (scan_next (length data - cs) data cs line) as [[nx nl]|]; intros Heq.
  - destruct Hsc as (H1 & _ & _ & H4 & _). eapply (Hgen nx nl); [lia | done | exact Heq].
  - eapply (Hgen (length data) line); [lia | lia | exact Heq].
Qed.

(** The loop collects the pieces of the rest of the file, alternating roles. *)
Definition alternating (from : nat) (ts : list ds4_prompt_prefix_turn) : Prop :=
  forall i t, ts !! i = Some t -> t_role t = expected_role (from + i).

Lemma parse_loop_spec fuel : forall data pos line turns r,
  (pos <= length data)%nat ->
  parse_loop realloc_ok malloc_ok fuel data pos line turns = Some (inr r) ->
  exists ts pieces, r = turns ++ ts /\ drop pos data = concat pieces /\
    Forall2 turn_text ts pieces /\ alternating (length turns) ts.
Proof.
  induction fuel as [|fuel IH]; intros data pos line turns r Hpos; cbn [parse_loop];
    (destruct (Nat.leb_spec (length data) pos) as [Hle|Hlt]; [|try done]).
  1,2: intros [= <-]; exists [], []; rewrite app_nil_r, drop_ge by done;
    split_and!; [done | done | apply Forall2_nil_2 | by intros ? ? ?].
  destruct (parse_turn realloc_ok malloc_ok data pos line (length turns)) as [e|[[t next] nl]] eqn:Ep; [done|].
  apply parse_turn_spec in Ep as (H1 & H2 & H3 & _). intros H.
  apply IH in H as (ts & pieces & -> & Hd & Hf & Ha); [|lia].
  exists (t :: ts), (slice data pos next :: pieces). split_and!.
  - by rewrite <- app_assoc.
  - cbn [concat]. rewrite <- Hd. apply slice_drop. lia.
  - by constructor.
  - intros [|i] t' Hi; cbn in Hi; [injection Hi as <-; by rewrite Nat.add_0_r|].
    apply Ha in Hi. rewrite Hi, length_app. f_equal. cbn. lia.
Qed.

(** Every iteration advances: the length of the file is enough fuel. *)
Lemma parse_loop_total fuel : forall data pos line turns,
  (length data - pos <= fuel)%nat ->
  exists r, parse_loop realloc_ok malloc_ok fuel data pos line turns = Some r.
Proof.
  induction fuel as [|fuel IH]; intros data pos line turns Hf; cbn [parse_loop];
    (destruct (Nat.leb_spec (length data) pos); [by eexists | try lia]).
  destruct (parse_turn realloc_ok malloc_ok data pos line (length turns)) as [e|[[t next] nl]] eqn:Ep;
    [by eexists|].
  apply parse_turn_spec in Ep as (H1 & _). apply IH. lia.
Qed.
End ParseFacts.

(** ** Writing turns and reading them back *)

Definition render_turn (t : ds4_prompt_prefix_turn) : bytes :=
  marker_of (t_role t) ++ [32] ++ t_content t ++ [10].

Definition render (ts : list ds4_prompt_prefix_turn) : bytes := concat (render_turn <$> ts).

(** Content that the line format can carry. *)
Record clean_content (c : bytes) : Prop := {
  cc_nonempty : c <> [];
  cc_nul : existsb (fun b => b =? 0) c = false;
  cc_cr : cget c (length c - 1) <> 13;
  cc_marker : forall j, cget c j = 10 -> is_marker c (S j) = false
}.

(** A marker has no newline, so it is decided before the next one. *)
Lemma starts_with_stop m x y :
  Forall (fun c => c <> 10) m -> starts_with m (x ++ 10 :: y) = starts_with m x.
Proof.
  intros Hm. revert x. induction Hm as [|c m Hc Hm IH]; intros x; [by destruct x|].
  destruct x as [|d x]; cbn [app starts_with].
  - by rewrite (proj2 (Z.eqb_neq c 10)) by done.
  - by rewrite IH.
Qed.

Lemma is_marker_stop pre c y j :
  (j <= length c)%nat -> is_marker (pre ++ c ++ 10 :: y) (length pre + j) = is_marker c j.
Proof.
  intros Hj. unfold is_marker, prefix_marker_at.
  assert (Hd : drop (length pre + j) (pre ++ c ++ 10 :: y) = drop j c ++ 10 :: y).
  { rewrite <- drop_drop, drop_app_length. by rewrite drop_app_le by done. }
  rewrite Hd. rewrite !starts_with_stop by (by apply (bool_decide_unpack _)).
  by repeat case_if.
Qed.

Lemma marker_found r rest pre :
  prefix_marker_at (pre ++ marker_of r ++ rest) (length pre) = Some (r, length (marker_of r)).
Proof.
  unfold prefix_marker_at. rewrite drop_app_length. destruct r; cbn [marker_of].
  - by rewrite starts_with_app.
  - by rewrite starts_with_app.
Qed.

(** *** A content line in a file: after [p], before [rest] *)
Section ContentLine.
Context (p c rest : bytes) (Hc : clean_content c).

#[local] Abbreviation data := (p ++ c ++ 10 :: rest).

Lemma content_get j : cget data (length p + j) = cget (c ++ 10 :: rest) j.
Proof. unfold cget. rewrite app_nth2 by lia. f_equal. lia. Qed.

Lemma content_trim : trim_end data (length p) (length p + length c + 1) = (length p + length c)%nat.
Proof.
  destruct Hc as [Hne _ Hcr _]. assert (0 < length c)%nat by (destruct c; [done | cbn; lia]).
  unfold trim_end. replace (length p + length c + 1 - 1)%nat with (length p + length c)%nat by lia.
  rewrite content_get. unfold cget at 1. rewrite app_nth2, Nat.sub_diag by lia. cbn [nth].
  destruct (Nat.ltb_spec (length p) (length p + length c + 1)); [|lia]. cbn [andb Z.eqb Pos.eqb].
  replace (length p + length c - 1)%nat with (length p + (length c - 1))%nat by lia.
  rewrite content_get. unfold cget. rewrite app_nth1 by lia. fold (cget c (length c - 1)).
  by rewrite (proj2 (Z.eqb_neq _ _) Hcr), andb_false_r.
Qed.

Lemma content_slice : slice data (length p) (length p + length c) = c.
Proof.
  unfold prefix_copy_content. rewrite drop_app_length.
  replace (length p + length c - length p)%nat with (length c) by lia. by rewrite take_app_length.
Qed.

(** The next marker line starts right after the content's newline. *)
Lemma content_next line : (rest = [] \/ exists r rest', rest = marker_of r ++ rest') ->
  exists nl, match scan_next (length data - length p) data (length p) line with
             | Some r => r | None => (length data, line) end = ((length p + length c + 1)%nat, nl).
Proof.
  intros Hrest. destruct Hc as [_ _ _ Hmk].
  assert (Hlen : length data = (length p + length c + 1 + length rest)%nat)
    by (rewrite !length_app; cbn [length]; lia).
  pose proof (scan_next_spec (length data - length p) data (length p) line eq_refl) as Hs.
  assert (Hrm : rest <> [] -> is_marker data (S (length p + length c)) = true).
  { intros Hr. destruct Hrest as [?|(r & rest' & Er)]; [done|].
    replace data with ((p ++ c ++ [10]) ++ marker_of r ++ rest') by (rewrite Er, <- !app_assoc; done).
    replace (S (length p + length c)) with (length (p ++ c ++ [10])) by (rewrite !length_app; cbn; lia).
    unfold is_marker. by rewrite marker_found. }
  destruct (scan_next (length data - length p) data (length p) line) as [[n l]|].
  - destruct Hs as (H1 & H2 & H3 & _ & H5). exists l. f_equal.
    destruct (Nat.lt_trichotomy n (length p + length c + 1)) as [Hlt|[?|Hgt]]; [|done|].
    + assert (Hn : is_marker data (length p + (n - length p)) = is_marker c (n - length p))
        by (apply is_marker_stop; lia).
      replace (length p + (n - length p))%nat with n in Hn by lia.
      rewrite H3 in Hn. replace (n - length p)%nat with (S (n - 1 - length p)) in Hn by lia.
      rewrite Hmk in Hn; [done|].
      replace (n - 1)%nat with (length p + (n - 1 - length p))%nat in H2 by lia. rewrite content_get in H2.
      unfold cget in *. by rewrite app_nth1 in H2 by lia.
    + assert (Hr : rest <> []) by (intros E; apply (f_equal length) in E; cbn in E; lia).
      rewrite (H5 (length p + length c)%nat) in Hrm; [by apply Hrm in Hr | lia | lia |].
      rewrite content_get. unfold cget. by rewrite app_nth2, Nat.sub_diag by lia.
  - destruct (decide (rest = [])) as [E|Hr].
    { exists line. f_equal. apply (f_equal length) in E. cbn in E. lia. }
    assert (0 < length rest)%nat by (destruct rest; [done | cbn; lia]).
    specialize (Hrm Hr). rewrite Hs in Hrm; [done | lia | lia |].
    rewrite content_get. unfold cget. by rewrite app_nth2, Nat.sub_diag by lia.
Qed.
End ContentLine.

Section RenderFacts.
Context (realloc_ok malloc_ok : nat -> bool).
Context (Hre : forall n, realloc_ok n = true) (Hma : forall n, malloc_ok n = true).

Lemma parse_turn_render pre t rest line count :
  clean_content (t_content t) -> t_role t = expected_role count ->
  Z.of_nat count < U64_MAX / turn_size ->
  (rest = [] \/ exists r rest', rest = marker_of r ++ rest') ->
  exists nl, parse_turn realloc_ok malloc_ok (pre ++ render_turn t ++ rest) (length pre) line count =
    inr (t, (length pre + length (render_turn t))%nat, nl).
Proof.
  intros Hc Hrole Hcount Hrest. unfold parse_turn.
  destruct t as [role c]. cbn [t_role t_content] in *. unfold render_turn. cbn [t_role t_content].
  set (M := marker_of role). set (p2 := pre ++ M ++ [32]).
  assert (Hd : pre ++ (M ++ [32] ++ c ++ [10]) ++ rest = p2 ++ c ++ 10 :: rest)
    by (unfold p2; by rewrite <- !app_assoc).
  assert (Hmark : prefix_marker_at (p2 ++ c ++ 10 :: rest) (length pre) = Some (role, length M)).
  { unfold p2. rewrite <- !app_assoc. apply marker_found. }
  rewrite Hd, Hmark, bool_decide_eq_true_2 by done. cbn [negb].
  set (P := (length pre + length M)%nat).
  assert (Hp2 : length p2 = S P) by (unfold p2, P; rewrite !length_app; cbn; lia).
  assert (Hc0 : (0 < length c)%nat) by (destruct c; [by destruct Hc | cbn; lia]).
  assert (Hcs : skip_sep (p2 ++ c ++ 10 :: rest) P = length p2).
  { unfold skip_sep. assert (cget (p2 ++ c ++ 10 :: rest) P = 32) as ->.
    { unfold cget. rewrite app_nth1 by lia. unfold p2. rewrite app_assoc, app_nth2 by (rewrite length_app; unfold P; lia).
      rewrite length_app. by replace (P - (length pre + length M))%nat with 0%nat by (unfold P; lia). }
    destruct (Nat.ltb_spec P (length (p2 ++ c ++ 10 :: rest))) as [_|H]; [done|].
    rewrite length_app in H. lia. }
  rewrite Hcs. cbv zeta. destruct (content_next p2 c rest Hc line Hrest) as [nl Hnext].
  exists nl. rewrite Hnext, content_trim, content_slice by done.
  destruct (Nat.eqb_spec (length p2 + length c) (length p2)); [lia|].
  destruct (Z.eqb_spec (Z.of_nat count) (U64_MAX / turn_size)); [lia|].
  assert (Hend : (length pre + length (M ++ [32%Z] ++ c ++ [10%Z]))%nat = (length p2 + length c + 1)%nat)
    by (rewrite Hp2; unfold P; rewrite !length_app; cbn; lia).
  by rewrite Hre, Hma, Hend.
Qed.

Lemma render_rest ts : render ts = [] \/ exists r rest', render ts = marker_of r ++ rest'.
Proof.
  destruct ts as [|t ts]; [by left|]. right. exists (t_role t), ([32] ++ (t_content t ++ [10]) ++ render ts).
  unfold render, render_turn. cbn [fmap list_fmap concat]. by rewrite <- !app_assoc.
Qed.

Lemma parse_loop_render ts : forall fuel pre line turns,
  (length (render ts) <= fuel)%nat ->
  Forall (fun t => clean_content (t_content t)) ts -> alternating (length turns) ts ->
  Z.of_nat (length turns + length ts) <= U64_MAX / turn_size ->
  parse_loop realloc_ok malloc_ok fuel (pre ++ render ts) (length pre) line turns = Some (inr (turns ++ ts)).
Proof.
  induction ts as [|t ts IH]; intros fuel pre line turns Hf Hc Ha Hn.
  { rewrite app_nil_r. destruct fuel; cbn [parse_loop]; unfold render; cbn; rewrite !app_nil_r;
      by rewrite Nat.leb_refl. }
  apply Forall_cons in Hc as [Hct Hc]. cbn [length] in Hn.
  assert (Hr : render (t :: ts) = render_turn t ++ render ts) by done.
  assert (Hl : (0 < length (render_turn t))%nat) by (unfold render_turn; rewrite !length_app; cbn; lia).
  rewrite Hr, length_app in *. destruct fuel as [|fuel]; [lia|]. cbn [parse_loop].
  destruct (Nat.leb_spec (length (pre ++ render_turn t ++ render ts)) (length pre));
    [rewrite !length_app in *; lia|].
  destruct (parse_turn_render pre t (render ts) line (length turns)) as [nl Hp]; [done | | lia | apply render_rest |].
  { specialize (Ha 0%nat t eq_refl). by rewrite Nat.add_0_r in Ha. }
  rewrite Hp. rewrite app_assoc, <- length_app. rewrite IH; [by rewrite <- app_assoc | lia | done | | ].
  - intros i t' Hi. rewrite length_app. cbn [length]. rewrite <- Nat.add_assoc. by apply (Ha (S i)).
  - rewrite length_app. cbn [length]. lia.
Qed.
End RenderFacts.

Lemma render_no_nul ts :
  Forall (fun t => clean_content (t_content t)) ts -> existsb (fun c => c =? 0) (render ts) = false.
Proof.
  induction 1 as [|t ts Ht Hts IH]; [done|].
  change (render (t :: ts)) with (render_turn t ++ render ts). rewrite existsb_app, IH, orb_false_r.
  unfold render_turn. rewrite !existsb_app, (cc_nul _ Ht). by destruct (t_role t).
Qed.

(** ** Properties *)

(** the parser terminates on every file, whatever the allocator does, with
    turns or with an error. *)
Theorem prefix_parse_total (realloc_ok malloc_ok : nat -> bool) (have_out : bool) (data : option bytes) :
  exists r, ds4_prompt_prefix_parse realloc_ok malloc_ok have_out data = Some r.
Proof.
  unfold ds4_prompt_prefix_parse. destruct have_out; cbn [negb]; [|by eexists].
  destruct data as [[|c data]|]; [by eexists | | by eexists].
  destruct (existsb _ _); [by eexists|].
  destruct (parse_loop_total realloc_ok malloc_ok (length (c :: data)) (c :: data)
    (if starts_with bom (c :: data) then 3%nat else 0%nat) 1 []) as [r Hr]; [case_if; lia|].
  cbv zeta. rewrite Hr.
  destruct r as [e|ts]; [by eexists|]. destruct (last ts) as [t|]; [|by eexists].
  case_bool_decide; by eexists.
Qed.

(** an accepted file is a byte-order mark or nothing followed by the texts
    of the turns, none of it lost; the turns are nonempty, have no NUL byte,
    alternate from a user turn, and end with an assistant turn. *)
Theorem prefix_accepts_turns (realloc_ok malloc_ok : nat -> bool) (data : bytes)
    (ts : list ds4_prompt_prefix_turn)
    (H : ds4_prompt_prefix_parse realloc_ok malloc_ok true (Some data) = Some (inr ts)) :
  (exists pieces, (data = concat pieces \/ data = bom ++ concat pieces) /\ Forall2 turn_text ts pieces) /\
  existsb (fun c => c =? 0) data = false /\ alternating 0 ts /\
  exists t, last ts = Some t /\ t_role t = DS4_PROMPT_PREFIX_ASSISTANT.
Proof.
  unfold ds4_prompt_prefix_parse in H. cbn [negb] in H. destruct data as [|c0 data0]; [done|].
  set (data := c0 :: data0) in *. destruct (existsb _ data) eqn:En; [done|]. cbv zeta in H.
  set (pos := if starts_with bom data then 3%nat else 0%nat) in *.
  destruct (parse_loop _ _ _ data pos 1 []) as [[e|r]|] eqn:Ep; [done | | done].
  assert (Hpos : (pos <= length data)%nat).
  { unfold pos. destruct (starts_with bom data) eqn:Eb; [|lia]. by apply starts_with_length in Eb. }
  apply parse_loop_spec in Ep as (ts' & pieces & -> & Hd & Hf & Ha); [|done]. cbn [app] in *.
  destruct (last ts') as [t|] eqn:El; [|done]. case_bool_decide as Hr; [|done]. injection H as <-.
  split_and!; [|done | done | by exists t].
  exists pieces. split; [|done]. unfold pos in Hd. destruct (starts_with bom data) eqn:Eb.
  - right. rewrite <- Hd, <- (starts_with_take _ _ Eb) at 1. by rewrite take_drop.
  - by left.
Qed.

Lemma prefix_accepts_turns_witness :
  let data := bom ++ bs "USER: hi" ++ [13; 10] ++ bs "ASSISTANT:yes" in
  let ts := [Turn DS4_PROMPT_PREFIX_USER (bs "hi"); Turn DS4_PROMPT_PREFIX_ASSISTANT (bs "yes")] in
  ds4_prompt_prefix_parse (fun _ => true) (fun _ => true) true (Some data) = Some (inr ts) /\
  alternating 0 ts.
Proof.
  split; [vm_compute; reflexivity|].
  eapply (prefix_accepts_turns (fun _ => true) (fun _ => true)
    (bom ++ bs "USER: hi" ++ [13; 10] ++ bs "ASSISTANT:yes")).
  vm_compute. reflexivity.
Defined.

(** turns written one after the other, alternating and with contents the
    format can carry, are read back exactly, with or without a byte-order
    mark. *)
Theorem prefix_roundtrip (realloc_ok malloc_ok : nat -> bool) (ts : list ds4_prompt_prefix_turn)
    (with_bom : bool)
    (Hre : forall n, realloc_ok n = true) (Hma : forall n, malloc_ok n = true)
    (Hc : Forall (fun t => clean_content (t_content t)) ts) (Ha : alternating 0 ts)
    (Hlast : t_role <$> last ts = Some DS4_PROMPT_PREFIX_ASSISTANT)
    (Hn : Z.of_nat (length ts) <= U64_MAX / turn_size) :
  ds4_prompt_prefix_parse realloc_ok malloc_ok true
    (Some ((if with_bom then bom else []) ++ render ts)) = Some (inr ts).
Proof.
  destruct (last ts) as [tl|] eqn:El; [|done]. cbn in Hlast. injection Hlast as Hlast.
  assert (Hne : exists r rest', render ts = marker_of r ++ rest').
  { destruct (render_rest ts) as [Hr|?]; [|done]. destruct ts as [|t ts]; [done|].
    change (render (t :: ts)) with (render_turn t ++ render ts) in Hr.
    apply app_eq_nil in Hr as [Hr _]. unfold render_turn in Hr. by destruct (t_role t). }
  unfold ds4_prompt_prefix_parse. cbn [negb].
  set (pre := if with_bom then bom else []).
  assert (Hnul : existsb (fun c => c =? 0) (pre ++ render ts) = false).
  { rewrite existsb_app, render_no_nul by done. by destruct with_bom. }
  assert (Hpos : (if starts_with bom (pre ++ render ts) then 3%nat else 0%nat) = length pre).
  { unfold pre. destruct with_bom; [by rewrite starts_with_app|]. cbn [app].
    destruct Hne as (r & rest' & ->). by destruct r. }
  pose proof (parse_loop_render realloc_ok malloc_ok Hre Hma ts (length (pre ++ render ts)) pre 1 []) as Hp.
  cbn [length app Nat.add] in Hp. rewrite length_app in Hp. specialize (Hp ltac:(lia) Hc Ha Hn).
  destruct (pre ++ render ts) as [|c0 d0] eqn:Ed.
  { apply app_eq_nil in Ed as [_ Ed]. destruct Hne as (r & rest' & Hr). rewrite Hr in Ed. by destruct r. }
  rewrite <- Ed in *. rewrite Hnul. cbv zeta. rewrite Hpos, length_app, Hp, El.
  by rewrite bool_decide_eq_true_2.
Qed.

Definition example_turns : list ds4_prompt_prefix_turn :=
  [Turn DS4_PROMPT_PREFIX_USER (bs "a" ++ [10] ++ bs "b"); Turn DS4_PROMPT_PREFIX_ASSISTANT (bs " ok")].

Lemma prefix_roundtrip_witness :
  alternating 0 example_turns /\
  ds4_prompt_prefix_parse (fun _ => true) (fun _ => true) true (Some (bom ++ render example_turns)) =
    Some (inr example_turns).
Proof.
  assert (Ha : alternating 0 example_turns) by (intros [|[|i]] t Hi; [by injection Hi as <-..|done]).
  split; [exact Ha|].
  refine (prefix_roundtrip (fun _ => true) (fun _ => true) example_turns true _ _ _ Ha _ _); try done.
  repeat apply Forall_cons_2; [| |constructor].
  all: constructor; [done | done | by vm_compute |].
  all: intros j Hj; destruct j as [|[|[|j]]]; try (vm_compute; reflexivity); vm_compute in Hj.
  all: try discriminate Hj; by destruct j.
Defined.

Lemma append_turn_user `{ChatEngine} tokens c :
  append_turn tokens (Turn DS4_PROMPT_PREFIX_USER c) = chat_append_message tokens (bs "user") c.
Proof. done. Qed.

Lemma append_turn_assistant `{ChatEngine} tokens c :
  append_turn tokens (Turn DS4_PROMPT_PREFIX_ASSISTANT c) =
  chat_append_message tokens (bs "assistant") c ++ (if engine_is_glm_dsa then [] else [token_eos]).
Proof. unfold append_turn. cbn. destruct engine_is_glm_dsa; cbn; [by rewrite app_nil_r | done]. Qed.

(** appending a prefix adds its turns in order, each through the engine's
    chat template under its role; an end-of-sequence token follows exactly the
    assistant turns of engines other than GLM. *)
Theorem prefix_append_turns `{ChatEngine} (tokens : list Z) (ts1 ts2 : list ds4_prompt_prefix_turn)
    (c : bytes) :
  ds4_prompt_prefix_append tokens (Some (ts1 ++ [Turn DS4_PROMPT_PREFIX_USER c] ++ ts2)) =
    ds4_prompt_prefix_append
      (chat_append_message (ds4_prompt_prefix_append tokens (Some ts1)) (bs "user") c) (Some ts2) /\
  ds4_prompt_prefix_append tokens (Some (ts1 ++ [Turn DS4_PROMPT_PREFIX_ASSISTANT c] ++ ts2)) =
    ds4_prompt_prefix_append
      (chat_append_message (ds4_prompt_prefix_append tokens (Some ts1)) (bs "assistant") c ++
       (if engine_is_glm_dsa then [] else [token_eos])) (Some ts2).
Proof.
  unfold ds4_prompt_prefix_append. rewrite !foldl_app. cbn [foldl].
  by rewrite append_turn_user, append_turn_assistant.
Qed.
