(* ===== verification/Libc.v ===== *)
(** The C library's number parsing: [strtol], [strtoul], [strtoull] in base 10
    and [strtod],
    on an LP64 platform, the digits they read, and the fact that they invert
    decimal printing. *)

From Stdlib Require Import Floats.SpecFloat.
From S2P Require Import Prelude Float64.

#[local] Open Scope Z_scope.

(** Leading digits of a string and what follows. *)
Fixpoint span_digits (s : bytes) : bytes * bytes :=
  match s with
  | c :: s' => if isdigit c then let '(d, r) := span_digits s' in (c :: d, r) else ([], s)
  | [] => ([], [])
  end.

Definition dec_val (ds : bytes) : Z := foldl (fun v c => v * 10 + (c - 48)) 0 ds.

Fixpoint skip_space (s : bytes) : bytes :=
  match s with
  | c :: s' => if isspace c then skip_space s' else s
  | [] => []
  end.

(** Sign, digits and rest; no digits means no conversion. *)
Definition scan_int (s : bytes) : option (bool * Z * bytes) :=
  let s := skip_space s in
  let '(neg, s) := if cget s 0 =? 45 then (true, drop 1 s)
                   else if cget s 0 =? 43 then (false, drop 1 s) else (false, s) in
  match span_digits s with
  | ([], _) => None
  | (ds, rest) => Some (neg, dec_val ds, rest)
  end.

(** Value, rest and whether [errno] is [ERANGE]; [None] leaves [end == p]. *)
Definition strtol (s : bytes) : option (Z * bytes * bool) :=
  match scan_int s with
  | None => None
  | Some (neg, v, rest) =>
      let v := if neg then - v else v in
      if v <? - INT64_MAX - 1 then Some (- INT64_MAX - 1, rest, true)
      else if INT64_MAX <? v then Some (INT64_MAX, rest, true)
      else Some (v, rest, false)
  end.

Definition strtoull (s : bytes) : option (Z * bytes * bool) :=
  match scan_int s with
  | None => None
  | Some (neg, v, rest) =>
      if U64_MAX <? v then Some (U64_MAX, rest, true)
      else Some (if neg then u64 (- v) else v, rest, false)
  end.

(** [strtoul] with 64-bit [long]. *)
Definition strtoul : bytes -> option (Z * bytes * bool) := strtoull.

(** ** [strtod] in the C locale, rounding to nearest *)

Fixpoint span (p : Z -> bool) (s : bytes) : bytes * bytes :=
  match s with
  | c :: s' => if p c then let '(d, r) := span p s' in (c :: d, r) else ([], s)
  | [] => ([], [])
  end.

(** [strncasecmp(s, p, |p|) == 0] for a lower-case [p]. *)
Fixpoint ci_prefix (p s : bytes) : bool :=
  match p, s with
  | [], _ => true
  | _ :: _, [] => false
  | a :: p', c :: s' => (tolower c =? a) && ci_prefix p' s'
  end.

Definition hex_digit (c : Z) : Z := if isdigit c then c - 48 else tolower c - 87.

Definition base_val (base : Z) (ds : bytes) : Z := foldl (fun v c => v * base + hex_digit c) 0 ds.

(** Digits with an optional point among them: the digits, how many follow the
    point, and the rest. *)
Definition mantissa (isd : Z -> bool) (s : bytes) : option (bytes * nat * bytes) :=
  let '(d1, r1) := span isd s in
  let '(d2, r2) := if cget r1 0 =? 46 then span isd (drop 1 r1) else ([], r1) in
  match d1 ++ d2 with [] => None | ds => Some (ds, length d2, r2) end.

(** An exponent needs a digit, else it is not part of the number. *)
Definition exponent (letter : Z) (s : bytes) : Z * bytes :=
  if tolower (cget s 0) =? letter then
    let r := drop 1 s in
    let '(neg, r1) := if cget r 0 =? 45 then (true, drop 1 r)
                      else if cget r 0 =? 43 then (false, drop 1 r) else (false, r) in
    match span isdigit r1 with
    | ([], _) => (0, s)
    | (ds, r2) => (if neg then - dec_val ds else dec_val ds, r2)
    end
  else (0, s).

(** [m * base^e] *)
Definition scale (m base e : Z) : spec_float :=
  if 0 <=? e then F64.of_ratio (m * base ^ e) 1 else F64.of_ratio m (base ^ (- e)).

Definition strtod_dec (s : bytes) : option (spec_float * bytes) :=
  match mantissa isdigit s with
  | None => None
  | Some (ds, frac, r) =>
      let '(e, r) := exponent 101 r in Some (scale (dec_val ds) 10 (e - Z.of_nat frac), r)
  end.

Definition word_char (c : Z) : bool := isdigit c || isupper c || islower c || (c =? 95).

(** What follows [nan]: a parenthesised word belongs to it. *)
Definition nan_tail (s : bytes) : bytes :=
  if cget s 0 =? 40 then
    let '(_, r) := span word_char (drop 1 s) in
    if cget r 0 =? 41 then drop 1 r else s
  else s.

Definition strtod_abs (s : bytes) : option (spec_float * bytes) :=
  if ci_prefix (bs "infinity") s then Some (S754_infinity false, drop 8 s)
  else if ci_prefix (bs "inf") s then Some (S754_infinity false, drop 3 s)
  else if ci_prefix (bs "nan") s then Some (S754_nan, nan_tail (drop 3 s))
  else if ci_prefix (bs "0x") s then
    match mantissa isxdigit (drop 2 s) with
    | None => strtod_dec s
    | Some (ds, frac, r) =>
        let '(e, r) := exponent 112 r in Some (scale (base_val 16 ds) 2 (e - 4 * Z.of_nat frac), r)
    end
  else strtod_dec s.

(** Value and rest; [None] leaves [end == p]. *)
Definition strtod (s : bytes) : option (spec_float * bytes) :=
  let s := skip_space s in
  let '(neg, s) := if cget s 0 =? 45 then (true, drop 1 s)
                   else if cget s 0 =? 43 then (false, drop 1 s) else (false, s) in
  match strtod_abs s with
  | None => None
  | Some (v, r) => Some (if neg then SFopp v else v, r)
  end.

Example strtod_dec_ok : strtod (bs " -12.5e-1,") = Some (F64.of_ratio (-5) 4, bs ",").
Proof. reflexivity. Qed.

Example strtod_max : strtod (bs "1.7976931348623157e308") = Some (f64_of_bits 0x7fefffffffffffff, []).
Proof. reflexivity. Qed.

Example strtod_hex : strtod (bs "0x1.8p1x") = Some (F64.of_Z 3, bs "x").
Proof. reflexivity. Qed.

Example strtod_bad_exp : strtod (bs "7e+]") = Some (F64.of_Z 7, bs "e+]").
Proof. reflexivity. Qed.

(** ** Facts *)

Abbreviation digits_ok := (Forall (fun c => isdigit c = true)).

Lemma span_digits_app ds rest :
  digits_ok ds -> isdigit (cget rest 0) = false -> span_digits (ds ++ rest) = (ds, rest).
Proof.
  intros Hd Hr. induction Hd as [|c ds Hc Hd IH]; cbn [app span_digits].
  - destruct rest as [|c rest]; [done|]. unfold cget in Hr. cbn [nth] in Hr. cbn [span_digits]. by rewrite Hr.
  - by rewrite Hc, IH.
Qed.

Lemma span_digits_spec s ds r :
  span_digits s = (ds, r) -> s = ds ++ r /\ digits_ok ds /\ isdigit (cget r 0) = false.
Proof.
  revert ds r. induction s as [|c s IH]; intros ds r; cbn [span_digits]; [by intros [= <- <-]|].
  destruct (isdigit c) eqn:E.
  - destruct (span_digits s) as [d r']. intros [= <- <-]. destruct (IH d r' eq_refl) as (-> & H1 & H2).
    split_and!; [done | by constructor | done].
  - intros [= <- <-]. split_and!; [done | constructor | done].
Qed.

Lemma dec_val_snoc ds c : dec_val (ds ++ [c]) = dec_val ds * 10 + (c - 48).
Proof. unfold dec_val. by rewrite foldl_app. Qed.

Lemma isdigit_val c : isdigit c = true <-> 48 <= c <= 57.
Proof. unfold isdigit. rewrite andb_true_iff, !Z.leb_le. lia. Qed.

Lemma dec_val_nonneg ds : digits_ok ds -> 0 <= dec_val ds.
Proof.
  induction ds as [|c ds IH] using rev_ind; intros H; [done|].
  apply Forall_app in H as [H Hc]. apply Forall_cons in Hc as [Hc _]. apply isdigit_val in Hc.
  rewrite dec_val_snoc. specialize (IH H). lia.
Qed.

Lemma dec_digits_spec fuel : forall n, 0 <= n < 10 ^ Z.of_nat fuel ->
  (0 < fuel)%nat ->
  dec_digits fuel n <> [] /\ digits_ok (dec_digits fuel n) /\ dec_val (dec_digits fuel n) = n.
Proof.
  induction fuel as [|fuel IH]; intros n Hn Hf; [lia|]. cbn [dec_digits].
  assert (Hm : isdigit (48 + n mod 10) = true) by (apply isdigit_val; zdiv).
  split_and!.
  - by destruct (if n <? 10 then _ else _).
  - apply Forall_app. split; [|by constructor]. destruct (Z.ltb_spec n 10); [constructor|].
    destruct fuel as [|fuel]; [cbn in Hn; lia|]. apply IH; [|lia].
    rewrite Nat2Z.inj_succ, Z.pow_succ_r in Hn by lia. zdiv.
  - rewrite dec_val_snoc. destruct (Z.ltb_spec n 10).
    + change (dec_val []) with 0. rewrite Z.mod_small by lia. lia.
    + destruct fuel as [|fuel]; [cbn in Hn; lia|].
      destruct (IH (n / 10)) as (_ & _ & ->); [|lia|zdiv].
      rewrite Nat2Z.inj_succ, Z.pow_succ_r in Hn by lia. zdiv.
Qed.

Lemma dec_print_spec n : is_u64 n ->
  dec_print n <> [] /\ digits_ok (dec_print n) /\ dec_val (dec_print n) = n.
Proof. unfold is_u64, U64_MAX. intros H. apply dec_digits_spec; [cbn; lia | lia]. Qed.

Lemma digit_not_special c : isdigit c = true -> isspace c = false /\ (c =? 45) = false /\ (c =? 43) = false.
Proof.
  intros H%isdigit_val. unfold isspace. split_and!; [|lia|lia].
  rewrite orb_false_iff, Z.eqb_neq, andb_false_iff, !Z.leb_gt. lia.
Qed.

(** Digits, then something else: the conversion reads the digits. *)
Lemma scan_int_digits ds rest :
  ds <> [] -> digits_ok ds -> isdigit (cget rest 0) = false ->
  scan_int (ds ++ rest) = Some (false, dec_val ds, rest).
Proof.
  intros Hne Hd Hr. destruct ds as [|c ds]; [done|]. pose proof Hd as Hd'. apply Forall_cons in Hd' as [Hc _].
  destruct (digit_not_special c Hc) as (H1 & H2 & H3).
  unfold scan_int. cbn [app skip_space]. rewrite H1. cbn [cget nth]. unfold cget. cbn [nth]. rewrite H2, H3.
  change (c :: ds ++ rest) with ((c :: ds) ++ rest). by rewrite span_digits_app.
Qed.

(** A conversion consumes at least one character. *)
Lemma scan_int_shorter s neg v rest : scan_int s = Some (neg, v, rest) ->
  (length rest < length s)%nat /\ 0 <= v.
Proof.
  unfold scan_int. intros H.
  assert (Hs : (length (skip_space s) <= length s)%nat).
  { clear. induction s as [|c s IH]; cbn [skip_space]; [done|]. case_if; cbn [length]; lia. }
  set (s1 := skip_space s) in *.
  destruct (if cget s1 0 =? 45 then _ else _) as [ng s2] eqn:E2.
  assert (Hs2 : (length s2 <= length s1)%nat).
  { case_if_in E2; [injection E2 as <- <-; rewrite length_drop; lia|].
    case_if_in E2; injection E2 as <- <-; rewrite ?length_drop; lia. }
  destruct (span_digits s2) as [ds r] eqn:Ed. apply span_digits_spec in Ed as (-> & Hd & _).
  destruct ds as [|d ds]; [done|]. injection H as <- <- <-.
  rewrite length_app in Hs2. cbn [length] in Hs2. split; [lia | by apply dec_val_nonneg].
Qed.

Lemma strtol_digits ds rest :
  ds <> [] -> digits_ok ds -> isdigit (cget rest 0) = false -> dec_val ds <= INT64_MAX ->
  strtol (ds ++ rest) = Some (dec_val ds, rest, false).
Proof.
  intros H1 H2 H3 H4. unfold strtol. rewrite scan_int_digits by done.
  pose proof (dec_val_nonneg ds H2). unfold INT64_MAX in *.
  repeat case_if; bool_prop; lia || done.
Qed.

Lemma strtoull_digits ds rest :
  ds <> [] -> digits_ok ds -> isdigit (cget rest 0) = false -> dec_val ds <= U64_MAX ->
  strtoull (ds ++ rest) = Some (dec_val ds, rest, false).
Proof.
  intros H1 H2 H3 H4. unfold strtoull. rewrite scan_int_digits by done.
  case_if; bool_prop; [lia | done].
Qed.

Lemma strtoull_spec s v rest er : strtoull s = Some (v, rest, er) ->
  is_u64 v /\ (length rest < length s)%nat.
Proof.
  unfold strtoull. destruct (scan_int s) as [[[neg w] r]|] eqn:E; [|done].
  apply scan_int_shorter in E as [Hl Hw]. case_if; bool_prop; intros [= <- <- <-].
  - split; [unfold is_u64, U64_MAX; lia | done].
  - split; [|done]. destruct neg; [apply u64_range | unfold is_u64; lia].
Qed.

(** ** What [strtod] reads *)

(** A rest that no number extends into. *)
Definition ends_number (r : bytes) : bool :=
  let c := cget r 0 in
  negb (isdigit c || isupper c || islower c || (c =? 46) || (c =? 40)).

(** The characters of what [strtod] reads. *)
Definition plain_char (c : Z) : bool :=
  isdigit c || isupper c || islower c || (c =? 46) || (c =? 43) || (c =? 45) || (c =? 40) || (c =? 41) || (c =? 95).

Abbreviation plain := (Forall (fun c => plain_char c = true)).

Section Strtod.
Lemma plain_not_space c : plain_char c = true -> isspace c = false /\ c <> 34.
Proof.
  unfold plain_char, isspace, isdigit, isupper, islower.
  rewrite !orb_true_iff, !andb_true_iff, !Z.leb_le, !Z.eqb_eq, orb_false_iff, andb_false_iff, Z.eqb_neq, !Z.leb_gt. lia.
Qed.

Lemma plain_lower c a : 97 <= a <= 122 -> tolower c = a -> plain_char c = true.
Proof.
  intros Ha. unfold tolower, plain_char, isdigit, isupper, islower.
  destruct ((65 <=? c) && (c <=? 90)) eqn:E; [by rewrite orb_true_r|]. intros ->.
  assert ((97 <=? a) && (a <=? 122) = true) as ->; [|by rewrite !orb_true_r].
  apply andb_true_iff. rewrite !Z.leb_le. lia.
Qed.

Lemma plain_xdigit c : isxdigit c = true -> plain_char c = true.
Proof.
  unfold isxdigit, plain_char, isdigit, isupper, islower. rewrite !orb_true_iff, !andb_true_iff, !Z.leb_le. lia.
Qed.

Lemma plain_word c : word_char c = true -> plain_char c = true.
Proof. unfold word_char, plain_char. rewrite !orb_true_iff. tauto. Qed.

Lemma plain_digit c : isdigit c = true -> plain_char c = true.
Proof. unfold plain_char. by intros ->. Qed.

Lemma span_app p ds rest : Forall (fun c => p c = true) ds -> p (cget rest 0) = false ->
  span p (ds ++ rest) = (ds, rest).
Proof.
  intros Hd Hr. induction Hd as [|c ds Hc Hd IH]; cbn [app span]; [|by rewrite Hc, IH].
  destruct rest as [|c rest]; [done|]. cbn [span]. unfold cget in Hr. cbn in Hr. by rewrite Hr.
Qed.

Lemma span_spec p s ds r : span p s = (ds, r) -> s = ds ++ r /\ Forall (fun c => p c = true) ds.
Proof.
  revert ds r. induction s as [|c s IH]; intros ds r; cbn [span]; [by intros [= <- <-]|].
  destruct (p c) eqn:E; [|by intros [= <- <-]].
  destruct (span p s) as [d r'] eqn:Es. intros [= <- <-]. destruct (IH d r' eq_refl) as [-> H].
  split; [done | by constructor].
Qed.

(** The head of what a digit span leaves. *)
Lemma span_rest p s ds r : p 0 = false -> span p s = (ds, r) -> p (cget r 0) = false.
Proof.
  intros H0. revert ds r. induction s as [|c s IH]; intros ds r; cbn [span]; [by intros [= <- <-]|].
  destruct (p c) eqn:E; [|by intros [= <- <-]]. destruct (span p s) as [d r']. intros [= <- <-]. by eapply IH.
Qed.

Lemma mantissa_local isd s ds n r : isd 0 = false -> isd 46 = false -> mantissa isd s = Some (ds, n, r) ->
  exists t, s = t ++ r /\ t <> [] /\ Forall (fun c => isd c = true \/ c = 46) t /\
    forall r', isd (cget r' 0) = false -> (cget r' 0 <> 46 \/ cget r' 0 = cget r 0) ->
      mantissa isd (t ++ r') = Some (ds, n, r').
Proof.
  intros H0 H46. unfold mantissa. destruct (span isd s) as [d1 r1] eqn:E1.
  pose proof (span_rest _ _ _ _ H0 E1) as Hh. apply span_spec in E1 as [-> Hd1].
  assert (Hd1' : Forall (fun c => isd c = true \/ c = 46) d1) by (eapply Forall_impl; [exact Hd1|]; intros; by left).
  destruct (Z.eqb_spec (cget r1 0) 46) as [Hdot|Hdot].
  - destruct r1 as [|x r1]; [done|]. cbn in Hdot. subst x. change (drop 1 (46 :: r1)) with r1.
    destruct (span isd r1) as [d2 r2] eqn:E2.
    pose proof (span_rest _ _ _ _ H0 E2) as Hh2. apply span_spec in E2 as [-> Hd2].
    intros He. assert (Hne : d1 ++ d2 <> []) by (by intros Hnil; rewrite Hnil in He).
    assert (ds = d1 ++ d2 /\ n = length d2 /\ r = r2) as (-> & -> & ->) by (destruct (d1 ++ d2); [done|]; by injection He as <- <- <-).
    exists (d1 ++ 46 :: d2). split_and!.
    + by rewrite <- app_assoc.
    + by destruct d1.
    + apply Forall_app. split; [done|]. constructor; [by right|]. eapply Forall_impl; [exact Hd2|]. intros; by left.
    + intros r' Hr' _. rewrite <- app_assoc, (span_app isd d1) by done. cbn [app]. change (cget (46 :: _) 0) with 46.
      cbn [Z.eqb Pos.eqb]. change (drop 1 (46 :: ?l)) with l. rewrite (span_app isd d2) by done.
      by destruct (d1 ++ d2).
  - rewrite app_nil_r. intros He. destruct d1 as [|x d1]; [done|]. injection He as <- <- <-.
    exists (x :: d1). split_and!; [done..|]. intros r' Hr' Hne. rewrite (span_app isd (x :: d1)) by done.
    destruct (Z.eqb_spec (cget r' 0) 46) as [Hx|_]; [exfalso; destruct Hne; congruence|].
    by rewrite app_nil_r.
Qed.

Lemma exponent_local letter s e r : letter = 101 \/ letter = 112 -> exponent letter s = (e, r) ->
  exists t, s = t ++ r /\ Forall (fun c => isdigit c = true \/ tolower c = letter \/ c = 43 \/ c = 45) t /\
    (t <> [] -> tolower (cget t 0) = letter) /\
    forall r', isdigit (cget r' 0) = false -> tolower (cget r' 0) <> letter -> exponent letter (t ++ r') = (e, r').
Proof.
  intros Hl. unfold exponent. destruct (Z.eqb_spec (tolower (cget s 0)) letter) as [He|He].
  2: { intros [= <- <-]. exists []. split_and!; [done..|]. intros r' _ Hr'. cbn [app].
       by destruct (Z.eqb_spec (tolower (cget r' 0)) letter). }
  destruct s as [|x s]; [exfalso; destruct Hl; subst letter; cbn in He; discriminate|].
  cbn in He. change (drop 1 (x :: s)) with s.
  set (sg := if cget s 0 =? 45 then _ else _).
  assert (Hsg : exists neg t1 r1, sg = (neg, r1) /\ s = t1 ++ r1 /\ Forall (fun c => c = 43 \/ c = 45) t1 /\
    forall ds r', ds <> [] -> Forall (fun c => isdigit c = true) ds ->
      (if cget (t1 ++ ds ++ r') 0 =? 45 then (true, drop 1 (t1 ++ ds ++ r'))
       else if cget (t1 ++ ds ++ r') 0 =? 43 then (false, drop 1 (t1 ++ ds ++ r')) else (false, t1 ++ ds ++ r'))
      = (neg, ds ++ r')).
  { subst sg. destruct (Z.eqb_spec (cget s 0) 45) as [H45|H45]; [|destruct (Z.eqb_spec (cget s 0) 43) as [H43|H43]].
    - destruct s as [|y s]; [done|]. cbn in H45. subst y. exists true, [45], s. split_and!; [done..| |done].
      constructor; [by right | constructor].
    - destruct s as [|y s]; [done|]. cbn in H43. subst y. exists false, [43], s. split_and!; [done..| |done].
      constructor; [by left | constructor].
    - exists false, [], s. split_and!; [done..|]. intros ds r' Hne Hd. destruct Hd as [|c ds Hc Hd]; [done|].
      apply digit_not_special in Hc as (_ & H1 & H2). cbn [app]. change (cget (c :: _) 0) with c. by rewrite H1, H2. }
  clearbody sg. destruct Hsg as (neg & t1 & r1 & -> & -> & Ht1 & Hsg).
  destruct (span isdigit r1) as [ds r2] eqn:Es. apply span_spec in Es as [-> Hds].
  destruct ds as [|d ds]; [intros [= <- <-]; exists []; split_and!; [done..|]; intros r' _ Hr'; cbn [app];
    by destruct (Z.eqb_spec (tolower (cget r' 0)) letter)|].
  intros [= <- <-]. exists (x :: t1 ++ d :: ds). split_and!.
  - cbn [app]. by rewrite <- app_assoc.
  - constructor; [auto|]. apply Forall_app. split.
    + eapply Forall_impl; [exact Ht1|]. intros c [?|?]; auto.
    + eapply Forall_impl; [exact Hds|]. intros c ?; auto.
  - done.
  - intros r' Hr' Hne. cbn [app]. change (cget (x :: _) 0) with x. rewrite He, Z.eqb_refl.
    change (drop 1 (x :: ?l)) with l. rewrite <- app_assoc, Hsg by done. by rewrite (span_app isdigit (d :: ds)).
Qed.

Lemma ends_number_facts r : ends_number r = true ->
  isdigit (cget r 0) = false /\ isxdigit (cget r 0) = false /\ cget r 0 <> 46 /\ cget r 0 <> 40 /\
  forall c, 97 <= c <= 122 -> tolower (cget r 0) <> c.
Proof.
  unfold ends_number. intros H. bool_prop. unfold isxdigit, isdigit, tolower, isupper, islower in *.
  repeat match goal with H : _ && _ = false |- _ => apply andb_false_iff in H; bool_prop end.
  split_and!; [by apply andb_false_iff; rewrite !Z.leb_gt; lia| |lia|lia|].
  - rewrite !orb_false_iff, !andb_false_iff, !Z.leb_gt. lia.
  - intros c Hc. case_if; bool_prop; lia.
Qed.

(** The characters of a number. *)
Definition number_char (c : Z) : Prop :=
  isdigit c = true \/ c = 46 \/ tolower c = 101 \/ c = 43 \/ c = 45.

Lemma strtod_dec_local s v r : strtod_dec s = Some (v, r) ->
  exists t, s = t ++ r /\ t <> [] /\ (isdigit (cget t 0) = true \/ cget t 0 = 46) /\ Forall number_char t /\
    forall r', ends_number r' = true -> strtod_dec (t ++ r') = Some (v, r').
Proof.
  unfold strtod_dec. destruct (mantissa isdigit s) as [[[ds n] r1]|] eqn:Em; [|done].
  destruct (exponent 101 r1) as [e r2] eqn:Ee. intros [= <- <-].
  apply mantissa_local in Em as (t1 & -> & Hne & Ht1 & Hm); [|done|done].
  apply exponent_local in Ee as (t2 & -> & Ht2 & Hh2 & He); [|by left].
  exists (t1 ++ t2). rewrite app_assoc. split_and!; [done|by destruct t1| | |].
  - destruct t1 as [|c t1]; [done|]. by apply Forall_cons in Ht1 as [? _].
  - apply Forall_app. split.
    + eapply Forall_impl; [exact Ht1|]. intros c [?|?]; unfold number_char; auto.
    + eapply Forall_impl; [exact Ht2|]. intros c [?|[?|[?|?]]]; unfold number_char; auto.
  - intros r' (H1 & _ & H3 & _ & H5)%ends_number_facts. rewrite <- app_assoc.
    destruct t2 as [|c t2].
    + rewrite Hm by auto. specialize (He r' H1 (H5 101 ltac:(lia))). cbn [app] in *. by rewrite He.
    + specialize (Hh2 ltac:(done)). change (cget (c :: t2) 0) with c in Hh2.
      assert (Hc : isdigit c = false /\ c <> 46).
      { unfold tolower, isupper in Hh2. split.
        - apply not_true_is_false. intros Hd%isdigit_val. destruct ((65 <=? c) && (c <=? 90)) eqn:E; bool_prop; lia.
        - intros ->. done. }
      rewrite Hm by (cbn [app]; change (cget (c :: _) 0) with c; tauto).
      by rewrite (He r' H1 (H5 101 ltac:(lia))).
Qed.

Lemma ci_prefix_app p t r : (length p <= length t)%nat -> ci_prefix p (t ++ r) = ci_prefix p t.
Proof.
  revert t. induction p as [|a p IH]; intros [|c t] Hl; cbn in *; try done; try lia. by rewrite IH by lia.
Qed.

Lemma ci_prefix_split p s : ci_prefix p s = true ->
  exists t r, s = t ++ r /\ length t = length p /\ ci_prefix p t = true.
Proof.
  intros H. exists (take (length p) s), (drop (length p) s). rewrite take_drop.
  assert (Hl : (length p <= length s)%nat).
  { revert s H. induction p as [|a p IH]; intros [|c s]; cbn; intros H; try done; try lia.
    apply andb_true_iff in H as [_ H]. specialize (IH s H). lia. }
  split_and!; [done | rewrite length_take; lia|].
  rewrite <- (take_drop (length p) s), ci_prefix_app in H; [done | rewrite length_take; lia].
Qed.

(** The words are told apart by their first letters. *)
Lemma ci_prefix_head a p s : a <> 0 -> ci_prefix (a :: p) s = true -> tolower (cget s 0) = a.
Proof. destruct s as [|c s]; [done|]. cbn. intros _ [->%Z.eqb_eq _]%andb_true_iff. done. Qed.

Lemma ci_prefix_second a b p s : b <> 0 -> ci_prefix (a :: b :: p) s = true -> tolower (cget s 1) = b.
Proof.
  destruct s as [|c [|d s]]; cbn; [done|by rewrite andb_false_r|].
  intros _ [_ [->%Z.eqb_eq _]%andb_true_iff]%andb_true_iff. done.
Qed.

Lemma isdigit_tolower c : isdigit c = true -> tolower c = c.
Proof. intros H%isdigit_val. unfold tolower, isupper. case_if; bool_prop; lia. Qed.

(** Text that starts like a decimal number is none of the words. *)
Lemma decimal_no_word s : isdigit (cget s 0) = true \/ cget s 0 = 46 ->
  ci_prefix (bs "infinity") s = false /\ ci_prefix (bs "inf") s = false /\ ci_prefix (bs "nan") s = false.
Proof.
  intros H. assert (Hl : tolower (cget s 0) < 97).
  { destruct H as [H|H]; [|by rewrite H]. rewrite (isdigit_tolower _ H). apply isdigit_val in H. lia. }
  split_and!; apply not_true_is_false; intros Hp.
  - apply (ci_prefix_head 105 (bs "nfinity")) in Hp; lia.
  - apply (ci_prefix_head 105 (bs "nf")) in Hp; lia.
  - apply (ci_prefix_head 110 (bs "an")) in Hp; lia.
Qed.

Lemma strtod_abs_dec_local s v r : strtod_dec s = Some (v, r) ->
  exists t, s = t ++ r /\ t <> [] /\ (isdigit (cget t 0) = true \/ cget t 0 = 46) /\ plain t /\
    forall r', ends_number r' = true -> strtod_abs (t ++ r') = Some (v, r').
Proof.
  intros (t & -> & Hne & Hh & Hc & Hd)%strtod_dec_local. exists t. split_and!; [done..| |].
  { eapply Forall_impl; [exact Hc|]. intros c [?|[->|[?|[->| ->]]]]; [by apply plain_digit|done| |done..].
    by eapply (plain_lower _ 101); [lia|]. }
  intros r' Hr'. specialize (Hd r' Hr'). unfold strtod_abs.
  assert (Hh' : cget (t ++ r') 0 = cget t 0) by (by destruct t).
  rewrite <- Hh' in Hh. apply decimal_no_word in Hh as (-> & -> & ->).
  destruct (ci_prefix (bs "0x") (t ++ r')) eqn:E0; [|done]. exfalso.
  apply (ci_prefix_second 48 120 []) in E0; [|done]. destruct t as [|c [|d t]]; [done|..].
  - apply ends_number_facts in Hr' as (_ & _ & _ & _ & Hr'). by apply (Hr' 120).
  - apply Forall_cons in Hc as [_ Hc]. apply Forall_cons in Hc as [Hc _]. cbn in E0.
    unfold number_char, tolower, isupper, isdigit in *.
    destruct ((65 <=? d) && (d <=? 90)) eqn:E; bool_prop; destruct Hc as [?|[?|[?|[?|?]]]]; bool_prop; lia.
Qed.

(** One of the words at the head, whatever follows. *)
Lemma word_app p t r : length t = length p -> ci_prefix p t = true -> ci_prefix p (t ++ r) = true.
Proof. intros Hl H. by rewrite ci_prefix_app by lia. Qed.

Lemma ci_prefix_inf_long t r : length t = 3%nat -> ci_prefix (bs "inf") t = true ->
  tolower (cget r 0) <> 105 -> ci_prefix (bs "infinity") (t ++ r) = false.
Proof.
  intros Hl _ Hr. destruct t as [|a [|b [|c [|]]]]; try done. apply not_true_is_false. intros H.
  destruct r as [|d r]; cbn in H; bool_prop; done.
Qed.

(** Two words with different first letters exclude one another. *)
Lemma word_clash a p b q s : a <> 0 -> b <> 0 -> a <> b -> ci_prefix (a :: p) s = true -> ci_prefix (b :: q) s = false.
Proof.
  intros Ha Hb Hne H1. apply not_true_is_false. intros H2.
  apply ci_prefix_head in H1; [|done]. apply ci_prefix_head in H2; [|done]. congruence.
Qed.

Lemma nan_tail_local s : exists t, s = t ++ nan_tail s /\ plain t /\
  forall r', ends_number r' = true -> nan_tail (t ++ r') = r'.
Proof.
  unfold nan_tail. destruct (Z.eqb_spec (cget s 0) 40) as [H40|H40].
  2: { exists []. split_and!; [done..|]. intros r' (_ & _ & _ & H & _)%ends_number_facts. cbn [app].
       by destruct (Z.eqb_spec (cget r' 0) 40). }
  destruct s as [|x s]; [done|]. cbn in H40. subst x. change (drop 1 (40 :: s)) with s.
  destruct (span word_char s) as [d r] eqn:Es. apply span_spec in Es as [-> Hd].
  destruct (Z.eqb_spec (cget r 0) 41) as [H41|H41].
  - destruct r as [|x r]; [done|]. cbn in H41. subst x. exists (40 :: d ++ [41]). split_and!.
    + cbn. by rewrite <- app_assoc.
    + constructor; [done|]. apply Forall_app. split; [|by constructor].
      eapply Forall_impl; [exact Hd|]. intros c. apply plain_word.
    + intros r' _. cbn [app]. change (cget (40 :: _) 0) with 40. cbn [Z.eqb Pos.eqb].
      change (drop 1 (40 :: ?l)) with l. rewrite <- app_assoc, (span_app word_char d) by done. done.
  - exists []. split_and!; [done..|]. intros r' (_ & _ & _ & H & _)%ends_number_facts. cbn [app].
    by destruct (Z.eqb_spec (cget r' 0) 40).
Qed.

Lemma ci_prefix_plain p : forall t, Forall (fun a => 97 <= a <= 122) p -> length t = length p ->
  ci_prefix p t = true -> plain t.
Proof.
  induction p as [|a p IH]; intros [|c t] Hp Hl Hc; try done.
  apply Forall_cons in Hp as [Ha Hp]. cbn in Hc. apply andb_true_iff in Hc as [Hc%Z.eqb_eq Ht].
  constructor; [by eapply plain_lower|]. apply IH; [done | by injection Hl | done].
Qed.

Lemma strtod_abs_local s v r : strtod_abs s = Some (v, r) ->
  exists t, s = t ++ r /\ t <> [] /\ isspace (cget t 0) = false /\ cget t 0 <> 45 /\ cget t 0 <> 43 /\ plain t /\
    forall r', ends_number r' = true -> strtod_abs (t ++ r') = Some (v, r').
Proof.
  assert (Hword : forall a p t, 97 <= a <= 122 -> length t = length (a :: p) -> ci_prefix (a :: p) t = true ->
    Forall (fun a => 97 <= a <= 122) p ->
    t <> [] /\ isspace (cget t 0) = false /\ cget t 0 <> 45 /\ cget t 0 <> 43 /\ plain t).
  { intros a p t Ha Hl Hp Hf. assert (plain t) by (apply (ci_prefix_plain (a :: p)); [by constructor|done..]). apply ci_prefix_head in Hp; [|lia]. split; [by intros ->|].
    enough (isspace (cget t 0) = false /\ cget t 0 <> 45 /\ cget t 0 <> 43) as (? & ? & ?) by done.
    unfold tolower, isupper in Hp. rewrite <- not_true_iff_false. unfold isspace.
    rewrite orb_true_iff, andb_true_iff, Z.eqb_eq, !Z.leb_le.
    destruct ((65 <=? cget t 0) && (cget t 0 <=? 90)) eqn:E; bool_prop; lia. }
  assert (Hdec : strtod_dec s = Some (v, r) -> exists t, s = t ++ r /\ t <> [] /\ isspace (cget t 0) = false /\
    cget t 0 <> 45 /\ cget t 0 <> 43 /\ plain t /\ forall r', ends_number r' = true -> strtod_abs (t ++ r') = Some (v, r')).
  { intros (t & -> & Hne & Hh & Hpl & Hloc)%strtod_abs_dec_local. exists t. split_and!; try done;
      destruct Hh as [Hh|Hh]; try (by rewrite Hh); by apply digit_not_special in Hh as (? & ?%Z.eqb_neq & ?%Z.eqb_neq). }
  unfold strtod_abs at 1.
  destruct (ci_prefix (bs "infinity") s) eqn:E1.
  { intros [= <- <-]. apply ci_prefix_split in E1 as (t & r1 & -> & Hl & Hp). exists t.
    rewrite (drop_app_length' t r1 8) by done. destruct (Hword 105 (bs "nfinity") t ltac:(lia) Hl Hp ltac:(by apply (bool_decide_unpack _))) as (? & ? & ? & ? & ?).
    split_and!; [done..|]. intros r' _. unfold strtod_abs. rewrite word_app by done. by rewrite drop_app_length' by done. }
  destruct (ci_prefix (bs "inf") s) eqn:E2.
  { intros [= <- <-]. apply ci_prefix_split in E2 as (t & r1 & -> & Hl & Hp). exists t.
    rewrite (drop_app_length' t r1 3) by done. destruct (Hword 105 (bs "nf") t ltac:(lia) Hl Hp ltac:(by apply (bool_decide_unpack _))) as (? & ? & ? & ? & ?).
    split_and!; [done..|]. intros r' (_ & _ & _ & _ & Hr')%ends_number_facts. unfold strtod_abs.
    rewrite ci_prefix_inf_long by (try done; apply Hr'; lia).
    rewrite word_app by done. by rewrite drop_app_length' by done. }
  destruct (ci_prefix (bs "nan") s) eqn:E3.
  { intros [= <- <-]. apply ci_prefix_split in E3 as (t & r1 & -> & Hl & Hp).
    rewrite (drop_app_length' t r1 3) by done. destruct (Hword 110 (bs "an") t ltac:(lia) Hl Hp ltac:(by apply (bool_decide_unpack _))) as (? & ? & ? & ? & ?).
    destruct (nan_tail_local r1) as (t2 & Hr1 & Hpl2 & Ht2). exists (t ++ t2).
    assert (Hhd : forall q, cget (t ++ q) 0 = cget t 0) by (intros; by destruct t).
    rewrite <- app_assoc, Hhd. split_and!; [by rewrite <- Hr1|by destruct t|done..|by apply Forall_app|].
    intros r' Hr'. rewrite <- app_assoc. unfold strtod_abs.
    assert (Hn : ci_prefix (bs "nan") (t ++ t2 ++ r') = true) by (by apply word_app).
    rewrite (word_clash 110 (bs "an") 105 (bs "nfinity")) by done.
    rewrite (word_clash 110 (bs "an") 105 (bs "nf")) by done. rewrite Hn, drop_app_length' by done. by rewrite Ht2. }
  destruct (ci_prefix (bs "0x") s) eqn:E4; [|done].
  apply ci_prefix_split in E4 as (t & r1 & Hs & Hl & Hp). rewrite Hs in Hdec |- *.
  rewrite (drop_app_length' t r1 2) by done.
  destruct (mantissa isxdigit r1) as [[[ds n] r2]|] eqn:Em; [|done].
  destruct (exponent 112 r2) as [e r3] eqn:Ee. intros [= <- <-]. clear Hdec.
  apply mantissa_local in Em as (t1 & -> & Hne & Ht1 & Hm); [|done|done].
  apply exponent_local in Ee as (t2 & -> & Ht2 & Hh2 & He); [|by right].
  assert (Ht0 : cget t 0 = 48).
  { apply (ci_prefix_head 48 (bs "x")) in Hp; [|done]. unfold tolower, isupper in Hp.
    destruct ((65 <=? cget t 0) && (cget t 0 <=? 90)) eqn:E; bool_prop; lia. }
  exists (t ++ t1 ++ t2). assert (Hhd : forall q, cget (t ++ q) 0 = cget t 0) by (intros; by destruct t).
  rewrite Hhd, Ht0. split_and!; [by rewrite <- !app_assoc|by destruct t|done..| |].
  { rewrite !Forall_app. split_and!.
    - destruct t as [|a [|b [|]]]; try done. change (cget [a; b] 0) with a in Ht0. subst a.
      apply (ci_prefix_second 48 120 []) in Hp; [|done]. repeat constructor. by apply (plain_lower _ 120); [lia|].
    - eapply Forall_impl; [exact Ht1|]. intros c [?| ->]; [by apply plain_xdigit | done].
    - eapply Forall_impl; [exact Ht2|]. intros c [?|[?|[->| ->]]]; [by apply plain_digit| |done..].
      by apply (plain_lower _ 112); [lia|]. }
  intros r' Hr'. rewrite <- app_assoc. unfold strtod_abs.
  assert (Hd : isdigit (cget (t ++ (t1 ++ t2) ++ r') 0) = true \/ cget (t ++ (t1 ++ t2) ++ r') 0 = 46)
    by (left; by rewrite Hhd, Ht0).
  apply decimal_no_word in Hd as (-> & -> & ->). rewrite word_app by done. rewrite drop_app_length' by done.
  apply ends_number_facts in Hr' as (H1 & H2 & H3 & _ & H5). rewrite <- app_assoc.
  destruct t2 as [|c t2].
  - cbn [app] in *. rewrite Hm by auto. by rewrite (He r' H1 (H5 112 ltac:(lia))).
  - specialize (Hh2 ltac:(done)). change (cget (c :: t2) 0) with c in Hh2.
    assert (Hc : isxdigit c = false /\ c <> 46).
    { unfold tolower, isupper in Hh2. unfold isxdigit, isdigit. rewrite !orb_false_iff, !andb_false_iff, !Z.leb_gt.
      destruct ((65 <=? c) && (c <=? 90)) eqn:E; bool_prop; lia. }
    rewrite Hm by (cbn [app]; change (cget (c :: _) 0) with c; tauto).
    by rewrite (He r' H1 (H5 112 ltac:(lia))).
Qed.

Lemma skip_space_spec s : exists sp, s = sp ++ skip_space s /\ Forall (fun c => isspace c = true) sp /\
  isspace (cget (skip_space s) 0) = false.
Proof.
  induction s as [|c s (sp & Hs & Hsp & Hh)]; [by exists []|]. cbn [skip_space].
  destruct (isspace c) eqn:E; [exists (c :: sp) | exists []]; (split_and!; [|by constructor|done]); [|done].
  cbn. by rewrite <- Hs.
Qed.

Lemma skip_space_app sp s : Forall (fun c => isspace c = true) sp -> isspace (cget s 0) = false ->
  skip_space (sp ++ s) = s.
Proof.
  intros Hsp Hs. induction Hsp as [|c sp Hc Hsp IH]; cbn [app skip_space]; [|by rewrite Hc].
  destruct s as [|c s]; [done|]. cbn [skip_space]. change (cget (c :: s) 0) with c in Hs. by rewrite Hs.
Qed.

(** A conversion reads a number and nothing of what cannot belong to it. *)
Lemma strtod_local s v r : strtod s = Some (v, r) ->
  exists sp t, s = sp ++ t ++ r /\ Forall (fun c => isspace c = true) sp /\ t <> [] /\ isspace (cget t 0) = false /\ plain t /\
    forall r', ends_number r' = true -> strtod (t ++ r') = Some (v, r').
Proof.
  unfold strtod. destruct (skip_space_spec s) as (sp & Hs & Hsp & Hh). set (q := skip_space s) in *. clearbody q. subst s.
  set (sg := if cget q 0 =? 45 then _ else _).
  assert (Hsg : exists neg t0 r0, sg = (neg, r0) /\ q = t0 ++ r0 /\ (t0 = [] \/ t0 = [45] \/ t0 = [43]) /\
    forall t r', t <> [] -> cget t 0 <> 45 -> cget t 0 <> 43 -> 
      (if cget (t0 ++ t ++ r') 0 =? 45 then (true, drop 1 (t0 ++ t ++ r'))
       else if cget (t0 ++ t ++ r') 0 =? 43 then (false, drop 1 (t0 ++ t ++ r')) else (false, t0 ++ t ++ r')) = (neg, t ++ r')).
  { subst sg. destruct (Z.eqb_spec (cget q 0) 45) as [H45|H45]; [|destruct (Z.eqb_spec (cget q 0) 43) as [H43|H43]].
    - destruct q as [|y q]; [done|]. cbn in H45. subst y. exists true, [45], q. split_and!; auto.
    - destruct q as [|y q]; [done|]. cbn in H43. subst y. exists false, [43], q. split_and!; auto.
    - exists false, [], q. split_and!; auto. intros t r' Hne H1%Z.eqb_neq H2%Z.eqb_neq. destruct t as [|c t]; [done|].
      cbn [app] in *. change (cget (c :: _) 0) with c in *. by rewrite H1, H2. }
  clearbody sg. destruct Hsg as (neg & t0 & r0 & -> & -> & Ht0 & Hsg).
  destruct (strtod_abs r0) as [[w r1]|] eqn:Ea; [|done]. intros [= <- <-].
  apply strtod_abs_local in Ea as (t & -> & Hne & Hts & H1 & H2 & Hpl & Hloc).
  exists sp, (t0 ++ t). rewrite <- app_assoc.
  assert (Hsp0 : forall x, isspace (cget ((t0 ++ t) ++ x) 0) = false).
  { intros x. destruct t as [|c t]; [done|]. destruct Ht0 as [->|[->| ->]]; done. }
  split_and!; [done|done|by destruct t0| | |].
  2: { apply Forall_app. split; [|done]. destruct Ht0 as [->|[->| ->]]; repeat constructor. }
  - specialize (Hsp0 []). by rewrite app_nil_r in Hsp0.
  - intros r' Hr'. assert (skip_space ((t0 ++ t) ++ r') = (t0 ++ t) ++ r') as -> by (by apply (skip_space_app [])).
    rewrite <- app_assoc, Hsg by done. by rewrite Hloc.
Qed.
End Strtod.
