(* ===== verification/GpuArgs.v ===== *)
(** GPU command-line arguments ([ds4_gpu_args.c]).

    [--gpu-vram] and [--gpu-devices] are comma-separated lists of integers.
    The file models the list parser, the combination of the two flags, and the
    layout line with [snprintf]'s truncation.  Probing devices is CUDA code and
    a parameter. *)

From S2P Require Import Prelude Float64 Libc.

#[local] Open Scope Z_scope.

Definition DS4_MAX_GPUS : Z := 16.
Definition DS4_GPU_ARGS_DEFAULT_SAFETY_MARGIN : Z := 512 * 1024 * 1024.
Definition DS4_GPU_ARGS_MAX_VRAM_GB : Z := 16384.
Definition DS4_GPU_ARGS_MAX_DEVICE_INDEX : Z := 1023.

Record ds4_gpu_config := GpuConfig {
  device_indices : list Z;
  vram_bytes : list Z;
  n_gpus : Z;
  safety_margin_bytes : Z
}.

(** The messages of the parser, with the flag they are about. *)
Inductive gpu_err :=
| GEmptyValue (what : bytes)
| GNotNumber (what at_ : bytes)
| GRange (what at_ : bytes) (max_value : Z)
| GTooMany (what : bytes) (max_count : Z)
| GEmptyEntry (what at_ : bytes)
| GJunk (what at_ : bytes)
| GNoValues (what : bytes)
| GNullOut
| GBothNull
| GZeroConflict
| GAutoUnsupported
| GProbe
| GCountMismatch (dev_count vram_count : Z).

Fixpoint skip_blank (s : bytes) : bytes :=
  match s with
  | c :: s' => if (c =? 32) || (c =? 9) then skip_blank s' else s
  | [] => []
  end.

(** One entry: its value and the text after it and its comma. *)
Definition parse_csv_entry (p : bytes) (count max_count max_value : Z) (what : bytes)
  : gpu_err + (Z * bytes) :=
  let p := skip_blank p in
  match strtol p with
  | None => inl (GNotNumber what p)
  | Some (v, end_, erange) =>
      if erange || (v <? 0) || (max_value <? v) then inl (GRange what p max_value)
      else if max_count <=? count then inl (GTooMany what max_count)
      else
        let end_ := skip_blank end_ in
        if cget end_ 0 =? 44 then
          let end_ := drop 1 end_ in
          if (cget end_ 0 =? 0) || (cget end_ 0 =? 44) then inl (GEmptyEntry what end_)
          else inr (v, end_)
        else if negb (cget end_ 0 =? 0) then inl (GJunk what end_)
        else inr (v, end_)
  end.

(** The loop; [None] is running out of fuel. *)
Fixpoint parse_csv_loop (fuel : nat) (p : bytes) (out : list Z) (max_count max_value : Z) (what : bytes)
  : option (gpu_err + list Z) :=
  match p with
  | [] => Some (inr out)
  | _ =>
      match fuel with
      | O => None
      | S fuel' =>
          match parse_csv_entry p (zlen out) max_count max_value what with
          | inl e => Some (inl e)
          | inr (v, p') => parse_csv_loop fuel' p' (out ++ [v]) max_count max_value what
          end
      end
  end.

Definition parse_csv_int_list (s : option bytes) (max_count max_value : Z) (what : bytes)
  : option (gpu_err + list Z) :=
  match s with
  | None | Some [] => Some (inl (GEmptyValue what))
  | Some s =>
      match parse_csv_loop (length s) s [] max_count max_value what with
      | Some (inr []) => Some (inl (GNoValues what))
      | r => r
      end
  end.

Section Parse.
(** Whether this is a CUDA build, and the probe of [ds4_cuda.cu]: from the
    device filter, the configuration and the margin, to a configuration. *)
Context (cuda_build : bool)
        (probe_auto_cuda : option (list Z) -> ds4_gpu_config -> Z -> option ds4_gpu_config).

(** The loop that fills the configuration from the two lists. *)
Fixpoint fill_gpus (i : nat) (vram devs : list Z) (out : ds4_gpu_config) : ds4_gpu_config :=
  match vram with
  | [] => out
  | v :: vram' =>
      let dev_id := if (0 <? length devs)%nat then nth i devs 0 else Z.of_nat i in
      fill_gpus (S i) vram' devs
        (GpuConfig (<[i := dev_id]> (device_indices out))
           (<[i := u64 (u64 (u64 (v * 1024) * 1024) * 1024)]> (vram_bytes out))
           (n_gpus out) (safety_margin_bytes out))
  end.

(** The configuration and [out_skip_cuda], or an error. *)
Definition parse_gpu_vram_arg (vram_arg devices_arg : option bytes) (out : option ds4_gpu_config)
  : option (gpu_err + (ds4_gpu_config * bool)) :=
  match out with
  | None => Some (inl GNullOut)
  | Some out =>
      let out := GpuConfig (device_indices out) (vram_bytes out) 0 DS4_GPU_ARGS_DEFAULT_SAFETY_MARGIN in
      match (match devices_arg with
             | Some _ => parse_csv_int_list devices_arg DS4_MAX_GPUS DS4_GPU_ARGS_MAX_DEVICE_INDEX
                           (bs "--gpu-devices")
             | None => Some (inr [])
             end) with
      | None => None
      | Some (inl e) => Some (inl e)
      | Some (inr dev_list) =>
          match vram_arg, devices_arg with
          | None, None => Some (inl GBothNull)
          | _, _ =>
              let vram := default (bs "auto") vram_arg in
              if bytes_eqb vram (bs "0") then
                match devices_arg with
                | Some _ => Some (inl GZeroConflict)
                | None => Some (inr (out, true))
                end
              else if bytes_eqb vram (bs "auto") then
                if cuda_build then
                  let filter := match dev_list with [] => None | _ => Some (map i32 dev_list) end in
                  match probe_auto_cuda filter out (safety_margin_bytes out) with
                  | Some out' => Some (inr (out', false))
                  | None => Some (inl GProbe)
                  end
                else Some (inl GAutoUnsupported)
              else
                match parse_csv_int_list (Some vram) DS4_MAX_GPUS DS4_GPU_ARGS_MAX_VRAM_GB (bs "--gpu-vram") with
                | None => None
                | Some (inl e) => Some (inl e)
                | Some (inr vram_list) =>
                    if (0 <? zlen dev_list) && negb (zlen dev_list =? zlen vram_list)
                    then Some (inl (GCountMismatch (zlen dev_list) (zlen vram_list)))
                    else
                      Some (inr (fill_gpus 0 vram_list dev_list
                        (GpuConfig (device_indices out) (vram_bytes out) (zlen vram_list)
                           (safety_margin_bytes out)), false))
                end
          end
      end
  end.
End Parse.

(** ** The layout line *)

(** [snprintf(out + written, outlen - written, ...)] where the buffer holds
    [written] bytes: the new contents and the untruncated length. *)
Definition snprintf_at (buf : bytes) (outlen : nat) (s : bytes) : bytes * nat :=
  (buf ++ take (outlen - length buf - 1) s, length s).

(** Print the pieces one after the other, returning at the first that does
    not fit; the result is the buffer and the returned count. *)
Fixpoint print_pieces (buf : bytes) (outlen : nat) (pieces : list bytes) : bytes * Z :=
  match pieces with
  | [] => (buf, zlen buf)
  | s :: rest =>
      let '(buf', n) := snprintf_at buf outlen s in
      if (outlen <=? length buf + n)%nat then (buf', Z.of_nat (length buf + n))
      else print_pieces buf' outlen rest
  end.

Definition layout_pieces (cfg : ds4_gpu_config) (was_auto : bool) : list bytes :=
  [bs "ds4: GPU config: " ++ print_int (n_gpus cfg) ++ bs " device" ++
     (if n_gpus cfg =? 1 then [] else bs "s") ++ bs " ["] ++
  map (fun i => (if (i =? 0)%nat then [] else bs ",") ++ print_int (nth i (device_indices cfg) 0))
    (seq 0 (Z.to_nat (n_gpus cfg))) ++
  [bs "] requested, budgets "] ++
  map (fun i => (if (i =? 0)%nat then [] else bs ",") ++
         F64.print_fixed 0 (F64.div (F64.of_Z (nth i (vram_bytes cfg) 0)) (F64.of_Z 1073741824)))
    (seq 0 (Z.to_nat (n_gpus cfg))) ++
  [bs " GB; auto=" ++ (if was_auto then bs "true" else bs "false")].

Definition format_gpu_layout_line (cfg : option ds4_gpu_config) (was_auto : bool) (outlen : nat)
  : option bytes * Z :=
  match cfg with
  | Some cfg =>
      if (outlen =? 0)%nat then (None, -1)
      else let '(b, n) := print_pieces [] outlen (layout_pieces cfg was_auto) in (Some b, n)
  | None => (None, -1)
  end.

(** ** Facts on the list parser *)

Lemma skip_blank_length s : (length (skip_blank s) <= length s)%nat.
Proof. induction s as [|c s IH]; cbn [skip_blank]; [done|]. case_if; cbn [length]; lia. Qed.

Lemma strtol_spec s v rest er : strtol s = Some (v, rest, er) -> (length rest < length s)%nat.
Proof.
  unfold strtol. destruct (scan_int s) as [[[neg w] r]|] eqn:E; [|done].
  apply scan_int_shorter in E as [Hl _]. repeat case_if; by intros [= <- <- <-].
Qed.

Lemma parse_csv_entry_spec p count maxc maxv what v p' :
  parse_csv_entry p count maxc maxv what = inr (v, p') ->
  (length p' < length p)%nat /\ 0 <= v <= maxv /\ count < maxc.
Proof.
  unfold parse_csv_entry. destruct (strtol (skip_blank p)) as [[[w e] er]|] eqn:E; [|done].
  apply strtol_spec in E. pose proof (skip_blank_length p). pose proof (skip_blank_length e).
  destruct (er || (w <? 0) || (maxv <? w)) eqn:Er; [done|]. bool_prop.
  destruct (Z.leb_spec maxc count); [done|]. case_if.
  - case_if; [done|]. intros [= <- <-]. rewrite length_drop. lia.
  - case_if; [done|]. intros [= <- <-]. lia.
Qed.

Lemma parse_csv_loop_spec fuel : forall p out maxc maxv what,
  (length p <= fuel)%nat ->
  exists r, parse_csv_loop fuel p out maxc maxv what = Some r /\
    forall vs, r = inr vs -> exists vs', vs = out ++ vs' /\
      Forall (fun v => 0 <= v <= maxv) vs' /\ (zlen out <= maxc -> zlen vs <= maxc).
Proof.
  induction fuel as [|fuel IH]; intros p out maxc maxv what Hf; destruct p as [|c p];
    cbn [parse_csv_loop]; try (cbn [length] in Hf; lia).
  1,2: eexists; split; [done|]; intros vs [= <-]; exists []; rewrite app_nil_r; split_and!; [done | apply Forall_nil_2 | done].
  destruct (parse_csv_entry (c :: p) (zlen out) maxc maxv what) as [e|[v p']] eqn:E;
    [eexists; split; [done|]; done|].
  apply parse_csv_entry_spec in E as (Hl & Hv & Hc). cbn [length] in *.
  destruct (IH p' (out ++ [v]) maxc maxv what ltac:(lia)) as (r & Hr & Hspec).
  exists r. split; [done|]. intros vs Hvs. destruct (Hspec vs Hvs) as (vs' & -> & Hf' & Hlen).
  exists (v :: vs'). split_and!; [by rewrite <- app_assoc | by constructor |].
  intros _. apply Hlen. unfold zlen in *. rewrite length_app. cbn. lia.
Qed.

(** Values separated by commas, as a user writes them. *)
Fixpoint csv_print (vs : list Z) : bytes :=
  match vs with
  | [] => []
  | [v] => dec_print v
  | v :: vs' => dec_print v ++ 44 :: csv_print vs'
  end.

Lemma dec_print_head v : is_u64 v -> exists c ds, dec_print v = c :: ds /\ isdigit c = true.
Proof.
  intros H. destruct (dec_print_spec v H) as (Hne & Hd & _). destruct (dec_print v) as [|c ds]; [done|].
  exists c, ds. split; [done|]. by apply Forall_cons in Hd as [? _].
Qed.

Lemma csv_print_head vs : vs <> [] -> Forall is_u64 vs ->
  exists c ds, csv_print vs = c :: ds /\ isdigit c = true.
Proof.
  intros Hne H. destruct vs as [|v vs]; [done|]. apply Forall_cons in H as [Hv _].
  destruct (dec_print_head v Hv) as (c & ds & E & Hc). destruct vs as [|w vs].
  - exists c, ds. by rewrite <- E.
  - exists c, (ds ++ 44 :: csv_print (w :: vs)). split; [|done].
    change (csv_print (v :: w :: vs)) with (dec_print v ++ 44 :: csv_print (w :: vs)). by rewrite E.
Qed.

Lemma parse_csv_entry_print v rest count maxc maxv what :
  0 <= v <= maxv -> maxv <= INT64_MAX -> count < maxc ->
  (rest = [] \/ exists c r, rest = 44 :: c :: r /\ isdigit c = true) ->
  parse_csv_entry (dec_print v ++ rest) count maxc maxv what = inr (v, drop 1 rest).
Proof.
  intros Hv Hm Hc Hrest. assert (Hu : is_u64 v) by (unfold is_u64, U64_MAX, INT64_MAX in *; lia).
  destruct (dec_print_spec v Hu) as (H1 & H2 & H3). destruct (dec_print_head v Hu) as (c & ds & E & Hcd).
  unfold parse_csv_entry.
  assert (Hsk : skip_blank (dec_print v ++ rest) = dec_print v ++ rest).
  { rewrite E. cbn [app skip_blank]. apply isdigit_val in Hcd.
    replace ((c =? 32) || (c =? 9)) with false by (symmetry; apply orb_false_iff; lia). done. }
  assert (Hd0 : isdigit (cget rest 0) = false) by (by destruct Hrest as [->|(x & r & -> & _)]).
  rewrite Hsk, strtol_digits by (done || lia). rewrite H3.
  replace (false || (v <? 0) || (maxv <? v)) with false by (symmetry; repeat (apply orb_false_iff; split); lia).
  destruct (Z.leb_spec maxc count); [lia|].
  destruct Hrest as [->|(x & r & -> & Hx)]; [done|].
  cbn [skip_blank Z.eqb Pos.eqb orb cget nth]. unfold cget. cbn [nth drop Z.eqb Pos.eqb].
  apply isdigit_val in Hx. change (drop 0 (x :: r)) with (x :: r).
  rewrite (proj2 (Z.eqb_neq x 0)), (proj2 (Z.eqb_neq x 44)) by lia. done.
Qed.

Lemma parse_csv_loop_print vs : forall fuel out maxc maxv what,
  Forall (fun v => 0 <= v <= maxv) vs -> maxv <= INT64_MAX -> zlen out + zlen vs <= maxc ->
  (length (csv_print vs) <= fuel)%nat ->
  parse_csv_loop fuel (csv_print vs) out maxc maxv what = Some (inr (out ++ vs)).
Proof.
  assert (Hu : forall vs maxv, Forall (fun v => 0 <= v <= maxv) vs -> maxv <= INT64_MAX -> Forall is_u64 vs).
  { intros l maxv H Hm. eapply Forall_impl; [exact H|]. unfold is_u64, U64_MAX, INT64_MAX in *. intros; lia. }
  induction vs as [|v vs IH]; intros fuel out maxc maxv what Hv Hm Hl Hf.
  { rewrite app_nil_r. by destruct fuel. }
  pose proof (Hu _ _ Hv Hm) as Huv. apply Forall_cons in Hv as [Hv Hvs].
  destruct (csv_print_head (v :: vs) ltac:(done) Huv) as (c & ds & E & _).
  unfold zlen in *. cbn [length] in Hl.
  assert (Hent : exists p', parse_csv_entry (csv_print (v :: vs)) (Z.of_nat (length out)) maxc maxv what = inr (v, p') /\
    p' = csv_print vs).
  { destruct vs as [|w vs].
    - eexists. split; [|done]. change (csv_print [v]) with (dec_print v). rewrite <- (app_nil_r (dec_print v)).
      by rewrite parse_csv_entry_print by (done || lia || by left).
    - eexists. split; [|done]. apply Forall_cons in Huv as [_ Huv].
      destruct (csv_print_head (w :: vs) ltac:(done) Huv) as (c' & ds' & E' & Hc').
      change (csv_print (v :: w :: vs)) with (dec_print v ++ 44 :: csv_print (w :: vs)).
      rewrite parse_csv_entry_print; [done | done | done | cbn [length] in Hl; lia |].
      right. exists c', ds'. by rewrite E'. }
  destruct Hent as (p' & Hent & ->). rewrite E in *. destruct fuel as [|fuel]; [cbn in Hf; lia|].
  cbn [parse_csv_loop]. unfold zlen. rewrite Hent.
  apply parse_csv_entry_spec in Hent as (Hlt & _ & _). cbn [length] in *.
  rewrite IH; [by rewrite <- app_assoc | done | done | rewrite length_app; cbn; lia | lia].
Qed.

(** The filled configuration. *)
Lemma fill_gpus_spec vram devs : forall i out,
  Forall (fun v => 0 <= v <= DS4_GPU_ARGS_MAX_VRAM_GB) vram ->
  (i + length vram <= length (device_indices out))%nat -> (i + length vram <= length (vram_bytes out))%nat ->
  let r := fill_gpus i vram devs out in
  n_gpus r = n_gpus out /\ safety_margin_bytes r = safety_margin_bytes out /\
  (forall j, (j < i)%nat -> nth j (vram_bytes r) 0 = nth j (vram_bytes out) 0 /\
     nth j (device_indices r) 0 = nth j (device_indices out) 0) /\
  forall j, (i <= j < i + length vram)%nat ->
    nth j (vram_bytes r) 0 = nth (j - i) vram 0 * 2 ^ 30 /\
    nth j (device_indices r) 0 = if (0 <? length devs)%nat then nth j devs 0 else Z.of_nat j.
Proof.
  induction vram as [|v vram IH]; intros i out Hv Hd Hb; cbv zeta; cbn [fill_gpus length] in *;
    [split_and!; [done | done | done | intros; lia]|].
  apply Forall_cons in Hv as [Hv Hvs].
  set (out1 := GpuConfig _ _ _ _). specialize (IH (S i) out1 Hvs). cbn [out1 device_indices vram_bytes] in IH.
  rewrite !length_insert in IH. specialize (IH ltac:(lia) ltac:(lia)). cbv zeta in IH.
  destruct IH as (H1 & H2 & H3 & H4). split_and!; [done | done | |].
  - intros j Hj. destruct (H3 j ltac:(lia)) as [E1 E2]. rewrite E1, E2.
    by rewrite !nth_lookup, !list_lookup_insert_ne by lia.
  - intros j Hj. destruct (Nat.eq_dec j i) as [->|].
    + destruct (H3 i ltac:(lia)) as [E1 E2]. rewrite E1, E2.
      rewrite !nth_lookup, !list_lookup_insert_eq by lia. cbn [default from_option id].
      rewrite Nat.sub_diag. cbn [nth]. split; [|done].
      unfold DS4_GPU_ARGS_MAX_VRAM_GB in Hv.
      rewrite (u64_small (v * 1024)), (u64_small (v * 1024 * 1024)), u64_small by (unfold is_u64, U64_MAX; lia).
      change (2 ^ 30) with 1073741824. change (default 0 ((v :: vram) !! 0%nat)) with v. lia.
    + destruct (H4 j ltac:(lia)) as [E1 E2]. rewrite E1, E2. split; [|done].
      by replace (j - i)%nat with (S (j - S i)) by lia.
Qed.

(** ** Properties *)

(** the list parser terminates; what it accepts is 1 to [max_count] values
    within the bound; and it reads back every printed list of that kind. *)
Theorem csv_list_roundtrip (vs : list Z) (maxc maxv : Z) (what : bytes)
    (Hne : vs <> []) (Hv : Forall (fun v => 0 <= v <= maxv) vs)
    (Hl : zlen vs <= maxc) (Hm : maxv <= INT64_MAX) :
  parse_csv_int_list (Some (csv_print vs)) maxc maxv what = Some (inr vs) /\
  forall s, exists r, parse_csv_int_list s maxc maxv what = Some r /\
    forall ws, r = inr ws -> ws <> [] /\ zlen ws <= maxc /\ Forall (fun v => 0 <= v <= maxv) ws.
Proof.
  split.
  - destruct (csv_print_head vs Hne) as (c & ds & E & _).
    { eapply Forall_impl; [exact Hv|]. unfold is_u64, U64_MAX, INT64_MAX in *. intros; lia. }
    unfold parse_csv_int_list. pose proof (parse_csv_loop_print vs (length (csv_print vs)) [] maxc maxv what
      Hv Hm ltac:(unfold zlen in *; cbn; lia) ltac:(lia)) as H.
    rewrite E in *. rewrite H. cbn [app]. by destruct vs.
  - intros [s|]; [|by eexists]. unfold parse_csv_int_list. destruct s as [|c s]; [by eexists|].
    destruct (parse_csv_loop_spec (length (c :: s)) (c :: s) [] maxc maxv what ltac:(lia)) as (r & Hr & Hs).
    rewrite Hr. destruct r as [e|ws]; [by eexists|]. destruct (Hs ws eq_refl) as (ws' & -> & Hf & Hlen).
    cbn [app] in *. destruct ws' as [|w ws']; [by eexists|]. eexists. split; [done|].
    intros ? [= <-]. split_and!; [done | | done]. apply Hlen. unfold zlen in *. cbn [length] in *. lia.
Qed.

Lemma csv_list_roundtrip_witness :
  csv_print [40; 12; 0] = bs "40,12,0" /\
  parse_csv_int_list (Some (csv_print [40; 12; 0])) 16 16384 (bs "--gpu-vram") = Some (inr [40; 12; 0]).
Proof.
  split; [vm_compute; reflexivity|].
  refine (proj1 (csv_list_roundtrip [40; 12; 0] 16 16384 (bs "--gpu-vram") _ _ _ _)).
  - done.
  - by apply (bool_decide_unpack _).
  - vm_compute. discriminate.
  - unfold INT64_MAX. lia.
Defined.

(** explicit budgets, with or without a device list of the same length,
    become one entry per value: the device asked for (or the position) and
    exactly that many gibibytes. *)
Theorem gpu_vram_budgets (cuda : bool) (probe : option (list Z) -> ds4_gpu_config -> Z -> option ds4_gpu_config)
    (vram devs : list Z) (out : ds4_gpu_config) (with_devs : bool)
    (Hne : vram <> []) (Hz : vram <> [0]) (Hv : Forall (fun v => 0 <= v <= DS4_GPU_ARGS_MAX_VRAM_GB) vram)
    (Hl : zlen vram <= DS4_MAX_GPUS)
    (Hd : Forall (fun v => 0 <= v <= DS4_GPU_ARGS_MAX_DEVICE_INDEX) devs)
    (Hlen : if with_devs then length devs = length vram else devs = [])
    (Hout : length (device_indices out) = 16%nat /\ length (vram_bytes out) = 16%nat) :
  exists cfg,
    parse_gpu_vram_arg cuda probe (Some (csv_print vram))
      (if with_devs then Some (csv_print devs) else None) (Some out) = Some (inr (cfg, false)) /\
    n_gpus cfg = zlen vram /\ safety_margin_bytes cfg = DS4_GPU_ARGS_DEFAULT_SAFETY_MARGIN /\
    forall j, (j < length vram)%nat ->
      nth j (vram_bytes cfg) 0 = nth j vram 0 * 2 ^ 30 /\
      nth j (device_indices cfg) 0 = if with_devs then nth j devs 0 else Z.of_nat j.
Proof.
  unfold DS4_MAX_GPUS in *. destruct Hout as [Ho1 Ho2].
  assert (Hu : Forall is_u64 vram).
  { eapply Forall_impl; [exact Hv|]. unfold is_u64, U64_MAX, DS4_GPU_ARGS_MAX_VRAM_GB. intros; lia. }
  assert (Hlist : forall l maxv what, l <> [] -> zlen l <= 16 -> Forall (fun v => 0 <= v <= maxv) l ->
    maxv <= INT64_MAX -> parse_csv_int_list (Some (csv_print l)) 16 maxv what = Some (inr l)).
  { intros l maxv what Hn1 Hn2 Hn3 Hn4. unfold parse_csv_int_list.
    pose proof (parse_csv_loop_print l (length (csv_print l)) [] 16 maxv what Hn3 Hn4
      ltac:(unfold zlen in *; cbn; lia) ltac:(lia)) as H.
    destruct (csv_print_head l Hn1) as (c & ds & E & _).
    { eapply Forall_impl; [exact Hn3|]. unfold is_u64, U64_MAX, INT64_MAX in *. intros; lia. }
    rewrite E in *. rewrite H. by destruct l. }
  destruct (csv_print_head vram Hne Hu) as (c & ds & E & Hc).
  assert (Hauto : bytes_eqb (csv_print vram) (bs "auto") = false).
  { rewrite E. apply bytes_eqb_neq. intros [= -> _]. done. }
  assert (H0 : bytes_eqb (csv_print vram) (bs "0") = false).
  { apply bytes_eqb_neq. intros Heq.
    pose proof (Hlist vram DS4_GPU_ARGS_MAX_VRAM_GB [] Hne Hl Hv ltac:(unfold INT64_MAX, DS4_GPU_ARGS_MAX_VRAM_GB; lia)) as H.
    rewrite Heq in H. vm_compute in H. congruence. }
  set (out0 := GpuConfig (device_indices out) (vram_bytes out) (zlen vram) DS4_GPU_ARGS_DEFAULT_SAFETY_MARGIN).
  exists (fill_gpus 0 vram devs out0).
  destruct (fill_gpus_spec vram devs 0 out0 Hv) as (F1 & F2 & _ & F4);
    [cbn [out0 device_indices]; unfold zlen in Hl; lia | cbn [out0 vram_bytes]; unfold zlen in Hl; lia |].
  split_and!.
  - unfold parse_gpu_vram_arg, DS4_MAX_GPUS. cbn [default from_option id]. destruct with_devs; cbn iota in Hlen.
    + assert (devs <> []) by (intros ->; by destruct vram).
      rewrite (Hlist devs) by (done || (unfold zlen in *; lia) || (unfold INT64_MAX, DS4_GPU_ARGS_MAX_DEVICE_INDEX; lia)).
      cbn [default from_option id]. rewrite H0, Hauto.
      rewrite (Hlist vram) by (done || (unfold INT64_MAX, DS4_GPU_ARGS_MAX_VRAM_GB; lia)).
      replace (zlen devs =? zlen vram) with true by (symmetry; apply Z.eqb_eq; unfold zlen; lia).
      by rewrite andb_false_r.
    + subst devs. cbn [default from_option id]. rewrite H0, Hauto.
      rewrite (Hlist vram) by (done || (unfold INT64_MAX, DS4_GPU_ARGS_MAX_VRAM_GB; lia)). done.
  - done.
  - done.
  - intros j Hj. destruct (F4 j ltac:(lia)) as [G1 G2]. rewrite G1, G2, Nat.sub_0_r. split; [done|].
    destruct with_devs; [|by subst devs].
    destruct (Nat.ltb_spec 0 (length devs)); [done|]. destruct vram; [done | cbn in *; lia].
Qed.

Definition zero_config : ds4_gpu_config := GpuConfig (replicate 16 0) (replicate 16 0) 0 0.

Lemma gpu_vram_budgets_witness :
  exists cfg, parse_gpu_vram_arg false (fun _ _ _ => None) (Some (bs "40,12")) (Some (bs "3,1")) (Some zero_config)
    = Some (inr (cfg, false)) /\ n_gpus cfg = 2.
Proof.
  destruct (gpu_vram_budgets false (fun _ _ _ => None) [40; 12] [3; 1] zero_config true) as (cfg & H1 & H2 & _);
    try done; try (by apply (bool_decide_unpack _)).
  exists cfg. split; [exact H1 | exact H2].
Defined.

(** the layout line is never overrun: the buffer holds a prefix of the
    full line, shorter than the buffer, and the whole line exactly when the
    returned count is below the buffer size. *)
Theorem layout_line_prefix (cfg : ds4_gpu_config) (was_auto : bool) (outlen : nat) (Ho : (0 < outlen)%nat) :
  let line := concat (layout_pieces cfg was_auto) in
  exists b n, format_gpu_layout_line (Some cfg) was_auto outlen = (Some b, n) /\
    b = take (outlen - 1) line /\ (length b < outlen)%nat /\ n <= zlen line /\
    (n < Z.of_nat outlen <-> b = line).
Proof.
  cbv zeta. unfold format_gpu_layout_line. destruct (Nat.eqb_spec outlen 0); [lia|].
  assert (H : forall pieces buf, (length buf < outlen)%nat ->
    exists b n, print_pieces buf outlen pieces = (b, n) /\
      b = take (outlen - 1) (buf ++ concat pieces) /\ n <= zlen (buf ++ concat pieces) /\
      (n < Z.of_nat outlen <-> b = buf ++ concat pieces)).
  { induction pieces as [|s pieces IH]; intros buf Hb; cbn [print_pieces concat].
    - exists buf, (zlen buf). rewrite app_nil_r. rewrite take_ge by lia. unfold zlen. split_and!; [done | done | lia |].
      split; [done | lia].
    - unfold snprintf_at. destruct (Nat.leb_spec outlen (length buf + length s)).
      + eexists _, _. split; [done|].
        assert (Ht : take (outlen - 1) (buf ++ s ++ concat pieces) = buf ++ take (outlen - length buf - 1) s).
        { rewrite take_app_ge by lia. f_equal. rewrite take_app_le by lia. f_equal. lia. }
        split_and!; [done | unfold zlen; rewrite !length_app; lia |].
        split; [lia|]. intros Heq. apply (f_equal length) in Heq. rewrite !length_app, length_take in Heq. lia.
      + rewrite (take_ge s) by lia. destruct (IH (buf ++ s)) as (b & k & H1 & H2 & H3); [rewrite length_app; lia|].
        exists b, k. by rewrite app_assoc. }
  destruct (H (layout_pieces cfg was_auto) [] Ho) as (b & k & H1 & H2 & H3 & H4).
  exists b, k. rewrite H1. cbn [app] in *. split_and!; try done.
  subst b. rewrite length_take. lia.
Qed.

Lemma layout_line_prefix_witness :
  let cfg := GpuConfig ([0; 1] ++ replicate 14 0) ([42949672960; 12884901888] ++ replicate 14 0) 2 0 in
  concat (layout_pieces cfg true) =
    bs "ds4: GPU config: 2 devices [0,1] requested, budgets 40,12 GB; auto=true" /\
  exists b n, format_gpu_layout_line (Some cfg) true 256 = (Some b, n) /\ (length b < 256)%nat.
Proof.
  split; [vm_compute; reflexivity|].
  destruct (layout_line_prefix (GpuConfig ([0; 1] ++ replicate 14 0)
    ([42949672960; 12884901888] ++ replicate 14 0) 2 0) true 256 ltac:(lia)) as (b & k & H1 & _ & H2 & _).
  exists b, k. split; [exact H1 | exact H2].
Defined.
