(* ===== verification/SsdPlan.v ===== *)
(** SSD streaming plans and memory accounting ([ds4_ssd.c],
    [ds4_linux_memory.h]).

    Sizes given on the command line, the split of memory between the resident
    model and the expert cache, the simulated memory pressure (a locked
    mapping, as a trace of system calls), and the parsing of
    [/proc/meminfo]. *)

From S2P Require Import Prelude Libc.

#[local] Open Scope Z_scope.

Definition DS4_GIB : Z := 1024 * 1024 * 1024.

(** ** Command-line sizes *)

Definition has_gb_suffix (s : bytes) : bool :=
  let len := length s in
  (2 <? len)%nat &&
  ((cget s (len - 2) =? 103) || (cget s (len - 2) =? 71)) &&
  ((cget s (len - 1) =? 98) || (cget s (len - 1) =? 66)).

(** [None] is [false]; [have_bytes] is whether the output pointer is set. *)
Definition ds4_parse_gib_arg (s : option bytes) (have_bytes : bool) : option Z :=
  match s with
  | None | Some [] => None
  | Some s =>
      if negb have_bytes then None
      else
        let len := if has_gb_suffix s then (length s - 2)%nat else length s in
        if (len =? 0)%nat then None
        else if negb (forallb isdigit (take len s)) then None
        else if (32 <=? len)%nat then None
        else
          match strtoull (take len s) with
          | None => None
          | Some (v, _, erange) =>
              if erange || (v =? 0) || (U64_MAX / DS4_GIB <? v) then None
              else Some (u64 (v * DS4_GIB))
          end
  end.

(** The outputs [experts] and [bytes] on success. *)
Definition ds4_parse_streaming_cache_experts_arg (s : option bytes) (have_experts have_bytes : bool)
  : option (Z * Z) :=
  match s with
  | None | Some [] => None
  | Some s =>
      if negb have_experts || negb have_bytes then None
      else if has_gb_suffix s then (fun b => (0, b)) <$> ds4_parse_gib_arg (Some s) have_bytes
      else if negb (forallb isdigit s) then None
      else
        match strtoul s with
        | None => None
        | Some (v, _, erange) =>
            if erange || (v =? 0) || (U32_MAX <? v) then None else Some (v, 0)
        end
  end.

(** ** The cache plan *)

Definition ds4_ssd_cache_experts_for_byte_budget (bytes per_expert_bytes : Z) : Z :=
  if (bytes =? 0) || (per_expert_bytes =? 0) then 0
  else
    let experts := bytes / per_expert_bytes in
    if (experts =? 0) || (U32_MAX <? experts) then 0 else experts.

(** [env] is the value of [DS4_SSD_AUTO_CACHE_PCT]. *)
Definition ds4_ssd_auto_cache_percent (env : option bytes) (default_percent : Z) : Z :=
  match env with
  | None | Some [] => default_percent
  | Some env =>
      match strtoul env with
      | Some (v, [], false) => if (50 <=? v) && (v <=? 95) then v else default_percent
      | _ => default_percent
      end
  end.

Record ds4_ssd_cache_plan := CachePlan {
  model_target_bytes : Z;
  cache_bytes : Z;
  effective_cache_bytes : Z;
  cache_experts : Z
}.

Definition zero_plan : ds4_ssd_cache_plan := CachePlan 0 0 0 0.

Definition ds4_ssd_auto_cache_plan (env : option bytes)
    (recommended_bytes default_percent model_limit_bytes non_routed_bytes per_expert_bytes
     max_model_experts : Z) (have_out : bool) : bool * option ds4_ssd_cache_plan :=
  if negb have_out then (false, None)
  else if (recommended_bytes =? 0) || (per_expert_bytes =? 0) || (default_percent <? 50) ||
          (95 <? default_percent) then (false, Some zero_plan)
  else
    let pct := ds4_ssd_auto_cache_percent env default_percent in
    let target := if U64_MAX / pct <? recommended_bytes then U64_MAX
                  else u64 (recommended_bytes * pct) / 100 in
    let target := if negb (model_limit_bytes =? 0) && (model_limit_bytes <? target)
                  then model_limit_bytes else target in
    let cache := if non_routed_bytes <? target then target - non_routed_bytes else 0 in
    let experts := cache / per_expert_bytes in
    let experts := if experts =? 0 then 1 else experts in
    let experts := if negb (max_model_experts =? 0) && (max_model_experts <? experts)
                   then max_model_experts else experts in
    let experts := if U32_MAX <? experts then U32_MAX else experts in
    let plan := CachePlan target cache (u64 (experts * per_expert_bytes)) (u32 experts) in
    (negb (cache_experts plan =? 0), Some plan).

(** ** Simulated memory pressure *)

(** The system calls and stores on the mapping, by offset. *)
Inductive mem_event :=
| EvMmap (len : Z)
| EvTouch (off : Z)
| EvMlock (off len : Z)
| EvMunlock (off len : Z)
| EvMunmap (len : Z).

Record ds4_ssd_memory_lock := MemLock { ml_mapped : bool; ml_bytes : Z }.

Definition chunk_bytes : Z := 256 * 1024 * 1024.

(** [for (pos = off; pos < end; pos += page) p[pos] = ...]. *)
Fixpoint touch_pages (fuel : nat) (pos end_ page : Z) : list mem_event :=
  match fuel with
  | O => []
  | S fuel' => if pos <? end_ then EvTouch pos :: touch_pages fuel' (pos + page) end_ page else []
  end.

Section Lock.
(** What [mmap], [sysconf] and [mlock] (by offset) answer. *)
Context (mmap_ok : bool) (sysconf_page : Z) (mlock_ok : Z -> bool).

(** The loop over the chunks: whether all were locked, and the events. *)
Fixpoint lock_chunks (fuel : nat) (bytes page off locked : Z) : bool * list mem_event :=
  match fuel with
  | O => (true, [])
  | S fuel' =>
      if off <? bytes then
        let len := bytes - off in
        let len := if chunk_bytes <? len then chunk_bytes else len in
        let touches := touch_pages (Z.to_nat len) off (off + len) page ++
                       (if negb (len =? 0) then [EvTouch (off + len - 1)] else []) in
        if negb (mlock_ok off) then
          (false, touches ++ (if negb (locked =? 0) then [EvMunlock 0 locked] else []) ++ [EvMunmap bytes])
        else
          let '(ok, evs) := lock_chunks fuel' bytes page (u64 (off + chunk_bytes)) (locked + len) in
          (ok, touches ++ [EvMlock off len] ++ evs)
      else (true, [])
  end.

Definition ds4_ssd_memory_lock_acquire (have_lock : bool) (bytes : Z)
  : bool * ds4_ssd_memory_lock * list mem_event :=
  let empty := MemLock false 0 in
  if negb have_lock then (false, empty, [])
  else if bytes =? 0 then (true, empty, [])
  else if U64_MAX <? bytes then (false, empty, [])
  else if negb mmap_ok then (false, empty, [])
  else
    let page := if 0 <? sysconf_page then sysconf_page else 4096 in
    let '(ok, evs) := lock_chunks (Z.to_nat (bytes / chunk_bytes + 1)) bytes page 0 0 in
    if ok then (true, MemLock true bytes, EvMmap bytes :: evs)
    else (false, empty, EvMmap bytes :: evs).
End Lock.

Definition ds4_ssd_memory_lock_release (lock : option ds4_ssd_memory_lock)
  : option ds4_ssd_memory_lock * list mem_event :=
  match lock with
  | None => (None, [])
  | Some l =>
      if negb (ml_mapped l) || (ml_bytes l =? 0) then (Some l, [])
      else (Some (MemLock false 0), [EvMunlock 0 (ml_bytes l); EvMunmap (ml_bytes l)])
  end.

(** ** [/proc/meminfo] *)

(** [fgets] with a 256-byte buffer: up to 255 bytes, through the newline. *)
Fixpoint fgets (n : nat) (s : bytes) : bytes * bytes :=
  match n, s with
  | O, _ | _, [] => ([], s)
  | S n', c :: s' =>
      if c =? 10 then ([c], s') else let '(l, r) := fgets n' s' in (c :: l, r)
  end.

(** [sscanf(line, "<label> %llu kB", &kib) == 1] for a label without blanks. *)
Definition sscanf_kib (label line : bytes) : option Z :=
  if starts_with label line then
    match strtoull (drop (length label) line) with
    | Some (v, _, _) => Some v
    | None => None
    end
  else None.

(** The loop over the lines; [None] is [return false]. *)
Fixpoint meminfo_loop (fuel : nat) (fp : bytes) (available cma : Z) (found : bool)
  : option (Z * Z * bool) :=
  match fuel, fp with
  | O, _ | _, [] => Some (available, cma, found)
  | S fuel', _ =>
      let '(line, fp') := fgets 255 fp in
      match sscanf_kib (bs "MemAvailable:") line with
      | Some kib =>
          if U64_MAX / 1024 <? kib then None else meminfo_loop fuel' fp' (kib * 1024) cma true
      | None =>
          match sscanf_kib (bs "CmaFree:") line with
          | Some kib =>
              if U64_MAX / 1024 <? kib then None else meminfo_loop fuel' fp' available (kib * 1024) found
          | None => meminfo_loop fuel' fp' available cma found
          end
      end
  end.

Definition ds4_linux_nonmovable_memory_parse (fp : bytes) (ferror : bool) : option Z :=
  match meminfo_loop (length fp) fp 0 0 false with
  | None => None
  | Some (available, cma, found) =>
      if negb found || ferror then None
      else Some (if cma <? available then available - cma else 0)
  end.

Definition ds4_linux_nonmovable_memory (file : option bytes) (ferror : bool) : option Z :=
  match file with
  | None => None
  | Some fp => ds4_linux_nonmovable_memory_parse fp ferror
  end.

Example meminfo_example :
  ds4_linux_nonmovable_memory_parse
    (bs "MemTotal:       100 kB" ++ [10] ++ bs "MemAvailable:   90 kB" ++ [10] ++ bs "CmaFree:        20 kB" ++ [10])
    false = Some (70 * 1024).
Proof. vm_compute. reflexivity. Qed.

(** ** The state machine of a locked mapping *)

(** Bytes mapped and the length of the locked prefix, if mapped. *)
Definition mem_state := option (Z * Z).

(** A step is allowed when it stays inside the mapping, locks the next bytes
    in order, unlocks exactly what is locked, and unmaps only unlocked
    memory. *)
Definition mem_step (s : mem_state) (e : mem_event) : option mem_state :=
  match s, e with
  | None, EvMmap n => if 0 <? n then Some (Some (n, 0)) else None
  | Some (n, l), EvTouch o => if (l <=? o) && (o <? n) then Some (Some (n, l)) else None
  | Some (n, l), EvMlock off len =>
      if (off =? l) && (0 <? len) && (off + len <=? n) then Some (Some (n, l + len)) else None
  | Some (n, l), EvMunlock off len =>
      if (off =? 0) && (len =? l) && (0 <? l) then Some (Some (n, 0)) else None
  | Some (n, l), EvMunmap len => if (l =? 0) && (len =? n) then Some None else None
  | _, _ => None
  end.

Fixpoint replay (s : mem_state) (evs : list mem_event) : option mem_state :=
  match evs with
  | [] => Some s
  | e :: evs => match mem_step s e with Some s' => replay s' evs | None => None end
  end.

Lemma replay_app s evs1 evs2 :
  replay s (evs1 ++ evs2) = match replay s evs1 with Some s' => replay s' evs2 | None => None end.
Proof.
  revert s. induction evs1 as [|e evs1 IH]; intros s; cbn [app replay]; [done|].
  destruct (mem_step s e); [apply IH | done].
Qed.

Lemma touch_pages_replay fuel : forall pos end_ page n l,
  l <= pos -> end_ <= n -> 0 < page -> replay (Some (n, l)) (touch_pages fuel pos end_ page) = Some (Some (n, l)).
Proof.
  induction fuel as [|fuel IH]; intros pos end_ page n l H1 H2 H3; cbn [touch_pages]; [done|].
  case_if; bool_prop; [|done]. cbn [replay mem_step].
  rewrite (proj2 (Z.leb_le l pos)), (proj2 (Z.ltb_lt pos n)) by lia. cbn [andb]. apply IH; lia.
Qed.

Lemma lock_chunks_replay mlock_ok fuel : forall bytes page off,
  0 < bytes -> bytes <= 2 ^ 63 -> 0 < page -> 0 <= off ->
  (bytes - off <= Z.of_nat fuel * chunk_bytes) ->
  let locked := Z.min off bytes in
  let '(ok, evs) := lock_chunks mlock_ok fuel bytes page off locked in
  replay (Some (bytes, locked)) evs = Some (if ok then Some (bytes, bytes) else None).
Proof.
  unfold chunk_bytes. induction fuel as [|fuel IH]; intros bytes page off Hb Hmax Hp Ho Hf; cbn [lock_chunks].
  { cbn [replay]. by replace (Z.min off bytes) with bytes by lia. }
  destruct (Z.ltb_spec off bytes) as [Hlt|Hge].
  2:{ cbn [replay]. by replace (Z.min off bytes) with bytes by lia. }
  replace (Z.min off bytes) with off by lia. unfold chunk_bytes.
  set (len := if 256 * 1024 * 1024 <? bytes - off then 256 * 1024 * 1024 else bytes - off).
  assert (Hlen : 0 < len <= 256 * 1024 * 1024 /\ off + len <= bytes /\
    Z.min (off + 256 * 1024 * 1024) bytes = off + len) by (unfold len; case_if; bool_prop; lia).
  destruct Hlen as (Hl1 & Hl2 & Hl3).
  set (touches := touch_pages _ off (off + len) page ++ _).
  assert (Ht : replay (Some (bytes, off)) touches = Some (Some (bytes, off))).
  { unfold touches. rewrite replay_app, touch_pages_replay by lia.
    rewrite (proj2 (Z.eqb_neq len 0)) by lia. cbn [negb replay mem_step].
    by rewrite (proj2 (Z.leb_le off (off + len - 1))), (proj2 (Z.ltb_lt (off + len - 1) bytes)) by lia. }
  destruct (mlock_ok off); cbn [negb].
  - change (2 ^ 63) with 9223372036854775808 in Hmax.
    rewrite u64_small by (unfold is_u64, U64_MAX; lia).
    specialize (IH bytes page (off + 256 * 1024 * 1024) Hb Hmax Hp ltac:(lia) ltac:(lia)).
    cbv zeta in IH. rewrite Hl3 in IH.
    destruct (lock_chunks mlock_ok fuel bytes page (off + 256 * 1024 * 1024) (off + len)) as [ok evs].
    rewrite replay_app, Ht. cbn [app replay mem_step].
    rewrite Z.eqb_refl, (proj2 (Z.ltb_lt 0 len)), (proj2 (Z.leb_le (off + len) bytes)) by lia. exact IH.
  - rewrite replay_app, Ht. destruct (Z.eqb_spec off 0) as [->|]; cbn [negb app replay mem_step].
    + by rewrite !Z.eqb_refl.
    + rewrite !Z.eqb_refl, (proj2 (Z.ltb_lt 0 off)) by lia. cbn. by rewrite Z.eqb_refl.
Qed.

(** ** Facts on the plan *)

Lemma auto_cache_percent_range env d : 50 <= d <= 95 -> 50 <= ds4_ssd_auto_cache_percent env d <= 95.
Proof.
  intros H. unfold ds4_ssd_auto_cache_percent. destruct env as [[|c env]|]; try done.
  destruct (strtoul (c :: env)) as [[[v [|]] [|]]|]; try done. case_if; bool_prop; lia.
Qed.

Lemma no_gb_suffix_digits ds : digits_ok ds -> has_gb_suffix ds = false.
Proof.
  intros H. unfold has_gb_suffix. destruct (Nat.ltb_spec 2 (length ds)); [|done]. cbn [andb].
  assert (Hb : isdigit (cget ds (length ds - 1)) = true).
  { rewrite List.Forall_forall in H. apply H. unfold cget. apply nth_In. lia. }
  apply isdigit_val in Hb.
  replace ((cget ds (length ds - 1) =? 98) || (cget ds (length ds - 1) =? 66)) with false
    by (symmetry; apply orb_false_iff; lia).
  apply andb_false_r.
Qed.

Lemma dec_digits_length fuel n : (length (dec_digits fuel n) <= fuel)%nat.
Proof.
  revert n. induction fuel as [|fuel IH]; intros n; cbn [dec_digits]; [done|].
  rewrite length_app. cbn [length]. specialize (IH (n / 10)). case_if; cbn [length]; lia.
Qed.

Lemma forallb_digits ds : digits_ok ds -> forallb isdigit ds = true.
Proof. intros H. apply forallb_forall. by rewrite List.Forall_forall in H. Qed.

(** ** Properties *)

(** on sound inputs the plan succeeds; the model target is the requested
    percentage of the recommended size (or the explicit limit), the cache
    never takes more than what the resident weights leave, except that one
    expert is always planned, and the byte count of the experts is exact. *)
Theorem ssd_plan_bounds (env : option bytes) (rec pct0 limit non_routed per_expert max_experts : Z)
    (Hr : 0 < rec <= U64_MAX) (Hp : 50 <= pct0 <= 95) (Hl : is_u64 limit) (Hn : is_u64 non_routed)
    (He : 0 < per_expert <= U64_MAX) (Hm : is_u64 max_experts)
    (Hbig : rec <= U64_MAX / 95) :
  exists p, ds4_ssd_auto_cache_plan env rec pct0 limit non_routed per_expert max_experts true = (true, Some p) /\
    (let pct := ds4_ssd_auto_cache_percent env pct0 in
     model_target_bytes p = (if (limit =? 0) then rec * pct / 100 else Z.min limit (rec * pct / 100))) /\
    cache_bytes p = Z.max 0 (model_target_bytes p - non_routed) /\
    1 <= cache_experts p <= U32_MAX /\
    effective_cache_bytes p = cache_experts p * per_expert /\
    (per_expert <= cache_bytes p -> effective_cache_bytes p <= cache_bytes p) /\
    (max_experts <> 0 -> cache_experts p <= max_experts).
Proof.
  unfold is_u64, U64_MAX, U32_MAX in *. unfold ds4_ssd_auto_cache_plan. cbn [negb].
  replace ((rec =? 0) || (per_expert =? 0) || (pct0 <? 50) || (95 <? pct0)) with false
    by (symmetry; repeat (apply orb_false_iff; split); lia).
  pose proof (auto_cache_percent_range env pct0 Hp) as Hpct.
  set (pct := ds4_ssd_auto_cache_percent env pct0) in *. cbv zeta.
  change (18446744073709551615 / 95) with 194176253407468964 in Hbig.
  assert (Hq : 194176253407468964 <= U64_MAX / pct).
  { unfold U64_MAX. apply Z.div_le_lower_bound; lia. }
  rewrite (proj2 (Z.ltb_ge (U64_MAX / pct) rec)) by lia.
  rewrite (u64_small (rec * pct)) by (unfold is_u64, U64_MAX; nia).
  set (t0 := rec * pct / 100).
  assert (Ht0 : 0 <= t0 <= 18446744073709551615) by (unfold t0; split; [apply Z.div_pos | apply Z.div_le_upper_bound]; nia).
  set (t := if negb (limit =? 0) && (limit <? t0) then limit else t0).
  assert (Ht : t = (if limit =? 0 then t0 else Z.min limit t0) /\ 0 <= t <= 18446744073709551615).
  { unfold t. destruct (Z.eqb_spec limit 0); cbn [negb andb]; [lia|]. destruct (Z.ltb_spec limit t0); lia. }
  destruct Ht as [Ht Htr].
  set (c := if non_routed <? t then t - non_routed else 0).
  assert (Hc : c = Z.max 0 (t - non_routed)) by (unfold c; case_if; bool_prop; lia).
  set (e0 := c / per_expert).
  assert (He0 : 0 <= e0 /\ e0 * per_expert <= c).
  { unfold e0. split; [apply Z.div_pos; lia|]. rewrite Z.mul_comm. apply Z.mul_div_le. lia. }
  set (e1 := if e0 =? 0 then 1 else e0).
  set (e2 := if negb (max_experts =? 0) && (max_experts <? e1) then max_experts else e1).
  set (e3 := if U32_MAX <? e2 then U32_MAX else e2).
  assert (H1 : 1 <= e1 /\ (e1 <= e0 \/ e0 = 0 /\ e1 = 1)) by (unfold e1; case_if; bool_prop; lia).
  assert (H2 : 1 <= e2 <= e1 /\ (max_experts <> 0 -> e2 <= max_experts)).
  { unfold e2. destruct (Z.eqb_spec max_experts 0); cbn [negb andb]; [lia|]. case_if; bool_prop; lia. }
  assert (H3 : 1 <= e3 <= 4294967295 /\ e3 <= e2) by (unfold e3, U32_MAX; case_if; bool_prop; lia).
  assert (Heff : e3 * per_expert <= Z.max c per_expert).
  { assert (Hpe : 0 <= per_expert) by lia. clear -H1 H2 H3 He0 Hpe. destruct H1 as [_ [H1|[H1 H1']]].
    - assert (e3 * per_expert <= e0 * per_expert) by (apply Z.mul_le_mono_nonneg_r; lia). lia.
    - assert (e3 = 1) by lia. subst e3. lia. }
  eexists. split; [f_equal; cbn [cache_experts]|].
  { rewrite u32_small by (unfold is_u32, U32_MAX; lia). rewrite (proj2 (Z.eqb_neq e3 0)) by lia. reflexivity. }
  cbn [model_target_bytes cache_bytes cache_experts effective_cache_bytes].
  rewrite u32_small by (unfold is_u32, U32_MAX; lia). rewrite u64_small by (unfold is_u64, U64_MAX; lia).
  clear Hbig Hq Ht0. clearbody e0 e1 e2 e3 t0. split_and!; try done; try lia.
Qed.

Lemma ssd_plan_bounds_witness :
  exists p, ds4_ssd_auto_cache_plan (Some (bs "90")) 137438953472 80 0 20000000000 14155776 0 true = (true, Some p) /\
    cache_experts p = 7325 /\ effective_cache_bytes p = cache_experts p * 14155776.
Proof.
  pose proof (ssd_plan_bounds (Some (bs "90")) 137438953472 80 0 20000000000 14155776 0) as H0.
  do 7 (specialize (H0 ltac:(first [vm_compute; discriminate | vm_compute; split; discriminate
    | vm_compute; split; [reflexivity | discriminate]]))).
  destruct H0 as (p & H & _ & _ & _ & He & _).
  exists p. split; [exact H|]. split; [|exact He].
  vm_compute in H. injection H as <-. reflexivity.
Defined.

(** The suffixes that are cut off. *)
Definition gb_suffix (suffix : bytes) : Prop := suffix ∈ [[]; bs "GB"; bs "gb"; bs "Gb"; bs "gB"].

(** After digits, the suffix test leaves exactly the digits. *)
Lemma gb_cut ds suffix : gb_suffix suffix -> digits_ok ds -> (0 < length ds)%nat ->
  (if has_gb_suffix (ds ++ suffix) then (length (ds ++ suffix) - 2)%nat else length (ds ++ suffix)) =
  length ds.
Proof.
  intros Hs Hd Hpos.
  assert (Hsuf : forall a b, suffix = [a; b] -> (a = 103 \/ a = 71) -> (b = 98 \/ b = 66) ->
    (if has_gb_suffix (ds ++ suffix) then (length (ds ++ suffix) - 2)%nat else length (ds ++ suffix)) =
    length ds).
  { intros a b -> Ha Hb. unfold has_gb_suffix. rewrite length_app. cbn [length].
    destruct (Nat.ltb_spec 2 (length ds + 2)); [|lia]. unfold cget.
    rewrite !app_nth2 by lia. replace (length ds + 2 - 2 - length ds)%nat with 0%nat by lia.
    replace (length ds + 2 - 1 - length ds)%nat with 1%nat by lia.
    destruct Ha as [->| ->], Hb as [->| ->]; cbn; lia. }
  unfold gb_suffix in Hs. rewrite !elem_of_cons in Hs. destruct Hs as [->|[->|[->|[->|[->|Hs]]]]].
  - rewrite app_nil_r. by rewrite no_gb_suffix_digits.
  - apply (Hsuf 71 66); auto.
  - apply (Hsuf 103 98); auto.
  - apply (Hsuf 71 98); auto.
  - apply (Hsuf 103 66); auto.
  - by apply not_elem_of_nil in Hs.
Qed.

(** A printed number with a suffix is accepted when it is positive and fits. *)
Lemma gib_arg_printed v suffix : gb_suffix suffix -> is_u64 v ->
  ds4_parse_gib_arg (Some (dec_print v ++ suffix)) true =
  (if (0 <? v) && (v <=? U64_MAX / DS4_GIB) then Some (v * DS4_GIB) else None).
Proof.
  intros Hs Hv. destruct (dec_print_spec v Hv) as (H1 & H2 & H3).
  pose proof (dec_digits_length 20 v) as Hlen. fold (dec_print v) in Hlen. set (ds := dec_print v) in *.
  assert (Hpos : (0 < length ds)%nat) by (destruct ds; [done | cbn; lia]).
  pose proof (gb_cut ds suffix Hs H2 Hpos) as Hcut.
  unfold ds4_parse_gib_arg. destruct (ds ++ suffix) as [|c s'] eqn:E.
  { apply app_eq_nil in E as [E _]. done. }
  rewrite <- E in *. cbn [negb]. rewrite Hcut, take_app_length, forallb_digits by done.
  destruct (Nat.eqb_spec (length ds) 0); [lia|]. cbn [negb].
  destruct (Nat.leb_spec 32 (length ds)); [lia|].
  rewrite <- (app_nil_r ds), strtoull_digits, H3; [| done | done | done | rewrite H3; apply Hv].
  cbn [orb]. unfold is_u64 in Hv.
  destruct (Z.eqb_spec v 0) as [->|]; [done|]. cbn [orb].
  destruct (Z.ltb_spec 0 v); [|lia]. cbn [andb].
  rewrite Z.leb_antisym. destruct (Z.ltb_spec (U64_MAX / DS4_GIB) v); [done|]. cbn [negb].
  rewrite u64_small; [done|]. unfold is_u64, U64_MAX, DS4_GIB in *.
  change (18446744073709551615 / (1024 * 1024 * 1024)) with 17179869183 in *. lia.
Qed.

(** What is accepted is a positive number of whole gibibytes. *)
Lemma gib_arg_sound s b : ds4_parse_gib_arg s true = Some b -> 0 < b <= U64_MAX /\ (DS4_GIB | b).
Proof.
  destruct s as [[|c s]|]; unfold ds4_parse_gib_arg; cbn [negb]; try done.
  set (len := if has_gb_suffix (c :: s) then _ else _).
  case_if; [done|]. case_if; [done|]. case_if; [done|].
  destruct (strtoull (take len (c :: s))) as [[[w r] er]|] eqn:Es; [|done].
  apply strtoull_spec in Es as [Hw _]. case_if; [done|]. intros [= <-]. bool_prop.
  unfold is_u64, U64_MAX, DS4_GIB in *.
  change (18446744073709551615 / (1024 * 1024 * 1024)) with 17179869183 in *.
  rewrite u64_small by (unfold is_u64, U64_MAX; lia). split; [lia|]. by exists w.
Qed.

(** a size is accepted exactly when it is written as digits, with or
    without a GB suffix, of a positive count of gibibytes that fits 64 bits,
    and it is then that many bytes. *)
Theorem gib_arg_roundtrip (v : Z) (suffix : bytes)
    (Hs : gb_suffix suffix) (Hv : is_u64 v) :
  ds4_parse_gib_arg (Some (dec_print v ++ suffix)) true =
    (if (0 <? v) && (v <=? U64_MAX / DS4_GIB) then Some (v * DS4_GIB) else None) /\
  forall s b, ds4_parse_gib_arg s true = Some b -> 0 < b <= U64_MAX /\ (DS4_GIB | b).
Proof. split; [by apply gib_arg_printed | apply gib_arg_sound]. Qed.

Lemma gib_arg_roundtrip_witness :
  ds4_parse_gib_arg (Some (dec_print 64 ++ bs "GB")) true = Some (64 * DS4_GIB).
Proof. exact (proj1 (gib_arg_roundtrip 64 (bs "GB") ltac:(unfold gb_suffix; set_solver) ltac:(unfold is_u64, U64_MAX; lia))). Defined.

(** acquiring the lock runs only allowed steps; on success the whole
    mapping is locked, in order and without gaps, and releasing it undoes
    everything; on failure nothing stays locked or mapped. *)
Theorem memory_lock_balanced (mmap_ok : bool) (page : Z) (mlock_ok : Z -> bool) (bytes : Z)
    (Hb : 0 <= bytes <= 2 ^ 63) :
  let '(ok, lock, evs) := ds4_ssd_memory_lock_acquire mmap_ok page mlock_ok true bytes in
  let '(lock', evs') := ds4_ssd_memory_lock_release (Some lock) in
  replay None evs = Some (if ok && (0 <? bytes) then Some (bytes, bytes) else None) /\
  replay None (evs ++ evs') = Some None /\ lock' = Some (MemLock false 0).
Proof.
  assert (H63 : 2 ^ 63 = 9223372036854775808) by done. rewrite H63 in Hb.
  unfold ds4_ssd_memory_lock_acquire. cbn [negb].
  destruct (Z.eqb_spec bytes 0) as [->|Hne]; [done|].
  destruct (Z.ltb_spec U64_MAX bytes); [unfold U64_MAX in *; lia|].
  destruct mmap_ok; cbn [negb]; [|done].
  set (pg := if 0 <? page then page else 4096).
  assert (Hpg : 0 < pg) by (unfold pg; case_if; bool_prop; lia).
  pose proof (lock_chunks_replay mlock_ok (Z.to_nat (bytes / chunk_bytes + 1)) bytes pg 0
    ltac:(lia) ltac:(lia) Hpg ltac:(lia)) as Hr.
  assert (Hfuel : bytes - 0 <= Z.of_nat (Z.to_nat (bytes / chunk_bytes + 1)) * chunk_bytes).
  { unfold chunk_bytes. assert (0 <= bytes / (256 * 1024 * 1024)) by zdiv. rewrite Z2Nat.id by lia. zdiv. }
  specialize (Hr Hfuel). cbv zeta in Hr. replace (Z.min 0 bytes) with 0 in Hr by lia.
  destruct (lock_chunks mlock_ok _ bytes pg 0 0) as [ok evs].
  assert (Hm : forall l, replay None (EvMmap bytes :: l) = replay (Some (bytes, 0)) l).
  { intros l. cbn [replay mem_step]. by rewrite (proj2 (Z.ltb_lt 0 bytes)) by lia. }
  destruct ok; cbn [ds4_ssd_memory_lock_release ml_mapped ml_bytes negb orb].
  - rewrite (proj2 (Z.eqb_neq bytes 0)) by lia. cbn [app]. rewrite !Hm, replay_app, Hr.
    rewrite (proj2 (Z.ltb_lt 0 bytes)) by lia. cbn [andb]. split_and!; [done | | done].
    cbn [replay mem_step]. rewrite !Z.eqb_refl, (proj2 (Z.ltb_lt 0 bytes)) by lia. cbn. by rewrite Z.eqb_refl.
  - cbn [andb app]. rewrite app_nil_r, Hm. done.
Qed.

Lemma memory_lock_balanced_witness :
  let '(ok, lock, evs) := ds4_ssd_memory_lock_acquire true 4096 (fun _ => false) true 5000 in
  ok = false /\ replay None evs = Some None.
Proof.
  pose proof (memory_lock_balanced true 4096 (fun _ => false) 5000 ltac:(lia)) as H.
  destruct (ds4_ssd_memory_lock_acquire true 4096 (fun _ => false) true 5000) as [[ok lock] evs] eqn:E.
  destruct (ds4_ssd_memory_lock_release (Some lock)) as [lock' evs'].
  vm_compute in E. injection E as <- <- <-. split; [reflexivity | exact (proj1 H)].
Defined.
