(* ===== verification/Gguf.v ===== *)
(** GGUF model files ([ds4.c], the parsing part).

    A model is a mapped file: a header, a metadata table and a tensor
    directory, whose values and tensor bytes stay in the mapping.  The file
    models the bounds-checked cursor, the metadata walker, the typed lookups
    and the tensor directory, on a little-endian host.  The theorems show the
    walker terminates on every file and skips exactly an encoded value,
    that lookups return what the table stores, and that every tensor of an
    accepted model lies inside the file. *)

From Stdlib Require Import Floats.SpecFloat.
From S2P Require Import Prelude Float64.

#[local] Open Scope Z_scope.

(** ** The cursor *)

Record ds4_cursor := Cursor {
  c_base : bytes;
  c_size : Z;
  c_pos : Z;
  c_error : option (bytes * Z)
}.

Definition set_pos (c : ds4_cursor) (p : Z) : ds4_cursor := Cursor (c_base c) (c_size c) p (c_error c).

(** Results: a value, [return false], or a loop out of fuel. *)
Inductive cres (A : Type) := COk (a : A) | CFail | CFuel.
Arguments COk {A} a.
Arguments CFail {A}.
Arguments CFuel {A}.

Definition CM (A : Type) : Type := ds4_cursor -> cres A * ds4_cursor.

Definition cret {A} (a : A) : CM A := fun c => (COk a, c).

Definition cbind {A B} (m : CM A) (k : A -> CM B) : CM B :=
  fun c => match m c with
           | (COk a, c') => k a c'
           | (CFail, c') => (CFail, c')
           | (CFuel, c') => (CFuel, c')
           end.

Declare Scope cursor_scope.
Notation "x <~ m ; k" := (cbind m (fun x => k))
  (at level 100, m at next level, k at level 200, right associativity) : cursor_scope.
Open Scope cursor_scope.

(** Only the first error is kept. *)
Definition cursor_error (msg : bytes) (c : ds4_cursor) : ds4_cursor :=
  match c_error c with
  | None => Cursor (c_base c) (c_size c) (c_pos c) (Some (msg, c_pos c))
  | Some _ => c
  end.

Definition cursor_fail {A} (msg : bytes) : CM A := fun c => (CFail, cursor_error msg c).

Definition cursor_has (n : Z) : CM unit :=
  fun c => if (c_size c <? n) || (c_size c - n <? c_pos c)
           then cursor_fail (bs "truncated GGUF file") c else (COk tt, c).

Definition cursor_read (n : Z) : CM bytes :=
  _ <~ cursor_has n;
  fun c => (COk (take (Z.to_nat n) (drop (Z.to_nat (c_pos c)) (c_base c))), set_pos c (c_pos c + n)).

Definition cursor_skip (n : Z) : CM unit :=
  _ <~ cursor_has n; fun c => (COk tt, set_pos c (c_pos c + n)).

Definition cursor_u32 : CM Z := b <~ cursor_read 4; cret (le_val b).
Definition cursor_u64 : CM Z := b <~ cursor_read 8; cret (le_val b).

(** The string points into the mapping: its bytes. *)
Definition cursor_string : CM bytes :=
  len <~ cursor_u64;
  _ <~ cursor_has len;
  fun c => (COk (take (Z.to_nat len) (drop (Z.to_nat (c_pos c)) (c_base c))), set_pos c (c_pos c + len)).

Definition align_up (value alignment : Z) : Z :=
  let rem := value mod alignment in
  if rem =? 0 then value else u64 (value + alignment - rem).

(** ** Value and tensor types *)

Definition GGUF_VALUE_UINT8 : Z := 0.
Definition GGUF_VALUE_INT8 : Z := 1.
Definition GGUF_VALUE_UINT16 : Z := 2.
Definition GGUF_VALUE_INT16 : Z := 3.
Definition GGUF_VALUE_UINT32 : Z := 4.
Definition GGUF_VALUE_INT32 : Z := 5.
Definition GGUF_VALUE_FLOAT32 : Z := 6.
Definition GGUF_VALUE_BOOL : Z := 7.
Definition GGUF_VALUE_STRING : Z := 8.
Definition GGUF_VALUE_ARRAY : Z := 9.
Definition GGUF_VALUE_UINT64 : Z := 10.
Definition GGUF_VALUE_INT64 : Z := 11.
Definition GGUF_VALUE_FLOAT64 : Z := 12.

Definition scalar_value_size (type : Z) : Z :=
  if (type =? GGUF_VALUE_UINT8) || (type =? GGUF_VALUE_INT8) || (type =? GGUF_VALUE_BOOL) then 1
  else if (type =? GGUF_VALUE_UINT16) || (type =? GGUF_VALUE_INT16) then 2
  else if (type =? GGUF_VALUE_UINT32) || (type =? GGUF_VALUE_INT32) || (type =? GGUF_VALUE_FLOAT32) then 4
  else if (type =? GGUF_VALUE_UINT64) || (type =? GGUF_VALUE_INT64) || (type =? GGUF_VALUE_FLOAT64) then 8
  else 0.

Record gguf_type_info := TypeInfo { ti_name : bytes; ti_block_elems : Z; ti_block_bytes : Z }.

(** The array, with its gaps. *)
Definition gguf_types : list (Z * gguf_type_info) :=
  [(0, TypeInfo (bs "f32") 1 4); (1, TypeInfo (bs "f16") 1 2); (2, TypeInfo (bs "q4_0") 32 18);
   (3, TypeInfo (bs "q4_1") 32 20); (6, TypeInfo (bs "q5_0") 32 22); (7, TypeInfo (bs "q5_1") 32 24);
   (8, TypeInfo (bs "q8_0") 32 34); (9, TypeInfo (bs "q8_1") 32 40); (10, TypeInfo (bs "q2_k") 256 84);
   (11, TypeInfo (bs "q3_k") 256 110); (12, TypeInfo (bs "q4_k") 256 144);
   (13, TypeInfo (bs "q5_k") 256 176); (14, TypeInfo (bs "q6_k") 256 210);
   (15, TypeInfo (bs "q8_k") 256 292); (16, TypeInfo (bs "iq2_xxs") 256 66);
   (17, TypeInfo (bs "iq2_xs") 256 74); (18, TypeInfo (bs "iq3_xxs") 256 98);
   (19, TypeInfo (bs "iq1_s") 256 110); (20, TypeInfo (bs "iq4_nl") 256 50);
   (21, TypeInfo (bs "iq3_s") 256 110); (22, TypeInfo (bs "iq2_s") 256 82);
   (23, TypeInfo (bs "iq4_xs") 256 136); (24, TypeInfo (bs "i8") 1 1); (25, TypeInfo (bs "i16") 1 2);
   (26, TypeInfo (bs "i32") 1 4); (27, TypeInfo (bs "i64") 1 8); (28, TypeInfo (bs "f64") 1 8);
   (29, TypeInfo (bs "iq1_m") 256 56); (30, TypeInfo (bs "bf16") 1 2); (39, TypeInfo (bs "mxfp4") 32 17)].

Definition tensor_type (type : Z) : option gguf_type_info :=
  snd <$> List.find (fun p => fst p =? type) gguf_types.

Definition tensor_type_name (type : Z) : bytes :=
  match tensor_type type with Some i => ti_name i | None => bs "unknown" end.

Definition tensor_nbytes (type elements : Z) : option Z :=
  match tensor_type type with
  | None => None
  | Some info =>
      if ti_block_elems info =? 0 then None
      else
        let blocks := u64 (elements + ti_block_elems info - 1) / ti_block_elems info in
        if U64_MAX / ti_block_bytes info <? blocks then None
        else Some (u64 (blocks * ti_block_bytes info))
  end.

(** ** Walking a metadata value *)

(** [for (i = 0; i < len; i++) if (!skip_value(...)) return false;] *)
Fixpoint items_loop (fuel : nat) (skip : CM unit) (i len : Z) : CM unit :=
  fun c =>
    if i <? len then
      match fuel with
      | O => (CFuel, c)
      | S fuel' => (_ <~ skip; items_loop fuel' skip (i + 1) len) c
      end
    else (COk tt, c).

(** [levels] is 9 - depth: the function refuses depth 9. *)
Fixpoint skip_value (levels : nat) (type : Z) : CM unit :=
  match levels with
  | O => cursor_fail (bs "metadata array nesting is too deep")
  | S levels' =>
      let scalar := scalar_value_size type in
      if negb (scalar =? 0) then cursor_skip scalar
      else if type =? GGUF_VALUE_STRING then _ <~ cursor_string; cret tt
      else if type =? GGUF_VALUE_ARRAY then
        item_type <~ cursor_u32;
        len <~ cursor_u64;
        let item_size := scalar_value_size item_type in
        if negb (item_size =? 0) then
          if U64_MAX / item_size <? len then cursor_fail (bs "metadata array is too large")
          else cursor_skip (u64 (len * item_size))
        else fun c => items_loop (S (Z.to_nat (c_size c - c_pos c))) (skip_value levels' item_type) 0 len c
      else cursor_fail (bs "unknown GGUF metadata type")
  end.

Definition top_levels : nat := 9.

(** ** The model *)

Record ds4_kv := Kv { kv_key : bytes; kv_type : Z; kv_value_pos : Z }.

Record ds4_tensor := Tensor {
  tn_name : bytes;
  tn_ndim : Z;
  tn_dim : list Z;
  tn_type : Z;
  tn_rel_offset : Z;
  tn_abs_offset : Z;
  tn_elements : Z;
  tn_bytes : Z
}.

Record ds4_model := Model {
  m_map : bytes;
  m_size : Z;
  m_version : Z;
  m_n_kv : Z;
  m_n_tensors : Z;
  m_alignment : Z;
  m_tensor_data_pos : Z;
  m_max_tensor_bytes : Z;
  m_kv : list ds4_kv;
  m_tensors : list ds4_tensor
}.

Definition cursor_at (m : ds4_model) (pos : Z) : ds4_cursor := Cursor (m_map m) (m_size m) pos None.

Definition model_find_kv (m : ds4_model) (key : bytes) : option ds4_kv :=
  List.find (fun kv => bytes_eqb (kv_key kv) key) (m_kv m).

(** Read at a value's position; [None] is [false]. *)
Definition read_at {A} (m : ds4_model) (pos : Z) (r : CM A) : option A :=
  match r (cursor_at m pos) with (COk a, _) => Some a | _ => None end.

Definition model_get_string (m : ds4_model) (key : bytes) : option bytes :=
  match model_find_kv m key with
  | Some kv => if kv_type kv =? GGUF_VALUE_STRING then read_at m (kv_value_pos kv) cursor_string else None
  | None => None
  end.

Definition model_get_u32 (m : ds4_model) (key : bytes) : option Z :=
  match model_find_kv m key with
  | Some kv => if kv_type kv =? GGUF_VALUE_UINT32 then read_at m (kv_value_pos kv) cursor_u32 else None
  | None => None
  end.

(** Two's complement values of 32 and 64 bits. *)
Definition s32 (v : Z) : Z := if v <=? INT32_MAX then v else v - 4294967296.
Definition s64 (v : Z) : Z := if v <=? INT64_MAX then v else v - 18446744073709551616.

Definition model_get_token_id (m : ds4_model) (key : bytes) : option Z :=
  match model_find_kv m key with
  | None => None
  | Some kv =>
      let p := kv_value_pos kv in
      if kv_type kv =? GGUF_VALUE_UINT32 then
        v ← read_at m p cursor_u32; if INT32_MAX <? v then None else Some v
      else if kv_type kv =? GGUF_VALUE_INT32 then
        v ← read_at m p cursor_u32; if s32 v <? 0 then None else Some (s32 v)
      else if kv_type kv =? GGUF_VALUE_UINT64 then
        v ← read_at m p cursor_u64; if INT32_MAX <? v then None else Some v
      else if kv_type kv =? GGUF_VALUE_INT64 then
        v ← read_at m p cursor_u64;
        if (s64 v <? 0) || (INT32_MAX <? s64 v) then None else Some (s64 v)
      else None
  end.

Definition model_get_u64_compat (m : ds4_model) (key : bytes) : option Z :=
  match model_find_kv m key with
  | None => None
  | Some kv =>
      if kv_type kv =? GGUF_VALUE_UINT64 then read_at m (kv_value_pos kv) cursor_u64
      else if kv_type kv =? GGUF_VALUE_UINT32 then read_at m (kv_value_pos kv) cursor_u32
      else None
  end.

Definition model_get_f32_compat (m : ds4_model) (key : bytes) : option spec_float :=
  match model_find_kv m key with
  | None => None
  | Some kv =>
      let p := kv_value_pos kv in
      if kv_type kv =? GGUF_VALUE_FLOAT32 then f32_of_bits <$> read_at m p cursor_u32
      else if kv_type kv =? GGUF_VALUE_FLOAT64 then
        (fun b => F32.of_f64 (f64_of_bits b)) <$> read_at m p cursor_u64
      else if kv_type kv =? GGUF_VALUE_UINT32 then F32.of_Z <$> read_at m p cursor_u32
      else if kv_type kv =? GGUF_VALUE_INT32 then (fun v => F32.of_Z (s32 v)) <$> read_at m p cursor_u32
      else None
  end.

Definition model_get_bool (m : ds4_model) (key : bytes) : option bool :=
  match model_find_kv m key with
  | Some kv =>
      if kv_type kv =? GGUF_VALUE_BOOL
      then (fun b => negb (cget b 0 =? 0)) <$> read_at m (kv_value_pos kv) (cursor_read 1) else None
  | None => None
  end.

Record ds4_array_ref := ArrayRef { ar_type : Z; ar_len : Z; ar_data_pos : Z }.

Definition model_get_array (m : ds4_model) (key : bytes) : option ds4_array_ref :=
  match model_find_kv m key with
  | Some kv =>
      if kv_type kv =? GGUF_VALUE_ARRAY
      then read_at m (kv_value_pos kv)
             (t <~ cursor_u32; l <~ cursor_u64; fun c => (COk (ArrayRef t l (c_pos c)), c))
      else None
  | None => None
  end.

Fixpoint model_get_u32_any (m : ds4_model) (keys : list bytes) : option Z :=
  match keys with
  | [] => None
  | k :: keys =>
      match model_get_u32 m k with Some v => Some v | None => model_get_u32_any m keys end
  end.

(** The loop over the items of an integer array. *)
Fixpoint read_u32_items (n : nat) (type : Z) : CM (list Z) :=
  match n with
  | O => cret []
  | S n' =>
      v <~ cursor_u32;
      if (type =? GGUF_VALUE_INT32) && (s32 v <? 0) then fun c => (CFail, c)
      else vs <~ read_u32_items n' type; cret (v :: vs)
  end.

Fixpoint model_get_u32_array_any (m : ds4_model) (keys : list bytes) (cap : Z) : option (list Z) :=
  match keys with
  | [] => None
  | k :: keys =>
      match model_get_array m k with
      | None => model_get_u32_array_any m keys cap
      | Some arr =>
          if negb (ar_type arr =? GGUF_VALUE_UINT32) && negb (ar_type arr =? GGUF_VALUE_INT32)
          then model_get_u32_array_any m keys cap
          else
            let n := if ar_len arr <? cap then ar_len arr else cap in
            read_at m (ar_data_pos arr) (read_u32_items (Z.to_nat n) (ar_type arr))
      end
  end.

(** [mtp.<n>.]: the digits and the stage number. *)
Fixpoint mtp_digits (s : bytes) (value : Z) : option (Z * bytes) :=
  match s with
  | c :: s' =>
      if isdigit c then
        let digit := c - 48 in
        if (U32_MAX - digit) / 10 <? value then None else mtp_digits s' (value * 10 + digit)
      else Some (value, s)
  | [] => Some (value, [])
  end.

Definition ds4_tensor_mtp_stage (name : bytes) : option Z :=
  if negb (starts_with (bs "mtp.") name) then None
  else if negb (isdigit (cget name 4)) then None
  else
    match mtp_digits (drop 4 name) 0 with
    | Some (v, 46 :: _) => Some v
    | _ => None
    end.

Definition model_find_tensor (m : ds4_model) (name : bytes) : option ds4_tensor :=
  List.find (fun t => bytes_eqb (tn_name t) name) (m_tensors m).

(** ** Opening a model: [ds4_die] is an error value *)

Inductive die := Die (msg : bytes) | DieCursor (e : option (bytes * Z)) | DieFuel.

Definition DS4_GGUF_MAGIC : Z := 1179993927.
Definition DS4_MAX_DIMS : Z := 8.

(** [if (!r) ds4_die(c->error)]. *)
Definition or_die {A B} (r : cres A * ds4_cursor) (k : A -> ds4_cursor -> die + B) : die + B :=
  match r with
  | (COk a, c) => k a c
  | (CFail, c) => inl (DieCursor (c_error c))
  | (CFuel, _) => inl DieFuel
  end.

Fixpoint metadata_loop (n : nat) (c : ds4_cursor) (alignment : Z) (kvs : list ds4_kv)
  : die + (ds4_cursor * Z * list ds4_kv) :=
  match n with
  | O => inr (c, alignment, kvs)
  | S n' =>
      or_die (cursor_string c) (fun key c =>
      or_die (cursor_u32 c) (fun type c =>
      let value_pos := c_pos c in
      let alignment :=
        if bytes_eqb key (bs "general.alignment") && (type =? GGUF_VALUE_UINT32) then
          match cursor_u32 (Cursor (c_base c) (c_size c) value_pos None) with
          | (COk a, _) => if negb (a =? 0) then a else alignment
          | _ => alignment
          end
        else alignment in
      or_die (skip_value top_levels type c) (fun _ c =>
      metadata_loop n' c alignment (kvs ++ [Kv key type value_pos]))))
  end.

(** [calloc_ok] is the outcome of the allocation. *)
Definition parse_metadata (calloc_ok : bool) (n_kv : Z) (c : ds4_cursor)
  : die + (ds4_cursor * Z * list ds4_kv) :=
  if c_size c - c_pos c <? n_kv then inl (Die (bs "GGUF metadata count exceeds file size"))
  else if negb calloc_ok then inl (Die (bs "out of memory while allocating metadata table"))
  else metadata_loop (Z.to_nat n_kv) c 32 [].

Fixpoint dims_loop (n : nat) (c : ds4_cursor) (elements : Z) (dims : list Z)
  : die + (ds4_cursor * Z * list Z) :=
  match n with
  | O => inr (c, elements, dims)
  | S n' =>
      or_die (cursor_u64 c) (fun d c =>
      if negb (d =? 0) && (U64_MAX / d <? elements) then inl (Die (bs "tensor element count overflow"))
      else dims_loop n' c (u64 (elements * d)) (dims ++ [d]))
  end.

Definition parse_tensor (c : ds4_cursor) : die + (ds4_cursor * ds4_tensor) :=
  or_die (cursor_string c) (fun name c =>
  or_die (cursor_u32 c) (fun ndim c =>
  if (ndim =? 0) || (DS4_MAX_DIMS <? ndim)
  then inl (Die (bs "tensor has an unsupported number of dimensions"))
  else
    match dims_loop (Z.to_nat ndim) c 1 [] with
    | inl e => inl e
    | inr (c, elements, dims) =>
        or_die (cursor_u32 c) (fun type c =>
        or_die (cursor_u64 c) (fun rel c =>
        inr (c, Tensor name ndim dims type rel 0 elements (default 0 (tensor_nbytes type elements)))))
    end)).

Fixpoint tensors_loop (n : nat) (c : ds4_cursor) (ts : list ds4_tensor)
  : die + (ds4_cursor * list ds4_tensor) :=
  match n with
  | O => inr (c, ts)
  | S n' =>
      match parse_tensor c with
      | inl e => inl e
      | inr (c, t) => tensors_loop n' c (ts ++ [t])
      end
  end.

(** The second loop: absolute offsets and bounds. *)
Fixpoint place_tensors (size data_pos : Z) (ts : list ds4_tensor) (max_bytes : Z)
  : die + (list ds4_tensor * Z) :=
  match ts with
  | [] => inr ([], max_bytes)
  | t :: ts =>
      if U64_MAX - data_pos <? tn_rel_offset t then inl (Die (bs "tensor offset overflow"))
      else
        let abs := data_pos + tn_rel_offset t in
        if negb (tn_bytes t =? 0) && ((size <? abs) || (size - abs <? tn_bytes t))
        then inl (Die (bs "tensor points outside GGUF file"))
        else
          let t' := Tensor (tn_name t) (tn_ndim t) (tn_dim t) (tn_type t) (tn_rel_offset t) abs
                      (tn_elements t) (tn_bytes t) in
          match place_tensors size data_pos ts (if max_bytes <? tn_bytes t then tn_bytes t else max_bytes) with
          | inl e => inl e
          | inr (ts', mx) => inr (t' :: ts', mx)
          end
  end.

Definition parse_tensors (calloc_ok : bool) (n_tensors alignment : Z) (c : ds4_cursor)
  : die + (ds4_cursor * Z * list ds4_tensor * Z) :=
  if c_size c - c_pos c <? n_tensors then inl (Die (bs "GGUF tensor count exceeds file size"))
  else if negb calloc_ok then inl (Die (bs "out of memory while allocating tensor table"))
  else
    match tensors_loop (Z.to_nat n_tensors) c [] with
    | inl e => inl e
    | inr (c, ts) =>
        let data_pos := align_up (c_pos c) alignment in
        match place_tensors (c_size c) data_pos ts 0 with
        | inl e => inl e
        | inr (ts, mx) => inr (c, data_pos, ts, mx)
        end
    end.

(** [model_open] on the contents of the file; [None] is a failing [open],
    [fstat] or [mmap]. *)
Definition model_open (file : option bytes) (kv_calloc_ok tensor_calloc_ok : bool) : die + ds4_model :=
  match file with
  | None => inl (Die (bs "cannot open model"))
  | Some map =>
      let size := zlen map in
      if size <? 32 then inl (Die (bs "model file is too small to be GGUF"))
      else
        or_die (cursor_u32 (Cursor map size 0 None)) (fun magic c =>
        if negb (magic =? DS4_GGUF_MAGIC) then inl (Die (bs "model is not a GGUF file"))
        else
          or_die (cursor_u32 c) (fun version c =>
          or_die (cursor_u64 c) (fun n_tensors c =>
          or_die (cursor_u64 c) (fun n_kv c =>
          if negb (version =? 3) then inl (Die (bs "only GGUF v3 is supported"))
          else
            match parse_metadata kv_calloc_ok n_kv c with
            | inl e => inl e
            | inr (c, alignment, kvs) =>
                match parse_tensors tensor_calloc_ok n_tensors alignment c with
                | inl e => inl e
                | inr (_, data_pos, ts, mx) =>
                    inr (Model map size version n_kv n_tensors alignment data_pos mx kvs ts)
                end
            end))))
  end.

(** ** Progress: every operation stays in the file and moves forward *)

Record cursor_ok (c : ds4_cursor) : Prop := {
  co_size : c_size c = zlen (c_base c);
  co_pos : 0 <= c_pos c <= c_size c;
  co_bytes : bytes_ok (c_base c)
}.

(** [c'] is [c] moved forward by at least [k]. *)
Definition moved (k : Z) (c c' : ds4_cursor) : Prop :=
  c_base c' = c_base c /\ c_size c' = c_size c /\ cursor_ok c' /\ c_pos c + k <= c_pos c'.

Lemma moved_refl c : cursor_ok c -> moved 0 c c.
Proof. intros H. split_and!; try done; lia. Qed.

Lemma moved_trans k1 k2 k c1 c2 c3 : moved k1 c1 c2 -> moved k2 c2 c3 -> k <= k1 + k2 -> moved k c1 c3.
Proof.
  intros (B1 & S1 & O1 & P1) (B2 & S2 & O2 & P2) Hk. split_and!; [congruence | congruence | done | lia].
Qed.

(** From any cursor, [m] moves forward by at least [k] with a result in [P],
    or fails; it never runs out of fuel. *)
Definition steps {A} (k : Z) (P : A -> Prop) (m : CM A) : Prop :=
  forall c, cursor_ok c ->
    match m c with
    | (COk a, c') => P a /\ moved k c c'
    | (CFail, _) => True
    | (CFuel, _) => False
    end.

Lemma steps_ret {A} (P : A -> Prop) a : P a -> steps 0 P (cret a).
Proof. intros Ha c Hc. split; [done|]. split_and!; try done. lia. Qed.

Lemma steps_bind {A B} k1 k2 (P : A -> Prop) (Q : B -> Prop) m f :
  steps k1 P m -> (forall a, P a -> steps k2 Q (f a)) -> steps (k1 + k2) Q (cbind m f).
Proof.
  intros Hm Hf c Hc. unfold cbind. specialize (Hm c Hc). destruct (m c) as [[a| |] c']; try done.
  destruct Hm as [Ha (B1 & S1 & O1 & P1)]. specialize (Hf a Ha c' O1).
  destruct (f a c') as [[b| |] c'']; try done. destruct Hf as [Hb (B2 & S2 & O2 & P2)].
  split; [done|]. split_and!; [congruence | congruence | done | lia].
Qed.

Lemma steps_weaken {A} k k' (P Q : A -> Prop) m :
  k' <= k -> (forall a, P a -> Q a) -> steps k P m -> steps k' Q m.
Proof.
  intros Hk HPQ Hm c Hc. specialize (Hm c Hc). destruct (m c) as [[a| |] c']; try done.
  destruct Hm as [Ha (B1 & S1 & O1 & P1)]. split; [by apply HPQ|]. split_and!; [done | done | done | lia].
Qed.

Lemma steps_fail {A} k (P : A -> Prop) msg : steps k P (cursor_fail msg).
Proof. by intros c Hc. Qed.

(** A successful [cursor_has] leaves room for [n] bytes. *)
Lemma cursor_has_spec n c : cursor_ok c ->
  match cursor_has n c with
  | (COk _, c') => c' = c /\ c_pos c + n <= c_size c
  | (CFail, _) => c_size c < c_pos c + n
  | (CFuel, _) => False
  end.
Proof.
  intros [H1 H2 _]. unfold cursor_has.
  destruct ((c_size c <? n) || (c_size c - n <? c_pos c)) eqn:E.
  - cbn. apply orb_true_iff in E as [E|E]; bool_prop; lia.
  - bool_prop. split; [done | lia].
Qed.

Lemma set_pos_ok c p : cursor_ok c -> 0 <= p <= c_size c -> cursor_ok (set_pos c p).
Proof. intros [H1 H2 H3] Hp. by constructor. Qed.

Lemma cursor_skip_steps n : 0 <= n -> steps n (fun _ => True) (cursor_skip n).
Proof.
  intros Hn c Hc. unfold cursor_skip, cbind. pose proof (cursor_has_spec n c Hc) as H.
  destruct (cursor_has n c) as [[[]| |] c']; try done. destruct H as [-> H].
  pose proof (co_pos _ Hc). split; [done|]. split_and!; [done | done | apply set_pos_ok; (done || lia) | cbn; lia].
Qed.

Lemma cursor_read_steps n : 0 <= n -> steps n (fun b => bytes_ok b /\ zlen b = n) (cursor_read n).
Proof.
  intros Hn c Hc. unfold cursor_read, cbind. pose proof (cursor_has_spec n c Hc) as H.
  destruct (cursor_has n c) as [[[]| |] c']; try done. destruct H as [-> H]. destruct Hc as [H1 H2 H3].
  split.
  - split; [by apply Forall_take, Forall_drop|]. unfold zlen in *. rewrite length_take, length_drop. lia.
  - split_and!; [done | done | by constructor; cbn; [|lia|] | cbn; lia].
Qed.

Lemma cursor_u32_steps : steps 4 is_u32 cursor_u32.
Proof.
  unfold cursor_u32. change 4 with (4 + 0). eapply steps_bind; [by apply cursor_read_steps|].
  intros b [Hb Hl]. apply steps_ret. pose proof (le_val_range b Hb) as H. rewrite Hl in H.
  unfold is_u32, U32_MAX. change (2 ^ (8 * 4)) with 4294967296 in H. lia.
Qed.

Lemma cursor_u64_steps : steps 8 is_u64 cursor_u64.
Proof.
  unfold cursor_u64. change 8 with (8 + 0). eapply steps_bind; [by apply cursor_read_steps|].
  intros b [Hb Hl]. apply steps_ret. pose proof (le_val_range b Hb) as H. rewrite Hl in H.
  unfold is_u64, U64_MAX. change (2 ^ (8 * 8)) with 18446744073709551616 in H. lia.
Qed.

Lemma cursor_string_steps : steps 8 bytes_ok cursor_string.
Proof.
  unfold cursor_string. change 8 with (8 + 0) at 1. eapply steps_bind; [apply cursor_u64_steps|].
  intros len Hlen c Hc. unfold cbind. pose proof (cursor_has_spec len c Hc) as H. unfold is_u64 in Hlen.
  destruct (cursor_has len c) as [[[]| |] c']; try done. destruct H as [-> H].
  destruct Hc as [H1 H2 H3]. split; [by apply Forall_take, Forall_drop|].
  split_and!; [done | done | by constructor; cbn; [|lia|] | cbn; lia].
Qed.

(** Each item moves at least one byte: the loop cannot outlast the file. *)
Lemma items_loop_steps skip : steps 1 (fun _ => True) skip ->
  forall fuel i len c, cursor_ok c -> c_size c - c_pos c < Z.of_nat fuel ->
  match items_loop fuel skip i len c with
  | (COk _, c') => moved 0 c c'
  | (CFail, _) => True
  | (CFuel, _) => False
  end.
Proof.
  intros Hs. induction fuel as [|fuel IH]; intros i len c Hc Hf; cbn [items_loop].
  { destruct Hc. lia. }
  destruct (i <? len); [|split_and!; try done; lia].
  unfold cbind. specialize (Hs c Hc). destruct (skip c) as [[[]| |] c1]; try done.
  destruct Hs as [_ (B1 & S1 & O1 & P1)]. specialize (IH (i + 1) len c1 O1 ltac:(rewrite S1; lia)).
  destruct (items_loop fuel skip (i + 1) len c1) as [[[]| |] c2]; try done.
  destruct IH as (B2 & S2 & O2 & P2). split_and!; [congruence | congruence | done | lia].
Qed.

Lemma scalar_value_size_nonneg t : 0 <= scalar_value_size t <= 8.
Proof. unfold scalar_value_size. repeat case_if; lia. Qed.

Lemma skip_value_steps levels : forall type, steps 1 (fun _ => True) (skip_value levels type).
Proof.
  induction levels as [|levels IH]; intros type; cbn [skip_value]; [apply steps_fail|].
  pose proof (scalar_value_size_nonneg type).
  destruct (Z.eqb_spec (scalar_value_size type) 0); cbn [negb].
  2:{ eapply steps_weaken; [|done|apply cursor_skip_steps; lia]. lia. }
  case_if.
  { eapply (steps_weaken (8 + 0) 1 (fun _ => True)); [lia | done |]. eapply steps_bind; [apply cursor_string_steps|].
    intros; by apply steps_ret. }
  case_if; [|apply steps_fail].
  eapply (steps_weaken (4 + (8 + 0)) 1 (fun _ => True)); [lia | done |]. eapply steps_bind; [apply cursor_u32_steps|].
  intros t Ht. eapply steps_bind; [apply cursor_u64_steps|]. intros len Hlen. cbv zeta.
  pose proof (scalar_value_size_nonneg t). unfold is_u64 in Hlen.
  destruct (Z.eqb_spec (scalar_value_size t) 0); cbn [negb].
  - intros c Hc. pose proof (co_pos _ Hc).
    pose proof (items_loop_steps (skip_value levels t) (IH t) (S (Z.to_nat (c_size c - c_pos c))) 0 len c Hc
      ltac:(lia)) as Hl.
    destruct (items_loop _ (skip_value levels t) 0 len c) as [[[]| |] c']; try done.
  - case_if; [apply steps_fail|]. eapply steps_weaken; [|done|apply cursor_skip_steps; apply u64_range].
    apply u64_range.
Qed.

(** ** Accepted models *)

Lemma or_die_inv {A B} k (P : A -> Prop) (m : CM A) c (f : A -> ds4_cursor -> die + B) r :
  steps k P m -> cursor_ok c -> or_die (m c) f = r -> r <> inl DieFuel \/ True ->
  (exists e, r = inl (DieCursor e)) \/
  (exists a c', m c = (COk a, c') /\ P a /\ moved k c c' /\ f a c' = r).
Proof.
  intros Hm Hc Hr _. specialize (Hm c Hc). destruct (m c) as [[a| |] c'] eqn:E; cbn [or_die] in Hr.
  - right. exists a, c'. destruct Hm. done.
  - left. by exists (c_error c').
  - done.
Qed.

(** One guarded read of a parser, for any outcome. *)
Ltac step_die Hs :=
  match goal with
  | |- context [or_die (?m ?c) ?f] =>
      let H := fresh "Hst" in
      assert (H : cursor_ok c) by assumption; apply Hs in H;
      let r := fresh "r" in let c' := fresh "c" in
      destruct (m c) as [[r| |] c']; cbn [or_die]; [|try done|try done];
      let P := fresh "HP" in let B := fresh "B" in let Z := fresh "Sz" in
      let O := fresh "O" in let Q := fresh "Q" in
      destruct H as [P (B & Z & O & Q)]
  end.

Definition kv_ok (size : Z) (kv : ds4_kv) : Prop :=
  is_u32 (kv_type kv) /\ 0 <= kv_value_pos kv < size.

Lemma metadata_loop_spec n : forall c alignment kvs,
  cursor_ok c -> 0 < alignment <= U32_MAX -> Forall (kv_ok (c_size c)) kvs ->
  match metadata_loop n c alignment kvs with
  | inl e => e <> DieFuel
  | inr (c', al, kvs') =>
      moved 0 c c' /\ 0 < al <= U32_MAX /\ Forall (kv_ok (c_size c)) kvs' /\
      length kvs' = (length kvs + n)%nat
  end.
Proof.
  induction n as [|n IH]; intros c alignment kvs Hc Ha Hk; cbn [metadata_loop].
  { split_and!; (by apply moved_refl) || lia || done. }
  step_die cursor_string_steps. step_die cursor_u32_steps.
  set (al := if bytes_eqb r _ && _ then _ else _).
  assert (Hal : 0 < al <= U32_MAX).
  { unfold al. case_if; [|done].
    assert (Ht : cursor_ok (Cursor (c_base c1) (c_size c1) (c_pos c1) None)) by (destruct O0; by constructor).
    apply cursor_u32_steps in Ht. destruct (cursor_u32 _) as [[a| |] ?]; [|done|done].
    destruct Ht as [Ht _]. unfold is_u32 in Ht. destruct (Z.eqb_spec a 0); cbn [negb]; lia. }
  assert (Hst : cursor_ok c1) by assumption. apply (skip_value_steps top_levels r0) in Hst.
  destruct (skip_value top_levels r0 c1) as [[[]| |] c2]; cbn [or_die]; [|done|done].
  destruct Hst as [_ (B2 & S2 & O2 & P2)].
  specialize (IH c2 al (kvs ++ [Kv r r0 (c_pos c1)]) O2 Hal).
  assert (Hsz : c_size c2 = c_size c) by congruence. rewrite Hsz in IH.
  assert (Hk' : Forall (kv_ok (c_size c)) (kvs ++ [Kv r r0 (c_pos c1)])).
  { apply Forall_app. split; [done|]. constructor; [|constructor]. split; [done|]. cbn [kv_value_pos].
    destruct O2 as [_ O2 _]. destruct O0 as [_ O0 _]. lia. }
  specialize (IH Hk'). destruct (metadata_loop n c2 al _) as [e|[[c' al'] kvs']]; [done|].
  destruct IH as ((B' & S' & O' & P') & I2 & I3 & I4). split_and!; try (split_and!; [congruence | congruence | done | lia]); try done; try lia.
  rewrite I4, length_app. cbn. lia.
Qed.

Definition product (l : list Z) : Z := foldr Z.mul 1 l.

Lemma product_snoc l d : product (l ++ [d]) = product l * d.
Proof. unfold product. induction l as [|x l IH]; cbn [app foldr]; [lia|]. rewrite IH. lia. Qed.

Lemma dims_loop_spec n : forall c elements dims,
  cursor_ok c -> elements = product dims -> is_u64 elements ->
  match dims_loop n c elements dims with
  | inl e => e <> DieFuel
  | inr (c', el, dims') =>
      moved 0 c c' /\ el = product dims' /\ is_u64 el /\ length dims' = (length dims + n)%nat
  end.
Proof.
  induction n as [|n IH]; intros c elements dims Hc He Hu; cbn [dims_loop].
  { split_and!; (by apply moved_refl) || lia || done. }
  step_die cursor_u64_steps. unfold is_u64 in *.
  destruct (negb (r =? 0) && (U64_MAX / r <? elements)) eqn:E; [done|].
  assert (Hm : 0 <= elements * r <= U64_MAX).
  { destruct (Z.eqb_spec r 0) as [->|Hr]; [unfold U64_MAX; lia|]. cbn [negb andb] in E. bool_prop.
    assert (elements * r <= (U64_MAX / r) * r) by nia.
    pose proof (Z.mul_div_le U64_MAX r ltac:(lia)). nia. }
  rewrite u64_small by done.
  specialize (IH c0 (elements * r) (dims ++ [r])). rewrite product_snoc, <- He in IH.
  specialize (IH ltac:(done) eq_refl Hm).
  destruct (dims_loop n c0 (elements * r) (dims ++ [r])) as [e|[[c' el] dims']]; [done|].
  destruct IH as ((B' & S' & O' & P') & I2 & I3 & I4). split_and!; try (split_and!; [congruence | congruence | done | lia]); try done; try lia.
  rewrite I4, length_app. cbn. lia.
Qed.

Definition dir_ok (t : ds4_tensor) : Prop :=
  1 <= tn_ndim t <= DS4_MAX_DIMS /\ zlen (tn_dim t) = tn_ndim t /\
  tn_elements t = product (tn_dim t) /\ is_u64 (tn_elements t) /\ is_u64 (tn_rel_offset t) /\
  tn_bytes t = default 0 (tensor_nbytes (tn_type t) (tn_elements t)).

Lemma parse_tensor_spec c : cursor_ok c ->
  match parse_tensor c with
  | inl e => e <> DieFuel
  | inr (c', t) => moved 0 c c' /\ dir_ok t
  end.
Proof.
  intros Hc. unfold parse_tensor. step_die cursor_string_steps. step_die cursor_u32_steps.
  destruct ((r0 =? 0) || (DS4_MAX_DIMS <? r0)) eqn:E; [done|]. bool_prop.
  pose proof (dims_loop_spec (Z.to_nat r0) c1 1 [] O0 eq_refl ltac:(unfold is_u64, U64_MAX; lia)) as Hd.
  destruct (dims_loop (Z.to_nat r0) c1 1 []) as [e|[[c2 el] dims]]; [done|].
  destruct Hd as ((B' & S' & O' & P') & D2 & D3 & D4).
  step_die cursor_u32_steps. step_die cursor_u64_steps. unfold is_u32 in *.
  split; [split_and!; [congruence | congruence | done | lia]|].
  unfold dir_ok. cbn. unfold zlen. rewrite D4. cbn [length].
  split_and!; (done || lia || apply HP2).
Qed.

Lemma tensors_loop_spec n : forall c ts, cursor_ok c -> Forall dir_ok ts ->
  match tensors_loop n c ts with
  | inl e => e <> DieFuel
  | inr (c', ts') => moved 0 c c' /\ Forall dir_ok ts' /\ length ts' = (length ts + n)%nat
  end.
Proof.
  induction n as [|n IH]; intros c ts Hc Ht; cbn [tensors_loop].
  { split_and!; (by apply moved_refl) || lia || done. }
  pose proof (parse_tensor_spec c Hc) as Hp. destruct (parse_tensor c) as [e|[c1 t]]; [done|].
  destruct Hp as [(B & S1 & O & P) Hd]. specialize (IH c1 (ts ++ [t]) O).
  specialize (IH ltac:(apply Forall_app; split; [done | by apply Forall_singleton])).
  destruct (tensors_loop n c1 (ts ++ [t])) as [e|[c' ts']]; [done|].
  destruct IH as ((B' & S' & O' & P') & I2 & I3). split_and!; try (split_and!; [congruence | congruence | done | lia]); try done; try lia.
  rewrite I3, length_app. cbn. lia.
Qed.

(** The bytes of a tensor are inside the file. *)
Definition placed (size data_pos mx : Z) (t : ds4_tensor) : Prop :=
  dir_ok t /\ tn_abs_offset t = data_pos + tn_rel_offset t /\ tn_abs_offset t <= U64_MAX /\
  tn_bytes t <= mx /\ (tn_bytes t <> 0 -> tn_abs_offset t + tn_bytes t <= size).

Lemma place_tensors_spec size data_pos ts : forall mx,
  Forall dir_ok ts ->
  match place_tensors size data_pos ts mx with
  | inl e => e <> DieFuel
  | inr (ts', mx') => Forall (placed size data_pos mx') ts' /\ mx <= mx' /\ length ts' = length ts
  end.
Proof.
  induction ts as [|t ts IH]; intros mx Ht; cbn [place_tensors]; [split_and!; [constructor | lia | done]|].
  apply Forall_cons in Ht as [Hd Ht]. case_if; [done|]. case_if; [done|].
  specialize (IH (if mx <? tn_bytes t then tn_bytes t else mx) Ht).
  destruct (place_tensors size data_pos ts _) as [e|[ts' mx']]; [done|]. destruct IH as (I1 & I2 & I3).
  bool_prop. assert (Hmx : tn_bytes t <= mx' /\ mx <= mx') by (case_if_in I2; bool_prop; lia).
  split_and!; [|lia | by cbn; rewrite I3].
  constructor; [|done]. unfold placed. cbn. split_and!; [exact Hd | done | lia | lia |].
  intros Hbytes. destruct E0 as [E0|E0]; bool_prop; [done | lia].
Qed.

Lemma align_up_spec v a : 0 <= v -> 0 < a -> v + a <= U64_MAX ->
  v <= align_up v a < v + a /\ (a | align_up v a).
Proof.
  intros Hv Ha Hm. unfold align_up. pose proof (Z.mod_pos_bound v a Ha).
  destruct (Z.eqb_spec (v mod a) 0) as [E|E].
  - split; [lia|]. by apply Z.mod_divide in E; [|lia].
  - rewrite u64_small by (unfold is_u64; lia). split; [lia|].
    exists (v / a + 1). pose proof (Z.div_mod v a ltac:(lia)). lia.
Qed.

Lemma model_open_spec file k1 k2 :
  bytes_ok file -> zlen file <= 2 ^ 63 ->
  match model_open (Some file) k1 k2 with
  | inl e => e <> DieFuel
  | inr m =>
      m_map m = file /\ m_size m = zlen file /\ m_version m = 3 /\
      zlen (m_kv m) = m_n_kv m /\ Forall (kv_ok (m_size m)) (m_kv m) /\
      zlen (m_tensors m) = m_n_tensors m /\
      0 < m_alignment m <= U32_MAX /\ (m_alignment m | m_tensor_data_pos m) /\
      Forall (placed (m_size m) (m_tensor_data_pos m) (m_max_tensor_bytes m)) (m_tensors m)
  end.
Proof.
  intros Hb Hl. change (2 ^ 63) with 9223372036854775808 in Hl. unfold model_open. case_if; [done|].
  assert (Hc0 : cursor_ok (Cursor file (zlen file) 0 None)).
  { constructor; [done | cbn; pose proof (zlen_nonneg file); lia | done]. }
  step_die cursor_u32_steps. case_if; [done|]. cbn [c_base c_size c_pos] in *.
  step_die cursor_u32_steps. step_die cursor_u64_steps. step_die cursor_u64_steps.
  destruct (Z.eqb_spec r0 3) as [->|]; [|done]. cbn [negb].
  unfold parse_metadata. case_if; [done|]. case_if; [done|].
  pose proof (metadata_loop_spec (Z.to_nat r2) c2 32 [] ltac:(assumption) ltac:(unfold U32_MAX; lia)
    ltac:(constructor)) as Hm.
  destruct (metadata_loop (Z.to_nat r2) c2 32 []) as [e|[[c3 al] kvs]]; [done|].
  destruct Hm as ((B3 & S3 & O3 & P3) & Hal & Hkv & Hklen).
  unfold parse_tensors. case_if; [done|]. case_if; [done|].
  pose proof (tensors_loop_spec (Z.to_nat r1) c3 [] O3 ltac:(constructor)) as Ht.
  destruct (tensors_loop (Z.to_nat r1) c3 []) as [e|[c4 ts]]; [done|].
  destruct Ht as ((B4 & S4 & O4 & P4) & Hdir & Htlen). cbv zeta.
  pose proof (place_tensors_spec (c_size c4) (align_up (c_pos c4) al) ts 0 Hdir) as Hp.
  destruct (place_tensors _ _ ts 0) as [e|[ts' mx]]; [done|]. destruct Hp as (Hp1 & Hp2 & Hp3). cbn.
  assert (Hsz : c_size c4 = zlen file) by congruence.
  assert (Hsz2 : c_size c2 = zlen file) by congruence.
  rewrite Hsz in Hp1. rewrite Hsz2 in Hkv.
  destruct (align_up_spec (c_pos c4) al) as [_ Hdiv]; [destruct O4; lia | lia | |].
  { destruct O4 as [_ O4 _]. unfold U32_MAX, U64_MAX in *. lia. }
  unfold is_u64 in *. unfold zlen in *. rewrite Hp3, Htlen, Hklen. cbn [length].
  split_and!; try done; try lia.
Qed.

(** ** Writing metadata *)

(** A value: scalar bytes of a type, a string, or an array of one type. *)
Inductive gval :=
| VScalar (type : Z) (payload : bytes)
| VString (s : bytes)
| VArray (item_type : Z) (items : list gval).

Definition gval_type (v : gval) : Z :=
  match v with
  | VScalar t _ => t
  | VString _ => GGUF_VALUE_STRING
  | VArray _ _ => GGUF_VALUE_ARRAY
  end.

Definition encode_string (s : bytes) : bytes := le_bytes 8 (zlen s) ++ s.

Fixpoint encode_value (v : gval) : bytes :=
  match v with
  | VScalar _ p => p
  | VString s => encode_string s
  | VArray t items => le_bytes 4 t ++ le_bytes 8 (zlen items) ++ flat_map encode_value items
  end.

(** Scalars have their type's size; arrays are homogeneous, of a known item
    type, and at most [levels] deep. *)
Fixpoint wf_value (levels : nat) (v : gval) : Prop :=
  match levels with
  | O => False
  | S levels' =>
      match v with
      | VScalar t p => scalar_value_size t = zlen p /\ zlen p <> 0
      | VString s => zlen s <= U64_MAX
      | VArray t items =>
          is_u32 t /\ zlen (flat_map encode_value items) <= U64_MAX /\ zlen items <= U64_MAX /\
          Forall (fun v => gval_type v = t /\ wf_value levels' v) items
      end
  end.

Definition encode_kv (kv : bytes * gval) : bytes :=
  encode_string (fst kv) ++ le_bytes 4 (gval_type (snd kv)) ++ encode_value (snd kv).

(** [c] stands after [pre], in front of [rest]. *)
Definition at_rest (c : ds4_cursor) (rest : bytes) : Prop :=
  cursor_ok c /\ drop (Z.to_nat (c_pos c)) (c_base c) = rest.

Lemma at_rest_length c rest : at_rest c rest -> c_pos c + zlen rest = c_size c.
Proof.
  intros [[H1 H2 _] H]. apply (f_equal zlen) in H. unfold zlen in *. rewrite length_drop in H. lia.
Qed.

Lemma at_rest_move c a rest : at_rest c (a ++ rest) -> at_rest (set_pos c (c_pos c + zlen a)) rest.
Proof.
  intros H. pose proof (at_rest_length _ _ H) as Hl. destruct H as [Hc H]. rewrite zlen_app in Hl.
  pose proof (zlen_nonneg rest). pose proof (zlen_nonneg a). destruct (co_pos _ Hc).
  split; [apply set_pos_ok; [done | lia]|]. cbn [set_pos c_pos c_base].
  rewrite Z2Nat.inj_add by lia. rewrite <- drop_drop, H. unfold zlen. rewrite Nat2Z.id. apply drop_app_length.
Qed.

Lemma cursor_has_rest n c rest : at_rest c rest -> n <= zlen rest -> cursor_has n c = (COk tt, c).
Proof.
  intros H Hn. pose proof (at_rest_length _ _ H). destruct H as [Hc _]. destruct (co_pos _ Hc).
  unfold cursor_has. rewrite (proj2 (Z.ltb_ge (c_size c) n)), (proj2 (Z.ltb_ge (c_size c - n) (c_pos c))) by lia.
  done.
Qed.

Lemma cursor_skip_rest a c rest : at_rest c (a ++ rest) ->
  cursor_skip (zlen a) c = (COk tt, set_pos c (c_pos c + zlen a)).
Proof.
  intros H. unfold cursor_skip, cbind. rewrite (cursor_has_rest _ _ (a ++ rest)); [done | done |].
  rewrite zlen_app. pose proof (zlen_nonneg rest). lia.
Qed.

Lemma cursor_read_rest n a c rest : at_rest c (a ++ rest) -> n = zlen a ->
  cursor_read n c = (COk a, set_pos c (c_pos c + zlen a)).
Proof.
  intros H ->. unfold cursor_read, cbind. rewrite (cursor_has_rest _ _ (a ++ rest)); [| done |].
  - destruct H as [_ ->]. unfold zlen at 1. by rewrite Nat2Z.id, take_app_length.
  - rewrite zlen_app. pose proof (zlen_nonneg rest). lia.
Qed.

Lemma zlen_le_bytes n v : zlen (le_bytes n v) = Z.of_nat n.
Proof. unfold zlen. by rewrite le_bytes_length. Qed.

Lemma cursor_u32_rest v c rest : at_rest c (le_bytes 4 v ++ rest) -> is_u32 v ->
  cursor_u32 c = (COk v, set_pos c (c_pos c + 4)).
Proof.
  intros H Hv. unfold cursor_u32, cbind. rewrite (cursor_read_rest _ _ _ _ H) by done.
  rewrite zlen_le_bytes, le_val_le_bytes. unfold cret. unfold is_u32, U32_MAX in Hv.
  change (2 ^ (8 * Z.of_nat 4)) with 4294967296. by rewrite Z.mod_small by lia.
Qed.

Lemma cursor_u64_rest v c rest : at_rest c (le_bytes 8 v ++ rest) -> is_u64 v ->
  cursor_u64 c = (COk v, set_pos c (c_pos c + 8)).
Proof.
  intros H Hv. unfold cursor_u64, cbind. rewrite (cursor_read_rest _ _ _ _ H) by done.
  rewrite zlen_le_bytes, le_val_le_bytes. unfold cret. unfold is_u64, U64_MAX in Hv.
  change (2 ^ (8 * Z.of_nat 8)) with 18446744073709551616. by rewrite Z.mod_small by lia.
Qed.

Lemma cursor_string_rest s c rest : at_rest c (encode_string s ++ rest) -> zlen s <= U64_MAX ->
  cursor_string c = (COk s, set_pos c (c_pos c + zlen (encode_string s))).
Proof.
  unfold encode_string. intros H Hs. rewrite <- app_assoc in H. unfold cursor_string, cbind.
  rewrite (cursor_u64_rest _ _ _ H) by (split; [apply zlen_nonneg | done]).
  apply at_rest_move in H. rewrite zlen_le_bytes in H. change (Z.of_nat 8) with 8 in H.
  rewrite (cursor_has_rest _ _ _ H) by (rewrite zlen_app; pose proof (zlen_nonneg rest); lia).
  destruct H as [_ ->]. unfold zlen at 1. rewrite Nat2Z.id, take_app_length.
  cbn [set_pos c_base c_size c_pos c_error]. do 2 f_equal. rewrite zlen_app, zlen_le_bytes. lia.
Qed.

Lemma set_pos_twice c p q : set_pos (set_pos c p) q = set_pos c q.
Proof. done. Qed.

(** Items of an encoded array, one by one. *)
Lemma items_loop_rest skip items : forall fuel i c rest,
  (forall v c rest, v ∈ items -> at_rest c (encode_value v ++ rest) ->
     skip c = (COk tt, set_pos c (c_pos c + zlen (encode_value v)))) ->
  at_rest c (flat_map encode_value items ++ rest) -> (length items <= fuel)%nat ->
  items_loop fuel skip i (i + zlen items) c =
    (COk tt, set_pos c (c_pos c + zlen (flat_map encode_value items))).
Proof.
  induction items as [|v items IH]; intros fuel i c rest Hs Hc Hf.
  - change (zlen (@nil gval)) with 0. rewrite Z.add_0_r. destruct fuel; cbn [items_loop];
      rewrite Z.ltb_irrefl; cbn [flat_map]; change (zlen (@nil Z)) with 0; rewrite Z.add_0_r; by destruct c.
  - cbn [length] in Hf. destruct fuel as [|fuel]; [lia|]. cbn [items_loop flat_map] in *.
    assert (Hz : zlen (v :: items) = 1 + zlen items) by (unfold zlen; cbn [length]; lia).
    pose proof (zlen_nonneg items). rewrite (proj2 (Z.ltb_lt i (i + zlen (v :: items)))) by lia.
    unfold cbind. rewrite <- app_assoc in Hc. rewrite (Hs v c (flat_map encode_value items ++ rest)); [|left|done].
    replace (i + zlen (v :: items)) with (i + 1 + zlen items) by lia.
    rewrite (IH fuel (i + 1) _ rest); [| | by apply at_rest_move in Hc | lia].
    + cbn [set_pos c_base c_size c_pos c_error]. rewrite zlen_app. unfold set_pos. cbn. do 2 f_equal. lia.
    + intros w c' rest' Hw. apply Hs. by right.
Qed.

(** The walker skips exactly an encoded value. *)
(** Every encoded value takes at least a byte; a scalar takes its size. *)
Lemma items_length levels t items : List.Forall (fun v => gval_type v = t /\ wf_value levels v) items ->
  (length items <= length (flat_map encode_value items))%nat.
Proof.
  induction 1 as [|v items [_ Hv] Hall IHl]; [done|]. cbn [flat_map length]. rewrite length_app.
  assert (0 < length (encode_value v))%nat; [|lia].
  destruct levels; [done|]. destruct v; cbn [wf_value encode_value] in *;
    [destruct Hv as [_ Hv]; unfold zlen in Hv; lia | | ]; unfold encode_string;
    rewrite !length_app, le_bytes_length; lia.
Qed.

Lemma scalar_items_length levels t items :
  List.Forall (fun v => gval_type v = t /\ wf_value levels v) items -> scalar_value_size t <> 0 ->
  zlen (flat_map encode_value items) = zlen items * scalar_value_size t.
Proof.
  intros Hall Hz. induction Hall as [|v items [Hv Hw] Hall IHl]; [done|]. cbn [flat_map].
  rewrite zlen_app, IHl. destruct levels; [done|].
  assert (He : zlen (encode_value v) = scalar_value_size t).
  { destruct v; cbn [gval_type wf_value encode_value] in *; subst t; [by destruct Hw as [-> _] | done | done]. }
  rewrite He. unfold zlen. cbn [length]. lia.
Qed.

Lemma skip_value_rest levels : forall v c rest,
  wf_value levels v -> at_rest c (encode_value v ++ rest) ->
  skip_value levels (gval_type v) c = (COk tt, set_pos c (c_pos c + zlen (encode_value v))).
Proof.
  induction levels as [|levels IH]; intros v c rest Hw Hc; [done|]. cbn [skip_value wf_value] in *.
  destruct v as [t p|s|t items]; cbn [gval_type encode_value] in *.
  - destruct Hw as [Ht Hp]. rewrite Ht, (proj2 (Z.eqb_neq (zlen p) 0)) by done. cbn [negb].
    by apply (cursor_skip_rest _ _ rest).
  - cbn [scalar_value_size Z.eqb Pos.eqb orb negb]. change (scalar_value_size GGUF_VALUE_STRING) with 0.
    cbn [Z.eqb negb]. change (GGUF_VALUE_STRING =? GGUF_VALUE_STRING) with true. cbn iota.
    unfold cbind. by rewrite (cursor_string_rest s c rest).
  - change (scalar_value_size GGUF_VALUE_ARRAY) with 0. change (GGUF_VALUE_ARRAY =? GGUF_VALUE_STRING) with false.
    change (GGUF_VALUE_ARRAY =? GGUF_VALUE_ARRAY) with true. cbn [Z.eqb negb]. cbn iota.
    destruct Hw as (Ht & Hl & Hn & Hall). rewrite <- !app_assoc in Hc. unfold cbind.
    rewrite (cursor_u32_rest _ _ _ Hc) by done.
    apply at_rest_move in Hc. rewrite zlen_le_bytes in Hc. change (Z.of_nat 4) with 4 in Hc.
    rewrite (cursor_u64_rest _ _ _ Hc) by (split; [apply zlen_nonneg | done]).
    apply at_rest_move in Hc. rewrite zlen_le_bytes in Hc. change (Z.of_nat 8) with 8 in Hc.
    assert (Hpos : forall n, c_pos (set_pos (set_pos c (c_pos c + 4)) (c_pos (set_pos c (c_pos c + 4)) + 8)) + n =
      c_pos c + (4 + (8 + n))) by (intros n; cbn; lia).
    rewrite !zlen_app, !zlen_le_bytes. change (Z.of_nat 4) with 4. change (Z.of_nat 8) with 8.
    set (c2 := set_pos (set_pos c (c_pos c + 4)) _) in *. cbv zeta.
    destruct (Z.eqb_spec (scalar_value_size t) 0) as [Hz|Hz]; cbn [negb].
    + pose proof (at_rest_length _ _ Hc) as Hlen.
      rewrite (items_loop_rest (skip_value levels t) items _ 0 c2 rest); [| | done |].
      * cbn [set_pos]. unfold set_pos. f_equal. f_equal. apply Hpos.
      * intros v c' rest' Hv Hc'. rewrite List.Forall_forall in Hall.
        destruct (Hall v ltac:(by apply list_elem_of_In)) as [<- Hwv]. by apply (IH v c' rest').
      * pose proof (items_length _ _ _ Hall) as Hge. rewrite zlen_app in Hlen. pose proof (zlen_nonneg rest). unfold zlen in *. lia.
    + pose proof (scalar_items_length _ _ _ Hall Hz) as Hsz.
      pose proof (scalar_value_size_nonneg t). pose proof (zlen_nonneg items).
      destruct (Z.ltb_spec (U64_MAX / scalar_value_size t) (zlen items)) as [Hlt|_].
      { exfalso. assert (zlen items <= U64_MAX / scalar_value_size t); [apply Z.div_le_lower_bound; lia | lia]. }
      rewrite u64_small by (unfold is_u64; lia). rewrite <- Hsz.
      rewrite (cursor_skip_rest _ c2 rest) by done. unfold set_pos. f_equal. f_equal. rewrite Hsz in *. apply Hpos.
Qed.

(** The table the parser builds for bindings written from position [pos] on. *)
Fixpoint kv_table (pos : Z) (kvs : list (bytes * gval)) : list ds4_kv :=
  match kvs with
  | [] => []
  | (k, v) :: kvs =>
      let p := pos + zlen (encode_string k) + 4 in
      Kv k (gval_type v) p :: kv_table (p + zlen (encode_value v)) kvs
  end.

Definition wf_kv (kv : bytes * gval) : Prop :=
  zlen (fst kv) <= U64_MAX /\ is_u32 (gval_type (snd kv)) /\ wf_value top_levels (snd kv).

Lemma encode_kv_length k v :
  zlen (encode_kv (k, v)) = zlen (encode_string k) + 4 + zlen (encode_value v).
Proof. unfold encode_kv. cbn [fst snd]. rewrite !zlen_app, zlen_le_bytes. lia. Qed.

Lemma metadata_loop_rest kvs : forall c al acc rest,
  Forall wf_kv kvs -> at_rest c (flat_map encode_kv kvs ++ rest) ->
  exists al', metadata_loop (length kvs) c al acc =
    inr (set_pos c (c_pos c + zlen (flat_map encode_kv kvs)), al', acc ++ kv_table (c_pos c) kvs).
Proof.
  induction kvs as [|[k v] kvs IH]; intros c al acc rest Hw Hc.
  { exists al. cbn [length metadata_loop flat_map kv_table]. change (zlen (@nil Z)) with 0.
    rewrite Z.add_0_r, app_nil_r. by destruct c. }
  apply Forall_cons in Hw as [(Hk & Ht & Hv) Hw]. cbn [fst snd] in *.
  cbn [length metadata_loop flat_map] in *. unfold encode_kv in Hc at 1. cbn [fst snd] in Hc.
  rewrite <- !app_assoc in Hc. rewrite (cursor_string_rest _ _ _ Hc) by done. cbn [or_die].
  apply at_rest_move in Hc. rewrite (cursor_u32_rest _ _ _ Hc) by done. cbn [or_die].
  apply at_rest_move in Hc. rewrite zlen_le_bytes in Hc. change (Z.of_nat 4) with 4 in Hc.
  rewrite (skip_value_rest top_levels v _ _ Hv Hc). cbn [or_die].
  apply at_rest_move in Hc.
  set (al1 := if bytes_eqb k _ && _ then _ else _). clearbody al1.
  specialize (IH _ al1 (acc ++ [Kv k (gval_type v) (c_pos c + zlen (encode_string k) + 4)]) rest Hw Hc).
  destruct IH as [al' IH]. exists al'. rewrite !set_pos_twice in *. cbn [set_pos c_pos] in *.
  rewrite IH. f_equal. f_equal; [f_equal|].
  - rewrite zlen_app, encode_kv_length. unfold set_pos. f_equal. lia.
  - cbn [kv_table]. by rewrite <- app_assoc.
Qed.

(** The first binding of a key. *)
Fixpoint assoc (key : bytes) (kvs : list (bytes * gval)) : option gval :=
  match kvs with
  | [] => None
  | (k, v) :: kvs => if bytes_eqb k key then Some v else assoc key kvs
  end.

Lemma kv_table_find key kvs : forall c rest, Forall wf_kv kvs ->
  at_rest c (flat_map encode_kv kvs ++ rest) ->
  match assoc key kvs with
  | None => List.find (fun kv => bytes_eqb (kv_key kv) key) (kv_table (c_pos c) kvs) = None
  | Some v => wf_value top_levels v /\ exists p rest',
      List.find (fun kv => bytes_eqb (kv_key kv) key) (kv_table (c_pos c) kvs) = Some (Kv key (gval_type v) p) /\
      at_rest (set_pos c p) (encode_value v ++ rest')
  end.
Proof.
  induction kvs as [|[k v] kvs IH]; intros c rest Hw Hc; cbn [assoc kv_table List.find kv_key]; [done|].
  apply Forall_cons in Hw as [(Hk & Ht & Hv) Hw]. cbn [fst snd flat_map] in *.
  unfold encode_kv in Hc at 1. cbn [fst snd] in Hc. rewrite <- !app_assoc in Hc.
  apply at_rest_move in Hc. apply at_rest_move in Hc. rewrite zlen_le_bytes, set_pos_twice in Hc.
  change (Z.of_nat 4) with 4 in Hc. cbn [set_pos c_pos] in Hc.
  destruct (bytes_eqb k key) eqn:Ek.
  - apply bytes_eqb_eq in Ek as ->. split; [done|]. by exists (c_pos c + zlen (encode_string key) + 4), (flat_map encode_kv kvs ++ rest).
  - apply at_rest_move in Hc. rewrite set_pos_twice in Hc. cbn [set_pos c_pos] in Hc.
    specialize (IH _ rest Hw Hc). cbn [set_pos c_pos] in IH. destruct (assoc key kvs); [|exact IH].
    destruct IH as [Hwv (p & rest' & H1 & H2)]. split; [done|]. exists p, rest'. by rewrite set_pos_twice in H2.
Qed.

Lemma read_u32_items_rest type vs : forall c rest n,
  Forall (fun v => 0 <= v <= INT32_MAX) vs -> at_rest c (flat_map (le_bytes 4) vs ++ rest) ->
  (n <= length vs)%nat ->
  exists c', read_u32_items n type c = (COk (take n vs), c').
Proof.
  induction vs as [|v vs IH]; intros c rest n Hv Hc Hn; destruct n as [|n]; cbn [length] in Hn; try lia;
    cbn [read_u32_items take]; [by eexists..|].
  apply Forall_cons in Hv as [Hv Hvs]. cbn [flat_map] in Hc. rewrite <- app_assoc in Hc.
  unfold cbind at 1. rewrite (cursor_u32_rest _ _ _ Hc) by (unfold is_u32, U32_MAX, INT32_MAX in *; lia).
  apply at_rest_move in Hc. rewrite zlen_le_bytes in Hc. change (Z.of_nat 4) with 4 in Hc.
  unfold s32. rewrite (proj2 (Z.leb_le v INT32_MAX)) by lia. rewrite (proj2 (Z.ltb_ge v 0)) by lia.
  rewrite andb_false_r. destruct (IH _ rest n Hvs Hc ltac:(lia)) as [c' Hr].
  exists c'. unfold cbind. by rewrite Hr.
Qed.

(** *** What was read is an encoding *)

(** A success of [m] has read the bytes at the cursor that [P] relates to its
    result. *)
Definition reads {A} (P : A -> bytes -> Prop) (m : CM A) : Prop :=
  forall c a c', cursor_ok c -> c_size c <= U64_MAX -> m c = (COk a, c') ->
  exists s rest, at_rest c (s ++ rest) /\ c' = set_pos c (c_pos c + zlen s) /\ zlen s <= U64_MAX /\ P a s.

Lemma reads_ret {A} (a : A) : reads (fun b s => b = a /\ s = []) (cret a).
Proof.
  intros c b c' Hc _ [= <- <-]. exists [], (drop (Z.to_nat (c_pos c)) (c_base c)). split; [done|].
  change (zlen (@nil Z)) with 0. rewrite Z.add_0_r. split_and!; [by destruct c | done | done | done].
Qed.

Lemma reads_fail {A} (P : A -> bytes -> Prop) msg : reads P (cursor_fail msg).
Proof. by intros c a c' _ _ [=]. Qed.

Lemma reads_bind {A B} (P : A -> bytes -> Prop) (Q : A -> B -> bytes -> Prop) m f :
  reads P m -> (forall a s, P a s -> reads (Q a) (f a)) ->
  reads (fun b s => exists a s1 s2, P a s1 /\ Q a b s2 /\ s = s1 ++ s2) (cbind m f).
Proof.
  intros Hm Hf c b c' Hc Hs H. unfold cbind in H. destruct (m c) as [[a| |] c1] eqn:E; try done.
  destruct (Hm c a c1 Hc Hs E) as (s1 & r1 & H1 & -> & L1 & P1).
  pose proof (at_rest_move _ _ _ H1) as H2. destruct (Hf a s1 P1 _ b c' (proj1 H2) Hs H) as (s2 & r2 & H3 & -> & L2 & Q2).
  assert (Hr : r1 = s2 ++ r2) by (destruct H2 as [_ <-], H3 as [_ <-]; done). subst r1.
  exists (s1 ++ s2), r2. rewrite <- app_assoc. split; [done|].
  rewrite app_assoc in H1. apply at_rest_length in H1. pose proof (zlen_nonneg r2). pose proof (co_pos _ Hc).
  rewrite !zlen_app in *. split_and!; [unfold set_pos; cbn; f_equal; lia | lia | by exists a, s1, s2].
Qed.

Lemma reads_weaken {A} (P Q : A -> bytes -> Prop) m :
  (forall a s, zlen s <= U64_MAX -> P a s -> Q a s) -> reads P m -> reads Q m.
Proof.
  intros H Hm c a c' Hc Hs E. destruct (Hm c a c' Hc Hs E) as (s & r & H1 & H2 & H3 & H4).
  exists s, r. split_and!; auto.
Qed.

(** The bytes between the cursor and [n] further, when they are there. *)
Lemma split_rest c n : cursor_ok c -> 0 <= n -> c_pos c + n <= c_size c ->
  exists s rest, at_rest c (s ++ rest) /\ zlen s = n /\ bytes_ok s /\
    s = take (Z.to_nat n) (drop (Z.to_nat (c_pos c)) (c_base c)).
Proof.
  intros Hc Hn Hle. set (d := drop (Z.to_nat (c_pos c)) (c_base c)).
  exists (take (Z.to_nat n) d), (drop (Z.to_nat n) d). rewrite take_drop. destruct Hc as [H1 H2 H3].
  split_and!; [split; [by constructor | done] | | by apply Forall_take, Forall_drop | done].
  unfold zlen, d in *. rewrite length_take, length_drop. lia.
Qed.

Lemma cursor_read_reads n : 0 <= n -> reads (fun b s => b = s /\ zlen s = n /\ bytes_ok s) (cursor_read n).
Proof.
  intros Hn c a c' Hc Hs H. unfold cursor_read, cbind in H. pose proof (cursor_has_spec n c Hc) as Hh.
  destruct (cursor_has n c) as [[[]| |] c1]; try done. destruct Hh as [-> Hh]. injection H as <- <-.
  destruct (split_rest c n Hc Hn Hh) as (s & r & H1 & H2 & H3 & H4). exists s, r.
  pose proof (co_pos _ Hc). rewrite H2. split_and!; done || lia.
Qed.

Lemma cursor_skip_reads n : 0 <= n -> reads (fun _ s => zlen s = n) (cursor_skip n).
Proof.
  intros Hn c a c' Hc Hs H. unfold cursor_skip, cbind in H. pose proof (cursor_has_spec n c Hc) as Hh.
  destruct (cursor_has n c) as [[[]| |] c1]; try done. destruct Hh as [-> Hh]. injection H as <- <-.
  destruct (split_rest c n Hc Hn Hh) as (s & r & H1 & H2 & H3 & H4). exists s, r.
  pose proof (co_pos _ Hc). rewrite H2. split_and!; done || lia.
Qed.

Lemma le_val_reads n k : 0 <= k -> n = Z.to_nat k ->
  reads (fun v s => s = le_bytes n v /\ 0 <= v < 2 ^ (8 * k)) (b <~ cursor_read k; cret (le_val b)).
Proof.
  intros Hk ->. eapply reads_weaken; [|eapply reads_bind; [by apply cursor_read_reads | intros b ? _; apply reads_ret]].
  intros v s _ (b & s1 & s2 & (-> & Hl & Hb) & [-> ->] & ->). rewrite app_nil_r. split.
  - rewrite <- Hl. unfold zlen. by rewrite Nat2Z.id, le_bytes_le_val.
  - rewrite <- Hl. by apply le_val_range.
Qed.

Lemma cursor_u32_reads : reads (fun v s => s = le_bytes 4 v /\ is_u32 v) cursor_u32.
Proof.
  eapply reads_weaken; [|by apply (le_val_reads 4 4)]. intros v s _ [-> H]. split; [done|].
  unfold is_u32, U32_MAX. change (2 ^ (8 * 4)) with 4294967296 in H. lia.
Qed.

Lemma cursor_u64_reads : reads (fun v s => s = le_bytes 8 v /\ is_u64 v) cursor_u64.
Proof.
  eapply reads_weaken; [|by apply (le_val_reads 8 8)]. intros v s _ [-> H]. split; [done|].
  unfold is_u64, U64_MAX. change (2 ^ (8 * 8)) with 18446744073709551616 in H. lia.
Qed.

Lemma cursor_string_reads : reads (fun k s => s = encode_string k /\ zlen k <= U64_MAX) cursor_string.
Proof.
  eapply reads_weaken; [|eapply (reads_bind _ (fun len k s => k = s /\ zlen s = len)); [apply cursor_u64_reads|]].
  - intros k s Hs (len & s1 & s2 & [-> _] & [-> Hl] & ->). unfold encode_string. rewrite Hl. split; [done|].
    rewrite zlen_app in Hs. pose proof (zlen_nonneg (le_bytes 8 len)). lia.
  - intros len s1 [_ Hn] c k c' Hc Hs H. destruct Hn as [Hn _].
    unfold cbind in H. pose proof (cursor_has_spec len c Hc) as Hh.
    destruct (cursor_has len c) as [[[]| |] c1]; try done. destruct Hh as [-> Hh]. injection H as <- <-.
    destruct (split_rest c len Hc Hn Hh) as (s & r & H1 & H2 & H3 & H4). exists s, r.
    pose proof (co_pos _ Hc). rewrite H2. split_and!; try done; lia.
Qed.

(** Items of a scalar type: any bytes, cut into pieces. *)
Lemma scalar_items levels t n : forall s, scalar_value_size t <> 0 ->
  zlen s = Z.of_nat n * scalar_value_size t ->
  exists items, length items = n /\ Forall (fun v => gval_type v = t /\ wf_value (S levels) v) items /\
    s = flat_map encode_value items.
Proof.
  induction n as [|n IH]; intros s Ht Hs.
  { exists []. destruct s; [done|]. unfold zlen in Hs. cbn in Hs. lia. }
  pose proof (scalar_value_size_nonneg t). set (k := Z.to_nat (scalar_value_size t)).
  assert (Hk : zlen (take k s) = scalar_value_size t) by (unfold zlen in *; rewrite length_take; lia).
  destruct (IH (drop k s) Ht) as (items & <- & H1 & H2); [unfold zlen in *; rewrite length_drop; lia|].
  exists (VScalar t (take k s) :: items). split_and!; [done | | cbn; by rewrite <- H2, take_drop].
  constructor; [|done]. cbn. rewrite Hk. done.
Qed.

Lemma items_loop_reads skip levels t :
  reads (fun _ s => exists v, gval_type v = t /\ wf_value levels v /\ s = encode_value v) skip ->
  forall fuel i len, 0 <= i <= len ->
  reads (fun _ s => exists items, Forall (fun v => gval_type v = t /\ wf_value levels v) items /\
    zlen items = len - i /\ s = flat_map encode_value items) (items_loop fuel skip i len).
Proof.
  intros Hskip. induction fuel as [|fuel IH]; intros i len Hi c [] c' Hc Hs H; cbn [items_loop] in H;
    destruct (Z.ltb_spec i len); try done.
  2: { assert (Hb := reads_bind _ (fun _ _ s => _) _ (fun _ => items_loop fuel skip (i + 1) len) Hskip (fun _ _ _ => IH (i + 1) len ltac:(lia))).
    destruct (Hb c tt c' Hc Hs H) as (s & r & H1 & H2 & H3 & _ & s1 & s2 & (v & Hv & Hw & ->) & (items & Hit & Hl & ->) & ->).
    exists (flat_map encode_value (v :: items)), r. split_and!; [done..|]. exists (v :: items).
    split_and!; [by constructor | unfold zlen in *; cbn [length]; lia | done]. }
  all: destruct (reads_ret tt c tt c' Hc Hs H) as (s & r & H1 & H2 & H3 & _ & ->); exists [], r;
    split_and!; [done..|]; exists []; split_and!; [done | unfold zlen; cbn; lia | done].
Qed.

(** A value that the walker accepts is an encoding.  Arrays of scalars are taken at
    one level more than the walker descends. *)
Lemma skip_value_reads levels : forall type,
  reads (fun _ s => exists v, gval_type v = type /\ wf_value (S levels) v /\ s = encode_value v) (skip_value levels type).
Proof.
  induction levels as [|levels IH]; intros type; cbn [skip_value]; [apply reads_fail|].
  pose proof (scalar_value_size_nonneg type). destruct (Z.eqb_spec (scalar_value_size type) 0) as [Hz|Hz]; cbn [negb].
  2: { eapply reads_weaken; [|apply cursor_skip_reads; lia]. intros a s _ Hs. exists (VScalar type s). cbn. rewrite Hs. done. }
  destruct (Z.eqb_spec type GGUF_VALUE_STRING) as [->|_].
  { eapply reads_weaken; [|eapply reads_bind; [apply cursor_string_reads | intros ? ? _; apply reads_ret]].
    intros a s _ (k & s1 & s2 & [-> Hk] & [_ ->] & ->). rewrite app_nil_r. exists (VString k). done. }
  destruct (Z.eqb_spec type GGUF_VALUE_ARRAY) as [->|_]; [|apply reads_fail].
  eapply reads_weaken; [|eapply (reads_bind _ (fun t _ s => exists items, zlen items <= U64_MAX /\
      Forall (fun v => gval_type v = t /\ wf_value (S levels) v) items /\ s = le_bytes 8 (zlen items) ++ flat_map encode_value items));
    [apply cursor_u32_reads|]].
  { intros a s Hs (t & s1 & s2 & [-> Ht] & (items & Hl & Hall & ->) & ->). exists (VArray t items). split_and!; [done | | done].
    cbn [wf_value]. split_and!; try done. rewrite !zlen_app in Hs. pose proof (zlen_nonneg (le_bytes 4 t)).
    pose proof (zlen_nonneg (le_bytes 8 (zlen items))). lia. }
  intros t s0 _. eapply reads_weaken; [|eapply (reads_bind _ (fun len _ s => exists items, zlen items = len /\
      Forall (fun v => gval_type v = t /\ wf_value (S levels) v) items /\ s = flat_map encode_value items));
    [apply cursor_u64_reads|]].
  { intros a s Hs (len & s1 & s2 & [-> [_ Hl]] & (items & <- & Hall & ->) & ->). by exists items. }
  intros len s1 [_ [Hl0 Hl]]. cbv zeta. pose proof (scalar_value_size_nonneg t).
  destruct (Z.eqb_spec (scalar_value_size t) 0) as [Hzt|Hzt]; cbn [negb].
  - intros c a c' Hc Hs E. eapply (items_loop_reads _ (S levels) t (IH t)) in E; [|lia|done|done].
    destruct E as (s & r & H1 & H2 & H3 & items & Hall & Hn & ->). eexists _, r. split_and!; [done..|].
    exists items. split_and!; [lia | done | done].
  - destruct (Z.ltb_spec (U64_MAX / scalar_value_size t) len) as [|Hle]; [apply reads_fail|].
    assert (len * scalar_value_size t <= U64_MAX) by (etransitivity; [apply Z.mul_le_mono_nonneg_r; [lia | exact Hle]|]; rewrite Z.mul_comm; apply Z.mul_div_le; lia).
    rewrite u64_small by (unfold is_u64; nia). eapply reads_weaken; [|apply cursor_skip_reads; nia].
    intros a s _ Hs. destruct (scalar_items levels t (Z.to_nat len) s Hzt) as (items & Hn & Hall & ->); [rewrite Z2Nat.id by lia; exact Hs|].
    exists items. split_and!; [unfold zlen; lia | done | done].
Qed.

(** The value of a key stands in the file, as the encoding of a value of its
    type. *)
Definition kv_in (file : bytes) (kv : ds4_kv) : Prop :=
  0 <= kv_value_pos kv /\ exists v rest, gval_type v = kv_type kv /\ wf_value (S top_levels) v /\
  drop (Z.to_nat (kv_value_pos kv)) file = encode_value v ++ rest.

Lemma metadata_loop_values n : forall c al kvs c' al' kvs',
  cursor_ok c -> c_size c <= U64_MAX -> Forall (kv_in (c_base c)) kvs ->
  metadata_loop n c al kvs = inr (c', al', kvs') -> Forall (kv_in (c_base c)) kvs'.
Proof.
  induction n as [|n IH]; intros c al kvs c' al' kvs' Hc Hs Hk H; cbn [metadata_loop] in H; [by injection H as <- <- <-|].
  destruct (cursor_string c) as [[key| |] c1] eqn:E1; cbn [or_die] in H; try done.
  destruct (cursor_string_reads _ _ _ Hc Hs E1) as (s1 & r1 & H1 & -> & _). apply at_rest_move in H1.
  destruct (cursor_u32 _) as [[type| |] c2] eqn:E2 in H; cbn [or_die] in H; try done.
  destruct (cursor_u32_reads _ _ _ (proj1 H1) Hs E2) as (s2 & r2 & H2 & -> & _). apply at_rest_move in H2.
  destruct (skip_value _ _ _) as [[[]| |] c3] eqn:E3 in H; cbn [or_die] in H; try done.
  destruct (skip_value_reads _ _ _ _ _ (proj1 H2) Hs E3) as (s3 & r3 & H3 & -> & _ & v & Hv & Hw & ->).
  rewrite !set_pos_twice in *. refine (IH (set_pos c _) _ _ _ _ _ (proj1 (at_rest_move _ _ _ H3)) Hs _ H).
  apply Forall_app. split; [exact Hk|]. constructor; [|done]. split; [exact (proj1 (co_pos _ (proj1 H3)))|].
  exists v, r3. split_and!; [done | done | exact (proj2 H3)].
Qed.

(** *** Tensors *)

(** The bytes that [elements] of a type take. *)
Definition tensor_extent (info : gguf_type_info) (elements : Z) : Z :=
  (elements + ti_block_elems info - 1) / ti_block_elems info * ti_block_bytes info.

Lemma tensor_type_ok type info : tensor_type type = Some info ->
  1 <= ti_block_elems info <= 256 /\ 1 <= ti_block_bytes info.
Proof.
  unfold tensor_type. intros Ht. destruct (List.find _ gguf_types) as [[k i]|] eqn:Ef; [|done].
  injection Ht as <-. apply find_some in Ef as [Hin _].
  assert (Hall : Forall (fun p => 1 <= ti_block_elems (snd p) <= 256 /\ 1 <= ti_block_bytes (snd p)) gguf_types).
  { by apply (bool_decide_unpack _). }
  rewrite List.Forall_forall in Hall. by apply (Hall (k, i)).
Qed.

Lemma tensor_nbytes_small type elements info :
  tensor_type type = Some info -> 0 <= elements -> elements + ti_block_elems info - 1 <= U64_MAX ->
  tensor_nbytes type elements =
    if tensor_extent info elements <=? U64_MAX then Some (tensor_extent info elements) else None.
Proof.
  intros Ht He Hm. unfold tensor_nbytes, tensor_extent. rewrite Ht.
  destruct (tensor_type_ok _ _ Ht) as [H1 H2]. rewrite (proj2 (Z.eqb_neq _ 0)) by lia.
  rewrite (u64_small (elements + _ - 1)) by (unfold is_u64; lia). cbv zeta.
  set (blocks := (elements + ti_block_elems info - 1) / ti_block_elems info).
  assert (0 <= blocks) by (apply Z.div_pos; lia). unfold U64_MAX in *.
  destruct (Z.ltb_spec (18446744073709551615 / ti_block_bytes info) blocks) as [Hlt|Hge].
  - rewrite (proj2 (Z.leb_gt _ _)); [done|].
    destruct (Z.le_gt_cases (blocks * ti_block_bytes info) 18446744073709551615) as [Hle|]; [|done].
    assert (blocks <= 18446744073709551615 / ti_block_bytes info) by (apply Z.div_le_lower_bound; lia). lia.
  - assert (blocks * ti_block_bytes info <= 18446744073709551615).
    { pose proof (Z.mul_div_le 18446744073709551615 (ti_block_bytes info) ltac:(lia)). nia. }
    rewrite (proj2 (Z.leb_le _ _)) by done. rewrite u64_small; [done|]. unfold is_u64, U64_MAX. nia.
Qed.

(** Where rounding up wraps, no block is left. *)
Lemma tensor_nbytes_wrapped type elements info :
  tensor_type type = Some info -> is_u64 elements -> U64_MAX < elements + ti_block_elems info - 1 ->
  tensor_nbytes type elements = Some 0.
Proof.
  intros Ht He Hm. unfold tensor_nbytes. rewrite Ht. destruct (tensor_type_ok _ _ Ht) as [H1 H2].
  rewrite (proj2 (Z.eqb_neq _ 0)) by lia. unfold is_u64, U64_MAX in *.
  replace (u64 (elements + ti_block_elems info - 1)) with (elements + ti_block_elems info - 1 - 2 ^ 64).
  2: { unfold u64. change (2 ^ 64) with 18446744073709551616.
       replace (elements + ti_block_elems info - 1) with
         (elements + ti_block_elems info - 1 - 18446744073709551616 + 1 * 18446744073709551616) at 2 by lia.
       rewrite Z.mod_add by lia. rewrite Z.mod_small; lia. }
  rewrite (Z.div_small (elements + ti_block_elems info - 1 - 2 ^ 64)) by (change (2 ^ 64) with 18446744073709551616; lia).
  cbv zeta. rewrite (proj2 (Z.ltb_ge _ _)); [done|]. apply Z.div_pos; lia.
Qed.

(** A tensor whose size is representable has exactly that size and lies in the
    file; any other gets size 0, which is not checked. *)
Definition tensor_in (size : Z) (t : ds4_tensor) : Prop :=
  (exists info, tensor_type (tn_type t) = Some info /\ tn_bytes t = tensor_extent info (tn_elements t) /\
     (tn_bytes t <> 0 -> tn_abs_offset t + tn_bytes t <= size)) \/
  (tn_bytes t = 0 /\ forall info, tensor_type (tn_type t) = Some info ->
     U64_MAX < tn_elements t + ti_block_elems info - 1 \/ U64_MAX < tensor_extent info (tn_elements t)).

Lemma placed_in size data_pos mx t : placed size data_pos mx t -> tensor_in size t.
Proof.
  intros ((_ & _ & _ & He & _ & Hb) & _ & _ & _ & Hin). destruct (tensor_type (tn_type t)) as [info|] eqn:Ht.
  - destruct (Z.le_gt_cases (tn_elements t + ti_block_elems info - 1) U64_MAX) as [Hle|Hgt].
    + rewrite (tensor_nbytes_small _ _ _ Ht) in Hb by (done || apply He).
      destruct (Z.leb_spec (tensor_extent info (tn_elements t)) U64_MAX); cbn in Hb.
      * left. by exists info.
      * right. split; [done|]. intros i Hi. assert (i = info) as -> by congruence. by right.
    + right. rewrite (tensor_nbytes_wrapped _ _ _ Ht He Hgt) in Hb. split; [done|]. intros i Hi. assert (i = info) as -> by congruence. by left.
  - right. unfold tensor_nbytes in Hb. rewrite Ht in Hb. split; [exact Hb|]. intros i Hi. congruence.
Qed.

Lemma model_open_values file k1 k2 m :
  bytes_ok file -> zlen file <= 2 ^ 63 -> model_open (Some file) k1 k2 = inr m -> Forall (kv_in file) (m_kv m).
Proof.
  intros Hb Hl H. change (2 ^ 63) with 9223372036854775808 in Hl.
  assert (HU : zlen file <= U64_MAX) by (unfold U64_MAX; lia). unfold model_open in H. case_if_in H; [done|].
  assert (Hc : cursor_ok (Cursor file (zlen file) 0 None)).
  { constructor; [done | cbn; pose proof (zlen_nonneg file); lia | done]. }
  set (c := Cursor file (zlen file) 0 None) in *.
  destruct (cursor_u32 c) as [[a| |] c1] eqn:Rd1; cbn [or_die] in H; try done. case_if_in H; [done|].
  destruct (cursor_u32_reads _ _ _ Hc HU Rd1) as (s1 & r1 & H1 & -> & _). apply at_rest_move, proj1 in H1.
  destruct (cursor_u32 _) as [[b| |] c2] eqn:Rd2 in H; cbn [or_die] in H; try done.
  destruct (cursor_u32_reads _ _ _ H1 HU Rd2) as (s2 & r2 & H2 & -> & _). apply at_rest_move, proj1 in H2.
  destruct (cursor_u64 _) as [[nt| |] c3] eqn:Rd3 in H; cbn [or_die] in H; try done.
  destruct (cursor_u64_reads _ _ _ H2 HU Rd3) as (s3 & r3 & H3 & -> & _). apply at_rest_move, proj1 in H3.
  destruct (cursor_u64 _) as [[nk| |] c4] eqn:Rd4 in H; cbn [or_die] in H; try done.
  destruct (cursor_u64_reads _ _ _ H3 HU Rd4) as (s4 & r4 & H4 & -> & _). apply at_rest_move, proj1 in H4.
  case_if_in H; [done|]. unfold parse_metadata in H. case_if_in H; [done|]. case_if_in H; [done|].
  destruct (metadata_loop _ _ _ _) as [e|[[c5 al] kvs]] eqn:Rd5 in H; [done|].
  apply metadata_loop_values in Rd5; [|exact H4|exact HU|constructor].
  destruct (parse_tensors _ _ _ _) as [e|[[[c6 p] ts] mx]]; [done|]. by injection H as <-.
Qed.

(** ** Properties *)


(** the size of a tensor is the number of its blocks times their size,
    whenever the rounding up of the element count does not itself wrap
    around 64 bits; with a wrap, a tensor of 2^64 - 1 elements has size 0. *)
Theorem tensor_nbytes_exact :
  (forall type elements info, tensor_type type = Some info -> 0 <= elements ->
     elements + ti_block_elems info - 1 <= U64_MAX ->
     tensor_nbytes type elements =
       (let blocks := (elements + ti_block_elems info - 1) / ti_block_elems info in
        if blocks * ti_block_bytes info <=? U64_MAX then Some (blocks * ti_block_bytes info) else None)) /\
  tensor_nbytes 10 U64_MAX = Some 0.
Proof.
  split; [|reflexivity]. intros type elements info Ht He Hm. exact (tensor_nbytes_small type elements info Ht He Hm).
Qed.

(** Reading an array of 32-bit items back at its position. *)
Lemma u32_array_rest m key vs cap p rest :
  model_find_kv m key = Some (Kv key GGUF_VALUE_ARRAY p) -> 0 <= cap ->
  Forall (fun v => 0 <= v <= INT32_MAX) vs -> zlen vs <= U64_MAX ->
  at_rest (cursor_at m p) (encode_value (VArray GGUF_VALUE_INT32
    (map (fun v => VScalar GGUF_VALUE_INT32 (le_bytes 4 v)) vs)) ++ rest) ->
  model_get_u32_array_any m [key] cap = Some (take (Z.to_nat cap) vs).
Proof.
  intros Hf Hcap Hvs Hn Hp. unfold model_get_u32_array_any, model_get_array, read_at. rewrite Hf.
  cbn [kv_type kv_value_pos]. change (GGUF_VALUE_ARRAY =? GGUF_VALUE_ARRAY) with true. cbn iota.
  cbn [encode_value] in Hp. rewrite <- !app_assoc in Hp. unfold cbind.
  assert (Hz : zlen (map (fun v => VScalar GGUF_VALUE_INT32 (le_bytes 4 v)) vs) = zlen vs)
    by (unfold zlen; by rewrite length_map).
  rewrite (cursor_u32_rest _ _ _ Hp) by (unfold is_u32, U32_MAX, GGUF_VALUE_INT32; lia).
  apply at_rest_move in Hp. rewrite zlen_le_bytes in Hp. change (Z.of_nat 4) with 4 in Hp.
  rewrite (cursor_u64_rest _ _ _ Hp) by (split; [apply zlen_nonneg | rewrite Hz; done]).
  apply at_rest_move in Hp. rewrite zlen_le_bytes in Hp. change (Z.of_nat 8) with 8 in Hp.
  cbn [ar_type ar_len ar_data_pos]. change (GGUF_VALUE_INT32 =? GGUF_VALUE_INT32) with true.
  rewrite andb_false_r. rewrite !set_pos_twice in Hp. rewrite Hz.
  rewrite flat_map_concat_map, map_map, <- flat_map_concat_map in Hp.
  set (n := if zlen vs <? cap then zlen vs else cap).
  assert (Hnn : take (Z.to_nat n) vs = take (Z.to_nat cap) vs /\ (Z.to_nat n <= length vs)%nat).
  { unfold n, zlen in *. case_if; bool_prop; [rewrite !take_ge by lia; split; [done | lia] | split; [done | lia]]. }
  destruct Hnn as [Hnn Hnl].
  destruct (read_u32_items_rest GGUF_VALUE_INT32 vs _ rest (Z.to_nat n) Hvs Hp Hnl) as [c' Hr].
  match type of Hr with ?l = _ =>
    match goal with |- context [read_u32_items ?a ?b ?cc] => change (read_u32_items a b cc) with l end
  end.
  by rewrite Hr, Hnn.
Qed.

(** a metadata table read back from its encoding, whatever surrounds it:
    the parser consumes exactly the table, and lookups return the first
    binding of a key at its type, and nothing for other keys or types. *)
Theorem metadata_roundtrip (pre rest : bytes) (kvs : list (bytes * gval)) (al : Z)
    (Hw : Forall wf_kv kvs) (Hb : bytes_ok (pre ++ flat_map encode_kv kvs ++ rest)) :
  let file := pre ++ flat_map encode_kv kvs ++ rest in
  exists al' tbl,
    metadata_loop (length kvs) (Cursor file (zlen file) (zlen pre) None) al [] =
      inr (Cursor file (zlen file) (zlen pre + zlen (flat_map encode_kv kvs)) None, al', tbl) /\
    forall m, m_map m = file -> m_size m = zlen file -> m_kv m = tbl -> forall key,
      (forall s, assoc key kvs = Some (VString s) -> model_get_string m key = Some s) /\
      (forall v, assoc key kvs = Some (VScalar GGUF_VALUE_UINT32 (le_bytes 4 v)) -> is_u32 v ->
         model_get_u32 m key = Some v /\ model_get_u64_compat m key = Some v) /\
      (forall v, assoc key kvs = Some (VScalar GGUF_VALUE_UINT64 (le_bytes 8 v)) -> is_u64 v ->
         model_get_u64_compat m key = Some v /\ model_get_u32 m key = None) /\
      (forall vs cap, assoc key kvs = Some (VArray GGUF_VALUE_INT32
                        (map (fun v => VScalar GGUF_VALUE_INT32 (le_bytes 4 v)) vs)) ->
         Forall (fun v => 0 <= v <= INT32_MAX) vs -> 0 <= cap ->
         model_get_u32_array_any m [key] cap = Some (take (Z.to_nat cap) vs)) /\
      (assoc key kvs = None -> model_find_kv m key = None).
Proof.
  intros file. set (c := Cursor file (zlen file) (zlen pre) None).
  assert (Hc : at_rest c (flat_map encode_kv kvs ++ rest)).
  { split; [constructor; cbn; [done | | done]|].
    - unfold file. rewrite zlen_app. pose proof (zlen_nonneg pre). pose proof (zlen_nonneg (flat_map encode_kv kvs ++ rest)). lia.
    - cbn. unfold zlen, file. rewrite Nat2Z.id. apply drop_app_length. }
  destruct (metadata_loop_rest kvs c al [] rest Hw Hc) as [al' Hm]. exists al', (kv_table (zlen pre) kvs).
  split; [exact Hm|]. intros m Hmap Hsz Hkv key.
  pose proof (kv_table_find key kvs c rest Hw Hc) as Hf. cbn [c c_pos] in Hf.
  assert (Hcur : forall p, cursor_at m p = set_pos c p) by (intros p; unfold cursor_at; by rewrite Hmap, Hsz).
  unfold model_get_string, model_get_u32, model_get_u64_compat, model_find_kv, read_at. rewrite Hkv.
  destruct (assoc key kvs) as [v|]; [|split_and!; done].
  destruct Hf as [Hwv (p & rest' & Hfind & Hp)]. rewrite Hfind. cbn [kv_type kv_value_pos].
  split_and!; [| | | |done].
  - intros s [= ->]. cbn [gval_type encode_value] in *. rewrite Hcur.
    by rewrite (cursor_string_rest _ _ _ Hp).
  - intros w [= ->] Hu. cbn [gval_type encode_value] in *. rewrite Hcur.
    by rewrite (cursor_u32_rest _ _ _ Hp).
  - intros w [= ->] Hu. cbn [gval_type encode_value] in *. rewrite Hcur.
    by rewrite (cursor_u64_rest _ _ _ Hp).
  - intros vs cap Heq Hvs Hcap.
    assert (Hv : v = VArray GGUF_VALUE_INT32 (map (fun v => VScalar GGUF_VALUE_INT32 (le_bytes 4 v)) vs)) by congruence.
    clear Heq. subst v. cbn [gval_type] in *. destruct Hwv as (_ & _ & Hn & _).
    unfold zlen in Hn. rewrite length_map in Hn.
    apply (u32_array_rest m key vs cap p rest'); [|done|done|done|by rewrite Hcur].
    unfold model_find_kv. by rewrite Hkv, Hfind.
Qed.

(** A model with two keys and one tensor of 96 bytes. *)
Module GgufExample.
Definition kvs : list (bytes * gval) :=
  [(bs "general.name", VString (bs "tiny"));
   (bs "layers", VScalar GGUF_VALUE_UINT32 (le_bytes 4 2));
   (bs "ratios", VArray GGUF_VALUE_INT32 (map (fun v => VScalar GGUF_VALUE_INT32 (le_bytes 4 v)) [1; 4]))].
Definition head : bytes := le_bytes 4 DS4_GGUF_MAGIC ++ le_bytes 4 3 ++ le_bytes 8 1 ++ le_bytes 8 3.
Definition tensor_entry : bytes :=
  encode_string (bs "w") ++ le_bytes 4 2 ++ le_bytes 8 8 ++ le_bytes 8 3 ++ le_bytes 4 0 ++ le_bytes 8 0.
Definition body : bytes := head ++ flat_map encode_kv kvs ++ tensor_entry.
Definition file : bytes := body ++ replicate (Z.to_nat (align_up (zlen body) 32 - zlen body)) 0 ++ replicate 96 7.
End GgufExample.


Lemma metadata_roundtrip_witness :
  exists tbl al', metadata_loop 3 (Cursor GgufExample.file (zlen GgufExample.file) 24 None) 32 [] =
    inr (Cursor GgufExample.file (zlen GgufExample.file) (24 + zlen (flat_map encode_kv GgufExample.kvs)) None, al', tbl).
Proof.
  assert (Hw : Forall wf_kv GgufExample.kvs).
  { apply Forall_cons_2; [|apply Forall_cons_2; [|apply Forall_cons_2; [|constructor]]].
    - split; [vm_compute; discriminate|]. split; [vm_compute; split; discriminate|].
      vm_compute. discriminate.
    - split; [vm_compute; discriminate|]. split; [vm_compute; split; discriminate|].
      split; [reflexivity | vm_compute; discriminate].
    - split; [vm_compute; discriminate|]. split; [vm_compute; split; discriminate|].
      split; [vm_compute; split; discriminate|]. split; [vm_compute; discriminate|].
      split; [vm_compute; discriminate|].
      apply Forall_cons_2; [|apply Forall_cons_2; [|constructor]];
        (split; [reflexivity|]; split; [reflexivity | vm_compute; discriminate]). }
  destruct (metadata_roundtrip GgufExample.head (GgufExample.tensor_entry ++
    replicate (Z.to_nat (align_up (zlen GgufExample.body) 32 - zlen GgufExample.body)) 0 ++ replicate 96 7)
    GgufExample.kvs 32 Hw) as (al' & tbl & H & _).
  { by apply (bool_decide_unpack _); vm_compute. }
  exists tbl, al'. exact H.
Defined.
