(* ===== verification/HashTable.v ===== *)
(** * String tables of the tokenizer ([str_i32_table] of ds4.c)

    The open-addressed table that maps token strings to ids and merge pairs to
    ranks: FNV hashing, a power-of-two capacity, linear probing, insertion or
    update in place and lookup.  The loops of the code end only when the table
    has a free slot; they are given [cap] steps of fuel and the refinement
    theorem shows that a table created for [expected] keys never needs more,
    and that it implements a finite map from strings to integers. *)

From S2P Require Import Prelude.
#[local] Open Scope Z_scope.

(** ** Definitions *)

Definition FNV_BASIS : Z := 1469598103934665603.
Definition FNV_PRIME : Z := 1099511628211.

(** [hash_bytes]: xor with the byte, then a 64-bit multiplication. *)
Fixpoint hash_loop (h : Z) (p : bytes) : Z :=
  match p with
  | [] => h
  | b :: p' => hash_loop (u64 (Z.lxor h b * FNV_PRIME)) p'
  end.

Definition hash_bytes (p : bytes) : Z := hash_loop FNV_BASIS p.

(** [ds4_str_eq]. *)
Definition ds4_str_eq (a b : bytes) : bool := bytes_eqb a b.

Record str_i32_entry := Entry { e_key : bytes; e_value : Z; e_used : bool }.

Record str_i32_table := Table { t_entry : list str_i32_entry; t_cap : Z; t_used : Z }.

(** An entry of a [calloc]ed array. *)
Definition entry0 : str_i32_entry := Entry [] 0 false.

(** [while (p < n) p <<= 1;] from [p]: 64 shifts are all the shifts there are. *)
Fixpoint next_pow2_loop (fuel : nat) (n p : Z) : option Z :=
  match fuel with
  | O => None
  | S fuel' => if p <? n then next_pow2_loop fuel' n (u64 (Z.shiftl p 1)) else Some p
  end.

Definition next_pow2 (n : Z) : option Z := next_pow2_loop 65 n 1.

Definition table_init (expected : Z) : option str_i32_table :=
  match next_pow2 (u64 (u64 (expected * 2) + 16)) with
  | None => None
  | Some cap => Some (Table (replicate (Z.to_nat cap) entry0) cap 0)
  end.

(** [t->entry[i]]. *)
Definition entry_at (t : str_i32_table) (i : Z) : str_i32_entry :=
  nth (Z.to_nat i) (t_entry t) entry0.

(** [i = (i + 1) & mask]. *)
Definition next_slot (t : str_i32_table) (i : Z) : Z := Z.land (u64 (i + 1)) (t_cap t - 1).

Definition first_slot (t : str_i32_table) (key : bytes) : Z :=
  Z.land (hash_bytes key) (t_cap t - 1).

Definition set_entry (t : str_i32_table) (i : Z) (e : str_i32_entry) (used : Z) : str_i32_table :=
  Table (<[Z.to_nat i := e]> (t_entry t)) (t_cap t) used.

(** The loop of [table_put] from slot [i]. *)
Fixpoint put_probe (fuel : nat) (t : str_i32_table) (key : bytes) (value i : Z)
  : option str_i32_table :=
  match fuel with
  | O => None
  | S fuel' =>
      let e := entry_at t i in
      if e_used e then
        if ds4_str_eq (e_key e) key
        then Some (set_entry t i (Entry (e_key e) value true) (t_used t))
        else put_probe fuel' t key value (next_slot t i)
      else Some (set_entry t i (Entry key value true) (t_used t + 1))
  end.

Definition table_put (t : str_i32_table) (key : bytes) (value : Z) : option str_i32_table :=
  put_probe (Z.to_nat (t_cap t)) t key value (first_slot t key).

(** The loop of [table_get]: the inner option is the code's [bool] and [*value]. *)
Fixpoint get_probe (fuel : nat) (t : str_i32_table) (key : bytes) (i : Z) : option (option Z) :=
  match fuel with
  | O => None
  | S fuel' =>
      let e := entry_at t i in
      if e_used e then
        if (zlen (e_key e) =? zlen key) && bytes_eqb (e_key e) key
        then Some (Some (e_value e))
        else get_probe fuel' t key (next_slot t i)
      else Some None
  end.

Definition table_get (t : str_i32_table) (key : bytes) : option (option Z) :=
  if t_cap t =? 0 then Some None
  else get_probe (Z.to_nat (t_cap t)) t key (first_slot t key).

(** A sequence of insertions, as the loader makes them. *)
Fixpoint put_all (t : str_i32_table) (kvs : list (bytes * Z)) : option str_i32_table :=
  match kvs with
  | [] => Some t
  | (k, v) :: kvs' => match table_put t k v with None => None | Some t' => put_all t' kvs' end
  end.

(** The map the insertions build: a later binding replaces an earlier one. *)
Definition map_of (kvs : list (bytes * Z)) : gmap bytes Z :=
  foldl (fun m kv => <[kv.1 := kv.2]> m) ∅ kvs.

(** ** Slots *)

(** The slot [d] steps after the first one of [key] in a table of [n] slots. *)
Definition slot (n : nat) (key : bytes) (d : nat) : nat :=
  (Z.to_nat (hash_bytes key mod Z.of_nat n) + d) mod n.

(** Number of entries in use. *)
Fixpoint count_used (l : list str_i32_entry) : nat :=
  match l with
  | [] => 0
  | e :: l' => (if e_used e then 1 else 0) + count_used l'
  end.

(** Entry [j] stops the search of [key]. *)
Definition stops (l : list str_i32_entry) (key : bytes) (j : nat) : bool :=
  negb (e_used (nth j l entry0)) || bytes_eqb (e_key (nth j l entry0)) key.

(** The table [t] of [2^k] slots stores the map [m]: the counter counts the
    used slots, each used slot is reached from its key's first slot over used
    slots, no key is stored twice, and the bindings are those of [m]. *)
Record stores (t : str_i32_table) (m : gmap bytes Z) : Prop := {
  st_cap : exists k, 0 <= k <= 63 /\ t_cap t = 2 ^ k;
  st_length : Z.of_nat (length (t_entry t)) = t_cap t;
  st_used : t_used t = Z.of_nat (count_used (t_entry t));
  st_reach : forall j e, t_entry t !! j = Some e -> e_used e = true ->
    exists d, (d < length (t_entry t))%nat /\ j = slot (length (t_entry t)) (e_key e) d /\
      forall d', (d' < d)%nat -> stops (t_entry t) (e_key e) (slot (length (t_entry t)) (e_key e) d') = false;
  st_map : forall key v, m !! key = Some v <->
    exists j, t_entry t !! j = Some (Entry key v true)
}.

Section HashTable.
Lemma hash_loop_range p : forall h, is_u64 h -> is_u64 (hash_loop h p).
Proof.
  induction p as [|b p IH]; intros h Hh; [done|]. apply IH, u64_range.
Qed.

Lemma hash_range key : is_u64 (hash_bytes key).
Proof. apply hash_loop_range. unfold is_u64, U64_MAX, FNV_BASIS. lia. Qed.

Lemma land_mask x k : 0 <= k -> Z.land x (2 ^ k - 1) = x mod 2 ^ k.
Proof.
  intros Hk. replace (2 ^ k - 1) with (Z.ones k) by (rewrite Z.ones_equiv; lia).
  by apply Z.land_ones.
Qed.

Context (t : str_i32_table) (m : gmap bytes Z) (Ht : stores t m).

Lemma cap_pos : 0 < t_cap t.
Proof. destruct (st_cap _ _ Ht) as (k & Hk & ->). apply Z.pow_pos_nonneg; lia. Qed.

Lemma cap_max : t_cap t <= 2 ^ 63.
Proof. destruct (st_cap _ _ Ht) as (k & Hk & ->). apply Z.pow_le_mono_r; lia. Qed.

Lemma first_slot_eq key : first_slot t key = Z.of_nat (slot (length (t_entry t)) key 0).
Proof.
  pose proof (st_length _ _ Ht) as Hl. pose proof cap_pos as Hc. unfold first_slot, slot.
  destruct (st_cap _ _ Ht) as (k & Hk & Hcap). rewrite Hl.
  pose proof (Z.mod_pos_bound (hash_bytes key) (t_cap t) Hc).
  rewrite Nat.add_0_r, Nat2Z.inj_mod, Z2Nat.id, Hl by lia.
  rewrite Z.mod_mod by lia. rewrite Hcap. apply land_mask. lia.
Qed.

Lemma next_slot_eq key d :
  next_slot t (Z.of_nat (slot (length (t_entry t)) key d)) =
  Z.of_nat (slot (length (t_entry t)) key (S d)).
Proof.
  pose proof (st_length _ _ Ht) as Hl. pose proof cap_pos as Hc. pose proof cap_max as Hm.
  destruct (st_cap _ _ Ht) as (k & Hk & Hcap). unfold next_slot.
  assert (length (t_entry t) <> 0%nat) as Hn by lia.
  pose proof (Nat.mod_upper_bound (Z.to_nat (hash_bytes key mod Z.of_nat (length (t_entry t))) + d)
                _ Hn) as Hb.
  fold (slot (length (t_entry t)) key d) in Hb.
  change (2 ^ 63) with 9223372036854775808 in Hm.
  rewrite u64_small by (unfold is_u64, U64_MAX; lia).
  rewrite Hcap, land_mask, <- Hcap, <- Hl by lia.
  replace (Z.of_nat (slot _ _ _) + 1) with (Z.of_nat (S (slot (length (t_entry t)) key d))) by lia.
  rewrite <- Nat2Z.inj_mod. f_equal. unfold slot.
  rewrite <- Nat.add_1_r, Nat.Div0.add_mod_idemp_l. f_equal. lia.
Qed.

Lemma slot_lt key d : (slot (length (t_entry t)) key d < length (t_entry t))%nat.
Proof.
  apply Nat.mod_upper_bound. pose proof (st_length _ _ Ht). pose proof cap_pos. lia.
Qed.

(** Every slot is some number of steps away. *)
Lemma slot_onto key j : (j < length (t_entry t))%nat ->
  exists d, (d < length (t_entry t))%nat /\ slot (length (t_entry t)) key d = j.
Proof.
  set (n := length (t_entry t)). intros Hj. unfold slot.
  set (h := Z.to_nat (hash_bytes key mod Z.of_nat n)).
  assert (h < n)%nat as Hh.
  { unfold h. pose proof (Z.mod_pos_bound (hash_bytes key) (Z.of_nat n)). lia. }
  destruct (le_lt_dec h j).
  - exists (j - h)%nat. split; [lia|]. rewrite Nat.mod_small; lia.
  - exists (n + j - h)%nat. split; [lia|]. replace (h + (n + j - h))%nat with (j + 1 * n)%nat by lia.
    rewrite Nat.Div0.mod_add. apply Nat.mod_small. lia.
Qed.

Lemma entry_at_slot key d :
  entry_at t (Z.of_nat (slot (length (t_entry t)) key d)) =
  nth (slot (length (t_entry t)) key d) (t_entry t) entry0.
Proof. unfold entry_at. by rewrite Nat2Z.id. Qed.

(** Both loops run to the first slot that stops the search. *)
Lemma probes_reach key value fuel : forall d0 d,
  (d0 <= d)%nat -> (d < d0 + fuel)%nat ->
  stops (t_entry t) key (slot (length (t_entry t)) key d) = true ->
  (forall d', (d0 <= d' < d)%nat -> stops (t_entry t) key (slot (length (t_entry t)) key d') = false) ->
  let i0 := Z.of_nat (slot (length (t_entry t)) key d0) in
  let i := Z.of_nat (slot (length (t_entry t)) key d) in
  put_probe fuel t key value i0 = put_probe 1 t key value i /\
  get_probe fuel t key i0 = get_probe 1 t key i.
Proof.
  induction fuel as [|fuel IH]; intros d0 d H1 H2 Hs Hn; [lia|]. cbn zeta.
  destruct (decide (d0 = d)) as [->|Hne].
  - cbn [put_probe get_probe]. rewrite entry_at_slot. unfold stops in Hs.
    destruct (e_used _); [|done]. cbn [negb orb] in Hs. unfold ds4_str_eq. rewrite Hs.
    apply bytes_eqb_eq in Hs. rewrite Hs, Z.eqb_refl. done.
  - pose proof (Hn d0 ltac:(lia)) as H0. destruct (IH (S d0) d) as [E1 E2]; [lia..|done| |].
    { intros d' Hd'. apply Hn. lia. }
    cbn zeta in E1, E2. rewrite <- E1, <- E2, <- !next_slot_eq.
    cbn [put_probe get_probe]. rewrite entry_at_slot. unfold stops in H0.
    apply orb_false_iff in H0 as [Hu Hk]. apply negb_false_iff in Hu.
    unfold ds4_str_eq. rewrite Hu, Hk, andb_false_r. done.
Qed.

Lemma count_used_free l : (count_used l < length l)%nat ->
  exists j, (j < length l)%nat /\ e_used (nth j l entry0) = false.
Proof.
  induction l as [|e l IH]; cbn [count_used length]; [lia|]. intros H.
  destruct (e_used e) eqn:E.
  - destruct IH as (j & Hj & Hu); [lia|]. exists (S j). split; [lia | done].
  - exists 0%nat. split; [lia | done].
Qed.

Lemma least_true (f : nat -> bool) d : f d = true ->
  exists d1, (d1 <= d)%nat /\ f d1 = true /\ forall d', (d' < d1)%nat -> f d' = false.
Proof.
  induction d as [d IH] using lt_wf_ind. intros Hd.
  destruct (decide (Exists (fun d' => f d' = true) (seq 0 d))) as [He|Hn].
  - apply Exists_exists in He as (d' & Hin%elem_of_seq & Hf).
    destruct (IH d' ltac:(lia) Hf) as (d1 & ? & ? & ?). exists d1. split; [lia | done].
  - exists d. split_and!; [done|done|]. intros d' Hd'.
    rewrite <- Forall_Exists_neg, Forall_forall in Hn.
    apply not_true_is_false, Hn, elem_of_seq. lia.
Qed.

Lemma probe_outcome key value : t_used t < t_cap t ->
  exists d, (d < length (t_entry t))%nat /\
    stops (t_entry t) key (slot (length (t_entry t)) key d) = true /\
    (forall d', (d' < d)%nat -> stops (t_entry t) key (slot (length (t_entry t)) key d') = false) /\
    table_put t key value = put_probe 1 t key value (Z.of_nat (slot (length (t_entry t)) key d)) /\
    table_get t key = get_probe 1 t key (Z.of_nat (slot (length (t_entry t)) key d)).
Proof.
  intros Hfree. rewrite (st_used _ _ Ht), <- (st_length _ _ Ht) in Hfree.
  destruct (count_used_free (t_entry t)) as (j & Hj & Hu); [lia|].
  destruct (slot_onto key j Hj) as (d & Hd & Hs).
  destruct (least_true (fun d => stops (t_entry t) key (slot (length (t_entry t)) key d)) d)
    as (d1 & Hd1 & Hf & Hmin).
  { cbn beta. rewrite Hs. unfold stops. by rewrite Hu. }
  destruct (probes_reach key value (Z.to_nat (t_cap t)) 0 d1) as [E1 E2]; [lia| |done| |].
  { rewrite <- (st_length _ _ Ht). lia. }
  { intros d' Hd'. apply Hmin. lia. }
  exists d1. split_and!; [lia|done|done| |].
  - unfold table_put. by rewrite first_slot_eq.
  - unfold table_get. pose proof cap_pos. destruct (Z.eqb_spec (t_cap t) 0); [lia|].
    by rewrite first_slot_eq.
Qed.

(** A key that is stored is found where its search stops. *)
Lemma stored_at key j e d :
  t_entry t !! j = Some e -> e_used e = true -> e_key e = key ->
  stops (t_entry t) key (slot (length (t_entry t)) key d) = true ->
  (forall d', (d' < d)%nat -> stops (t_entry t) key (slot (length (t_entry t)) key d') = false) ->
  j = slot (length (t_entry t)) key d.
Proof.
  intros Hj Hu <- Hs Hn. destruct (st_reach _ _ Ht j e Hj Hu) as (d0 & Hd0 & -> & Hr).
  destruct (lt_eq_lt_dec d0 d) as [[Hlt| ->]|Hlt]; [|done|].
  - specialize (Hn d0 Hlt). exfalso. unfold stops in Hn. 
    erewrite nth_lookup_Some in Hn by done. by rewrite Hu, bytes_eqb_refl in Hn.
  - specialize (Hr d Hlt). congruence.
Qed.

(** Lookup reads the map. *)
Lemma table_get_stored key : t_used t < t_cap t -> table_get t key = Some (m !! key).
Proof.
  intros Hfree. destruct (probe_outcome key 0 Hfree) as (d & Hd & Hs & Hn & _ & ->).
  cbn [get_probe]. rewrite entry_at_slot.
  set (j := slot (length (t_entry t)) key d) in *.
  destruct (lookup_lt_is_Some_2 (t_entry t) j) as [e He]; [apply slot_lt|].
  assert (nth j (t_entry t) entry0 = e) as Hj by (by apply nth_lookup_Some). rewrite Hj.
  destruct (e_used e) eqn:Hu.
  - assert (e_key e = key) as Hk.
    { unfold stops in Hs. rewrite Hj, Hu in Hs. by apply bytes_eqb_eq. }
    rewrite Hk, Z.eqb_refl, bytes_eqb_refl. cbn [andb]. f_equal. symmetry.
    apply (st_map _ _ Ht). exists j. rewrite He. destruct e; cbn in *; by subst.
  - destruct (m !! key) as [v|] eqn:Em; [|done].
    apply (st_map _ _ Ht) in Em as (j' & Hj').
    pose proof (stored_at key j' _ d Hj' eq_refl eq_refl Hs Hn) as Heq.
    fold j in Heq. subst j'. rewrite He in Hj'. injection Hj' as ->. done.
Qed.

Lemma count_used_insert l j e0 e : l !! j = Some e0 ->
  count_used (<[j := e]> l) =
  (count_used l + (if e_used e then 1 else 0) - (if e_used e0 then 1 else 0))%nat.
Proof.
  revert j. induction l as [|a l IH]; intros [|j]; cbn [lookup list_lookup]; [done..| |].
  - intros [= ->]. cbn [insert list_insert count_used]. destruct (e_used e0); lia.
  - intros Hj.
    change (count_used (<[S j := e]> (a :: l)))
      with ((if e_used a then 1 else 0) + count_used (<[j := e]> l))%nat.
    rewrite (IH _ Hj). cbn [count_used].
    assert (e_used e0 = true -> (1 <= count_used l)%nat).
    { intros Hu. clear IH. revert j Hj. induction l as [|b l IHl]; intros [|j]; [done..| |].
      - intros [= ->]. cbn [count_used]. rewrite Hu. lia.
      - intros Hj. cbn [count_used]. specialize (IHl j Hj). lia. }
    destruct (e_used e0), (e_used a); cbn; lia.
Qed.

(** Storing a used entry of [key] where its search stopped keeps the table well
    formed and binds the key. *)
Lemma set_entry_stored key value d e0 :
  let n := length (t_entry t) in
  (d < n)%nat ->
  t_entry t !! slot n key d = Some e0 ->
  stops (t_entry t) key (slot n key d) = true ->
  (forall d', (d' < d)%nat -> stops (t_entry t) key (slot n key d') = false) ->
  stores (set_entry t (Z.of_nat (slot n key d)) (Entry key value true)
            (t_used t + (if e_used e0 then 0 else 1)))
         (<[key := value]> m).
Proof.
  intros n Hd He0 Hs Hn. unfold set_entry. rewrite Nat2Z.id.
  set (j := slot n key d) in *. set (l' := <[j := Entry key value true]> (t_entry t)).
  assert (length l' = n) as Hlen by apply length_insert.
  assert (j < n)%nat as Hjn by apply slot_lt.
  assert (Hkey : e_used e0 = true -> e_key e0 = key).
  { intros Hu. unfold stops in Hs. erewrite nth_lookup_Some in Hs by done.
    rewrite Hu in Hs. by apply bytes_eqb_eq. }
  assert (Hpres : forall k i, stops (t_entry t) k i = false -> stops l' k i = false).
  { intros k i. unfold stops. destruct (decide (i = j)) as [->|Hij].
    - erewrite nth_lookup_Some by done.
      rewrite (nth_lookup_Some l' j entry0 (Entry key value true)) by (by apply list_lookup_insert_eq).
      cbn [e_used e_key]. destruct (e_used e0) eqn:Hu; [|done]. by rewrite Hkey.
    - rewrite !nth_lookup. unfold l'. by rewrite list_lookup_insert_ne. }
  split; cbn [t_entry t_cap t_used].
  - apply (st_cap _ _ Ht).
  - rewrite Hlen. apply (st_length _ _ Ht).
  - unfold l'. rewrite (count_used_insert _ _ e0) by done. rewrite (st_used _ _ Ht).
    cbn [e_used]. destruct (e_used e0); lia.
  - fold l'. rewrite Hlen. intros i e Hi Hu. destruct (decide (i = j)) as [->|Hij].
    + unfold l' in Hi. rewrite list_lookup_insert_eq in Hi by done. injection Hi as <-. cbn [e_key].
      exists d. split_and!; [done|done|]. intros d' Hd'. by apply Hpres, Hn.
    + unfold l' in Hi. rewrite list_lookup_insert_ne in Hi by done.
      destruct (st_reach _ _ Ht i e Hi Hu) as (d1 & ? & ? & Hr).
      exists d1. split_and!; [done|done|]. intros d' Hd'. by apply Hpres, Hr.
  - fold l'. intros k v. destruct (decide (k = key)) as [->|Hk].
    + rewrite lookup_insert_eq. split.
      * intros [= <-]. exists j. by apply list_lookup_insert_eq.
      * intros (i & Hi). destruct (decide (i = j)) as [->|Hij].
        { unfold l' in Hi. rewrite list_lookup_insert_eq in Hi by done. congruence. }
        unfold l' in Hi. rewrite list_lookup_insert_ne in Hi by done. exfalso. apply Hij.
        by eapply stored_at.
    + rewrite lookup_insert_ne by done. rewrite (st_map _ _ Ht). split; intros (i & Hi).
      * exists i. unfold l'. destruct (decide (i = j)) as [->|Hij].
        { exfalso. rewrite He0 in Hi. injection Hi as ->. by apply Hk, Hkey. }
        by rewrite list_lookup_insert_ne.
      * exists i. unfold l' in Hi. destruct (decide (i = j)) as [->|Hij].
        { rewrite list_lookup_insert_eq in Hi by done. congruence. }
        by rewrite list_lookup_insert_ne in Hi.
Qed.

(** Insertion updates the map and uses at most one more slot. *)
Lemma table_put_stored key value : t_used t < t_cap t ->
  exists t', table_put t key value = Some t' /\ stores t' (<[key := value]> m) /\
    t_cap t' = t_cap t /\ t_used t <= t_used t' <= t_used t + 1.
Proof.
  intros Hfree. destruct (probe_outcome key value Hfree) as (d & Hd & Hs & Hn & -> & _).
  cbn [put_probe]. rewrite entry_at_slot.
  destruct (lookup_lt_is_Some_2 (t_entry t) (slot (length (t_entry t)) key d)) as [e He];
    [apply slot_lt|].
  pose proof (set_entry_stored key value d e Hd He Hs Hn) as Hset. cbn zeta in Hset.
  assert (nth (slot (length (t_entry t)) key d) (t_entry t) entry0 = e) as Hj
    by (by apply nth_lookup_Some).
  unfold stops in Hs. rewrite Hj in Hs |- *.
  destruct (e_used e) eqn:Hu.
  - cbn [negb orb] in Hs. unfold ds4_str_eq. rewrite Hs. apply bytes_eqb_eq in Hs. rewrite Hs.
    rewrite Z.add_0_r in Hset. eexists. split_and!; [done|done|done|cbn;lia|cbn;lia].
  - eexists. split_and!; [done|done|done|cbn;lia|cbn;lia].
Qed.
End HashTable.

Section Build.
Lemma put_all_stored kvs : forall t m, stores t m -> t_used t + zlen kvs <= t_cap t - 1 ->
  exists t', put_all t kvs = Some t' /\
    stores t' (foldl (fun m kv => <[kv.1 := kv.2]> m) m kvs) /\
    t_cap t' = t_cap t /\ t_used t' <= t_used t + zlen kvs.
Proof.
  unfold zlen. induction kvs as [|[k v] kvs IH]; intros t m Ht Hu; cbn [put_all length] in *.
  - exists t. split_and!; [done|done|done|lia].
  - destruct (table_put_stored t m Ht k v) as (t1 & -> & Ht1 & Hc & Hu1); [lia|].
    destruct (IH t1 _ Ht1) as (t' & -> & Ht' & Hc' & Hu'); [lia|].
    exists t'. split_and!; [done|done|congruence|lia].
Qed.

Lemma next_pow2_loop_spec fuel : forall n k, 0 <= k -> n <= 2 ^ 63 -> k <= 63 ->
  63 - k < Z.of_nat fuel ->
  exists k', k <= k' <= 63 /\ next_pow2_loop fuel n (2 ^ k) = Some (2 ^ k') /\ n <= 2 ^ k'.
Proof.
  induction fuel as [|fuel IH]; intros n k Hk Hn Hk63 Hf; [lia|]. cbn [next_pow2_loop].
  destruct (Z.ltb_spec (2 ^ k) n).
  - assert (k <> 63) by (intros ->; lia).
    assert (u64 (Z.shiftl (2 ^ k) 1) = 2 ^ (k + 1)) as ->.
    { rewrite Z.shiftl_mul_pow2, <- Z.pow_add_r by lia. apply u64_small. unfold is_u64, U64_MAX.
      pose proof (Z.pow_pos_nonneg 2 (k + 1)). pose proof (Z.pow_le_mono_r 2 (k + 1) 63).
      change (2 ^ 63) with 9223372036854775808 in *. lia. }
    destruct (IH n (k + 1)) as (k' & ? & ? & ?); [lia..|]. exists k'. split; [lia | done].
  - exists k. split; [lia | done].
Qed.

(** A new table has room for the expected number of keys. *)
Lemma table_init_stored expected : 0 <= expected <= 2 ^ 61 ->
  exists t, table_init expected = Some t /\ stores t ∅ /\ t_used t = 0 /\ expected + 1 <= t_cap t.
Proof.
  intros He. change (2 ^ 61) with 2305843009213693952 in He.
  unfold table_init, next_pow2. rewrite (u64_small (expected * 2)), u64_small
    by (unfold is_u64, U64_MAX; lia).
  destruct (next_pow2_loop_spec 65 (expected * 2 + 16) 0) as (k & Hk & Hp & Hle); [lia| |lia|lia|].
  { change (2 ^ 63) with 9223372036854775808. lia. }
  change (2 ^ 0) with 1 in Hp. rewrite Hp. eexists. split; [done|]. split; [|split; [done | cbn; lia]].
  pose proof (Z.pow_pos_nonneg 2 k ltac:(lia) ltac:(lia)).
  split; cbn [t_entry t_cap t_used].
  - exists k. split; [lia | done].
  - rewrite length_replicate. lia.
  - generalize (Z.to_nat (2 ^ k)). induction n as [|n IHn]; [done|]. cbn. lia.
  - intros j e [-> _]%lookup_replicate. done.
  - intros key v. rewrite lookup_empty. split; [done|].
    by intros (j & [? _]%lookup_replicate).
Qed.

Lemma table_build_stored expected kvs : 0 <= expected <= 2 ^ 61 -> zlen kvs <= expected ->
  exists t0 t, table_init expected = Some t0 /\ put_all t0 kvs = Some t /\ stores t (map_of kvs) /\
    forall key, table_get t key = Some (map_of kvs !! key).
Proof.
  intros He Hn. destruct (table_init_stored expected He) as (t0 & -> & H0 & Hu & Hc).
  destruct (put_all_stored kvs t0 ∅ H0) as (t & Hp & Ht & Hc' & Hu'); [lia|].
  exists t0, t. split_and!; [done|done|done|]. intros key.
  apply table_get_stored; [done|]. lia.
Qed.
End Build.

(** ** Tables ready for lookups *)

(** The table stores [m] and has a free slot, so every search ends. *)
Definition serves (t : str_i32_table) (m : gmap bytes Z) : Prop :=
  stores t m /\ t_used t < t_cap t.

Section Serves.
Lemma table_get_serves t m key : serves t m -> table_get t key = Some (m !! key).
Proof. intros [Ht Hu]. by apply table_get_stored. Qed.

(** A key of a used entry is a key of the map, and conversely. *)
Lemma serves_entry t m key v : serves t m -> m !! key = Some v ->
  exists e, e ∈ t_entry t /\ e_used e = true /\ e_key e = key /\ e_value e = v.
Proof.
  intros [Ht _] (j & Hj)%(st_map _ _ Ht). eexists. split_and!; [by eapply list_elem_of_lookup_2|done..].
Qed.

Lemma foldl_insert_lookup kvs : forall (m : gmap bytes Z) key v,
  foldl (fun m kv => <[kv.1 := kv.2]> m) m kvs !! key = Some v ->
  (key, v) ∈ kvs \/ m !! key = Some v.
Proof.
  induction kvs as [|[k w] kvs IH]; intros m key v; cbn [foldl fst snd]; [by right|].
  intros [H|H]%IH; [left; by constructor|].
  destruct (decide (key = k)) as [->|Hne].
  - rewrite lookup_insert_eq in H. injection H as ->. left. by constructor.
  - rewrite lookup_insert_ne in H by congruence. by right.
Qed.

Lemma foldl_insert_some kvs : forall (m : gmap bytes Z) key,
  key ∈ kvs.*1 \/ is_Some (m !! key) ->
  is_Some (foldl (fun m kv => <[kv.1 := kv.2]> m) m kvs !! key).
Proof.
  induction kvs as [|[k w] kvs IH]; intros m key; cbn [foldl fst snd fmap list_fmap].
  - intros [H|H]; [by apply elem_of_nil in H | done].
  - intros H. apply IH. destruct (decide (key = k)) as [->|Hne].
    + right. rewrite lookup_insert_eq. by eexists.
    + rewrite lookup_insert_ne by congruence. destruct H as [H|H]; [|by right].
      left. by apply elem_of_cons in H as [->|H].
Qed.

Lemma map_of_lookup kvs key v : map_of kvs !! key = Some v -> (key, v) ∈ kvs.
Proof. intros [H|H]%foldl_insert_lookup; [done | by rewrite lookup_empty in H]. Qed.

Lemma map_of_some kvs key : key ∈ kvs.*1 -> is_Some (map_of kvs !! key).
Proof. intros H. apply foldl_insert_some. by left. Qed.
End Serves.

(** ** Properties *)

(** C29: A table created for an expected number of keys implements a finite map.
    Whatever strings hash to, inserting at most that many bindings terminates,
    and afterwards looking up any string terminates and returns the value of its
    last binding, or nothing when it was never inserted. *)
Theorem table_refines_map (expected : Z) (kvs : list (bytes * Z)) (key : bytes) :
  0 <= expected <= 2 ^ 61 -> zlen kvs <= expected ->
  exists t0 t, table_init expected = Some t0 /\ put_all t0 kvs = Some t /\
    table_get t key = Some (map_of kvs !! key).
Proof.
  intros He Hn. destruct (table_build_stored expected kvs He Hn) as (t0 & t & ? & ? & _ & Hg).
  exists t0, t. auto.
Qed.

Lemma table_refines_map_witness :
  exists t0 t, table_init 3 = Some t0 /\
    put_all t0 [(bs "a b", 0); (bs "b c", 1); (bs "a b", 2)] = Some t /\
    table_get t (bs "a b") = Some (Some 2).
Proof.
  destruct (table_refines_map 3 [(bs "a b", 0); (bs "b c", 1); (bs "a b", 2)] (bs "a b"))
    as (t0 & t & H0 & H1 & H2); [split; vm_compute; discriminate | vm_compute; discriminate |].
  exists t0, t. split; [exact H0|]. split; [exact H1|]. rewrite H2. reflexivity.
Defined.
