(* ===== verification/Pretok.v ===== *)
(** * Pre-tokenization (ds4.c): the two splitters in front of the BPE

    [bpe_tokenize_text] cuts a text into the pieces the byte-pair encoder works
    on, by the JoyAI rules or, for GLM models, the GLM4 rules.  A splitter is a
    function from a position to the end of the piece that starts there; the
    loop over the text calls it until the end.  The theorems say that both
    splitters are total, lose nothing, and never cut a character in two.

    Positions are natural numbers below the length of a C string in memory, so
    the 64-bit arithmetic on them cannot wrap. *)

From S2P Require Import Prelude.
#[local] Open Scope Z_scope.

(** ** Characters *)

Definition utf8_len_from_first_byte (c : Z) : nat :=
  if c <? 128 then 1
  else if Z.land c 224 =? 192 then 2
  else if Z.land c 240 =? 224 then 3
  else if Z.land c 248 =? 240 then 4
  else 1.

(** The length of the character at [pos], cut to 1 when it would leave the text. *)
Definition utf8_char_len (s : bytes) (pos : nat) : nat :=
  let n := utf8_len_from_first_byte (cget s pos) in
  if (length s <? pos + n)%nat then 1 else n.

Definition next_utf8_char (s : bytes) (pos : nat) : nat := pos + utf8_char_len s pos.

Definition utf8_peek_one (s : bytes) (pos : nat) : Z * nat :=
  let c0 := cget s pos in
  let n := utf8_char_len s pos in
  let next := (pos + n)%nat in
  let tail i := Z.land (cget s (pos + i)) 63 in
  if (n =? 1)%nat then (c0, next)
  else if (n =? 2)%nat then (Z.lor (Z.shiftl (Z.land c0 31) 6) (tail 1%nat), next)
  else if (n =? 3)%nat then
    (Z.lor (Z.lor (Z.shiftl (Z.land c0 15) 12) (Z.shiftl (tail 1%nat) 6)) (tail 2%nat), next)
  else
    (Z.lor (Z.lor (Z.lor (Z.shiftl (Z.land c0 7) 18) (Z.shiftl (tail 1%nat) 12))
              (Z.shiftl (tail 2%nat) 6)) (tail 3%nat), next).

Definition between (lo hi c : Z) : bool := (lo <=? c) && (c <=? hi).

(** Membership in a list of closed ranges. *)
Definition in_ranges (rs : list (Z * Z)) (c : Z) : bool :=
  existsb (fun r => between r.1 r.2 c) rs.

Definition ascii_alpha (c : Z) : bool := between 65 90 c || between 97 122 c.
Definition ascii_digit (c : Z) : bool := between 48 57 c.
Definition ascii_space (c : Z) : bool :=
  (c =? 32) || (c =? 9) || (c =? 10) || (c =? 13) || (c =? 11) || (c =? 12).
Definition ascii_newline (c : Z) : bool := (c =? 10) || (c =? 13).
Definition joyai_ascii_punct_symbol (c : Z) : bool :=
  between 33 47 c || between 58 64 c || between 91 96 c || between 123 126 c.
Definition utf8_is_cjk_hira_kata (cp : Z) : bool :=
  between 0x4e00 0x9fa5 cp || between 0x3040 0x309f cp || between 0x30a0 0x30ff cp.

(** [while (pos < len && cond(pos)) pos = next(pos);] every step advances, so
    the bytes left are enough fuel. *)
Fixpoint while_loop (fuel : nat) (len : nat) (cond : nat -> bool) (next : nat -> nat) (pos : nat)
  : nat :=
  match fuel with
  | O => pos
  | S fuel' =>
      if (pos <? len)%nat && cond pos then while_loop fuel' len cond next (next pos) else pos
  end.

Definition while_pos (s : bytes) (cond : nat -> bool) (next : nat -> nat) (pos : nat) : nat :=
  while_loop (length s - pos) (length s) cond next pos.

(** ** JoyAI splitting *)

Definition joyai_letter_like_at (s : bytes) (pos : nat) : bool :=
  let c := cget s pos in if c <? 128 then ascii_alpha c else true.

Definition joyai_consume_letters (s : bytes) (pos : nat) : nat :=
  while_pos s (joyai_letter_like_at s) (next_utf8_char s) pos.

Definition joyai_cjk_at (s : bytes) (pos : nat) : bool :=
  if cget s pos <? 128 then false else utf8_is_cjk_hira_kata (fst (utf8_peek_one s pos)).

(** At most [k] more digits. *)
Fixpoint digit_run (k : nat) (s : bytes) (pos : nat) : nat :=
  match k with
  | O => pos
  | S k' =>
      if (pos <? length s)%nat && ascii_digit (cget s pos) then digit_run k' s (S pos) else pos
  end.

(** A run of bytes satisfying an ASCII test. *)
Definition byte_run (s : bytes) (test : Z -> bool) (pos : nat) : nat :=
  while_pos s (fun p => test (cget s p)) S pos.

(** A punctuation run and the newlines after it. *)
Definition joyai_punct_run (s : bytes) (pos : nat) : nat :=
  byte_run s ascii_newline (byte_run s joyai_ascii_punct_symbol pos).

(** The scan over white space: its end and the end of the last newline in it (0: none). *)
Fixpoint joyai_spaces (fuel : nat) (s : bytes) (p last_newline_end : nat) : nat * nat :=
  match fuel with
  | O => (p, last_newline_end)
  | S fuel' =>
      if (p <? length s)%nat && ascii_space (cget s p) then
        joyai_spaces fuel' s (S p)
          (if ascii_newline (cget s p) then S p else last_newline_end)
      else (p, last_newline_end)
  end.

(** The end of the piece that starts at [pos], as the branches compute it. *)
Definition joyai_piece_end (s : bytes) (pos : nat) : nat :=
  let len := length s in
  let c := cget s pos in
  if ascii_digit c then digit_run 3 s pos
  else if joyai_cjk_at s pos then while_pos s (joyai_cjk_at s) (next_utf8_char s) (next_utf8_char s pos)
  else if joyai_ascii_punct_symbol c && (pos + 1 <? len)%nat && ascii_alpha (cget s (pos + 1))
  then byte_run s ascii_alpha (S pos)
  else if joyai_letter_like_at s pos then joyai_consume_letters s pos
  else if negb (ascii_newline c) && negb (joyai_ascii_punct_symbol c) && (pos + 1 <? len)%nat
          && joyai_letter_like_at s (pos + 1)
  then joyai_consume_letters s (S pos)
  else if (c =? 32) && (pos + 1 <? len)%nat && joyai_ascii_punct_symbol (cget s (pos + 1))
  then joyai_punct_run s (S pos)
  else if joyai_ascii_punct_symbol c then joyai_punct_run s pos
  else if ascii_space c then
    let '(p, last_newline_end) := joyai_spaces (len - pos) s pos 0 in
    if negb (last_newline_end =? 0)%nat then last_newline_end
    else if (p <? len)%nat && (pos + 1 <? p)%nat
            && (joyai_letter_like_at s p || joyai_ascii_punct_symbol (cget s p))
    then (p - 1)%nat
    else p
  else next_utf8_char s pos.

(** [if (pos == start) pos = next_utf8_char(text, len, pos);] *)
Definition joyai_next (s : bytes) (start : nat) : option nat :=
  let pos := joyai_piece_end s start in
  Some (if (pos =? start)%nat then next_utf8_char s pos else pos).

(** ** GLM4 splitting *)

Record glm4_char_info := CharInfo {
  g_cp : Z; g_next : nat; g_valid : bool;
  g_is_letter : bool; g_is_number : bool; g_is_whitespace : bool
}.

Definition glm4_unicode_whitespace (cp : Z) : bool :=
  if cp <? 128 then ascii_space cp
  else in_ranges [(0x85,0x85); (0xa0,0xa0); (0x1680,0x1680); (0x2000,0x200a); (0x2028,0x2028);
                  (0x2029,0x2029); (0x202f,0x202f); (0x205f,0x205f); (0x3000,0x3000)] cp.

Definition glm4_unicode_number (cp : Z) : bool :=
  if cp <? 128 then ascii_digit cp
  else in_ranges [(0x0660,0x0669); (0x06f0,0x06f9); (0x07c0,0x07c9); (0x0966,0x096f);
                  (0x09e6,0x09ef); (0x0a66,0x0a6f); (0x0ae6,0x0aef); (0x0b66,0x0b6f);
                  (0x0be6,0x0bef); (0x0c66,0x0c6f); (0x0ce6,0x0cef); (0x0d66,0x0d6f);
                  (0x0de6,0x0def); (0x0e50,0x0e59); (0x0ed0,0x0ed9); (0x0f20,0x0f29);
                  (0x1040,0x1049); (0x1090,0x1099); (0x17e0,0x17e9); (0x1810,0x1819);
                  (0xff10,0xff19)] cp.

Definition glm4_unicode_punct_symbol (cp : Z) : bool :=
  if cp <? 128 then joyai_ascii_punct_symbol cp
  else in_ranges [(0x00a1,0x00a9); (0x00ab,0x00ac); (0x00ae,0x00b1); (0x00b4,0x00b4);
                  (0x00b6,0x00b8); (0x00bb,0x00bb); (0x00bf,0x00bf); (0x00d7,0x00d7);
                  (0x00f7,0x00f7); (0x02c2,0x02df); (0x02e5,0x02eb); (0x02ed,0x02ff);
                  (0x0375,0x037e); (0x0384,0x0385); (0x0387,0x0387); (0x055a,0x055f);
                  (0x0589,0x058a); (0x05be,0x05c0); (0x05c3,0x05c3); (0x05c6,0x05c7);
                  (0x0609,0x060a); (0x060c,0x060d); (0x061b,0x061b); (0x061e,0x061f);
                  (0x066a,0x066a); (0x066d,0x066d); (0x06d4,0x06d4); (0x2000,0x206f);
                  (0x20a0,0x20cf); (0x2100,0x214f); (0x2190,0x23ff); (0x2460,0x24ff);
                  (0x2500,0x2775); (0x2794,0x2bff); (0x2e00,0x2e7f); (0x3000,0x303f);
                  (0xfd3e,0xfd3f); (0xfe10,0xfe6f); (0xff01,0xff0f); (0xff1a,0xff20);
                  (0xff3b,0xff40); (0xff5b,0xff65); (0x1f000,0x1faff)] cp.

Definition glm4_char_at (s : bytes) (pos : nat) : glm4_char_info :=
  if (length s <=? pos)%nat then CharInfo 0 0 false false false false
  else
    let '(cp, next) := utf8_peek_one s pos in
    let ws := glm4_unicode_whitespace cp in
    let num := glm4_unicode_number cp in
    CharInfo cp next true
      (if cp <? 128 then ascii_alpha cp
       else negb ws && negb num && negb (glm4_unicode_punct_symbol cp)) num ws.

Definition ascii_tolower_cp (cp : Z) : Z := if between 65 90 cp then cp + 32 else cp.

(** A scan over characters that satisfy a test. *)
Definition glm4_run (s : bytes) (test : glm4_char_info -> bool) (pos : nat) : nat :=
  while_pos s (fun p => g_valid (glm4_char_at s p) && test (glm4_char_at s p))
    (fun p => g_next (glm4_char_at s p)) pos.

(** At most [k] more numeric characters. *)
Fixpoint glm4_number_run (k : nat) (s : bytes) (pos : nat) : nat :=
  match k with
  | O => pos
  | S k' =>
      if (pos <? length s)%nat
         && (g_valid (glm4_char_at s pos) && g_is_number (glm4_char_at s pos))
      then glm4_number_run k' s (g_next (glm4_char_at s pos)) else pos
  end.

Definition is_newline_cp (cp : Z) : bool := (cp =? 13) || (cp =? 10).

(** Letter of a one-letter contraction: 's 't 'm 'd. *)
Definition contraction1 (n1 : Z) : bool := (n1 =? 115) || (n1 =? 116) || (n1 =? 109) || (n1 =? 100).

(** 're 've 'll. *)
Definition contraction2 (n1 n2 : Z) : bool :=
  ((n1 =? 114) && (n2 =? 101)) || ((n1 =? 118) && (n2 =? 101)) || ((n1 =? 108) && (n2 =? 108)).

Definition glm4_contraction (s : bytes) (cur : glm4_char_info) : option nat :=
  if (g_cp cur =? 39) && (g_next cur <? length s)%nat then
    let next := glm4_char_at s (g_next cur) in
    let n1 := ascii_tolower_cp (g_cp next) in
    if contraction1 n1 then Some (g_next next)
    else if g_valid next && (g_next next <? length s)%nat then
      let next2 := glm4_char_at s (g_next next) in
      if contraction2 n1 (ascii_tolower_cp (g_cp next2)) then Some (g_next next2) else None
    else None
  else None.

Definition glm4_letters (s : bytes) (cur : glm4_char_info) : option nat :=
  if negb (is_newline_cp (g_cp cur) || g_is_number cur)
     && (g_is_letter cur || g_is_letter (glm4_char_at s (g_next cur)))
  then Some (glm4_run s g_is_letter (g_next cur))
  else None.

Definition glm4_is_punct (i : glm4_char_info) : bool :=
  negb (g_is_whitespace i || g_is_letter i || g_is_number i).

Definition glm4_punct (s : bytes) (pos : nat) (cur : glm4_char_info) : option nat :=
  let punct_pos := if g_cp cur =? 32 then g_next cur else pos in
  let punct := if g_cp cur =? 32 then glm4_char_at s punct_pos else cur in
  if g_valid punct && glm4_is_punct punct
  then Some (glm4_run s (fun i => is_newline_cp (g_cp i)) (glm4_run s glm4_is_punct punct_pos))
  else None.

(** The scan over white space: its end, the end of its last newline (0: none),
    the start of its last character and its length. *)
Fixpoint glm4_spaces (fuel : nat) (s : bytes) (p newline_end ws_start nspace : nat)
  : nat * nat * nat * nat :=
  match fuel with
  | O => (p, newline_end, ws_start, nspace)
  | S fuel' =>
      let scan := glm4_char_at s p in
      if (p <? length s)%nat && (g_valid scan && g_is_whitespace scan) then
        glm4_spaces fuel' s (g_next scan)
          (if is_newline_cp (g_cp scan) then g_next scan else newline_end) p (S nspace)
      else (p, newline_end, ws_start, nspace)
  end.

Definition glm4_whitespace (s : bytes) (pos : nat) : nat :=
  let '(p, last_newline_end, last_ws_start, nspace) := glm4_spaces (length s - pos) s pos 0 pos 0 in
  if negb (last_newline_end =? 0)%nat then last_newline_end
  else if (1 <? nspace)%nat && (p <? length s)%nat then last_ws_start
  else p.

(** One round of the loop: the end of the piece at [start]; [None] is its [break]. *)
Definition glm4_next (s : bytes) (start : nat) : option nat :=
  let cur := glm4_char_at s start in
  if negb (g_valid cur) then None
  else match glm4_contraction s cur with
  | Some pos => Some pos
  | None =>
      match glm4_letters s cur with
      | Some pos => Some pos
      | None =>
          if g_is_number cur then Some (glm4_number_run 3 s start)
          else match glm4_punct s start cur with
          | Some pos => Some pos
          | None =>
              if g_is_whitespace cur then Some (glm4_whitespace s start)
              else
                let pos := g_next cur in
                Some (if (pos =? start)%nat then next_utf8_char s pos else pos)
          end
      end
  end.

(** ** The loop over the text *)

Inductive model_family := DS4_MODEL_FAMILY_DEEPSEEK4 | DS4_MODEL_FAMILY_GLM_DSA.

Definition next_piece (family : model_family) (s : bytes) (pos : nat) : option nat :=
  match family with
  | DS4_MODEL_FAMILY_GLM_DSA => glm4_next s pos
  | DS4_MODEL_FAMILY_DEEPSEEK4 => joyai_next s pos
  end.

(** The pieces handed to [bpe_emit_piece], in order; [None] when the fuel runs out. *)
Fixpoint pieces_loop (fuel : nat) (family : model_family) (s : bytes) (pos : nat)
  : option (list bytes) :=
  if (length s <=? pos)%nat then Some []
  else match fuel with
  | O => None
  | S fuel' =>
      match next_piece family s pos with
      | None => Some []
      | Some pos' =>
          match pieces_loop fuel' family s pos' with
          | None => None
          | Some ps => Some (take (pos' - pos) (drop pos s) :: ps)
          end
      end
  end.

Definition text_pieces (family : model_family) (s : bytes) : option (list bytes) :=
  pieces_loop (length s) family s 0.

(** ** Moving by whole characters *)

Definition char_step (s : bytes) (p q : nat) : Prop := (p < length s)%nat /\ q = next_utf8_char s p.

(** Any number of characters, and at least one. *)
Abbreviation adv s := (rtc (char_step s)).
Abbreviation adv1 s := (tc (char_step s)).

Section Moves.
Context (s : bytes).

Lemma utf8_char_len_bounds p : (p < length s)%nat ->
  (1 <= utf8_char_len s p)%nat /\ (p + utf8_char_len s p <= length s)%nat.
Proof.
  intros Hp. unfold utf8_char_len, utf8_len_from_first_byte.
  destruct (Nat.ltb_spec (length s)
    (p + (if cget s p <? 128 then 1
          else if Z.land (cget s p) 224 =? 192 then 2
          else if Z.land (cget s p) 240 =? 224 then 3
          else if Z.land (cget s p) 248 =? 240 then 4 else 1))); [lia|].
  split; [|lia]. repeat case_if; lia.
Qed.

Lemma char_step_lt p q : char_step s p q -> (p < q <= length s)%nat.
Proof.
  intros [Hp ->]. pose proof (utf8_char_len_bounds p Hp). unfold next_utf8_char. lia.
Qed.

Lemma adv_le p q : adv s p q -> (p <= q)%nat /\ ((p <= length s)%nat -> (q <= length s)%nat).
Proof.
  induction 1 as [|p r q Hs _ [IH1 IH2]]; [lia|]. apply char_step_lt in Hs. lia.
Qed.

Lemma adv1_lt p q : adv1 s p q -> (p < q <= length s)%nat.
Proof.
  intros Ht. induction Ht as [p q Hs%char_step_lt|p r q Hs%char_step_lt _ IH]; lia.
Qed.

Lemma adv_ne_adv1 p q : adv s p q -> p <> q -> adv1 s p q.
Proof. by intros [->|Ha]%rtc_tc. Qed.

Lemma step_next p : (p < length s)%nat -> char_step s p (next_utf8_char s p).
Proof. done. Qed.

(** An ASCII byte is a character. *)
Lemma step_ascii p : (p < length s)%nat -> cget s p < 128 -> char_step s p (S p).
Proof.
  intros Hp Hc. split; [done|]. unfold next_utf8_char, utf8_char_len, utf8_len_from_first_byte.
  destruct (Z.ltb_spec (cget s p) 128); [|lia].
  destruct (Nat.ltb_spec (length s) (p + 1)); lia.
Qed.

Lemma while_loop_adv fuel cond next : forall p,
  (forall p, (p < length s)%nat -> cond p = true -> char_step s p (next p)) ->
  adv s p (while_loop fuel (length s) cond next p).
Proof.
  induction fuel as [|fuel IH]; intros p Hn; cbn [while_loop]; [done|].
  case_if; [|done]. bool_prop. eapply rtc_l; [by apply Hn | by apply IH].
Qed.

Lemma while_pos_adv cond next p :
  (forall p, (p < length s)%nat -> cond p = true -> char_step s p (next p)) ->
  adv s p (while_pos s cond next p).
Proof. apply while_loop_adv. Qed.

(** A loop that is entered advances. *)
Lemma while_pos_adv1 cond next p :
  (forall p, (p < length s)%nat -> cond p = true -> char_step s p (next p)) ->
  (p < length s)%nat -> cond p = true -> adv1 s p (while_pos s cond next p).
Proof.
  intros Hn Hp Hc. unfold while_pos. destruct (length s - p)%nat as [|f] eqn:E; [lia|].
  cbn [while_loop]. apply Nat.ltb_lt in Hp as Hp'. rewrite Hp', Hc. cbn [andb].
  eapply tc_rtc_r; [apply tc_once; by apply Hn | by apply while_loop_adv].
Qed.

Lemma byte_run_adv test p : (forall c, test c = true -> c < 128) -> adv s p (byte_run s test p).
Proof. intros Ht. apply while_pos_adv. intros q Hq Hc. apply step_ascii; [done | by apply Ht]. Qed.

Lemma letters_adv p : adv s p (joyai_consume_letters s p).
Proof. apply while_pos_adv. intros q Hq _. by apply step_next. Qed.
End Moves.

(** Tests that only ASCII bytes pass. *)
Section Ascii.
Lemma ascii_alpha_lt c : ascii_alpha c = true -> c < 128.
Proof. unfold ascii_alpha, between. intros. bool_prop. destruct H; bool_prop; lia. Qed.

Lemma ascii_digit_lt c : ascii_digit c = true -> c < 128.
Proof. unfold ascii_digit, between. intros. bool_prop. lia. Qed.

Lemma ascii_newline_lt c : ascii_newline c = true -> c < 128.
Proof. unfold ascii_newline. intros. bool_prop. destruct H; bool_prop; lia. Qed.

Lemma ascii_space_lt c : ascii_space c = true -> c < 128.
Proof. unfold ascii_space. rewrite !orb_true_iff, !Z.eqb_eq. lia. Qed.

Lemma ascii_punct_lt c : joyai_ascii_punct_symbol c = true -> c < 128.
Proof.
  unfold joyai_ascii_punct_symbol, between. rewrite !orb_true_iff, !andb_true_iff, !Z.leb_le. lia.
Qed.

Lemma not_letter_lt s p : joyai_letter_like_at s p = false -> cget s p < 128.
Proof. unfold joyai_letter_like_at. by destruct (Z.ltb_spec (cget s p) 128). Qed.
End Ascii.

#[export] Hint Resolve ascii_alpha_lt ascii_digit_lt ascii_newline_lt ascii_space_lt
  ascii_punct_lt not_letter_lt : ds4.

(** ** Both splitters advance by whole characters *)
Section Splitters.
Context (s : bytes).

Lemma digit_run_adv k : forall p, adv s p (digit_run k s p).
Proof.
  induction k as [|k IH]; intros p; cbn [digit_run]; [done|]. case_if; [|done]. bool_prop.
  eapply rtc_l; [apply step_ascii; auto with ds4 | apply IH].
Qed.

Lemma punct_run_adv p : adv s p (joyai_punct_run s p).
Proof. etrans; apply byte_run_adv; auto with ds4. Qed.

Lemma joyai_spaces_adv fuel : forall p0 nl0 p nl,
  joyai_spaces fuel s p0 nl0 = (p, nl) ->
  adv s p0 p /\ ((p0 < p)%nat -> adv s p0 (p - 1)%nat) /\ (nl = nl0 \/ adv s p0 nl).
Proof.
  induction fuel as [|fuel IH]; intros p0 nl0 p nl; cbn [joyai_spaces].
  { intros [= <- <-]. split_and!; [done|lia|by left]. }
  case_if; [|intros [= <- <-]; split_and!; [done|lia|by left]].
  bool_prop. intros (IH1 & IH2 & IH3)%IH.
  assert (char_step s p0 (S p0)) as Hs by (apply step_ascii; auto with ds4).
  split_and!.
  - by eapply rtc_l.
  - intros _. destruct (decide (S p0 < p)%nat) as [Hl|Hl].
    + eapply rtc_l; [done | by apply IH2].
    + apply adv_le in IH1 as [IH1 _]. assert (p - 1 = p0)%nat as -> by lia. done.
  - destruct IH3 as [->|IH3]; [|right; by eapply rtc_l].
    case_if; [right; by apply rtc_once | by left].
Qed.

Lemma joyai_piece_end_adv p : (p < length s)%nat -> adv s p (joyai_piece_end s p).
Proof.
  intros Hp. unfold joyai_piece_end.
  case_if; [apply digit_run_adv|].
  case_if.
  { eapply rtc_l; [by apply step_next|]. apply while_pos_adv. intros q Hq _. by apply step_next. }
  case_if; bool_prop.
  { eapply rtc_l; [apply step_ascii; auto with ds4 | apply byte_run_adv; auto with ds4]. }
  case_if; [apply letters_adv|].
  assert (char_step s p (S p)) as Hs by (apply step_ascii; auto with ds4).
  case_if; [eapply rtc_l; [done | apply letters_adv]|].
  case_if; [eapply rtc_l; [done | apply punct_run_adv]|].
  case_if; [apply punct_run_adv|].
  case_if; [|by apply rtc_once].
  destruct (joyai_spaces _ _ _ _) as [q nl] eqn:Eq.
  destruct (joyai_spaces_adv _ _ _ _ _ Eq) as (H1 & H2 & H3).
  destruct (Nat.eqb_spec nl 0); cbn [negb]; [|by destruct H3].
  case_if; [|done]. bool_prop. apply H2. lia.
Qed.

Lemma joyai_next_adv p : (p < length s)%nat -> exists q, joyai_next s p = Some q /\ adv1 s p q.
Proof.
  intros Hp. unfold joyai_next. eexists. split; [done|].
  pose proof (joyai_piece_end_adv p Hp) as Ha.
  destruct (Nat.eqb_spec (joyai_piece_end s p) p) as [->|].
  - by apply tc_once, step_next.
  - apply adv_ne_adv1; [done | congruence].
Qed.

Lemma peek_next p : snd (utf8_peek_one s p) = next_utf8_char s p.
Proof. unfold utf8_peek_one, next_utf8_char. repeat case_if; done. Qed.

Lemma glm4_char_at_in p : (p < length s)%nat ->
  g_valid (glm4_char_at s p) = true /\ g_next (glm4_char_at s p) = next_utf8_char s p.
Proof.
  intros Hp. unfold glm4_char_at. destruct (Nat.leb_spec (length s) p); [lia|].
  rewrite <- peek_next. destruct (utf8_peek_one s p). done.
Qed.

Lemma glm4_step p : (p < length s)%nat -> char_step s p (g_next (glm4_char_at s p)).
Proof. intros Hp. split; [done | by apply glm4_char_at_in]. Qed.

Lemma glm4_run_adv test p : adv s p (glm4_run s test p).
Proof. apply while_pos_adv. intros q Hq _. by apply glm4_step. Qed.

Lemma glm4_number_run_adv k : forall p, adv s p (glm4_number_run k s p).
Proof.
  induction k as [|k IH]; intros p; cbn [glm4_number_run]; [done|]. case_if; [|done]. bool_prop.
  eapply rtc_l; [by apply glm4_step | apply IH].
Qed.

Lemma glm4_spaces_adv fuel : forall p0 nl0 ws0 n0 p nl ws n,
  glm4_spaces fuel s p0 nl0 ws0 n0 = (p, nl, ws, n) ->
  (n0 <= n)%nat /\ adv s p0 p /\ (n <> n0 -> p0 <> p) /\ (nl = nl0 \/ adv1 s p0 nl) /\
  (n = n0 /\ ws = ws0 \/ adv s p0 ws) /\ ((n0 + 1 < n)%nat -> adv1 s p0 ws).
Proof.
  induction fuel as [|fuel IH]; intros p0 nl0 ws0 n0 p nl ws n; cbn [glm4_spaces].
  { intros [= <- <- <- <-]. split_and!; [lia|done|lia|by left|by left|lia]. }
  case_if; [|intros [= <- <- <- <-]; split_and!; [lia|done|lia|by left|by left|lia]].
  bool_prop. intros (IH0 & IH1 & _ & IH3 & IH4 & _)%IH.
  assert (char_step s p0 (g_next (glm4_char_at s p0))) as Hs by by apply glm4_step.
  split_and!.
  - lia.
  - by eapply rtc_l.
  - apply adv_le in IH1 as [IH1 _]. apply char_step_lt in Hs. lia.
  - destruct IH3 as [->|IH3]; [|right; by eapply tc_l].
    case_if; [right; by apply tc_once | by left].
  - right. destruct IH4 as [[_ ->]|IH4]; [done | by eapply rtc_l].
  - intros Hn. destruct IH4 as [[Hn' _]|IH4]; [lia|]. eapply tc_rtc_r; [by apply tc_once | done].
Qed.

Lemma glm4_whitespace_adv p : (p < length s)%nat -> g_is_whitespace (glm4_char_at s p) = true ->
  adv1 s p (glm4_whitespace s p).
Proof.
  intros Hp Hw. unfold glm4_whitespace.
  destruct (glm4_spaces _ _ _ _ _ _) as [[[q nl] ws] n] eqn:Eq.
  destruct (length s - p)%nat as [|f] eqn:Ef; [lia|]. cbn [glm4_spaces] in Eq.
  destruct (glm4_char_at_in p Hp) as [Hv _]. rewrite Hv, Hw in Eq.
  destruct (Nat.ltb_spec p (length s)); [|lia]. cbn [andb] in Eq.
  assert (char_step s p (g_next (glm4_char_at s p))) as Hs by by apply glm4_step.
  destruct (glm4_spaces_adv _ _ _ _ _ _ _ _ _ Eq) as (_ & H1 & _ & H3 & H4 & _).
  destruct (Nat.eqb_spec nl 0); cbn [negb].
  - case_if; bool_prop.
    + destruct H4 as [[-> _]|H4]; [lia|]. eapply tc_rtc_r; [by apply tc_once | done].
    + eapply tc_rtc_r; [by apply tc_once | done].
  - destruct H3 as [->|H3]; [|by eapply tc_l]. case_if; [by apply tc_once | done].
Qed.

Lemma glm4_contraction_adv p q : (p < length s)%nat ->
  glm4_contraction s (glm4_char_at s p) = Some q -> adv1 s p q.
Proof.
  intros Hp. unfold glm4_contraction. pose proof (glm4_step p Hp) as H1.
  set (i1 := g_next (glm4_char_at s p)) in *.
  destruct ((g_cp (glm4_char_at s p) =? 39) && (i1 <? length s)%nat) eqn:E1; [|done]. bool_prop.
  assert (char_step s i1 (g_next (glm4_char_at s i1))) as H2 by by apply glm4_step.
  case_if; [intros [= <-]; by eapply tc_l, tc_once|].
  case_if; [|done]. bool_prop. case_if; [|done]. intros [= <-].
  eapply tc_l; [done|]. eapply tc_l; [done|]. by apply tc_once, glm4_step.
Qed.

Lemma glm4_letters_adv p q : (p < length s)%nat ->
  glm4_letters s (glm4_char_at s p) = Some q -> adv1 s p q.
Proof.
  intros Hp. unfold glm4_letters. case_if; [|done]. intros [= <-].
  eapply tc_rtc_r; [by apply tc_once, glm4_step | apply glm4_run_adv].
Qed.

Lemma glm4_punct_adv p q : (p < length s)%nat ->
  glm4_punct s p (glm4_char_at s p) = Some q -> adv1 s p q.
Proof.
  intros Hp. unfold glm4_punct. destruct (g_cp (glm4_char_at s p) =? 32) eqn:E1;
    (destruct (_ && _) eqn:E2; [|done]); intros [= <-]; bool_prop.
  - eapply tc_rtc_r; [by apply tc_once, glm4_step|]. etrans; apply glm4_run_adv.
  - eapply tc_rtc_r; [|apply glm4_run_adv]. apply while_pos_adv1; [|done|].
    + intros r Hr _. by apply glm4_step.
    + apply andb_true_iff. done.
Qed.

Lemma glm4_next_adv p : (p < length s)%nat -> exists q, glm4_next s p = Some q /\ adv1 s p q.
Proof.
  intros Hp. unfold glm4_next. destruct (glm4_char_at_in p Hp) as [Hv _]. rewrite Hv. cbn [negb].
  destruct (glm4_contraction s _) as [q|] eqn:E1; [by eauto using glm4_contraction_adv|].
  destruct (glm4_letters s _) as [q|] eqn:E2; [by eauto using glm4_letters_adv|].
  pose proof (glm4_step p Hp) as Hs.
  destruct (g_is_number _) eqn:E3.
  { eexists. split; [done|].
    apply adv_ne_adv1; [apply glm4_number_run_adv|]. change 3%nat with (1 + 2)%nat.
    cbn [glm4_number_run Nat.add]. rewrite Hv, E3. apply Nat.ltb_lt in Hp as ->. cbn [andb].
    pose proof (glm4_number_run_adv 2 (g_next (glm4_char_at s p))) as [Ha _]%adv_le.
    apply char_step_lt in Hs. cbn [glm4_number_run] in Ha. lia. }
  destruct (glm4_punct s p _) as [q|] eqn:E4; [by eauto using glm4_punct_adv|].
  destruct (g_is_whitespace _) eqn:E5; [by eauto using glm4_whitespace_adv|].
  eexists. split; [done|]. apply char_step_lt in Hs as Hlt.
  destruct (Nat.eqb_spec (g_next (glm4_char_at s p)) p); [lia|]. by apply tc_once.
Qed.

Lemma next_piece_adv family p : (p < length s)%nat ->
  exists q, next_piece family s p = Some q /\ adv1 s p q.
Proof. destruct family; [apply joyai_next_adv | apply glm4_next_adv]. Qed.
End Splitters.

(** ** Well-formed text *)

(** A character of a UTF-8 text: a lead byte that announces the length, then
    continuation bytes. *)
Definition text_char (c : bytes) : Prop :=
  match c with
  | [] => False
  | lead :: conts =>
      length c = utf8_len_from_first_byte lead /\ Forall (fun b => 128 <= b < 192) conts
  end.

Definition utf8_text (s : bytes) : Prop := exists chars, Forall text_char chars /\ s = concat chars.

Section Text.
Lemma utf8_text_app a b : utf8_text a -> utf8_text b -> utf8_text (a ++ b).
Proof.
  intros (xs & Hx & ->) (ys & Hy & ->). exists (xs ++ ys).
  split; [by apply Forall_app | by rewrite concat_app].
Qed.

Lemma step_text s p q : utf8_text (drop p s) -> char_step s p q ->
  utf8_text (drop q s) /\ utf8_text (take (q - p) (drop p s)).
Proof.
  intros (chars & Hc & Hs) [Hp ->].
  destruct chars as [|c cs]; [apply (f_equal length) in Hs; rewrite length_drop in Hs; cbn in Hs; lia|].
  apply Forall_cons in Hc as [Hc Hcs].
  assert (utf8_char_len s p = length c) as Hlen.
  { destruct c as [|lead conts]; [done|]. destruct Hc as [Hl _].
    assert (cget s p = lead) as Hlead.
    { unfold cget. replace p with (p + 0)%nat by lia. rewrite <- nth_skipn.
      change (skipn p s) with (drop p s). by rewrite Hs. }
    unfold utf8_char_len. rewrite Hlead, <- Hl.
    assert (length (drop p s) = length (lead :: conts) + length (concat cs))%nat as Hd
      by (rewrite Hs; cbn [concat]; by rewrite length_app).
    rewrite length_drop in Hd. destruct (Nat.ltb_spec (length s) (p + length (lead :: conts))); lia. }
  unfold next_utf8_char. rewrite Hlen.
  replace (p + length c - p)%nat with (length c) by lia.
  rewrite <- drop_drop, Hs. cbn [concat]. rewrite drop_app_length, take_app_length. split.
  - by exists cs.
  - exists [c]. split; [by constructor|]. cbn. by rewrite app_nil_r.
Qed.

Lemma adv_text s p q : adv s p q -> utf8_text (drop p s) ->
  utf8_text (drop q s) /\ utf8_text (take (q - p) (drop p s)).
Proof.
  induction 1 as [p|p r q Hs Ha IH]; intros Ht.
  - rewrite Nat.sub_diag. split; [done|]. by exists [].
  - destruct (step_text s p r Ht Hs) as [H1 H2]. destruct (IH H1) as [H3 H4].
    split; [done|]. apply char_step_lt in Hs. apply adv_le in Ha as [Ha _].
    replace (take (q - p) (drop p s)) with (take (r - p) (drop p s) ++ take (q - r) (drop r s));
      [by apply utf8_text_app|].
    replace (drop r s) with (drop (r - p) (drop p s)) by (rewrite drop_drop; f_equal; lia).
    replace (q - p)%nat with ((r - p) + (q - r))%nat by lia. by rewrite take_take_drop.
Qed.

Lemma pieces_loop_spec family s fuel : forall p, (p <= length s)%nat -> (length s - p <= fuel)%nat ->
  exists ps, pieces_loop fuel family s p = Some ps /\ concat ps = drop p s /\
    Forall (fun q => q <> []) ps /\ (utf8_text (drop p s) -> Forall utf8_text ps).
Proof.
  induction fuel as [|fuel IH]; intros p Hp Hf; cbn [pieces_loop];
    destruct (Nat.leb_spec (length s) p).
  1, 3: exists []; rewrite drop_ge by lia; split_and!; by try constructor.
  { lia. }
  destruct (next_piece_adv s family p) as (q & -> & Hq); [done|].
  apply adv1_lt in Hq as Hlt. destruct (IH q) as (ps & -> & Hps & Hne & Htx); [lia..|].
  exists (take (q - p) (drop p s) :: ps). split_and!; [done| | |].
  - cbn [concat]. rewrite Hps. rewrite <- (take_drop (q - p) (drop p s)) at 2.
    rewrite drop_drop. do 2 f_equal. lia.
  - constructor; [|done]. intros Hz. apply (f_equal length) in Hz.
    rewrite length_take, length_drop in Hz. cbn in Hz. lia.
  - intros Ht. destruct (adv_text s p q (tc_rtc _ _ Hq) Ht). constructor; auto.
Qed.

(** The pieces of a text: they exist, and put together they are the text. *)
Lemma text_pieces_spec family s :
  exists ps, text_pieces family s = Some ps /\ concat ps = s /\ Forall (fun q => q <> []) ps /\
    (utf8_text s -> Forall utf8_text ps).
Proof. apply (pieces_loop_spec family s (length s) 0); lia. Qed.
End Text.

(** ** Properties *)

(** Both pre-tokenizers terminate on every text and cut it into nonempty
    pieces that concatenate to exactly the text; when the text is a sequence of
    UTF-8 characters, so is each piece: no character is cut in two. *)
Theorem pretok_lossless (family : model_family) (s : bytes) :
  exists ps, text_pieces family s = Some ps /\ concat ps = s /\ Forall (fun q => q <> []) ps /\
    (utf8_text s -> Forall utf8_text ps).
Proof. apply text_pieces_spec. Qed.

(** The pieces of a line of code, by the JoyAI and the GLM4 rules. *)
Example joyai_pieces :
  text_pieces DS4_MODEL_FAMILY_DEEPSEEK4 (bs "    int x12345 = f(x);  caffè") =
  Some [bs "   "; bs " int"; bs " x"; bs "123"; bs "45"; bs " ="; bs " f"; bs "(x"; bs ");"; bs " "; bs " caffè"].
Proof. vm_compute. reflexivity. Qed.

Example glm4_pieces :
  text_pieces DS4_MODEL_FAMILY_GLM_DSA (bs "It's  1234 (ok)!") =
  Some [bs "It"; bs "'s"; bs " "; bs " "; bs "123"; bs "4"; bs " ("; bs "ok"; bs ")!"].
Proof. vm_compute. reflexivity. Qed.
