(* ===== verification/Vocab.v ===== *)
(** * The vocabulary (ds4.c): token strings, special ids and lookup tables

    [vocab_load] reads the token strings and the merge pairs of the GGUF
    metadata into two string tables and finds the ids of the chat markers.  The
    model runs it on the cursor operations of [Gguf] and the tables of
    [HashTable]; [ds4_die] is a value of the error type of [Gguf].  The theorem
    says that the vocabulary of any file that opens is consistent: both tables
    answer every lookup and the id found for a string names that string. *)

From S2P Require Import Prelude Gguf HashTable Pretok.
#[local] Open Scope Z_scope.

(** ** State *)

Record special_ids := SpecialIds {
  bos_id : Z; eos_id : Z; system_id : Z; user_id : Z; assistant_id : Z; observation_id : Z;
  sop_id : Z; think_start_id : Z; think_end_id : Z; tool_call_start_id : Z; tool_call_end_id : Z;
  tool_response_start_id : Z; tool_response_end_id : Z; arg_key_start_id : Z; arg_key_end_id : Z;
  arg_value_start_id : Z; arg_value_end_id : Z; dsml_id : Z
}.

Record ds4_vocab := Vocab {
  token : list bytes;
  n_vocab : Z;
  ids : special_ids;
  token_to_id : str_i32_table;
  merge_rank : str_i32_table
}.

(** ** Loading *)

(** Sequencing of steps that may end the program. *)
Definition dbind {A B} (m : die + A) (k : A -> die + B) : die + B :=
  match m with inl e => inl e | inr a => k a end.

Declare Scope die_scope.
Notation "x <== m ; k" := (dbind m (fun x => k))
  (at level 100, m at next level, k at level 200, right associativity) : die_scope.
Open Scope die_scope.

(** A table operation whose loop would not end. *)
Definition or_spin {A} (o : option A) : die + A :=
  match o with None => inl DieFuel | Some a => inr a end.

Definition vocab_lookup (t : str_i32_table) (text : bytes) : die + Z :=
  r <== or_spin (table_get t text);
  match r with
  | Some tok => inr tok
  | None => inl (Die (bs "ds4: required tokenizer token is missing: " ++ text))
  end.

Definition vocab_lookup_optional (t : str_i32_table) (text : bytes) : die + Z :=
  r <== or_spin (table_get t text);
  match r with Some tok => inr tok | None => inr (-1) end.

(** The two reading loops: string [i] of the array is entered with value [(int)i]. *)
Fixpoint load_strings (n : nat) (i : Z) (c : ds4_cursor) (acc : list bytes) (t : str_i32_table)
  : die + (list bytes * str_i32_table) :=
  match n with
  | O => inr (acc, t)
  | S n' =>
      or_die (cursor_string c) (fun str c =>
        t' <== or_spin (table_put t str (i32 i));
        load_strings n' (i + 1) c (acc ++ [str]) t')
  end.

(** A string array of the metadata; [None] is the test that fails. *)
Definition string_array (m : ds4_model) (key : bytes) : option ds4_array_ref :=
  match model_get_array m key with
  | Some a => if negb (ar_type a =? GGUF_VALUE_STRING) then None else Some a
  | None => None
  end.

Definition glm_ids (m : ds4_model) (t : str_i32_table) : die + special_ids :=
  bos <== match model_get_token_id m (bs "tokenizer.ggml.bos_token_id") with
          | Some i => inr i | None => vocab_lookup_optional t (bs "<sop>") end;
  eos <== match model_get_token_id m (bs "tokenizer.ggml.eos_token_id") with
          | Some i => inr i | None => vocab_lookup_optional t (bs "<|endoftext|>") end;
  system <== vocab_lookup_optional t (bs "<|system|>");
  user <== vocab_lookup_optional t (bs "<|user|>");
  assistant <== vocab_lookup_optional t (bs "<|assistant|>");
  observation <== vocab_lookup_optional t (bs "<|observation|>");
  sop <== vocab_lookup_optional t (bs "<sop>");
  think_start <== vocab_lookup_optional t (bs "<think>");
  think_end <== vocab_lookup_optional t (bs "</think>");
  call_start <== vocab_lookup_optional t (bs "<tool_call>");
  call_end <== vocab_lookup_optional t (bs "</tool_call>");
  resp_start <== vocab_lookup_optional t (bs "<tool_response>");
  resp_end <== vocab_lookup_optional t (bs "</tool_response>");
  key_start <== vocab_lookup_optional t (bs "<arg_key>");
  key_end <== vocab_lookup_optional t (bs "</arg_key>");
  value_start <== vocab_lookup_optional t (bs "<arg_value>");
  value_end <== vocab_lookup_optional t (bs "</arg_value>");
  inr (SpecialIds bos eos system user assistant observation sop think_start think_end
         call_start call_end resp_start resp_end key_start key_end value_start value_end (-1)).

Definition deepseek_ids (t : str_i32_table) : die + special_ids :=
  bos <== vocab_lookup t (bs "<｜begin▁of▁sentence｜>");
  eos <== vocab_lookup t (bs "<｜end▁of▁sentence｜>");
  user <== vocab_lookup t (bs "<｜User｜>");
  assistant <== vocab_lookup t (bs "<｜Assistant｜>");
  think_start <== vocab_lookup t (bs "<think>");
  think_end <== vocab_lookup t (bs "</think>");
  dsml <== vocab_lookup t (bs "｜DSML｜");
  inr (SpecialIds bos eos (-1) user assistant (-1) (-1) think_start think_end
         (-1) (-1) (-1) (-1) (-1) (-1) (-1) (-1) dsml).

Definition vocab_load (family : model_family) (m : ds4_model) : die + ds4_vocab :=
  match string_array m (bs "tokenizer.ggml.tokens") with
  | None => inl (Die (bs "GGUF tokenizer token table is missing or invalid"))
  | Some tokens =>
      if INT32_MAX <? ar_len tokens
      then inl (Die (bs "GGUF tokenizer token table is missing or invalid"))
      else
        match string_array m (bs "tokenizer.ggml.merges") with
        | None => inl (Die (bs "GGUF tokenizer merge table is missing or invalid"))
        | Some merges =>
            t0 <== or_spin (table_init (ar_len tokens));
            r <== load_strings (Z.to_nat (ar_len tokens)) 0 (cursor_at m (ar_data_pos tokens)) [] t0;
            let '(toks, t) := r in
            m0 <== or_spin (table_init (ar_len merges));
            q <== load_strings (Z.to_nat (ar_len merges)) 0 (cursor_at m (ar_data_pos merges)) [] m0;
            let '(_, ranks) := q in
            special <== match family with
                        | DS4_MODEL_FAMILY_GLM_DSA => glm_ids m t
                        | DS4_MODEL_FAMILY_DEEPSEEK4 => deepseek_ids t
                        end;
            inr (Vocab toks (i32 (ar_len tokens)) special t ranks)
        end
  end.

(** ** Consistency *)

(** The entries the loop makes for the strings from index [i]. *)
Fixpoint numbered (i : Z) (l : list bytes) : list (bytes * Z) :=
  match l with
  | [] => []
  | x :: l' => (x, i32 i) :: numbered (i + 1) l'
  end.

Record vocab_ok (v : ds4_vocab) : Prop := {
  vo_n : n_vocab v = zlen (token v) /\ n_vocab v <= INT32_MAX;
  vo_tokens : serves (token_to_id v) (map_of (numbered 0 (token v)));
  vo_merges : exists mr, serves (merge_rank v) mr
}.

Section Load.
Lemma dbind_inr {A B} (m : die + A) (k : A -> die + B) b :
  dbind m k = inr b -> exists a, m = inr a /\ k a = inr b.
Proof. destruct m as [e|a]; [done|]. intros H. by exists a. Qed.

Lemma or_spin_inr {A} (o : option A) a : or_spin o = inr a -> o = Some a.
Proof. destruct o; [|done]. by intros [= ->]. Qed.

(** Every string read takes at least eight bytes of the file. *)
Lemma load_strings_room n : forall i c acc t r, cursor_ok c ->
  load_strings n i c acc t = inr r -> 8 * Z.of_nat n <= c_size c - c_pos c.
Proof.
  induction n as [|n IH]; intros i c acc t r Hc; cbn [load_strings].
  { intros _. destruct (co_pos _ Hc). lia. }
  pose proof (cursor_string_steps c Hc) as Hs. destruct (cursor_string c) as [[str| |] c']; cbn [or_die]; try done.
  destruct Hs as (_ & B & Z & O & P). intros (t' & _ & H)%dbind_inr.
  apply IH in H; [|done]. lia.
Qed.

Lemma load_strings_stored n : forall i c acc t m toks t',
  stores t m -> t_used t + Z.of_nat n <= t_cap t - 1 ->
  load_strings n i c acc t = inr (toks, t') ->
  exists l, toks = acc ++ l /\ length l = n /\ t_cap t' = t_cap t /\
    t_used t' <= t_used t + Z.of_nat n /\
    stores t' (foldl (fun m kv => <[kv.1 := kv.2]> m) m (numbered i l)).
Proof.
  induction n as [|n IH]; intros i c acc t m toks t' Ht Hu; cbn [load_strings].
  { intros [= <- <-]. exists []. rewrite app_nil_r. split_and!; try done. lia. }
  destruct (cursor_string c) as [[str| |] c']; cbn [or_die]; try done.
  intros (t1 & H1%or_spin_inr & H)%dbind_inr.
  destruct (table_put_stored t m Ht str (i32 i)) as (t1' & E & Ht1 & Hc1 & Hu1); [lia|].
  assert (t1' = t1) as -> by congruence.
  destruct (IH _ _ _ _ _ _ _ Ht1 ltac:(lia) H) as (l & -> & Hl & Hc2 & Hu2 & Hst).
  exists (str :: l). rewrite <- app_assoc. cbn [length numbered]. split_and!; [done|lia|congruence|lia|done].
Qed.

(** Creating a table and loading an array into it. *)
Lemma load_table_serves c n t0 toks t :
  cursor_ok c -> c_size c <= 2 ^ 63 -> 0 <= n -> or_spin (table_init n) = inr t0 ->
  load_strings (Z.to_nat n) 0 c [] t0 = inr (toks, t) ->
  zlen toks = n /\ serves t (map_of (numbered 0 toks)).
Proof.
  intros Hc Hsz Hn H0%or_spin_inr Hl.
  pose proof (load_strings_room _ _ _ _ _ _ Hc Hl) as Hroom. destruct (co_pos _ Hc) as [Hp _].
  change (2 ^ 63) with 9223372036854775808 in Hsz.
  destruct (table_init_stored n) as (t0' & E & Hst & Hu & Hcap).
  { change (2 ^ 61) with 2305843009213693952. lia. }
  assert (t0' = t0) as -> by congruence.
  assert (Hroom0 : t_used t0 + Z.of_nat (Z.to_nat n) <= t_cap t0 - 1) by lia.
  destruct (load_strings_stored _ _ _ _ _ _ _ _ Hst Hroom0 Hl) as (l & -> & Hlen & Hc' & Hu' & Hst').
  cbn [app]. split; [unfold zlen; lia|]. split; [done|]. lia.
Qed.

(** What opening a file guarantees of a model. *)
Definition model_ok (m : ds4_model) : Prop :=
  m_size m = zlen (m_map m) /\ m_size m <= 2 ^ 63 /\ bytes_ok (m_map m) /\ Forall (kv_ok (m_size m)) (m_kv m).

Lemma model_open_ok file k1 k2 m : bytes_ok file -> zlen file <= 2 ^ 63 ->
  model_open (Some file) k1 k2 = inr m -> model_ok m.
Proof.
  intros Hb Hl Ho. pose proof (model_open_spec file k1 k2 Hb Hl) as H. rewrite Ho in H.
  destruct H as (H1 & H2 & _ & _ & H3 & _). unfold model_ok. rewrite H1, H2 in *. done.
Qed.

Lemma string_array_ok m key a : model_ok m -> string_array m key = Some a ->
  0 <= ar_len a /\ cursor_ok (cursor_at m (ar_data_pos a)).
Proof.
  intros (Hs & Hs2 & Hb & Hk). unfold string_array, model_get_array.
  destruct (model_find_kv m key) as [kv|] eqn:Ef; [|done].
  apply List.find_some in Ef as [Hin _].
  rewrite Forall_forall in Hk. apply list_elem_of_In, Hk in Hin as [_ Hpos].
  assert (Hc : cursor_ok (cursor_at m (kv_value_pos kv))) by (constructor; cbn; [done|lia|done]).
  case_if; [|done]. unfold read_at, cbind.
  pose proof (cursor_u32_steps _ Hc) as H1.
  destruct (cursor_u32 _) as [[ty| |] c1]; [|done..].
  destruct H1 as (_ & B1 & S1 & O1 & P1).
  pose proof (cursor_u64_steps _ O1) as H2.
  destruct (cursor_u64 c1) as [[len| |] c2]; [|done..].
  destruct H2 as (Hlen & B2 & S2 & O2 & P2). cbn [ar_type]. case_if; [done|]. intros [= <-]. cbn.
  split; [unfold is_u64 in Hlen; lia|]. cbn [cursor_at c_base c_size] in *.
  destruct O2 as [Q1 Q2 Q3]. constructor; cbn; [done|rewrite S2, S1 in Q2; done|done].
Qed.

Lemma vocab_load_ok family m v : model_ok m -> vocab_load family m = inr v -> vocab_ok v.
Proof.
  intros Hm. pose proof Hm as (Hs & Hs2 & _). unfold vocab_load.
  destruct (string_array m (bs "tokenizer.ggml.tokens")) as [a|] eqn:Ea; [|done].
  destruct (Z.ltb_spec INT32_MAX (ar_len a)); [done|].
  destruct (string_array m (bs "tokenizer.ggml.merges")) as [b|] eqn:Eb; [|done].
  apply (string_array_ok m _ _ Hm) in Ea as [La Ca], Eb as [Lb Cb].
  intros (t0 & Ht0 & H1)%dbind_inr. apply dbind_inr in H1 as ([toks t] & Ht & H1).
  apply dbind_inr in H1 as (m0 & Hm0 & H1). apply dbind_inr in H1 as ([ms ranks] & Hr & H1).
  apply dbind_inr in H1 as (special & _ & H1). injection H1 as <-.
  destruct (load_table_serves _ _ _ _ _ Ca Hs2 La Ht0 Ht) as [Hl1 Hv1].
  destruct (load_table_serves _ _ _ _ _ Cb Hs2 Lb Hm0 Hr) as [_ Hv2].
  constructor; cbn [token n_vocab token_to_id merge_rank].
  - rewrite Hl1, i32_small by lia. done.
  - done.
  - by eexists.
Qed.

(** ** Lookups in a consistent vocabulary *)

Lemma numbered_lookup l : forall i x k, 0 <= i -> i + zlen l <= INT32_MAX + 1 ->
  (x, k) ∈ numbered i l -> i <= k < i + zlen l /\ l !! Z.to_nat (k - i) = Some x.
Proof.
  unfold zlen. induction l as [|y l IH]; intros i x k Hi Hl; cbn [numbered length] in *.
  { by intros ?%elem_of_nil. }
  intros [[= -> ->]|H]%elem_of_cons.
  - rewrite i32_small by lia. split; [lia|]. by replace (Z.to_nat (i - i)) with 0%nat by lia.
  - apply IH in H as [H1 H2]; [|lia..]. split; [lia|].
    by replace (Z.to_nat (k - i)) with (S (Z.to_nat (k - (i + 1)))) by lia.
Qed.

Lemma numbered_fst l : forall i, (numbered i l).*1 = l.
Proof. induction l as [|x l IH]; intros i; [done|]. cbn. by rewrite IH. Qed.

Context (v : ds4_vocab) (Hv : vocab_ok v).

(** Lookups end; an id found for a string is the index of that string, and
    every token string has an id. *)
Lemma token_get key : exists o, table_get (token_to_id v) key = Some o /\
  (forall i, o = Some i -> 0 <= i < n_vocab v /\ token v !! Z.to_nat i = Some key) /\
  (key ∈ token v -> is_Some o).
Proof.
  destruct Hv as [[Hn Hm] Ht _]. eexists. split; [by apply table_get_serves|]. split.
  - intros i Hi%map_of_lookup. unfold INT32_MAX in *.
    apply numbered_lookup in Hi as [H1 H2]; [|lia|unfold INT32_MAX; lia].
    rewrite Z.sub_0_r in H2. rewrite Hn. split; [lia | done].
  - intros Hin. apply map_of_some. by rewrite numbered_fst.
Qed.

(** A rank found for a pair belongs to an entry of the merge table. *)
Lemma merge_get key : exists o, table_get (merge_rank v) key = Some o /\
  forall r, o = Some r -> exists e, e ∈ t_entry (merge_rank v) /\ e_used e = true /\ e_key e = key.
Proof.
  destruct (vo_merges _ Hv) as [mr Hr]. eexists. split; [by apply table_get_serves|].
  intros r Hl. destruct (serves_entry _ _ _ _ Hr Hl) as (e & ? & ? & ? & _). by exists e.
Qed.
End Load.
