(* ===== verification/Bpe.v ===== *)
(** * Byte-pair encoding and decoding (ds4.c)

    [bpe_emit_piece] maps the bytes of a piece to printable code points, merges
    adjacent symbols by rank and emits token ids; [ds4_token_text] maps a token
    back to bytes.  Every search in a string table may in principle spin, so
    the operations return an option; the theorems show that with the tables of
    a loaded vocabulary it is never [None], that decoding the ids of a text
    gives back the text, that merging stops with no mergeable pair left, and
    that text can never produce a marker of the chat format.

    Symbol counts are natural numbers: a piece is shorter than a C string in
    memory, and the allocation doubling around the symbol array is not modelled. *)

From S2P Require Import Prelude Gguf HashTable Pretok Vocab.
#[local] Open Scope Z_scope.

(** ** The byte alphabet *)

Definition utf8_put (cp : Z) : bytes :=
  if cp <=? 0x7f then [u8 cp]
  else if cp <=? 0x7ff then
    [u8 (Z.lor 0xc0 (Z.shiftr cp 6)); u8 (Z.lor 0x80 (Z.land cp 0x3f))]
  else if cp <=? 0xffff then
    [u8 (Z.lor 0xe0 (Z.shiftr cp 12)); u8 (Z.lor 0x80 (Z.land (Z.shiftr cp 6) 0x3f));
     u8 (Z.lor 0x80 (Z.land cp 0x3f))]
  else
    [u8 (Z.lor 0xf0 (Z.shiftr cp 18)); u8 (Z.lor 0x80 (Z.land (Z.shiftr cp 12) 0x3f));
     u8 (Z.lor 0x80 (Z.land (Z.shiftr cp 6) 0x3f)); u8 (Z.lor 0x80 (Z.land cp 0x3f))].

(** Bytes that stand for themselves. *)
Definition gpt2_printable (b : Z) : bool := between 33 126 b || between 161 172 b || (174 <=? b).

(** The loop over [x]: the [n]-th other byte is code point [256 + n]. *)
Fixpoint byte_to_codepoint_loop (fuel : nat) (x n b : Z) : Z :=
  match fuel with
  | O => b
  | S fuel' =>
      if gpt2_printable x then byte_to_codepoint_loop fuel' (x + 1) n b
      else if x =? b then 256 + n
      else byte_to_codepoint_loop fuel' (x + 1) (n + 1) b
  end.

Definition gpt2_byte_to_codepoint (b : Z) : Z :=
  if gpt2_printable b then b else byte_to_codepoint_loop 256 0 0 b.

Definition byte_encode (s : bytes) : bytes :=
  flat_map (fun b => utf8_put (gpt2_byte_to_codepoint (u8 b))) s.

Fixpoint codepoint_to_byte_loop (fuel : nat) (b n cp : Z) : Z :=
  match fuel with
  | O => -1
  | S fuel' =>
      if gpt2_printable b then codepoint_to_byte_loop fuel' (b + 1) n cp
      else if cp =? 256 + n then b
      else codepoint_to_byte_loop fuel' (b + 1) (n + 1) cp
  end.

Definition gpt2_codepoint_to_byte (cp : Z) : Z :=
  if between 33 126 cp || between 161 172 cp || between 174 255 cp then cp
  else codepoint_to_byte_loop 256 0 0 cp.

(** The character at the head of the remaining bytes, and its length: [*pos] is
    only read through [s + *pos] and [len - *pos]. *)
Definition utf8_decode_one (s : bytes) : Z * nat :=
  let c := cget s 0 in
  let tail i := Z.land (cget s i) 0x3f in
  if (c <? 0x80) || (length s <=? 1)%nat then (c, 1%nat)
  else if (Z.land c 0xe0 =? 0xc0) && (1 <? length s)%nat
  then (Z.lor (Z.shiftl (Z.land c 0x1f) 6) (tail 1%nat), 2%nat)
  else if (Z.land c 0xf0 =? 0xe0) && (2 <? length s)%nat
  then (Z.lor (Z.lor (Z.shiftl (Z.land c 0x0f) 12) (Z.shiftl (tail 1%nat) 6)) (tail 2%nat), 3%nat)
  else if (Z.land c 0xf8 =? 0xf0) && (3 <? length s)%nat
  then (Z.lor (Z.lor (Z.lor (Z.shiftl (Z.land c 0x07) 18) (Z.shiftl (tail 1%nat) 12))
                (Z.shiftl (tail 2%nat) 6)) (tail 3%nat), 4%nat)
  else (c, 1%nat).

(** The loop of [ds4_token_text]; every round consumes a byte. *)
Fixpoint token_text_loop (fuel : nat) (s : bytes) : bytes :=
  match s, fuel with
  | [], _ | _, O => []
  | _, S fuel' =>
      let '(cp, n) := utf8_decode_one s in
      let b := gpt2_codepoint_to_byte cp in
      (if 0 <=? b then [b] else []) ++ token_text_loop fuel' (drop n s)
  end.

(** U+FF5C, the bar of the chat markers, occurs in the token. *)
Definition FULLWIDTH_BAR : bytes := [0xef; 0xbd; 0x9c].

Fixpoint vocab_token_is_literal_special (s : bytes) : bool :=
  if (length s <? 3)%nat then false
  else starts_with FULLWIDTH_BAR s ||
       match s with [] => false | _ :: s' => vocab_token_is_literal_special s' end.

Definition ds4_token_text (v : ds4_vocab) (tok : Z) : bytes :=
  if (tok <? 0) || (n_vocab v <=? tok) then []
  else
    let s := nth (Z.to_nat tok) (token v) [] in
    if vocab_token_is_literal_special s then s else token_text_loop (length s) s.

(** ** Merging *)

(** The encoded piece cut into characters. *)
Fixpoint bpe_symbols (fuel : nat) (enc : bytes) : list bytes :=
  match enc, fuel with
  | [], _ | _, O => []
  | c :: _, S fuel' =>
      let n := utf8_len_from_first_byte c in
      let n := if (length enc <? n)%nat then 1%nat else n in
      take n enc :: bpe_symbols fuel' (drop n enc)
  end.

(** The inner option is the code's rank, [-1] when the pair has none. *)
Definition bpe_rank (v : ds4_vocab) (a b : bytes) : option Z :=
  r ← table_get (merge_rank v) (a ++ [32] ++ b);
  Some (default (-1) r).

(** The scan for the best pair: its index and rank so far. *)
Fixpoint best_loop (v : ds4_vocab) (sym : list bytes) (i : nat) (best_i : option nat) (best_rank : Z)
  : option (option nat) :=
  match sym with
  | a :: (b :: _) as rest =>
      rank ← bpe_rank v a b;
      if (0 <=? rank) && (rank <? best_rank)
      then best_loop v rest (S i) (Some i) rank
      else best_loop v rest (S i) best_i best_rank
  | _ => Some best_i
  end.

(** [sym[i]] replaced by the merged symbol, the rest moved down. *)
Definition merge_at (i : nat) (sym : list bytes) : list bytes :=
  take i sym ++ [nth i sym [] ++ nth (i + 1) sym []] ++ drop (i + 2) sym.

(** The merge loop: every round removes a symbol. *)
Fixpoint merge_loop (fuel : nat) (v : ds4_vocab) (sym : list bytes) : option (list bytes) :=
  match fuel with
  | O => None
  | S fuel' =>
      best ← best_loop v sym 0 None INT32_MAX;
      match best with
      | None => Some sym
      | Some i => merge_loop fuel' v (merge_at i sym)
      end
  end.

(** The bytes of a symbol that is not a token, one by one. *)
Fixpoint emit_bytes (v : ds4_vocab) (s : bytes) (out : list Z) : option (list Z) :=
  match s with
  | [] => Some out
  | c :: s' =>
      r ← table_get (token_to_id v) [c];
      emit_bytes v s' (match r with Some tok => out ++ [tok] | None => out end)
  end.

Fixpoint emit_symbols (v : ds4_vocab) (sym : list bytes) (out : list Z) : option (list Z) :=
  match sym with
  | [] => Some out
  | s :: sym' =>
      r ← table_get (token_to_id v) s;
      match r with
      | Some tok => emit_symbols v sym' (out ++ [tok])
      | None => out' ← emit_bytes v s out; emit_symbols v sym' out'
      end
  end.

Definition bpe_emit_piece (v : ds4_vocab) (raw_piece : bytes) (out : list Z) : option (list Z) :=
  let encoded := byte_encode raw_piece in
  let sym := bpe_symbols (length encoded) encoded in
  sym' ← merge_loop (S (length sym)) v sym;
  emit_symbols v sym' out.

Fixpoint emit_pieces (v : ds4_vocab) (ps : list bytes) (out : list Z) : option (list Z) :=
  match ps with
  | [] => Some out
  | p :: ps' => out' ← bpe_emit_piece v p out; emit_pieces v ps' out'
  end.

(** Ids of a text, appended to [out]. *)
Definition bpe_tokenize_text (family : model_family) (v : ds4_vocab) (text : bytes) (out : list Z)
  : option (list Z) :=
  ps ← text_pieces family text; emit_pieces v ps out.

(** ** The byte alphabet is a code *)

(** The encoding of one byte. *)
Definition enc1 (b : Z) : bytes := utf8_put (gpt2_byte_to_codepoint b).

(** Strings over the alphabet. *)
Definition encoded (raw s : bytes) : Prop := bytes_ok raw /\ s = flat_map enc1 raw.

(** What is needed of each byte, checked by evaluation. *)
Definition enc1_good (b : Z) : bool :=
  let cp := gpt2_byte_to_codepoint b in
  match enc1 b with
  | [c] => (c <? 0x80) && (c =? cp)
  | [c; d] =>
      negb (c <? 0x80) && (Z.land c 0xe0 =? 0xc0)
      && (Z.lor (Z.shiftl (Z.land c 0x1f) 6) (Z.land d 0x3f) =? cp)
  | _ => false
  end
  && (gpt2_codepoint_to_byte cp =? b)
  && forallb (fun x => negb (x =? 32) && negb (x =? 0xef)) (enc1 b).

Definition all_bytes : list Z := map Z.of_nat (seq 0 256).

Section Alphabet.
Lemma all_bytes_in b : is_byte b -> b ∈ all_bytes.
Proof.
  intros Hb. unfold is_byte in Hb. apply list_elem_of_In, in_map_iff. exists (Z.to_nat b).
  split; [lia|]. apply in_seq. lia.
Qed.

Lemma enc1_all_good b : is_byte b -> enc1_good b = true.
Proof.
  intros Hb%all_bytes_in%list_elem_of_In.
  assert (forallb enc1_good all_bytes = true) as H by (vm_compute; reflexivity).
  rewrite forallb_forall in H. by apply H.
Qed.

Lemma byte_encode_enc1 raw : bytes_ok raw -> byte_encode raw = flat_map enc1 raw.
Proof.
  induction 1 as [|b raw Hb _ IH]; [done|]. unfold byte_encode in *. cbn [flat_map].
  rewrite IH, u8_small by done. done.
Qed.

(** The encoding of a byte is one character, which decodes to the byte. *)
Lemma enc1_spec b : is_byte b ->
  (exists c e, enc1 b = c :: e /\ length (enc1 b) = utf8_len_from_first_byte c) /\
  (forall rest, utf8_decode_one (enc1 b ++ rest) = (gpt2_byte_to_codepoint b, length (enc1 b))) /\
  gpt2_codepoint_to_byte (gpt2_byte_to_codepoint b) = b /\
  Forall (fun x => x <> 32 /\ x <> 0xef) (enc1 b).
Proof.
  intros Hb. pose proof (enc1_all_good b Hb) as H. unfold enc1_good in H.
  apply andb_true_iff in H as [[H Hr]%andb_true_iff Hf].
  assert (Forall (fun x => x <> 32 /\ x <> 0xef) (enc1 b)) as Hfor.
  { apply Forall_forall. intros x Hx. rewrite forallb_forall in Hf.
    apply list_elem_of_In, Hf in Hx. bool_prop. done. }
  apply Z.eqb_eq in Hr. destruct (enc1 b) as [|c [|d [|x e]]]; [done| | |done]; bool_prop.
  - split_and!; [|intros rest|done|done].
    + exists c, []. split; [done|]. unfold utf8_len_from_first_byte.
      by rewrite (proj2 (Z.ltb_lt c 128)).
    + unfold utf8_decode_one. cbn [app cget nth length].
      rewrite (proj2 (Z.ltb_lt c 128)) by done. cbn. by subst.
  - split_and!; [|intros rest|done|done].
    + exists c, [d]. split; [done|]. unfold utf8_len_from_first_byte.
      destruct (Z.ltb_spec c 128); [lia|].
      rewrite (proj2 (Z.eqb_eq (Z.land c 224) 192)) by done. done.
    + unfold utf8_decode_one. cbn [app cget nth length].
      destruct (Z.ltb_spec c 0x80); [lia|]. cbn [Nat.leb orb Nat.ltb].
      rewrite (proj2 (Z.eqb_eq (Z.land c 0xe0) 0xc0)) by done. cbn [andb]. by f_equal.
Qed.

Lemma encoded_nil : encoded [] [].
Proof. split; [constructor | done]. Qed.

Lemma encoded_app r1 s1 r2 s2 : encoded r1 s1 -> encoded r2 s2 -> encoded (r1 ++ r2) (s1 ++ s2).
Proof.
  intros [H1 ->] [H2 ->]. split; [by apply Forall_app | by rewrite flat_map_app].
Qed.

Lemma encoded_chars raw s : encoded raw s -> Forall (fun x => x <> 32 /\ x <> 0xef) s.
Proof.
  intros [Hr ->]. induction Hr as [|b raw Hb _ IH]; cbn [flat_map]; [constructor|].
  apply Forall_app. split; [by apply enc1_spec | done].
Qed.

(** Decoding a string over the alphabet. *)
Lemma token_text_encoded raw s : encoded raw s -> forall fuel, (length s <= fuel)%nat ->
  token_text_loop fuel s = raw.
Proof.
  intros [Hr ->]. induction Hr as [|b raw Hb _ IH]; intros fuel Hf; [by destruct fuel|].
  cbn [flat_map] in *. destruct (enc1_spec b Hb) as ((c & e & He & _) & Hd & Hcp & _).
  specialize (Hd (flat_map enc1 raw)). rewrite length_app in Hf.
  assert (enc1 b ++ flat_map enc1 raw = c :: e ++ flat_map enc1 raw) as Hcons by by rewrite He.
  destruct fuel as [|fuel]; [rewrite He in Hf; cbn in Hf; lia|].
  cbn [token_text_loop]. rewrite Hcons. rewrite <- Hcons, Hd, Hcp, drop_app_length.
  unfold is_byte in Hb. destruct (Z.leb_spec 0 b); [|lia]. cbn [app]. f_equal. apply IH.
  rewrite He in Hf. cbn [length] in Hf. lia.
Qed.

(** It is not a marker: the bar's first byte is not in the alphabet. *)
Lemma encoded_not_special s : Forall (fun x => x <> 32 /\ x <> 0xef) s ->
  vocab_token_is_literal_special s = false.
Proof.
  induction 1 as [|x s [_ Hx] _ IH]; [done|]. cbn [vocab_token_is_literal_special].
  case_if; [done|]. rewrite IH, orb_false_r. unfold FULLWIDTH_BAR. cbn [starts_with].
  destruct (Z.eqb_spec 0xef x); [congruence | done].
Qed.

(** The characters of an encoded piece are the encodings of its bytes. *)
Lemma bpe_symbols_encoded raw : bytes_ok raw -> forall fuel, (length (flat_map enc1 raw) <= fuel)%nat ->
  bpe_symbols fuel (flat_map enc1 raw) = map enc1 raw.
Proof.
  induction 1 as [|b raw Hb _ IH]; intros fuel Hf; [by destruct fuel|]. cbn [flat_map map] in *.
  destruct (enc1_spec b Hb) as ((c & e & He & Hl) & _). rewrite length_app in Hf.
  destruct fuel as [|fuel]; [rewrite He in Hf; cbn in Hf; lia|].
  rewrite He in *. cbn [app length bpe_symbols] in *. rewrite <- Hl. rewrite length_app.
  destruct (Nat.ltb_spec (S (length e + length (flat_map enc1 raw))) (S (length e))); [lia|].
  cbn [take drop firstn skipn]. rewrite take_app_length, drop_app_length. f_equal. apply IH. lia.
Qed.
End Alphabet.

(** ** Byte-pair encoding as a rewriting system *)

(** The rank of a pair that may be merged. *)
Definition raw_rank (v : ds4_vocab) (a b : bytes) : option Z :=
  match table_get (merge_rank v) (a ++ [32] ++ b) with
  | Some (Some r) => if 0 <=? r then Some r else None
  | _ => None
  end.

Definition rank_at (v : ds4_vocab) (sym : list bytes) (k : nat) : option Z :=
  match sym !! k, sym !! S k with
  | Some a, Some b => raw_rank v a b
  | _, _ => None
  end.

(** The pair at [i] has rank [r], the lowest, and is the leftmost such pair; a
    rank of INT32_MAX cannot be told from no rank. *)
Definition best_pair (v : ds4_vocab) (sym : list bytes) (i : nat) (r : Z) : Prop :=
  rank_at v sym i = Some r /\ r < INT32_MAX /\
  forall k r', rank_at v sym k = Some r' -> r <= r' /\ ((k < i)%nat -> r < r').

(** One merge of the reference algorithm. *)
Inductive bpe_step (v : ds4_vocab) : list bytes -> list bytes -> Prop :=
  bpe_step_intro pre a b post r :
    best_pair v (pre ++ a :: b :: post) (length pre) r ->
    bpe_step v (pre ++ a :: b :: post) (pre ++ (a ++ b) :: post).

(** No pair may be merged. *)
Definition merged_out (v : ds4_vocab) (sym : list bytes) : Prop :=
  forall k r, rank_at v sym k = Some r -> INT32_MAX <= r.

Section Merge.
Context (v : ds4_vocab) (Hv : vocab_ok v).

Lemma bpe_rank_total a b : exists rank, bpe_rank v a b = Some rank /\
  ((0 <= rank /\ raw_rank v a b = Some rank) \/ (rank < 0 /\ raw_rank v a b = None)).
Proof.
  unfold bpe_rank, raw_rank. destruct (merge_get v Hv (a ++ [32] ++ b)) as (o & -> & _).
  destruct o as [r|]; cbn [mbind option_bind default from_option].
  - exists r. split; [done|]. destruct (Z.leb_spec 0 r); [by left | by right].
  - exists (-1). split; [done|]. by right.
Qed.

Lemma rank_at_S a sym k : rank_at v (a :: sym) (S k) = rank_at v sym k.
Proof. done. Qed.

Lemma rank_at_short sym k : (length sym <= S k)%nat -> rank_at v sym k = None.
Proof.
  intros H. unfold rank_at. rewrite (lookup_ge_None_2 sym (S k)) by lia. by destruct (sym !! k).
Qed.

Lemma best_loop_cons a b rest i bi br :
  best_loop v (a :: b :: rest) i bi br =
  (rank ← bpe_rank v a b;
   if (0 <=? rank) && (rank <? br) then best_loop v (b :: rest) (S i) (Some i) rank
   else best_loop v (b :: rest) (S i) bi br).
Proof. done. Qed.

(** The scan finds the leftmost pair of lowest rank below [br]. *)
Lemma best_loop_spec sym : forall i bi br, exists o, best_loop v sym i bi br = Some o /\
  ((o = bi /\ forall k r, rank_at v sym k = Some r -> br <= r) \/
   exists j r, o = Some (i + j)%nat /\ rank_at v sym j = Some r /\ r < br /\
     forall k r', rank_at v sym k = Some r' -> r <= r' /\ ((k < j)%nat -> r < r')).
Proof.
  induction sym as [|a sym IH]; intros i bi br.
  { exists bi. split; [done|]. left. split; [done|]. intros k r H. by rewrite rank_at_short in H by (cbn; lia). }
  destruct sym as [|b rest].
  { exists bi. split; [done|]. left. split; [done|]. intros k r H. by rewrite rank_at_short in H by (cbn; lia). }
  rewrite best_loop_cons. destruct (bpe_rank_total a b) as (rank & -> & Hr). cbn [mbind option_bind].
  assert (H0 : rank_at v (a :: b :: rest) 0 = raw_rank v a b) by done.
  destruct ((0 <=? rank) && (rank <? br)) eqn:E; bool_prop.
  - destruct Hr as [[_ Hr]|[? _]]; [|lia]. rewrite Hr in H0.
    destruct (IH (S i) (Some i) rank) as (o & -> & [[-> Hall]|(j & r & -> & Hj & Hlt & Hmin)]);
      eexists; (split; [done|]); right.
    + exists 0%nat, rank. split_and!; [f_equal; lia|done|done|]. intros [|k] r' Hk.
      * assert (r' = rank) as -> by congruence. lia.
      * rewrite rank_at_S in Hk. apply Hall in Hk. lia.
    + exists (S j), r. split_and!; [f_equal; lia|done|lia|]. intros [|k] r' Hk.
      * assert (r' = rank) as -> by congruence. lia.
      * rewrite rank_at_S in Hk. apply Hmin in Hk. lia.
  - assert (Hge : forall r, raw_rank v a b = Some r -> br <= r).
    { intros r Hrr. destruct Hr as [[? Hr]|[_ Hr]]; [|congruence].
      assert (r = rank) as -> by congruence. destruct E; bool_prop; lia. }
    destruct (IH (S i) bi br) as (o & -> & [[-> Hall]|(j & r & -> & Hj & Hlt & Hmin)]);
      eexists; (split; [done|]).
    + left. split; [done|]. intros [|k] r Hk; [apply Hge; congruence|]. by apply (Hall k).
    + right. exists (S j), r. split_and!; [f_equal; lia|done|done|]. intros [|k] r' Hk.
      * rewrite H0 in Hk. apply Hge in Hk. lia.
      * rewrite rank_at_S in Hk. apply Hmin in Hk. lia.
Qed.

Lemma rank_at_split sym j r : rank_at v sym j = Some r ->
  exists pre a b post, sym = pre ++ a :: b :: post /\ length pre = j.
Proof.
  unfold rank_at. destruct (sym !! j) as [a|] eqn:Ea; [|done].
  destruct (sym !! S j) as [b|] eqn:Eb; [|done]. intros _.
  exists (take j sym), a, b, (drop (S (S j)) sym). split.
  - rewrite <- (take_drop_middle sym j a Ea) at 1. do 2 f_equal. by apply drop_S.
  - apply length_take_le. apply lookup_lt_Some in Ea. lia.
Qed.

Lemma merge_at_app pre a b post :
  merge_at (length pre) (pre ++ a :: b :: post) = pre ++ (a ++ b) :: post.
Proof.
  unfold merge_at. rewrite take_app_length.
  rewrite !app_nth2 by lia. replace (length pre - length pre)%nat with 0%nat by lia.
  replace (length pre + 1 - length pre)%nat with 1%nat by lia. cbn [nth].
  rewrite drop_app_ge by lia. by replace (length pre + 2 - length pre)%nat with 2%nat by lia.
Qed.

(** The merge loop computes a normal form of the reference algorithm. *)
Lemma merge_loop_spec fuel : forall sym, (length sym < fuel)%nat ->
  exists sym', merge_loop fuel v sym = Some sym' /\ rtc (bpe_step v) sym sym' /\ merged_out v sym'.
Proof.
  induction fuel as [|fuel IH]; intros sym Hf; [lia|]. cbn [merge_loop].
  destruct (best_loop_spec sym 0 None INT32_MAX) as (o & -> & Ho).
  cbn [mbind option_bind]. destruct Ho as [[-> Hall]|(j & r & -> & Hj & Hlt & Hmin)].
  - exists sym. split_and!; [done|done|]. intros k r Hk. by eapply Hall.
  - rewrite Nat.add_0_l. destruct (rank_at_split _ _ _ Hj) as (pre & a & b & post & -> & <-).
    rewrite merge_at_app. destruct (IH (pre ++ (a ++ b) :: post)) as (sym' & -> & Hs & Hm).
    { rewrite length_app in *. cbn [length] in *. lia. }
    exists sym'. split_and!; [done| |done]. eapply rtc_l; [|done]. by apply (bpe_step_intro v pre a b post r).
Qed.

Lemma bpe_step_concat sym sym' : bpe_step v sym sym' -> concat sym' = concat sym.
Proof. intros []. rewrite !concat_app. cbn [concat]. by rewrite <- app_assoc. Qed.

Lemma bpe_steps_concat sym sym' : rtc (bpe_step v) sym sym' -> concat sym' = concat sym.
Proof. induction 1 as [|? ? ? H _ ->]; [done | by apply bpe_step_concat]. Qed.
End Merge.

(** ** Complete vocabularies *)

Definition member (s : bytes) (l : list bytes) : bool := existsb (bytes_eqb s) l.

(** Every byte is a token and every merge makes a token: the byte-level BPE
    vocabularies have both. *)
Definition complete_vocab (v : ds4_vocab) : bool :=
  forallb (fun b => member (enc1 b) (token v)) all_bytes
  && forallb (fun e => negb (e_used e)
       || member (List.filter (fun x => negb (x =? 32)) (e_key e)) (token v))
       (t_entry (merge_rank v)).

(** A symbol over the alphabet that is a token. *)
Definition good_symbol (v : ds4_vocab) (s : bytes) : Prop :=
  s ∈ token v /\ exists raw, encoded raw s.

Section Complete.
Context (v : ds4_vocab) (Hv : vocab_ok v).

Lemma member_iff s l : member s l = true <-> s ∈ l.
Proof.
  unfold member. rewrite existsb_exists, list_elem_of_In. split.
  - by intros (x & Hx & ->%bytes_eqb_eq).
  - intros Hs. exists s. by rewrite bytes_eqb_refl.
Qed.

Lemma filter_no_space s : Forall (fun x => x <> 32 /\ x <> 0xef) s ->
  List.filter (fun x => negb (x =? 32)) s = s.
Proof.
  induction 1 as [|x s [Hx _] _ IH]; [done|]. cbn [List.filter].
  destruct (Z.eqb_spec x 32); [done|]. cbn [negb]. by rewrite IH.
Qed.

Context (Hc : complete_vocab v = true).

Lemma complete_byte b : is_byte b -> good_symbol v (enc1 b).
Proof.
  intros Hb. unfold complete_vocab in Hc. apply andb_true_iff in Hc as [Hf _].
  rewrite forallb_forall in Hf. split.
  - apply member_iff, Hf, list_elem_of_In. by apply all_bytes_in.
  - exists [b]. split; [by constructor|]. cbn. by rewrite app_nil_r.
Qed.

Lemma complete_merge a b r : good_symbol v a -> good_symbol v b -> raw_rank v a b = Some r ->
  good_symbol v (a ++ b).
Proof.
  intros [_ [ra Ha]] [_ [rb Hb]] Hr. split; [|by eexists; apply encoded_app].
  unfold raw_rank in Hr. destruct (merge_get v Hv (a ++ [32] ++ b)) as (o & Ho & He).
  rewrite Ho in Hr. destruct o as [r0|]; [|done]. destruct (He r0 eq_refl) as (e & Hin & Hu & Hk).
  unfold complete_vocab in Hc. apply andb_true_iff in Hc as [_ Hf]. rewrite forallb_forall in Hf.
  apply list_elem_of_In, Hf in Hin. rewrite Hu, Hk in Hin. cbn [negb orb] in Hin.
  apply member_iff in Hin. rewrite !List.filter_app in Hin. cbn [List.filter Z.eqb Pos.eqb negb app] in Hin.
  by rewrite !filter_no_space in Hin by (by eapply encoded_chars).
Qed.

Lemma bpe_step_good sym sym' : bpe_step v sym sym' -> Forall (good_symbol v) sym ->
  Forall (good_symbol v) sym'.
Proof.
  intros [pre a b post r [Hr _]] [Hpre [Ha [Hb Hpost]%Forall_cons]%Forall_cons]%Forall_app.
  apply Forall_app. split; [done|]. constructor; [|done]. apply (complete_merge a b r); [done..|].
  unfold rank_at in Hr. rewrite list_lookup_middle in Hr by done.
  rewrite lookup_app_r in Hr by lia. by replace (S (length pre) - length pre)%nat with 1%nat in Hr by lia.
Qed.

Lemma bpe_steps_good sym sym' : rtc (bpe_step v) sym sym' -> Forall (good_symbol v) sym ->
  Forall (good_symbol v) sym'.
Proof. induction 1 as [|? ? ? H _ IH]; [done|]. intros Hs. eapply IH, bpe_step_good; done. Qed.

(** The text of the token of a good symbol. *)
Lemma good_token_text i s : 0 <= i < n_vocab v -> token v !! Z.to_nat i = Some s -> good_symbol v s ->
  encoded (ds4_token_text v i) s.
Proof.
  intros Hi Hl [_ [raw Hr]]. unfold ds4_token_text.
  destruct (Z.ltb_spec i 0); [lia|]. destruct (Z.leb_spec (n_vocab v) i); [lia|]. cbn [orb].
  rewrite (nth_lookup_Some _ _ _ _ Hl), encoded_not_special by by eapply encoded_chars.
  by rewrite (token_text_encoded raw).
Qed.

(** Emitting good symbols: one token each, whose texts spell the symbols. *)
Lemma emit_symbols_good sym : Forall (good_symbol v) sym -> forall out, exists toks,
  emit_symbols v sym out = Some (out ++ toks) /\
  Forall (fun i => exists s, token v !! Z.to_nat i = Some s /\ 0 <= i < n_vocab v /\ good_symbol v s) toks /\
  encoded (concat (map (ds4_token_text v) toks)) (concat sym).
Proof.
  induction 1 as [|s sym Hs _ IH]; intros out.
  { exists []. rewrite app_nil_r. split_and!; [done|constructor|apply encoded_nil]. }
  cbn [emit_symbols]. destruct (token_get v Hv s) as (o & -> & Hi & Ho). cbn [mbind option_bind].
  destruct (Ho (proj1 Hs)) as [i ->]. destruct (Hi i eq_refl) as [Hr Hl].
  destruct (IH (out ++ [i])) as (toks & -> & Hf & He). exists (i :: toks).
  rewrite <- app_assoc. split_and!; [done| |].
  - constructor; [by exists s | done].
  - cbn [map concat]. apply encoded_app; [by apply good_token_text | done].
Qed.

(** A piece: the tokens spell its bytes. *)
Lemma emit_piece_good raw out : bytes_ok raw -> exists toks,
  bpe_emit_piece v raw out = Some (out ++ toks) /\
  Forall (fun i => exists s, token v !! Z.to_nat i = Some s /\ 0 <= i < n_vocab v /\ good_symbol v s) toks /\
  concat (map (ds4_token_text v) toks) = raw.
Proof.
  intros Hr. unfold bpe_emit_piece. rewrite byte_encode_enc1, bpe_symbols_encoded by done.
  destruct (merge_loop_spec v Hv (S (length (map enc1 raw))) (map enc1 raw)) as (sym' & -> & Hs & _); [lia|].
  cbn [mbind option_bind].
  assert (Hg : Forall (good_symbol v) (map enc1 raw)).
  { apply Forall_map. eapply Forall_impl; [apply Hr|]. intros b Hb. by apply complete_byte. }
  destruct (emit_symbols_good sym' (bpe_steps_good _ _ Hs Hg) out) as (toks & -> & Hf & He).
  exists toks. split_and!; [done..|]. rewrite (bpe_steps_concat v _ _ Hs) in He.
  destruct He as [Hb He]. rewrite <- flat_map_concat_map in He.
  rewrite <- (token_text_encoded raw (flat_map enc1 raw) (conj Hr eq_refl) _ (Nat.le_refl _)).
  by rewrite (token_text_encoded _ _ (conj Hb He) _ (Nat.le_refl _)).
Qed.

Lemma emit_pieces_good ps : Forall bytes_ok ps -> forall out, exists toks,
  emit_pieces v ps out = Some (out ++ toks) /\
  Forall (fun i => exists s, token v !! Z.to_nat i = Some s /\ 0 <= i < n_vocab v /\ good_symbol v s) toks /\
  concat (map (ds4_token_text v) toks) = concat ps.
Proof.
  induction 1 as [|p ps Hp _ IH]; intros out.
  { exists []. rewrite app_nil_r. split_and!; [done|constructor|done]. }
  cbn [emit_pieces]. destruct (emit_piece_good p out Hp) as (t1 & -> & Hf1 & H1).
  cbn [mbind option_bind]. destruct (IH (out ++ t1)) as (t2 & -> & Hf2 & H2).
  exists (t1 ++ t2). rewrite <- app_assoc. split_and!; [done|by apply Forall_app|].
  rewrite map_app, concat_app. cbn [concat]. by rewrite H1, H2.
Qed.

Lemma tokenize_text_good family text out : bytes_ok text -> exists toks,
  bpe_tokenize_text family v text out = Some (out ++ toks) /\
  Forall (fun i => exists s, token v !! Z.to_nat i = Some s /\ 0 <= i < n_vocab v /\ good_symbol v s) toks /\
  concat (map (ds4_token_text v) toks) = text.
Proof.
  intros Ht. unfold bpe_tokenize_text. destruct (text_pieces_spec family text) as (ps & -> & Hp & _).
  cbn [mbind option_bind]. rewrite <- Hp. apply emit_pieces_good.
  rewrite <- Hp in Ht. clear -Ht. induction ps as [|p ps IH]; [constructor|].
  apply Forall_app in Ht as [? ?]. constructor; auto.
Qed.
End Complete.

(** ** Markers *)

(** Free of the first byte of the fullwidth bar. *)
Definition clean (s : bytes) : Prop := Forall (fun x => x <> 32 /\ x <> 0xef) s.

Section Clean.
Context (v : ds4_vocab) (Hv : vocab_ok v).

(** A token whose string is free of the bar. *)
Definition clean_token (i : Z) : Prop :=
  0 <= i /\ exists s, token v !! Z.to_nat i = Some s /\ clean s.

Lemma token_get_clean s : clean s -> exists o, table_get (token_to_id v) s = Some o /\
  forall i, o = Some i -> clean_token i.
Proof.
  intros Hs. destruct (token_get v Hv s) as (o & Ho & Hi & _). exists o. split; [done|].
  intros i Hoi. destruct (Hi i Hoi) as [[? _] ?]. split; [done|]. by exists s.
Qed.

Lemma emit_bytes_clean s : clean s -> forall out, exists toks,
  emit_bytes v s out = Some (out ++ toks) /\ Forall clean_token toks.
Proof.
  induction 1 as [|c s Hcc _ IH]; intros out; cbn [emit_bytes].
  { exists []. by rewrite app_nil_r. }
  destruct (token_get_clean [c]) as (o & -> & Ho); [by constructor|]. cbn [mbind option_bind].
  destruct o as [i|]; [|apply IH].
  destruct (IH (out ++ [i])) as (toks & -> & Hf). exists (i :: toks). rewrite <- app_assoc.
  split; [done|]. constructor; auto.
Qed.

Lemma emit_symbols_clean sym : Forall clean sym -> forall out, exists toks,
  emit_symbols v sym out = Some (out ++ toks) /\ Forall clean_token toks.
Proof.
  induction 1 as [|s sym Hs _ IH]; intros out; cbn [emit_symbols].
  { exists []. by rewrite app_nil_r. }
  destruct (token_get_clean s Hs) as (o & -> & Ho). cbn [mbind option_bind]. destruct o as [i|].
  - destruct (IH (out ++ [i])) as (toks & -> & Hf). exists (i :: toks). rewrite <- app_assoc.
    split; [done|]. constructor; auto.
  - destruct (emit_bytes_clean s Hs out) as (t1 & -> & H1). cbn [mbind option_bind].
    destruct (IH (out ++ t1)) as (t2 & -> & H2). exists (t1 ++ t2). rewrite <- app_assoc.
    split; [done | by apply Forall_app].
Qed.

Lemma emit_piece_clean raw out : bytes_ok raw -> exists toks,
  bpe_emit_piece v raw out = Some (out ++ toks) /\ Forall clean_token toks.
Proof.
  intros Hr. unfold bpe_emit_piece. rewrite byte_encode_enc1, bpe_symbols_encoded by done.
  destruct (merge_loop_spec v Hv (S (length (map enc1 raw))) (map enc1 raw)) as (sym' & -> & Hs & _); [lia|].
  cbn [mbind option_bind]. apply emit_symbols_clean. unfold clean. rewrite <- Forall_concat.
  rewrite (bpe_steps_concat v _ _ Hs), <- flat_map_concat_map.
  by apply (encoded_chars raw).
Qed.

Lemma tokenize_text_clean family text out : bytes_ok text -> exists toks,
  bpe_tokenize_text family v text out = Some (out ++ toks) /\ Forall clean_token toks.
Proof.
  intros Ht. unfold bpe_tokenize_text. destruct (text_pieces_spec family text) as (ps & -> & Hp & _).
  cbn [mbind option_bind]. rewrite <- Hp in Ht. clear Hp. revert out.
  induction ps as [|p ps IH]; intros out; cbn [emit_pieces].
  { exists []. by rewrite app_nil_r. }
  apply Forall_app in Ht as [Hp Hps]. destruct (emit_piece_clean p out Hp) as (t1 & -> & H1).
  cbn [mbind option_bind]. destruct (IH Hps (out ++ t1)) as (t2 & -> & H2).
  exists (t1 ++ t2). rewrite <- app_assoc. split; [done | by apply Forall_app].
Qed.

(** An id looked up for a string with a bar is not that of a clean token. *)
Lemma marker_not_clean text i j : 0xef ∈ text ->
  vocab_lookup (token_to_id v) text = inr i -> clean_token j -> j <> i.
Proof.
  intros Hin Hl (Hj & s & Hs & Hc) ->. unfold vocab_lookup in Hl.
  apply dbind_inr in Hl as (r & Hr%or_spin_inr & Hl). destruct r as [k|]; [|done].
  injection Hl as ->. destruct (token_get v Hv text) as (o & Ho & Hi & _).
  destruct (Hi i) as [_ Ht]; [congruence|]. assert (s = text) as -> by congruence.
  unfold clean in Hc. rewrite Forall_forall in Hc. by destruct (Hc _ Hin).
Qed.

(** The five ids of the DeepSeek markers. *)
Definition marker_ids : list Z :=
  [bos_id (ids v); eos_id (ids v); user_id (ids v); assistant_id (ids v); dsml_id (ids v)].

Lemma deepseek_markers j : deepseek_ids (token_to_id v) = inr (ids v) -> clean_token j ->
  j ∉ marker_ids.
Proof.
  unfold deepseek_ids. intros (b & Hb & H)%dbind_inr. apply dbind_inr in H as (e & He & H).
  apply dbind_inr in H as (u & Hu & H). apply dbind_inr in H as (a & Ha & H).
  apply dbind_inr in H as (ts & _ & H). apply dbind_inr in H as (te & _ & H).
  apply dbind_inr in H as (d & Hd & H). injection H as H. unfold marker_ids. rewrite <- H.
  intros Hj. rewrite !not_elem_of_cons.
  split_and!; try (eapply marker_not_clean; [|done|done]; apply (bool_decide_unpack _); vm_compute; exact I).
  apply not_elem_of_nil.
Qed.
End Clean.

Lemma vocab_load_ids m v : vocab_load DS4_MODEL_FAMILY_DEEPSEEK4 m = inr v ->
  deepseek_ids (token_to_id v) = inr (ids v).
Proof.
  unfold vocab_load. destruct (string_array m _) as [a|]; [|done]. case_if; [done|].
  destruct (string_array m _) as [b|]; [|done].
  intros (t0 & _ & H)%dbind_inr. apply dbind_inr in H as ([toks t] & _ & H).
  apply dbind_inr in H as (m0 & _ & H). apply dbind_inr in H as ([ms ranks] & _ & H).
  apply dbind_inr in H as (special & Hs & H). by injection H as <-.
Qed.

(** ** Properties *)

(** C31: Tokenizing loses nothing.  For the vocabulary of any file that opens
    and loads, in which every byte is a token and every merge makes one,
    tokenizing any text terminates and appends ids whose texts, put together,
    are exactly the text; for both model families. *)
Theorem tokenize_lossless (file : bytes) (k1 k2 : bool) (m : ds4_model) (family : model_family)
    (v : ds4_vocab) (text : bytes) (out : list Z)
    (Hb : bytes_ok file) (Hl : zlen file <= 2 ^ 63) (Ho : model_open (Some file) k1 k2 = inr m)
    (Hv : vocab_load family m = inr v) (Hc : complete_vocab v = true) (Ht : bytes_ok text) :
  exists toks, bpe_tokenize_text family v text out = Some (out ++ toks) /\
    concat (map (ds4_token_text v) toks) = text.
Proof.
  pose proof (vocab_load_ok _ _ _ (model_open_ok _ _ _ _ Hb Hl Ho) Hv) as Hok.
  destruct (tokenize_text_good v Hok Hc family text out Ht) as (toks & H & _ & Hd). by exists toks.
Qed.

(** Text cannot forge a marker.  Whatever the text says, tokenizing it
    terminates and never yields the ids of the DeepSeek chat markers (begin and
    end of sentence, user, assistant, DSML), complete vocabulary or not: these
    ids enter a prompt only where the code pushes them. *)
Theorem text_forges_no_marker (file : bytes) (k1 k2 : bool) (m : ds4_model)
    (v : ds4_vocab) (text : bytes) (out : list Z)
    (Hb : bytes_ok file) (Hl : zlen file <= 2 ^ 63) (Ho : model_open (Some file) k1 k2 = inr m)
    (Hv : vocab_load DS4_MODEL_FAMILY_DEEPSEEK4 m = inr v) (Ht : bytes_ok text) :
  exists toks, bpe_tokenize_text DS4_MODEL_FAMILY_DEEPSEEK4 v text out = Some (out ++ toks) /\
    Forall (fun i => i ∉ marker_ids v) toks.
Proof.
  pose proof (vocab_load_ok _ _ _ (model_open_ok _ _ _ _ Hb Hl Ho) Hv) as Hok.
  destruct (tokenize_text_clean v Hok DS4_MODEL_FAMILY_DEEPSEEK4 text out Ht) as (toks & H & Hf).
  exists toks. split; [done|]. eapply Forall_impl; [done|]. intros i Hi.
  apply deepseek_markers; [done | by eapply vocab_load_ids | done].
Qed.

(** C30: The merge loop implements byte-pair encoding.  On any symbols it
    terminates within one round per symbol, each round being one merge of the
    leftmost pair of lowest rank, and ends with no pair left to merge. *)
Theorem merge_loop_refines_bpe (v : ds4_vocab) (sym : list bytes) (Hv : vocab_ok v) :
  exists sym', merge_loop (S (length sym)) v sym = Some sym' /\
    rtc (bpe_step v) sym sym' /\ merged_out v sym' /\ concat sym' = concat sym.
Proof.
  destruct (merge_loop_spec v Hv (S (length sym)) sym) as (sym' & H1 & H2 & H3); [lia|].
  exists sym'. split_and!; try done. by apply (bpe_steps_concat v).
Qed.

(** A model file with a small complete vocabulary. *)
Module BpeExample.
Definition markers : list bytes :=
  [bs "<｜begin▁of▁sentence｜>"; bs "<｜end▁of▁sentence｜>"; bs "<｜User｜>"; bs "<｜Assistant｜>";
   bs "<think>"; bs "</think>"; bs "｜DSML｜"].
Definition tokens : list bytes := map enc1 all_bytes ++ markers ++ [bs "th"; bs "the"; bs "he"].
Definition merges : list bytes := [bs "t h"; bs "h e"; bs "th e"].
Definition strings (l : list bytes) : gval := VArray GGUF_VALUE_STRING (map VString l).
Definition file : bytes :=
  le_bytes 4 DS4_GGUF_MAGIC ++ le_bytes 4 3 ++ le_bytes 8 0 ++ le_bytes 8 2 ++
  encode_kv (bs "tokenizer.ggml.tokens", strings tokens) ++
  encode_kv (bs "tokenizer.ggml.merges", strings merges) ++ replicate 32 0.
Definition model : die + ds4_model := Eval vm_compute in model_open (Some file) true true.
Definition vocab : die + ds4_vocab :=
  Eval vm_compute in m <== model; vocab_load DS4_MODEL_FAMILY_DEEPSEEK4 m.
End BpeExample.

(** It opens, loads and is complete. *)
Lemma example_vocab : exists m v,
  model_open (Some BpeExample.file) true true = inr m /\
  vocab_load DS4_MODEL_FAMILY_DEEPSEEK4 m = inr v /\
  bytes_ok BpeExample.file /\ zlen BpeExample.file <= 2 ^ 63 /\
  vocab_ok v /\ complete_vocab v = true /\ BpeExample.vocab = inr v.
Proof.
  destruct BpeExample.model as [e|m] eqn:Em; [exfalso; vm_compute in Em; discriminate|].
  destruct BpeExample.vocab as [e|v] eqn:Ev; [exfalso; vm_compute in Ev; discriminate|].
  assert (Hm : model_open (Some BpeExample.file) true true = inr m)
    by (rewrite <- Em; vm_compute; reflexivity).
  assert (Hv : vocab_load DS4_MODEL_FAMILY_DEEPSEEK4 m = inr v).
  { rewrite <- Ev. injection Em as <-. vm_compute. reflexivity. }
  assert (Hb : bytes_ok BpeExample.file) by (apply (bool_decide_unpack _); vm_compute; exact I).
  assert (Hl : zlen BpeExample.file <= 2 ^ 63) by (vm_compute; discriminate).
  exists m, v. split; [exact Hm|]. split; [exact Hv|]. split; [exact Hb|]. split; [exact Hl|].
  split; [|split; [|reflexivity]].
  - exact (vocab_load_ok _ _ _ (model_open_ok _ _ _ _ Hb Hl Hm) Hv).
  - injection Ev as <-. vm_compute. reflexivity.
Qed.

Lemma tokenize_lossless_witness :
  exists m v toks, model_open (Some BpeExample.file) true true = inr m /\
    vocab_load DS4_MODEL_FAMILY_DEEPSEEK4 m = inr v /\
    bpe_tokenize_text DS4_MODEL_FAMILY_DEEPSEEK4 v (bs "the caffè") [7] = Some ([7] ++ toks) /\
    concat (map (ds4_token_text v) toks) = bs "the caffè".
Proof.
  destruct example_vocab as (m & v & Hm & Hv & Hb & Hl & _ & Hc & _).
  destruct (tokenize_lossless BpeExample.file true true m DS4_MODEL_FAMILY_DEEPSEEK4 v (bs "the caffè") [7]
    Hb Hl Hm Hv Hc (bs_ok _)) as (toks & H1 & H2).
  exists m, v, toks. auto.
Defined.

Lemma text_forges_no_marker_witness :
  exists m v toks, model_open (Some BpeExample.file) true true = inr m /\
    vocab_load DS4_MODEL_FAMILY_DEEPSEEK4 m = inr v /\
    bpe_tokenize_text DS4_MODEL_FAMILY_DEEPSEEK4 v (bs "<｜User｜>hi") [] = Some toks /\
    Forall (fun i => i ∉ marker_ids v) toks.
Proof.
  destruct example_vocab as (m & v & Hm & Hv & Hb & Hl & _).
  destruct (text_forges_no_marker BpeExample.file true true m v (bs "<｜User｜>hi") [] Hb Hl Hm Hv (bs_ok _))
    as (toks & H1 & H2).
  exists m, v, toks. auto.
Defined.

Lemma merge_loop_refines_bpe_witness :
  exists v sym', merge_loop 4 v [bs "t"; bs "h"; bs "e"] = Some sym' /\
    sym' = [bs "the"] /\ rtc (bpe_step v) [bs "t"; bs "h"; bs "e"] sym' /\ merged_out v sym'.
Proof.
  destruct example_vocab as (m & v & _ & _ & _ & _ & Hok & _ & Ev).
  destruct (merge_loop_refines_bpe v [bs "t"; bs "h"; bs "e"] Hok) as (sym' & H1 & H2 & H3 & _).
  exists v, sym'. split; [exact H1|]. split; [|split; [exact H2 | exact H3]].
  cbn [length] in H1. injection Ev as <-. vm_compute in H1. injection H1 as <-. reflexivity.
Defined.
