(* ===== verification/Chat.v ===== *)
(** * Chat prompts as token sequences (ds4.c)

    The chat markers are pushed by id and everything else goes through the
    byte-pair encoder: prompts and messages, rendered transcripts in which
    markers are recognised by their text, and tool output with its closing tag
    escaped.  [ds4_die] is a value of the error type of [Gguf]; a tokenization
    whose loops would not end is [DieFuel], which the theorems exclude. *)

From S2P Require Import Prelude Gguf HashTable Pretok Vocab Bpe ToolText.
#[local] Open Scope Z_scope.

(** ** Thinking modes *)

Inductive ds4_think_mode := DS4_THINK_NONE | DS4_THINK_HIGH | DS4_THINK_MAX.

#[export] Instance ds4_think_mode_eq_dec : EqDecision ds4_think_mode.
Proof. solve_decision. Defined.

Definition DS4_THINK_MAX_MIN_CONTEXT : Z := 393216.

Definition ds4_think_mode_enabled (mode : ds4_think_mode) : bool :=
  match mode with DS4_THINK_HIGH | DS4_THINK_MAX => true | DS4_THINK_NONE => false end.

Definition ds4_think_mode_for_context (mode : ds4_think_mode) (ctx_size : Z) : ds4_think_mode :=
  match mode with
  | DS4_THINK_MAX =>
      if u32 (if 0 <? ctx_size then ctx_size else 0) <? DS4_THINK_MAX_MIN_CONTEXT
      then DS4_THINK_HIGH else mode
  | _ => mode
  end.

Definition DS4_REASONING_EFFORT_MAX_PREFIX : bytes :=
  bs "Reasoning Effort: Absolute maximum with no shortcuts permitted." ++ [10] ++
  bs "You MUST be very thorough in your thinking and comprehensively decompose the problem to resolve the root cause, rigorously stress-testing your logic against all potential paths, edge cases, and adversarial scenarios." ++ [10] ++
  bs "Explicitly write out your entire deliberation process, documenting every intermediate step, considered alternative, and rejected hypothesis to ensure absolutely no assumption is left unchecked." ++ [10; 10].

Definition ds4_glm_reasoning_effort_text (mode : ds4_think_mode) : option bytes :=
  match mode with
  | DS4_THINK_HIGH => Some (bs "Reasoning Effort: High")
  | DS4_THINK_MAX => Some (bs "Reasoning Effort: Max")
  | DS4_THINK_NONE => None
  end.

(** ** Prompts *)

Section Encode.
Context (family : model_family) (v : ds4_vocab).

Definition is_glm : bool :=
  match family with DS4_MODEL_FAMILY_GLM_DSA => true | DS4_MODEL_FAMILY_DEEPSEEK4 => false end.

Definition chat_push_bos_sequence (out : list Z) : list Z :=
  let out := out ++ [bos_id (ids v)] in
  if is_glm && (0 <=? sop_id (ids v)) then out ++ [sop_id (ids v)] else out.

(** [bpe_tokenize_text] as a step of a program that may end. *)
Definition tokenize (text : bytes) (out : list Z) : die + list Z :=
  or_spin (bpe_tokenize_text family v text out).

Definition chat_push_think_prefix (mode : ds4_think_mode) (out : list Z) : die + list Z :=
  if is_glm then
    match ds4_glm_reasoning_effort_text mode with
    | Some effort => tokenize effort (out ++ [system_id (ids v)])
    | None => inr out
    end
  else if decide (mode = DS4_THINK_MAX) then tokenize DS4_REASONING_EFFORT_MAX_PREFIX out
  else inr out.

Definition encode_chat_prompt (system : option bytes) (prompt : bytes) (mode : ds4_think_mode)
    (out : list Z) : die + list Z :=
  let need_think_start := ds4_think_mode_enabled mode || is_glm in
  if (bos_id (ids v) <? 0) || (user_id (ids v) <? 0) || (assistant_id (ids v) <? 0)
     || (think_end_id (ids v) <? 0) || (is_glm && (system_id (ids v) <? 0))
     || (need_think_start && (think_start_id (ids v) <? 0))
  then inl (Die (bs "this tokenizer does not provide the DeepSeek chat markers; use raw prompt tokenization"))
  else
    let out := chat_push_bos_sequence out in
    out <== chat_push_think_prefix mode out;
    out <== match system with
            | Some (c :: s) =>
                tokenize (c :: s) (if is_glm then out ++ [system_id (ids v)] else out)
            | _ => inr out
            end;
    out <== tokenize prompt (out ++ [user_id (ids v)]);
    let out := out ++ [assistant_id (ids v)] in
    inr (if ds4_think_mode_enabled mode then out ++ [think_start_id (ids v)]
         else if is_glm then out ++ [think_start_id (ids v)] ++ [think_end_id (ids v)]
         else out ++ [think_end_id (ids v)]).

(** ** Rendered transcripts *)

Definition specials : list (bytes * Z) :=
  [(bs "<｜begin▁of▁sentence｜>", bos_id (ids v));
   (bs "<｜end▁of▁sentence｜>", eos_id (ids v));
   (bs "[gMASK]", bos_id (ids v));
   (bs "<sop>", sop_id (ids v));
   (bs "<|system|>", system_id (ids v));
   (bs "<｜User｜>", user_id (ids v));
   (bs "<｜Assistant｜>", assistant_id (ids v));
   (bs "<|user|>", user_id (ids v));
   (bs "<|assistant|>", assistant_id (ids v));
   (bs "<|observation|>", observation_id (ids v));
   (bs "<think>", think_start_id (ids v));
   (bs "</think>", think_end_id (ids v));
   (bs "<tool_call>", tool_call_start_id (ids v));
   (bs "</tool_call>", tool_call_end_id (ids v));
   (bs "<tool_response>", tool_response_start_id (ids v));
   (bs "</tool_response>", tool_response_end_id (ids v));
   (bs "<arg_key>", arg_key_start_id (ids v));
   (bs "</arg_key>", arg_key_end_id (ids v));
   (bs "<arg_value>", arg_value_start_id (ids v));
   (bs "</arg_value>", arg_value_end_id (ids v));
   (bs "｜DSML｜", dsml_id (ids v))].

Fixpoint special_scan (l : list (bytes * Z)) (p : bytes) : option (Z * nat) :=
  match l with
  | [] => None
  | (text, tok) :: l' =>
      if tok <? 0 then special_scan l' p
      else if starts_with text p then Some (tok, length text)
      else special_scan l' p
  end.

(** The marker at the head of the remaining text, with its length. *)
Definition special_token_at (p : bytes) : option (Z * nat) := special_scan specials p.

(** The copy of the span is a C string of the same bytes. *)
Definition tokenize_span (span : bytes) (out : list Z) : die + list Z :=
  match span with [] => inr out | _ => tokenize span out end.

(** The bytes from [from] up to [to]. *)
Definition slice (text : bytes) (from to : nat) : bytes := take (to - from) (drop from text).

Fixpoint rendered_loop (fuel : nat) (text : bytes) (span p : nat) (out : list Z) : die + list Z :=
  match fuel with
  | O => inl DieFuel
  | S fuel' =>
      if (length text <=? p)%nat then tokenize_span (slice text span p) out
      else
        match special_token_at (drop p text) with
        | Some (tok, len) =>
            out <== tokenize_span (slice text span p) out;
            rendered_loop fuel' text (p + len) (p + len) (out ++ [tok])
        | None => rendered_loop fuel' text span (S p) out
        end
  end.

Definition tokenize_rendered_chat_vocab (text : option bytes) (out : list Z) : die + list Z :=
  let text := default [] text in rendered_loop (S (length text)) text 0 0 out.

(** ** Tool output *)

Fixpoint payload_loop (fuel : nat) (text end_ : bytes) (span p : nat) (out : list Z) : die + list Z :=
  match fuel with
  | O => inl DieFuel
  | S fuel' =>
      if (length text <=? p)%nat then tokenize_span (slice text span p) out
      else if ds4_tool_text_needs_escape (drop p text) end_ then
        out <== tokenize_span (slice text span p) out;
        out <== tokenize (if cget text p =? 60 then bs "&lt;" else bs "&amp;") out;
        payload_loop fuel' text end_ (S p) (S p) out
      else payload_loop fuel' text end_ span (S p) out
  end.

Definition bpe_tokenize_wrapped_payload_text (content : option bytes) (end_ : bytes) (out : list Z)
  : die + list Z :=
  let text := default [] content in payload_loop (S (length text)) text end_ 0 0 out.

Definition bpe_tokenize_tool_result_text (content : option bytes) (out : list Z) : die + list Z :=
  bpe_tokenize_wrapped_payload_text content (bs "</tool_result>") out.

Definition bpe_tokenize_tool_response_text (content : option bytes) (out : list Z) : die + list Z :=
  bpe_tokenize_wrapped_payload_text content (bs "</tool_response>") out.

(** ** Messages *)

Definition role_is (role : bytes) (names : list bytes) : bool := existsb (bytes_eqb role) names.

Definition starts_thinking (content : bytes) : bool :=
  starts_with (bs "<think>") content || starts_with (bs "</think>") content.

Definition ds4_chat_append_message (role content : option bytes) (tokens : list Z) : die + list Z :=
  let role := default (bs "user") role in
  let content := default [] content in
  if is_glm then
    if role_is role [bs "system"; bs "developer"] then
      tokenize_rendered_chat_vocab (Some content)
        (if 0 <=? system_id (ids v) then tokens ++ [system_id (ids v)] else tokens)
    else if role_is role [bs "assistant"] then
      let tokens := tokens ++ [assistant_id (ids v)] in
      tokenize_rendered_chat_vocab (Some content)
        (if negb (starts_thinking content)
         then tokens ++ [think_start_id (ids v)] ++ [think_end_id (ids v)] else tokens)
    else if role_is role [bs "tool"; bs "function"] then
      let tokens := if 0 <=? observation_id (ids v) then tokens ++ [observation_id (ids v)] else tokens in
      tokens <== tokenize_rendered_chat_vocab (Some (bs "<tool_response>")) tokens;
      tokens <== bpe_tokenize_tool_response_text (Some content) tokens;
      tokenize_rendered_chat_vocab (Some (bs "</tool_response>")) tokens
    else tokenize content (tokens ++ [user_id (ids v)])
  else if role_is role [bs "system"; bs "developer"] then tokenize content tokens
  else if role_is role [bs "assistant"] then
    let tokens := tokens ++ [assistant_id (ids v)] in
    tokenize content (if negb (starts_thinking content) then tokens ++ [think_end_id (ids v)] else tokens)
  else if role_is role [bs "tool"; bs "function"] then
    tokens <== tokenize (bs "<tool_result>") (tokens ++ [user_id (ids v)]);
    tokens <== bpe_tokenize_tool_result_text (Some content) tokens;
    tokenize (bs "</tool_result>") tokens
  else tokenize content (tokens ++ [user_id (ids v)]).

Definition ds4_chat_append_assistant_prefix (mode : ds4_think_mode) (tokens : list Z) : list Z :=
  let tokens := tokens ++ [assistant_id (ids v)] in
  if is_glm && negb (ds4_think_mode_enabled mode)
  then tokens ++ [think_start_id (ids v)] ++ [think_end_id (ids v)]
  else tokens ++ [if ds4_think_mode_enabled mode then think_start_id (ids v) else think_end_id (ids v)].

(** A conversation: begin, the messages in order, the assistant's turn. *)
Fixpoint append_messages (msgs : list (option bytes * option bytes)) (tokens : list Z) : die + list Z :=
  match msgs with
  | [] => inr tokens
  | (role, content) :: msgs' =>
      tokens <== ds4_chat_append_message role content tokens; append_messages msgs' tokens
  end.

Definition chat_conversation (msgs : list (option bytes * option bytes)) (mode : ds4_think_mode)
  : die + list Z :=
  tokens <== append_messages msgs (chat_push_bos_sequence []);
  inr (ds4_chat_append_assistant_prefix mode tokens).

(** ** Stop tokens *)

Definition vocab_token_is_generation_stop (tok : Z) : bool :=
  if tok <? 0 then false
  else if tok =? eos_id (ids v) then true
  else if is_glm then
    ((0 <=? system_id (ids v)) && (tok =? system_id (ids v)))
    || ((0 <=? user_id (ids v)) && (tok =? user_id (ids v)))
    || ((0 <=? assistant_id (ids v)) && (tok =? assistant_id (ids v)))
    || ((0 <=? observation_id (ids v)) && (tok =? observation_id (ids v)))
  else false.

Definition ds4_token_is_thinking_control (tok : Z) : bool :=
  if tok <? 0 then false
  else ((0 <=? think_start_id (ids v)) && (tok =? think_start_id (ids v)))
       || ((0 <=? think_end_id (ids v)) && (tok =? think_end_id (ids v))).

Definition ds4_token_is_stop_for_think_mode (tok : Z) (mode : ds4_think_mode) : bool :=
  vocab_token_is_generation_stop tok
  || (negb (ds4_think_mode_enabled mode) && ds4_token_is_thinking_control tok).
End Encode.

(** ** What the encoder promises the chat code *)

(** [R text toks]: [toks] stand for [text].  A meaning of token lists that is
    closed under concatenation and that the encoder establishes. *)
Class TextMeaning (family : model_family) (v : ds4_vocab) (R : bytes -> list Z -> Prop) := {
  tm_nil : R [] [];
  tm_app a x b y : R a x -> R b y -> R (a ++ b) (x ++ y);
  tm_text text out : bytes_ok text ->
    exists toks, tokenize family v text out = inr (out ++ toks) /\ R text toks
}.

(** The tokens spell the text. *)
Definition spells (v : ds4_vocab) (text : bytes) (toks : list Z) : Prop :=
  concat (map (ds4_token_text v) toks) = text.

(** The tokens hold no marker. *)
Definition unmarked (v : ds4_vocab) (text : bytes) (toks : list Z) : Prop :=
  Forall (clean_token v) toks.

Section Meanings.
Context (family : model_family) (v : ds4_vocab) (Hv : vocab_ok v).

Lemma unmarked_meaning : TextMeaning family v (unmarked v).
Proof.
  split.
  - constructor.
  - intros a x b y. apply Forall_app_2.
  - intros text out Ht. destruct (tokenize_text_clean v Hv family text out Ht) as (toks & E & H).
    exists toks. unfold tokenize. by rewrite E.
Qed.

Lemma spells_meaning : complete_vocab v = true -> TextMeaning family v (spells v).
Proof.
  intros Hc. split.
  - done.
  - unfold spells. intros a x b y <- <-. by rewrite map_app, concat_app.
  - intros text out Ht. destruct (tokenize_text_good v Hv Hc family text out Ht) as (toks & E & _ & H).
    exists toks. unfold tokenize. by rewrite E.
Qed.
End Meanings.

(** ** Client lemmas, against the interface *)
Section Client.
Context (family : model_family) (v : ds4_vocab) (R : bytes -> list Z -> Prop) {HR : TextMeaning family v R}.

Lemma tokenize_span_R span out : bytes_ok span ->
  exists toks, tokenize_span family v span out = inr (out ++ toks) /\ R span toks.
Proof.
  intros Hs. destruct span as [|c span]; [|by apply tm_text].
  exists []. rewrite app_nil_r. split; [done | apply tm_nil].
Qed.

Lemma slice_ok text a b : bytes_ok text -> bytes_ok (slice text a b).
Proof. intros H. by apply Forall_take, Forall_drop. Qed.

Lemma slice_snoc text a p : (a <= p < length text)%nat ->
  slice text a (S p) = slice text a p ++ [cget text p].
Proof.
  intros Hp. unfold slice. replace (S p - a)%nat with (S (p - a)) by lia.
  rewrite (take_S_r _ _ (cget text p)); [done|]. rewrite lookup_drop.
  replace (a + (p - a))%nat with p by lia. unfold cget.
  destruct (lookup_lt_is_Some_2 text p) as [x Hx]; [lia|]. by rewrite (nth_lookup_Some _ _ _ _ Hx).
Qed.

Lemma drop_cget text p : (p < length text)%nat -> drop p text = cget text p :: drop (S p) text.
Proof.
  intros Hp. destruct (lookup_lt_is_Some_2 text p) as [x Hx]; [done|].
  rewrite (drop_S _ _ _ Hx). unfold cget. by rewrite (nth_lookup_Some _ _ _ _ Hx).
Qed.

(** The payload loop encodes the escaped text. *)
Lemma payload_loop_R text end_ : bytes_ok text -> forall fuel span p out,
  (span <= p <= length text)%nat -> (length text - p < fuel)%nat ->
  exists toks, payload_loop family v fuel text end_ span p out = inr (out ++ toks) /\
    R (slice text span p ++ tag_body_escape (drop p text) end_) toks.
Proof.
  intros Ht. induction fuel as [|fuel IH]; intros span p out Hp Hf; [lia|]. cbn [payload_loop].
  destruct (Nat.leb_spec (length text) p).
  { rewrite drop_ge by done. cbn [tag_body_escape]. rewrite app_nil_r.
    apply tokenize_span_R. by apply slice_ok. }
  rewrite (drop_cget text p) by done. cbn [tag_body_escape].
  destruct (ds4_tool_text_needs_escape (cget text p :: drop (S p) text) end_) eqn:E.
  - destruct (tokenize_span_R (slice text span p) out) as (t1 & -> & H1); [by apply slice_ok|].
    cbn [dbind].
    destruct (tm_text (if cget text p =? 60 then bs "&lt;" else bs "&amp;") (out ++ t1)) as (t2 & E2 & H2).
    { case_if; apply bs_ok. }
    rewrite E2. cbn [dbind]. destruct (IH (S p) (S p) ((out ++ t1) ++ t2)) as (t3 & -> & H3); [lia..|].
    exists (t1 ++ t2 ++ t3). rewrite <- !app_assoc. split; [done|].
    unfold slice at 1 in H3. rewrite Nat.sub_diag in H3. cbn [take firstn app] in H3.
    by apply tm_app; [|apply tm_app].
  - destruct (IH span (S p) out) as (toks & -> & H1); [lia..|]. exists toks. split; [done|].
    rewrite slice_snoc, <- app_assoc in H1 by lia. done.
Qed.

Lemma payload_R content end_ out : bytes_ok content ->
  exists toks, bpe_tokenize_wrapped_payload_text family v (Some content) end_ out = inr (out ++ toks) /\
    R (tag_body_escape content end_) toks.
Proof.
  intros Hc. unfold bpe_tokenize_wrapped_payload_text. cbn [default from_option].
  apply (payload_loop_R content end_ Hc (S (length content)) 0 0 out); lia.
Qed.
End Client.

(** ** Splitting a transcript at its markers *)

Inductive seg := SText (t : bytes) | SMark (t : bytes) (tok : Z).

Definition seg_text (s : seg) : bytes := match s with SText t | SMark t _ => t end.
Definition segs_text (l : list seg) : bytes := flat_map seg_text l.

Section Segments.
Context (family : model_family) (v : ds4_vocab).

(** The leftmost split: a marker segment is the marker found at its place, and
    no marker starts inside a text segment. *)
Fixpoint leftmost_split (l : list seg) : Prop :=
  match l with
  | [] => True
  | SText t :: l' =>
      (forall j, (j < length t)%nat -> special_token_at v (drop j (t ++ segs_text l')) = None) /\
      leftmost_split l'
  | SMark t tok :: l' =>
      special_token_at v (t ++ segs_text l') = Some (tok, length t) /\ leftmost_split l'
  end.

(** Each text segment is encoded on its own, each marker is its id. *)
Fixpoint seg_tokens (l : list seg) (out : list Z) : die + list Z :=
  match l with
  | [] => inr out
  | SText t :: l' => out <== tokenize_span family v t out; seg_tokens l' out
  | SMark _ tok :: l' => seg_tokens l' (out ++ [tok])
  end.

Lemma special_scan_spec l p tok n : special_scan l p = Some (tok, n) ->
  exists text, (text, tok) ∈ l /\ 0 <= tok /\ starts_with text p = true /\ n = length text.
Proof.
  induction l as [|[text i] l IH]; cbn [special_scan]; [done|].
  destruct (Z.ltb_spec i 0).
  - intros (t & ? & ?)%IH. exists t. split; [by right | done].
  - case_if.
    + intros [= <- <-]. exists text. split_and!; [by left|done|done|done].
    + intros (t & ? & ?)%IH. exists t. split; [by right | done].
Qed.

Lemma specials_nonempty : forallb (fun e => (0 <? length e.1)%nat) (specials v) = true.
Proof. unfold specials. cbn [forallb fst length bs]. reflexivity. Qed.

Lemma special_token_at_spec p tok n : special_token_at v p = Some (tok, n) -> (0 < n <= length p)%nat.
Proof.
  unfold special_token_at. intros (text & Hin & _ & Hs & ->)%special_scan_spec.
  apply starts_with_length in Hs. split; [|done].
  pose proof specials_nonempty as H. rewrite forallb_forall in H.
  apply list_elem_of_In, H in Hin. by apply Nat.ltb_lt in Hin.
Qed.

Lemma slice_then_drop text a p : (a <= p)%nat -> slice text a p ++ drop p text = drop a text.
Proof.
  intros Hp. unfold slice. rewrite <- (take_drop (p - a) (drop a text)) at 2. f_equal.
  rewrite drop_drop. f_equal. lia.
Qed.

Lemma rendered_loop_split text fuel : forall span p out,
  (span <= p <= length text)%nat -> (length text - p < fuel)%nat ->
  (forall j, (span <= j < p)%nat -> special_token_at v (drop j text) = None) ->
  exists segs, segs_text segs = drop span text /\ leftmost_split segs /\
    rendered_loop family v fuel text span p out = seg_tokens segs out.
Proof.
  induction fuel as [|fuel IH]; intros span p out Hp Hf Hn; [lia|]. cbn [rendered_loop].
  assert (forall j rest, (j < length (slice text span p))%nat -> slice text span p ++ rest = drop span text ->
    special_token_at v (drop j (slice text span p ++ rest)) = None) as Htext.
  { intros j rest Hj ->. rewrite drop_drop. apply Hn. unfold slice in Hj.
    rewrite length_take, length_drop in Hj. lia. }
  destruct (Nat.leb_spec (length text) p).
  - assert (slice text span p ++ [] = drop span text) as Hs.
    { rewrite <- (slice_then_drop text span p) by lia. by rewrite (drop_ge text p). }
    exists [SText (slice text span p)]. split_and!; [done| |].
    + split; [|done]. intros j Hj. by apply Htext.
    + cbn [seg_tokens]. by destruct (tokenize_span _ _ _ _).
  - destruct (special_token_at v (drop p text)) as [[tok n]|] eqn:E.
    + pose proof (special_token_at_spec _ _ _ E) as Hn'. rewrite length_drop in Hn'.
      set (out1 := match tokenize_span family v (slice text span p) out with inr o => o | inl _ => out end).
      destruct (IH (p + n)%nat (p + n)%nat (out1 ++ [tok])) as (segs & Hsegs & Hl & Hr); [lia..|].
      assert (take n (drop p text) ++ segs_text segs = drop p text) as Hm.
      { rewrite Hsegs, <- drop_drop. apply take_drop. }
      assert (slice text span p ++ drop p text = drop span text) as Hsd by (apply slice_then_drop; lia).
      exists (SText (slice text span p) :: SMark (take n (drop p text)) tok :: segs).
      unfold segs_text. cbn [flat_map seg_text leftmost_split seg_tokens].
      fold (segs_text segs). unfold segs_text at 2. cbn [flat_map seg_text]. fold (segs_text segs).
      rewrite Hm. split_and!; [done|by intros j Hj; apply Htext| |done|].
      * rewrite E. do 2 f_equal. rewrite length_take, length_drop. lia.
      * unfold out1 in Hr. by destruct (tokenize_span family v (slice text span p) out).
    + apply IH; [lia..|]. intros j Hj. destruct (decide (j = p)) as [->|]; [done|]. apply Hn. lia.
Qed.
End Segments.

(** ** Markers of a prompt (DeepSeek) *)

(** The markers among the ids. *)
Definition marks (v : ds4_vocab) (toks : list Z) : list Z := filter (.∈ marker_ids v) toks.

(** The ids of the marker segments. *)
Definition seg_marks (l : list seg) : list Z :=
  omap (fun s => match s with SText _ => None | SMark _ tok => Some tok end) l.

(** The marker a message begins with. *)
Definition role_marker (v : ds4_vocab) (role : option bytes) : list Z :=
  let role := default (bs "user") role in
  if role_is role [bs "system"; bs "developer"] then []
  else if role_is role [bs "assistant"] then [assistant_id (ids v)]
  else [user_id (ids v)].

Section Markers.
Context (v : ds4_vocab) (Hv : vocab_ok v).

Lemma seg_tokens_total family segs : bytes_ok (segs_text segs) -> forall out, exists toks,
  seg_tokens family v segs out = inr (out ++ toks).
Proof.
  induction segs as [|[t|t tok] segs IH]; intros Hb out; cbn [seg_tokens].
  { exists []. by rewrite app_nil_r. }
  - apply Forall_app in Hb as [Ht Hs]. pose proof (unmarked_meaning family v Hv) as HM.
    destruct (tokenize_span_R family v (unmarked v) t out Ht) as (t1 & -> & _).
    cbn [dbind]. destruct (IH Hs (out ++ t1)) as (t2 & ->). exists (t1 ++ t2). by rewrite <- app_assoc.
  - apply Forall_app in Hb as [_ Hs]. destruct (IH Hs (out ++ [tok])) as (t2 & ->).
    exists (tok :: t2). by rewrite <- app_assoc.
Qed.

Context (Hids : deepseek_ids (token_to_id v) = inr (ids v)).

Lemma marks_app a b : marks v (a ++ b) = marks v a ++ marks v b.
Proof. apply filter_app. Qed.

Lemma marks_clean toks : Forall (clean_token v) toks -> marks v toks = [].
Proof.
  induction 1 as [|i toks Hi _ IH]; [done|]. unfold marks in *.
  rewrite filter_cons_False; [done|]. by apply deepseek_markers.
Qed.

Lemma marks_self i : i ∈ marker_ids v -> marks v [i] = [i].
Proof. intros Hi. unfold marks. by rewrite filter_cons_True. Qed.

(** Appending text adds no marker. *)
Lemma tokenize_marks family text out : bytes_ok text -> exists toks,
  tokenize family v text out = inr (out ++ toks) /\ marks v toks = [].
Proof.
  intros Ht. pose proof (unmarked_meaning family v Hv) as HM.
  destruct (tm_text (R := unmarked v) text out Ht) as (toks & E & H). exists toks.
  split; [done | by apply marks_clean].
Qed.

Lemma payload_marks family content end_ out : bytes_ok content -> exists toks,
  bpe_tokenize_wrapped_payload_text family v (Some content) end_ out = inr (out ++ toks) /\ marks v toks = [].
Proof.
  intros Hc. pose proof (unmarked_meaning family v Hv) as HM.
  destruct (payload_R family v (unmarked v) content end_ out Hc) as (toks & E & H). exists toks.
  split; [done | by apply marks_clean].
Qed.

Lemma lookup_clean text i : clean text -> vocab_lookup (token_to_id v) text = inr i -> clean_token v i.
Proof.
  intros Hc H. unfold vocab_lookup in H. apply dbind_inr in H as (r & Hr%or_spin_inr & H).
  destruct r as [k|]; [|done]. injection H as ->.
  destruct (token_get_clean v Hv text Hc) as (o & Ho & Hi). apply Hi. congruence.
Qed.

Lemma lookup_nonneg text i : vocab_lookup (token_to_id v) text = inr i -> 0 <= i.
Proof.
  intros H. unfold vocab_lookup in H. apply dbind_inr in H as (r & Hr%or_spin_inr & H).
  destruct r as [k|]; [|done]. injection H as ->.
  destruct (token_get v Hv text) as (o & Ho & Hi & _). apply Hi. congruence.
Qed.

(** The ids the DeepSeek branch finds are there, and the thinking tags are no markers. *)
Lemma deepseek_ids_found :
  0 <= bos_id (ids v) /\ 0 <= user_id (ids v) /\ 0 <= assistant_id (ids v) /\
  0 <= think_start_id (ids v) /\ 0 <= think_end_id (ids v) /\
  marks v [think_start_id (ids v)] = [] /\ marks v [think_end_id (ids v)] = [].
Proof.
  pose proof Hids as H. unfold deepseek_ids in H.
  apply dbind_inr in H as (b & Hb & H). apply dbind_inr in H as (e & He & H).
  apply dbind_inr in H as (u & Hu & H). apply dbind_inr in H as (a & Ha & H).
  apply dbind_inr in H as (ts & Hts & H). apply dbind_inr in H as (te & Hte & H).
  apply dbind_inr in H as (d & Hd & H). injection H as H. rewrite <- H. cbn [bos_id user_id assistant_id think_start_id think_end_id].
  split_and!; try (by eapply lookup_nonneg); apply marks_clean; constructor; try constructor;
    (eapply lookup_clean; [|done]); apply (bool_decide_unpack _); vm_compute; exact I.
Qed.

Lemma marker_in : bos_id (ids v) ∈ marker_ids v /\ user_id (ids v) ∈ marker_ids v /\
  assistant_id (ids v) ∈ marker_ids v.
Proof. unfold marker_ids. set_solver. Qed.

(** Encode the next text of the goal, recording that it adds no marker. *)
Ltac encode_text :=
  match goal with
  | |- context [tokenize ?f ?v ?text ?out] =>
      let t := fresh "t" in let H := fresh "Hm" in
      destruct (tokenize_marks f text out) as (t & -> & H);
        [first [assumption | apply bs_ok | (apply (bool_decide_unpack _); vm_compute; exact I)]|]
  end; cbn [dbind].

(** Collect the appended ids and count their markers. *)
Ltac count_marks :=
  rewrite <- ?app_assoc; eexists; split; [reflexivity|];
  rewrite ?marks_app, ?marks_self by (apply marker_in);
  repeat match goal with H : marks _ _ = [] |- _ => rewrite H; clear H end;
  rewrite ?app_nil_r.

Lemma append_message_marks role content out : bytes_ok (default [] content) -> exists toks,
  ds4_chat_append_message DS4_MODEL_FAMILY_DEEPSEEK4 v role content out = inr (out ++ toks) /\
  marks v toks = role_marker v role.
Proof.
  intros Hc. destruct deepseek_ids_found as (_ & _ & _ & _ & _ & _ & Hte).
  unfold ds4_chat_append_message, role_marker. cbn [is_glm].
  set (r := default (bs "user") role). set (c := default [] content) in *.
  destruct (role_is r [bs "system"; bs "developer"]); [by apply tokenize_marks|].
  destruct (role_is r [bs "assistant"]).
  { destruct (starts_thinking c); cbn [negb]; encode_text; by count_marks. }
  destruct (role_is r [bs "tool"; bs "function"]); [|encode_text; by count_marks].
  encode_text. unfold bpe_tokenize_tool_result_text.
  destruct (payload_marks DS4_MODEL_FAMILY_DEEPSEEK4 c (bs "</tool_result>")
    ((out ++ [user_id (ids v)]) ++ t) Hc) as (t1 & -> & Hm1). cbn [dbind].
  encode_text. by count_marks.
Qed.

Lemma append_messages_marks msgs : Forall (fun m => bytes_ok (default [] m.2)) msgs -> forall out,
  exists toks, append_messages DS4_MODEL_FAMILY_DEEPSEEK4 v msgs out = inr (out ++ toks) /\
    marks v toks = flat_map (fun m => role_marker v m.1) msgs.
Proof.
  induction 1 as [|[role content] msgs Hm _ IH]; intros out; cbn [append_messages].
  { exists []. by rewrite app_nil_r. }
  destruct (append_message_marks role content out Hm) as (t1 & -> & H1). cbn [dbind].
  destruct (IH (out ++ t1)) as (t2 & -> & H2). exists (t1 ++ t2). rewrite <- app_assoc.
  split; [done|]. cbn [flat_map fst]. by rewrite marks_app, H1, H2.
Qed.

Lemma conversation_marks msgs mode : Forall (fun m => bytes_ok (default [] m.2)) msgs ->
  exists toks, chat_conversation DS4_MODEL_FAMILY_DEEPSEEK4 v msgs mode = inr toks /\
    marks v toks = bos_id (ids v) :: flat_map (fun m => role_marker v m.1) msgs ++ [assistant_id (ids v)].
Proof.
  intros Hm. destruct deepseek_ids_found as (_ & _ & _ & _ & _ & Hts & Hte).
  unfold chat_conversation, chat_push_bos_sequence. cbn [is_glm andb app].
  destruct (append_messages_marks msgs Hm [bos_id (ids v)]) as (t1 & -> & H1). cbn [dbind].
  unfold ds4_chat_append_assistant_prefix. cbn [is_glm andb].
  destruct (ds4_think_mode_enabled mode); (eexists; split; [reflexivity|]);
    rewrite !marks_app, H1, !marks_self by apply marker_in; [rewrite Hts | rewrite Hte];
    by rewrite app_nil_r.
Qed.

Lemma encode_prompt_marks system prompt mode : bytes_ok (default [] system) -> bytes_ok prompt ->
  exists toks, encode_chat_prompt DS4_MODEL_FAMILY_DEEPSEEK4 v system prompt mode [] = inr toks /\
    marks v toks = [bos_id (ids v); user_id (ids v); assistant_id (ids v)].
Proof.
  intros Hs Hp. destruct deepseek_ids_found as (B & U & A & TS & TE & Hts & Hte).
  unfold encode_chat_prompt, chat_push_bos_sequence, chat_push_think_prefix. cbn [is_glm andb].
  rewrite (proj2 (Z.ltb_ge _ _) B), (proj2 (Z.ltb_ge _ _) U), (proj2 (Z.ltb_ge _ _) A),
    (proj2 (Z.ltb_ge _ _) TE), (proj2 (Z.ltb_ge _ _) TS), andb_false_r. cbn [orb app].
  assert (exists t1, (if decide (mode = DS4_THINK_MAX)
      then tokenize DS4_MODEL_FAMILY_DEEPSEEK4 v DS4_REASONING_EFFORT_MAX_PREFIX [bos_id (ids v)]
      else inr [bos_id (ids v)]) = inr ([bos_id (ids v)] ++ t1) /\ marks v t1 = []) as (t1 & -> & H1).
  { case_if; [encode_text; by eauto | by exists []]. }
  cbn [dbind].
  assert (exists t2, match system with
      | Some (c :: s) => tokenize DS4_MODEL_FAMILY_DEEPSEEK4 v (c :: s) ([bos_id (ids v)] ++ t1)
      | _ => inr ([bos_id (ids v)] ++ t1) end = inr (([bos_id (ids v)] ++ t1) ++ t2) /\ marks v t2 = [])
    as (t2 & -> & H2).
  { destruct system as [[|c s]|]; cbn in Hs; [|encode_text; by eauto|]; exists []; by rewrite app_nil_r. }
  cbn [dbind]. encode_text.
  destruct (ds4_think_mode_enabled mode); (eexists; split; [reflexivity|]);
    rewrite !marks_app, H1, H2, Hm, !marks_self by apply marker_in; [rewrite Hts | rewrite Hte];
    by rewrite ?app_nil_r.
Qed.
End Markers.

(** ** Properties *)

(** C39: The roles of a prompt are exactly what the caller asked for.  With the
    vocabulary of any DeepSeek model file that loads, encoding a prompt, or a
    conversation of messages, succeeds, and whatever the texts say the marker
    ids in the result are begin-of-sentence, then one user or assistant marker
    per message in order (none for system text, tool output under the user's),
    then the assistant marker that opens the reply. *)
Theorem chat_roles_exact (file : bytes) (k1 k2 : bool) (m : ds4_model) (v : ds4_vocab)
    (system : option bytes) (prompt : bytes) (msgs : list (option bytes * option bytes))
    (mode : ds4_think_mode)
    (Hb : bytes_ok file) (Hl : zlen file <= 2 ^ 63) (Ho : model_open (Some file) k1 k2 = inr m)
    (Hv : vocab_load DS4_MODEL_FAMILY_DEEPSEEK4 m = inr v)
    (Hs : bytes_ok (default [] system)) (Hp : bytes_ok prompt)
    (Hm : Forall (fun m => bytes_ok (default [] m.2)) msgs) :
  (exists toks, encode_chat_prompt DS4_MODEL_FAMILY_DEEPSEEK4 v system prompt mode [] = inr toks /\
     marks v toks = [bos_id (ids v); user_id (ids v); assistant_id (ids v)]) /\
  (exists toks, chat_conversation DS4_MODEL_FAMILY_DEEPSEEK4 v msgs mode = inr toks /\
     marks v toks = bos_id (ids v) :: flat_map (fun m => role_marker v m.1) msgs ++ [assistant_id (ids v)]).
Proof.
  pose proof (vocab_load_ok _ _ _ (model_open_ok _ _ _ _ Hb Hl Ho) Hv) as Hok.
  pose proof (vocab_load_ids _ _ Hv) as Hids. split.
  - by apply encode_prompt_marks.
  - by apply conversation_marks.
Qed.

(** Tool output cannot close its wrapper.  With a complete vocabulary,
    encoding any tool output succeeds; the texts of its ids spell the escaped
    output, which does not contain the closing tag and unescapes to the output. *)
Theorem tool_payload_contained (family : model_family) (v : ds4_vocab) (content end_ : bytes) (out : list Z)
    (Hv : vocab_ok v) (Hc : complete_vocab v = true) (Ht : bytes_ok content) (He : closing_tag end_) :
  exists toks, bpe_tokenize_wrapped_payload_text family v (Some content) end_ out = inr (out ++ toks) /\
    let text := concat (map (ds4_token_text v) toks) in
    strstr end_ text = None /\ ds4_tool_text_unescape text end_ = content.
Proof.
  pose proof (spells_meaning family v Hv Hc) as HM.
  destruct (payload_R family v (spells v) content end_ out Ht) as (toks & E & H).
  exists toks. split; [done|]. cbv zeta. unfold spells in H. rewrite H.
  destruct He as (mid & -> & Hmid). pose proof (plain_gt mid Hmid) as Htl. split.
  - by apply (escape_no_end _ Htl).
  - rewrite unescape_unesc. by apply (escape_roundtrip _ Htl).
Qed.

(** A rendered transcript is cut at the leftmost occurrences of the marker
    texts.  Encoding it succeeds and gives the ids of the segments in order: the
    id for a marker, the encoding of the text alone for the text between
    markers; the segments put together are the transcript, and no marker starts
    inside a text segment. *)
Theorem rendered_chat_segments (family : model_family) (v : ds4_vocab) (text : bytes) (out : list Z)
    (Hv : vocab_ok v) (Ht : bytes_ok text) :
  exists segs toks, segs_text segs = text /\ leftmost_split v segs /\
    seg_tokens family v segs out = inr (out ++ toks) /\
    tokenize_rendered_chat_vocab family v (Some text) out = inr (out ++ toks).
Proof.
  unfold tokenize_rendered_chat_vocab. cbv zeta. change (default [] (Some text)) with text.
  destruct (rendered_loop_split family v text (S (length text)) 0 0 out) as (segs & Hs & Hl & Hr); [lia..|].
  destruct (seg_tokens_total v Hv family segs) with (out := out) as (toks & E).
  { rewrite Hs. by apply Forall_drop. }
  exists segs, toks. by rewrite Hs, drop_0, Hr, E.
Qed.

Lemma chat_roles_exact_witness :
  exists v, BpeExample.vocab = inr v /\
    (exists toks, encode_chat_prompt DS4_MODEL_FAMILY_DEEPSEEK4 v (Some (bs "be brief")) (bs "<｜User｜>hi")
        DS4_THINK_HIGH [] = inr toks /\
      marks v toks = [bos_id (ids v); user_id (ids v); assistant_id (ids v)]).
Proof.
  destruct example_vocab as (m & v & Hm & Hv & Hb & Hl & _ & _ & Ev).
  destruct (chat_roles_exact BpeExample.file true true m v (Some (bs "be brief")) (bs "<｜User｜>hi")
    [(Some (bs "tool"), Some (bs "<｜Assistant｜>"))] DS4_THINK_HIGH Hb Hl Hm Hv (bs_ok _) (bs_ok _))
    as [H1 _].
  - apply Forall_singleton, bs_ok.
  - exists v. split; [exact Ev | exact H1].
Defined.

Lemma tool_payload_contained_witness :
  exists v toks, BpeExample.vocab = inr v /\
    bpe_tokenize_wrapped_payload_text DS4_MODEL_FAMILY_DEEPSEEK4 v (Some (bs "a</tool_result>b"))
      (bs "</tool_result>") [] = inr toks /\
    strstr (bs "</tool_result>") (concat (map (ds4_token_text v) toks)) = None.
Proof.
  destruct example_vocab as (m & v & _ & _ & _ & _ & Hok & Hc & Ev).
  destruct (tool_payload_contained DS4_MODEL_FAMILY_DEEPSEEK4 v (bs "a</tool_result>b") (bs "</tool_result>") []
    Hok Hc (bs_ok _)) as (toks & H1 & H2 & _).
  - exists (bs "/tool_result"). split; [reflexivity|]. apply (bool_decide_unpack _). vm_compute. exact I.
  - exists v, toks. split; [exact Ev|]. split; [exact H1 | exact H2].
Defined.

Lemma rendered_chat_segments_witness :
  exists v segs toks, BpeExample.vocab = inr v /\
    segs_text segs = bs "<｜User｜>hi<｜Assistant｜></think>" /\ leftmost_split v segs /\
    tokenize_rendered_chat_vocab DS4_MODEL_FAMILY_DEEPSEEK4 v
      (Some (bs "<｜User｜>hi<｜Assistant｜></think>")) [] = inr toks.
Proof.
  destruct example_vocab as (m & v & _ & _ & _ & _ & Hok & _ & Ev).
  destruct (rendered_chat_segments DS4_MODEL_FAMILY_DEEPSEEK4 v (bs "<｜User｜>hi<｜Assistant｜></think>") []
    Hok (bs_ok _)) as (segs & toks & H1 & H2 & _ & H4).
  exists v, segs, toks. split; [exact Ev|]. split; [exact H1|]. split; [exact H2 | exact H4].
Defined.
