(* ===== verification/Sampling.v ===== *)
(** * Choosing the next token (ds4.c): the argmax family

    Logits are binary32 values of [SpecFloat], compared as C compares them (a
    comparison with NaN is false).  The argmax of the sampler works in eight
    lanes that are merged; the plain loop is kept in the code as its reference
    and selected by an environment variable.  The theorem says that the two
    always agree, on NaN and infinities too, and what the answer is. *)

From Stdlib Require Import Floats.SpecFloat.
From S2P Require Import Prelude Float64.
#[local] Open Scope Z_scope.

(** ** Definitions *)

(** [-1.0e30f]. *)
Definition DS4_NEG_INF : spec_float := SFopp (F32.of_Z (10 ^ 30)).

(** [a > b]. *)
Definition fgt (a b : spec_float) : bool := SFltb b a.

Definition logit (logits : list spec_float) (i : nat) : spec_float := nth i logits S754_nan.

(** A best index and its value. *)
Abbreviation best := (nat * spec_float)%type.

(** [if (x > v) { v = x; b = i; }] *)
Definition take_better (logits : list spec_float) (i : nat) (bv : best) : best :=
  if fgt (logit logits i) (snd bv) then (i, logit logits i) else bv.

(** [for (; i < end; i++)]: the plain scan of [i .. i + n). *)
Fixpoint plain_scan (n : nat) (logits : list spec_float) (i : nat) (bv : best) : best :=
  match n with
  | O => bv
  | S n' => plain_scan n' logits (S i) (take_better logits i bv)
  end.

(** Lane [j] looks at element [i + j]. *)
Definition lanes_step (logits : list spec_float) (i : nat) (lanes : list best) : list best :=
  imap (fun j bv => take_better logits (i + j) bv) lanes.

(** [while (end - i >= 8u)]; the fuel is a bound on the rounds. *)
Fixpoint lanes_loop (fuel : nat) (logits : list spec_float) (i end_ : nat) (lanes : list best)
  : nat * list best :=
  match fuel with
  | O => (i, lanes)
  | S fuel' =>
      if (8 <=? end_ - i)%nat then lanes_loop fuel' logits (i + 8) end_ (lanes_step logits i lanes)
      else (i, lanes)
  end.

(** [DS4_ARGMAX_MERGE_LANE]. *)
Definition merge_lane (acc lane : best) : best :=
  if fgt (snd lane) (snd acc) || (SFeqb (snd lane) (snd acc) && (fst lane <? fst acc)%nat)
  then lane else acc.

Definition argmax_f32_unrolled8_range (logits : list spec_float) (begin end_ : nat) (bv : best) : best :=
  let '(i, lanes) := lanes_loop (end_ - begin) logits begin end_ (replicate 8 bv) in
  plain_scan (end_ - i) logits i (foldl merge_lane bv lanes).

Definition sample_argmax_unrolled8 (logits : list spec_float) : nat :=
  fst (argmax_f32_unrolled8_range logits 0 (length logits) (0%nat, DS4_NEG_INF)).

(** [-1] is [None]; an id that is negative excludes nothing. *)
Definition argmax_f32_excluding_unrolled8 (logits : list spec_float) (excluded_id : Z) : option nat :=
  let n := length logits in
  let first := if excluded_id =? 0 then 1%nat else 0%nat in
  if (n <=? first)%nat then None
  else
    let bv := (first, logit logits first) in
    let begin := (first + 1)%nat in
    Some (fst
      (if (0 <=? excluded_id) && (Z.of_nat begin <=? excluded_id) && (excluded_id <? Z.of_nat n)
       then
         let excluded := Z.to_nat excluded_id in
         argmax_f32_unrolled8_range logits (excluded + 1) n
           (argmax_f32_unrolled8_range logits begin excluded bv)
       else argmax_f32_unrolled8_range logits begin n bv)).

(** [disable_unrolled]: DS4_CPU_DISABLE_UNROLLED_ARGMAX is set. *)
Definition sample_argmax (disable_unrolled : bool) (logits : list spec_float) : nat :=
  if negb disable_unrolled then sample_argmax_unrolled8 logits
  else fst (plain_scan (length logits) logits 0 (0%nat, DS4_NEG_INF)).

(** The two best entries; an index of [-1] is [None]. *)
Fixpoint top2_scan (n : nat) (logits : list spec_float) (i : nat)
    (b0 b1 : option nat * spec_float) : (option nat * spec_float) * (option nat * spec_float) :=
  match n with
  | O => (b0, b1)
  | S n' =>
      let v := logit logits i in
      if fgt v (snd b0) then top2_scan n' logits (S i) (Some i, v) b0
      else if fgt v (snd b1) then top2_scan n' logits (S i) b0 (Some i, v)
      else top2_scan n' logits (S i) b0 b1
  end.

Definition logits_top2 (logits : list spec_float)
  : (option nat * spec_float) * (option nat * spec_float) :=
  top2_scan (length logits) logits 0 (None, DS4_NEG_INF) (None, DS4_NEG_INF).

(** ** What a scan has found *)

(** [bv] is the best of the elements in [P], starting from [bv0]: nothing in
    [P] is greater, and unless it is still [bv0] it is the first of the
    elements of [P] that are as great. *)
Record best_of (logits : list spec_float) (P : nat -> Prop) (bv0 bv : best) : Prop := {
  bo_from : bv = bv0 \/ (P (fst bv) /\ snd bv = logit logits (fst bv) /\ SFltb (snd bv0) (snd bv) = true);
  bo_max : forall i, P i -> SFltb (snd bv) (logit logits i) = false;
  bo_first : bv <> bv0 -> forall i, P i -> SFeqb (logit logits i) (snd bv) = true -> (fst bv <= i)%nat
}.

Section Best.
Context (logits : list spec_float) (bv0 : best).

(** Only one entry is the best. *)
Lemma best_of_unique P bv bv' : best_of logits P bv0 bv -> best_of logits P bv0 bv' -> bv = bv'.
Proof.
  intros [F M1 T] [F' M1' T'].
  destruct F as [->|(HP & Hv & Hlt)], F' as [->|(HP' & Hv' & Hlt')]; [done|..].
  - rewrite Hv' in Hlt'. by rewrite M1 in Hlt'.
  - rewrite Hv in Hlt. by rewrite M1' in Hlt.
  - assert (SFeqb (snd bv) (snd bv') = true) as He.
    { pose proof (M1' _ HP) as H1. pose proof (M1 _ HP') as H2. rewrite <- Hv in H1. rewrite <- Hv' in H2.
      destruct (SFltb_total (snd bv) (snd bv')) as [H|[H|H]]; [by apply SFltb_key in Hlt as [_ ?]|
        by apply SFltb_key in Hlt' as [_ ?]|congruence|done|congruence]. }
    assert (Hne : forall b, SFltb (snd bv0) (snd b) = true -> b <> bv0).
    { intros b Hb ->. by rewrite SFltb_irrefl in Hb. }
    assert (fst bv = fst bv') as Hi.
    { apply Nat.le_antisymm; [apply T|apply T']; auto.
      - by rewrite <- Hv', SFeqb_sym.
      - by rewrite <- Hv. }
    destruct bv, bv'. cbn in *. congruence.
Qed.

Lemma best_of_ext P Q bv : (forall i, P i <-> Q i) -> best_of logits P bv0 bv -> best_of logits Q bv0 bv.
Proof.
  intros HPQ [F M1 T]. split.
  - destruct F as [->|(? & ? & ?)]; [by left | right]. split; [by apply HPQ | done].
  - intros i ?. by apply M1, HPQ.
  - intros ? i ?. by apply T, HPQ.
Qed.

Lemma best_of_none : best_of logits (fun _ => False) bv0 bv0.
Proof. by split; [left|..]. Qed.

(** One more element, after all the others. *)
Lemma best_of_step P bv k : (forall i, P i -> (i < k)%nat) -> best_of logits P bv0 bv ->
  best_of logits (fun i => P i \/ i = k) bv0 (take_better logits k bv).
Proof.
  intros Hk [F M1 T]. unfold take_better, fgt. destruct (SFltb (snd bv) (logit logits k)) eqn:E.
  - split; cbn [fst snd].
    + right. split_and!; [by right | done |].
      destruct F as [->|(_ & _ & Hlt)]; [done | by eapply SFltb_trans].
    + intros i [Hi|Hi]; [|rewrite Hi; apply SFltb_irrefl]. apply not_true_is_false. intros H.
      pose proof (SFltb_trans _ _ _ E H). by rewrite (M1 i Hi) in *.
    + intros _ i [Hi|Hi] He; [|lia]. exfalso.
      rewrite <- (SFeqb_ltb_r _ _ _ He) in E. by rewrite (M1 i Hi) in E.
  - split.
    + destruct F as [->|(? & ? & ?)]; [by left | right]. split_and!; [by left | done..].
    + intros i [Hi|Hi]; [by apply M1 | by rewrite Hi].
    + intros Hne i [Hi|Hi] He; [by apply T|]. subst i.
      destruct F as [F|(HP & _)]; [done|]. apply Hk in HP. lia.
Qed.

(** Merging a lane. *)
Lemma best_of_merge P Q a b : best_of logits P bv0 a -> best_of logits Q bv0 b ->
  best_of logits (fun i => P i \/ Q i) bv0 (merge_lane a b).
Proof.
  intros [Fa Ma Ta] [Fb Mb Tb]. unfold merge_lane, fgt.
  destruct (SFltb (snd a) (snd b) || (SFeqb (snd b) (snd a) && (fst b <? fst a)%nat)) eqn:E.
  - assert (HPmax : forall i, P i -> SFltb (snd b) (logit logits i) = false).
    { intros i Hi. apply not_true_is_false. intros H. pose proof (Ma i Hi) as Hm.
      apply orb_true_iff in E as [E|[E _]%andb_true_iff].
      - by rewrite (SFltb_trans _ _ _ E H) in Hm.
      - by rewrite <- (SFeqb_ltb_l _ _ _ E), H in Hm. }
    split.
    + destruct Fb as [->|(? & ? & ?)]; [by left | right]. split_and!; [by right | done..].
    + intros i [Hi|Hi]; auto.
    + intros Hne i [Hi|Hi] He; [|by apply Tb]. pose proof (Ma i Hi) as Hm.
      apply orb_true_iff in E as [E|[E Hlt]%andb_true_iff].
      { by rewrite (SFeqb_ltb_r _ _ _ He), E in Hm. }
      apply Nat.ltb_lt in Hlt. destruct Fa as [->|(_ & _ & Hlt')].
      { destruct Fb as [->|(_ & _ & Hb)]; [done|].
        by rewrite (SFeqb_ltb_r _ _ _ E), SFltb_irrefl in Hb. }
      assert (Ha : a <> bv0) by (intros ->; by rewrite SFltb_irrefl in Hlt').
      pose proof (Ta Ha i Hi (SFeqb_trans _ _ _ He E)). lia.
  - apply orb_false_iff in E as [E1 E2]. split.
    + destruct Fa as [->|(? & ? & ?)]; [by left | right]. split_and!; [by left | done..].
    + intros i [Hi|Hi]; [by apply Ma|]. apply not_true_is_false. intros H. pose proof (Mb i Hi) as Hm.
      destruct Fb as [->|(_ & _ & Hb)].
      { destruct Fa as [->|(_ & _ & Ha)]; [congruence|].
        by rewrite (SFltb_trans _ _ _ Ha H) in Hm. }
      apply SFltb_key in Hb as [_ Hb]. apply SFltb_key in H as Hk. destruct Hk as [_ Hk].
      destruct (SFltb_total _ _ Hb Hk) as [H1|[H1|H1]]; [congruence| |].
      * by rewrite (SFeqb_ltb_r _ _ _ H1), H in E1.
      * by rewrite (SFltb_trans _ _ _ H H1) in E1.
    + intros Hne i [Hi|Hi] He; [by apply Ta|]. pose proof (Mb i Hi) as Hm.
      destruct Fa as [Fa|(_ & _ & Ha)]; [done|].
      destruct Fb as [->|(_ & _ & Hb)].
      { by rewrite (SFeqb_ltb_r _ _ _ He), Ha in Hm. }
      assert (Hbne : b <> bv0) by (intros ->; by rewrite SFltb_irrefl in Hb).
      apply SFltb_key in Ha as [_ Ha]. apply SFltb_key in Hb as [_ Hb].
      destruct (SFltb_total _ _ Ha Hb) as [H1|[H1|H1]]; [congruence| |].
      * rewrite SFeqb_sym, H1 in E2. cbn [andb] in E2. apply Nat.ltb_ge in E2.
        pose proof (Tb Hbne i Hi (SFeqb_trans _ _ _ He H1)). lia.
      * by rewrite (SFeqb_ltb_r _ _ _ He), H1 in Hm.
Qed.

(** The plain scan finds the best. *)
Lemma plain_scan_best n : forall P k bv, (forall i, P i -> (i < k)%nat) -> best_of logits P bv0 bv ->
  best_of logits (fun i => P i \/ (k <= i < k + n)%nat) bv0 (plain_scan n logits k bv).
Proof.
  induction n as [|n IH]; intros P k bv Hk Hb; cbn [plain_scan].
  - eapply best_of_ext; [|done]. intros i. cbn. split; [by left | intros [?|?]; [done | lia]].
  - eapply best_of_ext; [|apply (IH (fun i => P i \/ i = k)); [|by apply best_of_step]].
    + intros i. cbn. split; [intros [[?|?]|?]; [by left|right; lia|right; lia]|].
      intros [?|?]; [by left; left|]. destruct (decide (i = k)); [left; by right | right; lia].
    + intros i [Hi| ->]; [specialize (Hk i Hi); lia | lia].
Qed.
End Best.

(** ** Lanes *)

(** Lane [j] has seen the elements [begin + j + 8 k] below [i]. *)
Definition lane_set (begin i j : nat) : nat -> Prop :=
  fun x => (begin <= x < i)%nat /\ ((x - begin) mod 8 = j)%nat.

Section Lanes.
Context (logits : list spec_float) (bv0 : best) (begin end_ : nat).

Definition lanes_ok (i : nat) (lanes : list best) : Prop :=
  length lanes = 8%nat /\
  forall j bv, lanes !! j = Some bv -> best_of logits (lane_set begin i j) bv0 bv.

Lemma lanes_step_ok k lanes : lanes_ok (begin + 8 * k) lanes ->
  lanes_ok (begin + 8 * S k) (lanes_step logits (begin + 8 * k) lanes).
Proof.
  intros [Hl Hb]. unfold lanes_step. split; [by rewrite length_imap|].
  intros j bv. rewrite list_lookup_imap. intros (bv1 & H1 & ->)%fmap_Some.
  apply lookup_lt_Some in H1 as Hj. rewrite Hl in Hj. pose proof (Hb _ _ H1) as Hb1. cbn beta.
  apply (best_of_ext _ _ (fun x => lane_set begin (begin + 8 * k) j x \/ x = (begin + 8 * k + j)%nat));
    [|apply best_of_step; [|done]].
  - intros x. unfold lane_set. split.
    + intros [[Hx Hm]| ->]; [split; [lia | done]|]. split; [lia|].
      replace (begin + 8 * k + j - begin)%nat with (j + k * 8)%nat by lia.
      rewrite Nat.Div0.mod_add. by apply Nat.mod_small.
    + intros [Hx Hm]. destruct (decide (x < begin + 8 * k)%nat) as [Hlt|Hge]; [left; split; [lia | done]|].
      right. assert (x - begin = (x - begin - 8 * k) + k * 8)%nat as E by lia.
      rewrite E, Nat.Div0.mod_add, Nat.mod_small in Hm by lia. lia.
  - intros x [Hx _]. lia.
Qed.

Lemma lanes_loop_ok fuel : forall k lanes i lanes', (begin <= end_)%nat ->
  (begin + 8 * k <= end_)%nat -> (end_ - (begin + 8 * k) <= fuel)%nat ->
  lanes_ok (begin + 8 * k) lanes ->
  lanes_loop fuel logits (begin + 8 * k) end_ lanes = (i, lanes') ->
  (begin <= i <= end_)%nat /\ lanes_ok i lanes'.
Proof.
  induction fuel as [|fuel IH]; intros k lanes i lanes' Hbe Hk Hf Hok; cbn [lanes_loop].
  { intros [= <- <-]. split; [lia | done]. }
  destruct (Nat.leb_spec 8 (end_ - (begin + 8 * k))); [|intros [= <- <-]; split; [lia | done]].
  replace (begin + 8 * k + 8)%nat with (begin + 8 * S k)%nat by lia.
  apply IH; [done|lia|lia|by apply lanes_step_ok].
Qed.

(** Merging the lanes collects what they have seen. *)
Lemma merge_lanes_best lanes : forall (P : nat -> Prop) (Q : nat -> nat -> Prop) acc,
  best_of logits P bv0 acc ->
  (forall j bv, lanes !! j = Some bv -> best_of logits (Q j) bv0 bv) ->
  best_of logits (fun i => P i \/ exists j, (j < length lanes)%nat /\ Q j i) bv0 (foldl merge_lane acc lanes).
Proof.
  induction lanes as [|b lanes IH]; intros P Q acc Ha Hl; cbn [foldl].
  - eapply best_of_ext; [|done]. intros i. cbn. split; [by left | intros [?|(j & ? & _)]; [done | lia]].
  - eapply best_of_ext; [|apply (IH (fun i => P i \/ Q 0%nat i) (fun j => Q (S j)))].
    + intros i. cbn [length]. split.
      * intros [[?|?]|(j & ? & ?)]; [by left|right; exists 0%nat; split; [lia | done]|].
        right. exists (S j). split; [lia | done].
      * intros [?|([|j] & ? & ?)]; [by left; left|left; by right|].
        right. exists j. split; [lia | done].
    + apply best_of_merge; [done | by apply Hl].
    + intros j bv Hj. by apply (Hl (S j)).
Qed.

(** The unrolled range computes the best of the range. *)
Lemma argmax_range_best : (begin <= end_)%nat ->
  best_of logits (fun i => (begin <= i < end_)%nat) bv0
    (argmax_f32_unrolled8_range logits begin end_ bv0).
Proof.
  intros Hbe. unfold argmax_f32_unrolled8_range.
  destruct (lanes_loop _ _ _ _ _) as [i lanes] eqn:E.
  replace begin with (begin + 8 * 0)%nat in E by lia.
  apply lanes_loop_ok in E as [Hi [Hl Hb]]; [|lia|lia|lia|].
  - eapply best_of_ext; [|apply (plain_scan_best logits bv0 (end_ - i) (fun x => (begin <= x < i)%nat));
      [intros x ?; lia|]].
    + intros x. cbn. lia.
    + eapply best_of_ext; [|apply (merge_lanes_best lanes (fun _ => False) (lane_set begin i)); [|done]].
      * intros x. rewrite Hl. split; [intros [[]|(j & _ & [? _])]; done|].
        intros Hx. right. exists ((x - begin) mod 8)%nat. split; [|done]. apply Nat.mod_upper_bound. lia.
      * apply best_of_none.
  - split; [done|]. intros j bv [-> _]%lookup_replicate.
    eapply best_of_ext; [|apply best_of_none]. intros x. unfold lane_set. split; [done | lia].
Qed.
End Lanes.

(** ** Two ranges, and the argmax that leaves one token out *)
Section Excluding.
Context (logits : list spec_float).

(** A scan that goes on from an earlier one. *)
Lemma best_of_compose P Q bv0 bv1 bv2 : (forall i j, P i -> Q j -> (i < j)%nat) ->
  best_of logits P bv0 bv1 -> best_of logits Q bv1 bv2 ->
  best_of logits (fun i => P i \/ Q i) bv0 bv2.
Proof.
  intros HPQ [F1 M1 T1] [F2 M2 T2]. destruct F2 as [->|(HQ & Hv & Hlt)].
  - split.
    + destruct F1 as [->|(? & ? & ?)]; [by left | right]. split_and!; [by left | done..].
    + intros i [Hi|Hi]; auto.
    + intros Hne i [Hi|Hi] He; [by apply T1|]. destruct F1 as [F1|(HP & _)]; [done|].
      pose proof (HPQ _ _ HP Hi). lia.
  - split.
    + right. split_and!; [by right | done |].
      destruct F1 as [->|(_ & _ & H1)]; [done | by eapply SFltb_trans].
    + intros i [Hi|Hi]; [|by apply M2]. apply not_true_is_false. intros H.
      pose proof (M1 i Hi) as Hm. by rewrite (SFltb_trans _ _ _ Hlt H) in Hm.
    + intros _ i [Hi|Hi] He.
      * exfalso. pose proof (M1 i Hi) as Hm. by rewrite (SFeqb_ltb_r _ _ _ He), Hlt in Hm.
      * apply T2; [|done..]. intros ->. by rewrite SFltb_irrefl in Hlt.
Qed.

(** The result is another token, and no other token has a greater logit. *)
Lemma argmax_excluding_spec excluded : (forall i, excluded = Z.of_nat i -> (1 < length logits)%nat) ->
  (0 < length logits)%nat ->
  exists r, argmax_f32_excluding_unrolled8 logits excluded = Some r /\ (r < length logits)%nat /\
    Z.of_nat r <> excluded /\
    forall i, (i < length logits)%nat -> Z.of_nat i <> excluded -> SFltb (logit logits r) (logit logits i) = false.
Proof.
  intros H1 Hn. unfold argmax_f32_excluding_unrolled8.
  set (first := if excluded =? 0 then 1%nat else 0%nat).
  assert (Hfirst : (first < length logits)%nat /\ Z.of_nat first <> excluded /\
    forall i, (i < first)%nat -> Z.of_nat i = excluded).
  { subst first. destruct (Z.eqb_spec excluded 0) as [->|]; [|split_and!; lia].
    split_and!; [by apply (H1 0%nat) | lia..]. }
  clearbody first. destruct Hfirst as (Hf & Hfe & Hlow).
  destruct (Nat.leb_spec (length logits) first); [lia|]. cbv zeta.
  set (bv0 := (first, logit logits first)).
  set (bv := if _ && _ && _ then _ else _).
  assert (Hb : best_of logits (fun i => (first + 1 <= i < length logits)%nat /\ Z.of_nat i <> excluded) bv0 bv).
  { subst bv. case_if; bool_prop.
    - set (e := Z.to_nat excluded) in *. assert (He : Z.of_nat e = excluded) by (subst e; lia). clearbody e.
      eapply best_of_ext; [|eapply (best_of_compose _ _ _ (argmax_f32_unrolled8_range logits (first + 1) e bv0));
          [|apply argmax_range_best; lia|apply argmax_range_best; lia]].
      + intros i. cbn. lia.
      + intros i j. cbn. lia.
    - eapply best_of_ext; [|apply argmax_range_best; lia]. intros i. cbn.
      split; [|tauto]. intros Hi. split; [done|]. intros <-.
      destruct E as [E|E]; bool_prop; [destruct E as [E|E]; bool_prop|]; lia. }
  clearbody bv. destruct Hb as [F M1 _]. exists (fst bv).
  assert (Hv : snd bv = logit logits (fst bv)) by (destruct F as [->|(_ & ? & _)]; done).
  split; [done|]. rewrite <- Hv. split_and!.
  - destruct F as [->|([? _] & _)]; cbn; lia.
  - destruct F as [->|([_ ?] & _)]; done.
  - intros i Hi He. destruct (decide (first + 1 <= i)%nat); [by apply M1|].
    destruct (decide (i = first)) as [->|]; [|exfalso; apply He, Hlow; lia].
    destruct F as [->|(_ & _ & Hlt)]; [apply SFltb_irrefl | by apply SFltb_asym].
Qed.
End Excluding.

(** ** Properties *)

(** The unrolled argmax is the plain one: whatever the logits, NaN and
    infinities included, both variants return the same token, which is the
    first of the greatest logits, or token 0 when no logit exceeds -1e30. *)
Theorem argmax_unrolled_is_plain (logits : list spec_float) (disable : bool) :
  sample_argmax disable logits = sample_argmax true logits /\
  let r := sample_argmax disable logits in
  (forall i, SFltb DS4_NEG_INF (logit logits i) = true -> (i < length logits)%nat ->
    (r < length logits)%nat /\ SFltb (logit logits r) (logit logits i) = false /\
    (SFeqb (logit logits i) (logit logits r) = true -> (r <= i)%nat)) /\
  ((forall i, (i < length logits)%nat -> SFltb DS4_NEG_INF (logit logits i) = false) -> r = 0%nat).
Proof.
  set (bv0 := (0%nat, DS4_NEG_INF)).
  assert (Hp : best_of logits (fun i => (0 <= i < length logits)%nat) bv0
    (plain_scan (length logits) logits 0 bv0)).
  { eapply best_of_ext; [|apply (plain_scan_best logits bv0 (length logits) (fun _ => False)); [done|apply best_of_none]].
    intros i. cbn. split; [intros [[]|?]; lia | intros ?; right; lia]. }
  pose proof (argmax_range_best logits bv0 0 (length logits) (Nat.le_0_l _)) as Hu.
  assert (Heq : sample_argmax disable logits = fst (plain_scan (length logits) logits 0 bv0)).
  { destruct disable; [done|]. unfold sample_argmax, sample_argmax_unrolled8. cbn [negb].
    f_equal. by apply (best_of_unique logits bv0 (fun i => (0 <= i < length logits)%nat)). }
  split; [by rewrite Heq|]. cbv zeta. rewrite Heq. clear Hu Heq.
  destruct Hp as [F M1 T]. set (bv := plain_scan (length logits) logits 0 bv0) in *. split.
  - intros i Hi Hlt. destruct F as [F|(HP & Hv & _)].
    { exfalso. specialize (M1 i ltac:(lia)). rewrite F in M1.
      change (snd bv0) with DS4_NEG_INF in M1. congruence. }
    split; [lia|]. rewrite <- Hv. split; [apply M1; lia|]. intros He. apply T; [|lia|done].
    intros Hb. specialize (M1 i ltac:(lia)). rewrite Hb in M1.
    change (snd bv0) with DS4_NEG_INF in M1. congruence.
  - intros Hn. destruct F as [->|(HP & Hv & Hlt)]; [done|]. rewrite Hv in Hlt.
    cbn [snd bv0] in Hlt. by rewrite Hn in Hlt by lia.
Qed.

Lemma argmax_unrolled_is_plain_witness :
  let logits := [F32.of_Z 1; F32.of_Z 3; S754_nan; F32.of_Z 2; F32.of_Z 3; S754_infinity true;
                 F32.of_Z 0; F32.of_Z 3; F32.of_Z (-4); F32.of_Z 3] in
  sample_argmax false logits = 1%nat /\ SFltb (logit logits 1) (logit logits 4) = false.
Proof.
  intros logits. split; [reflexivity|].
  destruct (argmax_unrolled_is_plain logits false) as [_ [H _]].
  destruct (H 4%nat) as (_ & Hm & _); [reflexivity | vm_compute; lia |].
  change 1%nat with (sample_argmax false logits) at 1. exact Hm.
Defined.
