(* ===== verification/Sampler.v ===== *)
(** * Sampling with a temperature (ds4.c)

    Candidates, the bounded min-heap of the best of them, the probabilities
    under temperature, top-k, top-p and min-p, and the random draws.  Floats are
    binary32; [expf] and its relatives are arguments.  The heap and the
    insertion scan both keep exactly the first candidates of the full sort, and
    the shortcuts that avoid the full sort do not change the distribution. *)

From Stdlib Require Import Floats.SpecFloat.
From stdpp Require Import sorting.
From S2P Require Import Prelude Float64 Sampling.
#[local] Open Scope Z_scope.

(** ** The random numbers *)

Definition RNG_SEED : Z := 0x9e3779b97f4a7c15.

(** The state after the call and the number. *)
Definition sample_rng_next (state : Z) : Z * Z :=
  let x := if state =? 0 then RNG_SEED else state in
  let x := Z.lxor x (Z.shiftr x 12) in
  let x := Z.lxor x (u64 (Z.shiftl x 25)) in
  let x := Z.lxor x (Z.shiftr x 27) in
  (x, u64 (x * 0x2545f4914f6cdd1d)).

Definition sample_rng_f32 (state : Z) : Z * spec_float :=
  let '(state', x) := sample_rng_next state in
  (state', F32.div (F32.of_Z (Z.land (Z.shiftr x 40) 0xffffff)) (F32.of_Z 16777216)).

(** ** Candidates *)

Record sample_candidate := Cand { c_id : nat; c_logit : spec_float; c_prob : spec_float }.

#[export] Instance sample_candidate_inhabited : Inhabited sample_candidate :=
  populate (Cand 0 S754_nan S754_nan).

#[export] Instance spec_float_inhabited : Inhabited spec_float := populate S754_nan.

(** Below zero when [a] comes first. *)
Definition sample_candidate_cmp_desc (a b : sample_candidate) : Z :=
  let logit_order := Z.b2z (fgt (c_logit b) (c_logit a)) - Z.b2z (SFltb (c_logit b) (c_logit a)) in
  if logit_order =? 0
  then Z.b2z (c_id b <? c_id a)%nat - Z.b2z (c_id a <? c_id b)%nat
  else logit_order.

Definition sample_candidate_gt (a b : sample_candidate) : bool :=
  if negb (SFeqb (c_logit a) (c_logit b)) then fgt (c_logit a) (c_logit b)
  else (c_id a <? c_id b)%nat.

(** [qsort(l, |l|, sizeof l[0], sample_candidate_cmp_desc)]; the order is total,
    so there is one sorted arrangement. *)
Definition cmp_le (a b : sample_candidate) : Prop := sample_candidate_cmp_desc a b <= 0.

#[export] Instance cmp_le_dec a b : Decision (cmp_le a b).
Proof. unfold cmp_le. apply _. Defined.

Definition qsort_candidates (l : list sample_candidate) : list sample_candidate := merge_sort cmp_le l.

(** ** The heap: the worst candidate at the root *)

(** [tmp = heap[a]; heap[a] = heap[b]; heap[b] = tmp;] *)
Definition swap (heap : list sample_candidate) (a b : nat) : list sample_candidate :=
  <[b := heap !!! a]> (<[a := heap !!! b]> heap).

Definition parent (i : nat) : nat := ((i - 1) / 2)%nat.

(** The index goes down every round. *)
Fixpoint sift_up_loop (fuel : nat) (heap : list sample_candidate) (idx : nat) : list sample_candidate :=
  match fuel with
  | O => heap
  | S fuel' =>
      if (0 <? idx)%nat then
        if negb (sample_candidate_gt (heap !!! parent idx) (heap !!! idx)) then heap
        else sift_up_loop fuel' (swap heap (parent idx) idx) (parent idx)
      else heap
  end.

Definition sample_heap_sift_up (heap : list sample_candidate) (idx : nat) : list sample_candidate :=
  sift_up_loop idx heap idx.

(** The smallest of [idx] and its two children. *)
Definition smallest_child (heap : list sample_candidate) (n idx : nat) : nat :=
  let left := (idx * 2 + 1)%nat in
  let right := (left + 1)%nat in
  let smallest :=
    if (left <? n)%nat && sample_candidate_gt (heap !!! idx) (heap !!! left) then left else idx in
  if (right <? n)%nat && sample_candidate_gt (heap !!! smallest) (heap !!! right) then right
  else smallest.

(** The index goes up every round and stays below [n]. *)
Fixpoint sift_down_loop (fuel : nat) (heap : list sample_candidate) (n idx : nat) : list sample_candidate :=
  match fuel with
  | O => heap
  | S fuel' =>
      let smallest := smallest_child heap n idx in
      if (smallest =? idx)%nat then heap
      else sift_down_loop fuel' (swap heap idx smallest) n smallest
  end.

Definition sample_heap_sift_down (heap : list sample_candidate) (n idx : nat) : list sample_candidate :=
  sift_down_loop (n - idx) heap n idx.

(** The heap array's used part and the running sum of its weights. *)
Record heap_state := Heap { h_heap : list sample_candidate; h_sum : spec_float }.

(** A candidate is offered to a heap of at most [cap]. *)
Definition heap_offer (cap : nat) (h : heap_state) (cand : sample_candidate) : heap_state :=
  let n := length (h_heap h) in
  if (n <? cap)%nat then
    Heap (sample_heap_sift_up (h_heap h ++ [cand]) n) (F32.add (h_sum h) (c_prob cand))
  else if sample_candidate_gt cand (h_heap h !!! 0%nat) then
    Heap (sample_heap_sift_down (<[0%nat := cand]> (h_heap h)) n 0)
         (F32.add (F32.sub (h_sum h) (c_prob (h_heap h !!! 0%nat))) (c_prob cand))
  else h.

(** ** The filters *)

(** [filtered_sum], [filtered], [stopped_by_min_p], [reached_top_p]. *)
Record filter_state := Filt {
  fl_sum : spec_float; fl_n : nat; fl_stopped : bool; fl_reached : bool }.

(** The loop over the sorted candidates, the [i]-th first. *)
Fixpoint filter_loop (base_sum min_raw top_p : spec_float) (i : nat) (l : list sample_candidate)
    (sum : spec_float) : filter_state :=
  match l with
  | [] => Filt sum i false false
  | c :: l' =>
      if (0 <? i)%nat && SFltb (c_prob c) min_raw then Filt sum i true false
      else
        let sum := F32.add sum (c_prob c) in
        if fle top_p (F32.div sum base_sum) then Filt sum (S i) false true
        else filter_loop base_sum min_raw top_p (S i) l' sum
  end.

Definition F0 : spec_float := S754_zero false.
Definition F1 : spec_float := F32.of_Z 1.

(** [probs[id] = prob * inv_sum] for the first candidates, on a cleared array. *)
Definition normalized (n_vocab : nat) (cand : list sample_candidate) (f : filter_state) : list spec_float :=
  let zero := replicate n_vocab F0 in
  if (fl_n f =? 0)%nat || fle (fl_sum f) F0 || negb (isfinite (fl_sum f))
  then <[c_id (cand !!! 0%nat) := F1]> zero
  else
    let inv_sum := F32.div F1 (fl_sum f) in
    foldl (fun probs c => <[c_id c := F32.mul (c_prob c) inv_sum]> probs) zero (take (fl_n f) cand).

Definition SAMPLE_PROB_FAST_CAP : nat := 512.

(** [if (logits[i] > max_logit) max_logit = logits[i];] over the finite ones. *)
Definition max_finite_logit (logits : list spec_float) : spec_float :=
  foldl (fun m v => if isfinite v && fgt v m then v else m) DS4_NEG_INF logits.

Definition sum_probs (l : list sample_candidate) : spec_float :=
  foldl (fun s c => F32.add s (c_prob c)) F0 l.

(** [if (top_k > 1024) ...; if ((uint32_t)top_k > n_vocab) ...] *)
Definition clamp_top_k (top_k n_vocab : Z) : Z :=
  let top_k := if 1024 <? top_k then 1024 else top_k in
  let top_k := if top_k <? 0 then 0 else top_k in
  if n_vocab <? top_k then n_vocab else top_k.

Definition clamp_top_p (top_p : spec_float) : spec_float :=
  if fle top_p F0 || fgt top_p F1 then F1 else top_p.

Definition clamp_min_p (min_p : spec_float) : spec_float :=
  if SFltb min_p F0 then F0 else min_p.

Section Probabilities.
(** [expf] of libm, and whether the unrolled argmax is disabled. *)
Context (expf : spec_float -> spec_float) (disable_unrolled : bool).

(** The finite logits with their weights, by id. *)
Definition candidates (logits : list spec_float) (max_logit temperature : spec_float)
  : list sample_candidate :=
  omap (fun '(i, v) =>
    if isfinite v then Some (Cand i v (expf (F32.div (F32.sub v max_logit) temperature))) else None)
    (imap pair logits).

(** All the mass on the argmax. *)
Definition all_on_argmax (logits : list spec_float) : list spec_float :=
  <[sample_argmax disable_unrolled logits := F1]> (replicate (length logits) F0).

(** [None] is the return value false. *)
Definition sample_build_probabilities (logits : list spec_float) (temperature : spec_float)
    (top_k : Z) (top_p min_p : spec_float) : option (list spec_float) :=
  let n_vocab := length logits in
  if (n_vocab =? 0)%nat then None
  else if fle temperature F0 then Some (all_on_argmax logits)
  else
    let top_p := clamp_top_p top_p in
    let min_p := clamp_min_p min_p in
    let top_k := clamp_top_k top_k (Z.of_nat n_vocab) in
    let heap_cap := if 0 <? top_k then Z.to_nat top_k else SAMPLE_PROB_FAST_CAP in
    let max_logit := max_finite_logit logits in
    let finite := candidates logits max_logit temperature in
    if (length finite =? 0)%nat then Some (all_on_argmax logits)
    else
      let full_sum := sum_probs finite in
      let h := foldl (heap_offer heap_cap) (Heap [] F0) finite in
      let heap_n := length (h_heap h) in
      if fle full_sum F0 || negb (isfinite full_sum) || (heap_n =? 0)%nat
      then Some (all_on_argmax logits)
      else
        let heap := qsort_candidates (h_heap h) in
        let base_sum := if 0 <? top_k then h_sum h else full_sum in
        let min_raw := F32.mul (c_prob (heap !!! 0%nat)) min_p in
        let f := filter_loop base_sum min_raw top_p 0 heap F0 in
        let heap_has_all := (heap_n =? length finite)%nat in
        let min_p_proves_tail_filtered :=
          fl_stopped f && SFltb (c_prob (heap !!! (heap_n - 1)%nat)) min_raw in
        let fast_complete :=
          (0 <? top_k) || heap_has_all || fl_reached f || min_p_proves_tail_filtered in
        if fast_complete then Some (normalized n_vocab heap f)
        else
          let cand := qsort_candidates finite in
          let full_min_raw := F32.mul (c_prob (cand !!! 0%nat)) min_p in
          Some (normalized n_vocab cand (filter_loop full_sum full_min_raw top_p 0 cand F0)).
End Probabilities.

(** ** Drawing from a distribution *)

(** The greatest probability, the first one of them. *)
Fixpoint best_prob (probs : list spec_float) (i best : nat) (best_p : spec_float) : nat :=
  match probs with
  | [] => best
  | p :: probs' => if fgt p best_p then best_prob probs' (S i) i p else best_prob probs' (S i) best best_p
  end.

(** [p > 0.0f && isfinite(p)] *)
Definition positive (p : spec_float) : bool := fgt p F0 && isfinite p.

(** [r -= p; if (r <= 0.0f) return i;] over the positive entries. *)
Fixpoint draw (probs : list spec_float) (i : nat) (r : spec_float) : option nat :=
  match probs with
  | [] => None
  | p :: probs' =>
      if fle p F0 || negb (isfinite p) then draw probs' (S i) r
      else
        let r := F32.sub r p in
        if fle r F0 then Some i else draw probs' (S i) r
  end.

(** The new state of the generator and the token; [None] is the -1. *)
Definition sample_probabilities (probs : list spec_float) (rng : Z) : Z * option nat :=
  match probs with
  | [] => (rng, None)
  | p0 :: _ =>
      let sum := foldl (fun s p => if positive p then F32.add s p else s) F0 probs in
      let best := best_prob probs 0 0 p0 in
      if fle sum F0 || negb (isfinite sum) then (rng, Some best)
      else
        let '(rng, u) := sample_rng_f32 rng in
        (rng, Some (default best (draw probs 0 (F32.mul u sum))))
  end.

(** [max(0, p - q)] where that is a number. *)
Definition residual (p q : spec_float) : spec_float :=
  let r := F32.sub p q in
  if negb (fgt r F0) || negb (isfinite r) then F0 else r.

Definition sample_residual_probabilities (target_probs draft_probs : list spec_float) (rng : Z)
  : list spec_float * Z * option nat :=
  match target_probs with
  | [] => ([], rng, None)
  | p0 :: _ =>
      let target_best := best_prob target_probs 0 0 p0 in
      let res := zip_with residual target_probs draft_probs in
      let sum := foldl F32.add F0 res in
      if fle sum F0 || negb (isfinite sum) then (res, rng, Some target_best)
      else let '(rng, t) := sample_probabilities res rng in (res, rng, t)
  end.

(** ** One speculative step *)

Definition speculative_point_accept (target_p draft_p : spec_float) (rng : Z) : Z * bool :=
  if negb (fgt draft_p F0) || negb (isfinite draft_p) then (rng, false)
  else if fle draft_p target_p then (rng, true)
  else if negb (fgt target_p F0) || negb (isfinite target_p) then (rng, false)
  else let '(rng, u) := sample_rng_f32 rng in (rng, fle (F32.mul u draft_p) target_p).

(** The session's probabilities are its [sample_probs] array. *)
Definition speculative_point_replacement (sample_probs : list spec_float) (draft_token : Z) (rng : Z)
  : list spec_float * Z * option nat :=
  if (draft_token <? 0) || (Z.of_nat (length sample_probs) <=? draft_token)
  then (sample_probs, rng, None)
  else
    let probs := <[Z.to_nat draft_token := F0]> sample_probs in
    let '(rng, t) := sample_probabilities probs rng in (probs, rng, t).

(** ** Drawing a token from logits *)

(** [r -= p; if (r <= 0.0f) return id;] over candidates. *)
Fixpoint draw_candidate (l : list sample_candidate) (r : spec_float) : option nat :=
  match l with
  | [] => None
  | c :: l' =>
      let r := F32.sub r (c_prob c) in
      if fle r F0 then Some (c_id c) else draw_candidate l' r
  end.

(** The loop of the samplers, which divides each weight by the sum: here
    [fl_reached] is not used. *)
Fixpoint scaled_filter_loop (sum min_prob top_p : spec_float) (i : nat) (l : list sample_candidate)
    (filtered_sum : spec_float) : filter_state :=
  match l with
  | [] => Filt filtered_sum i false false
  | c :: l' =>
      if (0 <? i)%nat && SFltb (F32.div (c_prob c) sum) min_prob then Filt filtered_sum i true false
      else
        let filtered_sum := F32.add filtered_sum (c_prob c) in
        if fle top_p (F32.div filtered_sum sum) then Filt filtered_sum (S i) false true
        else scaled_filter_loop sum min_prob top_p (S i) l' filtered_sum
  end.

(** A draw among the first [fl_n f] candidates, the last of them if rounding
    leaves some of [r] over. *)
Definition draw_filtered (l : list sample_candidate) (f : filter_state) (rng : Z) : Z * nat :=
  let '(rng, u) := sample_rng_f32 rng in
  (rng, default (c_id (l !!! (fl_n f - 1)%nat))
          (draw_candidate (take (fl_n f) l) (F32.mul u (fl_sum f)))).

(** [min_p > 0.0f ? min_p : 0.0f] *)
Definition pos_part (x : spec_float) : spec_float := if fgt x F0 then x else F0.

Definition FLT_MAX : spec_float := S754_finite false 16777215 104.

Section Sample.
(** libm. *)
Context (expf logf : spec_float -> spec_float) (nextafterf : spec_float -> spec_float -> spec_float).
Context (disable_unrolled : bool).

Definition SAMPLE_FAST_TOP_P_CAP : nat := 512.

(** [None]: the caller takes the slow path; the generator has not moved then. *)
Definition sample_fast_top_p (logits : list spec_float) (max_logit : spec_float) (best : nat)
    (temperature top_p min_p : spec_float) (rng : Z) : option (Z * nat) :=
  let finite := candidates expf logits max_logit temperature in
  if (length finite =? 0)%nat then None
  else if (SAMPLE_FAST_TOP_P_CAP <? length finite)%nat && fle (F32.div (F32.of_Z 999) (F32.of_Z 1000)) top_p
  then None
  else
    let cap := if (length finite <? SAMPLE_FAST_TOP_P_CAP)%nat then length finite
               else SAMPLE_FAST_TOP_P_CAP in
    let h := foldl (heap_offer cap) (Heap [] F0) finite in
    let n := length (h_heap h) in
    let sum := sum_probs finite in
    if fle sum F0 || negb (isfinite sum) then Some (rng, best)
    else if (n <? length finite)%nat && SFltb (h_sum h) (F32.mul top_p sum) then None
    else
      let heap := qsort_candidates (h_heap h) in
      let min_prob := F32.mul (F32.div (c_prob (heap !!! 0%nat)) sum) (pos_part min_p) in
      let min_prob_raw := F32.mul (c_prob (heap !!! 0%nat)) (pos_part min_p) in
      let f := scaled_filter_loop sum min_prob top_p 0 heap F0 in
      if (n <? length finite)%nat && fl_stopped f && fgt min_p F0 &&
         fle min_prob_raw (c_prob (heap !!! (n - 1)%nat))
      then None
      else if (fl_n f =? 0)%nat then Some (rng, best)
      else Some (draw_filtered heap f rng).

(** Eight steps down from [logf(min_rel)] for a value whose [expf] is below. *)
Fixpoint cutoff_loop (n : nat) (cutoff min_rel : spec_float) : option spec_float :=
  match n with
  | O => None
  | S n' =>
      if isfinite cutoff then
        let cutoff := nextafterf cutoff (SFopp FLT_MAX) in
        if SFltb (expf cutoff) min_rel then Some cutoff else cutoff_loop n' cutoff min_rel
      else None
  end.

(** [reject_scaled], when there is one. *)
Definition reject_boundary (min_rel : spec_float) : option spec_float :=
  if fgt min_rel F0 && isfinite min_rel then cutoff_loop 8 (logf min_rel) min_rel else None.

Definition minus_one : spec_float := F32.of_Z (-1).

(** The weight that the loop without top-p keeps for a logit, if it does. *)
Definition min_p_weight (max_logit temperature min_rel : spec_float) (reject : option spec_float)
    (v : spec_float) : option spec_float :=
  if negb (isfinite v) then None
  else
    let scaled := F32.div (F32.sub v max_logit) temperature in
    if match reject with Some b => fle scaled b | None => false end then None
    else
      let p := expf scaled in
      if SFltb p min_rel then None else Some p.

(** [sum += p] for the weights that are kept. *)
Definition sum_kept (kept : list (option spec_float)) : spec_float :=
  foldl (fun s p => match p with Some p => F32.add s p | None => s end) F0 kept.

(** [if (p < 0.0f) continue; r -= p; if (r <= 0.0f) return i;] *)
Fixpoint draw_kept (scratch : list spec_float) (i : nat) (r : spec_float) : option nat :=
  match scratch with
  | [] => None
  | p :: scratch' =>
      if SFltb p F0 then draw_kept scratch' (S i) r
      else
        let r := F32.sub r p in
        if fle r F0 then Some i else draw_kept scratch' (S i) r
  end.

Definition sample_min_p_only (logits : list spec_float) (max_logit : spec_float) (best : nat)
    (temperature min_p : spec_float) (rng : Z) : Z * nat :=
  let min_rel := pos_part min_p in
  if fgt min_rel F1 then (rng, best)
  else
    let kept := map (min_p_weight max_logit temperature min_rel (reject_boundary min_rel)) logits in
    let scratch := map (default minus_one) kept in
    let sum := sum_kept kept in
    if fle sum F0 || negb (isfinite sum) then (rng, best)
    else
      let '(rng, u) := sample_rng_f32 rng in
      (rng, default best (draw_kept scratch 0 (F32.mul u sum))).

(** The slow path with top-p; with a min-p only the survivors are sorted. *)
Definition sample_nucleus (logits : list spec_float) (max_logit : spec_float) (best : nat)
    (temperature top_p min_p : spec_float) (rng : Z) : Z * nat :=
  let finite := candidates expf logits max_logit temperature in
  let sum := sum_probs finite in
  let prefilter := fgt min_p F0 && fle min_p F1 in
  let cand :=
    if prefilter then
      let min_prob := F32.mul (F32.div F1 sum) min_p in
      List.filter (fun c => negb (SFltb (c_prob c) F0 || SFltb (F32.div (c_prob c) sum) min_prob)) finite
    else finite in
  if fle sum F0 || negb (isfinite sum) then (rng, best)
  else if prefilter && (length cand =? 0)%nat then (rng, best)
  else
    let cand := qsort_candidates cand in
    let min_prob := F32.mul (F32.div (c_prob (cand !!! 0%nat)) sum) (pos_part min_p) in
    let f := scaled_filter_loop sum min_prob top_p 0 cand F0 in
    if (fl_n f =? 0)%nat then (rng, best) else draw_filtered cand f rng.

(** [max_logit] and [best] over the finite logits. *)
Fixpoint finite_best (l : list spec_float) (i : nat) (bv : nat * spec_float) : nat * spec_float :=
  match l with
  | [] => bv
  | v :: l' => finite_best l' (S i) (if isfinite v && fgt v (snd bv) then (i, v) else bv)
  end.

Definition sample_full_vocab (logits : list spec_float) (temperature top_p min_p : spec_float)
    (rng : Z) : Z * nat :=
  let '(best, max_logit) := finite_best logits 0 (0%nat, DS4_NEG_INF) in
  if (length (List.filter isfinite logits) =? 0)%nat then (rng, sample_argmax disable_unrolled logits)
  else
    match (if SFltb top_p F1
           then sample_fast_top_p logits max_logit best temperature top_p min_p rng else None) with
    | Some r => r
    | None =>
        if fle F1 top_p then sample_min_p_only logits max_logit best temperature min_p rng
        else sample_nucleus logits max_logit best temperature top_p min_p rng
    end.

(** The [top_k] best so far, the best first: [vals] and [ids] as pairs. *)
Abbreviation ranked := (list (nat * spec_float)).

(** [while (j > 0 && vals[j - 1] < v) j--;] *)
Fixpoint shift_pos (l : ranked) (j : nat) (v : spec_float) : nat :=
  match j with
  | O => O
  | S j' => if SFltb (snd (l !!! j')) v then shift_pos l j' v else j
  end.

(** The entries from there on move up by one; the last of a full list is lost. *)
Definition top_k_offer (top_k : nat) (l : ranked) (iv : nat * spec_float) : ranked :=
  let '(i, v) := iv in
  let n := length l in
  if negb (isfinite v) then l
  else if (n =? top_k)%nat && fle v (snd (l !!! (n - 1)%nat)) then l
  else
    let j0 := if (n <? top_k)%nat then n else (n - 1)%nat in
    let j := shift_pos l j0 v in
    take j l ++ (i, v) :: take (j0 - j) (drop j l).

Definition top_k_scan (top_k : nat) (logits : list spec_float) : ranked :=
  foldl (top_k_offer top_k) [] (imap pair logits).

Definition weigh (max_logit temperature : spec_float) (iv : nat * spec_float) : sample_candidate :=
  Cand (fst iv) (snd iv) (expf (F32.div (F32.sub (snd iv) max_logit) temperature)).

Definition sample_top_p_min_p (logits : list spec_float) (temperature : spec_float) (top_k : Z)
    (top_p min_p : spec_float) (rng : Z) : Z * nat :=
  if fle temperature F0 then (rng, sample_argmax disable_unrolled logits)
  else
    let top_p := clamp_top_p top_p in
    let min_p := clamp_min_p min_p in
    if top_k <=? 0 then sample_full_vocab logits temperature top_p min_p rng
    else
      let top_k := Z.to_nat (clamp_top_k top_k (Z.of_nat (length logits))) in
      match top_k_scan top_k logits with
      | [] => (rng, sample_argmax disable_unrolled logits)
      | ((id0, max_logit) :: _) as l =>
          let cand := map (weigh max_logit temperature) l in
          let sum := sum_probs cand in
          if fle sum F0 || negb (isfinite sum) then (rng, id0)
          else
            let min_prob := F32.mul (F32.div (c_prob (cand !!! 0%nat)) sum) min_p in
            let f := scaled_filter_loop sum min_prob top_p 0 cand F0 in
            if (fl_n f =? 0)%nat then (rng, id0) else draw_filtered cand f rng
      end.
End Sample.

(** ** The order of candidates *)

Definition finite_cand (c : sample_candidate) : Prop := isfinite (c_logit c) = true.

Lemma isfinite_key f : isfinite f = true -> is_Some (float_key f).
Proof. destruct f as [[]|[]| |[] m e]; cbn; try done; by eexists. Qed.

Lemma cand_gt_iff a b : sample_candidate_gt a b = true <->
  SFltb (c_logit b) (c_logit a) = true \/ (SFeqb (c_logit a) (c_logit b) = true /\ (c_id a < c_id b)%nat).
Proof.
  unfold sample_candidate_gt, fgt. destruct (SFeqb (c_logit a) (c_logit b)) eqn:E; cbn [negb].
  - rewrite Nat.ltb_lt, (SFeqb_ltb_l _ _ _ (eq_trans (SFeqb_sym _ _) E)), SFltb_irrefl.
    split; [by right | by intros [?|[_ ?]]].
  - split; [by left | by intros [?|[? _]]].
Qed.

Lemma cand_gt_irrefl a : sample_candidate_gt a a = false.
Proof. apply not_true_is_false. rewrite cand_gt_iff, SFltb_irrefl. intros [?|[_ ?]]; [done | lia]. Qed.

Lemma cand_gt_trans a b c :
  sample_candidate_gt a b = true -> sample_candidate_gt b c = true -> sample_candidate_gt a c = true.
Proof.
  rewrite !cand_gt_iff. intros [H|[H ?]] [H'|[H' ?]].
  - left. by eapply SFltb_trans.
  - left. by rewrite SFeqb_sym in H'; rewrite (SFeqb_ltb_l _ _ _ H').
  - left. by rewrite (SFeqb_ltb_r _ _ _ H).
  - right. split; [by eapply SFeqb_trans | lia].
Qed.

Lemma cand_gt_asym a b : sample_candidate_gt a b = true -> sample_candidate_gt b a = false.
Proof.
  intros H. apply not_true_is_false. intros H'.
  pose proof (cand_gt_trans _ _ _ H H') as E. by rewrite cand_gt_irrefl in E.
Qed.

(** Finite candidates with different ids are comparable. *)
Lemma cand_gt_total a b : finite_cand a -> finite_cand b -> c_id a <> c_id b ->
  sample_candidate_gt a b = false -> sample_candidate_gt b a = true.
Proof.
  intros Ha%isfinite_key Hb%isfinite_key Hid Hn. apply cand_gt_iff.
  apply not_true_iff_false in Hn. rewrite cand_gt_iff in Hn.
  destruct (SFltb_total _ _ Ha Hb) as [H|[H|H]]; [by left | | tauto].
  right. rewrite SFeqb_sym. split; [done|]. destruct (decide (c_id a < c_id b)%nat); [tauto | lia].
Qed.

(** [a] is no better than [b], on finite candidates. *)
Lemma cand_ge_trans a b c : finite_cand a -> finite_cand b -> finite_cand c ->
  sample_candidate_gt a b = false -> sample_candidate_gt b c = false -> sample_candidate_gt a c = false.
Proof.
  intros Ha%isfinite_key Hb%isfinite_key Hc%isfinite_key H1 H2.
  apply not_true_iff_false in H1, H2. apply not_true_iff_false. rewrite cand_gt_iff in *.
  destruct (SFltb_total _ _ Ha Hb) as [H|[H|H]]; [| |tauto];
    (destruct (SFltb_total _ _ Hb Hc) as [H'|[H'|H']]; [| |tauto]); intros [K|[K Hid]].
  - pose proof (SFltb_trans _ _ _ K (SFltb_trans _ _ _ H H')) as E. by rewrite SFltb_irrefl in E.
  - pose proof (SFltb_trans _ _ _ H H') as E. by rewrite (SFeqb_ltb_l _ _ _ K), SFltb_irrefl in E.
  - rewrite (SFeqb_ltb_r _ _ _ H') in H. by rewrite (SFltb_asym _ _ H) in K.
  - rewrite (SFeqb_ltb_r _ _ _ H'), (SFeqb_ltb_l _ _ _ K), SFltb_irrefl in H. done.
  - rewrite (SFeqb_ltb_l _ _ _ (eq_trans (SFeqb_sym _ _) H)) in H'. by rewrite (SFltb_asym _ _ H') in K.
  - rewrite (SFeqb_ltb_l _ _ _ (eq_trans (SFeqb_sym _ _) H)) in H'.
    by rewrite (SFeqb_ltb_l _ _ _ K), SFltb_irrefl in H'.
  - rewrite (SFeqb_ltb_r _ _ _ H), (SFeqb_ltb_l _ _ _ (eq_trans (SFeqb_sym _ _) H')), SFltb_irrefl in K. done.
  - apply H2. right. split; [done|].
    assert (~ (c_id a < c_id b)%nat) by (intros ?; apply H1; by right). lia.
Qed.

(** The comparison function says the same. *)
Lemma cmp_le_iff a b : finite_cand a -> finite_cand b ->
  cmp_le a b <-> sample_candidate_gt b a = false.
Proof.
  intros Ha%isfinite_key Hb%isfinite_key. rewrite <- not_true_iff_false, cand_gt_iff.
  unfold cmp_le, sample_candidate_cmp_desc, fgt.
  destruct (SFltb_total _ _ Ha Hb) as [H|[H|H]].
  - rewrite H, (SFltb_asym _ _ H). cbn. split; [done|]. intros Hn. exfalso. apply Hn. by left.
  - rewrite (SFeqb_ltb_l _ _ _ H), SFltb_irrefl, (SFeqb_ltb_r _ _ _ H), SFltb_irrefl, Z.sub_diag. cbn [Z.eqb].
    rewrite (SFeqb_sym (c_logit b)), H.
    destruct (Nat.ltb_spec (c_id b) (c_id a)), (Nat.ltb_spec (c_id a) (c_id b)); cbn [Z.b2z]; split;
      first [lia | by intros _ [?|[_ ?]]; [|lia] | intros Hn; first [lia | exfalso; apply Hn; by right]].
  - rewrite H, (SFltb_asym _ _ H). cbn. split; [|done]. intros _ [K|[K _]]; [done|].
    by rewrite (SFeqb_ltb_l _ _ _ K), SFltb_irrefl in H.
Qed.

#[export] Instance cmp_le_total : Total cmp_le.
Proof.
  intros a b. unfold cmp_le, sample_candidate_cmp_desc, fgt.
  destruct (SFltb (c_logit a) (c_logit b)) eqn:E1.
  { rewrite (SFltb_asym _ _ E1). right. done. }
  destruct (SFltb (c_logit b) (c_logit a)); [by left|]. rewrite Z.sub_diag. cbn [Z.eqb].
  destruct (Nat.ltb_spec (c_id b) (c_id a)), (Nat.ltb_spec (c_id a) (c_id b)); cbn [Z.b2z]; lia.
Qed.

(** Lists of distinct finite candidates have one sorted arrangement. *)
Definition cands_ok (l : list sample_candidate) : Prop := Forall finite_cand l /\ NoDup (c_id <$> l).

#[export] Instance cands_ok_perm : Proper ((≡ₚ) ==> iff) cands_ok.
Proof. intros l k Hp. unfold cands_ok. by rewrite Hp. Qed.

Lemma cands_ok_app_l l k : cands_ok (l ++ k) -> cands_ok l.
Proof.
  intros [[? ?]%Forall_app Hn]. rewrite fmap_app in Hn. apply NoDup_app in Hn as (? & _ & _). by split.
Qed.

Lemma cands_ok_app_r l k : cands_ok (l ++ k) -> cands_ok k.
Proof. rewrite (Permutation_app_comm l k). apply cands_ok_app_l. Qed.

Lemma cands_ok_same l a b : cands_ok l -> a ∈ l -> b ∈ l -> c_id a = c_id b -> a = b.
Proof.
  intros [_ Hn] [i Hi]%list_elem_of_lookup [j Hj]%list_elem_of_lookup Hid.
  assert (i = j) as ->; [|congruence].
  eapply (NoDup_lookup _ i j (c_id a) Hn); rewrite list_lookup_fmap; [by rewrite Hi | by rewrite Hj, Hid].
Qed.

Lemma Sorted_cands l : Forall finite_cand l -> Sorted cmp_le l -> StronglySorted cmp_le l.
Proof.
  induction l as [|a l IH]; intros Hf Hs; [constructor|].
  apply Forall_cons in Hf as [Ha Hf]. apply Sorted_inv in Hs as [Hs Hh].
  pose proof (IH Hf Hs) as Hss. constructor; [done|]. destruct l as [|b l]; [constructor|].
  apply HdRel_inv in Hh. apply Forall_cons in Hf as [Hb Hf]. apply StronglySorted_inv in Hss as [_ Hall].
  constructor; [done|]. rewrite Forall_forall in *. intros c Hc.
  rewrite cmp_le_iff in * by auto. pose proof (Hall c Hc) as Hbc. rewrite cmp_le_iff in Hbc by auto.
  eapply cand_ge_trans; [..|exact Hbc|exact Hh]; auto.
Qed.

Lemma sorted_unique l k : cands_ok l -> StronglySorted cmp_le l -> StronglySorted cmp_le k -> l ≡ₚ k -> l = k.
Proof.
  intros Hok Hl Hk Hp. apply (StronglySorted_unique_strong cmp_le); [|done..].
  intros a b Ha Hb H1 H2. rewrite <- Hp in Hb. pose proof Hok as [Hf _]. rewrite Forall_forall in Hf.
  rewrite cmp_le_iff in H1, H2 by auto. apply (cands_ok_same l); [done..|].
  destruct (decide (c_id a = c_id b)) as [|Hne]; [done|]. exfalso.
  apply cand_gt_total in H1; [congruence|auto..].
Qed.

Lemma qsort_perm l : qsort_candidates l ≡ₚ l.
Proof. apply merge_sort_Permutation. Qed.

Lemma qsort_sorted l : Forall finite_cand l -> StronglySorted cmp_le (qsort_candidates l).
Proof. intros H. apply Sorted_cands; [by rewrite qsort_perm | apply Sorted_merge_sort, _]. Qed.

Lemma qsort_unique l k : cands_ok l -> l ≡ₚ k -> qsort_candidates l = qsort_candidates k.
Proof.
  intros Hok Hp. apply sorted_unique; [by rewrite qsort_perm| | |by rewrite !qsort_perm].
  - apply qsort_sorted, Hok.
  - rewrite Hp in Hok. apply qsort_sorted, Hok.
Qed.

(** The better part of a set, sorted, comes first in the whole sorted. *)
Lemma qsort_app l k : cands_ok (l ++ k) ->
  (forall a b, a ∈ l -> b ∈ k -> sample_candidate_gt a b = true) ->
  qsort_candidates (l ++ k) = qsort_candidates l ++ qsort_candidates k.
Proof.
  intros Hok Hgt. pose proof (cands_ok_app_l _ _ Hok) as [Hl _]. pose proof (cands_ok_app_r _ _ Hok) as [Hk _].
  apply sorted_unique; [by rewrite qsort_perm|apply qsort_sorted, Hok| |by rewrite !qsort_perm].
  apply StronglySorted_app. split_and!; [|by apply qsort_sorted..].
  intros a b Ha Hb. rewrite qsort_perm in Ha, Hb. rewrite Forall_forall in Hl, Hk.
  apply cmp_le_iff; [auto..|]. by apply cand_gt_asym, Hgt.
Qed.

(** ** The heap keeps its order *)

(** No parent is better than its child: the root is the worst. *)
Definition heap_order (l : list sample_candidate) : Prop :=
  forall i, (0 < i < length l)%nat -> sample_candidate_gt (l !!! parent i) (l !!! i) = false.

Section HeapOrder.
Lemma parent_lt i : (0 < i)%nat -> (parent i < i)%nat.
Proof. unfold parent. zdiv. Qed.

Lemma parent_iff i p : (0 < i)%nat -> parent i = p <-> i = (p * 2 + 1)%nat \/ i = (p * 2 + 2)%nat.
Proof. unfold parent. zdiv. Qed.

Lemma swap_length l a b : length (swap l a b) = length l.
Proof. unfold swap. by rewrite !length_insert. Qed.

Lemma swap_perm l a b : (a < length l)%nat -> (b < length l)%nat -> swap l a b ≡ₚ l.
Proof.
  intros Ha Hb. unfold swap. apply Permutation_insert_swap; by apply list_lookup_lookup_total_lt.
Qed.

Lemma swap_lookup l a b i : (a < length l)%nat -> (b < length l)%nat ->
  swap l a b !!! i = if decide (i = b) then l !!! a else if decide (i = a) then l !!! b else l !!! i.
Proof.
  intros Ha Hb. unfold swap.
  destruct (decide (i = b)) as [->|]; [by rewrite list_lookup_total_insert_eq by (by rewrite length_insert)|].
  rewrite list_lookup_total_insert_ne by done.
  destruct (decide (i = a)) as [->|]; [by rewrite list_lookup_total_insert_eq | by rewrite list_lookup_total_insert_ne].
Qed.

Lemma finite_lookup l i : Forall finite_cand l -> (i < length l)%nat -> finite_cand (l !!! i).
Proof. intros Hf Hi. eapply Forall_lookup_1; [done|]. by apply list_lookup_lookup_total_lt. Qed.

(** Looking into a swapped heap: unfold the lookups and decide. *)
Ltac swap_cases :=
  rewrite !swap_lookup by lia; repeat (case_decide; try lia); try congruence.

Lemma sift_up_ok fuel : forall l idx, (idx < length l)%nat -> (idx <= fuel)%nat -> Forall finite_cand l ->
  (forall i, (0 < i < length l)%nat -> i <> idx -> sample_candidate_gt (l !!! parent i) (l !!! i) = false) ->
  (forall i, (0 < idx)%nat -> (0 < i < length l)%nat -> parent i = idx ->
    sample_candidate_gt (l !!! parent idx) (l !!! i) = false) ->
  heap_order (sift_up_loop fuel l idx) /\ sift_up_loop fuel l idx ≡ₚ l.
Proof.
  induction fuel as [|fuel IH]; intros l idx Hidx Hfuel Hf H1 H2; cbn [sift_up_loop].
  { split; [|done]. intros i Hi. apply H1; [done | lia]. }
  destruct (Nat.ltb_spec 0 idx) as [Hpos|]; [|split; [|done]; intros i Hi; apply H1; [done | lia]].
  destruct (sample_candidate_gt (l !!! parent idx) (l !!! idx)) eqn:E; cbn [negb].
  2: { split; [|done]. intros i Hi. destruct (decide (i = idx)) as [->|]; [done | by apply H1]. }
  pose proof (parent_lt idx Hpos) as Hp. remember (parent idx) as p eqn:Ep.
  pose proof (cand_gt_asym _ _ E) as Eas.
  assert (Hfin : forall i, (i < length l)%nat -> finite_cand (l !!! i)) by (intros; by apply finite_lookup).
  pose proof (swap_perm l p idx ltac:(lia) ltac:(lia)) as Hperm.
  destruct (IH (swap l p idx) p) as [Ho Hpm].
  - rewrite swap_length. lia.
  - lia.
  - by rewrite Hperm.
  - rewrite swap_length. intros i Hi Hne. pose proof (parent_lt i ltac:(lia)) as Hpi. swap_cases; try done.
    + by apply H2; [|lia|].
    + eapply (cand_ge_trans _ (l !!! p)); [apply Hfin; lia..|done|].
      match goal with H : parent i = p |- _ => rewrite <- H end. apply H1; lia.
    + apply H1; lia.
  - rewrite swap_length. intros i Hpp Hi Hpi. pose proof (parent_lt i ltac:(lia)) as Hpi'.
    pose proof (parent_lt p Hpp). pose proof (H1 p ltac:(lia) ltac:(lia)) as Hpar. swap_cases; try done.
    eapply (cand_ge_trans _ (l !!! p)); [apply Hfin; lia..|done|]. rewrite <- Hpi. apply H1; lia.
  - split; [done|]. by rewrite Hpm.
Qed.

(** The smallest of a node and its children. *)
Lemma smallest_child_spec l idx : Forall finite_cand l -> (idx < length l)%nat ->
  let s := smallest_child l (length l) idx in
  (s = idx \/ (parent s = idx /\ (idx < s < length l)%nat /\ sample_candidate_gt (l !!! idx) (l !!! s) = true)) /\
  forall i, (0 < i < length l)%nat -> parent i = idx -> sample_candidate_gt (l !!! s) (l !!! i) = false.
Proof.
  intros Hf Hidx. cbv zeta. unfold smallest_child.
  assert (Hfin : forall i, (i < length l)%nat -> finite_cand (l !!! i)) by (intros; by apply finite_lookup).
  set (left := (idx * 2 + 1)%nat). set (s1 := if _ && sample_candidate_gt _ (l !!! left) then _ else _).
  assert (H1 : (s1 = idx \/ (s1 = left /\ (left < length l)%nat /\ sample_candidate_gt (l !!! idx) (l !!! left) = true)) /\
    ((left < length l)%nat -> sample_candidate_gt (l !!! s1) (l !!! left) = false)).
  { subst s1. case_if; bool_prop.
    - split; [by right | intros _; apply cand_gt_irrefl].
    - split; [by left|]. intros Hl. destruct E as [E|E]; [bool_prop; lia | done]. }
  clearbody s1. destruct H1 as [Hs1 Hl1].
  assert (Hpl : parent left = idx) by (apply parent_iff; subst left; lia).
  assert (Hpr : parent (left + 1) = idx) by (apply parent_iff; subst left; lia).
  assert (Hs1n : (s1 < length l)%nat) by lia.
  case_if; bool_prop.
  - split.
    + right. split_and!; [done | subst left; lia | done |].
      destruct Hs1 as [->|(-> & ? & ?)]; [done | by eapply cand_gt_trans].
    + intros i Hi Hpi. apply parent_iff in Hpi; [|lia].
      destruct Hpi as [Hi'|Hi'].
      * replace i with left in * by (subst left; lia).
        eapply (cand_ge_trans _ (l !!! s1)); [apply Hfin; lia..|by apply cand_gt_asym|]. apply Hl1. lia.
      * replace i with (left + 1)%nat by (subst left; lia). apply cand_gt_irrefl.
  - split.
    + destruct Hs1 as [->|(-> & ? & ?)]; [by left|]. right. split_and!; [done | subst left; lia | done | done].
    + intros i Hi Hpi. apply parent_iff in Hpi; [|lia].
      destruct Hpi as [Hi'|Hi'].
      * replace i with left in * by (subst left; lia). apply Hl1. lia.
      * replace i with (left + 1)%nat in * by (subst left; lia). destruct E as [E|E]; [bool_prop; lia | done].
Qed.

Lemma sift_down_ok fuel : forall l idx, (idx < length l)%nat -> (length l - idx <= fuel)%nat ->
  Forall finite_cand l ->
  (forall i, (0 < i < length l)%nat -> parent i <> idx -> sample_candidate_gt (l !!! parent i) (l !!! i) = false) ->
  (forall i, (0 < idx)%nat -> (0 < i < length l)%nat -> parent i = idx ->
    sample_candidate_gt (l !!! parent idx) (l !!! i) = false) ->
  heap_order (sift_down_loop fuel l (length l) idx) /\ sift_down_loop fuel l (length l) idx ≡ₚ l.
Proof.
  induction fuel as [|fuel IH]; intros l idx Hidx Hfuel Hf H1 H2; cbn [sift_down_loop]; [lia|].
  destruct (smallest_child_spec l idx Hf Hidx) as [Hs Hc].
  set (s := smallest_child l (length l) idx) in *. clearbody s.
  destruct (Nat.eqb_spec s idx) as [->|Hne].
  { split; [|done]. intros i Hi. destruct (decide (parent i = idx)) as [He|]; [|by apply H1].
    rewrite He. by apply Hc. }
  destruct Hs as [?|(Hps & Hsl & Hgt)]; [done|].
  pose proof (swap_perm l idx s ltac:(lia) ltac:(lia)) as Hperm.
  destruct (IH (swap l idx s) s) as [Ho Hpm].
  - rewrite swap_length. lia.
  - rewrite swap_length. lia.
  - by rewrite Hperm.
  - rewrite swap_length. intros i Hi Hpi. pose proof (parent_lt i ltac:(lia)) as Hlt. swap_cases; try done.
    + by apply cand_gt_asym.
    + by apply Hc.
    + subst i. apply (H2 s); [lia..|done].
    + by apply H1.
  - rewrite swap_length. intros i _ Hi Hpi. pose proof (parent_lt i ltac:(lia)) as Hlt. rewrite Hps.
    swap_cases. rewrite <- Hpi. apply H1; lia.
  - rewrite swap_length in Ho, Hpm. split; [done|]. by rewrite Hpm.
Qed.

(** The root is the worst. *)
Lemma heap_root l i : Forall finite_cand l -> heap_order l -> (i < length l)%nat ->
  sample_candidate_gt (l !!! 0%nat) (l !!! i) = false.
Proof.
  intros Hf Ho. induction (lt_wf i) as [i _ IH]. intros Hi.
  destruct (decide (i = 0%nat)) as [->|]; [apply cand_gt_irrefl|].
  pose proof (parent_lt i ltac:(lia)) as Hp.
  eapply (cand_ge_trans _ (l !!! parent i)); [apply finite_lookup; [done|lia]..|apply IH; lia|]. apply Ho. lia.
Qed.
End HeapOrder.

(** ** The heap keeps the best *)

(** The heap after the candidates [seen]: an ordered heap of at most [cap], and
    everything left out is worse than everything kept. *)
Record keeps_best (cap : nat) (seen heap : list sample_candidate) : Prop := {
  kb_order : heap_order heap;
  kb_length : length heap = (length seen `min` cap)%nat;
  kb_rest : exists rest, seen ≡ₚ heap ++ rest /\
    forall a b, a ∈ heap -> b ∈ rest -> sample_candidate_gt a b = true
}.

Section KeepsBest.
Context (cap : nat) (Hcap : (0 < cap)%nat).

Lemma heap_push_ok heap c : Forall finite_cand (heap ++ [c]) -> heap_order heap ->
  let h := sample_heap_sift_up (heap ++ [c]) (length heap) in heap_order h /\ h ≡ₚ heap ++ [c].
Proof.
  intros Hf Ho. apply sift_up_ok; [rewrite length_app; cbn; lia|lia|done|..]; rewrite length_app; cbn [length].
  - intros i Hi Hne. pose proof (parent_lt i ltac:(lia)).
    rewrite !lookup_total_app_l by lia. apply Ho. lia.
  - intros i _ Hi Hpi. pose proof (parent_lt i ltac:(lia)). lia.
Qed.

Lemma heap_replace_ok heap c : Forall finite_cand (c :: heap) -> heap_order heap -> (0 < length heap)%nat ->
  let h := sample_heap_sift_down (<[0%nat := c]> heap) (length heap) 0 in
  heap_order h /\ h ≡ₚ <[0%nat := c]> heap.
Proof.
  intros [Hc Hf]%Forall_cons Ho Hn. unfold sample_heap_sift_down.
  rewrite <- (length_insert heap 0%nat c). apply sift_down_ok; try (rewrite length_insert); try lia.
  - by apply Forall_insert.
  - intros i Hi Hpi. rewrite !list_lookup_total_insert_ne by lia. apply Ho. lia.
Qed.

Lemma heap_offer_keeps seen h c : cands_ok (seen ++ [c]) -> keeps_best cap seen (h_heap h) ->
  keeps_best cap (seen ++ [c]) (h_heap (heap_offer cap h c)).
Proof.
  intros Hok [Ho Hl (rest & Hp & Hgt)]. destruct h as [heap hs]. cbn [h_heap] in *.
  pose proof Hok as [Hfin _]. apply Forall_app in Hfin as [Hfin Hc]. apply Forall_cons in Hc as [Hc _].
  rewrite Hp in Hfin. apply Forall_app in Hfin as [Hfh Hfr].
  unfold heap_offer. cbn [h_heap h_sum].
  assert (Hlen : length seen = (length heap + length rest)%nat) by (rewrite Hp; apply length_app).
  destruct (Nat.ltb_spec (length heap) cap).
  - destruct (heap_push_ok heap c) as [Ho' Hp']; [by apply Forall_app; split; [|constructor]|done|]. cbn [h_heap].
    assert (rest = []) as -> by (destruct rest; [done | cbn in Hlen; lia]).
    split; [done | rewrite Hp', !length_app; cbn; lia |].
    exists []. split; [by rewrite Hp', Hp, !app_nil_r | intros a b _ Hb%elem_of_nil; done].
  - pose proof Hok as Hok'. rewrite Hp in Hok'.
    assert (Hdiff : forall x, x ∈ heap ++ rest -> c_id x <> c_id c).
    { intros x Hx Hid. destruct Hok' as [_ Hn]. rewrite fmap_app in Hn.
      apply NoDup_app in Hn as (_ & Hd & _). apply (Hd (c_id x)); [by apply list_elem_of_fmap_2|].
      rewrite Hid. by apply list_elem_of_singleton. }
    assert (H0 : (0 < length heap)%nat) by lia.
    pose proof (list_lookup_lookup_total_lt heap 0%nat H0) as Hroot.
    set (r := heap !!! 0%nat) in *. clearbody r.
    assert (Hrin : r ∈ heap) by (by eapply list_elem_of_lookup_2).
    assert (Hrfin : finite_cand r) by (by eapply Forall_forall in Hfh).
    destruct (sample_candidate_gt c r) eqn:E; cbn [h_heap].
    + destruct (heap_replace_ok heap c) as [Ho' Hp']; [by constructor|done..|].
      assert (Hsplit : exists tl, heap = r :: tl) by (destruct heap as [|x tl]; [done | exists tl; cbn in Hroot; congruence]).
      destruct Hsplit as [tl ->]. cbn [insert list_insert] in Hp'.
      split; [done | rewrite Hp', length_app; cbn in *; lia |].
      exists (r :: rest). split.
      * rewrite Hp', Hp. solve_Permutation.
      * intros a b Ha Hb. rewrite Hp' in Ha. apply elem_of_cons in Ha, Hb.
        destruct Ha as [->|Ha].
        { destruct Hb as [->|Hb]; [done|]. eapply cand_gt_trans; [done|]. apply Hgt; [left | done]. }
        destruct Hb as [->|Hb]; [|by apply Hgt; [right|]].
        apply cand_gt_total; [done|by apply Forall_cons in Hfh as [_ Hft]; eapply Forall_forall in Hft|..].
        -- intros Hid. pose proof Hok' as [_ Hn]. cbn in Hn. apply NoDup_cons in Hn as [Hn _]. apply Hn.
           rewrite Hid. apply list_elem_of_fmap_2. rewrite <- app_assoc. by apply elem_of_app; left.
        -- apply list_elem_of_lookup in Ha as [i Hi]. apply lookup_lt_Some in Hi as Hil.
           pose proof (heap_root (r :: tl) (S i) Hfh Ho ltac:(cbn; lia)) as Hr.
           rewrite (list_lookup_total_correct _ _ _ Hroot) in Hr.
           by rewrite (list_lookup_total_correct (r :: tl) (S i) a Hi) in Hr.
    + split; [done | rewrite length_app; cbn; lia |].
      exists (rest ++ [c]). split; [by rewrite Hp, app_assoc|].
      intros a b Ha [Hb|Hb%list_elem_of_singleton]%elem_of_app; [by apply Hgt|]. subst b.
      apply list_elem_of_lookup in Ha as [i Hi]. apply lookup_lt_Some in Hi as Hil.
      pose proof (heap_root heap i Hfh Ho Hil) as Hr.
      rewrite (list_lookup_total_correct _ _ _ Hroot), (list_lookup_total_correct _ _ _ Hi) in Hr.
      assert (Hain : a ∈ heap) by (by eapply list_elem_of_lookup_2).
      assert (Hafin : finite_cand a) by (by eapply Forall_forall in Hfh).
      apply cand_gt_total; [done..| |].
      * intros Hid. eapply (Hdiff a); [by apply elem_of_app; left | done].
      * by eapply (cand_ge_trans _ r).
Qed.

Lemma heap_stream_keeps cs : cands_ok cs ->
  keeps_best cap cs (h_heap (foldl (heap_offer cap) (Heap [] F0) cs)).
Proof.
  induction cs as [|c cs IH] using rev_ind; intros Hok.
  - split; [intros i Hi; cbn in Hi; lia | done |]. exists []. split; [done | intros a b Ha%elem_of_nil; done].
  - rewrite foldl_app. cbn [foldl]. apply heap_offer_keeps; [done|]. apply IH. by eapply cands_ok_app_l.
Qed.

(** Sorted, the heap is the beginning of the full sort. *)
Lemma heap_is_prefix cs : cands_ok cs ->
  let h := h_heap (foldl (heap_offer cap) (Heap [] F0) cs) in
  qsort_candidates h = take cap (qsort_candidates cs) /\ length h = (length cs `min` cap)%nat.
Proof.
  intros Hok h. destruct (heap_stream_keeps cs Hok) as [_ Hl (rest & Hp & Hgt)]. fold h in Hl, Hp, Hgt.
  split; [|done]. rewrite (qsort_unique _ _ Hok Hp). rewrite Hp in Hok.
  rewrite qsort_app by done.
  assert (Hlen : length cs = (length h + length rest)%nat) by (rewrite Hp; apply length_app).
  destruct (decide (length h = cap)) as [He|Hne].
  - rewrite take_app_length'; [done | by rewrite qsort_perm].
  - assert (rest = []) as -> by (destruct rest; [done | cbn in Hlen; lia]).
    rewrite app_nil_r, take_ge; [done|]. rewrite qsort_perm. lia.
Qed.
End KeepsBest.

(** ** The distribution is that of the full sort *)

Section Reference.
Context (expf : spec_float -> spec_float) (disable_unrolled : bool).

Lemma candidates_snoc l v m t :
  candidates expf (l ++ [v]) m t = candidates expf l m t ++
    (if isfinite v then [Cand (length l) v (expf (F32.div (F32.sub v m) t))] else []).
Proof.
  unfold candidates. rewrite imap_app, omap_app. f_equal. cbn. rewrite Nat.add_0_r. by destruct (isfinite v).
Qed.

Lemma candidates_spec l m t c : c ∈ candidates expf l m t <->
  l !! c_id c = Some (c_logit c) /\ isfinite (c_logit c) = true /\
  c_prob c = expf (F32.div (F32.sub (c_logit c) m) t).
Proof.
  unfold candidates. rewrite list_elem_of_omap. split.
  - intros ([i v] & Hin & Heq). apply elem_of_lookup_imap in Hin as (j & w & [= -> ->] & Hl).
    destruct (isfinite w) eqn:E; [|done]. injection Heq as <-. done.
  - intros (Hl & Hf & Hp). exists (c_id c, c_logit c). split; [|by rewrite Hf, <- Hp; destruct c].
    apply elem_of_lookup_imap. eauto.
Qed.

Lemma candidates_ok l m t : cands_ok (candidates expf l m t).
Proof.
  split; [apply Forall_forall; intros c (_ & ? & _)%candidates_spec; done|].
  induction l as [|v l IH] using rev_ind; [constructor|]. rewrite candidates_snoc, fmap_app.
  apply NoDup_app. split_and!; [done| |destruct (isfinite v); cbn; [apply NoDup_singleton | constructor]].
  intros i (c & -> & (Hl & _)%candidates_spec)%list_elem_of_fmap_1. apply lookup_lt_Some in Hl.
  destruct (isfinite v); cbn; [|by intros ?%elem_of_nil]. intros ?%list_elem_of_singleton. cbn in *. lia.
Qed.

(** The weights are summed while the candidates pass, in their order and with every
    rounding: the kept ones are a sorted list; a candidate is added while there is
    room, and later only in the place of the last one, whose weight is taken off. *)
Definition sorted_offer (top_k : nat) (ks : list sample_candidate * spec_float) (c : sample_candidate)
  : list sample_candidate * spec_float :=
  let '(kept, sum) := ks in
  if (length kept <? top_k)%nat then (qsort_candidates (kept ++ [c]), F32.add sum (c_prob c))
  else
    match last kept with
    | Some worst =>
        if bool_decide (cmp_le worst c) then (kept, sum)
        else (qsort_candidates (removelast kept ++ [c]), F32.add (F32.sub sum (c_prob worst)) (c_prob c))
    | None => (kept, sum)
    end.

Definition top_k_sum (top_k : nat) (finite : list sample_candidate) : spec_float :=
  snd (foldl (sorted_offer top_k) ([], F0) finite).

(** In a heap of candidates the root is the last of the sorted ones. *)
Lemma heap_root_last heap : cands_ok heap -> heap_order heap -> (0 < length heap)%nat ->
  qsort_candidates heap = removelast (qsort_candidates heap) ++ [heap !!! 0%nat].
Proof.
  intros Hok Ho Hn. pose proof (qsort_perm heap) as Hp. pose proof Hok as [Hf _].
  pose proof (qsort_sorted heap Hf) as Hs.
  assert (Hroot : heap !!! 0%nat ∈ heap) by (eapply list_elem_of_lookup_2, list_lookup_lookup_total_lt, Hn).
  assert (Hworst : forall x, x ∈ heap -> sample_candidate_gt (heap !!! 0%nat) x = false).
  { intros x [i Hi]%list_elem_of_lookup. apply lookup_lt_Some in Hi as Hil.
    pose proof (heap_root heap i Hf Ho Hil) as Hg. by rewrite (list_lookup_total_correct _ _ _ Hi) in Hg. }
  generalize dependent (heap !!! 0%nat). intros r Hroot Hworst.
  assert (Hne : qsort_candidates heap <> []).
  { intros E. rewrite E in Hp. apply Permutation_length in Hp. cbn in Hp. lia. }
  pose proof (app_removelast_last r Hne) as Hsplit. set (w := List.last _ _) in *.
  set (l := removelast _) in *. rewrite Hsplit. do 2 f_equal.
  assert (Hw : w ∈ heap) by (rewrite <- Hp, Hsplit; apply elem_of_app; right; by left).
  pose proof Hroot as Hr. rewrite <- Hp, Hsplit in Hr. apply elem_of_app in Hr as [Hr|Hr%list_elem_of_singleton]; [|done].
  rewrite Hsplit in Hs. apply StronglySorted_app in Hs as (Hs & _ & _).
  pose proof (Hs _ w Hr ltac:(by left)) as Hle. pose proof Hf as Hf'. rewrite Forall_forall in Hf'.
  rewrite cmp_le_iff in Hle by auto. pose proof (Hworst w Hw) as Hg.
  apply (cands_ok_same heap); [done..|]. destruct (decide (c_id w = c_id r)) as [|Hid]; [done|].
  apply cand_gt_total in Hg; [congruence | auto..].
Qed.

(** The heap with its running sum is the sorted list with the same sum. *)
Lemma heap_stream_sorted cap cs : (0 < cap)%nat -> cands_ok cs ->
  let h := foldl (heap_offer cap) (Heap [] F0) cs in
  foldl (sorted_offer cap) ([], F0) cs = (qsort_candidates (h_heap h), h_sum h).
Proof.
  intros Hcap. induction cs as [|c cs IH] using rev_ind; intros Hok; [done|]. rewrite !foldl_app. cbn [foldl].
  pose proof (cands_ok_app_l _ _ Hok) as Hcs. cbv zeta in IH. rewrite IH by done.
  destruct (heap_stream_keeps cap Hcap cs Hcs) as [Ho Hl (rest & Hp & Hgt)].
  set (h := foldl (heap_offer cap) (Heap [] F0) cs) in *. destruct h as [heap sum]. cbn [h_heap h_sum] in *.
  assert (Hsub : cands_ok (heap ++ [c])).
  { rewrite Hp, <- app_assoc, (Permutation_app_comm rest), app_assoc in Hok. by apply cands_ok_app_l in Hok. }
  pose proof (cands_ok_app_l _ _ Hsub) as Hheap. pose proof (qsort_perm heap) as Hq.
  unfold sorted_offer, heap_offer. cbn [h_heap h_sum]. rewrite (Permutation_length Hq).
  destruct (Nat.ltb_spec (length heap) cap) as [Hlt|Hge]; cbn [h_heap h_sum].
  - f_equal. apply qsort_unique; [by rewrite Hq|]. rewrite Hq. symmetry.
    destruct (heap_push_ok cap Hcap heap c) as [_ Hp']; [apply Hsub | done | exact Hp'].
  - pose proof (heap_root_last heap Hheap Ho ltac:(lia)) as Hlast. rewrite Hlast, last_snoc, removelast_last.
    set (r := heap !!! 0%nat) in *. set (l := removelast (qsort_candidates heap)) in *.
    assert (Hrc : r ∈ heap) by (eapply list_elem_of_lookup_2, list_lookup_lookup_total_lt; lia).
    pose proof Hsub as [Hf _]. apply Forall_app in Hf as [Hf [Hc _]%Forall_cons]. rewrite Forall_forall in Hf.
    destruct (sample_candidate_gt c r) eqn:Eg; cbn [h_heap h_sum].
    + rewrite bool_decide_eq_false_2 by (rewrite cmp_le_iff by auto; congruence). f_equal.
      destruct (heap_replace_ok cap Hcap heap c) as [_ Hp']; [by constructor; [|apply Forall_forall]|done|lia|].
      assert (Hcons : exists tl, heap = r :: tl).
      { clear -Hge Hcap. unfold r. clear r. destruct heap as [|x tl]; [cbn in *; lia | by exists tl]. }
      clearbody l r. destruct Hcons as [tl ->]. cbn [insert list_insert] in Hp'.
      assert (Htl : l ≡ₚ tl).
      { apply (Permutation_cons_inv (a := r)). rewrite <- Hq, Hlast. by rewrite Permutation_cons_append. }
      symmetry. apply qsort_unique; [|by rewrite Hp', Htl, Permutation_cons_append].
      rewrite Hp'. apply (cands_ok_app_r [r]). rewrite (Permutation_cons_append tl c). exact Hsub.
    + rewrite bool_decide_eq_true_2; [by rewrite Hlast|]. apply cmp_le_iff; [auto..|exact Eg].
Qed.

Lemma top_k_sum_heap cap cs : (0 < cap)%nat -> cands_ok cs ->
  top_k_sum cap cs = h_sum (foldl (heap_offer cap) (Heap [] F0) cs).
Proof. intros Hcap Hok. unfold top_k_sum. by rewrite heap_stream_sorted. Qed.

(** Without evictions it is the plain sum. *)
Lemma top_k_sum_all cap cs : (length cs <= cap)%nat -> top_k_sum cap cs = sum_probs cs.
Proof.
  intros Hlen. unfold top_k_sum, sum_probs.
  assert (H : forall kept s, (length kept + length cs <= cap)%nat ->
    snd (foldl (sorted_offer cap) (kept, s) cs) = foldl (fun s c => F32.add s (c_prob c)) s cs).
  { clear Hlen. induction cs as [|c cs IH]; intros kept s Hl; [done|]. cbn [foldl length] in *.
    unfold sorted_offer at 2. rewrite (proj2 (Nat.ltb_lt _ _)) by lia. apply IH.
    rewrite (Permutation_length (qsort_perm _)), length_app. cbn. lia. }
  by apply H.
Qed.

(** Sort all finite candidates, keep the first [top_k] if that is set, filter
    from the best one down, normalize. *)
Definition reference_probabilities (logits : list spec_float) (temperature : spec_float)
    (top_k : Z) (top_p min_p : spec_float) : option (list spec_float) :=
  let finite := candidates expf logits (max_finite_logit logits) temperature in
  let full_sum := sum_probs finite in
  let top_k := clamp_top_k top_k (zlen logits) in
  if (length logits =? 0)%nat then None
  else if fle temperature F0 || (length finite =? 0)%nat || fle full_sum F0 || negb (isfinite full_sum)
  then Some (all_on_argmax disable_unrolled logits)
  else
    let sorted := qsort_candidates finite in
    let kept := if 0 <? top_k then take (Z.to_nat top_k) sorted else sorted in
    let base_sum := if 0 <? top_k then top_k_sum (Z.to_nat top_k) finite else full_sum in
    let min_raw := F32.mul (c_prob (sorted !!! 0%nat)) (clamp_min_p min_p) in
    Some (normalized (length logits) kept (filter_loop base_sum min_raw (clamp_top_p top_p) 0 kept F0)).

(** A loop that ended early does not see what follows. *)
Lemma filter_loop_app b m p l k : forall i s,
  let f := filter_loop b m p i l s in
  fl_stopped f || fl_reached f = true -> filter_loop b m p i (l ++ k) s = f.
Proof.
  induction l as [|c l IH]; intros i s; cbn [filter_loop app]; [done|].
  repeat case_if; try done. intros H. by apply IH.
Qed.

Lemma filter_loop_n b m p l : forall i s, (fl_n (filter_loop b m p i l s) <= i + length l)%nat.
Proof.
  induction l as [|c l IH]; intros i s; cbn [filter_loop length]; [cbn; lia|].
  repeat case_if; cbn [fl_n]; [lia|lia|]. etrans; [apply IH | lia].
Qed.

Lemma normalized_app n l k f : l <> [] -> (fl_n f <= length l)%nat -> normalized n (l ++ k) f = normalized n l f.
Proof.
  intros Hl Hn. unfold normalized. rewrite take_app_le by done.
  rewrite lookup_total_app_l; [done|]. destruct l; [done | cbn; lia].
Qed.

Lemma build_is_reference logits temperature top_k top_p min_p :
  sample_build_probabilities expf disable_unrolled logits temperature top_k top_p min_p =
  reference_probabilities logits temperature top_k top_p min_p.
Proof.
  unfold sample_build_probabilities, reference_probabilities. cbv zeta. change (zlen logits) with (Z.of_nat (length logits)).
  destruct (length logits =? 0)%nat; [done|]. destruct (fle temperature F0); [done|].
  pose proof (candidates_ok logits (max_finite_logit logits) temperature) as Hok.
  set (cs := candidates expf logits _ temperature) in *. clearbody cs.
  destruct (Nat.eqb_spec (length cs) 0) as [|Hcs]; [done|]. cbn [orb].
  set (k := clamp_top_k top_k _). clearbody k.
  set (cap := if 0 <? k then Z.to_nat k else SAMPLE_PROB_FAST_CAP).
  assert (Hcap : (0 < cap)%nat).
  { subst cap. destruct (Z.ltb_spec 0 k); [lia|]. unfold SAMPLE_PROB_FAST_CAP. lia. }
  destruct (heap_is_prefix cap Hcap cs Hok) as [Hsort Hlen]. cbv zeta in Hsort, Hlen.
  assert (Hne : (length (h_heap (foldl (heap_offer cap) (Heap [] F0) cs)) =? 0)%nat = false)
    by (apply Nat.eqb_neq; lia).
  rewrite Hsort, Hlen. rewrite Hlen in Hne. rewrite Hne, orb_false_r.
  destruct (fle (sum_probs cs) F0 || negb (isfinite (sum_probs cs))); [done|].
  set (sorted := qsort_candidates cs) in *.
  assert (Hsl : length sorted = length cs) by (subst sorted; by rewrite qsort_perm).
  assert (Hhead : take cap sorted !!! 0%nat = sorted !!! 0%nat).
  { destruct sorted as [|x sorted']; [cbn in Hsl; lia|]. by destruct cap; [lia|]. }
  rewrite Hhead. set (m := F32.mul (c_prob (sorted !!! 0%nat)) (clamp_min_p min_p)).
  destruct (Z.ltb_spec 0 k) as [Hk|]; cbn [orb]; [by rewrite top_k_sum_heap by done|].
  set (f := filter_loop (sum_probs cs) m (clamp_top_p top_p) 0 (take cap sorted) F0).
  case_if; [|done]. f_equal.
  destruct (Nat.eqb_spec (length cs `min` cap)%nat (length cs)) as [He|Hlt].
  { subst f. rewrite take_ge by lia. done. }
  assert (Hf : fl_stopped f || fl_reached f = true).
  { cbn [orb] in E. apply orb_true_iff in E as [->|[-> _]%andb_true_iff]; [apply orb_true_r | done]. }
  pose proof (filter_loop_n (sum_probs cs) m (clamp_top_p top_p) (take cap sorted) 0 F0) as Hn.
  pose proof (filter_loop_app (sum_probs cs) m (clamp_top_p top_p) (take cap sorted) (drop cap sorted) 0 F0 Hf) as Hwhole.
  fold f in Hn, Hwhole. rewrite take_drop in Hwhole. rewrite Hwhole.
  rewrite <- (take_drop cap sorted) at 2. rewrite normalized_app; [done|..|lia].
  intros Hnil. apply (f_equal length) in Hnil. rewrite length_take in Hnil. cbn [length] in Hnil. lia.
Qed.
End Reference.

(** ** The insertion scan keeps the same candidates *)

Section TopK.

Definition ranked_of (c : sample_candidate) : nat * spec_float := (c_id c, c_logit c).

(** A sorted list splits where [v] belongs. *)
Lemma sorted_split l v : Forall finite_cand l -> isfinite v = true -> StronglySorted cmp_le l ->
  exists l1 l2, l = l1 ++ l2 /\ Forall (fun c => SFltb (c_logit c) v = false) l1 /\
    Forall (fun c => SFltb (c_logit c) v = true) l2.
Proof.
  intros Hf Hv Hs. induction l as [|a l IH]; [by exists [], []|].
  apply Forall_cons in Hf as [Ha Hf]. apply StronglySorted_inv in Hs as [Hs Hall].
  destruct (SFltb (c_logit a) v) eqn:E.
  - exists [], (a :: l). split_and!; [done|constructor|]. constructor; [done|].
    rewrite Forall_forall in *. intros c Hc. pose proof (Hall c Hc) as Hac.
    rewrite cmp_le_iff in Hac by auto. apply not_true_iff_false in Hac. rewrite cand_gt_iff in Hac.
    pose proof (isfinite_key _ Ha) as Ka. pose proof (isfinite_key _ (Hf c Hc)) as Kc.
    destruct (SFltb_total _ _ Kc Ka) as [H|[H|H]]; [by eapply SFltb_trans| |tauto].
    by rewrite (SFeqb_ltb_l _ _ _ H).
  - destruct (IH Hf Hs) as (l1 & l2 & -> & H1 & H2). exists (a :: l1), l2. split_and!; [done|by constructor|done].
Qed.

(** A newcomer with the greatest id sorts in right there. *)
Lemma qsort_snoc l c l1 l2 : cands_ok (l ++ [c]) -> Forall (fun x => (c_id x < c_id c)%nat) l ->
  qsort_candidates l = l1 ++ l2 ->
  Forall (fun x => SFltb (c_logit x) (c_logit c) = false) l1 ->
  Forall (fun x => SFltb (c_logit x) (c_logit c) = true) l2 ->
  qsort_candidates (l ++ [c]) = l1 ++ c :: l2.
Proof.
  intros Hok Hid Hq H1 H2. pose proof Hok as [Hf _]. apply Forall_app in Hf as [Hf Hc]. apply Forall_cons in Hc as [Hc _].
  pose proof (qsort_perm l) as Hp. pose proof (qsort_sorted l Hf) as Hs. rewrite Hq in Hp, Hs.
  rewrite <- Hp in Hf, Hid. apply Forall_app in Hf as [Hf1 Hf2]. apply Forall_app in Hid as [Hi1 Hi2].
  apply StronglySorted_app in Hs as (H12 & Hs1 & Hs2). rewrite Forall_forall in *.
  apply sorted_unique; [by rewrite qsort_perm|by apply qsort_sorted, Hok| |].
  - apply StronglySorted_app. split_and!; [|done|constructor; [done|]].
    + intros a b Ha [->|Hb]%elem_of_cons; [|auto]. apply cmp_le_iff; [auto..|].
      apply not_true_iff_false. rewrite cand_gt_iff. intros [H|[_ H]]; [by rewrite H1 in H|].
      specialize (Hi1 a Ha). lia.
    + apply Forall_forall. intros b Hb. apply cmp_le_iff; [auto..|]. apply cand_gt_asym, cand_gt_iff. left. auto.
  - rewrite qsort_perm, <- Hp. solve_Permutation.
Qed.

(** The loop stops at the split. *)
Lemma shift_pos_split l1 l2 v n :
  Forall (fun iw => SFltb (snd iw) v = false) l1 -> Forall (fun iw => SFltb (snd iw) v = true) l2 ->
  (n <= length (l1 ++ l2))%nat -> shift_pos (l1 ++ l2) n v = (n `min` length l1)%nat.
Proof.
  intros H1 H2. induction n as [|n IH]; intros Hn; [done|]. cbn [shift_pos].
  rewrite length_app in *. destruct (decide (n < length l1)%nat).
  - rewrite lookup_total_app_l by done.
    rewrite (Forall_lookup_1 _ _ n _ H1 (list_lookup_lookup_total_lt l1 n ltac:(lia))). lia.
  - rewrite lookup_total_app_r by lia.
    rewrite (Forall_lookup_1 _ _ (n - length l1)%nat _ H2
      (list_lookup_lookup_total_lt l2 (n - length l1) ltac:(lia))).
    rewrite IH; lia.
Qed.

Lemma fle_not_lt f g : isfinite f = true -> isfinite g = true -> fle f g = negb (SFltb g f).
Proof.
  intros Hf%isfinite_key Hg%isfinite_key. unfold fle.
  assert (SFleb f g = SFltb f g || SFeqb f g) as ->.
  { unfold SFleb, SFltb, SFeqb. by destruct (SFcompare f g) as [[]|]. }
  destruct (SFltb_total _ _ Hf Hg) as [H|[H|H]].
  - by rewrite H, (SFltb_asym _ _ H).
  - by rewrite H, (SFeqb_ltb_r _ _ _ H), SFltb_irrefl, orb_true_r.
  - rewrite H, (SFltb_asym _ _ H). cbn. apply not_true_iff_false. intros He.
    by rewrite (SFeqb_ltb_r _ _ _ He), SFltb_irrefl in H.
Qed.

(** One offer to a full or growing list that is the front of a sorted one. *)
Lemma top_k_offer_split k l1 l2 i v : (0 < k)%nat -> isfinite v = true ->
  Forall (fun iw => isfinite (snd iw) = true) (l1 ++ l2) ->
  Forall (fun iw => SFltb (snd iw) v = false) l1 -> Forall (fun iw => SFltb (snd iw) v = true) l2 ->
  top_k_offer k (take k (l1 ++ l2)) (i, v) = take k (l1 ++ (i, v) :: l2).
Proof.
  intros Hk Hv Hf H1 H2. unfold top_k_offer. rewrite Hv. cbn [negb].
  rewrite length_take. set (n := length (l1 ++ l2)). destruct (decide (n < k)%nat) as [Hlt|Hge].
  - replace (k `min` n)%nat with n by lia.
    destruct (Nat.eqb_spec n k); [lia|]. cbn [andb]. destruct (Nat.ltb_spec n k); [|lia].
    rewrite (take_ge (l1 ++ l2)) by lia. rewrite shift_pos_split by (auto; lia). subst n. rewrite length_app in *.
    replace ((length l1 + length l2) `min` length l1)%nat with (length l1) by lia.
    rewrite take_app_length, drop_app_length, (take_ge l2), take_ge by (rewrite ?length_app; cbn; lia). done.
  - replace (k `min` n)%nat with k by lia. rewrite Nat.eqb_refl, Nat.ltb_irrefl. cbn [andb].
    rewrite lookup_total_take_lt by lia.
    assert (Hlast : isfinite (snd ((l1 ++ l2) !!! (k - 1)%nat)) = true).
    { exact (Forall_lookup_1 _ _ _ _ Hf (list_lookup_lookup_total_lt (l1 ++ l2) (k - 1) ltac:(lia))). }
    rewrite (fle_not_lt _ _ Hv Hlast). destruct (decide (k <= length l1)%nat) as [Hin|Hout].
    + rewrite lookup_total_app_l by lia.
      rewrite (Forall_lookup_1 _ _ (k - 1)%nat _ H1 (list_lookup_lookup_total_lt l1 (k - 1) ltac:(lia))). cbn [negb].
      by rewrite !take_app_le by done.
    + subst n. rewrite length_app in *. rewrite lookup_total_app_r by lia.
      rewrite (Forall_lookup_1 _ _ (k - 1 - length l1)%nat _ H2
        (list_lookup_lookup_total_lt l2 (k - 1 - length l1) ltac:(lia))). cbn [negb].
      rewrite take_app_ge by lia.
      rewrite shift_pos_split; [|done|by apply Forall_take|rewrite length_app, length_take; lia].
      replace ((k - 1) `min` length l1)%nat with (length l1) by lia.
      rewrite take_app_length, drop_app_length, take_take, take_app_ge by lia.
      replace (k - length l1)%nat with (S (k - 1 - length l1)) by lia. cbn [take].
      replace ((k - 1 - length l1) `min` S (k - 1 - length l1))%nat with (k - 1 - length l1)%nat by lia. done.
Qed.

Lemma top_k_scan_sorted expf m t k logits : (0 < k)%nat ->
  top_k_scan k logits = ranked_of <$> take k (qsort_candidates (candidates expf logits m t)).
Proof.
  intros Hk. unfold top_k_scan. induction logits as [|v l IH] using rev_ind; [by destruct k|].
  pose proof (candidates_ok expf (l ++ [v]) m t) as Hok. rewrite candidates_snoc in *.
  rewrite imap_app, foldl_app, IH. cbn [imap foldl]. rewrite Nat.add_0_r.
  destruct (isfinite v) eqn:E; [|unfold top_k_offer; by rewrite E, app_nil_r].
  set (cs := candidates expf l m t) in *. pose proof (cands_ok_app_l _ _ Hok) as [Hf _].
  set (c := Cand (length l) v _) in *.
  destruct (sorted_split (qsort_candidates cs) v) as (l1 & l2 & Hq & H1 & H2);
    [by rewrite qsort_perm|done|by apply qsort_sorted|].
  rewrite (qsort_snoc cs c l1 l2 Hok); [| |done..].
  - rewrite Hq, !fmap_take, !fmap_app.
    change (ranked_of <$> c :: l2) with ((length l, v) :: (ranked_of <$> l2)).
    apply (top_k_offer_split k (ranked_of <$> l1) (ranked_of <$> l2));
      [done..| | |].
    + rewrite <- fmap_app, <- Hq. apply Forall_fmap. rewrite qsort_perm. done.
    + by apply Forall_fmap.
    + by apply Forall_fmap.
  - apply Forall_forall. intros x (Hl & _)%candidates_spec. by apply lookup_lt_Some in Hl.
Qed.
End TopK.

(** ** The generator's step loses nothing *)

Section Rng.
Definition is_state (x : Z) : Prop := 0 < x <= U64_MAX.

Lemma lxor_swap x a y b : Z.lxor x a = Z.lxor y b -> Z.lxor x y = Z.lxor a b.
Proof.
  intros H. apply Z.bits_inj'. intros i _. apply (f_equal (fun z => Z.testbit z i)) in H.
  rewrite !Z.lxor_spec in *. by destruct (Z.testbit x i), (Z.testbit a i), (Z.testbit y i), (Z.testbit b i).
Qed.

(** A number that is its own shift is zero. *)
Lemma lxor_shiftr_inj k x y : 0 < k -> 0 <= x -> 0 <= y ->
  Z.lxor x (Z.shiftr x k) = Z.lxor y (Z.shiftr y k) -> x = y.
Proof.
  intros Hk Hx Hy Hs%lxor_swap. rewrite <- Z.shiftr_lxor in Hs. set (d := Z.lxor x y) in *.
  assert (Hd : 0 <= d) by (apply Z.lxor_nonneg; lia).
  apply Z.lxor_eq. fold d. rewrite Z.shiftr_div_pow2 in Hs by lia.
  assert (1 < 2 ^ k) by (apply Z.pow_gt_1; lia).
  destruct (Z.eq_dec d 0); [done|]. pose proof (Z.div_lt d (2 ^ k) ltac:(lia) ltac:(lia)). lia.
Qed.

Lemma u64_testbit x i : 0 <= i -> Z.testbit (u64 x) i = (i <? 64) && Z.testbit x i.
Proof.
  intros Hi. unfold u64. change 18446744073709551616 with (2 ^ 64).
  destruct (Z.ltb_spec i 64); [by rewrite Z.mod_pow2_bits_low | by rewrite Z.mod_pow2_bits_high].
Qed.

Lemma lxor_shiftl_inj k x y : 0 < k -> is_u64 x -> is_u64 y ->
  Z.lxor x (u64 (Z.shiftl x k)) = Z.lxor y (u64 (Z.shiftl y k)) -> x = y.
Proof.
  intros Hk Hx Hy Hs%lxor_swap. set (d := Z.lxor x y) in *.
  assert (Hb : forall i, 0 <= i -> Z.testbit d i = (i <? 64) && Z.testbit d (i - k)).
  { intros i Hi. rewrite Hs at 1. rewrite Z.lxor_spec, !u64_testbit, !Z.shiftl_spec by done. unfold d.
    rewrite Z.lxor_spec. by destruct (i <? 64). }
  apply Z.lxor_eq. fold d. clear Hs. clearbody d.
  assert (Hz : forall i, 0 <= i -> Z.testbit d i = false).
  { apply Z_lt_induction. intros i IH. destruct (Z.ltb_spec i 0); [by apply Z.testbit_neg_r|].
    rewrite Hb by done. destruct (Z.ltb_spec (i - k) 0).
    - rewrite Z.testbit_neg_r by done. apply andb_false_r.
    - rewrite IH by lia. apply andb_false_r. }
  apply Z.bits_inj_0. intros i. destruct (Z.ltb_spec i 0); [by apply Z.testbit_neg_r | by apply Hz].
Qed.

Lemma lxor_u64 x y : is_u64 x -> is_u64 y -> is_u64 (Z.lxor x y).
Proof.
  intros Hx Hy. assert (Z.lxor x y = u64 (Z.lxor x y)) as ->; [|apply u64_range].
  apply Z.bits_inj'. intros i Hi. rewrite u64_testbit, Z.lxor_spec by done.
  rewrite <- (u64_small x), <- (u64_small y), !u64_testbit by done. by destruct (i <? 64).
Qed.

Lemma shiftr_u64 x k : 0 <= k -> is_u64 x -> is_u64 (Z.shiftr x k).
Proof.
  unfold is_u64. intros Hk Hx. rewrite Z.shiftr_div_pow2 by done.
  assert (0 < 2 ^ k) by (apply Z.pow_pos_nonneg; lia). split; [apply Z.div_pos; lia|].
  etrans; [|apply Hx]. apply Z.div_le_upper_bound; nia.
Qed.

Lemma rng_next_u64 s : is_u64 s -> is_u64 (fst (sample_rng_next s)).
Proof.
  intros Hs. unfold sample_rng_next. cbn [fst].
  set (x := if s =? 0 then RNG_SEED else s).
  assert (is_u64 x) by (subst x; destruct (s =? 0); [done | done]).
  repeat apply lxor_u64; try done; try apply u64_range; repeat apply shiftr_u64; try lia;
    repeat apply lxor_u64; try apply u64_range; try apply shiftr_u64; try done; lia.
Qed.

Lemma rng_next_inj s s' : is_state s -> is_state s' ->
  fst (sample_rng_next s) = fst (sample_rng_next s') -> s = s'.
Proof.
  intros Hs Hs'. unfold sample_rng_next. cbn [fst].
  destruct (Z.eqb_spec s 0); [unfold is_state in *; lia|].
  destruct (Z.eqb_spec s' 0); [unfold is_state in *; lia|].
  assert (is_u64 s /\ is_u64 s') as [H1 H2] by (unfold is_state, is_u64 in *; lia).
  assert (H3 : is_u64 (Z.lxor s (Z.shiftr s 12))) by (by apply lxor_u64, shiftr_u64).
  assert (H4 : is_u64 (Z.lxor s' (Z.shiftr s' 12))) by (by apply lxor_u64, shiftr_u64).
  intros H%lxor_shiftr_inj; [| lia | apply lxor_u64, u64_range; done | apply lxor_u64, u64_range; done].
  apply lxor_shiftl_inj in H; [|lia|done..]. apply lxor_shiftr_inj in H; [done | lia | apply H1 | apply H2].
Qed.

Lemma rng_next_state s : is_u64 s -> is_state (fst (sample_rng_next s)).
Proof.
  intros Hs. pose proof (rng_next_u64 s Hs) as Hu. split; [|apply Hu].
  destruct (Z.eq_dec (fst (sample_rng_next s)) 0) as [E|]; [|unfold is_u64 in Hu; lia]. exfalso.
  set (x := if s =? 0 then RNG_SEED else s).
  assert (Hx : is_state x).
  { subst x. destruct (Z.eqb_spec s 0); [done|]. unfold is_state, is_u64 in *. lia. }
  assert (Hx' : is_u64 x) by (unfold is_state, is_u64 in *; lia).
  assert (Hn : Z.lxor (Z.lxor x (Z.shiftr x 12)) (u64 (Z.shiftl (Z.lxor x (Z.shiftr x 12)) 25)) = 0).
  { apply (lxor_shiftr_inj 27); [lia| |lia|exact E].
    apply lxor_u64; [apply lxor_u64, shiftr_u64; done || lia | apply u64_range]. }
  apply (lxor_shiftl_inj 25 _ 0) in Hn; [|lia|apply lxor_u64, shiftr_u64; done || lia|done].
  apply (lxor_shiftr_inj 12 x 0) in Hn; [|lia|apply Hx'|lia]. unfold is_state in Hx. lia.
Qed.
End Rng.

(** ** What a draw returns *)

Section Draws.

Lemma draw_positive probs : forall i r t, draw probs i r = Some t ->
  exists j p, t = (i + j)%nat /\ probs !! j = Some p /\ isfinite p = true /\ fle p F0 = false.
Proof.
  induction probs as [|p probs IH]; intros i r t; cbn [draw]; [done|].
  case_if.
  - intros (j & q & -> & ? & ? & ?)%IH. exists (S j), q. split_and!; [lia | done..].
  - bool_prop. case_if.
    + intros [= <-]. exists 0%nat, p. by rewrite Nat.add_0_r.
    + intros (j & q & -> & ? & ? & ?)%IH. exists (S j), q. split_and!; [lia | done..].
Qed.

(** The scan for the best entry goes up from where it starts. *)
Lemma best_prob_spec probs : forall i best best_p,
  isfinite best_p = true -> Forall (fun p => isfinite p = true) probs ->
  let b := best_prob probs i best best_p in
  exists p, (b = best /\ p = best_p \/ exists j, b = (i + j)%nat /\ probs !! j = Some p) /\
    SFltb p best_p = false /\ forall j q, probs !! j = Some q -> SFltb p q = false.
Proof.
  induction probs as [|p probs IH]; intros i best best_p Hb Hf; cbn [best_prob].
  { exists best_p. split_and!; [by left | apply SFltb_irrefl | done]. }
  apply Forall_cons in Hf as [Hp Hf]. unfold fgt. destruct (SFltb best_p p) eqn:E.
  - destruct (IH (S i) i p Hp Hf) as (q & Hq & Hqp & Hall). exists q. split_and!.
    + right. destruct Hq as [[-> ->]|(j & -> & Hj)]; [exists 0%nat | exists (S j)]; (split; [lia | done]).
    + apply not_true_is_false. intros H. by rewrite (SFltb_trans _ _ _ H E) in Hqp.
    + intros [|j] r Hr; cbn in Hr; [by injection Hr as <- | by eapply Hall].
  - destruct (IH (S i) best best_p Hb Hf) as (q & Hq & Hqp & Hall). exists q. split_and!.
    + destruct Hq as [[-> ->]|(j & -> & Hj)]; [by left | right; exists (S j)]. split; [lia | done].
    + done.
    + intros [|j] r Hr; cbn in Hr; [|by eapply Hall]. injection Hr as <-.
      apply not_true_is_false. intros H.
      assert (Hqf : is_Some (float_key q)) by apply (SFltb_key _ _ H).
      destruct (SFltb_total q best_p Hqf (isfinite_key _ Hb)) as [K|[K|K]]; [congruence| |].
      * by rewrite <- (SFeqb_ltb_l _ _ _ K), H in E.
      * by rewrite (SFltb_trans _ _ _ K H) in E.
Qed.

Lemma fle_F0_false p : isfinite p = true -> fle p F0 = false <-> fgt p F0 = true.
Proof.
  intros Hp. rewrite fle_not_lt by done. unfold fgt. by destruct (SFltb F0 p).
Qed.

(** With something to choose from, the choice has a positive probability. *)
Lemma sample_probabilities_positive probs rng : Forall (fun p => isfinite p = true) probs ->
  Exists (fun p => fgt p F0 = true) probs ->
  exists t p, snd (sample_probabilities probs rng) = Some t /\ probs !! t = Some p /\ positive p = true.
Proof.
  intros Hf Hex. destruct probs as [|p0 probs']; [by apply Exists_nil in Hex|].
  set (probs := p0 :: probs') in *.
  assert (Hp0 : isfinite p0 = true) by by apply Forall_cons in Hf as [? _].
  assert (Hbest : exists p, probs !! best_prob probs 0 0 p0 = Some p /\ positive p = true).
  { destruct (best_prob_spec probs 0 0 p0 Hp0 Hf) as (p & Hp & _ & Hall). exists p.
    assert (Hin : probs !! best_prob probs 0 0 p0 = Some p).
    { destruct Hp as [[-> ->]|(j & -> & Hj)]; done. }
    split; [done|]. pose proof (Forall_lookup_1 _ _ _ _ Hf Hin) as Hpf. cbn beta in Hpf.
    unfold positive. rewrite Hpf, andb_true_r.
    apply Exists_exists in Hex as (q & [j Hj]%list_elem_of_lookup & Hq). pose proof (Hall _ _ Hj) as Hqp.
    pose proof (Forall_lookup_1 _ _ _ _ Hf Hj) as Hqf. cbn beta in Hqf. unfold fgt in *.
    destruct (SFltb_total p q (isfinite_key _ Hpf) (isfinite_key _ Hqf)) as [K|[K|K]]; [congruence| |].
    - by rewrite (SFeqb_ltb_r _ _ _ K).
    - by eapply SFltb_trans. }
  unfold sample_probabilities. unfold probs at 1. cbv iota beta zeta.
  set (sum := foldl _ F0 probs). case_if; cbn [snd]; [destruct Hbest as (p & ? & ?); eauto|].
  destruct (sample_rng_f32 rng) as [rng' u]. cbn [snd].
  destruct (draw _ _ _) as [t|] eqn:Ed; cbn [default]; [|destruct Hbest as (p & ? & ?); eauto].
  apply draw_positive in Ed as (j & p & -> & Hj & Hpf & Hpp). exists j, p. split_and!; [done..|].
  unfold positive. rewrite Hpf, andb_true_r. by apply fle_F0_false.
Qed.

(** A draw among filtered candidates returns one of them. *)
Lemma draw_candidate_in l : forall r t, draw_candidate l r = Some t -> exists c, c ∈ l /\ t = c_id c.
Proof.
  induction l as [|c l IH]; intros r t; cbn [draw_candidate]; [done|]. case_if.
  - intros [= <-]. exists c. split; [left | done].
  - intros (d & ? & ->)%IH. exists d. split; [by right | done].
Qed.

Lemma scaled_filter_loop_n s m p l : forall i fs, (fl_n (scaled_filter_loop s m p i l fs) <= i + length l)%nat.
Proof.
  induction l as [|c l IH]; intros i fs; cbn [scaled_filter_loop length]; [cbn; lia|].
  repeat case_if; cbn [fl_n]; [lia|lia|]. etrans; [apply IH | lia].
Qed.

Lemma draw_filtered_in l f rng : (0 < fl_n f <= length l)%nat ->
  exists c, c ∈ l /\ snd (draw_filtered l f rng) = c_id c.
Proof.
  intros Hn. unfold draw_filtered. destruct (sample_rng_f32 rng) as [rng' u]. cbn [snd].
  destruct (draw_candidate _ _) as [t|] eqn:E; cbn [default].
  - apply draw_candidate_in in E as (c & Hc & ->). exists c. split; [|done].
    apply list_elem_of_lookup in Hc as [i Hi]. apply lookup_take_Some in Hi as [Hi _].
    by eapply list_elem_of_lookup_2.
  - exists (l !!! (fl_n f - 1)%nat). split; [|done]. apply list_elem_of_lookup_total_2. lia.
Qed.

Lemma draw_kept_in l : forall i r t, draw_kept l i r = Some t ->
  exists j p, t = (i + j)%nat /\ l !! j = Some p /\ SFltb p F0 = false.
Proof.
  induction l as [|p l IH]; intros i r t; cbn [draw_kept]; [done|]. case_if.
  - intros (j & q & -> & ? & ?)%IH. exists (S j), q. split_and!; [lia | done..].
  - case_if.
    + intros [= <-]. exists 0%nat, p. by rewrite Nat.add_0_r.
    + intros (j & q & -> & ? & ?)%IH. exists (S j), q. split_and!; [lia | done..].
Qed.
End Draws.

(** ** The sampler returns a token it may return *)

Section Eligible.
Context (expf logf : spec_float -> spec_float) (nextafterf : spec_float -> spec_float -> spec_float).
Context (disable_unrolled : bool) (logits : list spec_float).

(** A token with a finite logit. *)
Definition eligible (t : nat) : Prop := exists v, logits !! t = Some v /\ isfinite v = true.

Lemma candidate_eligible m t c : c ∈ candidates expf logits m t -> eligible (c_id c).
Proof. intros (Hl & Hf & _)%candidates_spec. by eexists. Qed.

Lemma qsort_eligible m t cs c : (forall x, x ∈ cs -> x ∈ candidates expf logits m t) ->
  c ∈ qsort_candidates cs -> eligible (c_id c).
Proof. intros Hs Hc. rewrite qsort_perm in Hc. by eapply candidate_eligible, Hs. Qed.

Lemma finite_best_spec l : forall i bv,
  let r := finite_best l i bv in
  (r = bv /\ Forall (fun v => isfinite v && fgt v (snd bv) = false) l) \/
  exists j v, fst r = (i + j)%nat /\ l !! j = Some v /\ isfinite v = true.
Proof.
  induction l as [|v l IH]; intros i bv; cbn [finite_best]; [left; by split|]. cbv zeta.
  destruct (isfinite v && fgt v (snd bv)) eqn:E.
  - right. destruct (IH (S i) (i, v)) as [[-> _]|(j & w & -> & ? & ?)].
    + exists 0%nat, v. apply andb_true_iff in E as [? _]. cbn. by rewrite Nat.add_0_r.
    + exists (S j), w. split_and!; [lia | done..].
  - destruct (IH (S i) bv) as [[-> Hall]|(j & w & -> & ? & ?)]; [left; split; [done | by constructor]|].
    right. exists (S j), w. split_and!; [lia | done..].
Qed.

(** Some logit is finite and above the floor that the scans start from. *)
Hypothesis Hsome : Exists (fun v => isfinite v && fgt v DS4_NEG_INF = true) logits.

Lemma finite_best_eligible : eligible (fst (finite_best logits 0 (0%nat, DS4_NEG_INF))).
Proof.
  destruct (finite_best_spec logits 0 (0%nat, DS4_NEG_INF)) as [[_ Hall]|(j & v & -> & ? & ?)]; [|by exists v].
  apply Exists_exists in Hsome as (v & Hin & Hv). rewrite Forall_forall in Hall. cbn [snd] in Hall.
  by rewrite (Hall v Hin) in Hv.
Qed.

Lemma candidates_nonempty m t : (0 < length (candidates expf logits m t))%nat.
Proof.
  apply Exists_exists in Hsome as (v & [i Hi]%list_elem_of_lookup & [Hf _]%andb_true_iff).
  destruct (candidates expf logits m t) eqn:E; [|cbn; lia]. exfalso.
  apply (not_elem_of_nil (A:=sample_candidate) (Cand i v (expf (F32.div (F32.sub v m) t)))).
  rewrite <- E. by apply candidates_spec.
Qed.

Lemma fast_top_p_eligible max_logit best t p mp rng r : eligible best ->
  sample_fast_top_p expf logits max_logit best t p mp rng = Some r -> eligible (snd r).
Proof.
  intros Hb. unfold sample_fast_top_p. cbv zeta.
  pose proof (candidates_ok expf logits max_logit t) as Hok.
  set (cs := candidates expf logits max_logit t) in *.
  destruct (Nat.eqb_spec (length cs) 0) as [|Hn]; [done|]. case_if; [done|]. clear E.
  set (cap := if (length cs <? SAMPLE_FAST_TOP_P_CAP)%nat then length cs else SAMPLE_FAST_TOP_P_CAP).
  assert (Hcap : (0 < cap)%nat).
  { subst cap. case_if; [lia|]. unfold SAMPLE_FAST_TOP_P_CAP. lia. }
  destruct (heap_is_prefix cap Hcap cs Hok) as [Hsort _]. rewrite Hsort.
  case_if; [by intros [= <-]|]. case_if; [done|]. case_if; [done|]. case_if; [by intros [= <-]|].
  intros [= <-]. bool_prop.
  match goal with |- eligible (snd (draw_filtered ?l ?f _)) =>
    destruct (draw_filtered_in l f rng) as (c & Hc & ->) end.
  - split; [lia|]. etrans; [apply scaled_filter_loop_n|]. lia.
  - apply (qsort_eligible max_logit t cs); [done|]. apply list_elem_of_lookup in Hc as [i Hi].
    apply lookup_take_Some in Hi as [Hi _]. by eapply list_elem_of_lookup_2.
Qed.

Lemma min_p_only_eligible max_logit best t mp rng : eligible best ->
  eligible (snd (sample_min_p_only expf logf nextafterf logits max_logit best t mp rng)).
Proof.
  intros Hb. unfold sample_min_p_only. cbv zeta. case_if; [done|].
  set (w := min_p_weight _ _ _ _ _). case_if; [done|]. destruct (sample_rng_f32 rng) as [rng' u]. cbn [snd].
  destruct (draw_kept _ _ _) as [j|] eqn:Ed; [|done]. cbn [default].
  apply draw_kept_in in Ed as (j' & p & -> & Hj & Hp).
  change (map ?f ?l) with (f <$> l) in Hj. rewrite <- list_fmap_compose, list_lookup_fmap in Hj.
  apply fmap_Some in Hj as (v & Hv & ->). exists v. split; [done|].
  destruct (isfinite v) eqn:Ev; [done|]. exfalso. subst w. cbn in Hp. unfold min_p_weight in Hp.
  by rewrite Ev in Hp.
Qed.

Lemma nucleus_eligible max_logit best t p mp rng : eligible best ->
  eligible (snd (sample_nucleus expf logits max_logit best t p mp rng)).
Proof.
  intros Hb. unfold sample_nucleus. cbv zeta. set (cs := candidates expf logits max_logit t).
  case_if; [done|]. set (kept := if _ && _ then List.filter _ cs else cs).
  assert (Hkept : forall x, x ∈ kept -> x ∈ cs).
  { subst kept. intros x. case_if; [|done]. rewrite !list_elem_of_In, filter_In. tauto. }
  clearbody kept. case_if; [done|]. case_if; [done|]. bool_prop.
  match goal with |- eligible (snd (draw_filtered ?l ?f _)) =>
    destruct (draw_filtered_in l f rng) as (c & Hc & ->) end.
  - split; [lia|]. etrans; [apply scaled_filter_loop_n|]. lia.
  - by apply (qsort_eligible max_logit t kept).
Qed.

Lemma full_vocab_eligible t p mp rng :
  eligible (snd (sample_full_vocab expf logf nextafterf disable_unrolled logits t p mp rng)).
Proof.
  unfold sample_full_vocab. pose proof finite_best_eligible as Hb.
  destruct (finite_best _ _ _) as [best m]. cbn [fst] in Hb.
  destruct (Nat.eqb_spec (length (List.filter isfinite logits)) 0) as [Hn|_].
  - exfalso. apply Exists_exists in Hsome as (v & Hin & [Hf _]%andb_true_iff).
    assert (In v (List.filter isfinite logits)) as H by (apply filter_In; split; [by apply list_elem_of_In | done]).
    by destruct (List.filter isfinite logits).
  - destruct (SFltb p F1).
    + destruct (sample_fast_top_p _ _ _ _ _ _ _ _) as [r|] eqn:Ef; [by eapply fast_top_p_eligible|].
      case_if; [by apply min_p_only_eligible | by apply nucleus_eligible].
    + case_if; [by apply min_p_only_eligible | by apply nucleus_eligible].
Qed.

(** With a top-k the token is one of the [top_k] best. *)
Lemma top_k_eligible t top_k p mp rng m : fle t F0 = false -> 0 < top_k ->
  let k := Z.to_nat (clamp_top_k top_k (zlen logits)) in
  snd (sample_top_p_min_p expf logf nextafterf disable_unrolled logits t top_k p mp rng) ∈
    c_id <$> take k (qsort_candidates (candidates expf logits m t)).
Proof.
  intros Ht Hk k. unfold sample_top_p_min_p. rewrite Ht.
  destruct (Z.leb_spec top_k 0); [lia|]. change (Z.of_nat (length logits)) with (zlen logits). fold k.
  assert (Hn : (0 < length logits)%nat).
  { apply Exists_exists in Hsome as (v & [i Hi]%list_elem_of_lookup & _). apply lookup_lt_Some in Hi. lia. }
  assert (Hk0 : (0 < k)%nat).
  { subst k. unfold clamp_top_k, zlen. repeat case_if; bool_prop; lia. }
  pose proof (candidates_nonempty m t) as Hne. pose proof (top_k_scan_sorted expf m t k logits Hk0) as Hscan.
  rewrite <- (qsort_perm (candidates expf logits m t)) in Hne.
  set (top := take k (qsort_candidates (candidates expf logits m t))) in *.
  assert (Hids : c_id <$> top = fst <$> top_k_scan k logits) by (rewrite Hscan, <- list_fmap_compose; by apply list_fmap_ext).
  rewrite Hids. destruct (top_k_scan k logits) as [|[id0 mx] l] eqn:El.
  { exfalso. apply (f_equal length) in Hscan. rewrite length_fmap in Hscan. subst top.
    rewrite length_take in Hscan. cbn [length] in Hscan. lia. }
  cbv zeta. set (cand := map (weigh expf mx t) ((id0, mx) :: l)).
  assert (Hc : c_id <$> cand = fst <$> (id0, mx) :: l).
  { subst cand. change (map ?f ?l) with (f <$> l). rewrite <- list_fmap_compose. by apply list_fmap_ext. }
  case_if; [cbn; left|]. case_if; [cbn; left|]. bool_prop. rewrite <- Hc.
  match goal with |- snd (draw_filtered _ ?f _) ∈ _ => destruct (draw_filtered_in cand f rng) as (c & Hin & ->) end.
  - split; [lia|]. etrans; [apply scaled_filter_loop_n|]. lia.
  - by apply list_elem_of_fmap_2.
Qed.

Lemma sampled_eligible t top_k p mp rng : fle t F0 = false ->
  eligible (snd (sample_top_p_min_p expf logf nextafterf disable_unrolled logits t top_k p mp rng)).
Proof.
  intros Ht. destruct (decide (0 < top_k)) as [Hk|Hk].
  - pose proof (top_k_eligible t top_k p mp rng F0 Ht Hk) as (c & -> & Hc)%list_elem_of_fmap_1.
    apply list_elem_of_lookup in Hc as [i Hi]. apply lookup_take_Some in Hi as [Hi _].
    eapply qsort_eligible; [done|]. by eapply list_elem_of_lookup_2.
  - unfold sample_top_p_min_p. rewrite Ht. destruct (Z.leb_spec top_k 0); [|lia]. apply full_vocab_eligible.
Qed.
End Eligible.

(** ** The rejection boundary *)

Section Boundary.
Context (expf logf : spec_float -> spec_float) (nextafterf : spec_float -> spec_float -> spec_float).

Lemma fle_lt_trans a b c : fle a b = true -> SFltb b c = true -> SFltb a c = true.
Proof.
  unfold fle. intros Hab Hbc. assert (SFltb a b || SFeqb a b = true) as [H|H]%orb_true_iff.
  { unfold SFleb, SFltb, SFeqb in *. by destruct (SFcompare a b) as [[]|]. }
  - by eapply SFltb_trans.
  - by rewrite (SFeqb_ltb_l _ _ _ H).
Qed.

(** A boundary is a value whose weight is below the minimum. *)
Lemma cutoff_loop_below n : forall cutoff min_rel b,
  cutoff_loop expf nextafterf n cutoff min_rel = Some b -> SFltb (expf b) min_rel = true.
Proof.
  induction n as [|n IH]; intros cutoff min_rel b; cbn [cutoff_loop]; [done|].
  case_if; [|done]. case_if; [by intros [= <-] | apply IH].
Qed.

(** [expf] does not decrease. *)
Hypothesis expf_mono : forall x y, fle x y = true -> fle (expf x) (expf y) = true.

Lemma min_p_weight_boundary max_logit temperature min_rel v :
  min_p_weight expf max_logit temperature min_rel (reject_boundary expf logf nextafterf min_rel) v =
  min_p_weight expf max_logit temperature min_rel None v.
Proof.
  unfold min_p_weight. destruct (isfinite v); [cbn [negb]|done]. cbv zeta.
  unfold reject_boundary. case_if; [|done].
  destruct (cutoff_loop _ _ _ _ _) as [b|] eqn:Eb; [|done]. apply cutoff_loop_below in Eb.
  destruct (fle _ b) eqn:El; [|done].
  rewrite (fle_lt_trans _ _ _ (expf_mono _ _ El) Eb). done.
Qed.
End Boundary.

(** The loop without the boundary: weigh every finite logit. *)
Definition min_p_only_reference (expf : spec_float -> spec_float) (logits : list spec_float)
    (max_logit : spec_float) (best : nat) (temperature min_p : spec_float) (rng : Z) : Z * nat :=
  let min_rel := pos_part min_p in
  if fgt min_rel F1 then (rng, best)
  else
    let kept := map (min_p_weight expf max_logit temperature min_rel None) logits in
    if fle (sum_kept kept) F0 || negb (isfinite (sum_kept kept)) then (rng, best)
    else
      let '(rng, u) := sample_rng_f32 rng in
      (rng, default best (draw_kept (map (default minus_one) kept) 0 (F32.mul u (sum_kept kept)))).

(** ** One speculative step *)

(** Accept the draft token or replace it, as the decoders do. *)
Definition speculative_step (sample_probs : list spec_float) (draft_token : nat) (draft_p : spec_float)
    (rng : Z) : Z * option nat :=
  let '(rng, accept) := speculative_point_accept (sample_probs !!! draft_token) draft_p rng in
  if accept then (rng, Some draft_token)
  else let '(_, rng, t) := speculative_point_replacement sample_probs (Z.of_nat draft_token) rng in (rng, t).

Lemma point_accept_positive p q rng : isfinite p = true ->
  snd (speculative_point_accept p q rng) = true -> positive p = true.
Proof.
  intros Hp. unfold speculative_point_accept, positive. rewrite Hp, andb_true_r. case_if; [done|].
  case_if.
  - intros _. bool_prop. unfold fgt in *.
    assert (SFltb q p || SFeqb q p = true) as [K|K]%orb_true_iff.
    { unfold fle, SFleb, SFltb, SFeqb in *. by destruct (SFcompare q p) as [[]|]. }
    + by eapply SFltb_trans.
    + by rewrite <- (SFeqb_ltb_r _ _ _ K).
  - case_if; [done|]. intros _. bool_prop. done.
Qed.

Lemma speculative_step_positive probs d q rng : Forall (fun p => isfinite p = true) probs ->
  (d < length probs)%nat -> Exists (fun p => fgt p F0 = true) (<[d := F0]> probs) ->
  exists t p, snd (speculative_step probs d q rng) = Some t /\ probs !! t = Some p /\ positive p = true.
Proof.
  intros Hf Hd Hex. pose proof (list_lookup_lookup_total_lt probs d Hd) as Hl.
  pose proof (Forall_lookup_1 _ _ _ _ Hf Hl) as Hfd. cbn beta in Hfd. unfold speculative_step.
  pose proof (point_accept_positive (probs !!! d) q rng Hfd) as Hacc.
  destruct (speculative_point_accept _ _ _) as [rng' []]; cbn [snd] in *.
  { exists d, (probs !!! d). split_and!; [done..|]. by apply Hacc. }
  unfold speculative_point_replacement. case_if; bool_prop; [destruct E; bool_prop; lia|].
  rewrite Nat2Z.id.
  destruct (sample_probabilities_positive (<[d := F0]> probs) rng') as (t & p & Ht & Hp & Hpos);
    [by apply Forall_insert|done|].
  destruct (sample_probabilities _ _) as [rng'' t']. cbn [snd] in *. exists t, p. split_and!; [done| |done].
  destruct (decide (t = d)) as [->|]; [|by rewrite list_lookup_insert_ne in Hp].
  rewrite list_lookup_insert_eq in Hp by done. by injection Hp as <-.
Qed.

(** ** Properties *)

(** C32: The distribution of the sampler is that of the full sort: for every
    input, the streaming heap with its shortcuts gives the same probabilities
    as sorting all finite logits, keeping the first top_k, filtering and
    normalizing.  The top-p cut compares with the sum of all weights, or, under a
    top_k, with the sum that is kept up while the candidates pass
    ([top_k_sum], on a sorted list): it takes off the weight of every candidate that
    is displaced, with the rounding of each step, so that it may differ in the last
    bits from a sum over the kept ones. *)
Theorem build_probabilities_reference (expf : spec_float -> spec_float) (disable : bool)
    (logits : list spec_float) (temperature : spec_float) (top_k : Z) (top_p min_p : spec_float) :
  sample_build_probabilities expf disable logits temperature top_k top_p min_p =
  reference_probabilities expf disable logits temperature top_k top_p min_p.
Proof. apply build_is_reference. Qed.

(** The two selections agree: the heap that the distribution is built from
    and the insertion scan of the token sampler hold, in order, the first
    [k] of the finite logits sorted by value and then by id. *)
Theorem heap_and_scan_agree (expf : spec_float -> spec_float) (logits : list spec_float)
    (max_logit temperature : spec_float) (k : nat) : (0 < k)%nat ->
  let finite := candidates expf logits max_logit temperature in
  let heap := h_heap (foldl (heap_offer k) (Heap [] F0) finite) in
  qsort_candidates heap = take k (qsort_candidates finite) /\
  top_k_scan k logits = ranked_of <$> qsort_candidates heap /\
  length heap = (length finite `min` k)%nat.
Proof.
  intros Hk finite heap.
  destruct (heap_is_prefix k Hk finite (candidates_ok expf logits max_logit temperature)) as [Hs Hl].
  fold heap in Hs, Hl. split_and!; [done| |done]. rewrite Hs. by apply top_k_scan_sorted.
Qed.

Lemma heap_and_scan_agree_witness :
  let logits := F32.of_Z <$> [3; 7; -2; 9; 7; 4; 8] in
  top_k_scan 4 logits =
    ranked_of <$> qsort_candidates (h_heap (foldl (heap_offer 4) (Heap [] F0)
      (candidates (fun x => x) logits (F32.of_Z 9) F1))) /\
  fst <$> top_k_scan 4 logits = [3; 6; 1; 4]%nat.
Proof.
  intros logits. split; [|reflexivity].
  apply (heap_and_scan_agree (fun x => x) logits (F32.of_Z 9) F1 4). lia.
Defined.

(** Sampling with a temperature returns a token with a finite logit,
    whatever the filters and the random numbers, provided some finite logit
    exceeds the -1e30 that the scans start from; with a top-k it is one of the
    [k] best. *)
Theorem sampled_token_eligible (expf logf : spec_float -> spec_float)
    (nextafterf : spec_float -> spec_float -> spec_float) (disable : bool) (logits : list spec_float)
    (temperature : spec_float) (top_k : Z) (top_p min_p : spec_float) (rng : Z)
    (Htemp : fle temperature F0 = false)
    (Hsome : Exists (fun v => isfinite v && fgt v DS4_NEG_INF = true) logits) :
  let t := snd (sample_top_p_min_p expf logf nextafterf disable logits temperature top_k top_p min_p rng) in
  (exists v, logits !! t = Some v /\ isfinite v = true) /\
  (0 < top_k -> t ∈ c_id <$> take (Z.to_nat (clamp_top_k top_k (zlen logits)))
    (qsort_candidates (candidates expf logits F0 temperature))).
Proof.
  intros t. split; [by apply sampled_eligible|]. intros Hk. by apply top_k_eligible.
Qed.

Lemma sampled_token_eligible_witness :
  let logits := [S754_nan; F32.of_Z 3; S754_infinity false; F32.of_Z 5] in
  let half := fun x => F32.div F1 (F32.of_Z 2) in
  snd (sample_top_p_min_p half half (fun x _ => x) false logits F1 1 F1 F0 42) = 3%nat.
Proof.
  intros logits half.
  destruct (sampled_token_eligible half half (fun x _ => x) false logits F1 1 F1 F0 42) as [_ H].
  - reflexivity.
  - right. left. reflexivity.
  - specialize (H ltac:(lia)).
    change (take _ (qsort_candidates _)) with [Cand 3 (F32.of_Z 5) (half F0)] in H.
    by apply list_elem_of_singleton in H.
Defined.

(** The log-space rejection boundary of min-p is sound: with an [expf] that
    does not decrease, skipping the logits below it changes neither the token
    nor the random state. *)
Theorem min_p_boundary_sound (expf logf : spec_float -> spec_float)
    (nextafterf : spec_float -> spec_float -> spec_float) (logits : list spec_float)
    (max_logit : spec_float) (best : nat) (temperature min_p : spec_float) (rng : Z)
    (expf_mono : forall x y, fle x y = true -> fle (expf x) (expf y) = true) :
  sample_min_p_only expf logf nextafterf logits max_logit best temperature min_p rng =
  min_p_only_reference expf logits max_logit best temperature min_p rng.
Proof.
  unfold sample_min_p_only, min_p_only_reference. cbv zeta. case_if; [done|].
  erewrite map_ext; [done|]. intros v. by apply min_p_weight_boundary.
Qed.

Lemma min_p_boundary_sound_witness :
  let step := fun x => if SFltb x (F32.of_Z (-1)) then F0 else F1 in
  let down := fun x _ => F32.sub x F1 in
  let logits := F32.of_Z <$> [4; 9; 8; 3] in
  reject_boundary step (fun _ => F0) down F1 = Some (F32.of_Z (-2)) /\
  sample_min_p_only step (fun _ => F0) down logits (F32.of_Z 9) 1 F1 F1 7 =
  min_p_only_reference step logits (F32.of_Z 9) 1 F1 F1 7.
Proof.
  intros step down logits. split; [reflexivity|]. apply min_p_boundary_sound.
  intros x y Hxy. unfold step. destruct (SFltb x (F32.of_Z (-1))) eqn:Ex.
  - by destruct (SFltb y (F32.of_Z (-1))).
  - destruct (SFltb y (F32.of_Z (-1))) eqn:Ey; [|done].
    by rewrite (fle_lt_trans _ _ _ Hxy Ey) in Ex.
Defined.

(** One speculative step never commits a token the target rules out: if
    the target's probabilities are numbers and some token besides the draft has
    one, the token accepted or drawn instead has a positive target probability. *)
Theorem speculative_token_positive (probs : list spec_float) (draft : nat) (draft_p : spec_float) (rng : Z)
    (Hf : Forall (fun p => isfinite p = true) probs) (Hd : (draft < length probs)%nat)
    (Hex : Exists (fun p => fgt p F0 = true) (<[draft := F0]> probs)) :
  exists t p, snd (speculative_step probs draft draft_p rng) = Some t /\
    probs !! t = Some p /\ fgt p F0 = true.
Proof.
  destruct (speculative_step_positive probs draft draft_p rng Hf Hd Hex) as (t & p & ? & ? & Hp).
  exists t, p. split_and!; [done..|]. by apply andb_true_iff in Hp as [? _].
Qed.

Lemma speculative_token_positive_witness :
  snd (speculative_step [F0; F32.div F1 (F32.of_Z 2); F32.div F1 (F32.of_Z 2)] 0 F1 11) <> Some 0%nat.
Proof.
  pose proof (speculative_token_positive [F0; F32.div F1 (F32.of_Z 2); F32.div F1 (F32.of_Z 2)] 0 F1 11) as H.
  destruct H as (t & p & Ht & Hp & Hpos).
  - apply (bool_decide_unpack _). vm_compute. exact I.
  - cbn. lia.
  - right. left. reflexivity.
  - rewrite Ht. intros [= ->]. injection Hp as <-. discriminate.
Defined.

(** The random state: a seed becomes a nonzero 64-bit state and stays one,
    and no two states run into one another. *)
Theorem rng_state_invariant (s : Z) (Hs : is_u64 s) :
  is_state (fst (sample_rng_next s)) /\
  forall s', is_state s -> is_state s' ->
    fst (sample_rng_next s) = fst (sample_rng_next s') -> s = s'.
Proof. split; [by apply rng_next_state|]. intros s' ? ?. by apply rng_next_inj. Qed.

Lemma rng_state_invariant_witness :
  is_state (fst (sample_rng_next 0)) /\ fst (sample_rng_next 1) <> fst (sample_rng_next 2).
Proof.
  split.
  - apply rng_state_invariant. unfold is_u64, U64_MAX. lia.
  - intros H. assert (Hu : is_u64 1) by (unfold is_u64, U64_MAX; lia).
    apply (rng_state_invariant 1 Hu) in H; [discriminate|unfold is_state, U64_MAX; lia..].
Defined.
