(* ===== verification/Json.v ===== *)
(** * The request parser's JSON (ds4_server.c)

    The reader works on a NUL-terminated string through a cursor: here the
    cursor is the rest of the string.  Strings are decoded, other values are
    skipped with a bounded nesting, and [json_escape] writes strings. *)

From Stdlib Require Import Floats.SpecFloat.
From S2P Require Import Prelude Float64 Libc.
#[local] Open Scope Z_scope.

(** ** Results *)

(** A value and the rest, the return value false, or a loop that ran out. *)
Inductive jres (A : Type) := JOk (a : A) (rest : bytes) | JFail | JFuel.
Arguments JOk {A}.
Arguments JFail {A}.
Arguments JFuel {A}.

Definition jbind {A B} (r : jres A) (f : A -> bytes -> jres B) : jres B :=
  match r with JOk a rest => f a rest | JFail => JFail | JFuel => JFuel end.

Declare Scope json_scope.
Notation "'read' a , s <- e ; k" := (jbind e (fun a s => k))
  (at level 10, a name, s name, e at level 100, k at level 200) : json_scope.
#[local] Open Scope json_scope.

(** ** Definitions *)

Definition json_ws (s : bytes) : bytes := skip_space s.

Definition json_lit (lit s : bytes) : option bytes :=
  if starts_with lit s then Some (drop (length lit) s) else None.

Definition json_hex (c : Z) : Z :=
  if (48 <=? c) && (c <=? 57) then c - 48
  else if (97 <=? c) && (c <=? 102) then 10 + c - 97
  else if (65 <=? c) && (c <=? 70) then 10 + c - 65
  else -1.

(** Code points that no text may have become U+FFFD. *)
Definition server_utf8_put (cp : Z) : bytes :=
  let cp := if (0x10ffff <? cp) || ((0xd800 <=? cp) && (cp <=? 0xdfff)) then 0xfffd else cp in
  if cp <=? 0x7f then [u8 cp]
  else if cp <=? 0x7ff then
    [u8 (Z.lor 0xc0 (Z.shiftr cp 6)); u8 (Z.lor 0x80 (Z.land cp 0x3f))]
  else if cp <=? 0xffff then
    [u8 (Z.lor 0xe0 (Z.shiftr cp 12)); u8 (Z.lor 0x80 (Z.land (Z.shiftr cp 6) 0x3f));
     u8 (Z.lor 0x80 (Z.land cp 0x3f))]
  else
    [u8 (Z.lor 0xf0 (Z.shiftr cp 18)); u8 (Z.lor 0x80 (Z.land (Z.shiftr cp 12) 0x3f));
     u8 (Z.lor 0x80 (Z.land (Z.shiftr cp 6) 0x3f)); u8 (Z.lor 0x80 (Z.land cp 0x3f))].

(** Four hexadecimal digits. *)
Fixpoint hex_loop (n : nat) (s : bytes) (cp : Z) : option (Z * bytes) :=
  match n with
  | O => Some (cp, s)
  | S n' =>
      let h := json_hex (cget s 0) in
      if h <? 0 then None else hex_loop n' (drop 1 s) (Z.lor (u32 (Z.shiftl cp 4)) h)
  end.

Definition json_u16 (s : bytes) : option (Z * bytes) :=
  if negb (cget s 0 =? 92) || negb (cget s 1 =? 117) then None else hex_loop 4 (drop 2 s) 0.

(** What a backslash and one more character stand for. *)
Definition simple_escape (c : Z) : option Z :=
  if c =? 34 then Some 34
  else if c =? 92 then Some 92
  else if c =? 47 then Some 47
  else if c =? 98 then Some 8
  else if c =? 102 then Some 12
  else if c =? 110 then Some 10
  else if c =? 114 then Some 13
  else if c =? 116 then Some 9
  else None.

(** A [\u] escape: the code point, joined with a low surrogate that follows a
    high one. *)
Definition unicode_escape (s : bytes) : option (Z * bytes) :=
  match json_u16 s with
  | None => None
  | Some (cp, s1) =>
      if (0xd800 <=? cp) && (cp <=? 0xdbff) then
        match json_u16 s1 with
        | Some (lo, s2) =>
            if (0xdc00 <=? lo) && (lo <=? 0xdfff)
            then Some (u32 (0x10000 + Z.shiftl (cp - 0xd800) 10 + (lo - 0xdc00)), s2)
            else Some (0xfffd, s1)
        | None => Some (0xfffd, s1)
        end
      else Some (cp, s1)
  end.

(** The loop to the closing quote, and the test of it. *)
Fixpoint string_loop (fuel : nat) (s b : bytes) : jres bytes :=
  match fuel with
  | O => JFuel
  | S fuel' =>
      match s with
      | [] => JFail
      | c :: s1 =>
          if c =? 34 then JOk b s1
          else if negb (c =? 92) then string_loop fuel' s1 (b ++ [c])
          else if cget s1 0 =? 117 then
            match unicode_escape s with
            | None => JFail
            | Some (cp, s2) => string_loop fuel' s2 (b ++ server_utf8_put cp)
            end
          else
            match simple_escape (cget s1 0) with
            | None => JFail
            | Some v => string_loop fuel' (drop 1 s1) (b ++ [v])
            end
      end
  end.

(** The decoded buffer; a [\u0000] in it ends the C string that callers see. *)
Definition json_string (s : bytes) : jres bytes :=
  let s := json_ws s in
  if negb (cget s 0 =? 34) then JFail else string_loop (S (length s)) (drop 1 s) [].

Definition json_number (s : bytes) : jres spec_float :=
  match strtod (json_ws s) with
  | None => JFail
  | Some (v, rest) => JOk v rest
  end.

(** [(int)v] of a double in [0, INT_MAX]. *)
Definition trunc (v : spec_float) : Z :=
  match v with
  | S754_finite false m e => if 0 <=? e then Zpos m * 2 ^ e else Zpos m / 2 ^ (- e)
  | _ => 0
  end.

Definition json_int (s : bytes) : jres Z :=
  read v, s <- json_number s;
  let v := if negb (SFleb (F64.of_Z 0) v) then F64.of_Z 0 else v in
  let v := if SFltb (F64.of_Z INT32_MAX) v then F64.of_Z INT32_MAX else v in
  JOk (trunc v) s.

Definition json_bool (s : bytes) : jres bool :=
  let s := json_ws s in
  match json_lit (bs "true") s with
  | Some s => JOk true s
  | None => match json_lit (bs "false") s with Some s => JOk false s | None => JFail end
  end.

Definition JSON_MAX_NESTING : nat := 256.

(** The items of an array; [skip] skips one value. *)
Fixpoint array_loop (skip : bytes -> jres unit) (fuel : nat) (s : bytes) : jres unit :=
  match fuel with
  | O => JFuel
  | S fuel' =>
      read _u, s <- skip s;
      let s := json_ws s in
      if cget s 0 =? 93 then JOk tt (drop 1 s)
      else if negb (cget s 0 =? 44) then JFail
      else array_loop skip fuel' (drop 1 s)
  end.

Definition skip_array (skip : bytes -> jres unit) (s : bytes) : jres unit :=
  let s := json_ws s in
  if negb (cget s 0 =? 91) then JFail
  else
    let s := json_ws (drop 1 s) in
    if cget s 0 =? 93 then JOk tt (drop 1 s) else array_loop skip (S (length s)) s.

(** The members of an object. *)
Fixpoint object_loop (skip : bytes -> jres unit) (fuel : nat) (s : bytes) : jres unit :=
  match fuel with
  | O => JFuel
  | S fuel' =>
      read _key, s <- json_string s;
      let s := json_ws s in
      if negb (cget s 0 =? 58) then JFail
      else
        read _u, s <- skip (drop 1 s);
        let s := json_ws s in
        if cget s 0 =? 125 then JOk tt (drop 1 s)
        else if negb (cget s 0 =? 44) then JFail
        else object_loop skip fuel' (drop 1 s)
  end.

Definition skip_object (skip : bytes -> jres unit) (s : bytes) : jres unit :=
  let s := json_ws s in
  if negb (cget s 0 =? 123) then JFail
  else
    let s := json_ws (drop 1 s) in
    if cget s 0 =? 125 then JOk tt (drop 1 s) else object_loop skip (S (length s)) s.

Definition skip_literal (s : bytes) : option bytes :=
  match json_lit (bs "true") s with
  | Some r => Some r
  | None => match json_lit (bs "false") s with Some r => Some r | None => json_lit (bs "null") s end
  end.

(** [levels] is [JSON_MAX_NESTING - depth]: at none a container is refused. *)
Fixpoint json_skip_value_depth (levels : nat) (s : bytes) : jres unit :=
  let s := json_ws s in
  if cget s 0 =? 34 then read _v, s <- json_string s; JOk tt s
  else if cget s 0 =? 123 then
    match levels with O => JFail | S l => skip_object (json_skip_value_depth l) s end
  else if cget s 0 =? 91 then
    match levels with O => JFail | S l => skip_array (json_skip_value_depth l) s end
  else
    match skip_literal s with
    | Some r => JOk tt r
    | None => read _v, s <- json_number s; JOk tt s
    end.

Definition json_skip_value (s : bytes) : jres unit := json_skip_value_depth JSON_MAX_NESTING s.

(** The text of a value. *)
Definition json_raw_value (s : bytes) : jres bytes :=
  let s := json_ws s in
  read _u, rest <- json_skip_value s; JOk (take (length s - length rest) s) rest.

(** The flags [in_string] and [escape]. *)
Fixpoint minify_loop (s : bytes) (in_string escape : bool) : bytes :=
  match s with
  | [] => []
  | c :: s' =>
      if in_string then
        c :: (if escape then minify_loop s' true false
              else if c =? 92 then minify_loop s' true true
              else minify_loop s' (negb (c =? 34)) false)
      else if c =? 34 then c :: minify_loop s' true escape
      else if negb (isspace c) then c :: minify_loop s' false escape
      else minify_loop s' false escape
  end.

(** Without whitespace between tokens; text that is no value stays as it is. *)
Definition json_minify_raw_value (json : bytes) : bytes :=
  let s := json_ws json in
  match json_skip_value s with
  | JOk _ rest => minify_loop (take (length s - length rest) s) false false
  | _ => json
  end.

(** ** Writing strings *)

(** [%04x] of a byte. *)
Definition hex4 (c : Z) : bytes :=
  let d x := if x <? 10 then 48 + x else 87 + x in [48; 48; d (c / 16); d (c mod 16)].

Definition escape_char (c : Z) : bytes :=
  if (c =? 34) || (c =? 92) then [92; c]
  else if c =? 10 then [92; 110]
  else if c =? 13 then [92; 114]
  else if c =? 9 then [92; 116]
  else if c <? 32 then [92; 117] ++ hex4 c
  else [c].

Definition json_escape_fragment_n (s : bytes) : bytes := flat_map escape_char s.

Definition json_escape (s : bytes) : bytes := 34 :: flat_map escape_char s ++ [34].

Example skip_ex : json_skip_value (bs " [1, -2.5e3 , true,{}, [ ] ], x") = JOk tt (bs ", x").
Proof. reflexivity. Qed.

(** ** The grammar *)

Definition is_hex (c : Z) : Prop := 0 <= json_hex c.

(** What stands between the quotes. *)
Inductive lex_body : bytes -> Prop :=
| LB_nil : lex_body []
| LB_char c b : c <> 34 -> c <> 92 -> lex_body b -> lex_body (c :: b)
| LB_simple c v b : simple_escape c = Some v -> lex_body b -> lex_body (92 :: c :: b)
| LB_unicode h1 h2 h3 h4 b : is_hex h1 -> is_hex h2 -> is_hex h3 -> is_hex h4 -> lex_body b ->
    lex_body (92 :: 117 :: h1 :: h2 :: h3 :: h4 :: b).

Definition str_token (b : bytes) : bytes := 34 :: b ++ [34].

(** What [strtod] reads to its end. *)
Definition number (t : bytes) : Prop :=
  t <> [] /\ isspace (cget t 0) = false /\ exists v, strtod t = Some (v, []).

Definition literals : list bytes := [bs "true"; bs "false"; bs "null"].

Abbreviation spaces := (Forall (fun c => isspace c = true)).

(** [value d t c]: [t] is a value with at most [d] levels of containers, and [c]
    is [t] without the spaces between its tokens.  [elems] and [members] are
    what follows an opening bracket, to the closing one. *)
Inductive value : nat -> bytes -> bytes -> Prop :=
| V_str d b : lex_body b -> value d (str_token b) (str_token b)
| V_lit d w : w ∈ literals -> value d w w
| V_num d t : number t -> value d t t
| V_arr0 d sp : spaces sp -> value (S d) (91 :: sp ++ [93]) [91; 93]
| V_arr d t c : elems d t c -> value (S d) (91 :: t) (91 :: c)
| V_obj0 d sp : spaces sp -> value (S d) (123 :: sp ++ [125]) [123; 125]
| V_obj d t c : members d t c -> value (S d) (123 :: t) (123 :: c)
with elems : nat -> bytes -> bytes -> Prop :=
| E_last d sp1 t c sp2 : spaces sp1 -> value d t c -> spaces sp2 ->
    elems d (sp1 ++ t ++ sp2 ++ [93]) (c ++ [93])
| E_more d sp1 t c sp2 t' c' : spaces sp1 -> value d t c -> spaces sp2 -> elems d t' c' ->
    elems d (sp1 ++ t ++ sp2 ++ 44 :: t') (c ++ 44 :: c')
with members : nat -> bytes -> bytes -> Prop :=
| M_last d sp1 k sp2 sp3 t c sp4 : spaces sp1 -> lex_body k -> spaces sp2 -> spaces sp3 -> value d t c -> spaces sp4 ->
    members d (sp1 ++ str_token k ++ sp2 ++ 58 :: sp3 ++ t ++ sp4 ++ [125])
              (str_token k ++ 58 :: c ++ [125])
| M_more d sp1 k sp2 sp3 t c sp4 t' c' : spaces sp1 -> lex_body k -> spaces sp2 -> spaces sp3 -> value d t c ->
    spaces sp4 -> members d t' c' ->
    members d (sp1 ++ str_token k ++ sp2 ++ 58 :: sp3 ++ t ++ sp4 ++ 44 :: t')
              (str_token k ++ 58 :: c ++ 44 :: c').

Scheme value_mind := Minimality for value Sort Prop
  with elems_mind := Minimality for elems Sort Prop
  with members_mind := Minimality for members Sort Prop.
Combined Scheme json_mind from value_mind, elems_mind, members_mind.

(** ** Strings *)

Section Strings.
Lemma json_hex_range c : json_hex c = -1 \/ 0 <= json_hex c <= 15.
Proof. unfold json_hex. repeat case_if; bool_prop; lia. Qed.

Lemma is_hex_facts c : is_hex c -> isspace c = false /\ c <> 34 /\ c <> 92.
Proof.
  unfold is_hex, json_hex, isspace. rewrite orb_false_iff, andb_false_iff, Z.eqb_neq, !Z.leb_gt.
  repeat case_if; bool_prop; lia.
Qed.

Lemma hex_loop_Some n : forall s cp r cp0, hex_loop n s cp0 = Some (cp, r) ->
  exists hs, s = hs ++ r /\ length hs = n /\ Forall is_hex hs.
Proof.
  induction n as [|n IH]; intros s cp r cp0; cbn [hex_loop]; [intros [= _ <-]; by exists []|].
  destruct s as [|c s]; [done|]. change (cget (c :: s) 0) with c. change (drop 1 (c :: s)) with s.
  cbv zeta. case_if; [done|]. bool_prop. intros (hs & -> & Hl & Hh)%IH. exists (c :: hs).
  split_and!; [done | cbn; lia | by constructor].
Qed.

Lemma hex_loop_app n : forall hs r cp0, length hs = n -> Forall is_hex hs ->
  exists cp, hex_loop n (hs ++ r) cp0 = Some (cp, r).
Proof.
  induction n as [|n IH]; intros hs r cp0 Hl Hh; cbn [hex_loop].
  - destruct hs; [by exists cp0 | done].
  - destruct hs as [|c hs]; [done|]. cbn [app]. change (cget (c :: _) 0) with c. change (drop 1 (c :: ?l)) with l.
    apply Forall_cons in Hh as [Hc Hh]. unfold is_hex in Hc. cbv zeta.
    destruct (Z.ltb_spec (json_hex c) 0); [lia|]. apply IH; [by injection Hl | done].
Qed.

Lemma json_u16_Some s cp r : json_u16 s = Some (cp, r) ->
  exists h1 h2 h3 h4, s = 92 :: 117 :: h1 :: h2 :: h3 :: h4 :: r /\ is_hex h1 /\ is_hex h2 /\ is_hex h3 /\ is_hex h4.
Proof.
  unfold json_u16. case_if; [done|]. bool_prop. intros (hs & Hs & Hl & Hh)%hex_loop_Some.
  destruct s as [|a [|b s]]; [done..|].
  cbn in *. subst a b. rewrite drop_0 in Hs. subst s.
  destruct hs as [|h1 [|h2 [|h3 [|h4 [|]]]]]; try done.
  repeat match goal with H : Forall _ (_ :: _) |- _ => apply Forall_cons in H as [? H] end.
  exists h1, h2, h3, h4. done.
Qed.

Lemma json_u16_app h1 h2 h3 h4 r : is_hex h1 -> is_hex h2 -> is_hex h3 -> is_hex h4 ->
  exists cp, json_u16 (92 :: 117 :: h1 :: h2 :: h3 :: h4 :: r) = Some (cp, r).
Proof. intros. apply (hex_loop_app 4 [h1; h2; h3; h4]); [done | by repeat constructor]. Qed.

(** A [\u] escape reads one or two escapes of the body. *)
Lemma unicode_escape_Some s cp r : unicode_escape s = Some (cp, r) ->
  exists b, s = b ++ r /\ (0 < length b)%nat /\ forall b', lex_body b' -> lex_body (b ++ b').
Proof.
  unfold unicode_escape. destruct (json_u16 s) as [[c s1]|] eqn:E1; [|done].
  apply json_u16_Some in E1 as (h1 & h2 & h3 & h4 & -> & ? & ? & ? & ?).
  assert (Hone : forall s' : bytes, exists b : bytes, 92 :: 117 :: h1 :: h2 :: h3 :: h4 :: s' = b ++ s' /\
    (0 < length b)%nat /\ forall b', lex_body b' -> lex_body (b ++ b')).
  { intros s'. exists [92; 117; h1; h2; h3; h4]. split_and!; [done | cbn; lia |]. intros. by apply LB_unicode. }
  case_if; [|by intros [= _ <-]].
  destruct (json_u16 s1) as [[lo s2]|] eqn:E2; [|by intros [= _ <-]].
  case_if; [|by intros [= _ <-]]. intros [= _ <-].
  apply json_u16_Some in E2 as (g1 & g2 & g3 & g4 & -> & ? & ? & ? & ?).
  exists [92; 117; h1; h2; h3; h4; 92; 117; g1; g2; g3; g4]. split_and!; [done | cbn; lia |].
  intros. by apply LB_unicode, LB_unicode.
Qed.

Lemma unicode_escape_body h1 h2 h3 h4 b rest : is_hex h1 -> is_hex h2 -> is_hex h3 -> is_hex h4 -> lex_body b ->
  exists cp b', unicode_escape (92 :: 117 :: h1 :: h2 :: h3 :: h4 :: b ++ 34 :: rest) = Some (cp, b' ++ 34 :: rest) /\
    lex_body b' /\ (length b' <= length b)%nat.
Proof.
  intros H1 H2 H3 H4 Hb. destruct (json_u16_app h1 h2 h3 h4 (b ++ 34 :: rest) H1 H2 H3 H4) as [cp E].
  unfold unicode_escape. rewrite E. case_if; [|by exists cp, b].
  destruct (json_u16 (b ++ 34 :: rest)) as [[lo s2]|] eqn:E2; [|by exists 0xfffd, b].
  case_if; [|by exists 0xfffd, b].
  apply json_u16_Some in E2 as (g1 & g2 & g3 & g4 & Hs & _).
  destruct Hb as [|c b Hc1 Hc2 Hb|c v b Hv Hb|k1 k2 k3 k4 b ? ? ? ? Hb]; cbn [app] in Hs; try congruence.
  - injection Hs as -> _. done.
  - injection Hs as _ _ _ _ <-. eexists _, b. split_and!; [done..|cbn; lia].
Qed.

Lemma simple_escape_facts c v : simple_escape c = Some v -> c <> 117 /\ isspace c = false.
Proof. unfold simple_escape. repeat case_if; intros [= <-]; bool_prop; subst c; done. Qed.

Lemma string_loop_ok rest : forall fuel body acc, lex_body body -> (length body < fuel)%nat ->
  exists v, string_loop fuel (body ++ 34 :: rest) acc = JOk v rest.
Proof.
  induction fuel as [|fuel IH]; intros body acc Hb Hl; [lia|]. cbn [string_loop].
  destruct Hb as [|c b Hc1 Hc2 Hb|c v b Hv Hb|h1 h2 h3 h4 b H1 H2 H3 H4 Hb]; cbn [app length] in *.
  - by exists acc.
  - destruct (Z.eqb_spec c 34); [done|]. destruct (Z.eqb_spec c 92); [done|]. cbn [negb]. apply IH; [done | lia].
  - cbn [Z.eqb Pos.eqb negb]. change (cget (c :: ?l) 0) with c. change (drop 1 (c :: ?l)) with l.
    destruct (simple_escape_facts _ _ Hv) as [Hne _]. destruct (Z.eqb_spec c 117); [done|]. rewrite Hv.
    apply IH; [done | lia].
  - destruct (unicode_escape_body h1 h2 h3 h4 b rest H1 H2 H3 H4 Hb) as (cp & b' & E & Hb' & Hle).
    cbn [Z.eqb Pos.eqb negb]. change (cget (117 :: ?l) 0) with 117. cbn [Z.eqb Pos.eqb]. rewrite E. apply IH; [done | lia].
Qed.

Lemma string_loop_sound : forall fuel s acc v rest, string_loop fuel s acc = JOk v rest ->
  exists body, s = body ++ 34 :: rest /\ lex_body body.
Proof.
  induction fuel as [|fuel IH]; intros s acc v rest; cbn [string_loop]; [done|].
  destruct s as [|c s1]; [done|]. destruct (Z.eqb_spec c 34) as [->|H34].
  { intros [= _ <-]. exists []. split; [done | constructor]. }
  destruct (Z.eqb_spec c 92) as [->|H92]; cbn [negb].
  2: { intros (body & -> & Hb)%IH. exists (c :: body). split; [done | by constructor]. }
  destruct (Z.eqb_spec (cget s1 0) 117).
  - destruct (unicode_escape (92 :: s1)) as [[cp s2]|] eqn:E; [|done].
    apply unicode_escape_Some in E as (b & -> & _ & Hb). intros (body & -> & Hbody)%IH.
    exists (b ++ body). rewrite <- app_assoc. split; [done | by apply Hb].
  - destruct (simple_escape (cget s1 0)) as [w|] eqn:E; [|done]. destruct s1 as [|x s1]; [done|].
    cbn in E. change (drop 1 (x :: s1)) with s1. intros (body & -> & Hb)%IH.
    exists (92 :: x :: body). split; [done | by eapply LB_simple].
Qed.

Lemma string_loop_fuel : forall fuel s acc, (length s < fuel)%nat -> string_loop fuel s acc <> JFuel.
Proof.
  induction fuel as [|fuel IH]; intros s acc Hl; cbn [string_loop]; [lia|].
  destruct s as [|c s1]; [done|]. cbn [length] in Hl. repeat case_if; try done; [apply IH; lia| |].
  - destruct (unicode_escape (c :: s1)) as [[cp s2]|] eqn:E'; [|done].
    apply unicode_escape_Some in E' as (b & Hs & Hb & _). apply IH.
    apply (f_equal length) in Hs. rewrite length_app in Hs. cbn [length] in Hs. lia.
  - destruct (simple_escape _); [|done]. apply IH. rewrite length_drop. lia.
Qed.

(** Strings are read exactly. *)
Lemma json_string_ok b rest : lex_body b -> exists v, json_string (str_token b ++ rest) = JOk v rest.
Proof.
  intros Hb. unfold json_string, str_token. cbn [app].
  change (json_ws (34 :: ?l)) with (34 :: l). change (cget (34 :: _) 0) with 34. cbn [Z.eqb Pos.eqb negb].
  change (drop 1 (34 :: ?l)) with l. rewrite <- app_assoc. cbn [app].
  apply string_loop_ok; [done|]. cbn [length]. rewrite length_app. cbn [length]. lia.
Qed.

Lemma json_string_sound s v rest : json_string s = JOk v rest ->
  exists b, json_ws s = str_token b ++ rest /\ lex_body b.
Proof.
  unfold json_string. cbv zeta. destruct (Z.eqb_spec (cget (json_ws s) 0) 34) as [H|]; [|done]. cbn [negb].
  intros (b & Hs & Hb)%string_loop_sound. exists b. split; [|done].
  destruct (json_ws s) as [|c r]; [done|]. cbn in H, Hs. rewrite drop_0 in Hs. subst c r. unfold str_token. cbn [app]. by rewrite <- app_assoc.
Qed.

Lemma json_string_fuel s : json_string s <> JFuel.
Proof.
  unfold json_string. cbv zeta. case_if; [done|]. apply string_loop_fuel. rewrite length_drop. lia.
Qed.
End Strings.

(** ** Skipping *)

Section Skip.
Lemma ws_app sp s : spaces sp -> json_ws (sp ++ s) = json_ws s.
Proof. induction 1 as [|c sp Hc Hsp IH]; [done|]. unfold json_ws in *. cbn [app skip_space]. by rewrite Hc. Qed.

Lemma ws_id s : isspace (cget s 0) = false -> json_ws s = s.
Proof. intros H. by apply (skip_space_app []). Qed.

Lemma ws_split s : exists sp, s = sp ++ json_ws s /\ spaces sp /\ isspace (cget (json_ws s) 0) = false.
Proof. apply skip_space_spec. Qed.

Lemma ws_idem s : json_ws (json_ws s) = json_ws s.
Proof. destruct (ws_split s) as (sp & _ & _ & H). by apply ws_id. Qed.

Lemma ws_length s : (length (json_ws s) <= length s)%nat.
Proof. destruct (ws_split s) as (sp & Hs & _). rewrite Hs at 2. rewrite length_app. lia. Qed.

Lemma skip_ws n s : json_skip_value_depth n (json_ws s) = json_skip_value_depth n s.
Proof. destruct n; cbn [json_skip_value_depth]; by rewrite ws_idem. Qed.

Lemma skip_spaces n sp s : spaces sp -> json_skip_value_depth n (sp ++ s) = json_skip_value_depth n s.
Proof. intros H. rewrite <- skip_ws, ws_app by done. apply skip_ws. Qed.

(** A number starts like nothing else. *)
Lemma number_other t r : number t -> ends_number r = true ->
  (exists v, json_number (t ++ r) = JOk v r) /\ isspace (cget (t ++ r) 0) = false /\
  (forall q, t ++ r <> 34 :: q) /\ (forall q, t ++ r <> 123 :: q) /\ (forall q, t ++ r <> 91 :: q) /\
  (forall q, t ++ r <> 93 :: q) /\ (forall q, t ++ r <> 125 :: q) /\ skip_literal (t ++ r) = None.
Proof.
  intros (Hne & Hsp & v & Hv) Hr. apply strtod_local in Hv as (sp & t' & Ht & Hsps & _ & _ & _ & Hloc).
  assert (sp = []) as ->.
  { destruct Hsps as [|c sp Hc Hsps]; [done|]. subst t. change (cget ((c :: sp) ++ _) 0) with c in Hsp. congruence. }
  cbn [app] in Ht. rewrite app_nil_r in Ht. subst t'. specialize (Hloc r Hr).
  assert (Hh : isspace (cget (t ++ r) 0) = false) by (by destruct t).
  assert (Hno : forall p, (forall q, strtod (p ++ q) = None) -> forall q, t ++ r <> p ++ q).
  { intros p Hp q Hq. rewrite Hq, Hp in Hloc. done. }
  split_and!.
  - exists v. unfold json_number. by rewrite ws_id, Hloc.
  - done.
  - by apply (Hno [34]).
  - by apply (Hno [123]).
  - by apply (Hno [91]).
  - by apply (Hno [93]).
  - by apply (Hno [125]).
  - unfold skip_literal, json_lit.
    destruct (starts_with (bs "true") (t ++ r)) eqn:E1; [apply starts_with_iff in E1 as [q E1]; by apply (Hno (bs "true")) in E1|].
    destruct (starts_with (bs "false") (t ++ r)) eqn:E2; [apply starts_with_iff in E2 as [q E2]; by apply (Hno (bs "false")) in E2|].
    destruct (starts_with (bs "null") (t ++ r)) eqn:E3; [apply starts_with_iff in E3 as [q E3]; by apply (Hno (bs "null")) in E3|].
    done.
Qed.

(** How a value starts. *)
Lemma value_head d t c r : value d t c ->
  t <> [] /\ isspace (cget (t ++ r) 0) = false /\ cget (t ++ r) 0 <> 93 /\ cget (t ++ r) 0 <> 125.
Proof.
  destruct 1 as [d b Hb|d w Hw|d t Ht|d sp Hsp|d t c He|d sp Hsp|d t c Hm]; try done.
  - unfold literals in Hw. rewrite !elem_of_cons, elem_of_nil in Hw. by destruct Hw as [->|[->|[->|]]].
  - pose proof (number_other t [] Ht eq_refl) as (_ & Hs & _ & _ & _ & H3 & H4 & _).
    destruct Ht as [Hne _]. rewrite app_nil_r in *. destruct t as [|x t]; [done|]. cbn [app].
    change (cget (x :: ?l) 0) with x in *. split_and!; [done|done|intros ->; by apply (H3 t)|intros ->; by apply (H4 t)].
Qed.

Lemma ends_spaces sp c r : spaces sp -> ends_number (c :: r) = true -> ends_number (sp ++ c :: r) = true.
Proof.
  intros [|x sp' Hx Hsp] Hc; [done|]. unfold ends_number. cbn [app]. change (cget (x :: _) 0) with x.
  unfold isspace, isdigit, isupper, islower in *.
  rewrite negb_true_iff, !orb_false_iff, !andb_false_iff, !Z.eqb_neq, !Z.leb_gt.
  apply orb_true_iff in Hx. rewrite andb_true_iff, Z.eqb_eq, !Z.leb_le in Hx. lia.
Qed.

Lemma cget_cons c s : cget (c :: s) 0 = c.
Proof. done. Qed.

(** One step of the dispatch. *)
Lemma skip_str n s : cget (json_ws s) 0 = 34 ->
  json_skip_value_depth n s = read _v, r <- json_string (json_ws s); JOk tt r.
Proof. intros H. destruct n; cbn [json_skip_value_depth]; by rewrite H. Qed.

Lemma skip_obj n s : cget (json_ws s) 0 = 123 ->
  json_skip_value_depth (S n) s = skip_object (json_skip_value_depth n) (json_ws s).
Proof. intros H. cbn [json_skip_value_depth]. by rewrite H. Qed.

Lemma skip_arr n s : cget (json_ws s) 0 = 91 ->
  json_skip_value_depth (S n) s = skip_array (json_skip_value_depth n) (json_ws s).
Proof. intros H. cbn [json_skip_value_depth]. by rewrite H. Qed.

Lemma skip_other n s : let q := json_ws s in cget q 0 <> 34 -> cget q 0 <> 123 -> cget q 0 <> 91 ->
  json_skip_value_depth n s =
    match skip_literal q with Some r => JOk tt r | None => read _v, r <- json_number q; JOk tt r end.
Proof.
  cbv zeta. intros H1%Z.eqb_neq H2%Z.eqb_neq H3%Z.eqb_neq.
  destruct n; cbn [json_skip_value_depth]; by rewrite H1, H2, H3.
Qed.

(** How the first item and the first key start. *)
Lemma elems_head d t c r : elems d t c -> cget (json_ws (t ++ r)) 0 <> 93.
Proof.
  assert (Hgen : forall e sp t0 c0 u, spaces sp -> value e t0 c0 -> cget (json_ws (sp ++ t0 ++ u)) 0 <> 93).
  { intros e sp t0 c0 u Hsp Hv. rewrite ws_app by done.
    destruct (value_head _ _ _ u Hv) as (_ & Hs & H93 & _). by rewrite (ws_id (t0 ++ u)). }
  intros [? sp1 t0 c0 sp2 Hs1 Hv Hs2|? sp1 t0 c0 sp2 t' c' Hs1 Hv Hs2 He]; rewrite <- !app_assoc; by eapply Hgen.
Qed.

Lemma members_head d t c r : members d t c -> cget (json_ws (t ++ r)) 0 = 34.
Proof. intros []; rewrite <- !app_assoc, ws_app by done; done. Qed.

Lemma ws_value d t c u : value d t c -> json_ws (t ++ u) = t ++ u.
Proof. intros Hv. apply ws_id. by destruct (value_head _ _ _ u Hv) as (_ & ? & _). Qed.

Lemma value_pos d t c : value d t c -> (0 < length t)%nat.
Proof. intros Hv. destruct (value_head _ _ _ [] Hv) as (Hne & _). destruct t; [done | cbn; lia]. Qed.

Lemma array_loop_ws n fuel s :
  array_loop (json_skip_value_depth n) fuel (json_ws s) = array_loop (json_skip_value_depth n) fuel s.
Proof. destruct fuel; [done|]. cbn [array_loop]. by rewrite skip_ws. Qed.

Lemma object_loop_ws skip fuel s : object_loop skip fuel (json_ws s) = object_loop skip fuel s.
Proof. destruct fuel; [done|]. cbn [object_loop]. unfold json_string. by rewrite ws_idem. Qed.

(** Reading a key and its colon. *)
Lemma key_step skip fuel sp1 k sp2 s : spaces sp1 -> lex_body k -> spaces sp2 ->
  object_loop skip (S fuel) (sp1 ++ str_token k ++ sp2 ++ 58 :: s) =
    read _u, r <- skip s;
    let r := json_ws r in
    if cget r 0 =? 125 then JOk tt (drop 1 r)
    else if negb (cget r 0 =? 44) then JFail else object_loop skip fuel (drop 1 r).
Proof.
  intros H1 Hk H2. cbn [object_loop].
  assert (json_string (sp1 ++ str_token k ++ sp2 ++ 58 :: s) = json_string (str_token k ++ sp2 ++ 58 :: s)) as ->
    by (unfold json_string; by rewrite ws_app).
  destruct (json_string_ok k (sp2 ++ 58 :: s) Hk) as [v ->]. cbn [jbind]. by rewrite ws_app.
Qed.

(** Every value is skipped, and nothing more, where nothing extends a number. *)
Lemma skip_complete :
  (forall d t c, value d t c -> forall n rest, (d <= n)%nat -> ends_number rest = true ->
    json_skip_value_depth n (t ++ rest) = JOk tt rest) /\
  (forall d t c, elems d t c -> forall n rest fuel, (d <= n)%nat -> (length (json_ws (t ++ rest)) < fuel)%nat ->
    array_loop (json_skip_value_depth n) fuel (t ++ rest) = JOk tt rest) /\
  (forall d t c, members d t c -> forall n rest fuel, (d <= n)%nat -> (length (json_ws (t ++ rest)) < fuel)%nat ->
    object_loop (json_skip_value_depth n) fuel (t ++ rest) = JOk tt rest).
Proof.
  apply json_mind.
  - intros d b Hb n rest _ _. rewrite skip_str by done. change (json_ws (str_token b ++ rest)) with (str_token b ++ rest).
    destruct (json_string_ok b rest Hb) as [v ->]. done.
  - intros d w Hw n rest _ _. unfold literals in Hw. rewrite !elem_of_cons, elem_of_nil in Hw.
    destruct Hw as [->|[->|[->|[]]]]; rewrite skip_other by done; done.
  - intros d t Ht n rest _ Hr. destruct (number_other t rest Ht Hr) as ((v & Hv) & Hs & H1 & H2 & H3 & _ & _ & H6).
    assert (Hh : forall x, (forall q, t ++ rest <> x :: q) -> x <> 0 -> cget (json_ws (t ++ rest)) 0 <> x).
    { intros x Hx Hx0. rewrite ws_id by done. destruct (t ++ rest) as [|y q]; [by intros <-|].
      rewrite cget_cons. intros ->. by apply (Hx q). }
    rewrite (skip_other n) by (by apply Hh). rewrite ws_id by done. by rewrite H6, Hv.
  - intros d sp Hsp [|n] rest Hd _; [lia|]. cbn [app]. rewrite <- app_assoc. rewrite skip_arr by done.
    unfold skip_array. change (json_ws (json_ws (91 :: ?l))) with (91 :: l). rewrite cget_cons. cbn [Z.eqb Pos.eqb negb].
    change (drop 1 (91 :: ?l)) with l. rewrite ws_app by done. done.
  - intros d t c He IH [|n] rest Hd Hr; [lia|]. cbn [app]. rewrite skip_arr by done.
    unfold skip_array. change (json_ws (json_ws (91 :: ?l))) with (91 :: l). rewrite cget_cons. cbn [Z.eqb Pos.eqb negb].
    change (drop 1 (91 :: ?l)) with l. cbv zeta.
    pose proof (elems_head _ _ _ rest He) as Hh%Z.eqb_neq. rewrite Hh, array_loop_ws. apply IH; lia.
  - intros d sp Hsp [|n] rest Hd _; [lia|]. cbn [app]. rewrite <- app_assoc. rewrite skip_obj by done.
    unfold skip_object. change (json_ws (json_ws (123 :: ?l))) with (123 :: l). rewrite cget_cons. cbn [Z.eqb Pos.eqb negb].
    change (drop 1 (123 :: ?l)) with l. rewrite ws_app by done. done.
  - intros d t c Hm IH [|n] rest Hd Hr; [lia|]. cbn [app]. rewrite skip_obj by done.
    unfold skip_object. change (json_ws (json_ws (123 :: ?l))) with (123 :: l). rewrite cget_cons. cbn [Z.eqb Pos.eqb negb].
    change (drop 1 (123 :: ?l)) with l. cbv zeta.
    pose proof (members_head _ _ _ rest Hm) as Hh. rewrite Hh. cbn [Z.eqb Pos.eqb].
    rewrite object_loop_ws. apply IH; lia.
  - intros d sp1 t c sp2 Hs1 Hv IH Hs2 n rest [|fuel] Hd Hf; [lia|]. rewrite <- !app_assoc. cbn [array_loop app].
    rewrite skip_spaces, IH by (try done; by apply ends_spaces). cbn [jbind]. by rewrite ws_app.
  - intros d sp1 t c sp2 t' c' Hs1 Hv IH Hs2 He IH' n rest [|fuel] Hd Hf; [lia|]. rewrite <- !app_assoc in *.
    cbn [array_loop app] in *. rewrite skip_spaces, IH by (try done; by apply ends_spaces). cbn [jbind].
    rewrite !ws_app in * by done. rewrite (ws_value _ _ _ _ Hv) in Hf.
    change (json_ws (44 :: ?l)) with (44 :: l). rewrite cget_cons. cbn [Z.eqb Pos.eqb negb].
    change (drop 1 (44 :: ?l)) with l. apply IH'; [done|].
    rewrite !length_app in Hf. cbn [length] in Hf. pose proof (ws_length (t' ++ rest)). lia.
  - intros d sp1 k sp2 sp3 t c sp4 Hs1 Hk Hs2 Hs3 Hv IH Hs4 n rest [|fuel] Hd Hf; [lia|].
    rewrite <- ?app_assoc. cbn [app]. rewrite <- ?app_assoc. rewrite key_step by done.
    rewrite skip_spaces, IH by (try done; by apply ends_spaces). cbn [jbind app]. by rewrite ws_app.
  - intros d sp1 k sp2 sp3 t c sp4 t' c' Hs1 Hk Hs2 Hs3 Hv IH Hs4 Hm IH' n rest [|fuel] Hd Hf; [lia|].
    rewrite <- ?app_assoc in *. cbn [app] in *. rewrite <- ?app_assoc in *. cbn [app] in *. rewrite key_step by done.
    rewrite skip_spaces, IH by (try done; by apply ends_spaces). cbn [jbind]. rewrite !ws_app in * by done.
    change (json_ws (44 :: ?l)) with (44 :: l). rewrite cget_cons. cbn [Z.eqb Pos.eqb negb].
    change (drop 1 (44 :: ?l)) with l. apply IH'; [done|]. unfold str_token in Hf. cbn [app] in Hf.
    change (json_ws (34 :: ?l)) with (34 :: l) in Hf. cbn [length] in Hf. rewrite !length_app in Hf. cbn [length] in Hf.
    rewrite !length_app in Hf. cbn [length] in Hf. pose proof (ws_length (t' ++ rest)). lia.
Qed.
End Skip.

(** ** What is skipped is a value *)

Section Sound.
Lemma json_number_sound s v r : isspace (cget s 0) = false -> json_number s = JOk v r ->
  exists t, s = t ++ r /\ number t.
Proof.
  intros Hs. unfold json_number. rewrite ws_id by done. destruct (strtod s) as [[w r']|] eqn:E; [|done].
  intros [= _ ->]. apply strtod_local in E as (sp & t & -> & Hsp & Hne & Ht & _ & Hloc).
  exists t. destruct Hsp as [|c sp Hc Hsp]; [|change (cget ((c :: sp) ++ _) 0) with c in Hs; congruence].
  split; [done|]. split_and!; [done..|]. exists w. rewrite <- (app_nil_r t). by apply Hloc.
Qed.

Lemma cget_head c s : c <> 0 -> cget s 0 = c -> s = c :: drop 1 s.
Proof. destruct s as [|x s]; cbn; [by intros ? <-|]. intros _ ->. by rewrite drop_0. Qed.

Section Loops.
Context (d : nat) (skip : bytes -> jres unit).
Hypothesis skip_sound : forall s rest, skip s = JOk tt rest ->
  exists sp t c, s = sp ++ t ++ rest /\ spaces sp /\ value d t c.
Hypothesis skip_fuel : forall s, skip s <> JFuel.

Lemma array_loop_sound : forall fuel s rest, array_loop skip fuel s = JOk tt rest ->
  exists t c, s = t ++ rest /\ elems d t c.
Proof.
  induction fuel as [|fuel IH]; intros s rest; cbn [array_loop]; [done|].
  destruct (skip s) as [[] r| |] eqn:Es; cbn [jbind]; [|done..].
  apply skip_sound in Es as (sp & t & c & -> & Hsp & Hv). cbv zeta.
  destruct (ws_split r) as (sp2 & Hr & Hsp2 & _). set (q := json_ws r) in *. clearbody q. subst r.
  destruct (Z.eqb_spec (cget q 0) 93) as [H93|_].
  - intros [= <-]. apply (cget_head 93) in H93; [|done]. rewrite H93.
    exists (sp ++ t ++ sp2 ++ [93]), (c ++ [93]). split; [|by apply E_last].
    rewrite <- !app_assoc. cbn. by rewrite ?drop_0.
  - destruct (Z.eqb_spec (cget q 0) 44) as [H44|]; [|done]. cbn [negb].
    intros (t' & c' & Ht & He)%IH. apply (cget_head 44) in H44; [|done]. rewrite H44, Ht.
    exists (sp ++ t ++ sp2 ++ 44 :: t'), (c ++ 44 :: c'). split; [|by apply E_more].
    by rewrite <- !app_assoc.
Qed.

Lemma object_loop_sound : forall fuel s rest, object_loop skip fuel s = JOk tt rest ->
  exists t c, s = t ++ rest /\ members d t c.
Proof.
  induction fuel as [|fuel IH]; intros s rest; cbn [object_loop]; [done|].
  destruct (json_string s) as [k r| |] eqn:Ek; cbn [jbind]; [|done..].
  apply json_string_sound in Ek as (b & Hs & Hb). destruct (ws_split s) as (sp1 & Hs1 & Hsp1 & _).
  rewrite Hs in Hs1. subst s. cbv zeta.
  destruct (ws_split r) as (sp2 & Hr & Hsp2 & _). set (q := json_ws r) in *. clearbody q. subst r.
  destruct (Z.eqb_spec (cget q 0) 58) as [H58|]; [|done]. cbn [negb]. apply (cget_head 58) in H58; [|done].
  destruct (skip (drop 1 q)) as [[] r| |] eqn:Es; cbn [jbind]; [|done..].
  apply skip_sound in Es as (sp3 & t & c & Hq & Hsp3 & Hv). rewrite Hq in H58. subst q.
  destruct (ws_split r) as (sp4 & Hr & Hsp4 & _). set (q := json_ws r) in *. clearbody q. subst r.
  destruct (Z.eqb_spec (cget q 0) 125) as [H125|_].
  - intros [= <-]. apply (cget_head 125) in H125; [|done]. rewrite H125.
    eexists (sp1 ++ str_token b ++ sp2 ++ 58 :: sp3 ++ t ++ sp4 ++ [125]), _. split; [|by apply M_last].
    repeat (rewrite <- !app_assoc; cbn [app]). cbn. by rewrite ?drop_0.
  - destruct (Z.eqb_spec (cget q 0) 44) as [H44|]; [|done]. cbn [negb].
    intros (t' & c' & Ht & Hm)%IH. apply (cget_head 44) in H44; [|done]. rewrite H44, Ht.
    eexists (sp1 ++ str_token b ++ sp2 ++ 58 :: sp3 ++ t ++ sp4 ++ 44 :: t'), _. split; [|by apply M_more].
    repeat (rewrite <- !app_assoc; cbn [app]). done.
Qed.

Lemma array_loop_fuel : forall fuel s, (length s < fuel)%nat -> array_loop skip fuel s <> JFuel.
Proof.
  induction fuel as [|fuel IH]; intros s Hl; [lia|]. cbn [array_loop].
  destruct (skip s) as [[] r| |] eqn:Es; cbn [jbind]; [|done|by apply skip_fuel in Es].
  apply skip_sound in Es as (sp & t & c & -> & _ & Hv). pose proof (value_pos _ _ _ Hv).
  pose proof (ws_length r). repeat case_if; try done. apply IH. rewrite length_drop. rewrite !length_app in Hl. lia.
Qed.

Lemma object_loop_fuel : forall fuel s, (length s < fuel)%nat -> object_loop skip fuel s <> JFuel.
Proof.
  induction fuel as [|fuel IH]; intros s Hl; [lia|]. cbn [object_loop].
  destruct (json_string s) as [k r| |] eqn:Ek; cbn [jbind]; [|done|by apply json_string_fuel in Ek].
  apply json_string_sound in Ek as (b & Hs & _). pose proof (ws_length s) as Hws. rewrite Hs, length_app in Hws.
  cbv zeta. case_if; [done|]. pose proof (ws_length r).
  destruct (skip (drop 1 (json_ws r))) as [[] r'| |] eqn:Es; cbn [jbind]; [|done|by apply skip_fuel in Es].
  apply skip_sound in Es as (sp & t & c & Hr & _ & Hv). pose proof (value_pos _ _ _ Hv).
  apply (f_equal length) in Hr. rewrite length_drop, !length_app in Hr.
  pose proof (ws_length r'). repeat case_if; try done. apply IH. rewrite length_drop. lia.
Qed.
End Loops.

Lemma skip_step_fuel n s : (forall m, n = S m -> forall s, json_skip_value_depth m s <> JFuel) ->
  (forall m, n = S m -> forall s rest, json_skip_value_depth m s = JOk tt rest ->
    exists sp t c, s = sp ++ t ++ rest /\ spaces sp /\ value m t c) ->
  json_skip_value_depth n s <> JFuel.
Proof.
  intros Hf Hs.
  assert (Hstr : forall q, (read _v, r <- json_string q; JOk tt r) <> JFuel).
  { intros q. destruct (json_string q) eqn:E; cbn [jbind]; [done|done|by apply json_string_fuel in E]. }
  assert (Hnum : forall q, (read _v, r <- json_number q; JOk tt r) <> JFuel).
  { intros q. unfold json_number. by destruct (strtod (json_ws q)) as [[]|]. }
  destruct n as [|n]; cbn [json_skip_value_depth].
  - case_if; [apply Hstr|]. repeat (case_if; [done|]). destruct (skip_literal _); [done | apply Hnum].
  - case_if; [apply Hstr|]. case_if; [|case_if].
    + unfold skip_object. cbv zeta. repeat (case_if; [done|]). apply (object_loop_fuel n); [by apply Hs | by apply Hf|]. lia.
    + unfold skip_array. cbv zeta. repeat (case_if; [done|]). apply (array_loop_fuel n); [by apply Hs | by apply Hf|]. lia.
    + destruct (skip_literal _); [done | apply Hnum].
Qed.

Lemma skip_literal_sound s r : skip_literal s = Some r -> exists w, w ∈ literals /\ s = w ++ r.
Proof.
  assert (H : forall lit, json_lit lit s = Some r -> s = lit ++ r).
  { intros lit. unfold json_lit. case_if; [|done]. intros [= <-]. apply starts_with_iff in E as [q ->].
    by rewrite drop_app_length. }
  unfold skip_literal. destruct (json_lit (bs "true") s) as [q|] eqn:E1; [intros [= ->]; exists (bs "true"); split; [set_solver | by apply H]|].
  destruct (json_lit (bs "false") s) as [q|] eqn:E2; [intros [= ->]; exists (bs "false"); split; [set_solver | by apply H]|].
  intros E3. exists (bs "null"). split; [set_solver | by apply H].
Qed.

Lemma skip_step_sound n s rest : json_skip_value_depth n s = JOk tt rest ->
  (forall m, n = S m -> forall s rest, json_skip_value_depth m s = JOk tt rest ->
    exists sp t c, s = sp ++ t ++ rest /\ spaces sp /\ value m t c) ->
  exists sp t c, s = sp ++ t ++ rest /\ spaces sp /\ value n t c.
Proof.
  intros Hk Hs. destruct (ws_split s) as (sp & Hsplit & Hsp & Hh). set (q := json_ws s) in *.
  enough (exists t c, q = t ++ rest /\ value n t c) as (t & c & Hq & Hv).
  { exists sp, t, c. rewrite <- Hq. done. }
  destruct (decide (cget q 0 = 34)) as [H34|H34].
  { rewrite skip_str in Hk by done. fold q in Hk. destruct (json_string q) as [v r| |] eqn:Ej; try done. cbn in Hk.
    injection Hk as ->. apply json_string_sound in Ej as (b & Hq & Hb). exists (str_token b), (str_token b).
    split; [|by constructor]. rewrite <- Hq. unfold q. by rewrite ws_idem. }
  destruct (decide (cget q 0 = 123)) as [H123|H123].
  { destruct n as [|n]; [cbn [json_skip_value_depth] in Hk; fold q in Hk; by rewrite H123 in Hk|].
    rewrite skip_obj in Hk by done. fold q in Hk. apply (cget_head 123) in H123; [|done]. revert Hk. unfold skip_object.
    rewrite (ws_id q Hh). rewrite H123 at 1. rewrite cget_cons. cbn [Z.eqb Pos.eqb negb]. cbv zeta.
    destruct (ws_split (drop 1 q)) as (sp2 & Hd & Hsp2 & _). destruct (Z.eqb_spec (cget (json_ws (drop 1 q)) 0) 125) as [H125|].
    - intros [= <-]. apply (cget_head 125) in H125; [|done]. exists (123 :: sp2 ++ [125]), [123; 125]. split; [|by constructor].
      rewrite H123, Hd at 1. rewrite H125 at 1. cbn. by rewrite <- app_assoc.
    - rewrite object_loop_ws. intros (t & c & Ht & Hm)%(object_loop_sound n); [|by apply Hs].
      exists (123 :: t), (123 :: c). split; [|by constructor]. rewrite H123, Ht. done. }
  destruct (decide (cget q 0 = 91)) as [H91|H91].
  { destruct n as [|n]; [cbn [json_skip_value_depth] in Hk; fold q in Hk; by rewrite H91 in Hk|].
    rewrite skip_arr in Hk by done. fold q in Hk. apply (cget_head 91) in H91; [|done]. revert Hk. unfold skip_array.
    rewrite (ws_id q Hh). rewrite H91 at 1. rewrite cget_cons. cbn [Z.eqb Pos.eqb negb]. cbv zeta.
    destruct (ws_split (drop 1 q)) as (sp2 & Hd & Hsp2 & _). destruct (Z.eqb_spec (cget (json_ws (drop 1 q)) 0) 93) as [H93|].
    - intros [= <-]. apply (cget_head 93) in H93; [|done]. exists (91 :: sp2 ++ [93]), [91; 93]. split; [|by constructor].
      rewrite H91, Hd at 1. rewrite H93 at 1. cbn. by rewrite <- app_assoc.
    - rewrite array_loop_ws. intros (t & c & Ht & Hm)%(array_loop_sound n); [|by apply Hs].
      exists (91 :: t), (91 :: c). split; [|by constructor]. rewrite H91, Ht. done. }
  rewrite skip_other in Hk by done. fold q in Hk.
  destruct (skip_literal q) as [r|] eqn:El.
  - injection Hk as ->. apply skip_literal_sound in El as (w & Hw & ->). exists w, w. split; [done | by constructor].
  - destruct (json_number q) as [v r| |] eqn:En; try done. cbn in Hk. injection Hk as ->.
    apply json_number_sound in En as (t & Hq & Ht); [|done]. exists t, t. split; [done | by constructor].
Qed.

Lemma skip_sound_fuel n : (forall s rest, json_skip_value_depth n s = JOk tt rest ->
    exists sp t c, s = sp ++ t ++ rest /\ spaces sp /\ value n t c) /\
  (forall s, json_skip_value_depth n s <> JFuel).
Proof.
  induction n as [|n [IHs IHf]].
  - split; [intros s rest Hk; by apply skip_step_sound | intros s; by apply skip_step_fuel].
  - split; [intros s rest Hk; apply skip_step_sound; [done|] | intros s; apply skip_step_fuel]; by intros m [= <-].
Qed.
End Sound.

(** ** Minified text *)

Section Minify.
Lemma minify_hex h r : is_hex h -> minify_loop (h :: r) true false = h :: minify_loop r true false.
Proof.
  intros (_ & H34 & H92)%is_hex_facts. cbn [minify_loop].
  destruct (Z.eqb_spec h 92); [done|]. by destruct (Z.eqb_spec h 34).
Qed.

Lemma minify_escaped c r : minify_loop (92 :: c :: r) true false = 92 :: c :: minify_loop r true false.
Proof. done. Qed.

Lemma minify_body b r : lex_body b ->
  minify_loop (b ++ 34 :: r) true false = b ++ 34 :: minify_loop r false false.
Proof.
  induction 1 as [|c b Hc1 Hc2 Hb IH|c v b Hv Hb IH|h1 h2 h3 h4 b H1 H2 H3 H4 Hb IH]; cbn [app]; [done|..].
  - cbn [minify_loop]. destruct (Z.eqb_spec c 92); [done|]. destruct (Z.eqb_spec c 34); [done|]. cbn [negb]. by rewrite IH.
  - by rewrite minify_escaped, IH.
  - by rewrite minify_escaped, !minify_hex, IH.
Qed.

Lemma minify_str b r : lex_body b ->
  minify_loop (str_token b ++ r) false false = str_token b ++ minify_loop r false false.
Proof.
  intros Hb. unfold str_token. cbn [app minify_loop Z.eqb Pos.eqb]. rewrite <- !app_assoc. cbn [app].
  by rewrite minify_body.
Qed.

Lemma minify_spaces sp r : spaces sp -> minify_loop (sp ++ r) false false = minify_loop r false false.
Proof.
  induction 1 as [|c sp Hc Hsp IH]; [done|]. cbn [app minify_loop]. rewrite Hc. cbn [negb].
  destruct (Z.eqb_spec c 34) as [->|]; [done|]. exact IH.
Qed.

Lemma minify_plain t r : plain t -> minify_loop (t ++ r) false false = t ++ minify_loop r false false.
Proof.
  induction 1 as [|c t Hc Ht IH]; [done|]. cbn [app minify_loop]. apply plain_not_space in Hc as [Hs H34].
  rewrite Hs. destruct (Z.eqb_spec c 34); [done|]. cbn [negb]. by rewrite IH.
Qed.

Lemma number_plain t : number t -> plain t.
Proof.
  intros (Hne & Hs & v & Hv). apply strtod_local in Hv as (sp & t' & Ht & Hsp & _ & _ & Hp & _).
  destruct Hsp as [|c sp Hc Hsp]; [|subst t; change (cget ((c :: sp) ++ _) 0) with c in Hs; congruence].
  cbn [app] in Ht. rewrite app_nil_r in Ht. by subst t'.
Qed.

Lemma minify_char c r : c <> 34 -> isspace c = false -> minify_loop (c :: r) false false = c :: minify_loop r false false.
Proof. intros H1 H2. cbn [minify_loop]. rewrite H2. destruct (Z.eqb_spec c 34); done. Qed.

Lemma minify_value :
  (forall d t c, value d t c -> forall r, minify_loop (t ++ r) false false = c ++ minify_loop r false false) /\
  (forall d t c, elems d t c -> forall r, minify_loop (t ++ r) false false = c ++ minify_loop r false false) /\
  (forall d t c, members d t c -> forall r, minify_loop (t ++ r) false false = c ++ minify_loop r false false).
Proof.
  apply json_mind.
  - intros d b Hb r. by apply minify_str.
  - intros d w Hw r. unfold literals in Hw. rewrite !elem_of_cons, elem_of_nil in Hw.
    destruct Hw as [->|[->|[->|[]]]]; done.
  - intros d t Ht r. by apply minify_plain, number_plain.
  - intros d sp Hsp r. cbn [app]. rewrite <- app_assoc, minify_char, minify_spaces by done. done.
  - intros d t c _ IH r. cbn [app]. by rewrite minify_char, IH by done.
  - intros d sp Hsp r. cbn [app]. rewrite <- app_assoc, minify_char, minify_spaces by done. done.
  - intros d t c _ IH r. cbn [app]. by rewrite minify_char, IH by done.
  - intros d sp1 t c sp2 H1 _ IH H2 r. rewrite <- !app_assoc, minify_spaces, IH, minify_spaces by done. done.
  - intros d sp1 t c sp2 t' c' H1 _ IH H2 _ IH' r. rewrite <- !app_assoc. cbn [app].
    by rewrite minify_spaces, IH, minify_spaces, minify_char, IH' by done.
  - intros d sp1 k sp2 sp3 t c sp4 H1 Hk H2 H3 _ IH H4 r.
    rewrite <- !app_assoc. cbn [app]. rewrite <- !app_assoc.
    rewrite minify_spaces, minify_str, minify_spaces, minify_char, minify_spaces, IH, minify_spaces by done. done.
  - intros d sp1 k sp2 sp3 t c sp4 t' c' H1 Hk H2 H3 _ IH H4 _ IH' r.
    rewrite <- !app_assoc. cbn [app]. rewrite <- !app_assoc. cbn [app].
    by rewrite minify_spaces, minify_str, minify_spaces, minify_char, minify_spaces, IH, minify_spaces, minify_char, IH' by done.
Qed.

(** Minified text is the same value. *)
Lemma value_compact :
  (forall d t c, value d t c -> value d c c) /\ (forall d t c, elems d t c -> elems d c c) /\
  (forall d t c, members d t c -> members d c c).
Proof.
  apply json_mind; intros; try (by constructor).
  - by apply (V_arr0 d []).
  - by apply (V_obj0 d []).
  - by apply (E_last d [] c c []).
  - by apply (E_more d [] c c [] c' c').
  - by apply (M_last d [] k [] [] c c []).
  - by apply (M_more d [] k [] [] c c [] c' c').
Qed.
End Minify.

(** ** Escaped strings *)

Section Escape.
Lemma unicode_escape_control : forall r c, 0 <= c < 32 -> unicode_escape (92 :: 117 :: hex4 c ++ r) = Some (c, r).
Proof.
  intros r c Hc.
  assert (H : map (fun c => unicode_escape (92 :: 117 :: hex4 c ++ r)) (map Z.of_nat (seq 0 32)) =
    map (fun c => Some (c, r)) (map Z.of_nat (seq 0 32))) by reflexivity.
  apply map_ext_in_iff with (a := c) in H; [done|]. apply in_map_iff. exists (Z.to_nat c).
  split; [lia|]. apply in_seq. lia.
Qed.

Lemma escape_char_loop c fuel r acc : is_byte c ->
  string_loop (S fuel) (escape_char c ++ r) acc = string_loop fuel r (acc ++ [c]).
Proof.
  intros Hc. unfold is_byte in Hc. unfold escape_char. repeat case_if; bool_prop; try (subst c; reflexivity).
  - by destruct E as [E|E]; bool_prop; subst c.
  - change ([92; 117] ++ hex4 c ++ r) with (92 :: 117 :: hex4 c ++ r). rewrite <- app_assoc. cbn [app string_loop].
    cbn [Z.eqb Pos.eqb negb]. change (cget (117 :: _) 0) with 117. cbn [Z.eqb Pos.eqb].
    rewrite unicode_escape_control by lia. unfold server_utf8_put.
    destruct (Z.ltb_spec 0x10ffff c); [lia|]. destruct (Z.leb_spec 0xd800 c); [lia|]. cbn [orb andb].
    destruct (Z.leb_spec c 0x7f); [|lia]. by rewrite u8_small.
  - cbn [app string_loop]. destruct (Z.eqb_spec c 34); [done|]. destruct (Z.eqb_spec c 92); [done|]. done.
Qed.

Lemma escape_loop s : forall fuel r acc, bytes_ok s ->
  string_loop (length s + S fuel) (flat_map escape_char s ++ 34 :: r) acc = JOk (acc ++ s) r.
Proof.
  induction s as [|c s IH]; intros fuel r acc Hs; cbn [flat_map length app plus].
  - cbn [string_loop Z.eqb Pos.eqb]. by rewrite app_nil_r.
  - apply Forall_cons in Hs as [Hc Hs]. rewrite <- app_assoc.
    rewrite escape_char_loop, IH by done. by rewrite <- app_assoc.
Qed.

Lemma escape_char_pos c : (1 <= length (escape_char c))%nat.
Proof. unfold escape_char. repeat case_if; cbn; lia. Qed.

Lemma escape_length s : (length s <= length (flat_map escape_char s))%nat.
Proof.
  induction s as [|c s IH]; [done|]. cbn [flat_map length]. rewrite length_app. pose proof (escape_char_pos c). lia.
Qed.

Lemma json_escape_read sp s r : spaces sp -> bytes_ok s -> json_string (sp ++ json_escape s ++ r) = JOk s r.
Proof.
  intros Hsp Hs. unfold json_string. rewrite ws_app by done. unfold json_escape. cbn [app].
  change (json_ws (34 :: ?l)) with (34 :: l). rewrite cget_cons. cbn [Z.eqb Pos.eqb negb].
  change (drop 1 (34 :: ?l)) with l. rewrite <- app_assoc. cbn [app].
  set (n := length _). assert (Hn : (length s <= n)%nat).
  { subst n. cbn [length]. rewrite length_app. pose proof (escape_length s). lia. }
  replace (S n) with (length s + S (n - length s))%nat by lia. by apply (escape_loop s _ r []).
Qed.

(** No raw control character is written. *)
Lemma escape_printable s : bytes_ok s -> Forall (fun c => 32 <= c) (json_escape s).
Proof.
  intros Hs. unfold json_escape. constructor; [lia|]. apply Forall_app. split; [|repeat constructor; lia].
  induction Hs as [|c s Hc Hs IH]; [constructor|]. cbn [flat_map]. apply Forall_app. split; [|done].
  unfold is_byte in Hc. unfold escape_char, hex4. repeat case_if; bool_prop; cbn [app]; repeat constructor; try lia; try zdiv.
Qed.
End Escape.

(** ** Properties *)

(** Strings round-trip: what [json_escape] writes, [json_string] reads back,
    byte for byte, whatever precedes it as whitespace and whatever follows; and
    the text written holds no raw control character. *)
Theorem json_string_roundtrip (sp s rest : bytes) (Hsp : spaces sp) (Hs : bytes_ok s) :
  json_string (sp ++ json_escape s ++ rest) = JOk s rest /\
  Forall (fun c => 32 <= c) (json_escape s).
Proof. split; [by apply json_escape_read | by apply escape_printable]. Qed.

Lemma json_string_roundtrip_witness :
  json_string ([32; 9] ++ json_escape [65; 10; 34; 92; 1; 233] ++ bs ",") = JOk [65; 10; 34; 92; 1; 233] (bs ",").
Proof.
  apply json_string_roundtrip; apply (bool_decide_unpack _); vm_compute; exact I.
Defined.

(** C25: The skipper accepts exactly the grammar: it never runs out, and before a
    rest that extends no number it succeeds if and only if a value with at most
    256 levels of containers stands there, and stops right behind it. *)
Theorem json_skip_exact (s rest : bytes) (Hrest : ends_number rest = true) :
  json_skip_value s <> JFuel /\
  (json_skip_value s = JOk tt rest <->
   exists sp t c, s = sp ++ t ++ rest /\ spaces sp /\ value JSON_MAX_NESTING t c).
Proof.
  destruct (skip_sound_fuel JSON_MAX_NESTING) as [Hs Hf]. split; [apply Hf|]. split; [apply Hs|].
  intros (sp & t & c & -> & Hsp & Hv). unfold json_skip_value. rewrite skip_spaces by done.
  by eapply (proj1 skip_complete).
Qed.

Lemma json_skip_exact_witness :
  exists sp t c, bs " [1, true ] x" = sp ++ t ++ bs " x" /\ spaces sp /\ value JSON_MAX_NESTING t c.
Proof. apply (json_skip_exact (bs " [1, true ] x") (bs " x")); reflexivity. Defined.

(** Raw and minified values: of a value between whitespace and other text
    [json_raw_value] takes exactly the text, and minifying drops exactly the
    spaces between its tokens and yields the same value. *)
Theorem json_minify_compact (sp t c rest : bytes) (Hsp : spaces sp)
    (Hv : value JSON_MAX_NESTING t c) (Hrest : ends_number rest = true) :
  json_raw_value (sp ++ t ++ rest) = JOk t rest /\
  json_minify_raw_value (sp ++ t ++ rest) = c /\
  value JSON_MAX_NESTING c c /\ json_minify_raw_value c = c.
Proof.
  assert (Hgen : forall sp t rest, spaces sp -> value JSON_MAX_NESTING t c -> ends_number rest = true ->
    json_raw_value (sp ++ t ++ rest) = JOk t rest /\ json_minify_raw_value (sp ++ t ++ rest) = c).
  { clear. intros sp t rest Hsp Hv Hrest. unfold json_raw_value, json_minify_raw_value.
    rewrite !ws_app, !(ws_value _ _ _ _ Hv) by done. unfold json_skip_value.
    rewrite (proj1 skip_complete _ _ _ Hv) by done. cbn [jbind].
    assert (take (length (t ++ rest) - length rest) (t ++ rest) = t) as ->.
    { rewrite length_app. replace (length t + length rest - length rest)%nat with (length t) by lia.
      by rewrite take_app_length. }
    split; [done|]. rewrite <- (app_nil_r t), (proj1 minify_value _ _ _ Hv). by rewrite app_nil_r. }
  destruct (Hgen sp t rest Hsp Hv Hrest) as [H1 H2]. pose proof (proj1 value_compact _ _ _ Hv) as Hc.
  split_and!; [done..|]. destruct (Hgen [] c [] ltac:(constructor) Hc eq_refl) as [_ H3].
  cbn [app] in H3. by rewrite app_nil_r in H3.
Qed.

Lemma json_minify_compact_witness :
  json_minify_raw_value (bs " " ++ bs "[ true , null ]" ++ bs "  ,") = bs "[true,null]".
Proof.
  refine (proj1 (proj2 (json_minify_compact (bs " ") (bs "[ true , null ]") (bs "[true,null]") (bs "  ,") _ _ _))).
  - by apply (bool_decide_unpack _).
  - apply (V_arr _ (bs " true , null ]") (bs "true,null]")).
    apply (E_more _ [32] (bs "true") (bs "true") [32] (bs " null ]") (bs "null]")).
    + by apply (bool_decide_unpack _).
    + apply V_lit. by apply (bool_decide_unpack _).
    + by apply (bool_decide_unpack _).
    + apply (E_last _ [32] (bs "null") (bs "null") [32]).
      * by apply (bool_decide_unpack _).
      * apply V_lit. by apply (bool_decide_unpack _).
      * by apply (bool_decide_unpack _).
  - reflexivity.
Defined.
