(* ===== verification/ImageLayout.v ===== *)
(** * Image tokens of a prompt (ds4_image.c)

    A DeepSeek image takes a block of synthetic tokens in the prompt: alignment
    padding, a start token, the rows of the grid two by two, and an end token.
    Choosing the grid, building the block, finding blocks in a prompt, cutting a
    prompt into chunks that keep blocks whole, and the attention range of each
    token.  The pixels are not modelled. *)

From Stdlib Require Import Floats.SpecFloat.
From S2P Require Import Prelude Float64.
#[local] Open Scope Z_scope.
#[local] Open Scope stdpp_scope.

Definition DS4_DEEPSEEK4_IMAGE_START : Z := 0.
Definition DS4_DEEPSEEK4_IMAGE_PAD : Z := 1.
Definition DS4_DEEPSEEK4_IMAGE : Z := 2.
Definition DS4_DEEPSEEK4_IMAGE_NEWLINE : Z := 3.
Definition DS4_DEEPSEEK4_IMAGE_END : Z := 4.

(** ** The grid of an image *)

Definition grid_tokens (height width : Z) : Z * Z * Z :=
  let h := u32 (height / 14 + 2) / 3 in
  let w := u32 (width / 14 + 2) / 3 in
  let count := u64 (h * u32 (w + 1) + 2) in
  let count := if Z.odd h then u64 (count + u32 (w + 1)) else count in
  let count := if Z.odd (u32 ((u32 (h + 1) / 2) * u32 (w + 1))) then u64 (count + 2) else count in
  (if count <=? U32_MAX then count else U32_MAX, h, w).

(** [floor] of a number that is not negative, as [uint32_t]. *)
Definition floor_u32 (f : spec_float) : Z :=
  match f with S754_finite false m e => if 0 <=? e then Z.shiftl (Zpos m) e else Z.shiftr (Zpos m) (- e) | _ => 0 end.

Definition f64_sub : spec_float -> spec_float -> spec_float := SFsub 53 1024.
Definition f64_sqrt : spec_float -> spec_float := SFsqrt 53 1024.
Definition f64_half : spec_float := F64.ratio 1 2.
Definition f64_quarter : spec_float := F64.ratio 1 4.
Definition f64_min (a b : spec_float) : spec_float := if F64.lt b a then b else a.

(** [& ~1u] *)
Definition even_part (x : Z) : Z := x - x mod 2.

Definition solve_resize (height width budget : Z) : option (Z * Z) :=
  let ratio := F64.div (F64.of_Z height) (F64.of_Z width) in
  let max_w_float :=
    f64_sub (f64_sqrt (F64.add (F64.div (f64_sub (F64.of_Z budget) (F64.of_Z 2)) ratio) f64_quarter)) f64_half in
  let max_h_float := F64.mul max_w_float ratio in
  if F64.lt max_w_float (F64.of_Z 1) then
    let max_w := 1 in
    let max_h := even_part (u32 (budget - 2) / (max_w + 1)) in
    if max_h =? 0 then None else Some (u32 (max_h * 42), max_w * 42)
  else if F64.lt max_h_float (F64.of_Z 2) then
    let max_h := 2 in
    let max_w := u32 (u32 (budget - 2) / max_h - 1) in
    if max_w <=? 1 then None else Some (max_h * 42, u32 (max_w * 42))
  else
    let max_w := floor_u32 max_w_float in
    let max_h := even_part (floor_u32 max_h_float) in
    if (max_w =? 0) || (max_h =? 0) then None
    else
      let scale :=
        f64_min (F64.div (F64.mul (F64.of_Z max_w) (F64.of_Z 42)) (F64.of_Z width))
                (F64.div (F64.mul (F64.of_Z max_h) (F64.of_Z 42)) (F64.of_Z height)) in
      let side x := u32 (floor_u32 (F64.div (F64.mul (F64.of_Z x) scale) (F64.of_Z 14)) * 14) in
      if (side width =? 0) || (side height =? 0) then None else Some (side height, side width).

(** The best size and its grid; the budget falls in every round. *)
Fixpoint resize_loop (fuel : nat) (height width budget best_height best_width : Z) : option (Z * Z * Z * Z) :=
  let '(tokens, lh, lw) := grid_tokens best_height best_width in
  if 381 <? tokens then
    match fuel with
    | O => None
    | S fuel' =>
        if budget <=? 4 then None
        else
          match solve_resize height width budget with
          | None => None
          | Some (bh, bw) => resize_loop fuel' height width (budget - 1) bh bw
          end
    end
  else Some (best_height, best_width, lh, lw).

Definition safe_resize (height width best_height best_width : Z) : option (Z * Z * Z * Z) :=
  resize_loop 381 height width (384 - 3) best_height best_width.

(** ** The block of an image *)

Record ds4_deepseek4_image_layout := Layout { il_types : list Z; il_perm : list Z }.

Definition body_type (grid_height grid_width row column : Z) : Z :=
  if (row <? grid_height) && (column <? grid_width) then DS4_DEEPSEEK4_IMAGE
  else if row <? grid_height then DS4_DEEPSEEK4_IMAGE_NEWLINE else DS4_DEEPSEEK4_IMAGE_PAD.

Definition body_image (grid_height grid_width row column : Z) : Z :=
  if (row <? grid_height) && (column <? grid_width) then row * grid_width + column else -1.

(** [0 .. n-1] *)
Definition upto (n : Z) : list Z := map Z.of_nat (seq 0 (Z.to_nat n)).

(** Row by row. *)
Definition body (f : Z -> Z -> Z) (rows row_length : Z) : list Z :=
  rows_ ← upto rows; column ← upto row_length; [f rows_ column].

(** The places of the body in the order they are written: two rows at a time,
    column by column. *)
Definition sources (rows row_length : Z) : list Z :=
  pair ← upto (rows / 2); column ← upto row_length; row_in_pair ← upto 2;
  [(pair * 2 + row_in_pair) * row_length + column].

Definition image_layout_build (grid_height grid_width start_pos : Z) : option ds4_deepseek4_image_layout :=
  if (grid_height =? 0) || (grid_width =? 0) then None
  else
    let pad_height := grid_height mod 2 in
    let rows := u32 (grid_height + pad_height) in
    let row_length := u32 (grid_width + 1) in
    let compress_pad := 3 - start_pos mod 4 in
    let pad_last := u32 (rows / 2 * row_length) mod 2 * 2 in
    let body_count := rows * row_length in
    let token_count := compress_pad + 1 + body_count + pad_last + 1 in
    let image_count := grid_height * grid_width in
    if (384 <? token_count) || (U32_MAX <? token_count) || (U32_MAX <? image_count) then None
    else
      let body_types := body (body_type grid_height grid_width) rows row_length in
      let body_images := body (body_image grid_height grid_width) rows row_length in
      let types :=
        repeat DS4_DEEPSEEK4_IMAGE_PAD (Z.to_nat compress_pad) ++ [DS4_DEEPSEEK4_IMAGE_START] ++
        (source ← sources rows row_length; [nth (Z.to_nat source) body_types 0]) ++
        repeat DS4_DEEPSEEK4_IMAGE_PAD (Z.to_nat pad_last) ++ [DS4_DEEPSEEK4_IMAGE_END] in
      let perm :=
        source ← sources rows row_length;
        let image := nth (Z.to_nat source) body_images (-1) in
        if 0 <=? image then [image] else [] in
      if negb (zlen types =? token_count) || negb (zlen perm =? image_count) then None
      else Some (Layout types perm).

(** ** Blocks of a prompt *)

(** How many leading elements pass the test. *)
Fixpoint lead (f : Z -> bool) (l : list Z) : nat :=
  match l with [] => 0 | t :: l' => if f t then S (lead f l') else 0 end%nat.

(** From behind the start token: the place of the end token. *)
Fixpoint image_loop (vocab : Z) (l : list Z) (i : nat) : option nat :=
  match l with
  | [] => None
  | token :: l' =>
      if (token <? vocab) || (vocab + DS4_DEEPSEEK4_IMAGE_END <? token) || (token =? vocab + DS4_DEEPSEEK4_IMAGE_START) then None
      else if token =? vocab + DS4_DEEPSEEK4_IMAGE_END then Some i
      else image_loop vocab l' (S i)
  end.

(** A block from [block], with its image between [image_start] and [image_end];
    the cursor goes behind it. *)
Inductive image_span := SpanError | SpanNone | SpanBlock (block image_start image_end : nat).

Definition next_image_span (tokens : list Z) (vocab : Z) (cursor : nat) : image_span :=
  if (vocab =? 0) || (length tokens <? cursor)%nat then SpanError
  else
    let i := Nat.add cursor (lead (fun t => (0 <=? t) && (t <? vocab)) (drop cursor tokens)) in
    match drop i tokens with
    | [] => SpanNone
    | t :: _ =>
        if t <? 0 then SpanError
        else
          let block := i in
          let i := Nat.add block (lead (fun t => t =? vocab + DS4_DEEPSEEK4_IMAGE_PAD) (drop block tokens)) in
          match drop i tokens with
          | [] => SpanError
          | t :: rest =>
              if negb (t =? vocab + DS4_DEEPSEEK4_IMAGE_START) then SpanError
              else match image_loop vocab rest (S i) with None => SpanError | Some e => SpanBlock block i e end
          end
    end.

(** [limit] is the end of the chunk so far. *)
Fixpoint chunk_loop (fuel : nat) (tokens : list Z) (vocab : Z) (pos0 cap cursor limit : nat) : option nat :=
  match fuel with
  | O => None
  | S fuel' =>
      match next_image_span tokens vocab cursor with
      | SpanError => None
      | SpanNone => Some limit
      | SpanBlock block_start _ image_end =>
          if (limit <=? block_start)%nat then Some limit
          else
            let after_image := S image_end in
            if (limit <? after_image)%nat then
              if (cap <? after_image - pos0)%nat then if (block_start =? pos0)%nat then None else Some block_start
              else chunk_loop fuel' tokens vocab pos0 cap after_image after_image
            else chunk_loop fuel' tokens vocab pos0 cap after_image limit
      end
  end.

(** Every block has a token. *)
Definition prefill_chunk (tokens : list Z) (vocab : Z) (pos0 cap : nat) : option nat :=
  if (vocab =? 0) || (cap =? 0)%nat || (length tokens <=? pos0)%nat then None
  else
    let limit := (pos0 + if length tokens - pos0 <? cap then length tokens - pos0 else cap)%nat in
    match chunk_loop (S (length tokens)) tokens vocab pos0 cap pos0 limit with
    | None => None
    | Some limit => if (limit - pos0 =? 0)%nat then None else Some (limit - pos0)%nat
    end.

(** ** Attention ranges *)

Definition text_bounds (pos0 first_raw_pos last_raw_pos window q : Z) : Z * Z :=
  let qpos := pos0 + q in
  let lo :=
    if negb (window =? 0) && (window <? qpos + 1) then
      if first_raw_pos <? qpos + 1 - window then qpos + 1 - window else first_raw_pos
    else first_raw_pos in
  (lo, if qpos <? last_raw_pos then qpos else last_raw_pos).

Definition image_bounds (pos0 first_raw_pos last_raw_pos window image_start image_end q : Z) : Z * Z :=
  let qpos := pos0 + q in
  let left := if q - image_start <? 383 then q - image_start else 383 in
  let right := if image_end - q <? 384 then image_end - q else 384 in
  let left_add := if negb (window =? 0) && (window <=? left) then left - (window - 1) else 0 in
  let lo :=
    if negb (window =? 0) then
      let back := window - 1 + left_add in
      if back <? qpos then qpos - back else 0
    else 0 in
  let hi := qpos + right in
  (if lo <? first_raw_pos then first_raw_pos else lo, if last_raw_pos <? hi then last_raw_pos else hi).

(** [f q b] for the [n] entries from [q]. *)
Definition update_range (f : nat -> Z * Z) (q n : nat) (bounds : list (Z * Z)) : list (Z * Z) :=
  imap (fun i b => if (q <=? i)%nat && (i <? q + n)%nat then f i else b) bounds.

Fixpoint bounds_loop (fuel : nat) (tokens : list Z) (vocab pos0 first_raw_pos last_raw_pos window : Z) (cursor : nat)
    (bounds : list (Z * Z)) : option (list (Z * Z)) :=
  match fuel with
  | O => None
  | S fuel' =>
      match next_image_span tokens vocab cursor with
      | SpanError => None
      | SpanNone => Some bounds
      | SpanBlock _ image_start image_end =>
          bounds_loop fuel' tokens vocab pos0 first_raw_pos last_raw_pos window (S image_end)
            (update_range (fun q => image_bounds pos0 first_raw_pos last_raw_pos window (Z.of_nat image_start) (Z.of_nat image_end) (Z.of_nat q))
               image_start (S image_end - image_start) bounds)
      end
  end.

Definition attention_bounds (tokens : list Z) (vocab pos0 n_raw window : Z) : option (list (Z * Z)) :=
  let token_count := zlen tokens in
  if (token_count =? 0) || (vocab =? 0) || (U32_MAX - token_count <? pos0) || (n_raw =? 0) || (pos0 + token_count <? n_raw) then None
  else
    let first_raw_pos := pos0 + token_count - n_raw in
    let last_raw_pos := first_raw_pos + n_raw - 1 in
    bounds_loop (S (length tokens)) tokens vocab pos0 first_raw_pos last_raw_pos window 0
      (map (text_bounds pos0 first_raw_pos last_raw_pos window) (upto token_count)).

Example layout_small : image_layout_build 1 2 6 =
  Some (Layout [1; 0; 2; 1; 2; 1; 3; 1; 1; 1; 4] [0; 1]).
Proof. vm_compute. reflexivity. Qed.

Example layout_odd : option_map il_perm (image_layout_build 3 2 0) = Some [0; 2; 1; 3; 4; 5].
Proof. vm_compute. reflexivity. Qed.

Example chunk_small : prefill_chunk ([5; 6] ++ map (Z.add 100) [1; 0; 2; 1; 2; 1; 3; 1; 1; 1; 4] ++ [7]) 100 0 8 = Some 2%nat.
Proof. vm_compute. reflexivity. Qed.

Example resize_big : safe_resize 3000 2000 2996 1988 = Some (924, 616, 22, 15).
Proof. vm_compute. reflexivity. Qed.

(** ** The grid body *)

Lemma elem_of_upto n x : x ∈ upto n <-> 0 <= x < n.
Proof.
  unfold upto. rewrite list_elem_of_fmap. setoid_rewrite elem_of_seq. split.
  - intros (k & -> & H). lia.
  - intros H. exists (Z.to_nat x). lia.
Qed.

Lemma NoDup_upto n : NoDup (upto n).
Proof. apply NoDup_fmap_2_strong, NoDup_seq. intros x y _ _. lia. Qed.

Lemma length_upto n : length (upto n) = Z.to_nat n.
Proof. unfold upto. by rewrite length_map, length_seq. Qed.

Lemma nth_upto n i d : 0 <= i < n -> nth (Z.to_nat i) (upto n) d = i.
Proof.
  intros H. unfold upto. rewrite nth_indep with (d' := Z.of_nat 0) by (rewrite length_map, length_seq; lia).
  rewrite map_nth, seq_nth by lia. lia.
Qed.

Lemma nth_concat {A} (ls : list (list A)) w i j d : Forall (fun l => length l = w) ls -> (j < w)%nat ->
  nth (i * w + j) (concat ls) d = nth j (nth i ls []) d.
Proof.
  intros Hf Hj. revert i. induction Hf as [|l ls Hl Hf IH]; intros i; cbn [concat].
  - destruct i; destruct (_ + _)%nat, j; done.
  - destruct i as [|i]; cbn [nth].
    + by rewrite app_nth1 by lia.
    + rewrite app_nth2 by lia. replace (S i * w + j - length l)%nat with (i * w + j)%nat by lia. apply IH.
Qed.

Lemma bind_singletons {A B} (f : A -> B) l : (x ← l; [f x]) = map f l.
Proof. induction l as [|x l IH]; [done|]. by rewrite bind_cons, IH. Qed.

Lemma body_nth f rows W row col d : 0 <= row < rows -> 0 <= col < W -> nth (Z.to_nat (row * W + col)) (body f rows W) d = f row col.
Proof.
  intros Hr Hc. unfold body. replace (row ← upto rows; column ← upto W; [f row column]) with (concat (map (fun r => map (f r) (upto W)) (upto rows))).
  2: { induction (upto rows) as [|r l IH]; [done|]. cbn [map concat]. by rewrite bind_cons, bind_singletons, IH. }
  replace (Z.to_nat (row * W + col)) with (Z.to_nat row * Z.to_nat W + Z.to_nat col)%nat by nia.
  rewrite (nth_concat _ (Z.to_nat W)) by (try lia; apply Forall_forall; intros l (r & -> & _)%list_elem_of_fmap; by rewrite length_map, length_upto).
  rewrite nth_indep with (d' := map (f 0) (upto W)) by (rewrite length_map, length_upto; lia).
  rewrite (map_nth (fun r => map (f r) (upto W)) (upto rows) 0), nth_upto by lia.
  rewrite nth_indep with (d' := f row 0) by (rewrite length_map, length_upto; lia). by rewrite map_nth, nth_upto.
Qed.

Lemma place_inj W r c r' c' : 0 <= c < W -> 0 <= c' < W -> r * W + c = r' * W + c' -> r = r' /\ c = c'.
Proof. intros H H' E. assert (r = r') as -> by nia. lia. Qed.

Lemma elem_of_sources rows W s : s ∈ sources rows W <-> exists row col, 0 <= row < 2 * (rows / 2) /\ 0 <= col < W /\ s = row * W + col.
Proof.
  unfold sources. split.
  - intros (pair & (col & (r & Hs & Hr)%list_elem_of_bind & Hc)%list_elem_of_bind & Hp)%list_elem_of_bind.
    apply list_elem_of_singleton in Hs as ->. apply elem_of_upto in Hr, Hc, Hp. exists (pair * 2 + r), col. lia.
  - intros (row & col & Hr & Hc & ->). apply list_elem_of_bind. exists (row / 2). rewrite elem_of_upto. split; [|lia].
    apply list_elem_of_bind. exists col. rewrite elem_of_upto. split; [|lia]. apply list_elem_of_bind. exists (row mod 2). rewrite elem_of_upto.
    split; [|lia]. apply list_elem_of_singleton. f_equal. f_equal. lia.
Qed.

Lemma NoDup_sources rows W : NoDup (sources rows W).
Proof.
  unfold sources. apply NoDup_bind; [| |apply NoDup_upto].
  - intros p1 p2 y _ _ (c & (r & Hs & Hr)%list_elem_of_bind & Hc)%list_elem_of_bind (c' & (r' & Hs' & Hr')%list_elem_of_bind & Hc')%list_elem_of_bind.
    apply list_elem_of_singleton in Hs, Hs'. apply elem_of_upto in Hr, Hr', Hc, Hc'. subst y. destruct (place_inj W _ _ _ _ Hc Hc' Hs'). lia.
  - intros p _. apply NoDup_bind; [| |apply NoDup_upto].
    + intros c c' y Hc Hc' (r & Hs & Hr)%list_elem_of_bind (r' & Hs' & Hr')%list_elem_of_bind.
      apply list_elem_of_singleton in Hs, Hs'. apply elem_of_upto in Hr, Hr', Hc, Hc'. subst y. by destruct (place_inj W _ _ _ _ Hc Hc' Hs').
    + intros c Hc. apply NoDup_bind; [| |apply NoDup_upto]; [|intros; apply NoDup_singleton].
      intros r r' y Hr Hr' Hs%list_elem_of_singleton Hs'%list_elem_of_singleton. apply elem_of_upto in Hc. subst y. destruct (place_inj W _ _ _ _ Hc Hc Hs'). lia.
Qed.

(** With an even number of rows every place is written once. *)
Lemma sources_all rows W : rows mod 2 = 0 -> 0 <= rows -> 0 <= W -> Permutation (sources rows W) (upto (rows * W)).
Proof.
  intros Hr H0 HW. apply NoDup_Permutation; [apply NoDup_sources | apply NoDup_upto|]. intros s. rewrite elem_of_sources, elem_of_upto. split.
  - intros (row & col & H1 & H2 & ->). nia.
  - intros Hs. assert (0 < W) by nia. exists (s / W), (s mod W). pose proof (Z.mod_pos_bound s W ltac:(lia)). pose proof (Z.div_mod s W ltac:(lia)).
    assert (0 <= s / W) by (apply Z.div_pos; lia). assert (s / W < rows) by (apply Z.div_lt_upper_bound; lia). lia.
Qed.

Lemma perm_all gh gw rows W : 0 < gh -> 0 < gw -> gh <= rows -> rows mod 2 = 0 -> W = gw + 1 ->
  Permutation (source ← sources rows W;
    let image := nth (Z.to_nat source) (body (body_image gh gw) rows W) (-1) in if 0 <=? image then [image] else []) (upto (gh * gw)).
Proof.
  intros Hh Hw Hr He ->. assert (Hrows : 2 * (rows / 2) = rows) by lia.
  assert (Himg : forall row col x, 0 <= row < rows -> 0 <= col < gw + 1 ->
    (x ∈ (let image := nth (Z.to_nat (row * (gw + 1) + col)) (body (body_image gh gw) rows (gw + 1)) (-1) in if 0 <=? image then [image] else [])) <->
    row < gh /\ col < gw /\ x = row * gw + col).
  { intros row col x H1 H2. cbv zeta. rewrite body_nth by done. unfold body_image.
    destruct (row <? gh) eqn:E1; [destruct (col <? gw) eqn:E2|]; cbn [andb]; rewrite ?Z.ltb_lt, ?Z.ltb_ge in *.
    - rewrite (proj2 (Z.leb_le 0 _)) by nia. rewrite list_elem_of_singleton. lia.
    - change (0 <=? -1) with false. rewrite elem_of_nil. lia.
    - change (0 <=? -1) with false. rewrite elem_of_nil. lia. }
  apply NoDup_Permutation; [|apply NoDup_upto|].
  - apply NoDup_bind; [|intros x _; cbv zeta; destruct (0 <=? _); [apply NoDup_singleton | constructor]|apply NoDup_sources].
    intros s s' x (row & col & H1 & H2 & ->)%elem_of_sources (row' & col' & H1' & H2' & ->)%elem_of_sources Hx Hx'.
    rewrite Hrows in *. apply Himg in Hx as (A & B & ->), Hx' as (A' & B' & E); [|done..]. by destruct (place_inj gw row col row' col' ltac:(lia) ltac:(lia) E) as [-> ->].
  - intros x. rewrite list_elem_of_bind, elem_of_upto. split.
    + intros (s & Hx & (row & col & H1 & H2 & ->)%elem_of_sources). rewrite Hrows in *. apply Himg in Hx as (A & B & ->); [nia | done..].
    + intros Hx. pose proof (Z.mod_pos_bound x gw Hw). pose proof (Z.div_mod x gw ltac:(lia)). assert (0 <= x / gw) by (apply Z.div_pos; lia).
      assert (x / gw < gh) by (apply Z.div_lt_upper_bound; lia). exists (x / gw * (gw + 1) + x mod gw). split; [apply Himg; lia|].
      apply elem_of_sources. exists (x / gw), (x mod gw). lia.
Qed.

Definition block_type (t : Z) : Prop := t = DS4_DEEPSEEK4_IMAGE \/ t = DS4_DEEPSEEK4_IMAGE_NEWLINE \/ t = DS4_DEEPSEEK4_IMAGE_PAD.

(** The tokens between the start and the end token. *)
Definition inner gh gw rows W pad_last : list Z :=
  (source ← sources rows W; [nth (Z.to_nat source) (body (body_type gh gw) rows W) 0]) ++ repeat DS4_DEEPSEEK4_IMAGE_PAD (Z.to_nat pad_last).

Lemma inner_types gh gw rows W pad_last : rows mod 2 = 0 -> Forall block_type (inner gh gw rows W pad_last).
Proof.
  intros He. apply Forall_app. split.
  - apply Forall_forall. intros x (s & Hx & (row & col & H1 & H2 & ->)%elem_of_sources)%list_elem_of_bind.
    apply list_elem_of_singleton in Hx as ->. rewrite body_nth by lia. unfold body_type, block_type. destruct (_ && _), (row <? gh); tauto.
  - apply Forall_forall. intros x Hx%list_elem_of_In%repeat_spec. subst x. unfold block_type. tauto.
Qed.

(** What a built block is. *)
Record layout_shape gh gw start (L : ds4_deepseek4_image_layout) (pad : nat) (mid : list Z) : Prop := {
  ly_types : il_types L = repeat DS4_DEEPSEEK4_IMAGE_PAD pad ++ [DS4_DEEPSEEK4_IMAGE_START] ++ mid ++ [DS4_DEEPSEEK4_IMAGE_END];
  ly_mid : Forall block_type mid;
  ly_pad : (start + Z.of_nat pad + 1) mod 4 = 0;
  ly_len : zlen mid mod 4 = 0;
  ly_max : zlen (il_types L) <= 384;
  ly_perm : Permutation (il_perm L) (upto (gh * gw))
}.

Lemma zlen_repeat {A} (x : A) n : 0 <= n -> zlen (repeat x (Z.to_nat n)) = n.
Proof. intros H. unfold zlen. rewrite repeat_length. lia. Qed.

Lemma zlen_upto n : 0 <= n -> zlen (upto n) = n.
Proof. intros H. unfold zlen. rewrite length_upto. lia. Qed.

(** Exact conditions: no arithmetic wraps when a block is built. *)
Lemma layout_ok gh gw start : 0 < gh -> 0 < gw -> 0 <= start -> let rows := gh + gh mod 2 in let W := gw + 1 in
  rows <= U32_MAX -> W <= U32_MAX ->
  let pad_last := (rows / 2 * W) mod 2 * 2 in
  let tokens := (3 - start mod 4) + 1 + rows * W + pad_last + 1 in
  if tokens <=? 384 then exists L, image_layout_build gh gw start = Some L /\ zlen (il_types L) = tokens /\
    layout_shape gh gw start L (Z.to_nat (3 - start mod 4)) (inner gh gw rows W pad_last)
  else image_layout_build gh gw start = None.
Proof.
  intros Hh Hw Hs rows W Hr HW pad_last tokens. unfold image_layout_build. rewrite (proj2 (Z.eqb_neq gh 0)), (proj2 (Z.eqb_neq gw 0)) by lia. cbn [orb].
  assert (He : rows mod 2 = 0) by (unfold rows; lia). assert (Hge : gh <= rows) by (unfold rows; lia).
  unfold U32_MAX in *. assert (E1 : u32 (gh + gh mod 2) = rows) by (apply Z.mod_small; unfold rows in *; lia).
  assert (E2 : u32 (gw + 1) = W) by (apply Z.mod_small; unfold W in *; lia). cbv zeta. rewrite E1, E2.
  assert (Ep : u32 (rows / 2 * W) mod 2 * 2 = pad_last).
  { unfold pad_last, u32. f_equal. change 4294967296 with (2 * 2147483648). rewrite Z.rem_mul_r by lia. lia. }
  rewrite Ep. fold tokens. assert (0 <= pad_last) by (unfold pad_last; lia). rewrite (Z.ltb_antisym tokens 384).
  destruct (tokens <=? 384) eqn:E; [|done]. apply Z.leb_le in E. cbn [negb orb].
  assert (Hin : rows * W <= 384) by (unfold tokens in E; nia). rewrite (proj2 (Z.ltb_ge _ tokens)) by lia. assert (Hgw : gh * gw <= rows * W) by (apply Z.mul_le_mono_nonneg; unfold W; lia). assert (Hg0 : 0 <= gh * gw) by (apply Z.mul_nonneg_nonneg; lia).
  rewrite (proj2 (Z.ltb_ge _ (gh * gw))) by lia. cbn [orb].
  pose proof (perm_all gh gw rows W Hh Hw Hge He eq_refl) as Hp. pose proof (sources_all rows W He ltac:(lia) ltac:(lia)) as Hsrc.
  match goal with |- context [zlen ?t =? tokens] => set (types := t) end.
  match goal with |- context [zlen ?t =? gh * gw] => set (perm := t) in * end.
  assert (Ht : types = repeat DS4_DEEPSEEK4_IMAGE_PAD (Z.to_nat (3 - start mod 4)) ++ [DS4_DEEPSEEK4_IMAGE_START] ++ inner gh gw rows W pad_last ++ [DS4_DEEPSEEK4_IMAGE_END]).
  { unfold types, inner. rewrite <- !app_assoc. done. }
  assert (Hm : zlen (inner gh gw rows W pad_last) = rows * W + pad_last).
  { unfold inner. rewrite bind_singletons, zlen_app, zlen_repeat by done. f_equal. unfold zlen. rewrite length_map. apply Permutation_length in Hsrc. rewrite Hsrc, length_upto. lia. }
  assert (Hlen : zlen types = tokens).
  { rewrite Ht, !zlen_app, Hm, zlen_repeat by lia. change (zlen [DS4_DEEPSEEK4_IMAGE_START]) with 1. change (zlen [DS4_DEEPSEEK4_IMAGE_END]) with 1. unfold tokens. lia. }
  assert (Hpl : zlen perm = gh * gw) by (unfold zlen; rewrite (Permutation_length Hp), length_upto; apply Z2Nat.id, Hg0).
  rewrite Hlen, Hpl, !Z.eqb_refl. cbn [negb orb]. exists (Layout types perm). split; [done|]. split; [done|]. split; cbn [il_types il_perm].
  - done.
  - by apply inner_types.
  - lia.
  - rewrite Hm. unfold pad_last. assert (rows = 2 * (rows / 2)) as -> by lia. replace (2 * (rows / 2) / 2) with (rows / 2) by lia.
    replace (2 * (rows / 2) * W) with (2 * (rows / 2 * W)) by lia. lia.
  - lia.
  - done.
Qed.

(** ** Finding a block *)

Lemma lead_app f l rest : Forall (fun t => f t = true) l -> match rest with t :: _ => f t = false | [] => True end -> lead f (l ++ rest) = length l.
Proof.
  induction 1 as [|t l Ht Hl IH]; cbn [app lead length]; intros H.
  - destruct rest as [|t rest]; [done|]. cbn. by rewrite H.
  - by rewrite Ht, IH.
Qed.

Lemma lead_le f l : (lead f l <= length l)%nat.
Proof. induction l as [|t l IH]; cbn; [lia|]. destruct (f t); lia. Qed.

Lemma lead_in f l i : (i < lead f l)%nat -> exists t, l !! i = Some t /\ f t = true.
Proof.
  revert i. induction l as [|t l IH]; intros i; cbn; [lia|]. destruct (f t) eqn:E; [|lia]. destruct i as [|i]; [by exists t|]. intros H. apply IH. lia.
Qed.

Definition is_text (vocab t : Z) : Prop := 0 <= t < vocab.

(** The tokens of a block: padding, start, image tokens, end. *)
Record is_block (tokens : list Z) (vocab : Z) (b s e : nat) : Prop := {
  bk_order : (b <= s < e)%nat;
  bk_pad : forall i, (b <= i < s)%nat -> tokens !! i = Some (vocab + DS4_DEEPSEEK4_IMAGE_PAD);
  bk_start : tokens !! s = Some (vocab + DS4_DEEPSEEK4_IMAGE_START);
  bk_mid : forall i t, (s < i < e)%nat -> tokens !! i = Some t -> t <> vocab + DS4_DEEPSEEK4_IMAGE_END;
  bk_end : tokens !! e = Some (vocab + DS4_DEEPSEEK4_IMAGE_END)
}.

Lemma image_loop_inv vocab l : forall i e, image_loop vocab l i = Some e -> exists k, e = (i + k)%nat /\
  l !! k = Some (vocab + DS4_DEEPSEEK4_IMAGE_END) /\ forall j t, (j < k)%nat -> l !! j = Some t -> vocab + 1 <= t <= vocab + 3.
Proof.
  induction l as [|t l IH]; intros i e; cbn [image_loop]; [done|]. unfold DS4_DEEPSEEK4_IMAGE_END, DS4_DEEPSEEK4_IMAGE_START in *.
  destruct (_ || _ || _) eqn:E; [done|]. rewrite !orb_false_iff, !Z.ltb_ge, Z.eqb_neq in E. destruct (t =? vocab + 4) eqn:E4.
  - intros [= <-]. apply Z.eqb_eq in E4 as ->. exists 0%nat. split; [lia|]. split; [done|]. intros j t'. lia.
  - intros (k & -> & Hk & Hj)%IH. apply Z.eqb_neq in E4. exists (S k). split; [lia|]. split; [done|].
    intros [|j] t'; cbn; [intros _ [= <-]; lia|]. intros ?. apply Hj. lia.
Qed.

Lemma next_block tokens vocab c b s e : next_image_span tokens vocab c = SpanBlock b s e ->
  (c <= b)%nat /\ (e < length tokens)%nat /\ is_block tokens vocab b s e /\ (forall i t, (c <= i < b)%nat -> tokens !! i = Some t -> is_text vocab t) /\
  (forall i t, (s < i < e)%nat -> tokens !! i = Some t -> vocab + 1 <= t <= vocab + 3).
Proof.
  unfold next_image_span. destruct (_ || _) eqn:E0; [done|]. rewrite orb_false_iff, Nat.ltb_ge in E0.
  set (i := Nat.add c _). destruct (drop i tokens) as [|t l] eqn:Ei; [done|]. destruct (t <? 0); [done|].
  set (k := Nat.add i _). destruct (drop k tokens) as [|t' rest] eqn:Ek; [done|]. destruct (t' =? _) eqn:E'; [|done]. cbn [negb]. apply Z.eqb_eq in E'.
  destruct (image_loop vocab rest (S k)) as [e'|] eqn:El; [|done]. intros [= <- <- <-].
  apply image_loop_inv in El as (n & -> & Hn & Hj). assert (Hd : forall j, tokens !! (S k + j)%nat = rest !! j).
  { intros j. replace (S k + j)%nat with (k + S j)%nat by lia. rewrite <- lookup_drop, Ek. done. }
  assert (Hk : tokens !! k = Some t') by (rewrite <- (Nat.add_0_r k), <- lookup_drop, Ek; done).
  split; [unfold i; lia|]. split; [rewrite <- Hd in Hn; by apply lookup_lt_Some in Hn|]. split; [|split].
  - split.
    + unfold k. lia.
    + intros j Hj'. destruct (lead_in (fun t => t =? vocab + DS4_DEEPSEEK4_IMAGE_PAD) (drop i tokens) (j - i)) as (u & Hu & Eu); [rewrite Ei; unfold k in Hj'; lia|].
      apply Z.eqb_eq in Eu as ->. rewrite lookup_drop in Hu. by replace (i + (j - i))%nat with j in Hu by lia.
    + by rewrite Hk, E'.
    + intros j u Hj' Hu. specialize (Hj (j - S k)%nat u ltac:(lia)). rewrite <- Hd in Hj. replace (S k + (j - S k))%nat with j in Hj by lia.
      specialize (Hj Hu). unfold DS4_DEEPSEEK4_IMAGE_END. lia.
    + by rewrite Hd.
  - intros j u Hj' Hu. destruct (lead_in (fun t => (0 <=? t) && (t <? vocab)) (drop c tokens) (j - c)) as (v & Hv & Ev); [unfold i in Hj'; lia|].
    rewrite lookup_drop in Hv. replace (c + (j - c))%nat with j in Hv by lia. rewrite Hv in Hu. injection Hu as ->. unfold is_text. lia.
  - intros j u Hj' Hu. apply (Hj (j - S k)%nat u); [lia|]. rewrite <- Hd. by replace (S k + (j - S k))%nat with j by lia.
Qed.

Lemma next_none tokens vocab c : next_image_span tokens vocab c = SpanNone -> forall i t, (c <= i)%nat -> tokens !! i = Some t -> is_text vocab t.
Proof.
  unfold next_image_span. destruct (_ || _) eqn:E0; [done|]. rewrite orb_false_iff, Nat.ltb_ge in E0. set (i := Nat.add c _).
  destruct (drop i tokens) as [|t l] eqn:Ei.
  2: { destruct (t <? 0); [done|]. cbv zeta. set (k := Nat.add i _). destruct (drop k tokens); [done|]. destruct (negb _); [done|]. by destruct (image_loop _ _ _). }
  intros _ j t Hj Ht. apply (f_equal length) in Ei. rewrite length_drop in Ei. cbn in Ei. pose proof (lookup_lt_Some _ _ _ Ht).
  destruct (lead_in (fun t => (0 <=? t) && (t <? vocab)) (drop c tokens) (j - c)) as (v & Hv & Ev); [unfold i in Ei; lia|].
  rewrite lookup_drop in Hv. replace (c + (j - c))%nat with j in Hv by lia. rewrite Hv in Ht. injection Ht as ->. unfold is_text. lia.
Qed.

(** The tokens a built block adds to a prompt. *)
Definition block_tokens (vocab : Z) (pad : nat) (mid : list Z) : list Z :=
  map (Z.add vocab) (repeat DS4_DEEPSEEK4_IMAGE_PAD pad ++ [DS4_DEEPSEEK4_IMAGE_START] ++ mid ++ [DS4_DEEPSEEK4_IMAGE_END]).

Lemma image_loop_mid vocab mid rest : Forall block_type mid -> forall i,
  image_loop vocab (map (Z.add vocab) (mid ++ [DS4_DEEPSEEK4_IMAGE_END]) ++ rest) i = Some (i + length mid)%nat.
Proof.
  induction 1 as [|t mid Ht Hm IH]; intros i; cbn [map app image_loop length]; unfold DS4_DEEPSEEK4_IMAGE_END, DS4_DEEPSEEK4_IMAGE_START in *.
  - rewrite (proj2 (Z.ltb_ge (vocab + 4) vocab)), (proj2 (Z.ltb_ge (vocab + 4) (vocab + 4))), (proj2 (Z.eqb_neq (vocab + 4) (vocab + 0))), Z.eqb_refl by lia.
    cbn [orb]. f_equal. lia.
  - unfold block_type, DS4_DEEPSEEK4_IMAGE, DS4_DEEPSEEK4_IMAGE_NEWLINE, DS4_DEEPSEEK4_IMAGE_PAD in Ht.
    rewrite (proj2 (Z.ltb_ge (vocab + t) vocab)), (proj2 (Z.ltb_ge (vocab + 4) (vocab + t))), (proj2 (Z.eqb_neq (vocab + t) (vocab + 0))),
      (proj2 (Z.eqb_neq (vocab + t) (vocab + 4))) by lia. cbn [orb]. rewrite IH. f_equal. lia.
Qed.

Lemma block_parsed vocab before text pad mid rest : 0 < vocab -> Forall (is_text vocab) text -> Forall block_type mid ->
  next_image_span (before ++ text ++ block_tokens vocab pad mid ++ rest) vocab (length before) =
  let b := (length before + length text)%nat in SpanBlock b (b + pad) (b + pad + length mid + 1).
Proof.
  intros Hv Ht Hm. unfold next_image_span. rewrite (proj2 (Z.eqb_neq vocab 0)) by lia. rewrite (proj2 (Nat.ltb_ge _ _)) by (rewrite length_app; lia). cbn [orb].
  rewrite drop_app_length. rewrite lead_app.
  2: { eapply Forall_impl; [exact Ht|]. intros t Hx. unfold is_text in Hx. lia. }
  2: { unfold block_tokens. destruct pad as [|pad]; cbn [repeat map app]; unfold DS4_DEEPSEEK4_IMAGE_START, DS4_DEEPSEEK4_IMAGE_PAD; lia. }
  rewrite app_assoc. set (pre := before ++ text). replace (length before + length text)%nat with (length pre) by (unfold pre; by rewrite length_app).
  rewrite drop_app_length. unfold block_tokens. rewrite map_app, <- app_assoc. set (tail := map (Z.add vocab) (_ ++ mid ++ _) ++ rest).
  assert (Htail : tail = (vocab + DS4_DEEPSEEK4_IMAGE_START) :: map (Z.add vocab) (mid ++ [DS4_DEEPSEEK4_IMAGE_END]) ++ rest) by done.
  set (P := map (Z.add vocab) (repeat DS4_DEEPSEEK4_IMAGE_PAD pad)).
  assert (HP : Forall (fun t => t = vocab + DS4_DEEPSEEK4_IMAGE_PAD) P).
  { apply Forall_forall. intros x (y & -> & Hy)%list_elem_of_fmap. apply list_elem_of_In, repeat_spec in Hy. by subst y. }
  assert (HlP : length P = pad) by (unfold P; by rewrite length_map, repeat_length).
  assert (Hlead : lead (fun t => t =? vocab + DS4_DEEPSEEK4_IMAGE_PAD) (P ++ tail) = pad).
  { rewrite lead_app; [done | |rewrite Htail; unfold DS4_DEEPSEEK4_IMAGE_START, DS4_DEEPSEEK4_IMAGE_PAD; lia].
    eapply Forall_impl; [exact HP|]. intros t ->. apply Z.eqb_refl. }
  destruct (P ++ tail) as [|t l] eqn:EP; [rewrite Htail in EP; by destruct P|].
  assert (Ht0 : vocab <= t). { destruct P as [|u P]; [rewrite Htail in EP; injection EP as <- _; unfold DS4_DEEPSEEK4_IMAGE_START; lia|].
    injection EP as <- _. apply Forall_inv in HP. unfold DS4_DEEPSEEK4_IMAGE_PAD in HP. lia. }
  rewrite (proj2 (Z.ltb_ge t 0)) by lia. cbv zeta. rewrite Hlead, <- EP. replace (drop (Nat.add (length pre) pad) (pre ++ P ++ tail)) with tail.
  2: { rewrite <- drop_drop, drop_app_length, <- HlP, drop_app_length. done. }
  rewrite Htail. rewrite Z.eqb_refl. cbn [negb]. rewrite image_loop_mid by done. f_equal. lia.
Qed.

(** ** Chunks *)

(** The tokens from [pos0] up to [c] are text and whole blocks. *)
Record scanned (tokens : list Z) (vocab : Z) (pos0 c : nat) : Prop := {
  sc_le : (pos0 <= c)%nat;
  sc_last : c = pos0 \/ tokens !! (c - 1)%nat = Some (vocab + DS4_DEEPSEEK4_IMAGE_END);
  sc_closed : forall s, (pos0 <= s < c)%nat -> tokens !! s = Some (vocab + DS4_DEEPSEEK4_IMAGE_START) ->
    exists e, (s < e < c)%nat /\ tokens !! e = Some (vocab + DS4_DEEPSEEK4_IMAGE_END)
}.

(** No block from [pos0] is cut at [limit]. *)
Definition not_cut (tokens : list Z) (vocab : Z) (pos0 limit : nat) : Prop :=
  forall b s e, (pos0 <= b)%nat -> is_block tokens vocab b s e -> ~ (b < limit <= e)%nat.

Lemma scanned_start tokens vocab pos0 : scanned tokens vocab pos0 pos0.
Proof. split; [lia | by left | intros s; lia]. Qed.

Lemma scanned_block tokens vocab pos0 c b s e : 0 < vocab -> scanned tokens vocab pos0 c -> next_image_span tokens vocab c = SpanBlock b s e ->
  scanned tokens vocab pos0 (S e).
Proof.
  intros Hv [Hle Hlast Hcl] Hn. destruct (next_block _ _ _ _ _ _ Hn) as (Hcb & Hel & [Ho Hpad Hst Hmid Hend] & Htext & Hin).
  split; [lia | right; by replace (S e - 1)%nat with e by lia|]. intros s' Hs' Hs. destruct (Nat.lt_ge_cases s' c).
  - destruct (Hcl s' ltac:(lia) Hs) as (e' & He' & H'). exists e'. split; [lia | done].
  - exists e. split; [|done]. split; [|lia]. destruct (Nat.lt_ge_cases s' e) as [|]; [done|]. assert (s' = e) as -> by lia.
    rewrite Hend in Hs. unfold DS4_DEEPSEEK4_IMAGE_END, DS4_DEEPSEEK4_IMAGE_START in Hs. injection Hs. lia.
Qed.

(** Within the text that follows what was scanned every place is a boundary. *)
Lemma boundary_ok tokens vocab pos0 c stop limit : 0 < vocab -> scanned tokens vocab pos0 c ->
  (forall i t, (c <= i < stop)%nat -> tokens !! i = Some t -> is_text vocab t) ->
  (pos0 < limit)%nat -> (c <= limit <= stop)%nat -> not_cut tokens vocab pos0 limit.
Proof.
  intros Hv [Hle Hlast Hcl] Htext Hp Hl b s e Hb [Ho Hpad Hst Hmid Hend] Hcut.
  unfold DS4_DEEPSEEK4_IMAGE_END, DS4_DEEPSEEK4_IMAGE_START, DS4_DEEPSEEK4_IMAGE_PAD, is_text in *.
  destruct (Nat.lt_ge_cases s c) as [Hs|Hs].
  - destruct (Hcl s ltac:(lia) Hst) as (e' & He' & H'). destruct (Nat.lt_ge_cases e' e); [|lia]. by apply (Hmid e' _ ltac:(lia) H').
  - destruct (Nat.lt_ge_cases s stop) as [Hss|Hss]; [pose proof (Htext s _ ltac:(lia) Hst); lia|].
    pose proof (Hpad (limit - 1)%nat ltac:(lia)) as Hx. destruct (Nat.lt_ge_cases (limit - 1) c) as [Hc|Hc].
    + destruct Hlast as [->|Hlast]; [lia|]. replace (limit - 1)%nat with (c - 1)%nat in Hx by lia. rewrite Hx in Hlast. injection Hlast. lia.
    + pose proof (Htext (limit - 1)%nat _ ltac:(lia) Hx). lia.
Qed.

(** What the loop returns: the first limit, or the start of the block it cuts. *)
Lemma chunk_loop_ok tokens vocab pos0 cap limit0 : 0 < vocab -> (pos0 < limit0 <= length tokens)%nat ->
  limit0 = Nat.min (pos0 + cap) (length tokens) -> forall fuel c r, scanned tokens vocab pos0 c -> (c <= limit0)%nat ->
  chunk_loop fuel tokens vocab pos0 cap c limit0 = Some r ->
  (pos0 < r <= limit0)%nat /\ not_cut tokens vocab pos0 r /\
  (r = limit0 \/ exists s e, is_block tokens vocab r s e /\ (pos0 + cap <= e)%nat).
Proof.
  intros Hv Hl Hl0. induction fuel as [|fuel IH]; intros c r Hs Hc; cbn [chunk_loop]; [done|].
  destruct (next_image_span tokens vocab c) as [| |b s e] eqn:En; [done| |].
  - intros [= <-]. split; [lia|]. split; [|by left]. apply (boundary_ok tokens vocab pos0 c (length tokens) limit0 Hv Hs); [|lia|lia].
    intros i t Hi Ht. eapply next_none; [done | | done]. lia.
  - destruct (next_block _ _ _ _ _ _ En) as (Hcb & Hel & Hbk & Htext & _). destruct (limit0 <=? b)%nat eqn:E1.
    { intros [= <-]. apply Nat.leb_le in E1. split; [lia|]. split; [|by left]. by apply (boundary_ok tokens vocab pos0 c b limit0 Hv Hs); [|lia|lia]. }
    apply Nat.leb_gt in E1. destruct (limit0 <? S e)%nat eqn:E2.
    + apply Nat.ltb_lt in E2. assert (pos0 + cap <= e)%nat by lia. rewrite (proj2 (Nat.ltb_lt cap _)) by lia.
      destruct (b =? pos0)%nat eqn:E3; [done|]. apply Nat.eqb_neq in E3. pose proof (sc_le _ _ _ _ Hs). intros [= <-]. split; [lia|]. split.
      * apply (boundary_ok tokens vocab pos0 c b b Hv Hs); [done | lia | lia].
      * right. by exists s, e.
    + apply Nat.ltb_ge in E2. apply IH; [by eapply scanned_block | lia].
Qed.

(** Text and whole blocks of at most [cap] tokens. *)
Inductive prompt_ok (vocab : Z) (cap : nat) : list Z -> Prop :=
| prompt_nil : prompt_ok vocab cap []
| prompt_text t l : is_text vocab t -> prompt_ok vocab cap l -> prompt_ok vocab cap (t :: l)
| prompt_block pad mid l : Forall block_type mid -> (length (block_tokens vocab pad mid) <= cap)%nat ->
    prompt_ok vocab cap l -> prompt_ok vocab cap (block_tokens vocab pad mid ++ l).

Lemma length_block_tokens vocab pad mid : length (block_tokens vocab pad mid) = (pad + length mid + 2)%nat.
Proof. unfold block_tokens. rewrite length_map, !length_app, repeat_length. cbn. lia. Qed.

Lemma prompt_text_app vocab cap text l : Forall (is_text vocab) text -> prompt_ok vocab cap l -> prompt_ok vocab cap (text ++ l).
Proof. induction 1; [done|]. intros. cbn. constructor; auto. Qed.

Lemma prompt_split vocab cap l : prompt_ok vocab cap l -> exists text, Forall (is_text vocab) text /\
  (l = text \/ exists pad mid rest, l = text ++ block_tokens vocab pad mid ++ rest /\ Forall block_type mid /\
     (length (block_tokens vocab pad mid) <= cap)%nat /\ prompt_ok vocab cap rest).
Proof.
  induction 1 as [|t l Ht Hl (text & Htext & IH)|pad mid l Hm Hc Hl _].
  - exists []. split; [constructor | by left].
  - exists (t :: text). split; [by constructor|]. destruct IH as [->|(pad & mid & rest & -> & H)]; [by left | right; by exists pad, mid, rest].
  - exists []. split; [constructor|]. right. by exists pad, mid, l.
Qed.

Lemma next_text vocab before text : 0 < vocab -> Forall (is_text vocab) text -> next_image_span (before ++ text) vocab (length before) = SpanNone.
Proof.
  intros Hv Ht. unfold next_image_span. rewrite (proj2 (Z.eqb_neq vocab 0)), (proj2 (Nat.ltb_ge _ _)) by (rewrite ?length_app; lia). cbn [orb].
  rewrite drop_app_length. rewrite <- (app_nil_r text) at 1. rewrite lead_app; [|eapply Forall_impl; [exact Ht|]; intros t; unfold is_text; lia|done].
  by rewrite drop_ge by (rewrite length_app; unfold Nat.add; lia).
Qed.

(** A prompt of text and blocks that fit can be cut, and what is left is such a prompt. *)
Lemma chunk_loop_total vocab cap pos0 tokens limit0 : 0 < vocab -> (pos0 < limit0 <= length tokens)%nat ->
  limit0 = Nat.min (pos0 + cap) (length tokens) -> forall fuel c, (length tokens - c < fuel)%nat -> (pos0 <= c <= limit0)%nat -> prompt_ok vocab cap (drop c tokens) ->
  exists r, chunk_loop fuel tokens vocab pos0 cap c limit0 = Some r /\ prompt_ok vocab cap (drop r tokens).
Proof.
  intros Hv Hl Hl0. induction fuel as [|fuel IH]; intros c Hf Hc Hok; [lia|]. cbn [chunk_loop].
  destruct (prompt_split _ _ _ Hok) as (text & Htext & Hsp). assert (Htok : tokens = take c tokens ++ drop c tokens) by (by rewrite take_drop).
  assert (Hlc : length (take c tokens) = c) by (rewrite length_take; lia). set (before := take c tokens) in *.
  destruct Hsp as [Hd|(pad & mid & rest & Hd & Hm & Hcap & Hrest)].
  - assert (Htd : tokens = before ++ text) by congruence.
    assert (next_image_span tokens vocab c = SpanNone) as -> by (rewrite Htd, <- Hlc; by apply next_text).
    exists limit0. split; [done|]. rewrite Htd, drop_app_ge by lia. rewrite <- (app_nil_r (drop _ text)). apply prompt_text_app; [by apply Forall_drop | constructor].
  - assert (Htd : tokens = before ++ text ++ block_tokens vocab pad mid ++ rest) by congruence.
    rewrite length_block_tokens in Hcap. set (b := (length before + length text)%nat).
    assert (next_image_span tokens vocab c = SpanBlock b (b + pad) (b + pad + length mid + 1)) as -> by (rewrite Htd, <- Hlc; by apply block_parsed). assert (Hb : (b + pad + length mid + 2 <= length tokens)%nat).
    { rewrite Htd, !length_app, length_block_tokens. unfold b. lia. }
    assert (Hdrop : forall k, (c <= k <= b)%nat -> prompt_ok vocab cap (drop k tokens)).
    { intros k Hk. rewrite Htd, drop_app_ge by lia. rewrite drop_app_le by (unfold b in Hk; lia). apply prompt_text_app; [by apply Forall_drop|].
      constructor; [done | by rewrite length_block_tokens | done]. }
    destruct (limit0 <=? b)%nat eqn:E1; [apply Nat.leb_le in E1; exists limit0; split; [done | apply Hdrop; lia]|]. apply Nat.leb_gt in E1.
    destruct (limit0 <? _)%nat eqn:E2.
    + apply Nat.ltb_lt in E2. rewrite (proj2 (Nat.ltb_lt cap _)) by lia. destruct (b =? pos0)%nat eqn:E3.
      * apply Nat.eqb_eq in E3. lia.
      * exists b. split; [done|]. apply Hdrop. lia.
    + apply Nat.ltb_ge in E2. apply IH; [unfold b in *; lia | unfold b in *; lia|].
      replace (drop (S (b + pad + length mid + 1)) tokens) with rest; [done|]. rewrite Htd.
      rewrite (app_assoc text), (app_assoc before). rewrite drop_app_length'; [done|]. rewrite !length_app, length_block_tokens. unfold b. lia.
Qed.

Lemma prefill_limit (tokens : list Z) (pos0 cap : nat) : (pos0 < length tokens)%nat ->
  (pos0 + (if length tokens - pos0 <? cap then length tokens - pos0 else cap) = Nat.min (pos0 + cap) (length tokens))%nat.
Proof. destruct (_ <? cap)%nat eqn:E; [apply Nat.ltb_lt in E | apply Nat.ltb_ge in E]; lia. Qed.

(** ** Attention ranges *)

(** An image from its start to its end token. *)
Definition is_image (tokens : list Z) (vocab : Z) (s e : nat) : Prop := is_block tokens vocab s s e.

(** What the loop has found up to [c]. *)
Record images_upto (tokens : list Z) (vocab : Z) (c : nat) : Prop := {
  iu_closed : forall s e, is_image tokens vocab s e -> (s < c)%nat -> (e < c)%nat;
  iu_flat : forall s e i, is_image tokens vocab s e -> (s < c)%nat -> (s < i < e)%nat ->
    tokens !! i <> Some (vocab + DS4_DEEPSEEK4_IMAGE_START)
}.

Lemma images_next tokens vocab c b s e : 0 < vocab -> images_upto tokens vocab c -> next_image_span tokens vocab c = SpanBlock b s e ->
  images_upto tokens vocab (S e) /\ forall s' e', is_image tokens vocab s' e' -> (s' < S e)%nat -> (s' < c)%nat \/ s' = s /\ e' = e.
Proof.
  intros Hv [Hcl Hfl] Hn. destruct (next_block _ _ _ _ _ _ Hn) as (Hcb & Hel & [Ho Hpad Hst Hmid Hend] & Htext & Hin).
  unfold DS4_DEEPSEEK4_IMAGE_END, DS4_DEEPSEEK4_IMAGE_START, DS4_DEEPSEEK4_IMAGE_PAD, is_text in *.
  assert (Hnew : forall s' e', is_image tokens vocab s' e' -> (s' < S e)%nat -> (s' < c)%nat \/ s' = s /\ e' = e).
  { intros s' e' [Ho' _ Hst' Hmid' Hend'] Hs'. unfold DS4_DEEPSEEK4_IMAGE_END, DS4_DEEPSEEK4_IMAGE_START in *.
    destruct (Nat.lt_ge_cases s' c) as [|Hc]; [by left|]. right.
    assert (s' = s) as ->.
    { destruct (Nat.lt_ge_cases s' b); [pose proof (Htext s' _ ltac:(lia) Hst'); lia|].
      destruct (Nat.lt_ge_cases s' s); [rewrite (Hpad s' ltac:(lia)) in Hst'; injection Hst'; lia|].
      destruct (Nat.eq_dec s' s) as [|]; [done|]. destruct (Nat.eq_dec s' e) as [->|]; [rewrite Hend in Hst'; injection Hst'; lia|].
      pose proof (Hin s' _ ltac:(lia) Hst'). lia. }
    split; [done|]. destruct (Nat.lt_trichotomy e' e) as [H|[H|H]]; [|done|].
    - destruct (Hmid e' _ ltac:(lia) Hend' eq_refl).
    - destruct (Hmid' e _ ltac:(lia) Hend eq_refl). }
  split; [|done]. split.
  - intros s' e' Him Hs'. destruct (Hnew s' e' Him Hs') as [Hc|[-> ->]]; [|lia]. specialize (Hcl _ _ Him Hc). lia.
  - intros s' e' i Him Hs' Hi. destruct (Hnew s' e' Him Hs') as [Hc|[-> ->]]; [by apply (Hfl s' e')|].
    unfold DS4_DEEPSEEK4_IMAGE_START. intros Hx. pose proof (Hin i _ Hi Hx). lia.
Qed.

Lemma images_disjoint tokens vocab c s e s' e' q : images_upto tokens vocab c -> is_image tokens vocab s e -> is_image tokens vocab s' e' ->
  (s < c)%nat -> (s' < c)%nat -> (s <= q <= e)%nat -> (s' <= q <= e')%nat -> s = s' /\ e = e'.
Proof.
  intros [_ Hfl] H1 H2 Hs Hs' Hq Hq'. pose proof H1 as [O1 _ S1 M1 E1]. pose proof H2 as [O2 _ S2 M2 E2].
  unfold DS4_DEEPSEEK4_IMAGE_END, DS4_DEEPSEEK4_IMAGE_START in *.
  assert (Hlt : forall s e s', is_image tokens vocab s e -> tokens !! s' = Some (vocab + 0) -> tokens !! e = Some (vocab + 4) ->
    (s < c)%nat -> (s < s' <= e)%nat -> False).
  { intros a z a' H Ha' Hz Ha Hr. destruct (Nat.eq_dec a' z) as [->|]; [rewrite Hz in Ha'; injection Ha'; lia|]. by apply (Hfl a z a' H Ha ltac:(lia)). }
  assert (s = s') as ->.
  { destruct (Nat.lt_trichotomy s s') as [H|[H|H]]; [|done|].
    - destruct (Hlt s e s' H1 S2 E1 Hs ltac:(lia)).
    - destruct (Hlt s' e' s H2 S1 E2 Hs' ltac:(lia)). }
  split; [done|]. destruct (Nat.lt_trichotomy e e') as [H|[H|H]]; [|done|].
  - destruct (M2 e _ ltac:(lia) E1 eq_refl).
  - destruct (M1 e' _ ltac:(lia) E2 eq_refl).
Qed.

Section Bounds.
Context (tokens : list Z) (vocab pos0 first last window : Z) (Hvocab : 0 < vocab).

(** The bounds of token [q] when the images are those with a start before [c]. *)
Definition bounds_at (c : nat) (q : nat) (b : Z * Z) : Prop :=
  (exists s e, is_image tokens vocab s e /\ (s < c)%nat /\ (s <= q <= e)%nat /\
     b = image_bounds pos0 first last window (Z.of_nat s) (Z.of_nat e) (Z.of_nat q)) \/
  ((forall s e, is_image tokens vocab s e -> (s < c)%nat -> ~ (s <= q <= e)%nat) /\ b = text_bounds pos0 first last window (Z.of_nat q)).

Lemma update_range_lookup f q n B i b : B !! i = Some b ->
  update_range f q n B !! i = Some (if (q <=? i)%nat && (i <? q + n)%nat then f i else b).
Proof. intros H. unfold update_range. by rewrite list_lookup_imap, H. Qed.

Lemma bounds_loop_ok fuel : forall c B R, images_upto tokens vocab c -> length B = length tokens ->
  (forall q b, B !! q = Some b -> bounds_at c q b) -> bounds_loop fuel tokens vocab pos0 first last window c B = Some R ->
  length R = length tokens /\ images_upto tokens vocab (length tokens) /\ forall q b, R !! q = Some b -> bounds_at (length tokens) q b.
Proof.
  induction fuel as [|fuel IH]; intros c B R Hi Hl HB; cbn [bounds_loop]; [done|]. destruct (next_image_span tokens vocab c) as [| |b s e] eqn:En; [done| |].
  - intros [= <-]. split; [done|]. pose proof (next_none _ _ _ En) as Htext.
    assert (Hall : forall s e, is_image tokens vocab s e -> (s < c)%nat).
    { intros s e [_ _ Hst _ _]. destruct (Nat.lt_ge_cases s c) as [|Hc]; [done|]. pose proof (Htext s _ Hc Hst) as Ht. unfold is_text, DS4_DEEPSEEK4_IMAGE_START in Ht. lia. }
    split.
    { destruct Hi as [Hcl Hfl]. split; intros s e; [|intros i]; intros Him Hs; [|by apply (Hfl s e); [|by apply (Hall s e)]].
      destruct Him as [_ _ _ _ Hend]. by apply lookup_lt_Some in Hend. }
    intros q b Hq. destruct (HB q b Hq) as [(s & e & Him & Hs & Hr & ->)|[Hno ->]].
    + left. exists s, e. pose proof (lookup_lt_Some _ _ _ (bk_start _ _ _ _ _ Him)). done.
    + right. split; [|done]. intros s e Him _. by apply Hno, (Hall s e).
  - destruct (images_next _ _ _ _ _ _ Hvocab Hi En) as [Hi' Hnew]. destruct (next_block _ _ _ _ _ _ En) as (Hcb & Hel & Hbk & Htext & _).
    assert (Him : is_image tokens vocab s e) by (destruct Hbk as [Ho _ Hst Hmid Hend]; split; try done; lia).
    pose proof (bk_order _ _ _ _ _ Hbk) as Ho. apply IH; [done | unfold update_range; by rewrite length_imap|].
    intros q bq Hq. assert (Hlt : (q < length B)%nat) by (apply lookup_lt_Some in Hq; unfold update_range in Hq; by rewrite length_imap in Hq).
    destruct (lookup_lt_is_Some_2 B q Hlt) as [b0 Hb0]. rewrite (update_range_lookup _ _ _ _ _ _ Hb0) in Hq. injection Hq as <-.
    destruct ((s <=? q)%nat && (q <? s + (S e - s))%nat) eqn:E.
    + apply andb_prop in E as [E1%Nat.leb_le E2%Nat.ltb_lt]. left. exists s, e. split; [done|]. split; [lia|]. split; [lia | done].
    + apply andb_false_iff in E. rewrite Nat.leb_gt, Nat.ltb_ge in E. destruct (HB q b0 Hb0) as [(s' & e' & Him' & Hs' & Hr & ->)|[Hno ->]].
      * left. exists s', e'. split; [done|]. split; [lia | done].
      * right. split; [|done]. intros s' e' Him' Hs'. destruct (Hnew _ _ Him' Hs') as [Hc|[-> ->]]; [by apply Hno | lia].
Qed.
End Bounds.

(** Which keys a range lets a query see: the stored ones, within the window;
    of an image all that is near, to the right as well. *)
Definition text_sees (pos0 first last window q k : Z) : Prop :=
  first <= k <= last /\ k <= pos0 + q /\ (window = 0 \/ pos0 + q - window < k).

Definition image_sees (pos0 first last window s e q k : Z) : Prop :=
  first <= k <= last /\ k <= pos0 + q + Z.min (e - q) 384 /\ (window = 0 \/ pos0 + q - Z.max (window - 1) (Z.min (q - s) 383) <= k).

Definition within (b : Z * Z) (k : Z) : Prop := fst b <= k <= snd b.

Lemma text_bounds_sees pos0 first last window q k : 0 <= window -> 0 <= first -> within (text_bounds pos0 first last window q) k <-> text_sees pos0 first last window q k.
Proof.
  unfold within, text_bounds, text_sees. cbn [fst snd]. intros Hw Hf. destruct (window =? 0) eqn:E0; [|destruct (window <? pos0 + q + 1) eqn:E1]; cbn [negb andb];
    [| destruct (first <? pos0 + q + 1 - window) eqn:E2 |]; destruct (pos0 + q <? last) eqn:E3; lia.
Qed.

Lemma image_bounds_sees pos0 first last window s e q k : 0 <= window -> 0 <= first -> s <= q <= e ->
  within (image_bounds pos0 first last window s e q) k <-> image_sees pos0 first last window s e q k.
Proof.
  unfold within, image_bounds, image_sees. cbv zeta. cbn [fst snd]. intros Hw Hf Hq.
  set (left := if q - s <? 383 then q - s else 383). set (right := if e - q <? 384 then e - q else 384).
  assert (left = Z.min (q - s) 383) as -> by (unfold left; destruct (q - s <? 383) eqn:E; lia).
  assert (right = Z.min (e - q) 384) as -> by (unfold right; destruct (e - q <? 384) eqn:E; lia).
  set (l := Z.min (q - s) 383). set (r := Z.min (e - q) 384). destruct (window =? 0) eqn:E0; cbn [negb andb].
  - destruct (0 <? first) eqn:E1, (last <? pos0 + q + r) eqn:E2; lia.
  - destruct (window <=? l) eqn:E1; (destruct (_ <? pos0 + q) eqn:E2); (destruct (_ <? first) eqn:E3); (destruct (last <? _) eqn:E4); lia.
Qed.

(** ** Sizes *)


Lemma solve_resize_u32 height width budget bh bw : solve_resize height width budget = Some (bh, bw) -> is_u32 bh /\ is_u32 bw.
Proof.
  unfold solve_resize, is_u32. cbv zeta. destruct (F64.lt _ _); [destruct (_ =? 0); [done|]|destruct (F64.lt _ _); [destruct (_ <=? 1); [done|]|]].
  - intros [= <- <-]. split; [apply u32_range | unfold U32_MAX; lia].
  - intros [= <- <-]. split; [unfold U32_MAX; lia | apply u32_range].
  - destruct (_ || _); [done|]. destruct (_ || _); [done|]. intros [= <- <-]. split; apply u32_range.
Qed.

(** The count of the grid is that of its block without the alignment. *)
Lemma grid_tokens_exact height width : is_u32 height -> is_u32 width -> let '(tokens, gh, gw) := grid_tokens height width in
  0 <= gh < 2 ^ 28 /\ 0 <= gw < 2 ^ 28 /\
  (tokens <= 381 -> tokens = (gh + gh mod 2) * (gw + 1) + ((gh + gh mod 2) / 2 * (gw + 1)) mod 2 * 2 + 2).
Proof.
  unfold grid_tokens, is_u32, U32_MAX. intros Hh Hw. cbv zeta. change (2 ^ 28) with 268435456.
  assert (Hgrid : forall x, 0 <= x <= 4294967295 -> 0 <= u32 (x / 14 + 2) / 3 < 103000000).
  { intros x Hx. unfold u32. rewrite Z.mod_small by lia. lia. }
  pose proof (Hgrid _ Hh). pose proof (Hgrid _ Hw). set (gh := u32 (height / 14 + 2) / 3) in *. set (gw := u32 (width / 14 + 2) / 3) in *.
  split; [lia|]. split; [lia|]. assert (u32 (gw + 1) = gw + 1) as -> by (apply Z.mod_small; lia). assert (u32 (gh + 1) = gh + 1) as -> by (apply Z.mod_small; lia).
  assert (Hp : gh * (gw + 1) < 2 ^ 54) by (change (2 ^ 54) with 18014398509481984; nia).
  change (2 ^ 54) with 18014398509481984 in Hp. assert (0 <= gh * (gw + 1)) by nia.
  assert (u64 (gh * (gw + 1) + 2) = gh * (gw + 1) + 2) as -> by (apply Z.mod_small; lia).
  assert (u64 (gh * (gw + 1) + 2 + (gw + 1)) = gh * (gw + 1) + 2 + (gw + 1)) as -> by (apply Z.mod_small; lia).
  set (c := if Z.odd gh then _ else _). assert (Hc : c = (gh + gh mod 2) * (gw + 1) + 2).
  { unfold c. rewrite (Zmod_odd gh). destruct (Z.odd gh); lia. }
  assert (Hodd : Z.odd (u32 ((gh + 1) / 2 * (gw + 1))) = Z.odd ((gh + gh mod 2) / 2 * (gw + 1))).
  { replace ((gh + 1) / 2) with ((gh + gh mod 2) / 2) by lia. unfold u32. apply Bool.eq_true_iff_eq. rewrite !Z.odd_spec.
    set (x := _ * (gw + 1)). pose proof (Z.div_mod x 4294967296 ltac:(lia)). split; intros [k Hk]; [exists (k + 2147483648 * (x / 4294967296))|exists (k - 2147483648 * (x / 4294967296))]; lia. }
  rewrite Hodd. set (p := (gh + gh mod 2) / 2 * (gw + 1)). assert (Hcb : 0 <= c < 2 ^ 60) by (change (2 ^ 60) with 1152921504606846976; rewrite Hc; nia).
  change (2 ^ 60) with 1152921504606846976 in Hcb. assert (u64 (c + 2) = c + 2) as -> by (apply Z.mod_small; lia).
  rewrite (Zmod_odd p). destruct (Z.odd p); destruct (_ <=? 4294967295); lia.
Qed.

Lemma resize_loop_ok fuel : forall height width budget bh bw r, is_u32 bh -> is_u32 bw -> resize_loop fuel height width budget bh bw = Some r ->
  exists bh' bw' lh lw tokens, r = (bh', bw', lh, lw) /\ is_u32 bh' /\ is_u32 bw' /\ grid_tokens bh' bw' = (tokens, lh, lw) /\ tokens <= 381.
Proof.
  induction fuel as [|fuel IH]; intros height width budget bh bw r Hh Hw; cbn [resize_loop]; destruct (grid_tokens bh bw) as [[tokens lh] lw] eqn:E;
    (destruct (381 <? tokens) eqn:Et; [|apply Z.ltb_ge in Et; intros [= <-]; exists bh, bw, lh, lw, tokens; done]); [done|].
  destruct (budget <=? 4); [done|]. destruct (solve_resize height width budget) as [[bh' bw']|] eqn:Es; [|done].
  apply solve_resize_u32 in Es as [? ?]. by apply IH.
Qed.

(** The fuel is enough: a round more changes nothing. *)
Lemma resize_loop_fuel fuel : forall height width budget bh bw, (Z.to_nat budget - 4 <= fuel)%nat ->
  resize_loop (S fuel) height width budget bh bw = resize_loop fuel height width budget bh bw.
Proof.
  induction fuel as [|fuel IH]; intros height width budget bh bw Hf.
  - cbn [resize_loop]. destruct (grid_tokens bh bw) as [[t lh] lw]. destruct (381 <? t); [|done]. by rewrite (proj2 (Z.leb_le budget 4)) by lia.
  - remember (S fuel) as n. cbn [resize_loop]. subst n. destruct (grid_tokens bh bw) as [[t lh] lw] eqn:E. cbn [resize_loop]. rewrite E.
    destruct (381 <? t); [|done]. destruct (budget <=? 4) eqn:Eb; [done|]. apply Z.leb_gt in Eb.
    destruct (solve_resize height width budget) as [[bh' bw']|]; [|done]. apply IH. lia.
Qed.

(** ** Properties *)

(** The block of an image is built exactly when it fits the model's 384
    tokens: alignment padding, start token, the grid's rows two by two, end
    token, with the body aligned to four tokens; the permutation lists every
    cell of the grid once. *)
Theorem layout_build_exact gh gw start : 0 < gh < U32_MAX -> 0 < gw < U32_MAX -> 0 <= start ->
  let rows := gh + gh mod 2 in let W := gw + 1 in let pad_last := (rows / 2 * W) mod 2 * 2 in
  let tokens := (3 - start mod 4) + 1 + rows * W + pad_last + 1 in
  if tokens <=? 384 then exists L mid, image_layout_build gh gw start = Some L /\ zlen (il_types L) = tokens /\
    layout_shape gh gw start L (Z.to_nat (3 - start mod 4)) mid
  else image_layout_build gh gw start = None.
Proof.
  intros Hh Hw Hs rows W pad_last tokens. pose proof (layout_ok gh gw start ltac:(lia) ltac:(lia) Hs ltac:(lia) ltac:(lia)) as H. cbv zeta in H.
  fold W rows pad_last tokens in H. destruct (tokens <=? 384); [|done]. destruct H as (L & H1 & H2 & H3). by exists L, (inner gh gw rows W pad_last).
Qed.

(** A block that was built, placed in a prompt behind text, is found again
    as exactly one image block: from its padding to its end token. *)
Theorem layout_parsed gh gw start L vocab before text rest : 0 < gh < U32_MAX -> 0 < gw < U32_MAX -> 0 <= start -> 0 < vocab ->
  image_layout_build gh gw start = Some L -> Forall (is_text vocab) text ->
  let b := (length before + length text)%nat in let pad := Z.to_nat (3 - start mod 4) in
  next_image_span (before ++ text ++ map (Z.add vocab) (il_types L) ++ rest) vocab (length before) =
  SpanBlock b (b + pad) (b + length (il_types L) - 1).
Proof.
  intros Hh Hw Hs Hv HL Ht b pad. pose proof (layout_ok gh gw start ltac:(lia) ltac:(lia) Hs ltac:(lia) ltac:(lia)) as H. cbv zeta in H.
  destruct (_ <=? 384); [|congruence]. destruct H as (L' & H1 & _ & Hsh). rewrite HL in H1. injection H1 as <-. rewrite (ly_types _ _ _ _ _ _ Hsh).
  fold pad. set (mid := inner _ _ _ _ _) in *. change (map (Z.add vocab) _) with (block_tokens vocab pad mid).
  rewrite block_parsed by (done || apply (ly_mid _ _ _ _ _ _ Hsh)). cbv zeta. fold b. f_equal. rewrite !length_app, repeat_length. cbn [length]. lia.
Qed.

(** C19: Every size the resize search accepts has a grid whose block can be built,
    wherever in the prompt the image goes. *)
Theorem accepted_size_has_layout height width best_height best_width bh bw gh gw start : is_u32 best_height -> is_u32 best_width ->
  safe_resize height width best_height best_width = Some (bh, bw, gh, gw) -> 0 < gh -> 0 < gw -> 0 <= start ->
  exists L, image_layout_build gh gw start = Some L /\ zlen (il_types L) <= 384 /\ zlen (il_perm L) = gh * gw.
Proof.
  intros Hh Hw Hr Hgh Hgw Hs. apply resize_loop_ok in Hr as (bh' & bw' & lh & lw & tokens & E & Hbh & Hbw & Hg & Ht); [|done..].
  injection E as <- <- <- <-. pose proof (grid_tokens_exact _ _ Hbh Hbw) as Hx. rewrite Hg in Hx. destruct Hx as (R1 & R2 & Ht').
  specialize (Ht' Ht). change (2 ^ 28) with 268435456 in *. pose proof (layout_ok gh gw start Hgh Hgw Hs) as H. cbv zeta in H.
  destruct (_ <=? 384) eqn:E384 in H.
  - destruct H as (L & H1 & _ & Hsh); [unfold U32_MAX; lia..|]. exists L. split; [done|]. split; [apply (ly_max _ _ _ _ _ _ Hsh)|].
    unfold zlen. rewrite (Permutation_length (ly_perm _ _ _ _ _ _ Hsh)), length_upto. nia.
  - apply Z.leb_gt in E384. lia.
Qed.

(** A prefill chunk is not empty, within the cap and the prompt, and never
    ends inside an image block, its padding included; it is shorter than it
    could be only to stop before a block that would cross the cap. *)
Theorem prefill_chunk_whole_blocks tokens vocab pos0 cap c : 0 < vocab -> prefill_chunk tokens vocab pos0 cap = Some c ->
  (0 < c <= cap)%nat /\ (pos0 + c <= length tokens)%nat /\ not_cut tokens vocab pos0 (pos0 + c) /\
  (c = Nat.min cap (length tokens - pos0) \/ exists s e, is_block tokens vocab (pos0 + c) s e /\ (pos0 + cap <= e)%nat).
Proof.
  intros Hv. unfold prefill_chunk. destruct (_ || _) eqn:E; [done|]. rewrite !orb_false_iff, Nat.eqb_neq, Nat.leb_gt in E. destruct E as [[_ Hc] Hp].
  rewrite prefill_limit by done. destruct (chunk_loop _ _ _ _ _ _ _) as [r|] eqn:El; [|done]. destruct (_ =? 0)%nat eqn:E0; [done|]. intros [= <-].
  apply (chunk_loop_ok tokens vocab pos0 cap _ Hv) in El as (Hr & Hcut & Hlast); [|lia|done|apply scanned_start|lia].
  replace (pos0 + (r - pos0))%nat with r by lia. split; [lia|]. split; [lia|]. split; [done|]. destruct Hlast as [->|H]; [left; lia | by right].
Qed.

(** A prompt of text and image blocks that fit the cap is always cut, and
    what remains is such a prompt again: cutting goes on to its end. *)
Theorem prefill_chunk_goes_on tokens vocab pos0 cap : 0 < vocab -> (0 < cap)%nat -> (pos0 < length tokens)%nat ->
  prompt_ok vocab cap (drop pos0 tokens) ->
  exists c, prefill_chunk tokens vocab pos0 cap = Some c /\ (0 < c)%nat /\ prompt_ok vocab cap (drop (pos0 + c) tokens).
Proof.
  intros Hv Hc Hp Hok. unfold prefill_chunk. rewrite (proj2 (Z.eqb_neq vocab 0)), (proj2 (Nat.eqb_neq cap 0)), (proj2 (Nat.leb_gt _ _)) by lia. cbn [orb].
  rewrite prefill_limit by done.
  destruct (chunk_loop_total vocab cap pos0 tokens (Nat.min (pos0 + cap) (length tokens)) Hv ltac:(lia) eq_refl (S (length tokens)) pos0)
    as (r & Hr & Hrest); [lia | lia | done|]. rewrite Hr. pose proof Hr as Hr'.
  apply (chunk_loop_ok tokens vocab pos0 cap _ Hv) in Hr' as (Hb & _); [|lia|done|apply scanned_start|lia].
  rewrite (proj2 (Nat.eqb_neq (r - pos0) 0)) by lia. exists (r - pos0)%nat. split; [done|]. split; [lia|]. by replace (pos0 + (r - pos0))%nat with r by lia.
Qed.

(** The attention range of a token is exactly what it may see: text sees the
    stored keys of its window and nothing after itself; a token of an image sees
    back at least to the start of the image (383 tokens at most) and ahead to its
    end (384 at most). *)
Theorem attention_bounds_exact tokens vocab pos0 n_raw window bounds : 0 < vocab -> 0 <= window -> 0 <= pos0 ->
  attention_bounds tokens vocab pos0 n_raw window = Some bounds ->
  let first := pos0 + zlen tokens - n_raw in let last := pos0 + zlen tokens - 1 in
  length bounds = length tokens /\ forall q b k, bounds !! q = Some b ->
    (forall s e, is_image tokens vocab s e -> (s <= q <= e)%nat ->
       within b k <-> image_sees pos0 first last window (Z.of_nat s) (Z.of_nat e) (Z.of_nat q) k) /\
    ((forall s e, is_image tokens vocab s e -> ~ (s <= q <= e)%nat) -> within b k <-> text_sees pos0 first last window (Z.of_nat q) k).
Proof.
  intros Hv Hw Hp H first last. unfold attention_bounds in H. destruct (_ || _) eqn:E in H; [done|]. rewrite !orb_false_iff, !Z.ltb_ge in E.
  destruct E as [_ Hn]. assert (Hf : 0 <= first) by (unfold first; lia).
  replace (pos0 + zlen tokens - n_raw + n_raw - 1) with last in H by (unfold last; lia). fold first in H.
  apply (bounds_loop_ok tokens vocab pos0 first last window Hv) in H as (Hl & Hi & Hb).
  - split; [done|]. intros q b k Hq. destruct (Hb q b Hq) as [(s & e & Him & Hs & Hr & ->)|[Hno ->]].
    + split; [|intros Hnone; by destruct (Hnone s e Him)]. intros s' e' Him' Hr'.
      assert (Hs' : (s' < length tokens)%nat) by (eapply lookup_lt_Some, (bk_start _ _ _ _ _ Him')).
      destruct (images_disjoint _ _ _ _ _ _ _ _ Hi Him Him' Hs Hs' Hr Hr') as [-> ->]. apply image_bounds_sees; [done..|lia].
    + split; [|intros _; by apply text_bounds_sees]. intros s e Him Hr. destruct (Hno s e Him); [|done]. eapply lookup_lt_Some, (bk_start _ _ _ _ _ Him).
  - split; intros; lia.
  - unfold zlen. rewrite length_map, length_upto. lia.
  - intros q b Hq. right. split; [intros; lia|]. apply list_lookup_fmap_Some in Hq as (x & -> & Hx).
    apply list_lookup_fmap_Some in Hx as (y & -> & Hy). apply lookup_seq in Hy as [-> _]. done.
Qed.

Definition sample_prompt : list Z := [5; 6] ++ map (Z.add 100) [1; 0; 2; 1; 2; 1; 3; 1; 1; 1; 4] ++ [7].

Lemma layout_build_exact_witness : exists L mid, image_layout_build 1 2 6 = Some L /\ zlen (il_types L) = 11 /\ layout_shape 1 2 6 L 1 mid.
Proof. apply (layout_build_exact 1 2 6); unfold U32_MAX; lia. Defined.

Lemma layout_parsed_witness : next_image_span sample_prompt 100 0 = SpanBlock 2 3 12.
Proof.
  apply (layout_parsed 1 2 6 (Layout [1; 0; 2; 1; 2; 1; 3; 1; 1; 1; 4] [0; 1]) 100 [] [5; 6] [7]); try (unfold U32_MAX; lia).
  - vm_compute. reflexivity.
  - repeat constructor; lia.
Defined.

Lemma accepted_size_has_layout_witness : exists L, image_layout_build 22 15 7 = Some L /\ zlen (il_types L) <= 384 /\ zlen (il_perm L) = 330.
Proof.
  apply (accepted_size_has_layout 3000 2000 2996 1988 924 616 22 15 7); try (unfold is_u32, U32_MAX; lia). vm_compute. reflexivity.
Defined.

Lemma prefill_chunk_whole_blocks_witness : not_cut sample_prompt 100 0 (0 + 2).
Proof. apply (prefill_chunk_whole_blocks sample_prompt 100 0 8 2); [lia | vm_compute; reflexivity]. Defined.

Lemma prefill_chunk_goes_on_witness : exists c, prefill_chunk sample_prompt 100 0 16 = Some c /\ (0 < c)%nat /\ prompt_ok 100 16 (drop (0 + c) sample_prompt).
Proof.
  apply (prefill_chunk_goes_on sample_prompt 100 0 16); [lia | lia | cbn; lia|]. cbn [drop]. unfold sample_prompt. cbn [app].
  apply prompt_text; [unfold is_text; lia|]. apply prompt_text; [unfold is_text; lia|].
  apply (prompt_block 100 16 1 [2; 1; 2; 1; 3; 1; 1; 1] [7]).
  - repeat constructor; unfold block_type, DS4_DEEPSEEK4_IMAGE, DS4_DEEPSEEK4_IMAGE_NEWLINE, DS4_DEEPSEEK4_IMAGE_PAD; lia.
  - cbn. lia.
  - apply prompt_text; [unfold is_text; lia | apply prompt_nil].
Defined.

(** The second token of the text sees itself and the one before, not the image;
    the image's start token sees up to its end. *)
Lemma attention_bounds_exact_witness : exists bounds, attention_bounds sample_prompt 100 0 14 4 = Some bounds /\
  bounds !! 1%nat = Some (0, 1) /\ bounds !! 3%nat = Some (0, 12) /\ length bounds = 14%nat.
Proof.
  destruct (attention_bounds sample_prompt 100 0 14 4) as [bounds|] eqn:E; [|exfalso; vm_compute in E; discriminate E]. exists bounds.
  destruct (attention_bounds_exact sample_prompt 100 0 14 4 bounds ltac:(lia) ltac:(lia) ltac:(lia) E) as [Hl _]. split; [reflexivity|].
  split; [|split; [|exact Hl]]; vm_compute in E; injection E as <-; reflexivity.
Defined.
