(* ===== verification/Session.v ===== *)
(** * Live sessions (ds4.c, CPU backend)

    A session holds the tokens its KV cache was computed from, the identities of
    their images and the logits behind the last of them.  Synchronising with a
    prompt, evaluating a token, rewinding, rewriting, and the comparison with a
    request's tokens and images; and the calls on several sessions of an engine,
    with what they save and load.  The numeric kernels are the class [CpuKernels],
    the payload of a saved session is the class [PayloadFormat] (Payload.v);
    tensor parallel, distributed and graph sessions are not modelled. *)

From S2P Require Import Prelude ImageLayout.
#[local] Open Scope Z_scope.
#[local] Open Scope stdpp_scope.

Record ds4_vision_identity := Identity { vi_token_start : Z; vi_token_count : Z; vi_fingerprint : bytes }.

(** [sp_data]: the embedding is there. *)
Record ds4_vision_span := Span { sp_token_start : Z; sp_data : bool; sp_token_count : Z; sp_fingerprint : bytes }.

Definition identity (s : ds4_vision_span) : ds4_vision_identity := Identity (sp_token_start s) (sp_token_count s) (sp_fingerprint s).

(** The kernels work on a cache: a fresh one for a context size, one token at a
    position, and a whole prompt. *)
Class CpuKernels (Cache Logits : Type) := {
  kv_cache_init : Z -> Cache;
  forward_token : Cache -> Z -> Z -> Cache * Logits;
  prefill_layer_major : Cache -> list Z -> Cache * Logits
}.

Inductive vision_kind := DS4_VISION_DEEPSEEK4 | DS4_VISION_OTHER.

(** What a session reads of its engine. *)
Record engine := Engine { en_vision_ready : bool; en_vision_kind : vision_kind; en_vision_image_token : Z; en_n_vocab : Z }.

Definition DS4_SESSION_SYNC_INTERRUPTED : Z := 2.

Inductive rewrite_result := DS4_SESSION_REWRITE_OK | DS4_SESSION_REWRITE_ERROR | DS4_SESSION_REWRITE_REBUILD_NEEDED.

Section Session.
Context {Cache Logits : Type} {kernels : CpuKernels Cache Logits} (e : engine).

Record session := Session {
  ss_ctx_size : Z;
  ss_checkpoint : list Z;
  ss_checkpoint_valid : bool;
  ss_images : list ds4_vision_identity;
  ss_cache : Cache;
  ss_logits : option Logits;
  ss_mtp_draft_valid : bool;
  ss_splitkv_segment : list Z;
  ss_splitkv_anchor_valid : bool }.

Definition session_create (ctx_size : Z) : option session :=
  if ctx_size <=? 0 then None
  else Some (Session ctx_size [] false [] (kv_cache_init ctx_size) None false [] false).

Definition session_pos (s : session) : Z := zlen (ss_checkpoint s).

Definition set_valid (s : session) : session :=
  Session (ss_ctx_size s) (ss_checkpoint s) true (ss_images s) (ss_cache s) (ss_logits s) false (ss_splitkv_segment s) (ss_splitkv_anchor_valid s).

Definition session_invalidate (s : session) : session :=
  Session (ss_ctx_size s) [] false [] (ss_cache s) (ss_logits s) false (ss_splitkv_segment s) (ss_splitkv_anchor_valid s).

Definition session_rewind (s : session) (pos : Z) : session :=
  let pos := if pos <? 0 then 0 else pos in
  if zlen (ss_checkpoint s) <=? pos then s
  else Session (ss_ctx_size s) (take (Z.to_nat pos) (ss_checkpoint s)) false (ss_images s) (ss_cache s) (ss_logits s) false
         (ss_splitkv_segment s) (ss_splitkv_anchor_valid s).

(** ** Images *)

Definition same_identity (old : ds4_vision_identity) (current : ds4_vision_span) : bool :=
  (vi_token_start old =? sp_token_start current) && (vi_token_count old =? sp_token_count current) &&
  bytes_eqb (vi_fingerprint old) (sp_fingerprint current).

Definition session_vision_prefix_matches (s : session) (images : list ds4_vision_span) : bool :=
  if negb (ss_checkpoint_valid s) then false
  else if (length images <? length (ss_images s))%nat then false
  else if negb (forallb (fun '(old, current) => same_identity old current) (zip (ss_images s) images)) then false
  else match drop (length (ss_images s)) images with
       | next :: _ => negb (sp_token_start next <? zlen (ss_checkpoint s))
       | [] => true
       end.

Definition session_vision_state_matches (s : session) (images : list ds4_vision_span) : bool :=
  ss_checkpoint_valid s && (length (ss_images s) =? length images)%nat && session_vision_prefix_matches s images.

(** The first [image_count] spans moved to where the session has them. *)
Definition session_rebase_vision_state (s : session) (images : list ds4_vision_span) (image_count : nat) : option (list ds4_vision_span) :=
  if negb (ss_checkpoint_valid s) || negb (image_count =? length (ss_images s))%nat then None
  else if negb (forallb (fun '(i, old) => (sp_token_count i =? vi_token_count old) && bytes_eqb (sp_fingerprint i) (vi_fingerprint old))
                        (zip (take image_count images) (ss_images s))) then None
  else Some (zip_with (fun i old => Span (vi_token_start old) (sp_data i) (sp_token_count i) (sp_fingerprint i)) (take image_count images) (ss_images s) ++
             drop image_count images).

Definition session_has_vision_state (s : session) : bool := negb (length (ss_images s) =? 0)%nat.

Definition session_vision_range_overlaps (sync_images : list ds4_vision_span) (token_start token_count : Z) : bool :=
  existsb (fun i => (token_start <? sp_token_start i + sp_token_count i) && (sp_token_start i <? token_start + token_count)) sync_images.

Definition session_store_vision_identities (s : session) (sync_images : list ds4_vision_span) : session :=
  Session (ss_ctx_size s) (ss_checkpoint s) (ss_checkpoint_valid s) (map identity sync_images) (ss_cache s) (ss_logits s)
    (ss_mtp_draft_valid s) (ss_splitkv_segment s) (ss_splitkv_anchor_valid s).

(** ** Tokens *)

Fixpoint tokens_starts_with (tokens prefix : list Z) {struct prefix} : bool :=
  match prefix, tokens with
  | [], _ => true
  | _ :: _, [] => false
  | p :: prefix', t :: tokens' => (t =? p) && tokens_starts_with tokens' prefix'
  end.

Fixpoint common_loop (a b : list Z) : Z :=
  match a, b with
  | x :: a', y :: b' => if x =? y then 1 + common_loop a' b' else 0
  | _, _ => 0
  end.

Definition session_common_prefix (s : session) (prompt : list Z) : Z :=
  if ss_checkpoint_valid s then common_loop (ss_checkpoint s) prompt else 0.

(** A token is evaluated behind the checkpoint. *)
Definition session_push (s : session) (token : Z) : session :=
  let '(cache, logits) := forward_token (ss_cache s) token (u32 (zlen (ss_checkpoint s))) in
  Session (ss_ctx_size s) (ss_checkpoint s ++ [token]) (ss_checkpoint_valid s) (ss_images s) cache (Some logits)
    (ss_mtp_draft_valid s) (ss_splitkv_segment s) (ss_splitkv_anchor_valid s).

(** Cancellation is asked for at the polls, in order. *)
Definition poll (cancels : list bool) : bool * list bool :=
  match cancels with [] => (false, []) | c :: cancels' => (c, cancels') end.

Fixpoint extend_loop (s : session) (suffix : list Z) (cancels : list bool) : Z * session :=
  match suffix with
  | [] =>
      let s := set_valid s in
      (0, Session (ss_ctx_size s) (ss_checkpoint s) (ss_checkpoint_valid s) (ss_images s) (ss_cache s) (ss_logits s) (ss_mtp_draft_valid s) [] false)
  | token :: suffix' =>
      let '(c, cancels) := poll cancels in
      if c then (DS4_SESSION_SYNC_INTERRUPTED, set_valid s)
      else extend_loop (session_push s token) suffix' cancels
  end.

Definition session_sync_internal (s : session) (prompt : list Z) (cancels : list bool) : Z * session :=
  if zlen prompt <=? 0 then (1, s)
  else if ss_ctx_size s <=? zlen prompt then (1, s)
  else
    let '(c, cancels) := poll cancels in
    if c then (DS4_SESSION_SYNC_INTERRUPTED, s)
    else if ss_checkpoint_valid s && (zlen (ss_checkpoint s) <=? zlen prompt) && tokens_starts_with prompt (ss_checkpoint s) then
      extend_loop (Session (ss_ctx_size s) (ss_checkpoint s) (ss_checkpoint_valid s) (ss_images s) (ss_cache s) (ss_logits s) false
                     (ss_splitkv_segment s) (ss_splitkv_anchor_valid s))
        (drop (length (ss_checkpoint s)) prompt) cancels
    else
      let cache := kv_cache_init (ss_ctx_size s) in
      let '(cache, logits) := prefill_layer_major cache prompt in
      (0, Session (ss_ctx_size s) prompt true (ss_images s) cache (Some logits) false (ss_splitkv_segment s) (ss_splitkv_anchor_valid s)).

(** [sync_images] are the images of the prompt. *)
Definition session_sync (s : session) (sync_images : list ds4_vision_span) (prompt : list Z) (cancels : list bool) : Z * session :=
  let s := if ss_checkpoint_valid s && negb (session_vision_prefix_matches s sync_images) then session_invalidate s else s in
  let '(rc, s) := session_sync_internal s prompt cancels in
  (rc, if rc =? 0 then session_store_vision_identities s sync_images else s).

Definition span_tokens_ok (prompt : list Z) (span : ds4_vision_span) : bool :=
  let tokens := take (Z.to_nat (sp_token_count span)) (drop (Z.to_nat (sp_token_start span)) prompt) in
  match en_vision_kind e with
  | DS4_VISION_DEEPSEEK4 =>
      match next_image_span tokens (en_n_vocab e) 0 with
      | SpanBlock block_start _ image_end => (block_start =? 0)%nat && (Z.of_nat (S image_end) =? sp_token_count span)
      | _ => false
      end
  | DS4_VISION_OTHER => forallb (fun t => t =? en_vision_image_token e) tokens
  end.

Fixpoint spans_loop (prompt : list Z) (images : list ds4_vision_span) (previous_end : Z) : bool :=
  match images with
  | [] => true
  | span :: images' =>
      let end_ := sp_token_start span + sp_token_count span in
      if negb (sp_data span) || (sp_token_count span =? 0) || (sp_token_start span <? previous_end) || (zlen prompt <? end_) then false
      else if negb (span_tokens_ok prompt span) then false
      else spans_loop prompt images' end_
  end.

Definition session_sync_multimodal (s : session) (prompt : list Z) (images : list ds4_vision_span) (cancels : list bool) : Z * session :=
  if negb (length images =? 0)%nat && negb (en_vision_ready e) then (1, s)
  else if negb (spans_loop prompt images 0) then (1, s)
  else session_sync s images prompt cancels.

Definition session_eval (s : session) (token : Z) : Z * session :=
  if negb (ss_checkpoint_valid s) then (1, s) else (0, set_valid (session_push s token)).

(** ** Rewriting *)

Definition rewrite_requires_rebuild (live_len canonical_len common : Z) : bool :=
  if (live_len <? 0) || (canonical_len <? 0) || (common <? 0) then true
  else if (live_len <? common) || (canonical_len <? common) then true
  else common <? live_len.

Definition session_rewrite_from_common (s : session) (prompt : list Z) (common : Z) (cancels : list bool) : rewrite_result * session :=
  if zlen prompt <=? 0 then (DS4_SESSION_REWRITE_ERROR, s)
  else if ss_ctx_size s <=? zlen prompt then (DS4_SESSION_REWRITE_ERROR, s)
  else if negb (ss_checkpoint_valid s) then (DS4_SESSION_REWRITE_ERROR, s)
  else if (common <? 0) || (zlen (ss_checkpoint s) <? common) || (zlen prompt <? common) then (DS4_SESSION_REWRITE_ERROR, s)
  else if negb (tokens_starts_with (take (Z.to_nat common) (ss_checkpoint s)) (take (Z.to_nat common) prompt)) then (DS4_SESSION_REWRITE_ERROR, s)
  else if common =? zlen (ss_checkpoint s) then
    let '(rc, s) := session_sync s [] prompt cancels in
    (if rc =? 0 then DS4_SESSION_REWRITE_OK else DS4_SESSION_REWRITE_ERROR, s)
  else if rewrite_requires_rebuild (zlen (ss_checkpoint s)) (zlen prompt) common then (DS4_SESSION_REWRITE_REBUILD_NEEDED, s)
  else (DS4_SESSION_REWRITE_ERROR, s).

(** ** What callers do to a session *)

Inductive session_op :=
| OpSync (prompt : list Z) (cancels : list bool)
| OpSyncMultimodal (prompt : list Z) (images : list ds4_vision_span) (cancels : list bool)
| OpEval (token : Z) | OpInvalidate | OpRewind (pos : Z)
| OpRewrite (prompt : list Z) (common : Z) (cancels : list bool).

Definition session_step (s : session) (o : session_op) : session :=
  match o with
  | OpSync prompt cancels => snd (session_sync s [] prompt cancels)
  | OpSyncMultimodal prompt images cancels => snd (session_sync_multimodal s prompt images cancels)
  | OpEval token => snd (session_eval s token)
  | OpInvalidate => session_invalidate s
  | OpRewind pos => session_rewind s pos
  | OpRewrite prompt common cancels => snd (session_rewrite_from_common s prompt common cancels)
  end.
End Session.
Arguments session : clear implicits.

(** ** Saving and loading *)

(** What a payload restores: whether a session of some context size takes tokens that
    were saved with another, and the cache it then has. *)
Class PayloadFormat (Cache : Type) := {
  payload_fits : Z -> list Z -> Z -> bool;
  payload_restore : Z -> list Z -> Cache -> Z -> Cache
}.

Section Calls.
Context {Cache Logits : Type} {kernels : CpuKernels Cache Logits} {format : PayloadFormat Cache} (e : engine).
Abbreviation session := (Session.session Cache Logits).

Record saved := Saved { sv_ctx_size : Z; sv_tokens : list Z; sv_cache : Cache; sv_logits : Logits }.

Definition session_save (s : session) : option saved :=
  if ss_checkpoint_valid s then Saved (ss_ctx_size s) (ss_checkpoint s) (ss_cache s) <$> ss_logits s else None.

(** A load that fails has overwritten what it pleases of the cache and the logits;
    its callers invalidate the session. *)
Definition load_failed (s : session) (cache : Cache) (logits : option Logits) : session :=
  session_invalidate (Session (ss_ctx_size s) (ss_checkpoint s) (ss_checkpoint_valid s) (ss_images s) cache logits (ss_mtp_draft_valid s)
    (ss_splitkv_segment s) (ss_splitkv_anchor_valid s)).

Definition session_load (s : session) (f : saved) : session :=
  if payload_fits (sv_ctx_size f) (sv_tokens f) (ss_ctx_size s)
  then Session (ss_ctx_size s) (sv_tokens f) true (ss_images s) (payload_restore (sv_ctx_size f) (sv_tokens f) (sv_cache f) (ss_ctx_size s)) (Some (sv_logits f)) false
         (ss_splitkv_segment s) (ss_splitkv_anchor_valid s)
  else session_invalidate s.

(** The sessions of an engine and what was saved of them; a call names the session
    and, for a load, the payload. *)
Record sessions := Sessions { es_sessions : list session; es_saved : list saved }.

Inductive session_call :=
| CallOp (i : nat) (o : session_op)
| CallSave (i : nat)
| CallLoad (i k : nat)
| CallLoadFailed (i : nat) (cache : Cache) (logits : option Logits).

Definition session_call_step (w : sessions) (c : session_call) : sessions :=
  match c with
  | CallOp i o => Sessions (alter (fun s => session_step e s o) i (es_sessions w)) (es_saved w)
  | CallSave i => Sessions (es_sessions w) (es_saved w ++ option_list (es_sessions w !! i ≫= session_save))
  | CallLoad i k => match es_saved w !! k with Some f => Sessions (alter (fun s => session_load s f) i (es_sessions w)) (es_saved w) | None => w end
  | CallLoadFailed i cache logits => Sessions (alter (fun s => load_failed s cache logits) i (es_sessions w)) (es_saved w)
  end.
End Calls.
Arguments saved : clear implicits.
Arguments sessions : clear implicits.
Arguments session_call : clear implicits.

(** ** Comparing *)

Lemma tokens_starts_with_iff tokens prefix : tokens_starts_with tokens prefix = true <-> prefix `prefix_of` tokens.
Proof.
  revert tokens. induction prefix as [|p prefix IH]; intros tokens; cbn [tokens_starts_with].
  { split; intros _; [apply prefix_nil | reflexivity]. }
  destruct tokens as [|t tokens]; [split; [discriminate | intros H; by apply prefix_nil_not in H]|]. rewrite andb_true_iff, Z.eqb_eq, IH. split.
  - intros [-> H]. by apply prefix_cons.
  - intros H. split; [by apply prefix_cons_inv_1 in H | by apply prefix_cons_inv_2 in H].
Qed.

Lemma common_loop_spec a b : exists n, common_loop a b = Z.of_nat n /\ take n a = take n b /\ (n <= length a)%nat /\ (n <= length b)%nat /\
  (forall x y, a !! n = Some x -> b !! n = Some y -> x <> y).
Proof.
  revert b. induction a as [|x a IH]; intros b; cbn [common_loop]; [exists 0%nat; cbn; split_and!; (lia || done)|].
  destruct b as [|y b]; [exists 0%nat; cbn; split_and!; (lia || done)|]. destruct (x =? y) eqn:E.
  - apply Z.eqb_eq in E as ->. destruct (IH b) as (n & -> & Ht & H1 & H2 & H3). exists (S n). cbn. split_and!; [lia | by rewrite Ht | lia | lia | exact H3].
  - apply Z.eqb_neq in E. exists 0%nat. cbn. split_and!; try (lia || done). intros ? ? [= <-] [= <-]. exact E.
Qed.

Lemma same_identity_eq old i : same_identity old i = true <-> identity i = old.
Proof.
  unfold same_identity, identity. rewrite !andb_true_iff, !Z.eqb_eq, bytes_eqb_eq. destruct old; cbn. split; [intros [[-> ->] ->]; done | intros [= <- <- <-]; done].
Qed.

Lemma forallb_zip_identity olds images : (length olds <= length images)%nat ->
  forallb (fun '(old, current) => same_identity old current) (zip olds images) = true <-> map identity (take (length olds) images) = olds.
Proof.
  revert images. induction olds as [|o olds IH]; intros [|i images]; cbn; intros H; try (done || lia).
  rewrite andb_true_iff, same_identity_eq, IH by lia. split; [intros [-> ->]; done | intros [= <- ?]; done].
Qed.

Section Proofs.
Context {Cache Logits : Type} {kernels : CpuKernels Cache Logits} {format : PayloadFormat Cache} (e : engine).
Abbreviation session := (Session.session Cache Logits).

(** The images of the session are the first of the request's, where they were,
    and a new one comes behind the tokens. *)
Definition vision_prefix (s : session) (images : list ds4_vision_span) : Prop :=
  ss_checkpoint_valid s = true /\ map identity (take (length (ss_images s)) images) = ss_images s /\
  forall next, images !! length (ss_images s) = Some next -> zlen (ss_checkpoint s) <= sp_token_start next.

Lemma vision_prefix_iff (s : session) images : session_vision_prefix_matches s images = true <-> vision_prefix s images.
Proof.
  unfold session_vision_prefix_matches, vision_prefix. destruct (ss_checkpoint_valid s); cbn [negb]; [|split; [done | by intros [? _]]].
  destruct (length images <? length (ss_images s))%nat eqn:El.
  - apply Nat.ltb_lt in El. split; [done|]. intros (_ & H & _). apply (f_equal length) in H. rewrite length_map, length_take in H. lia.
  - apply Nat.ltb_ge in El. destruct (forallb _ _) eqn:Ef; cbn [negb].
    + apply (forallb_zip_identity _ _ El) in Ef. assert (Hn : images !! length (ss_images s) = hd_error (drop (length (ss_images s)) images)).
      { rewrite <- (Nat.add_0_r (length (ss_images s))) at 1. rewrite <- lookup_drop. by destruct (drop _ images). }
      rewrite Hn. destruct (drop _ images) as [|next rest]; cbn [hd_error].
      * split; [intros _|done]. by split_and!.
      * rewrite negb_true_iff, Z.ltb_ge. split; [intros H; split_and!; [done | done | by intros ? [= <-]] | intros (_ & _ & H); by apply H].
    + split; [done|]. intros (_ & H & _). apply (forallb_zip_identity _ _ El) in H. congruence.
Qed.

(** ** What the cache holds *)

(** A cache and logits computed from these tokens: a fresh cache, a prefill of a
    first part, then each token at its position; in between the computed state may
    have been saved and restored in a session with another context size. *)
Inductive holds : Z -> Cache -> Logits -> list Z -> Prop :=
| holds_prefill ctx prompt cache logits : prompt <> [] -> prefill_layer_major (kv_cache_init ctx) prompt = (cache, logits) -> holds ctx cache logits prompt
| holds_forward ctx cache logits tokens t cache' logits' : holds ctx cache logits tokens ->
    forward_token cache t (u32 (zlen tokens)) = (cache', logits') -> holds ctx cache' logits' (tokens ++ [t])
| holds_restored ctx0 ctx cache logits tokens : holds ctx0 cache logits tokens -> payload_fits ctx0 tokens ctx = true ->
    holds ctx (payload_restore ctx0 tokens cache ctx) logits tokens.

Definition cache_ok (s : session) : Prop :=
  ss_checkpoint_valid s = true -> exists logits, ss_logits s = Some logits /\ holds (ss_ctx_size s) (ss_cache s) logits (ss_checkpoint s).

Lemma push_ok (s : session) t : cache_ok s -> cache_ok (session_push s t).
Proof.
  unfold cache_ok, session_push. intros H. destruct (forward_token _ _ _) as [c l] eqn:E. cbn. intros Hv. destruct (H Hv) as (l0 & _ & Hh).
  exists l. split; [done|]. by eapply holds_forward.
Qed.

Lemma push_fields (s : session) t : ss_checkpoint (session_push s t) = ss_checkpoint s ++ [t] /\ ss_checkpoint_valid (session_push s t) = ss_checkpoint_valid s /\
  ss_ctx_size (session_push s t) = ss_ctx_size s /\ ss_images (session_push s t) = ss_images s.
Proof. unfold session_push. by destruct (forward_token _ _ _). Qed.

Lemma set_valid_ok (s : session) : ss_checkpoint_valid s = true -> cache_ok s -> cache_ok (set_valid s).
Proof. unfold cache_ok. cbn. intros Hv H _. by apply H. Qed.

Lemma extend_loop_ok suffix : forall (s : session) cancels rc s', ss_checkpoint_valid s = true -> cache_ok s -> extend_loop s suffix cancels = (rc, s') ->
  cache_ok s' /\ ss_checkpoint_valid s' = true /\ ss_ctx_size s' = ss_ctx_size s /\ ss_images s' = ss_images s /\
  (rc = 0 /\ ss_checkpoint s' = ss_checkpoint s ++ suffix \/
   rc = DS4_SESSION_SYNC_INTERRUPTED /\ true ∈ cancels /\ exists k, (k < length suffix)%nat /\ ss_checkpoint s' = ss_checkpoint s ++ take k suffix).
Proof.
  induction suffix as [|t suffix IH]; intros s cancels rc s' Hv Hc; cbn [extend_loop].
  - intros [= <- <-]. split; [intros _; by apply Hc|]. cbn. rewrite app_nil_r. split_and!; try done. by left.
  - destruct (poll cancels) as [c cs] eqn:Ep. destruct c.
    + intros [= <- <-]. split; [by apply set_valid_ok|]. cbn. split_and!; try done. right. split; [done|]. split.
      * destruct cancels; [done|]. injection Ep as -> _. by left.
      * exists 0%nat. cbn. rewrite app_nil_r. split; [lia | done].
    + destruct (push_fields s t) as (E1 & E2 & E3 & E4). intros H. apply IH in H; [|by rewrite E2|by apply push_ok]. rewrite E1, E3, E4 in H.
      destruct H as (H1 & H2 & H3 & H4 & H5). split_and!; try done. destruct H5 as [[-> H5]|(-> & Hin & k & Hk & H5)].
      * left. split; [done|]. by rewrite H5, <- app_assoc.
      * right. split; [done|]. split; [destruct cancels; [by injection Ep as <- | injection Ep as _ <-; by right]|]. exists (S k). cbn. split; [lia|]. by rewrite H5, <- app_assoc.
Qed.

(** The outcomes of a synchronisation, [s0] being the session without images
    that do not match. *)
Inductive sync_result (s0 : session) (prompt : list Z) (cancels : list bool) : Z -> session -> Prop :=
| sync_done s' : 0 < zlen prompt < ss_ctx_size s0 -> ss_checkpoint s' = prompt -> ss_checkpoint_valid s' = true -> sync_result s0 prompt cancels 0 s'
| sync_refused : ~ (0 < zlen prompt < ss_ctx_size s0) -> sync_result s0 prompt cancels 1 s0
| sync_interrupted_first : true ∈ cancels -> sync_result s0 prompt cancels DS4_SESSION_SYNC_INTERRUPTED s0
| sync_interrupted s' k : true ∈ cancels -> ss_checkpoint_valid s0 = true -> ss_checkpoint s0 `prefix_of` take k prompt -> (k < length prompt)%nat ->
    ss_checkpoint s' = take k prompt -> ss_checkpoint_valid s' = true -> sync_result s0 prompt cancels DS4_SESSION_SYNC_INTERRUPTED s'.

Lemma sync_internal_ok (s : session) prompt cancels rc s' : cache_ok s -> session_sync_internal s prompt cancels = (rc, s') ->
  cache_ok s' /\ ss_ctx_size s' = ss_ctx_size s /\ sync_result s prompt cancels rc s'.
Proof.
  intros Hc. unfold session_sync_internal. destruct (zlen prompt <=? 0) eqn:E1; [apply Z.leb_le in E1; intros [= <- <-]; split_and!; try done; constructor; lia|].
  destruct (ss_ctx_size s <=? zlen prompt) eqn:E2; [apply Z.leb_le in E2; intros [= <- <-]; split_and!; try done; constructor; lia|].
  apply Z.leb_gt in E1, E2. destruct (poll cancels) as [c cs] eqn:Ep. assert (Hcs : forall x, x ∈ cs -> x ∈ cancels).
  { intros x Hx. destruct cancels; injection Ep as <- <-; [done | by right]. }
  destruct c; [intros [= <- <-]; split_and!; try done; apply sync_interrupted_first; destruct cancels; [done|]; injection Ep as -> _; by left|].
  destruct (_ && _ && _) eqn:Eb.
  - rewrite !andb_true_iff in Eb. destruct Eb as [[Hv _] Hp]. apply tokens_starts_with_iff in Hp as [suffix ->].
    set (s1 := Session _ _ _ _ _ _ _ _ _). rewrite drop_app_length. intros H. apply extend_loop_ok in H as (H1 & H2 & H3 & _ & H4); [|done|done].
    split_and!; try done. destruct H4 as [[-> H4]|(-> & Hin & k & Hk & H4)]; [by apply sync_done|].
    apply (sync_interrupted _ _ _ _ (length (ss_checkpoint s) + k)); try done; [by apply Hcs | | rewrite length_app; lia|].
    + rewrite take_app_add. by eexists.
    + rewrite take_app_add. done.
  - destruct (prefill_layer_major _ prompt) as [cache logits] eqn:Ef. intros [= <- <-]. split_and!; [|done|by apply sync_done].
    intros _. exists logits. split; [done|]. cbn. apply holds_prefill; [|done]. intros ->. by unfold zlen in E1.
Qed.

Definition matched (s : session) (images : list ds4_vision_span) : session :=
  if ss_checkpoint_valid s && negb (session_vision_prefix_matches s images) then session_invalidate s else s.

Lemma matched_ok (s : session) images : cache_ok s -> cache_ok (matched s images) /\ ss_ctx_size (matched s images) = ss_ctx_size s.
Proof. intros H. unfold matched. destruct (_ && _); [|done]. by split. Qed.

Lemma sync_ok (s : session) images prompt cancels rc s' : cache_ok s -> session_sync s images prompt cancels = (rc, s') ->
  cache_ok s' /\ ss_ctx_size s' = ss_ctx_size s /\ sync_result (matched s images) prompt cancels rc s' /\ (rc = 0 -> ss_images s' = map identity images).
Proof.
  intros Hc. unfold session_sync. fold (matched s images). destruct (matched_ok s images Hc) as [Hm Hx].
  destruct (session_sync_internal _ prompt cancels) as [r s1] eqn:E. apply sync_internal_ok in E as (H1 & H2 & H3); [|done].
  intros [= <- <-]. rewrite Hx in H2. destruct (r =? 0) eqn:E0.
  - apply Z.eqb_eq in E0 as ->. split; [exact H1|]. split; [done|]. split; [|done]. inversion H3; subst; by apply sync_done.
  - apply Z.eqb_neq in E0. split_and!; done.
Qed.

Lemma step_ok (s : session) o : cache_ok s -> cache_ok (session_step e s o) /\ ss_ctx_size (session_step e s o) = ss_ctx_size s.
Proof.
  intros Hc. destruct o as [prompt cancels|prompt images cancels|t| |pos|prompt common cancels]; cbn [session_step].
  - destruct (session_sync s [] prompt cancels) as [rc s'] eqn:E. apply sync_ok in E as (H1 & H2 & _); done.
  - unfold session_sync_multimodal. destruct (_ && _); [done|]. destruct (negb _); [done|].
    destruct (session_sync s images prompt cancels) as [rc s'] eqn:E. apply sync_ok in E as (H1 & H2 & _); done.
  - unfold session_eval. destruct (ss_checkpoint_valid s) eqn:Ev; [|done]. cbn [negb snd]. destruct (push_fields s t) as (E1 & E2 & E3 & E4).
    split; [apply set_valid_ok; [by rewrite E2 | by apply push_ok] | done].
  - by split.
  - unfold session_rewind. destruct (_ <=? _); [done|]. by split.
  - unfold session_rewrite_from_common. repeat (destruct (_ <=? _); [done|]). destruct (negb _); [done|]. destruct (_ || _); [done|]. destruct (negb _); [done|].
    destruct (_ =? _); [|by destruct (rewrite_requires_rebuild _ _ _)].
    destruct (session_sync s [] prompt cancels) as [rc s'] eqn:E. apply sync_ok in E as (H1 & H2 & _); done.
Qed.

Lemma steps_ok ops : forall s : session, cache_ok s -> cache_ok (fold_left (session_step e) ops s) /\ ss_ctx_size (fold_left (session_step e) ops s) = ss_ctx_size s.
Proof.
  induction ops as [|o ops IH]; intros s Hc; [done|]. cbn [fold_left]. destruct (step_ok s o Hc) as [H1 H2]. rewrite <- H2. by apply IH.
Qed.
End Proofs.

Section Properties.
Context {Cache Logits : Type} {kernels : CpuKernels Cache Logits} {format : PayloadFormat Cache} (e : engine).
Abbreviation session := (Session.session Cache Logits).

Lemma created_ok ctx (s : session) : session_create ctx = Some s -> cache_ok s /\ ss_ctx_size s = ctx /\ 0 < ctx.
Proof. unfold session_create. destruct (ctx <=? 0) eqn:E; [done|]. apply Z.leb_gt in E. by intros [= <-]. Qed.

Lemma extend_loop_push suffix : forall s : session, let s' := snd (extend_loop s suffix []) in let p := fold_left session_push suffix s in
  fst (extend_loop s suffix []) = 0 /\ ss_cache s' = ss_cache p /\ ss_logits s' = ss_logits p /\ ss_checkpoint s' = ss_checkpoint p.
Proof. induction suffix as [|t suffix IH]; intros s; cbn [extend_loop fold_left poll]; [done | apply IH]. Qed.

Lemma sync_reuse (s : session) images suffix : ss_checkpoint_valid s = true -> session_vision_prefix_matches s images = true ->
  0 < zlen (ss_checkpoint s ++ suffix) < ss_ctx_size s ->
  exists s', session_sync s images (ss_checkpoint s ++ suffix) [] = (0, s') /\
    let p := fold_left session_push suffix s in
    ss_cache s' = ss_cache p /\ ss_logits s' = ss_logits p /\ ss_checkpoint s' = ss_checkpoint p /\ ss_images s' = map identity images.
Proof.
  intros Hv Hm Hl. unfold session_sync. rewrite Hv, Hm. cbn [negb andb]. unfold session_sync_internal.
  rewrite (proj2 (Z.leb_gt _ 0)), (proj2 (Z.leb_gt (ss_ctx_size s) _)) by lia. cbn [poll]. rewrite Hv.
  rewrite (proj2 (Z.leb_le (zlen (ss_checkpoint s)) _)) by (rewrite zlen_app; pose proof (zlen_nonneg suffix); lia).
  rewrite (proj2 (tokens_starts_with_iff _ _)) by (by eexists). cbn [andb]. rewrite drop_app_length.
  set (s1 := Session _ _ _ _ _ _ _ _ _). destruct (extend_loop_push suffix s1) as (H1 & H2 & H3 & H4). destruct (extend_loop s1 suffix []) as [rc s'].
  cbn [fst snd] in *. subst rc. eexists. split; [done|]. cbn. rewrite H2, H3, H4.
  assert (Hp : forall l (a b : session), ss_cache a = ss_cache b -> ss_checkpoint a = ss_checkpoint b -> ss_logits a = ss_logits b ->
    ss_cache (fold_left session_push l a) = ss_cache (fold_left session_push l b) /\ ss_checkpoint (fold_left session_push l a) = ss_checkpoint (fold_left session_push l b) /\
    ss_logits (fold_left session_push l a) = ss_logits (fold_left session_push l b)).
  { induction l as [|t l IH]; intros a b Ea Eb El; [done|]. cbn [fold_left]. apply IH; unfold session_push; rewrite Ea, Eb; by destruct (forward_token _ _ _). }
  destruct (Hp suffix s1 s) as (E1 & E2 & E3); [done..|]. by split_and!.
Qed.

Lemma moved_identities olds : forall images, (length olds <= length images)%nat ->
  forallb (fun '(i, old) => (sp_token_count i =? vi_token_count old) && bytes_eqb (sp_fingerprint i) (vi_fingerprint old)) (zip (take (length olds) images) olds) = true ->
  map identity (zip_with (fun i old => Span (vi_token_start old) (sp_data i) (sp_token_count i) (sp_fingerprint i)) (take (length olds) images) olds) = olds.
Proof.
  induction olds as [|o olds IH]; intros [|i images]; cbn; intros Hn Ef; try (done || lia). rewrite !andb_true_iff, Z.eqb_eq, bytes_eqb_eq in Ef. destruct Ef as [[E1 E2] Ef].
  rewrite IH by (done || lia). f_equal. unfold identity. cbn. rewrite E1, E2. by destruct o.
Qed.

Definition saved_ok (f : saved Cache Logits) : Prop := holds (sv_ctx_size f) (sv_cache f) (sv_logits f) (sv_tokens f).

Definition sessions_ok (ctxs : list Z) (w : sessions Cache Logits) : Prop :=
  Forall2 (fun ctx s => cache_ok s /\ ss_ctx_size s = ctx) ctxs (es_sessions w) /\ Forall saved_ok (es_saved w).

Lemma alter_ok ctxs (ss : list session) i f : (forall s, s ∈ ss -> cache_ok s -> cache_ok (f s) /\ ss_ctx_size (f s) = ss_ctx_size s) ->
  Forall2 (fun ctx s => cache_ok s /\ ss_ctx_size s = ctx) ctxs ss -> Forall2 (fun ctx s => cache_ok s /\ ss_ctx_size s = ctx) ctxs (alter f i ss).
Proof.
  intros Hf H. apply Forall2_same_length_lookup. split; [by rewrite length_alter; apply (Forall2_length _ _ _ H)|]. intros j ctx s Hc Hs.
  destruct (decide (i = j)) as [->|Hij].
  - rewrite list_lookup_alter_eq in Hs. destruct (ss !! j) as [s0|] eqn:E; [|done]. injection Hs as <-. destruct (Forall2_lookup_lr _ _ _ _ _ _ H Hc E) as [H1 H2].
    destruct (Hf s0 (list_elem_of_lookup_2 _ _ _ E) H1) as [H3 H4]. split; [done|congruence].
  - rewrite list_lookup_alter_ne in Hs by done. by apply (Forall2_lookup_lr _ _ _ _ _ _ H Hc Hs).
Qed.

Lemma save_ok (s : session) f : cache_ok s -> session_save s = Some f -> saved_ok f.
Proof.
  unfold session_save. intros H. destruct (ss_checkpoint_valid s) eqn:Ev; [|done]. destruct (H Ev) as (logits & -> & Hh). cbn. by intros [= <-].
Qed.

Lemma load_ok (s : session) f : saved_ok f -> cache_ok (session_load s f) /\ ss_ctx_size (session_load s f) = ss_ctx_size s.
Proof.
  intros Hf. unfold session_load. destruct (payload_fits _ _ _) eqn:E; [|by split]. split; [|done]. intros _. exists (sv_logits f). split; [done|]. by apply holds_restored.
Qed.

Lemma call_ok ctxs w c : sessions_ok ctxs w -> sessions_ok ctxs (session_call_step e w c).
Proof.
  intros [H1 H2]. destruct c as [i o|i|i k|i cache logits]; cbn [session_call_step].
  - split; [|done]. apply alter_ok; [|done]. intros s _ Hs. by apply step_ok.
  - split; [done|]. cbn [es_saved]. apply Forall_app. split; [done|]. destruct (es_sessions w !! i) as [s|] eqn:E; [|by constructor]. cbn.
    destruct (session_save s) as [f|] eqn:Es; [|by constructor]. destruct (Forall2_lookup_r _ _ _ _ _ H1 E) as (ctx & _ & Hs & _). apply Forall_singleton. by apply (save_ok s).
  - destruct (es_saved w !! k) as [f|] eqn:E; [|done]. split; [|done]. apply alter_ok; [|done]. intros s _ _. apply load_ok. exact (Forall_lookup_1 _ _ _ _ H2 E).
  - split; [|done]. apply alter_ok; [|done]. intros s _ _. by split.
Qed.

Lemma calls_ok ctxs calls : forall w, sessions_ok ctxs w -> sessions_ok ctxs (fold_left (session_call_step e) calls w).
Proof. induction calls as [|c calls IH]; intros w Hw; [done|]. cbn [fold_left]. by apply IH, call_ok. Qed.

(** C14: Whatever callers do to the sessions of an engine - synchronise with text and
    images, interrupted or not, evaluate, rewind, rewrite, invalidate, save, load what
    was saved in the same or another session, or load a file that fails and then
    invalidate, as every caller of a failing load does - while the checkpoint of a
    session is valid its cache and logits are those computed from a fresh cache on
    exactly the checkpoint's tokens, each at its position. *)
Theorem session_cache_exact ctxs (ss : list session) calls : Forall2 (fun ctx s => session_create ctx = Some s) ctxs ss ->
  forall i ctx s, ctxs !! i = Some ctx -> es_sessions (fold_left (session_call_step e) calls (Sessions ss [])) !! i = Some s -> ss_checkpoint_valid s = true ->
  ss_ctx_size s = ctx /\ exists logits, ss_logits s = Some logits /\ holds ctx (ss_cache s) logits (ss_checkpoint s).
Proof.
  intros Hc i ctx s Hi Hs Hv. assert (H0 : sessions_ok ctxs (Sessions ss [])).
  { split; [|by constructor]. apply (Forall2_impl _ _ _ _ Hc). intros c s0 H. by destruct (created_ok _ _ H) as (H1 & H2 & _). }
  destruct (calls_ok ctxs calls _ H0) as [H1 _]. destruct (Forall2_lookup_lr _ _ _ _ _ _ H1 Hi Hs) as [H2 <-]. split; [done|]. by apply H2.
Qed.

(** A synchronisation returns 0 with the prompt as the checkpoint and its
    images' identities, or refuses a prompt that is empty or leaves no room, or
    is interrupted with a part of the prompt that a later call goes on from;
    without an interruption a prompt that fits succeeds. *)
Theorem session_sync_exact ctx s0 ops images prompt cancels : session_create ctx = Some s0 ->
  let s := fold_left (session_step e) ops s0 in let '(rc, s') := session_sync s images prompt cancels in
  sync_result (matched s images) prompt cancels rc s' /\ (rc = 0 -> ss_images s' = map identity images) /\
  (0 < zlen prompt < ctx -> true ∉ cancels -> rc = 0).
Proof.
  intros Hc s. destruct (created_ok _ _ Hc) as (H0 & <- & _). destruct (steps_ok e ops s0 H0) as [H1 H2]. fold s in H1, H2.
  destruct (session_sync s images prompt cancels) as [rc s'] eqn:E. destruct (sync_ok s images prompt cancels rc s' H1 E) as (_ & _ & H3 & H4).
  split; [done|]. split; [done|]. intros Hl Hn. destruct (matched_ok s images H1) as [_ Hx]. inversion H3; subst; try done. exfalso. rewrite Hx, H2 in *. tauto.
Qed.

(** A prompt that goes on from a valid checkpoint with the same images is
    extended in place: only the new tokens are evaluated, in order. *)
Theorem session_sync_reuses (s : session) images suffix : ss_checkpoint_valid s = true -> vision_prefix s images ->
  0 < zlen (ss_checkpoint s ++ suffix) < ss_ctx_size s ->
  exists s', session_sync s images (ss_checkpoint s ++ suffix) [] = (0, s') /\
    let p := fold_left session_push suffix s in
    ss_cache s' = ss_cache p /\ ss_logits s' = ss_logits p /\ ss_checkpoint s' = ss_checkpoint p /\ ss_images s' = map identity images.
Proof. intros Hv Hm. apply sync_reuse; [done | by apply vision_prefix_iff]. Qed.

(** A rewrite succeeds only by extending at the live end; replacing live
    tokens reports that a rebuild is needed, and neither that nor a refusal of
    the arguments changes the session. *)
Theorem rewrite_only_extends (s : session) prompt common cancels r s' : session_rewrite_from_common s prompt common cancels = (r, s') ->
  match r with
  | DS4_SESSION_REWRITE_OK => ss_checkpoint s `prefix_of` prompt /\ common = zlen (ss_checkpoint s) /\ ss_checkpoint_valid s = true /\ session_sync s [] prompt cancels = (0, s')
  | DS4_SESSION_REWRITE_REBUILD_NEEDED => s' = s /\ 0 <= common < zlen (ss_checkpoint s) /\ take (Z.to_nat common) (ss_checkpoint s) = take (Z.to_nat common) prompt
  | DS4_SESSION_REWRITE_ERROR => s' = s \/ ss_checkpoint s `prefix_of` prompt /\ session_sync s [] prompt cancels <> (0, s')
  end.
Proof.
  unfold session_rewrite_from_common. destruct (zlen prompt <=? 0); [intros [= <- <-]; by left|]. destruct (ss_ctx_size s <=? _); [intros [= <- <-]; by left|].
  destruct (ss_checkpoint_valid s) eqn:Ev; [|intros [= <- <-]; by left]. cbn [negb]. destruct (_ || _) eqn:Eb; [intros [= <- <-]; by left|].
  rewrite !orb_false_iff, !Z.ltb_ge in Eb. destruct Eb as [[B1 B2] B3]. destruct (tokens_starts_with _ _) eqn:Ep; [|intros [= <- <-]; by left]. cbn [negb].
  apply tokens_starts_with_iff in Ep. assert (Htake : take (Z.to_nat common) (ss_checkpoint s) = take (Z.to_nat common) prompt).
  { destruct Ep as [k Hk]. pose proof (f_equal length Hk) as Hl. rewrite length_app, !length_take in Hl. unfold zlen in *.
    destruct k; [by rewrite app_nil_r in Hk | cbn in Hl; lia]. }
  destruct (common =? zlen (ss_checkpoint s)) eqn:Ec.
  - apply Z.eqb_eq in Ec. assert (Hpre : ss_checkpoint s `prefix_of` prompt).
    { exists (drop (Z.to_nat common) prompt). rewrite <- (take_ge (ss_checkpoint s) (Z.to_nat common)) by (unfold zlen in *; lia). by rewrite Htake, take_drop. }
    destruct (session_sync s [] prompt cancels) as [rc s1] eqn:Es. destruct (rc =? 0) eqn:E0; intros [= <- <-].
    + apply Z.eqb_eq in E0 as ->. done.
    + apply Z.eqb_neq in E0. right. split; [done|]. congruence.
  - apply Z.eqb_neq in Ec. destruct (rewrite_requires_rebuild _ _ _) eqn:Er; intros [= <- <-]; [|by left]. split; [done|]. split; [lia | done].
Qed.

(** The images of a request match exactly when the session's are the first of
    them, unmoved, and no new one starts before the live end; moving spans to
    where the session has them makes the old ones match. *)
Theorem vision_prefix_exact (s : session) images :
  (session_vision_prefix_matches s images = true <-> vision_prefix s images) /\
  (forall n images', session_rebase_vision_state s images n = Some images' ->
     (forall i, images !! n = Some i -> zlen (ss_checkpoint s) <= sp_token_start i) -> (n <= length images)%nat -> vision_prefix s images').
Proof.
  split; [apply vision_prefix_iff|]. intros n images'. unfold session_rebase_vision_state. destruct (ss_checkpoint_valid s) eqn:Ev; [|done]. cbn [negb orb].
  destruct (n =? length (ss_images s))%nat eqn:En; [|done]. apply Nat.eqb_eq in En. cbn [negb]. destruct (forallb _ _) eqn:Ef; [|done]. cbn [negb].
  intros [= <-] Hnew Hn. subst n. set (moved := zip_with _ _ _). assert (Hlen : length moved = length (ss_images s)) by (unfold moved; rewrite length_zip_with, length_take; lia).
  split; [done|]. split.
  - rewrite <- Hlen at 1. rewrite take_app_length. by apply moved_identities.
  - intros next. rewrite lookup_app_r by lia. rewrite Hlen, Nat.sub_diag, lookup_drop, Nat.add_0_r. apply Hnew.
Qed.
End Properties.

(** ** A concrete backend: the cache lists what was evaluated, with positions. *)
Module Toy.
#[export] Instance kernels : CpuKernels (list (Z * Z)) Z := {|
  kv_cache_init _ := [];
  forward_token c t p := (c ++ [(t, p)], t);
  prefill_layer_major c l := (c ++ imap (fun i t => (t, Z.of_nat i)) l, List.last l 0)
|}.
#[export] Instance format : PayloadFormat (list (Z * Z)) := {|
  payload_fits c0 tokens c := (c0 <=? c) && (zlen tokens <? c);
  payload_restore _ _ cache _ := cache
|}.
Definition en : engine := Engine true DS4_VISION_OTHER 9 100.
Definition s0 : session (list (Z * Z)) Z := Session 32 [] false [] [] None false [] false.
Definition img : ds4_vision_span := Span 2 true 2 [1; 2].
Definition ops : list session_op :=
  [OpSync [5; 6] []; OpSyncMultimodal [5; 6; 9; 9; 7] [img] []; OpEval 8; OpSync [5; 6; 9; 9] []; OpRewind 2; OpSync [5; 6; 7; 8; 9] []; OpEval 10;
   OpRewrite [5; 6; 7; 8; 9; 10; 11] 6 [false; true]].
End Toy.
Import Toy.

(** An interrupted synchronisation keeps the tokens it has read but not the
    identities of their images. *)
Example interrupted_sync_hides_image :
  let '(rc, s) := session_sync_multimodal en (fold_left (session_step en) [OpSync [5; 6] []] Toy.s0) [5; 6; 9; 9; 7; 8] [Toy.img] [false; false; false; true] in
  rc = DS4_SESSION_SYNC_INTERRUPTED /\ ss_checkpoint_valid s = true /\ ss_checkpoint s = [5; 6; 9; 9] /\ session_has_vision_state s = false.
Proof. vm_compute. repeat split; reflexivity. Qed.

(** Two sessions: the second takes what the first has saved and goes on from it. *)
Definition Toy_calls : list (session_call (list (Z * Z)) Z) :=
  map (CallOp 0) Toy.ops ++ [CallSave 0; CallOp 0 (OpSync [1] []); CallLoadFailed 0 [(4, 4)] (Some 3); CallLoad 1 0; CallOp 1 (OpEval 12)].

Lemma session_cache_exact_witness : exists s, es_sessions (fold_left (session_call_step en) Toy_calls (Sessions [Toy.s0; Session 64 [] false [] [] None false [] false] [])) !! 1%nat = Some s /\
  ss_checkpoint s = [5; 6; 7; 8; 9; 10; 12] /\ ss_ctx_size s = 64 /\ exists logits, ss_logits s = Some logits /\ holds 64 (ss_cache s) logits (ss_checkpoint s).
Proof.
  eexists. split; [vm_compute; reflexivity|]. split; [reflexivity|].
  match goal with |- ss_ctx_size ?x = _ /\ _ => apply (session_cache_exact en [32; 64] [Toy.s0; Session 64 [] false [] [] None false [] false] Toy_calls ltac:(by repeat constructor) 1 64 x) end;
    vm_compute; reflexivity.
Defined.

Lemma session_sync_exact_witness : fst (session_sync Toy.s0 [] [1; 2; 3] []) = 0.
Proof.
  pose proof (session_sync_exact en 32 Toy.s0 [] [] [1; 2; 3] [] eq_refl) as H. cbv zeta in H.
  change (fold_left _ [] Toy.s0) with Toy.s0 in H. destruct (session_sync Toy.s0 [] [1; 2; 3] []) as [rc s']. cbn [fst].
  destruct H as (_ & _ & H). apply H; [split; reflexivity | intros Hin; inversion Hin].
Defined.

Definition extended : session (list (Z * Z)) Z := fold_left (session_step en) [OpSync [5; 6] []] Toy.s0.

Lemma session_sync_reuses_witness : exists s', session_sync extended [img] (ss_checkpoint extended ++ [9; 9]) [] = (0, s') /\ ss_checkpoint s' = [5; 6; 9; 9].
Proof.
  destruct (session_sync_reuses extended [img] [9; 9]) as (s' & H & _ & _ & Hc & _).
  - reflexivity.
  - split; [reflexivity|]. split; [reflexivity|]. intros next [= <-]. vm_compute. discriminate.
  - vm_compute. split; reflexivity.
  - exists s'. split; [exact H|]. rewrite Hc. reflexivity.
Defined.

Lemma rewrite_only_extends_witness : let '(r, s') := session_rewrite_from_common extended [5; 7; 8] 1 [] in
  r = DS4_SESSION_REWRITE_REBUILD_NEEDED /\ s' = extended.
Proof.
  pose proof (rewrite_only_extends extended [5; 7; 8] 1 []) as H.
  destruct (session_rewrite_from_common extended [5; 7; 8] 1 []) as [r s'] eqn:E. specialize (H r s' eq_refl).
  vm_compute in E. injection E as <- E'. split; [reflexivity | exact (proj1 H)].
Defined.
