(* ===== verification/Half.v ===== *)
(** * Half precision (ds4.c, scalar conversions)

    The portable conversions between IEEE binary16 and binary32 on their bit
    patterns.  Every row a KV cache keeps has gone through them.  The values of
    the patterns, in units of 2^-149, are the specification: the conversion to
    binary32 is exact, the one to binary16 rounds to nearest, ties to even. *)

From S2P Require Import Prelude.
#[local] Open Scope Z_scope.

(** A subnormal mantissa moved up to its leading bit. *)
Fixpoint normalize (fuel : nat) (exp mant : Z) : Z * Z :=
  match fuel with
  | O => (exp, mant)
  | S fuel' => if Z.land mant 0x0400 =? 0 then normalize fuel' (u32 (exp - 1)) (u32 (Z.shiftl mant 1)) else (exp, mant)
  end.

Definition f16_to_f32 (h : Z) : Z :=
  let sign := Z.shiftl (Z.land h 0x8000) 16 in
  let exp := Z.land (Z.shiftr h 10) 0x1f in
  let mant := Z.land h 0x03ff in
  if exp =? 0 then
    if mant =? 0 then sign
    else
      let '(exp, mant) := normalize 10 1 mant in
      let mant := Z.land mant 0x03ff in
      Z.lor sign (Z.lor (u32 (Z.shiftl (u32 (exp + 127 - 15)) 23)) (Z.shiftl mant 13))
  else if exp =? 31 then Z.lor sign (Z.lor 0x7f800000 (Z.shiftl mant 13))
  else Z.lor sign (Z.lor (Z.shiftl (exp + 127 - 15) 23) (Z.shiftl mant 13)).

Definition f32_to_f16 (bits : Z) : Z :=
  let sign := Z.land (Z.shiftr bits 16) 0x8000 in
  let exp := Z.land (Z.shiftr bits 23) 0xff - 127 + 15 in
  let mant := Z.land bits 0x7fffff in
  if exp <=? 0 then
    if exp <? -10 then sign
    else
      let mant := Z.lor mant 0x800000 in
      let shift := 14 - exp in
      let half_mant := Z.shiftr mant shift in
      let round_bit := Z.land (Z.shiftr mant (shift - 1)) 1 in
      let sticky := Z.land mant (Z.shiftl 1 (shift - 1) - 1) in
      let half_mant := if negb (round_bit =? 0) && (negb (sticky =? 0) || negb (Z.land half_mant 1 =? 0)) then half_mant + 1 else half_mant in
      u16 (Z.lor sign half_mant)
  else if 31 <=? exp then
    if (Z.land (Z.shiftr bits 23) 0xff =? 0xff) && negb (mant =? 0) then Z.lor sign 0x7e00 else Z.lor sign 0x7c00
  else
    let half := Z.lor sign (Z.lor (Z.shiftl exp 10) (Z.shiftr mant 13)) in
    let round := Z.land mant 0x1fff in
    let half := if (0x1000 <? round) || ((round =? 0x1000) && negb (Z.land half 1 =? 0)) then half + 1 else half in
    u16 half.

(** What is stored of a value: [dst[i] = f16_to_f32(f32_to_f16(kv[i]))]. *)
Definition f16_round (bits : Z) : Z := f16_to_f32 (f32_to_f16 bits).

Definition f16_round_inplace_cpu (x : list Z) : list Z := map f16_round x.

(** ** Values, in units of 2^-149 *)

(** The value of a finite binary32 magnitude and of a finite binary16 one. *)
Definition value32 (mag : Z) : Z :=
  let e := mag / 2 ^ 23 in
  if e =? 0 then mag mod 2 ^ 23 else (2 ^ 23 + mag mod 2 ^ 23) * 2 ^ (e - 1).

Definition value16 (mag : Z) : Z :=
  let e := mag / 2 ^ 10 in
  if e =? 0 then mag mod 2 ^ 10 * 2 ^ 125 else (2 ^ 10 + mag mod 2 ^ 10) * 2 ^ (e + 124).

Definition mag32 (bits : Z) : Z := bits mod 2 ^ 31.
Definition mag16 (h : Z) : Z := h mod 2 ^ 15.
Definition F32_INF : Z := 0x7f800000.
Definition F16_INF : Z := 0x7c00.

(** The first magnitude that rounds past the largest finite binary16 number. *)
Definition F16_OVERFLOW : Z := 0x477ff000.

Example f16_to_f32_one : f16_to_f32 0x3c00 = 0x3f800000. Proof. reflexivity. Qed.
Example f16_to_f32_tiny : f16_to_f32 0x8001 = 0xb3800000. Proof. reflexivity. Qed.
Example f32_to_f16_carry : f32_to_f16 0x477ff000 = 0x7c00. Proof. reflexivity. Qed.
Example f32_to_f16_pi : f32_to_f16 0x40490fdb = 0x4248. Proof. reflexivity. Qed.

(** ** Bits as arithmetic *)

Lemma land_low x n : 0 <= n -> Z.land x (2 ^ n - 1) = x mod 2 ^ n.
Proof. intros Hn. by rewrite <- Z.land_ones, Z.ones_equiv by lia. Qed.

Lemma land1 x : Z.land x 1 = x mod 2. Proof. by apply (land_low x 1). Qed.
Lemma land5 x : Z.land x 0x1f = x mod 2 ^ 5. Proof. by apply (land_low x 5). Qed.
Lemma land8 x : Z.land x 0xff = x mod 2 ^ 8. Proof. by apply (land_low x 8). Qed.
Lemma land10 x : Z.land x 0x03ff = x mod 2 ^ 10. Proof. by apply (land_low x 10). Qed.
Lemma land13 x : Z.land x 0x1fff = x mod 2 ^ 13. Proof. by apply (land_low x 13). Qed.
Lemma land23 x : Z.land x 0x7fffff = x mod 2 ^ 23. Proof. by apply (land_low x 23). Qed.

Lemma shiftr_div x n : 0 <= n -> Z.shiftr x n = x / 2 ^ n.
Proof. apply Z.shiftr_div_pow2. Qed.

Lemma lor_add a b n : 0 <= n -> 0 <= a < 2 ^ n -> Z.lor (b * 2 ^ n) a = b * 2 ^ n + a.
Proof. intros Hn Ha. rewrite <- Z.shiftl_mul_pow2, Z.lor_comm, lor_shiftl_add, Z.shiftl_mul_pow2 by lia. lia. Qed.

Lemma land_clear m n : 0 <= n -> 0 <= m < 2 ^ n -> Z.land m (2 ^ n) = 0.
Proof.
  intros Hn Hm. rewrite <- (Z.mod_small m (2 ^ n)) by lia. rewrite <- Z.land_ones, <- Z.land_assoc by lia.
  replace (Z.land (Z.ones n) (2 ^ n)) with 0; [apply Z.land_0_r|]. rewrite Z.land_comm, Z.land_ones by lia. symmetry. apply Z.mod_same. lia.
Qed.

(** The top bit [s] of [s * 2^n + m]. *)
Lemma land_top s m n : 0 <= n -> 0 <= m < 2 ^ n -> s = 0 \/ s = 1 -> Z.land (s * 2 ^ n + m) (2 ^ n) = s * 2 ^ n.
Proof.
  intros Hn Hm [-> | ->]; [by rewrite Z.mul_0_l, Z.add_0_l, land_clear|].
  rewrite Z.mul_1_l, <- (Z.mul_1_l (2 ^ n)) at 1. rewrite <- lor_add, Z.mul_1_l, Z.land_lor_distr_l, Z.land_diag, land_clear by lia.
  apply Z.lor_0_r.
Qed.

Lemma div_top s m n k : 0 <= k <= n -> (s * 2 ^ n + m) / 2 ^ k = s * 2 ^ (n - k) + m / 2 ^ k.
Proof.
  intros Hk. replace (s * 2 ^ n) with (s * 2 ^ (n - k) * 2 ^ k).
  - by rewrite Z.div_add_l by lia.
  - rewrite <- Z.mul_assoc, <- Z.pow_add_r by lia. do 2 f_equal. lia.
Qed.

Lemma mod_top s m n k : 0 <= k <= n -> (s * 2 ^ n + m) mod 2 ^ k = m mod 2 ^ k.
Proof.
  intros Hk. replace (s * 2 ^ n + m) with (m + s * 2 ^ (n - k) * 2 ^ k).
  - by rewrite Z.mod_add by lia.
  - rewrite <- Z.mul_assoc, <- Z.pow_add_r by lia. replace (n - k + k) with n by lia. lia.
Qed.

(** ** From binary16 *)

(** The magnitude of a subnormal. *)
Definition widen_sub (mant : Z) : Z :=
  let '(exp, mant) := normalize 10 1 mant in
  Z.lor (u32 (Z.shiftl (u32 (exp + 127 - 15)) 23)) (Z.shiftl (Z.land mant 0x03ff) 13).

Definition widen (m : Z) : Z :=
  if m / 2 ^ 10 =? 0 then if m =? 0 then 0 else widen_sub m
  else if m / 2 ^ 10 =? 31 then F32_INF + (m - F16_INF) * 2 ^ 13
  else m * 2 ^ 13 + 112 * 2 ^ 23.

Definition widen_sub_ok (m : Z) : bool :=
  (0 <=? widen_sub m) && (widen_sub m <? 0x38800000) && (value32 (widen_sub m) =? m * 2 ^ 125).

Fixpoint from (p : Z -> bool) (n : nat) (i : Z) : bool :=
  match n with O => true | S n' => p i && from p n' (i + 1) end.

Lemma from_spec p n : forall i h, from p n i = true -> i <= h < i + Z.of_nat n -> p h = true.
Proof.
  induction n as [|n IH]; intros i h; cbn [from]; [lia|]. intros [Hi Hn]%andb_true_iff Hh.
  destruct (Z.eq_dec h i) as [->|Hne]; [done|]. apply (IH (i + 1)); [done | lia].
Qed.

Lemma widen_sub_table : from widen_sub_ok 1023 1 = true.
Proof. vm_compute. reflexivity. Qed.

Lemma widen_sub_exact m : 0 < m < 2 ^ 10 -> 0 <= widen_sub m < 0x38800000 /\ value32 (widen_sub m) = m * 2 ^ 125.
Proof.
  intros Hm. pose proof (from_spec _ _ _ m widen_sub_table ltac:(lia)) as H. unfold widen_sub_ok in H.
  rewrite !andb_true_iff, Z.leb_le, Z.ltb_lt, Z.eqb_eq in H. tauto.
Qed.

Lemma widen_range m : 0 <= m < 2 ^ 15 -> 0 <= widen m < 2 ^ 31.
Proof.
  intros Hm. unfold widen. unfold F32_INF, F16_INF in *. destruct (Z.eqb_spec (m / 2 ^ 10) 0) as [E|E].
  - destruct (Z.eqb_spec m 0) as [->|Hne]; [lia|]. pose proof (widen_sub_exact m ltac:(zdiv)) as [H _]. lia.
  - destruct (Z.eqb_spec (m / 2 ^ 10) 31); zdiv.
Qed.

Lemma f16_to_f32_widen s m : s = 0 \/ s = 1 -> 0 <= m < 2 ^ 15 -> f16_to_f32 (s * 2 ^ 15 + m) = s * 2 ^ 31 + widen m.
Proof.
  intros Hs Hm. pose proof (widen_range m Hm) as Hr. unfold f16_to_f32. cbv zeta.
  change 0x8000 with (2 ^ 15). rewrite land_top, land10, land5, !shiftr_div, div_top, !mod_top by lia.
  rewrite Z.shiftl_mul_pow2, <- Z.mul_assoc by lia. change (2 ^ 15 * 2 ^ 16) with (2 ^ 31).
  assert (He : (m / 2 ^ 10) mod 2 ^ 5 = m / 2 ^ 10) by zdiv. rewrite He.
  unfold widen in *. unfold F32_INF, F16_INF in *.
  destruct (Z.eqb_spec (m / 2 ^ 10) 0) as [E|E].
  - replace (m mod 2 ^ 10) with m by zdiv. destruct (m =? 0); [lia|]. unfold widen_sub in *.
    destruct (normalize 10 1 m) as [exp mant]. by rewrite lor_add by lia.
  - destruct (Z.eqb_spec (m / 2 ^ 10) 31) as [E'|E'].
    + rewrite Z.shiftl_mul_pow2 by lia. change 2139095040 with (255 * 2 ^ 23) in *. rewrite (lor_add _ 255 23) by zdiv.
      rewrite lor_add by zdiv. zdiv.
    + rewrite !Z.shiftl_mul_pow2 by lia. rewrite (lor_add _ _ 23) by zdiv. rewrite lor_add by zdiv. zdiv.
Qed.

(** ** Rounding to nearest, ties to even *)

Definition rne (n s : Z) : Z :=
  n / 2 ^ s + (if (2 ^ (s - 1) <? n mod 2 ^ s) || ((n mod 2 ^ s =? 2 ^ (s - 1)) && Z.odd (n / 2 ^ s)) then 1 else 0).

Lemma pow_pred s : 1 <= s -> 2 ^ s = 2 * 2 ^ (s - 1).
Proof. intros Hs. rewrite <- Z.pow_succ_r by lia. f_equal. lia. Qed.

Lemma rne_nearest n s q : 1 <= s -> q <> rne n s ->
  Z.abs (rne n s * 2 ^ s - n) < Z.abs (q * 2 ^ s - n) \/
  Z.abs (rne n s * 2 ^ s - n) = Z.abs (q * 2 ^ s - n) /\ Z.even (rne n s) = true.
Proof.
  intros Hs. unfold rne. pose proof (pow_pred s Hs) as Hp. pose proof (Z.pow_pos_nonneg 2 (s - 1) ltac:(lia) ltac:(lia)) as Hp0.
  pose proof (Z.div_mod n (2 ^ s) ltac:(lia)) as Hd. pose proof (Z.mod_pos_bound n (2 ^ s) ltac:(lia)) as Hr.
  set (d := n / 2 ^ s) in *. set (r := n mod 2 ^ s) in *. set (h := 2 ^ (s - 1)) in *. rewrite Hp in *. clearbody d r h.
  assert (Hq : q <= d - 1 \/ q = d \/ q = d + 1 \/ d + 2 <= q) by lia.
  destruct (Z.ltb_spec h r), (Z.eqb_spec r h); cbn [orb andb]; try lia.
  - intros Hne. left. destruct Hq as [|[->|[->|]]]; try lia; nia.
  - destruct (Z.odd d) eqn:Eo.
    + intros Hne. destruct Hq as [|[->|[->|]]]; [left; nia| |lia|left; nia]. right. rewrite Z.even_add, <- Z.negb_odd, Eo. split; [lia|done].
    + rewrite Z.add_0_r. intros Hne. destruct Hq as [|[->|[->|]]]; [left; nia|lia| |left; nia].
      right. rewrite <- Z.negb_odd, Eo. split; [lia|done].
  - rewrite Z.add_0_r. intros Hne. left. destruct Hq as [|[->|[->|]]]; try lia; nia.
Qed.

(** The magnitude of the result. *)
Definition narrow (b : Z) : Z :=
  let exp := b / 2 ^ 23 - 112 in
  if exp <=? 0 then if exp <? -10 then 0 else rne (2 ^ 23 + b mod 2 ^ 23) (14 - exp)
  else if 31 <=? exp then if F32_INF <? b then 0x7e00 else F16_INF
  else rne (b - 112 * 2 ^ 23) 13.

Lemma rne_range n s : 0 <= s -> 0 <= n -> 0 <= n / 2 ^ s <= rne n s /\ rne n s <= n / 2 ^ s + 1.
Proof. intros Hs Hn. unfold rne. pose proof (Z.div_pos n (2 ^ s) Hn ltac:(lia)). destruct (_ || _); lia. Qed.

Lemma narrow_range b : 0 <= b < 2 ^ 31 -> 0 <= narrow b < 2 ^ 15.
Proof.
  intros Hb. unfold narrow, F32_INF, F16_INF. cbv zeta.
  destruct (Z.leb_spec (b / 2 ^ 23 - 112) 0) as [H1|H1].
  - destruct (Z.ltb_spec (b / 2 ^ 23 - 112) (-10)); [lia|].
    pose proof (rne_range (2 ^ 23 + b mod 2 ^ 23) (14 - (b / 2 ^ 23 - 112)) ltac:(lia) ltac:(zdiv)).
    assert ((2 ^ 23 + b mod 2 ^ 23) / 2 ^ (14 - (b / 2 ^ 23 - 112)) <= 2 ^ 10); [|lia].
    pose proof (Z.pow_le_mono_r 2 14 (14 - (b / 2 ^ 23 - 112)) ltac:(lia) ltac:(lia)).
    apply Z.div_le_upper_bound; [lia|]. change (2 ^ 14) with 16384 in *. pose proof (Z.mod_pos_bound b (2 ^ 23) ltac:(lia)). lia.
  - destruct (Z.leb_spec 31 (b / 2 ^ 23 - 112)); [destruct (_ <? _); lia|].
    pose proof (rne_range (b - 112 * 2 ^ 23) 13 ltac:(lia) ltac:(zdiv)). zdiv.
Qed.

(** The round bit and the sticky bits decide as the remainder does. *)
Lemma round_bits n s : 1 <= s -> 0 <= n ->
  negb (Z.land (Z.shiftr n (s - 1)) 1 =? 0) && (negb (Z.land n (Z.shiftl 1 (s - 1) - 1) =? 0) || negb (Z.land (Z.shiftr n s) 1 =? 0)) =
  (2 ^ (s - 1) <? n mod 2 ^ s) || ((n mod 2 ^ s =? 2 ^ (s - 1)) && Z.odd (n / 2 ^ s)).
Proof.
  intros Hs Hn. rewrite Z.shiftl_1_l, land_low, !shiftr_div by lia. rewrite !land1, (Zmod_odd (n / 2 ^ s)).
  pose proof (pow_pred s Hs) as Hp. pose proof (Z.pow_pos_nonneg 2 (s - 1) ltac:(lia) ltac:(lia)) as Hp0.
  rewrite Hp, (Z.mul_comm 2), Z.rem_mul_r by lia. set (h := 2 ^ (s - 1)) in *. clearbody h.
  pose proof (Z.mod_pos_bound n h ltac:(lia)). pose proof (Z.mod_pos_bound (n / h) 2 ltac:(lia)).
  assert ((n / h) mod 2 = 0 \/ (n / h) mod 2 = 1) as [-> | ->] by lia;
    destruct (Z.odd _), (Z.eqb_spec (n mod h) 0); repeat case_bool_decide; cbn; 
    repeat match goal with |- context [?a <? ?b] => destruct (Z.ltb_spec a b) | |- context [?a =? ?b] => destruct (Z.eqb_spec a b) end; lia || done.
Qed.

Lemma f32_to_f16_narrow s b : s = 0 \/ s = 1 -> 0 <= b < 2 ^ 31 -> f32_to_f16 (s * 2 ^ 31 + b) = s * 2 ^ 15 + narrow b.
Proof.
  intros Hs Hb. pose proof (narrow_range b Hb) as Hr. unfold f32_to_f16. cbv zeta.
  change 0x8000 with (2 ^ 15). rewrite land23, land8, !shiftr_div, !div_top by lia.
  rewrite land_top by (try done; zdiv). rewrite !mod_top by lia.
  assert (He : (b / 2 ^ 23) mod 2 ^ 8 = b / 2 ^ 23) by zdiv. rewrite He.
  replace (b / 2 ^ 23 - 127 + 15) with (b / 2 ^ 23 - 112) by lia. unfold narrow in *. cbv zeta in Hr. change (31 - 16) with 15.
  destruct (Z.leb_spec (b / 2 ^ 23 - 112) 0) as [H1|H1]; [destruct (Z.ltb_spec (b / 2 ^ 23 - 112) (-10)) as [H2|H2]; [by rewrite Z.add_0_r|]|].
  - change 0x800000 with (1 * 2 ^ 23). rewrite (Z.lor_comm (b mod 2 ^ 23)), (lor_add _ 1 23), Z.mul_1_l by (try apply Z.mod_pos_bound; lia).
    set (t := 14 - (b / 2 ^ 23 - 112)) in *. set (n := 2 ^ 23 + b mod 2 ^ 23) in *.
    assert (Hn0 : 0 <= n) by (pose proof (Z.mod_pos_bound b (2 ^ 23) ltac:(lia)); unfold n; lia). assert (Ht : 1 <= t) by (unfold t; lia).
    rewrite round_bits by done.
    assert (Hn : (if (2 ^ (t - 1) <? n mod 2 ^ t) || (n mod 2 ^ t =? 2 ^ (t - 1)) && Z.odd (n / 2 ^ t)
                  then Z.shiftr n t + 1 else Z.shiftr n t) = rne n t).
    { unfold rne. rewrite shiftr_div by lia. destruct (_ || _); lia. }
    rewrite Hn, lor_add by lia. apply Z.mod_small. destruct Hs as [-> | ->]; lia.
  - destruct (Z.leb_spec 31 (b / 2 ^ 23 - 112)) as [H2|H2].
    + assert (Hc : (b / 2 ^ 23 =? 255) && negb (b mod 2 ^ 23 =? 0) = (F32_INF <? b)).
      { unfold F32_INF. destruct (Z.eqb_spec (b / 2 ^ 23) 255), (Z.eqb_spec (b mod 2 ^ 23) 0), (Z.ltb_spec 2139095040 b); cbn; zdiv || done. }
      rewrite Hc. unfold F16_INF. destruct (_ <? _); by rewrite lor_add by lia.
    + assert (Hl : 0 <= b mod 2 ^ 23 / 2 ^ 13 < 2 ^ 10) by (clear; zdiv). assert (Hu : (b / 2 ^ 23 - 112) * 2 ^ 10 + b mod 2 ^ 23 / 2 ^ 13 < 2 ^ 15) by lia.
      rewrite Z.shiftl_mul_pow2, (shiftr_div _ 13), (lor_add _ _ 10), lor_add by lia. rewrite land13, land1.
      set (n := b - 112 * 2 ^ 23) in *.
      assert (Hq : (b / 2 ^ 23 - 112) * 2 ^ 10 + b mod 2 ^ 23 / 2 ^ 13 = n / 2 ^ 13) by (unfold n; zdiv). rewrite Hq.
      assert (Hm : (b mod 2 ^ 23) mod 2 ^ 13 = n mod 2 ^ 13) by (unfold n; zdiv). rewrite Hm.
      assert (Ho : (s * 2 ^ 15 + n / 2 ^ 13) mod 2 = if Z.odd (n / 2 ^ 13) then 1 else 0) by (rewrite <- Zmod_odd; destruct Hs as [-> | ->]; zdiv).
      rewrite Ho. unfold rne in *. change (2 ^ (13 - 1)) with 4096 in *.
      replace (negb ((if Z.odd (n / 2 ^ 13) then 1 else 0) =? 0)) with (Z.odd (n / 2 ^ 13)) by (by destruct (Z.odd _)).
      destruct (_ || _); unfold u16; rewrite Z.mod_small; destruct Hs as [-> | ->]; lia.
Qed.

(** ** The values of binary16 *)

Lemma value16_cell e q : 1 <= e -> 0 <= q <= 2 ^ 11 -> 2 ^ 10 <= q \/ e = 1 -> value16 ((e - 1) * 2 ^ 10 + q) = q * 2 ^ (e + 124).
Proof.
  intros He Hq Hl. unfold value16. assert (Hc : q < 2 ^ 10 /\ e = 1 \/ 2 ^ 10 <= q < 2 ^ 11 \/ q = 2 ^ 11) by lia.
  destruct Hc as [[Hc ->]|[Hc | ->]].
  - replace (((1 - 1) * 2 ^ 10 + q) / 2 ^ 10) with 0 by zdiv. cbn [Z.eqb]. rewrite Z.mod_small by lia. done.
  - replace (((e - 1) * 2 ^ 10 + q) / 2 ^ 10) with e by (clear Hl; zdiv). replace (((e - 1) * 2 ^ 10 + q) mod 2 ^ 10) with (q - 2 ^ 10) by (clear Hl; zdiv).
    destruct (Z.eqb_spec e 0); [lia|]. f_equal. lia.
  - replace (((e - 1) * 2 ^ 10 + 2 ^ 11) / 2 ^ 10) with (e + 1) by zdiv. replace (((e - 1) * 2 ^ 10 + 2 ^ 11) mod 2 ^ 10) with 0 by zdiv.
    destruct (Z.eqb_spec (e + 1) 0); [lia|]. replace (e + 1 + 124) with (Z.succ (e + 124)) by lia. rewrite Z.pow_succ_r by lia. lia.
Qed.

Lemma value16_cells h : 0 <= h -> exists e q, 1 <= e /\ 0 <= q < 2 ^ 11 /\ (2 ^ 10 <= q \/ e = 1) /\ h = (e - 1) * 2 ^ 10 + q.
Proof.
  intros Hh. exists (Z.max 1 (h / 2 ^ 10)), (h - (Z.max 1 (h / 2 ^ 10) - 1) * 2 ^ 10).
  pose proof (Z.div_mod h (2 ^ 10) ltac:(lia)). pose proof (Z.mod_pos_bound h (2 ^ 10) ltac:(lia)).
  pose proof (Z.div_pos h (2 ^ 10) ltac:(lia) ltac:(lia)). split_and!; lia.
Qed.

(** Over a lattice of step [2^(e+124)]: on it, or under its binades. *)
Lemma value16_lattice e h : 1 <= e -> 0 <= h ->
  (exists q, value16 h = q * 2 ^ (e + 124)) \/ e <> 1 /\ value16 h < 2 ^ 10 * 2 ^ (e + 124).
Proof.
  intros He Hh. destruct (value16_cells h Hh) as (e' & q & He' & Hq & Hl & ->). rewrite value16_cell by lia.
  destruct (Z.le_gt_cases e e') as [Hle|Hgt].
  - left. exists (q * 2 ^ (e' - e)). rewrite <- Z.mul_assoc, <- Z.pow_add_r by lia. do 2 f_equal. lia.
  - right. split; [lia|]. replace (e + 124) with (Z.succ (e' + 124) + (e - e' - 1)) by lia. rewrite (Z.pow_add_r 2 (Z.succ _)), Z.pow_succ_r by lia.
    pose proof (Z.pow_pos_nonneg 2 (e' + 124) ltac:(lia) ltac:(lia)). pose proof (Z.pow_pos_nonneg 2 (e - e' - 1) ltac:(lia) ltac:(lia)). nia.
Qed.

Lemma value16_increasing a b : 0 <= a < b -> value16 a < value16 b.
Proof.
  intros Hab. destruct (value16_cells a) as (e & q & He & Hq & Hl & ->); [lia|].
  destruct (value16_cells b) as (e' & q' & He' & Hq' & Hl' & ->); [lia|]. rewrite !value16_cell by lia.
  pose proof (Z.pow_pos_nonneg 2 (e + 124) ltac:(lia) ltac:(lia)).
  destruct (Z.lt_trichotomy e e') as [Hlt|[->|Hgt]]; [|apply Z.mul_lt_mono_pos_r; lia|lia].
  replace (e' + 124) with (Z.succ (e + 124) + (e' - e - 1)) by lia. rewrite (Z.pow_add_r 2 (Z.succ _)), Z.pow_succ_r by lia.
  pose proof (Z.pow_pos_nonneg 2 (e' - e - 1) ltac:(lia) ltac:(lia)) as HR. set (P := 2 ^ (e + 124)) in *. set (R := 2 ^ (e' - e - 1)) in *.
  clearbody P R. apply Z.lt_le_trans with (2 ^ 11 * P); [apply Z.mul_lt_mono_pos_r; lia|].
  transitivity (2 ^ 11 * P * R); [nia|]. transitivity (2 ^ 10 * (2 * P * R)); [lia|]. apply Z.mul_le_mono_nonneg_r; nia.
Qed.

Lemma value16_inj a b : 0 <= a -> 0 <= b -> value16 a = value16 b -> a = b.
Proof.
  intros Ha Hb H. destruct (Z.lt_trichotomy a b) as [Hl|[?|Hl]]; [|done|].
  - pose proof (value16_increasing a b). lia.
  - pose proof (value16_increasing b a). lia.
Qed.

(** [h] is nearest to [v] of the finite magnitudes, the even one of two. *)
Definition nearest16 (v h : Z) : Prop :=
  forall h', 0 <= h' < F16_INF -> h' <> h ->
    Z.abs (value16 h - v) < Z.abs (value16 h' - v) \/
    Z.abs (value16 h - v) = Z.abs (value16 h' - v) /\ Z.even h = true.

Lemma abs_scale a b k : 0 <= k -> Z.abs (a * k - b * k) = Z.abs (a - b) * k.
Proof. intros Hk. rewrite <- Z.mul_sub_distr_r, Z.abs_mul. f_equal. lia. Qed.

Lemma nearest_core e t k n h : 1 <= e -> 1 <= t -> 0 <= k -> t + k = e + 124 -> 0 <= h ->
  value16 h = rne n t * 2 ^ (e + 124) -> Z.even h = Z.even (rne n t) -> 2 ^ 10 * 2 ^ t <= n \/ e = 1 -> nearest16 (n * 2 ^ k) h.
Proof.
  intros He Ht Hk Htk Hh Hv Hp Hb h' Hh' Hne. rewrite Hp. rewrite <- Htk, Z.pow_add_r, Z.mul_assoc in Hv by lia.
  pose proof (Z.pow_pos_nonneg 2 k ltac:(lia) ltac:(lia)) as Hk0. pose proof (Z.pow_pos_nonneg 2 t ltac:(lia) ltac:(lia)) as Ht0.
  rewrite Hv, abs_scale by lia.
  destruct (value16_lattice e h' He ltac:(lia)) as [[q Hq]|[He1 Hlt]].
  - rewrite <- Htk, Z.pow_add_r, Z.mul_assoc in Hq by lia. rewrite Hq, abs_scale by lia.
    assert (Hqn : q <> rne n t) by (intros ->; apply Hne, value16_inj; [lia | lia | congruence]).
    destruct (rne_nearest n t q Ht Hqn) as [H|[H1 H2]]; [left; nia | right; split; [nia | done]].
  - destruct Hb as [Hb|?]; [|done]. rewrite <- Htk, Z.pow_add_r, Z.mul_assoc in Hlt by lia. left.
    assert (Hle : Z.abs (rne n t * 2 ^ t - n) <= Z.abs (2 ^ 10 * 2 ^ t - n)).
    { destruct (Z.eq_dec (2 ^ 10) (rne n t)) as [<-|Hn]; [lia|]. destruct (rne_nearest n t _ Ht Hn); lia. }
    set (x := value16 h') in *. clearbody x. set (w := 2 ^ 10 * 2 ^ t) in *. clearbody w. set (r := rne n t * 2 ^ t) in *. clearbody r.
    rewrite (Z.abs_neq (w - n)) in Hle by lia. rewrite (Z.abs_neq (x - _)) by nia. nia.
Qed.

(** ** The result is nearest *)

Lemma rne_shift a n s : 1 <= s -> rne (a * 2 ^ (s + 1) + n) s = a * 2 + rne n s.
Proof.
  intros Hs. unfold rne. replace (a * 2 ^ (s + 1) + n) with (n + (a * 2) * 2 ^ s) by (rewrite Z.pow_add_r by lia; lia).
  rewrite Z.mod_add, Z.div_add by lia. rewrite Z.odd_add, Z.odd_mul, andb_false_r, xorb_false_r. destruct (_ || _); lia.
Qed.

Lemma narrow_tiny b : 0 <= b -> b / 2 ^ 23 - 112 < -10 -> nearest16 (value32 b) 0.
Proof.
  intros Hb He h' Hh' Hne. left. change (value16 0) with 0.
  assert (Hv : 0 <= value32 b < 2 ^ 124).
  { unfold value32. pose proof (Z.mod_pos_bound b (2 ^ 23) ltac:(lia)). destruct (Z.eqb_spec (b / 2 ^ 23) 0); [lia|].
    assert (0 <= b / 2 ^ 23) by (apply Z.div_pos; lia).
    set (x := b / 2 ^ 23) in *. clearbody x. pose proof (Z.pow_le_mono_r 2 (x - 1) 100 ltac:(lia) ltac:(lia)). pose proof (Z.pow_pos_nonneg 2 (x - 1) ltac:(lia) ltac:(lia)).
    split; [nia|]. apply Z.lt_le_trans with (2 ^ 24 * 2 ^ (x - 1)); [nia|]. change (2 ^ 124) with (2 ^ 24 * 2 ^ 100). nia. }
  assert (2 ^ 125 <= value16 h').
  { change (2 ^ 125) with (value16 1). destruct (Z.eq_dec h' 1) as [->|]; [lia|]. pose proof (value16_increasing 1 h'). lia. }
  lia.
Qed.

Lemma rne_top n : 2 ^ 23 <= n < 2 ^ 24 -> 2 ^ 10 <= rne n 13 <= 2 ^ 11 /\ (rne n 13 = 2 ^ 11 -> 2 ^ 24 - 2 ^ 12 <= n).
Proof.
  intros Hn. unfold rne. change (2 ^ (13 - 1)) with (2 ^ 12).
  assert (2 ^ 10 <= n / 2 ^ 13 < 2 ^ 11) by zdiv. pose proof (Z.div_mod n (2 ^ 13)).
  destruct (Z.ltb_spec (2 ^ 12) (n mod 2 ^ 13)), (Z.eqb_spec (n mod 2 ^ 13) (2 ^ 12)); cbn [orb andb]; try destruct (Z.odd _); lia.
Qed.

Lemma narrow_nearest b : 0 <= b < F16_OVERFLOW -> narrow b < F16_INF /\ nearest16 (value32 b) (narrow b).
Proof.
  intros Hb. unfold F16_OVERFLOW in Hb. unfold narrow. cbv zeta. set (e := b / 2 ^ 23 - 112).
  assert (HE : 0 <= b / 2 ^ 23) by (apply Z.div_pos; lia). pose proof (Z.mod_pos_bound b (2 ^ 23) ltac:(lia)) as HM.
  assert (Hd : b = (e + 112) * 2 ^ 23 + b mod 2 ^ 23) by (unfold e; pose proof (Z.div_mod b (2 ^ 23)); lia).
  assert (Hv : e <> -112 -> value32 b = (2 ^ 23 + b mod 2 ^ 23) * 2 ^ (e + 111)).
  { intros Hne. unfold value32. destruct (Z.eqb_spec (b / 2 ^ 23) 0); [lia|]. do 2 f_equal. lia. }
  destruct (Z.leb_spec e 0) as [H1|H1]; [destruct (Z.ltb_spec e (-10)) as [H2|H2]|].
  - split; [done | apply narrow_tiny; lia].
  - rewrite Hv by lia. set (n := 2 ^ 23 + b mod 2 ^ 23) in *.
    assert (Hr : 0 <= rne n (14 - e) <= 2 ^ 10).
    { pose proof (rne_range n (14 - e) ltac:(lia) ltac:(lia)). assert (n / 2 ^ (14 - e) < 2 ^ 10); [|lia].
      pose proof (Z.pow_le_mono_r 2 14 (14 - e) ltac:(lia) ltac:(lia)). apply Z.div_lt_upper_bound; lia. }
    split; [unfold F16_INF; lia|]. apply (nearest_core 1 (14 - e)); try lia.
    { apply (value16_cell 1 (rne n (14 - e))); lia. } done.
  - destruct (Z.leb_spec 31 e) as [H2|H2]; [lia|]. rewrite Hv by lia.
    replace (b - 112 * 2 ^ 23) with ((e - 1) * 2 ^ 9 * 2 ^ (13 + 1) + (2 ^ 23 + b mod 2 ^ 23)) by lia. rewrite rne_shift by lia.
    set (n := 2 ^ 23 + b mod 2 ^ 23) in *.
    pose proof (rne_top n ltac:(lia)) as Hr.
    destruct Hr as [Hr Ht]. replace ((e - 1) * 2 ^ 9 * 2 + rne n 13) with ((e - 1) * 2 ^ 10 + rne n 13) by lia. split.
    + unfold F16_INF. destruct (Z.eq_dec (rne n 13) (2 ^ 11)) as [E|E]; [specialize (Ht E)|]; lia.
    + apply (nearest_core e 13); try lia; [apply value16_cell; lia|].
      rewrite Z.even_add, Z.even_mul. change (Z.even (2 ^ 10)) with true. by rewrite orb_true_r; destruct (Z.even _).
Qed.

Lemma narrow_overflow b : F16_OVERFLOW <= b <= F32_INF -> narrow b = F16_INF.
Proof.
  unfold F16_OVERFLOW, F32_INF. intros Hb. unfold narrow, F32_INF, F16_INF. cbv zeta.
  destruct (Z.leb_spec (b / 2 ^ 23 - 112) 0); [zdiv|]. destruct (Z.leb_spec 31 (b / 2 ^ 23 - 112)) as [H2|H2].
  - destruct (Z.ltb_spec 2139095040 b); [lia|done].
  - unfold rne. change (2 ^ (13 - 1)) with (2 ^ 12).
    destruct (Z.ltb_spec (2 ^ 12) ((b - 112 * 2 ^ 23) mod 2 ^ 13)), (Z.eqb_spec ((b - 112 * 2 ^ 23) mod 2 ^ 13) (2 ^ 12)); cbn [orb andb]; try zdiv.
    replace ((b - 112 * 2 ^ 23) / 2 ^ 13) with 0x7bff by zdiv. done.
Qed.

Lemma narrow_nan b : F32_INF < b < 2 ^ 31 -> narrow b = 0x7e00.
Proof.
  unfold F32_INF. intros Hb. unfold narrow, F32_INF. cbv zeta.
  destruct (Z.leb_spec (b / 2 ^ 23 - 112) 0); [zdiv|]. destruct (Z.leb_spec 31 (b / 2 ^ 23 - 112)); [|zdiv].
  by rewrite (proj2 (Z.ltb_lt 2139095040 b)) by lia.
Qed.

(** ** The conversions *)

Lemma split_top x n : 0 <= n -> 0 <= x < 2 ^ (n + 1) -> (x / 2 ^ n = 0 \/ x / 2 ^ n = 1) /\ 0 <= x mod 2 ^ n < 2 ^ n /\ x = x / 2 ^ n * 2 ^ n + x mod 2 ^ n.
Proof.
  intros Hn Hx. pose proof (Z.pow_pos_nonneg 2 n ltac:(lia) ltac:(lia)). rewrite Z.pow_add_r in Hx by lia.
  pose proof (Z.div_lt_upper_bound x (2 ^ n) 2 ltac:(lia) ltac:(lia)). pose proof (Z.div_pos x (2 ^ n) ltac:(lia) ltac:(lia)).
  pose proof (Z.mod_pos_bound x (2 ^ n) ltac:(lia)). pose proof (Z.div_mod x (2 ^ n) ltac:(lia)). split_and!; lia.
Qed.

Lemma top_parts s m n : 0 <= n -> 0 <= m < 2 ^ n -> (s * 2 ^ n + m) / 2 ^ n = s /\ (s * 2 ^ n + m) mod 2 ^ n = m.
Proof.
  intros Hn Hm. pose proof (Z.pow_pos_nonneg 2 n ltac:(lia) ltac:(lia)). rewrite Z.div_add_l, Z.div_small by lia.
  split; [lia|]. rewrite Z.add_comm, Z.mod_add, Z.mod_small by lia. done.
Qed.

Lemma f32_to_f16_split bits : is_u32 bits ->
  f32_to_f16 bits / 2 ^ 15 = bits / 2 ^ 31 /\ mag16 (f32_to_f16 bits) = narrow (mag32 bits) /\ 0 <= mag32 bits < 2 ^ 31.
Proof.
  intros Hb. unfold is_u32, U32_MAX in Hb. destruct (split_top bits 31) as (Hs & Hm & He); [lia..|]. unfold mag32, mag16.
  rewrite He at 1 3. rewrite f32_to_f16_narrow by done. pose proof (narrow_range _ Hm). destruct (top_parts (bits / 2 ^ 31) (narrow (bits mod 2 ^ 31)) 15); [lia..|]. done.
Qed.

Lemma f16_to_f32_split h : 0 <= h < 2 ^ 16 ->
  f16_to_f32 h / 2 ^ 31 = h / 2 ^ 15 /\ mag32 (f16_to_f32 h) = widen (mag16 h) /\ is_u32 (f16_to_f32 h) /\ 0 <= mag16 h < 2 ^ 15.
Proof.
  intros Hh. destruct (split_top h 15) as (Hs & Hm & He); [lia..|]. unfold mag32, mag16, is_u32, U32_MAX.
  rewrite He at 1 3 5 6. rewrite f16_to_f32_widen by done. pose proof (widen_range _ Hm).
  destruct (top_parts (h / 2 ^ 15) (widen (h mod 2 ^ 15)) 31); [lia..|]. split_and!; try done; lia.
Qed.

Lemma widen_value m : 0 <= m < F16_INF -> value32 (widen m) = value16 m /\ 0 <= widen m < F16_OVERFLOW.
Proof.
  unfold F16_INF, F16_OVERFLOW. intros Hm. unfold widen, value16. destruct (Z.eqb_spec (m / 2 ^ 10) 0) as [E|E].
  - replace (m mod 2 ^ 10) with m by zdiv. destruct (Z.eqb_spec m 0) as [->|Hne]; [done|].
    destruct (widen_sub_exact m ltac:(zdiv)). lia.
  - destruct (Z.eqb_spec (m / 2 ^ 10) 31); [zdiv|]. split; [|zdiv]. unfold value32.
    replace ((m * 2 ^ 13 + 112 * 2 ^ 23) / 2 ^ 23) with (m / 2 ^ 10 + 112) by zdiv.
    replace ((m * 2 ^ 13 + 112 * 2 ^ 23) mod 2 ^ 23) with (m mod 2 ^ 10 * 2 ^ 13) by zdiv.
    assert (0 < m / 2 ^ 10) by zdiv. destruct (Z.eqb_spec (m / 2 ^ 10 + 112) 0); [lia|].
    replace (m / 2 ^ 10 + 124) with (13 + (m / 2 ^ 10 + 112 - 1)) by lia. rewrite Z.pow_add_r by lia. lia.
Qed.

Lemma nearest_unique m n : 0 <= m < F16_INF -> 0 <= n -> nearest16 (value16 m) n -> n = m.
Proof.
  intros Hm Hn H. destruct (Z.eq_dec m n) as [|Hne]; [done|].
  assert (Hv : value16 n = value16 m) by (destruct (H m Hm Hne) as [H'|[H' _]]; rewrite Z.sub_diag in H'; lia).
  apply value16_inj in Hv; lia.
Qed.

Lemma narrow_widen m : 0 <= m < F16_INF -> narrow (widen m) = m.
Proof.
  intros Hm. destruct (widen_value m Hm) as [Hv Hw]. destruct (narrow_nearest _ Hw) as [_ H]. rewrite Hv in H.
  apply nearest_unique; [done | | done]. apply narrow_range. unfold F16_OVERFLOW in Hw. lia.
Qed.

Lemma widen_inf m : F16_INF <= m < 2 ^ 15 -> widen m = F32_INF + (m - F16_INF) * 2 ^ 13.
Proof.
  unfold F16_INF. intros Hm. unfold widen, F16_INF. destruct (Z.eqb_spec (m / 2 ^ 10) 0); [zdiv|].
  destruct (Z.eqb_spec (m / 2 ^ 10) 31); [done|zdiv].
Qed.

Lemma f32_to_f16_to_f32 h : 0 <= h < 2 ^ 16 -> f32_to_f16 (f16_to_f32 h) = h / 2 ^ 15 * 2 ^ 15 + narrow (widen (mag16 h)).
Proof.
  intros Hh. destruct (f16_to_f32_split h Hh) as (Hs & Hm & Hu & Hr). destruct (f32_to_f16_split _ Hu) as (Hs' & Hm' & Hr').
  rewrite Hs in Hs'. rewrite Hm in Hm'. rewrite <- Hs', <- Hm'. unfold mag16. pose proof (Z.div_mod (f32_to_f16 (f16_to_f32 h)) (2 ^ 15)). lia.
Qed.

Lemma f32_to_f16_range bits : is_u32 bits -> 0 <= f32_to_f16 bits < 2 ^ 16.
Proof.
  intros Hb. destruct (f32_to_f16_split _ Hb) as (Hs & Hm & Hr). unfold mag16 in Hm. unfold is_u32, U32_MAX in Hb.
  destruct (split_top bits 31) as ([Ht|Ht] & _ & _); [lia..| |]; rewrite Ht in Hs; pose proof (Z.div_mod (f32_to_f16 bits) (2 ^ 15));
    pose proof (Z.mod_pos_bound (f32_to_f16 bits) (2 ^ 15)); lia.
Qed.

Lemma f16_round_twice b : is_u32 b -> f16_round (f16_round b) = f16_round b.
Proof.
  intros Hb. unfold f16_round. f_equal. pose proof (f32_to_f16_range b Hb) as Hh. rewrite f32_to_f16_to_f32 by done.
  destruct (f32_to_f16_split _ Hb) as (Hs & Hm & Hr). unfold mag16 in *. pose proof (Z.div_mod (f32_to_f16 b) (2 ^ 15)) as Hd.
  assert (Hi : narrow (widen (narrow (mag32 b))) = narrow (mag32 b)); [|rewrite Hm; lia].
  destruct (Z.lt_ge_cases (mag32 b) F16_OVERFLOW) as [Ho|Ho].
  - pose proof (narrow_range _ Hr). apply narrow_widen. destruct (narrow_nearest (mag32 b)); lia.
  - destruct (Z.le_gt_cases (mag32 b) F32_INF); [rewrite (narrow_overflow (mag32 b)) by lia; reflexivity|].
    rewrite (narrow_nan (mag32 b)) by lia. reflexivity.
Qed.

(** ** Properties *)

(** [f32_to_f16] keeps the sign; a magnitude below 65520 becomes the finite
    binary16 number nearest to it, the even one of two equally near; one from
    there to infinity becomes infinity, and NaN becomes the quiet NaN. *)
Theorem half_rounds_to_nearest (bits : Z) : is_u32 bits ->
  let h := f32_to_f16 bits in
  h / 2 ^ 15 = bits / 2 ^ 31 /\
  (mag32 bits < F16_OVERFLOW -> 0 <= mag16 h < F16_INF /\ nearest16 (value32 (mag32 bits)) (mag16 h)) /\
  (F16_OVERFLOW <= mag32 bits <= F32_INF -> mag16 h = F16_INF) /\
  (F32_INF < mag32 bits -> mag16 h = 0x7e00).
Proof.
  intros Hb h. destruct (f32_to_f16_split _ Hb) as (Hs & Hm & Hr). unfold h. rewrite Hm. pose proof (narrow_range _ Hr). split_and!.
  - done.
  - intros Ho. destruct (narrow_nearest (mag32 bits)); [lia|]. split; [lia|done].
  - apply narrow_overflow.
  - intros Hn. apply narrow_nan. lia.
Qed.

Lemma half_rounds_to_nearest_witness : is_u32 0x40490fdb /\ nearest16 (value32 0x40490fdb) 0x4248.
Proof.
  split; [done|]. exact (proj2 (proj1 (proj2 (half_rounds_to_nearest 0x40490fdb ltac:(done))) ltac:(done))).
Defined.

(** Widening a binary16 pattern keeps its sign and is exact: the same value
    for a finite one, infinity for infinity, NaN for NaN; and rounding the
    result back returns the pattern, for every pattern but a NaN. *)
Theorem half_widening_exact (h : Z) : 0 <= h < 2 ^ 16 ->
  let bits := f16_to_f32 h in
  is_u32 bits /\ bits / 2 ^ 31 = h / 2 ^ 15 /\
  (mag16 h < F16_INF -> value32 (mag32 bits) = value16 (mag16 h)) /\
  (mag16 h = F16_INF -> mag32 bits = F32_INF) /\
  (F16_INF < mag16 h -> F32_INF < mag32 bits) /\
  (mag16 h <= F16_INF -> f32_to_f16 bits = h).
Proof.
  intros Hh bits. unfold bits. rewrite f32_to_f16_to_f32 by done. destruct (f16_to_f32_split _ Hh) as (Hs & Hm & Hu & Hr). rewrite Hm. split_and!; [done|done|..].
  - intros Hf. apply widen_value. lia.
  - intros ->. reflexivity.
  - intros Hn. rewrite widen_inf by lia. lia.
  - intros Hf. replace (narrow (widen (mag16 h))) with (mag16 h); [unfold mag16; pose proof (Z.div_mod h (2 ^ 15)); lia|].
    symmetry. destruct (Z.eq_dec (mag16 h) F16_INF) as [->|]; [reflexivity | apply narrow_widen; lia].
Qed.

Lemma half_widening_exact_witness : value32 (mag32 (f16_to_f32 0x8001)) = value16 (mag16 0x8001) /\ f32_to_f16 (f16_to_f32 0x8001) = 0x8001.
Proof.
  destruct (half_widening_exact 0x8001 ltac:(done)) as (_ & _ & Hv & _ & _ & Hr). split; [apply Hv | apply Hr]; done.
Defined.

(** Rounding a row a second time changes nothing: what a cache stores of a
    row, read back and pushed again, is the same row. *)
Theorem f16_round_idempotent (x : list Z) : Forall is_u32 x ->
  f16_round_inplace_cpu (f16_round_inplace_cpu x) = f16_round_inplace_cpu x.
Proof.
  unfold f16_round_inplace_cpu. rewrite List.map_map. intros Hx. apply List.map_ext_Forall. apply (Forall_impl _ _ _ Hx). intros b Hb.
  apply f16_round_twice. exact Hb.
Qed.

Lemma f16_round_idempotent_witness : f16_round_inplace_cpu (f16_round_inplace_cpu [0x40490fdb; 0x7f800001]) = [0x40490000; 0x7fc00000].
Proof. rewrite (f16_round_idempotent [0x40490fdb; 0x7f800001]) by (repeat constructor; done). vm_compute. reflexivity. Defined.
