(* ===== verification/KvCache.v ===== *)
(** * The CPU backend's KV cache (ds4.c)

    Every layer keeps a window of raw rows; a layer with a compression ratio
    also keeps compressed rows that are only ever appended to and the state of
    the window being compressed.  Buffers are the bytes of the C allocations
    (floats little-endian); rows are lists of binary32 patterns. *)

From S2P Require Import Prelude Half.
#[local] Open Scope Z_scope.
#[local] Open Scope stdpp_scope.

(** The fields of the model's shape that size a cache. *)
Record ds4_shape := Shape {
  DS4_N_LAYER : Z; DS4_N_HEAD_DIM : Z; DS4_N_INDEXER_HEAD_DIM : Z; DS4_N_VOCAB : Z; DS4_N_SWA : Z;
  g_ds4_compress_ratios : list Z }.

Definition DS4_MAX_LAYER : Z := 79.

(** The pattern of [-1.0e30f]. *)
Definition DS4_NEG_INF : Z := 0xf149f2ca.

Definition ds4_layer_compress_ratio (sh : ds4_shape) (il : Z) : Z := g_ds4_compress_ratios sh !!! Z.to_nat il.

(** The bytes of a float array. *)
Definition floats (x : list Z) : bytes := x ≫= le_bytes 4.

Record ds4_layer_cache := LayerCache {
  lc_raw_kv : bytes; lc_n_raw : Z; lc_cap_raw : Z;
  lc_compress_ratio : Z; lc_comp_cap : Z;
  lc_n_comp : Z; lc_attn_comp_kv : bytes; lc_attn_state_kv : bytes; lc_attn_state_score : bytes;
  lc_n_index_comp : Z; lc_index_comp_kv : bytes; lc_index_state_kv : bytes; lc_index_state_score : bytes }.

Definition set_raw (b : bytes) (n : Z) (l : ds4_layer_cache) : ds4_layer_cache :=
  LayerCache b n (lc_cap_raw l) (lc_compress_ratio l) (lc_comp_cap l) (lc_n_comp l) (lc_attn_comp_kv l) (lc_attn_state_kv l)
    (lc_attn_state_score l) (lc_n_index_comp l) (lc_index_comp_kv l) (lc_index_state_kv l) (lc_index_state_score l).
Definition set_attn_comp (b : bytes) (n : Z) (l : ds4_layer_cache) : ds4_layer_cache :=
  LayerCache (lc_raw_kv l) (lc_n_raw l) (lc_cap_raw l) (lc_compress_ratio l) (lc_comp_cap l) n b (lc_attn_state_kv l)
    (lc_attn_state_score l) (lc_n_index_comp l) (lc_index_comp_kv l) (lc_index_state_kv l) (lc_index_state_score l).
Definition set_attn_state (kv score : bytes) (l : ds4_layer_cache) : ds4_layer_cache :=
  LayerCache (lc_raw_kv l) (lc_n_raw l) (lc_cap_raw l) (lc_compress_ratio l) (lc_comp_cap l) (lc_n_comp l) (lc_attn_comp_kv l) kv
    score (lc_n_index_comp l) (lc_index_comp_kv l) (lc_index_state_kv l) (lc_index_state_score l).
Definition set_index_comp (b : bytes) (n : Z) (l : ds4_layer_cache) : ds4_layer_cache :=
  LayerCache (lc_raw_kv l) (lc_n_raw l) (lc_cap_raw l) (lc_compress_ratio l) (lc_comp_cap l) (lc_n_comp l) (lc_attn_comp_kv l) (lc_attn_state_kv l)
    (lc_attn_state_score l) n b (lc_index_state_kv l) (lc_index_state_score l).
Definition set_index_state (kv score : bytes) (l : ds4_layer_cache) : ds4_layer_cache :=
  LayerCache (lc_raw_kv l) (lc_n_raw l) (lc_cap_raw l) (lc_compress_ratio l) (lc_comp_cap l) (lc_n_comp l) (lc_attn_comp_kv l) (lc_attn_state_kv l)
    (lc_attn_state_score l) (lc_n_index_comp l) (lc_index_comp_kv l) kv score.

(** Bytes at [p + off]. *)
Definition slice (off n : nat) (p : bytes) : bytes := take n (drop off p).

Section KvCache.
Context (sh : ds4_shape).

Definition row_bytes : nat := Z.to_nat (DS4_N_HEAD_DIM sh * 4).
Definition index_row_bytes : nat := Z.to_nat (DS4_N_INDEXER_HEAD_DIM sh * 4).

Definition ds4_default_raw_cap (ctx_size : Z) : Z :=
  let raw_cap := DS4_N_SWA sh in
  let raw_cap := if ctx_size <? raw_cap then ctx_size else raw_cap in
  if raw_cap =? 0 then 1 else raw_cap.

Definition zeros (n : Z) : bytes := replicate (Z.to_nat n) 0.

Definition coff (ratio : Z) : Z := if ratio =? 4 then 2 else 1.

Definition layer_attn_state_bytes (ratio : Z) : Z :=
  u64 (coff ratio * DS4_N_HEAD_DIM sh * coff ratio * ratio * 4).

Definition layer_index_state_bytes (ratio : Z) : Z :=
  u64 (coff ratio * DS4_N_INDEXER_HEAD_DIM sh * coff ratio * ratio * 4).

Definition neg_infs (n : Z) : bytes := floats (replicate (Z.to_nat n) DS4_NEG_INF).

(** One layer of [kv_cache_init]: no window, no rows, empty states. *)
Definition layer_init (ctx_size raw_cap ratio : Z) : ds4_layer_cache :=
  let raw := zeros (raw_cap * DS4_N_HEAD_DIM sh * 4) in
  if ratio =? 0 then LayerCache raw 0 raw_cap 0 0 0 [] [] [] 0 [] [] []
  else
    let comp_cap := ctx_size / ratio + 2 in
    let attn_width := coff ratio * DS4_N_HEAD_DIM sh in
    let attn_rows := coff ratio * ratio in
    let index_width := coff ratio * DS4_N_INDEXER_HEAD_DIM sh in
    let index_rows := coff ratio * ratio in
    let attn_comp := zeros (comp_cap * DS4_N_HEAD_DIM sh * 4) in
    let attn_state := zeros (attn_width * attn_rows * 4) in
    if ratio =? 4 then
      LayerCache raw 0 raw_cap ratio comp_cap 0 attn_comp attn_state (neg_infs (attn_width * attn_rows))
        0 (zeros (comp_cap * DS4_N_INDEXER_HEAD_DIM sh * 4)) (zeros (index_width * index_rows * 4)) (neg_infs (index_width * index_rows))
    else LayerCache raw 0 raw_cap ratio comp_cap 0 attn_comp attn_state (neg_infs (attn_width * attn_rows)) 0 [] [] [].

Definition kv_cache_init (ctx_size raw_cap : Z) : list ds4_layer_cache :=
  let raw_cap := if raw_cap =? 0 then ds4_default_raw_cap ctx_size else raw_cap in
  let raw_cap := if ctx_size <? raw_cap then ctx_size else raw_cap in
  let raw_cap := if raw_cap =? 0 then 1 else raw_cap in
  map (fun il => layer_init ctx_size raw_cap (ds4_layer_compress_ratio sh (Z.of_nat il))) (seq 0 (Z.to_nat (DS4_N_LAYER sh))).

(** ** Rows *)

Definition kv_cache_push_raw (cache : ds4_layer_cache) (kv : list Z) : ds4_layer_cache :=
  let row := floats (f16_round_inplace_cpu (take (Z.to_nat (DS4_N_HEAD_DIM sh)) kv)) in
  if lc_n_raw cache <? lc_cap_raw cache then
    set_raw (splice (Z.to_nat (lc_n_raw cache) * row_bytes) row (lc_raw_kv cache)) (lc_n_raw cache + 1) cache
  else
    let last := (Z.to_nat (lc_cap_raw cache - 1) * row_bytes)%nat in
    let moved := splice 0 (slice row_bytes last (lc_raw_kv cache)) (lc_raw_kv cache) in
    set_raw (splice last row moved) (lc_n_raw cache) cache.

(** [None]: the process dies, the capacity is exceeded. *)
Definition kv_cache_push_comp (rows : bytes) (n_rows cap_rows row_dim : Z) (kv : list Z) : option (bytes * Z) :=
  if cap_rows <=? n_rows then None
  else Some (splice (Z.to_nat (n_rows * row_dim * 4)) (floats (f16_round_inplace_cpu (take (Z.to_nat row_dim) kv))) rows, n_rows + 1).

(** Rows [row, end_) of a compressor's state are cleared. *)
Fixpoint clear_rows (n : nat) (row width : Z) (state : bytes * bytes) : bytes * bytes :=
  match n with
  | O => state
  | S n' =>
      let off := Z.to_nat (row * width * 4) in
      clear_rows n' (row + 1) width (splice off (zeros (width * 4)) (fst state), splice off (neg_infs width) (snd state))
  end.

Definition compressor_finish_prefill_state_cpu (state : bytes * bytes) (head_dim compress_ratio n_tokens : Z) : bytes * bytes :=
  if (head_dim =? 0) || (compress_ratio =? 0) then state
  else
    let width := coff compress_ratio * head_dim in
    let rem := n_tokens mod compress_ratio in
    let clear_start := if compress_ratio =? 4 then compress_ratio + rem else rem in
    let clear_end := if compress_ratio =? 4 then 2 * compress_ratio else compress_ratio in
    clear_rows (Z.to_nat (clear_end - clear_start)) clear_start width state.

Definition kv_cache_finish_prefill_states (cache : list ds4_layer_cache) (n_tokens : Z) : list ds4_layer_cache :=
  map (fun layer =>
    let ratio := lc_compress_ratio layer in
    if ratio =? 0 then layer
    else
      let '(kv, score) := compressor_finish_prefill_state_cpu (lc_attn_state_kv layer, lc_attn_state_score layer) (DS4_N_HEAD_DIM sh) ratio n_tokens in
      let layer := set_attn_state kv score layer in
      if ratio =? 4 then
        let '(kv, score) := compressor_finish_prefill_state_cpu (lc_index_state_kv layer, lc_index_state_score layer) (DS4_N_INDEXER_HEAD_DIM sh) ratio n_tokens in
        set_index_state kv score layer
      else layer) cache.
End KvCache.

(** ** Bytes of rows *)

Lemma floats_length x : length (floats x) = (4 * length x)%nat.
Proof. unfold floats. induction x as [|a x IH]; [done|]. rewrite bind_cons, length_app, IH, le_bytes_length. cbn [length]. lia. Qed.

Lemma zeros_length n : length (zeros n) = Z.to_nat n.
Proof. apply length_replicate. Qed.

Lemma neg_infs_length n : length (neg_infs n) = Z.to_nat (n * 4).
Proof. unfold neg_infs. rewrite floats_length, length_replicate. lia. Qed.

Lemma zeros_app a b : 0 <= a -> 0 <= b -> zeros (a + b) = zeros a ++ zeros b.
Proof. intros. unfold zeros. by rewrite Z2Nat.inj_add, replicate_add by lia. Qed.

Lemma neg_infs_app a b : 0 <= a -> 0 <= b -> neg_infs (a + b) = neg_infs a ++ neg_infs b.
Proof. intros. unfold neg_infs, floats. by rewrite Z2Nat.inj_add, replicate_add, bind_app by lia. Qed.

(** What a splice leaves in front of it, puts there, and leaves behind it. *)
Lemma splice_parts {A} (a m b s : list A) : length s = length m -> splice (length a) s (a ++ m ++ b) = a ++ s ++ b.
Proof.
  intros H. unfold splice. rewrite take_app_length, H. do 2 f_equal.
  by rewrite (assoc_L (++) a), drop_app_length' by (rewrite length_app; done).
Qed.

(** A buffer cut at [off] and [off + n]. *)
Lemma cut {A} (off n : nat) (l : list A) : (off + n <= length l)%nat ->
  exists a m b, l = a ++ m ++ b /\ length a = off /\ length m = n.
Proof.
  intros H. exists (take off l), (take n (drop off l)), (drop n (drop off l)). rewrite !take_drop. split_and!; [done|..].
  - rewrite length_take. lia.
  - rewrite length_take, length_drop. lia.
Qed.

Lemma splice_front {A} (off : nat) (s l : list A) : (off <= length l)%nat -> take (off + length s) (splice off s l) = take off l ++ s.
Proof.
  intros H. unfold splice. rewrite (assoc_L (++)). apply take_app_length'. rewrite length_app, length_take. lia.
Qed.

Lemma splice_0 {A} (s l : list A) : splice 0 s l = s ++ drop (length s) l.
Proof. done. Qed.

Lemma f16_round_length x : length (f16_round_inplace_cpu x) = length x.
Proof. apply length_map. Qed.

(** The bytes a row leaves in a cache. *)
Definition stored_row (kv : list Z) : bytes := floats (f16_round_inplace_cpu kv).

Lemma stored_row_length kv : length (stored_row kv) = (4 * length kv)%nat.
Proof. unfold stored_row. by rewrite floats_length, f16_round_length. Qed.

Lemma stored_rows_length (R : list (list Z)) (n : nat) : Forall (fun r => length r = n) R -> length (R ≫= stored_row) = (length R * (4 * n))%nat.
Proof.
  induction 1 as [|r R Hr HR IH]; [done|]. rewrite bind_cons, length_app, IH, stored_row_length, Hr. cbn [length]. lia.
Qed.

(** ** The raw window *)

Section Window.
Context (sh : ds4_shape) (Hhd : 0 < DS4_N_HEAD_DIM sh).
#[local] Abbreviation hd := (Z.to_nat (DS4_N_HEAD_DIM sh)).

Lemma row_bytes_eq : row_bytes sh = (4 * hd)%nat.
Proof. unfold row_bytes. lia. Qed.

(** The layer's live raw rows are [R]. *)
Record window (l : ds4_layer_cache) (R : list (list Z)) : Prop := {
  w_rows : Forall (fun r => length r = hd) R;
  w_count : lc_n_raw l = zlen R;
  w_cap : zlen R <= lc_cap_raw l;
  w_pos : 0 < lc_cap_raw l;
  w_size : length (lc_raw_kv l) = (Z.to_nat (lc_cap_raw l) * row_bytes sh)%nat;
  w_bytes : take (Z.to_nat (lc_n_raw l) * row_bytes sh) (lc_raw_kv l) = R ≫= stored_row }.

(** The last [n] of a list. *)
Definition lastn {A} (n : nat) (l : list A) : list A := drop (length l - n) l.

Lemma lastn_length {A} n (l : list A) : length (lastn n l) = Nat.min n (length l).
Proof. unfold lastn. rewrite length_drop. lia. Qed.

Lemma push_raw_window l R kv : window l R -> length kv = hd ->
  window (kv_cache_push_raw sh l kv) (lastn (Z.to_nat (lc_cap_raw l)) (R ++ [kv])).
Proof.
  intros [Hr Hc Hcap Hp Hs Hb] Hk. pose proof row_bytes_eq as Hrb. unfold kv_cache_push_raw. rewrite take_ge by lia. fold (stored_row kv).
  assert (Hlen : length (stored_row kv) = row_bytes sh) by (rewrite stored_row_length; lia).
  assert (HrR : length (R ≫= stored_row) = (length R * row_bytes sh)%nat) by (rewrite (stored_rows_length R hd), Hrb by done; done).
  assert (Hn : Z.to_nat (lc_n_raw l) = length R) by (rewrite Hc; unfold zlen; lia). rewrite Hn in *. unfold zlen in *.
  destruct (Z.ltb_spec (lc_n_raw l) (lc_cap_raw l)) as [Hlt|Hge].
  - assert (Hl : lastn (Z.to_nat (lc_cap_raw l)) (R ++ [kv]) = R ++ [kv]).
    { unfold lastn. rewrite length_app. cbn [length]. by replace (length R + 1 - Z.to_nat (lc_cap_raw l))%nat with 0%nat by lia. }
    rewrite Hl. assert (Hle : (length R * row_bytes sh + row_bytes sh <= length (lc_raw_kv l))%nat) by (rewrite Hs; nia).
    split; cbn [set_raw lc_n_raw lc_cap_raw lc_raw_kv]; unfold zlen; rewrite ?length_app; cbn [length]; try lia.
    + apply Forall_app. by repeat constructor.
    + rewrite splice_length by (rewrite Hlen; lia). done.
    + replace (Z.to_nat (lc_n_raw l + 1) * row_bytes sh)%nat with (length R * row_bytes sh + length (stored_row kv))%nat by nia.
      rewrite splice_front, Hb, bind_app by lia. by rewrite bind_singleton.
  - assert (HR : length R = Z.to_nat (lc_cap_raw l)) by lia. destruct R as [|r R]; [cbn in HR; lia|]. cbn [length] in HR.
    assert (Hl : lastn (Z.to_nat (lc_cap_raw l)) ((r :: R) ++ [kv]) = R ++ [kv]).
    { unfold lastn. cbn [length app]. rewrite length_app. cbn [length]. by replace (S (length R + 1) - Z.to_nat (lc_cap_raw l))%nat with 1%nat by lia. }
    rewrite Hl. apply Forall_cons in Hr as [Hr0 Hr]. replace (Z.to_nat (lc_cap_raw l - 1)) with (length R) by lia.
    assert (Hfull : lc_raw_kv l = stored_row r ++ (R ≫= stored_row)).
    { rewrite <- (take_ge (lc_raw_kv l) (length (r :: R) * row_bytes sh)) by (rewrite Hs; cbn [length]; nia). exact Hb. }
    assert (Hr1 : length (stored_row r) = row_bytes sh) by (rewrite stored_row_length; lia).
    assert (HR1 : length (R ≫= stored_row) = (length R * row_bytes sh)%nat) by (rewrite (stored_rows_length R hd), Hrb by done; done).
    assert (Hslice : slice (row_bytes sh) (length R * row_bytes sh) (lc_raw_kv l) = R ≫= stored_row).
    { unfold slice. rewrite Hfull, drop_app_length' by lia. apply take_ge. lia. }
    rewrite Hslice. set (moved := splice 0 (R ≫= stored_row) (lc_raw_kv l)).
    assert (Hm : take (length R * row_bytes sh) moved = R ≫= stored_row) by (unfold moved; rewrite splice_0; by apply take_app_length').
    assert (Hml : length moved = length (lc_raw_kv l)) by (apply splice_length; rewrite Hfull, length_app; lia).
    split; cbn [set_raw lc_n_raw lc_cap_raw lc_raw_kv]; unfold zlen; rewrite ?length_app; cbn [length]; try (cbn [length] in *; lia).
    + apply Forall_app. by repeat constructor.
    + rewrite splice_length by (rewrite Hml, Hs, Hlen; nia). by rewrite Hml.
    + replace (Z.to_nat (lc_n_raw l) * row_bytes sh)%nat with (length R * row_bytes sh + length (stored_row kv))%nat by (cbn [length] in *; nia).
      rewrite splice_front, Hm, bind_app by (rewrite Hml, Hs; nia). by rewrite bind_singleton.
Qed.
End Window.

(** ** Well-formed caches *)

(** The shapes the engine accepts: [ds4_expected_layer_compress_ratio] gives the
    ratios of a model, and the sizes bound what is multiplied in 64 bits. *)
Record shape_ok (sh : ds4_shape) : Prop := {
  so_layers : 0 <= DS4_N_LAYER sh <= DS4_MAX_LAYER;
  so_hd : 0 < DS4_N_HEAD_DIM sh <= 65536;
  so_ihd : 0 < DS4_N_INDEXER_HEAD_DIM sh <= 65536;
  so_vocab : 0 < DS4_N_VOCAB sh <= 16777216;
  so_swa : 0 <= DS4_N_SWA sh <= 65536;
  so_count : zlen (g_ds4_compress_ratios sh) = DS4_N_LAYER sh;
  so_ratios : Forall (fun r => r = 0 \/ r = 4 \/ r = 128) (g_ds4_compress_ratios sh) }.

Definition comp_rows (ctx_size ratio : Z) : Z := if ratio =? 0 then 0 else ctx_size / ratio + 2.

(** A layer of a session with [ctx_size]: every count within its capacity and
    every buffer of the size it was allocated with. *)
Record layer_wf (sh : ds4_shape) (ctx_size ratio : Z) (l : ds4_layer_cache) : Prop := {
  lw_cap : lc_cap_raw l = ds4_default_raw_cap sh ctx_size;
  lw_n_raw : 0 <= lc_n_raw l <= lc_cap_raw l;
  lw_raw : zlen (lc_raw_kv l) = lc_cap_raw l * DS4_N_HEAD_DIM sh * 4;
  lw_ratio : lc_compress_ratio l = ratio;
  lw_comp_cap : lc_comp_cap l = comp_rows ctx_size ratio;
  lw_n_comp : 0 <= lc_n_comp l <= lc_comp_cap l;
  lw_attn_comp : zlen (lc_attn_comp_kv l) = lc_comp_cap l * DS4_N_HEAD_DIM sh * 4;
  lw_attn_kv : zlen (lc_attn_state_kv l) = layer_attn_state_bytes sh ratio;
  lw_attn_score : zlen (lc_attn_state_score l) = layer_attn_state_bytes sh ratio;
  lw_n_index : 0 <= lc_n_index_comp l;
  lw_index_none : ratio = 0 -> lc_n_index_comp l = 0;
  lw_index_cap : ratio = 4 -> lc_n_index_comp l <= lc_comp_cap l;
  lw_index_comp : ratio = 4 -> zlen (lc_index_comp_kv l) = lc_comp_cap l * DS4_N_INDEXER_HEAD_DIM sh * 4;
  lw_index_kv : ratio = 4 -> zlen (lc_index_state_kv l) = layer_index_state_bytes sh ratio;
  lw_index_score : ratio = 4 -> zlen (lc_index_state_score l) = layer_index_state_bytes sh ratio }.

Definition cache_wf (sh : ds4_shape) (ctx_size : Z) (cache : list ds4_layer_cache) : Prop :=
  Forall2 (layer_wf sh ctx_size) (g_ds4_compress_ratios sh) cache.

Section Wf.
Context (sh : ds4_shape) (Hsh : shape_ok sh).

Lemma state_bytes_small ratio : ratio = 0 \/ ratio = 4 \/ ratio = 128 ->
  layer_attn_state_bytes sh ratio = coff ratio * DS4_N_HEAD_DIM sh * (coff ratio * ratio) * 4 /\
  layer_index_state_bytes sh ratio = coff ratio * DS4_N_INDEXER_HEAD_DIM sh * (coff ratio * ratio) * 4 /\
  0 <= layer_attn_state_bytes sh ratio <= 2 ^ 40 /\ 0 <= layer_index_state_bytes sh ratio <= 2 ^ 40.
Proof.
  pose proof (so_hd _ Hsh). pose proof (so_ihd _ Hsh). intros Hr. unfold layer_attn_state_bytes, layer_index_state_bytes, coff.
  rewrite !u64_small by (unfold is_u64, U64_MAX; destruct Hr as [-> | [-> | ->]]; cbn [Z.eqb Pos.eqb]; lia).
  destruct Hr as [-> | [-> | ->]]; cbn [Z.eqb Pos.eqb]; split_and!; lia.
Qed.

Lemma default_raw_cap_range ctx_size : 0 < ctx_size -> 0 < ds4_default_raw_cap sh ctx_size <= 65536 /\ ds4_default_raw_cap sh ctx_size <= ctx_size.
Proof.
  intros Hc. pose proof (so_swa _ Hsh). unfold ds4_default_raw_cap.
  destruct (Z.ltb_spec ctx_size (DS4_N_SWA sh)); [destruct (Z.eqb_spec ctx_size 0) | destruct (Z.eqb_spec (DS4_N_SWA sh) 0)]; lia.
Qed.

Lemma zlen_zeros n : 0 <= n -> zlen (zeros n) = n.
Proof. intros. unfold zlen. rewrite zeros_length. lia. Qed.

Lemma zlen_neg_infs n : 0 <= n -> zlen (neg_infs n) = n * 4.
Proof. intros. unfold zlen. rewrite neg_infs_length. lia. Qed.

Lemma layer_init_wf ctx_size ratio : 0 < ctx_size -> ratio = 0 \/ ratio = 4 \/ ratio = 128 ->
  layer_wf sh ctx_size ratio (layer_init sh ctx_size (ds4_default_raw_cap sh ctx_size) ratio).
Proof.
  intros Hc Hr. destruct (state_bytes_small ratio Hr) as (Ha & Hi & _). pose proof (default_raw_cap_range _ Hc).
  pose proof (so_hd _ Hsh). pose proof (so_ihd _ Hsh). unfold layer_init.
  assert (0 <= ctx_size / 4) by (apply Z.div_pos; lia). assert (0 <= ctx_size / 128) by (apply Z.div_pos; lia).
  destruct Hr as [-> | [-> | ->]]; unfold coff in *; cbn [Z.eqb Pos.eqb] in *;
    constructor; cbn [lc_cap_raw lc_n_raw lc_raw_kv lc_compress_ratio lc_comp_cap lc_n_comp lc_attn_comp_kv lc_attn_state_kv lc_attn_state_score
      lc_n_index_comp lc_index_comp_kv lc_index_state_kv lc_index_state_score]; unfold comp_rows; cbn [Z.eqb Pos.eqb]; rewrite ?Ha, ?Hi;
    try (rewrite ?zlen_zeros, ?zlen_neg_infs by nia); try done; try (intros; change (zlen (@nil Z)) with 0; lia).
Qed.

Lemma kv_cache_init_wf ctx_size : 0 < ctx_size -> cache_wf sh ctx_size (kv_cache_init sh ctx_size 0).
Proof.
  intros Hc. unfold cache_wf, kv_cache_init. cbn [Z.eqb]. pose proof (default_raw_cap_range _ Hc) as [H1 H2].
  rewrite (proj2 (Z.ltb_ge _ _) H2), (proj2 (Z.eqb_neq _ 0)) by lia.
  pose proof (so_count _ Hsh) as Hn. pose proof (so_ratios _ Hsh) as Hr. unfold zlen in Hn.
  rewrite <- Hn, Nat2Z.id. apply Forall2_same_length_lookup_2; [by rewrite length_map, length_seq|].
  intros i r l Hi Hl. change (map ?f ?x) with (f <$> x) in Hl. rewrite list_lookup_fmap, lookup_seq_lt in Hl by (by apply lookup_lt_Some in Hi).
  cbn in Hl. injection Hl as <-. unfold ds4_layer_compress_ratio. rewrite Nat2Z.id, (list_lookup_total_correct _ _ _ Hi).
  apply layer_init_wf; [done|]. by apply (Forall_lookup_1 _ _ _ _ Hr Hi).
Qed.
End Wf.

(** ** Pushing rows keeps a layer well-formed *)

Section Push.
Context (sh : ds4_shape) (Hsh : shape_ok sh).

Lemma zlen_splice {A} off (s l : list A) : Z.of_nat off + zlen s <= zlen l -> zlen (splice off s l) = zlen l.
Proof. unfold zlen. intros H. rewrite splice_length; lia. Qed.

Lemma stored_prefix_length n kv : (length (stored_row (take n kv)) <= 4 * n)%nat.
Proof. rewrite stored_row_length, length_take. lia. Qed.

Lemma push_raw_wf ctx_size ratio l kv : 0 < ctx_size -> layer_wf sh ctx_size ratio l -> layer_wf sh ctx_size ratio (kv_cache_push_raw sh l kv).
Proof.
  intros Hc Hw. pose proof (so_hd _ Hsh) as Hhd. destruct (default_raw_cap_range sh Hsh _ Hc) as [Hp _]. rewrite <- (lw_cap _ _ _ _ Hw) in Hp.
  pose proof (lw_n_raw _ _ _ _ Hw) as Hn. pose proof (lw_raw _ _ _ _ Hw) as Hr. unfold kv_cache_push_raw. fold (stored_row (take (Z.to_nat (DS4_N_HEAD_DIM sh)) kv)).
  pose proof (stored_prefix_length (Z.to_nat (DS4_N_HEAD_DIM sh)) kv) as Hl. set (row := stored_row _) in *. clearbody row.
  assert (Hrb : row_bytes sh = Z.to_nat (DS4_N_HEAD_DIM sh * 4)) by done. unfold zlen in *.
  destruct (Z.ltb_spec (lc_n_raw l) (lc_cap_raw l)); destruct Hw; constructor; cbn [set_raw lc_cap_raw lc_n_raw lc_raw_kv lc_compress_ratio lc_comp_cap
    lc_n_comp lc_attn_comp_kv lc_attn_state_kv lc_attn_state_score lc_n_index_comp lc_index_comp_kv lc_index_state_kv lc_index_state_score]; try done; try lia.
  - rewrite zlen_splice; [done|]. unfold zlen. nia.
  - assert (Hlast : (Z.to_nat (lc_cap_raw l - 1) * row_bytes sh + row_bytes sh = length (lc_raw_kv l))%nat) by nia.
    set (last := (Z.to_nat (lc_cap_raw l - 1) * row_bytes sh)%nat) in *. clearbody last.
    assert (Hrow : (length row <= row_bytes sh)%nat) by lia. clear Hrb.
    assert (Hs : length (slice (row_bytes sh) last (lc_raw_kv l)) = last) by (unfold slice; rewrite length_take, length_drop; lia).
    rewrite !zlen_splice; unfold zlen; rewrite ?splice_length; try lia.
Qed.

Lemma push_comp_None rows n_rows cap_rows row_dim kv : kv_cache_push_comp rows n_rows cap_rows row_dim kv = None <-> cap_rows <= n_rows.
Proof. unfold kv_cache_push_comp. destruct (Z.leb_spec cap_rows n_rows); split; intros; [done..| lia]. Qed.

Lemma push_comp_size rows n_rows cap_rows row_dim kv rows' n' : 0 <= n_rows -> 0 < row_dim -> zlen rows = cap_rows * row_dim * 4 ->
  kv_cache_push_comp rows n_rows cap_rows row_dim kv = Some (rows', n') -> zlen rows' = zlen rows /\ n' = n_rows + 1 /\ n' <= cap_rows.
Proof.
  unfold kv_cache_push_comp. intros Hn Hd Hs. destruct (Z.leb_spec cap_rows n_rows); [done|]. intros [= <- <-]. fold (stored_row (take (Z.to_nat row_dim) kv)).
  pose proof (stored_prefix_length (Z.to_nat row_dim) kv). split; [|lia]. apply zlen_splice. unfold zlen in *. nia.
Qed.

Lemma clear_rows_length n row width state : 0 <= row -> 0 <= width ->
  (row + Z.of_nat n) * width * 4 <= zlen (fst state) -> (row + Z.of_nat n) * width * 4 <= zlen (snd state) ->
  zlen (fst (clear_rows n row width state)) = zlen (fst state) /\ zlen (snd (clear_rows n row width state)) = zlen (snd state).
Proof.
  revert row state. induction n as [|n IH]; intros row state Hr Hw H1 H2; [done|]. cbn [clear_rows].
  rewrite Nat2Z.inj_succ in H1, H2. assert (0 <= row * width) by nia. assert (0 <= Z.of_nat n * width) by nia.
  assert (Hz : zlen (splice (Z.to_nat (row * width * 4)) (zeros (width * 4)) (fst state)) = zlen (fst state)).
  { apply zlen_splice. rewrite zlen_zeros by lia. nia. }
  assert (Hi : zlen (splice (Z.to_nat (row * width * 4)) (neg_infs width) (snd state)) = zlen (snd state)).
  { apply zlen_splice. rewrite zlen_neg_infs by lia. nia. }
  destruct (IH (row + 1) (splice (Z.to_nat (row * width * 4)) (zeros (width * 4)) (fst state), splice (Z.to_nat (row * width * 4)) (neg_infs width) (snd state)))
    as [E1 E2]; cbn [fst snd]; rewrite ?Hz, ?Hi; try lia. cbn [fst snd] in E1, E2. rewrite E1, E2. by rewrite Hz, Hi.
Qed.

(** Rows [row ..] up to the end of the state are cleared, those in front kept. *)
Lemma clear_rows_exact n row width kv score : 0 <= row -> 0 <= width ->
  zlen kv = (row + Z.of_nat n) * width * 4 -> zlen score = (row + Z.of_nat n) * width * 4 ->
  clear_rows n row width (kv, score) =
  (take (Z.to_nat (row * width * 4)) kv ++ zeros (Z.of_nat n * width * 4), take (Z.to_nat (row * width * 4)) score ++ neg_infs (Z.of_nat n * width)).
Proof.
  revert row kv score. induction n as [|n IH]; intros row kv score Hr Hw H1 H2.
  - cbn [clear_rows]. rewrite Z.add_0_r in *. unfold zeros, neg_infs. cbn. rewrite !app_nil_r, !take_ge by (unfold zlen in *; lia). done.
  - rewrite Nat2Z.inj_succ in H1, H2. assert (0 <= row * width) by nia. assert (0 <= Z.of_nat n * width) by nia.
    cbn [clear_rows fst snd]. set (off := Z.to_nat (row * width * 4)).
    assert (Hz : (off + length (zeros (width * 4)) <= length kv)%nat) by (rewrite zeros_length; unfold zlen, off in *; nia).
    assert (Hi : (off + length (neg_infs width) <= length score)%nat) by (rewrite neg_infs_length; unfold zlen, off in *; nia).
    rewrite IH; [|lia|lia|unfold zlen in *; rewrite splice_length by done; lia|unfold zlen in *; rewrite splice_length by done; lia].
    assert (Hoz : Z.to_nat ((row + 1) * width * 4) = (off + length (zeros (width * 4)))%nat) by (rewrite zeros_length; unfold off; nia).
    assert (Hoi : Z.to_nat ((row + 1) * width * 4) = (off + length (neg_infs width))%nat) by (rewrite neg_infs_length; unfold off; nia).
    rewrite Hoz at 1. rewrite Hoi at 1. rewrite !splice_front by lia. rewrite <- !(assoc_L (++)).
    rewrite <- zeros_app, <- neg_infs_app by lia. repeat f_equal; lia.
Qed.
End Push.

Section Windows.
Context (sh : ds4_shape) (Hhd : 0 < DS4_N_HEAD_DIM sh).

Lemma lastn_snoc {A} n (l : list A) k : lastn n (lastn n l ++ [k]) = lastn n (l ++ [k]).
Proof.
  unfold lastn at 1 3. rewrite !length_app, lastn_length. cbn [length]. unfold lastn.
  destruct (le_lt_dec (length l) n) as [Hle|Hlt].
  - replace (length l - n)%nat with 0%nat by lia. by replace (Nat.min n (length l)) with (length l) by lia.
  - destruct n as [|n].
    + rewrite !drop_ge; [done|..]; rewrite length_app, ?length_drop; cbn [length]; lia.
    + rewrite !drop_app_le by (rewrite ?length_drop; lia). rewrite drop_drop. do 2 f_equal. lia.
Qed.

Lemma layer_init_raw ctx_size raw_cap ratio : lc_raw_kv (layer_init sh ctx_size raw_cap ratio) = zeros (raw_cap * DS4_N_HEAD_DIM sh * 4) /\
  lc_n_raw (layer_init sh ctx_size raw_cap ratio) = 0 /\ lc_cap_raw (layer_init sh ctx_size raw_cap ratio) = raw_cap.
Proof. unfold layer_init. by destruct (ratio =? 0), (ratio =? 4). Qed.

Lemma push_raw_cap l kv : lc_cap_raw (kv_cache_push_raw sh l kv) = lc_cap_raw l.
Proof. unfold kv_cache_push_raw. by destruct (_ <? _). Qed.

Lemma pushed_window raw_cap l R ks : lc_cap_raw l = raw_cap -> window sh l (lastn (Z.to_nat raw_cap) R) ->
  Forall (fun r => length r = Z.to_nat (DS4_N_HEAD_DIM sh)) ks ->
  window sh (foldl (kv_cache_push_raw sh) l ks) (lastn (Z.to_nat raw_cap) (R ++ ks)).
Proof.
  revert l R. induction ks as [|k ks IH]; intros l R Hc Hw Hks; [by rewrite app_nil_r|]. apply Forall_cons in Hks as [Hk Hks]. cbn [foldl].
  rewrite (assoc_L (++) R [k] ks : R ++ k :: ks = _). apply IH; [by rewrite push_raw_cap | | done].
  rewrite <- lastn_snoc, <- Hc. apply push_raw_window; [done | by rewrite Hc | done].
Qed.

Lemma init_window ctx_size raw_cap ratio : 0 < raw_cap -> window sh (layer_init sh ctx_size raw_cap ratio) [].
Proof.
  intros Hp. destruct (layer_init_raw ctx_size raw_cap ratio) as (Hr & Hn & Hc). split; rewrite ?Hr, ?Hn, ?Hc; try done; [unfold zlen; cbn; lia|].
  rewrite zeros_length. unfold row_bytes. nia.
Qed.
End Windows.

Lemma finish_layer_wf sh (Hsh : shape_ok sh) ctx_size ratio l n_tokens : 0 <= n_tokens -> ratio = 0 \/ ratio = 4 \/ ratio = 128 -> layer_wf sh ctx_size ratio l ->
  Forall (layer_wf sh ctx_size ratio) (kv_cache_finish_prefill_states sh [l] n_tokens).
Proof.
  intros Hn Hr Hw. cbn [kv_cache_finish_prefill_states map]. rewrite (lw_ratio _ _ _ _ Hw). destruct (state_bytes_small sh Hsh ratio Hr) as (Ha & Hi & _).
  pose proof (so_hd _ Hsh). pose proof (so_ihd _ Hsh).
  assert (Hkeep : forall kv score hd, 0 < hd -> zlen kv = coff ratio * hd * (coff ratio * ratio) * 4 -> zlen score = coff ratio * hd * (coff ratio * ratio) * 4 ->
    zlen (fst (compressor_finish_prefill_state_cpu (kv, score) hd ratio n_tokens)) = zlen kv /\
    zlen (snd (compressor_finish_prefill_state_cpu (kv, score) hd ratio n_tokens)) = zlen score).
  { intros kv score hd Hhd Hk Hs. unfold compressor_finish_prefill_state_cpu. destruct (Z.eqb_spec hd 0), (Z.eqb_spec ratio 0); cbn [orb]; try done. pose proof (Z.mod_pos_bound n_tokens 4). pose proof (Z.mod_pos_bound n_tokens 128).
    cbv zeta. destruct Hr as [-> | [-> | ->]]; [lia | |]; unfold coff in *; cbn [Z.eqb Pos.eqb] in *;
      apply clear_rows_length; cbn [fst snd]; rewrite ?Z2Nat.id by lia; lia. }
  destruct (Z.eqb_spec ratio 0) as [->|Hr0]; [by apply Forall_singleton|].
  pose proof (Hkeep (lc_attn_state_kv l) (lc_attn_state_score l) _ (proj1 (so_hd _ Hsh))) as Hk1. pose proof (lw_attn_kv _ _ _ _ Hw) as Hw1. pose proof (lw_attn_score _ _ _ _ Hw) as Hw2.
  destruct (compressor_finish_prefill_state_cpu (lc_attn_state_kv l, _) _ _ _) as [kv score]. cbn [fst snd] in Hk1. destruct Hk1 as [Hk1 Hk2]; [congruence..|].
  destruct (Z.eqb_spec ratio 4) as [->|Hr4].
  - pose proof (Hkeep (lc_index_state_kv l) (lc_index_state_score l) _ (proj1 (so_ihd _ Hsh))) as Hk3.
    pose proof (lw_index_kv _ _ _ _ Hw eq_refl) as Hw3. pose proof (lw_index_score _ _ _ _ Hw eq_refl) as Hw4. cbn [set_attn_state lc_index_state_kv lc_index_state_score].
    destruct (compressor_finish_prefill_state_cpu (lc_index_state_kv l, _) _ _ _) as [kv' score']. cbn [fst snd] in Hk3. destruct Hk3 as [Hk3 Hk4]; [congruence..|].
    apply Forall_singleton. destruct Hw; constructor; cbn; try done; congruence.
  - apply Forall_singleton. destruct Hw; constructor; cbn; try done; congruence.
Qed.

(** ** Properties *)

(** After any number of raw rows, pushed one at a time into a fresh layer,
    the window holds the last of them, as many as fit, oldest first and rounded
    to half precision, and counts them. *)
Theorem raw_window_exact (sh : ds4_shape) (ctx_size raw_cap ratio : Z) (rows : list (list Z)) :
  0 < DS4_N_HEAD_DIM sh -> 0 < raw_cap -> Forall (fun r => zlen r = DS4_N_HEAD_DIM sh) rows ->
  let l := foldl (kv_cache_push_raw sh) (layer_init sh ctx_size raw_cap ratio) rows in
  lc_n_raw l = Z.min raw_cap (zlen rows) /\
  take (Z.to_nat (lc_n_raw l) * row_bytes sh) (lc_raw_kv l) = lastn (Z.to_nat raw_cap) rows ≫= stored_row.
Proof.
  intros Hhd Hp Hr l. destruct (layer_init_raw sh ctx_size raw_cap ratio) as (_ & _ & Hc).
  assert (Hw : window sh l (lastn (Z.to_nat raw_cap) ([] ++ rows))).
  { apply pushed_window; [done | done | by apply init_window |]. apply (Forall_impl _ _ _ Hr). unfold zlen. lia. }
  split; [|apply Hw]. rewrite (w_count _ _ _ Hw). unfold zlen. rewrite lastn_length. cbn [app]. lia.
Qed.

Lemma raw_window_exact_witness :
  let sh := Shape 1 1 1 1 2 [0] in let l := foldl (kv_cache_push_raw sh) (layer_init sh 4 2 0) [[0x3f800000]; [0x40000000]; [0x40400000]] in
  lc_n_raw l = 2 /\ take (2 * row_bytes sh) (lc_raw_kv l) = floats [0x40000000; 0x40400000].
Proof.
  intros sh l. destruct (raw_window_exact sh 4 2 0 [[0x3f800000]; [0x40000000]; [0x40400000]]) as [H1 H2]; [done|done|by repeat constructor|].
  split; [exact H1|]. exact H2.
Defined.

(** A compressed row goes behind the live ones, which keep their bytes; the
    push fails exactly when the capacity is used up. *)
Theorem comp_row_appended (rows : bytes) (n_rows cap_rows row_dim : Z) (kv : list Z) :
  0 <= n_rows -> 0 < row_dim -> zlen kv = row_dim -> zlen rows = cap_rows * row_dim * 4 ->
  match kv_cache_push_comp rows n_rows cap_rows row_dim kv with
  | None => cap_rows <= n_rows
  | Some (rows', n') =>
      n' = n_rows + 1 /\ n' <= cap_rows /\ zlen rows' = zlen rows /\
      take (Z.to_nat (n' * row_dim * 4)) rows' = take (Z.to_nat (n_rows * row_dim * 4)) rows ++ stored_row kv
  end.
Proof.
  intros Hn Hd Hk Hs. destruct (kv_cache_push_comp _ _ _ _ _) as [[rows' n']|] eqn:E; [|by apply push_comp_None in E].
  destruct (push_comp_size _ _ _ _ _ _ _ Hn Hd Hs E) as (Hl & -> & Hc). do 3 (split; [done|]). unfold kv_cache_push_comp in E.
  destruct (_ <=? _); [done|]. injection E as <-. fold (stored_row (take (Z.to_nat row_dim) kv)). unfold zlen in *. rewrite (take_ge kv) by lia.
  assert (0 <= n_rows * row_dim) by nia. assert (n_rows * row_dim + row_dim <= cap_rows * row_dim) by nia.
  replace (Z.to_nat ((n_rows + 1) * row_dim * 4)) with (Z.to_nat (n_rows * row_dim * 4) + length (stored_row kv))%nat by (rewrite stored_row_length, Z.mul_add_distr_r; lia).
  apply splice_front. lia.
Qed.

Lemma comp_row_appended_witness : kv_cache_push_comp (floats [0x3f800000; 0]) 1 2 1 [0x40000000] = Some (floats [0x3f800000; 0x40000000], 2) /\ 1 + 1 <= 2.
Proof.
  split; [vm_compute; reflexivity|].
  exact (proj1 (proj2 (comp_row_appended (floats [0x3f800000; 0]) 1 2 1 [0x40000000] ltac:(done) ltac:(done) ltac:(done) ltac:(done)))).
Defined.

(** After a prefill of [n_tokens] the compressor keeps the rows of the
    unfinished window (and, at ratio 4, of the window before it) and every row
    behind them is empty: zeros, with a score of minus infinity. *)
Theorem finish_prefill_clears (kv score : bytes) (head_dim ratio n_tokens : Z) :
  0 < head_dim -> 0 < ratio -> 0 <= n_tokens ->
  zlen kv = coff ratio * head_dim * (coff ratio * ratio) * 4 -> zlen score = coff ratio * head_dim * (coff ratio * ratio) * 4 ->
  let width := coff ratio * head_dim in
  let kept := (coff ratio - 1) * ratio + n_tokens mod ratio in
  let cleared := ratio - n_tokens mod ratio in
  compressor_finish_prefill_state_cpu (kv, score) head_dim ratio n_tokens =
  (take (Z.to_nat (kept * width * 4)) kv ++ zeros (cleared * width * 4), take (Z.to_nat (kept * width * 4)) score ++ neg_infs (cleared * width)).
Proof.
  intros Hd Hr Hn Hk Hs width kept cleared. unfold compressor_finish_prefill_state_cpu. pose proof (Z.mod_pos_bound n_tokens ratio Hr) as Hm.
  rewrite (proj2 (Z.eqb_neq head_dim 0)), (proj2 (Z.eqb_neq ratio 0)) by lia. cbn [orb]. cbv zeta.
  fold width. replace (if ratio =? 4 then ratio + n_tokens mod ratio else n_tokens mod ratio) with kept by (unfold kept, coff; destruct (ratio =? 4); lia).
  replace ((if ratio =? 4 then 2 * ratio else ratio) - kept) with cleared by (unfold cleared, kept, coff; destruct (ratio =? 4); lia).
  assert (Hc : Z.of_nat (Z.to_nat cleared) = cleared) by lia. assert (Hsum : kept + cleared = coff ratio * ratio) by lia.
  assert (0 < coff ratio) by (unfold coff; destruct (ratio =? 4); lia).
  rewrite clear_rows_exact; rewrite ?Hc, ?Hsum; [done | unfold kept; nia | unfold width; nia | unfold width; lia | unfold width; lia].
Qed.

Lemma finish_prefill_clears_witness :
  compressor_finish_prefill_state_cpu (floats [1; 2], floats [3; 4]) 1 2 1 = (floats [1; 0], floats [3; DS4_NEG_INF]).
Proof. rewrite finish_prefill_clears by done. vm_compute. reflexivity. Defined.

(** The cache keeps its shape: what [kv_cache_init] allocates, a raw row, a
    compressed row and the end of a prefill all leave every count within its
    capacity and every buffer of its size. *)
Theorem cache_stays_well_formed (sh : ds4_shape) (ctx_size ratio : Z) (l : ds4_layer_cache) :
  shape_ok sh -> 0 < ctx_size -> ratio = 0 \/ ratio = 4 \/ ratio = 128 -> layer_wf sh ctx_size ratio l ->
  cache_wf sh ctx_size (kv_cache_init sh ctx_size 0) /\
  (forall kv, layer_wf sh ctx_size ratio (kv_cache_push_raw sh l kv)) /\
  (forall kv rows n, kv_cache_push_comp (lc_attn_comp_kv l) (lc_n_comp l) (lc_comp_cap l) (DS4_N_HEAD_DIM sh) kv = Some (rows, n) ->
     layer_wf sh ctx_size ratio (set_attn_comp rows n l)) /\
  (forall kv rows n, ratio = 4 -> kv_cache_push_comp (lc_index_comp_kv l) (lc_n_index_comp l) (lc_comp_cap l) (DS4_N_INDEXER_HEAD_DIM sh) kv = Some (rows, n) ->
     layer_wf sh ctx_size ratio (set_index_comp rows n l)) /\
  (forall n_tokens, 0 <= n_tokens -> Forall (layer_wf sh ctx_size ratio) (kv_cache_finish_prefill_states sh [l] n_tokens)).
Proof.
  intros Hsh Hc Hr Hw. pose proof (so_hd _ Hsh) as Hhd. pose proof (so_ihd _ Hsh) as Hihd. split_and!.
  - by apply kv_cache_init_wf.
  - intros kv. by apply push_raw_wf.
  - intros kv rows n Hp. apply push_comp_size in Hp; [|apply (lw_n_comp _ _ _ _ Hw)|lia|apply (lw_attn_comp _ _ _ _ Hw)]. destruct Hw, Hp as (Hl & -> & ?). constructor; cbn; try done; lia.
  - intros kv rows n -> Hp. apply push_comp_size in Hp; [|apply (lw_n_index _ _ _ _ Hw)|lia|by apply (lw_index_comp _ _ _ _ Hw)]. destruct Hw, Hp as (Hl & -> & ?). constructor; cbn; try done; try lia.
  - intros n Hn. by apply finish_layer_wf.
Qed.

Lemma cache_stays_well_formed_witness :
  let sh := Shape 1 1 1 1 2 [4] in layer_wf sh 4 4 (layer_init sh 4 2 4) /\ layer_wf sh 4 4 (kv_cache_push_raw sh (layer_init sh 4 2 4) [0x3f800000]).
Proof.
  intros sh. assert (Hsh : shape_ok sh) by (constructor; try (cbn; unfold DS4_MAX_LAYER; lia); try done; cbn; repeat constructor; auto).
  assert (Hw : layer_wf sh 4 4 (layer_init sh 4 2 4)) by (constructor; intros; done). split; [exact Hw|].
  destruct (cache_stays_well_formed sh 4 4 _ Hsh ltac:(done) ltac:(auto) Hw) as (_ & H & _). apply H.
Defined.
