(* ===== verification/Payload.v ===== *)
(** * Session payloads (ds4.c, CPU backend)

    What is stored of a session: a header of 13 little-endian fields that tells
    the model's layout, the tokens, the logits, the row counts of every layer and
    its live rows and compressor states.  Saving, the announced size, loading an
    arbitrary file with every check, and snapshots in memory.  The tensor-parallel
    rebuild, distributed sessions and the graph backends are not modelled here.
    Memory is little-endian, as in the C code's raw copies; writes to the file
    succeed. *)

From S2P Require Import Prelude KvHeader KvCache Session.
#[local] Open Scope Z_scope.
#[local] Open Scope stdpp_scope.

Definition DS4_SESSION_PAYLOAD_MAGIC : Z := 0x34565344.
Definition DS4_SESSION_PAYLOAD_VERSION : Z := 2.
Definition DS4_SESSION_PAYLOAD_U32_FIELDS : Z := 13.

Definition payload_put_u32 (v : Z) : bytes := [u8 v; u8 (Z.shiftr v 8); u8 (Z.shiftr v 16); u8 (Z.shiftr v 24)].

Definition payload_get_u32 (p : bytes) : Z :=
  Z.lor (Z.lor (Z.lor (cget p 0) (Z.shiftl (cget p 1) 8)) (Z.shiftl (cget p 2) 16)) (Z.shiftl (cget p 3) 24).

(** The messages a load fails with. *)
Inductive payload_error :=
  | ErrTruncated | ErrRead | ErrVersion | ErrContext | ErrLayout | ErrChunk | ErrRing | ErrCompCap | ErrCompRows | ErrIndexRows | ErrTrailing | ErrSnapshot.

(** A load stops with an error, or by writing behind a buffer's end: undefined
    behaviour in C. *)
Inductive stop := Fail (e : payload_error) | Overrun.

(** The file from its position on and the payload bytes not read yet. *)
Record io := Io { io_fp : bytes; io_remaining : Z }.

Definition payload_read_u32 (s : io) : payload_error + Z * io :=
  if io_remaining s <? 4 then inl ErrTruncated
  else if (length (io_fp s) <? 4)%nat then inl ErrRead
  else inr (payload_get_u32 (take 4 (io_fp s)), Io (drop 4 (io_fp s)) (io_remaining s - 4)).

(** Reads into [dst]: the buffer afterwards, and how it went. *)
Definition payload_read_bytes (dst : bytes) (n : Z) (s : io) : bytes * (stop + io) :=
  if io_remaining s <? n then (dst, inl (Fail ErrTruncated))
  else
    let got := take (Z.to_nat n) (io_fp s) in
    if (length dst <? length got)%nat then (dst, inl Overrun)
    else
      let dst := splice 0 got dst in
      if zlen got <? n then (dst, inl (Fail ErrRead))
      else (dst, inr (Io (drop (Z.to_nat n) (io_fp s)) (io_remaining s - n))).

(** [token_vec_push] of the words read. *)
Fixpoint read_tokens (n : nat) (s : io) : payload_error + list Z * io :=
  match n with
  | O => inr ([], s)
  | S n' =>
      match payload_read_u32 s with
      | inl e => inl e
      | inr (tok, s) => match read_tokens n' s with inl e => inl e | inr (toks, s) => inr (i32 tok :: toks, s) end
      end
  end.

(** The fields of the header, as they come. *)
Fixpoint read_fields (n : nat) (s : io) : payload_error + list Z * io :=
  match n with
  | O => inr ([], s)
  | S n' =>
      match payload_read_u32 s with
      | inl e => inl e
      | inr (v, s) => match read_fields n' s with inl e => inl e | inr (vs, s) => inr (v :: vs, s) end
      end
  end.

(** Row counts, each within the saved capacity and this layer's limit. *)
Fixpoint read_counts (err : payload_error) (saved_comp_cap : Z) (caps : list Z) (s : io) : payload_error + list Z * io :=
  match caps with
  | [] => inr ([], s)
  | cap :: caps' =>
      match payload_read_u32 s with
      | inl e => inl e
      | inr (v, s) =>
          if (saved_comp_cap <? v) || (cap <? v) then inl err
          else match read_counts err saved_comp_cap caps' s with inl e => inl e | inr (vs, s) => inr (v :: vs, s) end
      end
  end.

Section Payload.
Context (sh : ds4_shape).

#[local] Abbreviation cpu_session := (session (list ds4_layer_cache) bytes).

Definition session_cpu_raw_live_rows (s : cpu_session) : Z :=
  if negb (ss_checkpoint_valid s) then 0
  else
    let rows := ds4_default_raw_cap sh (u32 (ss_ctx_size s)) in
    if u32 (zlen (ss_checkpoint s)) <? rows then u32 (zlen (ss_checkpoint s)) else rows.

Definition session_cpu_comp_cap (ctx_size : Z) (cache : list ds4_layer_cache) : Z :=
  match List.find (fun l => lc_compress_ratio l =? 4) cache with
  | Some l => lc_comp_cap l
  | None =>
      match List.find (fun l => negb (lc_compress_ratio l =? 0)) cache with
      | Some l => lc_comp_cap l
      | None => u32 ctx_size
      end
  end.

(** ** Size *)

Definition layer_live_bytes (raw_live : Z) (l : ds4_layer_cache) : Z :=
  let ratio := lc_compress_ratio l in
  raw_live * DS4_N_HEAD_DIM sh * 4 +
  (if ratio =? 0 then 0
   else lc_n_comp l * DS4_N_HEAD_DIM sh * 4 + layer_attn_state_bytes sh ratio + layer_attn_state_bytes sh ratio +
     (if ratio =? 4 then lc_n_index_comp l * DS4_N_INDEXER_HEAD_DIM sh * 4 + layer_index_state_bytes sh ratio + layer_index_state_bytes sh ratio
      else 0)).

Definition session_cpu_payload_live_tensor_bytes (s : cpu_session) : Z :=
  foldl (fun bytes l => u64 (bytes + layer_live_bytes (session_cpu_raw_live_rows s) l)) 0 (ss_cache s).

Definition session_payload_bytes (s : cpu_session) : Z :=
  if negb (ss_checkpoint_valid s) then 0
  else u64 (DS4_SESSION_PAYLOAD_U32_FIELDS * 4 + zlen (ss_checkpoint s) * 4 + DS4_N_VOCAB sh * 4 + DS4_N_LAYER sh * 4 + DS4_N_LAYER sh * 4 +
            session_cpu_payload_live_tensor_bytes s).

(** ** Save *)

Definition payload_header (s : cpu_session) (prefill_cap : Z) : list Z :=
  let raw_cap := ds4_default_raw_cap sh (u32 (ss_ctx_size s)) in
  [DS4_SESSION_PAYLOAD_MAGIC; DS4_SESSION_PAYLOAD_VERSION; u32 (ss_ctx_size s); prefill_cap; raw_cap; raw_cap;
   session_cpu_comp_cap (ss_ctx_size s) (ss_cache s); u32 (zlen (ss_checkpoint s)); DS4_N_LAYER sh; DS4_N_HEAD_DIM sh;
   DS4_N_INDEXER_HEAD_DIM sh; DS4_N_VOCAB sh; session_cpu_raw_live_rows s].

(** [payload_write_bytes(fp, p, n)]. *)
Definition part (p : bytes) (n : Z) : bytes := take (Z.to_nat n) p.

(** A layer's part of the file; [None]: fewer raw rows than the checkpoint needs. *)
Definition save_layer (raw_live : Z) (l : ds4_layer_cache) : option bytes :=
  if lc_n_raw l <? raw_live then None
  else
    let raw_start := u32 (lc_n_raw l - raw_live) in
    let raw := part (drop (Z.to_nat (raw_start * DS4_N_HEAD_DIM sh * 4)) (lc_raw_kv l)) (u64 (raw_live * DS4_N_HEAD_DIM sh * 4)) in
    let ratio := lc_compress_ratio l in
    if ratio =? 0 then Some raw
    else
      let attn := part (lc_attn_comp_kv l) (u64 (lc_n_comp l * DS4_N_HEAD_DIM sh * 4)) ++
                  part (lc_attn_state_kv l) (layer_attn_state_bytes sh ratio) ++ part (lc_attn_state_score l) (layer_attn_state_bytes sh ratio) in
      if ratio =? 4 then
        Some (raw ++ attn ++ part (lc_index_comp_kv l) (u64 (lc_n_index_comp l * DS4_N_INDEXER_HEAD_DIM sh * 4)) ++
              part (lc_index_state_kv l) (layer_index_state_bytes sh ratio) ++ part (lc_index_state_score l) (layer_index_state_bytes sh ratio))
      else Some (raw ++ attn).

Fixpoint save_layers (raw_live : Z) (cache : list ds4_layer_cache) : option bytes :=
  match cache with
  | [] => Some []
  | l :: cache' =>
      match save_layer raw_live l with
      | None => None
      | Some b => app b <$> save_layers raw_live cache'
      end
  end.

(** The bytes written, or failure. *)
Definition session_save_payload (s : cpu_session) (prefill_cap : Z) : option bytes :=
  if negb (ss_checkpoint_valid s) then None
  else
    match ss_logits s with
    | None => None
    | Some logits =>
        let head := (payload_header s prefill_cap ≫= payload_put_u32) ++ (ss_checkpoint s ≫= fun t => payload_put_u32 (u32 t)) ++
                    part logits (DS4_N_VOCAB sh * 4) ++
                    (ss_cache s ≫= fun l => payload_put_u32 (lc_n_comp l)) ++ (ss_cache s ≫= fun l => payload_put_u32 (lc_n_index_comp l)) in
        app head <$> save_layers (session_cpu_raw_live_rows s) (ss_cache s)
    end.

(** ** Load *)

(** One read into a buffer of a layer. *)
Definition read_field (get : ds4_layer_cache -> bytes) (put : bytes -> ds4_layer_cache -> ds4_layer_cache) (n : Z)
  (st : ds4_layer_cache * io) : ds4_layer_cache * (stop + io) :=
  let '(b, r) := payload_read_bytes (get (fst st)) n (snd st) in (put b (fst st), r).

Definition and_then (r : ds4_layer_cache * (stop + io)) (k : ds4_layer_cache * io -> ds4_layer_cache * (stop + io)) : ds4_layer_cache * (stop + io) :=
  match r with (l, inr s) => k (l, s) | (l, inl e) => (l, inl e) end.

#[local] Notation "r >>> k" := (and_then r k) (at level 50, left associativity).

Definition load_layer (raw_live n_comp n_index_comp : Z) (layer : ds4_layer_cache) (s : io) : ds4_layer_cache * (stop + io) :=
  read_field lc_raw_kv (fun b l => set_raw b (lc_n_raw l) l) (u64 (raw_live * DS4_N_HEAD_DIM sh * 4)) (layer, s) >>> fun '(l, s) =>
  let l := set_raw (lc_raw_kv l) raw_live l in
  let ratio := lc_compress_ratio l in
  if ratio =? 0 then (l, inr s)
  else
    let l := set_index_comp (lc_index_comp_kv l) n_index_comp (set_attn_comp (lc_attn_comp_kv l) n_comp l) in
    read_field lc_attn_comp_kv (fun b l => set_attn_comp b (lc_n_comp l) l) (u64 (n_comp * DS4_N_HEAD_DIM sh * 4)) (l, s) >>>
    read_field lc_attn_state_kv (fun b l => set_attn_state b (lc_attn_state_score l) l) (layer_attn_state_bytes sh ratio) >>>
    read_field lc_attn_state_score (fun b l => set_attn_state (lc_attn_state_kv l) b l) (layer_attn_state_bytes sh ratio) >>> fun st =>
    if ratio =? 4 then
      read_field lc_index_comp_kv (fun b l => set_index_comp b (lc_n_index_comp l) l) (u64 (n_index_comp * DS4_N_INDEXER_HEAD_DIM sh * 4)) st >>>
      read_field lc_index_state_kv (fun b l => set_index_state b (lc_index_state_score l) l) (layer_index_state_bytes sh ratio) >>>
      read_field lc_index_state_score (fun b l => set_index_state (lc_index_state_kv l) b l) (layer_index_state_bytes sh ratio)
    else (fst st, inr (snd st)).

Fixpoint load_layers (raw_live : Z) (counts : list (Z * Z)) (cache : list ds4_layer_cache) (s : io) : list ds4_layer_cache * (stop + io) :=
  match cache, counts with
  | l :: cache', (n_comp, n_index_comp) :: counts' =>
      match load_layer raw_live n_comp n_index_comp l s with
      | (l, inl e) => (l :: cache', inl e)
      | (l, inr s) => let '(cache', r) := load_layers raw_live counts' cache' s in (l :: cache', r)
      end
  | _, _ => (cache, inr s)
  end.

Definition set_logits (logits : option bytes) (s : cpu_session) : cpu_session :=
  Session (ss_ctx_size s) (ss_checkpoint s) (ss_checkpoint_valid s) (ss_images s) (ss_cache s) logits (ss_mtp_draft_valid s)
    (ss_splitkv_segment s) (ss_splitkv_anchor_valid s).

Definition set_checkpoint (checkpoint : list Z) (valid : bool) (cache : list ds4_layer_cache) (s : cpu_session) : cpu_session :=
  Session (ss_ctx_size s) checkpoint valid (ss_images s) cache (ss_logits s) false (ss_splitkv_segment s) (ss_splitkv_anchor_valid s).

(** The checks of the header, in order. *)
Definition check_header (s : cpu_session) (h : list Z) : option payload_error :=
  let cpu_raw_cap := ds4_default_raw_cap sh (u32 (ss_ctx_size s)) in
  let saved_ctx := h !!! 2%nat in
  let saved_raw_cap := h !!! 4%nat in
  let saved_raw_window := h !!! 5%nat in
  let saved_comp_cap := h !!! 6%nat in
  let saved_tokens := h !!! 7%nat in
  let saved_raw_live := h !!! 12%nat in
  if (u32 (ss_ctx_size s) <? saved_ctx) || (u32 (ss_ctx_size s) <=? saved_tokens) then Some ErrContext
  else if negb (h !!! 8%nat =? DS4_N_LAYER sh) || negb (h !!! 9%nat =? DS4_N_HEAD_DIM sh) ||
          negb (h !!! 10%nat =? DS4_N_INDEXER_HEAD_DIM sh) || negb (h !!! 11%nat =? DS4_N_VOCAB sh) then Some ErrLayout
  else if negb (saved_raw_window =? cpu_raw_cap) then Some ErrChunk
  else if (saved_raw_cap =? 0) || negb (saved_raw_live =? if saved_tokens <? saved_raw_window then saved_tokens else saved_raw_window) ||
          (saved_raw_cap <? saved_raw_live) || (cpu_raw_cap <? saved_raw_live) then Some ErrRing
  else if session_cpu_comp_cap (ss_ctx_size s) (ss_cache s) <? saved_comp_cap then Some ErrCompCap
  else None.

(** The logits buffer before any were computed; nothing reads it. *)
Definition logits_buffer (s : cpu_session) : bytes := default (zeros (DS4_N_VOCAB sh * 4)) (ss_logits s).

(** How the load ended (with the file behind the payload) and the session. *)
Definition session_load_payload (s : cpu_session) (fp : bytes) (payload_bytes : Z) : (stop + bytes) * cpu_session :=
  match read_fields 13 (Io fp payload_bytes) with
  | inl e => (inl (Fail e), s)
  | inr (h, st) =>
    if negb (h !!! 0%nat =? DS4_SESSION_PAYLOAD_MAGIC) || negb (h !!! 1%nat =? DS4_SESSION_PAYLOAD_VERSION) then (inl (Fail ErrVersion), s)
    else
    match check_header s h with
    | Some e => (inl (Fail e), s)
    | None =>
    match read_tokens (Z.to_nat (h !!! 7%nat)) st with
    | inl e => (inl (Fail e), s)
    | inr (tokens, st) =>
      let '(logits, r) := payload_read_bytes (logits_buffer s) (DS4_N_VOCAB sh * 4) st in
      let s := set_logits (Some logits) s in
      match r with
      | inl e => (inl e, s)
      | inr st =>
        let cpu_comp_cap := session_cpu_comp_cap (ss_ctx_size s) (ss_cache s) in
        let caps := replicate (Z.to_nat (DS4_N_LAYER sh)) cpu_comp_cap in
        match read_counts ErrCompRows (h !!! 6%nat) caps st with
        | inl e => (inl (Fail e), s)
        | inr (n_comp, st) =>
        match read_counts ErrIndexRows (h !!! 6%nat) caps st with
        | inl e => (inl (Fail e), s)
        | inr (n_index_comp, st) =>
          let '(cache, r) := load_layers (h !!! 12%nat) (zip n_comp n_index_comp) (KvCache.kv_cache_init sh (u32 (ss_ctx_size s)) 0) st in
          let s := set_checkpoint (ss_checkpoint s) false cache s in
          match r with
          | inl e => (inl e, s)
          | inr st =>
            if negb (io_remaining st =? 0) then (inl (Fail ErrTrailing), s)
            else (inr (io_fp st), set_checkpoint tokens true cache s)
          end
        end
        end
      end
    end
    end
  end.
End Payload.

(** ** Reading *)

(** [s'] is [s] after [n] bytes. *)
Definition advanced (n : Z) (s s' : io) : Prop :=
  exists got, zlen got = n /\ io_fp s = got ++ io_fp s' /\ io_remaining s = n + io_remaining s' /\ 0 <= io_remaining s'.

Lemma advanced_trans n m s s' s'' : advanced n s s' -> advanced m s' s'' -> advanced (n + m) s s''.
Proof.
  intros (a & Ha & Hf & Hr & _) (b & Hb & Hf' & Hr' & H0). exists (a ++ b). rewrite zlen_app, <- (assoc_L (++)), <- Hf'. split_and!; try done; lia.
Qed.

Lemma put_u32_le v : payload_put_u32 v = le_bytes 4 v.
Proof. unfold payload_put_u32. cbn [le_bytes]. by rewrite !Z.shiftr_shiftr by lia. Qed.

Lemma get_u32_le p : length p = 4%nat -> payload_get_u32 p = le_val p.
Proof.
  intros H. destruct p as [|a [|b [|c [|d [|]]]]]; try discriminate H. unfold payload_get_u32, cget. cbn [nth le_val].
  rewrite !Z.shiftl_lor, !Z.shiftl_shiftl, Z.shiftl_0_l, Z.lor_0_r by lia. by rewrite <- !Z.lor_assoc.
Qed.

Lemma read_u32_put v rest r : is_u32 v -> 0 <= r -> payload_read_u32 (Io (payload_put_u32 v ++ rest) (4 + r)) = inr (v, Io rest r).
Proof.
  intros Hv Hr. unfold payload_read_u32. cbn [io_fp io_remaining]. rewrite (proj2 (Z.ltb_ge _ _)) by lia.
  rewrite put_u32_le. pose proof (le_bytes_length 4 v) as Hl. rewrite length_app, Hl. cbn [Nat.add Nat.ltb Nat.leb].
  rewrite take_app_length', drop_app_length' by done. rewrite get_u32_le, le_val_bytes4 by done. do 3 f_equal. lia.
Qed.

Lemma read_u32_ok s v s' : bytes_ok (io_fp s) -> payload_read_u32 s = inr (v, s') -> advanced 4 s s' /\ is_u32 v.
Proof.
  unfold payload_read_u32. intros Hb. destruct (Z.ltb_spec (io_remaining s) 4); [done|]. destruct (Nat.ltb_spec (length (io_fp s)) 4); [done|]. intros [= <- <-].
  assert (Hl : length (take 4 (io_fp s)) = 4%nat) by (rewrite length_take; lia). split.
  - exists (take 4 (io_fp s)). cbn [io_fp io_remaining]. rewrite take_drop. unfold zlen. rewrite Hl. split_and!; try done; lia.
  - rewrite get_u32_le by done. pose proof (le_val_range (take 4 (io_fp s)) ltac:(by apply Forall_take)) as Hv. unfold zlen in Hv. rewrite Hl in Hv.
    change (2 ^ (8 * Z.of_nat 4)) with 4294967296 in Hv. unfold is_u32, U32_MAX. lia.
Qed.

(** A read that fits its buffer: it keeps the buffer's size and does not overrun. *)
Lemma read_bytes_fits dst n s : 0 <= n <= zlen dst ->
  match payload_read_bytes dst n s with
  | (b, inr s') => zlen b = zlen dst /\ advanced n s s'
  | (b, inl e) => zlen b = zlen dst /\ e <> Overrun
  end.
Proof.
  intros Hn. unfold payload_read_bytes. destruct (Z.ltb_spec (io_remaining s) n); [done|]. set (got := take (Z.to_nat n) (io_fp s)).
  assert (Hg : (length got <= Z.to_nat n)%nat) by (unfold got; rewrite length_take; lia). unfold zlen in *.
  destruct (Nat.ltb_spec (length dst) (length got)); [lia|].
  assert (Hs : length (splice 0 got dst) = length dst) by (apply splice_length; lia).
  destruct (Z.ltb_spec (Z.of_nat (length got)) n); [by rewrite Hs|]. rewrite Hs. split; [done|].
  exists got. cbn [io_fp io_remaining]. unfold got at 2. rewrite take_drop. unfold zlen. split_and!; try done; lia.
Qed.

(** Reading back what was written. *)
Lemma read_bytes_put dst src rest r : (length src <= length dst)%nat -> 0 <= r ->
  payload_read_bytes dst (zlen src) (Io (src ++ rest) (zlen src + r)) = (src ++ drop (length src) dst, inr (Io rest r)).
Proof.
  intros Hl Hr. unfold payload_read_bytes. cbn [io_fp io_remaining]. rewrite (proj2 (Z.ltb_ge _ _)) by lia.
  assert (Hn : Z.to_nat (zlen src) = length src) by (unfold zlen; lia). rewrite Hn, take_app_length, drop_app_length.
  rewrite (proj2 (Nat.ltb_ge _ _)) by lia. rewrite (proj2 (Z.ltb_ge _ _)) by lia. rewrite splice_0. do 3 f_equal. lia.
Qed.

Lemma read_tokens_put toks rest r : Forall (fun t => - INT32_MAX - 1 <= t <= INT32_MAX) toks -> 0 <= r ->
  read_tokens (length toks) (Io ((toks ≫= fun t => payload_put_u32 (u32 t)) ++ rest) (4 * zlen toks + r)) = inr (toks, Io rest r).
Proof.
  intros Ht Hr. induction Ht as [|t toks Ht Hts IH]; [do 3 f_equal; lia|]. cbn [length read_tokens]. rewrite bind_cons, <- (assoc_L (++)).
  replace (4 * zlen (t :: toks) + r) with (4 + (4 * zlen toks + r)) by (unfold zlen; cbn [length]; lia).
  rewrite read_u32_put by (try apply u32_range; pose proof (zlen_nonneg toks); lia). rewrite IH. do 3 f_equal. by apply i32_u32.
Qed.

Lemma read_fields_put vs rest r : Forall is_u32 vs -> 0 <= r ->
  read_fields (length vs) (Io ((vs ≫= payload_put_u32) ++ rest) (4 * zlen vs + r)) = inr (vs, Io rest r).
Proof.
  intros Ht Hr. induction Ht as [|t vs Ht Hts IH]; [do 3 f_equal; lia|]. cbn [length read_fields]. rewrite bind_cons, <- (assoc_L (++)).
  replace (4 * zlen (t :: vs) + r) with (4 + (4 * zlen vs + r)) by (unfold zlen; cbn [length]; lia).
  rewrite read_u32_put by (try done; pose proof (zlen_nonneg vs); lia). by rewrite IH.
Qed.

Lemma read_counts_put err saved caps vs rest r : Forall2 (fun cap v => is_u32 v /\ v <= saved /\ v <= cap) caps vs -> 0 <= r ->
  read_counts err saved caps (Io ((vs ≫= payload_put_u32) ++ rest) (4 * zlen vs + r)) = inr (vs, Io rest r).
Proof.
  intros Ht Hr. induction Ht as [|cap v caps vs (Hu & Hs & Hc) Hts IH]; [cbn; do 3 f_equal; lia|]. cbn [read_counts]. rewrite bind_cons, <- (assoc_L (++)).
  replace (4 * zlen (v :: vs) + r) with (4 + (4 * zlen vs + r)) by (unfold zlen; cbn [length]; lia).
  rewrite read_u32_put by (try done; pose proof (zlen_nonneg vs); lia). rewrite !(proj2 (Z.ltb_ge _ _)) by lia. cbn [orb]. by rewrite IH.
Qed.

(** ** Layers *)

Section Layers.
Context (sh : ds4_shape) (Hsh : shape_ok sh).
#[local] Abbreviation hd := (DS4_N_HEAD_DIM sh).
#[local] Abbreviation ihd := (DS4_N_INDEXER_HEAD_DIM sh).

(** The last [raw_live] raw rows and the compressed rows of a layer. *)
Definition live_raw (raw_live : Z) (l : ds4_layer_cache) : bytes :=
  part (drop (Z.to_nat ((lc_n_raw l - raw_live) * hd * 4)) (lc_raw_kv l)) (raw_live * hd * 4).
Definition live_attn (l : ds4_layer_cache) : bytes := part (lc_attn_comp_kv l) (lc_n_comp l * hd * 4).
Definition live_index (l : ds4_layer_cache) : bytes := part (lc_index_comp_kv l) (lc_n_index_comp l * ihd * 4).

(** What the next token depends on is the same in both layers. *)
Record same_live (raw_live : Z) (l l' : ds4_layer_cache) : Prop := {
  sl_n_raw : lc_n_raw l' = raw_live;
  sl_raw : live_raw raw_live l' = live_raw raw_live l;
  sl_ratio : lc_compress_ratio l' = lc_compress_ratio l;
  sl_n_comp : lc_compress_ratio l <> 0 -> lc_n_comp l' = lc_n_comp l;
  sl_attn : lc_compress_ratio l <> 0 -> live_attn l' = live_attn l;
  sl_attn_state : lc_compress_ratio l <> 0 -> lc_attn_state_kv l' = lc_attn_state_kv l /\ lc_attn_state_score l' = lc_attn_state_score l;
  sl_n_index : lc_compress_ratio l <> 0 -> lc_n_index_comp l' = lc_n_index_comp l;
  sl_index : lc_compress_ratio l = 4 -> live_index l' = live_index l;
  sl_index_state : lc_compress_ratio l = 4 -> lc_index_state_kv l' = lc_index_state_kv l /\ lc_index_state_score l' = lc_index_state_score l }.

Definition layer_file (raw_live : Z) (l : ds4_layer_cache) : bytes :=
  live_raw raw_live l ++
  (if lc_compress_ratio l =? 0 then []
   else live_attn l ++ lc_attn_state_kv l ++ lc_attn_state_score l ++
     (if lc_compress_ratio l =? 4 then live_index l ++ lc_index_state_kv l ++ lc_index_state_score l else [])).

Lemma same_live_file raw_live l l' : same_live raw_live l l' -> layer_file raw_live l' = layer_file raw_live l.
Proof.
  intros [Hn Hr Hra Hc Ha Hst Hni Hi His]. unfold layer_file. rewrite Hr, Hra. f_equal. destruct (Z.eqb_spec (lc_compress_ratio l) 0); [done|].
  destruct Hst as [-> ->]; [done|]. rewrite Ha by done. do 3 f_equal. destruct (Z.eqb_spec (lc_compress_ratio l) 4) as [E|]; [|done].
  destruct His as [-> ->]; [done|]. by rewrite Hi.
Qed.

Lemma part_length p n : 0 <= n <= zlen p -> zlen (part p n) = n.
Proof. unfold part, zlen. rewrite length_take. lia. Qed.

Lemma part_all p n : n = zlen p -> part p n = p.
Proof. unfold part, zlen. intros ->. apply take_ge. lia. Qed.

Lemma comp_rows_small ctx_size ratio : 0 < ctx_size <= INT32_MAX -> ratio = 0 \/ ratio = 4 \/ ratio = 128 -> 0 <= comp_rows ctx_size ratio <= 536870913.
Proof.
  unfold INT32_MAX, comp_rows. intros Hc [-> | [-> | ->]]; cbn [Z.eqb Pos.eqb]; [lia|zdiv|zdiv].
Qed.

Lemma rows_mono n c d : 0 <= n <= c -> 0 < d -> 0 <= n * d * 4 <= c * d * 4.
Proof. intros. assert (0 <= n * d) by nia. assert (n * d <= c * d) by nia. lia. Qed.

Lemma small64 n d : 0 <= n <= 536870913 -> 0 < d <= 65536 -> u64 (n * d * 4) = n * d * 4 /\ 0 <= n * d * 4 <= 2 ^ 48.
Proof. intros. assert (0 <= n * d * 4 <= 2 ^ 48) by nia. split; [|done]. apply u64_small. unfold is_u64, U64_MAX. lia. Qed.

Section Layer.
Context (ctx_size ratio raw_live : Z) (l : ds4_layer_cache).
Context (Hctx : 0 < ctx_size <= INT32_MAX) (Hratio : ratio = 0 \/ ratio = 4 \/ ratio = 128) (Hw : layer_wf sh ctx_size ratio l)
  (Hlive : 0 <= raw_live <= lc_n_raw l).

Lemma raw_live_small : 0 <= raw_live <= 65536 /\ 0 <= lc_n_raw l <= 65536 /\ 0 <= lc_n_comp l <= 536870913 /\ (ratio = 4 -> lc_n_index_comp l <= 536870913).
Proof.
  pose proof (default_raw_cap_range sh Hsh ctx_size ltac:(lia)). rewrite <- (lw_cap _ _ _ _ Hw) in *. pose proof (lw_n_raw _ _ _ _ Hw).
  pose proof (comp_rows_small _ _ Hctx Hratio). rewrite <- (lw_comp_cap _ _ _ _ Hw) in *. pose proof (lw_n_comp _ _ _ _ Hw). pose proof (lw_index_cap _ _ _ _ Hw). lia.
Qed.

Lemma save_layer_eq : save_layer sh raw_live l = Some (layer_file raw_live l).
Proof.
  destruct raw_live_small as (H1 & H2 & H3 & H4). pose proof (so_hd _ Hsh) as Hhd. pose proof (so_ihd _ Hsh) as Hihd.
  unfold save_layer, layer_file, live_raw, live_attn, live_index. rewrite (proj2 (Z.ltb_ge _ _)) by lia.
  rewrite u32_small by (unfold is_u32, U32_MAX; lia).
  rewrite (proj1 (small64 raw_live _ ltac:(lia) Hhd)), (proj1 (small64 (lc_n_comp l) _ ltac:(lia) Hhd)). rewrite (lw_ratio _ _ _ _ Hw).
  destruct (Z.eqb_spec ratio 0); [by rewrite app_nil_r|].
  rewrite (part_all (lc_attn_state_kv l)), (part_all (lc_attn_state_score l)) by (symmetry; apply Hw).
  destruct (Z.eqb_spec ratio 4) as [E|]; [|by rewrite app_nil_r].
  rewrite (proj1 (small64 (lc_n_index_comp l) _ ltac:(pose proof (lw_n_index _ _ _ _ Hw); lia) Hihd)).
  rewrite (part_all (lc_index_state_kv l)), (part_all (lc_index_state_score l)) by (symmetry; by apply Hw). by rewrite <- !(assoc_L (++)).
Qed.

Lemma live_raw_length : zlen (live_raw raw_live l) = raw_live * hd * 4.
Proof.
  destruct raw_live_small as (H1 & H2 & _). pose proof (so_hd _ Hsh) as Hhd. pose proof (lw_raw _ _ _ _ Hw) as Hr. pose proof (lw_n_raw _ _ _ _ Hw).
  unfold live_raw. apply part_length. unfold zlen in *. rewrite length_drop. nia.
Qed.

Lemma live_attn_length : zlen (live_attn l) = lc_n_comp l * hd * 4.
Proof.
  pose proof (so_hd _ Hsh). pose proof (lw_n_comp _ _ _ _ Hw). apply part_length. rewrite (lw_attn_comp _ _ _ _ Hw). apply rows_mono; lia.
Qed.

Lemma live_index_length : ratio = 4 -> zlen (live_index l) = lc_n_index_comp l * ihd * 4.
Proof.
  intros E. pose proof (so_ihd _ Hsh). pose proof (lw_n_index _ _ _ _ Hw). pose proof (lw_index_cap _ _ _ _ Hw E). apply part_length.
  rewrite (lw_index_comp _ _ _ _ Hw E). apply rows_mono; lia.
Qed.

Lemma layer_file_length : zlen (layer_file raw_live l) = layer_live_bytes sh raw_live l.
Proof.
  unfold layer_file, layer_live_bytes. rewrite zlen_app, live_raw_length, (lw_ratio _ _ _ _ Hw). f_equal.
  destruct (Z.eqb_spec ratio 0); [done|]. rewrite !zlen_app, live_attn_length, (lw_attn_kv _ _ _ _ Hw), (lw_attn_score _ _ _ _ Hw).
  destruct (Z.eqb_spec ratio 4) as [E|]; [|change (zlen (@nil Z)) with 0; lia].
  rewrite !zlen_app, (live_index_length E), (lw_index_kv _ _ _ _ Hw E), (lw_index_score _ _ _ _ Hw E). lia.
Qed.
End Layer.

(** ** A layer read back *)

Lemma read_field_put get put n src l0 rest r : n = zlen src -> zlen src <= zlen (get l0) -> 0 <= r ->
  read_field get put n (l0, Io (src ++ rest) (n + r)) = (put (src ++ drop (length src) (get l0)) l0, inr (Io rest r)).
Proof. intros -> Hl Hr. unfold read_field. cbn [fst snd]. unfold zlen in Hl. rewrite read_bytes_put by lia. done. Qed.

Lemma part_prefix p q n : n = zlen p -> part (p ++ q) n = p.
Proof. intros ->. unfold part, zlen. apply take_app_length'. lia. Qed.

Lemma overwrite_all (src dst : bytes) : zlen src = zlen dst -> src ++ drop (length src) dst = src.
Proof. unfold zlen. intros H. rewrite drop_ge by lia. apply app_nil_r. Qed.

Lemma zlen_overwrite (src dst : bytes) : zlen src <= zlen dst -> zlen (src ++ drop (length src) dst) = zlen dst.
Proof. unfold zlen. intros H. rewrite length_app, length_drop. lia. Qed.

(** A buffer after [src] was read into it. *)
Definition over (src dst : bytes) : bytes := src ++ drop (length src) dst.

(** Three reads in a row: the compressed rows and the two states. *)
Lemma read_attn_put nb sb comp kv score l0 rest r : 0 <= r -> nb = zlen comp -> sb = zlen kv -> sb = zlen score ->
  zlen comp <= zlen (lc_attn_comp_kv l0) -> zlen (lc_attn_state_kv l0) = sb -> zlen (lc_attn_state_score l0) = sb ->
  and_then (and_then (read_field lc_attn_comp_kv (fun b l => set_attn_comp b (lc_n_comp l) l) nb
      (l0, Io (comp ++ kv ++ score ++ rest) (nb + (sb + (sb + r)))))
    (read_field lc_attn_state_kv (fun b l => set_attn_state b (lc_attn_state_score l) l) sb))
    (read_field lc_attn_state_score (fun b l => set_attn_state (lc_attn_state_kv l) b l) sb) =
  (set_attn_state kv score (set_attn_comp (over comp (lc_attn_comp_kv l0)) (lc_n_comp l0) l0), inr (Io rest r)).
Proof.
  intros Hr -> Hk Hs Hc Hk0 Hs0. pose proof (zlen_nonneg kv). rewrite read_field_put by lia. cbn [and_then].
  rewrite read_field_put by (cbn [lc_attn_state_kv set_attn_comp]; lia). cbn [and_then].
  rewrite read_field_put by (cbn [lc_attn_state_score set_attn_comp set_attn_state]; lia).
  cbn [lc_attn_state_kv lc_attn_state_score set_attn_comp set_attn_state]. rewrite !overwrite_all by congruence. done.
Qed.

Lemma read_index_put nb sb comp kv score l0 rest r : 0 <= r -> nb = zlen comp -> sb = zlen kv -> sb = zlen score ->
  zlen comp <= zlen (lc_index_comp_kv l0) -> zlen (lc_index_state_kv l0) = sb -> zlen (lc_index_state_score l0) = sb ->
  and_then (and_then (read_field lc_index_comp_kv (fun b l => set_index_comp b (lc_n_index_comp l) l) nb
      (l0, Io (comp ++ kv ++ score ++ rest) (nb + (sb + (sb + r)))))
    (read_field lc_index_state_kv (fun b l => set_index_state b (lc_index_state_score l) l) sb))
    (read_field lc_index_state_score (fun b l => set_index_state (lc_index_state_kv l) b l) sb) =
  (set_index_state kv score (set_index_comp (over comp (lc_index_comp_kv l0)) (lc_n_index_comp l0) l0), inr (Io rest r)).
Proof.
  intros Hr -> Hk Hs Hc Hk0 Hs0. pose proof (zlen_nonneg kv). rewrite read_field_put by lia. cbn [and_then].
  rewrite read_field_put by (cbn [lc_index_state_kv set_index_comp]; lia). cbn [and_then].
  rewrite read_field_put by (cbn [lc_index_state_score set_index_comp set_index_state]; lia).
  cbn [lc_index_state_kv lc_index_state_score set_index_comp set_index_state]. rewrite !overwrite_all by congruence. done.
Qed.

(** The layer [l0] with what the file holds of [l]. *)
Definition restored (raw_live : Z) (l l0 : ds4_layer_cache) : ds4_layer_cache :=
  let l1 := set_raw (over (live_raw raw_live l) (lc_raw_kv l0)) raw_live l0 in
  if lc_compress_ratio l =? 0 then l1
  else
    let l2 := set_attn_state (lc_attn_state_kv l) (lc_attn_state_score l) (set_attn_comp (over (live_attn l) (lc_attn_comp_kv l0)) (lc_n_comp l)
                (set_index_comp (lc_index_comp_kv l0) (lc_n_index_comp l) l1)) in
    if lc_compress_ratio l =? 4 then
      set_index_state (lc_index_state_kv l) (lc_index_state_score l) (set_index_comp (over (live_index l) (lc_index_comp_kv l0)) (lc_n_index_comp l) l2)
    else l2.

Section Restore.
Context (ctx_size ctx_size0 ratio raw_live : Z) (l l0 : ds4_layer_cache).
Context (Hctx : 0 < ctx_size <= INT32_MAX) (Hctx0 : 0 < ctx_size0 <= INT32_MAX) (Hle : ctx_size <= ctx_size0)
  (Hratio : ratio = 0 \/ ratio = 4 \/ ratio = 128) (Hw : layer_wf sh ctx_size ratio l) (Hw0 : layer_wf sh ctx_size0 ratio l0)
  (Hlive : 0 <= raw_live <= lc_n_raw l) (Hlive0 : raw_live <= lc_cap_raw l0).

Lemma comp_cap_grows : lc_comp_cap l <= lc_comp_cap l0.
Proof.
  rewrite (lw_comp_cap _ _ _ _ Hw), (lw_comp_cap _ _ _ _ Hw0). unfold comp_rows.
  destruct Hratio as [-> | [-> | ->]]; cbn [Z.eqb Pos.eqb]; [lia|pose proof (Z.div_le_mono ctx_size ctx_size0 4); lia|pose proof (Z.div_le_mono ctx_size ctx_size0 128); lia].
Qed.

Lemma restored_fits : zlen (live_raw raw_live l) <= zlen (lc_raw_kv l0) /\ zlen (live_attn l) <= zlen (lc_attn_comp_kv l0) /\
  (ratio = 4 -> zlen (live_index l) <= zlen (lc_index_comp_kv l0)).
Proof.
  pose proof (so_hd _ Hsh) as Hhd. pose proof (so_ihd _ Hsh) as Hihd. pose proof comp_cap_grows as Hcap. pose proof (lw_n_comp _ _ _ _ Hw) as Hnc.
  pose proof (live_raw_length ctx_size ratio raw_live l Hctx Hratio Hw Hlive) as Hlr. pose proof (live_attn_length ctx_size ratio l Hw) as Hla.
  rewrite Hlr, Hla, (lw_raw _ _ _ _ Hw0), (lw_attn_comp _ _ _ _ Hw0). split_and!; [apply rows_mono; lia..|].
  intros E. rewrite (live_index_length ctx_size ratio l Hw E), (lw_index_comp _ _ _ _ Hw0 E). apply rows_mono; [|lia].
  pose proof (lw_n_index _ _ _ _ Hw). pose proof (lw_index_cap _ _ _ _ Hw E). lia.
Qed.

Lemma load_layer_file rest r : 0 <= r ->
  load_layer sh raw_live (lc_n_comp l) (lc_n_index_comp l) l0 (Io (layer_file raw_live l ++ rest) (zlen (layer_file raw_live l) + r)) =
  (restored raw_live l l0, inr (Io rest r)).
Proof.
  intros Hr. destruct (raw_live_small ctx_size ratio raw_live l Hctx Hratio Hw Hlive) as (H1 & H2 & H3 & H4).
  destruct restored_fits as (F1 & F2 & F3). destruct (state_bytes_small sh Hsh ratio Hratio) as (_ & _ & Hsb & Hsi).
  pose proof (live_raw_length ctx_size ratio raw_live l Hctx Hratio Hw Hlive) as Hlr.
  pose proof (live_attn_length ctx_size ratio l Hw) as Hla. pose proof (live_index_length ctx_size ratio l Hw) as Hli.
  unfold load_layer, layer_file, restored. rewrite (lw_ratio _ _ _ _ Hw).
  rewrite (proj1 (small64 raw_live _ ltac:(lia) (so_hd _ Hsh))), (proj1 (small64 (lc_n_comp l) _ ltac:(lia) (so_hd _ Hsh))), <- Hlr, <- Hla.
  set (body := if ratio =? 0 then [] else _). rewrite zlen_app, <- (assoc_L (++)), <- Z.add_assoc. pose proof (zlen_nonneg body).
  rewrite read_field_put by lia. cbn [and_then]. fold (over (live_raw raw_live l) (lc_raw_kv l0)).
  cbn [set_raw lc_raw_kv lc_compress_ratio]. rewrite (lw_ratio _ _ _ _ Hw0). unfold body. clear body H.
  destruct (Z.eqb_spec ratio 0) as [E|E]; [done|]. set (tail := if ratio =? 4 then _ else []). pose proof (zlen_nonneg tail).
  rewrite !zlen_app, <- !(assoc_L (++)), <- !Z.add_assoc, (lw_attn_kv _ _ _ _ Hw), (lw_attn_score _ _ _ _ Hw).
  rewrite read_attn_put; [|lia|done|symmetry; apply Hw|symmetry; apply Hw|done|apply Hw0|apply Hw0]. cbn [and_then fst snd].
  cbn [lc_attn_comp_kv lc_n_comp set_attn_comp set_index_comp set_raw]. unfold tail. clear tail H.
  destruct (Z.eqb_spec ratio 4) as [E4|E4]; [|done]. rewrite (proj1 (small64 (lc_n_index_comp l) _ ltac:(pose proof (lw_n_index _ _ _ _ Hw); lia) (so_ihd _ Hsh))), <- (Hli E4).
  rewrite !zlen_app, <- !(assoc_L (++)), <- !Z.add_assoc, (lw_index_kv _ _ _ _ Hw E4), (lw_index_score _ _ _ _ Hw E4).
  rewrite read_index_put; [reflexivity|lia|done|symmetry; by apply Hw|symmetry; by apply Hw|by apply F3|by apply Hw0|by apply Hw0].
Qed.

Lemma restored_live : same_live raw_live l (restored raw_live l l0).
Proof.
  pose proof (live_raw_length ctx_size ratio raw_live l Hctx Hratio Hw Hlive) as Hlr.
  pose proof (live_attn_length ctx_size ratio l Hw) as Hla. pose proof (live_index_length ctx_size ratio l Hw) as Hli.
  pose proof (lw_ratio _ _ _ _ Hw) as E1. pose proof (lw_ratio _ _ _ _ Hw0) as E2. unfold restored.
  assert (Hraw : forall x, lc_raw_kv x = over (live_raw raw_live l) (lc_raw_kv l0) -> lc_n_raw x = raw_live -> live_raw raw_live x = live_raw raw_live l).
  { intros x Hx Hn. unfold live_raw at 1. rewrite Hx, Hn, Z.sub_diag, !Z.mul_0_l, <- Hlr. unfold over. cbn [Z.to_nat]. rewrite drop_0. by apply part_prefix. }
  assert (Hat : forall x, lc_attn_comp_kv x = over (live_attn l) (lc_attn_comp_kv l0) -> lc_n_comp x = lc_n_comp l -> live_attn x = live_attn l).
  { intros x Hx Hn. unfold live_attn at 1. rewrite Hx, Hn, <- Hla. by apply part_prefix. }
  assert (Hix : forall x, ratio = 4 -> lc_index_comp_kv x = over (live_index l) (lc_index_comp_kv l0) -> lc_n_index_comp x = lc_n_index_comp l -> live_index x = live_index l).
  { intros x E Hx Hn. unfold live_index at 1. rewrite Hx, Hn, <- Hli by done. by apply part_prefix. }
  rewrite E1. destruct (Z.eqb_spec ratio 0) as [E|E]; [|destruct (Z.eqb_spec ratio 4) as [E4|E4]].
  - split; rewrite ?E1; try (intros; lia); [done | by apply Hraw | exact E2].
  - split; rewrite ?E1; try (intros; lia); [done | by apply Hraw | exact E2 | done | intros; by apply Hat | done | done | intros; by apply Hix | done].
  - split; rewrite ?E1; try (intros; lia); [done | by apply Hraw | exact E2 | done | intros; by apply Hat | done | done].
Qed.

Lemma restored_wf : layer_wf sh ctx_size0 ratio (restored raw_live l l0).
Proof.
  destruct restored_fits as (F1 & F2 & F3). pose proof comp_cap_grows as Hcap. pose proof (lw_n_comp _ _ _ _ Hw) as Hnc. pose proof (lw_n_index _ _ _ _ Hw) as Hni.
  pose proof (lw_index_cap _ _ _ _ Hw) as Hnic. pose proof (zlen_overwrite _ _ F1) as Z1. pose proof (zlen_overwrite _ _ F2) as Z2. fold (over (live_raw raw_live l) (lc_raw_kv l0)) in Z1.
  fold (over (live_attn l) (lc_attn_comp_kv l0)) in Z2.
  assert (Z3 : ratio = 4 -> zlen (over (live_index l) (lc_index_comp_kv l0)) = zlen (lc_index_comp_kv l0)) by (intros E; by apply zlen_overwrite, F3).
  unfold restored. rewrite (lw_ratio _ _ _ _ Hw). destruct Hw0 as [W1 W2 W3 W4 W5 W6 W7 W8 W9 W10 W11 W12 W13 W14 W15], Hw as [V1 V2 V3 V4 V5 V6 V7 V8 V9 V10 V11 V12 V13 V14 V15].
  destruct (Z.eqb_spec ratio 0) as [E|E]; [|destruct (Z.eqb_spec ratio 4) as [E4|E4]].
  - constructor; cbn [set_raw lc_cap_raw lc_n_raw lc_raw_kv lc_compress_ratio lc_comp_cap lc_n_comp lc_attn_comp_kv lc_attn_state_kv lc_attn_state_score
      lc_n_index_comp lc_index_comp_kv lc_index_state_kv lc_index_state_score]; try done; try congruence; clear W11 W12 W13 W14 W15 V11 V12 V13 V14 V15 F3 Z3 Hnic; lia.
  - constructor; cbn [set_raw set_attn_comp set_attn_state set_index_comp set_index_state lc_cap_raw lc_n_raw lc_raw_kv lc_compress_ratio lc_comp_cap lc_n_comp
      lc_attn_comp_kv lc_attn_state_kv lc_attn_state_score lc_n_index_comp lc_index_comp_kv lc_index_state_kv lc_index_state_score]; try done; try congruence;
      intros; specialize (Hnic E4); specialize (Z3 E4); specialize (W13 E4); clear W11 W12 W14 W15 V11 V12 V13 V14 V15 F3; auto; try congruence; lia.
  - constructor; cbn [set_raw set_attn_comp set_attn_state set_index_comp set_index_state lc_cap_raw lc_n_raw lc_raw_kv lc_compress_ratio lc_comp_cap lc_n_comp
      lc_attn_comp_kv lc_attn_state_kv lc_attn_state_score lc_n_index_comp lc_index_comp_kv lc_index_state_kv lc_index_state_score]; try done; try congruence;
      intros; clear W11 W12 W13 W14 W15 V11 V12 V13 V14 V15 F3 Z3 Hnic; auto; try congruence; lia.
Qed.
End Restore.

(** ** All layers *)

Fixpoint restored_all (raw_live : Z) (cache cache0 : list ds4_layer_cache) : list ds4_layer_cache :=
  match cache, cache0 with
  | l :: cache', l0 :: cache0' => restored raw_live l l0 :: restored_all raw_live cache' cache0'
  | _, _ => []
  end.

Section Cache.
Context (ctx_size ctx_size0 raw_live : Z) (Hctx : 0 < ctx_size <= INT32_MAX) (Hctx0 : 0 < ctx_size0 <= INT32_MAX) (Hle : ctx_size <= ctx_size0)
  (Hlive0 : 0 <= raw_live <= ds4_default_raw_cap sh ctx_size0).

Lemma save_layers_eq ratios cache : Forall (fun r => r = 0 \/ r = 4 \/ r = 128) ratios -> Forall2 (layer_wf sh ctx_size) ratios cache ->
  Forall (fun l => raw_live <= lc_n_raw l) cache ->
  save_layers sh raw_live cache = Some (cache ≫= layer_file raw_live) /\
  zlen (cache ≫= layer_file raw_live) = foldr (fun l n => layer_live_bytes sh raw_live l + n) 0 cache.
Proof.
  intros Hr Hc. induction Hc as [|ratio l ratios cache Hw Hc IH]; intros Hl; [done|]. apply Forall_cons in Hr as [Hr0 Hr], Hl as [Hl0 Hl].
  cbn [save_layers foldr]. rewrite (save_layer_eq ctx_size ratio raw_live l) by (try done; lia). destruct (IH Hr Hl) as [-> Hs]. rewrite bind_cons, zlen_app, Hs.
  by rewrite (layer_file_length ctx_size ratio raw_live l) by (try done; lia).
Qed.

Lemma load_layers_files ratios cache cache0 rest r : Forall (fun r => r = 0 \/ r = 4 \/ r = 128) ratios -> Forall2 (layer_wf sh ctx_size) ratios cache ->
  Forall2 (layer_wf sh ctx_size0) ratios cache0 -> Forall (fun l => raw_live <= lc_n_raw l) cache -> 0 <= r ->
  load_layers sh raw_live (zip (map lc_n_comp cache) (map lc_n_index_comp cache)) cache0
    (Io ((cache ≫= layer_file raw_live) ++ rest) (zlen (cache ≫= layer_file raw_live) + r)) = (restored_all raw_live cache cache0, inr (Io rest r)) /\
  Forall2 (same_live raw_live) cache (restored_all raw_live cache cache0) /\ Forall2 (layer_wf sh ctx_size0) ratios (restored_all raw_live cache cache0).
Proof.
  intros Hr Hc. revert cache0. induction Hc as [|ratio l ratios cache Hw Hc IH]; intros cache0 H0 Hl Hr0.
  - inversion H0; subst. repeat constructor.
  - inversion H0 as [|? l0 ? cache0' Hw0 H0' E1 E2]; subst. apply Forall_cons in Hr as [Hra Hr], Hl as [Hl0 Hl].
    destruct (IH Hr cache0' H0' Hl Hr0) as (HL & HS & HW). cbn [map zip zip_with restored_all load_layers].
    rewrite bind_cons, zlen_app, <- (assoc_L (++)), <- Z.add_assoc. pose proof (zlen_nonneg (cache ≫= layer_file raw_live)).
    assert (raw_live <= lc_cap_raw l0) by (rewrite (lw_cap _ _ _ _ Hw0); lia).
    rewrite (load_layer_file ctx_size ctx_size0 ratio) by (try done; lia). rewrite HL. split; [done|]. split; constructor; try done.
    + apply (restored_live ctx_size ctx_size0 ratio); try done; lia.
    + apply (restored_wf ctx_size ctx_size0 ratio); try done; lia.
Qed.
End Cache.
End Layers.

(** ** Sessions *)

#[local] Abbreviation cpu_session := (session (list ds4_layer_cache) bytes).

(** A session as the engine keeps it; its tokens are [int]s, and a valid one has
    logits and enough raw rows. *)
Record session_wf (sh : ds4_shape) (s : cpu_session) : Prop := {
  sw_ctx : 0 < ss_ctx_size s <= INT32_MAX;
  sw_cache : cache_wf sh (ss_ctx_size s) (ss_cache s);
  sw_len : zlen (ss_checkpoint s) <= ss_ctx_size s;
  sw_tokens : Forall (fun t => - INT32_MAX - 1 <= t <= INT32_MAX) (ss_checkpoint s);
  sw_logits : forall logits, ss_logits s = Some logits -> zlen logits = DS4_N_VOCAB sh * 4;
  sw_valid : ss_checkpoint_valid s = true -> is_Some (ss_logits s) /\ Forall (fun l => session_cpu_raw_live_rows sh s <= lc_n_raw l) (ss_cache s);
  sw_index : Forall (fun l => lc_n_index_comp l <= session_cpu_comp_cap (ss_ctx_size s) (ss_cache s)) (ss_cache s) }.

Section Caps.
Context (sh : ds4_shape) (ctx_size : Z) (Hctx : 0 < ctx_size <= INT32_MAX).

(** The capacity of a session's widest compressed cache. *)
Definition widest_cap (ratios : list Z) : Z :=
  if existsb (fun r => r =? 4) ratios then ctx_size / 4 + 2
  else if existsb (fun r => negb (r =? 0)) ratios then ctx_size / 128 + 2
  else ctx_size.

Lemma find_cap (p : Z -> bool) ratios cache : Forall2 (layer_wf sh ctx_size) ratios cache ->
  match List.find (fun l => p (lc_compress_ratio l)) cache with
  | Some l => existsb p ratios = true /\ exists r, r ∈ ratios /\ p r = true /\ layer_wf sh ctx_size r l
  | None => existsb p ratios = false
  end.
Proof.
  induction 1 as [|r l ratios cache Hw Hc IH]; [done|]. cbn [List.find existsb]. rewrite (lw_ratio _ _ _ _ Hw). destruct (p r) eqn:E.
  - split; [done|]. exists r. split; [apply list_elem_of_here|]. done.
  - destruct (List.find _ cache) as [l'|]; [|done]. destruct IH as (-> & r' & Hr' & H). split; [done|]. exists r'. split; [by right|done].
Qed.

Lemma comp_cap_eq ratios cache : Forall (fun r => r = 0 \/ r = 4 \/ r = 128) ratios -> Forall2 (layer_wf sh ctx_size) ratios cache ->
  session_cpu_comp_cap ctx_size cache = widest_cap ratios.
Proof.
  intros Hr Hc. unfold session_cpu_comp_cap, widest_cap. pose proof (find_cap (fun r => r =? 4) _ _ Hc) as H4. cbn beta in H4.
  destruct (List.find (fun l => lc_compress_ratio l =? 4) cache) as [l|].
  - destruct H4 as (-> & r & _ & Hr4%Z.eqb_eq & Hw). subst r. by rewrite (lw_comp_cap _ _ _ _ Hw).
  - rewrite H4. pose proof (find_cap (fun r => negb (r =? 0)) _ _ Hc) as H0. cbn beta in H0.
    destruct (List.find (fun l => negb (lc_compress_ratio l =? 0)) cache) as [l|].
    + destruct H0 as (-> & r & Hin & Hn & Hw). rewrite (lw_comp_cap _ _ _ _ Hw). rewrite Forall_forall in Hr. destruct (Hr r Hin) as [-> | [-> | ->]]; [done| |done].
      assert (E : existsb (fun r => r =? 4) ratios = true); [|congruence]. apply existsb_exists. exists 4. split; [by apply list_elem_of_In | done].
    + rewrite H0. apply u32_small. unfold is_u32, U32_MAX, INT32_MAX in *. lia.
Qed.

Lemma comp_rows_widest ratios r : Forall (fun r => r = 0 \/ r = 4 \/ r = 128) ratios -> r ∈ ratios -> 0 <= comp_rows ctx_size r <= widest_cap ratios.
Proof.
  intros Hr Hin. pose proof (proj1 (Forall_forall _ _) Hr r Hin) as H. unfold comp_rows, widest_cap.
  assert (H4 : r = 4 -> existsb (fun r => r =? 4) ratios = true) by (intros ->; apply existsb_exists; exists 4; split; [by apply list_elem_of_In | done]).
  assert (H0 : r = 128 -> existsb (fun r => negb (r =? 0)) ratios = true) by (intros ->; apply existsb_exists; exists 128; split; [by apply list_elem_of_In | done]).
  destruct H as [-> | [-> | ->]]; cbn [Z.eqb Pos.eqb]; rewrite ?H4, ?H0 by done; repeat destruct (existsb _ _); zdiv.
Qed.

Lemma widest_cap_small ratios : 0 <= widest_cap ratios <= INT32_MAX + 2.
Proof. unfold widest_cap. unfold INT32_MAX in *. repeat destruct (existsb _ _); zdiv. Qed.
End Caps.

Lemma widest_cap_mono ctx ctx0 ratios : 0 < ctx <= ctx0 -> widest_cap ctx ratios <= widest_cap ctx0 ratios.
Proof.
  intros H. unfold widest_cap. pose proof (Z.div_le_mono ctx ctx0 4). pose proof (Z.div_le_mono ctx ctx0 128). repeat destruct (existsb _ _); lia.
Qed.

Section Whole.
Context (sh : ds4_shape) (Hsh : shape_ok sh).

Lemma put_fields_length vs : zlen (vs ≫= payload_put_u32) = 4 * zlen vs.
Proof.
  induction vs as [|v vs IH]; [done|]. rewrite bind_cons, zlen_app, IH. unfold zlen. cbn [length payload_put_u32]. lia.
Qed.

Lemma put_tokens_length toks : zlen (toks ≫= fun t => payload_put_u32 (u32 t)) = 4 * zlen toks.
Proof.
  induction toks as [|v vs IH]; [done|]. rewrite bind_cons, zlen_app, IH. unfold zlen. cbn [length payload_put_u32]. lia.
Qed.

Lemma put_map_counts {A} (f : A -> Z) (l : list A) : (l ≫= fun x => payload_put_u32 (f x)) = map f l ≫= payload_put_u32.
Proof. induction l as [|x l IH]; [done|]. cbn [map]. by rewrite !bind_cons, IH. Qed.

Lemma raw_live_range s : session_wf sh s -> 0 <= session_cpu_raw_live_rows sh s <= ds4_default_raw_cap sh (ss_ctx_size s) /\
  (ss_checkpoint_valid s = true ->
   session_cpu_raw_live_rows sh s = if zlen (ss_checkpoint s) <? ds4_default_raw_cap sh (ss_ctx_size s) then zlen (ss_checkpoint s) else ds4_default_raw_cap sh (ss_ctx_size s)).
Proof.
  intros Hw. pose proof (sw_ctx _ _ Hw) as Hc. pose proof (sw_len _ _ Hw). pose proof (zlen_nonneg (ss_checkpoint s)). unfold INT32_MAX in *.
  pose proof (default_raw_cap_range sh Hsh (ss_ctx_size s) ltac:(lia)). unfold session_cpu_raw_live_rows.
  rewrite !u32_small by (unfold is_u32, U32_MAX; lia). destruct (ss_checkpoint_valid s); cbn [negb]; [|lia].
  destruct (Z.ltb_spec (zlen (ss_checkpoint s)) (ds4_default_raw_cap sh (ss_ctx_size s))); lia.
Qed.

(** The file of a session. *)
Definition payload_file (s : cpu_session) (prefill_cap : Z) (logits : bytes) : bytes :=
  (payload_header sh s prefill_cap ≫= payload_put_u32) ++ (ss_checkpoint s ≫= fun t => payload_put_u32 (u32 t)) ++ logits ++
  (map lc_n_comp (ss_cache s) ≫= payload_put_u32) ++ (map lc_n_index_comp (ss_cache s) ≫= payload_put_u32) ++
  (ss_cache s ≫= layer_file sh (session_cpu_raw_live_rows sh s)).

Lemma save_file s prefill_cap : session_wf sh s -> ss_checkpoint_valid s = true -> exists logits,
  ss_logits s = Some logits /\ session_save_payload sh s prefill_cap = Some (payload_file s prefill_cap logits).
Proof.
  intros Hw Hv. destruct (sw_valid _ _ Hw Hv) as [[logits Hl] Hraw]. exists logits. split; [done|]. unfold session_save_payload. rewrite Hv, Hl. cbn [negb].
  destruct (raw_live_range s Hw) as [Hr _]. destruct (save_layers_eq sh Hsh (ss_ctx_size s) (ss_ctx_size s) (session_cpu_raw_live_rows sh s) (sw_ctx _ _ Hw) ltac:(lia) _ _ (so_ratios _ Hsh) (sw_cache _ _ Hw) Hraw) as [-> _].
  rewrite (part_all logits) by (symmetry; by apply (sw_logits _ _ Hw)). rewrite (put_map_counts lc_n_comp), (put_map_counts lc_n_index_comp). unfold payload_file. cbn [fmap option_fmap option_map]. by rewrite <- !(assoc_L (++)).
Qed.

Lemma fold_u64 (f : ds4_layer_cache -> Z) cache acc : is_u64 acc -> foldl (fun n l => u64 (n + f l)) acc cache = u64 (acc + foldr (fun l n => f l + n) 0 cache).
Proof.
  revert acc. induction cache as [|l cache IH]; intros acc Ha; cbn [foldl foldr]; [by rewrite Z.add_0_r, u64_small|].
  rewrite IH by apply u64_range. unfold u64. rewrite Z.add_mod_idemp_l by lia. f_equal. lia.
Qed.

Lemma live_bytes_small ctx_size ratio raw_live l : 0 < ctx_size <= INT32_MAX -> ratio = 0 \/ ratio = 4 \/ ratio = 128 -> layer_wf sh ctx_size ratio l ->
  0 <= raw_live <= lc_n_raw l -> 0 <= layer_live_bytes sh raw_live l <= 2 ^ 50.
Proof.
  intros Hc Hr Hw Hl. destruct (raw_live_small sh Hsh ctx_size ratio raw_live l Hc Hr Hw Hl) as (H1 & H2 & H3 & H4). pose proof (lw_n_index _ _ _ _ Hw).
  destruct (state_bytes_small sh Hsh ratio Hr) as (_ & _ & Ha & Hi). unfold layer_live_bytes. rewrite (lw_ratio _ _ _ _ Hw).
  pose proof (small64 raw_live _ ltac:(lia) (so_hd _ Hsh)) as [_ S1]. pose proof (small64 (lc_n_comp l) _ ltac:(lia) (so_hd _ Hsh)) as [_ S2].
  change (2 ^ 50) with (4 * 2 ^ 48). change (2 ^ 48) with 281474976710656 in *. change (2 ^ 40) with 1099511627776 in *.
  destruct (ratio =? 0); [lia|]. destruct (Z.eqb_spec ratio 4) as [E|]; [|lia].
  pose proof (small64 (lc_n_index_comp l) _ ltac:(lia) (so_ihd _ Hsh)) as [_ S3]. change (2 ^ 48) with 281474976710656 in S3. lia.
Qed.

Lemma live_sum_small ctx_size raw_live ratios cache : 0 < ctx_size <= INT32_MAX -> 0 <= raw_live -> Forall (fun r => r = 0 \/ r = 4 \/ r = 128) ratios ->
  Forall2 (layer_wf sh ctx_size) ratios cache -> Forall (fun l => raw_live <= lc_n_raw l) cache ->
  0 <= foldr (fun l n => layer_live_bytes sh raw_live l + n) 0 cache <= 2 ^ 50 * zlen ratios.
Proof.
  intros Hc Hr0 Hr H. induction H as [|ratio l ratios cache Hw H IH]; intros Hl; [done|]. apply Forall_cons in Hr as [Hra Hr], Hl as [Hl0 Hl].
  specialize (IH Hr Hl). pose proof (live_bytes_small ctx_size ratio raw_live l Hc Hra Hw ltac:(lia)). cbn [foldr]. unfold zlen in *. cbn [length]. lia.
Qed.

Lemma payload_size s prefill_cap logits : session_wf sh s -> ss_checkpoint_valid s = true -> ss_logits s = Some logits ->
  session_payload_bytes sh s = zlen (payload_file s prefill_cap logits) /\ zlen (payload_file s prefill_cap logits) <= 2 ^ 60.
Proof.
  intros Hw Hv Hl. destruct (sw_valid _ _ Hw Hv) as [_ Hraw]. destruct (raw_live_range s Hw) as [Hr _]. pose proof (sw_ctx _ _ Hw) as Hc. pose proof (sw_len _ _ Hw) as Hlen.
  destruct (save_layers_eq sh Hsh (ss_ctx_size s) (ss_ctx_size s) (session_cpu_raw_live_rows sh s) Hc ltac:(lia) _ _ (so_ratios _ Hsh) (sw_cache _ _ Hw) Hraw) as [_ Hs].
  pose proof (live_sum_small _ (session_cpu_raw_live_rows sh s) _ _ Hc ltac:(lia) (so_ratios _ Hsh) (sw_cache _ _ Hw) Hraw) as Hsum.
  unfold session_payload_bytes, session_cpu_payload_live_tensor_bytes. rewrite Hv. cbn [negb]. rewrite (fold_u64 (layer_live_bytes sh (session_cpu_raw_live_rows sh s))) by done.
  rewrite Z.add_0_l, <- Hs in *. unfold payload_file. rewrite !zlen_app, !put_fields_length, put_tokens_length, (sw_logits _ _ Hw _ Hl).
  assert (Hn : zlen (ss_cache s) = DS4_N_LAYER sh) by (rewrite <- (so_count _ Hsh); unfold zlen; by rewrite (Forall2_length _ _ _ (sw_cache _ _ Hw))).
  assert (Hm : forall f : ds4_layer_cache -> Z, zlen (map f (ss_cache s)) = DS4_N_LAYER sh) by (intros f; rewrite <- Hn; unfold zlen; by rewrite length_map).
  rewrite !Hm. rewrite (so_count _ Hsh) in Hsum. pose proof (so_layers _ Hsh). pose proof (so_vocab _ Hsh). pose proof (zlen_nonneg (ss_checkpoint s)).
  unfold DS4_MAX_LAYER, INT32_MAX in *. set (t := zlen (ss_cache s ≫= _)) in *. clearbody t.
  change (zlen (payload_header sh s prefill_cap)) with 13. unfold DS4_SESSION_PAYLOAD_U32_FIELDS.
  change (2 ^ 50) with 1125899906842624 in *. change (2 ^ 60) with 1152921504606846976. rewrite (u64_small t) by (unfold is_u64, U64_MAX; lia).
  rewrite u64_small by (unfold is_u64, U64_MAX; lia). lia.
Qed.

(** What a session must have in common with the saved one to take its payload. *)
Record fits (s s0 : cpu_session) : Prop := {
  ft_ctx : ss_ctx_size s <= ss_ctx_size s0;
  ft_tokens : zlen (ss_checkpoint s) < ss_ctx_size s0;
  ft_window : ds4_default_raw_cap sh (ss_ctx_size s) = ds4_default_raw_cap sh (ss_ctx_size s0) }.

(** The session [s0] with what was saved of [s]. *)
Definition reloaded (s s0 : cpu_session) (logits : bytes) : cpu_session :=
  set_checkpoint (ss_checkpoint s) true
    (restored_all sh (session_cpu_raw_live_rows sh s) (ss_cache s) (KvCache.kv_cache_init sh (ss_ctx_size s0) 0)) (set_logits (Some logits) s0).

Lemma header_u32 s prefill_cap : session_wf sh s -> is_u32 prefill_cap -> Forall is_u32 (payload_header sh s prefill_cap).
Proof.
  intros Hw Hp. pose proof (sw_ctx _ _ Hw) as Hc. destruct (raw_live_range s Hw) as [Hr _]. unfold INT32_MAX in Hc.
  pose proof (default_raw_cap_range sh Hsh (ss_ctx_size s) ltac:(lia)) as [Hd _].
  pose proof (widest_cap_small (ss_ctx_size s) ltac:(unfold INT32_MAX; lia) (g_ds4_compress_ratios sh)) as Hwc. unfold INT32_MAX in Hwc.
  pose proof (so_layers _ Hsh). pose proof (so_hd _ Hsh). pose proof (so_ihd _ Hsh). pose proof (so_vocab _ Hsh). unfold DS4_MAX_LAYER in *.
  unfold payload_header. rewrite (comp_cap_eq sh (ss_ctx_size s) ltac:(unfold INT32_MAX; lia) _ _ (so_ratios _ Hsh) (sw_cache _ _ Hw)).
  rewrite (u32_small (ss_ctx_size s)) by (unfold is_u32, U32_MAX; lia).
  repeat constructor; try apply u32_range; try exact Hp; unfold is_u32, U32_MAX, DS4_SESSION_PAYLOAD_MAGIC, DS4_SESSION_PAYLOAD_VERSION in *; lia.
Qed.

Lemma header_accepted s s0 prefill_cap : session_wf sh s -> session_wf sh s0 -> ss_checkpoint_valid s = true -> fits s s0 ->
  check_header sh s0 (payload_header sh s prefill_cap) = None.
Proof.
  intros Hw Hw0 Hv [Hle Ht Hwin]. pose proof (sw_ctx _ _ Hw) as Hc. pose proof (sw_ctx _ _ Hw0) as Hc0. destruct (raw_live_range s Hw) as [Hr Hr2]. specialize (Hr2 Hv).
  pose proof (zlen_nonneg (ss_checkpoint s)). unfold INT32_MAX in *. pose proof (default_raw_cap_range sh Hsh (ss_ctx_size s) ltac:(lia)) as [Hd _].
  assert (Hcap : session_cpu_comp_cap (ss_ctx_size s) (ss_cache s) <= session_cpu_comp_cap (ss_ctx_size s0) (ss_cache s0)).
  { rewrite (comp_cap_eq sh (ss_ctx_size s) ltac:(unfold INT32_MAX; lia) _ _ (so_ratios _ Hsh) (sw_cache _ _ Hw)),
      (comp_cap_eq sh (ss_ctx_size s0) ltac:(unfold INT32_MAX; lia) _ _ (so_ratios _ Hsh) (sw_cache _ _ Hw0)). apply widest_cap_mono. lia. }
  unfold check_header, payload_header. cbn [lookup_total list_lookup_total]. rewrite !u32_small by (unfold is_u32, U32_MAX; lia). rewrite !Z.eqb_refl. cbn [negb orb].
  rewrite (proj2 (Z.ltb_ge (ss_ctx_size s0) _)), (proj2 (Z.leb_gt (ss_ctx_size s0) _)) by lia. cbn [orb]. rewrite Hwin, Z.eqb_refl. cbn [negb].
  rewrite (proj2 (Z.eqb_neq (ds4_default_raw_cap sh (ss_ctx_size s0)) 0)) by lia. rewrite Hr2, Hwin, Z.eqb_refl. cbn [negb orb].
  rewrite <- Hwin, <- Hr2, !(proj2 (Z.ltb_ge (ds4_default_raw_cap sh (ss_ctx_size s)) _)) by lia. cbn [orb]. by rewrite (proj2 (Z.ltb_ge _ _)) by lia.
Qed.

Lemma counts_fit s s0 (f : ds4_layer_cache -> Z) : session_wf sh s -> session_wf sh s0 -> fits s s0 ->
  Forall (fun l => 0 <= f l <= session_cpu_comp_cap (ss_ctx_size s) (ss_cache s)) (ss_cache s) ->
  Forall2 (fun cap v => is_u32 v /\ v <= session_cpu_comp_cap (ss_ctx_size s) (ss_cache s) /\ v <= cap)
    (replicate (Z.to_nat (DS4_N_LAYER sh)) (session_cpu_comp_cap (ss_ctx_size s0) (ss_cache s0))) (map f (ss_cache s)).
Proof.
  intros Hw Hw0 Hf H. pose proof (sw_ctx _ _ Hw) as Hc. pose proof (sw_ctx _ _ Hw0) as Hc0.
  rewrite (comp_cap_eq sh (ss_ctx_size s0) Hc0 _ _ (so_ratios _ Hsh) (sw_cache _ _ Hw0)).
  rewrite (comp_cap_eq sh (ss_ctx_size s) Hc _ _ (so_ratios _ Hsh) (sw_cache _ _ Hw)) in *.
  pose proof (widest_cap_small (ss_ctx_size s) Hc (g_ds4_compress_ratios sh)) as Hs. pose proof (ft_ctx _ _ Hf).
  pose proof (widest_cap_mono (ss_ctx_size s) (ss_ctx_size s0) (g_ds4_compress_ratios sh) ltac:(lia)) as Hm.
  assert (Hn : length (ss_cache s) = Z.to_nat (DS4_N_LAYER sh)) by (rewrite <- (so_count _ Hsh); unfold zlen; rewrite Nat2Z.id; symmetry; apply (Forall2_length _ _ _ (sw_cache _ _ Hw))).
  rewrite <- Hn. clear Hn. unfold INT32_MAX in Hs. induction H as [|l cache Hl H IH]; cbn [length replicate map]; constructor; [|apply IH].
  unfold is_u32, U32_MAX. lia.
Qed.

Lemma comp_counts_wf s : session_wf sh s -> Forall (fun l => 0 <= lc_n_comp l <= session_cpu_comp_cap (ss_ctx_size s) (ss_cache s)) (ss_cache s).
Proof.
  intros Hw. pose proof (sw_cache _ _ Hw) as Hc. rewrite (comp_cap_eq sh (ss_ctx_size s) (sw_ctx _ _ Hw) _ _ (so_ratios _ Hsh) Hc).
  apply Forall_lookup_2. intros i l Hi. destruct (Forall2_lookup_r _ _ _ _ _ Hc Hi) as (r & Hr & Hl).
  pose proof (comp_rows_widest (ss_ctx_size s) (sw_ctx _ _ Hw) _ r (so_ratios _ Hsh) ltac:(by apply list_elem_of_lookup_2 in Hr)) as Hb.
  rewrite <- (lw_comp_cap _ _ _ _ Hl) in Hb. pose proof (lw_n_comp _ _ _ _ Hl). lia.
Qed.

Lemma index_counts_wf s : session_wf sh s -> Forall (fun l => 0 <= lc_n_index_comp l <= session_cpu_comp_cap (ss_ctx_size s) (ss_cache s)) (ss_cache s).
Proof.
  intros Hw. pose proof (sw_cache _ _ Hw) as Hc. pose proof (sw_index _ _ Hw) as Hi. apply Forall_lookup_2. intros i l Hl.
  destruct (Forall2_lookup_r _ _ _ _ _ Hc Hl) as (r & Hr & Hlw). pose proof (lw_n_index _ _ _ _ Hlw). pose proof (Forall_lookup_1 _ _ _ _ Hi Hl). cbn beta in *. lia.
Qed.

Lemma logits_buffer_size s : session_wf sh s -> zlen (logits_buffer sh s) = DS4_N_VOCAB sh * 4.
Proof.
  intros Hw. pose proof (so_vocab _ Hsh). unfold logits_buffer. destruct (ss_logits s) as [lg|] eqn:E; cbn [default]; [by apply (sw_logits _ _ Hw)|].
  unfold default. apply zlen_zeros. lia.
Qed.

Lemma load_file s s0 prefill_cap logits rest : session_wf sh s -> session_wf sh s0 -> ss_checkpoint_valid s = true -> ss_logits s = Some logits ->
  is_u32 prefill_cap -> fits s s0 ->
  session_load_payload sh s0 (payload_file s prefill_cap logits ++ rest) (zlen (payload_file s prefill_cap logits)) = (inr rest, reloaded s s0 logits).
Proof.
  intros Hw Hw0 Hv Hl Hp Hf. pose proof (sw_ctx _ _ Hw) as Hc. pose proof (sw_ctx _ _ Hw0) as Hc0. destruct (raw_live_range s Hw) as [Hr Hr2]. destruct (sw_valid _ _ Hw Hv) as [_ Hraw].
  assert (HU : u32 (ss_ctx_size s0) = ss_ctx_size s0) by (apply u32_small; unfold is_u32, U32_MAX, INT32_MAX in *; lia).
  destruct (load_layers_files sh Hsh (ss_ctx_size s) (ss_ctx_size s0) (session_cpu_raw_live_rows sh s) Hc (ft_ctx _ _ Hf) ltac:(rewrite <- (ft_window _ _ Hf); lia)
    _ _ _ rest 0 (so_ratios _ Hsh) (sw_cache _ _ Hw) (kv_cache_init_wf sh Hsh (ss_ctx_size s0) ltac:(lia)) Hraw ltac:(lia)) as (HL & _).
  assert (Hcomp : Forall (fun l => 0 <= lc_n_comp l <= session_cpu_comp_cap (ss_ctx_size s) (ss_cache s)) (ss_cache s)) by (by apply comp_counts_wf).
  assert (Hindex : Forall (fun l => 0 <= lc_n_index_comp l <= session_cpu_comp_cap (ss_ctx_size s) (ss_cache s)) (ss_cache s)) by (by apply index_counts_wf).
  pose proof (logits_buffer_size s0 Hw0) as Hb. pose proof (sw_logits _ _ Hw _ Hl) as Hb'.
  set (layers := ss_cache s ≫= _) in *. set (ncs := map lc_n_comp (ss_cache s)) in *. set (nis := map lc_n_index_comp (ss_cache s)) in *.
  unfold session_load_payload, payload_file. fold layers ncs nis. rewrite !zlen_app, !put_fields_length, put_tokens_length, <- !(assoc_L (++)), <- (Z.add_0_r (zlen layers)).
  assert (H0 : 0 <= zlen (ss_checkpoint s) /\ 0 <= zlen logits /\ 0 <= zlen ncs /\ 0 <= zlen nis /\ 0 <= zlen layers) by (unfold zlen; lia).
  change 13%nat with (length (payload_header sh s prefill_cap)). rewrite read_fields_put by (try (by apply header_u32); lia).
  change (payload_header sh s prefill_cap !!! 0%nat) with DS4_SESSION_PAYLOAD_MAGIC. change (payload_header sh s prefill_cap !!! 1%nat) with DS4_SESSION_PAYLOAD_VERSION.
  rewrite !Z.eqb_refl. cbn [negb orb]. rewrite header_accepted by done.
  change (payload_header sh s prefill_cap !!! 7%nat) with (u32 (zlen (ss_checkpoint s))). pose proof (sw_len _ _ Hw) as Hlen.
  rewrite (u32_small (zlen (ss_checkpoint s))) by (unfold is_u32, U32_MAX, INT32_MAX in *; lia).
  replace (Z.to_nat (zlen (ss_checkpoint s))) with (length (ss_checkpoint s)) by (unfold zlen; lia). rewrite read_tokens_put by (try apply (sw_tokens _ _ Hw); lia).
  rewrite <- (sw_logits _ _ Hw _ Hl), read_bytes_put by (try lia; unfold zlen in *; lia). rewrite overwrite_all by lia.
  cbn [set_logits ss_ctx_size ss_cache]. change (payload_header sh s prefill_cap !!! 6%nat) with (session_cpu_comp_cap (ss_ctx_size s) (ss_cache s)).
  rewrite read_counts_put by (try (by apply counts_fit); lia). rewrite read_counts_put by (try (by apply counts_fit); lia).
  change (payload_header sh s prefill_cap !!! 12%nat) with (session_cpu_raw_live_rows sh s). rewrite HU, HL. cbn [io_remaining Z.eqb negb io_fp]. reflexivity.
Qed.

Lemma restored_ratio raw_live l l0 : lc_compress_ratio (restored sh raw_live l l0) = lc_compress_ratio l0.
Proof. unfold restored. by destruct (lc_compress_ratio l =? 0), (lc_compress_ratio l =? 4). Qed.

Lemma layers_reloaded s s0 : session_wf sh s -> session_wf sh s0 -> ss_checkpoint_valid s = true -> fits s s0 ->
  let cache' := restored_all sh (session_cpu_raw_live_rows sh s) (ss_cache s) (KvCache.kv_cache_init sh (ss_ctx_size s0) 0) in
  Forall2 (same_live sh (session_cpu_raw_live_rows sh s)) (ss_cache s) cache' /\ cache_wf sh (ss_ctx_size s0) cache'.
Proof.
  intros Hw Hw0 Hv Hf cache'. pose proof (sw_ctx _ _ Hw) as Hc. pose proof (sw_ctx _ _ Hw0) as Hc0. destruct (raw_live_range s Hw) as [Hr _]. destruct (sw_valid _ _ Hw Hv) as [_ Hraw].
  destruct (load_layers_files sh Hsh (ss_ctx_size s) (ss_ctx_size s0) (session_cpu_raw_live_rows sh s) Hc (ft_ctx _ _ Hf) ltac:(rewrite <- (ft_window _ _ Hf); lia)
    _ _ _ [] 0 (so_ratios _ Hsh) (sw_cache _ _ Hw) (kv_cache_init_wf sh Hsh (ss_ctx_size s0) ltac:(lia)) Hraw ltac:(lia)) as (_ & HS & HW). done.
Qed.

(** The counts of the layers survive, also where a layer has none. *)
Lemma same_counts raw_live ctx_size ctx_size0 ratios cache cache' : Forall2 (layer_wf sh ctx_size) ratios cache -> Forall2 (layer_wf sh ctx_size0) ratios cache' ->
  Forall2 (same_live sh raw_live) cache cache' -> map lc_n_comp cache' = map lc_n_comp cache /\ map lc_n_index_comp cache' = map lc_n_index_comp cache.
Proof.
  intros Hc. revert cache'. induction Hc as [|r l ratios cache Hw Hc IH]; intros cache' Hc' Hs; inversion Hs as [|? l' ? cache0 Hsl Hs' E1 E2]; subst; [done|].
  inversion Hc' as [|? ? ? ? Hw' Hc0 E1 E2]; subst. destruct (IH cache0 Hc0 Hs') as [H1 H2]. cbn [map]. rewrite H1, H2.
  assert (Hcount : lc_n_comp l' = lc_n_comp l /\ lc_n_index_comp l' = lc_n_index_comp l); [|by destruct Hcount as [-> ->]].
  destruct (Z.eq_dec (lc_compress_ratio l) 0) as [E|E]; [|by destruct Hsl; auto]. rewrite (lw_ratio _ _ _ _ Hw) in E.
  pose proof (lw_n_comp _ _ _ _ Hw) as N. pose proof (lw_n_comp _ _ _ _ Hw') as N'. rewrite (lw_comp_cap _ _ _ _ Hw) in N. rewrite (lw_comp_cap _ _ _ _ Hw') in N'.
  unfold comp_rows in N, N'. rewrite E in N, N'. cbn [Z.eqb] in N, N'. rewrite (lw_index_none _ _ _ _ Hw E), (lw_index_none _ _ _ _ Hw' E). lia.
Qed.

Lemma reloaded_live s s0 logits : session_wf sh s -> session_wf sh s0 -> ss_checkpoint_valid s = true -> fits s s0 ->
  session_cpu_raw_live_rows sh (reloaded s s0 logits) = session_cpu_raw_live_rows sh s.
Proof.
  intros Hw Hw0 Hv Hf. destruct (raw_live_range s Hw) as [_ Hr]. rewrite (Hr Hv). pose proof (sw_ctx _ _ Hw0) as Hc0. pose proof (sw_ctx _ _ Hw). pose proof (sw_len _ _ Hw).
  unfold session_cpu_raw_live_rows, reloaded, set_checkpoint, set_logits. cbn [ss_checkpoint_valid ss_ctx_size ss_checkpoint negb]. unfold INT32_MAX in *.
  pose proof (zlen_nonneg (ss_checkpoint s)). rewrite !u32_small by (unfold is_u32, U32_MAX; lia). by rewrite (ft_window _ _ Hf).
Qed.

Lemma reloaded_wf s s0 logits : session_wf sh s -> session_wf sh s0 -> ss_checkpoint_valid s = true -> ss_logits s = Some logits -> fits s s0 ->
  session_wf sh (reloaded s s0 logits).
Proof.
  intros Hw Hw0 Hv Hl Hf. destruct (layers_reloaded s s0 Hw Hw0 Hv Hf) as [HS HW]. pose proof (reloaded_live s s0 logits Hw Hw0 Hv Hf) as Hlive.
  pose proof (sw_ctx _ _ Hw0) as Hc0. pose proof (ft_ctx _ _ Hf). pose proof (sw_ctx _ _ Hw) as Hc.
  destruct (same_counts _ _ _ _ _ _ (sw_cache _ _ Hw) HW HS) as [_ Hni]. split.
  - done.
  - done.
  - cbn. pose proof (sw_len _ _ Hw). lia.
  - apply (sw_tokens _ _ Hw).
  - cbn. intros ? [= <-]. by apply (sw_logits _ _ Hw).
  - intros _. split; [by eexists|]. rewrite Hlive. cbn. apply Forall_lookup_2. intros i l Hi. destruct (Forall2_lookup_r _ _ _ _ _ HS Hi) as (l0 & _ & Hs). rewrite (sl_n_raw _ _ _ _ Hs). lia.
  - cbn [reloaded set_checkpoint set_logits ss_cache ss_ctx_size]. rewrite (comp_cap_eq sh (ss_ctx_size s0) Hc0 _ _ (so_ratios _ Hsh) HW).
    pose proof (sw_index _ _ Hw) as Hi. rewrite (comp_cap_eq sh (ss_ctx_size s) Hc _ _ (so_ratios _ Hsh) (sw_cache _ _ Hw)) in Hi.
    pose proof (widest_cap_mono (ss_ctx_size s) (ss_ctx_size s0) (g_ds4_compress_ratios sh) ltac:(lia)).
    apply (proj1 (List.Forall_map lc_n_index_comp (fun n => n <= widest_cap (ss_ctx_size s0) (g_ds4_compress_ratios sh)) _)). rewrite Hni. apply List.Forall_map.
    apply (Forall_impl _ _ _ Hi). intros l Hle. cbn beta in *. lia.
Qed.

(** Saved a second time the session gives the same bytes. *)
Lemma reloaded_file s s0 prefill_cap logits : session_wf sh s -> session_wf sh s0 -> ss_checkpoint_valid s = true -> ss_logits s = Some logits -> fits s s0 ->
  ss_ctx_size s0 = ss_ctx_size s -> payload_file (reloaded s s0 logits) prefill_cap logits = payload_file s prefill_cap logits.
Proof.
  intros Hw Hw0 Hv Hl Hf Hctx. destruct (layers_reloaded s s0 Hw Hw0 Hv Hf) as [HS HW]. pose proof (reloaded_live s s0 logits Hw Hw0 Hv Hf) as Hlive.
  destruct (same_counts _ _ _ _ _ _ (sw_cache _ _ Hw) HW HS) as [Hnc Hni].
  assert (Hh : payload_header sh (reloaded s s0 logits) prefill_cap = payload_header sh s prefill_cap).
  { unfold payload_header. rewrite Hlive. cbn [reloaded set_checkpoint set_logits ss_cache ss_ctx_size ss_checkpoint].
    rewrite (comp_cap_eq sh (ss_ctx_size s0) (sw_ctx _ _ Hw0) _ _ (so_ratios _ Hsh) HW).
    rewrite (comp_cap_eq sh (ss_ctx_size s) (sw_ctx _ _ Hw) _ _ (so_ratios _ Hsh) (sw_cache _ _ Hw)). by rewrite Hctx. }
  unfold payload_file. rewrite Hh, Hlive. cbn [reloaded set_checkpoint set_logits ss_cache ss_ctx_size ss_checkpoint]. rewrite Hnc, Hni. do 5 f_equal.
  clear -HS. induction HS as [|l l' cache cache' Hs HS IH]; [done|]. by rewrite !bind_cons, IH, (same_live_file _ _ _ _ Hs).
Qed.

(** *** A load as a call of the session *)

#[export] Instance cpu_format : PayloadFormat (list ds4_layer_cache) := {|
  payload_fits ctx_size tokens ctx_size0 :=
    (ctx_size <=? ctx_size0) && (zlen tokens <? ctx_size0) && (ds4_default_raw_cap sh ctx_size =? ds4_default_raw_cap sh ctx_size0);
  payload_restore ctx_size tokens cache ctx_size0 :=
    restored_all sh (Z.min (zlen tokens) (ds4_default_raw_cap sh ctx_size)) cache (KvCache.kv_cache_init sh ctx_size0 0)
|}.

Lemma fits_iff s s0 : payload_fits (ss_ctx_size s) (ss_checkpoint s) (ss_ctx_size s0) = true <-> fits s s0.
Proof.
  cbn [payload_fits cpu_format]. rewrite !andb_true_iff, Z.leb_le, Z.ltb_lt, Z.eqb_eq. split; [intros [[H1 H2] H3]; by constructor|intros [H1 H2 H3]; done].
Qed.

Lemma header_refused s s0 prefill_cap : session_wf sh s -> session_wf sh s0 -> ~ fits s s0 -> exists e, check_header sh s0 (payload_header sh s prefill_cap) = Some e.
Proof.
  intros Hw Hw0 Hf. pose proof (sw_ctx _ _ Hw) as Hc. pose proof (sw_ctx _ _ Hw0) as Hc0. pose proof (sw_len _ _ Hw). pose proof (zlen_nonneg (ss_checkpoint s)). unfold INT32_MAX in *.
  unfold check_header, payload_header. cbn [lookup_total list_lookup_total]. rewrite !u32_small by (unfold is_u32, U32_MAX; lia).
  destruct (_ || _) eqn:E1; [by eexists|]. apply orb_false_iff in E1 as [E1%Z.ltb_ge E2%Z.leb_gt]. rewrite !Z.eqb_refl. cbn [negb orb].
  destruct (Z.eqb_spec (ds4_default_raw_cap sh (ss_ctx_size s)) (ds4_default_raw_cap sh (ss_ctx_size s0))) as [E3|]; cbn [negb]; [|by eexists]. exfalso. apply Hf. by constructor.
Qed.

(** The load and what every caller of it does when it fails. *)
Definition load_or_invalidate (s : cpu_session) (fp : bytes) (payload_bytes : Z) : cpu_session :=
  match session_load_payload sh s fp payload_bytes with
  | (inr _, s') => s'
  | (inl _, s') => Session.session_invalidate s'
  end.

(** What is saved of a valid session, loaded into any session, is [session_load]. *)
Lemma load_saved s s0 prefill_cap rest : session_wf sh s -> session_wf sh s0 -> ss_checkpoint_valid s = true -> is_u32 prefill_cap ->
  exists f file, session_save s = Some f /\ session_save_payload sh s prefill_cap = Some file /\
    load_or_invalidate s0 (file ++ rest) (zlen file) = session_load s0 f.
Proof.
  intros Hw Hw0 Hv Hp. destruct (save_file s prefill_cap Hw Hv) as (logits & Hl & Hs). pose proof (sw_ctx _ _ Hw) as Hc. pose proof (sw_len _ _ Hw) as Hlen.
  exists (Saved (ss_ctx_size s) (ss_checkpoint s) (ss_cache s) logits), (payload_file s prefill_cap logits). split; [unfold session_save; by rewrite Hv, Hl|]. split; [done|].
  unfold session_load, load_or_invalidate. cbn [sv_ctx_size sv_tokens sv_cache sv_logits]. destruct (payload_fits (ss_ctx_size s) (ss_checkpoint s) (ss_ctx_size s0)) eqn:Ef.
  - apply fits_iff in Ef. rewrite (load_file s s0 prefill_cap logits rest) by done. unfold reloaded, set_checkpoint, set_logits. cbn [ss_ctx_size ss_logits ss_images ss_splitkv_segment ss_splitkv_anchor_valid payload_restore cpu_format].
    destruct (raw_live_range s Hw) as [_ Hr]. rewrite (Hr Hv). do 2 f_equal. destruct (Z.ltb_spec (zlen (ss_checkpoint s)) (ds4_default_raw_cap sh (ss_ctx_size s))); lia.
  - destruct (header_refused s s0 prefill_cap Hw Hw0) as [e He]; [intros Hf; apply fits_iff in Hf; congruence|].
    unfold session_load_payload, payload_file at 1 2. rewrite !zlen_app, !put_fields_length, <- !(assoc_L (++)).
    change 13%nat with (length (payload_header sh s prefill_cap)). rewrite read_fields_put; [|by apply header_u32|rewrite put_tokens_length; unfold zlen; lia].
    change (payload_header sh s prefill_cap !!! 0%nat) with DS4_SESSION_PAYLOAD_MAGIC. change (payload_header sh s prefill_cap !!! 1%nat) with DS4_SESSION_PAYLOAD_VERSION.
    rewrite !Z.eqb_refl. cbn [negb orb]. by rewrite He.
Qed.

(** A load that fails, whatever the file, and its caller's invalidation. *)
Lemma load_failed_call s fp payload_bytes : match session_load_payload sh s fp payload_bytes with
  | (inl _, _) => exists cache logits, load_or_invalidate s fp payload_bytes = load_failed s cache logits
  | (inr _, _) => True
  end.
Proof.
  assert (H : forall cache logits valid mtp, Session.session_invalidate (Session (ss_ctx_size s) (ss_checkpoint s) valid (ss_images s) cache logits mtp (ss_splitkv_segment s) (ss_splitkv_anchor_valid s)) = load_failed s cache logits) by done.
  unfold load_or_invalidate. destruct (session_load_payload sh s fp payload_bytes) as [[e|rest] s'] eqn:E; [|done]. unfold session_load_payload in E.
  assert (H0 : exists cache logits, Session.session_invalidate s = load_failed s cache logits) by (by exists (ss_cache s), (ss_logits s)).
  assert (H1 : forall logits, exists cache logits', Session.session_invalidate (set_logits logits s) = load_failed s cache logits') by (intros logits; by exists (ss_cache s), logits).
  repeat (first [done | case_match; simplify_eq]); try done; try apply H1; eexists _, _; apply H.
Qed.
End Whole.

(** ** Any file *)

Section Any.
Context (sh : ds4_shape) (Hsh : shape_ok sh).
#[local] Abbreviation hd := (DS4_N_HEAD_DIM sh).
#[local] Abbreviation ihd := (DS4_N_INDEXER_HEAD_DIM sh).

Lemma read_bytes_any dst n s : 0 <= n ->
  zlen (fst (payload_read_bytes dst n s)) = zlen dst /\
  match snd (payload_read_bytes dst n s) with
  | inr s' => n <= zlen dst /\ advanced n s s'
  | inl Overrun => zlen dst < n
  | inl (Fail _) => True
  end.
Proof.
  intros Hn. destruct (Z.le_gt_cases n (zlen dst)) as [Hle|Hgt].
  - pose proof (read_bytes_fits dst n s ltac:(lia)) as H. destruct (payload_read_bytes dst n s) as [b [[e|]|s']]; cbn [fst snd]; destruct H; [done|done|done].
  - unfold payload_read_bytes. destruct (_ <? _); [done|]. set (got := take _ _). destruct (Nat.ltb_spec (length dst) (length got)); [done|]. cbn [fst snd].
    assert (Hs : zlen (splice 0 got dst) = zlen dst) by (unfold zlen; rewrite splice_length; lia).
    destruct (Z.ltb_spec (zlen got) n); cbn [fst snd]; [done|]. unfold zlen in *. lia.
Qed.

Lemma read_field_any get put n l s : 0 <= n ->
  exists b, fst (read_field get put n (l, s)) = put b l /\ zlen b = zlen (get l) /\
  match snd (read_field get put n (l, s)) with
  | inr s' => n <= zlen (get l) /\ advanced n s s'
  | inl Overrun => zlen (get l) < n
  | inl (Fail _) => True
  end.
Proof.
  intros Hn. pose proof (read_bytes_any (get l) n s Hn) as [H1 H2]. unfold read_field. cbn [fst snd].
  destruct (payload_read_bytes (get l) n s) as [b r]. cbn [fst snd] in *. by exists b.
Qed.

(** The ways a chain of reads goes: [P] for the layer when all of it was read,
    [Q] for a write behind a buffer. *)
Definition outcome (P : ds4_layer_cache -> io -> Prop) (Q : Prop) (r : ds4_layer_cache * (stop + io)) : Prop :=
  match r with (l, inr s) => P l s | (_, inl Overrun) => Q | (_, inl (Fail _)) => True end.

Lemma outcome_read P Q get put n l s : 0 <= n -> (zlen (get l) < n -> Q) ->
  (forall b s', zlen b = zlen (get l) -> n <= zlen (get l) -> advanced n s s' -> P (put b l) s') -> outcome P Q (read_field get put n (l, s)).
Proof.
  intros Hn HQ HP. destruct (read_field_any get put n l s Hn) as (b & Hb & Hl & Hr). destruct (read_field get put n (l, s)) as [l' [[e|]|s']]; cbn [fst snd outcome] in *; [done|by apply HQ|].
  subst l'. destruct Hr. by apply HP.
Qed.

Lemma outcome_then P P' Q r k : outcome P Q r -> (forall l s, P l s -> outcome P' Q (k (l, s))) -> outcome P' Q (and_then r k).
Proof. destruct r as [l [[e|]|s]]; cbn [outcome and_then]; auto. Qed.

Section Layer.
Context (ctx_size ratio raw_live n_comp n_index_comp : Z) (l0 : ds4_layer_cache).
Context (Hctx : 0 < ctx_size <= INT32_MAX) (Hratio : ratio = 0 \/ ratio = 4 \/ ratio = 128) (Hw : layer_wf sh ctx_size ratio l0)
  (Hlive : 0 <= raw_live <= lc_cap_raw l0) (Hcomp : 0 <= n_comp <= INT32_MAX + 2) (Hindex : 0 <= n_index_comp <= INT32_MAX + 2)
  (H4 : ratio = 4 -> n_comp <= lc_comp_cap l0 /\ n_index_comp <= lc_comp_cap l0).

#[local] Ltac layer_fields :=
  cbn [set_raw set_attn_comp set_attn_state set_index_comp set_index_state lc_raw_kv lc_n_raw lc_cap_raw lc_compress_ratio lc_comp_cap lc_n_comp
    lc_attn_comp_kv lc_attn_state_kv lc_attn_state_score lc_n_index_comp lc_index_comp_kv lc_index_state_kv lc_index_state_score].

(** A layer on the way: well-formed, with these rows and [n] bytes read. *)
Definition on_the_way (s : io) (n : Z) (l : ds4_layer_cache) (s' : io) : Prop :=
  layer_wf sh ctx_size ratio l /\ lc_n_raw l = raw_live /\ lc_n_index_comp l = n_index_comp /\ 0 <= n /\ advanced n s s'.

Lemma wf_attn_state l kv score : layer_wf sh ctx_size ratio l -> zlen kv = zlen (lc_attn_state_kv l) -> zlen score = zlen (lc_attn_state_score l) ->
  layer_wf sh ctx_size ratio (set_attn_state kv score l).
Proof. intros H1 H2 H3. destruct H1; constructor; layer_fields; try done; congruence. Qed.

Lemma wf_index_state l kv score : layer_wf sh ctx_size ratio l -> zlen kv = zlen (lc_index_state_kv l) -> zlen score = zlen (lc_index_state_score l) ->
  layer_wf sh ctx_size ratio (set_index_state kv score l).
Proof. intros H1 H2 H3. destruct H1; constructor; layer_fields; try done; intros; rewrite ?H2, ?H3; auto. Qed.

Lemma wf_index_comp l rows n : layer_wf sh ctx_size ratio l -> zlen rows = zlen (lc_index_comp_kv l) -> ratio <> 0 -> 0 <= n -> (ratio = 4 -> n <= lc_comp_cap l) ->
  layer_wf sh ctx_size ratio (set_index_comp rows n l).
Proof. intros H1 H2 H3 H5 H6. destruct H1; constructor; layer_fields; try done; intros; rewrite ?H2; auto. Qed.

Lemma wf_attn_comp l rows n : layer_wf sh ctx_size ratio l -> zlen rows = zlen (lc_attn_comp_kv l) -> 0 <= n <= lc_comp_cap l ->
  layer_wf sh ctx_size ratio (set_attn_comp rows n l).
Proof. intros H1 H2 H3. destruct H1; constructor; layer_fields; try done; congruence. Qed.

Lemma wf_raw l rows n : layer_wf sh ctx_size ratio l -> zlen rows = zlen (lc_raw_kv l) -> 0 <= n <= lc_cap_raw l -> layer_wf sh ctx_size ratio (set_raw rows n l).
Proof. intros H1 H2 H3. destruct H1; constructor; layer_fields; try done; congruence. Qed.

Lemma u64_rows n d : 0 <= n <= INT32_MAX + 2 -> 0 < d <= 65536 -> u64 (n * d * 4) = n * d * 4 /\ 0 <= n * d * 4.
Proof. unfold INT32_MAX. intros Hn Hd. split; [apply u64_small; unfold is_u64, U64_MAX|]; nia. Qed.

(** The reads behind the raw rows. *)
Lemma load_index_any s k l s1 : ratio = 4 -> on_the_way s k l s1 ->
  outcome (fun l' s' => exists n, on_the_way s n l' s') (ratio = 128 /\ comp_rows ctx_size ratio < n_comp)
    (and_then (and_then (read_field lc_index_comp_kv (fun b l => set_index_comp b (lc_n_index_comp l) l) (n_index_comp * ihd * 4) (l, s1))
       (read_field lc_index_state_kv (fun b l => set_index_state b (lc_index_state_score l) l) (layer_index_state_bytes sh ratio)))
       (read_field lc_index_state_score (fun b l => set_index_state (lc_index_state_kv l) b l) (layer_index_state_bytes sh ratio))).
Proof.
  intros E (Hwl & Hr & Hi & Hk & Ha). pose proof (so_ihd _ Hsh) as Hihd. destruct (state_bytes_small sh Hsh ratio Hratio) as (_ & _ & _ & Hsi).
  pose proof (lw_comp_cap _ _ _ _ Hw) as C0. pose proof (lw_comp_cap _ _ _ _ Hwl) as C1.
  assert (Hfit : n_index_comp * ihd * 4 <= zlen (lc_index_comp_kv l)) by (rewrite (lw_index_comp _ _ _ _ Hwl E), C1, <- C0; apply rows_mono; lia).
  pose proof (proj2 (u64_rows n_index_comp ihd ltac:(lia) Hihd)) as Hn0.
  eapply outcome_then; [eapply outcome_then; [apply (outcome_read (on_the_way s (k + n_index_comp * ihd * 4))); [lia|lia|]|]|].
  - intros b s' Hb _ Hb'. split; [apply wf_index_comp; try done; [lia|lia|intros _; rewrite C1, <- C0, Hi; lia]|]. split_and!; [done|done|lia|by eapply advanced_trans].
  - intros l2 s2 (W2 & R2 & I2 & K2 & A2). apply (outcome_read (on_the_way s (k + n_index_comp * ihd * 4 + layer_index_state_bytes sh ratio))); [lia|rewrite (lw_index_kv _ _ _ _ W2 E); lia|].
    intros b s' Hb _ Hb'. split; [by apply wf_index_state|]. split_and!; [done|done|lia|by eapply advanced_trans].
  - intros l2 s2 (W2 & R2 & I2 & K2 & A2). apply outcome_read; [lia|rewrite (lw_index_score _ _ _ _ W2 E); lia|].
    intros b s' Hb _ Hb'. exists (k + n_index_comp * ihd * 4 + layer_index_state_bytes sh ratio + layer_index_state_bytes sh ratio).
    split; [by apply wf_index_state|]. split_and!; [done|done|lia|by eapply advanced_trans].
Qed.

Lemma load_attn_any s k l s1 : ratio <> 0 -> layer_wf sh ctx_size ratio l -> lc_n_raw l = raw_live -> 0 <= k -> advanced k s s1 ->
  outcome (fun l' s' => exists n, on_the_way s n l' s') (ratio = 128 /\ comp_rows ctx_size ratio < n_comp)
    (and_then (and_then (read_field lc_attn_comp_kv (fun b l => set_attn_comp b (lc_n_comp l) l) (n_comp * hd * 4)
        (set_index_comp (lc_index_comp_kv l) n_index_comp (set_attn_comp (lc_attn_comp_kv l) n_comp l), s1))
       (read_field lc_attn_state_kv (fun b l => set_attn_state b (lc_attn_state_score l) l) (layer_attn_state_bytes sh ratio)))
       (read_field lc_attn_state_score (fun b l => set_attn_state (lc_attn_state_kv l) b l) (layer_attn_state_bytes sh ratio))).
Proof.
  intros E Hwl Hr Hk Ha. pose proof (so_hd _ Hsh) as Hhd. destruct (state_bytes_small sh Hsh ratio Hratio) as (_ & _ & Hsa & _).
  pose proof (lw_comp_cap _ _ _ _ Hw) as C0. pose proof (lw_comp_cap _ _ _ _ Hwl) as C1. pose proof (proj2 (u64_rows n_comp hd ltac:(lia) Hhd)) as Hn0.
  eapply outcome_then; [eapply outcome_then; [apply (outcome_read (on_the_way s (k + n_comp * hd * 4))); [lia|layer_fields|layer_fields]|]|].
  - rewrite (lw_attn_comp _ _ _ _ Hwl), C1. intros Hlt. assert (comp_rows ctx_size ratio < n_comp) by nia. split; [|done]. destruct Hratio as [?|[E4|?]]; [done| |done]. destruct (H4 E4). lia.
  - intros b s' Hb Hle Hb'. rewrite (lw_attn_comp _ _ _ _ Hwl), C1 in Hle. assert (n_comp <= comp_rows ctx_size ratio) by nia. split; [|split_and!; [done|done|lia|by eapply advanced_trans]].
    pose proof (wf_attn_comp _ b n_comp (wf_index_comp _ (lc_index_comp_kv l) n_index_comp Hwl eq_refl E ltac:(lia) ltac:(rewrite C1, <- C0; lia)) Hb ltac:(layer_fields; lia)) as HX. exact HX.
  - intros l2 s2 (W2 & R2 & I2 & K2 & A2). apply (outcome_read (on_the_way s (k + n_comp * hd * 4 + layer_attn_state_bytes sh ratio))); [lia|rewrite (lw_attn_kv _ _ _ _ W2); lia|].
    intros b s' Hb _ Hb'. split; [by apply wf_attn_state|]. split_and!; [done|done|lia|by eapply advanced_trans].
  - intros l2 s2 (W2 & R2 & I2 & K2 & A2). apply outcome_read; [lia|rewrite (lw_attn_score _ _ _ _ W2); lia|].
    intros b s' Hb _ Hb'. exists (k + n_comp * hd * 4 + layer_attn_state_bytes sh ratio + layer_attn_state_bytes sh ratio).
    split; [by apply wf_attn_state|]. split_and!; [done|done|lia|by eapply advanced_trans].
Qed.

(** Only the compressed rows of a layer with ratio 128 can be more than fit. *)
Lemma load_layer_any s : 
  outcome (fun l s' => layer_wf sh ctx_size ratio l /\ lc_n_raw l = raw_live /\ lc_n_index_comp l <= Z.max (lc_n_index_comp l0) n_index_comp /\ exists n, 0 <= n /\ advanced n s s')
    (ratio = 128 /\ comp_rows ctx_size ratio < n_comp) (load_layer sh raw_live n_comp n_index_comp l0 s).
Proof.
  pose proof (so_hd _ Hsh) as Hhd. pose proof (so_ihd _ Hsh) as Hihd. pose proof (default_raw_cap_range sh Hsh ctx_size ltac:(lia)) as [Hcap _]. rewrite <- (lw_cap _ _ _ _ Hw) in Hcap.
  destruct (u64_rows raw_live hd ltac:(unfold INT32_MAX; lia) Hhd) as [U1 N1]. destruct (u64_rows n_comp hd ltac:(lia) Hhd) as [U2 N2]. destruct (u64_rows n_index_comp ihd ltac:(lia) Hihd) as [U3 N3].
  unfold load_layer. rewrite U1, U2, U3. pose proof (rows_mono raw_live (lc_cap_raw l0) hd Hlive ltac:(lia)) as Hm. rewrite <- (lw_raw _ _ _ _ Hw) in Hm.
  eapply outcome_then; [apply (outcome_read (fun l s' => layer_wf sh ctx_size ratio l /\ lc_cap_raw l = lc_cap_raw l0 /\ lc_n_index_comp l = lc_n_index_comp l0 /\ advanced (raw_live * hd * 4) s s')); [lia|lia|]|].
  { intros b s' Hb _ Ha. split; [|done]. apply wf_raw; [done|done|apply Hw]. }
  intros l s1 (Hw1 & Hc1 & Hn1 & A1). pose proof (wf_raw l (lc_raw_kv l) raw_live Hw1 eq_refl ltac:(lia)) as Hw2. cbn [set_raw lc_compress_ratio]. rewrite (lw_ratio _ _ _ _ Hw1).
  fold (set_raw (lc_raw_kv l) raw_live l). destruct (Z.eqb_spec ratio 0) as [E0|E0].
  { cbn [outcome]. split; [done|]. split; [done|]. split; [cbn [set_raw lc_n_index_comp]; lia|]. exists (raw_live * hd * 4). split; [lia|done]. }
  eapply outcome_then; [apply (load_attn_any s (raw_live * hd * 4) _ s1 E0 Hw2 eq_refl ltac:(lia) A1)|]. intros l2 s2 (n & Ho). cbn [fst snd].
  destruct (Z.eqb_spec ratio 4) as [E4|E4].
  - pose proof (load_index_any s n l2 s2 E4 Ho) as HL. revert HL. destruct (and_then _ _) as [l' [[e|]|s']]; cbn [outcome]; [done|done|].
    intros (m & W & R & I & K & A). split; [done|]. split; [done|]. split; [lia|]. by exists m.
  - cbn [outcome]. destruct Ho as (W & R & I & K & A). split; [done|]. split; [done|]. split; [lia|]. by exists n.
Qed.
End Layer.

Lemma advanced_ok n s s' : bytes_ok (io_fp s) -> advanced n s s' -> bytes_ok (io_fp s').
Proof. intros Hb (got & _ & Hf & _). rewrite Hf in Hb. by apply Forall_app in Hb as [_ Hb]. Qed.

Lemma read_tokens_ok n s toks s' : bytes_ok (io_fp s) -> read_tokens n s = inr (toks, s') -> 0 <= io_remaining s ->
  advanced (4 * Z.of_nat n) s s' /\ length toks = n /\ Forall (fun t => - INT32_MAX - 1 <= t <= INT32_MAX) toks.
Proof.
  revert s toks. induction n as [|n IH]; intros s toks Hb H Hr; cbn [read_tokens] in H.
  - injection H as <- <-. split; [exists []; by split_and!|]. by split.
  - destruct (payload_read_u32 s) as [|[v s1]] eqn:E1; [done|]. destruct (read_tokens n s1) as [|[vs s2]] eqn:E2; [done|]. injection H as <- <-.
    destruct (read_u32_ok _ _ _ Hb E1) as [A1 Hv]. assert (Hr1 : 0 <= io_remaining s1) by (by destruct A1 as (? & _ & _ & _ & ?)).
    destruct (IH s1 vs (advanced_ok _ _ _ Hb A1) E2 Hr1) as (A2 & Hl & Hf). split; [|split; [by cbn; rewrite Hl|constructor; [apply i32_range|done]]].
    replace (4 * Z.of_nat (S n)) with (4 + 4 * Z.of_nat n) by lia. by eapply advanced_trans.
Qed.

Lemma read_fields_ok n s vs s' : bytes_ok (io_fp s) -> read_fields n s = inr (vs, s') -> 0 <= io_remaining s ->
  advanced (4 * Z.of_nat n) s s' /\ length vs = n /\ Forall is_u32 vs.
Proof.
  revert s vs. induction n as [|n IH]; intros s vs Hb H Hr; cbn [read_fields] in H.
  - injection H as <- <-. split; [exists []; by split_and!|]. by split.
  - destruct (payload_read_u32 s) as [|[v s1]] eqn:E1; [done|]. destruct (read_fields n s1) as [|[ws s2]] eqn:E2; [done|]. injection H as <- <-.
    destruct (read_u32_ok _ _ _ Hb E1) as [A1 Hv]. assert (Hr1 : 0 <= io_remaining s1) by (by destruct A1 as (? & _ & _ & _ & ?)).
    destruct (IH s1 ws (advanced_ok _ _ _ Hb A1) E2 Hr1) as (A2 & Hl & Hf). split; [|split; [by cbn; rewrite Hl|by constructor]].
    replace (4 * Z.of_nat (S n)) with (4 + 4 * Z.of_nat n) by lia. by eapply advanced_trans.
Qed.

Lemma read_counts_ok err saved caps s vs s' : bytes_ok (io_fp s) -> read_counts err saved caps s = inr (vs, s') -> 0 <= io_remaining s ->
  advanced (4 * zlen caps) s s' /\ Forall2 (fun cap v => 0 <= v <= cap) caps vs.
Proof.
  revert s vs. induction caps as [|cap caps IH]; intros s vs Hb H Hr; cbn [read_counts] in H.
  - injection H as <- <-. split; [exists []; by split_and!|constructor].
  - destruct (payload_read_u32 s) as [|[v s1]] eqn:E1; [done|]. destruct (Z.ltb_spec saved v); [done|]. destruct (Z.ltb_spec cap v); [done|]. cbn [orb] in H.
    destruct (read_counts err saved caps s1) as [|[ws s2]] eqn:E2; [done|]. injection H as <- <-.
    destruct (read_u32_ok _ _ _ Hb E1) as [A1 Hv]. assert (Hr1 : 0 <= io_remaining s1) by (by destruct A1 as (? & _ & _ & _ & ?)).
    destruct (IH s1 ws (advanced_ok _ _ _ Hb A1) E2 Hr1) as (A2 & Hf). split; [|constructor; [unfold is_u32 in Hv; lia|done]].
    replace (4 * zlen (cap :: caps)) with (4 + 4 * zlen caps) by (unfold zlen; cbn [length]; lia). by eapply advanced_trans.
Qed.

(** All layers: read, or stopped at a layer with ratio 128. *)
Lemma load_layers_any ctx_size raw_live cap ratios cache counts s : 0 < ctx_size <= INT32_MAX -> Forall (fun r => r = 0 \/ r = 4 \/ r = 128) ratios ->
  0 <= raw_live <= ds4_default_raw_cap sh ctx_size -> cap <= INT32_MAX + 2 -> Forall (fun r => r = 4 -> cap <= comp_rows ctx_size r) ratios ->
  Forall2 (layer_wf sh ctx_size) ratios cache -> Forall (fun l => lc_n_index_comp l <= cap) cache ->
  Forall (fun c => 0 <= fst c <= cap /\ 0 <= snd c <= cap) counts -> length counts = length cache -> 0 <= io_remaining s ->
  match load_layers sh raw_live counts cache s with
  | (cache', inr s') => Forall2 (layer_wf sh ctx_size) ratios cache' /\ Forall (fun l => lc_n_raw l = raw_live /\ lc_n_index_comp l <= cap) cache' /\
                        exists n, 0 <= n /\ advanced n s s'
  | (_, inl Overrun) => 128 ∈ ratios /\ comp_rows ctx_size 128 < cap
  | (_, inl (Fail _)) => True
  end.
Proof.
  intros Hc Hr Hl Hcap H4 Hw. revert counts s. induction Hw as [|r l ratios cache Hw Hws IH]; intros counts s Hi Hn Hlen Hr0.
  - destruct counts; [|done]. cbn [load_layers]. split; [constructor|]. split; [constructor|]. exists 0. split; [done|]. exists []. by split_and!.
  - destruct counts as [|[nc ni] counts]; [done|]. apply Forall_cons in Hr as [Hr1 Hr], H4 as [H41 H4], Hi as [Hi1 Hi], Hn as [[Hn1 Hn2] Hn]. cbn [fst snd] in Hn1, Hn2.
    cbn [load_layers]. pose proof (load_layer_any ctx_size r raw_live nc ni l Hc Hr1 Hw ltac:(rewrite (lw_cap _ _ _ _ Hw); lia) ltac:(lia) ltac:(lia)
      ltac:(intros E; rewrite (lw_comp_cap _ _ _ _ Hw); specialize (H41 E); lia) s) as HL.
    destruct (load_layer sh raw_live nc ni l s) as [l' [[e|]|s1]]; cbn [outcome] in HL; [done| |].
    + destruct HL as [-> HL]. split; [left|lia].
    + destruct HL as (W & R & I & n & Hn0 & A). assert (Hr1' : 0 <= io_remaining s1) by (by destruct A as (? & _ & _ & _ & ?)).
      specialize (IH Hr H4 counts s1 Hi Hn ltac:(cbn in Hlen; lia) Hr1'). destruct (load_layers sh raw_live counts cache s1) as [cache' [[e|]|s2]]; [done| |].
      * destruct IH as [Hin IH]. split; [by right|done].
      * destruct IH as (W' & R' & m & Hm & A'). split; [by constructor|]. split; [constructor; [split; [done|lia]|done]|]. exists (n + m). split; [lia|by eapply advanced_trans].
Qed.
End Any.

(** ** A load *)

Lemma init_no_index sh ctx_size raw_cap i l : KvCache.kv_cache_init sh ctx_size raw_cap !! i = Some l -> lc_n_index_comp l = 0.
Proof.
  unfold KvCache.kv_cache_init. cbv zeta. change (map ?f ?x) with (f <$> x). intros Hi. apply list_lookup_fmap_Some in Hi as (j & -> & _).
  unfold layer_init. cbv zeta. repeat match goal with |- context [if ?b =? ?c then LayerCache _ _ _ _ _ _ _ _ _ _ _ _ _ else _] => destruct (b =? c) end; done.
Qed.

Section Load.
Context (sh : ds4_shape) (Hsh : shape_ok sh) (s : cpu_session) (Hw : session_wf sh s).

Lemma header_bounds h : length h = 13%nat -> Forall is_u32 h -> check_header sh s h = None ->
  0 <= h !!! 12%nat <= ds4_default_raw_cap sh (ss_ctx_size s) /\ 0 <= h !!! 7%nat < ss_ctx_size s /\
  h !!! 12%nat = if h !!! 7%nat <? ds4_default_raw_cap sh (ss_ctx_size s) then h !!! 7%nat else ds4_default_raw_cap sh (ss_ctx_size s).
Proof.
  intros Hl Hu Hc. pose proof (sw_ctx _ _ Hw) as Hctx. unfold INT32_MAX in Hctx. pose proof (default_raw_cap_range sh Hsh (ss_ctx_size s) ltac:(lia)) as [Hd _].
  assert (H7 : is_u32 (h !!! 7%nat)) by (apply (Forall_lookup_1 _ _ 7%nat _ Hu), list_lookup_lookup_total_lt; lia). unfold is_u32 in H7.
  unfold check_header in Hc. rewrite u32_small in Hc by (unfold is_u32, U32_MAX; lia). cbv zeta in Hc.
  destruct (Z.ltb_spec (ss_ctx_size s) (h !!! 2%nat)); [done|]. destruct (Z.leb_spec (ss_ctx_size s) (h !!! 7%nat)); [done|]. cbn [orb] in Hc.
  destruct (_ || negb (h !!! 11%nat =? _)); [done|]. destruct (Z.eqb_spec (h !!! 5%nat) (ds4_default_raw_cap sh (ss_ctx_size s))) as [E5|]; [|done]. cbn [negb] in Hc. rewrite E5 in Hc.
  destruct (Z.eqb_spec (h !!! 12%nat) (if h !!! 7%nat <? ds4_default_raw_cap sh (ss_ctx_size s) then h !!! 7%nat else ds4_default_raw_cap sh (ss_ctx_size s))) as [E|];
    [|by rewrite orb_true_r in Hc]. split; [|split; [lia|done]]. rewrite E. destruct (Z.ltb_spec (h !!! 7%nat) (ds4_default_raw_cap sh (ss_ctx_size s))); lia.
Qed.

Lemma widest_mixed : 128 ∈ g_ds4_compress_ratios sh -> comp_rows (ss_ctx_size s) 128 < widest_cap (ss_ctx_size s) (g_ds4_compress_ratios sh) -> 4 ∈ g_ds4_compress_ratios sh.
Proof.
  intros H128 Hlt. unfold widest_cap in Hlt. destruct (existsb (fun r => r =? 4) _) eqn:E4.
  - apply existsb_exists in E4 as (r & Hin & ->%Z.eqb_eq). by apply list_elem_of_In.
  - destruct (existsb (fun r => negb (r =? 0)) _) eqn:E0; [cbn in Hlt; lia|].
    assert (E : existsb (fun r => negb (r =? 0)) (g_ds4_compress_ratios sh) = true); [|congruence]. apply existsb_exists. exists 128. split; [by apply list_elem_of_In|done].
Qed.

Lemma layers_safe raw_live ncs nis st : 0 <= raw_live <= ds4_default_raw_cap sh (ss_ctx_size s) ->
  let cap := session_cpu_comp_cap (ss_ctx_size s) (ss_cache s) in
  Forall2 (fun cap v => 0 <= v <= cap) (replicate (Z.to_nat (DS4_N_LAYER sh)) cap) ncs ->
  Forall2 (fun cap v => 0 <= v <= cap) (replicate (Z.to_nat (DS4_N_LAYER sh)) cap) nis -> 0 <= io_remaining st ->
  match load_layers sh raw_live (zip ncs nis) (KvCache.kv_cache_init sh (u32 (ss_ctx_size s)) 0) st with
  | (cache', inr st') => cache_wf sh (ss_ctx_size s) cache' /\ Forall (fun l => lc_n_raw l = raw_live /\ lc_n_index_comp l <= cap) cache' /\
                         exists n, 0 <= n /\ advanced n st st'
  | (_, inl Overrun) => 4 ∈ g_ds4_compress_ratios sh /\ 128 ∈ g_ds4_compress_ratios sh
  | (_, inl (Fail _)) => True
  end.
Proof.
  intros Hl cap Hnc Hni Hr. pose proof (sw_ctx _ _ Hw) as Hctx. rewrite u32_small by (unfold is_u32, U32_MAX, INT32_MAX in *; lia).
  assert (Hcap : cap = widest_cap (ss_ctx_size s) (g_ds4_compress_ratios sh)) by (by apply (comp_cap_eq sh (ss_ctx_size s) Hctx _ _ (so_ratios _ Hsh) (sw_cache _ _ Hw))).
  pose proof (kv_cache_init_wf sh Hsh (ss_ctx_size s) ltac:(lia)) as Hwf. pose proof (widest_cap_small (ss_ctx_size s) Hctx (g_ds4_compress_ratios sh)) as Hws.
  assert (Hn : length (KvCache.kv_cache_init sh (ss_ctx_size s) 0) = Z.to_nat (DS4_N_LAYER sh)) by (unfold KvCache.kv_cache_init; by rewrite length_map, length_seq).
  pose proof (Forall2_length _ _ _ Hnc) as L1. pose proof (Forall2_length _ _ _ Hni) as L2. rewrite length_replicate in L1, L2.
  assert (B : forall vs, Forall2 (fun cap v => 0 <= v <= cap) (replicate (Z.to_nat (DS4_N_LAYER sh)) cap) vs -> Forall (fun v => 0 <= v <= cap) vs).
  { intros vs Hvs. apply Forall_lookup_2. intros i v Hv. destruct (Forall2_lookup_r _ _ _ _ _ Hvs Hv) as (c & Hci & H). by apply lookup_replicate in Hci as [-> _]. }
  assert (P1 : Forall (fun r => r = 4 -> cap <= comp_rows (ss_ctx_size s) r) (g_ds4_compress_ratios sh)).
  { apply Forall_forall. intros r Hin ->. rewrite Hcap. unfold widest_cap. replace (existsb (fun r => r =? 4) _) with true; [done|].
    symmetry. apply existsb_exists. exists 4. split; [by apply list_elem_of_In|done]. }
  assert (P2 : Forall (fun l => lc_n_index_comp l <= cap) (KvCache.kv_cache_init sh (ss_ctx_size s) 0)).
  { apply Forall_lookup_2. intros i l Hi. rewrite (init_no_index sh (ss_ctx_size s) 0 i l Hi). lia. }
  assert (P3 : Forall (fun c => 0 <= fst c <= cap /\ 0 <= snd c <= cap) (zip ncs nis)).
  { apply Forall_lookup_2. intros i [a b] Hi. apply lookup_zip_Some in Hi as [Ha Hb]. split; [exact (Forall_lookup_1 _ _ _ _ (B _ Hnc) Ha)|exact (Forall_lookup_1 _ _ _ _ (B _ Hni) Hb)]. }
  pose proof (load_layers_any sh Hsh (ss_ctx_size s) raw_live cap _ _ (zip ncs nis) st Hctx (so_ratios _ Hsh) Hl ltac:(lia) P1 Hwf P2 P3 ltac:(rewrite length_zip_with; lia) Hr) as HA.
  destruct (load_layers sh raw_live (zip ncs nis) _ st) as [cache' [[e|]|st']]; [done| |done].
  destruct HA as [H128 Hlt]. split; [apply widest_mixed; [done|lia]|done].
Qed.

Lemma loaded_wf toks logits cache' valid : zlen toks < ss_ctx_size s -> Forall (fun t => - INT32_MAX - 1 <= t <= INT32_MAX) toks ->
  zlen logits = DS4_N_VOCAB sh * 4 -> cache_wf sh (ss_ctx_size s) cache' ->
  Forall (fun l => lc_n_raw l = (if zlen toks <? ds4_default_raw_cap sh (ss_ctx_size s) then zlen toks else ds4_default_raw_cap sh (ss_ctx_size s)) /\
                   lc_n_index_comp l <= session_cpu_comp_cap (ss_ctx_size s) (ss_cache s)) cache' ->
  session_wf sh (set_checkpoint toks valid cache' (set_logits (Some logits) s)).
Proof.
  intros Ht Hti Hl Hc Hn. pose proof (sw_ctx _ _ Hw) as Hctx. pose proof (zlen_nonneg toks). split; cbn [set_checkpoint set_logits ss_ctx_size ss_cache ss_checkpoint ss_logits ss_checkpoint_valid].
  - done.
  - done.
  - lia.
  - done.
  - by intros ? [= <-].
  - intros ->. split; [by eexists|]. apply (Forall_impl _ _ _ Hn). intros l [-> _]. unfold session_cpu_raw_live_rows. cbn [set_checkpoint set_logits ss_checkpoint_valid ss_ctx_size ss_checkpoint negb].
    unfold INT32_MAX in *. rewrite !u32_small by (unfold is_u32, U32_MAX; lia). done.
  - rewrite (comp_cap_eq sh (ss_ctx_size s) Hctx _ _ (so_ratios _ Hsh) Hc). rewrite (comp_cap_eq sh (ss_ctx_size s) Hctx _ _ (so_ratios _ Hsh) (sw_cache _ _ Hw)) in Hn.
    apply (Forall_impl _ _ _ Hn). by intros l [_ ?].
Qed.
End Load.

(** The header of the payload is accepted and its tokens are complete. *)
Definition takes_tokens (sh : ds4_shape) (s : cpu_session) (fp : bytes) (payload_bytes : Z) : Prop :=
  exists h st toks st2, read_fields 13 (Io fp payload_bytes) = inr (h, st) /\ check_header sh s h = None /\ read_tokens (Z.to_nat (h !!! 7%nat)) st = inr (toks, st2).

Lemma load_safe (sh : ds4_shape) (s : cpu_session) (fp : bytes) (payload_bytes : Z) :
  shape_ok sh -> session_wf sh s -> bytes_ok fp -> 0 <= payload_bytes ->
  match session_load_payload sh s fp payload_bytes with
  | (inr rest, s') =>
      fp = take (Z.to_nat payload_bytes) fp ++ rest /\ payload_bytes <= zlen fp /\
      session_wf sh s' /\ ss_checkpoint_valid s' = true /\ zlen (ss_checkpoint s') < ss_ctx_size s' /\ ss_ctx_size s' = ss_ctx_size s
  | (inl (Fail _), s') =>
      s' = s \/ (exists logits, s' = set_logits (Some logits) s /\ takes_tokens sh s fp payload_bytes) \/
      (exists logits cache, s' = set_checkpoint (ss_checkpoint s) false cache (set_logits (Some logits) s))
  | (inl Overrun, s') => 4 ∈ g_ds4_compress_ratios sh /\ 128 ∈ g_ds4_compress_ratios sh
  end.
Proof.
  intros Hsh Hw Hb Hp. unfold session_load_payload. destruct (read_fields 13 _) as [|[h st]] eqn:Eh; [by left|].
  destruct (read_fields_ok _ (Io fp payload_bytes) _ _ Hb Eh Hp) as (A1 & Hlen & Hu).
  destruct (_ || _); [by left|]. destruct (check_header sh s h) as [|] eqn:Ec; [by left|].
  assert (Hr1 : 0 <= io_remaining st) by (by destruct A1 as (? & _ & _ & _ & ?)). pose proof (advanced_ok _ (Io fp payload_bytes) _ Hb A1) as Hb1.
  destruct (read_tokens _ st) as [|[toks st2]] eqn:Et; [by left|]. assert (Htt : takes_tokens sh s fp payload_bytes) by (by exists h, st, toks, st2). destruct (read_tokens_ok _ _ _ _ Hb1 Et Hr1) as (A2 & Ht & Hti).
  pose proof (advanced_trans _ _ _ _ _ A1 A2) as A12. pose proof (advanced_ok _ _ _ Hb1 A2) as Hb2. assert (Hr2 : 0 <= io_remaining st2) by (by destruct A2 as (? & _ & _ & _ & ?)).
  pose proof (logits_buffer_size sh Hsh s Hw) as Hlb. pose proof (so_vocab _ Hsh) as Hvoc.
  pose proof (read_bytes_fits (logits_buffer sh s) (DS4_N_VOCAB sh * 4) st2 ltac:(lia)) as HL.
  destruct (payload_read_bytes (logits_buffer sh s) _ st2) as [logits [[e|]|st3]]; destruct HL as [HL1 HL2]; [right; left; by exists logits|done|].
  pose proof (advanced_trans _ _ _ _ _ A12 HL2) as A3. pose proof (advanced_ok _ _ _ Hb2 HL2) as Hb3. assert (Hr3 : 0 <= io_remaining st3) by (by destruct HL2 as (? & _ & _ & _ & ?)).
  cbn [set_logits ss_ctx_size ss_cache]. set (cap := session_cpu_comp_cap _ _). set (caps := replicate _ cap).
  destruct (read_counts ErrCompRows _ caps st3) as [|[ncs st4]] eqn:Enc; [right; left; by exists logits|]. destruct (read_counts_ok _ _ _ _ _ _ Hb3 Enc Hr3) as (A4 & Hnc).
  pose proof (advanced_trans _ _ _ _ _ A3 A4) as A34. pose proof (advanced_ok _ _ _ Hb3 A4) as Hb4. assert (Hr4 : 0 <= io_remaining st4) by (by destruct A4 as (? & _ & _ & _ & ?)).
  destruct (read_counts ErrIndexRows _ caps st4) as [|[nis st5]] eqn:Eni; [right; left; by exists logits|]. destruct (read_counts_ok _ _ _ _ _ _ Hb4 Eni Hr4) as (A5 & Hni).
  pose proof (advanced_trans _ _ _ _ _ A34 A5) as A45. assert (Hr5 : 0 <= io_remaining st5) by (by destruct A5 as (? & _ & _ & _ & ?)).
  destruct (header_bounds sh Hsh s Hw h Hlen Hu Ec) as (Hlive & Htoks & Hlive2).
  pose proof (layers_safe sh Hsh s Hw (h !!! 12%nat) ncs nis st5 Hlive Hnc Hni Hr5) as HLY. fold cap in HLY.
  destruct (load_layers sh _ _ _ st5) as [cache' [[e|]|st6]]; [right; right; by exists logits, cache'|done|]. destruct HLY as (W & N & n & Hn & A6).
  assert (Hz : zlen toks = h !!! 7%nat) by (unfold zlen; rewrite Ht, Z2Nat.id by lia; done).
  pose proof (advanced_trans _ _ _ _ _ A45 A6) as (got & Hg & Hfp & Hrem & _). destruct (Z.eqb_spec (io_remaining st6) 0) as [E0|]; cbn [negb]; [|right; right; by exists logits, cache'].
  cbn [io_fp io_remaining] in Hfp, Hrem. rewrite E0, Z.add_0_r in Hrem. rewrite <- Hg in Hrem. split_and!.
  - rewrite Hfp at 1 2. rewrite Hrem. unfold zlen. rewrite Nat2Z.id, take_app_length. done.
  - rewrite Hfp, zlen_app, Hrem. pose proof (zlen_nonneg (io_fp st6)). lia.
  - apply (loaded_wf sh Hsh s Hw toks logits cache' true); rewrite ?Hz, <- ?Hlive2; try done; [lia|congruence].
  - done.
  - cbn [set_checkpoint set_logits ss_checkpoint ss_ctx_size]. lia.
  - done.
Qed.

(** ** Properties *)

(** A valid session is saved in exactly the announced number of bytes, and
    any session whose context holds it and has the same raw window takes the
    file, leaving what follows it: the same tokens and logits, and in every
    layer the same live rows, counts and compressor states.  In a session with
    the same context size a second save gives the same bytes. *)
Theorem payload_roundtrip (sh : ds4_shape) (s s0 : cpu_session) (prefill_cap : Z) (rest : bytes) :
  shape_ok sh -> session_wf sh s -> session_wf sh s0 -> ss_checkpoint_valid s = true -> is_u32 prefill_cap -> fits sh s s0 ->
  exists file s', session_save_payload sh s prefill_cap = Some file /\ session_payload_bytes sh s = zlen file /\
    session_load_payload sh s0 (file ++ rest) (zlen file) = (inr rest, s') /\
    ss_checkpoint s' = ss_checkpoint s /\ ss_logits s' = ss_logits s /\ ss_checkpoint_valid s' = true /\
    Forall2 (same_live sh (session_cpu_raw_live_rows sh s)) (ss_cache s) (ss_cache s') /\ session_wf sh s' /\
    (ss_ctx_size s0 = ss_ctx_size s -> session_save_payload sh s' prefill_cap = Some file).
Proof.
  intros Hsh Hw Hw0 Hv Hp Hf. destruct (save_file sh Hsh s prefill_cap Hw Hv) as (logits & Hl & Hs).
  exists (payload_file sh s prefill_cap logits), (reloaded sh s s0 logits). pose proof (reloaded_wf sh Hsh s s0 logits Hw Hw0 Hv Hl Hf) as Hw'. split_and!.
  - done.
  - by apply payload_size.
  - by apply load_file.
  - done.
  - done.
  - done.
  - by apply (layers_reloaded sh Hsh).
  - done.
  - intros Hc. destruct (save_file sh Hsh _ prefill_cap Hw' eq_refl) as (logits' & Hl' & ->). injection Hl' as <-. f_equal. by apply reloaded_file.
Qed.

(** A small model with both ratios, and sessions of 8 tokens of context. *)
Definition small_shape : ds4_shape := Shape 2 1 1 1 1 [4; 128].
Definition small_session (tokens : list Z) : cpu_session :=
  Session 8 tokens true [] (map (fun l => kv_cache_push_raw small_shape l [0x3f800000]) (KvCache.kv_cache_init small_shape 8 0)) (Some (floats [0x40000000])) false [] false.

Lemma small_shape_ok : shape_ok small_shape.
Proof. constructor; cbn; unfold DS4_MAX_LAYER; try lia; [done|]. apply Forall_cons. split; [by right; left|]. apply Forall_singleton. by right; right. Qed.

Lemma small_session_wf tokens : (1 <= length tokens <= 8)%nat -> Forall (fun t => - INT32_MAX - 1 <= t <= INT32_MAX) tokens -> session_wf small_shape (small_session tokens).
Proof.
  intros Hn Ht. constructor; cbn [small_session ss_ctx_size ss_cache ss_checkpoint ss_logits ss_checkpoint_valid]; try done.
  - apply Forall2_same_length_lookup_2; [done|]. intros i r l Hr Hl.
    change (map ?f ?x) with (f <$> x) in Hl. apply list_lookup_fmap_Some in Hl as (l0 & -> & Hl). apply push_raw_wf; [apply small_shape_ok|done|].
    pose proof (kv_cache_init_wf small_shape small_shape_ok 8 ltac:(done)) as Hi. exact (Forall2_lookup_lr _ _ _ _ _ _ Hi Hr Hl).
  - unfold zlen. lia.
  - intros ? [= <-]. done.
  - intros _. split; [by eexists|]. assert (H1 : session_cpu_raw_live_rows small_shape (small_session tokens) = 1).
    { unfold session_cpu_raw_live_rows. cbn [small_session ss_checkpoint_valid negb ss_ctx_size ss_checkpoint]. change (ds4_default_raw_cap small_shape (u32 8)) with 1.
      cbv zeta. assert (Hz : 1 <= zlen tokens <= 8) by (unfold zlen; clear -Hn; lia). rewrite (u32_small (zlen tokens)) by (unfold is_u32, U32_MAX; lia). destruct (Z.ltb_spec (zlen tokens) 1); lia. }
    rewrite H1. vm_compute. repeat constructor; discriminate.
  - vm_compute. repeat constructor; discriminate.
Qed.

Lemma payload_roundtrip_witness :
  exists file s', session_save_payload small_shape (small_session [5; 6]) 1 = Some file /\
    session_load_payload small_shape (small_session [5; 6]) (file ++ [1; 2]) (zlen file) = (inr [1; 2], s') /\ ss_checkpoint s' = [5; 6].
Proof.
  destruct (payload_roundtrip small_shape (small_session [5; 6]) (small_session [5; 6]) 1 [1; 2] small_shape_ok (small_session_wf [5; 6] ltac:(cbn; lia) ltac:(by repeat constructor)) (small_session_wf [5; 6] ltac:(cbn; lia) ltac:(by repeat constructor))) as
    (file & s' & H1 & _ & H3 & H4 & _); [done|done|by split|]. by exists file, s'.
Defined.



(** A payload whose row counts are wrong: the load fails, the checkpoint is still
    marked valid, and its logits are those of the file. *)
Example failed_load_keeps_checkpoint :
  let file := (payload_header small_shape (small_session [5; 6]) 1 ≫= payload_put_u32) ++ floats [5; 6] ++ floats [7] ++ floats [0; 9] in
  let '(r, s') := session_load_payload small_shape (small_session [1]) file (zlen file) in
  r = inl (Fail ErrCompRows) /\ ss_checkpoint_valid s' = true /\ ss_checkpoint s' = [1] /\ ss_logits (small_session [1]) = Some (floats [0x40000000]) /\ ss_logits s' = Some (floats [7]).
Proof. vm_compute. by repeat split. Qed.

(** The CPU backend limits every layer's compressed rows by the capacity of
    the first ratio-4 layer only: a crafted payload that gives a ratio-128 layer
    as many makes the load write behind that layer's buffer. *)
Example payload_load_overruns :
  let file := (payload_header small_shape (small_session [5; 6]) 1 ≫= payload_put_u32) ++ floats [5; 6] ++ floats [0] ++ floats [0; 3] ++ floats [0; 0] ++ zeros 276 in
  fst (session_load_payload small_shape (small_session [5; 6]) file (zlen file)) = inl Overrun.
Proof. vm_compute. reflexivity. Qed.
