(* ===== verification/Checkpoint.v ===== *)
(** * Checkpoints of CPU sessions (ds4.c with ds4_kvstore.c)

    The interface the KV store has to an inference engine, implemented by the
    CPU sessions and their payloads, and what the composition gives: a session
    stored in the directory is restored from it.  Staged payload files and
    snapshots in memory are here too. *)

From Stdlib Require Import Floats.SpecFloat.
From S2P Require Import Prelude Sha1 KvHeader KvPolicy KvStore KvEvict KvSession KvCache Session Payload.
#[local] Open Scope Z_scope.
#[local] Open Scope stdpp_scope.

#[local] Abbreviation cpu_session := (session (list ds4_layer_cache) bytes).

(** ** Snapshots in memory *)

Record ds4_session_snapshot := Snapshot { sn_ptr : bytes; sn_len : Z }.

Section Snapshot.
Context (sh : ds4_shape).

(** [fmemopen] gets one byte more than the payload: closing writes a NUL behind
    what was written.  A grown buffer holds its old bytes and then zeros, which
    nothing reads; what a failed save leaves in the buffer is not modelled. *)
Definition session_save_snapshot (s : cpu_session) (prefill_cap : Z) (snap : ds4_session_snapshot) : bool * ds4_session_snapshot :=
  let bytes := session_payload_bytes sh s in
  if bytes =? 0 then (false, snap)
  else if U64_MAX <=? bytes then (false, snap)
  else
    let capacity := bytes + 1 in
    let ptr := if zlen (sn_ptr snap) <? capacity then sn_ptr snap ++ zeros (capacity - zlen (sn_ptr snap)) else sn_ptr snap in
    match session_save_payload sh s prefill_cap with
    | None => (false, Snapshot ptr (sn_len snap))
    | Some file =>
        if capacity <? zlen file then (false, Snapshot (splice 0 (part file capacity) ptr) (sn_len snap))
        else (true, Snapshot (splice 0 (part (file ++ [0]) capacity) ptr) bytes)
    end.

Definition session_load_snapshot (s : cpu_session) (snap : ds4_session_snapshot) : (stop + bytes) * cpu_session :=
  if sn_len snap =? 0 then (inl (Fail ErrSnapshot), s)
  else Payload.session_load_payload sh s (part (sn_ptr snap) (sn_len snap)) (sn_len snap).
End Snapshot.

(** ** The engine of the store *)

Section Engine.
Context (sh : ds4_shape) (quant_bits model_id : Z) (text_of : Z -> bytes) (tokenize : bytes -> list Z) (prefill_cap : Z).

(** [ds4_session_stage_payload] and [ds4_session_write_staged_payload]: the bytes
    the staging file hands on. *)
Definition stage_payload (s : cpu_session) : option bytes :=
  if negb (ss_checkpoint_valid s) then None else session_save_payload sh s prefill_cap.

Definition load_payload (s : cpu_session) (fp : bytes) (payload_bytes : Z) : bool * cpu_session * bytes :=
  match Payload.session_load_payload sh s fp payload_bytes with
  | (inr rest, s') => (true, s', rest)
  | (inl _, s') => (false, s', [])
  end.

#[local] Instance cpu_engine : KvEngine cpu_session := {|
  routed_quant_bits := quant_bits;
  engine_model_id := model_id;
  token_text := text_of;
  tokenize_rendered_chat := tokenize;
  session_ctx s := ss_ctx_size s;
  session_tokens s := Some (ss_checkpoint s);
  session_stage_payload := stage_payload;
  KvSession.session_load_payload := load_payload;
  KvSession.session_invalidate := Session.session_invalidate
|}.

(** What the continuation of a prompt relies on (Continuation.v). *)
Lemma load_payload_valid s fp size s' rest : load_payload s fp size = (true, s', rest) ->
  ss_checkpoint_valid s' = true /\ ss_images s' = ss_images s /\ ss_ctx_size s' = ss_ctx_size s.
Proof.
  unfold load_payload. destruct (Payload.session_load_payload sh s fp size) as [[e|r] s1] eqn:E; [done|]. intros [= <- <-]. unfold Payload.session_load_payload in E.
  by repeat (case_match; simplify_eq).
Qed.

(** ** What is stored *)

Lemma stored_tokens exp2 uf io fs kc s toks n reason hooks fs' kc' :
  store_live_prefix exp2 uf io fs kc s toks n reason hooks = (true, fs', kc') -> ss_checkpoint s = tokens_copy_prefix toks n.
Proof.
  unfold store_live_prefix, store_live_prefix_text. cbv zeta. destruct (kc_enabled kc); [|done]. cbn [negb]. destruct toks as [tk|]; [|done].
  destruct (n <? _); [done|]. destruct (_ && _); [done|]. cbn [session_tokens cpu_engine]. destruct (_ || _) eqn:E; [done|]. intros _.
  apply orb_false_iff in E as [E1 E2]. apply negb_false_iff in E1, E2. apply Z.eqb_eq in E1. apply starts_with_iff in E2 as (r & Hr).
  rewrite Hr in E1 |- *. rewrite zlen_app in E1. destruct r; [by rewrite app_nil_r|]. unfold zlen in E1. cbn [length] in E1. lia.
Qed.

Lemma stage_payload_file (Hsh : shape_ok sh) s payload : session_wf sh s -> stage_payload s = Some payload ->
  ss_checkpoint_valid s = true /\ exists logits, ss_logits s = Some logits /\ payload = payload_file sh s prefill_cap logits.
Proof.
  unfold stage_payload. intros Hw. destruct (ss_checkpoint_valid s) eqn:Hv; [|done]. cbn [negb]. intros Hs. split; [done|].
  destruct (save_file sh Hsh s prefill_cap Hw Hv) as (logits & Hl & E). exists logits. split; [done|]. congruence.
Qed.

(** The index entry of a path is the one its file gives. *)
Lemma entry_at_path fs kc e path sha img e1 : kc_enabled kc = true -> e ∈ kc_entry (cache_refresh fs kc) -> e_path e = path ->
  fs_lookup fs path = Some img -> dir_name (kc_dir kc) path = Some (sha ++ bs ".kv") -> sha_hex_name (sha ++ bs ".kv") = Some sha ->
  read_entry_file fs path sha = Some e1 -> e = e1.
Proof.
  intros Hen Hin Hp Hl Hd Hs Hr. rewrite cache_refresh_entries in Hin by done. apply list_elem_of_omap in Hin as (p & _ & He).
  unfold entry_of in He. destruct (dir_name (kc_dir kc) p) as [name|] eqn:Ed; [|done]. destruct (sha_hex_name name) as [sha'|] eqn:Es; [|done].
  assert (Hep : e_path e = p).
  { unfold read_entry_file in He. destruct (fs_lookup fs p); [|done]. destruct (_ <? _); [done|]. destruct (read_header _ _) as [[[? ?] ?]|]; [|done].
    destruct (_ || _); [done|]. cbv zeta in He. destruct (_ <? _); [done|]. by injection He as <-. }
  assert (Epp : p = path) by congruence. rewrite Epp in Ed, He. assert (En : name = sha ++ bs ".kv") by congruence. rewrite En in Es. assert (sha' = sha) by congruence. congruence.
Qed.

(** The header of the file a store writes. *)
Definition stored_header (ext reason now c t pb tb : Z) : ds4_kvstore_entry :=
  Entry [] [] (u8 quant_bits) (u8 model_id) reason t 0 c ext now now pb tb 0.

(** The file a store of a whole session leaves under its text's name, and its
    entry in the index. *)
Lemma stored_image (Hsh : shape_ok sh) exp2 uf io fs kc s n reason hooks fs' kc' :
  let text := render_tokens_text (ss_checkpoint s) in
  session_wf sh s -> NoDup (fs.*1) -> (existing uf fs kc s text).1 = false -> 0 < o_min_tokens (kc_opt kc) -> n <= zlen (ss_checkpoint s) ->
  is_u64 (io_now io) -> (forall hk, hooks = Some hk -> is_byte (th_ext_flag hk)) ->
  store_live_prefix exp2 uf io fs kc s (Some (ss_checkpoint s)) n reason hooks = (true, fs', kc') ->
  exists logits h trailer ext,
    let file := payload_file sh s prefill_cap logits in
    let hdr := stored_header ext (reason_code reason) (io_now io) (u32 (ss_ctx_size s)) (zlen (ss_checkpoint s)) (zlen file) (zlen text) in
    let image := checkpoint_image h text file trailer in
    kc_enabled kc' = true /\ kc_dir kc' = kc_dir kc /\ kc_opt kc' = kc_opt kc /\ o_min_tokens (kc_opt kc) <= zlen (ss_checkpoint s) /\ zlen text <= U32_MAX /\ ss_checkpoint_valid s = true /\ ss_logits s = Some logits /\ (quant_bits = 2 \/ quant_bits = 4) /\
    0 < zlen (ss_checkpoint s) /\ fs_lookup fs' (text_path kc text) = Some image /\
    read_entry_file fs' (text_path kc text) (sha1_bytes_hex text) = Some (set_file hdr (sha1_bytes_hex text) (text_path kc text) (zlen image)) /\
    read_header image entry_zero = Some (hdr, zlen text, text ++ file ++ trailer).
Proof.
  cbv zeta. intros Hw Hnd Hno Hmin Hn Hnow Hx Hst. pose proof (stored_tokens _ _ _ _ _ _ _ _ _ _ _ _ Hst) as Htk. pose proof (sw_ctx _ _ Hw) as Hctx. pose proof (sw_len _ _ Hw) as Hlen.
  rewrite Htk in Hno at 1. pose proof (store_fresh_spec _ _ _ _ _ _ _ _ _ _ _ _ Hno Hst) as Hf. cbv zeta in Hf. rewrite <- Htk in Hf.
  destruct Hf as (fs2 & payload & trailer & ext & fb & rb & Hen & Hnm & Hq & Htl & (extra & inc & Hev) & Hfs' & Hfit & Hext & Hpay).
  destruct (stage_payload_file Hsh s payload Hw Hpay) as (Hv & logits & Hl & ->). cbn [routed_quant_bits engine_model_id session_ctx cpu_engine] in *.
  set (text := render_tokens_text (ss_checkpoint s)) in *. set (file := payload_file sh s prefill_cap logits) in *.
  apply evict_sub in Hev as (_ & Hnd2 & (es & cap & Hkc')). pose proof (existing_NoDup uf fs kc s text Hnd) as Hnd1.
  assert (Hpos : 0 < zlen (ss_checkpoint s)) by (rewrite Htk, copy_prefix_length by lia; lia).
  rewrite (u32_small (zlen (ss_checkpoint s))) in Hfs' by (unfold is_u32, U32_MAX, INT32_MAX in *; lia).
  apply file_size_fits_exact in Hfit; try apply zlen_nonneg. destruct Hfit as (Hfb & Hfbm & _).
  assert (Hhv : header_valid (u8 model_id) (u8 quant_bits) (reason_code reason) ext (zlen (ss_checkpoint s)) 0 (u32 (ss_ctx_size s)) (io_now io) (io_now io) (zlen file) (zlen text)).
  { pose proof (zlen_nonneg text). pose proof (zlen_nonneg file). pose proof (zlen_nonneg trailer). unfold kv_fixed in Hfb.
    constructor; try done; try apply u8_is_byte; try apply u32_range; try apply reason_code_range; unfold is_u32, is_u64, U32_MAX, INT32_MAX in *; try lia.
    - destruct Hext as [-> | (hk & Hhk & ->)]; [done | by apply Hx].
    - destruct Hq as [-> | ->]; auto. }
  exists logits, (fill_header (u8 model_id) (u8 quant_bits) (reason_code reason) ext (zlen (ss_checkpoint s)) 0 (u32 (ss_ctx_size s)) (io_now io) (io_now io) (zlen file)), trailer, ext.
  fold file. match type of Hfs' with _ = fs_rename (fs_write _ _ ?img) _ _ => pose proof (fs_rename_new fs2 (tmp_path (text_path kc text) (io_pid io)) (text_path kc text) img (Hnd2 Hnd1)) as [_ Hlook] end.
  rewrite <- Hfs' in Hlook.
  split_and!; try done.
  - by rewrite Hkc'.
  - by rewrite Hkc'.
  - by rewrite Hkc'.
  - rewrite Htk, copy_prefix_length by lia. done.
  - rewrite (image_entry fs' (text_path kc text) (sha1_bytes_hex text) _ _ _ _ _ _ _ text file trailer Hhv ltac:(lia) Hlook). reflexivity.
  - unfold checkpoint_image. rewrite (u32_small (zlen text)) by apply Hhv. rewrite (read_header_fill _ _ _ _ _ _ _ _ _ _ _ _ entry_zero Hhv). reflexivity.
Qed.

(** The stored entry is found for every prompt that begins with the text, in a
    session with as much context: the lookup returns it or a better one. *)
Lemma stored_found fs' kc kc' s s0 suffix h trailer file ext rc t0 :
  let text := render_tokens_text (ss_checkpoint s) in
  let hdr := stored_header ext rc t0 (u32 (ss_ctx_size s)) (zlen (ss_checkpoint s)) (zlen file) (zlen text) in
  let image := checkpoint_image h text file trailer in
  let e1 := set_file hdr (sha1_bytes_hex text) (text_path kc text) (zlen image) in
  session_wf sh s -> session_wf sh s0 -> fits sh s s0 -> kc_enabled kc' = true -> kc_dir kc' = kc_dir kc -> kc_opt kc' = kc_opt kc -> o_min_tokens (kc_opt kc) <= zlen (ss_checkpoint s) ->
  zlen text <= U32_MAX -> fs_lookup fs' (text_path kc text) = Some image -> read_entry_file fs' (text_path kc text) (sha1_bytes_hex text) = Some e1 ->
  exists i e, find_text_prefix fs' kc' (Some (text ++ suffix)) model_id quant_bits (ss_ctx_size s0) = (Some (i, e), cache_refresh fs' kc') /\ at_least e e1.
Proof.
  cbv zeta. intros Hw Hw0 Hf Hen Hdir Hopt Hmin Htl Hlook Hre. set (text := render_tokens_text (ss_checkpoint s)) in *. pose proof (sw_ctx _ _ Hw) as Hc. pose proof (sw_ctx _ _ Hw0) as Hc0. pose proof (sw_len _ _ Hw) as Hlen. pose proof (ft_ctx _ _ _ Hf) as Hle.
  destruct (find_text_prefix fs' kc' (Some (text ++ suffix)) model_id quant_bits (ss_ctx_size s0)) as [r kc1] eqn:Ef. apply find_text_prefix_spec in Ef as [-> Hr].
  pose proof (stored_listed fs' kc kc' text _ _ Hen Hdir Hlook Hre) as Hin. match type of Hin with ?e1 ∈ _ => assert (Hu : usable (cache_refresh fs' kc') (text ++ suffix) model_id quant_bits (ss_ctx_size s0) e1) end.
  { refine (fresh_entry_usable (H := cpu_engine) (cache_refresh fs' kc') (text_path kc text) text suffix (zlen (ss_checkpoint s)) (ss_ctx_size s) (ss_ctx_size s0) t0 _ _ rc ext Htl _ _ _); [pose proof (zlen_nonneg (ss_checkpoint s)); lia| |].
    - destruct (cache_refresh_config fs' kc') as (es & cap & ->). cbn [set_entries kc_opt]. by rewrite Hopt.
    - rewrite !u32_small by (unfold is_u32, U32_MAX, INT32_MAX in *; lia). done. }
  destruct r as [[i e]|]; [|by destruct (Hr _ Hin Hu)]. destruct Hr as (_ & _ & Hbest). exists i, e. split; [done|]. by apply Hbest.
Qed.

(** [o] restored [s], for a prompt that goes on with [suffix]. *)
Definition restores (s : cpu_session) (suffix : bytes) (o : load_out (Sess := cpu_session)) : Prop :=
  lo_loaded o = zlen (ss_checkpoint s) /\ ss_checkpoint (lo_session o) = ss_checkpoint s /\ ss_logits (lo_session o) = ss_logits s /\
  ss_checkpoint_valid (lo_session o) = true /\ session_wf sh (lo_session o) /\
  Forall2 (same_live sh (session_cpu_raw_live_rows sh s)) (ss_cache s) (ss_cache (lo_session o)) /\
  lo_prompt o = ss_checkpoint s ++ tokenize suffix.

Lemma load_stored (Hsh : shape_ok sh) uf now fs' kc kc' s s0 suffix lhooks i e kc1 logits h trailer ext rc t0 :
  let text := render_tokens_text (ss_checkpoint s) in
  let file := payload_file sh s prefill_cap logits in
  let hdr := stored_header ext rc t0 (u32 (ss_ctx_size s)) (zlen (ss_checkpoint s)) (zlen file) (zlen text) in
  let image := checkpoint_image h text file trailer in
  session_wf sh s -> session_wf sh s0 -> is_u32 prefill_cap -> fits sh s s0 -> ss_checkpoint_valid s = true -> ss_logits s = Some logits ->
  (quant_bits = 2 \/ quant_bits = 4) -> 0 < zlen (ss_checkpoint s) -> kc_enabled kc' = true -> kc_dir kc' = kc_dir kc ->
  fs_lookup fs' (text_path kc text) = Some image ->
  read_entry_file fs' (text_path kc text) (sha1_bytes_hex text) = Some (set_file hdr (sha1_bytes_hex text) (text_path kc text) (zlen image)) ->
  read_header image entry_zero = Some (hdr, zlen text, text ++ file ++ trailer) ->
  find_text_prefix fs' kc' (Some (text ++ suffix)) model_id quant_bits (ss_ctx_size s0) = (Some (i, e), kc1) -> e_path e = text_path kc text ->
  restores s suffix (try_load_text uf now fs' kc' s0 (Some (text ++ suffix)) lhooks).
Proof.
  cbv zeta. intros Hw Hw0 Hp Hf Hv Hl Hq Hpos Hen Hdir Hlook Hre Hrh Hfind Hpath. set (text := render_tokens_text (ss_checkpoint s)) in *.
  set (file := payload_file sh s prefill_cap logits) in *. pose proof (sw_ctx _ _ Hw) as Hctx. pose proof (sw_len _ _ Hw) as Hlen.
  pose proof (find_text_prefix_spec _ _ _ _ _ _ _ _ Hfind) as [-> (Hin & _)].
  assert (He : e = set_file (stored_header ext rc t0 (u32 (ss_ctx_size s)) (zlen (ss_checkpoint s)) (zlen file) (zlen text)) (sha1_bytes_hex text) (text_path kc text) (zlen (checkpoint_image h text file trailer))).
  { eapply entry_at_path; [exact Hen|by eapply list_elem_of_lookup_2|exact Hpath|exact Hlook| | |exact Hre].
    - unfold text_path. rewrite Hdir. apply dir_name_sha; apply sha1_bytes_hex_length || apply sha1_bytes_hex_lhex.
    - apply sha_hex_name_lhex; apply sha1_bytes_hex_length || apply sha1_bytes_hex_lhex. }
  unfold try_load_text. cbn [routed_quant_bits engine_model_id session_ctx cpu_engine]. rewrite Hen. cbn [negb].
  replace (negb (quant_bits =? 2) && negb (quant_bits =? 4)) with false by (destruct Hq as [-> | ->]; reflexivity).
  rewrite Hfind, Hpath, Hlook, Hrh.
  assert (Hc : check_cached_text (stored_header ext rc t0 (u32 (ss_ctx_size s)) (zlen (ss_checkpoint s)) (zlen file) (zlen text)) (zlen text) (text ++ file ++ trailer)
                 model_id (e_sha e) (text ++ suffix) = Some (text, file ++ trailer)).
  { unfold check_cached_text. cbn [e_model_id stored_header]. rewrite Z.eqb_refl. cbn [negb]. rewrite (proj2 (Z.ltb_ge _ _)) by (rewrite zlen_app; pose proof (zlen_nonneg suffix); lia).
    rewrite fread_exact_app by (unfold zlen; lia). rewrite He. cbn [e_sha set_file]. rewrite bytes_eqb_refl. cbn [negb].
    unfold byte_prefix_match. by rewrite starts_with_app. }
  rewrite Hc. cbn [e_payload_bytes stored_header KvSession.session_load_payload cpu_engine]. unfold load_payload.
  unfold file. rewrite (load_file sh Hsh s s0 prefill_cap logits trailer Hw Hw0 Hv Hl Hp Hf). fold file.
  cbn [session_tokens cpu_engine e_tokens stored_header]. change (ss_checkpoint (reloaded sh s s0 logits)) with (ss_checkpoint s).
  rewrite i32_small by (unfold INT32_MAX in *; lia). rewrite Z.eqb_refl. cbn [negb default].
  rewrite (proj2 (Z.ltb_lt 0 _)) by lia. unfold build_prompt_from_exact_prefix_and_text_suffix. rewrite tokens_append_app.
  replace (drop (Z.to_nat (zlen text)) (text ++ suffix)) with suffix by (unfold zlen; rewrite Nat2Z.id; symmetry; apply drop_app_length).
  unfold restores. cbn [lo_loaded lo_session lo_prompt]. split_and!; try done.
  - by apply reloaded_wf.
  - by apply (layers_reloaded sh Hsh).
Qed.
End Engine.

(** ** Snapshots *)

Lemma payload_nonempty sh s prefill_cap logits : zlen (payload_file sh s prefill_cap logits) <> 0.
Proof.
  unfold payload_file. rewrite zlen_app, put_fields_length. change (zlen (payload_header sh s prefill_cap)) with 13.
  match goal with |- context [_ + zlen ?l] => pose proof (zlen_nonneg l) end. lia.
Qed.

Lemma snapshot_saved sh (Hsh : shape_ok sh) s prefill_cap snap : session_wf sh s -> ss_checkpoint_valid s = true -> exists logits,
  ss_logits s = Some logits /\ fst (session_save_snapshot sh s prefill_cap snap) = true /\
  sn_len (snd (session_save_snapshot sh s prefill_cap snap)) = zlen (payload_file sh s prefill_cap logits) /\
  part (sn_ptr (snd (session_save_snapshot sh s prefill_cap snap))) (zlen (payload_file sh s prefill_cap logits)) = payload_file sh s prefill_cap logits.
Proof.
  intros Hw Hv. destruct (save_file sh Hsh s prefill_cap Hw Hv) as (logits & Hl & Hs). exists logits. split; [done|].
  destruct (payload_size sh Hsh s prefill_cap logits Hw Hv Hl) as [Hb Hb2]. unfold session_save_snapshot. rewrite Hb, Hs.
  set (file := payload_file sh s prefill_cap logits) in *. pose proof (payload_nonempty sh s prefill_cap logits) as Hpos. fold file in Hpos. pose proof (zlen_nonneg file).
  rewrite (proj2 (Z.eqb_neq (zlen file) 0)) by lia. change (2 ^ 60) with 1152921504606846976 in Hb2. rewrite (proj2 (Z.leb_gt U64_MAX _)) by (unfold U64_MAX; lia).
  cbv zeta. rewrite (proj2 (Z.ltb_ge _ (zlen file))) by lia. cbn [fst snd sn_len sn_ptr]. split; [done|]. split; [done|].
  rewrite (part_all (file ++ [0])) by (rewrite zlen_app; done). rewrite splice_0, <- (assoc_L (++)). by apply part_prefix.
Qed.

(** ** Properties *)

(** C10: The store and the engine together: once a CPU session was stored under the
    text of its tokens, where no usable file had that text, every prompt that begins
    with the text finds a file in a session with the same raw window and enough
    context: the stored one, or one whose matching text is longer, or as long with
    as many tokens.  When it is the stored one, the session is restored: its
    tokens, logits and every layer's live rows, with the rest of the prompt
    tokenised behind its exact tokens. *)
Theorem stored_session_is_restored (sh : ds4_shape) (quant_bits model_id : Z) (text_of : Z -> bytes) (tokenize : bytes -> list Z) (prefill_cap : Z)
    exp2 uf uf' io fs kc (s s0 : cpu_session) n reason hooks fs' kc' now suffix lhooks :
  let engine := cpu_engine sh quant_bits model_id text_of tokenize prefill_cap in
  let text := render_tokens_text (H := engine) (ss_checkpoint s) in
  shape_ok sh -> session_wf sh s -> session_wf sh s0 -> is_u32 prefill_cap -> fits sh s s0 ->
  NoDup (fs.*1) -> (existing uf fs kc s text).1 = false -> 0 < o_min_tokens (kc_opt kc) -> n <= zlen (ss_checkpoint s) -> is_u64 (io_now io) ->
  (forall hk, hooks = Some hk -> is_byte (th_ext_flag hk)) ->
  store_live_prefix exp2 uf io fs kc s (Some (ss_checkpoint s)) n reason hooks = (true, fs', kc') ->
  exists i e, find_text_prefix fs' kc' (Some (text ++ suffix)) model_id quant_bits (ss_ctx_size s0) = (Some (i, e), cache_refresh fs' kc') /\
    (zlen text < e_text_bytes e \/ zlen text = e_text_bytes e /\ zlen (ss_checkpoint s) <= e_tokens e) /\
    (e_path e = text_path kc text -> restores sh tokenize s suffix (try_load_text uf' now fs' kc' s0 (Some (text ++ suffix)) lhooks)).
Proof.
  intros engine text Hsh Hw Hw0 Hp Hf Hnd Hno Hmin Hn Hnow Hx Hst.
  destruct (stored_image sh quant_bits model_id text_of tokenize prefill_cap Hsh _ _ _ _ _ _ _ _ _ _ _ Hw Hnd Hno Hmin Hn Hnow Hx Hst) as
    (logits & h & trailer & ext & Hen & Hdir & Hopt & Hmt & Htl & Hv & Hl & Hq & Hpos & Hlook & Hre & Hrh).
  destruct (stored_found sh quant_bits model_id text_of tokenize prefill_cap fs' kc kc' s s0 suffix _ _ _ _ _ _ Hw Hw0 Hf Hen Hdir Hopt Hmt Htl Hlook Hre) as (i & e & Hfind & Hbest).
  exists i, e. split; [exact Hfind|]. split; [exact Hbest|]. intros Hpath.
  exact (load_stored sh quant_bits model_id text_of tokenize prefill_cap Hsh uf' now fs' kc kc' s s0 suffix lhooks i e _ logits h trailer ext _ _
    Hw Hw0 Hp Hf Hv Hl Hq Hpos Hen Hdir Hlook Hre Hrh Hfind Hpath).
Qed.

Module Tiny.
Definition text_of (t : Z) : bytes := [u8 t].
Definition s : cpu_session := small_session [97; 98].
#[local] Instance engine : KvEngine cpu_session := cpu_engine small_shape 2 0 text_of (fun b => b) 1.
Definition kc : ds4_kvstore := Store true (bs "/kv") 1000000 false (Options 2 30 10 1 2) 0 [] 0.
(** The name of the text holds a file that is no checkpoint. *)
Definition fs : kvfs := (path_for_sha (bs "/kv") (sha1_bytes_hex (bs "ab")), bs "no checkpoint") :: Toy.other.
Definition stored : bool * kvfs * ds4_kvstore :=
  store_live_prefix Toy.exp2_one Toy.no_fail Toy.io fs kc s (Some [97; 98]) 2 (Some (bs "cold")) None.
End Tiny.

(** The stored file is found and the session restored, also where a file that is
    no checkpoint had the name. *)
Lemma stored_session_is_restored_witness :
  let engine := cpu_engine small_shape 2 0 Tiny.text_of (fun b => b) 1 in
  exists i e, find_text_prefix (snd (fst Tiny.stored)) (snd Tiny.stored) (Some (bs "ab" ++ bs "c")) 0 2 8 = (Some (i, e), cache_refresh (snd (fst Tiny.stored)) (snd Tiny.stored)) /\
  restores small_shape (fun b => b) Tiny.s (bs "c")
    (try_load_text Toy.no_fail 2000 (snd (fst Tiny.stored)) (snd Tiny.stored) (small_session [1]) (Some (bs "ab" ++ bs "c")) None).
Proof.
  intros engine. destruct (stored_session_is_restored small_shape 2 0 Tiny.text_of (fun b => b) 1 Toy.exp2_one Toy.no_fail Toy.no_fail Toy.io Tiny.fs Tiny.kc
    Tiny.s (small_session [1]) 2 (Some (bs "cold")) None (snd (fst Tiny.stored)) (snd Tiny.stored) 2000 (bs "c") None) as (i & e & H1 & _ & H3).
  - apply small_shape_ok.
  - apply small_session_wf; repeat constructor; done.
  - apply small_session_wf; repeat constructor; done.
  - done.
  - by split.
  - vm_compute. by repeat constructor; set_solver.
  - vm_compute. reflexivity.
  - done.
  - done.
  - done.
  - intros hk H. discriminate H.
  - vm_compute. reflexivity.
  - exists i, e. split; [exact H1|]. apply H3.
    assert (Hp : option_map (fun x => e_path (snd x)) (fst (find_text_prefix (snd (fst Tiny.stored)) (snd Tiny.stored) (Some (bs "ab" ++ bs "c")) 0 2 (ss_ctx_size (small_session [1])))) = Some (text_path Tiny.kc (render_tokens_text (H := engine) (ss_checkpoint Tiny.s)))) by (vm_compute; reflexivity).
    replace (render_tokens_text (ss_checkpoint Tiny.s)) with (bs "ab") in H1 by reflexivity. rewrite H1 in Hp. cbn [fst snd option_map] in Hp. by injection Hp.
Defined.

(** A snapshot in memory restores: whatever the buffer held before, loading
    it into a session the payload fits gives the tokens, the logits and the live
    rows of the session it was taken from. *)
Theorem snapshot_restores (sh : ds4_shape) (s s0 : cpu_session) (prefill_cap : Z) (snap : ds4_session_snapshot) :
  shape_ok sh -> session_wf sh s -> session_wf sh s0 -> ss_checkpoint_valid s = true -> is_u32 prefill_cap -> fits sh s s0 ->
  exists snap' s', session_save_snapshot sh s prefill_cap snap = (true, snap') /\ session_load_snapshot sh s0 snap' = (inr [], s') /\
    ss_checkpoint s' = ss_checkpoint s /\ ss_logits s' = ss_logits s /\ ss_checkpoint_valid s' = true /\
    Forall2 (same_live sh (session_cpu_raw_live_rows sh s)) (ss_cache s) (ss_cache s').
Proof.
  intros Hsh Hw Hw0 Hv Hp Hf. destruct (snapshot_saved sh Hsh s prefill_cap snap Hw Hv) as (logits & Hl & H1 & H2 & H3).
  destruct (session_save_snapshot sh s prefill_cap snap) as [ok snap']. cbn [fst snd] in *. subst ok. exists snap', (reloaded sh s s0 logits). split; [done|].
  destruct (payload_size sh Hsh s prefill_cap logits Hw Hv Hl) as [Hb _]. unfold session_load_snapshot. rewrite H2, H3. split.
  - rewrite (proj2 (Z.eqb_neq _ 0)) by (by apply (payload_nonempty sh)). rewrite <- (app_nil_r (payload_file sh s prefill_cap logits)) at 1. by apply load_file.
  - split_and!; try done. by apply (layers_reloaded sh Hsh).
Qed.

Lemma snapshot_restores_witness : exists snap' s', session_save_snapshot small_shape (small_session [5; 6]) 1 (Snapshot [] 0) = (true, snap') /\
  session_load_snapshot small_shape (small_session [7]) snap' = (inr [], s') /\ ss_checkpoint s' = [5; 6].
Proof.
  destruct (snapshot_restores small_shape (small_session [5; 6]) (small_session [7]) 1 (Snapshot [] 0) small_shape_ok) as (snap' & s' & H1 & H2 & H3 & _).
  - apply small_session_wf; repeat constructor; done.
  - apply small_session_wf; repeat constructor; done.
  - done.
  - done.
  - by split.
  - by exists snap', s'.
Defined.
