(* ===== verification/LiveState.v ===== *)
(** * Live protocol state of a slot (ds4_server.c)

    Beside its session a slot remembers what a client would replay to go on from
    it: the ids of the tool calls it has made and the visible transcript, with
    the places of its images.  Remembering, clearing and matching. *)

From S2P Require Import Prelude KvStore Session.
#[local] Open Scope Z_scope.

(** ** Requests and live state *)

Inductive api_style := API_OPENAI | API_ANTHROPIC | API_RESPONSES.

(** The offsets of the image markers in a text. *)
Abbreviation visible_image_key := (list nat).

Record live_tool_state := LiveTool {
  lt_valid : bool; lt_live_tokens : Z; lt_visible_text : option bytes;
  lt_images : visible_image_key; lt_call_ids : list bytes }.

Record visible_live_state := VisibleLive {
  vl_valid : bool; vl_live_tokens : Z; vl_visible_text : option bytes; vl_images : visible_image_key }.

(** What scheduling and continuation read of a request. *)
Record request := Request {
  rq_chat : bool;  (* kind == REQ_CHAT *)
  rq_api : api_style;
  rq_prompt_text : option bytes;
  rq_prompt : list Z;
  rq_images : list ds4_vision_span;
  rq_image_markers : option (list bytes);
  rq_responses_requires : bool; rq_responses_ids : list bytes; rq_responses_suffix : option bytes;
  rq_anthropic_requires : bool; rq_anthropic_ids : list bytes; rq_anthropic_suffix : option bytes }.

Definition rq_image_count (r : request) : nat := length (rq_images r).

Definition id_list_contains (ids : list bytes) (id : bytes) : bool :=
  match id with [] => false | _ => existsb (fun v => bytes_eqb v id) ids end.

Definition live_state_contains_all (state : live_tool_state) (ids : list bytes) : bool :=
  if negb (lt_valid state) || (length ids =? 0)%nat then false
  else forallb (id_list_contains (lt_call_ids state)) ids.

Definition visible_image_prefix_matches (incoming old : visible_image_key) (boundary : nat) : bool :=
  if (length incoming <? length old)%nat then false
  else if negb (forallb (fun '(a, b) => (a =? b)%nat) (zip incoming old)) then false
  else (length incoming =? length old)%nat || (boundary <=? nth (length old) incoming 0)%nat.

(** The markers in order: each is found after the one before, noted and blanked
    in the key. *)
Fixpoint marker_loop (markers : list bytes) (text key : bytes) (cursor : nat) (images : visible_image_key)
  : option (bytes * visible_image_key) :=
  match markers with
  | [] => Some (key, images)
  | m :: markers' =>
      match strstr m (drop cursor text) with
      | None => None
      | Some k =>
          if (length m =? 0)%nat then None
          else
            let pos := (cursor + k)%nat in
            marker_loop markers' text (splice pos (repeat 30 (length m)) key) (pos + length m) (images ++ [pos])
      end
  end.

Definition visible_prompt_key (r : request) (text : bytes) : option (bytes * visible_image_key) :=
  if (16 <? rq_image_count r)%nat then None
  else
    match rq_image_markers r with
    | None => if (rq_image_count r =? 0)%nat then Some (text, []) else None
    | Some markers => marker_loop (take (rq_image_count r) markers) text text 0 []
    end.

(** A visible text that the prompt key goes on from. *)
Definition visible_match (valid : bool) (live_tokens : Z) (visible_text : option bytes)
    (images : visible_image_key) (live_pos : Z) (key : bytes) (key_images : visible_image_key) : bool :=
  match visible_text with
  | None => false
  | Some v =>
      valid && (live_tokens =? live_pos) && (length v <? length key)%nat &&
      visible_image_prefix_matches key_images images (length v) && byte_prefix_match key v
  end.


(** ** Remembering *)

Definition id_list_push_unique (ids : list bytes) (id : bytes) : list bytes :=
  if (length id =? 0)%nat || id_list_contains ids id then ids else ids ++ [id].

Definition live_tool_state_clear : live_tool_state := LiveTool false 0 None [] [].
Definition visible_live_clear : visible_live_state := VisibleLive false 0 None [].

(** [live_pos] is the session's position.  A text whose markers are not found
    leaves a state that is not valid. *)
Definition thinking_live_remember (st : visible_live_state) (live_pos : Z) (visible_text : bytes) (r : request) : visible_live_state :=
  match visible_text with
  | [] => st
  | _ =>
      match visible_prompt_key r visible_text with
      | Some (key, images) => VisibleLive true live_pos (Some key) images
      | None => VisibleLive false live_pos None []
      end
  end.

(** [call_ids]: the ids of the calls, when there are calls. *)
Definition responses_live_remember (st : live_tool_state) (live_pos : Z) (visible_text : bytes) (call_ids : list bytes) (r : request) : live_tool_state :=
  match visible_text with
  | [] => st
  | _ =>
      let ids := fold_left id_list_push_unique call_ids [] in
      match visible_prompt_key r visible_text with
      | Some (key, images) => LiveTool true live_pos (Some key) images ids
      | None => LiveTool false live_pos None [] ids
      end
  end.

Definition anthropic_live_remember (st : live_tool_state) (live_pos : Z) (call_ids : list bytes) : live_tool_state :=
  match call_ids with
  | [] => st
  | _ =>
      let ids := fold_left id_list_push_unique call_ids [] in
      LiveTool (0 <? zlen ids) live_pos None [] ids
  end.

(** Over the slots of the server. *)
Definition live_has_call_id (states : list live_tool_state) (id : bytes) : bool :=
  negb (length id =? 0)%nat && existsb (fun st => lt_valid st && id_list_contains (lt_call_ids st) id) states.

Definition live_matches_request (st : live_tool_state) (ids : list bytes) (live_tokens : Z) : bool :=
  if (length ids =? 0)%nat then false
  else lt_valid st && (lt_live_tokens st =? live_tokens) && (length (lt_call_ids st) =? length ids)%nat && forallb (id_list_contains (lt_call_ids st)) ids.

(** ** Ids *)

Lemma id_list_contains_iff ids id : id_list_contains ids id = true <-> id <> [] /\ id ∈ ids.
Proof.
  unfold id_list_contains. destruct id as [|c id]; [split; [done | by intros [? _]]|]. rewrite existsb_exists. split.
  - intros (v & Hv & ->%bytes_eqb_eq). split; [done|]. by apply list_elem_of_In.
  - intros [_ H]. exists (c :: id). split; [by apply list_elem_of_In | by apply bytes_eqb_eq].
Qed.

(** The ids of calls as they are kept: each once, none empty. *)
Definition ids_of (l : list bytes) : list bytes := fold_left id_list_push_unique l [].

Lemma push_unique_ok l : forall acc, NoDup acc -> [] ∉ acc -> let r := fold_left id_list_push_unique l acc in
  NoDup r /\ ([] ∉ r) /\ forall id, id ∈ r <-> id ∈ acc \/ id <> [] /\ id ∈ l.
Proof.
  induction l as [|x l IH]; intros acc Hn He r; [split_and!; try done; intros id; split; [by left | intros [H|[_ H%elem_of_nil]]; done]|].
  unfold r. cbn [fold_left]. unfold id_list_push_unique at 2 4 6. destruct ((length x =? 0)%nat || id_list_contains acc x) eqn:E.
  - destruct (IH acc Hn He) as (H1 & H2 & H3). split_and!; try done. intros id. rewrite H3, elem_of_cons. split; [tauto|].
    intros [H|[Hi [->|H]]]; [by left| |by right]. left. apply orb_prop in E as [E|E]; [|by apply id_list_contains_iff in E as [_ E]].
    apply Nat.eqb_eq in E. by destruct x.
  - apply orb_false_iff in E as [E1 E2]. apply Nat.eqb_neq in E1. assert (Hx : x <> []) by (by destruct x).
    assert (Hxa : x ∉ acc) by (intros H; assert (id_list_contains acc x = true) by (by apply id_list_contains_iff); congruence).
    destruct (IH (acc ++ [x])) as (H1 & H2 & H3).
    { apply NoDup_app. split_and!; [done | | apply NoDup_singleton]. intros y Hy ->%list_elem_of_singleton. done. }
    { rewrite elem_of_app, list_elem_of_singleton. intros [H|H]; [done | by subst x]. }
    split_and!; try done. intros id. rewrite H3, elem_of_app, list_elem_of_singleton, elem_of_cons. split.
    + intros [[H| ->]|H]; [by left | right; split; [done | by left] | right; tauto].
    + intros [H|[Hi [->|H]]]; [left; by left | left; by right | by right].
Qed.

Lemma ids_of_ok l : NoDup (ids_of l) /\ ([] ∉ ids_of l) /\ forall id, id ∈ ids_of l <-> id <> [] /\ id ∈ l.
Proof.
  destruct (push_unique_ok l [] (NoDup_nil_2) (not_elem_of_nil _)) as (H1 & H2 & H3). split_and!; try done. intros id. rewrite H3, elem_of_nil. tauto.
Qed.

Lemma live_match_iff st ids pos : NoDup (lt_call_ids st) -> NoDup ids -> [] ∉ ids -> live_matches_request st ids pos = true <->
  ids <> [] /\ lt_valid st = true /\ lt_live_tokens st = pos /\ Permutation ids (lt_call_ids st).
Proof.
  intros Hs Hi He. unfold live_matches_request. destruct (length ids =? 0)%nat eqn:E0.
  { apply Nat.eqb_eq in E0. destruct ids; [|done]. split; [done | by intros [? _]]. }
  apply Nat.eqb_neq in E0. rewrite !andb_true_iff, Z.eqb_eq, Nat.eqb_eq, forallb_forall. split.
  - intros [[[Hv Ht] Hl] Hf]. split; [by intros ->|]. split; [done|]. split; [done|]. apply submseteq_length_Permutation; [|lia].
    apply NoDup_submseteq; [done|]. intros id Hid. assert (H : In id ids) by (by apply list_elem_of_In). by apply Hf, id_list_contains_iff in H as [_ H].
  - intros (Hne & Hv & Ht & Hp). split_and!; [done | done | by rewrite Hp|]. intros id Hid%list_elem_of_In. apply id_list_contains_iff.
    split; [by intros ->|]. by rewrite <- Hp.
Qed.

(** ** Keys *)

Lemma strstr_bound p l i : strstr p l = Some i -> (i + length p <= length l)%nat.
Proof.
  revert i. induction l as [|c l IH]; intros i; cbn [strstr]; destruct (starts_with p _) eqn:E; try done.
  - intros [= <-]. by apply starts_with_length in E.
  - intros [= <-]. apply starts_with_length in E. cbn in *. lia.
  - destruct (strstr p l) as [k|]; [|done]. intros [= <-]. specialize (IH k eq_refl). cbn. lia.
Qed.

Lemma starts_with_app_l p a b : starts_with p a = true -> starts_with p (a ++ b) = true.
Proof. rewrite !starts_with_iff. intros [r ->]. exists (r ++ b). by rewrite app_assoc. Qed.

Lemma starts_with_short p a b : (length p <= length a)%nat -> starts_with p (a ++ b) = starts_with p a.
Proof.
  intros Hl. destruct (starts_with p (a ++ b)) eqn:E; symmetry.
  - apply starts_with_take in E. rewrite take_app_le in E by done. rewrite <- E at 1. apply starts_with_iff. exists (drop (length p) a). by rewrite take_drop.
  - destruct (starts_with p a) eqn:E2; [|done]. by rewrite (starts_with_app_l _ _ b E2) in E.
Qed.

Lemma strstr_app_l p a b i : strstr p a = Some i -> strstr p (a ++ b) = Some i.
Proof.
  revert i. induction a as [|c a IH]; intros i; cbn [strstr app].
  - destruct p as [|q p]; [|done]. cbn. intros [= <-]. by destruct b.
  - destruct (starts_with p (c :: a)) eqn:E.
    + intros [= <-]. change (c :: a ++ b) with ((c :: a) ++ b). rewrite (starts_with_app_l _ _ _ E). done.
    + destruct (strstr p a) as [k|] eqn:Ek; [|done]. intros [= <-]. rewrite (IH k eq_refl).
      destruct (starts_with p (c :: a ++ b)) eqn:E2; [|done]. exfalso. pose proof (strstr_bound _ _ _ Ek) as Hb.
      assert (Hl : (length p <= length (c :: a))%nat) by (cbn; lia).
      change (c :: a ++ b) with ((c :: a) ++ b) in E2. rewrite starts_with_short in E2 by done. congruence.
Qed.

Lemma splice_app_l {A} off (src a b : list A) : (off + length src <= length a)%nat -> splice off src (a ++ b) = splice off src a ++ b.
Proof. intros H. unfold splice. rewrite take_app_le, drop_app_le by lia. by rewrite <- !app_assoc. Qed.

(** The markers of a text are found in the same places when it goes on. *)
Lemma marker_loop_app ms suffix : forall text key cursor images key' images', (cursor <= length text)%nat -> length key = length text ->
  marker_loop ms text key cursor images = Some (key', images') ->
  marker_loop ms (text ++ suffix) (key ++ suffix) cursor images = Some (key' ++ suffix, images') /\ length key' = length text.
Proof.
  induction ms as [|m ms IH]; intros text key cursor images key' images' Hc Hk; cbn [marker_loop]; [by intros [= <- <-]|].
  destruct (strstr m (drop cursor text)) as [k|] eqn:E; [|done]. rewrite drop_app_le, (strstr_app_l _ _ _ _ E) by done.
  destruct (length m =? 0)%nat; [done|]. apply strstr_bound in E. rewrite length_drop in E.
  rewrite splice_app_l by (rewrite repeat_length; lia). intros H. apply IH; [lia | | done].
  rewrite splice_length by (rewrite repeat_length; lia). done.
Qed.

Lemma visible_key_app r r2 text suffix key images : rq_image_markers r2 = rq_image_markers r -> rq_image_count r2 = rq_image_count r ->
  visible_prompt_key r text = Some (key, images) -> visible_prompt_key r2 (text ++ suffix) = Some (key ++ suffix, images) /\ length key = length text.
Proof.
  unfold visible_prompt_key. intros -> ->. destruct (16 <? _)%nat; [done|]. destruct (rq_image_markers r) as [markers|].
  - apply marker_loop_app; [lia | done].
  - destruct (_ =? 0)%nat; [|done]. by intros [= <- <-].
Qed.

Lemma image_prefix_refl images boundary : visible_image_prefix_matches images images boundary = true.
Proof.
  unfold visible_image_prefix_matches. rewrite Nat.ltb_irrefl, Nat.eqb_refl. replace (forallb _ _) with true; [done|]. symmetry.
  induction images as [|i images IH]; [done|]. cbn. by rewrite Nat.eqb_refl, IH.
Qed.

Lemma image_prefix_inv incoming old boundary : visible_image_prefix_matches incoming old boundary = true ->
  take (length old) incoming = old /\ forall next, incoming !! length old = Some next -> (boundary <= next)%nat.
Proof.
  unfold visible_image_prefix_matches. destruct (length incoming <? length old)%nat eqn:E; [done|]. apply Nat.ltb_ge in E.
  destruct (forallb _ _) eqn:Ef; [|done]. cbn [negb]. intros H. split.
  - clear H. revert incoming E Ef. induction old as [|o old IH]; intros [|i incoming] E Ef; cbn in *; try (done || lia).
    rewrite andb_true_iff, Nat.eqb_eq in Ef. destruct Ef as [-> Ef]. by rewrite IH by (done || lia).
  - intros next Hn. apply orb_prop in H as [H|H].
    + apply Nat.eqb_eq in H. apply lookup_lt_Some in Hn. lia.
    + apply Nat.leb_le in H. by rewrite (nth_lookup_Some _ _ _ _ Hn) in H.
Qed.

Lemma match_prefix valid tokens v images pos key key_images : visible_match valid tokens (Some v) images pos key key_images = true <->
  valid = true /\ tokens = pos /\ (exists suffix, suffix <> [] /\ key = v ++ suffix) /\ visible_image_prefix_matches key_images images (length v) = true.
Proof.
  unfold visible_match. unfold byte_prefix_match. rewrite !andb_true_iff, Z.eqb_eq, Nat.ltb_lt, starts_with_iff. split.
  - intros [[[[-> ->] Hl] Hi] [suffix ->]]. split_and!; try done. exists suffix. split; [|done]. intros ->. rewrite app_nil_r in Hl. lia.
  - intros (-> & -> & (suffix & Hs & ->) & Hi). split_and!; try done; [|by exists suffix]. rewrite length_app. destruct suffix; [done|]. cbn. lia.
Qed.

Lemma anthropic_match_iff st pos pos' calls outputs : calls <> [] -> live_matches_request (anthropic_live_remember st pos calls) (ids_of outputs) pos' = true <->
  ids_of outputs <> [] /\ pos' = pos /\ Permutation (ids_of outputs) (ids_of calls).
Proof.
  intros Hc. destruct (ids_of_ok calls) as (C1 & _ & _). destruct (ids_of_ok outputs) as (O1 & O2 & _).
  unfold anthropic_live_remember. destruct calls as [|c calls]; [done|]. fold (ids_of (c :: calls)). rewrite live_match_iff by done. cbn [lt_valid lt_live_tokens lt_call_ids].
  rewrite Z.ltb_lt. split; [intros (H1 & _ & <- & H2); done|]. intros (H1 & -> & H2). split_and!; try done.
  unfold zlen. rewrite <- (Permutation_length H2). destruct (ids_of outputs); [done|]. cbn. lia.
Qed.

(** Tool outputs continue a live turn exactly when they name its calls: the
    same ids, each once and in any order, at the position where the turn ended. *)
Theorem live_ids_match_exact st pos pos' calls outputs visible r : calls <> [] -> visible <> [] ->
  (live_matches_request (anthropic_live_remember st pos calls) (ids_of outputs) pos' = true <->
     ids_of outputs <> [] /\ pos' = pos /\ Permutation (ids_of outputs) (ids_of calls)) /\
  (live_matches_request (responses_live_remember st pos visible calls r) (ids_of outputs) pos' = true <->
     ids_of outputs <> [] /\ pos' = pos /\ Permutation (ids_of outputs) (ids_of calls) /\ is_Some (visible_prompt_key r visible)).
Proof.
  intros Hc Hv. destruct (ids_of_ok calls) as (C1 & _ & _). destruct (ids_of_ok outputs) as (O1 & O2 & _). split; [by apply anthropic_match_iff|].
  unfold responses_live_remember. destruct visible as [|v visible]; [done|]. fold (ids_of calls).
  destruct (visible_prompt_key r (v :: visible)) as [[key images]|]; rewrite live_match_iff by done; cbn [lt_valid lt_live_tokens lt_call_ids].
  - split; [intros (H1 & _ & <- & H2); by split_and! | by intros (H1 & -> & H2 & _)].
  - split; [by intros (_ & H & _) | by intros (_ & _ & _ & [x Hx])].
Qed.

Lemma live_ids_match_exact_witness :
  live_matches_request (anthropic_live_remember live_tool_state_clear 7 [bs "a"; bs "b"; bs "a"]) (ids_of [bs "b"; bs "a"]) 7 = true.
Proof.
  refine (proj2 (proj1 (live_ids_match_exact live_tool_state_clear 7 7 [bs "a"; bs "b"; bs "a"] [bs "b"; bs "a"] (bs "x")
    (Request true API_ANTHROPIC None [] [] None false [] None false [] None) _ _)) _); [discriminate | discriminate|].
  split; [discriminate|]. split; [reflexivity|]. vm_compute. apply Permutation.perm_swap.
Defined.
