(* ===== verification/Scheduler.v ===== *)
(** * Jobs and resident slots (ds4_server.c)

    Client threads enqueue jobs; in batched mode a dispatcher binds them to
    resident slots and one worker thread per slot runs them; otherwise a single
    worker pops the queue.  Cancellation and shutdown may happen at any moment.
    The system is a transition function whose labels are the atomic sections of
    the threads (everything done under [server.mu]); what a running job does to
    its slot's session and live state is an arbitrary update. *)

From S2P Require Import Prelude KvStore LiveState.
#[local] Open Scope Z_scope.

(** ** Scores *)

Definition INT_MIN : Z := -2147483648.
Definition INT_MAX : Z := INT32_MAX.

(** ** Slots *)

(** What the scheduler asks a session: the token position, whether the images
    of its prefix are those of the request, and the common token prefix. *)
Class SessionOps (Ses : Type) := {
  session_pos : Ses -> Z;
  session_vision_prefix_matches : Ses -> request -> bool;
  session_common_prefix : Ses -> request -> Z;
  session_pos_nonneg s : 0 <= session_pos s;
  session_common_nonneg s r : 0 <= session_common_prefix s r
}.

Section Scheduler.
Context {Ses : Type} {ops : SessionOps Ses}.

Record slot := Slot {
  sl_session : Ses;
  sl_responses_live : live_tool_state;
  sl_anthropic_live : live_tool_state;
  sl_thinking_live : visible_live_state;
  sl_assigned : option nat;
  sl_busy : bool }.

(** A slot's worker thread: waiting, running a job, past [job_complete], gone. *)
Inductive worker := WIdle | WRun (j : nat) | WDone | WExit.

(** Jobs are named by numbers. [sv_done] lists the completed ones, oldest first. *)
Record server := Server {
  sv_batched_mode : bool;
  sv_slots : list slot;
  sv_workers : list worker;
  sv_queue : list nat;  (* head to tail *)
  sv_stopping : bool;
  sv_cancelled : list nat;
  sv_done : list nat }.

Context (req : nat -> request).

(** -1 is [None]. *)
Fixpoint required_loop (slots : list slot) (r : request) (i : nat) : option nat :=
  match slots with
  | [] => None
  | s :: slots' =>
      if rq_responses_requires r && live_state_contains_all (sl_responses_live s) (rq_responses_ids r) then Some i
      else if rq_anthropic_requires r && live_state_contains_all (sl_anthropic_live s) (rq_anthropic_ids r) then Some i
      else required_loop slots' r (i + 1)
  end.

Definition job_required_slot_locked (slots : list slot) (j : nat) : option nat :=
  required_loop slots (req j) 0.

Definition job_slot_score (i : nat) (s : slot) (j : nat) (required_slot : option nat) : Z :=
  let r := req j in
  if sl_busy s || match sl_assigned s with Some _ => true | None => false end then INT_MIN
  else if match required_slot with Some k => negb (i =? k)%nat | None => false end then INT_MIN
  else if match required_slot with Some k => (k =? i)%nat | None => false end then INT_MAX
  else
    let live_pos := session_pos (sl_session s) in
    let matched :=
      match match rq_prompt_text r with Some t => visible_prompt_key r t | None => None end with
      | None => false
      | Some (key, images) =>
          match rq_api r with
          | API_RESPONSES =>
              let st := sl_responses_live s in
              visible_match (lt_valid st) (lt_live_tokens st) (lt_visible_text st) (lt_images st) live_pos key images
          | _ =>
              if rq_chat r then
                let st := sl_thinking_live s in
                visible_match (vl_valid st) (vl_live_tokens st) (vl_visible_text st) (vl_images st) live_pos key images
              else false
          end
      end in
    if matched then live_pos
    else if (0 <? live_pos) && negb (session_vision_prefix_matches (sl_session s) r) then -1
    else session_common_prefix (sl_session s) r.

(** The first slot with the greatest score above [INT_MIN]. *)
Fixpoint best_slot_loop (slots : list slot) (j : nat) (required : option nat) (i : nat)
    (best_score : Z) (best : option nat) : option nat :=
  match slots with
  | [] => best
  | s :: slots' =>
      let score := job_slot_score i s j required in
      if best_score <? score then best_slot_loop slots' j required (i + 1) score (Some i)
      else best_slot_loop slots' j required (i + 1) best_score best
  end.

Definition best_slot (slots : list slot) (j : nat) : option nat :=
  best_slot_loop slots j (job_required_slot_locked slots j) 0 INT_MIN None.

(** FIFO among the jobs that can run now: the job's place in the queue, the job
    and its slot. *)
Fixpoint choose_job (slots : list slot) (queue : list nat) (n : nat) : option (nat * nat * nat) :=
  match queue with
  | [] => None
  | j :: queue' =>
      match best_slot slots j with
      | Some b => Some (n, j, b)
      | None => choose_job slots queue' (n + 1)
      end
  end.

Definition assign_slot (s : slot) (j : nat) : slot :=
  Slot (sl_session s) (sl_responses_live s) (sl_anthropic_live s) (sl_thinking_live s) (Some j) true.

(** Every round takes a job out of the queue. *)
Fixpoint dispatch_loop (fuel : nat) (slots : list slot) (queue : list nat) : list slot * list nat :=
  match fuel with
  | O => (slots, queue)
  | S fuel' =>
      match choose_job slots queue 0 with
      | None => (slots, queue)
      | Some (n, j, b) => dispatch_loop fuel' (alter (fun s => assign_slot s j) b slots) (delete n queue)
      end
  end.

Definition set_slots_queue (sv : server) (sq : list slot * list nat) : server :=
  Server (sv_batched_mode sv) (fst sq) (sv_workers sv) (snd sq) (sv_stopping sv) (sv_cancelled sv) (sv_done sv).

Definition dispatch_jobs_locked (sv : server) : server :=
  if negb (sv_batched_mode sv) then sv
  else set_slots_queue sv (dispatch_loop (length (sv_queue sv)) (sv_slots sv) (sv_queue sv)).

(** ** The atomic sections of the threads *)

Inductive label :=
| Enqueue (j : nat)
| Take (i : nat)  (* the worker picks up its job *)
| Progress (i : nat) (session : Ses) (responses anthropic : live_tool_state) (thinking : visible_live_state)
| Complete (i : nat)  (* generate_job has returned; job_complete *)
| Release (i : nat)  (* busy = false and dispatch *)
| Cancel (j : nat)
| Stop
| Exit (i : nat).

(** [None]: the server is stopping and refuses the job. *)
Definition enqueue (sv : server) (j : nat) : option server :=
  if sv_stopping sv then None
  else Some (dispatch_jobs_locked
    (Server (sv_batched_mode sv) (sv_slots sv) (sv_workers sv) (sv_queue sv ++ [j]) (sv_stopping sv)
       (sv_cancelled sv) (sv_done sv))).

Definition set_worker (sv : server) (i : nat) (w : worker) : server :=
  Server (sv_batched_mode sv) (sv_slots sv) (<[i := w]> (sv_workers sv)) (sv_queue sv) (sv_stopping sv)
    (sv_cancelled sv) (sv_done sv).

Definition set_slot (sv : server) (i : nat) (s : slot) : server :=
  Server (sv_batched_mode sv) (<[i := s]> (sv_slots sv)) (sv_workers sv) (sv_queue sv) (sv_stopping sv)
    (sv_cancelled sv) (sv_done sv).

Definition clear_assigned (s : slot) (busy : bool) : slot :=
  Slot (sl_session s) (sl_responses_live s) (sl_anthropic_live s) (sl_thinking_live s) None busy.

(** [job_complete]. *)
Definition complete (sv : server) (j : nat) : server :=
  Server (sv_batched_mode sv) (sv_slots sv) (sv_workers sv) (sv_queue sv) (sv_stopping sv)
    (sv_cancelled sv) (sv_done sv ++ [j]).

(** The worker of slot [i] leaves its wait with a job. *)
Definition take_job (sv : server) (i : nat) : option server :=
  match sv_workers sv !! i with
  | Some WIdle =>
      if sv_batched_mode sv then
        match sv_slots sv !! i with
        | Some s =>
            match sl_assigned s with
            | Some j => Some (set_worker (set_slot sv i (clear_assigned s (sl_busy s))) i (WRun j))
            | None => None
            end
        | None => None
        end
      else
        match i, sv_queue sv with
        | O, j :: q =>
            Some (set_worker (set_slots_queue sv (sv_slots sv, q)) 0 (WRun j))
        | _, _ => None
        end
  | _ => None
  end.

(** The worker ends: nothing is assigned or queued and the server is stopping. *)
Definition exit_worker (sv : server) (i : nat) : option server :=
  match sv_workers sv !! i with
  | Some WIdle =>
      if sv_stopping sv && (length (sv_queue sv) =? 0)%nat &&
         match sv_slots sv !! i with
         | Some s => match sl_assigned s with None => true | Some _ => negb (sv_batched_mode sv) end
         | None => false
         end
      then Some (set_worker sv i WExit) else None
  | _ => None
  end.

(** The first slot to which [j] is assigned. *)
Fixpoint find_assigned (slots : list slot) (j i : nat) : option nat :=
  match slots with
  | [] => None
  | s :: slots' =>
      if match sl_assigned s with Some k => (k =? j)%nat | None => false end then Some i
      else find_assigned slots' j (i + 1)
  end.

(** Mark, then take back the job if no worker owns it yet: only then it is
    completed here. *)
Definition server_cancel_job (sv : server) (j : nat) : server :=
  let sv := Server (sv_batched_mode sv) (sv_slots sv) (sv_workers sv) (sv_queue sv) (sv_stopping sv)
              (sv_cancelled sv ++ [j]) (sv_done sv) in
  match list_find (fun k => k = j) (sv_queue sv) with
  | Some (n, _) => complete (set_slots_queue sv (sv_slots sv, delete n (sv_queue sv))) j
  | None =>
      if sv_batched_mode sv then
        match find_assigned (sv_slots sv) j 0 with
        | Some i =>
            match sv_slots sv !! i with
            | Some s => complete (dispatch_jobs_locked (set_slot sv i (clear_assigned s false))) j
            | None => sv
            end
        | None => sv
        end
      else sv
  end.

Definition step (l : label) (sv : server) : option server :=
  match l with
  | Enqueue j => enqueue sv j
  | Take i => take_job sv i
  | Progress i se re an th =>
      match sv_workers sv !! i, sv_slots sv !! i with
      | Some (WRun _), Some s => Some (set_slot sv i (Slot se re an th (sl_assigned s) (sl_busy s)))
      | _, _ => None
      end
  | Complete i =>
      match sv_workers sv !! i with
      | Some (WRun j) => Some (complete (set_worker sv i WDone) j)
      | _ => None
      end
  | Release i =>
      match sv_workers sv !! i, sv_slots sv !! i with
      | Some WDone, Some s =>
          let sv := set_worker sv i WIdle in
          Some (if sv_batched_mode sv then
                  dispatch_jobs_locked (set_slot sv i
                    (Slot (sl_session s) (sl_responses_live s) (sl_anthropic_live s) (sl_thinking_live s)
                       (sl_assigned s) false))
                else sv)
      | _, _ => None
      end
  | Cancel j => Some (server_cancel_job sv j)
  | Stop =>
      Some (dispatch_jobs_locked (Server (sv_batched_mode sv) (sv_slots sv) (sv_workers sv) (sv_queue sv) true
        (sv_cancelled sv) (sv_done sv)))
  | Exit i => exit_worker sv i
  end.

(** The server as [main] starts it: every slot idle, one worker per slot. *)
Definition server_init (batched : bool) (sessions : list Ses) : server :=
  let none := LiveTool false 0 None [] [] in
  Server batched (map (fun s => Slot s none none (VisibleLive false 0 None []) None false) sessions)
    (map (fun _ => WIdle) (if batched then sessions else take 1 sessions)) [] false [] [].

(** ** Choosing a slot *)

(** Slot [i] may take a job that requires [r]. *)
Definition free_for (i : nat) (s : slot) (r : option nat) : Prop :=
  sl_busy s = false /\ sl_assigned s = None /\ (forall k, r = Some k -> k = i).

Lemma score_free i s j r : free_for i s r -> INT_MIN < job_slot_score i s j r.
Proof.
  intros (Hb & Ha & Hr). unfold job_slot_score. rewrite Hb, Ha. cbn [orb].
  destruct r as [k|].
  - rewrite (Hr k eq_refl), Nat.eqb_refl. cbn [negb]. unfold INT_MIN, INT_MAX, INT32_MAX. lia.
  - pose proof (session_pos_nonneg (sl_session s)). pose proof (session_common_nonneg (sl_session s) (req j)).
    unfold INT_MIN. cbv zeta.
    match goal with |- _ < (if ?m then _ else _) => destruct m end; [lia|]. case_if; lia.
Qed.

Lemma score_not_free i s j r : INT_MIN < job_slot_score i s j r -> free_for i s r.
Proof.
  unfold job_slot_score, free_for. destruct (sl_busy s); cbn [orb]; [lia|].
  destruct (sl_assigned s); [lia|]. destruct r as [k|]; [|by intros _].
  destruct (Nat.eqb_spec i k) as [->|]; cbn [negb]; [|lia]. intros _. split_and!; [done..|]. intros; congruence.
Qed.

Lemma best_slot_loop_spec slots j r : forall i best_score best,
  INT_MIN <= best_score -> (best = None -> best_score = INT_MIN) ->
  match best_slot_loop slots j r i best_score best with
  | Some b => best = Some b \/ exists s, slots !! (b - i)%nat = Some s /\ (i <= b)%nat /\ free_for b s r
  | None => best = None /\ forall k s, slots !! k = Some s -> ~ free_for (i + k) s r
  end.
Proof.
  induction slots as [|s slots IH]; intros i best_score best Hb Hn; cbn [best_slot_loop].
  { destruct best; [by left | done]. }
  cbv zeta. destruct (Z.ltb_spec best_score (job_slot_score i s j r)) as [Hlt|Hge].
  - specialize (IH (i + 1)%nat (job_slot_score i s j r) (Some i) ltac:(lia) ltac:(done)).
    destruct (best_slot_loop _ _ _ _ _ _) as [b|]; [|by destruct IH]. right.
    destruct IH as [[= <-]|(s' & Hs & Hle & Hf)].
    + exists s. rewrite Nat.sub_diag. split_and!; [done | lia |]. apply (score_not_free _ _ j). lia.
    + exists s'. replace (b - i)%nat with (S (b - (i + 1))) by lia. split_and!; [done | lia | done].
  - specialize (IH (i + 1)%nat best_score best Hb Hn).
    destruct (best_slot_loop _ _ _ _ _ _) as [b|].
    + destruct IH as [->|(s' & Hs & Hle & Hf)]; [by left|]. right. exists s'.
      replace (b - i)%nat with (S (b - (i + 1))) by lia. split_and!; [done | lia | done].
    + destruct IH as [-> Hall]. split; [done|]. specialize (Hn eq_refl). intros [|k] s' Hs.
      * injection Hs as <-. rewrite Nat.add_0_r. intros Hf%(score_free _ _ j). lia.
      * replace (i + S k)%nat with (i + 1 + k)%nat by lia. by apply Hall.
Qed.

Lemma best_slot_Some slots j b : best_slot slots j = Some b ->
  exists s, slots !! b = Some s /\ free_for b s (job_required_slot_locked slots j).
Proof.
  unfold best_slot. intros H. pose proof (best_slot_loop_spec slots j (job_required_slot_locked slots j) 0 INT_MIN None
    ltac:(lia) ltac:(done)) as Hs. rewrite H in Hs. destruct Hs as [?|(s & Hs & _ & Hf)]; [done|].
  rewrite Nat.sub_0_r in Hs. by exists s.
Qed.

Lemma best_slot_None slots j : best_slot slots j = None <->
  forall i s, slots !! i = Some s -> ~ free_for i s (job_required_slot_locked slots j).
Proof.
  pose proof (best_slot_loop_spec slots j (job_required_slot_locked slots j) 0 INT_MIN None
    ltac:(lia) ltac:(done)) as Hs. unfold best_slot. split.
  - intros H. rewrite H in Hs. apply Hs.
  - intros Hall. destruct (best_slot_loop _ _ _ _ _ _) as [b|]; [|done].
    destruct Hs as [?|(s & Hs & _ & Hf)]; [done|]. rewrite Nat.sub_0_r in Hs. by apply Hall in Hf.
Qed.

Lemma choose_job_spec slots queue : forall n,
  match choose_job slots queue n with
  | Some (k, j, b) => (n <= k)%nat /\ queue !! (k - n)%nat = Some j /\ best_slot slots j = Some b /\
      forall k' j', (k' < k - n)%nat -> queue !! k' = Some j' -> best_slot slots j' = None
  | None => forall j, j ∈ queue -> best_slot slots j = None
  end.
Proof.
  induction queue as [|j queue IH]; intros n; cbn [choose_job]; [by intros j ?%elem_of_nil|].
  destruct (best_slot slots j) as [b|] eqn:E.
  - rewrite Nat.sub_diag. split_and!; [lia | done | done | lia].
  - specialize (IH (n + 1)%nat). destruct (choose_job _ _ _) as [[[k j'] b]|].
    + destruct IH as (Hle & Hq & Hb & Hbefore). replace (k - n)%nat with (S (k - (n + 1))) by lia.
      split_and!; [lia | done | done |]. intros [|k'] j'' Hlt Hj; cbn in Hj; [congruence|].
      apply (Hbefore k'); [lia | done].
    + intros j' [->|Hj]%elem_of_cons; [done | by apply IH].
Qed.

(** ** The dispatcher *)

(** Replacing an element replaces its contribution. *)
Lemma omap_insert_perm {A B} (f : A -> option B) l i x y : l !! i = Some y ->
  omap f (<[i := x]> l) ++ option_list (f y) ≡ₚ omap f l ++ option_list (f x).
Proof.
  intros Hi. rewrite <- (take_drop_middle l i y Hi) at 2.
  rewrite insert_take_drop by (by eapply lookup_lt_Some). rewrite !omap_app. cbn.
  destruct (f x), (f y); cbn; solve_Permutation.
Qed.

Definition assigned_jobs (slots : list slot) : list nat := omap sl_assigned slots.

(** Dispatching changes a slot only by assigning a job to it while it is free. *)
Definition slot_le (s s' : slot) : Prop :=
  s' = s \/ exists j, s' = assign_slot s j /\ sl_busy s = false /\ sl_assigned s = None.

Lemma required_live slots slots' j : length slots = length slots' ->
  (forall i s s', slots !! i = Some s -> slots' !! i = Some s' ->
    sl_responses_live s' = sl_responses_live s /\ sl_anthropic_live s' = sl_anthropic_live s) ->
  job_required_slot_locked slots' j = job_required_slot_locked slots j.
Proof.
  unfold job_required_slot_locked. generalize 0%nat. revert slots'.
  induction slots as [|s slots IH]; intros [|s' slots'] n Hl Hs; try done.
  destruct (Hs 0%nat s s' eq_refl eq_refl) as [H1 H2]. cbn [required_loop]. rewrite H1, H2.
  repeat case_if; try done. apply IH; [by injection Hl|]. intros i t t' Ht Ht'. by apply (Hs (S i)).
Qed.

Lemma required_assign slots b j k :
  job_required_slot_locked (alter (fun s => assign_slot s k) b slots) j = job_required_slot_locked slots j.
Proof.
  apply required_live; [by rewrite length_alter|]. intros i s s' Hs Hs'.
  destruct (decide (b = i)) as [->|].
  - rewrite list_lookup_alter_eq, Hs in Hs'. by injection Hs' as <-.
  - rewrite list_lookup_alter_ne, Hs in Hs' by done. by injection Hs' as <-.
Qed.

(** The invariant of one dispatch run. *)
Record dispatched (slots : list slot) (queue : list nat) (slots' : list slot) (queue' : list nat) : Prop := {
  di_length : length slots' = length slots;
  di_slots : forall i s s', slots !! i = Some s -> slots' !! i = Some s' -> slot_le s s';
  di_queue : queue' `sublist_of` queue;
  di_perm : queue' ++ assigned_jobs slots' ≡ₚ queue ++ assigned_jobs slots;
  di_required : forall j, job_required_slot_locked slots' j = job_required_slot_locked slots j
}.

Lemma dispatched_refl slots queue : dispatched slots queue slots queue.
Proof. split; try done. intros i s s' H1 H2. rewrite H1 in H2. left. congruence. Qed.

Lemma dispatch_round slots queue n j b : choose_job slots queue 0 = Some (n, j, b) ->
  dispatched slots queue (alter (fun s => assign_slot s j) b slots) (delete n queue).
Proof.
  intros H. pose proof (choose_job_spec slots queue 0) as Hs. rewrite H, Nat.sub_0_r in Hs.
  destruct Hs as (_ & Hq & Hb & _). apply best_slot_Some in Hb as (s & Hs & Hbusy & Has & _). split.
  - by rewrite length_alter.
  - intros i t t' Ht Ht'. destruct (decide (b = i)) as [->|].
    + rewrite list_lookup_alter_eq, Ht in Ht'. injection Ht' as <-. right. exists j.
      rewrite Hs in Ht. by injection Ht as <-.
    + rewrite list_lookup_alter_ne, Ht in Ht' by done. left. by injection Ht'.
  - apply sublist_delete.
  - unfold assigned_jobs.
    assert (alter (fun s => assign_slot s j) b slots = <[b := assign_slot s j]> slots) as ->
      by (rewrite list_insert_alter; apply list_alter_ext; [intros x Hx; congruence | done]).
    pose proof (omap_insert_perm sl_assigned slots b (assign_slot s j) s Hs) as Hp.
    rewrite Has in Hp. cbn in Hp. rewrite app_nil_r in Hp. rewrite Hp.
    rewrite (delete_Permutation queue n j Hq) at 2. solve_Permutation.
  - intros k. apply required_assign.
Qed.

Lemma dispatched_trans s1 q1 s2 q2 s3 q3 : dispatched s1 q1 s2 q2 -> dispatched s2 q2 s3 q3 -> dispatched s1 q1 s3 q3.
Proof.
  intros [L1 S1 Q1 P1 R1] [L2 S2 Q2 P2 R2]. split.
  - congruence.
  - intros i s s' Hs Hs'. destruct (lookup_lt_is_Some_2 s2 i) as [t Ht].
    { rewrite L1. by eapply lookup_lt_Some. }
    destruct (S1 i s t Hs Ht) as [->|(j & -> & Hb & Ha)]; [by apply (S2 i)|].
    destruct (S2 i _ s' Ht Hs') as [->|(j' & _ & Hb' & _)]; [right; by exists j | done].
  - by etrans.
  - by rewrite P2.
  - intros j. by rewrite R2.
Qed.

Lemma dispatch_loop_spec fuel : forall slots queue, (length queue <= fuel)%nat ->
  let '(slots', queue') := dispatch_loop fuel slots queue in
  dispatched slots queue slots' queue' /\ (forall j, j ∈ queue' -> best_slot slots' j = None).
Proof.
  induction fuel as [|fuel IH]; intros slots queue Hf; cbn [dispatch_loop].
  { destruct queue; [|cbn in Hf; lia]. split; [apply dispatched_refl | by intros j ?%elem_of_nil]. }
  pose proof (choose_job_spec slots queue 0) as Hs.
  destruct (choose_job slots queue 0) as [[[n j] b]|] eqn:E; [|split; [apply dispatched_refl | done]].
  pose proof (dispatch_round _ _ _ _ _ E) as Hr. destruct Hs as (_ & Hq & _). rewrite Nat.sub_0_r in Hq.
  assert (Hl : (length (delete n queue) <= fuel)%nat).
  { rewrite length_delete by (by eexists). apply lookup_lt_Some in Hq. lia. }
  specialize (IH (alter (fun s => assign_slot s j) b slots) (delete n queue) Hl).
  destruct (dispatch_loop _ _ _) as [slots' queue']. destruct IH as [Hd Hquiet].
  split; [by eapply dispatched_trans | done].
Qed.

(** ** Where a job is *)

Definition running_job (w : worker) : option nat := match w with WRun j => Some j | _ => None end.

(** Every accepted job, once for each place it is in. *)
Definition places (sv : server) : list nat :=
  sv_queue sv ++ assigned_jobs (sv_slots sv) ++ omap running_job (sv_workers sv) ++ sv_done sv.

(** What a worker's slot looks like. *)
Definition slot_ok (sv : server) (s : slot) (w : worker) : Prop :=
  if sv_batched_mode sv then
    match w with
    | WIdle => sl_busy s = true <-> sl_assigned s <> None
    | WRun _ | WDone => sl_busy s = true /\ sl_assigned s = None
    | WExit => sl_busy s = false /\ sl_assigned s = None /\ sv_stopping sv = true /\ sv_queue sv = []
    end
  else sl_busy s = false /\ sl_assigned s = None /\ (w = WExit -> sv_stopping sv = true /\ sv_queue sv = []).

Record inv (sv : server) : Prop := {
  inv_workers : length (sv_workers sv) =
    if sv_batched_mode sv then length (sv_slots sv) else (1 `min` length (sv_slots sv))%nat;
  inv_assigned : sv_batched_mode sv = false -> assigned_jobs (sv_slots sv) = [];
  inv_slots : forall i s w, sv_slots sv !! i = Some s -> sv_workers sv !! i = Some w -> slot_ok sv s w
}.

Lemma dispatch_fields sv : let sv' := dispatch_jobs_locked sv in
  sv_batched_mode sv' = sv_batched_mode sv /\ sv_workers sv' = sv_workers sv /\
  sv_stopping sv' = sv_stopping sv /\ sv_cancelled sv' = sv_cancelled sv /\ sv_done sv' = sv_done sv.
Proof. unfold dispatch_jobs_locked. by destruct (sv_batched_mode sv) eqn:E. Qed.

Lemma dispatch_spec sv : sv_batched_mode sv = true ->
  dispatched (sv_slots sv) (sv_queue sv) (sv_slots (dispatch_jobs_locked sv)) (sv_queue (dispatch_jobs_locked sv)) /\
  forall j, j ∈ sv_queue (dispatch_jobs_locked sv) -> best_slot (sv_slots (dispatch_jobs_locked sv)) j = None.
Proof.
  intros Hb. unfold dispatch_jobs_locked. rewrite Hb. cbn [negb].
  pose proof (dispatch_loop_spec (length (sv_queue sv)) (sv_slots sv) (sv_queue sv) ltac:(lia)) as Hs.
  by destruct (dispatch_loop _ _ _).
Qed.

Lemma dispatch_places sv : places (dispatch_jobs_locked sv) ≡ₚ places sv.
Proof.
  destruct (dispatch_fields sv) as (_ & Hw & _ & _ & Hd). unfold places. rewrite Hw, Hd.
  destruct (sv_batched_mode sv) eqn:Hb; [|unfold dispatch_jobs_locked; by rewrite Hb].
  destruct (dispatch_spec sv Hb) as [[_ _ _ Hp _] _]. rewrite !app_assoc. by rewrite Hp.
Qed.

Lemma dispatch_inv sv : inv sv -> inv (dispatch_jobs_locked sv).
Proof.
  intros Hi. destruct (sv_batched_mode sv) eqn:Hb; [|unfold dispatch_jobs_locked; by rewrite Hb].
  destruct Hi as [Hl _ Hs]. destruct (dispatch_fields sv) as (Hb' & Hw & Hst & _ & _).
  destruct (dispatch_spec sv Hb) as [[Hlen Hsl Hq _ _] _]. split.
  - rewrite Hb', Hw, Hlen. by rewrite Hb in *.
  - rewrite Hb', Hb. done.
  - intros i s' w Hs' Hw'. rewrite Hw in Hw'. unfold slot_ok. rewrite Hb', Hb, Hst.
    destruct (lookup_lt_is_Some_2 (sv_slots sv) i) as [s Hi]; [rewrite <- Hlen; by eapply lookup_lt_Some|].
    specialize (Hs i s w Hi Hw'). unfold slot_ok in Hs. rewrite Hb in Hs.
    destruct (Hsl i s s' Hi Hs') as [->|(k & -> & Hbusy & Ha)].
    + destruct w; try done. destruct Hs as (? & ? & ? & Hnil). split_and!; try done.
      rewrite Hnil in Hq. by apply sublist_nil_r in Hq.
    + destruct w as [|j| |]; [done|destruct Hs; congruence|destruct Hs; congruence|].
      destruct Hs as (_ & _ & _ & Hnil). unfold dispatch_jobs_locked in Hs'. rewrite Hb, Hnil in Hs'. cbn in Hs'.
      rewrite Hi in Hs'. injection Hs' as Hs'. apply (f_equal sl_busy) in Hs'. cbn in Hs'. congruence.
Qed.

(** ** Reachable states *)

Inductive reachable (batched : bool) (sessions : list Ses) : server -> Prop :=
| R_init : reachable batched sessions (server_init batched sessions)
| R_step l sv sv' : reachable batched sessions sv ->
    (forall j, l = Enqueue j -> j ∉ places sv) ->  (* a job object is enqueued once *)
    step l sv = Some sv' -> reachable batched sessions sv'.

Lemma omap_same {A B} (f : A -> option B) l i x y : l !! i = Some y -> f x = f y ->
  omap f (<[i := x]> l) ≡ₚ omap f l.
Proof.
  intros Hi Hf. pose proof (omap_insert_perm f l i x y Hi) as Hp. rewrite Hf in Hp. by apply Permutation_app_inv_r in Hp.
Qed.

Lemma find_assigned_spec slots j : forall n i s, find_assigned slots j n = Some (n + i)%nat -> slots !! i = Some s ->
  sl_assigned s = Some j.
Proof.
  assert (Hlow : forall ts n m, find_assigned ts j n = Some m -> (n <= m)%nat).
  { induction ts as [|t ts IH]; intros n m; cbn; [done|]. case_if; [intros [= ->]; lia|].
    intros H%IH. lia. }
  induction slots as [|t ts IH]; intros n i s; cbn; [done|]. case_if.
  - intros Hi Hs. assert (i = 0)%nat as -> by (injection Hi; lia). injection Hs as <-.
    destruct (sl_assigned t) as [k|]; [|done]. bool_prop. by subst.
  - intros Hf Hs. destruct i as [|i]; [apply Hlow in Hf; lia|].
    apply (IH (n + 1)%nat i); [|done]. rewrite Hf. f_equal. lia.
Qed.

(** A step moves jobs between places, and only [Enqueue] adds one. *)
Lemma step_places l sv sv' : step l sv = Some sv' ->
  places sv' ≡ₚ places sv ++ match l with Enqueue j => [j] | _ => [] end.
Proof.
  destruct l as [j|i|i se re an th|i|i|j| |i]; cbn [step].
  - unfold enqueue. destruct (sv_stopping sv); [done|]. intros [= <-]. rewrite dispatch_places.
    unfold places. cbn. solve_Permutation.
  - unfold take_job. destruct (sv_workers sv !! i) as [[|j| |]|] eqn:Ew; try done.
    destruct (sv_batched_mode sv) eqn:Eb.
    + destruct (sv_slots sv !! i) as [s|] eqn:Es; [|done]. destruct (sl_assigned s) as [j|] eqn:Ea; [|done].
      intros [= <-]. unfold places, assigned_jobs. cbn. rewrite app_nil_r.
      pose proof (omap_insert_perm sl_assigned (sv_slots sv) i (clear_assigned s (sl_busy s)) s Es) as H1.
      pose proof (omap_insert_perm running_job (sv_workers sv) i (WRun j) WIdle Ew) as H2.
      rewrite Ea in H1. cbn in H1, H2. rewrite app_nil_r in H1, H2. rewrite H2, <- H1. solve_Permutation.
    + destruct i as [|i]; [|done]. destruct (sv_queue sv) as [|j q] eqn:Eq; [done|]. intros [= <-].
      unfold places, assigned_jobs. cbn. rewrite app_nil_r, Eq.
      pose proof (omap_insert_perm running_job (sv_workers sv) 0 (WRun j) WIdle Ew) as H2.
      cbn in H2. rewrite app_nil_r in H2. rewrite H2. solve_Permutation.
  - destruct (sv_workers sv !! i) as [[|j| |]|]; try done. destruct (sv_slots sv !! i) as [s|] eqn:Es; [|done].
    intros [= <-]. unfold places, assigned_jobs. cbn. rewrite app_nil_r.
    by rewrite (omap_same sl_assigned (sv_slots sv) i _ s Es).
  - destruct (sv_workers sv !! i) as [[|j| |]|] eqn:Ew; try done. intros [= <-].
    unfold places. cbn. rewrite app_nil_r.
    pose proof (omap_insert_perm running_job (sv_workers sv) i WDone (WRun j) Ew) as H2. cbn in H2.
    rewrite app_nil_r in H2. rewrite <- H2. solve_Permutation.
  - destruct (sv_workers sv !! i) as [[|j| |]|] eqn:Ew; try done. destruct (sv_slots sv !! i) as [s|] eqn:Es; [|done].
    intros [= <-]. rewrite app_nil_r.
    assert (H : omap running_job (<[i := WIdle]> (sv_workers sv)) ≡ₚ omap running_job (sv_workers sv)) by (by apply (omap_same _ _ _ _ WDone)).
    destruct (sv_batched_mode sv); [rewrite dispatch_places|]; unfold places, assigned_jobs; cbn; rewrite H; [|done].
    by rewrite (omap_same sl_assigned (sv_slots sv) i _ s Es).
  - intros [= <-]. rewrite app_nil_r. unfold server_cancel_job. cbn.
    destruct (list_find (fun k => k = j) (sv_queue sv)) as [[n k]|] eqn:Ef.
    + apply list_find_Some in Ef as (Hn & -> & _). unfold places. cbn.
      rewrite (delete_Permutation (sv_queue sv) n j Hn) at 2. solve_Permutation.
    + destruct (sv_batched_mode sv); [|done]. destruct (find_assigned (sv_slots sv) j 0) as [i|] eqn:Ei; [|done].
      destruct (sv_slots sv !! i) as [s|] eqn:Es; [|done].
      assert (Ha : sl_assigned s = Some j).
      { by apply (find_assigned_spec (sv_slots sv) j 0 i). }
      match goal with |- places (complete (dispatch_jobs_locked ?x) j) ≡ₚ _ =>
        pose proof (dispatch_places x) as Hp; set (sv1 := dispatch_jobs_locked x) in * end. clearbody sv1.
      assert (Hc : places (complete sv1 j) ≡ₚ j :: places sv1) by (unfold places; cbn; solve_Permutation).
      rewrite Hc, Hp. unfold places, assigned_jobs. cbn.
      pose proof (omap_insert_perm sl_assigned (sv_slots sv) i (clear_assigned s false) s Es) as H1.
      rewrite Ha in H1. cbn in H1. rewrite app_nil_r in H1. rewrite <- H1. solve_Permutation.
  - intros [= <-]. by rewrite dispatch_places, app_nil_r.
  - unfold exit_worker. destruct (sv_workers sv !! i) as [[|j| |]|] eqn:Ew; try done. match goal with |- (if ?b then _ else _) = _ -> _ => destruct b; [|done] end. intros [= <-].
    unfold places. cbn. rewrite app_nil_r. by rewrite (omap_same running_job (sv_workers sv) i _ WIdle Ew).
Qed.

Lemma slot_ok_mono sv sv' s w : sv_batched_mode sv' = sv_batched_mode sv ->
  (sv_stopping sv = true -> sv_stopping sv' = true) -> (sv_queue sv = [] -> sv_queue sv' = []) ->
  slot_ok sv s w -> slot_ok sv' s w.
Proof.
  unfold slot_ok. intros -> Hs Hq. destruct (sv_batched_mode sv); [|naive_solver].
  destruct w; naive_solver.
Qed.

(** Changing one slot and one worker. *)
Lemma inv_change sv sv' i : inv sv -> sv_batched_mode sv' = sv_batched_mode sv ->
  (sv_stopping sv = true -> sv_stopping sv' = true) -> (sv_queue sv = [] -> sv_queue sv' = []) ->
  length (sv_workers sv') = length (sv_workers sv) -> length (sv_slots sv') = length (sv_slots sv) ->
  (sv_batched_mode sv = false -> assigned_jobs (sv_slots sv') = []) ->
  (forall k, k <> i -> sv_slots sv' !! k = sv_slots sv !! k /\ sv_workers sv' !! k = sv_workers sv !! k) ->
  (forall s w, sv_slots sv' !! i = Some s -> sv_workers sv' !! i = Some w -> slot_ok sv' s w) ->
  inv sv'.
Proof.
  intros [Hl Ha Hs] Hb Hst Hq Hlw Hls Has Hk Hi. split.
  - by rewrite Hb, Hlw, Hls.
  - by rewrite Hb.
  - intros k s w Hsk Hwk. destruct (decide (k = i)) as [->|Hne]; [by apply Hi|].
    destruct (Hk k Hne) as [Es Ew]. rewrite Es in Hsk. rewrite Ew in Hwk.
    eapply slot_ok_mono; [done..|]. by eapply Hs.
Qed.

(** An index where nothing changes. *)
Lemma inv_same sv sv' : inv sv -> sv_batched_mode sv' = sv_batched_mode sv ->
  (sv_stopping sv = true -> sv_stopping sv' = true) -> (sv_queue sv = [] -> sv_queue sv' = []) ->
  sv_workers sv' = sv_workers sv -> sv_slots sv' = sv_slots sv -> inv sv'.
Proof.
  intros Hi Hb Hst Hq Hw Hs. apply (inv_change sv sv' 0); rewrite ?Hw, ?Hs; try done.
  - apply Hi.
  - intros s w Hs0 Hw0. eapply slot_ok_mono; [done..|]. by eapply (inv_slots sv Hi).
Qed.

Lemma assigned_insert_none slots i s : assigned_jobs slots = [] -> sl_assigned s = None ->
  assigned_jobs (<[i := s]> slots) = [].
Proof.
  intros H Hs. destruct (slots !! i) as [t|] eqn:Et; [|rewrite list_insert_ge; [done | by apply lookup_ge_None]].
  pose proof (omap_insert_perm sl_assigned slots i s t Et) as Hp. rewrite Hs in Hp. cbn in Hp. unfold assigned_jobs in *.
  rewrite H in Hp. apply Permutation_length in Hp. rewrite length_app in Hp. apply nil_length_inv. cbn in Hp. lia.
Qed.

Lemma unbatched_assigned sv i s : inv sv -> sv_batched_mode sv = false -> sv_slots sv !! i = Some s -> sl_assigned s = None.
Proof.
  intros Hi Hb Hs. pose proof (inv_assigned sv Hi Hb) as Ha. destruct (sl_assigned s) as [j|] eqn:E; [|done].
  assert (j ∈ assigned_jobs (sv_slots sv)) as Hin.
  { apply list_elem_of_omap. exists s. split; [by eapply list_elem_of_lookup_2 | done]. }
  rewrite Ha in Hin. by apply elem_of_nil in Hin.
Qed.

Lemma step_inv l sv sv' : inv sv -> step l sv = Some sv' -> inv sv'.
Proof.
  intros Hi. pose proof (inv_slots sv Hi) as Hs. destruct l as [j|i|i se re an th|i|i|j| |i]; cbn [step].
  - unfold enqueue. destruct (sv_stopping sv) eqn:Est; [done|]. intros [= <-]. apply dispatch_inv.
    destruct Hi as [Hl Ha _]. split; [done..|]. cbn. intros i s w Hsi Hwi. specialize (Hs i s w Hsi Hwi).
    unfold slot_ok in *. cbn. destruct (sv_batched_mode sv).
    + destruct w; try done. destruct Hs as (_ & _ & ? & _). congruence.
    + destruct Hs as (? & ? & Hx). split_and!; try done. intros Hw. destruct (Hx Hw). congruence.
  - unfold take_job. destruct (sv_workers sv !! i) as [[|j| |]|] eqn:Ew; try done.
    destruct (sv_batched_mode sv) eqn:Eb.
    + destruct (sv_slots sv !! i) as [s|] eqn:Es; [|done]. destruct (sl_assigned s) as [j|] eqn:Ea; [|done].
      intros [= <-]. apply (inv_change sv _ i); cbn; rewrite ?length_insert; try done; [congruence| |].
      * intros k Hk. by rewrite !list_lookup_insert_ne.
      * intros t w Ht Hw. rewrite list_lookup_insert_eq in Ht by (by eapply lookup_lt_Some).
        rewrite list_lookup_insert_eq in Hw by (by eapply lookup_lt_Some).
        injection Ht as <-. injection Hw as <-. specialize (Hs i s _ Es Ew). unfold slot_ok in *. cbn. rewrite Eb in *.
        split; [|done]. apply Hs. by rewrite Ea.
    + destruct i as [|i]; [|done]. destruct (sv_queue sv) as [|j q] eqn:Eq; [done|]. intros [= <-].
      apply (inv_change sv _ 0); cbn; rewrite ?length_insert; try done; [congruence|apply Hi| |].
      * intros k Hk. by rewrite list_lookup_insert_ne.
      * intros t w Ht Hw. destruct (sv_workers sv) as [|w0 ws]; [done|]. cbn in Hw, Ew.
        injection Hw as <-. injection Ew as ->. specialize (Hs 0%nat t _ Ht eq_refl). unfold slot_ok in *. cbn. rewrite Eb in *. naive_solver.
  - destruct (sv_workers sv !! i) as [[|j| |]|] eqn:Ew; try done. destruct (sv_slots sv !! i) as [s|] eqn:Es; [|done].
    intros [= <-]. apply (inv_change sv _ i); cbn; rewrite ?length_insert; try done.
    + intros Hb. apply assigned_insert_none; [by apply Hi | exact (unbatched_assigned sv i s Hi Hb Es)].
    + intros k Hk. by rewrite list_lookup_insert_ne.
    + intros t w Ht Hw. rewrite list_lookup_insert_eq in Ht by (by eapply lookup_lt_Some). injection Ht as <-.
      exact (Hs i s w Es Hw).
  - destruct (sv_workers sv !! i) as [[|j| |]|] eqn:Ew; try done. intros [= <-].
    apply (inv_change sv _ i); cbn; rewrite ?length_insert; try done; [apply Hi| |].
    + intros k Hk. by rewrite list_lookup_insert_ne.
    + intros t w Ht Hw. rewrite list_lookup_insert_eq in Hw by (by eapply lookup_lt_Some). injection Hw as <-.
      specialize (Hs i t _ Ht Ew). unfold slot_ok in *. cbn. destruct (sv_batched_mode sv); naive_solver.
  - destruct (sv_workers sv !! i) as [[|j| |]|] eqn:Ew; try done. destruct (sv_slots sv !! i) as [s|] eqn:Es; [|done].
    intros [= <-]. specialize (Hs i s _ Es Ew) as Hsi. unfold slot_ok in Hsi.
    destruct (sv_batched_mode sv) eqn:Eb; [apply dispatch_inv|]; apply (inv_change sv _ i); cbn; rewrite ?length_insert; try done.
    + congruence.
    + intros k Hk. by rewrite !list_lookup_insert_ne.
    + intros t w Ht Hw. rewrite list_lookup_insert_eq in Ht by (by eapply lookup_lt_Some).
        rewrite list_lookup_insert_eq in Hw by (by eapply lookup_lt_Some). injection Ht as <-.
      injection Hw as <-. unfold slot_ok. cbn. rewrite Eb. destruct Hsi as [_ Hsi]. rewrite Hsi. done.
    + intros _. by apply Hi.
    + intros k Hk. by rewrite list_lookup_insert_ne.
    + intros t w Ht Hw. rewrite list_lookup_insert_eq in Hw by (by eapply lookup_lt_Some). rewrite Es in Ht. injection Ht as <-.
      injection Hw as <-. unfold slot_ok. cbn. rewrite Eb. naive_solver.
  - intros [= <-]. unfold server_cancel_job. cbn.
    destruct (list_find (fun k => k = j) (sv_queue sv)) as [[n k]|] eqn:Ef.
    + apply (inv_same sv); cbn; try done. by intros ->.
    + destruct (sv_batched_mode sv) eqn:Eb; [|by apply (inv_same sv); cbn; rewrite ?Eb].
      destruct (find_assigned (sv_slots sv) j 0) as [i|] eqn:Ei; [|by apply (inv_same sv); cbn; rewrite ?Eb].
      destruct (sv_slots sv !! i) as [s|] eqn:Es; [|by apply (inv_same sv); cbn; rewrite ?Eb].
      assert (Ha : sl_assigned s = Some j) by (by apply (find_assigned_spec (sv_slots sv) j 0 i)).
      match goal with |- inv (complete ?x _) => assert (inv x) as Hx; [apply dispatch_inv|by apply (inv_same x)] end.
      apply (inv_change sv _ i); cbn; rewrite ?length_insert; try done; [congruence| |].
      * intros k Hk. by rewrite list_lookup_insert_ne.
      * intros t w Ht Hw. rewrite list_lookup_insert_eq in Ht by (by eapply lookup_lt_Some). injection Ht as <-.
        specialize (Hs i s w Es Hw). unfold slot_ok in *. cbn. rewrite Eb in *. rewrite Ha in Hs.
        destruct w; try done; destruct Hs as (_ & Hx); [done..|by destruct Hx].
  - intros [= <-]. apply dispatch_inv. by apply (inv_same sv).
  - unfold exit_worker. destruct (sv_workers sv !! i) as [[|j| |]|] eqn:Ew; try done.
    match goal with |- (if ?b then _ else _) = _ -> _ => destruct b eqn:E; [|done] end. intros [= <-].
    apply andb_true_iff in E as [[E1 E2]%andb_true_iff E3]. apply Nat.eqb_eq, nil_length_inv in E2.
    apply (inv_change sv _ i); cbn; rewrite ?length_insert; try done; [apply Hi| |].
    + intros k Hk. by rewrite list_lookup_insert_ne.
    + intros t w Ht Hw. rewrite list_lookup_insert_eq in Hw by (by eapply lookup_lt_Some). injection Hw as <-.
      rewrite Ht in E3. specialize (Hs i t _ Ht Ew). unfold slot_ok in *. cbn. destruct (sv_batched_mode sv); [|naive_solver].
      destruct (sl_assigned t) eqn:Ea; [done|]. destruct (sl_busy t); [|done]. destruct Hs as [Hs _]. by destruct Hs.
Qed.

Lemma dispatch_length sv : length (sv_slots (dispatch_jobs_locked sv)) = length (sv_slots sv).
Proof.
  destruct (sv_batched_mode sv) eqn:E; [|unfold dispatch_jobs_locked; by rewrite E].
  by destruct (dispatch_spec sv E) as [[? _ _ _ _] _].
Qed.

Lemma step_mode l sv sv' : step l sv = Some sv' ->
  sv_batched_mode sv' = sv_batched_mode sv /\ length (sv_slots sv') = length (sv_slots sv).
Proof.
  destruct l as [j|i|i se re an th|i|i|j| |i]; cbn [step]; unfold enqueue, take_job, exit_worker, server_cancel_job;
    repeat match goal with
    | |- None = Some _ -> _ => done
    | |- context [match ?x with _ => _ end] => destruct x eqn:?
    end; intros [= <-]; cbn; rewrite ?length_insert; try done;
    try (split; [etrans; [apply dispatch_fields|]|rewrite dispatch_length]; cbn; by rewrite ?length_insert).
Qed.

Lemma server_init_inv batched sessions : inv (server_init batched sessions) /\ places (server_init batched sessions) = [].
Proof.
  assert (Ha : forall ss : list Ses, assigned_jobs (map (fun s => Slot s (LiveTool false 0 None [] [])
    (LiveTool false 0 None [] []) (VisibleLive false 0 None []) None false) ss) = []) by (by induction ss).
  assert (Hw : forall ss : list Ses, omap running_job (map (fun _ => WIdle) ss) = []) by (by induction ss).
  split.
  - split; cbn.
    + rewrite !length_map. destruct batched; [done|]. by destruct sessions as [|? []].
    + done.
    + intros i s w Hs Hwi. unfold slot_ok. cbn. rewrite list_lookup_fmap in Hs.
      destruct (sessions !! i); [|done]. injection Hs as <-. cbn.
      apply list_elem_of_lookup_2, list_elem_of_In, in_map_iff in Hwi as (? & <- & _). destruct batched; split_and!; done.
  - unfold places. cbn. by rewrite Ha, Hw.
Qed.

Lemma reachable_inv batched sessions sv : reachable batched sessions sv -> inv sv /\ NoDup (places sv) /\
  sv_batched_mode sv = batched /\ length (sv_slots sv) = length sessions.
Proof.
  induction 1 as [|l sv sv' Hr (Hi & Hn & Hb & Hl) Hfresh Hstep].
  - destruct (server_init_inv batched sessions) as [Hi Hp]. rewrite Hp. split_and!; [done|constructor|done|apply length_map].
  - split_and!.
    + by eapply step_inv.
    + rewrite (step_places _ _ _ Hstep). destruct l; rewrite ?app_nil_r; try done.
      apply NoDup_app. split_and!; [done| |apply NoDup_singleton].
      intros x Hx ->%list_elem_of_singleton. by eapply Hfresh.
    + rewrite <- Hb. by eapply step_mode.
    + rewrite <- Hl. by eapply step_mode.
Qed.

(** ** The life of a slot's job *)

(** Three for an assigned job, two for a running one, one for a finished one;
    zero for a slot with no work. *)
Definition stage (sv : server) (i : nat) : nat * option nat :=
  match sv_workers sv !! i, sv_slots sv !! i with
  | Some WIdle, Some s => match sl_assigned s with Some j => (3, Some j)%nat | None => (0, None)%nat end
  | Some (WRun j), Some _ => (2, Some j)%nat
  | Some WDone, Some _ => (1, None)%nat
  | _, _ => (0, None)%nat
  end.

(** Steps of the worker of slot [i]. *)
Definition is_turn (i : nat) (l : label) : Prop := l = Take i \/ l = Complete i \/ l = Release i.

(** The two steps that free slot [i] and dispatch. *)
Definition frees (i : nat) (l : label) (sv : server) : Prop :=
  l = Release i \/ (exists j, l = Cancel j /\ ~ (j ∈ sv_queue sv) /\ find_assigned (sv_slots sv) j 0 = Some i).

Lemma dispatch_stage sv i : sv_batched_mode sv = true -> inv sv -> (0 < fst (stage sv i))%nat ->
  stage (dispatch_jobs_locked sv) i = stage sv i.
Proof.
  intros Hb Hi. destruct (dispatch_fields sv) as (_ & Hw & _). destruct (dispatch_spec sv Hb) as [[Hl Hs _ _ _] _].
  unfold stage. rewrite Hw. destruct (sv_workers sv !! i) as [w|] eqn:Ew; [|cbn; lia].
  destruct (sv_slots sv !! i) as [s|] eqn:Es; [|destruct w; cbn; lia].
  destruct (lookup_lt_is_Some_2 (sv_slots (dispatch_jobs_locked sv)) i) as [s' Es'];
    [rewrite Hl; by eapply lookup_lt_Some|]. rewrite Es'.
  destruct (Hs i s s' Es Es') as [->|(j & -> & Hbusy & Ha)]; [done|].
  pose proof (inv_slots sv Hi i s w Es Ew) as Hok. unfold slot_ok in Hok. rewrite Hb in Hok.
  destruct w; cbn; rewrite ?Ha; cbn; try lia; done.
Qed.

Lemma stage_set_slot sv i k s s' : sv_slots sv !! k = Some s -> sl_assigned s' = sl_assigned s ->
  stage (set_slot sv k s') i = stage sv i.
Proof.
  intros Hs Ha. unfold stage. cbn. destruct (decide (i = k)) as [->|].
  - rewrite list_lookup_insert_eq, Hs by (by eapply lookup_lt_Some). destruct (sv_workers sv !! k) as [[]|]; by rewrite ?Ha.
  - by rewrite list_lookup_insert_ne.
Qed.

Lemma stage_set_other sv i k s' w : i <> k -> stage (set_worker (set_slot sv k s') k w) i = stage sv i.
Proof. intros H. unfold stage. cbn. by rewrite !list_lookup_insert_ne. Qed.

Lemma stage_set_worker_other sv i k w : i <> k -> stage (set_worker sv k w) i = stage sv i.
Proof. intros H. unfold stage. cbn. by rewrite !list_lookup_insert_ne. Qed.

(** A slot that has work keeps it until its worker moves on or it is freed. *)
Lemma step_stage l sv sv' i p o : inv sv -> sv_batched_mode sv = true -> step l sv = Some sv' ->
  stage sv i = (p, o) -> (0 < p)%nat ->
  (frees i l sv /\ (forall j, o = Some j -> j ∈ sv_done sv')) \/
  (~ is_turn i l /\ stage sv' i = (p, o)) \/
  (p = 3%nat /\ l = Take i /\ stage sv' i = (2%nat, o)) \/
  (p = 2%nat /\ l = Complete i /\ stage sv' i = (1%nat, None) /\ forall j, o = Some j -> j ∈ sv_done sv').
Proof.
  intros Hi Hb Hstep Hst Hp. pose proof (step_inv l sv sv' Hi Hstep) as Hi'.
  assert (Hdisp : forall sv1, inv sv1 -> sv_batched_mode sv1 = true -> stage sv1 i = stage sv i ->
    stage (dispatch_jobs_locked sv1) i = (p, o)).
  { intros sv1 H1 H2 H3. rewrite dispatch_stage; [by rewrite H3|done..|]. rewrite H3, Hst. cbn. lia. }
  destruct l as [j|k|k se re an th|k|k|j| |k]; cbn [step] in Hstep.
  - right; left. unfold enqueue in Hstep. destruct (sv_stopping sv) eqn:Est; [done|]. injection Hstep as <-.
    split; [by intros [|[|]]|]. apply Hdisp; [|done|done].
    destruct Hi as [Hl Ha Hs]. split; [done..|]. cbn. intros x s w Hsx Hwx. specialize (Hs x s w Hsx Hwx).
    unfold slot_ok in *. cbn. rewrite Hb in *. destruct w; try done. destruct Hs as (_ & _ & ? & _). congruence.
  - unfold take_job in Hstep. destruct (sv_workers sv !! k) as [[|j| |]|] eqn:Ew; try done. rewrite Hb in Hstep.
    destruct (sv_slots sv !! k) as [s|] eqn:Es; [|done]. destruct (sl_assigned s) as [j|] eqn:Ea; [|done].
    injection Hstep as <-. right. destruct (decide (i = k)) as [->|Hne].
    + right; left. unfold stage in Hst. rewrite Ew, Es, Ea in Hst. injection Hst as <- <-. split_and!; [done..|].
      unfold stage. cbn. by rewrite !list_lookup_insert_eq by (by eapply lookup_lt_Some).
    + left. split; [intros [[= ->]|[|]]; done|]. by rewrite stage_set_other.
  - right; left. destruct (sv_workers sv !! k) as [[|j| |]|] eqn:Ew; try done.
    destruct (sv_slots sv !! k) as [s|] eqn:Es; [|done]. injection Hstep as <-.
    split; [by intros [|[|]]|]. by rewrite (stage_set_slot _ _ _ s).
  - destruct (sv_workers sv !! k) as [[|j| |]|] eqn:Ew; try done. injection Hstep as <-. right.
    destruct (decide (i = k)) as [->|Hne].
    + right; right. unfold stage in Hst. rewrite Ew in Hst. destruct (sv_slots sv !! k) as [s|] eqn:Es; [|injection Hst as <- _; lia].
      injection Hst as <- <-. split_and!; [done..| |].
      * unfold stage. cbn. rewrite list_lookup_insert_eq by (by eapply lookup_lt_Some). by rewrite Es.
      * intros x [= <-]. cbn. set_solver.
    + left. split; [intros [|[[= ->]|]]; done|]. rewrite <- Hst. unfold stage. cbn. by rewrite list_lookup_insert_ne.
  - destruct (sv_workers sv !! k) as [[|j| |]|] eqn:Ew; try done. destruct (sv_slots sv !! k) as [s|] eqn:Es; [|done].
    injection Hstep as <-. cbn in Hi' |- *. rewrite Hb in *. destruct (decide (i = k)) as [->|Hne].
    + left. unfold stage in Hst. rewrite Ew, Es in Hst. injection Hst as <- <-. split; [by left | done].
    + right; left. split; [intros [|[|[= ->]]]; done|].
      apply Hdisp; [|done|unfold stage; cbn; by rewrite !list_lookup_insert_ne].
      apply (inv_change sv _ k); cbn; rewrite ?length_insert; try done; [congruence| |].
      * intros x Hx. by rewrite !list_lookup_insert_ne.
      * intros t w Ht Hw. rewrite list_lookup_insert_eq in Ht by (by eapply lookup_lt_Some).
        rewrite list_lookup_insert_eq in Hw by (by eapply lookup_lt_Some). injection Ht as <-. injection Hw as <-.
        pose proof (inv_slots sv Hi k s _ Es Ew) as Hok. unfold slot_ok in *. cbn. rewrite Hb in *.
        destruct Hok as [_ ->]. done.
  - injection Hstep as <-. unfold server_cancel_job in *. cbn in *.
    destruct (list_find (fun x => x = j) (sv_queue sv)) as [[n x]|] eqn:Ef.
    { right; left. split; [by intros [|[|]] | done]. }
    assert (Hnq : j ∉ sv_queue sv).
    { apply list_find_None in Ef. intros Hin. rewrite Forall_forall in Ef. by apply (Ef j). }
    rewrite Hb in *. destruct (find_assigned (sv_slots sv) j 0) as [k|] eqn:Ek;
      [|right; left; split; [by intros [|[|]] | done]].
    destruct (sv_slots sv !! k) as [s|] eqn:Es; [|right; left; split; [by intros [|[|]] | done]].
    assert (Ha : sl_assigned s = Some j) by (by apply (find_assigned_spec (sv_slots sv) j 0 k)).
    destruct (decide (i = k)) as [->|Hne].
    + left. split; [right; by exists j|]. intros x Hx. cbn.
      assert (x = j) as ->.
      { pose proof (lookup_lt_is_Some_2 (sv_workers sv) k) as Hw. pose proof (inv_workers sv Hi) as Hlw. rewrite Hb in Hlw.
        destruct Hw as [w Hw]; [rewrite Hlw; by eapply lookup_lt_Some|].
        pose proof (inv_slots sv Hi k s w Es Hw) as Hok. unfold slot_ok in Hok. rewrite Hb in Hok.
        unfold stage in Hst. rewrite Hw, Es, Ha in Hst. destruct w as [|y| |]; [congruence| | |].
        all: exfalso; destruct Hok as (_ & Hok); first [congruence | destruct Hok; congruence]. }
      set_solver.
    + right; left. split; [by intros [|[|]]|].
      match goal with |- stage (complete ?x _) _ = _ => change (stage x i = (p, o)) end.
      apply Hdisp; [|done|unfold stage; cbn; by rewrite !list_lookup_insert_ne].
      apply (inv_change sv _ k); cbn; rewrite ?length_insert; try done; [congruence| |].
      * intros x Hx. by rewrite !list_lookup_insert_ne.
      * intros t w Ht Hw. rewrite list_lookup_insert_eq in Ht by (by eapply lookup_lt_Some). injection Ht as <-.
        pose proof (inv_slots sv Hi k s w Es Hw) as Hok. unfold slot_ok in *. cbn. rewrite Hb, Ha in *.
        destruct w; try done; destruct Hok as (_ & Hx); [done..|by destruct Hx].
  - right; left. injection Hstep as <-. split; [by intros [|[|]]|]. apply Hdisp; [|done..].
    by apply (inv_same sv).
  - right; left. unfold exit_worker in Hstep. destruct (sv_workers sv !! k) as [[|j| |]|] eqn:Ew; try done.
    match type of Hstep with (if ?b then _ else _) = _ => destruct b eqn:E; [|done] end. injection Hstep as <-.
    split; [by intros [|[|]]|]. destruct (decide (i = k)) as [->|Hne]; [|by rewrite stage_set_worker_other].
    exfalso. unfold stage in Hst. rewrite Ew in Hst. destruct (sv_slots sv !! k) as [s|] eqn:Es; [|injection Hst as <- _; lia].
    apply andb_true_iff in E as [_ E]. destruct (sl_assigned s); [by rewrite Hb in E | injection Hst as <- _; lia].
Qed.

(** ** Steps and the queue *)

Lemma dispatch_queue sv : sv_queue (dispatch_jobs_locked sv) `sublist_of` sv_queue sv.
Proof.
  destruct (sv_batched_mode sv) eqn:E; [|unfold dispatch_jobs_locked; by rewrite E].
  by destruct (dispatch_spec sv E) as [[_ _ ? _ _] _].
Qed.

(** Only [Enqueue] puts a job on the queue, and at its tail. *)
Lemma step_queue l sv sv' : step l sv = Some sv' ->
  sv_queue sv' `sublist_of` sv_queue sv ++ match l with Enqueue j => [j] | _ => [] end.
Proof.
  destruct l as [j|i|i se re an th|i|i|j| |i]; cbn [step]; unfold enqueue, take_job, exit_worker, server_cancel_job; cbn.
  - destruct (sv_stopping sv); [done|]. intros [= <-]. apply (dispatch_queue (Server _ _ _ (sv_queue sv ++ [j]) _ _ _)).
  - rewrite app_nil_r. destruct (sv_workers sv !! i) as [[]|]; try done. destruct (sv_batched_mode sv).
    + destruct (sv_slots sv !! i) as [s|]; [|done]. destruct (sl_assigned s); [|done]. by intros [= <-].
    + destruct i; [|done]. destruct (sv_queue sv); [done|]. intros [= <-]. by apply sublist_cons.
  - rewrite app_nil_r. destruct (sv_workers sv !! i) as [[]|]; try done. destruct (sv_slots sv !! i); [|done]. by intros [= <-].
  - rewrite app_nil_r. destruct (sv_workers sv !! i) as [[]|]; try done. by intros [= <-].
  - rewrite app_nil_r. destruct (sv_workers sv !! i) as [[]|]; try done. destruct (sv_slots sv !! i); [|done].
    intros [= <-]. destruct (sv_batched_mode sv); [|done]. etrans; [apply dispatch_queue|done].
  - rewrite app_nil_r. destruct (list_find _ _) as [[n k]|]; [intros [= <-]; apply sublist_delete|].
    destruct (sv_batched_mode sv); [|by intros [= <-]]. destruct (find_assigned _ _ _); [|by intros [= <-]].
    destruct (sv_slots sv !! _); [|by intros [= <-]]. intros [= <-]. etrans; [apply dispatch_queue|done].
  - rewrite app_nil_r. intros [= <-]. etrans; [apply dispatch_queue|done].
  - rewrite app_nil_r. destruct (sv_workers sv !! i) as [[]|]; try done.
    match goal with |- (if ?b then _ else _) = _ -> _ => destruct b; [|done] end. by intros [= <-].
Qed.

(** A completed job stays completed. *)
Lemma step_done l sv sv' j : step l sv = Some sv' -> j ∈ sv_done sv -> j ∈ sv_done sv'.
Proof.
  destruct l as [k|i|i se re an th|i|i|k| |i]; cbn [step]; unfold enqueue, take_job, exit_worker, server_cancel_job;
    repeat match goal with
    | |- None = Some _ -> _ => done
    | |- context [match ?x with _ => _ end] => destruct x eqn:?
    end; intros [= <-]; intros Hj; cbn;
    repeat match goal with |- context [sv_done (dispatch_jobs_locked ?x)] =>
      let H := fresh in destruct (dispatch_fields x) as (_ & _ & _ & _ & H); rewrite H; clear H; cbn end;
    rewrite ?elem_of_app; by auto.
Qed.

(** How many jobs are ahead of [j]. *)
Fixpoint ahead (j : nat) (q : list nat) : nat :=
  match q with [] => 0 | k :: q' => if (k =? j)%nat then 0 else S (ahead j q') end.

Lemma ahead_app j q q' : j ∈ q -> ahead j (q ++ q') = ahead j q.
Proof.
  induction q as [|k q IH]; intros Hj; [by apply elem_of_nil in Hj|]. cbn.
  destruct (Nat.eqb_spec k j); [done|]. rewrite IH; [done|]. by apply elem_of_cons in Hj as [->|].
Qed.

Lemma ahead_sublist j q q' : q' `sublist_of` q -> NoDup q -> j ∈ q' -> (ahead j q' <= ahead j q)%nat.
Proof.
  induction 1 as [|k q' q Hs IH|k q' q Hs IH]; intros Hn Hj; [done| |]; apply NoDup_cons in Hn as [Hk Hn]; cbn.
  - destruct (Nat.eqb_spec k j) as [->|]; [lia|]. apply elem_of_cons in Hj as [->|Hj]; [done|].
    specialize (IH Hn Hj). lia.
  - specialize (IH Hn Hj). destruct (Nat.eqb_spec k j) as [->|]; [|lia].
    destruct Hk. eapply elem_of_sublist; eassumption.
Qed.

Lemma ahead_delete j q n : NoDup q -> j ∈ delete n q -> (n <= ahead j q)%nat -> (ahead j (delete n q) < ahead j q)%nat.
Proof.
  revert n. induction q as [|k q IH]; intros n Hn Hj Hle; [by apply elem_of_nil in Hj|].
  apply NoDup_cons in Hn as [Hk Hn]. destruct n as [|n]; cbn in *; revert Hle.
  - destruct (Nat.eqb_spec k j) as [->|]; [done|]. lia.
  - destruct (Nat.eqb_spec k j) as [->|Hne]; [lia|]. intros Hle.
    apply elem_of_cons in Hj as [->|Hj]; [done|]. apply (proj1 (Nat.succ_lt_mono _ _)), IH; [done|done|lia].
Qed.

Lemma ahead_lookup j q n : NoDup q -> q !! n = Some j -> ahead j q = n.
Proof.
  revert n. induction q as [|k q IH]; intros n Hn Hq; [done|]. apply NoDup_cons in Hn as [Hk Hn].
  destruct n as [|n]; cbn in Hq |- *; [injection Hq as ->; by rewrite Nat.eqb_refl|].
  destruct (Nat.eqb_spec k j) as [->|]; [|by rewrite (IH n)]. by apply list_elem_of_lookup_2 in Hq.
Qed.

(** A dispatch that finds a slot for [j] takes a job at or before it. *)
Lemma dispatch_advances sv j : sv_batched_mode sv = true -> NoDup (sv_queue sv) ->
  best_slot (sv_slots sv) j <> None -> j ∈ sv_queue (dispatch_jobs_locked sv) ->
  (ahead j (sv_queue (dispatch_jobs_locked sv)) < ahead j (sv_queue sv))%nat.
Proof.
  intros Hb Hn Hbest. unfold dispatch_jobs_locked. rewrite Hb. cbn [negb set_slots_queue sv_queue].
  set (q := sv_queue sv) in *. intros Hj.
  assert (Hjq : j ∈ q).
  { pose proof (dispatch_loop_spec (length q) (sv_slots sv) q ltac:(lia)) as Hs.
    destruct (dispatch_loop _ _ _). destruct Hs as [[_ _ Hs _ _] _]. exact (elem_of_sublist _ _ _ Hj Hs). }
  destruct (length q) as [|f] eqn:El; [apply nil_length_inv in El; rewrite El in Hjq; by apply elem_of_nil in Hjq|].
  cbn [dispatch_loop] in *. pose proof (choose_job_spec (sv_slots sv) q 0) as Hc.
  destruct (choose_job _ _ _) as [[[n x] b]|]; [|exfalso; by apply Hbest, Hc].
  rewrite Nat.sub_0_r in Hc. destruct Hc as (_ & Hqn & _ & Hbefore).
  assert (Hle : (length (delete n q) <= f)%nat).
  { rewrite length_delete by (by eexists). lia. }
  pose proof (dispatch_loop_spec f (alter (fun s => assign_slot s x) b (sv_slots sv)) (delete n q) Hle) as Hs.
  destruct (dispatch_loop _ _ _) as [slots' q']. cbn [snd] in *. destruct Hs as [[_ _ Hs _ _] _].
  assert (Hjd : j ∈ delete n q) by (exact (elem_of_sublist _ _ _ Hj Hs)).
  eapply Nat.le_lt_trans; [apply ahead_sublist; [exact Hs | by eapply sublist_NoDup; [|apply sublist_delete] | done]|].
  apply ahead_delete; [done..|]. apply list_elem_of_lookup in Hjq as [p Hp]. rewrite (ahead_lookup j q p Hn Hp).
  destruct (decide (p < n)%nat) as [Hlt|]; [|lia]. by specialize (Hbefore p j Hlt Hp).
Qed.

(** ** Freeing a slot *)

(** What the step that frees slot [i] hands to the dispatcher. *)
Record freed (i : nat) (sv sv1 sv' : server) : Prop := {
  fr_mode : sv_batched_mode sv1 = true;
  fr_queue : sv_queue sv1 = sv_queue sv;
  fr_required j : job_required_slot_locked (sv_slots sv1) j = job_required_slot_locked (sv_slots sv) j;
  fr_slot : exists s, sv_slots sv1 !! i = Some s /\ sl_busy s = false /\ sl_assigned s = None;
  fr_slots' : sv_slots sv' = sv_slots (dispatch_jobs_locked sv1);
  fr_queue' : sv_queue sv' = sv_queue (dispatch_jobs_locked sv1)
}.

Lemma required_insert slots i s s' j : slots !! i = Some s ->
  sl_responses_live s' = sl_responses_live s -> sl_anthropic_live s' = sl_anthropic_live s ->
  job_required_slot_locked (<[i := s']> slots) j = job_required_slot_locked slots j.
Proof.
  intros Hs H1 H2. apply required_live; [by rewrite length_insert|]. intros k t t' Ht Ht'.
  destruct (decide (i = k)) as [->|].
  - rewrite list_lookup_insert_eq in Ht' by (by eapply lookup_lt_Some). rewrite Hs in Ht. by simplify_eq.
  - rewrite list_lookup_insert_ne in Ht' by done. by simplify_eq.
Qed.

Lemma frees_freed i l sv sv' : inv sv -> sv_batched_mode sv = true -> step l sv = Some sv' -> frees i l sv ->
  exists sv1, freed i sv sv1 sv'.
Proof.
  intros Hi Hb Hstep [->|(j & -> & Hq & Hf)]; cbn [step] in Hstep.
  - destruct (sv_workers sv !! i) as [[|j| |]|] eqn:Ew; try done. destruct (sv_slots sv !! i) as [s|] eqn:Es; [|done].
    injection Hstep as <-. cbn. rewrite Hb. eexists. split; [| | | |reflexivity|reflexivity]; cbn; [done|done| |].
    + intros k. by apply (required_insert _ _ s).
    + eexists. rewrite list_lookup_insert_eq by (by eapply lookup_lt_Some). split_and!; [done..|]. cbn.
      pose proof (inv_slots sv Hi i s _ Es Ew) as Hok. unfold slot_ok in Hok. rewrite Hb in Hok. apply Hok.
  - injection Hstep as <-. unfold server_cancel_job. cbn.
    destruct (list_find (fun k => k = j) (sv_queue sv)) as [[n k]|] eqn:Ef.
    { apply list_find_Some in Ef as (Hn & -> & _). destruct Hq. by eapply list_elem_of_lookup_2. }
    rewrite Hb, Hf. destruct (sv_slots sv !! i) as [s|] eqn:Es.
    + eexists. split; [| | | |reflexivity|reflexivity]; cbn; [done|done| |].
      * intros k. by apply (required_insert _ _ s).
      * eexists. by rewrite list_lookup_insert_eq by (by eapply lookup_lt_Some).
    + exfalso. assert (Hlt : forall ts n m, find_assigned ts j n = Some m -> (m < n + length ts)%nat).
      { induction ts as [|t ts IH]; intros n m; cbn; [done|]. case_if; [intros [= ->]; lia|]. intros H%IH. lia. }
      apply Hlt in Hf. apply lookup_ge_None in Es. lia.
Qed.

(** The slot a job may wait for: the required one, or any. *)
Definition waits_for (r : option nat) (w : nat) : Prop := forall k, r = Some k -> k = w.

Lemma freed_quiet i sv sv1 sv' j : freed i sv sv1 sv' -> j ∈ sv_queue sv' -> best_slot (sv_slots sv') j = None.
Proof. intros [Hm _ _ _ Hs Hq]. rewrite Hs, Hq. by apply dispatch_spec. Qed.

Lemma freed_advances i sv sv1 sv' j : freed i sv sv1 sv' -> NoDup (sv_queue sv) ->
  waits_for (job_required_slot_locked (sv_slots sv) j) i -> j ∈ sv_queue sv' ->
  (ahead j (sv_queue sv') < ahead j (sv_queue sv))%nat.
Proof.
  intros [Hm Hq Hr (s & Hs & Hbusy & Ha) _ Hq'] Hn Hw. rewrite Hq', <- Hq in *. apply dispatch_advances; [done|done|].
  rewrite best_slot_None. intros Hno. apply (Hno i s Hs). split_and!; [done..|]. by rewrite Hr.
Qed.

(** A slot that is not free for a job has work. *)
Lemma not_free_stage sv j w : inv sv -> sv_batched_mode sv = true -> (w < length (sv_slots sv))%nat ->
  j ∈ sv_queue sv -> waits_for (job_required_slot_locked (sv_slots sv) j) w -> best_slot (sv_slots sv) j = None ->
  (0 < fst (stage sv w))%nat.
Proof.
  intros Hi Hb Hlt Hj Hw Hbest. destruct (lookup_lt_is_Some_2 (sv_slots sv) w Hlt) as [s Hs].
  pose proof (inv_workers sv Hi) as Hl. rewrite Hb in Hl. destruct (lookup_lt_is_Some_2 (sv_workers sv) w) as [x Hx]; [lia|].
  pose proof (inv_slots sv Hi w s x Hs Hx) as Hok. unfold slot_ok in Hok. rewrite Hb in Hok.
  unfold stage. rewrite Hs, Hx. rewrite best_slot_None in Hbest. specialize (Hbest w s Hs).
  destruct x; cbn; try lia.
  - destruct (sl_assigned s) eqn:Ea; cbn; [lia|]. destruct Hbest. split_and!; [|done|done].
    destruct (sl_busy s); [|done]. by destruct Hok as [[] _].
  - destruct Hok as (_ & _ & _ & Hnil). rewrite Hnil in Hj. by apply elem_of_nil in Hj.
Qed.

(** The slot a queued job waits for always has work. *)
Lemma step_waiting l sv sv' j w : inv sv -> sv_batched_mode sv = true -> step l sv = Some sv' ->
  (w < length (sv_slots sv'))%nat -> waits_for (job_required_slot_locked (sv_slots sv') j) w ->
  (j ∈ sv_queue sv -> (0 < fst (stage sv w))%nat) -> j ∈ sv_queue sv' -> (0 < fst (stage sv' w))%nat.
Proof.
  intros Hi Hb Hstep Hlt Hw Hpre Hj. pose proof (step_inv l sv sv' Hi Hstep) as Hi'.
  destruct (step_mode l sv sv' Hstep) as [Hb' _]. rewrite Hb in Hb'.
  destruct (decide (j ∈ sv_queue sv)) as [Hjq|Hjq].
  - specialize (Hpre Hjq). destruct (stage sv w) as [p o] eqn:Est. cbn in Hpre.
    destruct (step_stage l sv sv' w p o Hi Hb Hstep Est Hpre) as [[Hf _]|[[_ ->]|[(_ & _ & ->)|(_ & _ & -> & _)]]]; [|cbn; lia..].
    destruct (frees_freed w l sv sv' Hi Hb Hstep Hf) as [sv1 Hfr].
    eapply not_free_stage; [done..|]. by eapply freed_quiet.
  - pose proof (elem_of_sublist _ _ _ Hj (step_queue l sv sv' Hstep)) as Hin. apply elem_of_app in Hin as [|Hin]; [done|].
    destruct l; try by apply elem_of_nil in Hin. apply list_elem_of_singleton in Hin as <-.
    eapply not_free_stage; [done..|]. cbn in Hstep. unfold enqueue in Hstep. destruct (sv_stopping sv); [done|].
    injection Hstep as <-. by apply dispatch_spec.
Qed.

(** ** Infinite runs *)

(** An infinite run; a job object is enqueued once. *)
Record trace (batched : bool) (sessions : list Ses) (sg : nat -> server) (lb : nat -> label) : Prop := {
  tr_init : sg 0%nat = server_init batched sessions;
  tr_step n : step (lb n) (sg n) = Some (sg (S n));
  tr_fresh n j : lb n = Enqueue j -> j ∉ places (sg n)
}.

(** Worker [i] has a job to take up, to run or to finish; without batching it also
    takes from the queue. *)
Definition has_work (sv : server) (i : nat) : Prop :=
  (0 < fst (stage sv i))%nat \/
  (sv_batched_mode sv = false /\ i = 0%nat /\ sv_workers sv !! 0%nat = Some WIdle /\ sv_queue sv <> []).

(** A worker that has something to do moves on some time: its job is taken up,
    [generate_job] returns, the slot is released. *)
Definition fair (sg : nat -> server) (lb : nat -> label) : Prop :=
  forall i n, exists m, (n <= m)%nat /\ (~ has_work (sg m) i \/ is_turn i (lb m)).

Lemma trace_reachable batched sessions sg lb n : trace batched sessions sg lb -> reachable batched sessions (sg n).
Proof.
  intros Ht. induction n as [|n IH]; [rewrite (tr_init _ _ _ _ Ht); constructor|].
  econstructor; [exact IH | | exact (tr_step _ _ _ _ Ht n)]. apply (tr_fresh _ _ _ _ Ht).
Qed.

Section AnyRun.
Context (batched : bool) (sessions : list Ses) (sg : nat -> server) (lb : nat -> label) (Ht : trace batched sessions sg lb).

Lemma sched_run_inv n : inv (sg n) /\ NoDup (places (sg n)) /\ sv_batched_mode (sg n) = batched /\
  length (sv_slots (sg n)) = length sessions.
Proof using Ht. by apply reachable_inv, (trace_reachable batched sessions sg lb). Qed.

Lemma run_done n m j : (n <= m)%nat -> j ∈ sv_done (sg n) -> j ∈ sv_done (sg m).
Proof using Ht. induction 1 as [|m _ IH]; intros Hj; [done|]. eapply step_done; [apply (tr_step _ _ _ _ Ht) | by apply IH]. Qed.

Lemma run_places n m j : (n <= m)%nat -> j ∈ places (sg n) -> j ∈ places (sg m).
Proof using Ht.
  induction 1 as [|m _ IH]; intros Hj; [done|]. rewrite (step_places _ _ _ (tr_step _ _ _ _ Ht m)).
  apply elem_of_app. left. by apply IH.
Qed.

(** While it waits, nothing gets ahead of a queued job. *)
Lemma queue_back n m j : (n <= m)%nat -> j ∈ places (sg n) -> j ∈ sv_queue (sg m) ->
  j ∈ sv_queue (sg n) /\ (ahead j (sv_queue (sg m)) <= ahead j (sv_queue (sg n)))%nat.
Proof using Ht.
  intros Hle Hp. induction Hle as [|m Hle IH]; intros Hj; [done|].
  pose proof (step_queue _ _ _ (tr_step _ _ _ _ Ht m)) as Hs. pose proof (run_places n m j Hle Hp) as Hpm.
  destruct (sched_run_inv m) as (_ & Hn & _ & _).
  assert (Hjm : j ∈ sv_queue (sg m)).
  { pose proof (elem_of_sublist _ _ _ Hj Hs) as Hin. apply elem_of_app in Hin as [|Hin]; [done|].
    destruct (lb m) as [k| | | | | | |] eqn:El; try by apply elem_of_nil in Hin.
    apply list_elem_of_singleton in Hin as ->. by destruct (tr_fresh _ _ _ _ Ht m k El). }
  destruct (IH Hjm) as [Hjn Hahead]. split; [done|]. etrans; [|exact Hahead].
  rewrite <- (ahead_app j (sv_queue (sg m)) (match lb m with Enqueue k => [k] | _ => [] end)) by done.
  apply ahead_sublist; [done| |done]. unfold places in Hn. apply NoDup_app in Hn as (Hn & _).
  destruct (lb m) as [k| | | | | | |] eqn:El; rewrite ?app_nil_r; try done.
  apply NoDup_app. split_and!; [done| |apply NoDup_singleton]. intros x Hx ->%list_elem_of_singleton.
  apply (tr_fresh _ _ _ _ Ht m k El). unfold places. apply elem_of_app. by left.
Qed.

End AnyRun.

Section Run.
Context (sessions : list Ses) (sg : nat -> server) (lb : nat -> label) (Ht : trace true sessions sg lb) (Hfair : fair sg lb).

(** Within a round of the slot: the next move of its worker, or the slot is freed. *)
Lemma slot_moves i p o : (0 < p)%nat -> forall d n, stage (sg n) i = (p, o) ->
  (fst (stage (sg (n + d)) i) = 0%nat \/ is_turn i (lb (n + d))) ->
  exists m, (n <= m)%nat /\
    ((frees i (lb m) (sg m) /\ forall j, o = Some j -> j ∈ sv_done (sg (S m))) \/
     (p = 3%nat /\ stage (sg (S m)) i = (2%nat, o)) \/
     (p = 2%nat /\ stage (sg (S m)) i = (1%nat, None) /\ forall j, o = Some j -> j ∈ sv_done (sg (S m)))).
Proof using Ht.
  intros Hp d. induction d as [|d IH]; intros n Hn Hd; destruct (sched_run_inv true sessions sg lb Ht n) as (Hi & _ & Hb & _);
    destruct (step_stage _ _ _ i p o Hi Hb (tr_step _ _ _ _ Ht n) Hn Hp) as [Hf|[[Hnt Hst]|[(-> & _ & Hst)|(-> & _ & Hst & Hdone)]]].
  all: try (exists n; split; [lia|]; by auto).
  - rewrite Nat.add_0_r, Hn in Hd. cbn in Hd. destruct Hd; [lia | done].
  - rewrite <- Nat.add_succ_comm in Hd. destruct (IH (S n) Hst Hd) as (m & Hle & Hm). exists m. split; [lia | exact Hm].
Qed.

(** A slot with work is freed some time, and its job is completed by then. *)
Lemma slot_freed i p : forall n o, stage (sg n) i = (p, o) -> (0 < p)%nat ->
  exists m, (n <= m)%nat /\ frees i (lb m) (sg m) /\ forall j, o = Some j -> j ∈ sv_done (sg (S m)).
Proof using Ht Hfair.
  induction p as [p IH] using lt_wf_ind. intros n o Hst Hp. destruct (Hfair i n) as (k & Hk & Hd).
  assert (Hd' : fst (stage (sg k) i) = 0%nat \/ is_turn i (lb k)).
  { destruct Hd as [Hd|]; [left|by right]. destruct (fst (stage (sg k) i)) eqn:Ek; [done|]. exfalso. apply Hd. left. lia. }
  clear Hd. rename Hd' into Hd. replace k with (n + (k - n))%nat in Hd by lia.
  destruct (slot_moves i p o Hp _ n Hst Hd) as (m & Hle & [[Hf Hdone]|[[-> Hm]|(-> & Hm & Hdone)]]).
  - by exists m.
  - destruct (IH 2%nat ltac:(lia) _ _ Hm ltac:(lia)) as (m' & Hle' & Hf & Hdone). exists m'. split_and!; [lia | done..].
  - destruct (IH 1%nat ltac:(lia) _ _ Hm ltac:(lia)) as (m' & Hle' & Hf & _). exists m'. split_and!; [lia | done|].
    intros j Hj. eapply (run_done true sessions sg lb Ht); [|by apply Hdone]. lia.
Qed.

(** A job that has left the queue is completed. *)
Lemma dispatched_completes n j : j ∈ places (sg n) -> j ∉ sv_queue (sg n) -> exists m, (n <= m)%nat /\ j ∈ sv_done (sg m).
Proof using Ht Hfair.
  intros Hj Hq. destruct (sched_run_inv true sessions sg lb Ht n) as (Hi & _ & Hb & _). pose proof (inv_workers _ Hi) as Hl. rewrite Hb in Hl.
  assert (Hslot : forall i p, stage (sg n) i = (S p, Some j) -> exists m, (n <= m)%nat /\ j ∈ sv_done (sg m)).
  { intros i p Hst. destruct (slot_freed i (S p) n _ Hst ltac:(lia)) as (m & Hle & _ & Hdone).
    exists (S m). split; [lia | by apply Hdone]. }
  unfold places in Hj. rewrite !elem_of_app in Hj. destruct Hj as [Hj|[Hj|[Hj|Hj]]]; [done| | |by exists n].
  - apply list_elem_of_omap in Hj as (s & (i & Hs)%list_elem_of_lookup & Ha).
    destruct (lookup_lt_is_Some_2 (sv_workers (sg n)) i) as [w Hw]; [rewrite Hl; by eapply lookup_lt_Some|].
    pose proof (inv_slots _ Hi i s w Hs Hw) as Hok. unfold slot_ok in Hok. rewrite Hb in Hok.
    apply (Hslot i 2%nat). unfold stage. rewrite Hs, Hw. destruct w; [by rewrite Ha|exfalso..]; naive_solver.
  - apply list_elem_of_omap in Hj as (w & (i & Hw)%list_elem_of_lookup & Hr). destruct w as [|k| |]; try done.
    injection Hr as ->. apply (Hslot i 1%nat). unfold stage. rewrite Hw.
    destruct (lookup_lt_is_Some_2 (sv_slots (sg n)) i) as [s Hs]; [rewrite <- Hl; by eapply lookup_lt_Some|]. by rewrite Hs.
Qed.

(** A job that stays in the queue is refused by the dispatcher, or some worker is
    busy and will dispatch again. *)
Definition refused_or_busy (sv : server) (j : nat) : Prop :=
  best_slot (sv_slots sv) j = None \/ exists i, (0 < fst (stage sv i))%nat.

Lemma step_refused l sv sv' j : inv sv -> sv_batched_mode sv = true -> step l sv = Some sv' ->
  (j ∈ sv_queue sv -> refused_or_busy sv j) -> j ∈ sv_queue sv' -> refused_or_busy sv' j.
Proof.
  intros Hi Hb Hstep Hpre Hj.
  assert (Hd : forall sv1, sv_batched_mode sv1 = true -> sv_slots sv' = sv_slots (dispatch_jobs_locked sv1) ->
    sv_queue sv' = sv_queue (dispatch_jobs_locked sv1) -> refused_or_busy sv' j).
  { intros sv1 H1 H2 H3. left. rewrite H2. apply (dispatch_spec sv1 H1). by rewrite <- H3. }
  destruct l as [k|k|k se re an th|k|k|k| |k]; cbn [step] in Hstep.
  - unfold enqueue in Hstep. destruct (sv_stopping sv); [done|]. injection Hstep as <-. eapply Hd; [|reflexivity..]; first [exact Hb | reflexivity].
  - unfold take_job in Hstep. destruct (sv_workers sv !! k) as [[|x| |]|] eqn:Ew; try done. rewrite Hb in Hstep.
    destruct (sv_slots sv !! k) as [s|] eqn:Es; [|done]. destruct (sl_assigned s) as [x|]; [|done]. injection Hstep as <-.
    right. exists k. unfold stage. cbn. rewrite !list_lookup_insert_eq by (by eapply lookup_lt_Some). cbn. lia.
  - destruct (sv_workers sv !! k) as [[|x| |]|] eqn:Ew; try done. destruct (sv_slots sv !! k) as [s|] eqn:Es; [|done].
    injection Hstep as <-. right. exists k. unfold stage. cbn. rewrite Ew, list_lookup_insert_eq by (by eapply lookup_lt_Some). cbn. lia.
  - destruct (sv_workers sv !! k) as [[|x| |]|] eqn:Ew; try done. injection Hstep as <-. right. exists k. unfold stage. cbn.
    rewrite list_lookup_insert_eq by (by eapply lookup_lt_Some). pose proof (inv_workers sv Hi) as Hl. rewrite Hb in Hl.
    destruct (lookup_lt_is_Some_2 (sv_slots sv) k) as [s Hs]; [rewrite <- Hl; by eapply lookup_lt_Some|]. rewrite Hs. cbn. lia.
  - destruct (sv_workers sv !! k) as [[|x| |]|] eqn:Ew; try done. destruct (sv_slots sv !! k) as [s|] eqn:Es; [|done].
    injection Hstep as <-. cbn [set_worker sv_batched_mode] in *. rewrite Hb in *. eapply Hd; [|reflexivity..]; first [exact Hb | reflexivity].
  - injection Hstep as <-. unfold server_cancel_job in *. cbn in *.
    destruct (list_find _ _) as [[n x]|]; [apply Hpre; exact (elem_of_sublist _ _ _ Hj (sublist_delete _ _))|].
    rewrite Hb in *. destruct (find_assigned _ _ _) as [i|]; [|by apply Hpre].
    destruct (sv_slots sv !! i) as [s|]; [|by apply Hpre]. eapply Hd; [|reflexivity..]; first [exact Hb | reflexivity].
  - injection Hstep as <-. eapply Hd; [|reflexivity..]; first [exact Hb | reflexivity].
  - unfold exit_worker in Hstep. destruct (sv_workers sv !! k) as [[|x| |]|] eqn:Ew; try done.
    match type of Hstep with (if ?b then _ else _) = _ => destruct b eqn:E; [|done] end. injection Hstep as <-.
    apply andb_true_iff in E as [[_ E]%andb_true_iff _]. apply Nat.eqb_eq, nil_length_inv in E. cbn in Hj. rewrite E in Hj. by apply elem_of_nil in Hj.
Qed.

Lemma run_refused n j : j ∈ sv_queue (sg n) -> refused_or_busy (sg n) j.
Proof using Ht.
  induction n as [|n IH]; intros Hj; [rewrite (tr_init _ _ _ _ Ht) in Hj; by apply elem_of_nil in Hj|].
  destruct (sched_run_inv true sessions sg lb Ht n) as (Hi & _ & Hb & _). by eapply (step_refused _ _ _ j Hi Hb (tr_step _ _ _ _ Ht n)).
Qed.

(** From the moment [n0] on the slot that [j] must have, if any, is [w]. *)
Section Settled.
Context (j w n0 : nat) (Hw : (w < length sessions)%nat) (Hj0 : j ∈ places (sg n0)).
Context (Hr : forall m, (n0 <= m)%nat -> j ∈ sv_queue (sg m) -> waits_for (job_required_slot_locked (sv_slots (sg m)) j) w).

(** Some time that slot is at work, or the job has left the queue. *)
Lemma settles_busy : exists n1, (n0 <= n1)%nat /\ (j ∈ sv_queue (sg n1) -> (0 < fst (stage (sg n1) w))%nat).
Proof using Ht Hfair Hw Hr.
  assert (Hquiet : forall n, (n0 <= n)%nat -> j ∈ sv_queue (sg n) -> best_slot (sv_slots (sg n)) j = None -> (0 < fst (stage (sg n) w))%nat).
  { intros n Hn Hj Hbest. destruct (sched_run_inv true sessions sg lb Ht n) as (Hi & _ & Hb & Hl). eapply not_free_stage; try done; [lia|by apply Hr]. }
  destruct (decide (j ∈ sv_queue (sg n0))) as [Hj|]; [|by exists n0].
  destruct (run_refused n0 j Hj) as [Hbest|[i Hi]]; [exists n0; split; [lia|]; intros _; by apply Hquiet|].
  destruct (stage (sg n0) i) as [p o] eqn:Est. destruct (slot_freed i p n0 o Est Hi) as (m & Hle & Hf & _).
  exists (S m). split; [lia|]. intros Hj'. destruct (sched_run_inv true sessions sg lb Ht m) as (Him & _ & Hb & _).
  destruct (frees_freed i _ _ _ Him Hb (tr_step _ _ _ _ Ht m) Hf) as [sv1 Hfr]. apply Hquiet; [lia|done|]. by eapply freed_quiet.
Qed.

Lemma waiting_busy n1 : (n0 <= n1)%nat -> (j ∈ sv_queue (sg n1) -> (0 < fst (stage (sg n1) w))%nat) ->
  forall n, (n1 <= n)%nat -> j ∈ sv_queue (sg n) -> (0 < fst (stage (sg n) w))%nat.
Proof using Ht Hw Hr.
  intros Hn1 Hbase n Hn. induction Hn as [|n Hn IH]; intros Hj; [by apply Hbase|].
  destruct (sched_run_inv true sessions sg lb Ht n) as (Hi & _ & Hb & _). destruct (sched_run_inv true sessions sg lb Ht (S n)) as (_ & _ & _ & Hl).
  eapply (step_waiting _ _ _ j w Hi Hb (tr_step _ _ _ _ Ht n)); [lia | apply Hr; [lia|done] | exact IH | done].
Qed.

Lemma queued_completes : exists m, (n0 <= m)%nat /\ j ∈ sv_done (sg m).
Proof using Ht Hfair Hw Hr Hj0.
  destruct settles_busy as (n1 & Hn1 & Hbase). pose proof (waiting_busy n1 Hn1 Hbase) as Hwait.
  assert (H : forall k n, (n1 <= n)%nat -> ahead j (sv_queue (sg n)) = k -> j ∈ places (sg n) -> exists m, (n <= m)%nat /\ j ∈ sv_done (sg m)).
  { intros k. induction k as [k IH] using lt_wf_ind. intros n Hn Hk Hj.
    destruct (decide (j ∈ sv_queue (sg n))) as [Hq|Hq]; [|by apply dispatched_completes].
    pose proof (Hwait n Hn Hq) as Hbusy. destruct (stage (sg n) w) as [p o] eqn:Est.
    destruct (slot_freed w p n o Est Hbusy) as (m & Hle & Hf & _).
    assert (Hjm : j ∈ places (sg (S m))) by (apply (run_places true sessions sg lb Ht n); [lia | done]).
    destruct (decide (j ∈ sv_queue (sg (S m)))) as [Hq'|Hq'].
    - assert (Hjq : j ∈ sv_queue (sg m)).
      { apply (queue_back true sessions sg lb Ht m (S m)); [lia | by apply (run_places true sessions sg lb Ht n) | done]. }
      destruct (queue_back true sessions sg lb Ht n m j Hle Hj Hjq) as [_ Hahead].
      destruct (sched_run_inv true sessions sg lb Ht m) as (Hi & Hnd & Hb & _). destruct (frees_freed w _ _ _ Hi Hb (tr_step _ _ _ _ Ht m) Hf) as [sv1 Hfr].
      unfold places in Hnd. apply NoDup_app in Hnd as (Hnd & _).
      pose proof (freed_advances w _ _ _ j Hfr Hnd (Hr m ltac:(lia) Hjq) Hq') as Hlt.
      destruct (IH (ahead j (sv_queue (sg (S m)))) ltac:(lia) (S m) ltac:(lia) eq_refl Hjm) as (m' & Hle' & Hd). exists m'. split; [lia | done].
    - destruct (dispatched_completes (S m) j Hjm Hq') as (m' & Hle' & Hd). exists m'. split; [lia | done]. }
  destruct (H _ n1 (le_n _) eq_refl (run_places true sessions sg lb Ht n0 n1 j Hn1 Hj0)) as (m & Hm & Hd). exists m. split; [lia|done].
Qed.
End Settled.
End Run.

(** ** The single worker without batching *)

Section OneWorker.
Context (sessions : list Ses) (sg : nat -> server) (lb : nat -> label) (Ht : trace false sessions sg lb) (Hfair : fair sg lb).
Context (Hne : sessions <> []).

Definition phase (w : worker) : nat := match w with WIdle => 1 | WDone => 2 | WRun _ => 3 | WExit => 0 end.

(** The jobs ahead of [j], three turns each, and what is left of the current one. *)
Definition turns_left (sv : server) (j : nat) (w : worker) : nat := (3 * ahead j (sv_queue sv) + phase w)%nat.

Lemma dispatch_unbatched sv : sv_batched_mode sv = false -> dispatch_jobs_locked sv = sv.
Proof. unfold dispatch_jobs_locked. by intros ->. Qed.

Lemma single_step l sv sv' j w : inv sv -> sv_batched_mode sv = false -> NoDup (sv_queue sv) -> sv_workers sv !! 0%nat = Some w ->
  step l sv = Some sv' -> j ∈ sv_queue sv ->
  j ∉ sv_queue sv' \/ exists w', sv_workers sv' !! 0%nat = Some w' /\ (turns_left sv' j w' <= turns_left sv j w)%nat /\
    (is_turn 0 l -> (turns_left sv' j w' < turns_left sv j w)%nat).
Proof.
  intros Hi Hb Hn Hw Hstep Hj. pose proof (inv_workers sv Hi) as Hl. rewrite Hb in Hl.
  assert (H0 : forall i x, sv_workers sv !! i = Some x -> i = 0%nat /\ x = w).
  { intros i x Hx. pose proof (lookup_lt_Some _ _ _ Hx). assert (i = 0)%nat as -> by lia. split; [done|congruence]. }
  assert (Hins : forall x, <[0%nat := x]> (sv_workers sv) !! 0%nat = Some x).
  { intros x. apply list_lookup_insert_eq. by eapply lookup_lt_Some. }
  assert (Hkeep : forall sv1, sv_workers sv1 = sv_workers sv -> (ahead j (sv_queue sv1) <= ahead j (sv_queue sv))%nat -> ~ is_turn 0 l ->
    exists w', sv_workers sv1 !! 0%nat = Some w' /\ (turns_left sv1 j w' <= turns_left sv j w)%nat /\ (is_turn 0 l -> (turns_left sv1 j w' < turns_left sv j w)%nat)).
  { intros sv1 H1 H2 H3. exists w. rewrite H1. unfold turns_left. split_and!; [done|lia|done]. }
  destruct l as [k|k|k se re an th|k|k|k| |k]; cbn [step] in Hstep.
  - right. unfold enqueue in Hstep. destruct (sv_stopping sv); [done|]. rewrite dispatch_unbatched in Hstep by done. injection Hstep as <-.
    apply Hkeep; [done| |by intros [|[|]]]. cbn. by rewrite ahead_app.
  - unfold take_job in Hstep. destruct (sv_workers sv !! k) as [[|x| |]|] eqn:Ew; try done. rewrite Hb in Hstep.
    destruct (H0 k _ Ew) as [-> <-]. destruct (sv_queue sv) as [|x q] eqn:Eq; [done|]. injection Hstep as <-. cbn.
    apply NoDup_cons in Hn as [Hx _]. destruct (decide (x = j)) as [->|Hxj]; [by left|]. right. exists (WRun x).
    rewrite Hins. unfold turns_left. cbn. rewrite Eq. cbn. rewrite (proj2 (Nat.eqb_neq x j)) by done. cbn [phase]. split_and!; [done|lia|lia].
  - destruct (sv_workers sv !! k) as [[|x| |]|] eqn:Ew; try done. destruct (sv_slots sv !! k); [|done]. injection Hstep as <-.
    right. apply Hkeep; [done|done|by intros [|[|]]].
  - destruct (sv_workers sv !! k) as [[|x| |]|] eqn:Ew; try done. injection Hstep as <-. destruct (H0 k _ Ew) as [-> <-].
    right. exists WDone. cbn. rewrite Hins. unfold turns_left. cbn. split_and!; [done|lia|lia].
  - destruct (sv_workers sv !! k) as [[|x| |]|] eqn:Ew; try done. destruct (sv_slots sv !! k); [|done].
    cbn [set_worker sv_batched_mode] in Hstep. rewrite Hb in Hstep. injection Hstep as <-. destruct (H0 k _ Ew) as [-> <-].
    right. exists WIdle. cbn. rewrite Hins. unfold turns_left. cbn. split_and!; [done|lia|lia].
  - injection Hstep as <-. unfold server_cancel_job. cbn.
    destruct (list_find (fun x => x = k) (sv_queue sv)) as [[n x]|] eqn:Ef; [|right; rewrite Hb; by apply Hkeep; [| |intros [|[|]]]].
    destruct (decide (j ∈ delete n (sv_queue sv))) as [Hin|]; [right|by left].
    apply Hkeep; [done| |by intros [|[|]]]. cbn. by apply ahead_sublist; [apply sublist_delete|..].
  - rewrite dispatch_unbatched in Hstep by done. injection Hstep as <-. right. apply Hkeep; [done|done|by intros [|[|]]].
  - unfold exit_worker in Hstep. destruct (sv_workers sv !! k) as [[|x| |]|]; try done.
    match type of Hstep with (if ?b then _ else _) = _ => destruct b eqn:E; [|done] end.
    apply andb_true_iff in E as [[_ E]%andb_true_iff _]. apply Nat.eqb_eq, nil_length_inv in E. rewrite E in Hj. by apply elem_of_nil in Hj.
Qed.

(** What is running stays so until it is completed. *)
Lemma single_running l sv sv' j : inv sv -> sv_batched_mode sv = false -> sv_workers sv !! 0%nat = Some (WRun j) -> step l sv = Some sv' ->
  j ∈ sv_done sv' \/ (~ is_turn 0 l /\ sv_workers sv' !! 0%nat = Some (WRun j)).
Proof.
  intros Hi Hb Hw Hstep. pose proof (inv_workers sv Hi) as Hl. rewrite Hb in Hl.
  assert (H0 : forall i x, sv_workers sv !! i = Some x -> i = 0%nat /\ x = WRun j).
  { intros i x Hx. pose proof (lookup_lt_Some _ _ _ Hx). assert (i = 0)%nat as -> by lia. split; [done|congruence]. }
  destruct l as [k|k|k se re an th|k|k|k| |k]; cbn [step] in Hstep.
  - right. split; [by intros [|[|]]|]. unfold enqueue in Hstep. destruct (sv_stopping sv); [done|]. rewrite dispatch_unbatched in Hstep by done. by injection Hstep as <-.
  - unfold take_job in Hstep. destruct (sv_workers sv !! k) as [[|x| |]|] eqn:Ew; try done. by destruct (H0 k _ Ew).
  - right. split; [by intros [|[|]]|]. destruct (sv_workers sv !! k) as [[|x| |]|] eqn:Ew; try done. destruct (sv_slots sv !! k); [|done]. by injection Hstep as <-.
  - destruct (sv_workers sv !! k) as [[|x| |]|] eqn:Ew; try done. injection Hstep as <-. destruct (H0 k _ Ew) as [-> [= ->]].
    left. cbn. set_solver.
  - destruct (sv_workers sv !! k) as [[|x| |]|] eqn:Ew; try done. by destruct (H0 k _ Ew).
  - right. split; [by intros [|[|]]|]. injection Hstep as <-. unfold server_cancel_job. cbn.
    destruct (list_find _ _) as [[n x]|]; [done|]. by rewrite Hb.
  - right. split; [by intros [|[|]]|]. rewrite dispatch_unbatched in Hstep by done. by injection Hstep as <-.
  - unfold exit_worker in Hstep. destruct (sv_workers sv !! k) as [[|x| |]|] eqn:Ew; try done. by destruct (H0 k _ Ew).
Qed.

Lemma single_worker n : exists w s, sv_workers (sg n) !! 0%nat = Some w /\ sv_slots (sg n) !! 0%nat = Some s.
Proof using Ht Hne.
  destruct (sched_run_inv false sessions sg lb Ht n) as (Hi & _ & Hb & Hl). pose proof (inv_workers _ Hi) as Hlw. rewrite Hb in Hlw.
  assert (0 < length sessions)%nat by (destruct sessions; [done|cbn; lia]).
  destruct (lookup_lt_is_Some_2 (sv_workers (sg n)) 0) as [w Hw]; [lia|]. destruct (lookup_lt_is_Some_2 (sv_slots (sg n)) 0) as [s Hs]; [lia|].
  by exists w, s.
Qed.

Lemma single_has_work n j : j ∈ sv_queue (sg n) -> has_work (sg n) 0.
Proof using Ht Hne.
  intros Hj. destruct (single_worker n) as (w & s & Hw & Hs). destruct (sched_run_inv false sessions sg lb Ht n) as (Hi & _ & Hb & _).
  assert (Hq : sv_queue (sg n) <> []) by (intros E; rewrite E in Hj; by apply elem_of_nil in Hj).
  destruct w as [|x| |]; [by right|left..].
  - unfold stage. rewrite Hw, Hs. cbn. lia.
  - unfold stage. rewrite Hw, Hs. cbn. lia.
  - exfalso. pose proof (inv_slots _ Hi 0%nat s _ Hs Hw) as Hok. unfold slot_ok in Hok. rewrite Hb in Hok. apply Hq. by apply Hok.
Qed.

(** A job in the queue leaves it. *)
Lemma single_leaves j : forall k n w, sv_workers (sg n) !! 0%nat = Some w -> turns_left (sg n) j w = k -> j ∈ sv_queue (sg n) ->
  exists m, (n <= m)%nat /\ j ∉ sv_queue (sg m).
Proof using Ht Hfair Hne.
  induction k as [k IH] using lt_wf_ind. intros n w Hw Hk Hj. destruct (Hfair 0%nat n) as (m & Hle & Hm).
  remember (m - n)%nat as d eqn:Ed. revert n w Hw Hk Hj Hle Ed.
  induction d as [|d IHd]; intros n w Hw Hk Hj Hle Ed;
    destruct (sched_run_inv false sessions sg lb Ht n) as (Hi & Hnd & Hb & _); unfold places in Hnd; apply NoDup_app in Hnd as (Hnd & _);
    destruct (single_step _ _ _ j w Hi Hb Hnd Hw (tr_step _ _ _ _ Ht n) Hj) as [Hout|(w' & Hw' & Hle' & Hturn)]; try (exists (S n); split; [lia|done]);
    (destruct (decide (j ∈ sv_queue (sg (S n)))) as [Hj'|]; [|exists (S n); split; [lia|done]]).
  - assert (m = n) as -> by lia. destruct Hm as [Hm|Hm]; [by destruct Hm; apply (single_has_work n j)|].
    destruct (IH (turns_left (sg (S n)) j w') ltac:(specialize (Hturn Hm); lia) (S n) w' Hw' eq_refl Hj') as (m' & ? & ?). exists m'. split; [lia|done].
  - destruct (decide (turns_left (sg (S n)) j w' = k)%nat) as [Heq|Hneq].
    + destruct (IHd (S n) w' Hw' Heq Hj' ltac:(lia) ltac:(lia)) as (m' & ? & ?). exists m'. split; [lia|done].
    + destruct (IH (turns_left (sg (S n)) j w') ltac:(lia) (S n) w' Hw' eq_refl Hj') as (m' & ? & ?). exists m'. split; [lia|done].
Qed.

Lemma single_finishes j n : sv_workers (sg n) !! 0%nat = Some (WRun j) -> exists m, (n <= m)%nat /\ j ∈ sv_done (sg m).
Proof using Ht Hfair Hne.
  intros Hw. destruct (Hfair 0%nat n) as (m & Hle & Hm). remember (m - n)%nat as d eqn:Ed. revert n Hw Hle Ed.
  induction d as [|d IHd]; intros n Hw Hle Ed; destruct (sched_run_inv false sessions sg lb Ht n) as (Hi & _ & Hb & _);
    destruct (single_running _ _ _ j Hi Hb Hw (tr_step _ _ _ _ Ht n)) as [Hd|[Hnt Hw']]; try (exists (S n); split; [lia|done]).
  - assert (m = n) as -> by lia. destruct Hm as [Hm|Hm]; [|done]. destruct Hm. left. destruct (single_worker n) as (x & s & Hx & Hs).
    unfold stage. rewrite Hw, Hs. cbn. lia.
  - destruct (IHd (S n) Hw' ltac:(lia) ltac:(lia)) as (m' & ? & ?). exists m'. split; [lia|done].
Qed.

Lemma single_completes j n : j ∈ places (sg n) -> exists m, (n <= m)%nat /\ j ∈ sv_done (sg m).
Proof using Ht Hfair Hne.
  intros Hj. assert (Hout : exists m, (n <= m)%nat /\ j ∉ sv_queue (sg m)).
  { destruct (decide (j ∈ sv_queue (sg n))) as [Hq|]; [|by exists n]. destruct (single_worker n) as (w & _ & Hw & _). by eapply single_leaves. }
  destruct Hout as (m & Hle & Hq). pose proof (run_places false sessions sg lb Ht n m j Hle Hj) as Hp.
  destruct (sched_run_inv false sessions sg lb Ht m) as (Hi & _ & Hb & _). unfold places in Hp. rewrite (inv_assigned _ Hi Hb), !elem_of_app in Hp.
  destruct Hp as [Hp|[Hp|[Hp|Hp]]]; [done|by apply elem_of_nil in Hp| |by exists m].
  apply list_elem_of_omap in Hp as (x & (i & Hx)%list_elem_of_lookup & Hr). destruct x as [|y| |]; try done. injection Hr as ->.
  pose proof (inv_workers _ Hi) as Hl. rewrite Hb in Hl. pose proof (lookup_lt_Some _ _ _ Hx). assert (i = 0)%nat as -> by lia.
  destruct (single_finishes j m Hx) as (m' & ? & ?). exists m'. split; [lia|done].
Qed.
End OneWorker.


Fixpoint steps (ls : list label) (sv : server) : option server :=
  match ls with
  | [] => Some sv
  | l :: ls' => match step l sv with Some sv' => steps ls' sv' | None => None end
  end.

Definition enqueued (ls : list label) : list nat :=
  omap (fun l => match l with Enqueue j => Some j | _ => None end) ls.

Lemma steps_places ls : forall sv sv', steps ls sv = Some sv' -> places sv' ≡ₚ places sv ++ enqueued ls.
Proof.
  induction ls as [|l ls IH]; intros sv sv'; cbn [steps]; [intros [= <-]; by rewrite app_nil_r|].
  destruct (step l sv) as [sv1|] eqn:E; [|done]. intros H. rewrite (IH _ _ H), (step_places _ _ _ E).
  unfold enqueued. cbn. destruct l; cbn; rewrite <- ?app_assoc; done.
Qed.

Lemma steps_inv ls : forall sv sv', steps ls sv = Some sv' -> inv sv ->
  inv sv' /\ sv_batched_mode sv' = sv_batched_mode sv /\ length (sv_slots sv') = length (sv_slots sv).
Proof.
  induction ls as [|l ls IH]; intros sv sv'; cbn [steps]; [by intros [= <-]|].
  destruct (step l sv) as [sv1|] eqn:E; [|done]. intros H Hi.
  destruct (IH _ _ H (step_inv _ _ _ Hi E)) as (? & -> & ->). destruct (step_mode _ _ _ E) as [-> ->]. done.
Qed.

(** When every worker has gone there is nothing left to do. *)
Lemma all_exited sv : inv sv -> (0 < length (sv_slots sv))%nat -> Forall (fun w => w = WExit) (sv_workers sv) ->
  places sv = sv_done sv.
Proof.
  intros Hi Hl Hw. pose proof (inv_workers sv Hi) as Hlen. rewrite Forall_lookup in Hw.
  assert (Hs : forall i s, sv_slots sv !! i = Some s -> sl_assigned s = None).
  { intros i s Hs. destruct (sv_batched_mode sv) eqn:Hb; [|by eapply unbatched_assigned].
    destruct (lookup_lt_is_Some_2 (sv_workers sv) i) as [w Hi']; [rewrite Hlen; by eapply lookup_lt_Some|].
    pose proof (inv_slots sv Hi i s w Hs Hi') as Hok. unfold slot_ok in Hok. rewrite Hb, (Hw _ _ Hi') in Hok. apply Hok. }
  assert (Hq : sv_queue sv = []).
  { destruct (lookup_lt_is_Some_2 (sv_slots sv) 0 Hl) as [s Hs0].
    destruct (lookup_lt_is_Some_2 (sv_workers sv) 0) as [w Hi'].
    { rewrite Hlen. destruct (sv_batched_mode sv); lia. }
    pose proof (inv_slots sv Hi 0%nat s w Hs0 Hi') as Hok. unfold slot_ok in Hok. rewrite (Hw _ _ Hi') in Hok.
    destruct (sv_batched_mode sv); naive_solver. }
  assert (Ha : assigned_jobs (sv_slots sv) = []).
  { unfold assigned_jobs. generalize Hs. clear. induction (sv_slots sv) as [|s ss IH]; intros Hs; [done|]. cbn.
    rewrite (Hs 0%nat s eq_refl). apply IH. intros i t. apply (Hs (S i)). }
  assert (Hr : omap running_job (sv_workers sv) = []).
  { generalize Hw. clear. induction (sv_workers sv) as [|w ws IH]; intros Hw; [done|]. cbn.
    rewrite (Hw 0%nat w eq_refl). apply IH. intros i t. apply (Hw (S i)). }
  unfold places. by rewrite Hq, Ha, Hr.
Qed.

(** Where the dispatcher puts a job. *)
Lemma dispatch_loop_affinity fuel : forall slots queue i s s', let '(slots', _) := dispatch_loop fuel slots queue in
  slots !! i = Some s -> slots' !! i = Some s' ->
  s' = s \/ exists j, s' = assign_slot s j /\ j ∈ queue /\ free_for i s (job_required_slot_locked slots j).
Proof.
  induction fuel as [|fuel IH]; intros slots queue i s s'; cbn [dispatch_loop]; [intros; left; congruence|].
  pose proof (choose_job_spec slots queue 0) as Hs.
  destruct (choose_job slots queue 0) as [[[n j] b]|] eqn:E; [|intros; left; congruence].
  destruct Hs as (_ & Hq & Hb & _). rewrite Nat.sub_0_r in Hq. apply best_slot_Some in Hb as (t & Ht & Hf).
  destruct (dispatch_loop _ _ _) as [slots' queue'] eqn:El. intros Hi Hi'.
  destruct (decide (b = i)) as [->|Hne].
  - rewrite Ht in Hi. injection Hi as ->.
    specialize (IH (alter (fun s => assign_slot s j) i slots) (delete n queue) i (assign_slot s j) s').
    rewrite El in IH. rewrite list_lookup_alter_eq, Ht in IH. destruct (IH eq_refl Hi') as [->|(k & _ & _ & Hbusy & _)]; [|done].
    right. exists j. split_and!; [done | by eapply list_elem_of_lookup_2 | done].
  - specialize (IH (alter (fun s => assign_slot s j) b slots) (delete n queue) i s s').
    rewrite El, list_lookup_alter_ne in IH by done. destruct (IH Hi Hi') as [->|(k & -> & Hk & Hfk)]; [by left|].
    right. exists k. split_and!; [done | by eapply elem_of_sublist; [|apply sublist_delete] | by rewrite required_assign in Hfk].
Qed.

Lemma required_bound slots j : forall k, job_required_slot_locked slots j = Some k -> (k < length slots)%nat.
Proof.
  unfold job_required_slot_locked. intros k.
  assert (H : forall ss i, required_loop ss (req j) i = Some k -> (k < i + length ss)%nat).
  { induction ss as [|s ss IH]; intros i; cbn; [done|]. repeat case_if; try (intros [= ->]; lia).
    intros Hk%IH. lia. }
  intros Hk%H. lia.
Qed.

(** ** Properties *)

(** C35: From start-up, over any sequence of the threads' atomic sections in
    which no job object is enqueued twice, every accepted job is in exactly one
    place: queued, assigned to one slot, run by one worker, or completed once.
    When every worker has ended, all accepted jobs are completed. *)
Theorem jobs_accounted batched sessions ls sv : steps ls (server_init batched sessions) = Some sv ->
  NoDup (enqueued ls) ->
  NoDup (places sv) /\ places sv ≡ₚ enqueued ls /\
  (sessions <> [] -> Forall (fun w => w = WExit) (sv_workers sv) -> sv_done sv ≡ₚ enqueued ls).
Proof.
  intros Hs Hn. destruct (server_init_inv batched sessions) as [Hi H0]. pose proof (steps_places _ _ _ Hs) as Hp.
  rewrite H0 in Hp. destruct (steps_inv _ _ _ Hs Hi) as (Hi' & _ & Hl).
  split_and!; [by rewrite Hp | done |]. intros Hne Hw. rewrite <- (all_exited sv); [done..| |done].
  rewrite Hl. cbn. rewrite length_map. destruct sessions; [done | cbn; lia].
Qed.

(** In batched mode a slot is owned by one worker at a time: while its
    worker runs a job or finishes one the slot is busy and nothing is assigned
    to it; while the worker waits the slot is busy exactly when a job is
    assigned; a worker that has ended left an idle slot, a stopping server and
    an empty queue. *)
Theorem slot_ownership sessions sv i s w : reachable true sessions sv ->
  sv_slots sv !! i = Some s -> sv_workers sv !! i = Some w ->
  match w with
  | WIdle => sl_busy s = true <-> sl_assigned s <> None
  | WRun _ | WDone => sl_busy s = true /\ sl_assigned s = None
  | WExit => sl_busy s = false /\ sl_assigned s = None /\ sv_stopping sv = true /\ sv_queue sv = []
  end.
Proof.
  intros Hr Hs Hw. destruct (reachable_inv _ _ _ Hr) as (Hi & _ & Hb & _).
  pose proof (inv_slots sv Hi i s w Hs Hw) as Hok. unfold slot_ok in Hok. by rewrite Hb in Hok.
Qed.

(** The dispatcher changes a slot only by giving it a queued job while it is
    free, never a job whose continuation lives in another slot; afterwards no
    queued job has a free slot it could run in, and the jobs that stay keep
    their order. *)
Theorem dispatch_correct sv (Hb : sv_batched_mode sv = true) : let sv' := dispatch_jobs_locked sv in
  (forall i s s', sv_slots sv !! i = Some s -> sv_slots sv' !! i = Some s' ->
    s' = s \/ exists j, s' = assign_slot s j /\ j ∈ sv_queue sv /\ free_for i s (job_required_slot_locked (sv_slots sv) j)) /\
  (forall j i s, j ∈ sv_queue sv' -> sv_slots sv' !! i = Some s ->
    ~ free_for i s (job_required_slot_locked (sv_slots sv') j)) /\
  sv_queue sv' `sublist_of` sv_queue sv /\
  sv_queue sv' ++ assigned_jobs (sv_slots sv') ≡ₚ sv_queue sv ++ assigned_jobs (sv_slots sv).
Proof.
  intros sv'. destruct (dispatch_spec sv Hb) as [[_ _ Hq Hp _] Hquiet]. split_and!; [| |done|done].
  - intros i s s' Hs. subst sv'. unfold dispatch_jobs_locked. rewrite Hb. cbn [negb set_slots_queue sv_slots].
    pose proof (dispatch_loop_affinity (length (sv_queue sv)) (sv_slots sv) (sv_queue sv) i s s') as Ha.
    destruct (dispatch_loop _ _ _). cbn. by apply Ha.
  - intros j i s Hj Hs. apply (proj1 (best_slot_None _ _) (Hquiet j Hj) i s Hs).
Qed.

(** A request that goes on from calls that one slot remembers. *)
Definition continues (r : request) : bool := rq_responses_requires r || rq_anthropic_requires r.

Lemma free_request slots j : continues (req j) = false -> job_required_slot_locked slots j = None.
Proof.
  unfold continues, job_required_slot_locked. intros [H1 H2]%orb_false_iff. generalize 0%nat.
  induction slots as [|s slots IH]; intros i; cbn [required_loop]; [done|]. rewrite H1, H2. apply IH.
Qed.

(** From some moment on, the slot that a waiting job must have stays the same. *)
Definition settles (sg : nat -> server) (j : nat) : Prop :=
  exists r n0, forall m, (n0 <= m)%nat -> j ∈ sv_queue (sg m) -> job_required_slot_locked (sv_slots (sg m)) j = r.

(** C6: Every accepted job is completed, batched or not: in an infinite run in which
    workers that have something to do move on some time, a job that is queued,
    assigned or running at some moment is completed later, whatever other clients
    enqueue, cancel or stop meanwhile.  One condition is left, for batched mode and
    for a request that must continue in the slot that remembers its calls: if it
    waits for ever, the slot that it needs settles.  (The running jobs decide which
    calls a slot remembers; if the calls moved between busy slots without end, the
    job would follow them.) *)
Theorem accepted_job_completes batched sessions sg lb j n : trace batched sessions sg lb -> fair sg lb -> sessions <> [] ->
  (batched = true -> continues (req j) = true -> settles sg j) ->
  j ∈ places (sg n) -> exists m, (n <= m)%nat /\ j ∈ sv_done (sg m).
Proof.
  intros Ht Hfair Hne Hset Hj. destruct batched; [|by eapply single_completes].
  assert (Hs : settles sg j).
  { destruct (continues (req j)) eqn:Ec; [by apply Hset|]. exists None, 0%nat. intros m _ _. by apply free_request. }
  clear Hset. destruct Hs as (r & n0 & Hr).
  set (k := Nat.max n n0). pose proof (run_places true sessions sg lb Ht n k j ltac:(lia) Hj) as Hjk.
  destruct (decide (j ∈ sv_queue (sg k))) as [Hq|Hq].
  - destruct (sched_run_inv true sessions sg lb Ht k) as (_ & _ & _ & Hl). pose proof (Hr k ltac:(lia) Hq) as Hrk.
    destruct (queued_completes sessions sg lb Ht Hfair j (default 0%nat r) k) as (m & Hm & Hd); [|done| |exists m; split; [lia|done]].
    + destruct r as [x|]; cbn; [|destruct sessions; [done | cbn; lia]]. rewrite <- Hl. by eapply required_bound.
    + intros m Hm Hqm. rewrite (Hr m) by (lia || done). unfold waits_for. by intros x ->.
  - destruct (dispatched_completes sessions sg lb Ht Hfair k j Hjk Hq) as (m & Hm & Hd). exists m. split; [lia|done].
Qed.
End Scheduler.

(** ** Concrete runs *)

#[export] Instance token_count_ops : SessionOps nat := {
  session_pos s := Z.of_nat s;
  session_vision_prefix_matches _ _ := true;
  session_common_prefix s _ := Z.of_nat s;
  session_pos_nonneg s := Zle_0_nat s;
  session_common_nonneg s _ := Zle_0_nat s
}.

Definition plain_request : nat -> request := fun _ => Request true API_OPENAI None [] [] None false [] None false [] None.

(** One slot, two jobs, then the server stops. *)
Definition two_jobs : list (label (Ses := nat)) :=
  [Enqueue 0; Enqueue 1; Take 0; Complete 0; Release 0; Take 0; Complete 0; Release 0].

Definition run_state (n : nat) : server (Ses := nat) :=
  default (server_init true [0%nat]) (steps plain_request (take n (two_jobs ++ [Stop])) (server_init true [0%nat])).

Definition run_label (n : nat) : label (Ses := nat) := nth n two_jobs Stop.

Lemma jobs_accounted_witness : exists sv,
  steps plain_request [Enqueue 0; Enqueue 1; Take 0; Cancel 1; Complete 0; Release 0; Stop; Exit 0]
    (server_init true [0%nat]) = Some sv /\ sv_done sv ≡ₚ [0; 1]%nat.
Proof.
  eexists. split; [vm_compute; reflexivity|].
  eapply (jobs_accounted plain_request true [0%nat]
    [Enqueue 0; Enqueue 1; Take 0; Cancel 1; Complete 0; Release 0; Stop; Exit 0] _); [vm_compute; reflexivity| |done|].
  - apply (bool_decide_unpack _). vm_compute. exact I.
  - cbn. by repeat constructor.
Defined.

Lemma run_reachable n : (n <= 9)%nat -> reachable plain_request true [0%nat] (run_state n).
Proof.
  intros Hn. induction n as [|n IH]; [apply R_init|]. apply (R_step _ _ _ (run_label n) (run_state n)); [apply IH; lia| |].
  - intros j. do 9 (destruct n as [|n]; [intros [= <-]; apply (bool_decide_unpack _); vm_compute; exact I || discriminate|]). lia.
  - do 9 (destruct n as [|n]; [vm_compute; reflexivity|]). lia.
Qed.

Lemma slot_ownership_witness :
  exists s, sv_slots (run_state 3) !! 0%nat = Some s /\ sl_busy s = true /\ sl_assigned s = None.
Proof.
  eexists. split; [vm_compute; reflexivity|].
  apply (slot_ownership plain_request [0%nat] (run_state 3) 0 _ (WRun 0)); [apply run_reachable; lia | vm_compute; reflexivity..].
Defined.

Lemma dispatch_correct_witness : exists s,
  sv_slots (dispatch_jobs_locked plain_request (Server true (sv_slots (run_state 0)) [WIdle] [7; 8]%nat false [] [])) !! 0%nat = Some s /\
  sl_assigned s = Some 7%nat /\
  sv_queue (dispatch_jobs_locked plain_request (Server true (sv_slots (run_state 0)) [WIdle] [7; 8]%nat false [] [])) `sublist_of` [7; 8]%nat.
Proof.
  eexists. split; [vm_compute; reflexivity|]. split; [reflexivity|].
  apply (dispatch_correct plain_request (Server true (sv_slots (run_state 0)) [WIdle] [7; 8]%nat false [] []) eq_refl).
Defined.

Lemma run_after n : run_state (9 + n) = run_state 9.
Proof. unfold run_state. by rewrite !take_ge by (cbn; lia). Qed.

Lemma run_trace : trace plain_request true [0%nat] run_state run_label.
Proof.
  split; [reflexivity| |].
  - intros n. do 9 (destruct n as [|n]; [vm_compute; reflexivity|]).
    change (step plain_request (run_label (9 + n)) (run_state (9 + n)) = Some (run_state (9 + S n))).
    rewrite !run_after. unfold run_label. rewrite nth_overflow by (cbn; lia). vm_compute. reflexivity.
  - intros n j. do 9 (destruct n as [|n]; [intros [= <-]; apply (bool_decide_unpack _); vm_compute; exact I || discriminate|]).
    unfold run_label. rewrite nth_overflow by (cbn; lia). done.
Qed.

Lemma run_fair : fair run_state run_label.
Proof.
  intros i n. exists (9 + n)%nat. split; [lia|]. left. rewrite run_after. intros [H|[H _]]; [|vm_compute in H; discriminate H].
  revert H. destruct i as [|i]; vm_compute; lia.
Qed.

Lemma accepted_job_completes_witness : exists m, (2 <= m)%nat /\ 1%nat ∈ sv_done (run_state m).
Proof.
  apply (accepted_job_completes plain_request true [0%nat] run_state run_label 1 2 run_trace run_fair); [done| |].
  - intros _ Hc. discriminate Hc.
  - apply (bool_decide_unpack _). vm_compute. exact I.
Defined.
