(* ===== verification/Executor.v ===== *)
(** * Sharing the model between slots (ds4_server.c)

    In batched mode every slot has a thread that runs its job, and one decode
    coordinator evaluates the pending tokens of all slots together.  A thread
    asks for the model to prefill ([server_prefill_enter]), or leaves a token
    with the coordinator and waits for it ([server_eval_token]).  The system is
    a transition function whose labels are the sections the threads run under
    [server.model_mu]; waiting on [model_cv] is a label that is not enabled yet.
    What the backend returns is chosen by the environment. *)

From S2P Require Import Prelude Libc.
#[local] Open Scope Z_scope.

Definition DS4_SESSION_SYNC_INTERRUPTED : Z := 2.

(** ** State *)

(** Where the thread of a slot is. *)
Inductive thread := TOut | TPrefillWait | TPrefill | TDecode | TExit.

Record xslot := XSlot {
  x_thread : thread;
  x_cancelled : bool;  (* slot_job_cancelled *)
  x_prefill_waiting : bool;
  x_decode_pending : bool;
  x_decode_in_flight : bool;
  x_decode_done : bool;
  x_decode_token : Z;
  x_decode_rc : Z }.

(** Where the coordinator is: waiting for a token, waiting for more tokens,
    waiting for the model, evaluating the tokens of [members], gone. *)
Inductive coordinator := CIdle | CCoalesce | CReady | CBatch (members : list nat) | CExit.

Record executor := Executor {
  ex_slots : list xslot;
  ex_coordinator : coordinator;
  ex_model_busy : bool;
  ex_model_stopping : bool;
  ex_decode_pending : Z;
  ex_active_generations : Z;
  ex_last_prefill_slot : nat;
  ex_stop_requested : bool }.

(** What the sections of one slot do with its tokens. *)
Inductive event :=
| Submit (token : Z)
| Evaluate (token : Z)  (* handed to the backend *)
| Finish (rc : Z)
| Withdraw
| Return (rc : Z).

Section Executor.
Context (coalesce_us : Z).

Definition set_slots (ex : executor) (slots : list xslot) : executor :=
  Executor slots (ex_coordinator ex) (ex_model_busy ex) (ex_model_stopping ex) (ex_decode_pending ex)
    (ex_active_generations ex) (ex_last_prefill_slot ex) (ex_stop_requested ex).

Definition set_xslot (ex : executor) (i : nat) (x : xslot) : executor := set_slots ex (<[i := x]> (ex_slots ex)).

Definition set_pending (ex : executor) (n : Z) : executor :=
  Executor (ex_slots ex) (ex_coordinator ex) (ex_model_busy ex) (ex_model_stopping ex) n
    (ex_active_generations ex) (ex_last_prefill_slot ex) (ex_stop_requested ex).

Definition set_coordinator (ex : executor) (c : coordinator) : executor :=
  Executor (ex_slots ex) c (ex_model_busy ex) (ex_model_stopping ex) (ex_decode_pending ex)
    (ex_active_generations ex) (ex_last_prefill_slot ex) (ex_stop_requested ex).

Definition set_busy (ex : executor) (b : bool) : executor :=
  Executor (ex_slots ex) (ex_coordinator ex) b (ex_model_stopping ex) (ex_decode_pending ex)
    (ex_active_generations ex) (ex_last_prefill_slot ex) (ex_stop_requested ex).

Definition set_generations (ex : executor) (n : Z) : executor :=
  Executor (ex_slots ex) (ex_coordinator ex) (ex_model_busy ex) (ex_model_stopping ex) (ex_decode_pending ex)
    n (ex_last_prefill_slot ex) (ex_stop_requested ex).

Definition set_thread (x : xslot) (t : thread) (waiting : bool) : xslot :=
  XSlot t (x_cancelled x) waiting (x_decode_pending x) (x_decode_in_flight x) (x_decode_done x)
    (x_decode_token x) (x_decode_rc x).

Definition set_cancelled (x : xslot) (b : bool) : xslot :=
  XSlot (x_thread x) b (x_prefill_waiting x) (x_decode_pending x) (x_decode_in_flight x) (x_decode_done x)
    (x_decode_token x) (x_decode_rc x).

(** ** Prefill *)

(** The first waiting slot after the one served last, around the ring. *)
Fixpoint next_waiting (slots : list xslot) (last n fuel : nat) : option nat :=
  match fuel with
  | O => None
  | S fuel' =>
      let id := ((last + n) mod length slots)%nat in
      match slots !! id with
      | Some x => if x_prefill_waiting x then Some id else next_waiting slots last (n + 1) fuel'
      | None => None
      end
  end.

Definition server_next_prefill_slot_locked (ex : executor) : option nat :=
  next_waiting (ex_slots ex) (ex_last_prefill_slot ex) 1 (length (ex_slots ex)).

(** [server_prefill_enter] up to its wait. *)
Definition prefill_request (ex : executor) (i : nat) : option executor :=
  match ex_slots ex !! i with
  | Some x =>
      match x_thread x with
      | TOut => if x_cancelled x then None else Some (set_xslot ex i (set_thread x TPrefillWait true))
      | _ => None
      end
  | None => None
  end.

(** The wait ends and the model is the slot's. *)
Definition prefill_grant (ex : executor) (i : nat) : option executor :=
  match ex_slots ex !! i with
  | Some x =>
      match x_thread x with
      | TPrefillWait =>
          if ex_stop_requested ex || x_cancelled x then None
          else if ex_model_busy ex || (0 <? ex_decode_pending ex) ||
                  negb (bool_decide (server_next_prefill_slot_locked ex = Some i)) then None
          else
            let slots := <[i := set_thread x TPrefill false]> (ex_slots ex) in
            Some (Executor slots (ex_coordinator ex) true (ex_model_stopping ex) (ex_decode_pending ex)
                    (ex_active_generations ex) i (ex_stop_requested ex))
      | _ => None
      end
  | None => None
  end.

Definition prefill_give_up (ex : executor) (i : nat) : option executor :=
  match ex_slots ex !! i with
  | Some x =>
      match x_thread x with
      | TPrefillWait =>
          if ex_stop_requested ex || x_cancelled x then Some (set_xslot ex i (set_thread x TOut false)) else None
      | _ => None
      end
  | None => None
  end.

Definition server_prefill_leave (ex : executor) (i : nat) : option executor :=
  match ex_slots ex !! i with
  | Some x =>
      match x_thread x with
      | TPrefill => Some (set_busy (set_xslot ex i (set_thread x TOut (x_prefill_waiting x))) false)
      | _ => None
      end
  | None => None
  end.

Definition server_prefill_quantum_for (mixed_prefill_quantum : Z) (is_glm53 generation_active : bool) : Z :=
  let quantum := if generation_active then mixed_prefill_quantum else 2048 in
  if generation_active && (quantum <? 1024) && is_glm53 then 1024 else quantum.

(** ** Decode *)

(** [None]: nothing to withdraw. *)
Definition server_cancel_pending_decode_locked (ex : executor) (i : nat) (x : xslot) : option (executor * xslot) :=
  if negb (x_decode_pending x) || x_decode_in_flight x then None
  else Some (set_pending ex (ex_decode_pending ex - 1),
             XSlot (x_thread x) (x_cancelled x) (x_prefill_waiting x) false (x_decode_in_flight x) true
               (x_decode_token x) DS4_SESSION_SYNC_INTERRUPTED).

(** The answer of [server_eval_token] to the states it refuses. *)
Inductive refusal := Interrupted | AlreadyInFlight.

Definition eval_token_refusal (ex : executor) (x : xslot) : option refusal :=
  if ex_stop_requested ex || x_cancelled x then Some Interrupted
  else if x_decode_pending x || x_decode_in_flight x then Some AlreadyInFlight
  else None.

(** [server_eval_token] up to its wait. *)
Definition eval_token_submit (ex : executor) (i : nat) (token : Z) : option (executor * list (nat * event)) :=
  match ex_slots ex !! i with
  | Some x =>
      match x_thread x, eval_token_refusal ex x with
      | TOut, None =>
          let x' := XSlot TDecode (x_cancelled x) (x_prefill_waiting x) true (x_decode_in_flight x) false token 1 in
          Some (set_pending (set_xslot ex i x') (ex_decode_pending ex + 1), [(i, Submit token)])
      | _, _ => None
      end
  | None => None
  end.

(** The end of [server_eval_token]: the result, and the slot is ready again. *)
Definition eval_token_return (ex : executor) (i : nat) (x : xslot) : executor * Z :=
  let rc := x_decode_rc x in
  let rc := if ex_stop_requested ex && (rc =? 0) then DS4_SESSION_SYNC_INTERRUPTED else rc in
  (set_xslot ex i (XSlot TOut (x_cancelled x) (x_prefill_waiting x) (x_decode_pending x) (x_decode_in_flight x)
     false (x_decode_token x) (x_decode_rc x)), rc).

(** A turn of the wait in [server_eval_token]. *)
Definition eval_token_wake (ex : executor) (i : nat) : option (executor * list (nat * event)) :=
  match ex_slots ex !! i with
  | Some x =>
      match x_thread x with
      | TDecode =>
          if x_decode_done x then
            let '(ex', rc) := eval_token_return ex i x in Some (ex', [(i, Return rc)])
          else if x_cancelled x || ex_stop_requested ex then
            match server_cancel_pending_decode_locked ex i x with
            | Some (ex', x') =>
                let '(ex'', rc) := eval_token_return (set_xslot ex' i x') i x' in
                Some (ex'', [(i, Withdraw); (i, Return rc)])
            | None => None
            end
          else None
      | _ => None
      end
  | None => None
  end.

(** The part of [server_cancel_job] under [model_mu], for the slot that runs the job. *)
Definition cancel_running (ex : executor) (i : nat) : option (executor * list (nat * event)) :=
  match ex_slots ex !! i with
  | Some x =>
      if negb (x_cancelled x) then None
      else
        match server_cancel_pending_decode_locked ex i x with
        | Some (ex', x') => Some (set_xslot ex' i x', [(i, Withdraw)])
        | None => Some (ex, [])
        end
  | None => None
  end.

(** ** The coordinator *)

(** Its outer wait ends. *)
Definition coordinator_wake (ex : executor) : option executor :=
  match ex_coordinator ex with
  | CIdle =>
      if (ex_decode_pending ex =? 0) && negb (ex_model_stopping ex) then None
      else if (ex_decode_pending ex =? 0) && ex_model_stopping ex then Some (set_coordinator ex CExit)
      else if (0 <? coalesce_us) && (ex_decode_pending ex <? zlen (ex_slots ex)) then Some (set_coordinator ex CCoalesce)
      else Some (set_coordinator ex CReady)
  | _ => None
  end.

(** The coalescing wait ends, by its condition or by the deadline. *)
Definition coordinator_coalesced (ex : executor) (timeout : bool) : option executor :=
  match ex_coordinator ex with
  | CCoalesce =>
      if negb timeout && negb (ex_model_stopping ex) && (ex_decode_pending ex <? zlen (ex_slots ex)) &&
         (ex_decode_pending ex <? ex_active_generations ex) then None
      else Some (set_coordinator ex CReady)
  | _ => None
  end.

(** Take every pending token: the members, the slots, the items. *)
Fixpoint collect (slots : list xslot) (i : nat) : list nat * list xslot * list (nat * Z) :=
  match slots with
  | [] => ([], [], [])
  | x :: slots' =>
      let '(members, rest, items) := collect slots' (i + 1) in
      if x_decode_pending x then
        (i :: members,
         XSlot (x_thread x) (x_cancelled x) (x_prefill_waiting x) false true (x_decode_done x) (x_decode_token x)
           (x_decode_rc x) :: rest,
         (i, x_decode_token x) :: items)
      else (members, x :: rest, items)
  end.

Definition coordinator_start (ex : executor) : option (executor * list (nat * event)) :=
  match ex_coordinator ex with
  | CReady =>
      if ex_model_busy ex then None
      else if ex_model_stopping ex && (ex_decode_pending ex =? 0) then Some (set_coordinator ex CExit, [])
      else
        let '(members, slots, items) := collect (ex_slots ex) 0 in
        match members with
        | [] => Some (set_coordinator ex CIdle, [])
        | _ =>
            Some (set_busy (set_coordinator (set_pending (set_slots ex slots) (ex_decode_pending ex - zlen members))
                              (CBatch members)) true,
                  map (fun '(i, token) => (i, Evaluate token)) items)
        end
  | _ => None
  end.

Definition finish_slot (rc : Z) (x : xslot) : xslot :=
  XSlot (x_thread x) (x_cancelled x) (x_prefill_waiting x) (x_decode_pending x) false true (x_decode_token x) rc.

Definition coordinator_finish (ex : executor) (rc : Z) : option (executor * list (nat * event)) :=
  match ex_coordinator ex with
  | CBatch members =>
      Some (set_coordinator (set_busy (set_slots ex (foldl (fun slots i => alter (finish_slot rc) i slots) (ex_slots ex) members)) false) CIdle,
            map (fun i => (i, Finish rc)) members)
  | _ => None
  end.

(** ** The sections as one system *)

Inductive label :=
| PrefillRequest (i : nat)
| PrefillGrant (i : nat)
| PrefillGiveUp (i : nat)
| PrefillLeave (i : nat)
| DecodeSubmit (i : nat) (token : Z)
| DecodeWake (i : nat)
| CancelRunning (i : nat)
| MarkCancelled (i : nat)
| NewJob (i : nat)  (* the slot goes on to a job that is not cancelled *)
| ThreadExit (i : nat)
| GenerationEnter
| GenerationLeave
| StopRequested
| DecodeStop  (* server_request_decode_stop, after every slot thread was joined *)
| CoordinatorWake
| Coalesced (timeout : bool)
| Start
| Finished (rc : Z).

Definition on_slot (ex : executor) (i : nat) (f : xslot -> option xslot) : option executor :=
  match ex_slots ex !! i with
  | Some x => match f x with Some x' => Some (set_xslot ex i x') | None => None end
  | None => None
  end.

Definition quiet (r : option executor) : option (executor * list (nat * event)) :=
  match r with Some ex => Some (ex, []) | None => None end.

Definition step (l : label) (ex : executor) : option (executor * list (nat * event)) :=
  match l with
  | PrefillRequest i => quiet (prefill_request ex i)
  | PrefillGrant i => quiet (prefill_grant ex i)
  | PrefillGiveUp i => quiet (prefill_give_up ex i)
  | PrefillLeave i => quiet (server_prefill_leave ex i)
  | DecodeSubmit i token => eval_token_submit ex i token
  | DecodeWake i => eval_token_wake ex i
  | CancelRunning i => cancel_running ex i
  | MarkCancelled i => quiet (on_slot ex i (fun x => Some (set_cancelled x true)))
  | NewJob i =>
      quiet (on_slot ex i (fun x => match x_thread x with TOut => Some (set_cancelled x false) | _ => None end))
  | ThreadExit i =>
      quiet (on_slot ex i (fun x =>
        match x_thread x with TOut => Some (set_thread x TExit (x_prefill_waiting x)) | _ => None end))
  | GenerationEnter => quiet (Some (set_generations ex (ex_active_generations ex + 1)))
  | GenerationLeave =>
      quiet (Some (if 0 <? ex_active_generations ex then set_generations ex (ex_active_generations ex - 1) else ex))
  | StopRequested =>
      quiet (Some (Executor (ex_slots ex) (ex_coordinator ex) (ex_model_busy ex) (ex_model_stopping ex)
        (ex_decode_pending ex) (ex_active_generations ex) (ex_last_prefill_slot ex) true))
  | DecodeStop =>
      quiet (if forallb (fun x => match x_thread x with TExit => true | _ => false end) (ex_slots ex)
             then Some (Executor (ex_slots ex) (ex_coordinator ex) (ex_model_busy ex) true (ex_decode_pending ex)
                          (ex_active_generations ex) (ex_last_prefill_slot ex) (ex_stop_requested ex))
             else None)
  | CoordinatorWake => quiet (coordinator_wake ex)
  | Coalesced timeout => quiet (coordinator_coalesced ex timeout)
  | Start => coordinator_start ex
  | Finished rc => coordinator_finish ex rc
  end.

(** [main]: all slots idle, the round robin starts at slot 0. *)
Definition executor_init (slot_count : nat) : executor :=
  Executor (replicate slot_count (XSlot TOut false false false false false 0 0)) CIdle false false 0 0
    (slot_count - 1) false.

Fixpoint steps (ls : list label) (ex : executor) : option (executor * list (nat * event)) :=
  match ls with
  | [] => Some (ex, [])
  | l :: ls' =>
      match step l ex with
      | Some (ex1, evs) =>
          match steps ls' ex1 with Some (ex2, evs') => Some (ex2, evs ++ evs') | None => None end
      | None => None
      end
  end.

(** ** What one slot's calls look like *)

Inductive call := NoCall | Pending (token : Z) | InFlight (token : Z) | Done (rc : Z).

(** The contract of [server_eval_token]: a token is left, then either handed to
    the backend, which answers, or withdrawn; then the call returns that answer
    (or that it was interrupted by the shutdown). *)
Definition call_step (c : call) (e : event) : option call :=
  match c, e with
  | NoCall, Submit token => Some (Pending token)
  | Pending token, Evaluate token' => if token =? token' then Some (InFlight token) else None
  | Pending _, Withdraw => Some (Done DS4_SESSION_SYNC_INTERRUPTED)
  | InFlight _, Finish rc => Some (Done rc)
  | Done rc, Return rc' =>
      if (rc' =? rc) || (rc =? 0) && (rc' =? DS4_SESSION_SYNC_INTERRUPTED) then Some NoCall else None
  | _, _ => None
  end.

Fixpoint call_run (c : call) (es : list event) : option call :=
  match es with
  | [] => Some c
  | e :: es' => match call_step c e with Some c' => call_run c' es' | None => None end
  end.

Definition events_of (i : nat) (evs : list (nat * event)) : list event :=
  omap (fun p => if (fst p =? i)%nat then Some (snd p) else None) evs.

Definition call_of (x : xslot) : call :=
  match x_thread x with
  | TDecode =>
      if x_decode_pending x then Pending (x_decode_token x)
      else if x_decode_in_flight x then InFlight (x_decode_token x)
      else Done (x_decode_rc x)
  | _ => NoCall
  end.

(** ** The invariant *)

Definition b2n (b : bool) : nat := if b then 1 else 0.
Definition count_if {A} (f : A -> bool) (l : list A) : nat := length (List.filter f l).
#[local] Arguments count_if : simpl never.

Definition is_prefill (x : xslot) : bool := match x_thread x with TPrefill => true | _ => false end.

Definition members_of (ex : executor) : list nat := match ex_coordinator ex with CBatch m => m | _ => [] end.

Definition in_batch (ex : executor) : bool := match ex_coordinator ex with CBatch _ => true | _ => false end.

(** The flags that go with a thread. *)
Definition x_ok (x : xslot) : Prop :=
  match x_thread x with
  | TPrefillWait => x_prefill_waiting x = true /\ x_decode_pending x = false /\ x_decode_in_flight x = false /\ x_decode_done x = false
  | TDecode =>
      x_prefill_waiting x = false /\
      (b2n (x_decode_pending x) + b2n (x_decode_in_flight x) + b2n (x_decode_done x) = 1)%nat
  | _ => x_prefill_waiting x = false /\ x_decode_pending x = false /\ x_decode_in_flight x = false /\ x_decode_done x = false
  end.

Record inv (ex : executor) : Prop := {
  iv_slots : forall i x, ex_slots ex !! i = Some x -> x_ok x /\ (x_decode_in_flight x = true <-> i ∈ members_of ex);
  iv_members : NoDup (members_of ex) /\ forall i, i ∈ members_of ex -> (i < length (ex_slots ex))%nat;
  iv_pending : ex_decode_pending ex = Z.of_nat (count_if x_decode_pending (ex_slots ex));
  iv_busy : (count_if is_prefill (ex_slots ex) + b2n (in_batch ex) = b2n (ex_model_busy ex))%nat;
  iv_stopping : ex_model_stopping ex = true -> forall i x, ex_slots ex !! i = Some x -> x_thread x = TExit;
  iv_exit : ex_coordinator ex = CExit -> ex_model_stopping ex = true
}.

Lemma count_if_insert {A} (f : A -> bool) l i x y : l !! i = Some x ->
  (count_if f (<[i := y]> l) + b2n (f x) = count_if f l + b2n (f y))%nat.
Proof.
  unfold count_if. revert i. induction l as [|z l IH]; intros [|i] Hi; try done.
  - injection Hi as ->. cbn. destruct (f x), (f y); cbn; lia.
  - specialize (IH i Hi). change (<[S i := y]> (z :: l)) with (z :: <[i := y]> l). cbn [List.filter]. destruct (f z); cbn [length]; lia.
Qed.

Lemma count_if_pos {A} (f : A -> bool) l i x : l !! i = Some x -> f x = true -> (0 < count_if f l)%nat.
Proof.
  unfold count_if. revert i. induction l as [|z l IH]; intros [|i] Hi Hf; try done; cbn.
  - injection Hi as ->. rewrite Hf. cbn. lia.
  - specialize (IH i Hi Hf). destruct (f z); cbn; lia.
Qed.

Lemma count_if_ex {A} (f : A -> bool) l : (0 < count_if f l)%nat -> exists i x, l !! i = Some x /\ f x = true.
Proof.
  unfold count_if. induction l as [|z l IH]; cbn; [lia|]. destruct (f z) eqn:E; [intros _; by exists 0%nat, z|].
  intros H. destruct (IH H) as (i & x & Hx & Hf). by exists (S i), x.
Qed.

Lemma count_if_zero {A} (f : A -> bool) l i x : count_if f l = 0%nat -> l !! i = Some x -> f x = false.
Proof. intros H Hi. destruct (f x) eqn:E; [|done]. pose proof (count_if_pos f l i x Hi E). lia. Qed.

(** A section that touches one slot. *)
Record slot_update (ex ex' : executor) (i : nat) (x x' : xslot) : Prop := {
  su_old : ex_slots ex !! i = Some x;
  su_slots : ex_slots ex' = <[i := x']> (ex_slots ex);
  su_coordinator : ex_coordinator ex' = ex_coordinator ex;
  su_stopping : ex_model_stopping ex' = ex_model_stopping ex;
  su_pending : ex_decode_pending ex' = ex_decode_pending ex - Z.of_nat (b2n (x_decode_pending x)) + Z.of_nat (b2n (x_decode_pending x'));
  su_busy : (b2n (ex_model_busy ex') + b2n (is_prefill x) = b2n (ex_model_busy ex) + b2n (is_prefill x'))%nat;
  su_ok : x_ok x';
  su_in_flight : x_decode_in_flight x' = x_decode_in_flight x;
  su_exit : x_thread x = TExit -> x_thread x' = TExit
}.

Lemma slot_update_inv ex ex' i x x' : inv ex -> slot_update ex ex' i x x' -> inv ex'.
Proof.
  intros [Hs Hm Hp Hb Hst He] [Ho Hs' Hc Hst' Hp' Hb' Hok Hif Hex].
  assert (Hmem : members_of ex' = members_of ex) by (unfold members_of; by rewrite Hc).
  split.
  - intros k y Hy. rewrite Hmem. rewrite Hs' in Hy. destruct (decide (i = k)) as [->|Hne].
    + rewrite list_lookup_insert_eq in Hy by (by eapply lookup_lt_Some). injection Hy as <-. split; [done|].
      rewrite Hif. by apply (Hs k x).
    + rewrite list_lookup_insert_ne in Hy by done. by apply Hs.
  - by rewrite Hmem, Hs', length_insert.
  - rewrite Hp', Hs', Hp. pose proof (count_if_insert x_decode_pending _ i x x' Ho). lia.
  - rewrite Hs'. pose proof (count_if_insert is_prefill _ i x x' Ho). unfold in_batch in *. rewrite Hc. lia.
  - rewrite Hst', Hs'. intros Hstop k y Hy. destruct (decide (i = k)) as [->|Hne].
    + rewrite list_lookup_insert_eq in Hy by (by eapply lookup_lt_Some). injection Hy as <-. by apply Hex, (Hst Hstop k).
    + rewrite list_lookup_insert_ne in Hy by done. by apply (Hst Hstop k).
  - by rewrite Hc, Hst'.
Qed.

(** The sections of the slots' threads are such updates, and their events are
    those of a call. *)
Definition slot_section (l : label) : option nat :=
  match l with
  | PrefillRequest i | PrefillGrant i | PrefillGiveUp i | PrefillLeave i | DecodeSubmit i _ | DecodeWake i
  | CancelRunning i | MarkCancelled i | NewJob i | ThreadExit i => Some i
  | _ => None
  end.

#[local] Ltac step_cases :=
  repeat match goal with
  | H : None = Some _ |- _ => discriminate H
  | H : match ?x with _ => _ end = Some _ |- _ => destruct x eqn:?
  | H : Some _ = Some _ |- _ => injection H as H; subst
  | H : (_, _) = (_, _) |- _ => injection H as H; subst
  end.

#[local] Ltac update_cases :=
  cbn in *;
  repeat match goal with
  | H : _ /\ _ |- _ => destruct H
  | H : true = true -> _ |- _ => specialize (H eq_refl)
  end; subst; cbn in *; try discriminate; try lia; try tauto.

Lemma slot_section_update l ex ex' evs i : inv ex -> slot_section l = Some i -> step l ex = Some (ex', evs) ->
  exists x x' es, slot_update ex ex' i x x' /\ evs = map (fun e => (i, e)) es /\
    call_run (call_of x) es = Some (call_of x').
Proof.
  intros [Hs _ _ Hb _ _] Hi Hstep.
  assert (Hq : forall r, quiet r = Some (ex', evs) -> r = Some ex' /\ evs = []).
  { intros [e|] H; [by injection H as -> -> | done]. }
  destruct l as [k|k|k|k|k token|k|k|k|k|k| | | | | | | |]; try discriminate Hi; injection Hi as ->; cbn [step] in Hstep;
    try (apply Hq in Hstep as [Hstep ->]); clear Hq;
    unfold prefill_request, prefill_grant, prefill_give_up, server_prefill_leave, eval_token_submit, eval_token_refusal,
      eval_token_wake, eval_token_return, cancel_running, on_slot, server_cancel_pending_decode_locked in Hstep;
    (destruct (ex_slots ex !! i) as [x|] eqn:Ex; [|discriminate Hstep]); specialize (Hs i x Ex) as [Hok _];
    pose proof (count_if_pos is_prefill _ i x Ex) as Hpos;
    destruct x as [th ca wa pe fl dn tk rc]; unfold x_ok in Hok; cbn [x_thread x_cancelled x_prefill_waiting
      x_decode_pending x_decode_in_flight x_decode_done x_decode_token x_decode_rc] in *; step_cases.
  all: match goal with
    | |- context [?evs = map _ _] =>
        let es := eval cbn in (map snd evs) in
        eexists _, _, es; split; [split; [exact Ex | cbn; first [rewrite ?list_insert_insert_eq; reflexivity | symmetry; apply list_insert_id; exact Ex] | reflexivity | reflexivity |..]|split; [reflexivity|]]
    end; unfold x_ok, is_prefill, call_of in *; cbn -[Z.of_nat] in *; try done; bool_prop;
    repeat match goal with H : _ /\ _ |- _ => destruct H end; subst; cbn -[Z.of_nat] in *; try done; try lia.
  - by destruct (ex_model_busy ex).
  - specialize (Hpos eq_refl). destruct (ex_model_busy ex); cbn in *; lia.
  - by destruct pe, fl.
  - destruct pe, fl; try (cbn in *; lia). cbn. destruct (ex_stop_requested ex); cbn; [|by rewrite Z.eqb_refl].
    destruct (Z.eqb_spec rc 0) as [->|]; cbn; [done|by rewrite Z.eqb_refl].
  - by rewrite andb_false_r.
  - destruct th; naive_solver.
  - destruct th; naive_solver.
Qed.

(** What the coordinator collects: the pending slots, in order. *)
Definition taken (x : xslot) : xslot :=
  if x_decode_pending x then
    XSlot (x_thread x) (x_cancelled x) (x_prefill_waiting x) false true (x_decode_done x) (x_decode_token x)
      (x_decode_rc x)
  else x.

Lemma collect_spec slots : forall i, let '(members, rest, items) := collect slots i in
  rest = map taken slots /\ length members = count_if x_decode_pending slots /\ members = map fst items /\
    NoDup members /\
    (forall k token, (k, token) ∈ items <-> exists x, (i <= k)%nat /\ slots !! (k - i)%nat = Some x /\
    x_decode_pending x = true /\ token = x_decode_token x).
Proof.
  induction slots as [|x slots IH]; intros i; cbn [collect].
  { split_and!; try done; [constructor|]. intros k token. split; [by intros ?%elem_of_nil | by intros (? & _ & ? & _)]. }
  specialize (IH (i + 1)%nat). destruct (collect slots (i + 1)) as [[members rest] items].
  destruct IH as (-> & Hl & -> & Hn & Hin).
  assert (Hrest : forall k token, (k, token) ∈ items <-> exists y, (i <= k)%nat /\ k <> i /\ (x :: slots) !! (k - i)%nat = Some y /\
    x_decode_pending y = true /\ token = x_decode_token y).
  { intros k token. rewrite Hin. split; intros (y & Hk & Hy).
    - exists y. replace (k - i)%nat with (S (k - (i + 1))) by lia. split_and!; try lia; apply Hy.
    - destruct Hy as (Hne & Hy). exists y. replace (k - i)%nat with (S (k - (i + 1))) in Hy by lia. split; [lia | exact Hy]. }
  assert (Hfst : forall k, k ∈ map fst items -> k <> i).
  { intros k Hk. apply list_elem_of_In, in_map_iff in Hk as ([k' token] & <- & Hk%list_elem_of_In).
    apply Hrest in Hk as (_ & _ & Hne & _). exact Hne. }
  unfold count_if in *. cbn [map List.filter]. destruct (x_decode_pending x) eqn:Ep; cbn [length map fst].
  - split_and!; [f_equal; unfold taken; by rewrite Ep | by rewrite Hl | done | constructor; [|done] |].
    + intros Hi. by apply (Hfst i).
    + intros k token. rewrite elem_of_cons, Hrest. split.
      * intros [[= -> ->]|(y & H1 & _ & H2)]; [|by exists y]. exists x. by rewrite Nat.sub_diag.
      * intros (y & H1 & H2 & H3 & H4). destruct (decide (k = i)) as [->|]; [left|right; by exists y].
        rewrite Nat.sub_diag in H2. injection H2 as <-. by subst.
  - split_and!; [f_equal; unfold taken; by rewrite Ep | done | done | done |]. intros k token. rewrite Hrest. split.
    + intros (y & H1 & _ & H2). by exists y.
    + intros (y & H1 & H2 & H3 & H4). exists y. split_and!; try done. intros ->. rewrite Nat.sub_diag in H2. injection H2 as <-. congruence.
Qed.

Lemma foldl_alter_lookup {A} (f : A -> A) l (xs : list A) : NoDup l -> forall i,
  foldl (fun xs i => alter f i xs) xs l !! i = if decide (i ∈ l) then f <$> (xs !! i) else xs !! i.
Proof.
  revert xs. induction l as [|k l IH]; intros xs Hn i; cbn; [by rewrite decide_False by apply not_elem_of_nil|].
  apply NoDup_cons in Hn as [Hk Hn]. rewrite IH by done. destruct (decide (k = i)) as [->|Hne].
  - rewrite decide_False by done. rewrite decide_True by set_solver. by rewrite list_lookup_alter_eq.
  - rewrite list_lookup_alter_ne by done. destruct (decide (i ∈ l)); [rewrite decide_True by set_solver|rewrite decide_False by set_solver]; done.
Qed.

Lemma foldl_alter_length {A} (f : A -> A) l (xs : list A) : length (foldl (fun xs i => alter f i xs) xs l) = length xs.
Proof. revert xs. induction l as [|k l IH]; intros xs; cbn; [done|]. by rewrite IH, length_alter. Qed.

Lemma count_if_map {A} (f : A -> bool) (g : A -> A) l : (forall x, f (g x) = f x) -> count_if f (map g l) = count_if f l.
Proof. intros H. unfold count_if. induction l as [|x l IH]; cbn; [done|]. rewrite H. by destruct (f x); cbn; rewrite IH. Qed.

Lemma count_if_false {A} (f : A -> bool) l : (forall i x, l !! i = Some x -> f x = false) -> count_if f l = 0%nat.
Proof.
  unfold count_if. induction l as [|x l IH]; intros H; [done|]. cbn. rewrite (H 0%nat x eq_refl). apply IH.
  intros i y. apply (H (S i)).
Qed.

Lemma count_if_foldl_alter {A} (f : A -> bool) (g : A -> A) l : (forall x, f (g x) = f x) -> forall xs,
  count_if f (foldl (fun xs i => alter g i xs) xs l) = count_if f xs.
Proof.
  intros H. induction l as [|k l IH]; intros xs; cbn [foldl]; [done|]. rewrite IH. destruct (xs !! k) as [x|] eqn:Ek.
  - assert (alter g k xs = <[k := g x]> xs) as ->
      by (rewrite list_insert_alter; apply list_alter_ext; [intros y Hy; congruence | done]).
    pose proof (count_if_insert f xs k x (g x) Ek) as Hc. rewrite H in Hc. lia.
  - f_equal. trans (alter id k xs); [apply list_alter_ext; [intros x Hx; congruence | done] | by apply list_alter_id].
Qed.

Lemma events_of_section i k es : events_of k (map (fun e => (i, e)) es) = if decide (i = k) then es else [].
Proof.
  unfold events_of. induction es as [|e es IH]; cbn; [by destruct (decide _)|]. rewrite IH.
  destruct (Nat.eqb_spec i k), (decide (i = k)); done.
Qed.

Lemma events_of_none i ps : i ∉ map fst ps -> events_of i ps = [].
Proof.
  unfold events_of. induction ps as [|[k e] ps IH]; intros H; [done|]. cbn in *. apply not_elem_of_cons in H as [Hne H].
  destruct (Nat.eqb_spec k i); [congruence | by apply IH].
Qed.

Lemma events_of_one i e ps : NoDup (map fst ps) -> (i, e) ∈ ps -> events_of i ps = [e].
Proof.
  induction ps as [|[k e'] ps IH]; intros Hn Hin; [by apply elem_of_nil in Hin|]. cbn in Hn. apply NoDup_cons in Hn as [Hk Hn].
  unfold events_of. cbn. apply elem_of_cons in Hin as [[= <- <-]|Hin].
  - rewrite Nat.eqb_refl. f_equal. by apply events_of_none.
  - destruct (Nat.eqb_spec k i) as [->|]; [|by apply IH]. destruct Hk. apply list_elem_of_In, in_map_iff.
    exists (i, e). split; [done | by apply list_elem_of_In].
Qed.

(** What every section guarantees: the invariant, and for each slot a step of
    its call. *)
Definition sound (ex ex' : executor) (evs : list (nat * event)) : Prop :=
  inv ex' /\ length (ex_slots ex') = length (ex_slots ex) /\
  forall i x, ex_slots ex !! i = Some x -> exists x', ex_slots ex' !! i = Some x' /\
    call_run (call_of x) (events_of i evs) = Some (call_of x').

Lemma sound_update ex ex' i x x' es : inv ex -> slot_update ex ex' i x x' ->
  call_run (call_of x) es = Some (call_of x') -> sound ex ex' (map (fun e => (i, e)) es).
Proof.
  intros Hi Hu Hc. split_and!; [by eapply slot_update_inv | by rewrite (su_slots _ _ _ _ _ Hu), length_insert|].
  intros k y Hy. rewrite (su_slots _ _ _ _ _ Hu), events_of_section. pose proof (su_old _ _ _ _ _ Hu) as Ho.
  destruct (decide (i = k)) as [->|Hne].
  - exists x'. rewrite list_lookup_insert_eq by (by eapply lookup_lt_Some). split; [done|]. congruence.
  - exists y. by rewrite list_lookup_insert_ne.
Qed.

(** A section that leaves the slots alone. *)
Lemma sound_same ex ex' : inv ex -> ex_slots ex' = ex_slots ex -> members_of ex' = members_of ex ->
  in_batch ex' = in_batch ex -> ex_decode_pending ex' = ex_decode_pending ex -> ex_model_busy ex' = ex_model_busy ex ->
  (ex_model_stopping ex' = true -> ex_model_stopping ex = true \/ forall i x, ex_slots ex !! i = Some x -> x_thread x = TExit) ->
  (ex_coordinator ex' = CExit -> ex_model_stopping ex' = true) -> sound ex ex' [].
Proof.
  intros [Hs Hm Hp Hb Hst He] E1 E2 E3 E4 E5 Hst' He'. split_and!; [|by rewrite E1|].
  - split; rewrite ?E1, ?E2, ?E3, ?E4, ?E5; try done. intros H i x Hx. destruct (Hst' H) as [H'|H']; [|by apply (H' i)].
    by apply (Hst H' i).
  - intros i x Hx. exists x. by rewrite E1.
Qed.

Lemma start_sound ex ex' evs : inv ex -> coordinator_start ex = Some (ex', evs) -> sound ex ex' evs.
Proof.
  intros Hi. unfold coordinator_start. destruct (ex_coordinator ex) eqn:Ec; try done.
  destruct (ex_model_busy ex) eqn:Eb; [done|].
  assert (Hmem : members_of ex = []) by (unfold members_of; by rewrite Ec).
  destruct (ex_model_stopping ex && (ex_decode_pending ex =? 0)) eqn:Estop.
  { apply andb_true_iff in Estop as [Estop _]. intros [= <- <-].
    apply sound_same; cbn; try done; unfold members_of, in_batch; rewrite ?Ec; try done. by left. }
  pose proof (collect_spec (ex_slots ex) 0) as Hcol.
  destruct (collect (ex_slots ex) 0) as [[members slots] items]. destruct Hcol as (-> & Hl & Hmi & Hn & Hin).
  assert (Hitem : forall i x, ex_slots ex !! i = Some x -> i ∈ members <-> x_decode_pending x = true).
  { intros i x Hx. rewrite Hmi. split.
    - intros ([k token] & Hk & Hki)%list_elem_of_fmap. cbn in Hk. subst k. apply Hin in Hki as (y & _ & Hy & Hp & _).
      rewrite Nat.sub_0_r in Hy. congruence.
    - intros Hp. apply list_elem_of_fmap. exists (i, x_decode_token x). split; [done|]. apply Hin. exists x.
      rewrite Nat.sub_0_r. split_and!; [lia | done..]. }
  destruct members as [|m ms] eqn:Em.
  { intros [= <- <-]. apply sound_same; cbn; try done; unfold members_of, in_batch; rewrite ?Ec; try done. by left. }
  rewrite <- Em in *. assert (Hne : members <> []) by congruence. clear m ms Em.
  intros [= <- <-]. pose proof Hi as [Hs _ Hp Hb Hst _]. split_and!; cbn.
  - split; cbn.
    + intros i x' Hx'. rewrite list_lookup_fmap in Hx'. destruct (ex_slots ex !! i) as [x|] eqn:Ex; [|done].
      injection Hx' as <-. destruct (Hs i x Ex) as [Hok Hfl]. rewrite Hmem in Hfl. unfold members_of. cbn.
      rewrite (Hitem i x Ex). assert (x_decode_in_flight x = false) as Hfl0.
      { destruct (x_decode_in_flight x); [|done]. by destruct (proj1 (elem_of_nil i) (proj1 Hfl eq_refl)). }
      unfold taken. destruct (x_decode_pending x) eqn:Ep; cbn; [|by rewrite Hfl0]. split; [|done].
      unfold x_ok in *. cbn. rewrite Ep, Hfl0 in Hok. destruct (x_thread x); naive_solver.
    + unfold members_of. cbn. split; [done|]. intros i Hi'. rewrite length_map.
      rewrite Hmi in Hi'. apply list_elem_of_fmap in Hi' as ([k token] & -> & Hk). apply Hin in Hk as (y & _ & Hy & _).
      rewrite Nat.sub_0_r in Hy. by eapply lookup_lt_Some.
    + unfold zlen. rewrite Hl, Hp. rewrite (count_if_false _ (map taken _)); [lia|]. intros i x' Hx'. rewrite list_lookup_fmap in Hx'.
      destruct (ex_slots ex !! i) as [x|]; [|done]. injection Hx' as <-. unfold taken. by destruct (x_decode_pending x) eqn:Ep.
    + rewrite count_if_map; [|intros x; unfold taken, is_prefill; by destruct (x_decode_pending x)].
      unfold in_batch in *. rewrite Ec, Eb in Hb. cbn in *. lia.
    + intros Hstop i x' Hx'. rewrite list_lookup_fmap in Hx'. destruct (ex_slots ex !! i) as [x|] eqn:Ex; [|done].
      injection Hx' as <-. specialize (Hst Hstop i x Ex). unfold taken. by destruct (x_decode_pending x).
    + done.
  - by rewrite length_map.
  - assert (Hfst : map fst (map (fun '(i, token) => (i, Evaluate token)) items) = members).
    { rewrite Hmi, map_map. apply map_ext. by intros []. }
    intros i x Ex. exists (taken x). rewrite list_lookup_fmap, Ex. split; [done|].
    destruct (x_decode_pending x) eqn:Ep.
    + rewrite (events_of_one i (Evaluate (x_decode_token x))).
      * destruct (Hs i x Ex) as [Hok _]. unfold call_of, taken. rewrite Ep. cbn. unfold x_ok in Hok. rewrite Ep in Hok.
        destruct (x_thread x); try (destruct Hok as (_ & Hok & _); discriminate Hok). cbn. by rewrite Z.eqb_refl.
      * by rewrite Hfst.
      * apply list_elem_of_fmap. exists (i, x_decode_token x). split; [done|]. apply Hin. exists x.
        rewrite Nat.sub_0_r. split_and!; [lia | done..].
    + rewrite events_of_none; [unfold taken; by rewrite Ep|].
      rewrite Hfst, (Hitem i x Ex). by rewrite Ep.
Qed.

Lemma finish_sound ex ex' evs rc : inv ex -> coordinator_finish ex rc = Some (ex', evs) -> sound ex ex' evs.
Proof.
  intros Hi. unfold coordinator_finish. destruct (ex_coordinator ex) as [| | |members|] eqn:Ec; try done.
  intros [= <- <-]. pose proof Hi as [Hs [Hn Hlt] Hp Hb Hst _]. unfold members_of in *. rewrite Ec in *.
  assert (Hfin : forall i x, ex_slots ex !! i = Some x -> i ∈ members -> x_thread x = TDecode /\
    x_decode_pending x = false /\ x_decode_done x = false /\ x_prefill_waiting x = false /\ x_decode_in_flight x = true).
  { intros i x Hx Hm. destruct (Hs i x Hx) as [Hok Hfl]. pose proof (proj2 Hfl Hm) as Hf. unfold x_ok in Hok. rewrite Hf in Hok.
    destruct (x_thread x); try (destruct Hok as (_ & _ & Hok & _); discriminate Hok). destruct Hok as [Hw Hok]. destruct (x_decode_pending x), (x_decode_done x); cbn in Hok; try lia.
    by split_and!. }
  split_and!; cbn.
  - split; cbn.
    + intros i x' Hx'. rewrite foldl_alter_lookup in Hx' by done. unfold members_of. cbn. destruct (decide (i ∈ members)) as [Hm|Hm].
      * destruct (ex_slots ex !! i) as [x|] eqn:Ex; [|done]. injection Hx' as <-.
        destruct (Hfin i x Ex Hm) as (Ht & Hpe & Hd & Hw & Hf). unfold x_ok. cbn. rewrite Ht, Hpe. cbn.
        split; [done|]. split; [done | by intros ?%elem_of_nil].
      * destruct (Hs i x' Hx') as [Hok Hfl]. split; [done|]. split; [by intros H%Hfl | by intros ?%elem_of_nil].
    + unfold members_of. cbn. split; [constructor | by intros i ?%elem_of_nil].
    + rewrite count_if_foldl_alter; done.
    + rewrite count_if_foldl_alter by done. unfold in_batch in *. rewrite Ec in Hb. cbn in *.
      destruct (ex_model_busy ex); cbn in Hb; lia.
    + intros Hstop i x' Hx'. rewrite foldl_alter_lookup in Hx' by done. destruct (decide (i ∈ members)); [|by apply (Hst Hstop i)].
      destruct (ex_slots ex !! i) as [x|] eqn:Ex; [|done]. injection Hx' as <-. by apply (Hst Hstop i x).
    + done.
  - apply foldl_alter_length.
  - intros i x Ex. rewrite foldl_alter_lookup by done. destruct (decide (i ∈ members)) as [Hm|Hm].
    + exists (finish_slot rc x). rewrite Ex. split; [done|]. destruct (Hfin i x Ex Hm) as (Ht & Hpe & _ & _ & Hf).
      rewrite (events_of_one i (Finish rc)).
      * unfold call_of. cbn. by rewrite Ht, Hpe, Hf.
      * rewrite map_map. cbn. by rewrite map_id.
      * apply list_elem_of_fmap. by exists i.
    + exists x. split; [done|]. rewrite events_of_none; [done|]. rewrite map_map. cbn. by rewrite map_id.
Qed.

Lemma step_sound l ex ex' evs : inv ex -> step l ex = Some (ex', evs) -> sound ex ex' evs.
Proof.
  intros Hi Hstep. destruct (slot_section l) as [i|] eqn:El.
  { destruct (slot_section_update l ex ex' evs i Hi El Hstep) as (x & x' & es & Hu & -> & Hc). by eapply sound_update. }
  assert (Hq : forall r, quiet r = Some (ex', evs) -> r = Some ex' /\ evs = []).
  { intros [e|] H; [by injection H as -> -> | done]. }
  pose proof (iv_exit ex Hi) as He.
  destruct l as [k|k|k|k|k token|k|k|k|k|k| | | | | |t| |rc]; try discriminate El; cbn [step] in Hstep;
    [..|by apply start_sound | by eapply finish_sound]; apply Hq in Hstep as [Hstep ->]; clear Hq.
  - injection Hstep as <-. apply sound_same; try done. by left.
  - injection Hstep as <-. destruct (0 <? ex_active_generations ex); apply sound_same; try done; by left.
  - injection Hstep as <-. apply sound_same; try done. by left.
  - destruct (forallb _ _) eqn:Ef; [|done]. injection Hstep as <-. apply sound_same; try done. intros _. right.
    intros i x Hx. rewrite forallb_forall in Ef. specialize (Ef x). destruct (x_thread x); try done; exfalso.
    all: discriminate Ef; apply list_elem_of_In; by eapply list_elem_of_lookup_2.
  - unfold coordinator_wake in Hstep. destruct (ex_coordinator ex) eqn:Ec; try done. step_cases.
    all: apply sound_same; cbn; try done; unfold members_of, in_batch; rewrite ?Ec; try done; try (by left).
    intros _. by bool_prop.
  - unfold coordinator_coalesced in Hstep. destruct (ex_coordinator ex) eqn:Ec; try done. step_cases.
    apply sound_same; cbn; try done; unfold members_of, in_batch; rewrite ?Ec; try done. by left.
Qed.

Lemma call_run_app es : forall c es' c', call_run c es = Some c' -> call_run c (es ++ es') = call_run c' es'.
Proof.
  induction es as [|e es IH]; intros c es' c'; cbn; [by intros [= ->]|].
  destruct (call_step c e); [apply IH | done].
Qed.

Lemma events_of_app i a b : events_of i (a ++ b) = events_of i a ++ events_of i b.
Proof. unfold events_of. apply omap_app. Qed.

Lemma steps_sound ls : forall ex ex' evs, inv ex -> steps ls ex = Some (ex', evs) -> sound ex ex' evs.
Proof.
  induction ls as [|l ls IH]; intros ex ex' evs Hi; cbn.
  { intros [= <- <-]. split_and!; [done..|]. intros i x Hx. by exists x. }
  destruct (step l ex) as [[ex1 evs1]|] eqn:E1; [|done]. destruct (steps ls ex1) as [[ex2 evs2]|] eqn:E2; [|done].
  intros [= <- <-]. destruct (step_sound l ex ex1 evs1 Hi E1) as (Hi1 & Hl1 & H1).
  destruct (IH ex1 ex2 evs2 Hi1 E2) as (Hi2 & Hl2 & H2). split_and!; [done | congruence |].
  intros i x Hx. destruct (H1 i x Hx) as (x1 & Hx1 & Hc1). destruct (H2 i x1 Hx1) as (x2 & Hx2 & Hc2).
  exists x2. split; [done|]. by rewrite events_of_app, (call_run_app _ _ _ _ Hc1).
Qed.

Lemma init_lookup n i x : ex_slots (executor_init n) !! i = Some x ->
  (i < n)%nat /\ x = XSlot TOut false false false false false 0 0.
Proof. cbn [executor_init ex_slots]. by intros [-> H]%lookup_replicate_1. Qed.

Lemma init_inv n : inv (executor_init n).
Proof.
  split.
  - intros i x [_ ->]%init_lookup. split; [done|]. cbn. split; [done | by intros ?%elem_of_nil].
  - split; [constructor | by intros i ?%elem_of_nil].
  - rewrite count_if_false; [done|]. by intros i x [_ ->]%init_lookup.
  - rewrite count_if_false; [done|]. by intros i x [_ ->]%init_lookup.
  - done.
  - done.
Qed.

(** ** The round robin of the prefills *)

(** How many slots come before [i] in the ring after [last]. *)
Definition ring_distance (len last i : nat) : nat := ((i + len - last - 1) mod len)%nat.

Lemma mod_wrap x len : (x < 2 * len)%nat -> (x mod len)%nat = if (x <? len)%nat then x else (x - len)%nat.
Proof.
  intros Hx. destruct (Nat.ltb_spec x len); [by apply Nat.mod_small|].
  replace x with (x - len + 1 * len)%nat at 1 by lia. rewrite Nat.Div0.mod_add. apply Nat.mod_small. lia.
Qed.

Lemma next_waiting_spec slots last fuel : forall n id, (last < length slots)%nat -> next_waiting slots last n fuel = Some id ->
  exists k, (n <= k < n + fuel)%nat /\ id = ((last + k) mod length slots)%nat /\
    forall k' x, (n <= k' < k)%nat -> slots !! ((last + k') mod length slots)%nat = Some x -> x_prefill_waiting x = false.
Proof.
  induction fuel as [|fuel IH]; intros n id Hlast; cbn [next_waiting]; [done|]. cbv zeta.
  destruct (slots !! _) as [x|] eqn:Ex; [|done]. destruct (x_prefill_waiting x) eqn:Ew.
  - intros [= <-]. exists n. split_and!; [lia|lia|done|]. intros; lia.
  - intros H. destruct (IH _ _ Hlast H) as (k & Hk & -> & Hbefore). exists k. split_and!; [lia|lia|done|].
    intros k' y Hk' Hy. destruct (decide (k' = n)) as [->|]; [congruence|]. apply (Hbefore k'); [lia | done].
Qed.

(** Serving another slot brings a waiting slot closer. *)
Lemma grant_closer ex i k x : (ex_last_prefill_slot ex < length (ex_slots ex))%nat -> ex_slots ex !! i = Some x ->
  x_prefill_waiting x = true -> server_next_prefill_slot_locked ex = Some k -> k <> i ->
  (k < length (ex_slots ex))%nat /\
  (ring_distance (length (ex_slots ex)) k i < ring_distance (length (ex_slots ex)) (ex_last_prefill_slot ex) i)%nat.
Proof.
  intros Hlast Hx Hw Hnext Hne. pose proof (lookup_lt_Some _ _ _ Hx) as Hi.
  apply next_waiting_spec in Hnext as (a & Ha & Hk & Hbefore); [|done].
  set (len := length (ex_slots ex)) in *. set (last := ex_last_prefill_slot ex) in *.
  unfold ring_distance. set (d := ((i + len - last - 1) mod len)%nat).
  assert (Hd : d = if (i + len - last - 1 <? len)%nat then (i + len - last - 1)%nat else (i + len - last - 1 - len)%nat)
    by (apply mod_wrap; lia).
  assert (Hi' : ((last + (d + 1)) mod len)%nat = i).
  { rewrite mod_wrap by (rewrite Hd; destruct (Nat.ltb_spec (i + len - last - 1) len); lia). rewrite Hd.
    destruct (Nat.ltb_spec (i + len - last - 1) len);
      match goal with |- context [(?a <? len)%nat] => destruct (Nat.ltb_spec a len) end; lia. }
  assert (Had : (a < d + 1)%nat).
  { destruct (decide (d + 1 = a)%nat) as [<-|]; [congruence|]. destruct (decide (d + 1 < a)%nat) as [Hlt|]; [|lia].
    specialize (Hbefore (d + 1)%nat x ltac:(lia)). rewrite Hi' in Hbefore. specialize (Hbefore Hx). congruence. }
  rewrite mod_wrap in Hk by lia. clearbody d. split; [rewrite Hk; destruct (Nat.ltb_spec (last + a) len); lia|].
  rewrite mod_wrap by (destruct (Nat.ltb_spec (last + a) len); lia).
  destruct (Nat.ltb_spec (last + a) len), (Nat.ltb_spec (i + len - last - 1) len), (Nat.ltb_spec (i + len - k - 1) len); lia.
Qed.

Definition thread_of (ex : executor) (i : nat) : option thread := x_thread <$> ex_slots ex !! i.

(** A section of another slot leaves a slot alone. *)
Lemma other_section l ex ex' evs i k x : inv ex -> slot_section l = Some k -> k <> i -> step l ex = Some (ex', evs) ->
  ex_slots ex !! i = Some x -> ex_slots ex' !! i = Some x.
Proof.
  intros Hi El Hne Hstep Hx. destruct (slot_section_update l ex ex' evs k Hi El Hstep) as (y & y' & es & Hu & _).
  rewrite (su_slots _ _ _ _ _ Hu). by rewrite list_lookup_insert_ne.
Qed.

(** The coordinator and the global sections change no thread. *)
Lemma global_thread l ex ex' evs i : slot_section l = None -> step l ex = Some (ex', evs) -> thread_of ex' i = thread_of ex i.
Proof.
  intros El Hstep.
  assert (Hq : forall r, quiet r = Some (ex', evs) -> r = Some ex').
  { intros [e|] H; [by injection H as -> _ | done]. }
  destruct l as [k|k|k|k|k token|k|k|k|k|k| | | | | |t| |rc]; try discriminate El; cbn [step] in Hstep;
    [apply Hq in Hstep..| |]; clear Hq.
  - by injection Hstep as <-.
  - injection Hstep as <-. by destruct (0 <? ex_active_generations ex).
  - by injection Hstep as <-.
  - destruct (forallb _ _); [|done]. by injection Hstep as <-.
  - unfold coordinator_wake in Hstep. step_cases; done.
  - unfold coordinator_coalesced in Hstep. step_cases; done.
  - unfold coordinator_start in Hstep. destruct (ex_coordinator ex); try done. destruct (ex_model_busy ex); [done|].
    destruct (ex_model_stopping ex && _); [by injection Hstep as <- _|].
    pose proof (collect_spec (ex_slots ex) 0) as Hcol. destruct (collect (ex_slots ex) 0) as [[members slots] items].
    destruct Hcol as (-> & _). destruct members; injection Hstep as <- _; [done|].
    unfold thread_of. cbn. rewrite list_lookup_fmap. destruct (ex_slots ex !! i) as [x|]; [|done]. cbn. f_equal.
    unfold taken. by destruct (x_decode_pending x).
  - unfold coordinator_finish in Hstep. destruct (ex_coordinator ex) as [| | |members|]; try done. injection Hstep as <- _.
    unfold thread_of. cbn. generalize (ex_slots ex). induction members as [|m ms IH]; intros slots; cbn; [done|].
    rewrite IH. destruct (decide (m = i)) as [->|]; [|by rewrite list_lookup_alter_ne].
    rewrite list_lookup_alter_eq. by destruct (slots !! i).
Qed.

Lemma waiting_stays l ex ex' evs i : inv ex -> step l ex = Some (ex', evs) -> thread_of ex i = Some TPrefillWait ->
  l <> PrefillGrant i -> l <> PrefillGiveUp i -> thread_of ex' i = Some TPrefillWait.
Proof.
  intros Hi Hstep Ht H1 H2. destruct (slot_section l) as [k|] eqn:El; [|by rewrite (global_thread l ex ex' evs i)].
  unfold thread_of in *. destruct (ex_slots ex !! i) as [x|] eqn:Ex; [|done]. cbn in Ht. injection Ht as Ht.
  destruct (decide (k = i)) as [->|Hne]; [|by rewrite (other_section l ex ex' evs i k x Hi El Hne Hstep Ex); cbn; rewrite Ht].
  pose proof (lookup_lt_Some _ _ _ Ex) as Hlt. destruct (iv_slots ex Hi i x Ex) as [Hok _]. unfold x_ok in Hok. rewrite Ht in Hok.
  destruct Hok as (_ & Hp & _).
  destruct l; try discriminate El; injection El as ->; cbn [step] in Hstep; try done;
    unfold prefill_request, server_prefill_leave, eval_token_submit, eval_token_wake, cancel_running, on_slot,
      server_cancel_pending_decode_locked in Hstep; rewrite Ex, ?Ht, ?Hp in Hstep; try discriminate Hstep.
  - cbn in Hstep. destruct (negb _); [done|]. injection Hstep as <- _. by rewrite Ex; cbn; rewrite Ht.
  - injection Hstep as <- _. cbn. rewrite list_lookup_insert_eq by done. cbn. by rewrite Ht.
Qed.

(** Only a grant moves the round robin, to the slot that was next. *)
Lemma step_last l ex ex' evs : step l ex = Some (ex', evs) ->
  (exists k, l = PrefillGrant k /\ server_next_prefill_slot_locked ex = Some k /\ ex_last_prefill_slot ex' = k) \/
  ((forall k, l <> PrefillGrant k) /\ ex_last_prefill_slot ex' = ex_last_prefill_slot ex).
Proof.
  intros Hstep.
  assert (Hq : forall r, quiet r = Some (ex', evs) -> r = Some ex').
  { intros [e|] H; [by injection H as -> _ | done]. }
  destruct l as [k|k|k|k|k token|k|k|k|k|k| | | | | |t| |rc]; cbn [step] in Hstep; try apply Hq in Hstep; clear Hq;
    unfold prefill_request, prefill_give_up, server_prefill_leave, eval_token_submit, eval_token_wake, eval_token_return,
      cancel_running, on_slot, server_cancel_pending_decode_locked, coordinator_wake, coordinator_coalesced,
      coordinator_start, coordinator_finish in Hstep; try (right; split; [by intros k'|]; step_cases; done).
  - left. exists k. unfold prefill_grant in Hstep. destruct (ex_slots ex !! k); [|done]. destruct (x_thread x); try done.
    destruct (ex_stop_requested ex || _); [done|].
    match type of Hstep with (if ?b then _ else _) = _ => destruct b eqn:E; [done|] end. injection Hstep as <-.
    apply orb_false_iff in E as [_ E]. apply negb_false_iff, bool_decide_eq_true in E. done.
  - right. split; [by intros k'|]. injection Hstep as <-. by destruct (0 <? ex_active_generations ex).
Qed.

Definition is_grant (l : label) : bool := match l with PrefillGrant _ => true | _ => false end.

Lemma bypass_bound i ls : forall ex ex' evs, inv ex -> (ex_last_prefill_slot ex < length (ex_slots ex))%nat ->
  thread_of ex i = Some TPrefillWait -> PrefillGrant i ∉ ls -> PrefillGiveUp i ∉ ls -> steps ls ex = Some (ex', evs) ->
  (count_if is_grant ls <= ring_distance (length (ex_slots ex)) (ex_last_prefill_slot ex) i)%nat.
Proof.
  induction ls as [|l ls IH]; intros ex ex' evs Hi Hlast Ht H1 H2; cbn [steps]; [intros _; unfold count_if; cbn; lia|].
  apply not_elem_of_cons in H1 as [H1 H1']. apply not_elem_of_cons in H2 as [H2 H2'].
  destruct (step l ex) as [[ex1 evs1]|] eqn:E1; [|done]. destruct (steps ls ex1) as [[ex2 evs2]|] eqn:E2; [|done]. intros _.
  destruct (step_sound l ex ex1 evs1 Hi E1) as (Hi1 & Hl1 & _).
  assert (Ht1 : thread_of ex1 i = Some TPrefillWait) by (apply (waiting_stays l ex ex1 evs1 i Hi E1 Ht); congruence).
  destruct (step_last l ex ex1 evs1 E1) as [(k & -> & Hnext & Hk)|[Hno Hk]].
  - unfold thread_of in Ht. destruct (ex_slots ex !! i) as [x|] eqn:Ex; [|done]. cbn in Ht. injection Ht as Ht.
    destruct (iv_slots ex Hi i x Ex) as [Hok _]. unfold x_ok in Hok. rewrite Ht in Hok. destruct Hok as [Hw _].
    destruct (grant_closer ex i k x Hlast Ex Hw Hnext) as [Hlt Hclose]; [congruence|].
    specialize (IH ex1 ex2 evs2 Hi1 ltac:(rewrite Hl1, Hk; exact Hlt) Ht1 H1' H2' E2). rewrite Hl1, Hk in IH.
    unfold count_if in *. cbn. lia.
  - specialize (IH ex1 ex2 evs2 Hi1 ltac:(rewrite Hl1, Hk; exact Hlast) Ht1 H1' H2' E2). rewrite Hl1, Hk in IH.
    unfold count_if in *. cbn [List.filter]. destruct l; try exact IH. by destruct (Hno i0).
Qed.

(** ** Every decode call returns *)

(** Who moves: the coordinator, or the thread of a slot that does not wait for
    anyone (it leaves its prefill, or picks up its result). *)
Inductive process := PCoordinator | PSlot (i : nat).

Definition turn (p : process) (l : label) : Prop :=
  match p with
  | PCoordinator => match l with CoordinatorWake | Coalesced _ | Start | Finished _ => True | _ => False end
  | PSlot i => l = PrefillLeave i \/ l = DecodeWake i
  end.

Definition enabled (p : process) (ex : executor) : Prop := exists l, turn p l /\ step l ex <> None.

(** How far the call of slot [i] is from its return. *)
Definition rank (ex : executor) (i : nat) : nat :=
  match ex_slots ex !! i with
  | Some x =>
      if x_decode_done x then 1
      else if x_decode_in_flight x then 2
      else
        match ex_coordinator ex with
        | CReady => if ex_model_busy ex then 4 else 3
        | CCoalesce => 5
        | CIdle => 6
        | _ => 7
        end
  | None => 0
  end.

(** Whose move it takes. *)
Definition helper (ex : executor) (i : nat) (p : process) : Prop :=
  match rank ex i with
  | 1%nat => p = PSlot i
  | 4%nat => exists k, p = PSlot k /\ thread_of ex k = Some TPrefill
  | _ => p = PCoordinator
  end.

Lemma decode_pending_pos ex i x : inv ex -> ex_slots ex !! i = Some x -> x_decode_pending x = true -> 0 < ex_decode_pending ex.
Proof.
  intros Hi Hx Hp. rewrite (iv_pending ex Hi). pose proof (count_if_pos x_decode_pending _ i x Hx Hp). lia.
Qed.

Lemma decode_flags ex i x : inv ex -> ex_slots ex !! i = Some x -> x_thread x = TDecode ->
  (b2n (x_decode_pending x) + b2n (x_decode_in_flight x) + b2n (x_decode_done x) = 1)%nat.
Proof. intros Hi Hx Ht. destruct (iv_slots ex Hi i x Hx) as [Hok _]. unfold x_ok in Hok. rewrite Ht in Hok. apply Hok. Qed.

Lemma decode_running ex i x : inv ex -> ex_slots ex !! i = Some x -> x_thread x = TDecode ->
  ex_model_stopping ex = false /\ ex_coordinator ex <> CExit.
Proof.
  intros Hi Hx Ht. assert (Hst : ex_model_stopping ex = false).
  { destruct (ex_model_stopping ex) eqn:E; [|done]. pose proof (iv_stopping ex Hi E i x Hx). congruence. }
  split; [done|]. intros Hc. pose proof (iv_exit ex Hi Hc). congruence.
Qed.

Lemma busy_prefill ex : inv ex -> ex_model_busy ex = true -> in_batch ex = false ->
  exists k x, ex_slots ex !! k = Some x /\ x_thread x = TPrefill.
Proof.
  intros Hi Hb Hn. pose proof (iv_busy ex Hi) as H. rewrite Hb, Hn in H. cbn in H.
  destruct (count_if_ex is_prefill (ex_slots ex)) as (k & x & Hx & Hp); [lia|]. exists k, x. split; [done|].
  unfold is_prefill in Hp. by destruct (x_thread x).
Qed.

Lemma helper_exists ex i x : inv ex -> ex_slots ex !! i = Some x -> x_thread x = TDecode -> exists p, helper ex i p.
Proof.
  intros Hi Hx Ht. unfold helper. destruct (rank ex i) as [|[|[|[|[|r]]]]] eqn:Er; try (by eexists).
  unfold rank in Er. rewrite Hx in Er. destruct (x_decode_done x); [done|]. destruct (x_decode_in_flight x); [done|].
  destruct (ex_coordinator ex) eqn:Ec; try done. destruct (ex_model_busy ex) eqn:Eb; [|done].
  destruct (busy_prefill ex Hi Eb) as (k & y & Hy & Hty); [unfold in_batch; by rewrite Ec|].
  exists (PSlot k), k. split; [done|]. unfold thread_of. by rewrite Hy; cbn; rewrite Hty.
Qed.

Lemma helper_enabled ex i x p : inv ex -> ex_slots ex !! i = Some x -> x_thread x = TDecode -> helper ex i p -> enabled p ex.
Proof.
  intros Hi Hx Ht. pose proof (decode_flags ex i x Hi Hx Ht) as Hf. destruct (decode_running ex i x Hi Hx Ht) as [Hst Hne].
  unfold helper, rank. rewrite Hx. destruct (x_decode_done x) eqn:Ed.
  { intros ->. exists (DecodeWake i). split; [by right|]. cbn. unfold eval_token_wake. by rewrite Hx, Ht, Ed. }
  destruct (x_decode_in_flight x) eqn:Ef.
  { intros ->. exists (Finished 0). split; [done|]. destruct (iv_slots ex Hi i x Hx) as [_ [Hm _]]. specialize (Hm Ef).
    cbn. unfold members_of in Hm. unfold coordinator_finish. by destruct (ex_coordinator ex); try (by apply elem_of_nil in Hm). }
  assert (Hpe : x_decode_pending x = true) by (destruct (x_decode_pending x); [done | cbn in Hf; lia]).
  pose proof (decode_pending_pos ex i x Hi Hx Hpe) as Hpos.
  assert (Hz : (ex_decode_pending ex =? 0) = false) by lia.
  destruct (ex_coordinator ex) as [| | |m|] eqn:Ec; [..|done].
  - intros ->. exists CoordinatorWake. split; [done|]. cbn. unfold coordinator_wake. rewrite Ec, Hz. cbn. by destruct (_ && _).
  - intros ->. exists (Coalesced true). split; [done|]. cbn. unfold coordinator_coalesced. by rewrite Ec.
  - destruct (ex_model_busy ex) eqn:Eb.
    + intros (k & -> & Hk). exists (PrefillLeave k). split; [by left|]. cbn. unfold server_prefill_leave, thread_of in *.
      destruct (ex_slots ex !! k) as [y|]; [|done]. cbn in Hk. injection Hk as ->. done.
    + intros ->. exists Start. split; [done|]. cbn. unfold coordinator_start. rewrite Ec, Eb, Hz, andb_false_r.
      destruct (collect _ _) as [[[|m ms] ss] its]; done.
  - intros ->. exists (Finished 0). split; [done|]. cbn. unfold coordinator_finish. by rewrite Ec.
Qed.

Lemma prefill_stays l ex ex' evs k : inv ex -> step l ex = Some (ex', evs) -> thread_of ex k = Some TPrefill ->
  l <> PrefillLeave k -> thread_of ex' k = Some TPrefill /\ l <> DecodeWake k.
Proof.
  intros Hi Hstep Ht Hl. unfold thread_of in Ht. destruct (ex_slots ex !! k) as [x|] eqn:Ex; [|done]. injection Ht as Ht.
  assert (Hw : l <> DecodeWake k).
  { intros ->. cbn in Hstep. unfold eval_token_wake in Hstep. by rewrite Ex, Ht in Hstep. }
  split; [|done]. destruct (slot_section l) as [m|] eqn:El; [|rewrite (global_thread l ex ex' evs k El Hstep); unfold thread_of; by rewrite Ex; cbn; rewrite Ht].
  unfold thread_of. destruct (decide (m = k)) as [->|Hne]; [|by rewrite (other_section l ex ex' evs k m x Hi El Hne Hstep Ex); cbn; rewrite Ht].
  pose proof (lookup_lt_Some _ _ _ Ex) as Hlt. destruct (iv_slots ex Hi k x Ex) as [Hok _]. unfold x_ok in Hok. rewrite Ht in Hok.
  destruct Hok as (_ & Hp & _).
  destruct l; try discriminate El; injection El as ->; cbn [step] in Hstep; try done;
    unfold prefill_request, prefill_grant, prefill_give_up, eval_token_submit, cancel_running, on_slot,
      server_cancel_pending_decode_locked in Hstep; rewrite Ex, ?Ht, ?Hp in Hstep; try discriminate Hstep.
  - cbn in Hstep. destruct (negb _); [done|]. injection Hstep as <- _. by rewrite Ex; cbn; rewrite Ht.
  - injection Hstep as <- _. cbn. rewrite list_lookup_insert_eq by done. cbn. by rewrite Ht.
Qed.

(** Nothing that the rank looks at has changed. *)
Lemma rank_same ex ex' i x x' : ex_slots ex !! i = Some x -> ex_slots ex' !! i = Some x' ->
  x_decode_done x' = x_decode_done x -> x_decode_in_flight x' = x_decode_in_flight x ->
  (x_decode_done x = false -> x_decode_in_flight x = false ->
    ex_coordinator ex' = ex_coordinator ex /\ (ex_coordinator ex = CReady -> ex_model_busy ex' = ex_model_busy ex)) ->
  rank ex' i = rank ex i.
Proof.
  intros Hx Hx' H1 H2 H3. unfold rank. rewrite Hx, Hx', H1, H2. destruct (x_decode_done x); [done|].
  destruct (x_decode_in_flight x); [done|]. destruct (H3 eq_refl eq_refl) as [-> H4]. destruct (ex_coordinator ex); try done.
  by rewrite H4.
Qed.

Lemma rank_pending ex i x : ex_slots ex !! i = Some x -> x_decode_done x = false -> x_decode_in_flight x = false -> (2 < rank ex i)%nat.
Proof. intros Hx H1 H2. unfold rank. rewrite Hx, H1, H2. destruct (ex_coordinator ex); try lia. destruct (ex_model_busy ex); lia. Qed.

(** The helper is the same if the rank is and it is not its turn. *)
Lemma helper_same l ex ex' evs i : inv ex -> step l ex = Some (ex', evs) -> rank ex' i = rank ex i ->
  (rank ex i = 1%nat \/ (forall p, rank ex i <> 4%nat -> p = PCoordinator -> ~ turn p l)) ->
  l <> DecodeWake i -> l <> PrefillLeave i -> (forall k, rank ex i = 4%nat -> l <> PrefillLeave k) ->
  forall p, helper ex i p -> ~ turn p l /\ helper ex' i p.
Proof.
  intros Hi Hstep Hr Hc Hw Hl H4 p. unfold helper. rewrite Hr. destruct (rank ex i) as [|[|[|[|[|r]]]]] eqn:Er.
  5:{ intros (k & -> & Hk). destruct (prefill_stays l ex ex' evs k Hi Hstep Hk) as [Hk' Hw']; [by apply H4|].
      split; [|by exists k]. intros [Ht|Ht]; [by apply (H4 k) | done]. }
  2:{ intros ->. split; [|done]. by intros [Ht|Ht]. }
  all: intros ->; (split; [|done]); destruct Hc as [Hc|Hc]; [done | by apply Hc].
Qed.

(** Who takes the model and who gives it back. *)
Lemma section_busy l ex ex' evs k : slot_section l = Some k -> step l ex = Some (ex', evs) ->
  (l = PrefillGrant k /\ ex_model_busy ex = false /\ ex_decode_pending ex <= 0) \/
  (l = PrefillLeave k /\ ex_model_busy ex' = false) \/
  (ex_model_busy ex' = ex_model_busy ex /\ (forall j, l <> PrefillLeave j) /\ forall j, l <> PrefillGrant j).
Proof.
  intros El Hstep.
  assert (Hq : forall r, quiet r = Some (ex', evs) -> r = Some ex').
  { intros [e|] H; [by injection H as -> _ | done]. }
  destruct l as [j|j|j|j|j token|j|j|j|j|j| | | | | | | |]; try discriminate El; injection El as ->; cbn [step] in Hstep;
    try apply Hq in Hstep; clear Hq;
    unfold prefill_request, prefill_grant, prefill_give_up, server_prefill_leave, eval_token_submit, eval_token_wake, eval_token_return,
      cancel_running, on_slot, server_cancel_pending_decode_locked in Hstep.
  2:{ left. destruct (ex_slots ex !! k); [|done]. destruct (x_thread x); try done. destruct (ex_stop_requested ex || _); [done|].
      match type of Hstep with (if ?b then _ else _) = _ => destruct b eqn:E; [done|] end.
      apply orb_false_iff in E as [E _]. apply orb_false_iff in E as [E1 E2]. split_and!; [done | done | lia]. }
  3:{ right; left. step_cases. done. }
  all: right; right; split_and!; [step_cases; done | by intros | by intros].
Qed.

(** The coordinator's sections bring every waiting call closer. *)
Lemma global_rank l ex ex' evs i x : inv ex -> ex_slots ex !! i = Some x -> x_thread x = TDecode -> slot_section l = None ->
  step l ex = Some (ex', evs) ->
  (rank ex' i < rank ex i)%nat \/
  (rank ex' i = rank ex i /\ (rank ex i = 1%nat \/ forall p, rank ex i <> 4%nat -> p = PCoordinator -> ~ turn p l)).
Proof.
  intros Hi Hx Ht El Hstep. pose proof (decode_flags ex i x Hi Hx Ht) as Hf. destruct (decode_running ex i x Hi Hx Ht) as [Hst _].
  destruct (iv_slots ex Hi i x Hx) as [_ [Hm Hm']].
  assert (Hq : forall r, quiet r = Some (ex', evs) -> r = Some ex').
  { intros [e|] H; [by injection H as -> _ | done]. }
  assert (Hsame : ex_slots ex' = ex_slots ex -> ex_coordinator ex' = ex_coordinator ex -> ex_model_busy ex' = ex_model_busy ex ->
    rank ex' i = rank ex i) by (intros H1 H2 H3; unfold rank; by rewrite H1, H2, H3).
  assert (Hpass : ex_slots ex' = ex_slots ex -> members_of ex = [] ->
    (forall c, ex_coordinator ex' = c -> match c with CReady => rank ex i = 5%nat \/ rank ex i = 6%nat | CCoalesce => rank ex i = 6%nat | _ => False end \/ x_decode_done x = true) ->
    (rank ex' i < rank ex i)%nat \/ (rank ex' i = rank ex i /\ rank ex i = 1%nat)).
  { intros H1 H2 H3. specialize (H3 _ eq_refl). unfold rank in *. rewrite H1, Hx in *. destruct (x_decode_done x); [by right|].
    destruct (x_decode_in_flight x); [by rewrite H2 in Hm; destruct (proj1 (elem_of_nil i) (Hm eq_refl))|]. left.
    destruct H3 as [H3|H3]; [|done]. destruct (ex_coordinator ex'); try done; [by rewrite H3; lia|].
    destruct (ex_model_busy ex'); destruct H3 as [->| ->]; lia. }
  destruct l as [k|k|k|k|k token|k|k|k|k|k| | | | | |t| |rc]; try discriminate El; cbn [step] in Hstep;
    [apply Hq in Hstep..| |]; clear Hq.
  1-4: right; split; [|right; by intros ? ? -> []].
  - by injection Hstep as <-.
  - injection Hstep as <-. by destruct (0 <? ex_active_generations ex).
  - by injection Hstep as <-.
  - destruct (forallb _ _); [|done]. by injection Hstep as <-.
  - unfold coordinator_wake in Hstep. destruct (ex_coordinator ex) eqn:Ec; try done.
    assert (Hr : rank ex i = 6%nat \/ x_decode_done x = true).
    { unfold rank. rewrite Hx, Ec. destruct (x_decode_done x); [by right|]. left.
      destruct (x_decode_in_flight x); [|done]. unfold members_of in Hm. rewrite Ec in Hm. by destruct (proj1 (elem_of_nil i) (Hm eq_refl)). }
    destruct Hpass as [|[? ?]]; [..|by left | right; by split; [|left]].
    + step_cases; done.
    + unfold members_of. by rewrite Ec.
    + intros c. rewrite Hst in Hstep. cbn in Hstep. step_cases; intros <-; cbn; destruct Hr; auto.
      all: destruct (ex_decode_pending ex =? 0); done.
  - unfold coordinator_coalesced in Hstep. destruct (ex_coordinator ex) eqn:Ec; try done.
    assert (Hr : rank ex i = 5%nat \/ x_decode_done x = true).
    { unfold rank. rewrite Hx, Ec. destruct (x_decode_done x); [by right|]. left.
      destruct (x_decode_in_flight x); [|done]. unfold members_of in Hm. rewrite Ec in Hm. by destruct (proj1 (elem_of_nil i) (Hm eq_refl)). }
    destruct Hpass as [|[? ?]]; [..|by left | right; by split; [|left]].
    + step_cases; done.
    + unfold members_of. by rewrite Ec.
    + intros c. step_cases; intros <-; cbn; destruct Hr; auto.
  - unfold coordinator_start in Hstep. destruct (ex_coordinator ex) eqn:Ec; try done. destruct (ex_model_busy ex) eqn:Eb; [done|].
    assert (Hfl : x_decode_in_flight x = false).
    { destruct (x_decode_in_flight x); [|done]. unfold members_of in Hm. rewrite Ec in Hm. by destruct (proj1 (elem_of_nil i) (Hm eq_refl)). }
    rewrite Hst in Hstep. cbn [andb] in Hstep. pose proof (collect_spec (ex_slots ex) 0) as Hcol.
    destruct (collect (ex_slots ex) 0) as [[members slots] items]. destruct Hcol as (-> & _ & Hmi & _ & Hin).
    destruct (x_decode_pending x) eqn:Epe.
    + left. assert (Hne : members <> []).
      { intros ->. destruct items; [|done]. apply (elem_of_nil (i, x_decode_token x)). apply Hin. exists x. rewrite Nat.sub_0_r. by split_and!; [lia|..]. }
      destruct members; [done|]. injection Hstep as <- _. unfold rank. cbn. rewrite list_lookup_fmap, Hx, Ec, Eb. cbn.
      unfold taken. rewrite Epe. cbn. rewrite Hfl. destruct (x_decode_done x); [cbn in Hf; lia|]. lia.
    + assert (Hd : x_decode_done x = true) by (destruct (x_decode_done x); [done | rewrite Hfl in Hf; cbn in Hf; lia]).
      right. unfold rank. rewrite Hx, Hd. split; [|by left]. destruct members; injection Hstep as <- _; cbn; [by rewrite Hx, Hd|].
      rewrite list_lookup_fmap, Hx. cbn. unfold taken. by rewrite Epe, Hd.
  - unfold coordinator_finish in Hstep. destruct (ex_coordinator ex) as [| | |members|] eqn:Ec; try done. injection Hstep as <- _.
    pose proof (iv_members ex Hi) as [Hn _]. unfold members_of in *. rewrite Ec in *. unfold rank. cbn.
    rewrite foldl_alter_lookup, Hx, Ec by done. destruct (decide (i ∈ members)) as [Hin|Hin]; cbn.
    + rewrite (Hm' Hin) in *. destruct (x_decode_done x); [exfalso; cbn in Hf; lia|]. left. lia.
    + destruct (x_decode_in_flight x); [by destruct (Hin (Hm eq_refl))|]. destruct (x_decode_done x); [right; split; [done | by left] | left; lia].
Qed.

Lemma step_rank l ex ex' evs i x : inv ex -> ex_slots ex !! i = Some x -> x_thread x = TDecode ->
  step l ex = Some (ex', evs) ->
  (exists rc, (i, Return rc) ∈ evs) \/
  (thread_of ex' i = Some TDecode /\ ((rank ex' i < rank ex i)%nat \/
     (rank ex' i = rank ex i /\ forall p, helper ex i p -> ~ turn p l /\ helper ex' i p))).
Proof.
  intros Hi Hx Ht Hstep. pose proof (decode_flags ex i x Hi Hx Ht) as Hf.
  assert (Hti : thread_of ex i = Some TDecode) by (unfold thread_of; by rewrite Hx; cbn; rewrite Ht).
  pose proof (lookup_lt_Some _ _ _ Hx) as Hlt.
  destruct (slot_section l) as [k|] eqn:El.
  - destruct (decide (k = i)) as [->|Hne].
    + (* its own sections *)
      destruct l; try discriminate El; injection El as ->; cbn [step] in Hstep; try done;
        unfold prefill_request, prefill_grant, prefill_give_up, server_prefill_leave, eval_token_submit, on_slot in Hstep;
        rewrite ?Hx, ?Ht in Hstep; try discriminate Hstep.
      * left. unfold eval_token_wake in Hstep. rewrite Hx, Ht in Hstep. unfold eval_token_return in Hstep. step_cases; eexists; rewrite ?elem_of_cons; eauto.
      * right. unfold cancel_running in Hstep. rewrite Hx in Hstep. destruct (negb _); [done|].
        unfold server_cancel_pending_decode_locked in Hstep. destruct (negb (x_decode_pending x) || _) eqn:E.
        -- injection Hstep as <- <-. split; [done|]. right. split; [done|]. intros p Hp. split; [|done]. destruct p; [by intros []|by intros []].
        -- apply orb_false_iff in E as [E1 E2]. injection Hstep as <- <-. unfold thread_of. cbn.
           rewrite list_lookup_insert_eq by done. cbn. rewrite Ht. split; [done|]. left.
           apply negb_false_iff in E1. rewrite E1, E2 in Hf. pose proof (rank_pending ex i x Hx) as Hr.
           unfold rank at 1. cbn. rewrite list_lookup_insert_eq by done. cbn.
           destruct (x_decode_done x); [cbn in Hf; lia|]. specialize (Hr eq_refl E2). lia.
      * right. injection Hstep as <- <-. unfold thread_of. cbn. rewrite list_lookup_insert_eq by done. cbn. rewrite Ht.
        split; [done|]. right. assert (Hr : rank (set_xslot ex i (set_cancelled x true)) i = rank ex i).
        { apply (rank_same _ _ i x (set_cancelled x true)); try done. cbn. by rewrite list_lookup_insert_eq. }
        split; [done|]. apply (helper_same (MarkCancelled i) ex _ [] i); try done; [cbn; unfold on_slot; by rewrite Hx|].
        right. by intros ? ? -> [].
    + (* another slot's sections *)
      right. pose proof (other_section l ex ex' evs i k x Hi El Hne Hstep Hx) as Hx'.
      split; [unfold thread_of; by rewrite Hx'; cbn; rewrite Ht|].
      destruct (slot_section_update l ex ex' evs k Hi El Hstep) as (y & y' & es & Hu & _ & _).
      assert (Hnw : l <> DecodeWake i /\ l <> PrefillLeave i) by (split; intros ->; injection El as ->; done). destruct Hnw as [Hnw Hnl].
      assert (Hnc : rank ex i = 1%nat \/ forall p, rank ex i <> 4%nat -> p = PCoordinator -> ~ turn p l).
      { right. intros p _ ->. by destruct l; try discriminate El; intros []. }
      destruct (section_busy l ex ex' evs k El Hstep) as [(-> & Hb & Hpe)|[(-> & Hb)|(Hb & Hl & _)]].
      * (* a grant: not while a token is pending *)
        right. assert (Hr : rank ex' i = rank ex i).
        { apply (rank_same ex ex' i x x); try done. intros Hd Hfl. rewrite Hd, Hfl in Hf.
          destruct (x_decode_pending x) eqn:Hpend; [|cbn in Hf; lia]. pose proof (decode_pending_pos ex i x Hi Hx Hpend). lia. }
        split; [done|]. by apply (helper_same (PrefillGrant k) ex ex' evs i).
      * (* a prefill ends *)
        pose proof (su_coordinator _ _ _ _ _ Hu) as Hc. destruct (decide (rank ex i = 4%nat)) as [Hr4|Hr4].
        -- left. unfold rank in *. rewrite Hx, Hx', Hc, Hb in *. destruct (x_decode_done x); [lia|].
           destruct (x_decode_in_flight x); [lia|]. destruct (ex_coordinator ex); lia.
        -- right. assert (Hr : rank ex' i = rank ex i).
           { apply (rank_same ex ex' i x x); try done. intros Hd Hfl. split; [done|]. intros Hcr.
             unfold rank in Hr4. rewrite Hx, Hd, Hfl, Hcr in Hr4. rewrite Hb. by destruct (ex_model_busy ex). }
           split; [done|]. by apply (helper_same (PrefillLeave k) ex ex' evs i).
      * right. assert (Hr : rank ex' i = rank ex i).
        { apply (rank_same ex ex' i x x); try done. intros _ _. split; [by apply (su_coordinator _ _ _ _ _ Hu) | done]. }
        split; [done|]. apply (helper_same l ex ex' evs i); try done.
  - (* the coordinator and the rest *)
    right. rewrite (global_thread l ex ex' evs i El Hstep). split; [done|].
    destruct (global_rank l ex ex' evs i x Hi Hx Ht El Hstep) as [Hr|[Hr Hc]]; [by left | right]. split; [done|].
    apply (helper_same l ex ex' evs i); try done; by destruct l.
Qed.

Lemma next_bound ex k : (ex_last_prefill_slot ex < length (ex_slots ex))%nat ->
  server_next_prefill_slot_locked ex = Some k -> (k < length (ex_slots ex))%nat.
Proof.
  intros Hl Hk. apply next_waiting_spec in Hk as (a & _ & -> & _); [|done]. apply Nat.mod_upper_bound. lia.
Qed.

Lemma steps_last ls : forall ex ex' evs, inv ex -> (ex_last_prefill_slot ex < length (ex_slots ex))%nat ->
  steps ls ex = Some (ex', evs) -> (ex_last_prefill_slot ex' < length (ex_slots ex'))%nat.
Proof.
  induction ls as [|l ls IH]; intros ex ex' evs Hi Hl; cbn [steps]; [by intros [= <- _]|].
  destruct (step l ex) as [[ex1 evs1]|] eqn:E1; [|done]. destruct (steps ls ex1) as [[ex2 evs2]|] eqn:E2; [|done].
  intros [= <- _]. destruct (step_sound l ex ex1 evs1 Hi E1) as (Hi1 & Hl1 & _). apply (IH ex1 ex2 evs2 Hi1); [|done].
  rewrite Hl1. destruct (step_last l ex ex1 evs1 E1) as [(k & _ & Hk & ->)|[_ ->]]; [by apply next_bound | done].
Qed.

(** An infinite run, and weak fairness of the processes. *)
Definition run (slot_count : nat) (sg : nat -> executor) (lb : nat -> label) (ev : nat -> list (nat * event)) : Prop :=
  sg 0%nat = executor_init slot_count /\ forall n, step (lb n) (sg n) = Some (sg (S n), ev n).

Definition fair (sg : nat -> executor) (lb : nat -> label) : Prop :=
  forall p n, exists m, (n <= m)%nat /\ (~ enabled p (sg m) \/ turn p (lb m)).

Lemma run_inv slot_count sg lb ev n : run slot_count sg lb ev -> inv (sg n).
Proof.
  intros [H0 Hs]. induction n as [|n IH]; [rewrite H0; apply init_inv|].
  by destruct (step_sound _ _ _ _ IH (Hs n)) as (? & _).
Qed.

Lemma run_returns slot_count sg lb ev i : run slot_count sg lb ev -> fair sg lb ->
  forall n, thread_of (sg n) i = Some TDecode -> exists m, (n <= m)%nat /\ exists rc, (i, Return rc) ∈ ev m.
Proof.
  intros Hr Hfair. pose proof (fun n => run_inv _ _ _ _ n Hr) as Hi. destruct Hr as [_ Hs].
  apply (helpful_eventually (fun n => thread_of (sg n) i = Some TDecode) (fun n => exists rc, (i, Return rc) ∈ ev n)
    (fun n => rank (sg n) i) (fun n => helper (sg n) i) (fun p n => turn p (lb n)) (fun p n => ~ enabled p (sg n))).
  - intros n Hn. unfold thread_of in Hn. destruct (ex_slots (sg n) !! i) as [x|] eqn:Ex; [|done]. injection Hn as Hn.
    exact (step_rank _ _ _ _ i x (Hi n) Ex Hn (Hs n)).
  - intros n Hn. unfold thread_of in Hn. destruct (ex_slots (sg n) !! i) as [x|] eqn:Ex; [|done]. injection Hn as Hn.
    by eapply helper_exists.
  - intros n p Hn Hp Hne. unfold thread_of in Hn. destruct (ex_slots (sg n) !! i) as [x|] eqn:Ex; [|done]. injection Hn as Hn.
    apply Hne. by eapply helper_enabled.
  - exact Hfair.
Qed.

(** ** Properties *)

(** C33: In every run the model is used by at most one party, the busy flag
    says whether it is, the pending counter is the number of pending slots, a
    slot in the batch is one that waits for its token, and no call is refused
    because another is in flight. *)
Theorem model_exclusive slot_count ls ex evs : steps ls (executor_init slot_count) = Some (ex, evs) ->
  (count_if is_prefill (ex_slots ex) + b2n (in_batch ex) = b2n (ex_model_busy ex))%nat /\
  ex_decode_pending ex = Z.of_nat (count_if x_decode_pending (ex_slots ex)) /\
  (forall i x, ex_slots ex !! i = Some x -> i ∈ members_of ex -> x_thread x = TDecode /\ x_decode_pending x = false) /\
  (forall i x, ex_slots ex !! i = Some x -> x_thread x = TOut -> eval_token_refusal ex x <> Some AlreadyInFlight).
Proof.
  intros Hs. destruct (steps_sound _ _ _ _ (init_inv slot_count) Hs) as (Hi & _ & _). split_and!; [apply Hi | apply Hi | |].
  - intros i x Hx Hm. destruct (iv_slots ex Hi i x Hx) as [Hok [_ Hf]]. specialize (Hf Hm). unfold x_ok in Hok. rewrite Hf in Hok.
    destruct (x_thread x); try (destruct Hok as (_ & _ & Hok & _); discriminate Hok). split; [done|].
    destruct (x_decode_pending x); [cbn in Hok; lia | done].
  - intros i x Hx Ht. destruct (iv_slots ex Hi i x Hx) as [Hok _]. unfold x_ok in Hok. rewrite Ht in Hok.
    destruct Hok as (_ & Hp & Hf & _). unfold eval_token_refusal. rewrite Hp, Hf. by destruct (ex_stop_requested ex || x_cancelled x).
Qed.

(** C34: In every run the events of a slot follow the contract of
    [server_eval_token]: each submitted token is handed to the backend at most
    once and in order, or withdrawn; the call returns the backend's answer for
    that token, or that it was interrupted, and once. *)
Theorem decode_calls_refine slot_count ls ex evs i : steps ls (executor_init slot_count) = Some (ex, evs) ->
  (i < slot_count)%nat -> exists x, ex_slots ex !! i = Some x /\ call_run NoCall (events_of i evs) = Some (call_of x).
Proof.
  intros Hs Hi. destruct (steps_sound _ _ _ _ (init_inv slot_count) Hs) as (_ & _ & Hc).
  apply (Hc i (XSlot TOut false false false false false 0 0)). cbn [executor_init ex_slots]. by apply lookup_replicate_2.
Qed.

(** The round robin is fair: from any reachable state, while a slot waits to
    prefill (and is neither served nor gives up) fewer prefills are granted
    than there are slots. *)
Theorem prefill_round_robin slot_count i ls0 ls ex0 ex evs0 evs : (0 < slot_count)%nat ->
  steps ls0 (executor_init slot_count) = Some (ex0, evs0) -> thread_of ex0 i = Some TPrefillWait ->
  steps ls ex0 = Some (ex, evs) -> PrefillGrant i ∉ ls -> PrefillGiveUp i ∉ ls -> (count_if is_grant ls < slot_count)%nat.
Proof.
  intros Hn Hs0 Ht Hs H1 H2. destruct (steps_sound _ _ _ _ (init_inv slot_count) Hs0) as (Hi & Hl & _).
  assert (Hlen : length (ex_slots (executor_init slot_count)) = slot_count) by (cbn; apply length_replicate).
  rewrite Hlen in Hl. assert (Hlast : (ex_last_prefill_slot ex0 < length (ex_slots ex0))%nat).
  { apply (steps_last ls0 (executor_init slot_count) ex0 evs0); [apply init_inv | rewrite Hlen; cbn; lia | done]. }
  pose proof (bypass_bound i ls ex0 ex evs Hi Hlast Ht H1 H2 Hs) as Hb. rewrite Hl in Hb.
  eapply Nat.le_lt_trans; [exact Hb|]. apply Nat.mod_upper_bound. lia.
Qed.

(** C11: No decode call hangs: in an infinite run in which the coordinator and
    the threads that wait for nobody move on some time (the backend and the
    prefills return), every call that waits for its token returns, whatever
    other slots, cancellations and the shutdown do. *)
Theorem decode_returns slot_count sg lb ev i n : run slot_count sg lb ev -> fair sg lb ->
  thread_of (sg n) i = Some TDecode -> exists m rc, (n <= m)%nat /\ (i, Return rc) ∈ ev m.
Proof.
  intros Hr Hf Ht. destruct (run_returns slot_count sg lb ev i Hr Hf n Ht) as (m & Hm & rc & Hrc). by exists m, rc.
Qed.
End Executor.

(** ** The coalescing deadline *)

(** [server_decode_coalesce_us]: the environment's value if it is a number up to
    100000, 2000 otherwise. *)
Definition server_decode_coalesce_us (env : option bytes) : Z :=
  match env with
  | Some ((_ :: _) as s) =>
      match strtol s with
      | Some (v, rest, _) => if (length rest =? 0)%nat && (0 <=? v) && (v <=? 100000) then v else 2000
      | None => 2000
      end
  | _ => 2000
  end.

(** Seconds and nanoseconds, on [long] values that do not overflow. *)
Definition timespec_add_us (ts : Z * Z) (us : Z) : Z * Z :=
  let '(sec, nsec) := ts in
  if us <=? 0 then ts
  else
    let nsec := nsec + Z.rem us 1000000 * 1000 in
    (sec + (Z.quot us 1000000 + Z.quot nsec 1000000000), Z.rem nsec 1000000000).

(** The deadline is the configured time after now, as a normal [timespec]. *)
Lemma deadline_exact env sec nsec : 0 <= nsec < 1000000000 ->
  let us := server_decode_coalesce_us env in let '(sec', nsec') := timespec_add_us (sec, nsec) us in
  0 <= us <= 100000 /\ 0 <= nsec' < 1000000000 /\ sec' * 1000000000 + nsec' = sec * 1000000000 + nsec + us * 1000.
Proof.
  intros Hn us. assert (Hus : 0 <= us <= 100000).
  { unfold us, server_decode_coalesce_us. destruct env as [[|c s]|]; try lia. destruct (strtol (c :: s)) as [[[v rest] ?]|]; [|lia].
    match goal with |- context [if ?b then _ else _] => destruct b eqn:E end; [bool_prop; lia | lia]. }
  unfold timespec_add_us. destruct (Z.leb_spec us 0).
  - split_and!; lia.
  - rewrite !Z.rem_mod_nonneg, !Z.quot_div_nonneg by lia. clearbody us. split_and!; try lia; zdiv.
Qed.

(** ** Concrete runs *)

Definition waiting_slot (w : bool) : xslot := XSlot (if w then TPrefillWait else TOut) false w false false false 0 0.

(** The round robin of the repository's own test: slots 0, 2 and 3 of 4 wait. *)
Example round_robin_test :
  next_waiting (map waiting_slot [true; false; true; true]) 0 1 4 = Some 2%nat /\
  next_waiting (map waiting_slot [true; false; true; true]) 2 1 4 = Some 3%nat /\
  next_waiting (map waiting_slot [true; false; true; false]) 2 1 4 = Some 0%nat /\
  next_waiting (map waiting_slot [false; false; false; false]) 2 1 4 = None.
Proof. done. Qed.

(** Two slots: one decodes while the other waits to prefill. *)
Definition mixed_labels : list label :=
  [DecodeSubmit 0 7; PrefillRequest 1; CoordinatorWake; Start; Finished 0; PrefillGrant 1; DecodeWake 0; DecodeSubmit 0 8;
   MarkCancelled 0; DecodeWake 0].

Definition mixed_state (n : nat) : executor :=
  match steps 0 (take n mixed_labels) (executor_init 2) with Some (ex, _) => ex | None => executor_init 2 end.

Lemma model_exclusive_witness : exists evs, steps 0 (take 8 mixed_labels) (executor_init 2) = Some (mixed_state 8, evs) /\
  ex_decode_pending (mixed_state 8) = 1 /\ ex_model_busy (mixed_state 8) = true /\
  (count_if is_prefill (ex_slots (mixed_state 8)) + b2n (in_batch (mixed_state 8)) = 1)%nat.
Proof.
  eexists. split; [vm_compute; reflexivity|]. split; [vm_compute; reflexivity|]. split; [vm_compute; reflexivity|].
  eapply (model_exclusive 0 2 (take 8 mixed_labels) (mixed_state 8)). vm_compute. reflexivity.
Defined.

Lemma decode_calls_refine_witness : exists evs, steps 0 mixed_labels (executor_init 2) = Some (mixed_state 10, evs) /\
  events_of 0 evs = [Submit 7; Evaluate 7; Finish 0; Return 0; Submit 8; Withdraw; Return 2] /\
  exists x, ex_slots (mixed_state 10) !! 0%nat = Some x /\ call_run NoCall (events_of 0 evs) = Some (call_of x).
Proof.
  eexists. split; [vm_compute; reflexivity|]. split; [vm_compute; reflexivity|].
  apply (decode_calls_refine 0 2 mixed_labels (mixed_state 10)); [vm_compute; reflexivity | lia].
Defined.

Lemma prefill_round_robin_witness : (count_if is_grant [PrefillGrant 1; PrefillLeave 1; PrefillRequest 1] < 3)%nat.
Proof.
  eapply (prefill_round_robin 0 3 2 [PrefillRequest 0; PrefillRequest 1; PrefillRequest 2; PrefillGrant 0; PrefillLeave 0; PrefillRequest 0]
    [PrefillGrant 1; PrefillLeave 1; PrefillRequest 1]).
  - lia.
  - vm_compute. reflexivity.
  - vm_compute. reflexivity.
  - vm_compute. reflexivity.
  - by rewrite !not_elem_of_cons, elem_of_nil; split_and!; [discriminate..|intros []].
  - by rewrite !not_elem_of_cons, elem_of_nil; split_and!; [discriminate..|intros []].
Defined.

Definition call_labels : list label := [DecodeSubmit 0 7; CoordinatorWake; Start; Finished 0; DecodeWake 0].

Definition call_state (n : nat) : executor :=
  match steps 0 (take n call_labels) (executor_init 1) with Some (ex, _) => ex | None => executor_init 1 end.

Definition call_label (n : nat) : label := nth n call_labels GenerationLeave.

Definition call_events (n : nat) : list (nat * event) :=
  match step 0 (call_label n) (call_state n) with Some (_, evs) => evs | None => [] end.

Lemma call_after n : call_state (5 + n) = call_state 5.
Proof. unfold call_state. by rewrite !take_ge by (cbn; lia). Qed.

Lemma call_run_ok : run 0 1 call_state call_label call_events.
Proof.
  split; [reflexivity|]. intros n. do 5 (destruct n as [|n]; [vm_compute; reflexivity|]).
  change (step 0 (call_label (5 + n)) (call_state (5 + n)) = Some (call_state (5 + S n), call_events (5 + n))).
  unfold call_events. rewrite !call_after. unfold call_label. rewrite nth_overflow by (cbn; lia). vm_compute. reflexivity.
Qed.

Lemma call_fair : fair 0 call_state call_label.
Proof.
  intros p n. exists (5 + n)%nat. split; [lia|]. left. rewrite call_after. intros (l & Ht & Hl). apply Hl.
  destruct p as [|i]; cbn in Ht.
  - destruct l; try done; vm_compute; reflexivity.
  - destruct Ht as [->| ->]; destruct i as [|i]; vm_compute; reflexivity.
Qed.

Lemma decode_returns_witness : exists m rc, (2 <= m)%nat /\ (0%nat, Return rc) ∈ call_events m.
Proof.
  apply (decode_returns 0 1 call_state call_label call_events 0 2 call_run_ok call_fair). vm_compute. reflexivity.
Defined.
