(* ===== verification/ToolMemory.v ===== *)
(** * Tool call text memory (ds4_server.c)

    The memory binds tool-call ids to the exact text the model sampled, so that
    a client's replay of the calls can be rendered as the bytes the KV cache was
    computed from.  Entries and text blocks are heap objects linked by pointers:
    a doubly linked recency list, one reference-counted block per distinct text
    with a list of its users, and two radix trees, taken as finite maps.  The
    operations are written on that heap; reading a freed or missing object is
    [None].  A list of items, most recent first, is the specification. *)

From S2P Require Import Prelude.
#[local] Open Scope Z_scope.
#[local] Open Scope stdpp_scope.

Definition DS4_TOOL_MEMORY_DEFAULT_MAX_IDS : Z := 100000.
Definition DS4_TOOL_MEMORY_MAX_BYTES : Z := 536870912.

(** [sizeof] of the two structures with 64-bit pointers. *)
Definition sizeof_entry : Z := 64.
Definition sizeof_block : Z := 48.

Inductive tool_memory_source := TOOL_MEMORY_RAM | TOOL_MEMORY_DISK.

#[export] Instance source_eq_dec : EqDecision tool_memory_source.
Proof. solve_decision. Defined.

(** ** The heap *)

(** Addresses; NULL is [None]. *)
Abbreviation ptr := (option nat).

Record tool_memory_block := Block {
  b_dsml : bytes; b_bytes : Z; b_refs : Z; b_entries : ptr }.

Record tool_memory_entry := Entry {
  e_id : bytes; e_block : nat; e_bytes : Z; e_stamp : Z; e_source : tool_memory_source;
  e_prev : ptr; e_next : ptr; e_block_next : ptr }.

Record tool_memory := TM {
  tm_e : gmap nat tool_memory_entry;  (* the entries on the heap *)
  tm_b : gmap nat tool_memory_block;  (* the blocks on the heap *)
  tm_addr : nat;  (* addresses from here on are free *)
  tm_by_id : gmap bytes nat;
  tm_by_block : gmap bytes nat;
  tm_head : ptr;
  tm_tail : ptr;
  tm_entries : Z;
  tm_max_entries : Z;
  tm_bytes : Z;
  tm_max_bytes : Z;
  tm_clock : Z }.

Definition tool_memory_max_entries (m : tool_memory) : Z :=
  if 0 <? tm_max_entries m then tm_max_entries m else DS4_TOOL_MEMORY_DEFAULT_MAX_IDS.

Definition tool_memory_max_bytes (m : tool_memory) : Z :=
  if 0 <? tm_max_bytes m then tm_max_bytes m else DS4_TOOL_MEMORY_MAX_BYTES.

(** Assignments to fields. *)
Definition set_prev (p : ptr) (e : tool_memory_entry) : tool_memory_entry :=
  Entry (e_id e) (e_block e) (e_bytes e) (e_stamp e) (e_source e) p (e_next e) (e_block_next e).
Definition set_next (p : ptr) (e : tool_memory_entry) : tool_memory_entry :=
  Entry (e_id e) (e_block e) (e_bytes e) (e_stamp e) (e_source e) (e_prev e) p (e_block_next e).
Definition set_block_next (p : ptr) (e : tool_memory_entry) : tool_memory_entry :=
  Entry (e_id e) (e_block e) (e_bytes e) (e_stamp e) (e_source e) (e_prev e) (e_next e) p.
Definition set_stamp (s : Z) (e : tool_memory_entry) : tool_memory_entry :=
  Entry (e_id e) (e_block e) (e_bytes e) s (e_source e) (e_prev e) (e_next e) (e_block_next e).
Definition set_source (s : tool_memory_source) (e : tool_memory_entry) : tool_memory_entry :=
  Entry (e_id e) (e_block e) (e_bytes e) (e_stamp e) s (e_prev e) (e_next e) (e_block_next e).
Definition set_entries (p : ptr) (b : tool_memory_block) : tool_memory_block :=
  Block (b_dsml b) (b_bytes b) (b_refs b) p.
Definition set_refs (n : Z) (b : tool_memory_block) : tool_memory_block :=
  Block (b_dsml b) (b_bytes b) n (b_entries b).

Definition with_heap (m : tool_memory) (h : gmap nat tool_memory_entry) (b : gmap nat tool_memory_block) : tool_memory :=
  TM h b (tm_addr m) (tm_by_id m) (tm_by_block m) (tm_head m) (tm_tail m) (tm_entries m) (tm_max_entries m)
    (tm_bytes m) (tm_max_bytes m) (tm_clock m).
Definition with_list (m : tool_memory) (h : gmap nat tool_memory_entry) (hd tl : ptr) : tool_memory :=
  TM h (tm_b m) (tm_addr m) (tm_by_id m) (tm_by_block m) hd tl (tm_entries m) (tm_max_entries m)
    (tm_bytes m) (tm_max_bytes m) (tm_clock m).
Definition with_clock (m : tool_memory) (c : Z) : tool_memory :=
  TM (tm_e m) (tm_b m) (tm_addr m) (tm_by_id m) (tm_by_block m) (tm_head m) (tm_tail m) (tm_entries m)
    (tm_max_entries m) (tm_bytes m) (tm_max_bytes m) c.
Definition with_ids (m : tool_memory) (ids : gmap bytes nat) : tool_memory :=
  TM (tm_e m) (tm_b m) (tm_addr m) ids (tm_by_block m) (tm_head m) (tm_tail m) (tm_entries m)
    (tm_max_entries m) (tm_bytes m) (tm_max_bytes m) (tm_clock m).
Definition with_blocks (m : tool_memory) (blocks : gmap bytes nat) : tool_memory :=
  TM (tm_e m) (tm_b m) (tm_addr m) (tm_by_id m) blocks (tm_head m) (tm_tail m) (tm_entries m)
    (tm_max_entries m) (tm_bytes m) (tm_max_bytes m) (tm_clock m).
Definition with_counts (m : tool_memory) (n bytes : Z) : tool_memory :=
  TM (tm_e m) (tm_b m) (tm_addr m) (tm_by_id m) (tm_by_block m) (tm_head m) (tm_tail m) n
    (tm_max_entries m) bytes (tm_max_bytes m) (tm_clock m).

(** [malloc] of a new address. *)
Definition alloc (m : tool_memory) : tool_memory * nat :=
  (TM (tm_e m) (tm_b m) (S (tm_addr m)) (tm_by_id m) (tm_by_block m) (tm_head m) (tm_tail m) (tm_entries m)
     (tm_max_entries m) (tm_bytes m) (tm_max_bytes m) (tm_clock m), tm_addr m).

(** [p->f = v] through a pointer that must not dangle. *)
Definition store (h : gmap nat tool_memory_entry) (a : nat) (f : tool_memory_entry -> tool_memory_entry)
  : option (gmap nat tool_memory_entry) :=
  e ← h !! a; Some (<[a := f e]> h).

(** ** Operations *)

Definition tool_memory_link_head (m : tool_memory) (a : nat) : option tool_memory :=
  h ← store (tm_e m) a (fun e => set_next (tm_head m) (set_prev None e));
  match tm_head m with
  | Some b => h ← store h b (set_prev (Some a)); Some (with_list m h (Some a) (tm_tail m))
  | None => Some (with_list m h (Some a) (Some a))
  end.

Definition tool_memory_unlink (m : tool_memory) (a : nat) : option tool_memory :=
  e ← tm_e m !! a;
  '(h, hd) ← match e_prev e with
             | Some p => h ← store (tm_e m) p (set_next (e_next e)); Some (h, tm_head m)
             | None => Some (tm_e m, e_next e)
             end;
  e ← h !! a;
  '(h, tl) ← match e_next e with
             | Some n => h ← store h n (set_prev (e_prev e)); Some (h, tm_tail m)
             | None => Some (h, e_prev e)
             end;
  h ← store h a (fun e => set_next None (set_prev None e));
  Some (with_list m h hd tl).

Definition tool_memory_touch (m : tool_memory) (a : nat) : option tool_memory :=
  let m := with_clock m (u64 (tm_clock m + 1)) in
  h ← store (tm_e m) a (set_stamp (tm_clock m));
  let m := with_heap m h (tm_b m) in
  if bool_decide (tm_head m = Some a) then Some m
  else m ← tool_memory_unlink m a; tool_memory_link_head m a.

(** [p] is the address of the link that holds [cur]: the block's or that of the
    entry [where_]. *)
Fixpoint unlink_walk (fuel : nat) (h : gmap nat tool_memory_entry) (b : tool_memory_block) (where_ cur : ptr) (a : nat)
  : option (gmap nat tool_memory_entry * tool_memory_block) :=
  match fuel with
  | O => None
  | S fuel' =>
      match cur with
      | None => Some (h, b)
      | Some c =>
          e ← h !! c;
          if (c =? a)%nat then
            match where_ with
            | None => h ← store h c (set_block_next None); Some (h, set_entries (e_block_next e) b)
            | Some w =>
                h ← store h w (set_block_next (e_block_next e));
                h ← store h c (set_block_next None);
                Some (h, b)
            end
          else unlink_walk fuel' h b (Some c) (e_block_next e) a
      end
  end.

Definition tool_block_unlink_entry (m : tool_memory) (b a : nat) : option tool_memory :=
  bl ← tm_b m !! b;
  '(h, bl) ← unlink_walk (S (size (tm_e m))) (tm_e m) bl None (b_entries bl) a;
  Some (with_heap m h (<[b := bl]> (tm_b m))).

Definition tool_memory_find_block_locked (m : tool_memory) (dsml : bytes) : ptr :=
  match dsml with [] => None | _ => tm_by_block m !! dsml end.

Definition tool_memory_get_block_locked (m : tool_memory) (dsml : bytes) : tool_memory * nat :=
  match tool_memory_find_block_locked m dsml with
  | Some b => (m, b)
  | None =>
      let '(m, b) := alloc m in
      let bl := Block dsml (zlen dsml + 1 + sizeof_block) 0 None in
      let m := with_heap m (tm_e m) (<[b := bl]> (tm_b m)) in
      let m := with_blocks m (<[dsml := b]> (tm_by_block m)) in
      (with_counts m (tm_entries m) (tm_bytes m + b_bytes bl), b)
  end.

Definition tool_memory_release_block_locked (m : tool_memory) (b : nat) : option tool_memory :=
  bl ← tm_b m !! b;
  let bl := set_refs (b_refs bl - 1) bl in
  if 0 <? b_refs bl then Some (with_heap m (tm_e m) (<[b := bl]> (tm_b m)))
  else
    let m := with_blocks m (delete (b_dsml bl) (tm_by_block m)) in
    let m := with_counts m (tm_entries m) (if b_bytes bl <=? tm_bytes m then tm_bytes m - b_bytes bl else 0) in
    Some (with_heap m (tm_e m) (delete b (tm_b m))).

Definition tool_memory_remove_entry_locked (m : tool_memory) (a : nat) : option tool_memory :=
  e ← tm_e m !! a;
  let m := with_ids m (delete (e_id e) (tm_by_id m)) in
  m ← tool_memory_unlink m a;
  m ← tool_block_unlink_entry m (e_block e) a;
  let m := with_counts m (if 0 <? tm_entries m then tm_entries m - 1 else tm_entries m)
             (if e_bytes e <=? tm_bytes m then tm_bytes m - e_bytes e else 0) in
  m ← tool_memory_release_block_locked m (e_block e);
  Some (with_heap m (delete a (tm_e m)) (tm_b m)).

Definition over_limits (m : tool_memory) : bool :=
  (tool_memory_max_entries m <? tm_entries m) || (tool_memory_max_bytes m <? tm_bytes m).

Fixpoint prune_loop (fuel : nat) (m : tool_memory) : option tool_memory :=
  match fuel with
  | O => None
  | S fuel' =>
      match over_limits m, tm_tail m with
      | true, Some t => m ← tool_memory_remove_entry_locked m t; prune_loop fuel' m
      | _, _ => Some m
      end
  end.

(** Every round frees an entry. *)
Definition tool_memory_prune_locked (m : tool_memory) : option tool_memory := prune_loop (S (size (tm_e m))) m.

Definition tool_memory_find_entry_locked (m : tool_memory) (id : bytes) : ptr :=
  match id with [] => None | _ => tm_by_id m !! id end.

(** The new entry and its links. *)
Definition new_entry (m : tool_memory) (id dsml : bytes) (source : tool_memory_source) : option tool_memory :=
  let '(m, b) := tool_memory_get_block_locked m dsml in
  let '(m, a) := alloc m in
  bl ← tm_b m !! b;
  let m := with_clock m (u64 (tm_clock m + 1)) in
  let e := Entry id b (zlen id + 1 + sizeof_entry) (tm_clock m) source None None (b_entries bl) in
  let m := with_heap m (<[a := e]> (tm_e m)) (<[b := set_refs (b_refs bl + 1) (set_entries (Some a) bl)]> (tm_b m)) in
  let m := with_ids m (<[id := a]> (tm_by_id m)) in
  m ← tool_memory_link_head m a;
  Some (with_counts m (tm_entries m + 1) (tm_bytes m + e_bytes e)).

Definition tool_memory_put_locked (m : tool_memory) (id dsml : bytes) (source : tool_memory_source) : option tool_memory :=
  match id, dsml with
  | [], _ | _, [] => Some m
  | _, _ =>
      match tool_memory_find_entry_locked m id with
      | Some old =>
          e ← tm_e m !! old;
          bl ← tm_b m !! e_block e;
          if bytes_eqb (b_dsml bl) dsml then
            h ← match source with
                | TOOL_MEMORY_RAM => store (tm_e m) old (set_source TOOL_MEMORY_RAM)
                | TOOL_MEMORY_DISK => Some (tm_e m)
                end;
            m ← tool_memory_touch (with_heap m h (tm_b m)) old;
            tool_memory_prune_locked m
          else
            m ← tool_memory_remove_entry_locked m old;
            m ← new_entry m id dsml source;
            tool_memory_prune_locked m
      | None => m ← new_entry m id dsml source; tool_memory_prune_locked m
      end
  end.

(** The text, its source and its block. *)
Definition tool_memory_lookup_locked (m : tool_memory) (id : bytes)
  : option (tool_memory * option (bytes * tool_memory_source * nat)) :=
  match tool_memory_find_entry_locked m id with
  | None => Some (m, None)
  | Some a =>
      m ← tool_memory_touch m a;
      e ← tm_e m !! a;
      bl ← tm_b m !! e_block e;
      Some (m, Some (b_dsml bl, e_source e, e_block e))
  end.

Definition tool_memory_init (max_entries max_bytes : Z) : tool_memory :=
  TM ∅ ∅ 0 ∅ ∅ None None 0 max_entries 0 max_bytes 0.

(** ** Segments of the recency list *)

Abbreviation heap := (gmap nat tool_memory_entry).

Definition head_or (l : list nat) (n : ptr) : ptr := match l with [] => n | a :: _ => Some a end.
Definition last_or (p : ptr) (l : list nat) : ptr := match last l with Some a => Some a | None => p end.

(** The entries of [l] are linked in this order, from [p] to [n]. *)
Fixpoint seg (h : heap) (p : ptr) (l : list nat) (n : ptr) : Prop :=
  match l with
  | [] => True
  | a :: l' => exists e, h !! a = Some e /\ e_prev e = p /\ e_next e = head_or l' n /\ seg h (Some a) l' n
  end.

Lemma last_or_cons p a l : last_or p (a :: l) = last_or (Some a) l.
Proof. unfold last_or. destruct l as [|b l]; [done|]. change (last (a :: b :: l)) with (last (b :: l)). destruct (last (b :: l)) eqn:E; [done|]. by apply last_None in E. Qed.

Lemma head_or_app l1 l2 n : head_or (l1 ++ l2) n = head_or l1 (head_or l2 n).
Proof. by destruct l1. Qed.

Lemma seg_app h p l1 l2 n : seg h p (l1 ++ l2) n <-> seg h p l1 (head_or l2 n) /\ seg h (last_or p l1) l2 n.
Proof.
  revert p. induction l1 as [|a l1 IH]; intros p; cbn [app seg]; [unfold last_or; cbn; tauto|].
  rewrite last_or_cons, head_or_app. setoid_rewrite IH. naive_solver.
Qed.

Lemma seg_frame h h' p l n : (forall a, a ∈ l -> h' !! a = h !! a) -> seg h p l n -> seg h' p l n.
Proof.
  revert p. induction l as [|a l IH]; intros p Hf; cbn; [done|]. intros (e & He & Hp & Hn & Hs).
  exists e. split_and!; [rewrite Hf by set_solver; done | done | done |]. apply IH; [|done]. intros b Hb. apply Hf. set_solver.
Qed.

Lemma seg_lookup h p l n a : seg h p l n -> a ∈ l -> is_Some (h !! a).
Proof.
  revert p. induction l as [|b l IH]; intros p; cbn; [by intros _ ?%elem_of_nil|].
  intros (e & He & _ & _ & Hs) [->|Ha]%elem_of_cons; [by rewrite He | by eapply IH].
Qed.

(** Redirecting what comes after a segment. *)
Lemma seg_set_last h p l b n n' : NoDup (l ++ [b]) -> seg h p (l ++ [b]) n ->
  exists h', store h b (set_next n') = Some h' /\ seg h' p (l ++ [b]) n' /\ (forall a, a <> b -> h' !! a = h !! a).
Proof.
  intros Hn. rewrite seg_app. intros [H1 (e & He & Hp & Hne & _)]. unfold store. rewrite He. eexists. split; [done|].
  assert (Hfr : forall a, a <> b -> <[b := set_next n' e]> h !! a = h !! a) by (intros a Ha; by rewrite lookup_insert_ne).
  split; [|done]. apply seg_app. apply NoDup_app in Hn as (_ & Hd & _). split.
  - eapply seg_frame; [|exact H1]. intros a Ha. apply Hfr. intros ->. apply (Hd b Ha). set_solver.
  - eexists. rewrite lookup_insert_eq. split_and!; [done | exact Hp | done | done].
Qed.

(** Redirecting what comes before a segment. *)
Lemma seg_set_head h p p' b l n : NoDup (b :: l) -> seg h p (b :: l) n ->
  exists h', store h b (set_prev p') = Some h' /\ seg h' p' (b :: l) n /\ (forall a, a <> b -> h' !! a = h !! a).
Proof.
  intros [Hb _]%NoDup_cons (e & He & _ & Hne & Hs). unfold store. rewrite He. eexists. split; [done|].
  assert (Hfr : forall a, a <> b -> <[b := set_prev p' e]> h !! a = h !! a) by (intros a Ha; by rewrite lookup_insert_ne).
  split; [|done]. eexists. rewrite lookup_insert_eq. split_and!; [done | done | exact Hne |].
  eapply seg_frame; [|exact Hs]. intros a Ha. apply Hfr. by intros ->.
Qed.

(** The fields the list operations do not touch. *)
Definition rest (e : tool_memory_entry) : bytes * nat * Z * tool_memory_source * ptr :=
  (e_id e, e_block e, e_bytes e, e_source e, e_block_next e).

Definition same_rest (h h' : heap) : Prop := forall a, rest <$> h' !! a = rest <$> h !! a.

#[export] Instance same_rest_refl : Reflexive same_rest.
Proof. by intros h a. Qed.
#[export] Instance same_rest_trans : Transitive same_rest.
Proof. intros h1 h2 h3 H1 H2 a. by rewrite H2. Qed.

Lemma store_rest h a f h' : (forall e, rest (f e) = rest e) -> store h a f = Some h' -> same_rest h h'.
Proof.
  intros Hf. unfold store. destruct (h !! a) as [e|] eqn:E; [|done]. intros [= <-] b. destruct (decide (a = b)) as [->|].
  - rewrite lookup_insert_eq, E. cbn. by rewrite Hf.
  - by rewrite lookup_insert_ne.
Qed.

Lemma store_some h a f : is_Some (h !! a) -> exists h', store h a f = Some h' /\ forall b, h' !! b = if decide (b = a) then f <$> h !! a else h !! b.
Proof.
  intros [e He]. unfold store. rewrite He. eexists. split; [done|]. intros b. destruct (decide (b = a)) as [->|]; [by rewrite lookup_insert_eq|].
  by rewrite lookup_insert_ne.
Qed.

(** [m'] differs from [m] only in the links of the recency list. *)
Record relinked (m m' : tool_memory) : Prop := {
  rl_rest : same_rest (tm_e m) (tm_e m');
  rl_b : tm_b m' = tm_b m; rl_addr : tm_addr m' = tm_addr m; rl_by_id : tm_by_id m' = tm_by_id m;
  rl_by_block : tm_by_block m' = tm_by_block m; rl_entries : tm_entries m' = tm_entries m;
  rl_max_entries : tm_max_entries m' = tm_max_entries m; rl_bytes : tm_bytes m' = tm_bytes m;
  rl_max_bytes : tm_max_bytes m' = tm_max_bytes m
}.

(** The recency list of the memory. *)
Record linked (m : tool_memory) (l : list nat) : Prop := {
  lk_seg : seg (tm_e m) None l None;
  lk_nodup : NoDup l;
  lk_head : tm_head m = head_or l None;
  lk_tail : tm_tail m = last_or None l
}.

Lemma link_head_ok m l a : linked m l -> a ∉ l -> is_Some (tm_e m !! a) ->
  exists m', tool_memory_link_head m a = Some m' /\ linked m' (a :: l) /\ relinked m m'.
Proof.
  intros [Hs Hn Hh Ht] Ha He. unfold tool_memory_link_head.
  destruct (store_some (tm_e m) a (fun e => set_next (tm_head m) (set_prev None e)) He) as (h1 & E1 & H1). rewrite E1. cbn.
  assert (Hr1 : same_rest (tm_e m) h1) by (eapply store_rest; [|eassumption]; done).
  assert (Hs1 : seg h1 None l None).
  { eapply seg_frame; [|exact Hs]. intros b Hb. rewrite H1. destruct (decide (b = a)); congruence. }
  destruct He as [e He]. rewrite Hh. destruct l as [|b l]; cbn [head_or].
  - eexists. split; [done|]. split; [|by split]. split; cbn; [|apply NoDup_singleton|done|done].
    exists (set_next None (set_prev None e)). rewrite H1, decide_True, He, Hh by done. done.
  - destruct (seg_set_head h1 None (Some a) b l None Hn Hs1) as (h2 & E2 & Hs2 & Hf2). rewrite E2. cbn.
    eexists. split; [done|]. split.
    + split; cbn [with_list tm_e tm_head tm_tail].
      * exists (set_next (Some b) (set_prev None e)). split_and!; [|done..|exact Hs2].
        rewrite Hf2 by set_solver. rewrite H1, decide_True, He, Hh by done. done.
      * by constructor.
      * done.
      * by rewrite last_or_cons, Ht, !last_or_cons.
    + split; try done. cbn. etrans; [exact Hr1|]. (eapply store_rest; [|eassumption]; done).
Qed.

Lemma last_or_snoc p l a : last_or p (l ++ [a]) = Some a.
Proof. unfold last_or. by rewrite last_snoc. Qed.

Lemma last_or_app p l1 l2 : last_or p (l1 ++ l2) = last_or (last_or p l1) l2.
Proof.
  unfold last_or. destruct l2 as [|b l2] using rev_ind; [rewrite app_nil_r; cbn; by destruct (last l1)|].
  by rewrite app_assoc, !last_snoc.
Qed.

Lemma unlink_ok m l1 a l2 : linked m (l1 ++ a :: l2) ->
  exists m', tool_memory_unlink m a = Some m' /\ linked m' (l1 ++ l2) /\ relinked m m'.
Proof.
  intros [Hs Hn Hh Ht]. apply seg_app in Hs as [Hs1 (e & He & Hp & Hne & Hs2)]. cbn [head_or] in Hs1.
  apply NoDup_app in Hn as (Hn1 & Hd & [Ha2 Hn2]%NoDup_cons).
  assert (Ha1 : a ∉ l1) by (intros H; apply (Hd a H); set_solver).
  assert (H12 : forall b, b ∈ l1 -> b ∉ l2) by (intros b Hb Hb'; apply (Hd b Hb); set_solver).
  unfold tool_memory_unlink. rewrite He. cbn [mbind option_bind].
  assert (Hprev : exists h1 hd, match e_prev e with
      | Some p => h ← store (tm_e m) p (set_next (e_next e)); Some (h, tm_head m)
      | None => Some (tm_e m, e_next e) end = Some (h1, hd) /\ hd = head_or (l1 ++ l2) None /\
      seg h1 None l1 (head_or l2 None) /\ (forall b, b ∉ l1 -> h1 !! b = tm_e m !! b) /\ same_rest (tm_e m) h1).
  { rewrite Hp. destruct l1 as [|p l1 _] using rev_ind; [by eexists _, _|]. rewrite last_or_snoc.
    destruct (seg_set_last (tm_e m) None l1 p (Some a) (e_next e) Hn1 Hs1) as (h1 & E1 & Hs & Hf).
    rewrite E1. eexists _, _. split; [done|]. rewrite Hne in Hs. split_and!; [|done|intros b Hb; apply Hf; set_solver|(eapply store_rest; [|eassumption]; done)].
    rewrite Hh. by destruct l1. }
  destruct Hprev as (h1 & hd & -> & Ehd & Hs1' & Hf1 & Hr1). cbn [mbind option_bind]. rewrite (Hf1 a Ha1), He. cbn [mbind option_bind].
  assert (Hs2' : seg h1 (Some a) l2 None).
  { eapply seg_frame; [|exact Hs2]. intros b Hb. apply Hf1. intros Hb1. by apply (H12 b). }
  assert (Hnext : exists h2 tl, match e_next e with
      | Some n => h ← store h1 n (set_prev (e_prev e)); Some (h, tm_tail m)
      | None => Some (h1, e_prev e) end = Some (h2, tl) /\ tl = last_or None (l1 ++ l2) /\
      seg h2 (last_or None l1) l2 None /\ (forall b, b ∉ l2 -> h2 !! b = h1 !! b) /\ same_rest h1 h2).
  { rewrite Hne. destruct l2 as [|n l2]; cbn [head_or]; [eexists _, _; split_and!; [done| |done..]; by rewrite app_nil_r, Hp|].
    destruct (seg_set_head h1 (Some a) (e_prev e) n l2 None Hn2 Hs2') as (h2 & E2 & Hs & Hf).
    rewrite E2. eexists _, _. split; [done|]. rewrite Hp in Hs. split_and!; [|done|intros b Hb; apply Hf; set_solver|(eapply store_rest; [|eassumption]; done)].
    by rewrite Ht, !last_or_app, !last_or_cons. }
  destruct Hnext as (h2 & tl & -> & Etl & Hs2'' & Hf2 & Hr2). cbn [mbind option_bind].
  destruct (store_some h2 a (fun e => set_next None (set_prev None e))) as (h3 & E3 & Hf3).
  { rewrite (Hf2 a Ha2), (Hf1 a Ha1), He. done. }
  rewrite E3. cbn [mbind option_bind]. eexists. split; [done|].
  assert (Hf3' : forall b, b <> a -> h3 !! b = h2 !! b) by (intros b Hb; rewrite Hf3; by rewrite decide_False).
  split.
  - split; cbn; [|by apply NoDup_app|done|done]. apply seg_app. split.
    + eapply seg_frame; [|exact Hs1']. intros b Hb. rewrite Hf3' by (by intros ->). apply Hf2. by apply H12.
    + eapply seg_frame; [|exact Hs2'']. intros b Hb. apply Hf3'. by intros ->.
  - split; try done. cbn. etrans; [exact Hr1|]. etrans; [exact Hr2|]. (eapply store_rest; [|eassumption]; done).
Qed.

Lemma relinked_trans m1 m2 m3 : relinked m1 m2 -> relinked m2 m3 -> relinked m1 m3.
Proof. intros [] []. split; [by etrans|congruence..]. Qed.

Lemma elem_mid (a : nat) l1 l2 : a ∈ l1 ++ a :: l2.
Proof. apply elem_of_app. right. apply list_elem_of_here. Qed.

Lemma touch_ok m l1 a l2 : linked m (l1 ++ a :: l2) ->
  exists m', tool_memory_touch m a = Some m' /\ linked m' (a :: l1 ++ l2) /\ relinked m m'.
Proof.
  intros [Hs Hn Hh Ht]. unfold tool_memory_touch. cbn [tm_e with_clock].
  destruct (store_some (tm_e m) a (set_stamp (tm_clock (with_clock m (u64 (tm_clock m + 1)))))) as (h & E & Hf).
  { exact (seg_lookup _ _ _ _ a Hs (elem_mid a l1 l2)). }
  rewrite E. cbn [mbind option_bind]. set (m1 := with_heap _ h _).
  assert (Hrl : relinked m m1) by (split; try done; cbn; eapply store_rest; [|eassumption]; done).
  assert (Hlk : linked m1 (l1 ++ a :: l2)).
  { split; [|done..]. unfold m1. cbn. revert Hs. clear - Hf. generalize (@None nat) at 1 3. induction (l1 ++ a :: l2) as [|c l IH]; intros p; cbn; [done|].
    intros (e & He & Hp & Hne & Hs). destruct (decide (c = a)) as [->|Hc].
    - eexists. rewrite Hf, decide_True, He by done. split_and!; [done | exact Hp | exact Hne | by apply IH].
    - exists e. rewrite Hf, decide_False by done. split_and!; [done.. | by apply IH]. }
  change (tm_head (with_clock m _)) with (tm_head m1). destruct (bool_decide_reflect (tm_head m1 = Some a)) as [Hd|Hd].
  - exists m1. split; [done|]. split; [|done]. destruct l1 as [|c l1]; [done|]. rewrite (lk_head m1 _ Hlk) in Hd. cbn in Hd.
    injection Hd as ->. apply NoDup_cons in Hn as [Hn _]. set_solver.
  - destruct (unlink_ok m1 l1 a l2 Hlk) as (m2 & -> & Hl2 & Hr2). cbn [mbind option_bind].
    destruct (link_head_ok m2 (l1 ++ l2) a Hl2) as (m3 & E3 & Hl3 & Hr3).
    + intros Hin. apply NoDup_app in Hn as (_ & Hdis & [Hn2 _]%NoDup_cons). apply elem_of_app in Hin as [Hin|]; [|done].
      apply (Hdis a Hin). set_solver.
    + pose proof (rl_rest _ _ Hr2 a) as Hr. destruct (seg_lookup _ _ _ _ a (lk_seg _ _ Hlk) (elem_mid a l1 l2)) as [e He].
      rewrite He in Hr. destruct (tm_e m2 !! a); [done | discriminate Hr].
    + exists m3. split; [done|]. split; [done|]. eapply relinked_trans; [exact Hrl|]. by eapply relinked_trans.
Qed.

(** ** The users of a block *)

Fixpoint cseg (h : heap) (l : list nat) (n : ptr) : Prop :=
  match l with
  | [] => True
  | a :: l' => exists e, h !! a = Some e /\ e_block_next e = head_or l' n /\ cseg h l' n
  end.

Lemma cseg_app h l1 l2 n : cseg h (l1 ++ l2) n <-> cseg h l1 (head_or l2 n) /\ cseg h l2 n.
Proof.
  induction l1 as [|a l1 IH]; cbn [app cseg]; [tauto|]. rewrite head_or_app. setoid_rewrite IH. naive_solver.
Qed.

(** The parts of an entry that the walk leaves alone. *)
Definition kept (e : tool_memory_entry) : bytes * nat * Z * Z * tool_memory_source * ptr * ptr :=
  (e_id e, e_block e, e_bytes e, e_stamp e, e_source e, e_prev e, e_next e).

Lemma cseg_frame h h' l n : (forall a, a ∈ l -> e_block_next <$> h' !! a = e_block_next <$> h !! a) -> cseg h l n -> cseg h' l n.
Proof.
  induction l as [|a l IH]; intros Hf; cbn; [done|]. intros (e & He & Hn & Hs). pose proof (Hf a ltac:(set_solver)) as Ha.
  rewrite He in Ha. destruct (h' !! a) as [e'|] eqn:E'; [|done]. injection Ha as Ha. exists e'. rewrite Ha. split_and!; [done..|].
  apply IH; [|done]. intros b Hb. apply Hf. set_solver.
Qed.

Lemma cseg_lookup h l n a : cseg h l n -> a ∈ l -> is_Some (h !! a).
Proof.
  induction l as [|b l IH]; cbn; [by intros _ ?%elem_of_nil|].
  intros (e & He & _ & Hs) [->|Ha]%elem_of_cons; [by rewrite He | by eapply IH].
Qed.

Lemma store_kept h a p h' : store h a (set_block_next p) = Some h' -> forall b, kept <$> h' !! b = kept <$> h !! b.
Proof.
  unfold store. destruct (h !! a) as [e|] eqn:E; [|done]. intros [= <-] b. destruct (decide (a = b)) as [->|].
  - by rewrite lookup_insert_eq, E.
  - by rewrite lookup_insert_ne.
Qed.

Lemma unlink_walk_ok l2 : forall fuel h bl l1 a, NoDup (l1 ++ l2) -> a ∈ l2 -> (length l2 <= fuel)%nat ->
  b_entries bl = head_or (l1 ++ l2) None -> cseg h (l1 ++ l2) None ->
  exists h' bl' l, unlink_walk fuel h bl (last l1) (head_or l2 None) a = Some (h', bl') /\
    a :: l ≡ₚ l1 ++ l2 /\ b_entries bl' = head_or l None /\ cseg h' l None /\
    b_dsml bl' = b_dsml bl /\ b_bytes bl' = b_bytes bl /\ b_refs bl' = b_refs bl /\
    (forall b, kept <$> h' !! b = kept <$> h !! b) /\ (forall b, b ∉ l1 ++ l2 -> h' !! b = h !! b).
Proof.
  induction l2 as [|c l2 IH]; intros fuel h bl l1 a Hn Ha Hf Hb Hs; [by apply elem_of_nil in Ha|].
  destruct fuel as [|fuel]; [cbn in Hf; lia|]. cbn [unlink_walk head_or].
  pose proof Hs as Hs0. apply cseg_app in Hs as [Hs1 (e & He & Hne & Hs2)]. cbn [head_or] in Hs1. rewrite He. cbn [mbind option_bind].
  destruct (Nat.eqb_spec c a) as [->|Hc].
  - destruct l1 as [|w l1 _] using rev_ind.
    + cbn [last]. destruct (store_some h a (set_block_next None)) as (h1 & E1 & H1); [by rewrite He|]. rewrite E1. cbn [mbind option_bind].
      eexists _, _, l2. split; [done|]. cbn in *. apply NoDup_cons in Hn as [Hna Hn]. split_and!; try done.
      * eapply cseg_frame; [|exact Hs2]. intros b Hbl. rewrite H1, decide_False by (by intros ->). done.
      * by eapply store_kept.
      * intros b Hbl. rewrite H1, decide_False by (intros ->; apply Hbl; set_solver). done.
    + rewrite last_snoc. rewrite <- app_assoc in *. cbn [app] in *.
      pose proof Hn as (Hn1 & Hd & ([Hwa Hna]%not_elem_of_cons & _)%NoDup_cons)%NoDup_app.
      apply cseg_app in Hs1 as [Hs1 (ew & Hew & _ & _)]. cbn [head_or] in Hs1.
      destruct (store_some h w (set_block_next (e_block_next e))) as (h1 & E1 & H1); [by rewrite Hew|]. rewrite E1. cbn [mbind option_bind].
      destruct (store_some h1 a (set_block_next None)) as (h2 & E2 & H2); [rewrite H1, decide_False by done; by rewrite He|].
      rewrite E2. cbn [mbind option_bind]. eexists _, _, (l1 ++ w :: l2). split; [done|].
      assert (Hout : forall b, b <> w -> b <> a -> h2 !! b = h !! b) by (intros b H3 H4; rewrite H2, decide_False, H1, decide_False; done).
      apply NoDup_app in Hn as (_ & Hd' & (Hw2 & (Ha2 & _)%NoDup_cons)%NoDup_cons).
      split_and!; try done.
      * solve_Permutation.
      * rewrite Hb. by destruct l1.
      * apply cseg_app. split; [|eexists; split_and!].
        -- eapply cseg_frame; [|exact Hs1]. intros b Hbl. rewrite Hout; [done | |]; intros ->; apply (Hd _ Hbl); set_solver.
        -- rewrite H2, decide_False, H1, decide_True, Hew by done. reflexivity.
        -- exact Hne.
        -- eapply cseg_frame; [|exact Hs2]. intros b Hbl. rewrite Hout; [done | |]; intros ->; set_solver.
      * intros b. rewrite (store_kept _ _ _ _ E2 b). by eapply store_kept.
      * intros b Hbl. apply Hout; intros ->; apply Hbl; set_solver.
  - apply elem_of_cons in Ha as [->|Ha]; [done|]. rewrite Hne.
    assert (E : l1 ++ c :: l2 = (l1 ++ [c]) ++ l2) by (by rewrite <- app_assoc). rewrite E in *.
    destruct (IH fuel h bl (l1 ++ [c]) a Hn Ha ltac:(cbn in Hf; lia) Hb Hs0) as (h' & bl' & l & Hw & H). rewrite last_snoc in Hw.
    exists h', bl', l. split; [exact Hw | exact H].
Qed.

(** ** Sums over the heap *)

Definition sum (l : list Z) : Z := foldr Z.add 0 l.

#[export] Instance sum_perm : Proper ((≡ₚ) ==> eq) sum.
Proof. intros l l' H. unfold sum. induction H; cbn; lia. Qed.

Definition msum {A} (f : A -> Z) (m : gmap nat A) : Z := sum (map snd (map_to_list (f <$> m))).

Lemma msum_ext {A} (f : A -> Z) (m m' : gmap nat A) : (forall k, f <$> m' !! k = f <$> m !! k) -> msum f m' = msum f m.
Proof. intros H. unfold msum. f_equal. f_equal. f_equal. apply map_eq. intros k. by rewrite !lookup_fmap. Qed.

Lemma msum_insert {A} (f : A -> Z) (m : gmap nat A) k x : m !! k = None -> msum f (<[k := x]> m) = f x + msum f m.
Proof.
  intros H. unfold msum. rewrite fmap_insert, map_to_list_insert by (by rewrite lookup_fmap, H). done.
Qed.

Lemma msum_delete {A} (f : A -> Z) (m : gmap nat A) k x : m !! k = Some x -> msum f m = f x + msum f (delete k m).
Proof.
  intros H. rewrite <- (insert_delete_id m k x H) at 1. apply msum_insert. by rewrite lookup_delete_eq.
Qed.

Lemma msum_replace {A} (f : A -> Z) (m : gmap nat A) k x y : m !! k = Some x -> f y = f x -> msum f (<[k := y]> m) = msum f m.
Proof.
  intros H Hf. apply msum_ext. intros j. destruct (decide (k = j)) as [->|]; [rewrite lookup_insert_eq, H; cbn; by rewrite Hf|].
  by rewrite lookup_insert_ne.
Qed.

Lemma msum_nonneg {A} (f : A -> Z) (m : gmap nat A) : (forall k x, m !! k = Some x -> 0 <= f x) -> 0 <= msum f m.
Proof.
  induction m as [|k x m Hk IH] using map_ind; intros H; [done|]. rewrite msum_insert by done.
  pose proof (H k x (lookup_insert_eq _ _ _)). assert (0 <= msum f m); [|lia]. apply IH. intros j y Hj.
  apply (H j). rewrite lookup_insert_ne; [done|]. congruence.
Qed.

Lemma nodup_size {A} (m : gmap nat A) l : NoDup l -> (forall a, a ∈ l -> is_Some (m !! a)) -> (length l <= size m)%nat.
Proof.
  intros Hn H. rewrite <- length_map_to_list. rewrite <- (length_fmap fst). apply submseteq_length, NoDup_submseteq; [done|].
  intros a Ha. destruct (H a Ha) as [x Hx]. apply list_elem_of_fmap. exists (a, x). by rewrite elem_of_map_to_list.
Qed.

(** ** The invariant *)

(** The users of a block. *)
Record users (h : heap) (b : nat) (bl : tool_memory_block) (us : list nat) : Prop := {
  us_nodup : NoDup us;
  us_head : b_entries bl = head_or us None;
  us_seg : cseg h us None;
  us_iff : forall a, a ∈ us <-> exists e, h !! a = Some e /\ e_block e = b;
  us_refs : b_refs bl = Z.of_nat (length us)
}.

(** Everything but the recency list; [new] may have no user yet. *)
Record content (new : ptr) (m : tool_memory) (l : list nat) : Prop := {
  ct_dom : forall a, a ∈ l <-> is_Some (tm_e m !! a);
  ct_ids : forall id a, tm_by_id m !! id = Some a <-> exists e, tm_e m !! a = Some e /\ e_id e = id;
  ct_blocks : forall d b, tm_by_block m !! d = Some b <-> exists bl, tm_b m !! b = Some bl /\ b_dsml bl = d;
  ct_users : forall b bl, tm_b m !! b = Some bl -> exists us, users (tm_e m) b bl us /\ (us <> [] \/ new = Some b);
  ct_block_of : forall a e, tm_e m !! a = Some e -> is_Some (tm_b m !! e_block e);
  ct_entries : tm_entries m = zlen l;
  ct_bytes : tm_bytes m = msum e_bytes (tm_e m) + msum b_bytes (tm_b m);
  ct_esize : forall a e, tm_e m !! a = Some e -> e_id e <> [] /\ e_bytes e = zlen (e_id e) + 1 + sizeof_entry;
  ct_bsize : forall b bl, tm_b m !! b = Some bl -> b_dsml bl <> [] /\ b_bytes bl = zlen (b_dsml bl) + 1 + sizeof_block;
  ct_fresh : forall a, (tm_addr m <= a)%nat -> tm_e m !! a = None /\ tm_b m !! a = None
}.

Record wf (m : tool_memory) (l : list nat) : Prop := { wf_linked : linked m l; wf_content : content None m l }.

(** The fields that the blocks and the maps depend on. *)
Definition body (e : tool_memory_entry) : bytes * nat * Z * ptr := (e_id e, e_block e, e_bytes e, e_block_next e).

Definition same_body (h h' : heap) : Prop := forall a, body <$> h' !! a = body <$> h !! a.

Record rewired (m m' : tool_memory) : Prop := {
  rw_body : same_body (tm_e m) (tm_e m');
  rw_b : tm_b m' = tm_b m; rw_addr : tm_addr m' = tm_addr m; rw_by_id : tm_by_id m' = tm_by_id m;
  rw_by_block : tm_by_block m' = tm_by_block m; rw_entries : tm_entries m' = tm_entries m; rw_bytes : tm_bytes m' = tm_bytes m
}.

Lemma rest_body h h' : same_rest h h' -> same_body h h'.
Proof.
  intros H a. specialize (H a). destruct (h' !! a), (h !! a); try done. unfold rest in H. unfold body. cbn in *. congruence.
Qed.

Lemma same_body_lookup h h' a e : same_body h h' -> h' !! a = Some e -> exists e0, h !! a = Some e0 /\ body e0 = body e.
Proof.
  intros H He. specialize (H a). rewrite He in H. destruct (h !! a) as [e0|]; [|done]. exists e0. split; [done|]. cbn in H. congruence.
Qed.

Lemma same_body_sym h h' : same_body h h' -> same_body h' h.
Proof. intros H a. by rewrite H. Qed.

Lemma users_body h h' b bl us : same_body h h' -> users h b bl us -> users h' b bl us.
Proof.
  intros Hr [Hn Hh Hs Hi Hf]. split; try done.
  - eapply cseg_frame; [|exact Hs]. intros a _. specialize (Hr a).
    destruct (h' !! a), (h !! a); try done. unfold body in Hr. cbn in *. congruence.
  - intros a. rewrite Hi. split; intros (e & He & Hb).
    + destruct (same_body_lookup _ _ a e (same_body_sym _ _ Hr) He) as (e' & He' & Hrr). exists e'. split; [done|]. unfold body in Hrr. congruence.
    + destruct (same_body_lookup _ _ a e Hr He) as (e' & He' & Hrr). exists e'. split; [done|]. unfold body in Hrr. congruence.
Qed.

Lemma content_rewired new m m' l l' : content new m l -> rewired m m' -> l ≡ₚ l' -> content new m' l'.
Proof.
  intros [Hd Hi Hb Hu Ho He Hby Hes Hbs Hfr] [Hr Eb Ea Ei Ek Ee Ey] Hp.
  assert (Hsome : forall a, is_Some (tm_e m' !! a) <-> is_Some (tm_e m !! a)).
  { intros a. specialize (Hr a). destruct (tm_e m' !! a), (tm_e m !! a); try done; split; eauto. }
  pose proof (fun a e => same_body_lookup _ _ a e Hr) as Hlk. pose proof (fun a e => same_body_lookup _ _ a e (same_body_sym _ _ Hr)) as Hlk'.
  split; rewrite ?Eb, ?Ea, ?Ei, ?Ek, ?Ee, ?Ey; try done.
  - intros a. by rewrite <- Hp, Hd, Hsome.
  - intros id a. rewrite Hi. split; intros (e & Hea & <-).
    + destruct (Hlk' a e Hea) as (e' & He' & Hrr). exists e'. split; [done|]. unfold body in Hrr. congruence.
    + destruct (Hlk a e Hea) as (e' & He' & Hrr). exists e'. split; [done|]. unfold body in Hrr. congruence.
  - intros b bl Hbl. destruct (Hu b bl Hbl) as (us & Hus & Hor). exists us. split; [by eapply users_body | done].
  - intros a e Hea. destruct (Hlk a e Hea) as (e' & He' & Hrr). unfold body in Hrr. replace (e_block e) with (e_block e') by congruence. by eapply Ho.
  - rewrite He. unfold zlen. by rewrite Hp.
  - rewrite Hby. f_equal. apply msum_ext. intros a. specialize (Hr a). destruct (tm_e m' !! a), (tm_e m !! a); try done. unfold body in Hr. cbn in *. congruence.
  - intros a e Hea. destruct (Hlk a e Hea) as (e' & He' & Hrr). destruct (Hes a e' He') as [H1 H2]. unfold body in Hrr.
    injection Hrr as <- _ <- _. done.
  - intros a Ha. destruct (Hfr a Ha) as [H1 H2]. split; [|done]. specialize (Hr a). rewrite H1 in Hr. by destruct (tm_e m' !! a).
Qed.

Lemma content_relinked new m m' l l' : content new m l -> relinked m m' -> l ≡ₚ l' -> content new m' l'.
Proof. intros Hc [Hr Eb Ea Ei Ek Ee _ Ey _] Hp. apply (content_rewired new m m' l l'); [done| |done]. split; try done. by apply rest_body. Qed.

(** What the memory binds: an id, its text and where the text came from. *)
Definition item : Type := bytes * bytes * tool_memory_source.

Definition item_of (m : tool_memory) (a : nat) : option item :=
  e ← tm_e m !! a; bl ← tm_b m !! e_block e; Some (e_id e, b_dsml bl, e_source e).

Definition core (e : tool_memory_entry) : bytes * nat * Z * tool_memory_source := (e_id e, e_block e, e_bytes e, e_source e).

Lemma core_lookup (h h' : heap) a e : (forall c, core <$> h' !! c = core <$> h !! c) -> h' !! a = Some e ->
  exists e0, h !! a = Some e0 /\ core e0 = core e.
Proof.
  intros H He. specialize (H a). rewrite He in H. destruct (h !! a) as [e0|]; [|done]. exists e0. split; [done|]. cbn in H. congruence.
Qed.

(** The heap after an entry has been unlinked from its block and freed. *)
Lemma freed_users (h h3 : heap) a e us us' b bl bl' :
  h !! a = Some e -> e_block e = b -> users h b bl us -> a :: us' ≡ₚ us ->
  (forall c, core <$> h3 !! c = core <$> h !! c) -> cseg h3 us' None -> b_entries bl' = head_or us' None ->
  b_refs bl' = b_refs bl - 1 -> users (delete a h3) b bl' us'.
Proof.
  intros Ha Hb [Hn Hh Hs Hi Hr] Hp Hc Hs' Hh' Hr'. rewrite <- Hp in Hn. apply NoDup_cons in Hn as [Hna Hn].
  split; [done|done| | |].
  - eapply cseg_frame; [|exact Hs']. intros c Hcu. rewrite lookup_delete_ne; [done|]. by intros ->.
  - intros c. destruct (decide (c = a)) as [->|Hne].
    + split; [done|]. intros (e' & He' & _). by rewrite lookup_delete_eq in He'.
    + rewrite lookup_delete_ne by done. transitivity (c ∈ us); [rewrite <- Hp; set_solver|]. rewrite Hi. split; intros (e' & He' & Hb').
      * destruct (core_lookup h3 h c e') as (e0 & H0 & Hcc); [intros; by rewrite Hc | done|]. exists e0. split; [done|]. unfold core in Hcc. congruence.
      * destruct (core_lookup h h3 c e' Hc He') as (e0 & H0 & Hcc). exists e0. split; [done|]. unfold core in Hcc. congruence.
  - rewrite Hr', Hr. apply Permutation_length in Hp. cbn in Hp. lia.
Qed.

(** A block that has nothing to do with it keeps its users. *)
Lemma other_users (h h3 : heap) a e us us2 b b2 bl bl2 :
  h !! a = Some e -> e_block e = b -> b <> b2 -> users h b bl us -> users h b2 bl2 us2 ->
  (forall c, core <$> h3 !! c = core <$> h !! c) -> (forall c, c ∉ us -> h3 !! c = h !! c) ->
  users (delete a h3) b2 bl2 us2.
Proof.
  intros Ha Hb Hne Hus [Hn2 Hh2 Hs2 Hi2 Hr2] Hc Hout.
  assert (Hdis : forall c, c ∈ us2 -> (c ∉ us) /\ c <> a).
  { intros c Hcu. apply Hi2 in Hcu as (e2 & He2 & Hb2). split; [|intros ->; congruence].
    intros Hin. apply (us_iff _ _ _ _ Hus) in Hin as (e3 & He3 & Hb3). congruence. }
  split; try done.
  - eapply cseg_frame; [|exact Hs2]. intros c Hcu. destruct (Hdis c Hcu). by rewrite lookup_delete_ne, Hout.
  - intros c. rewrite Hi2. destruct (decide (c = a)) as [->|Hca].
    + rewrite lookup_delete_eq. split; [intros (e' & He' & Hb'); congruence | by intros (? & ? & _)].
    + rewrite lookup_delete_ne by done. split; intros (e' & He' & Hb').
      * destruct (core_lookup h3 h c e') as (e0 & H0 & Hcc); [intros; by rewrite Hc | done|]. exists e0. split; [done|]. unfold core in Hcc. congruence.
      * destruct (core_lookup h h3 c e' Hc He') as (e0 & H0 & Hcc). exists e0. split; [done|]. unfold core in Hcc. congruence.
Qed.

Definition links (e : tool_memory_entry) : ptr * ptr := (e_prev e, e_next e).

Lemma seg_links (h h' : heap) p l n : (forall a, a ∈ l -> links <$> h' !! a = links <$> h !! a) -> seg h p l n -> seg h' p l n.
Proof.
  revert p. induction l as [|a l IH]; intros p Hf; cbn; [done|]. intros (e & He & Hp & Hn & Hs).
  pose proof (Hf a ltac:(set_solver)) as Ha. rewrite He in Ha. destruct (h' !! a) as [e'|] eqn:E'; [|done].
  unfold links in Ha. cbn in Ha. injection Ha as Hp' Hn'. exists e'. split_and!; [done | congruence | congruence |].
  apply IH; [|done]. intros b Hb. apply Hf. set_solver.
Qed.

Lemma seg_kept (h h' : heap) p l n : (forall a, a ∈ l -> kept <$> h' !! a = kept <$> h !! a) -> seg h p l n -> seg h' p l n.
Proof.
  intros H. apply seg_links. intros a Ha. specialize (H a Ha). destruct (h' !! a), (h !! a); try done.
  unfold kept in H. unfold links. cbn in *. congruence.
Qed.

Lemma block_unlink_ok m b bl us a e : tm_b m !! b = Some bl -> users (tm_e m) b bl us -> tm_e m !! a = Some e -> e_block e = b ->
  exists h3 bl' us', tool_block_unlink_entry m b a = Some (with_heap m h3 (<[b := bl']> (tm_b m))) /\
    a :: us' ≡ₚ us /\ cseg h3 us' None /\ b_entries bl' = head_or us' None /\
    b_dsml bl' = b_dsml bl /\ b_bytes bl' = b_bytes bl /\ b_refs bl' = b_refs bl /\
    (forall c, kept <$> h3 !! c = kept <$> tm_e m !! c) /\ (forall c, c ∉ us -> h3 !! c = tm_e m !! c).
Proof.
  intros Hbl [Hn Hh Hs Hi Hr] Ha He. unfold tool_block_unlink_entry. rewrite Hbl. cbn [mbind option_bind].
  destruct (unlink_walk_ok us (S (size (tm_e m))) (tm_e m) bl [] a) as (h3 & bl' & us' & Hw & Hp & H); [done| | |done|done|].
  - apply Hi. by exists e.
  - assert (length us <= size (tm_e m))%nat; [|lia]. apply nodup_size; [done|]. intros c (e' & -> & _)%Hi. done.
  - rewrite Hh. cbn [last app] in Hw. rewrite Hw. cbn [mbind option_bind]. exists h3, bl', us'. split; [done|]. destruct H as (H1 & H2 & H3). by split_and!; try apply H3.
Qed.

Lemma kept_core (h h' : heap) : (forall c, kept <$> h' !! c = kept <$> h !! c) -> forall c, core <$> h' !! c = core <$> h !! c.
Proof.
  intros H c. specialize (H c). destruct (h' !! c), (h !! c); try done. unfold kept in H. unfold core. cbn in *. congruence.
Qed.

(** The sizes that are taken off are part of the sum. *)
Lemma content_bytes new m l : content new m l ->
  (forall a e, tm_e m !! a = Some e -> 0 <= e_bytes e) /\ (forall b bl, tm_b m !! b = Some bl -> 0 <= b_bytes bl).
Proof.
  intros H. split; intros a x Hx.
  - destruct (ct_esize _ _ _ H a x Hx) as [_ ->]. pose proof (zlen_nonneg (e_id x)). unfold sizeof_entry. lia.
  - destruct (ct_bsize _ _ _ H a x Hx) as [_ ->]. pose proof (zlen_nonneg (b_dsml x)). unfold sizeof_block. lia.
Qed.

(** The block after one of its users is gone: fewer users, or freed. *)
Inductive dropped (b : nat) (bl : tool_memory_block) (us' : list nat) (m m' : tool_memory) : Prop :=
| Dropped_user bl' : us' <> [] -> tm_b m' = <[b := bl']> (tm_b m) -> tm_by_block m' = tm_by_block m ->
    b_dsml bl' = b_dsml bl -> b_bytes bl' = b_bytes bl -> b_entries bl' = head_or us' None -> b_refs bl' = b_refs bl - 1 ->
    dropped b bl us' m m'
| Dropped_block : us' = [] -> tm_b m' = delete b (tm_b m) -> tm_by_block m' = delete (b_dsml bl) (tm_by_block m) ->
    dropped b bl us' m m'.

(** The heap after entry [a] is gone. *)
Record gone (m : tool_memory) (a : nat) (e : tool_memory_entry) (us us' : list nat) (h3 : heap) (m' : tool_memory) : Prop := {
  gn_perm : a :: us' ≡ₚ us;
  gn_seg : cseg h3 us' None;
  gn_core c : core <$> h3 !! c = core <$> tm_e m !! c;
  gn_out c : c ∉ us -> h3 !! c = tm_e m !! c;
  gn_e : tm_e m' = delete a h3;
  gn_ids : tm_by_id m' = delete (e_id e) (tm_by_id m);
  gn_addr : tm_addr m' = tm_addr m;
  gn_entries : tm_entries m' = tm_entries m - 1
}.

Lemma gone_lookup m a e us us' h3 m' c : gone m a e us us' h3 m' ->
  (forall x, tm_e m' !! c = Some x -> c <> a /\ exists y, tm_e m !! c = Some y /\ core y = core x) /\
  (forall y, tm_e m !! c = Some y -> c <> a -> exists x, tm_e m' !! c = Some x /\ core y = core x).
Proof.
  intros [_ _ Hc _ He _ _ _]. rewrite He. split.
  - intros x Hx. destruct (decide (c = a)) as [->|Hne]; [by rewrite lookup_delete_eq in Hx|].
    rewrite lookup_delete_ne in Hx by done. split; [done|]. by apply (core_lookup _ h3).
  - intros y Hy Hne. rewrite lookup_delete_ne by done. specialize (Hc c). rewrite Hy in Hc.
    destruct (h3 !! c) as [x|]; [|done]. exists x. split; [done|]. cbn in Hc. congruence.
Qed.

Lemma dropped_lookup b bl us' m m' c : tm_b m !! b = Some bl -> dropped b bl us' m m' ->
  (forall x, tm_b m' !! c = Some x -> (c = b -> us' <> []) /\ exists y, tm_b m !! c = Some y /\ b_dsml y = b_dsml x /\ b_bytes y = b_bytes x) /\
  (forall y, tm_b m !! c = Some y -> (c = b -> us' <> []) -> exists x, tm_b m' !! c = Some x /\ b_dsml y = b_dsml x /\ b_bytes y = b_bytes x).
Proof.
  intros Hbl [bl' Hne Eb _ Hd Hy _ _|He Eb _]; rewrite Eb; split.
  - intros x Hx. split; [done|]. destruct (decide (b = c)) as [->|]; [rewrite lookup_insert_eq in Hx; injection Hx as <-; by exists bl|].
    rewrite lookup_insert_ne in Hx by done. by exists x.
  - intros y Hc _. destruct (decide (b = c)) as [->|]; [rewrite lookup_insert_eq; exists bl'; split_and!; congruence|].
    rewrite lookup_insert_ne by done. by exists y.
  - intros x Hx. destruct (decide (c = b)) as [->|]; [by rewrite lookup_delete_eq in Hx|]. rewrite lookup_delete_ne in Hx by done.
    split; [done|]. by exists x.
  - intros y Hc Hne. destruct (decide (c = b)) as [->|]; [by destruct (Hne eq_refl)|]. rewrite lookup_delete_ne by done. by exists y.
Qed.

Lemma gone_content m l l' a e us us' h3 m' bl : content None m l -> l ≡ₚ a :: l' -> NoDup l ->
  tm_e m !! a = Some e -> tm_b m !! e_block e = Some bl -> users (tm_e m) (e_block e) bl us ->
  gone m a e us us' h3 m' -> dropped (e_block e) bl us' m m' ->
  tm_bytes m' = tm_bytes m - e_bytes e - (if decide (us' = []) then b_bytes bl else 0) -> content None m' l'.
Proof.
  intros Hc Hp Hn He Hbl Hus Hg Hdr Hby. pose proof (fun c => gone_lookup _ _ _ _ _ _ _ c Hg) as Hlk.
  pose proof (fun c => dropped_lookup _ _ _ _ _ c Hbl Hdr) as Hblk. pose proof Hg as [Hpu Hsu Hcore Hout Ee Ei Ea En].
  rewrite Hp in Hn. apply NoDup_cons in Hn as [Hna Hn].
  assert (Hkeep : forall c y, tm_e m !! c = Some y -> c <> a -> e_block y = e_block e -> us' <> []).
  { intros c y Hy Hne Hb ->. assert (Hin : c ∈ us) by (apply (us_iff _ _ _ _ Hus); by exists y).
    rewrite <- Hpu in Hin. by apply list_elem_of_singleton in Hin. }
  destruct (content_bytes _ _ _ Hc) as [Hpos1 Hpos2].
  split.
  - intros c. split.
    + intros Hin. assert (Hca : c <> a) by (by intros ->). destruct (proj1 (ct_dom _ _ _ Hc c)) as [y Hy]; [rewrite Hp; by right|].
      destruct (proj2 (Hlk c) y Hy Hca) as (x & -> & _). done.
    + intros [x Hx]. destruct (proj1 (Hlk c) x Hx) as (Hca & y & Hy & _).
      assert (Hin : c ∈ l) by (apply (ct_dom _ _ _ Hc); by rewrite Hy). rewrite Hp in Hin. by apply elem_of_cons in Hin as [->|].
  - intros id c. rewrite Ei. destruct (decide (id = e_id e)) as [->|Hid].
    + rewrite lookup_delete_eq. split; [done|]. intros (x & Hx & Hxid). destruct (proj1 (Hlk c) x Hx) as (Hca & y & Hy & Hcy).
      assert (H1 : tm_by_id m !! e_id e = Some c) by (apply (ct_ids _ _ _ Hc); exists y; split; [done|]; unfold core in Hcy; congruence).
      assert (H2 : tm_by_id m !! e_id e = Some a) by (apply (ct_ids _ _ _ Hc); by exists e). congruence.
    + rewrite lookup_delete_ne by done. rewrite (ct_ids _ _ _ Hc). split.
      * intros (y & Hy & Hyid). destruct (proj2 (Hlk c) y Hy) as (x & Hx & Hcx); [intros ->; congruence|].
        exists x. split; [done|]. unfold core in Hcx. congruence.
      * intros (x & Hx & Hxid). destruct (proj1 (Hlk c) x Hx) as (_ & y & Hy & Hcy). exists y. split; [done|]. unfold core in Hcy. congruence.
  - intros d b. assert (Hmap : (exists x, tm_b m' !! b = Some x /\ b_dsml x = d) <->
      (exists y, tm_b m !! b = Some y /\ b_dsml y = d) /\ (b = e_block e -> us' <> [])).
    { split.
      - intros (x & Hx & Hd). destruct (proj1 (Hblk b) x Hx) as (Hne & y & Hy & Hdy & _). split; [|done]. exists y. split; [done|]. congruence.
      - intros [(y & Hy & Hd) Hne]. destruct (proj2 (Hblk b) y Hy Hne) as (x & Hx & Hdx & _). exists x. split; [done|]. congruence. }
    rewrite Hmap. rewrite <- (ct_blocks _ _ _ Hc d b). clear Hmap.
    destruct Hdr as [bl' Hne Eb Ek _ _ _ _|Hnil Eb Ek]; rewrite Ek; [naive_solver|].
    destruct (decide (d = b_dsml bl)) as [->|Hd].
    + rewrite lookup_delete_eq. split; [done|]. intros [H1 H2]. destruct H2; [|done].
      assert (H3 : tm_by_block m !! b_dsml bl = Some (e_block e)) by (apply (ct_blocks _ _ _ Hc); by exists bl). congruence.
    + rewrite lookup_delete_ne by done. split; [|by intros []]. intros H1. split; [done|]. intros ->.
      apply (ct_blocks _ _ _ Hc) in H1 as (y & Hy & Hyd). congruence.
  - intros b x Hx. destruct (decide (b = e_block e)) as [->|Hne].
    + destruct Hdr as [bl' Hne Eb _ Hd Hy Hh Hr|_ Eb _]; rewrite Eb in Hx; [|by rewrite lookup_delete_eq in Hx].
      rewrite lookup_insert_eq in Hx. injection Hx as <-. exists us'. split; [|by left]. rewrite Ee.
      by apply (freed_users (tm_e m) h3 a e us us' (e_block e) bl bl').
    + assert (Hx' : tm_b m !! b = Some x).
      { destruct Hdr as [bl' _ Eb _ _ _ _ _|_ Eb _]; rewrite Eb in Hx; [by rewrite lookup_insert_ne in Hx|by rewrite lookup_delete_ne in Hx]. }
      destruct (ct_users _ _ _ Hc b x Hx') as (us2 & Hus2 & [Hor|Hor]); [|done]. exists us2. split; [|by left]. rewrite Ee.
      by apply (other_users (tm_e m) h3 a e us us2 (e_block e) b bl x).
  - intros c x Hx. destruct (proj1 (Hlk c) x Hx) as (Hca & y & Hy & Hcy). destruct (ct_block_of _ _ _ Hc c y Hy) as [by_ Hb].
    destruct (proj2 (Hblk (e_block y)) by_ Hb) as (bx & Hbx & _); [intros Heq; by apply (Hkeep c y)|].
    unfold core in Hcy. replace (e_block x) with (e_block y) by congruence. by rewrite Hbx.
  - rewrite En, (ct_entries _ _ _ Hc). unfold zlen. rewrite Hp. cbn. lia.
  - rewrite Hby, (ct_bytes _ _ _ Hc). rewrite (msum_delete e_bytes (tm_e m) a e He).
    assert (H1 : msum e_bytes (tm_e m') = msum e_bytes (delete a (tm_e m))).
    { apply msum_ext. intros c. rewrite Ee. destruct (decide (c = a)) as [->|Hne]; [by rewrite !lookup_delete_eq|].
      rewrite !lookup_delete_ne by done. specialize (Hcore c). destruct (h3 !! c), (tm_e m !! c); try done. unfold core in Hcore. cbn in *. congruence. }
    rewrite H1. destruct Hdr as [bl' Hne Eb _ _ Hy _ _|Hnil Eb _]; rewrite Eb.
    + rewrite decide_False by done. rewrite (msum_replace b_bytes (tm_b m) (e_block e) bl bl') by done. lia.
    + rewrite decide_True by done. rewrite (msum_delete b_bytes (tm_b m) (e_block e) bl Hbl). lia.
  - intros c x Hx. destruct (proj1 (Hlk c) x Hx) as (_ & y & Hy & Hcy). destruct (ct_esize _ _ _ Hc c y Hy) as [H1 H2].
    unfold core in Hcy. injection Hcy as <- _ <- _. done.
  - intros c x Hx. destruct (proj1 (Hblk c) x Hx) as (_ & y & Hy & Hd & Hyb). destruct (ct_bsize _ _ _ Hc c y Hy) as [H1 H2].
    rewrite <- Hd, <- Hyb. done.
  - intros c Hc'. rewrite Ea in Hc'. destruct (ct_fresh _ _ _ Hc c Hc') as [H1 H2]. split.
    + destruct (tm_e m' !! c) as [x|] eqn:E; [|done]. destruct (proj1 (Hlk c) x E) as (_ & y & Hy & _). congruence.
    + destruct (tm_b m' !! c) as [x|] eqn:E; [|done]. destruct (proj1 (Hblk c) x E) as (_ & y & Hy & _). congruence.
Qed.

(** Releasing a user of the block. *)
Lemma release_ok m b bl us' : tm_b m !! b = Some bl -> b_entries bl = head_or us' None -> b_refs bl = Z.of_nat (length us') + 1 ->
  0 <= b_bytes bl <= tm_bytes m -> exists m', tool_memory_release_block_locked m b = Some m' /\ dropped b bl us' m m' /\
    tm_e m' = tm_e m /\ tm_by_id m' = tm_by_id m /\ tm_addr m' = tm_addr m /\ tm_entries m' = tm_entries m /\
    tm_head m' = tm_head m /\ tm_tail m' = tm_tail m /\ tm_max_entries m' = tm_max_entries m /\ tm_max_bytes m' = tm_max_bytes m /\
    tm_bytes m' = tm_bytes m - (if decide (us' = []) then b_bytes bl else 0).
Proof.
  intros Hbl Hh Hr Hy. unfold tool_memory_release_block_locked. rewrite Hbl. cbn [mbind option_bind].
  change (b_refs (set_refs _ bl)) with (b_refs bl - 1). destruct (Z.ltb_spec 0 (b_refs bl - 1)).
  - assert (us' <> []) by (intros ->; cbn in Hr; lia). eexists. split; [done|]. rewrite decide_False by done. split_and!; try done; cbn; [|lia].
    by eapply (Dropped_user b bl us' m _ (set_refs (b_refs bl - 1) bl)).
  - assert (us' = []) as -> by (destruct us'; [done | cbn in Hr; lia]). eexists. split; [done|]. split_and!; try done.
    + by apply Dropped_block.
    + rewrite decide_True by done. cbn. destruct (Z.leb_spec (b_bytes bl) (tm_bytes m)); lia.
Qed.

Lemma item_frame m m' c e : tm_e m !! c = Some e -> (exists x, tm_e m' !! c = Some x /\ core e = core x) ->
  (forall y, tm_b m !! e_block e = Some y -> exists x, tm_b m' !! e_block e = Some x /\ b_dsml y = b_dsml x) ->
  is_Some (tm_b m !! e_block e) -> item_of m' c = item_of m c.
Proof.
  intros He (x & Hx & Hc) Hb [y Hy]. destruct (Hb y Hy) as (z & Hz & Hd). unfold core in Hc. unfold item_of.
  rewrite He, Hx. cbn. injection Hc as H1 H2 _ H3. rewrite <- H2, Hz, Hy. cbn. congruence.
Qed.

Lemma relinked_item m m' c new l : content new m l -> relinked m m' -> item_of m' c = item_of m c.
Proof.
  intros Hc Hr. pose proof (rl_rest _ _ Hr c) as H. destruct (tm_e m !! c) as [e|] eqn:E.
  - apply (item_frame _ _ c e E).
    + destruct (tm_e m' !! c) as [x|]; [|done]. exists x. split; [done|]. unfold rest in H. unfold core. cbn in H. congruence.
    + intros y Hy. exists y. by rewrite (rl_b _ _ Hr).
    + by eapply ct_block_of.
  - unfold item_of. rewrite E. destruct (tm_e m' !! c); done.
Qed.

(** The sizes of an entry and its block are part of the total. *)
Lemma content_part new m l a e bl : content new m l -> tm_e m !! a = Some e -> tm_b m !! e_block e = Some bl ->
  0 <= e_bytes e /\ 0 <= b_bytes bl /\ e_bytes e + b_bytes bl <= tm_bytes m.
Proof.
  intros Hc He Hbl. destruct (content_bytes _ _ _ Hc) as [H1 H2]. rewrite (ct_bytes _ _ _ Hc).
  rewrite (msum_delete e_bytes _ _ _ He), (msum_delete b_bytes _ _ _ Hbl).
  pose proof (H1 _ _ He). pose proof (H2 _ _ Hbl).
  assert (0 <= msum e_bytes (delete a (tm_e m))) by (apply msum_nonneg; intros k x [_ Hx]%lookup_delete_Some; by eapply H1).
  assert (0 <= msum b_bytes (delete (e_block e) (tm_b m))) by (apply msum_nonneg; intros k x [_ Hx]%lookup_delete_Some; by eapply H2).
  lia.
Qed.

(** Dropping a user of a block that had already lost its link. *)
Lemma dropped_insert b bl bl' us' m m1 m2 : tm_b m1 = <[b := bl']> (tm_b m) -> tm_by_block m1 = tm_by_block m ->
  b_dsml bl' = b_dsml bl -> b_bytes bl' = b_bytes bl -> b_refs bl' = b_refs bl ->
  dropped b bl' us' m1 m2 -> dropped b bl us' m m2.
Proof.
  intros Eb Ek Hd Hy Hr [bl'' Hne Eb' Ek' Hd' Hy' Hh' Hr'|Hnil Eb' Ek'].
  - apply (Dropped_user b bl us' m m2 bl''); try congruence. by rewrite Eb', Eb, insert_insert_eq.
  - apply Dropped_block; [done| |by rewrite Ek', Ek, Hd]. by rewrite Eb', Eb, delete_insert_eq.
Qed.

Lemma remove_ok m l1 a l2 : wf m (l1 ++ a :: l2) -> exists m',
  tool_memory_remove_entry_locked m a = Some m' /\ wf m' (l1 ++ l2) /\
  (forall c, c ∈ l1 ++ l2 -> item_of m' c = item_of m c) /\
  tm_max_entries m' = tm_max_entries m /\ tm_max_bytes m' = tm_max_bytes m.
Proof.
  intros [Hl Hc0]. destruct (proj1 (ct_dom _ _ _ Hc0 a) (elem_mid a l1 l2)) as [e0 He0].
  unfold tool_memory_remove_entry_locked. rewrite He0. cbn [mbind option_bind].
  destruct (unlink_ok (with_ids m (delete (e_id e0) (tm_by_id m))) l1 a l2) as (m2 & -> & Hl2 & Hr2); [by destruct Hl|]. cbn [mbind option_bind].
  set (m2' := with_ids m2 (tm_by_id m)). assert (Hr : relinked m m2') by (by destruct Hr2).
  pose proof (content_relinked _ _ _ _ _ Hc0 Hr (Permutation_refl _)) as Hc.
  pose proof (rl_rest _ _ Hr a) as Hra. rewrite He0 in Hra. destruct (tm_e m2' !! a) as [e|] eqn:He; [|done].
  cbn in Hra. unfold rest in Hra. injection Hra as Hid Hb Hy _ _. rewrite <- Hb, <- Hy, <- Hid in *.
  destruct (ct_block_of _ _ _ Hc a e He) as [bl Hbl]. destruct (ct_users _ _ _ Hc _ bl Hbl) as (us & Hus & _).
  destruct (block_unlink_ok m2 (e_block e) bl us a e) as (h3 & bl' & us' & -> & Hp & Hs3 & Hh3 & Hd3 & Hy3 & Hf3 & Hk3 & Ho3); [done..|].
  cbn [mbind option_bind]. pose proof (kept_core _ _ Hk3) as Hcore3. pose proof (lk_nodup m _ Hl) as Hnd.
  destruct (content_part _ _ _ a e bl Hc He Hbl) as (Hp1 & Hp2 & Hp3). change (tm_bytes m2') with (tm_bytes m2) in Hp3.
  match goal with |- context [tool_memory_release_block_locked ?x _] => set (m3 := x) end.
  assert (Hy3' : tm_bytes m3 = tm_bytes m2 - e_bytes e) by (unfold m3; cbn; destruct (Z.leb_spec (e_bytes e) (tm_bytes m2)); lia).
  assert (He3 : tm_entries m3 = tm_entries m2 - 1).
  { unfold m3. cbn. pose proof (ct_entries _ _ _ Hc) as Hn. cbn in Hn. unfold zlen in Hn. rewrite length_app in Hn. cbn in Hn.
    destruct (Z.ltb_spec 0 (tm_entries m2)); lia. }
  destruct (release_ok m3 (e_block e) bl' us') as (m4 & -> & Hdr & E1 & E2 & E3 & E4 & E5 & E6 & E7 & E8 & E9).
  { unfold m3. cbn. by rewrite lookup_insert_eq. }
  { done. }
  { rewrite Hf3, (us_refs _ _ _ _ Hus). apply Permutation_length in Hp. cbn in Hp. lia. }
  { rewrite Hy3'. lia. }
  cbn [mbind option_bind]. eexists. split; [done|].
  assert (Hdr' : dropped (e_block e) bl us' m2' (with_heap m4 (delete a (tm_e m4)) (tm_b m4))).
  { apply (dropped_insert _ bl bl' us' m2' m3); try done. by destruct Hdr; [eapply Dropped_user | eapply Dropped_block]. }
  assert (Hgn : gone m2' a e us us' h3 (with_heap m4 (delete a (tm_e m4)) (tm_b m4))).
  { split; try done; cbn.
    - by rewrite E1.
    - rewrite E2. unfold m3. cbn. rewrite (rl_by_id _ _ Hr2). done.
    - by rewrite E4, He3. }
  assert (Hna : a ∉ l1 ++ l2).
  { intros Hin. apply NoDup_app in Hnd as (_ & Hdis & [Hn2 _]%NoDup_cons). apply elem_of_app in Hin as [Hin|]; [|done].
    apply (Hdis a Hin). apply list_elem_of_here. }
  split_and!.
  - split.
    + split; cbn; [|apply Hl2|by rewrite E5; apply Hl2|by rewrite E6; apply Hl2].
      apply (seg_kept (tm_e m2)); [|apply Hl2]. intros c Hcl. rewrite E1. rewrite lookup_delete_ne by (by intros ->). apply Hk3.
    + apply (gone_content m2' (l1 ++ a :: l2) (l1 ++ l2) a e us us' h3 _ bl); try done; [solve_Permutation|].
      cbn. rewrite E9, Hy3', Hy3. done.
  - intros c Hcl. transitivity (item_of m2' c); [|by eapply relinked_item].
    assert (Hcm : is_Some (tm_e m2' !! c)) by (apply (ct_dom _ _ _ Hc); set_solver). destruct Hcm as [y Hyc].
    apply (item_frame _ _ c y Hyc).
    + by apply (proj2 (gone_lookup _ _ _ _ _ _ _ c Hgn) y Hyc); intros ->.
    + intros z Hz. destruct (proj2 (dropped_lookup _ _ _ _ _ _ Hbl Hdr') z Hz) as (x & Hx & Hxd & _); [|by exists x].
      intros Heq ->. assert (Hin : c ∈ us) by (apply (us_iff _ _ _ _ Hus); by exists y).
      rewrite <- Hp in Hin. apply list_elem_of_singleton in Hin as ->. done.
    + by eapply ct_block_of.
  - cbn. rewrite E7. unfold m3. cbn. apply (rl_max_entries _ _ Hr2).
  - cbn. rewrite E8. unfold m3. cbn. apply (rl_max_bytes _ _ Hr2).
Qed.

(** ** New entries *)

Lemma get_block_ok m l text : content None m l -> text <> [] -> let '(m1, b) := tool_memory_get_block_locked m text in
  content (Some b) m1 l /\ (exists bl, tm_b m1 !! b = Some bl /\ b_dsml bl = text) /\
  (forall c y, tm_b m !! c = Some y -> tm_b m1 !! c = Some y) /\
  tm_e m1 = tm_e m /\ tm_by_id m1 = tm_by_id m /\ tm_head m1 = tm_head m /\ tm_tail m1 = tm_tail m /\
  tm_max_entries m1 = tm_max_entries m /\ tm_max_bytes m1 = tm_max_bytes m.
Proof.
  intros Hc Ht. unfold tool_memory_get_block_locked.
  assert (E : tool_memory_find_block_locked m text = tm_by_block m !! text) by (by destruct text). rewrite E.
  destruct (tm_by_block m !! text) as [b|] eqn:Eb.
  - apply (ct_blocks _ _ _ Hc) in Eb as Hbl. split_and!; try done. destruct Hc as [Hd Hi Hbk Hu Ho He Hby Hes Hbs Hfr].
    split; try done. intros c y Hy. destruct (Hu c y Hy) as (us & Hus & [Hor|Hor]); [exists us; auto | done].
  - cbn. set (b := tm_addr m). destruct (ct_fresh _ _ _ Hc b (le_n _)) as [Hfe Hfb].
    pose proof Hc as [Hd Hi Hbk Hu Ho He Hby Hes Hbs Hfr].
    assert (Hne : forall c y, tm_b m !! c = Some y -> b <> c) by (intros c y Hy ->; congruence).
    split_and!; try done.
    + split; cbn; try done.
      * intros d c. destruct (decide (d = text)) as [->|Hdt].
        -- rewrite lookup_insert_eq. split.
           ++ intros [= <-]. eexists. by rewrite lookup_insert_eq.
           ++ intros (y & Hy & Hyd). destruct (decide (b = c)) as [->|Hbc]; [done|]. rewrite lookup_insert_ne in Hy by done.
              assert (tm_by_block m !! text = Some c) by (apply Hbk; by exists y). congruence.
        -- rewrite lookup_insert_ne by done. rewrite Hbk. destruct (decide (b = c)) as [<-|Hbc].
           ++ rewrite lookup_insert_eq. split; [intros (y & Hy & _); congruence | intros (y & [= <-] & Hyd); cbn in Hyd; congruence].
           ++ by rewrite lookup_insert_ne.
      * intros c y. destruct (decide (b = c)) as [<-|Hbc].
        -- rewrite lookup_insert_eq. intros [= <-]. exists []. split; [|by right]. split; try done; [constructor|].
           intros a. split; [by intros ?%elem_of_nil|]. intros (e & Hae & Hb). destruct (Ho a e Hae) as [z Hz]. rewrite Hb in Hz. congruence.
        -- rewrite lookup_insert_ne by done. intros Hy. destruct (Hu c y Hy) as (us & Hus & [Hor|Hor]); [exists us; auto | done].
      * intros a e Hae. destruct (Ho a e Hae) as [y Hy]. rewrite lookup_insert_ne by (by apply (Hne _ y)). by rewrite Hy.
      * rewrite msum_insert by done. cbn. rewrite Hby. lia.
      * intros c y. destruct (decide (b = c)) as [<-|Hbc]; [rewrite lookup_insert_eq; by intros [= <-]|].
        rewrite lookup_insert_ne by done. apply Hbs.
      * intros c Hcc. destruct (Hfr c ltac:(lia)) as [H1 H2]. split; [done|]. rewrite lookup_insert_ne by (unfold b; lia). done.
    + eexists. cbn. by rewrite lookup_insert_eq.
    + intros c y Hy. cbn. rewrite lookup_insert_ne by (by apply (Hne _ y)). done.
Qed.

(** Linking does not look at the counters. *)
Lemma link_head_counts m a n y : tool_memory_link_head (with_counts m n y) a = (fun m' => with_counts m' n y) <$> tool_memory_link_head m a.
Proof.
  unfold tool_memory_link_head. cbn. destruct (store (tm_e m) a _) as [h|]; [|done]. cbn. destruct (tm_head m) as [b|]; [|done].
  by destruct (store h b _).
Qed.

(** The memory with a new user of the block, before it is linked. *)
Lemma add_user_content m l b bl a id source p n : content (Some b) m l -> tm_b m !! b = Some bl -> a = tm_addr m -> id <> [] ->
  tm_by_id m !! id = None ->
  let e := Entry id b (zlen id + 1 + sizeof_entry) n source None p (b_entries bl) in
  content None (TM (<[a := e]> (tm_e m)) (<[b := set_refs (b_refs bl + 1) (set_entries (Some a) bl)]> (tm_b m)) (S (tm_addr m))
    (<[id := a]> (tm_by_id m)) (tm_by_block m) (tm_head m) (tm_tail m) (tm_entries m + 1) (tm_max_entries m)
    (tm_bytes m + e_bytes e) (tm_max_bytes m) n) (a :: l).
Proof.
  intros Hc Hbl -> Hid Hnew e. set (a := tm_addr m). destruct (ct_fresh _ _ _ Hc a (le_n _)) as [Hfe Hfb].
  pose proof Hc as [Hd Hi Hbk Hu Ho He Hby Hes Hbs Hfr].
  assert (Hne : forall c y, tm_e m !! c = Some y -> a <> c) by (intros c y Hy ->; congruence).
  split; cbn [tm_e tm_b tm_addr tm_by_id tm_by_block tm_entries tm_bytes].
  - intros c. rewrite elem_of_cons. destruct (decide (a = c)) as [<-|Hac]; [rewrite lookup_insert_eq; by split; [|left]|].
    rewrite lookup_insert_ne by done. rewrite <- Hd. naive_solver.
  - intros id' c. destruct (decide (id = id')) as [<-|Hidd].
    + rewrite lookup_insert_eq. split; [intros [= <-]; exists e; by rewrite lookup_insert_eq|]. intros (y & Hy & Hyid).
      destruct (decide (a = c)) as [->|Hac]; [done|]. rewrite lookup_insert_ne in Hy by done.
      assert (tm_by_id m !! id = Some c) by (apply Hi; by exists y). congruence.
    + rewrite lookup_insert_ne by done. rewrite Hi. destruct (decide (a = c)) as [<-|Hac]; [|by rewrite lookup_insert_ne].
      rewrite lookup_insert_eq. split; [intros (y & Hy & _); congruence | intros (y & [= <-] & Hyid); cbn in Hyid; congruence].
  - intros d c. rewrite Hbk. destruct (decide (b = c)) as [<-|Hbc]; [|by rewrite lookup_insert_ne].
    rewrite lookup_insert_eq. split; intros (y & Hy & Hyd); [rewrite Hbl in Hy; injection Hy as <-; eexists; by split; [done|]|].
    injection Hy as <-. by exists bl.
  - intros c y Hy. destruct (decide (b = c)) as [<-|Hbc].
    + rewrite lookup_insert_eq in Hy. injection Hy as <-. destruct (Hu b bl Hbl) as (us & [Hn Hh Hs Hiff Hr] & _).
      exists (a :: us). split; [|by left]. assert (Ha : a ∉ us) by (intros (y & Hy & _)%Hiff; congruence).
      split; cbn; [by constructor | done | | |lia].
      * exists e. rewrite lookup_insert_eq. split_and!; [done | exact Hh |]. eapply cseg_frame; [|exact Hs].
        intros c Hcu. rewrite lookup_insert_ne; [done|]. by intros ->.
      * intros c. rewrite elem_of_cons. destruct (decide (a = c)) as [<-|Hac].
        -- rewrite lookup_insert_eq. split; [intros _; by exists e | by left].
        -- rewrite lookup_insert_ne by done. rewrite Hiff. naive_solver.
    + rewrite lookup_insert_ne in Hy by done. destruct (Hu c y Hy) as (us & [Hn Hh Hs Hiff Hr] & [Hor|[= Hor]]); [|done].
      assert (Ha : a ∉ us) by (intros (z & Hz & _)%Hiff; congruence).
      exists us. split; [|by left]. split; try done.
      * eapply cseg_frame; [|exact Hs]. intros d Hdu. rewrite lookup_insert_ne; [done|]. by intros ->.
      * intros d. rewrite Hiff. destruct (decide (a = d)) as [<-|Had]; [|by rewrite lookup_insert_ne].
        rewrite lookup_insert_eq. split; intros (z & Hz & Hzb); [congruence|]. injection Hz as <-. by cbn in Hzb.
  - intros c y Hy. assert (Hsome : forall k, is_Some (tm_b m !! k) -> is_Some (<[b:=set_refs (b_refs bl + 1) (set_entries (Some a) bl)]> (tm_b m) !! k)).
    { intros k Hk. destruct (decide (b = k)) as [<-|]; [by rewrite lookup_insert_eq | by rewrite lookup_insert_ne]. }
    apply Hsome. destruct (decide (a = c)) as [<-|Hac]; [rewrite lookup_insert_eq in Hy; injection Hy as <-; cbn; by rewrite Hbl|].
    rewrite lookup_insert_ne in Hy by done. by eapply Ho.
  - rewrite He. unfold zlen. cbn. lia.
  - rewrite msum_insert by done. rewrite (msum_replace b_bytes _ b bl) by done. rewrite Hby. lia.
  - intros c y Hy. destruct (decide (a = c)) as [<-|Hac]; [rewrite lookup_insert_eq in Hy; by injection Hy as <-|].
    rewrite lookup_insert_ne in Hy by done. by apply (Hes c).
  - intros c y Hy. destruct (decide (b = c)) as [<-|Hbc]; [rewrite lookup_insert_eq in Hy; injection Hy as <-; cbn; by apply (Hbs b)|].
    rewrite lookup_insert_ne in Hy by done. by apply (Hbs c).
  - intros c Hcc. destruct (Hfr c ltac:(unfold a in *; lia)) as [H1 H2]. rewrite !lookup_insert_ne; [done|congruence|unfold a; lia].
Qed.

(** ** The specification *)

Definition it_id (i : item) : bytes := fst (fst i).
Definition it_text (i : item) : bytes := snd (fst i).
Definition it_source (i : item) : tool_memory_source := snd i.

(** The memory as a list of items, most recent first. *)
Definition items (m : tool_memory) (l : list nat) : list item := omap (item_of m) l.

Definition spec_find (id : bytes) (l : list item) : option item := List.find (fun i => bytes_eqb (it_id i) id) l.
Definition spec_remove (id : bytes) (l : list item) : list item := List.filter (fun i => negb (bytes_eqb (it_id i) id)) l.

(** An entry per item, a block per distinct text. *)
Definition spec_bytes (l : list item) : Z :=
  sum (map (fun i => zlen (it_id i) + 1 + sizeof_entry) l) +
  sum (map (fun d => zlen d + 1 + sizeof_block) (remove_dups (map it_text l))).

(** Drop the oldest items until both limits hold. *)
Fixpoint spec_prune (max_entries max_bytes : Z) (fuel : nat) (l : list item) : list item :=
  match fuel with
  | O => l
  | S fuel' =>
      if (max_entries <? zlen l) || (max_bytes <? spec_bytes l) then spec_prune max_entries max_bytes fuel' (removelast l)
      else l
  end.

Definition spec_put (max_entries max_bytes : Z) (id text : bytes) (source : tool_memory_source) (l : list item) : list item :=
  match id, text with
  | [], _ | _, [] => l
  | _, _ =>
      let source :=
        match spec_find id l with
        | Some i => if bytes_eqb (it_text i) text then match source with TOOL_MEMORY_RAM => TOOL_MEMORY_RAM | _ => it_source i end else source
        | None => source
        end in
      let l := (id, text, source) :: spec_remove id l in
      spec_prune max_entries max_bytes (length l) l
  end.

(** A lookup makes the item the most recent one. *)
Definition spec_touch (id : bytes) (l : list item) : list item :=
  match spec_find id l with Some i => i :: spec_remove id l | None => l end.

Lemma wf_item m l a : wf m l -> a ∈ l -> exists i, item_of m a = Some i.
Proof.
  intros [_ Hc] Ha. apply (ct_dom _ _ _ Hc) in Ha as [e He]. destruct (ct_block_of _ _ _ Hc a e He) as [bl Hbl].
  unfold item_of. rewrite He. cbn. rewrite Hbl. by eexists.
Qed.

Lemma items_app m l1 l2 : items m (l1 ++ l2) = items m l1 ++ items m l2.
Proof. apply omap_app. Qed.

Lemma items_frame m m' l : (forall c, c ∈ l -> item_of m' c = item_of m c) -> items m' l = items m l.
Proof.
  unfold items. induction l as [|c l IH]; intros H; [done|]. cbn. rewrite (H c) by set_solver. rewrite IH; [done|].
  intros d Hd. apply H. set_solver.
Qed.

Lemma blocks_length m l : wf m l -> forall k, k `sublist_of` l -> length (items m k) = length k.
Proof.
  intros Hw. induction k as [|a k IH]; intros Hk; [done|]. unfold items. cbn.
  destruct (wf_item m l a Hw) as [i ->]; [apply (sublist_subseteq _ _ Hk), list_elem_of_here|]. cbn. f_equal. apply IH.
  etrans; [|exact Hk]. by apply sublist_cons.
Qed.

Lemma new_entry_ok m l id text source : wf m l -> id <> [] -> text <> [] -> tm_by_id m !! id = None ->
  exists m' a, new_entry m id text source = Some m' /\ wf m' (a :: l) /\ items m' (a :: l) = (id, text, source) :: items m l /\
    tm_max_entries m' = tm_max_entries m /\ tm_max_bytes m' = tm_max_bytes m.
Proof.
  intros [Hl Hc] Hid Htext Hnew. unfold new_entry. pose proof (get_block_ok m l text Hc Htext) as Hgb.
  destruct (tool_memory_get_block_locked m text) as [m1 b].
  destruct Hgb as (Hc1 & (bl & Hbl & Hd) & Hkeep & E1 & E2 & E3 & E4 & E5 & E6). cbn [alloc]. set (a := tm_addr m1).
  cbn [tm_b]. rewrite Hbl. cbn [mbind option_bind].
  destruct (ct_fresh _ _ _ Hc1 a (le_n _)) as [Hfe _].
  assert (Ha : a ∉ l).
  { intros Hin. apply (ct_dom _ _ _ Hc1) in Hin as [e He]. congruence. }
  match goal with |- context [tool_memory_link_head ?x a] => set (m2 := x) end.
  pose proof (add_user_content m1 l b bl a id source None (u64 (tm_clock m1 + 1)) Hc1 Hbl eq_refl Hid ltac:(congruence)) as Hc2.
  cbv zeta in Hc2. match type of Hc2 with content _ ?x _ => set (m3 := x) in * end.
  assert (E23 : m3 = with_counts m2 (tm_entries m1 + 1) (tm_bytes m1 + (zlen id + 1 + sizeof_entry))) by done.
  destruct (link_head_ok m2 l a) as (m4 & E24 & Hl4 & Hr4).
  { destruct Hl as [Hs Hn Hh Ht]. split; [|done|unfold m2; cbn; congruence|unfold m2; cbn; congruence].
    eapply seg_frame; [|exact Hs]. intros c Hcl. unfold m2. cbn. rewrite lookup_insert_ne; [by rewrite E1|]. by intros ->. }
  { done. }
  { unfold m2. cbn. by rewrite lookup_insert_eq. }
  rewrite E24. cbn [mbind option_bind]. eexists _, a. split; [done|].
  set (m5 := with_counts m4 _ _).
  assert (Hr5 : relinked m3 m5).
  { rewrite E23. destruct Hr4 as [H1 H2 H3 H4 H5 H6 H7 H8 H9]. split; try done; unfold m5; cbn.
    - by rewrite H6.
    - by rewrite H8. }
  split_and!.
  - split; [by destruct Hl4 | by eapply content_relinked].
  - unfold items. cbn [omap list_omap]. pose proof (relinked_item m3 m5 a None (a :: l) Hc2 Hr5) as Hi. rewrite Hi.
    assert (Hia : item_of m3 a = Some (id, text, source)).
    { unfold item_of, m3. cbn. rewrite lookup_insert_eq. cbn. rewrite lookup_insert_eq. cbn. by rewrite Hd. }
    rewrite Hia. f_equal. apply items_frame. intros c Hcl. rewrite (relinked_item m3 m5 c None (a :: l) Hc2 Hr5).
    apply (ct_dom _ _ _ Hc) in Hcl as Hcd. destruct Hcd as [y Hy]. apply (item_frame m m3 c y Hy).
    + exists y. split; [|done]. unfold m3. cbn. rewrite lookup_insert_ne; [by rewrite E1|]. by intros ->.
    + intros z Hz. apply Hkeep in Hz. unfold m3. cbn. destruct (decide (b = e_block y)) as [Heq|Hbc].
      * rewrite <- Heq in *. rewrite lookup_insert_eq. eexists. split; [done|]. assert (z = bl) as -> by congruence. done.
      * rewrite lookup_insert_ne by done. by exists z.
    + by eapply ct_block_of.
  - unfold m5. cbn. rewrite (rl_max_entries _ _ Hr4). done.
  - unfold m5. cbn. rewrite (rl_max_bytes _ _ Hr4). done.
Qed.

(** ** Sizes *)

Lemma msum_list {A} (f : A -> Z) l : forall m : gmap nat A, NoDup l -> (forall a, a ∈ l <-> is_Some (m !! a)) ->
  msum f m = sum (omap (fun a => f <$> m !! a) l).
Proof.
  induction l as [|a l IH]; intros m Hn Hd.
  - assert (m = ∅) as ->; [|done]. apply map_eq. intros k. rewrite lookup_empty. destruct (m !! k) eqn:E; [|done].
    assert (k ∈ []) as H by (apply Hd; by rewrite E). by apply elem_of_nil in H.
  - apply NoDup_cons in Hn as [Ha Hn]. destruct (proj1 (Hd a) (list_elem_of_here _ _)) as [x Hx].
    rewrite (msum_delete f m a x Hx). cbn. rewrite Hx. cbn. f_equal. rewrite (IH (delete a m)); [|done|].
    + f_equal. clear - Ha. induction l as [|c l IH]; [done|]. apply not_elem_of_cons in Ha as [Hac Ha]. cbn.
      rewrite lookup_delete_ne by done. by rewrite IH.
    + intros c. destruct (decide (c = a)) as [->|Hca].
      * rewrite lookup_delete_eq. split; [done | by intros []].
      * rewrite lookup_delete_ne by done. rewrite <- Hd, elem_of_cons. naive_solver.
Qed.

Lemma omap_map {A B C} (f : A -> option C) (h : A -> option B) (g : B -> C) l :
  (forall a, a ∈ l -> exists i, h a = Some i /\ f a = Some (g i)) -> omap f l = map g (omap h l).
Proof.
  induction l as [|a l IH]; intros H; [done|]. cbn. destruct (H a (list_elem_of_here _ _)) as (i & -> & ->). cbn. f_equal.
  apply IH. intros b Hb. apply H. by right.
Qed.

Lemma omap_omap_map {A B C} (g : A -> option B) (f : B -> option C) (h : A -> C) l :
  (forall a, a ∈ l -> exists b, g a = Some b /\ f b = Some (h a)) -> omap f (omap g l) = map h l.
Proof.
  induction l as [|a l IH]; intros H; [done|]. cbn. destruct (H a (list_elem_of_here _ _)) as (b & -> & Hf). cbn. rewrite Hf. f_equal.
  apply IH. intros c Hc. apply H. by right.
Qed.

Lemma nodup_omap {A B} (f : A -> option B) l : NoDup l -> (forall a a' b, f a = Some b -> f a' = Some b -> a = a') -> NoDup (omap f l).
Proof.
  intros Hn Hinj. induction Hn as [|a l Ha _ IH]; [constructor|]. cbn. destruct (f a) as [b|] eqn:E; [|done]. constructor; [|done].
  intros (a' & Ha' & E')%list_elem_of_omap. by rewrite (Hinj a a' b E E') in Ha.
Qed.

Lemma item_of_inv m c i : item_of m c = Some i -> exists e bl, tm_e m !! c = Some e /\ tm_b m !! e_block e = Some bl /\
  it_id i = e_id e /\ it_text i = b_dsml bl /\ it_source i = e_source e.
Proof.
  unfold item_of. destruct (tm_e m !! c) as [e|] eqn:E; [|done]. cbn. destruct (tm_b m !! e_block e) as [bl|] eqn:Eb; [|done].
  intros [= <-]. by exists e, bl.
Qed.

Lemma wf_bytes m l : wf m l -> tm_bytes m = spec_bytes (items m l).
Proof.
  intros Hw. pose proof Hw as [Hl Hc]. rewrite (ct_bytes _ _ _ Hc). unfold spec_bytes. f_equal.
  - rewrite (msum_list e_bytes l) by (apply Hl || apply Hc). f_equal. apply omap_map. intros a Ha.
    destruct (wf_item m l a Hw Ha) as [i Hi]. exists i. split; [done|].
    destruct (item_of_inv m a i Hi) as (e & bl & He & _ & -> & _). rewrite He. cbn.
    by rewrite (proj2 (ct_esize _ _ _ Hc a e He)).
  - set (ds := remove_dups (map it_text (items m l))).
    assert (Hds : forall d, d ∈ ds <-> exists a e bl, tm_e m !! a = Some e /\ tm_b m !! e_block e = Some bl /\ b_dsml bl = d).
    { intros d. unfold ds. rewrite elem_of_remove_dups. split.
      - intros (i & -> & Hi)%list_elem_of_fmap. apply list_elem_of_omap in Hi as (a & Ha & Hi).
        destruct (item_of_inv m a i Hi) as (e & bl & He & Hbl & _ & -> & _). by exists a, e, bl.
      - intros (a & e & bl & He & Hbl & <-). apply list_elem_of_fmap. exists (e_id e, b_dsml bl, e_source e). split; [done|].
        apply list_elem_of_omap. exists a. split; [apply (ct_dom _ _ _ Hc); by rewrite He|]. unfold item_of. rewrite He. cbn. by rewrite Hbl. }
    rewrite (msum_list b_bytes (omap (fun d => tm_by_block m !! d) ds)).
    + f_equal. apply omap_omap_map. intros d (a & e & bl & He & Hbl & Hd)%Hds. exists (e_block e).
      split; [apply (ct_blocks _ _ _ Hc); by exists bl|]. rewrite Hbl. cbn. by rewrite (proj2 (ct_bsize _ _ _ Hc _ bl Hbl)), Hd.
    + apply nodup_omap; [apply NoDup_remove_dups|]. intros d d' b (bl & Hbl & <-)%(ct_blocks _ _ _ Hc) (bl' & Hbl' & <-)%(ct_blocks _ _ _ Hc). congruence.
    + intros b. rewrite list_elem_of_omap. split.
      * intros (d & _ & (bl & Hbl & _)%(ct_blocks _ _ _ Hc)). by rewrite Hbl.
      * intros [bl Hbl]. exists (b_dsml bl). split; [|apply (ct_blocks _ _ _ Hc); by exists bl]. apply Hds.
        destruct (ct_users _ _ _ Hc b bl Hbl) as (us & Hus & [Hne|]); [|done]. destruct us as [|a us]; [done|].
        destruct (proj1 (us_iff _ _ _ _ Hus a) (list_elem_of_here _ _)) as (e & He & <-). by exists a, e, bl.
Qed.

(** ** The operations implement the specification *)

Definition limits_kept (m m' : tool_memory) : Prop :=
  tm_max_entries m' = tm_max_entries m /\ tm_max_bytes m' = tm_max_bytes m.

Lemma items_full m l : wf m l -> length (items m l) = length l.
Proof. intros Hw. by apply (blocks_length m l Hw l). Qed.

Lemma over_limits_spec m l : wf m l ->
  over_limits m = (tool_memory_max_entries m <? zlen (items m l)) || (tool_memory_max_bytes m <? spec_bytes (items m l)).
Proof.
  intros Hw. unfold over_limits. rewrite (ct_entries _ _ _ (wf_content _ _ Hw)), (wf_bytes m l Hw). unfold zlen.
  by rewrite items_full.
Qed.

Lemma prune_loop_ok fuel : forall m l, wf m l -> (length l < fuel)%nat -> exists m' l', prune_loop fuel m = Some m' /\ wf m' l' /\
  items m' l' = spec_prune (tool_memory_max_entries m) (tool_memory_max_bytes m) (length l) (items m l) /\ limits_kept m m'.
Proof.
  induction fuel as [|fuel IH]; intros m l Hw Hf; [lia|]. cbn [prune_loop]. pose proof (over_limits_spec m l Hw) as Hov.
  rewrite (lk_tail m l (wf_linked _ _ Hw)). destruct l as [|a l1 _] using rev_ind.
  { cbn. exists m, []. by destruct (over_limits m). }
  rewrite last_or_snoc. rewrite length_app, Nat.add_comm in *. cbn [length Nat.add spec_prune] in *. rewrite <- Hov.
  destruct (over_limits m); [|by exists m, (l1 ++ [a])].
  destruct (remove_ok m l1 a [] Hw) as (m1 & -> & Hw1 & Hit & Hme & Hmb). rewrite app_nil_r in *. cbn [mbind option_bind].
  destruct (IH m1 l1 Hw1 ltac:(lia)) as (m2 & l2 & -> & Hw2 & Hi2 & [Hme2 Hmb2]). exists m2, l2. split; [done|]. split; [done|].
  split; [|split; congruence]. rewrite Hi2. unfold tool_memory_max_entries, tool_memory_max_bytes. rewrite Hme, Hmb. f_equal.
  rewrite items_app. destruct (wf_item m (l1 ++ [a]) a Hw) as [i Hi]; [set_solver|]. unfold items at 3. cbn. rewrite Hi.
  rewrite removelast_last. by apply items_frame.
Qed.

Lemma prune_ok m l : wf m l -> exists m' l', tool_memory_prune_locked m = Some m' /\ wf m' l' /\
  items m' l' = spec_prune (tool_memory_max_entries m) (tool_memory_max_bytes m) (length (items m l)) (items m l) /\ limits_kept m m'.
Proof.
  intros Hw. rewrite items_full by done. apply prune_loop_ok; [done|].
  pose proof (nodup_size (tm_e m) l (lk_nodup _ _ (wf_linked _ _ Hw))) as H. apply Nat.lt_succ_r, H. intros a. apply (ct_dom _ _ _ (wf_content _ _ Hw)).
Qed.

(** The id map finds the item, and the others have other ids. *)
Lemma find_ok m l id a : wf m l -> tm_by_id m !! id = Some a -> exists l1 l2 i, l = l1 ++ a :: l2 /\ item_of m a = Some i /\
  it_id i = id /\ spec_find id (items m l) = Some i /\ spec_remove id (items m l) = items m (l1 ++ l2).
Proof.
  intros Hw Hid. pose proof Hw as [Hl Hc]. apply (ct_ids _ _ _ Hc) in Hid as Hae. destruct Hae as (e & He & Heid).
  assert (Ha : a ∈ l) by (apply (ct_dom _ _ _ Hc); by rewrite He). destruct (list_elem_of_split _ _ Ha) as (l1 & l2 & ->).
  destruct (wf_item m _ a Hw Ha) as [i Hi]. destruct (item_of_inv m a i Hi) as (e' & bl & He' & _ & Hii & _).
  exists l1, l2, i. split; [done|]. split; [done|]. assert (Hiid : it_id i = id) by congruence. split; [done|].
  assert (Hoth : forall c j, c <> a -> item_of m c = Some j -> bytes_eqb (it_id j) id = false).
  { intros c j Hca Hj. apply bytes_eqb_neq. intros Hjid. destruct (item_of_inv m c j Hj) as (ec & _ & Hec & _ & Hje & _).
    assert (tm_by_id m !! id = Some c) by (apply (ct_ids _ _ _ Hc); exists ec; split; [done | congruence]). congruence. }
  pose proof (lk_nodup _ _ Hl) as (_ & Hdis & (Ha2 & _)%NoDup_cons)%NoDup_app.
  assert (Ha1 : a ∉ l1) by (intros H; apply (Hdis a H), list_elem_of_here).
  assert (Hrm : forall k, a ∉ k -> spec_remove id (items m k) = items m k).
  { induction k as [|c k IH]; intros Hk; [done|]. apply not_elem_of_cons in Hk as [Hca Hk]. unfold items. cbn.
    destruct (item_of m c) as [j|] eqn:Ej; [|by apply IH]. cbn. rewrite (Hoth c j); [|by intros ->|done]. cbn. f_equal. by apply IH. }
  rewrite !items_app. unfold items at 2 4. cbn [omap list_omap]. rewrite Hi. split.
  - clear - Hoth Ha1 Hiid. induction l1 as [|c l1 IH]; cbn.
    + unfold spec_find. cbn. by rewrite Hiid, bytes_eqb_refl.
    + apply not_elem_of_cons in Ha1 as [Hca Ha1]. destruct (item_of m c) as [j|] eqn:Ej; [|by apply IH].
      unfold spec_find. cbn. rewrite (Hoth c j); [|by intros ->|done]. by apply IH.
  - unfold spec_remove in *. rewrite List.filter_app, Hrm by done. f_equal. cbn. rewrite Hiid, bytes_eqb_refl. cbn. by apply Hrm.
Qed.

Lemma find_none m l id : wf m l -> tm_by_id m !! id = None -> spec_find id (items m l) = None /\ spec_remove id (items m l) = items m l.
Proof.
  intros [_ Hc] Hid. assert (Hoth : forall c j, item_of m c = Some j -> bytes_eqb (it_id j) id = false).
  { intros c j Hj. apply bytes_eqb_neq. intros Hjid. destruct (item_of_inv m c j Hj) as (ec & _ & Hec & _ & Hje & _).
    assert (tm_by_id m !! id = Some c) by (apply (ct_ids _ _ _ Hc); exists ec; split; [done | congruence]). congruence. }
  clear Hc. unfold items. induction l as [|c l IH]; cbn; [done|]. destruct (item_of m c) as [j|] eqn:Ej; [|done].
  unfold spec_find, spec_remove in *. cbn. rewrite (Hoth c j Ej). cbn. destruct IH as [-> ->]. done.
Qed.

Lemma set_source_ok m l a s : wf m l -> a ∈ l -> exists h i, store (tm_e m) a (set_source s) = Some h /\ wf (with_heap m h (tm_b m)) l /\
  item_of m a = Some i /\ item_of (with_heap m h (tm_b m)) a = Some (it_id i, it_text i, s) /\
  forall c, c <> a -> item_of (with_heap m h (tm_b m)) c = item_of m c.
Proof.
  intros Hw Ha. destruct (wf_item m l a Hw Ha) as [i Hi]. destruct (item_of_inv m a i Hi) as (e & bl & He & Hbl & H1 & H2 & _).
  unfold store. rewrite He. cbn. eexists _, i. split; [done|]. destruct Hw as [Hl Hc].
  assert (Hf : forall (B : Type) (f : tool_memory_entry -> B) c, f (set_source s e) = f e -> f <$> <[a := set_source s e]> (tm_e m) !! c = f <$> tm_e m !! c).
  { intros B f c Hfe. destruct (decide (a = c)) as [->|]; [rewrite lookup_insert_eq, He; cbn; by rewrite Hfe | by rewrite lookup_insert_ne]. }
  split_and!.
  - split.
    + destruct Hl as [Hs Hn Hh Ht]. split; try done. cbn. eapply seg_links; [|exact Hs]. intros c _. by apply Hf.
    + eapply content_rewired; [exact Hc | |done]. split; try done. intros c. by apply Hf.
  - done.
  - unfold item_of. cbn. rewrite lookup_insert_eq. cbn. rewrite Hbl. cbn. by rewrite H1, H2.
  - intros c Hca. unfold item_of. cbn. by rewrite lookup_insert_ne.
Qed.

Lemma touch_items m l1 a l2 i : wf m (l1 ++ a :: l2) -> item_of m a = Some i -> exists m',
  tool_memory_touch m a = Some m' /\ wf m' (a :: l1 ++ l2) /\ items m' (a :: l1 ++ l2) = i :: items m (l1 ++ l2) /\ limits_kept m m' /\
  item_of m' a = Some i.
Proof.
  intros [Hl Hc] Hi. destruct (touch_ok m l1 a l2 Hl) as (m' & E & Hl' & Hr). exists m'.
  assert (Hit : forall c, item_of m' c = item_of m c) by (intros c; by eapply relinked_item).
  split_and!; [done| | |split; apply Hr|by rewrite Hit].
  - split; [done|]. eapply content_relinked; [exact Hc | exact Hr | solve_Permutation].
  - unfold items at 1. cbn [omap list_omap]. rewrite Hit, Hi. f_equal. by apply items_frame.
Qed.

Lemma find_id m l id i : wf m l -> spec_find id (items m l) = Some i -> it_id i = id.
Proof. intros _ H. apply find_some in H as [_ H]. by apply bytes_eqb_eq in H. Qed.

(** The binding of an entry to its block's text. *)
Lemma item_bl m a i e bl : item_of m a = Some i -> tm_e m !! a = Some e -> tm_b m !! e_block e = Some bl ->
  it_text i = b_dsml bl /\ it_source i = e_source e.
Proof. unfold item_of. intros H He Hb. rewrite He in H. cbn in H. rewrite Hb in H. cbn in H. injection H as <-. done. Qed.

Lemma put_ok m l id text source : wf m l -> exists m' l', tool_memory_put_locked m id text source = Some m' /\ wf m' l' /\
  items m' l' = spec_put (tool_memory_max_entries m) (tool_memory_max_bytes m) id text source (items m l) /\ limits_kept m m'.
Proof.
  intros Hw. unfold tool_memory_put_locked, spec_put. destruct id as [|c0 id0]; [by exists m, l|]. destruct text as [|d0 text0]; [by exists m, l|].
  set (id := c0 :: id0) in *. set (text := d0 :: text0) in *. change (tool_memory_find_entry_locked m id) with (tm_by_id m !! id).
  assert (Hlim : forall m1, limits_kept m m1 -> tool_memory_max_entries m1 = tool_memory_max_entries m /\ tool_memory_max_bytes m1 = tool_memory_max_bytes m).
  { intros m1 [H1 H2]. unfold tool_memory_max_entries, tool_memory_max_bytes. by rewrite H1, H2. }
  assert (Hprune : forall m1 l1 L, wf m1 l1 -> items m1 l1 = L -> limits_kept m m1 -> exists m' l', tool_memory_prune_locked m1 = Some m' /\ wf m' l' /\
    items m' l' = spec_prune (tool_memory_max_entries m) (tool_memory_max_bytes m) (length L) L /\ limits_kept m m').
  { intros m1 l1 L Hw1 <- Hk. destruct (prune_ok m1 l1 Hw1) as (m' & l' & -> & Hw' & Hit & Hk'). destruct (Hlim m1 Hk) as [E1 E2]. rewrite E1, E2 in Hit.
    exists m', l'. split_and!; [done | done | done | split; destruct Hk, Hk'; congruence]. }
  destruct (tm_by_id m !! id) as [a|] eqn:Eid.
  - destruct (find_ok m l id a Hw Eid) as (l1 & l2 & i & -> & Hi & Hii & -> & ->).
    destruct (item_of_inv m a i Hi) as (e & bl & He & Hbl & _ & Ht & Hs). rewrite He. cbn [mbind option_bind]. rewrite Hbl. cbn [mbind option_bind].
    rewrite Ht. destruct (bytes_eqb (b_dsml bl) text) eqn:Eq.
    + apply bytes_eqb_eq in Eq. destruct source.
      * destruct (set_source_ok m _ a TOOL_MEMORY_RAM Hw (elem_mid a l1 l2)) as (h & i' & -> & Hw1 & Hi' & Hi1 & Hoth). cbn [mbind option_bind].
        rewrite Hi in Hi'. injection Hi' as <-. destruct (touch_items _ l1 a l2 _ Hw1 Hi1) as (m2 & -> & Hw2 & Hit & Hk & _). cbn [mbind option_bind].
        apply (Hprune m2 _ _ Hw2); [|by destruct Hk]. rewrite Hit, Hii, Ht, Eq. f_equal. apply items_frame. intros c Hcl. apply Hoth.
        intros ->. pose proof (lk_nodup _ _ (wf_linked _ _ Hw)) as (_ & Hdis & (Hn2 & _)%NoDup_cons)%NoDup_app.
        apply elem_of_app in Hcl as [Hcl|]; [|done]. apply (Hdis a Hcl), list_elem_of_here.
      * cbn [mbind option_bind]. replace (with_heap m (tm_e m) (tm_b m)) with m by (by destruct m).
        destruct (touch_items _ l1 a l2 _ Hw Hi) as (m2 & -> & Hw2 & Hit & Hk & _). cbn [mbind option_bind].
        apply (Hprune m2 _ _ Hw2); [|done]. rewrite Hit. f_equal. rewrite <- Hii, <- Eq, <- Ht. by destruct i as [[? ?] ?].
    + destruct (remove_ok m l1 a l2 Hw) as (m1 & Hrm & Hw1 & Hit1 & Hk1). rewrite Hrm. cbn [mbind option_bind].
      assert (Hnone : tm_by_id m1 !! id = None).
      { destruct (tm_by_id m1 !! id) as [c|] eqn:Ec; [|done]. exfalso.
        destruct (find_ok m1 _ id c Hw1 Ec) as (k1 & k2 & j & Hk & Hj & Hjj & _).
        assert (Hcl : c ∈ l1 ++ l2) by (rewrite Hk; apply elem_mid). rewrite (Hit1 c Hcl) in Hj.
        destruct (item_of_inv m c j Hj) as (ec & _ & Hec & _ & Hje & _).
        assert (Hcid : tm_by_id m !! id = Some c) by (apply (ct_ids _ _ _ (wf_content _ _ Hw)); exists ec; split; [done | congruence]).
        assert (c = a) as -> by congruence. pose proof (lk_nodup _ _ (wf_linked _ _ Hw)) as (_ & Hdis & (Hn2 & _)%NoDup_cons)%NoDup_app.
        apply elem_of_app in Hcl as [Hcl|]; [|done]. apply (Hdis a Hcl), list_elem_of_here. }
      destruct (new_entry_ok m1 (l1 ++ l2) id text source Hw1) as (m2 & b & -> & Hw2 & Hit2 & Hk2); [done..|]. cbn [mbind option_bind].
      apply (Hprune m2 _ _ Hw2); [|split; destruct Hk1, Hk2; congruence]. rewrite Hit2. f_equal. by apply items_frame.
  - destruct (find_none m l id Hw Eid) as [-> ->].
    destruct (new_entry_ok m l id text source Hw) as (m2 & b & -> & Hw2 & Hit2 & Hk2); [done..|]. cbn [mbind option_bind].
    by apply (Hprune m2 _ _ Hw2).
Qed.

Lemma lookup_ok m l id : wf m l -> exists m' l' r, tool_memory_lookup_locked m id = Some (m', r) /\ wf m' l' /\
  items m' l' = spec_touch id (items m l) /\ limits_kept m m' /\ tm_b m' = tm_b m /\
  (tm_entries m' = tm_entries m /\ tm_bytes m' = tm_bytes m) /\
  match r with
  | Some (text, source, b) => spec_find id (items m l) = Some (id, text, source) /\ exists bl, tm_b m !! b = Some bl /\ b_dsml bl = text
  | None => spec_find id (items m l) = None
  end.
Proof.
  intros Hw. unfold tool_memory_lookup_locked, spec_touch.
  assert (E : tool_memory_find_entry_locked m id = tm_by_id m !! id).
  { destruct id; [|done]. cbn. destruct (tm_by_id m !! []) as [a|] eqn:E; [|done]. exfalso.
    apply (ct_ids _ _ _ (wf_content _ _ Hw)) in E as (e & He & Hid). by destruct (ct_esize _ _ _ (wf_content _ _ Hw) a e He). }
  rewrite E. clear E. destruct (tm_by_id m !! id) as [a|] eqn:Eid.
  - destruct (find_ok m l id a Hw Eid) as (l1 & l2 & i & -> & Hi & Hii & -> & ->).
    destruct (touch_ok m l1 a l2 (wf_linked _ _ Hw)) as (m1 & Et & Hl1 & Hr).
    destruct (touch_items m l1 a l2 i Hw Hi) as (m1' & Et' & Hw1 & Hit & Hk & Hi1).
    assert (m1' = m1) as -> by congruence. rewrite Et. cbn [mbind option_bind].
    destruct (item_of_inv m1 a i Hi1) as (e & bl & He & Hbl & _ & Ht & Hs). rewrite He. cbn [mbind option_bind]. rewrite Hbl. cbn [mbind option_bind].
    exists m1, (a :: l1 ++ l2), (Some (b_dsml bl, e_source e, e_block e)). split_and!; try done; try apply Hk; try apply Hr.
    + rewrite <- Ht, <- Hs, <- Hii. by destruct i as [[? ?] ?].
    + rewrite (rl_b _ _ Hr) in Hbl. by exists bl.
  - exists m, l, None. destruct (find_none m l id Hw Eid) as [-> _]. done.
Qed.

Lemma init_ok max_entries max_bytes : wf (tool_memory_init max_entries max_bytes) [] /\ items (tool_memory_init max_entries max_bytes) [] = [].
Proof.
  split; [|done]. split; [by split; try done; constructor|]. split; cbn; try done.
  - intros a. rewrite lookup_empty. split; [by intros ?%elem_of_nil | by intros []].
  - intros id a. rewrite lookup_empty. split; [done | by intros (? & ? & _)].
  - intros id a. rewrite lookup_empty. split; [done | by intros (? & ? & _)].
Qed.

(** ** Replaying calls *)

Record tool_replay_stats := Stats { st_mem : Z; st_disk : Z; st_canonical : Z; st_missing_ids : Z }.

(** The calls of a message: their ids ([] is also a missing id) and the text to
    replay. *)
Record tool_calls := Calls { tc_ids : list bytes; tc_raw : option bytes }.

(** [tool_memory_remember] on calls with the sampled text [raw]. *)
Fixpoint remember_loop (m : tool_memory) (ids : list bytes) (raw : bytes) : option tool_memory :=
  match ids with
  | [] => Some m
  | id :: ids' => m ← tool_memory_put_locked m id raw TOOL_MEMORY_RAM; remember_loop m ids' raw
  end.

Definition tool_memory_remember (disabled : bool) (m : tool_memory) (ids : list bytes) (raw : option bytes) : option tool_memory :=
  match raw with
  | Some ((_ :: _) as raw) => if disabled then Some m else remember_loop m ids raw
  | _ => Some m
  end.

(** The calls of one message: the block they share, the source, whether all
    agree, how many are unknown. *)
Fixpoint attach_calls (m : tool_memory) (ids : list bytes) (matched : option nat) (source : tool_memory_source) (exact : bool) (missing : Z)
  : option (tool_memory * option nat * tool_memory_source * bool * Z) :=
  match ids with
  | [] => Some (m, matched, source, exact, missing)
  | id :: ids' =>
      '(m, r) ← tool_memory_lookup_locked m id;
      match r with
      | None => attach_calls m ids' matched source false (missing + 1)
      | Some (_, s, b) =>
          let '(matched, source, exact) :=
            match matched with
            | None => (Some b, s, exact)
            | Some b0 => (matched, source, if (b0 =? b)%nat then exact else false)
            end in
          let source := match s with TOOL_MEMORY_RAM => TOOL_MEMORY_RAM | _ => source end in
          attach_calls m ids' matched source exact missing
      end
  end.

Definition attach_message (m : tool_memory) (calls : tool_calls) (stats : tool_replay_stats)
  : option (tool_memory * tool_calls * tool_replay_stats) :=
  match tc_ids calls, tc_raw calls with
  | [], _ | _, Some _ => Some (m, calls, stats)
  | ids, None =>
      '(m, matched, source, exact, missing) ← attach_calls m ids None TOOL_MEMORY_DISK true 0;
      match exact, matched with
      | true, Some b =>
          bl ← tm_b m !! b;
          let stats :=
            match source with
            | TOOL_MEMORY_RAM => Stats (st_mem stats + 1) (st_disk stats) (st_canonical stats) (st_missing_ids stats)
            | TOOL_MEMORY_DISK => Stats (st_mem stats) (st_disk stats + 1) (st_canonical stats) (st_missing_ids stats)
            end in
          Some (m, Calls ids (Some (b_dsml bl)), stats)
      | _, _ => Some (m, calls, Stats (st_mem stats) (st_disk stats) (st_canonical stats + 1) (st_missing_ids stats + missing))
      end
  end.

Fixpoint attach_loop (m : tool_memory) (msgs : list tool_calls) (stats : tool_replay_stats)
  : option (tool_memory * list tool_calls * tool_replay_stats) :=
  match msgs with
  | [] => Some (m, [], stats)
  | c :: msgs' =>
      '(m, c, stats) ← attach_message m c stats;
      '(m, msgs', stats) ← attach_loop m msgs' stats;
      Some (m, c :: msgs', stats)
  end.

Definition tool_memory_attach_to_messages (disabled : bool) (m : tool_memory) (msgs : list tool_calls) (stats : tool_replay_stats)
  : option (tool_memory * list tool_calls * tool_replay_stats) :=
  if disabled then
    Some (m, msgs, foldl (fun st c =>
      match tc_ids c, tc_raw c with
      | [], _ | _, Some _ => st
      | ids, None => Stats (st_mem st) (st_disk st) (st_canonical st + 1) (st_missing_ids st + zlen ids)
      end) stats msgs)
  else attach_loop m msgs stats.

(** The text that all the ids are bound to. *)
Definition spec_attach (ids : list bytes) (l : list item) : option bytes :=
  match ids with
  | [] => None
  | id :: _ =>
      match spec_find id l with
      | None => None
      | Some i =>
          if forallb (fun id' => match spec_find id' l with Some j => bytes_eqb (it_text j) (it_text i) | None => false end) ids
          then Some (it_text i) else None
      end
  end.

Lemma spec_find_touch id id' l : spec_find id' (spec_touch id l) = spec_find id' l.
Proof.
  unfold spec_touch. destruct (spec_find id l) as [i|] eqn:E; [|done].
  assert (Hi : it_id i = id) by (apply find_some in E as [_ E]; by apply bytes_eqb_eq).
  destruct (bytes_eqb id id') eqn:Eq.
  - apply bytes_eqb_eq in Eq as <-. rewrite E. unfold spec_find. cbn. by rewrite Hi, bytes_eqb_refl.
  - unfold spec_find in *. cbn. rewrite Hi, Eq. clear E. induction l as [|j l IH]; [done|]. cbn.
    destruct (bytes_eqb (it_id j) id) eqn:Ej; cbn.
    + apply bytes_eqb_eq in Ej. rewrite Ej, Eq. exact IH.
    + by destruct (bytes_eqb (it_id j) id').
Qed.

(** Whether all the ids are bound to [text]. *)
Definition all_bound (ids : list bytes) (text : bytes) (l : list item) : bool :=
  forallb (fun id => match spec_find id l with Some j => bytes_eqb (it_text j) text | None => false end) ids.

Lemma all_bound_ext ids text l l' : (forall id, spec_find id l' = spec_find id l) -> all_bound ids text l' = all_bound ids text l.
Proof. intros H. unfold all_bound. induction ids as [|id ids IH]; [done|]. cbn. by rewrite H, IH. Qed.

(** Blocks are determined by their texts. *)
Lemma block_eq m l b b' bl bl' : wf m l -> tm_b m !! b = Some bl -> tm_b m !! b' = Some bl' ->
  (b =? b')%nat = bytes_eqb (b_dsml bl') (b_dsml bl).
Proof.
  intros Hw Hb Hb'. destruct (Nat.eqb_spec b b') as [->|Hne].
  - assert (bl = bl') as -> by congruence. by rewrite bytes_eqb_refl.
  - symmetry. apply bytes_eqb_neq. intros Heq. apply Hne. pose proof (ct_blocks _ _ _ (wf_content _ _ Hw) (b_dsml bl)) as Hk.
    assert (H1 : tm_by_block m !! b_dsml bl = Some b) by (apply Hk; by exists bl).
    assert (H2 : tm_by_block m !! b_dsml bl = Some b') by (apply Hk; by exists bl'). congruence.
Qed.

(** The walk over the calls: with a shared block so far, it is exact if every id
    is bound to that block's text. *)
Lemma attach_calls_ok ids : forall m l matched source exact missing, wf m l ->
  exists m' l' matched' source' exact' missing', attach_calls m ids matched source exact missing = Some (m', matched', source', exact', missing') /\
    wf m' l' /\ tm_b m' = tm_b m /\ (forall id, spec_find id (items m' l') = spec_find id (items m l)) /\
    (exact = false -> exact' = false) /\
    match matched with
    | Some b => forall bl, tm_b m !! b = Some bl -> matched' = Some b /\ exact' = exact && all_bound ids (b_dsml bl) (items m l)
    | None => forall id ids', ids = id :: ids' -> match spec_find id (items m l) with
        | Some i => exists b bl, tm_b m !! b = Some bl /\ b_dsml bl = it_text i /\ matched' = Some b /\
            exact' = exact && all_bound ids' (it_text i) (items m l)
        | None => exact' = false
        end
    end.
Proof.
  induction ids as [|id ids IH]; intros m l matched source exact missing Hw; cbn [attach_calls].
  { exists m, l, matched, source, exact, missing. split_and!; try done. destruct matched; [|done]. intros bl _. cbn. by rewrite andb_true_r. }
  destruct (lookup_ok m l id Hw) as (m1 & l1 & r & -> & Hw1 & Hit & Hk & Hb1 & _ & Hr). cbn [mbind option_bind].
  assert (Hfind : forall id', spec_find id' (items m1 l1) = spec_find id' (items m l)) by (intros id'; rewrite Hit; apply spec_find_touch).
  pose proof (fun ids text => all_bound_ext ids text _ _ Hfind) as Hall.
  destruct r as [[[text s] b]|].
  - destruct Hr as (Hid & bl & Hbl & Ht). destruct matched as [b0|].
    + destruct (IH m1 l1 (Some b0) (match s with TOOL_MEMORY_RAM => TOOL_MEMORY_RAM | _ => source end)
        (if (b0 =? b)%nat then exact else false) missing Hw1) as (m' & l' & mt & sr & ex & mi & E & Hw' & Hb' & Hf' & Hx & Hm).
      exists m', l', mt, sr, ex, mi. split_and!; [exact E | done | congruence | intros id'; by rewrite Hf' | |].
      * intros ->. apply Hx. by destruct (b0 =? b)%nat.
      * intros bl0 Hbl0. destruct (Hm bl0 ltac:(congruence)) as [-> ->]. split; [done|].
        rewrite Hall. unfold all_bound at 2. cbn [forallb]. rewrite Hid. change (it_text (id, text, s)) with text.
        rewrite (block_eq m l b0 b bl0 bl Hw Hbl0 Hbl), Ht. fold (all_bound ids (b_dsml bl0) (items m l)).
        destruct (bytes_eqb text (b_dsml bl0)); cbn; [done|by rewrite andb_false_r].
    + destruct (IH m1 l1 (Some b) (match s with TOOL_MEMORY_RAM => TOOL_MEMORY_RAM | TOOL_MEMORY_DISK => s end) exact missing Hw1)
        as (m' & l' & mt & sr & ex & mi & E & Hw' & Hb' & Hf' & Hx & Hm).
      exists m', l', mt, sr, ex, mi. split_and!; [exact E | done | congruence | intros id'; by rewrite Hf' | done |].
      intros id0 ids0 [= <- <-]. rewrite Hid. exists b, bl. destruct (Hm bl ltac:(congruence)) as [-> ->]. by rewrite Hall, Ht.
  - destruct (IH m1 l1 matched source false (missing + 1) Hw1) as (m' & l' & mt & sr & ex & mi & E & Hw' & Hb' & Hf' & Hx & Hm).
    exists m', l', mt, sr, ex, mi. specialize (Hx eq_refl). subst ex.
    split_and!; [exact E | done | congruence | intros id'; by rewrite Hf' | done |]. destruct matched as [b|].
    + intros bl Hbl. destruct (Hm bl ltac:(congruence)) as [-> _]. split; [done|]. unfold all_bound. cbn. rewrite Hr. by rewrite andb_false_r.
    + intros id0 ids0 [= <- <-]. by rewrite Hr.
Qed.

Lemma attach_message_ok m l calls stats : wf m l -> exists m' l' stats', attach_message m calls stats =
    Some (m', Calls (tc_ids calls) (match tc_raw calls with Some t => Some t | None => spec_attach (tc_ids calls) (items m l) end), stats') /\
  wf m' l' /\ forall id, spec_find id (items m' l') = spec_find id (items m l).
Proof.
  intros Hw. destruct calls as [ids raw]. unfold attach_message. cbn [tc_ids tc_raw]. destruct ids as [|id ids].
  { exists m, l, stats. by destruct raw. }
  destruct raw as [t|]; [by exists m, l, stats|].
  destruct (attach_calls_ok (id :: ids) m l None TOOL_MEMORY_DISK true 0 Hw) as (m' & l' & mt & sr & ex & mi & -> & Hw' & Hb' & Hf' & _ & Hm).
  cbn [mbind option_bind]. specialize (Hm id ids eq_refl). unfold spec_attach.
  destruct (spec_find id (items m l)) as [i|] eqn:Ei.
  - destruct Hm as (b & bl & Hbl & Ht & -> & ->). cbn [andb forallb]. rewrite Ei, bytes_eqb_refl. cbn [andb].
    fold (all_bound ids (it_text i) (items m l)). destruct (all_bound ids (it_text i) (items m l)).
    + rewrite Hb', Hbl. cbn [mbind option_bind]. rewrite Ht. by eexists m', l', _.
    + by eexists m', l', _.
  - subst ex. by eexists m', l', _.
Qed.

Lemma attach_loop_ok msgs : forall m l stats, wf m l -> exists m' l' stats', attach_loop m msgs stats =
    Some (m', map (fun c => Calls (tc_ids c) (match tc_raw c with Some t => Some t | None => spec_attach (tc_ids c) (items m l) end)) msgs, stats') /\
  wf m' l' /\ forall id, spec_find id (items m' l') = spec_find id (items m l).
Proof.
  induction msgs as [|c msgs IH]; intros m l stats Hw; cbn [attach_loop map]; [by exists m, l, stats|].
  destruct (attach_message_ok m l c stats Hw) as (m1 & l1 & st1 & -> & Hw1 & Hf1). cbn [mbind option_bind].
  destruct (IH m1 l1 st1 Hw1) as (m2 & l2 & st2 & -> & Hw2 & Hf2). cbn [mbind option_bind].
  exists m2, l2, st2. split; [|split; [done | intros id; by rewrite Hf2]]. do 4 f_equal. apply map_ext. intros c'. do 2 f_equal.
  destruct (tc_raw c'); [done|]. unfold spec_attach. destruct (tc_ids c') as [|id ids]; [done|]. rewrite Hf1.
  destruct (spec_find id (items m l)) as [i|]; [|done]. fold (all_bound (id :: ids) (it_text i) (items m1 l1)).
  by rewrite (all_bound_ext _ _ _ _ Hf1).
Qed.

(** ** Pruning *)

Section Prune.
Context (max_entries max_bytes : Z).

(** Items within the limits survive at the front. *)
Lemma spec_prune_keeps p : zlen p <= max_entries -> spec_bytes p <= max_bytes -> forall fuel q,
  exists q', q' `prefix_of` q /\ spec_prune max_entries max_bytes fuel (p ++ q) = p ++ q'.
Proof.
  intros Hn Hb fuel. induction fuel as [|fuel IH]; intros q; cbn [spec_prune]; [by exists q|].
  destruct ((max_entries <? zlen (p ++ q)) || (max_bytes <? spec_bytes (p ++ q))) eqn:E; [|by exists q].
  destruct q as [|x q _] using rev_ind.
  - exfalso. rewrite app_nil_r in E. lia.
  - rewrite app_assoc, removelast_last. destruct (IH q) as (q' & Hq & ->). exists q'. split; [|done]. by apply prefix_app_r.
Qed.

(** Pruning ends within the limits. *)
Lemma spec_prune_limits fuel : 0 <= max_entries -> 0 <= max_bytes -> forall l, (length l <= fuel)%nat ->
  let l' := spec_prune max_entries max_bytes fuel l in l' `prefix_of` l /\ zlen l' <= max_entries /\ spec_bytes l' <= max_bytes.
Proof.
  intros Hn Hb. induction fuel as [|fuel IH]; intros l Hl; cbn [spec_prune].
  - destruct l; [|cbn in Hl; lia]. split_and!; done.
  - destruct ((max_entries <? zlen l) || (max_bytes <? spec_bytes l)) eqn:E; [|split_and!; [done | lia | lia]].
    destruct l as [|x l _] using rev_ind; [exfalso; change (zlen []) with 0 in E; change (spec_bytes []) with 0 in E; lia|].
    rewrite removelast_last. rewrite length_app in Hl. cbn in Hl. destruct (IH l ltac:(lia)) as (H1 & H2 & H3).
    split_and!; [by apply prefix_app_r | done | done].
Qed.

(** Remembering calls that fit: they end up at the front, in reverse order. *)
Definition ram_items (text : bytes) (ids : list bytes) : list item := map (fun id => (id, text, TOOL_MEMORY_RAM)) ids.

Definition calls_cost (text : bytes) (ids : list bytes) : Z :=
  sum (map (fun id => zlen id + 1 + sizeof_entry) ids) + (zlen text + 1 + sizeof_block).

Lemma ram_bytes text ids : spec_bytes (ram_items text ids) <= calls_cost text ids.
Proof.
  unfold spec_bytes, calls_cost, ram_items. rewrite !map_map. unfold it_id, it_text. cbn [fst snd].
  assert (H : sum (map (fun d => zlen d + 1 + sizeof_block) (remove_dups (map (fun _ : bytes => text) ids))) <= zlen text + 1 + sizeof_block); [|lia].
  pose proof (zlen_nonneg text). induction ids as [|id ids IH]; [cbn; unfold sizeof_block; lia|]. cbn [map remove_dups].
  destruct (decide_rel _ text (map (fun _ => text) ids)) as [Hin|Hin]; [done|].
  assert (ids = []) as ->; [|cbn; lia]. destruct ids; [done|]. destruct Hin. cbn. apply list_elem_of_here.
Qed.

Lemma cost_mono text a b : calls_cost text b <= calls_cost text (a ++ b).
Proof.
  unfold calls_cost. rewrite map_app. unfold sum. rewrite foldr_app. fold (sum (map (fun id => zlen id + 1 + sizeof_entry) b)).
  induction a as [|id a IH]; cbn; [lia|]. pose proof (zlen_nonneg id). unfold sizeof_entry in *. lia.
Qed.

Lemma spec_remove_ram text id ids : id ∉ ids -> spec_remove id (ram_items text ids) = ram_items text ids.
Proof.
  induction ids as [|k ids IH]; intros H; [done|]. apply not_elem_of_cons in H as [Hk H]. unfold spec_remove in *. cbn.
  rewrite (proj2 (bytes_eqb_neq k id)) by congruence. cbn. f_equal. by apply IH.
Qed.

Lemma remember_fits text ids : text <> [] -> forall done rest, NoDup (ids ++ done) -> [] ∉ ids ->
  zlen (ids ++ done) <= max_entries -> calls_cost text (rev ids ++ done) <= max_bytes ->
  exists rest', foldl (fun l id => spec_put max_entries max_bytes id text TOOL_MEMORY_RAM l) (ram_items text done ++ rest) ids =
    ram_items text (rev ids ++ done) ++ rest'.
Proof.
  intros Ht. induction ids as [|id ids IH]; intros done rest Hn He Hz Hc; cbn [foldl rev app]; [by exists rest|].
  apply not_elem_of_cons in He as [He He']. cbn in Hn. apply NoDup_cons in Hn as [Hid Hn].
  assert (E : spec_put max_entries max_bytes id text TOOL_MEMORY_RAM (ram_items text done ++ rest) =
    spec_prune max_entries max_bytes (length (ram_items text (id :: done) ++ spec_remove id rest)) (ram_items text (id :: done) ++ spec_remove id rest)).
  { unfold spec_put. destruct id as [|c id]; [done|]. destruct text as [|d text]; [done|].
    replace (spec_remove (c :: id) (ram_items (d :: text) done ++ rest)) with (ram_items (d :: text) done ++ spec_remove (c :: id) rest).
    - destruct (spec_find _ _) as [i|]; [destruct (bytes_eqb (it_text i) _)|]; done.
    - unfold spec_remove at 2. rewrite List.filter_app. f_equal. symmetry. apply spec_remove_ram. intros H. apply Hid. set_solver. }
  rewrite E. cbn [rev] in Hc. rewrite <- app_assoc in *. cbn [app] in *.
  destruct (spec_prune_keeps (ram_items text (id :: done))) with (fuel := length (ram_items text (id :: done) ++ spec_remove id rest)) (q := spec_remove id rest)
    as (q' & _ & ->).
  - unfold zlen, ram_items in *. rewrite length_map. cbn [length] in *. rewrite length_app in Hz. lia.
  - etrans; [apply ram_bytes|]. etrans; [|exact Hc]. apply cost_mono.
  - apply (IH (id :: done) q'); [|done| |done].
    + rewrite <- Permutation_middle. by constructor.
    + unfold zlen in *. cbn [length] in Hz. rewrite length_app in *. cbn [length]. lia.
Qed.

Lemma find_ram text id ids rest : id ∈ ids -> spec_find id (ram_items text ids ++ rest) = Some (id, text, TOOL_MEMORY_RAM).
Proof.
  induction ids as [|k ids IH]; intros H; [by apply elem_of_nil in H|]. unfold spec_find in *. cbn.
  destruct (bytes_eqb k id) eqn:E; [by apply bytes_eqb_eq in E as ->|]. apply IH. apply elem_of_cons in H as [->|]; [|done].
  by rewrite bytes_eqb_refl in E.
Qed.
End Prune.

(** ** Properties *)

(** What the server does with the memory. *)
Inductive op := Put (id text : bytes) (source : tool_memory_source) | Lookup (id : bytes).

(** The answers are those of the lookups: a text and its source. *)
Definition do_op (m : tool_memory) (o : op) : option (tool_memory * option (bytes * tool_memory_source)) :=
  match o with
  | Put id text source =>
      match tool_memory_put_locked m id text source with Some m => Some (m, None) | None => None end
  | Lookup id =>
      match tool_memory_lookup_locked m id with
      | Some (m, Some (text, source, _)) => Some (m, Some (text, source))
      | Some (m, None) => Some (m, None)
      | None => None
      end
  end.

Fixpoint run (m : tool_memory) (ops : list op) : option (tool_memory * list (option (bytes * tool_memory_source))) :=
  match ops with
  | [] => Some (m, [])
  | o :: ops' =>
      match do_op m o with
      | Some (m, r) => match run m ops' with Some (m, rs) => Some (m, r :: rs) | None => None end
      | None => None
      end
  end.

Section Spec.
Context (max_entries max_bytes : Z).

Definition spec_op (l : list item) (o : op) : list item * option (bytes * tool_memory_source) :=
  match o with
  | Put id text source => (spec_put max_entries max_bytes id text source l, None)
  | Lookup id => (spec_touch id l, (fun i => (it_text i, it_source i)) <$> spec_find id l)
  end.

Fixpoint spec_run (l : list item) (ops : list op) : list item * list (option (bytes * tool_memory_source)) :=
  match ops with
  | [] => (l, [])
  | o :: ops' => let '(l, r) := spec_op l o in let '(l, rs) := spec_run l ops' in (l, r :: rs)
  end.
End Spec.

Lemma limits_eq m m' : limits_kept m m' -> tool_memory_max_entries m' = tool_memory_max_entries m /\ tool_memory_max_bytes m' = tool_memory_max_bytes m.
Proof. intros [H1 H2]. unfold tool_memory_max_entries, tool_memory_max_bytes. by rewrite H1, H2. Qed.

Definition within_limits (m : tool_memory) : Prop :=
  tm_entries m <= tool_memory_max_entries m /\ tm_bytes m <= tool_memory_max_bytes m.

Lemma max_pos m : 0 < tool_memory_max_entries m /\ 0 < tool_memory_max_bytes m.
Proof.
  unfold tool_memory_max_entries, tool_memory_max_bytes, DS4_TOOL_MEMORY_DEFAULT_MAX_IDS, DS4_TOOL_MEMORY_MAX_BYTES.
  destruct (Z.ltb_spec 0 (tm_max_entries m)), (Z.ltb_spec 0 (tm_max_bytes m)); lia.
Qed.

Lemma do_op_ok m l o : wf m l -> exists m' l' r, do_op m o = Some (m', r) /\ wf m' l' /\ limits_kept m m' /\
  (items m' l', r) = spec_op (tool_memory_max_entries m) (tool_memory_max_bytes m) (items m l) o /\
  (within_limits m -> within_limits m').
Proof.
  intros Hw. destruct o as [id text source|id]; cbn [do_op spec_op].
  - destruct (put_ok m l id text source Hw) as (m' & l' & -> & Hw' & Hit & Hk).
    exists m', l', None. rewrite Hit. split_and!; try done; [apply Hk..|]. intros Hlim.
    destruct (limits_eq _ _ Hk) as [E1 E2]. unfold within_limits. rewrite E1, E2, (ct_entries _ _ _ (wf_content _ _ Hw')), (wf_bytes _ _ Hw').
    unfold zlen. rewrite <- (items_full m' l' Hw'). fold (zlen (items m' l')). rewrite Hit. destruct (max_pos m) as [Hp1 Hp2].
    unfold within_limits in Hlim. rewrite (ct_entries _ _ _ (wf_content _ _ Hw)), (wf_bytes _ _ Hw) in Hlim.
    unfold zlen in Hlim. rewrite <- (items_full m l Hw) in Hlim. fold (zlen (items m l)) in Hlim.
    unfold spec_put. destruct id, text; try exact Hlim. apply spec_prune_limits; [lia | lia | done].
  - destruct (lookup_ok m l id Hw) as (m' & l' & r & -> & Hw' & Hit & Hk & _ & [Hn Hb] & Hr).
    exists m', l', (match r with Some (text, source, _) => Some (text, source) | None => None end).
    split; [by destruct r as [[[text source] b]|]|]. split_and!; [done | apply Hk.. | |].
    + rewrite Hit. f_equal. destruct r as [[[text source] b]|]; [destruct Hr as [-> _]|rewrite Hr]; done.
    + unfold within_limits. destruct (limits_eq _ _ Hk) as [-> ->]. by rewrite Hn, Hb.
Qed.

Lemma run_ok ops : forall m l, wf m l -> within_limits m -> exists m' l' rs, run m ops = Some (m', rs) /\ wf m' l' /\ limits_kept m m' /\
  (items m' l', rs) = spec_run (tool_memory_max_entries m) (tool_memory_max_bytes m) (items m l) ops /\ within_limits m'.
Proof.
  induction ops as [|o ops IH]; intros m l Hw Hlim; cbn [run spec_run]; [by exists m, l, []|].
  destruct (do_op_ok m l o Hw) as (m1 & l1 & r & -> & Hw1 & Hk1 & Hs1 & Hl1).
  destruct (IH m1 l1 Hw1 (Hl1 Hlim)) as (m2 & l2 & rs & -> & Hw2 & Hk2 & Hs2 & Hl2).
  exists m2, l2, (r :: rs). rewrite <- Hs1. cbv beta iota zeta. destruct (limits_eq _ _ Hk1) as [E1 E2]. rewrite E1, E2 in Hs2. rewrite <- Hs2.
  split_and!; [done | done | split; destruct Hk1, Hk2; congruence | done | done].
Qed.

Lemma init_limits a b : within_limits (tool_memory_init a b).
Proof. destruct (max_pos (tool_memory_init a b)). split; cbn; lia. Qed.

(** C9: Any sequence of puts and lookups on a fresh memory runs without touching
    freed or missing objects, and the pointer structure implements the list of
    items, most recent first: same answers, same items in recency order. *)
Theorem tool_memory_refines max_entries max_bytes ops : let m0 := tool_memory_init max_entries max_bytes in
  exists m l rs, run m0 ops = Some (m, rs) /\ wf m l /\
    (items m l, rs) = spec_run (tool_memory_max_entries m0) (tool_memory_max_bytes m0) [] ops.
Proof.
  intros m0. destruct (init_ok max_entries max_bytes) as [Hw _].
  destruct (run_ok ops m0 [] Hw (init_limits _ _)) as (m & l & rs & H1 & H2 & _ & H3 & _). exists m, l, rs. by split_and!.
Qed.

(** After any operations the heap is well formed: the recency list goes
    through every entry exactly once in both directions, the maps bind exactly
    the live ids and texts, every block counts its users and has one, no object
    is leaked, the byte count is the sum of the sizes of the live objects, and
    both limits hold. *)
Theorem tool_memory_well_formed max_entries max_bytes ops m rs : run (tool_memory_init max_entries max_bytes) ops = Some (m, rs) ->
  exists l, seg (tm_e m) None l None /\ NoDup l /\ tm_head m = head_or l None /\ tm_tail m = last_or None l /\
    (forall a, a ∈ l <-> is_Some (tm_e m !! a)) /\ tm_entries m = zlen l /\
    (forall id a, tm_by_id m !! id = Some a <-> exists e, tm_e m !! a = Some e /\ e_id e = id) /\
    (forall d b, tm_by_block m !! d = Some b <-> exists bl, tm_b m !! b = Some bl /\ b_dsml bl = d) /\
    (forall b bl, tm_b m !! b = Some bl -> exists us, users (tm_e m) b bl us /\ us <> []) /\
    tm_bytes m = msum e_bytes (tm_e m) + msum b_bytes (tm_b m) /\ within_limits m.
Proof.
  intros H. destruct (init_ok max_entries max_bytes) as [Hw _].
  destruct (run_ok ops _ [] Hw (init_limits _ _)) as (m' & l & rs' & H1 & [[Hs Hn Hh Ht] Hc] & _ & _ & Hlim).
  rewrite H in H1. injection H1 as <- <-. exists l. split_and!; try done; try apply Hc; try apply Hlim.
  intros b bl Hbl. destruct (ct_users _ _ _ Hc b bl Hbl) as (us & Hus & [Hne|]); [by exists us | done].
Qed.

Lemma remember_ok ids raw : forall m l, wf m l -> exists m' l', remember_loop m ids raw = Some m' /\ wf m' l' /\ limits_kept m m' /\
  items m' l' = foldl (fun L id => spec_put (tool_memory_max_entries m) (tool_memory_max_bytes m) id raw TOOL_MEMORY_RAM L) (items m l) ids.
Proof.
  induction ids as [|id ids IH]; intros m l Hw; cbn [remember_loop foldl]; [by exists m, l|].
  destruct (put_ok m l id raw TOOL_MEMORY_RAM Hw) as (m1 & l1 & -> & Hw1 & Hit1 & Hk1). cbn [mbind option_bind].
  destruct (IH m1 l1 Hw1) as (m2 & l2 & -> & Hw2 & Hk2 & Hit2). destruct (limits_eq _ _ Hk1) as [E1 E2]. rewrite E1, E2, Hit1 in Hit2.
  exists m2, l2. split_and!; [done | done | split; destruct Hk1, Hk2; congruence | done].
Qed.

(** Exact replay: after the calls of a turn were remembered with their
    sampled text, a message that comes back with these ids is rendered as
    exactly that text, if the calls fit the memory's limits. *)
Theorem tool_replay_roundtrip max_entries max_bytes ops m rs ids raw stats :
  run (tool_memory_init max_entries max_bytes) ops = Some (m, rs) ->
  ids <> [] -> NoDup ids -> [] ∉ ids -> raw <> [] ->
  zlen ids <= tool_memory_max_entries m -> calls_cost raw (rev ids) <= tool_memory_max_bytes m ->
  exists m1 m2 stats', tool_memory_remember false m ids (Some raw) = Some m1 /\
    tool_memory_attach_to_messages false m1 [Calls ids None] stats = Some (m2, [Calls ids (Some raw)], stats').
Proof.
  intros Hrun Hne Hn He Hraw Hz Hc. destruct (init_ok max_entries max_bytes) as [Hw _].
  destruct (run_ok ops _ [] Hw (init_limits _ _)) as (m' & l & rs' & H1 & Hwm & _).
  rewrite Hrun in H1. injection H1 as <- <-. destruct (remember_ok ids raw m l Hwm) as (m1 & l1 & E1 & Hw1 & _ & Hit1).
  destruct (remember_fits (tool_memory_max_entries m) (tool_memory_max_bytes m) raw ids Hraw [] (items m l)) as [rest Hrest];
    [by rewrite app_nil_r | done | by rewrite app_nil_r | by rewrite app_nil_r |].
  cbn [ram_items map app] in Hrest. rewrite Hrest, app_nil_r in Hit1.
  destruct (attach_loop_ok [Calls ids None] m1 l1 stats Hw1) as (m2 & l2 & st2 & E2 & _).
  exists m1, m2, st2. split; [by destruct raw|]. unfold tool_memory_attach_to_messages. rewrite E2. cbn [map tc_ids tc_raw]. do 5 f_equal.
  assert (Hf : forall id, id ∈ ids -> spec_find id (items m1 l1) = Some (id, raw, TOOL_MEMORY_RAM)).
  { intros id Hid. rewrite Hit1. apply find_ram. by apply list_elem_of_In, in_rev; rewrite rev_involutive; apply list_elem_of_In. }
  unfold spec_attach. destruct ids as [|id ids]; [done|]. rewrite (Hf id) by apply list_elem_of_here. change (it_text (id, raw, TOOL_MEMORY_RAM)) with raw.
  fold (all_bound (id :: ids) raw (items m1 l1)).
  assert (all_bound (id :: ids) raw (items m1 l1) = true) as ->; [|done].
  unfold all_bound. apply forallb_forall. intros id' Hid'. rewrite (Hf id') by (by apply list_elem_of_In). apply bytes_eqb_refl.
Qed.

(** A message gets a text exactly when all its ids are bound to that one
    text, and never gets another; attaching changes no binding. *)
Theorem tool_replay_exact max_entries max_bytes ops m rs msgs stats : run (tool_memory_init max_entries max_bytes) ops = Some (m, rs) ->
  exists L m' stats' l', snd (spec_run (tool_memory_max_entries m) (tool_memory_max_bytes m) [] ops) = rs /\
    fst (spec_run (tool_memory_max_entries m) (tool_memory_max_bytes m) [] ops) = L /\
    tool_memory_attach_to_messages false m msgs stats = Some (m', map (fun c => Calls (tc_ids c)
      (match tc_raw c with Some t => Some t | None => spec_attach (tc_ids c) L end)) msgs, stats') /\
    wf m' l' /\ forall id, spec_find id (items m' l') = spec_find id L.
Proof.
  intros Hrun. destruct (init_ok max_entries max_bytes) as [Hw Hi].
  destruct (run_ok ops _ [] Hw (init_limits _ _)) as (m' & l & rs' & H1 & Hwm & Hk & Hs & _).
  rewrite Hrun in H1. injection H1 as <- <-. rewrite Hi in Hs. destruct (limits_eq _ _ Hk) as [E1 E2]. rewrite <- E1, <- E2 in Hs.
  destruct (attach_loop_ok msgs m l stats Hwm) as (m2 & l2 & st2 & E & Hw2 & Hf). exists (items m l), m2, st2, l2. by rewrite <- Hs.
Qed.

(** ** Concrete runs *)

Definition sample_ops : list op :=
  [Put (bs "a") (bs "<x/>") TOOL_MEMORY_RAM; Put (bs "b") (bs "<x/>") TOOL_MEMORY_DISK; Put (bs "c") (bs "<y/>") TOOL_MEMORY_RAM;
   Lookup (bs "a"); Put (bs "d") (bs "<z/>") TOOL_MEMORY_RAM; Lookup (bs "b")].

(** The limit of three drops [b], the least recently used. *)
Example sample_answers : snd <$> run (tool_memory_init 3 0) sample_ops =
  Some [None; None; None; Some (bs "<x/>", TOOL_MEMORY_RAM); None; None].
Proof. vm_compute. reflexivity. Qed.

(** The state after them, when it is asked a question with a boolean answer. *)
Definition sample_test (f : tool_memory -> bool) : bool :=
  match run (tool_memory_init 3 0) sample_ops with Some (m, _) => f m | None => false end.

Lemma sample_state f : sample_test f = true -> exists m rs, run (tool_memory_init 3 0) sample_ops = Some (m, rs) /\ f m = true.
Proof. unfold sample_test. destruct (run _ _) as [[m rs]|]; [|done]. intros H. by exists m, rs. Qed.

Lemma tool_memory_well_formed_witness : exists m (l : list nat), tm_entries m = 3 /\ tm_entries m = zlen l /\ NoDup l /\ within_limits m.
Proof.
  destruct (sample_state (fun m => tm_entries m =? 3)) as (m & rs & Hrun & Hm); [vm_compute; reflexivity|].
  destruct (tool_memory_well_formed 3 0 sample_ops m rs Hrun) as (l & _ & Hn & _ & _ & _ & He & _ & _ & _ & _ & Hl).
  exists m, l. apply Z.eqb_eq in Hm. exact (conj Hm (conj He (conj Hn Hl))).
Defined.

Lemma tool_replay_roundtrip_witness : exists m m1 m2 stats',
  tool_memory_remember false m [bs "p"; bs "q"] (Some (bs "<calls/>")) = Some m1 /\
  tool_memory_attach_to_messages false m1 [Calls [bs "p"; bs "q"] None] (Stats 0 0 0 0) =
    Some (m2, [Calls [bs "p"; bs "q"] (Some (bs "<calls/>"))], stats').
Proof.
  destruct (sample_state (fun m => (2 <=? tool_memory_max_entries m) && (calls_cost (bs "<calls/>") (rev [bs "p"; bs "q"]) <=? tool_memory_max_bytes m)))
    as (m & rs & Hrun & Hm); [vm_compute; reflexivity|]. apply andb_prop in Hm as [H1 H2].
  exists m. apply (tool_replay_roundtrip 3 0 sample_ops m rs [bs "p"; bs "q"] (bs "<calls/>") (Stats 0 0 0 0) Hrun);
    [done | | | done | by apply Z.leb_le | by apply Z.leb_le].
  - apply (bool_decide_unpack _). vm_compute. exact I.
  - apply (bool_decide_unpack _). vm_compute. exact I.
Defined.

Lemma tool_replay_exact_witness : exists m m' stats', tm_entries m = 3 /\
  tool_memory_attach_to_messages false m [Calls [bs "a"] None; Calls [bs "a"; bs "c"] None] (Stats 0 0 0 0) =
    Some (m', [Calls [bs "a"] (Some (bs "<x/>")); Calls [bs "a"; bs "c"] None], stats').
Proof.
  destruct (sample_state (fun m => (tm_entries m =? 3) && (tool_memory_max_entries m =? 3) && (tool_memory_max_bytes m =? DS4_TOOL_MEMORY_MAX_BYTES)))
    as (m & rs & Hrun & Hm); [vm_compute; reflexivity|]. apply andb_prop in Hm as [[H1 H2]%andb_prop H3].
  apply Z.eqb_eq in H1, H2, H3.
  destruct (tool_replay_exact 3 0 sample_ops m rs [Calls [bs "a"] None; Calls [bs "a"; bs "c"] None] (Stats 0 0 0 0) Hrun)
    as (L & m' & st & l & _ & HL & E & _).
  exists m, m', st. split; [exact H1|]. rewrite E, <- HL, H2, H3. vm_compute. reflexivity.
Defined.
