(* ===== verification/ToolCalls.v ===== *)
(** * Tool calls in the assistant's text (src/ds4_server.c)

    How the server writes the calls of a message into a prompt, in the DSML and in
    the GLM syntax, and how it reads them from what the model has generated.
    Texts are C strings: lists of bytes, a [NULL] is the empty list, a pointer
    into a text is the rest of the text from there. *)

From S2P Require Import Prelude Libc ToolText Json.
#[local] Open Scope Z_scope.
#[local] Open Scope stdpp_scope.
#[local] Open Scope json_scope.

(** ** Definitions *)

(** Bytes as the C string a caller sees. *)
Fixpoint c_string (s : bytes) : bytes :=
  match s with [] => [] | c :: s' => if c =? 0 then [] else c :: c_string s' end.

Definition quoted (a b : bytes) : bytes := a ++ [34] ++ b.

Definition DS4_TOOL_CALLS_START : bytes := bs "<｜DSML｜tool_calls>".
Definition DS4_TOOL_CALLS_END : bytes := bs "</｜DSML｜tool_calls>".
Definition DS4_INVOKE_START : bytes := bs "<｜DSML｜invoke".
Definition DS4_INVOKE_END : bytes := bs "</｜DSML｜invoke>".
Definition DS4_PARAM_START : bytes := bs "<｜DSML｜parameter".
Definition DS4_TOOL_CALLS_START_SHORT : bytes := bs "<DSML｜tool_calls>".
Definition DS4_TOOL_CALLS_END_SHORT : bytes := bs "</DSML｜tool_calls>".
Definition DS4_INVOKE_START_SHORT : bytes := bs "<DSML｜invoke".
Definition DS4_INVOKE_END_SHORT : bytes := bs "</DSML｜invoke>".
Definition DS4_PARAM_START_SHORT : bytes := bs "<DSML｜parameter".
Definition DS4_PARAM_END_SHORT : bytes := bs "</DSML｜parameter>".
Definition GLM_CALL_START : bytes := bs "<tool_call>".
Definition GLM_CALL_END : bytes := bs "</tool_call>".
Definition GLM_KEY_START : bytes := bs "<arg_key>".
Definition GLM_KEY_END : bytes := bs "</arg_key>".
Definition GLM_VALUE_START : bytes := bs "<arg_value>".
Definition GLM_VALUE_END : bytes := bs "</arg_value>".

Record tool_call := ToolCall { tc_name : bytes; tc_arguments : bytes }.
Record tool_calls := ToolCalls { tcs_v : list tool_call; tcs_raw : bytes }.

(** *** Arguments *)

Definition json_args : Type := list json_arg.

(** The loop over the members, to the brace or the end of the text. *)
Fixpoint args_loop (fuel : nat) (p : bytes) (args : json_args) : jres json_args :=
  match fuel with
  | O => JFuel
  | S fuel' =>
      if cget p 0 =? 0 then JFail
      else if cget p 0 =? 125 then JOk args p
      else
        read key, p <- json_string p;
        let p := json_ws p in
        if negb (cget p 0 =? 58) then JFail
        else
          let p := json_ws (drop 1 p) in
          read arg, p <-
            (if cget p 0 =? 34 then read value, p <- json_string p; JOk (JsonArg (c_string key) (c_string value) true) p
             else read raw, p <- json_raw_value p; JOk (JsonArg (c_string key) (json_minify_raw_value raw) false) p);
          let p := json_ws p in
          let p := if cget p 0 =? 44 then drop 1 p else p in
          args_loop fuel' (json_ws p) (args ++ [arg])
  end.

Definition json_args_parse (json : bytes) : option json_args :=
  let p := json_ws json in
  if negb (cget p 0 =? 123) then None
  else
    let p := json_ws (drop 1 p) in
    match args_loop (S (length p)) p [] with JOk args _ => Some args | _ => None end.

(** The members that are not used yet, and the first of them with a key. *)
Fixpoint json_args_find_unused (args : list (json_arg * bool)) (key : bytes) (i : nat) : option nat :=
  match args with
  | [] => None
  | (a, used) :: args' => if negb used && bytes_eqb (arg_key a) key then Some i else json_args_find_unused args' key (S i)
  end.

Fixpoint ordered_loop (order : list bytes) (args : list (json_arg * bool)) (out : json_args) : list (json_arg * bool) * json_args :=
  match order with
  | [] => (args, out)
  | prop :: order' =>
      match json_args_find_unused args prop 0 with
      | None => ordered_loop order' args out
      | Some idx =>
          match args !! idx with
          | None => (args, out)
          | Some (a, _) => ordered_loop order' (<[idx := (a, true)]> args) (out ++ [a])
          end
      end
  end.

(** The order in which a call's arguments are written: the properties of its
    schema, then what is left. *)
Definition ordered_args (order : option (list bytes)) (args : json_args) : json_args :=
  let '(args, out) := ordered_loop (default [] order) (map (fun a => (a, false)) args) [] in
  out ++ map fst (List.filter (fun a => negb (snd a)) args).

Record tool_schema_order := SchemaOrder { so_name : bytes; so_prop : list bytes }.
Definition tool_schema_orders_find (orders : list tool_schema_order) (name : bytes) : option tool_schema_order :=
  List.find (fun o => bytes_eqb (so_name o) name) orders.

(** *** Writing *)

Definition append_glm_arg (b : bytes) (arg : json_arg) : bytes :=
  let b := append_glm_arg_key_text (b ++ GLM_KEY_START) (Some (arg_key arg)) in
  let b := append_glm_arg_value_text (b ++ GLM_KEY_END ++ GLM_VALUE_START) (Some (arg_value arg)) in
  b ++ GLM_VALUE_END.

Definition append_dsml_arguments_from_json (b json : bytes) (order : option (list bytes)) : option bytes :=
  match json_args_parse json with
  | None => None
  | Some args => Some (fold_left append_dsml_arg (ordered_args order args) b)
  end.

Definition append_glm_arguments_from_json (b json : bytes) (order : option (list bytes)) : option bytes :=
  match json_args_parse json with
  | None => None
  | Some args => Some (fold_left append_glm_arg (ordered_args order args) b)
  end.

Definition append_json_arg_pair (b : bytes) (arg : json_arg) : bytes :=
  b ++ json_escape (arg_key arg) ++ bs ":" ++ (if arg_is_string arg then json_escape (arg_value arg) else arg_value arg).

Definition append_json_object_or_empty (b json : bytes) : bytes :=
  match json_args_parse json with
  | None => b ++ bs "{}"
  | Some args => snd (fold_left (fun '(wrote, b) a => (true, append_json_arg_pair (if wrote : bool then b ++ [44] else b) a)) args (false, b ++ [123])) ++ [125]
  end.

Definition append_dsml_call (b : bytes) (tc : tool_call) : bytes :=
  let b := append_dsml_attr_escaped (quoted (b ++ DS4_INVOKE_START ++ bs " name=") []) (Some (tc_name tc)) ++ [34] ++ bs ">" ++ [10] in
  let b :=
    match append_dsml_arguments_from_json b (tc_arguments tc) None with
    | Some b => b
    | None =>
        append_dsml_parameter_text (quoted (quoted (quoted (quoted (b ++ DS4_PARAM_START ++ bs " name=") (bs "arguments")) (bs " string=")) (bs "true")) (bs ">")) (Some (tc_arguments tc))
          ++ DSML_PARAM_END ++ [10]
    end in
  b ++ DS4_INVOKE_END ++ [10].

Definition append_dsml_tool_calls_text (b : bytes) (calls : tool_calls) : bytes :=
  if (length (tcs_v calls) =? 0)%nat then b
  else if (0 <? zlen (tcs_raw calls)) then b ++ tcs_raw calls
  else fold_left append_dsml_call (tcs_v calls) (b ++ [10; 10] ++ DS4_TOOL_CALLS_START ++ [10]) ++ DS4_TOOL_CALLS_END.

Definition append_glm_call (orders : list tool_schema_order) (b : bytes) (tc : tool_call) : bytes :=
  let order := tool_schema_orders_find orders (tc_name tc) in
  let b := b ++ GLM_CALL_START ++ tc_name tc in
  let b :=
    match append_glm_arguments_from_json b (tc_arguments tc) (so_prop <$> order) with
    | Some b => b
    | None => append_glm_arg_value_text (b ++ GLM_KEY_START ++ bs "arguments" ++ GLM_KEY_END ++ GLM_VALUE_START) (Some (tc_arguments tc)) ++ GLM_VALUE_END
    end in
  b ++ GLM_CALL_END.

Definition append_glm_tool_calls_text (b : bytes) (calls : tool_calls) (orders : list tool_schema_order) : bytes :=
  if (length (tcs_v calls) =? 0)%nat then b
  else if (0 <? zlen (tcs_raw calls)) then b ++ tcs_raw calls
  else fold_left (append_glm_call orders) (tcs_v calls) (b ++ [10]) ++ [10].

(** *** Searching *)

Definition skip_ascii_ws (p : bytes) : bytes := skip_space p.

(** The least of several places. *)
Definition nearest (a b : option nat) : option nat :=
  match a, b with Some i, Some j => Some (if (j <? i)%nat then j else i) | Some i, None => Some i | None, b => b end.

Definition find_any_tool_start (s : bytes) : option nat :=
  fold_left nearest [strstr DS4_TOOL_CALLS_START s; strstr DS4_TOOL_CALLS_START_SHORT s; strstr (bs "<tool_calls>") s; strstr GLM_CALL_START s] None.
Definition find_any_tool_end (s : bytes) : option nat :=
  fold_left nearest [strstr DS4_TOOL_CALLS_END s; strstr DS4_TOOL_CALLS_END_SHORT s; strstr (bs "</tool_calls>") s; strstr GLM_CALL_END s] None.

Fixpoint trim_tool_separator_ws (raw : bytes) (start limit : nat) : nat :=
  match limit with
  | O => O
  | S limit' => if (start <? limit)%nat && isspace (cget raw limit') then trim_tool_separator_ws raw start limit' else limit
  end.

Definition wrappers : list (bytes * bytes) :=
  [(DS4_PARAM_START, DSML_PARAM_END); (DS4_PARAM_START_SHORT, DS4_PARAM_END_SHORT); (bs "<parameter", bs "</parameter>");
   (GLM_KEY_START, GLM_KEY_END); (GLM_VALUE_START, GLM_VALUE_END)].

(** [off]: how far [s] is from where the search began. *)
Fixpoint structural_loop (fuel : nat) (s needle : bytes) (last : bool) (off : nat) (found : option nat) : option nat :=
  match fuel, s with
  | O, _ | _, [] => found
  | S fuel', _ :: s' =>
      let here := starts_with needle s in
      if here && negb last then Some off
      else
        let found := if here then Some off else found in
        match List.find (fun w => starts_with (fst w) s) wrappers with
        | None => structural_loop fuel' s' needle last (S off) found
        | Some w =>
            match strstr [62] s with
            | None => found
            | Some tag_end =>
                match strstr (snd w) (drop (S tag_end) s) with
                | None => found
                | Some end_ =>
                    let next := (S tag_end + end_ + length (snd w))%nat in
                    structural_loop fuel' (drop next s) needle last (off + next) found
                end
            end
        end
  end.

Definition find_tool_structural_text (s needle : bytes) (last : bool) : option nat := structural_loop (length s) s needle last 0 None.

(** *** The parts of a message *)

(** Content, and reasoning when there is any. *)
Definition parts : Type := bytes * option bytes.

Definition split_reasoning_content (text : bytes) (n : nat) : parts :=
  let s := take n text in
  let body := if starts_with (bs "<think>") s then drop 7 s else s in
  match strstr (bs "</think>") body with
  | Some i => (drop (i + 8) body, Some (take i body))
  | None => (s, None)
  end.

Definition ds4_local_unterminated_reasoning (text : bytes) : parts :=
  ([], Some (if starts_with (bs "<think>") text then drop 7 text else text)).

Definition ds4_unterminated_reasoning_before_tool (text : bytes) (prefix_len : nat) : parts :=
  let prefix_len := Nat.min prefix_len (length text) in
  if (7 <=? prefix_len)%nat && starts_with (bs "<think>") text then ([], Some (take (prefix_len - 7) (drop 7 text)))
  else ([], Some (take prefix_len text)).

Definition tool_call_json_args_add (args name value : bytes) (is_string : bytes) : bytes :=
  let args := if (0 <? zlen args) then args ++ bs ", " else args in
  let args := args ++ json_escape name ++ bs ": " in
  if bytes_eqb is_string (bs "true") then args ++ json_escape value
  else
    let min := json_minify_raw_value value in
    args ++ (if 0 <? zlen min then min else bs "null").

(** *** Reading DSML *)

Record dsml_style := DsmlStyle { ds_calls_start : bytes; ds_calls_end : bytes; ds_invoke_start : bytes; ds_invoke_end : bytes; ds_param_start : bytes; ds_param_end : bytes }.

Definition style_dsml : dsml_style := DsmlStyle DS4_TOOL_CALLS_START DS4_TOOL_CALLS_END DS4_INVOKE_START DS4_INVOKE_END DS4_PARAM_START DSML_PARAM_END.
Definition style_xml : dsml_style := DsmlStyle (bs "<tool_calls>") (bs "</tool_calls>") (bs "<invoke") (bs "</invoke>") (bs "<parameter") (bs "</parameter>").
Definition style_short : dsml_style :=
  DsmlStyle DS4_TOOL_CALLS_START_SHORT DS4_TOOL_CALLS_END_SHORT DS4_INVOKE_START_SHORT DS4_INVOKE_END_SHORT DS4_PARAM_START_SHORT DS4_PARAM_END_SHORT.

(** A tag that opens: its text to [>] and what follows. *)
Definition open_tag (start p : bytes) : option (bytes * bytes) :=
  if starts_with start p then
    match strstr [62] p with
    | Some i => Some (take (S i) p, drop (S i) p)
    | None => None
    end
  else None.

(** A value to its closing tag, and what follows. *)
Definition value_to (end_ p : bytes) : option (bytes * bytes) :=
  match strstr end_ p with Some i => Some (take i p, drop (i + length end_) p) | None => None end.

Definition dsml_value (st : dsml_style) (type raw : bytes) : bytes := if bytes_eqb type (bs "true") then ds4_tool_text_unescape raw (ds_param_end st) else raw.

Definition dsml_parse_leaf_param_json (st : dsml_style) (p out : bytes) : option (bytes * bytes) :=
  '(tag, value_start) ← open_tag (ds_param_start st) p;
  name ← dsml_attr tag (bs "name");
  '(raw, rest) ← value_to (ds_param_end st) value_start;
  let type := default (bs "true") (dsml_attr tag (bs "string")) in
  Some (tool_call_json_args_add out name (dsml_value st type raw) type, rest).

(** The members of an object of parameters; [any]: there was one. *)
Fixpoint nested_loop (fuel : nat) (st : dsml_style) (p members : bytes) (any : bool) : option (bytes * bytes) :=
  match fuel with
  | O => None
  | S fuel' =>
      let p := skip_ascii_ws p in
      if starts_with (ds_param_start st) p then
        '(members, p) ← dsml_parse_leaf_param_json st p members;
        nested_loop fuel' st p members true
      else if any then Some (123 :: members ++ [125], p) else None
  end.

Definition dsml_parse_nested_params_object (st : dsml_style) (p : bytes) : option (bytes * bytes) := nested_loop (S (length p)) st p [] false.

(** The parameters of an invocation, to its closing tag. *)
Fixpoint params_loop (fuel : nat) (st : dsml_style) (p args : bytes) : option (bytes * bytes) :=
  match fuel with
  | O => None
  | S fuel' =>
      let p := skip_ascii_ws p in
      if starts_with (ds_invoke_end st) p then Some (args, drop (length (ds_invoke_end st)) p)
      else
        '(tag, value_start) ← open_tag (ds_param_start st) p;
        param_name ← dsml_attr tag (bs "name");
        let param_is_string := dsml_attr tag (bs "string") in
        if (match param_is_string with None => true | Some _ => false end) && starts_with (ds_param_start st) (skip_ascii_ws value_start) then
          '(nested, p) ← dsml_parse_nested_params_object st value_start;
          let p := skip_ascii_ws p in
          let p := if starts_with (ds_param_end st) p then drop (length (ds_param_end st)) p else p in
          params_loop fuel' st p (tool_call_json_args_add args param_name nested (bs "false"))
        else
          '(raw, p) ← value_to (ds_param_end st) value_start;
          let type := default (bs "true") param_is_string in
          params_loop fuel' st p (tool_call_json_args_add args param_name (dsml_value st type raw) type)
  end.

(** The invocations, to the end of the block: the calls and what follows it. *)
Fixpoint invokes_loop (fuel : nat) (st : dsml_style) (p : bytes) (calls : list tool_call) : option bytes * list tool_call :=
  match fuel with
  | O => (None, calls)
  | S fuel' =>
      let p := skip_ascii_ws p in
      if starts_with (ds_calls_end st) p then (Some (drop (length (ds_calls_end st)) p), calls)
      else
        match
          ('(tag, p) ← open_tag (ds_invoke_start st) p;
           name ← dsml_attr tag (bs "name");
           '(args, p) ← params_loop (S (length p)) st p [];
           Some (ToolCall name (123 :: args ++ [125]), p))
        with
        | None => (None, calls)
        | Some (tc, p) => invokes_loop fuel' st p (calls ++ [tc])
        end
  end.

(** Where the block starts and how it is spelled. *)
Definition dsml_block_start (s : bytes) : option (nat * dsml_style) :=
  let at_ pat st (k : option (nat * dsml_style)) := match strstr pat s with Some i => Some (i, st) | None => k end in
  at_ ([10; 10] ++ DS4_TOOL_CALLS_START) style_dsml (at_ DS4_TOOL_CALLS_START style_dsml
    (at_ ([10; 10] ++ DS4_TOOL_CALLS_START_SHORT) style_short (at_ DS4_TOOL_CALLS_START_SHORT style_short
      (at_ ([10; 10] ++ bs "<tool_calls>") style_xml (at_ (bs "<tool_calls>") style_xml None))))).

(** Where tools are searched from: behind the thinking; [inl]: nowhere.
    [starts]: where a call may begin, [ended]: the text from there has an end. *)
Definition tool_search (starts : bytes -> option nat) (ended : bytes -> bool) (text : bytes) (require_thinking_closed : bool) : parts + nat * bool :=
  if require_thinking_closed then
    match find_tool_structural_text text (bs "</think>") true with
    | Some i => inr ((i + 8)%nat, false)
    | None =>
        match starts text with
        | Some i => if ended (drop i text) then inr (i, true) else inl (ds4_local_unterminated_reasoning text)
        | None => inl (ds4_local_unterminated_reasoning text)
        end
    end
  else inr (0%nat, false).

Definition is_found (o : option nat) : bool := match o with Some _ => true | None => false end.

(** The content before a block that was read. *)
Definition parts_before (text : bytes) (recovered : bool) (content_len : nat) : parts :=
  if recovered then ds4_unterminated_reasoning_before_tool text content_len else split_reasoning_content text content_len.

Definition parse_deepseek_generated_message_ex (text : bytes) (require_thinking_closed : bool) (calls : tool_calls) : option parts * tool_calls :=
  match tool_search find_any_tool_start (fun s => is_found (find_any_tool_end s)) text require_thinking_closed with
  | inl p => (Some p, calls)
  | inr (from, recovered) =>
      match dsml_block_start (drop from text) with
      | None => (Some (split_reasoning_content text (length text)), calls)
      | Some (i, st) =>
          let start := (from + i)%nat in
          let content_len := trim_tool_separator_ws text 0 start in
          match strstr (ds_calls_start st) (drop start text) with
          | None => (None, calls)
          | Some j =>
              let p := drop (j + length (ds_calls_start st)) (drop start text) in
              match invokes_loop (S (length p)) st p (tcs_v calls) with
              | (None, v) => (None, ToolCalls v (tcs_raw calls))
              | (Some rest, v) => (Some (parts_before text recovered content_len), ToolCalls v (take (length text - start - length rest) (drop start text)))
              end
          end
      end
  end.

(** *** Reading GLM *)

(** [rev (skip_space (rev s))]: without the spaces at the end. *)
Definition trim_const_span (s : bytes) : bytes := rev (skip_space (rev (skip_space s))).

(** The arguments of a call that ends at the rest of length [close]. *)
Fixpoint glm_args_loop (fuel : nat) (close : nat) (p args : bytes) : option (bytes * bytes) :=
  match fuel with
  | O => None
  | S fuel' =>
      let p := skip_ascii_ws p in
      if starts_with GLM_CALL_END p then Some (args, drop (length GLM_CALL_END) p)
      else if negb (starts_with GLM_KEY_START p) then None
      else
        let p := drop (length GLM_KEY_START) p in
        key_end ← strstr GLM_KEY_END p;
        if (length p - key_end <? close)%nat then None
        else
          let key := ds4_tool_text_unescape (trim_const_span (take key_end p)) GLM_KEY_END in
          let p := skip_ascii_ws (drop (key_end + length GLM_KEY_END) p) in
          if negb (starts_with GLM_VALUE_START p) then None
          else
            let p := drop (length GLM_VALUE_START) p in
            value_end ← strstr GLM_VALUE_END p;
            if (length p - value_end <? close)%nat then None
            else
              let value := ds4_tool_text_unescape (take value_end p) GLM_VALUE_END in
              glm_args_loop fuel' close (drop (value_end + length GLM_VALUE_END) p) (tool_call_json_args_add args key value (bs "true"))
  end.

Definition glm_call (p : bytes) : option (tool_call * bytes) :=
  close ← find_tool_structural_text p GLM_CALL_END false;
  let arg := match strstr GLM_KEY_START p with Some a => if (close <? a)%nat then None else Some a | None => None end in
  let name_end := default close arg in
  let name := trim_const_span (take name_end p) in
  if (length name =? 0)%nat then None
  else
    '(args, rest) ← glm_args_loop (S (length p)) (length p - close) (drop name_end p) [];
    Some (ToolCall name (123 :: args ++ [125]), rest).

(** Calls one after another; at the first that is none the block has ended. *)
Fixpoint glm_calls_loop (fuel : nat) (p : bytes) (calls : list tool_call) : option bytes * list tool_call :=
  match fuel with
  | O => (None, calls)
  | S fuel' =>
      let p := skip_ascii_ws p in
      if negb (starts_with GLM_CALL_START p) then (Some p, calls)
      else
        match glm_call (drop (length GLM_CALL_START) p) with
        | None => (None, calls)
        | Some (tc, p) => glm_calls_loop fuel' p (calls ++ [tc])
        end
  end.

Definition parse_glm_generated_message_ex (text : bytes) (require_thinking_closed : bool) (calls : tool_calls) : option parts * tool_calls :=
  match tool_search (strstr GLM_CALL_START) (fun s => is_found (strstr GLM_CALL_END s)) text require_thinking_closed with
  | inl p => (Some p, calls)
  | inr (from, recovered) =>
      match strstr GLM_CALL_START (drop from text) with
      | None => (Some (split_reasoning_content text (length text)), calls)
      | Some i =>
          let start := (from + i)%nat in
          let block := if (2 <=? start)%nat && (cget text (start - 2) =? 10) && (cget text (start - 1) =? 10) then (start - 2)%nat else start in
          let content_len := trim_tool_separator_ws text 0 block in
          let p := drop start text in
          match glm_calls_loop (S (length p)) p (tcs_v calls) with
          | (None, v) => (None, ToolCalls v (tcs_raw calls))
          | (Some rest, v) =>
              if (length v =? 0)%nat then (None, ToolCalls v (tcs_raw calls))
              else (Some (parts_before text recovered content_len), ToolCalls v (take (length text - block - length rest) (drop block text)))
          end
      end
  end.

Inductive server_model_syntax := SERVER_MODEL_SYNTAX_DEEPSEEK | SERVER_MODEL_SYNTAX_GLM.

Definition parse_generated_message_ex_for_syntax (syntax : server_model_syntax) : bytes -> bool -> tool_calls -> option parts * tool_calls :=
  match syntax with SERVER_MODEL_SYNTAX_GLM => parse_glm_generated_message_ex | SERVER_MODEL_SYNTAX_DEEPSEEK => parse_deepseek_generated_message_ex end.

Definition append_tool_calls_text_for_syntax (b : bytes) (syntax : server_model_syntax) (calls : tool_calls) (orders : list tool_schema_order) : bytes :=
  match syntax with SERVER_MODEL_SYNTAX_GLM => append_glm_tool_calls_text b calls orders | SERVER_MODEL_SYNTAX_DEEPSEEK => append_dsml_tool_calls_text b calls end.

Definition tool_parse_failure_recovery_finish (finish : bytes) : bytes := if bytes_eqb finish (bs "length") then bs "length" else bs "stop".

(** What a response is made of: whether the text was read, its parts and calls,
    the finish reason, and the error that lets the model try again. *)
Record response := Response { rs_parsed : bool; rs_parts : parts; rs_calls : tool_calls; rs_finish : option bytes; rs_err : bytes; rs_recovered : bool }.

Definition parse_generated_message_for_response_for_syntax (syntax : server_model_syntax) (text : bytes) (has_tools saw_tool_start require_thinking_closed : bool)
    (finish_io : option bytes) : response :=
  match parse_generated_message_ex_for_syntax syntax text require_thinking_closed (ToolCalls [] []) with
  | (Some p, calls) => Response true p calls finish_io [] false
  | (None, _) =>
      let finish := default (bs "stop") finish_io in
      if has_tools && saw_tool_start && negb (bytes_eqb finish (bs "error")) then
        Response false (text, None) (ToolCalls [] []) (Some (tool_parse_failure_recovery_finish finish)) (bs "invalid tool call") true
      else Response false (text, None) (ToolCalls [] []) finish_io [] false
  end.

(** *** Repair *)

(** How often each of the tags occurs, in the order start, end of the block, of an
    invocation, of a parameter. *)
Fixpoint count_tags (fuel : nat) (tags : list bytes) (p : bytes) (counts : list Z) : list Z :=
  match fuel, p with
  | O, _ | _, [] => counts
  | S fuel', _ :: p' =>
      match list_find (fun t => starts_with t p = true) tags with
      | Some (i, t) => count_tags fuel' tags (drop (length t) p) (alter (Z.add 1) i counts)
      | None => count_tags fuel' tags p' counts
      end
  end.

Definition try_repair_dsml (s : bytes) : option bytes :=
  if (length s =? 0)%nat then None
  else
    let scan := match find_tool_structural_text s (bs "</think>") true with Some i => drop (i + 8) s | None => s end in
    let has pat := is_found (strstr pat scan) in
    let style :=
      if has DS4_TOOL_CALLS_START then Some style_dsml
      else if has DS4_TOOL_CALLS_START_SHORT then Some style_short
      else if has (bs "<tool_calls>") then Some style_xml else None in
    st ← style;
    let tags := [ds_calls_start st; ds_calls_end st; ds_invoke_start st; ds_invoke_end st; ds_param_start st; ds_param_end st] in
    match count_tags (length scan) tags scan [0; 0; 0; 0; 0; 0] with
    | [tos; toe; ios; ioe; pos; poe] =>
        if negb (ios =? ioe) || negb (pos =? poe) then None
        else if tos =? toe then None
        else if (tos <? toe) || (ios <? ioe) || (pos <? poe) then None
        else Some (s ++ concat (replicate (Z.to_nat (tos - toe)) (ds_calls_end st)))
    | _ => None
    end.

(** ** Searching in text that was written *)

Section Find.
Lemma strstr_at p l i : starts_with p (drop i l) = true -> (forall j, (j < i)%nat -> starts_with p (drop j l) = false) -> strstr p l = Some i.
Proof.
  revert i. induction l as [|c l IH]; intros i Hi Hb; cbn [strstr].
  - rewrite drop_nil in Hi. destruct i as [|i]; [by rewrite Hi|]. specialize (Hb 0%nat ltac:(lia)). rewrite drop_nil in Hb. cbn in *. congruence.
  - destruct i as [|i]; [cbn [drop] in Hi; by rewrite Hi|]. pose proof (Hb 0%nat ltac:(lia)) as H0. cbn [drop] in H0, Hi. rewrite H0, (IH i Hi); [done|]. intros j Hj. apply (Hb (S j)). lia.
Qed.

Lemma starts_with_lookup p l i c : starts_with p l = true -> p !! i = Some c -> l !! i = Some c.
Proof. intros [r ->]%starts_with_iff Hc. by apply lookup_app_l_Some. Qed.

(** A match that begins in [a] ends there, or holds the byte behind [a]. *)
Lemma starts_with_over p a c r : starts_with p (a ++ c :: r) = true -> starts_with p a = true \/ exists i, (i = length a)%nat /\ p !! i = Some c.
Proof.
  revert p. induction a as [|x a IH]; intros p; destruct p as [|y p]; cbn; try by auto.
  - intros [Hy%Z.eqb_eq _]%andb_true_iff. right. exists 0%nat. split; [done|]. by subst.
  - intros [Hy H]%andb_true_iff. rewrite Hy. destruct (IH _ H) as [Ha|(i & -> & Hi)]; [left; exact Ha|right; by exists (S (length a))].
Qed.

(** The first place of a tag that begins with the only [<] of it. *)
Lemma strstr_tag tl a r : 60 ∉ tl -> strstr (60 :: tl) a = None -> strstr (60 :: tl) (a ++ 60 :: tl ++ r) = Some (length a).
Proof.
  intros Htl Ha. apply strstr_at; [rewrite drop_app_length; apply (starts_with_app (60 :: tl))|]. intros j Hj. rewrite drop_app_le by lia. apply not_true_iff_false. intros Hs.
  destruct (starts_with_over _ _ _ _ Hs) as [H|(i & -> & Hi)]; [by rewrite (strstr_None _ _ j) in H|]. rewrite length_drop in Hi. destruct (length a - j)%nat eqn:E; [lia|]. cbn in Hi. by apply list_elem_of_lookup_2 in Hi.
Qed.

Lemma strstr_char c a r : c ∉ a -> strstr [c] (a ++ c :: r) = Some (length a).
Proof.
  intros Ha. apply strstr_at; [rewrite drop_app_length; cbn; by rewrite Z.eqb_refl|]. intros j Hj. rewrite drop_app_le by lia. destruct (lookup_lt_is_Some_2 a j Hj) as [x Hx].
  rewrite (drop_S _ _ _ Hx). cbn. rewrite (proj2 (Z.eqb_neq c x)); [done|]. intros <-. by apply list_elem_of_lookup_2 in Hx.
Qed.

(** Text without the first byte of a tag holds no tag. *)
Lemma strstr_absent c tl a : c ∉ a -> strstr (c :: tl) a = None.
Proof.
  induction a as [|x a IH]; [done|]. intros [Hx Ha]%not_elem_of_cons. cbn. rewrite (proj2 (Z.eqb_neq c x)) by done. cbn. by rewrite IH.
Qed.

Lemma skip_space_stop s : isspace (cget s 0) = false -> skip_space s = s.
Proof. destruct s as [|c s]; [done|]. change (cget (c :: s) 0) with c. cbn. by intros ->. Qed.

(** [open_tag] of a tag with no other [>]. *)
Lemma open_tag_at start mid r : 62 ∉ start -> 62 ∉ mid -> open_tag start (start ++ mid ++ 62 :: r) = Some (start ++ mid ++ [62], r).
Proof.
  intros Hs Hm. assert (Hn : 62 ∉ start ++ mid) by (by rewrite elem_of_app; intros [|]). unfold open_tag. rewrite starts_with_app. rewrite (app_assoc start). rewrite (strstr_char 62 (start ++ mid) r Hn).
  assert (Hx : (start ++ mid) ++ 62 :: r = ((start ++ mid) ++ [62]) ++ r) by (rewrite <- (assoc_L (++) (start ++ mid)); reflexivity). rewrite Hx.
  assert (Hl : S (length (start ++ mid)) = length ((start ++ mid) ++ [62])) by (rewrite (length_app _ [62]); cbn; lia). rewrite Hl, take_app_length, drop_app_length. by rewrite <- (assoc_L (++)).
Qed.

Lemma value_to_at tl a r : 60 ∉ tl -> strstr (60 :: tl) a = None -> value_to (60 :: tl) (a ++ 60 :: tl ++ r) = Some (a, r).
Proof.
  intros Htl Ha. unfold value_to. rewrite strstr_tag by done. rewrite take_app_length. f_equal. f_equal. rewrite <- drop_drop, drop_app_length. apply (drop_app_length (60 :: tl)).
Qed.
End Find.

(** ** Literals without the closing tag *)

Section Literal.
Definition param_tail : bytes := bs "/｜DSML｜parameter>".
Lemma param_end_eq : DSML_PARAM_END = 60 :: param_tail.
Proof. reflexivity. Qed.
Lemma param_tail_plain : ToolText.plain param_tail.
Proof. by apply (bool_decide_unpack _). Qed.
Lemma param_tail_lt : 60 ∉ param_tail.
Proof. by apply (bool_decide_unpack _). Qed.

Abbreviation lit := json_literal_escape.

(** The written literal holds no closing tag: where one began, a backslash
    stands. *)
Lemma lit_no_end s : strstr DSML_PARAM_END (lit s) = None.
Proof.
  assert (Hpre : forall s p, 60 ∉ p -> 92 ∉ p -> starts_with p (lit s) = true -> starts_with p s = true).
  { clear. induction s as [|c s IH]; intros p H60 H92; [done|]. cbn [json_literal_escape]. destruct p as [|x p]; [done|]. apply not_elem_of_cons in H60 as [Hx H60], H92 as [Hx' H92].
    case_if; [change (bs "\u003c" ++ lit s) with (92 :: 117 :: 48 :: 48 :: 51 :: 99 :: lit s)|]; cbn [starts_with]; intros Hs; apply andb_true_iff in Hs as [Hs0%Z.eqb_eq Hs]; [lia|]. subst x. rewrite Z.eqb_refl. cbn. by apply IH. }
  induction s as [|c s IH]; [done|]. cbn [json_literal_escape]. destruct (starts_with DSML_PARAM_END (c :: s)) eqn:E.
  - change (bs "\u003c" ++ lit s) with (92 :: 117 :: 48 :: 48 :: 51 :: 99 :: lit s). do 6 (cbn [strstr starts_with]; rewrite param_end_eq at 1; cbn [starts_with Z.eqb Pos.eqb andb]). by rewrite IH.
  - cbn [strstr]. rewrite IH. destruct (starts_with DSML_PARAM_END (c :: lit s)) eqn:Es; [|done]. exfalso. rewrite param_end_eq in E, Es. cbn [starts_with] in E, Es. apply andb_true_iff in Es as [E1 E2]. rewrite E1 in E. cbn [andb] in E.
    apply Hpre in E2; [congruence|exact param_tail_lt|by apply (bool_decide_unpack _)].
Qed.

Lemma lit_id s : strstr DSML_PARAM_END s = None -> lit s = s.
Proof.
  induction s as [|c s IH]; [done|]. cbn [strstr json_literal_escape]. case_if; [done|]. destruct (strstr DSML_PARAM_END s) eqn:Es; [done|]. intros _. by rewrite IH.
Qed.

Lemma lit_lit s : lit (lit s) = lit s.
Proof. apply lit_id, lit_no_end. Qed.

Lemma lit_plain a r : 60 ∉ a -> lit (a ++ r) = a ++ lit r.
Proof.
  induction a as [|c a IH]; [done|]. intros [Hc Ha]%not_elem_of_cons. cbn [app json_literal_escape]. rewrite param_end_eq at 1. cbn [starts_with]. rewrite (proj2 (Z.eqb_neq 60 c)) by done. cbn [andb]. by rewrite IH.
Qed.

Lemma lit_cons c a : c <> 60 -> lit (c :: a) = c :: lit a.
Proof. intros Hc. apply (lit_plain [c]). set_solver. Qed.

(** A quote ends every occurrence of the tag that does not hold it. *)
Lemma starts_with_quote p b r : 34 ∉ p -> starts_with p (b ++ 34 :: r) = starts_with p b.
Proof.
  revert p. induction b as [|c b IH]; intros [|x p] Hp; try done; apply not_elem_of_cons in Hp as [Hx Hp]; cbn.
  - rewrite (proj2 (Z.eqb_neq x 34)) by done. done.
  - by rewrite IH.
Qed.

Lemma lit_body b r : lex_body b -> lit (b ++ 34 :: r) = lit b ++ 34 :: lit r /\ lex_body (lit b).
Proof.
  assert (Hq : 34 ∉ DSML_PARAM_END) by by apply (bool_decide_unpack _).
  assert (Hc : forall c b r, lit (b ++ 34 :: r) = lit b ++ 34 :: lit r -> lit ((c :: b) ++ 34 :: r) = lit (c :: b) ++ 34 :: lit r).
  { intros c b0 r0 IH. cbn [app json_literal_escape]. change (c :: b0 ++ 34 :: r0) with ((c :: b0) ++ 34 :: r0). rewrite starts_with_quote by done. case_if; rewrite IH; [by rewrite <- app_assoc|done]. }
  pose proof lit_cons as Hd.
  induction 1 as [|c b Hc1 Hc2 Hb IH|c v b Hv Hb IH|h1 h2 h3 h4 b H1 H2 H3 H4 Hb IH].
  - split; [|constructor]. cbn [app]. by rewrite (Hd 34).
  - destruct IH as [IH1 IH2]. split; [by apply Hc|]. cbn [json_literal_escape]. case_if; [|by constructor]. change (bs "\u003c" ++ lit b) with (92 :: 117 :: 48 :: 48 :: 51 :: 99 :: lit b). apply LB_unicode; try done.
  - destruct IH as [IH1 IH2]. split; [by apply (Hc 92 (c :: b)), Hc|]. rewrite Hd by done. rewrite Hd; [by econstructor|]. intros ->. discriminate Hv.
  - destruct IH as [IH1 IH2]. assert (Hh : forall h, is_hex h -> h <> 60) by (intros h Hh ->; by destruct Hh). split; [by do 6 apply Hc|]. rewrite !Hd by (done || by apply Hh). by apply LB_unicode.
Qed.

Lemma lit_str b : lex_body b -> (forall r, lit (str_token b ++ r) = str_token (lit b) ++ lit r) /\ lit (str_token b) = str_token (lit b) /\ lex_body (lit b).
Proof.
  intros Hb. assert (H : forall r, lit (str_token b ++ r) = str_token (lit b) ++ lit r).
  { intros r. unfold str_token. rewrite <- app_comm_cons, <- (assoc_L (++) b). cbn [app]. rewrite lit_cons by done. by rewrite (proj1 (lit_body b r Hb)), <- (assoc_L (++)). }
  split; [done|]. split; [|by apply (lit_body b [])]. specialize (H []). by rewrite !app_nil_r in H.
Qed.

(** A compact value stays one. *)
Definition lit_fine (P : bytes -> Prop) (c : bytes) : Prop := (forall r, lit (c ++ r) = lit c ++ lit r) /\ P (lit c).

Local Ltac lits := repeat first [progress cbn [app] | rewrite <- (assoc_L (++)) | match goal with K : forall r, lit (?c ++ r) = _ |- _ => rewrite K end | rewrite lit_cons by done]; done.

Lemma lit_value :
  (forall d t c, value d t c -> lit_fine (fun c => value d c c) c) /\ (forall d t c, elems d t c -> lit_fine (fun c => elems d c c) c) /\
  (forall d t c, members d t c -> lit_fine (fun c => members d c c) c).
Proof.
  assert (Hn : forall c, 60 ∉ c -> lit c = c /\ forall r, lit (c ++ r) = lit c ++ lit r).
  { intros c Hc. assert (H : lit c = c) by (by rewrite <- (app_nil_r c) at 1; rewrite lit_plain, app_nil_r). split; [done|]. intros r. by rewrite H, lit_plain. }
  pose proof lit_cons as Hcons.
  unfold lit_fine. apply json_mind.
  - intros d b Hb. destruct (lit_str b Hb) as (H1 & H2 & H3). rewrite H2. split; [exact H1|by constructor].
  - intros d w Hw. assert (H60 : 60 ∉ w) by (unfold literals in Hw; rewrite !elem_of_cons, elem_of_nil in Hw; destruct Hw as [-> | [-> | [-> | []]]]; by apply (bool_decide_unpack _)).
    destruct (Hn w H60) as [-> Hr]. split; [exact (fun r => lit_plain w r H60)|by constructor].
  - intros d t Ht. assert (H60 : 60 ∉ t). { apply number_plain in Ht. rewrite Forall_forall in Ht. intros Hin. by specialize (Ht _ Hin). }
    destruct (Hn t H60) as [-> Hr]. split; [exact (fun r => lit_plain t r H60)|by constructor].
  - intros d sp _. split; [done|]. by apply (V_arr0 d []).
  - intros d t c _ [H1 H2]. rewrite Hcons by done. split; [|by constructor]. intros r. cbn [app]. by rewrite Hcons, H1.
  - intros d sp _. split; [done|]. by apply (V_obj0 d []).
  - intros d t c _ [H1 H2]. rewrite Hcons by done. split; [|by constructor]. intros r. cbn [app]. by rewrite Hcons, H1.
  - intros d sp1 t c sp2 _ _ [H1 H2] _. split; [intros r; lits|]. rewrite H1. by apply (E_last d [] (lit c) (lit c) []).
  - intros d sp1 t c sp2 t' c' _ _ [H1 H2] _ _ [H3 H4]. split; [intros r; lits|]. rewrite H1, Hcons by done. by apply (E_more d [] (lit c) (lit c) [] (lit c') (lit c')).
  - intros d sp1 k sp2 sp3 t c sp4 _ Hk _ _ _ [H1 H2] _. destruct (lit_str k Hk) as (K1 & K2 & K3). split; [intros r; lits|]. rewrite K1, Hcons, H1 by done. by apply (M_last d [] (lit k) [] [] (lit c) (lit c) []).
  - intros d sp1 k sp2 sp3 t c sp4 t' c' _ Hk _ _ _ [H1 H2] _ _ [H3 H4]. destruct (lit_str k Hk) as (K1 & K2 & K3). split; [intros r; lits|]. rewrite K1, Hcons, H1, Hcons by done.
    by apply (M_more d [] (lit k) [] [] (lit c) (lit c) [] (lit c') (lit c')).
Qed.
End Literal.

(** ** Arguments *)

Section Arguments.
Abbreviation lit := json_literal_escape.

(** What [json_args_parse] gives: C strings, and compact values that are no
    strings. *)
Definition arg_ok (a : json_arg) : Prop :=
  bytes_ok (arg_key a) /\ (0 ∉ arg_key a) /\
  (if arg_is_string a then bytes_ok (arg_value a) /\ (0 ∉ arg_value a) else value JSON_MAX_NESTING (arg_value a) (arg_value a) /\ cget (arg_value a) 0 <> 34).

(** The argument as it is read back: a closing tag in a literal is written with
    an escape. *)
Definition lit_arg (a : json_arg) : json_arg := if arg_is_string a then a else JsonArg (arg_key a) (lit (arg_value a)) false.

Definition arg_member (a : json_arg) : bytes := json_escape (arg_key a) ++ bs ": " ++ (if arg_is_string a then json_escape (arg_value a) else arg_value a).

Fixpoint members_text (args : json_args) : bytes :=
  match args with [] => [] | [a] => arg_member a | a :: args' => arg_member a ++ bs ", " ++ members_text args' end.

(** The arguments of a call that was read. *)
Definition arguments_json (args : json_args) : bytes := 123 :: members_text args ++ [125].

Lemma c_string_id s : 0 ∉ s -> c_string s = s.
Proof. induction s as [|c s IH]; [done|]. intros [Hc Hs]%not_elem_of_cons. cbn [c_string]. rewrite (proj2 (Z.eqb_neq c 0)) by done. by rewrite IH. Qed.

Lemma c_string_ok s : bytes_ok s -> bytes_ok (c_string s) /\ 0 ∉ c_string s.
Proof.
  induction 1 as [|c s Hc Hs [IH1 IH2]]; [split; [constructor|set_solver]|]. cbn [c_string]. destruct (Z.eqb_spec c 0); [split; [constructor|set_solver]|]. split; [by constructor|set_solver].
Qed.

Lemma ok_drop n s : bytes_ok s -> bytes_ok (drop n s).
Proof. apply Forall_drop. Qed.
Lemma ok_ws s : bytes_ok s -> bytes_ok (json_ws s).
Proof. destruct (ws_split s) as (sp & Hs & _). intros H. rewrite Hs in H. by apply Forall_app in H as [_ H]. Qed.
Lemma ok_head s : bytes_ok s -> 0 <= cget s 0 <= 255.
Proof. destruct 1 as [|c s Hc _]; cbn; [lia|]. unfold is_byte in Hc. change (cget (c :: s) 0) with c. lia. Qed.

Lemma utf8_put_ok cp : bytes_ok (server_utf8_put cp).
Proof. unfold server_utf8_put. repeat case_if; repeat (constructor; [apply u8_is_byte|]); constructor. Qed.

Lemma string_loop_bytes fuel : forall s acc v rest, bytes_ok s -> bytes_ok acc -> string_loop fuel s acc = JOk v rest -> bytes_ok v /\ bytes_ok rest.
Proof.
  induction fuel as [|fuel IH]; intros s acc v rest Hs Ha; cbn [string_loop]; [done|]. destruct s as [|c s1]; [done|]. pose proof Hs as Hs'. apply Forall_cons in Hs' as [Hc Hs1].
  case_if; [by intros [= <- <-]|]. case_if; [apply IH; [done|]; apply Forall_app; split; [done|by constructor]|]. case_if.
  - destruct (unicode_escape (c :: s1)) as [[cp s2]|] eqn:Eu; [|done]. apply unicode_escape_Some in Eu as (b & Hb & _). rewrite Hb in Hs. apply Forall_app in Hs as [_ Hs2]. apply IH; [done|]. apply Forall_app. split; [done|apply utf8_put_ok].
  - destruct (simple_escape (cget s1 0)) as [w|] eqn:Ew; [|done]. apply IH; [by apply ok_drop|]. apply Forall_app. split; [done|]. constructor; [|constructor]. unfold is_byte. unfold simple_escape in Ew. repeat (case_if_in Ew; [injection Ew as <-; lia|]); done.
Qed.

Lemma string_bytes s v rest : bytes_ok s -> json_string s = JOk v rest -> bytes_ok v /\ bytes_ok rest.
Proof. intros Hs. unfold json_string. cbv zeta. case_if; [done|]. apply string_loop_bytes; [by apply ok_drop, ok_ws|constructor]. Qed.

Lemma value_first d t c : value d t c -> cget t 0 = cget c 0.
Proof. by destruct 1. Qed.

(** A value is no space and no [<] at its head. *)
Lemma value_start d t c : value d t c -> isspace (cget t 0) = false /\ cget t 0 <> 60 /\ t <> [].
Proof.
  destruct 1 as [d b Hb|d w Hw|d t Ht|d sp Hsp|d t c Ht|d sp Hsp|d t c Ht]; try by (split_and!; try done; by cbn).
  - unfold literals in Hw. rewrite !elem_of_cons, elem_of_nil in Hw. destruct Hw as [-> | [-> | [-> | []]]]; by split_and!.
  - pose proof (number_plain t Ht) as Hp. destruct Ht as (Hne & Hs & _). split_and!; [done| |done]. destruct t as [|x t]; [done|]. apply Forall_cons in Hp as [Hx _]. intros Heq. change (cget (x :: t) 0) with x in Heq. by subst x.
Qed.

Lemma skip_ok s rest : json_skip_value s = JOk tt rest -> exists sp t c, s = sp ++ t ++ rest /\ spaces sp /\ value JSON_MAX_NESTING t c.
Proof. exact (proj1 (skip_sound_fuel JSON_MAX_NESTING) s rest). Qed.

Lemma raw_value_ok p raw rest : json_raw_value p = JOk raw rest -> exists sp c, p = sp ++ raw ++ rest /\ value JSON_MAX_NESTING raw c /\ cget raw 0 = cget (json_ws p) 0.
Proof.
  unfold json_raw_value. cbv zeta. destruct (json_skip_value (json_ws p)) as [[] r| |] eqn:Es; try done. cbn [jbind]. intros [= <- <-].
  pose proof (skip_ok _ _ Es) as (sp' & t & c & Hs & Hsp & Hv). destruct (ws_split p) as (sp & Hp & _ & Hh).
  assert (sp' = []) as ->. { destruct Hsp as [|x sp' Hx _]; [done|]. rewrite Hs in Hh. change (cget ((x :: sp') ++ _) 0) with x in Hh. congruence. }
  cbn [app] in Hs. assert (Ht : take (length (json_ws p) - length r) (json_ws p) = t).
  { rewrite Hs, length_app. replace (length t + length r - length r)%nat with (length t) by lia. apply take_app_length. }
  rewrite Ht. exists sp, c. split; [by rewrite <- Hs|]. split; [done|]. rewrite Hs. destruct (value_start _ _ _ Hv) as (_ & _ & Hne). by destruct t.
Qed.

Lemma minify_of t c : value JSON_MAX_NESTING t c -> json_minify_raw_value t = c.
Proof. intros Hv. destruct (json_minify_compact [] t c [] ltac:(constructor) Hv eq_refl) as (_ & H & _). cbn [app] in H. by rewrite app_nil_r in H. Qed.

Lemma args_loop_ok fuel : forall p args out rest, bytes_ok p -> Forall arg_ok args -> args_loop fuel p args = JOk out rest -> Forall arg_ok out.
Proof.
  induction fuel as [|fuel IH]; intros p args out rest Hp Ha; cbn [args_loop]; [done|]. case_if; [done|]. case_if; [by intros [= <- <-]|].
  destruct (json_string p) as [key p1| |] eqn:Ek; try done. cbn [jbind]. destruct (string_bytes _ _ _ Hp Ek) as [Hk Hp1]. destruct (c_string_ok key Hk) as [Hk1 Hk2]. case_if; [done|].
  set (p2 := json_ws (drop 1 (json_ws p1))). assert (Hp2 : bytes_ok p2) by by apply ok_ws, ok_drop, ok_ws.
  assert (Hnext : forall arg p3, bytes_ok p3 -> arg_ok arg -> args_loop fuel (json_ws (if cget (json_ws p3) 0 =? 44 then drop 1 (json_ws p3) else json_ws p3)) (args ++ [arg]) = JOk out rest -> Forall arg_ok out).
  { intros arg p3 H3 Harg. apply IH; [apply ok_ws; case_if; [by apply ok_drop, ok_ws|by apply ok_ws]|]. apply Forall_app. split; [done|]. by constructor. }
  destruct (Z.eqb_spec (cget p2 0) 34) as [Hq|Hq].
  - destruct (json_string p2) as [v p3| |] eqn:Ev; try done. cbn [jbind]. destruct (string_bytes _ _ _ Hp2 Ev) as [Hv Hp3]. destruct (c_string_ok v Hv). by apply Hnext.
  - destruct (json_raw_value p2) as [raw p3| |] eqn:Er; try done. cbn [jbind]. apply raw_value_ok in Er as (sp & c & He & Hv & Hh). rewrite (minify_of _ _ Hv). apply Hnext.
    + rewrite He in Hp2. apply Forall_app in Hp2 as [_ Hp2]. by apply Forall_app in Hp2 as [_ Hp2].
    + unfold arg_ok. cbn [arg_key arg_value arg_is_string]. split_and!; [done|done|by eapply value_compact|]. rewrite <- (value_first _ _ _ Hv), Hh. subst p2. by rewrite ws_idem.
Qed.

Lemma args_parse_ok json args : bytes_ok json -> json_args_parse json = Some args -> Forall arg_ok args.
Proof.
  intros Hj. unfold json_args_parse. cbv zeta. case_if; [done|]. destruct (args_loop _ _ []) as [out rest| |] eqn:El; try done. intros [= <-]. eapply args_loop_ok; [|constructor|exact El]. by apply ok_ws, ok_drop, ok_ws.
Qed.

Lemma lit_arg_ok a : arg_ok a -> arg_ok (lit_arg a).
Proof.
  unfold arg_ok, lit_arg. destruct a as [k v []]; cbn [arg_is_string arg_key arg_value]; [done|]. intros (H1 & H2 & H3 & H4). split_and!; try done; [by apply (proj1 lit_value) in H3 as [_ H3]|].
  destruct (value_start _ _ _ H3) as (_ & H60 & Hne). destruct v as [|x v]; [done|]. change (cget (x :: v) 0) with x in *. rewrite lit_cons by done. done.
Qed.

(** *** The arguments of a call that was read are read again *)

Lemma args_loop_read args : forall fuel acc r, Forall arg_ok args -> (length args < fuel)%nat -> args_loop fuel (members_text args ++ 125 :: r) acc = JOk (acc ++ args) (125 :: r).
Proof.
  induction args as [|a args IH]; intros fuel acc r Ha Hf; (destruct fuel as [|fuel]; [cbn in Hf; lia|]).
  { cbn. by rewrite app_nil_r. }
  apply Forall_cons in Ha as [Ha Hargs]. set (next := match args with [] => [] | _ => bs ", " ++ members_text args end).
  assert (Ht : members_text (a :: args) ++ 125 :: r = arg_member a ++ next ++ 125 :: r).
  { subst next. cbn [members_text]. destruct args; [done|]. by rewrite <- !(assoc_L (++)). }
  assert (Hcont : forall arg, args_loop fuel (json_ws (if cget (json_ws (next ++ 125 :: r)) 0 =? 44 then drop 1 (json_ws (next ++ 125 :: r)) else json_ws (next ++ 125 :: r))) (acc ++ [arg]) = JOk (acc ++ arg :: args) (125 :: r)).
  { intros arg. assert (Hn : json_ws (if cget (json_ws (next ++ 125 :: r)) 0 =? 44 then drop 1 (json_ws (next ++ 125 :: r)) else json_ws (next ++ 125 :: r)) = members_text args ++ 125 :: r).
    { subst next. destruct args as [|a' args]; [done|]. rewrite <- (assoc_L (++)). change (json_ws (members_text (a' :: args) ++ 125 :: r) = members_text (a' :: args) ++ 125 :: r). apply ws_id. cbn [members_text]. by destruct args. }
    rewrite Hn, IH; [by rewrite <- (assoc_L (++))|done|]. cbn in Hf. lia. }
  assert (Hend : ends_number (next ++ 125 :: r) = true) by (subst next; by destruct args).
  rewrite Ht. unfold arg_member. rewrite <- !(assoc_L (++)). destruct a as [k v s]. destruct Ha as (Hk & Hk0 & Hv). cbn [arg_key arg_value arg_is_string] in *.
  cbn [args_loop]. change (cget (json_escape k ++ ?l) 0) with 34. cbn [Z.eqb Pos.eqb].
  pose proof (json_escape_read [] k) as Hr. cbn [app] in Hr. rewrite Hr by (done || constructor). cbn [jbind]. change (json_ws (bs ": " ++ ?l)) with (58 :: 32 :: l). change (cget (58 :: ?l) 0) with 58. cbn [Z.eqb Pos.eqb negb drop].
  rewrite c_string_id by done. destruct s.
  - destruct Hv as [Hv Hv0]. change (json_ws (32 :: json_escape v ++ ?l)) with (json_escape v ++ l). change (cget (json_escape v ++ ?l) 0) with 34. cbn [Z.eqb Pos.eqb]. pose proof (json_escape_read [] v) as Hrv. cbn [app] in Hrv.
    rewrite Hrv by (done || constructor). cbn [jbind]. rewrite c_string_id by done. apply Hcont.
  - destruct Hv as [Hv Hq]. destruct (value_start _ _ _ Hv) as (Hsp & _ & Hne). assert (Hw : json_ws (32 :: v ++ next ++ 125 :: r) = v ++ next ++ 125 :: r).
    { change (json_ws (32 :: ?l)) with (json_ws l). apply ws_id. by destruct v. }
    rewrite Hw. assert (Hc : cget (v ++ next ++ 125 :: r) 0 = cget v 0) by by destruct v. rewrite Hc, (proj2 (Z.eqb_neq _ 34)) by done.
    destruct (json_minify_compact [] v v (next ++ 125 :: r) ltac:(constructor) Hv Hend) as (Hraw & _ & _ & Hmin). cbn [app] in Hraw. rewrite Hraw. cbn [jbind]. rewrite Hmin. apply Hcont.
Qed.

Lemma members_length args : (length args <= length (members_text args))%nat.
Proof.
  induction args as [|a args IH]; [done|]. cbn [members_text]. assert (Hp : (1 <= length (arg_member a))%nat) by (unfold arg_member; rewrite length_app; cbn; lia). destruct args as [|a' args]; [cbn [length]; lia|].
  rewrite !length_app. cbn [length] in *. lia.
Qed.

Lemma arguments_read args : Forall arg_ok args -> json_args_parse (arguments_json args) = Some args.
Proof.
  intros Ha. unfold json_args_parse, arguments_json. change (json_ws (123 :: ?l)) with (123 :: l). change (cget (123 :: ?l) 0) with 123. cbn [Z.eqb Pos.eqb negb drop].
  assert (Hw : json_ws (members_text args ++ [125]) = members_text args ++ [125]) by (apply ws_id; by destruct args as [|a [|a' args]]). rewrite drop_0, Hw.
  rewrite args_loop_read; [done|done|]. rewrite length_app. pose proof (members_length args). cbn [length]. lia.
Qed.

(** One more argument behind the others. *)
Lemma members_snoc args a : members_text (args ++ [a]) = (if 0 <? zlen (members_text args) then members_text args ++ bs ", " else members_text args) ++ arg_member a.
Proof.
  assert (Hpos : forall a args, (0 <? zlen (members_text (a :: args))) = true).
  { intros x l. pose proof (members_length (x :: l)). unfold zlen. cbn [length] in *. apply Z.ltb_lt. lia. }
  induction args as [|x args IH]; [done|]. rewrite Hpos. destruct args as [|y args]; [by rewrite <- (assoc_L (++))|]. rewrite Hpos in IH.
  change (members_text ((x :: y :: args) ++ [a])) with (arg_member x ++ bs ", " ++ members_text ((y :: args) ++ [a])). rewrite IH. change (members_text (x :: y :: args)) with (arg_member x ++ bs ", " ++ members_text (y :: args)). by rewrite <- !(assoc_L (++)).
Qed.

Lemma json_args_add args a : arg_ok a -> tool_call_json_args_add (members_text args) (arg_key a) (if arg_is_string a then arg_value a else lit (arg_value a)) (if arg_is_string a then bs "true" else bs "false") = members_text (args ++ [lit_arg a]).
Proof.
  intros Ha. rewrite members_snoc. unfold tool_call_json_args_add. destruct a as [k v []]; cbn [arg_is_string arg_key arg_value lit_arg].
  - change (bytes_eqb (bs "true") (bs "true")) with true. unfold arg_member. cbn [arg_is_string arg_key arg_value]. by rewrite <- !(assoc_L (++)).
  - change (bytes_eqb (bs "false") (bs "true")) with false. pose proof (lit_arg_ok _ Ha) as (_ & _ & Hv & _). cbn [arg_value lit_arg arg_is_string] in Hv. rewrite (minify_of _ _ Hv).
    destruct (value_start _ _ _ Hv) as (_ & _ & Hne). assert (Hz : (0 <? zlen (lit v)) = true) by (unfold zlen; destruct (lit v); [done|apply Z.ltb_lt; cbn; lia]). rewrite Hz. unfold arg_member. cbn [arg_is_string arg_key arg_value]. by rewrite <- !(assoc_L (++)).
Qed.
End Arguments.

(** ** A DSML block as it is written *)

Section Dsml.
(** Everything to the right. *)
Local Ltac flat := repeat first [rewrite <- (assoc_L (++)) | rewrite <- app_comm_cons].

Abbreviation attr := (flat_map attr_escape_char).

Definition name_attr (name : bytes) : bytes := bs " name=" ++ 34 :: attr name ++ [34].
Definition param_head (a : json_arg) : bytes := name_attr (arg_key a) ++ bs " string=" ++ 34 :: (if arg_is_string a then bs "true" else bs "false") ++ [34].
Definition arg_body (a : json_arg) : bytes := if arg_is_string a then tag_body_escape (arg_value a) DSML_PARAM_END else json_literal_escape (arg_value a).
Definition arg_text (a : json_arg) : bytes := DS4_PARAM_START ++ param_head a ++ 62 :: arg_body a ++ DSML_PARAM_END ++ [10].
Definition args_text (args : json_args) : bytes := concat (map arg_text args).

(** The arguments of a call; a text that is no object is one argument. *)
Definition call_args (tc : tool_call) : json_args :=
  match json_args_parse (tc_arguments tc) with Some args => args | None => [JsonArg (bs "arguments") (tc_arguments tc) true] end.
Definition call_text (tc : tool_call) : bytes := DS4_INVOKE_START ++ name_attr (tc_name tc) ++ 62 :: 10 :: args_text (call_args tc) ++ DS4_INVOKE_END ++ [10].
Definition calls_text (v : list tool_call) : bytes := concat (map call_text v).

Lemma dsml_arg_written b a : append_dsml_arg b a = b ++ arg_text a.
Proof.
  unfold append_dsml_arg, append_dsml_attr_escaped, append_dsml_parameter_text, append_dsml_json_literal, arg_text, param_head, name_attr, arg_body. destruct a as [k v []]; cbn [arg_is_string arg_key arg_value default from_option];
    flat; reflexivity.
Qed.

Lemma fold_append {A} (f : bytes -> A -> bytes) (g : A -> bytes) l : (forall b x, f b x = b ++ g x) -> forall b, fold_left f l b = b ++ concat (map g l).
Proof. intros Hf. induction l as [|x l IH]; intros b; cbn [fold_left map concat]; [by rewrite app_nil_r|]. by rewrite Hf, IH, <- (assoc_L (++)). Qed.

Lemma ordered_none args : ordered_args None args = args.
Proof. unfold ordered_args. cbn [default from_option ordered_loop app]. induction args as [|a args IH]; [done|]. cbn [map List.filter snd negb]. by rewrite IH. Qed.

Lemma dsml_call_written b tc : append_dsml_call b tc = b ++ call_text tc.
Proof.
  unfold append_dsml_call, append_dsml_arguments_from_json, call_text, call_args, append_dsml_attr_escaped, quoted, name_attr. cbn [default from_option]. destruct (json_args_parse (tc_arguments tc)) as [args|].
  - rewrite ordered_none, (fold_append _ _ _ dsml_arg_written). fold (args_text args). flat. reflexivity.
  - unfold append_dsml_parameter_text, args_text. cbn [map concat]. unfold arg_text, param_head, name_attr, arg_body. cbn [default from_option arg_is_string arg_key arg_value]. rewrite app_nil_r. flat. reflexivity.
Qed.

Lemma dsml_calls_written b v : v <> [] -> append_dsml_tool_calls_text b (ToolCalls v []) = b ++ [10; 10] ++ DS4_TOOL_CALLS_START ++ 10 :: calls_text v ++ DS4_TOOL_CALLS_END.
Proof.
  intros Hv. unfold append_dsml_tool_calls_text. cbn [tcs_v tcs_raw]. destruct v as [|tc v]; [done|]. cbn [length Nat.eqb]. change (0 <? zlen []) with false. cbv iota.
  rewrite (fold_append _ _ _ dsml_call_written). fold (calls_text (tc :: v)). by rewrite <- !(assoc_L (++)).
Qed.

(** *** Tags *)

Lemma starts_with_front p a r : (length p <= length a)%nat -> starts_with p (a ++ r) = starts_with p a.
Proof. revert a. induction p as [|x p IH]; intros [|y a] Hl; cbn in *; try done; try lia. by rewrite IH by lia. Qed.

Lemma no_earlier pre pat r : forallb (fun j => negb (starts_with pat (drop j (pre ++ pat)))) (seq 0 (length pre)) = true ->
  forall j, (j < length pre)%nat -> starts_with pat (drop j (pre ++ pat ++ r)) = false.
Proof.
  intros Hf j Hj. rewrite forallb_forall in Hf. specialize (Hf j ltac:(apply in_seq; lia)). apply negb_true_iff in Hf. rewrite (assoc_L (++)), drop_app_le by (rewrite length_app; lia).
  rewrite starts_with_front; [done|]. rewrite length_drop, length_app. lia.
Qed.

Lemma attr_bytes k c : c = 34 \/ c = 60 \/ c = 62 -> c ∉ attr k.
Proof.
  intros Hc. induction k as [|x k IH]; [set_solver|]. cbn [flat_map]. rewrite elem_of_app. intros [Hx|Hx]; [|done]. revert Hx. unfold attr_escape_char. repeat case_if; bool_prop; cbn; rewrite !elem_of_cons, elem_of_nil; lia.
Qed.

(** What ends the escaped text ends the text, when it has no semicolon. *)
Lemma attr_suffix w : 59 ∉ w -> forall k x, attr k = x ++ w -> exists y, k = y ++ w.
Proof.
  induction w as [|c w IH] using rev_ind; intros Hw k x Hk; [by exists k; rewrite app_nil_r|]. rewrite elem_of_app in Hw. destruct k as [|z k _] using rev_ind; [symmetry in Hk; apply app_eq_nil in Hk as [_ Hk]; by apply app_eq_nil in Hk as [_ Hk]|].
  rewrite flat_map_app in Hk. cbn [flat_map] in Hk. rewrite app_nil_r, (assoc_L (++) x) in Hk.
  assert (Hz : attr_escape_char z = [z] \/ exists e, attr_escape_char z = e ++ [59]).
  { unfold attr_escape_char. repeat case_if; [right; by exists (bs "&amp")|right; by exists (bs "&lt")|right; by exists (bs "&gt")|right; by exists (bs "&quot")|by left]. }
  destruct Hz as [Hz | [e' Hz]]; rewrite Hz in Hk.
  - apply app_inj_tail in Hk as [Hk ->]. destruct (IH ltac:(tauto) k x Hk) as [y ->]. exists y. by rewrite (assoc_L (++)).
  - rewrite (assoc_L (++)) in Hk. apply app_inj_tail in Hk as [_ <-]. exfalso. apply Hw. right. set_solver.
Qed.

(** The parser finds [string=] of the tag itself: no name ends in that text. *)
Definition key_ok (a : json_arg) : Prop := forall k, arg_key a <> k ++ bs "string=".

Definition before_key : bytes := DS4_PARAM_START ++ bs " name=".
Definition string_pat : bytes := bs "string=" ++ [34].

Lemma string_attr_first a r : key_ok a -> forall j, (j < length (DS4_PARAM_START ++ name_attr (arg_key a) ++ [32%Z]))%nat ->
  starts_with string_pat (drop j ((DS4_PARAM_START ++ name_attr (arg_key a) ++ [32]) ++ string_pat ++ r)) = false.
Proof.
  intros Hkey j Hj. set (K := attr (arg_key a)). assert (HK : 34 ∉ K) by (apply attr_bytes; by left).
  assert (Hpre : DS4_PARAM_START ++ name_attr (arg_key a) ++ [32] = before_key ++ 34 :: K ++ 34 :: [32]) by (unfold name_attr, before_key; flat; reflexivity).
  rewrite Hpre in *. rewrite length_app in Hj. cbn [length] in Hj. rewrite length_app in Hj. cbn [length] in Hj. set (A := length before_key) in *. assert (HA : A = 26%nat) by reflexivity.
  apply not_true_iff_false. intros Hs.
  assert (Hl : forall i c, string_pat !! i = Some c -> ((before_key ++ 34 :: K ++ 34 :: [32]) ++ string_pat ++ r) !! (j + i)%nat = Some c).
  { intros i c Hc. rewrite <- lookup_drop. by eapply starts_with_lookup. }
  assert (Hnq : forall m c, (m < 7)%nat -> string_pat !! m = Some c -> c <> 34) by (intros m c Hm; do 7 (destruct m as [|m]; [by intros [= <-]|]); lia).
  assert (HL : (before_key ++ 34 :: K ++ 34 :: [32]) ++ string_pat ++ r = (before_key ++ [34]) ++ K ++ [34; 32] ++ string_pat ++ r) by (flat; reflexivity).
  rewrite HL in Hl. assert (HA1 : length (before_key ++ [34]) = 27%nat) by reflexivity. pose proof (Hl 7%nat 34 eq_refl) as H7. destruct (decide (j + 7 < 26)%nat) as [H|H].
  { rewrite lookup_app_l, lookup_app_l in H7 by (rewrite ?HA1; fold A; lia). apply list_elem_of_lookup_2 in H7. revert H7. by apply (bool_decide_unpack _). }
  destruct (decide (j + 7 = 26)%nat) as [H0|H0].
  { pose proof (Hl 0%nat 115 eq_refl) as Hx. rewrite lookup_app_l in Hx by (rewrite HA1; lia). replace (j + 0)%nat with 19%nat in Hx by lia. discriminate Hx. }
  rewrite lookup_app_r in H7 by (rewrite HA1; lia). rewrite HA1 in H7. set (m := (j + 7 - 27)%nat) in *.
  destruct (decide (m < length K)%nat) as [Hm|Hm]; [rewrite lookup_app_l in H7 by done; by apply list_elem_of_lookup_2 in H7|]. rewrite lookup_app_r in H7 by lia.
  destruct (m - length K)%nat as [|[|q]] eqn:Eq; [|discriminate H7|].
  - destruct (decide (7 <= length K)%nat) as [H7K|H7K].
    + assert (Hsuf : drop (length K - 7) K = bs "string=").
      { apply (list_eq_same_length _ _ 7); [done|rewrite length_drop; lia|]. intros i x y Hi Hx Hy. rewrite lookup_drop in Hx. pose proof (Hl i y) as Hc. rewrite lookup_app_r in Hc by (rewrite HA1; lia). rewrite HA1 in Hc.
        replace (j + i - 27)%nat with (length K - 7 + i)%nat in Hc by lia. rewrite (lookup_app_l K) in Hc by lia. rewrite Hc in Hx; [congruence|]. unfold string_pat. by apply lookup_app_l_Some. }
      destruct (attr_suffix (bs "string=") ltac:(by apply (bool_decide_unpack _)) (arg_key a) (take (length K - 7) K)) as [y Hy]; [rewrite <- Hsuf; symmetry; apply take_drop|]. by apply (Hkey y).
    + assert (Hi : exists c, string_pat !! (26 - j)%nat = Some c) by (apply lookup_lt_is_Some_2; change (length string_pat) with 8%nat; lia). destruct Hi as [c Hc]. pose proof (Hl _ _ Hc) as Hx.
      replace (j + (26 - j))%nat with 26%nat in Hx by lia. injection Hx as <-. apply (Hnq (26 - j)%nat 34) in Hc; [done|lia].
  - change ((string_pat ++ r) !! q = Some 34) in H7. rewrite lookup_app_l in H7 by (change (length string_pat) with 8%nat; lia). apply (Hnq q 34) in H7; [done|lia].
Qed.

Lemma param_name a : dsml_attr (DS4_PARAM_START ++ param_head a ++ [62]) (bs "name") = Some (arg_key a).
Proof.
  assert (Heq : forall r, DS4_PARAM_START ++ param_head a ++ r = (DS4_PARAM_START ++ [32]) ++ bs "name" ++ [61; 34] ++ attr (arg_key a) ++ 34 :: (bs " string=" ++ 34 :: (if arg_is_string a then bs "true" else bs "false") ++ [34]) ++ r).
  { intros r. unfold param_head, name_attr. flat. reflexivity. }
  rewrite Heq. apply dsml_attr_written; [cbn; lia|]. intros j Hj. pose proof (no_earlier (DS4_PARAM_START ++ [32]) (bs "name" ++ [61; 34]) (attr (arg_key a) ++ 34 :: (bs " string=" ++ 34 :: (if arg_is_string a then bs "true" else bs "false") ++ [34]) ++ [62])) as Hn.
  rewrite <- (assoc_L (++) (bs "name")) in Hn. apply Hn; [vm_compute; reflexivity|done].
Qed.

Lemma param_string a : key_ok a -> dsml_attr (DS4_PARAM_START ++ param_head a ++ [62]) (bs "string") = Some (if arg_is_string a then bs "true" else bs "false").
Proof.
  intros Hk. set (v := if arg_is_string a then bs "true" else bs "false"). assert (Hv : attr v = v) by (subst v; by destruct (arg_is_string a)).
  assert (Heq : DS4_PARAM_START ++ param_head a ++ [62] = (DS4_PARAM_START ++ name_attr (arg_key a) ++ [32]) ++ bs "string" ++ [61; 34] ++ attr v ++ 34 :: [62]).
  { rewrite Hv. unfold param_head. fold v. flat. reflexivity. }
  rewrite Heq. apply dsml_attr_written; [cbn; lia|]. intros j Hj. pose proof (string_attr_first a (attr v ++ 34 :: [62]) Hk j Hj) as Hs. exact Hs.
Qed.

Lemma call_name tc : dsml_attr (DS4_INVOKE_START ++ name_attr (tc_name tc) ++ [62]) (bs "name") = Some (tc_name tc).
Proof.
  assert (Heq : DS4_INVOKE_START ++ name_attr (tc_name tc) ++ [62] = (DS4_INVOKE_START ++ [32]) ++ bs "name" ++ [61; 34] ++ attr (tc_name tc) ++ 34 :: [62]).
  { unfold name_attr. flat. reflexivity. }
  rewrite Heq. apply dsml_attr_written; [cbn; lia|]. intros j Hj. pose proof (no_earlier (DS4_INVOKE_START ++ [32]) (bs "name" ++ [61; 34]) (attr (tc_name tc) ++ 34 :: [62])) as Hn.
  rewrite <- (assoc_L (++) (bs "name")) in Hn. apply Hn; [vm_compute; reflexivity|done].
Qed.

Lemma name_attr_gt k : 62 ∉ name_attr k.
Proof. unfold name_attr. rewrite elem_of_app, elem_of_cons, elem_of_app. intros [H|[H|[H|H]]]; [revert H; by apply (bool_decide_unpack _)|done|revert H; apply attr_bytes; by right; right|set_solver]. Qed.
Lemma param_head_gt a : 62 ∉ param_head a.
Proof. unfold param_head. rewrite elem_of_app. intros [H|H]; [by apply name_attr_gt in H|]. revert H. destruct (arg_is_string a); by apply (bool_decide_unpack _). Qed.
End Dsml.

(** ** Reading what was written *)

Section DsmlRead.
Local Ltac flat := repeat first [rewrite <- (assoc_L (++)) | rewrite <- app_comm_cons].

Lemma ws_newline s : skip_ascii_ws (10 :: s) = skip_ascii_ws s.
Proof. done. Qed.
Lemma ws_tag s : skip_ascii_ws (60 :: s) = 60 :: s.
Proof. done. Qed.

Lemma body_no_end a : strstr (60 :: param_tail) (arg_body a) = None.
Proof. unfold arg_body. destruct (arg_is_string a); [apply (escape_no_end _ param_tail_plain)|apply lit_no_end]. Qed.

Lemma body_value a : dsml_value style_dsml (if arg_is_string a then bs "true" else bs "false") (arg_body a) = (if arg_is_string a then arg_value a else json_literal_escape (arg_value a)).
Proof.
  unfold dsml_value, arg_body. destruct (arg_is_string a); [|done]. change (bytes_eqb (bs "true") (bs "true")) with true. cbn [ds_param_end style_dsml]. rewrite unescape_unesc, param_end_eq. by apply (escape_roundtrip _ param_tail_plain).
Qed.

Lemma params_arg fuel a r acc : key_ok a ->
  params_loop (S fuel) style_dsml (arg_text a ++ r) acc =
  params_loop fuel style_dsml (10 :: r) (tool_call_json_args_add acc (arg_key a) (if arg_is_string a then arg_value a else json_literal_escape (arg_value a)) (if arg_is_string a then bs "true" else bs "false")).
Proof.
  intros Hk. assert (Ht : arg_text a ++ r = DS4_PARAM_START ++ param_head a ++ 62 :: arg_body a ++ 60 :: param_tail ++ 10 :: r) by (unfold arg_text; rewrite param_end_eq; flat; reflexivity).
  rewrite Ht. cbn [params_loop]. change (skip_ascii_ws (DS4_PARAM_START ++ ?l)) with (DS4_PARAM_START ++ l). change (starts_with (ds_invoke_end style_dsml) (DS4_PARAM_START ++ ?l)) with false. cbv iota.
  change (ds_param_start style_dsml) with DS4_PARAM_START. rewrite open_tag_at; [|by apply (bool_decide_unpack _)|apply param_head_gt]. cbn [mbind option_bind].
  rewrite param_name, param_string by done. cbn [mbind option_bind andb]. change (ds_param_end style_dsml) with (60 :: param_tail). rewrite value_to_at by (apply param_tail_lt || apply body_no_end). cbn [mbind option_bind default from_option id]. by rewrite body_value.
Qed.

Lemma params_read args : forall fuel done_ r, Forall arg_ok args -> Forall key_ok args -> (length args < fuel)%nat ->
  params_loop fuel style_dsml (10 :: args_text args ++ DS4_INVOKE_END ++ r) (members_text done_) = Some (members_text (done_ ++ map lit_arg args), r).
Proof.
  induction args as [|a args IH]; intros fuel done_ r Ha Hk Hf; (destruct fuel as [|fuel]; [cbn in Hf; lia|]).
  - cbn [args_text map concat app]. cbn [params_loop]. rewrite ws_newline. change (skip_ascii_ws (DS4_INVOKE_END ++ r)) with (DS4_INVOKE_END ++ r). change (ds_invoke_end style_dsml) with DS4_INVOKE_END. by rewrite starts_with_app, drop_app_length, app_nil_r.
  - apply Forall_cons in Ha as [Ha Hargs], Hk as [Hka Hk]. change (args_text (a :: args)) with (arg_text a ++ args_text args). rewrite <- (assoc_L (++)).
    assert (Hn : forall f x y, params_loop (S f) style_dsml (10 :: x) y = params_loop (S f) style_dsml x y) by done. rewrite Hn, params_arg by done. rewrite json_args_add by done. rewrite IH by (done || cbn in Hf; lia). by rewrite <- (assoc_L (++)).
Qed.

Lemma args_text_length args : (length args <= length (args_text args))%nat.
Proof. induction args as [|a args IH]; [done|]. change (args_text (a :: args)) with (arg_text a ++ args_text args). rewrite length_app. unfold arg_text at 1. rewrite length_app. cbn [length]. change (length DS4_PARAM_START) with 20%nat. lia. Qed.

(** The call as it is read. *)
Definition read_call (tc : tool_call) : tool_call := ToolCall (tc_name tc) (arguments_json (map lit_arg (call_args tc))).
Definition call_ok (tc : tool_call) : Prop := bytes_ok (tc_arguments tc) /\ (0 ∉ tc_arguments tc) /\ Forall key_ok (call_args tc).

Lemma call_args_ok tc : call_ok tc -> Forall arg_ok (call_args tc).
Proof.
  intros (Hb & H0 & _). unfold call_args. destruct (json_args_parse (tc_arguments tc)) as [args|] eqn:E; [by apply args_parse_ok in E|].
  constructor; [|constructor]. split; [apply bs_ok|]. split; [by apply (bool_decide_unpack _)|done].
Qed.

Lemma invokes_read v : forall fuel calls r, Forall call_ok v -> (length v < fuel)%nat ->
  invokes_loop fuel style_dsml (10 :: calls_text v ++ DS4_TOOL_CALLS_END ++ r) calls = (Some r, calls ++ map read_call v).
Proof.
  induction v as [|tc v IH]; intros fuel calls r Hv Hf; (destruct fuel as [|fuel]; [cbn in Hf; lia|]).
  - cbn [calls_text map concat app invokes_loop]. rewrite ws_newline. change (skip_ascii_ws (DS4_TOOL_CALLS_END ++ r)) with (DS4_TOOL_CALLS_END ++ r). change (ds_calls_end style_dsml) with DS4_TOOL_CALLS_END. by rewrite starts_with_app, drop_app_length, app_nil_r.
  - apply Forall_cons in Hv as [Htc Hv]. pose proof (call_args_ok tc Htc) as Hargs. destruct Htc as (_ & _ & Hkeys).
    assert (Ht : calls_text (tc :: v) ++ DS4_TOOL_CALLS_END ++ r = DS4_INVOKE_START ++ name_attr (tc_name tc) ++ 62 :: (10 :: args_text (call_args tc) ++ DS4_INVOKE_END ++ (10 :: calls_text v ++ DS4_TOOL_CALLS_END ++ r))).
    { change (calls_text (tc :: v)) with (call_text tc ++ calls_text v). unfold call_text. flat. reflexivity. }
    rewrite Ht. cbn [invokes_loop]. rewrite ws_newline. change (skip_ascii_ws (DS4_INVOKE_START ++ ?l)) with (DS4_INVOKE_START ++ l). change (starts_with (ds_calls_end style_dsml) (DS4_INVOKE_START ++ ?l)) with false. cbv iota.
    change (ds_invoke_start style_dsml) with DS4_INVOKE_START. rewrite open_tag_at; [|by apply (bool_decide_unpack _)|apply name_attr_gt]. cbn [mbind option_bind]. rewrite call_name. cbn [mbind option_bind].
    pose proof (params_read (call_args tc) (S (length (10 :: args_text (call_args tc) ++ DS4_INVOKE_END ++ 10 :: calls_text v ++ DS4_TOOL_CALLS_END ++ r))) [] (10 :: calls_text v ++ DS4_TOOL_CALLS_END ++ r) Hargs Hkeys) as Hp.
    change (members_text []) with (@nil Z) in Hp. rewrite Hp by (cbn [length]; rewrite length_app; pose proof (args_text_length (call_args tc)); lia). cbn [mbind option_bind app].
    rewrite IH by (done || cbn in Hf; lia). by rewrite <- (assoc_L (++)).
Qed.

Lemma calls_text_length v : (length v <= length (calls_text v))%nat.
Proof. induction v as [|tc v IH]; [done|]. change (calls_text (tc :: v)) with (call_text tc ++ calls_text v). rewrite length_app. unfold call_text at 1. rewrite length_app. cbn [length]. change (length DS4_INVOKE_START) with 17%nat. lia. Qed.

(** The block is found behind content that has no start of one. *)
Lemma block_found content r : strstr DS4_TOOL_CALLS_START content = None ->
  strstr ([10; 10] ++ DS4_TOOL_CALLS_START) (content ++ [10; 10] ++ DS4_TOOL_CALLS_START ++ r) = Some (length content).
Proof.
  intros Hc. apply strstr_at; [rewrite drop_app_length, (assoc_L (++)); apply starts_with_app|]. intros j Hj. rewrite drop_app_le by lia. apply not_true_iff_false. intros Hs.
  set (tl := drop 1 DS4_TOOL_CALLS_START). assert (H10 : 10 ∉ DS4_TOOL_CALLS_START) by by apply (bool_decide_unpack _).
  assert (Hl : forall i c, ([10; 10] ++ DS4_TOOL_CALLS_START) !! i = Some c -> (drop j content ++ [10; 10] ++ DS4_TOOL_CALLS_START ++ r) !! i = Some c) by (intros i c; by apply starts_with_lookup).
  assert (Hlen : length (drop j content) = (length content - j)%nat) by apply length_drop. destruct (drop j content) as [|a [|b d]] eqn:Ed; cbn [length] in Hlen; [lia|by specialize (Hl 2%nat 60 eq_refl)|].
  change ((a :: b :: d) ++ ?l) with (a :: b :: d ++ l) in Hs. change ([10; 10] ++ ?l) with (10 :: 10 :: l) in Hs. cbn [starts_with] in Hs. apply andb_true_iff in Hs as [_ Hs]. apply andb_true_iff in Hs as [_ Hs].
  assert (Hd : d = drop (S (S j)) content) by (replace (S (S j)) with (j + 2)%nat by lia; by rewrite <- drop_drop, Ed).
  destruct (starts_with_over _ _ _ _ Hs) as [H|(i & _ & Hi)]; [by rewrite Hd, (strstr_None _ _ (S (S j))) in H|by apply list_elem_of_lookup_2 in Hi].
Qed.

Lemma trim_app a b n : (n <= length a)%nat -> trim_tool_separator_ws (a ++ b) 0 n = trim_tool_separator_ws a 0 n.
Proof.
  induction n as [|n IH]; intros Hn; [done|]. cbn [trim_tool_separator_ws]. unfold cget. rewrite app_nth1 by lia. rewrite IH by lia. done.
Qed.
Lemma trim_le raw n : (trim_tool_separator_ws raw 0 n <= n)%nat.
Proof. induction n as [|n IH]; [done|]. cbn [trim_tool_separator_ws]. case_if; lia. Qed.

Lemma split_app a b n : (n <= length a)%nat -> split_reasoning_content (a ++ b) n = split_reasoning_content a n.
Proof. intros Hn. unfold split_reasoning_content. by rewrite take_app_le. Qed.

(** The content before a block, without the spaces at its end. *)
Definition content_parts (content : bytes) : parts := split_reasoning_content content (trim_tool_separator_ws content 0 (length content)).

Lemma arg_text_lit a : arg_text (lit_arg a) = arg_text a.
Proof. unfold lit_arg. destruct a as [k v []]; [done|]. unfold arg_text, arg_body, param_head. cbn [arg_is_string arg_key arg_value]. by rewrite lit_lit. Qed.

Lemma read_call_args tc : call_ok tc -> call_args (read_call tc) = map lit_arg (call_args tc).
Proof.
  intros Htc. unfold call_args at 1, read_call. cbn [tc_arguments]. rewrite arguments_read; [done|]. pose proof (call_args_ok tc Htc) as Hargs. induction Hargs as [|a args Ha _ IH]; [constructor|]. constructor; [by apply lit_arg_ok|done].
Qed.

Lemma call_text_read tc : call_ok tc -> call_text (read_call tc) = call_text tc.
Proof.
  intros Htc. unfold call_text. rewrite read_call_args by done. cbn [read_call tc_name]. unfold args_text. rewrite map_map. by rewrite (map_ext _ _ arg_text_lit).
Qed.

Lemma calls_text_read v : Forall call_ok v -> calls_text (map read_call v) = calls_text v.
Proof. induction 1 as [|tc v Htc _ IH]; [done|]. cbn [map]. change (calls_text (?a :: ?l)) with (call_text a ++ calls_text l). by rewrite call_text_read, IH. Qed.

Lemma deepseek_read content v r : v <> [] -> strstr DS4_TOOL_CALLS_START content = None -> Forall call_ok v ->
  let block := append_dsml_tool_calls_text [] (ToolCalls v []) in
  parse_deepseek_generated_message_ex (content ++ block ++ r) false (ToolCalls [] []) = (Some (content_parts content), ToolCalls (map read_call v) block).
Proof.
  intros Hv Hc Hok block. assert (Hb : block = [10; 10] ++ DS4_TOOL_CALLS_START ++ 10 :: calls_text v ++ DS4_TOOL_CALLS_END) by (subst block; by rewrite dsml_calls_written).
  set (after := 10 :: calls_text v ++ DS4_TOOL_CALLS_END ++ r). assert (Ht : block ++ r = [10; 10] ++ DS4_TOOL_CALLS_START ++ after) by (rewrite Hb; subst after; flat; reflexivity).
  unfold parse_deepseek_generated_message_ex. cbn [tool_search]. rewrite drop_0. unfold dsml_block_start. rewrite Ht at 1. rewrite block_found by done. cbn [Nat.add]. rewrite drop_app_length, Ht.
  change (ds_calls_start style_dsml) with DS4_TOOL_CALLS_START. change (strstr DS4_TOOL_CALLS_START ([10; 10] ++ DS4_TOOL_CALLS_START ++ after)) with (strstr DS4_TOOL_CALLS_START ([10; 10] ++ (60 :: drop 1 DS4_TOOL_CALLS_START ++ after))).
  rewrite (strstr_tag (drop 1 DS4_TOOL_CALLS_START) [10; 10]) by (by apply (bool_decide_unpack _) || reflexivity). cbv iota beta zeta. assert (Hd : drop (length [10; 10] + length DS4_TOOL_CALLS_START) ([10; 10] ++ DS4_TOOL_CALLS_START ++ after) = after) by reflexivity.
  rewrite Hd. cbn [tcs_v tcs_raw]. unfold after at 1 2. rewrite invokes_read; [|done|cbn [length]; rewrite length_app; pose proof (calls_text_length v); lia]. cbn [app parts_before].
  f_equal; [|f_equal].
  - f_equal. unfold parts_before, content_parts. rewrite trim_app by done. apply split_app. pose proof (trim_le content (length content)). lia.
  - fold after. change (10 :: 10 :: DS4_TOOL_CALLS_START ++ after) with ([10; 10] ++ DS4_TOOL_CALLS_START ++ after). rewrite <- Ht, !length_app. replace (length content + (length block + length r) - length content - length r)%nat with (length block) by lia. apply take_app_length.
Qed.

Lemma stable_text v : Forall call_ok v -> append_dsml_tool_calls_text [] (ToolCalls (map read_call v) []) = append_dsml_tool_calls_text [] (ToolCalls v []).
Proof. intros Hok. destruct v as [|tc v]; [done|]. rewrite !dsml_calls_written by done. by rewrite calls_text_read. Qed.
End DsmlRead.

(** ** GLM blocks *)

Section Glm.
Local Ltac flat := repeat first [rewrite <- (assoc_L (++)) | rewrite <- app_comm_cons].

Definition key_tail : bytes := bs "/arg_key>".
Definition value_tail : bytes := bs "/arg_value>".
Lemma key_tail_plain : ToolText.plain key_tail. Proof. by apply (bool_decide_unpack _). Qed.
Lemma value_tail_plain : ToolText.plain value_tail. Proof. by apply (bool_decide_unpack _). Qed.
Lemma plain_lt tl : ToolText.plain tl -> 60 ∉ tl.
Proof. unfold ToolText.plain. rewrite Forall_forall. intros H Hin. by destruct (H 60 Hin). Qed.

Definition glm_arg_text (a : json_arg) : bytes :=
  GLM_KEY_START ++ tag_body_escape (arg_key a) GLM_KEY_END ++ GLM_KEY_END ++ GLM_VALUE_START ++ tag_body_escape (arg_value a) GLM_VALUE_END ++ GLM_VALUE_END.
Definition glm_args_text (args : json_args) : bytes := concat (map glm_arg_text args).

Section Orders.
Context (orders : list tool_schema_order).

Definition glm_args (tc : tool_call) : json_args :=
  match json_args_parse (tc_arguments tc) with
  | Some args => ordered_args (so_prop <$> tool_schema_orders_find orders (tc_name tc)) args
  | None => [JsonArg (bs "arguments") (tc_arguments tc) true]
  end.
Definition glm_call_text (tc : tool_call) : bytes := GLM_CALL_START ++ tc_name tc ++ glm_args_text (glm_args tc) ++ GLM_CALL_END.
Definition glm_calls_text (v : list tool_call) : bytes := concat (map glm_call_text v).

Lemma glm_arg_written b a : append_glm_arg b a = b ++ glm_arg_text a.
Proof. unfold append_glm_arg, append_glm_arg_key_text, append_glm_arg_value_text, append_glm_tag_body_text, glm_arg_text. cbn [default from_option id]. flat. reflexivity. Qed.

Lemma glm_call_written b tc : append_glm_call orders b tc = b ++ glm_call_text tc.
Proof.
  unfold append_glm_call, append_glm_arguments_from_json, glm_call_text, glm_args. destruct (json_args_parse (tc_arguments tc)) as [args|].
  - rewrite (fold_append _ _ _ glm_arg_written). fold (glm_args_text (ordered_args (so_prop <$> tool_schema_orders_find orders (tc_name tc)) args)). flat. reflexivity.
  - unfold append_glm_arg_value_text, append_glm_tag_body_text, glm_args_text. cbn [map concat default from_option id]. unfold glm_arg_text. cbn [arg_key arg_value]. rewrite app_nil_r.
    change (tag_body_escape (bs "arguments") GLM_KEY_END) with (bs "arguments"). flat. reflexivity.
Qed.

Lemma glm_calls_written b v : v <> [] -> append_glm_tool_calls_text b (ToolCalls v []) orders = b ++ 10 :: glm_calls_text v ++ [10].
Proof.
  intros Hv. unfold append_glm_tool_calls_text. cbn [tcs_v tcs_raw]. destruct v as [|tc v]; [done|]. cbn [length Nat.eqb]. change (0 <? zlen []) with false. cbv iota.
  rewrite (fold_append _ _ _ glm_call_written). fold (glm_calls_text (tc :: v)). flat. reflexivity.
Qed.

(** *** The end of a call outside its arguments *)

Lemma structural_args args : forall fuel off r, (length (glm_args_text args ++ GLM_CALL_END ++ r) <= fuel)%nat ->
  structural_loop fuel (glm_args_text args ++ GLM_CALL_END ++ r) GLM_CALL_END false off None = Some (off + length (glm_args_text args))%nat.
Proof.
  induction args as [|a args IH]; intros fuel off r Hf.
  - destruct fuel as [|fuel]; [cbn in Hf; lia|]. cbn [glm_args_text map concat app length]. rewrite Nat.add_0_r. change (GLM_CALL_END ++ r) with (60 :: drop 1 GLM_CALL_END ++ r). cbn [structural_loop].
    change (60 :: drop 1 GLM_CALL_END ++ r) with (GLM_CALL_END ++ r). by rewrite starts_with_app.
  - set (rest := glm_args_text args ++ GLM_CALL_END ++ r) in *. set (k := tag_body_escape (arg_key a) GLM_KEY_END). set (w := tag_body_escape (arg_value a) GLM_VALUE_END).
    assert (Hk : strstr (60 :: key_tail) k = None) by apply (escape_no_end _ key_tail_plain). assert (Hw : strstr (60 :: value_tail) w = None) by apply (escape_no_end _ value_tail_plain).
    assert (Ht : glm_args_text (a :: args) ++ GLM_CALL_END ++ r = GLM_KEY_START ++ k ++ 60 :: key_tail ++ GLM_VALUE_START ++ w ++ 60 :: value_tail ++ rest).
    { change (glm_args_text (a :: args)) with (glm_arg_text a ++ glm_args_text args). unfold glm_arg_text. flat. reflexivity. }
    assert (Hlen : length (glm_args_text (a :: args)) = (9 + length k + 10 + 11 + length w + 12 + length (glm_args_text args))%nat).
    { change (glm_args_text (a :: args)) with (glm_arg_text a ++ glm_args_text args). unfold glm_arg_text. rewrite !length_app. cbn [length GLM_KEY_START GLM_KEY_END GLM_VALUE_START GLM_VALUE_END]. fold k w. cbn. lia. }
    assert (Hlr : (length rest + 2 <= fuel)%nat) by (rewrite length_app, Hlen in Hf; subst rest; rewrite length_app; lia).
    rewrite Ht. destruct fuel as [|[|fuel]]; [lia|lia|].
    assert (H1 : structural_loop (S (S fuel)) (GLM_KEY_START ++ k ++ 60 :: key_tail ++ GLM_VALUE_START ++ w ++ 60 :: value_tail ++ rest) GLM_CALL_END false off None =
      match strstr (60 :: key_tail) (k ++ 60 :: key_tail ++ GLM_VALUE_START ++ w ++ 60 :: value_tail ++ rest) with
      | None => None
      | Some end_ => structural_loop (S fuel) (drop (9 + end_ + 10) (GLM_KEY_START ++ k ++ 60 :: key_tail ++ GLM_VALUE_START ++ w ++ 60 :: value_tail ++ rest)) GLM_CALL_END false (off + (9 + end_ + 10))%nat None
      end) by reflexivity.
    rewrite H1, strstr_tag by (done || apply plain_lt, key_tail_plain). clear H1.
    assert (Hd1 : drop (9 + length k + 10) (GLM_KEY_START ++ k ++ 60 :: key_tail ++ GLM_VALUE_START ++ w ++ 60 :: value_tail ++ rest) = GLM_VALUE_START ++ w ++ 60 :: value_tail ++ rest).
    { replace (9 + length k + 10)%nat with (length (GLM_KEY_START ++ k ++ 60 :: key_tail)) by (rewrite !length_app; cbn; lia). assert (Hx : GLM_KEY_START ++ k ++ 60 :: key_tail ++ GLM_VALUE_START ++ w ++ 60 :: value_tail ++ rest = (GLM_KEY_START ++ k ++ 60 :: key_tail) ++ GLM_VALUE_START ++ w ++ 60 :: value_tail ++ rest) by (flat; reflexivity).
      rewrite Hx. apply drop_app_length. }
    rewrite Hd1. assert (H2 : forall off', structural_loop (S fuel) (GLM_VALUE_START ++ w ++ 60 :: value_tail ++ rest) GLM_CALL_END false off' None =
      match strstr (60 :: value_tail) (w ++ 60 :: value_tail ++ rest) with
      | None => None
      | Some end_ => structural_loop fuel (drop (11 + end_ + 12) (GLM_VALUE_START ++ w ++ 60 :: value_tail ++ rest)) GLM_CALL_END false (off' + (11 + end_ + 12))%nat None
      end) by reflexivity.
    rewrite H2, strstr_tag by (done || apply plain_lt, value_tail_plain). clear H2.
    assert (Hd2 : drop (11 + length w + 12) (GLM_VALUE_START ++ w ++ 60 :: value_tail ++ rest) = rest).
    { replace (11 + length w + 12)%nat with (length (GLM_VALUE_START ++ w ++ 60 :: value_tail)) by (rewrite !length_app; cbn; lia). assert (Hx : GLM_VALUE_START ++ w ++ 60 :: value_tail ++ rest = (GLM_VALUE_START ++ w ++ 60 :: value_tail) ++ rest) by (flat; reflexivity).
      rewrite Hx. apply drop_app_length. }
    rewrite Hd2. subst rest. rewrite IH by lia. f_equal. lia.
Qed.

Lemma structural_name name : forall fuel off args r, 60 ∉ name -> (length (name ++ glm_args_text args ++ GLM_CALL_END ++ r) <= fuel)%nat ->
  structural_loop fuel (name ++ glm_args_text args ++ GLM_CALL_END ++ r) GLM_CALL_END false off None = Some (off + length name + length (glm_args_text args))%nat.
Proof.
  induction name as [|c name IH]; intros fuel off args r Hn Hf; [cbn [app length]; rewrite Nat.add_0_r; by apply structural_args|]. apply not_elem_of_cons in Hn as [Hc Hn].
  destruct fuel as [|fuel]; [cbn in Hf; lia|]. cbn [app structural_loop]. assert (Hs : forall p l, starts_with (60 :: p) (c :: l) = false) by (intros p l; cbn [starts_with]; rewrite (proj2 (Z.eqb_neq 60 c)); [done|congruence]).
  assert (Hw : forall p l, p = 60 :: drop 1 p -> starts_with p (c :: l) = false) by (intros p l ->; apply Hs). rewrite !(Hw GLM_CALL_END) by reflexivity. cbn [andb].
  assert (Hf1 : forall l, List.find (fun w => starts_with (fst w) (c :: l)) wrappers = None) by (intros l; unfold wrappers; cbn [List.find fst]; by rewrite !Hw by reflexivity).
  rewrite Hf1, IH; [f_equal; cbn [length]; lia|done|cbn [app length] in Hf; lia].
Qed.

(** *** A call *)

Definition trimmed (s : bytes) : Prop := isspace (cget s 0) = false /\ isspace (cget (rev s) 0) = false.

Lemma trim_id s : trimmed s -> trim_const_span s = s.
Proof. intros [H1 H2]. unfold trim_const_span. by rewrite (skip_space_stop s), (skip_space_stop (rev s)), rev_involutive. Qed.

Lemma escape_last s c tl : tl <> [] -> exists e, tag_body_escape (s ++ [c]) (60 :: tl) = e ++ [c].
Proof.
  intros Htl. induction s as [|x s IH].
  - exists []. cbn [app tag_body_escape]. assert (Hn : ds4_tool_text_needs_escape [c] (60 :: tl) = false); [|by rewrite Hn].
    unfold ds4_tool_text_needs_escape. destruct tl as [|y tl]; [done|]. cbn [starts_with]. rewrite andb_false_r. cbn [orb]. unfold ds4_tool_text_escaped_close. case_if; [done|]. done.
  - destruct IH as [e' He]. cbn [app tag_body_escape]. rewrite He. case_if; [eexists; by rewrite (assoc_L (++))|by exists (x :: e')].
Qed.

Lemma escape_trimmed s tl : ToolText.plain tl -> tl <> [] -> trimmed s -> trimmed (tag_body_escape s (60 :: tl)).
Proof.
  intros Hp Htl [H1 H2]. destruct s as [|c s _] using rev_ind; [done|]. split.
  - destruct (s ++ [c]) as [|x l]; [done|]. cbn [tag_body_escape]. destruct (ds4_tool_text_needs_escape (x :: l) (60 :: tl)) eqn:E; [|exact H1]. case_if; reflexivity.
  - destruct (escape_last s c tl Htl) as [e' ->]. by rewrite rev_app_distr in *.
Qed.

Definition glm_arg_ok (a : json_arg) : Prop := trimmed (arg_key a).
Definition as_text (a : json_arg) : json_arg := JsonArg (arg_key a) (arg_value a) true.

Lemma string_args_add args k v : tool_call_json_args_add (members_text args) k v (bs "true") = members_text (args ++ [JsonArg k v true]).
Proof.
  rewrite members_snoc. unfold tool_call_json_args_add. change (bytes_eqb (bs "true") (bs "true")) with true. unfold arg_member. cbn [arg_is_string arg_key arg_value]. by rewrite <- !(assoc_L (++)).
Qed.

Lemma glm_args_read args : forall fuel done_ r, Forall glm_arg_ok args -> (length args < fuel)%nat ->
  glm_args_loop fuel (length (GLM_CALL_END ++ r)) (glm_args_text args ++ GLM_CALL_END ++ r) (members_text done_) = Some (members_text (done_ ++ map as_text args), r).
Proof.
  induction args as [|a args IH]; intros fuel done_ r Ha Hf; (destruct fuel as [|fuel]; [cbn in Hf; lia|]).
  - cbn [glm_args_text map concat app glm_args_loop]. change (skip_ascii_ws (GLM_CALL_END ++ r)) with (GLM_CALL_END ++ r). by rewrite starts_with_app, drop_app_length, app_nil_r.
  - apply Forall_cons in Ha as [Ha Hargs]. set (k := tag_body_escape (arg_key a) GLM_KEY_END). set (w := tag_body_escape (arg_value a) GLM_VALUE_END). set (rest := glm_args_text args ++ GLM_CALL_END ++ r).
    assert (Hk : strstr (60 :: key_tail) k = None) by apply (escape_no_end _ key_tail_plain). assert (Hw : strstr (60 :: value_tail) w = None) by apply (escape_no_end _ value_tail_plain).
    assert (Hclose : (length (GLM_CALL_END ++ r) <= length rest)%nat) by (subst rest; rewrite (length_app (glm_args_text args)); lia).
    assert (Ht : glm_args_text (a :: args) ++ GLM_CALL_END ++ r = GLM_KEY_START ++ k ++ 60 :: key_tail ++ GLM_VALUE_START ++ w ++ 60 :: value_tail ++ rest).
    { change (glm_args_text (a :: args)) with (glm_arg_text a ++ glm_args_text args). unfold glm_arg_text. flat. reflexivity. }
    rewrite Ht. cbn [glm_args_loop]. change (skip_ascii_ws (GLM_KEY_START ++ ?l)) with (GLM_KEY_START ++ l). change (starts_with GLM_CALL_END (GLM_KEY_START ++ ?l)) with false. cbv iota. rewrite starts_with_app, drop_app_length. cbn [negb].
    rewrite (strstr_tag key_tail k _ (plain_lt _ key_tail_plain) Hk : strstr GLM_KEY_END _ = _). cbn [mbind option_bind].
    set (after_key := GLM_VALUE_START ++ w ++ 60 :: value_tail ++ rest).
    assert (Hn1 : (length (k ++ 60%Z :: key_tail ++ after_key) - length k <? length (GLM_CALL_END ++ r))%nat = false).
    { apply Nat.ltb_ge. subst after_key. rewrite !length_app. cbn [length]. rewrite !length_app. cbn [length]. rewrite !length_app. rewrite length_app in Hclose. lia. }
    rewrite Hn1, take_app_length. assert (Hd : drop (length k + length GLM_KEY_END) (k ++ 60 :: key_tail ++ after_key) = after_key) by (rewrite <- drop_drop, drop_app_length; reflexivity).
    rewrite Hd. subst after_key. change (skip_ascii_ws (GLM_VALUE_START ++ ?l)) with (GLM_VALUE_START ++ l). rewrite starts_with_app, drop_app_length. cbn [negb].
    rewrite (strstr_tag value_tail w _ (plain_lt _ value_tail_plain) Hw : strstr GLM_VALUE_END _ = _). cbn [mbind option_bind].
    assert (Hn2 : (length (w ++ 60%Z :: value_tail ++ rest) - length w <? length (GLM_CALL_END ++ r))%nat = false).
    { apply Nat.ltb_ge. rewrite (length_app w). cbn [length]. rewrite (length_app value_tail). lia. }
    rewrite Hn2, take_app_length. assert (Hd2 : drop (length w + length GLM_VALUE_END) (w ++ 60 :: value_tail ++ rest) = rest) by (rewrite <- drop_drop, drop_app_length; reflexivity).
    rewrite Hd2. assert (Htk : trim_const_span k = k) by (apply trim_id, escape_trimmed; [exact key_tail_plain|done|exact Ha]). rewrite Htk.
    assert (Huk : ds4_tool_text_unescape k GLM_KEY_END = arg_key a) by (rewrite unescape_unesc; by apply (escape_roundtrip _ key_tail_plain)).
    assert (Huw : ds4_tool_text_unescape w GLM_VALUE_END = arg_value a) by (rewrite unescape_unesc; by apply (escape_roundtrip _ value_tail_plain)).
    rewrite Huk, Huw, string_args_add. subst rest. rewrite IH by (done || cbn in Hf; lia). by rewrite <- (assoc_L (++)).
Qed.

Definition glm_call_ok (tc : tool_call) : Prop := tc_name tc <> [] /\ (60 ∉ tc_name tc) /\ trimmed (tc_name tc) /\ Forall glm_arg_ok (glm_args tc).
Definition read_glm_call (tc : tool_call) : tool_call := ToolCall (tc_name tc) (arguments_json (map as_text (glm_args tc))).

Lemma glm_args_length args : (length args <= length (glm_args_text args))%nat.
Proof. induction args as [|a args IH]; [done|]. change (glm_args_text (a :: args)) with (glm_arg_text a ++ glm_args_text args). rewrite length_app. unfold glm_arg_text at 1. rewrite length_app. cbn [length]. change (length GLM_KEY_START) with 9%nat. lia. Qed.

Lemma glm_call_read tc r : glm_call_ok tc -> glm_call (tc_name tc ++ glm_args_text (glm_args tc) ++ GLM_CALL_END ++ r) = Some (read_glm_call tc, r).
Proof.
  intros (Hne & Hlt & Htrim & Hargs). set (args := glm_args tc) in *. set (name := tc_name tc) in *. set (rest := glm_args_text args ++ GLM_CALL_END ++ r).
  unfold glm_call, find_tool_structural_text. subst rest. rewrite structural_name by (done || lia). cbn [mbind option_bind Nat.add].
  set (rest := glm_args_text args ++ GLM_CALL_END ++ r). set (close := (length name + length (glm_args_text args))%nat).
  assert (Hname : default close (match strstr GLM_KEY_START (name ++ rest) with Some a => if (close <? a)%nat then None else Some a | None => None end) = length name).
  { destruct args as [|a args'] eqn:Eargs.
    - assert (Hc : close = length name) by (subst close; cbn; lia). destruct (strstr GLM_KEY_START (name ++ rest)) as [i|] eqn:Es; [|done]. destruct (Nat.ltb_spec close i); [done|]. exfalso. apply strstr_Some in Es as [Es _].
      destruct (decide (i = length name)) as [->|Hi]; [rewrite drop_app_length in Es; discriminate Es|]. rewrite drop_app_le in Es by lia. destruct (lookup_lt_is_Some_2 name i ltac:(lia)) as [x Hx]. rewrite (drop_S _ _ _ Hx) in Es.
      change GLM_KEY_START with (60 :: drop 1 GLM_KEY_START) in Es. cbn [app starts_with] in Es. apply andb_true_iff in Es as [Es _]. apply Z.eqb_eq in Es. subst x. by apply list_elem_of_lookup_2 in Hx.
    - assert (Hr : rest = 60 :: drop 1 GLM_KEY_START ++ drop 9 rest) by reflexivity. rewrite Hr. change GLM_KEY_START with (60 :: drop 1 GLM_KEY_START) at 1.
      rewrite strstr_tag; [|by apply (bool_decide_unpack _)|by apply strstr_absent]. assert (Hlt' : (close <? length name)%nat = false) by (apply Nat.ltb_ge; subst close; lia). by rewrite Hlt'. }
  rewrite Hname, take_app_length, (trim_id name) by done. assert (Hz : (length name =? 0)%nat = false) by (destruct name; done). rewrite Hz, drop_app_length.
  assert (Hclose : (length (name ++ rest) - close)%nat = length (GLM_CALL_END ++ r)) by (subst rest close; rewrite !length_app; lia). rewrite Hclose.
  pose proof (glm_args_read args (S (length (name ++ rest))) [] r Hargs) as Hread. change (members_text []) with (@nil Z) in Hread. unfold rest at 2. rewrite Hread; [done|].
  pose proof (glm_args_length args). subst rest. rewrite !length_app. lia.
Qed.

Lemma glm_calls_read v : forall fuel calls r, Forall glm_call_ok v -> (length v < fuel)%nat -> starts_with GLM_CALL_START (skip_ascii_ws r) = false ->
  glm_calls_loop fuel (glm_calls_text v ++ r) calls = (Some (skip_ascii_ws r), calls ++ map read_glm_call v).
Proof.
  induction v as [|tc v IH]; intros fuel calls r Hv Hf Hr; (destruct fuel as [|fuel]; [cbn in Hf; lia|]); cbn [glm_calls_loop].
  - cbn [glm_calls_text map concat app]. rewrite Hr. cbn [negb]. by rewrite app_nil_r.
  - apply Forall_cons in Hv as [Htc Hv]. assert (Ht : glm_calls_text (tc :: v) ++ r = GLM_CALL_START ++ tc_name tc ++ glm_args_text (glm_args tc) ++ GLM_CALL_END ++ glm_calls_text v ++ r).
    { change (glm_calls_text (tc :: v)) with (glm_call_text tc ++ glm_calls_text v). unfold glm_call_text. flat. reflexivity. }
    rewrite Ht. change (skip_ascii_ws (GLM_CALL_START ++ ?l)) with (GLM_CALL_START ++ l). rewrite starts_with_app, drop_app_length. cbn [negb]. rewrite glm_call_read by done. rewrite IH by (done || cbn in Hf; lia). by rewrite <- (assoc_L (++)).
Qed.

Lemma glm_calls_length v : (length v <= length (glm_calls_text v))%nat.
Proof. induction v as [|tc v IH]; [done|]. change (glm_calls_text (tc :: v)) with (glm_call_text tc ++ glm_calls_text v). rewrite length_app. unfold glm_call_text at 1. rewrite length_app. cbn [length]. change (length GLM_CALL_START) with 11%nat. lia. Qed.

Lemma strstr_snoc p a c : p <> [] -> c ∉ p -> strstr p a = None -> strstr p (a ++ [c]) = None.
Proof.
  intros Hp Hc. induction a as [|x a IH].
  - intros _. destruct p as [|y p]; [done|]. apply not_elem_of_cons in Hc as [Hc _]. cbn. rewrite (proj2 (Z.eqb_neq y c)) by done. done.
  - cbn [app strstr]. case_if; [done|]. destruct (strstr p a) eqn:Es; [done|]. intros _. rewrite IH by done. destruct (starts_with p (x :: a ++ [c])) eqn:Ex; [|done].
    destruct (starts_with_over p (x :: a) c [] Ex) as [H|(i & _ & Hi)]; [congruence|]. by apply list_elem_of_lookup_2 in Hi.
Qed.

(** Newlines before a block are no content. *)
Lemma trim_newlines content l : let text := content ++ 10 :: l in let start := S (length content) in
  trim_tool_separator_ws text 0 (if (2 <=? start)%nat && (cget text (start - 2) =? 10) && (cget text (start - 1) =? 10) then (start - 2)%nat else start) = trim_tool_separator_ws content 0 (length content).
Proof.
  intros text start. assert (Hc : forall i, (i < length content)%nat -> cget text i = cget content i) by (intros i Hi; unfold cget, text; by rewrite app_nth1).
  assert (Hn : cget text (length content) = 10) by (unfold cget, text; by rewrite app_nth2, Nat.sub_diag by lia).
  assert (H1 : trim_tool_separator_ws text 0 start = trim_tool_separator_ws content 0 (length content)).
  { subst start. cbn [trim_tool_separator_ws]. rewrite Hn. cbn. by apply trim_app. }
  destruct (2 <=? start)%nat eqn:E2; [|exact H1]. cbn [andb]. destruct (Z.eqb_spec (cget text (start - 2)) 10) as [E|]; [|exact H1]. cbn [andb]. case_if; [|exact H1]. apply Nat.leb_le in E2. subst start.
  replace (S (length content) - 2)%nat with (length content - 1)%nat in * by lia. rewrite Hc in E by lia. destruct (length content) as [|n] eqn:En; [lia|]. replace (S n - 1)%nat with n in * by lia.
  cbn [trim_tool_separator_ws]. rewrite E. cbn. apply trim_app. lia.
Qed.

Lemma glm_read content v r : v <> [] -> strstr GLM_CALL_START content = None -> Forall glm_call_ok v -> starts_with GLM_CALL_START (skip_ascii_ws r) = false ->
  exists raw, parse_glm_generated_message_ex (content ++ append_glm_tool_calls_text [] (ToolCalls v []) orders ++ r) false (ToolCalls [] []) = (Some (content_parts content), ToolCalls (map read_glm_call v) raw).
Proof.
  intros Hv Hc Hok Hr. rewrite glm_calls_written by done. cbn [app].
  assert (Ht : content ++ (10 :: glm_calls_text v ++ [10]) ++ r = (content ++ [10]) ++ glm_calls_text v ++ 10 :: r) by (flat; reflexivity). assert (Ht' : content ++ (10 :: glm_calls_text v ++ [10]) ++ r = content ++ 10 :: (glm_calls_text v ++ 10 :: r)) by (flat; reflexivity).
  change (10 :: (glm_calls_text v ++ [10]) ++ r) with ((10 :: glm_calls_text v ++ [10]) ++ r) || idtac. set (text := content ++ (10 :: glm_calls_text v ++ [10]) ++ r) in *.
  assert (Hstart : strstr GLM_CALL_START text = Some (S (length content))).
  { rewrite Ht. destruct v as [|tc v']; [done|]. assert (Hx : glm_calls_text (tc :: v') ++ 10 :: r = 60 :: drop 1 GLM_CALL_START ++ drop 11 (glm_calls_text (tc :: v') ++ 10 :: r)) by reflexivity. rewrite Hx. change GLM_CALL_START with (60 :: drop 1 GLM_CALL_START) at 1.
    rewrite strstr_tag; [f_equal; rewrite length_app; cbn; lia|by apply (bool_decide_unpack _)|]. apply (strstr_snoc GLM_CALL_START); [done|by apply (bool_decide_unpack _)|done]. }
  unfold parse_glm_generated_message_ex. cbn [tool_search]. rewrite drop_0, Hstart. cbn [Nat.add].
  assert (Hdrop : drop (S (length content)) text = glm_calls_text v ++ 10 :: r) by (rewrite Ht; replace (S (length content)) with (length (content ++ [10])) by (rewrite length_app; cbn; lia); apply drop_app_length).
  rewrite Hdrop. cbn [tcs_v tcs_raw]. rewrite glm_calls_read; [|done|rewrite length_app; pose proof (glm_calls_length v); lia|done]. cbn [app].
  assert (Hz : (length (map read_glm_call v) =? 0)%nat = false) by (destruct v; done). rewrite Hz. eexists. f_equal. f_equal. unfold parts_before, content_parts.
  pose proof (trim_newlines content (glm_calls_text v ++ 10 :: r)) as Hn. cbv zeta in Hn. rewrite <- Ht' in Hn. rewrite Hn. apply split_app. apply trim_le.
Qed.
End Orders.
End Glm.

(** ** Properties *)

(** C12: Tool calls written in DSML behind a message are read back: the same
    names, the same arguments as compact objects, the content before the block,
    and the block itself; whatever the argument values hold, closing tags
    included, and whatever follows.  Written again from what was read, without
    the block, they are the same text. *)
Theorem dsml_calls_roundtrip (content r : bytes) (v : list tool_call) :
  v <> [] -> strstr DS4_TOOL_CALLS_START content = None -> Forall call_ok v ->
  let block := append_dsml_tool_calls_text [] (ToolCalls v []) in
  parse_deepseek_generated_message_ex (content ++ block ++ r) false (ToolCalls [] []) = (Some (content_parts content), ToolCalls (map read_call v) block) /\
  Forall (fun tc => json_args_parse (tc_arguments (read_call tc)) = Some (map lit_arg (call_args tc))) v /\
  append_dsml_tool_calls_text [] (ToolCalls (map read_call v) []) = block.
Proof.
  intros Hv Hc Hok block. split; [by apply deepseek_read|]. split; [|by apply stable_text].
  eapply Forall_impl; [exact Hok|]. intros tc Htc. unfold read_call. cbn [tc_arguments]. apply arguments_read. rewrite Forall_fmap. eapply Forall_impl; [exact (call_args_ok tc Htc)|]. intros a. apply lit_arg_ok.
Qed.

Lemma dsml_calls_roundtrip_witness :
  let tc := ToolCall (bs "run<1>") (bs "{" ++ [34] ++ bs "text" ++ [34] ++ bs " : " ++ [34] ++ bs "a</｜DSML｜parameter>b" ++ [34] ++ bs ", " ++ [34] ++ bs "n" ++ [34] ++ bs ":[ 1, " ++ [34] ++ bs "</｜DSML｜parameter>" ++ [34] ++ bs "]}") in
  parse_deepseek_generated_message_ex (bs "Now. " ++ append_dsml_tool_calls_text [] (ToolCalls [tc] []) ++ bs "<end>") false (ToolCalls [] []) =
    (Some (bs "Now.", None), ToolCalls [read_call tc] (append_dsml_tool_calls_text [] (ToolCalls [tc] []))) /\
  tc_arguments (read_call tc) =
    bs "{" ++ [34] ++ bs "text" ++ [34] ++ bs ": " ++ [34] ++ bs "a</｜DSML｜parameter>b" ++ [34] ++ bs ", " ++ [34] ++ bs "n" ++ [34] ++ bs ": [1," ++ [34] ++ bs "\u003c/｜DSML｜parameter>" ++ [34] ++ bs "]}".
Proof.
  intros tc. split; [|vm_compute; reflexivity].
  assert (Hok : Forall call_ok [tc]).
  { constructor; [|constructor]. split; [apply (bool_decide_unpack _); vm_compute; exact I|]. split; [apply (bool_decide_unpack _); vm_compute; exact I|].
    assert (Hargs : call_args tc = [JsonArg (bs "text") (bs "a</｜DSML｜parameter>b") true; JsonArg (bs "n") (bs "[1," ++ [34] ++ bs "</｜DSML｜parameter>" ++ [34] ++ bs "]") false]) by (vm_compute; reflexivity). rewrite Hargs.
    constructor; [|constructor; [|constructor]]; intros k Hk; apply (f_equal (fun s => last s)) in Hk; cbn [arg_key] in Hk; rewrite last_app in Hk; discriminate Hk. }
  exact (proj1 (dsml_calls_roundtrip (bs "Now. ") (bs "<end>") [tc] ltac:(discriminate) eq_refl Hok)).
Defined.

(** C26: Tool calls written in GLM's syntax behind a message are read back: the
    same names, the arguments in the order of the tool's schema with every value
    as text, and the content before the block; whatever the values hold, tags
    of the protocol included. *)
Theorem glm_calls_roundtrip (orders : list tool_schema_order) (content r : bytes) (v : list tool_call) :
  v <> [] -> strstr GLM_CALL_START content = None -> Forall (glm_call_ok orders) v -> starts_with GLM_CALL_START (skip_ascii_ws r) = false ->
  exists raw, parse_glm_generated_message_ex (content ++ append_glm_tool_calls_text [] (ToolCalls v []) orders ++ r) false (ToolCalls [] []) =
    (Some (content_parts content), ToolCalls (map (read_glm_call orders) v) raw).
Proof. apply glm_read. Qed.

Lemma glm_calls_roundtrip_witness :
  let orders := [SchemaOrder (bs "read") [bs "n"; bs "path"]] in
  let tc := ToolCall (bs "read") (bs "{" ++ [34] ++ bs "path" ++ [34] ++ bs ": " ++ [34] ++ bs "a</arg_value></tool_call>" ++ [34] ++ bs ", " ++ [34] ++ bs "n" ++ [34] ++ bs ": 5}") in
  (exists raw, parse_glm_generated_message_ex ((bs "Look:" ++ [10]) ++ append_glm_tool_calls_text [] (ToolCalls [tc] []) orders ++ bs "<|user|>") false (ToolCalls [] []) =
    (Some (bs "Look:", None), ToolCalls [read_glm_call orders tc] raw)) /\
  tc_arguments (read_glm_call orders tc) = bs "{" ++ [34] ++ bs "n" ++ [34] ++ bs ": " ++ [34] ++ bs "5" ++ [34] ++ bs ", " ++ [34] ++ bs "path" ++ [34] ++ bs ": " ++ [34] ++ bs "a</arg_value></tool_call>" ++ [34] ++ bs "}".
Proof.
  intros orders tc. split; [|vm_compute; reflexivity].
  assert (Hok : Forall (glm_call_ok orders) [tc]).
  { constructor; [|constructor]. split; [discriminate|]. split; [apply (bool_decide_unpack _); vm_compute; exact I|]. split; [split; reflexivity|].
    assert (Hargs : glm_args orders tc = [JsonArg (bs "n") (bs "5") false; JsonArg (bs "path") (bs "a</arg_value></tool_call>") true]) by (vm_compute; reflexivity). rewrite Hargs.
    constructor; [|constructor; [|constructor]]; split; reflexivity. }
  exact (glm_calls_roundtrip orders (bs "Look:" ++ [10]) (bs "<|user|>") [tc] ltac:(discriminate) eq_refl Hok eq_refl).
Defined.

(** A parameter whose name ends in [string=] is read with the wrong type: its
    text value becomes the first JSON value in it. *)
Example name_ending_in_string_misread :
  let tc := ToolCall (bs "run") (bs "{" ++ [34] ++ bs "string=" ++ [34] ++ bs ":" ++ [34] ++ bs "10 20" ++ [34] ++ bs "}") in
  tcs_v (snd (parse_deepseek_generated_message_ex (append_dsml_tool_calls_text [] (ToolCalls [tc] [])) false (ToolCalls [] []))) =
    [ToolCall (bs "run") (bs "{" ++ [34] ++ bs "string=" ++ [34] ++ bs ": 10}")].
Proof. vm_compute. reflexivity. Qed.
