(* ===== verification/ToolMap.v ===== *)
(** * The tool-call map of a checkpoint file (ds4_server.c)

    Next to a KV checkpoint the server saves the tool-call bindings whose sampled
    text occurs in the cached text, so that a later process can replay them.
    Measuring, writing and loading the map; the bytes that are read may be any.
    A file write that fails is not modelled. *)

From S2P Require Import Prelude KvHeader LiveState ToolMemory ToolCalls.
#[local] Open Scope Z_scope.
#[local] Open Scope stdpp_scope.

Definition block_forms : list (bytes * bytes) :=
  [([10; 10] ++ DS4_TOOL_CALLS_START, DS4_TOOL_CALLS_END); (DS4_TOOL_CALLS_START, DS4_TOOL_CALLS_END);
   ([10; 10] ++ DS4_TOOL_CALLS_START_SHORT, DS4_TOOL_CALLS_END_SHORT); (DS4_TOOL_CALLS_START_SHORT, DS4_TOOL_CALLS_END_SHORT);
   ([10; 10] ++ bs "<tool_calls>", bs "</tool_calls>"); (bs "<tool_calls>", bs "</tool_calls>")].

(** The forms in order; [best] is the start and the end so far. *)
Fixpoint forms_loop (forms : list (bytes * bytes)) (p : bytes) (best : option (nat * nat)) : option (nat * nat) :=
  match forms with
  | [] => best
  | (start, end_) :: forms' =>
      match strstr start p with
      | None => forms_loop forms' p best
      | Some s =>
          if match best with Some (b, _) => (b <=? s)%nat | None => false end then forms_loop forms' p best
          else
            match strstr end_ (drop s p) with
            | None => forms_loop forms' p best
            | Some e => forms_loop forms' p (Some (s, s + e + length end_)%nat)
            end
      end
  end.

Definition find_next_dsml_tool_block (p : bytes) : option (nat * nat) := forms_loop block_forms p None.

(** The blocks of a text, from left to right. *)
Fixpoint blocks_loop (fuel : nat) (p : bytes) : list bytes :=
  match fuel with
  | O => []
  | S fuel' =>
      match find_next_dsml_tool_block p with
      | None => []
      | Some (s, e) => take (e - s) (drop s p) :: blocks_loop fuel' (drop e p)
      end
  end.

(** Every round gets past an end tag. *)
Definition tool_blocks (text : bytes) : list bytes := blocks_loop (S (length text)) text.

(** The memory's blocks among them, each at its first occurrence; [seen] are the
    blocks whose [seen] field is this scan's. *)
Fixpoint visit (m : tool_memory) (texts : list bytes) (seen : list nat) : list nat :=
  match texts with
  | [] => []
  | d :: texts' =>
      match tool_memory_find_block_locked m d with
      | Some b => if bool_decide (b ∈ seen) then visit m texts' seen else b :: visit m texts' (b :: seen)
      | None => visit m texts' seen
      end
  end.

(** The users of a block along [block_next]. *)
Fixpoint walk (fuel : nat) (h : heap) (p : ptr) : option (list tool_memory_entry) :=
  match p with
  | None => Some []
  | Some a =>
      match fuel with
      | O => None
      | S fuel' => e ← h !! a; es ← walk fuel' h (e_block_next e); Some (e :: es)
      end
  end.

Definition block_users (m : tool_memory) (bl : tool_memory_block) : option (list tool_memory_entry) :=
  walk (size (tm_e m)) (tm_e m) (b_entries bl).

(** The map's bindings: an id and a text each. *)
Fixpoint bindings (m : tool_memory) (blocks : list nat) : option (list (bytes * bytes)) :=
  match blocks with
  | [] => Some []
  | b :: blocks' =>
      bl ← tm_b m !! b; es ← block_users m bl; rest ← bindings m blocks';
      Some (map (fun e => (e_id e, b_dsml bl)) es ++ rest)
  end.

Definition KV_TOOL_MAP_HEADER : Z := 8.
Definition KV_TOOL_MAP_MAGIC0 : Z := 75.
Definition KV_TOOL_MAP_MAGIC1 : Z := 84.
Definition KV_TOOL_MAP_MAGIC2 : Z := 77.
Definition KV_TOOL_MAP_VERSION : Z := 1.

(** One binding is counted, or skipped, or overflows a counter. *)
Definition measure_binding (b : bytes * bytes) (count bytes_ : Z) : option (Z * Z) :=
  let id_len := zlen (fst b) in
  let dsml_len := zlen (snd b) in
  if (U32_MAX <? id_len) || (U32_MAX <? dsml_len) then Some (count, bytes_)
  else if count =? U32_MAX then None
  else if (U64_MAX - bytes_ <? 8) || (U64_MAX - bytes_ - 8 <? id_len) || (U64_MAX - bytes_ - 8 - id_len <? dsml_len) then None
  else Some (count + 1, bytes_ + (8 + id_len + dsml_len)).

Fixpoint measure_loop (bs_ : list (bytes * bytes)) (count bytes_ : Z) : option (Z * Z) :=
  match bs_ with
  | [] => Some (count, bytes_)
  | b :: bs' => '(count, bytes_) ← measure_binding b count bytes_; measure_loop bs' count bytes_
  end.

Definition kv_tool_map_measure_locked (m : tool_memory) (text : bytes) : option (Z * Z) :=
  bs_ ← bindings m (visit m (tool_blocks text) []);
  '(count, bytes_) ← measure_loop bs_ 0 KV_TOOL_MAP_HEADER;
  Some (count, if count =? 0 then 0 else bytes_).

Definition kv_tool_map_serialized_size (disabled : bool) (m : tool_memory) (text : bytes) : option Z :=
  if disabled || (length text =? 0)%nat then Some 0
  else '(_, bytes_) ← kv_tool_map_measure_locked m text; Some bytes_.

Definition write_binding (b : bytes * bytes) : bytes :=
  if (U32_MAX <? zlen (fst b)) || (U32_MAX <? zlen (snd b)) then []
  else le_put32 4 (zlen (snd b)) (le_put32 0 (zlen (fst b)) (repeat 0 8)) ++ fst b ++ snd b.

(** What is appended to the file, and the number of bytes. *)
Definition kv_tool_map_write (disabled : bool) (m : tool_memory) (text : bytes) : option (bytes * Z) :=
  if disabled || (length text =? 0)%nat then Some ([], 0)
  else
    '(count, bytes_) ← kv_tool_map_measure_locked m text;
    if count =? 0 then Some ([], 0)
    else
      bs_ ← bindings m (visit m (tool_blocks text) []);
      let h := [KV_TOOL_MAP_MAGIC0; KV_TOOL_MAP_MAGIC1; KV_TOOL_MAP_MAGIC2; KV_TOOL_MAP_VERSION; 0; 0; 0; 0] in
      Some (le_put32 4 count h ++ concat (map write_binding bs_), bytes_).

(** ** Loading *)

(** [fread] of [n] bytes: what is there, and whether it is all. *)
Definition fread (n : nat) (fp : bytes) : bytes * bytes := (take n fp, drop n fp).

Definition wants (wanted : option (list bytes)) (id : bytes) : bool :=
  match wanted with None => true | Some ids => id_list_contains ids id end.

(** [wanted = None] loads every binding. The result is the memory and the number
    of bindings loaded. *)
Fixpoint load_loop (fuel : nat) (m : tool_memory) (wanted : option (list bytes)) (fp : bytes) (loaded : Z) : option (tool_memory * Z) :=
  match fuel with
  | O => Some (m, loaded)
  | S fuel' =>
      let '(lens, fp) := fread 8 fp in
      if negb (length lens =? 8)%nat then Some (m, loaded)
      else
        let id_len := le_get32 lens 0 in
        let dsml_len := le_get32 lens 4 in
        if (id_len =? 0) || (256 <? id_len) || (dsml_len =? 0) || (DS4_TOOL_MEMORY_MAX_BYTES <? dsml_len) then Some (m, loaded)
        else
          let '(id, fp) := fread (Z.to_nat id_len) fp in
          let '(dsml, fp) := fread (Z.to_nat dsml_len) fp in
          let ok := (zlen id =? id_len) && (zlen dsml =? dsml_len) in
          if negb ok then Some (m, loaded)
          else if wants wanted (c_string id) then
            m ← tool_memory_put_locked m (c_string id) (c_string dsml) TOOL_MEMORY_DISK;
            load_loop fuel' m wanted fp (loaded + 1)
          else load_loop fuel' m wanted fp loaded
  end.

Definition kv_tool_map_load_from_pos (disabled : bool) (m : tool_memory) (fp : bytes) (wanted : option (list bytes)) : option (tool_memory * Z) :=
  if disabled then Some (m, 0)
  else
    let '(h, fp) := fread 8 fp in
    if negb (length h =? 8)%nat then Some (m, 0)
    else if negb (cget h 0 =? KV_TOOL_MAP_MAGIC0) || negb (cget h 1 =? KV_TOOL_MAP_MAGIC1) ||
            negb (cget h 2 =? KV_TOOL_MAP_MAGIC2) || negb (cget h 3 =? KV_TOOL_MAP_VERSION) then Some (m, 0)
    else
      let count := le_get32 h 4 in
      if tool_memory_max_entries m * 4 <? count then Some (m, 0)
      else load_loop (Z.to_nat count) m wanted fp 0.

(** ** Blocks of a text *)

Lemma forms_loop_bound forms p : (forall f, f ∈ forms -> (0 < length (snd f))%nat) -> forall best s e,
  (forall s e, best = Some (s, e) -> (s < e <= length p)%nat) -> forms_loop forms p best = Some (s, e) -> (s < e <= length p)%nat.
Proof.
  induction forms as [|[st en] forms IH]; intros Hf best s e Hb; cbn [forms_loop]; [apply Hb|].
  assert (Hf' : forall f, f ∈ forms -> (0 < length (snd f))%nat) by (intros f Hin; apply Hf; by right).
  destruct (strstr st p) as [i|] eqn:Es; [|by apply IH]. destruct best as [[b be]|].
  - destruct (b <=? i)%nat; [by apply IH|]. destruct (strstr en (drop i p)) as [j|] eqn:Ee; [|by apply IH]. apply IH; [done|].
    intros s' e' [= <- <-]. apply strstr_bound in Ee. rewrite length_drop in Ee. pose proof (Hf (st, en) (list_elem_of_here _ _)). cbn in *. lia.
  - destruct (strstr en (drop i p)) as [j|] eqn:Ee; [|by apply IH]. apply IH; [done|].
    intros s' e' [= <- <-]. apply strstr_bound in Ee. rewrite length_drop in Ee. pose proof (Hf (st, en) (list_elem_of_here _ _)). cbn in *. lia.
Qed.

Lemma find_next_bound p s e : find_next_dsml_tool_block p = Some (s, e) -> (s < e <= length p)%nat.
Proof.
  apply forms_loop_bound; [|done]. intros f Hf. assert (H : Forall (fun f => (0 < length (snd f))%nat) block_forms) by (repeat constructor; cbn; lia).
  rewrite Forall_forall in H. by apply H.
Qed.

Lemma blocks_loop_fuel fuel : forall fuel' p, (length p < fuel)%nat -> (length p < fuel')%nat -> blocks_loop fuel p = blocks_loop fuel' p.
Proof.
  induction fuel as [|fuel IH]; intros [|fuel'] p H1 H2; try lia. cbn [blocks_loop].
  destruct (find_next_dsml_tool_block p) as [[s e]|] eqn:E; [|done]. apply find_next_bound in E. f_equal. apply IH; rewrite length_drop; lia.
Qed.

(** The fuel is enough: the loop goes on until no block is left. *)
Lemma tool_blocks_eq p : tool_blocks p =
  match find_next_dsml_tool_block p with
  | None => []
  | Some (s, e) => take (e - s) (drop s p) :: tool_blocks (drop e p)
  end.
Proof.
  unfold tool_blocks at 1. cbn [blocks_loop]. destruct (find_next_dsml_tool_block p) as [[s e]|] eqn:E; [|done].
  apply find_next_bound in E. f_equal. apply blocks_loop_fuel; rewrite length_drop; lia.
Qed.

Lemma tool_blocks_nonempty fuel : forall p d, d ∈ blocks_loop fuel p -> d <> [].
Proof.
  induction fuel as [|fuel IH]; intros p d; cbn [blocks_loop]; [by intros ?%elem_of_nil|].
  destruct (find_next_dsml_tool_block p) as [[s e]|] eqn:E; [|by intros ?%elem_of_nil].
  apply find_next_bound in E. intros [->|Hd]%elem_of_cons; [|by eapply IH]. intros Hn. apply (f_equal length) in Hn.
  rewrite length_take, length_drop in Hn. cbn in Hn. lia.
Qed.

(** ** The bindings of a map *)

Lemma visit_ok m texts : (forall d, d ∈ texts -> d <> []) -> forall seen, NoDup (visit m texts seen) /\
  forall b, b ∈ visit m texts seen <-> (b ∉ seen) /\ exists d, d ∈ texts /\ tm_by_block m !! d = Some b.
Proof.
  induction texts as [|d texts IH]; intros Hne seen; cbn [visit].
  { split; [constructor|]. intros b. split; [by intros ?%elem_of_nil | intros (_ & d & ?%elem_of_nil & _); done]. }
  assert (Hne' : forall d', d' ∈ texts -> d' <> []) by (intros d' Hd'; apply Hne; by right).
  replace (tool_memory_find_block_locked m d) with (tm_by_block m !! d) by (destruct d; [by destruct (Hne [] (list_elem_of_here _ _)) | done]).
  destruct (tm_by_block m !! d) as [b|] eqn:Eb.
  - case_bool_decide as Hin.
    + destruct (IH Hne' seen) as [Hn Hiff]. split; [done|]. intros c. rewrite Hiff. split.
      * intros (Hc & d' & Hd' & Hk). split; [done|]. exists d'. split; [by right | done].
      * intros (Hc & d' & [->|Hd']%elem_of_cons & Hk); [congruence|]. split; [done|]. by exists d'.
    + destruct (IH Hne' (b :: seen)) as [Hn Hiff]. split.
      * constructor; [|done]. rewrite Hiff. intros [H _]. apply H, list_elem_of_here.
      * intros c. rewrite elem_of_cons, Hiff, not_elem_of_cons. split.
        -- intros [->|((Hcb & Hc) & d' & Hd' & Hk)]; [split; [done|]; exists d; split; [by left | done]|].
           split; [done|]. exists d'. split; [by right | done].
        -- intros (Hc & d' & [->|Hd']%elem_of_cons & Hk); [left; congruence|]. destruct (decide (c = b)) as [->|]; [by left|].
           right. split; [done|]. by exists d'.
  - destruct (IH Hne' seen) as [Hn Hiff]. split; [done|]. intros c. rewrite Hiff. split.
    + intros (Hc & d' & Hd' & Hk). split; [done|]. exists d'. split; [by right | done].
    + intros (Hc & d' & [->|Hd']%elem_of_cons & Hk); [congruence|]. split; [done|]. by exists d'.
Qed.

Lemma walk_ok h us : forall fuel, (length us <= fuel)%nat -> cseg h us None ->
  exists es, walk fuel h (head_or us None) = Some es /\ Forall2 (fun a e => h !! a = Some e) us es.
Proof.
  induction us as [|a us IH]; intros fuel Hf Hs; [exists []; by destruct fuel|]. destruct fuel as [|fuel]; [cbn in Hf; lia|].
  destruct Hs as (e & He & Hn & Hs). cbn [head_or walk]. rewrite He. cbn [mbind option_bind]. rewrite Hn.
  destruct (IH fuel ltac:(cbn in Hf; lia) Hs) as (es & -> & Hes). exists (e :: es). split; [done|]. by constructor.
Qed.

(** Id [id] is bound to text [d]. *)
Definition bound (m : tool_memory) (id d : bytes) : Prop :=
  exists a e bl, tm_e m !! a = Some e /\ e_id e = id /\ tm_b m !! e_block e = Some bl /\ b_dsml bl = d.

Lemma bound_find m l id d : wf m l -> bound m id d <-> exists s, spec_find id (items m l) = Some (id, d, s).
Proof.
  intros Hw. split.
  - intros (a & e & bl & He & Hid & Hbl & Hd).
    assert (Hk : tm_by_id m !! id = Some a) by (apply (ct_ids _ _ _ (wf_content _ _ Hw)); by exists e).
    destruct (find_ok m l id a Hw Hk) as (l1 & l2 & i & _ & Hi & Hii & -> & _). exists (it_source i).
    destruct (item_bl m a i e bl Hi He Hbl) as [Ht _]. rewrite <- Hd, <- Ht, <- Hii. by destruct i as [[i1 i2] i3].
  - intros [s Hs]. destruct (tm_by_id m !! id) as [a|] eqn:Ea; [|destruct (find_none m l id Hw Ea); congruence].
    destruct (find_ok m l id a Hw Ea) as (l1 & l2 & i & _ & Hi & Hii & Hf & _). rewrite Hs in Hf. injection Hf as <-.
    destruct (item_of_inv m a _ Hi) as (e & bl & He & Hbl & H1 & H2 & _). by exists a, e, bl.
Qed.

Lemma bindings_ok m l blocks : wf m l -> NoDup blocks -> (forall b, b ∈ blocks -> is_Some (tm_b m !! b)) ->
  exists bs_, bindings m blocks = Some bs_ /\ NoDup (map fst bs_) /\
    forall id d, (id, d) ∈ bs_ <-> exists a e bl, tm_e m !! a = Some e /\ e_id e = id /\ e_block e ∈ blocks /\ tm_b m !! e_block e = Some bl /\ b_dsml bl = d.
Proof.
  intros Hw. pose proof (wf_content _ _ Hw) as Hc.
  assert (Huniq : forall a a' e e', tm_e m !! a = Some e -> tm_e m !! a' = Some e' -> e_id e = e_id e' -> a = a').
  { intros a a' e e' H1 H2 Heq. assert (tm_by_id m !! e_id e = Some a) by (apply (ct_ids _ _ _ Hc); by exists e).
    assert (tm_by_id m !! e_id e' = Some a') by (apply (ct_ids _ _ _ Hc); by exists e'). congruence. }
  induction blocks as [|b blocks IH]; intros Hn Hb; cbn [bindings].
  { exists []. split; [done|]. split; [constructor|]. intros id d. split; [by intros ?%elem_of_nil | intros (? & ? & ? & _ & _ & ?%elem_of_nil & _); done]. }
  apply NoDup_cons in Hn as [Hnb Hn]. destruct (Hb b (list_elem_of_here _ _)) as [bl Hbl]. rewrite Hbl. cbn [mbind option_bind].
  destruct (ct_users _ _ _ Hc b bl Hbl) as (us & [Hus Hh Hs Hi Hr] & _). unfold block_users. rewrite Hh.
  destruct (walk_ok (tm_e m) us (size (tm_e m))) as (es & -> & Hes); [|done|].
  { apply nodup_size; [done|]. intros a (e & He & _)%Hi. by rewrite He. }
  cbn [mbind option_bind]. destruct IH as (bs_ & -> & Hnd & Hbs); [done | intros c Hcb; apply Hb; by right|]. cbn [mbind option_bind].
  assert (Hes' : forall e, e ∈ es <-> exists a, tm_e m !! a = Some e /\ e_block e = b).
  { intros e. split.
    - intros He. apply list_elem_of_lookup in He as [k Hk]. destruct (Forall2_lookup_r _ _ _ _ _ Hes Hk) as (a & Ha & Hae).
      exists a. split; [done|]. apply list_elem_of_lookup_2, Hi in Ha as (e' & He' & Hb'). congruence.
    - intros (a & Ha & Hb'). assert (Hin : a ∈ us) by (apply Hi; by exists e). apply list_elem_of_lookup in Hin as [k Hk].
      destruct (Forall2_lookup_l _ _ _ _ _ Hes Hk) as (e' & He' & Hae). assert (e' = e) as -> by congruence. by eapply list_elem_of_lookup_2. }
  eexists. split; [done|]. split.
  - rewrite map_app, map_map. cbn [fst]. apply NoDup_app. split_and!; [|  |done].
    + clear - Hes Hus Huniq. induction Hes as [|a e us es Ha Hes IH]; cbn; [constructor|]. apply NoDup_cons in Hus as [Hna Hus].
      constructor; [|by apply IH]. intros (e' & Heq & He')%list_elem_of_fmap. apply list_elem_of_lookup in He' as [k Hk].
      destruct (Forall2_lookup_r _ _ _ _ _ Hes Hk) as (a' & Ha' & Hae'). apply Hna. rewrite (Huniq a a' e e' Ha Hae' Heq). by eapply list_elem_of_lookup_2.
    + intros id (e & -> & He)%list_elem_of_fmap ([id' d] & Hid & Hin)%list_elem_of_fmap. cbn in Hid. subst id'.
      apply Hes' in He as (a & Ha & Hab). apply Hbs in Hin as (a' & e' & bl' & Ha' & Hid' & Hbb & _).
      assert (a = a') as -> by (by apply (Huniq a a' e e')). congruence.
  - intros id d. rewrite elem_of_app, Hbs. split.
    + intros [(e & [= -> ->] & He)%list_elem_of_fmap|(a & e & bl' & Ha & Hid & Hbb & H)].
      * apply Hes' in He as (a & Ha & <-). exists a, e, bl. split_and!; try done. apply list_elem_of_here.
      * exists a, e, bl'. split_and!; try done; [by right | apply H..].
    + intros (a & e & bl' & Ha & <- & [Hbb|Hbb]%elem_of_cons & Hbl' & <-).
      * left. apply list_elem_of_fmap. exists e. rewrite Hbb in Hbl'. assert (bl' = bl) as -> by congruence. split; [done|]. apply Hes'. by exists a.
      * right. by exists a, e, bl'.
Qed.

(** The bindings that are saved with [text]: exactly those to its blocks, each once. *)
Lemma map_bindings_ok m l text : wf m l -> exists bs_, bindings m (visit m (tool_blocks text) []) = Some bs_ /\
  NoDup (map fst bs_) /\ forall id d, (id, d) ∈ bs_ <-> bound m id d /\ d ∈ tool_blocks text.
Proof.
  intros Hw. pose proof (wf_content _ _ Hw) as Hc. destruct (visit_ok m (tool_blocks text)) with (seen := @nil nat) as [Hn Hv]; [apply tool_blocks_nonempty|].
  destruct (bindings_ok m l (visit m (tool_blocks text) []) Hw Hn) as (bs_ & E & Hnd & Hbs).
  { intros b (_ & d & _ & (bl & Hbl & _)%(ct_blocks _ _ _ Hc))%Hv. by rewrite Hbl. }
  exists bs_. split; [done|]. split; [done|]. intros id d. rewrite Hbs. split.
  - intros (a & e & bl & Ha & Hid & (_ & d' & Hd' & Hk)%Hv & Hbl & Hd). split; [by exists a, e, bl|].
    apply (ct_blocks _ _ _ Hc) in Hk as (bl' & Hbl' & <-). congruence.
  - intros [(a & e & bl & Ha & Hid & Hbl & Hd) Hin]. exists a, e, bl. split_and!; try done. apply Hv. split; [by intros ?%elem_of_nil|].
    exists d. split; [done|]. apply (ct_blocks _ _ _ Hc). by exists bl.
Qed.

(** ** The bytes of a map *)

Definition measured (b : bytes * bytes) : bool := negb ((U32_MAX <? zlen (fst b)) || (U32_MAX <? zlen (snd b))).

Lemma write_binding_eq b : measured b = true ->
  write_binding b = le_bytes 4 (zlen (fst b)) ++ le_bytes 4 (zlen (snd b)) ++ fst b ++ snd b.
Proof.
  unfold measured, write_binding. intros ->%negb_true_iff. by rewrite !le_put32_eq.
Qed.

Lemma write_binding_len b : zlen (write_binding b) = if measured b then 8 + zlen (fst b) + zlen (snd b) else 0.
Proof.
  destruct (measured b) eqn:E.
  - rewrite write_binding_eq, !zlen_app by done. change (zlen (le_bytes 4 _)) with 4 at 1. change (zlen (le_bytes 4 _)) with 4. lia.
  - unfold measured in E. apply negb_false_iff in E. unfold write_binding. by rewrite E.
Qed.

(** Measuring adds up what writing writes. *)
Lemma measure_loop_ok bs_ : forall c n c' n', measure_loop bs_ c n = Some (c', n') ->
  c' = c + zlen (List.filter measured bs_) /\ n' = n + zlen (concat (map write_binding bs_)) /\ (c <= U32_MAX -> c' <= U32_MAX) /\ (n <= U64_MAX -> n' <= U64_MAX).
Proof.
  induction bs_ as [|b bs_ IH]; intros c n c' n'; cbn [measure_loop map concat List.filter].
  { intros [= <- <-]. change (zlen (@nil (bytes * bytes))) with 0. change (zlen (@nil Z)) with 0. lia. }
  rewrite zlen_app, write_binding_len. unfold measure_binding. pose proof (zlen_nonneg (fst b)). pose proof (zlen_nonneg (snd b)).
  fold (negb ((U32_MAX <? zlen (fst b)) || (U32_MAX <? zlen (snd b)))).
  destruct ((U32_MAX <? zlen (fst b)) || (U32_MAX <? zlen (snd b))) eqn:E; cbn [mbind option_bind].
  - assert (measured b = false) as -> by (unfold measured; by rewrite E). apply IH.
  - assert (measured b = true) as -> by (unfold measured; by rewrite E). destruct (c =? U32_MAX) eqn:Ec; [done|].
    destruct ((_ <? 8) || _ || _) eqn:Eo; [done|]. cbn [mbind option_bind]. intros (-> & -> & H1 & H2)%IH.
    rewrite !orb_false_iff, !Z.ltb_ge in Eo. apply Z.eqb_neq in Ec. unfold zlen in *. cbn [length]. lia.
Qed.

(** ** Loading what was written *)

Lemma get_lens a b : is_u32 a -> is_u32 b ->
  le_get32 (le_bytes 4 a ++ le_bytes 4 b) 0 = a /\ le_get32 (le_bytes 4 a ++ le_bytes 4 b) 4 = b.
Proof.
  intros Ha Hb. split; (rewrite le_get32_val by (cbn; lia)).
  - change (take 4 (drop 0 (le_bytes 4 a ++ le_bytes 4 b))) with (le_bytes 4 a). by apply le_val_bytes4.
  - change (take 4 (drop 4 (le_bytes 4 a ++ le_bytes 4 b))) with (le_bytes 4 b). by apply le_val_bytes4.
Qed.

Lemma fread_app a b : fread (length a) (a ++ b) = (a, b).
Proof. unfold fread. by rewrite take_app_length, drop_app_length. Qed.

Lemma fread_app_Z a b : fread (Z.to_nat (zlen a)) (a ++ b) = (a, b).
Proof. unfold zlen. rewrite Nat2Z.id. apply fread_app. Qed.

(** A binding the loader accepts. *)
Definition loadable (b : bytes * bytes) : Prop :=
  fst b <> [] /\ (0 ∉ fst b) /\ zlen (fst b) <= 256 /\ snd b <> [] /\ (0 ∉ snd b) /\ zlen (snd b) <= DS4_TOOL_MEMORY_MAX_BYTES.

Lemma loadable_measured b : loadable b -> measured b = true.
Proof.
  intros (_ & _ & H1 & _ & _ & H2). apply negb_true_iff, orb_false_iff. rewrite !Z.ltb_ge. unfold U32_MAX. change DS4_TOOL_MEMORY_MAX_BYTES with 536870912 in H2. lia.
Qed.

(** The puts of a load, on the list of items. *)
Definition spec_load (max_entries max_bytes : Z) (bs_ : list (bytes * bytes)) (l : list item) : list item :=
  fold_left (fun l b => spec_put max_entries max_bytes (fst b) (snd b) TOOL_MEMORY_DISK l) bs_ l.

Lemma load_loop_ok wanted rest bs_ : Forall loadable bs_ -> forall m l loaded, wf m l ->
  exists m' l', load_loop (length bs_) m wanted (concat (map write_binding bs_) ++ rest) loaded =
    Some (m', loaded + zlen (List.filter (fun b => wants wanted (fst b)) bs_)) /\ wf m' l' /\ limits_kept m m' /\
    items m' l' = spec_load (tool_memory_max_entries m) (tool_memory_max_bytes m) (List.filter (fun b => wants wanted (fst b)) bs_) (items m l).
Proof.
  induction bs_ as [|[id d] bs_ IH]; intros Hb m l loaded Hw.
  { exists m, l. cbn. change (zlen (@nil (bytes * bytes))) with 0. rewrite Z.add_0_r. done. }
  apply Forall_cons in Hb as [Hb1 Hb]. pose proof (loadable_measured _ Hb1) as Hm. destruct Hb1 as (Hid & Hid0 & Hid1 & Hd & Hd0 & Hd1).
  cbn [fst snd length map concat load_loop] in *. rewrite write_binding_eq by done. cbn [fst snd]. rewrite <- !app_assoc.
  rewrite (app_assoc (le_bytes 4 (zlen id)) (le_bytes 4 (zlen d))).
  assert (Hu1 : is_u32 (zlen id)) by (unfold is_u32, U32_MAX; pose proof (zlen_nonneg id); lia).
  assert (Hu2 : is_u32 (zlen d)) by (unfold is_u32, U32_MAX; pose proof (zlen_nonneg d); change DS4_TOOL_MEMORY_MAX_BYTES with 536870912 in Hd1; lia).
  destruct (get_lens _ _ Hu1 Hu2) as [G1 G2]. set (lens := le_bytes 4 (zlen id) ++ le_bytes 4 (zlen d)) in *.
  change 8%nat with (length lens) at 1. rewrite fread_app. cbn [length]. change (length lens =? 8)%nat with true. cbn [negb]. rewrite G1, G2.
  assert (zlen id <> 0) by (destruct id; [done | unfold zlen; cbn; lia]). assert (zlen d <> 0) by (destruct d; [done | unfold zlen; cbn; lia]).
  rewrite (proj2 (Z.eqb_neq (zlen id) 0)), (proj2 (Z.ltb_ge 256 (zlen id))), (proj2 (Z.eqb_neq (zlen d) 0)), (proj2 (Z.ltb_ge _ (zlen d))) by done.
  cbn [orb]. rewrite fread_app_Z. rewrite fread_app_Z. rewrite !Z.eqb_refl. cbn [andb negb List.filter fst]. rewrite !c_string_id by done.
  destruct (wants wanted id); [|by apply IH].
  destruct (put_ok m l id d TOOL_MEMORY_DISK Hw) as (m1 & l1 & -> & Hw1 & Hi1 & Hk1). cbn [mbind option_bind].
  destruct (IH Hb m1 l1 (loaded + 1) Hw1) as (m' & l' & -> & Hw' & Hk' & Hi'). exists m', l'. split_and!; [|done| |].
  - do 2 f_equal. unfold zlen. cbn [length]. lia.
  - destruct Hk1, Hk'. split; congruence.
  - rewrite Hi', Hi1. destruct (limits_eq _ _ Hk1) as [-> ->]. done.
Qed.

(** ** Loading any bytes *)

Lemma limits_trans m1 m2 m3 : limits_kept m1 m2 -> limits_kept m2 m3 -> limits_kept m1 m3.
Proof. intros [H1 H2] [H3 H4]. split; congruence. Qed.

Lemma load_loop_total fuel : forall m l wanted fp loaded, wf m l -> within_limits m ->
  exists m' l' k, load_loop fuel m wanted fp loaded = Some (m', k) /\ wf m' l' /\ within_limits m' /\ limits_kept m m' /\
    loaded <= k <= loaded + Z.of_nat fuel.
Proof.
  induction fuel as [|fuel IH]; intros m l wanted fp loaded Hw Hlim.
  { exists m, l, loaded. split_and!; try done; lia. }
  assert (Hstop : exists m' l' k, Some (m, loaded) = Some (m', k) /\ wf m' l' /\ within_limits m' /\ limits_kept m m' /\
    loaded <= k <= loaded + Z.of_nat (S fuel)) by (exists m, l, loaded; split_and!; try done; lia).
  cbn [load_loop]. destruct (fread 8 fp) as [lens fp1]. destruct (negb _); [done|]. destruct (_ || _ || _ || _); [done|].
  destruct (fread _ fp1) as [id fp2]. destruct (fread _ fp2) as [d fp3]. destruct (negb _); [done|]. destruct (wants wanted (c_string id)).
  - destruct (do_op_ok m l (Put (c_string id) (c_string d) TOOL_MEMORY_DISK) Hw) as (m1 & l1 & r & E & Hw1 & Hk1 & _ & Hl1).
    cbn [do_op] in E. destruct (tool_memory_put_locked m _ _ _) as [m1'|]; [|done]. injection E as <- <-. cbn [mbind option_bind].
    destruct (IH m1' l1 wanted fp3 (loaded + 1) Hw1 (Hl1 Hlim)) as (m' & l' & k & -> & Hw' & Hlim' & Hk' & Hr).
    exists m', l', k. do 3 (split; [done|]). split; [by eapply limits_trans | lia].
  - destruct (IH m l wanted fp3 loaded Hw Hlim) as (m' & l' & k & -> & Hw' & Hlim' & Hk' & Hr).
    exists m', l', k. do 4 (split; [done|]). lia.
Qed.

Lemma load_total m l disabled wanted fp : wf m l -> within_limits m ->
  exists m' l' k, kv_tool_map_load_from_pos disabled m fp wanted = Some (m', k) /\ wf m' l' /\ within_limits m' /\ limits_kept m m' /\
    0 <= k <= tool_memory_max_entries m * 4.
Proof.
  intros Hw Hlim. destruct (max_pos m) as [Hpos _].
  assert (Hstop : exists m' l' k, Some (m, 0) = Some (m', k) /\ wf m' l' /\ within_limits m' /\ limits_kept m m' /\ 0 <= k <= tool_memory_max_entries m * 4)
    by (exists m, l, 0; split_and!; try done; lia).
  unfold kv_tool_map_load_from_pos. destruct disabled; [done|]. destruct (fread 8 fp) as [h fp']. destruct (negb _); [done|].
  destruct (_ || _ || _ || _); [done|]. destruct (_ <? le_get32 h 4) eqn:E; [done|]. apply Z.ltb_ge in E.
  destruct (load_loop_total (Z.to_nat (le_get32 h 4)) m l wanted fp' 0 Hw Hlim) as (m' & l' & k & H1 & H2 & H3 & H4 & H5).
  exists m', l', k. do 4 (split; [done|]). lia.
Qed.

(** ** Writing and loading *)

Lemma measure_inv m text bs_ count n : bindings m (visit m (tool_blocks text) []) = Some bs_ -> kv_tool_map_measure_locked m text = Some (count, n) ->
  count = zlen (List.filter measured bs_) /\ count <= U32_MAX /\
  n = if count =? 0 then 0 else KV_TOOL_MAP_HEADER + zlen (concat (map write_binding bs_)).
Proof.
  intros Hb. unfold kv_tool_map_measure_locked. rewrite Hb. cbn [mbind option_bind].
  destruct (measure_loop bs_ 0 KV_TOOL_MAP_HEADER) as [[c k]|] eqn:E; [|done]. cbn [mbind option_bind]. intros [= <- <-].
  destruct (measure_loop_ok _ _ _ _ _ E) as (-> & -> & H & _). split; [lia|]. split; [apply H; unfold U32_MAX; lia|]. done.
Qed.

Lemma write_map m bs_ text out n : bindings m (visit m (tool_blocks text) []) = Some bs_ -> kv_tool_map_write false m text = Some (out, n) ->
  kv_tool_map_serialized_size false m text = Some n /\ zlen out = n /\
  ((out = [] /\ List.filter measured bs_ = []) \/
   (exists count, count = zlen (List.filter measured bs_) /\ 0 < count <= U32_MAX /\
      out = [KV_TOOL_MAP_MAGIC0; KV_TOOL_MAP_MAGIC1; KV_TOOL_MAP_MAGIC2; KV_TOOL_MAP_VERSION] ++ le_bytes 4 count ++ concat (map write_binding bs_))).
Proof.
  intros Hb. unfold kv_tool_map_write, kv_tool_map_serialized_size. cbn [orb]. destruct (length text =? 0)%nat eqn:El.
  { intros [= <- <-]. apply Nat.eqb_eq in El. destruct text; [|done]. split_and!; [done..|]. left. split; [done|].
    rewrite tool_blocks_eq in Hb. cbn in Hb. by injection Hb as <-. }
  destruct (kv_tool_map_measure_locked m text) as [[count k]|] eqn:E; [|done]. cbn [mbind option_bind].
  destruct (measure_inv _ _ _ _ _ Hb E) as (Hc & Hu & Hk). pose proof (zlen_nonneg (List.filter measured bs_)).
  destruct (count =? 0) eqn:E0.
  - intros [= <- <-]. apply Z.eqb_eq in E0. split_and!; [by rewrite Hk | done |]. left. split; [done|]. destruct (List.filter measured bs_); [done|].
    unfold zlen in *. cbn in *. lia.
  - apply Z.eqb_neq in E0. rewrite Hb. cbn [mbind option_bind]. rewrite le_put32_eq. intros [= <- <-]. split; [done|].
    split; [rewrite Hk; unfold zlen; cbn [length]; change KV_TOOL_MAP_HEADER with 8; lia|]. right. exists count. split; [done|]. split; [lia|]. done.
Qed.

Lemma bound_count m l bs_ : wf m l -> NoDup (map fst bs_) -> (forall id d, (id, d) ∈ bs_ -> bound m id d) -> zlen bs_ <= tm_entries m.
Proof.
  intros Hw Hn Hb. assert (Hs : map fst bs_ ⊆+ map it_id (items m l)).
  { apply NoDup_submseteq; [done|]. intros id ([id' d] & -> & (a & e & bl & He & Hid & Hbl & _)%Hb)%list_elem_of_fmap. cbn [fst].
    pose proof (wf_content _ _ Hw) as Hc. destruct (wf_item m l a Hw) as [i Hi]; [apply (ct_dom _ _ _ Hc); by rewrite He|].
    apply list_elem_of_fmap. exists i. split.
    - destruct (item_of_inv m a i Hi) as (e' & ? & He' & _ & Hii & _). congruence.
    - apply list_elem_of_omap. exists a. split; [|done]. apply (ct_dom _ _ _ Hc). by rewrite He. }
  apply submseteq_length in Hs. rewrite !length_map, (items_full m l Hw) in Hs. rewrite (ct_entries _ _ _ (wf_content _ _ Hw)). unfold zlen. lia.
Qed.

Lemma reached max_entries max_bytes ops m rs : run (tool_memory_init max_entries max_bytes) ops = Some (m, rs) ->
  exists l, wf m l /\ within_limits m.
Proof.
  intros Hrun. destruct (init_ok max_entries max_bytes) as [Hw _].
  destruct (run_ok ops _ [] Hw (init_limits _ _)) as (m' & l & rs' & H1 & Hwm & _ & _ & Hl). exists l. rewrite H1 in Hrun. by injection Hrun as <- _.
Qed.

Lemma filter_all {A} (f : A -> bool) l : (forall x, x ∈ l -> f x = true) -> List.filter f l = l.
Proof.
  induction l as [|x l IH]; [done|]. intros H. cbn. rewrite (H x (list_elem_of_here _ _)), IH; [done|]. intros y Hy. apply H. by right.
Qed.

Lemma load_written m l wanted bs_ out rest : wf m l -> Forall loadable bs_ -> zlen bs_ <= tool_memory_max_entries m * 4 -> (out = [] -> rest = []) ->
  (out = [] /\ bs_ = []) \/ (exists count, count = zlen bs_ /\ 0 < count <= U32_MAX /\
      out = [KV_TOOL_MAP_MAGIC0; KV_TOOL_MAP_MAGIC1; KV_TOOL_MAP_MAGIC2; KV_TOOL_MAP_VERSION] ++ le_bytes 4 count ++ concat (map write_binding bs_)) ->
  let asked := List.filter (fun b => wants wanted (fst b)) bs_ in
  exists m' l', kv_tool_map_load_from_pos false m (out ++ rest) wanted = Some (m', zlen asked) /\ wf m l /\ wf m' l' /\
    items m' l' = spec_load (tool_memory_max_entries m) (tool_memory_max_bytes m) asked (items m l).
Proof.
  intros Hw Hall Hcnt Hrest Hout asked. destruct Hout as [[-> Hbs]|(count & Hc & Hr & ->)].
  { specialize (Hrest eq_refl). subst rest asked bs_. by exists m, l. }
  unfold kv_tool_map_load_from_pos. set (h := [KV_TOOL_MAP_MAGIC0; KV_TOOL_MAP_MAGIC1; KV_TOOL_MAP_MAGIC2; KV_TOOL_MAP_VERSION] ++ le_bytes 4 count).
  rewrite (app_assoc _ (le_bytes 4 count)), <- app_assoc. fold h. change 8%nat with (length h) at 1. rewrite fread_app.
  change (negb (length h =? 8)%nat) with false. cbv iota. change (negb (cget h 0 =? _) || negb (cget h 1 =? _) || negb (cget h 2 =? _) || negb (cget h 3 =? _)) with false.
  cbv iota zeta. assert (le_get32 h 4 = count) as ->.
  { rewrite le_get32_val by (cbn; lia). change (take 4 (drop 4 h)) with (le_bytes 4 count). apply le_val_bytes4. unfold is_u32. lia. }
  rewrite (proj2 (Z.ltb_ge _ count)) by lia. replace (Z.to_nat count) with (length bs_) by (rewrite Hc; unfold zlen; lia).
  destruct (load_loop_ok wanted rest bs_ Hall m l 0 Hw) as (m' & l' & -> & Hw' & _ & Hi). exists m', l'. by split_and!.
Qed.

(** Writing the map for a text reports exactly the bytes it appends, and the
    size the checkpoint's budget reserves beforehand is that number, on any state
    of the tool memory. *)
Theorem tool_map_size_exact disabled max_entries max_bytes ops m rs text out n :
  run (tool_memory_init max_entries max_bytes) ops = Some (m, rs) -> kv_tool_map_write disabled m text = Some (out, n) ->
  zlen out = n /\ kv_tool_map_serialized_size disabled m text = Some n.
Proof.
  intros Hrun Hw. destruct disabled; [unfold kv_tool_map_write in Hw; cbn [orb] in Hw; by injection Hw as <- <-|].
  destruct (reached _ _ _ _ _ Hrun) as (l & Hwf & _). destruct (map_bindings_ok m l text Hwf) as (bs_ & Hb & _).
  by destruct (write_map _ _ _ _ _ Hb Hw) as (H1 & H2 & _).
Qed.

(** C27: A map written by one server and loaded by another restores exactly the
    saved bindings: those ids bound to a text that is a tool block of the cached
    text (and that the request wants), each put once as a disk entry, in file
    order, whatever follows the map in the file. *)
Theorem tool_map_roundtrip max_entries max_bytes ops m rs max_entries' max_bytes' ops' m' rs' text out n wanted rest :
  run (tool_memory_init max_entries max_bytes) ops = Some (m, rs) ->
  run (tool_memory_init max_entries' max_bytes') ops' = Some (m', rs') ->
  tool_memory_max_entries m <= 4 * tool_memory_max_entries m' ->
  (forall id d, bound m id d -> loadable (id, d)) ->
  kv_tool_map_write false m text = Some (out, n) -> (out = [] -> rest = []) ->
  exists saved l' m2 l2, NoDup (map fst saved) /\ (forall id d, (id, d) ∈ saved <-> bound m id d /\ d ∈ tool_blocks text) /\
    let asked := List.filter (fun b => wants wanted (fst b)) saved in
    kv_tool_map_load_from_pos false m' (out ++ rest) wanted = Some (m2, zlen asked) /\ wf m' l' /\ wf m2 l2 /\
    items m2 l2 = spec_load (tool_memory_max_entries m') (tool_memory_max_bytes m') asked (items m' l').
Proof.
  intros Hrun Hrun' Hmax Hld Hw Hrest. destruct (reached _ _ _ _ _ Hrun) as (l & Hwf & [Hlim _]). destruct (reached _ _ _ _ _ Hrun') as (l' & Hwf' & _).
  destruct (map_bindings_ok m l text Hwf) as (bs_ & Hb & Hn & Hiff). destruct (write_map _ _ _ _ _ Hb Hw) as (_ & _ & Hout).
  assert (Hbd : forall id d, (id, d) ∈ bs_ -> bound m id d) by (intros id d Hin; by apply Hiff).
  assert (Hall : Forall loadable bs_) by (apply Forall_forall; intros [id d] Hin; apply Hld, Hbd, Hin).
  rewrite (filter_all measured bs_) in Hout by (intros b Hin; rewrite Forall_forall in Hall; by apply loadable_measured, Hall).
  pose proof (bound_count m l bs_ Hwf Hn Hbd) as Hcnt. exists bs_, l'.
  destruct (load_written m' l' wanted bs_ out rest Hwf' Hall ltac:(lia) Hrest Hout) as (m2 & l2 & H). by exists m2, l2.
Qed.

(** Loading a tool map from any bytes, truncated or corrupt, returns: no
    pointer fault, the memory stays well formed and within its limits, its
    limits do not change, and at most four times its entry limit is loaded. *)
Theorem tool_map_load_total max_entries max_bytes ops m rs disabled wanted fp :
  run (tool_memory_init max_entries max_bytes) ops = Some (m, rs) ->
  exists m' l' k, kv_tool_map_load_from_pos disabled m fp wanted = Some (m', k) /\ wf m' l' /\ within_limits m' /\ limits_kept m m' /\
    0 <= k <= tool_memory_max_entries m * 4.
Proof. intros Hrun. destruct (reached _ _ _ _ _ Hrun) as (l & Hwf & Hlim). by apply (load_total m l). Qed.

Definition map_text : bytes := bs "Hi<tool_calls>f</tool_calls>, <tool_calls>g</tool_calls>.".

Definition map_ops : list op :=
  [Put (bs "a") (bs "<tool_calls>f</tool_calls>") TOOL_MEMORY_RAM; Put (bs "b") (bs "<tool_calls>h</tool_calls>") TOOL_MEMORY_RAM;
   Put (bs "c") (bs "<tool_calls>f</tool_calls>") TOOL_MEMORY_RAM].

Definition map_test (f : tool_memory -> bool) : bool :=
  match run (tool_memory_init 0 0) map_ops with Some (m, _) => f m | None => false end.

Lemma map_state f : map_test f = true -> exists m rs, run (tool_memory_init 0 0) map_ops = Some (m, rs) /\ f m = true.
Proof. unfold map_test. destruct (run _ _) as [[m rs]|]; [|done]. intros H. by exists m, rs. Qed.

Definition loadableb (b : bytes * bytes) : bool :=
  negb (length (fst b) =? 0)%nat && negb (length (snd b) =? 0)%nat && (zlen (fst b) <=? 256) && (zlen (snd b) <=? DS4_TOOL_MEMORY_MAX_BYTES) &&
  forallb (fun c => negb (c =? 0)) (fst b) && forallb (fun c => negb (c =? 0)) (snd b).

Lemma loadableb_ok b : loadableb b = true -> loadable b.
Proof.
  assert (Hz : forall s, forallb (fun c => negb (c =? 0)) s = true -> 0 ∉ s).
  { intros s H Hin. rewrite forallb_forall in H. specialize (H 0 (proj1 (list_elem_of_In _ _) Hin)). done. }
  unfold loadableb. rewrite !andb_true_iff, !negb_true_iff, !Nat.eqb_neq, !Z.leb_le. intros [[[[[H1 H2] H3] H4] H5%Hz] H6%Hz].
  split_and!; try done; intros E; [apply H1 | apply H2]; by rewrite E.
Qed.

Definition all_loadable (m : tool_memory) : bool :=
  forallb (fun x => match tm_b m !! e_block (snd x) with Some bl => loadableb (e_id (snd x), b_dsml bl) | None => true end) (map_to_list (tm_e m)).

Lemma all_loadable_ok m : all_loadable m = true -> forall id d, bound m id d -> loadable (id, d).
Proof.
  unfold all_loadable. intros H id d (a & e & bl & He & <- & Hbl & <-). rewrite forallb_forall in H. apply loadableb_ok.
  specialize (H (a, e) (proj1 (list_elem_of_In _ _) (proj2 (elem_of_map_to_list _ _ _) He))). cbn in H. by rewrite Hbl in H.
Qed.

Definition writes (n : Z) (m : tool_memory) : bool :=
  match kv_tool_map_write false m map_text with Some (_, k) => k =? n | None => false end.

Lemma writes_out n m : writes n m = true -> exists out, kv_tool_map_write false m map_text = Some (out, n).
Proof. unfold writes. destruct (kv_tool_map_write _ _ _) as [[out k]|]; [|done]. intros ->%Z.eqb_eq. by exists out. Qed.

Lemma writes_nonempty m n : 0 < n -> kv_tool_map_write false m map_text <> Some ([], n).
Proof.
  unfold kv_tool_map_write. intros Hn. change (false || _) with false. cbv iota. destruct (kv_tool_map_measure_locked m map_text) as [[c k]|]; [|done].
  cbn [mbind option_bind]. destruct (c =? 0); [intros [= <-]; done|]. destruct (bindings _ _); [|done]. cbn [mbind option_bind]. by rewrite le_put32_eq.
Qed.

Lemma tool_map_size_exact_witness : exists m out, kv_tool_map_write false m map_text = Some (out, 78) /\ zlen out = 78.
Proof.
  destruct (map_state (writes 78)) as (m & rs & Hrun & Hm); [vm_compute; reflexivity|]. destruct (writes_out _ _ Hm) as [out Hw].
  exists m, out. split; [exact Hw|]. exact (proj1 (tool_map_size_exact false 0 0 map_ops m rs map_text out 78 Hrun Hw)).
Defined.

Lemma tool_map_roundtrip_witness : exists m out saved m2 l2, kv_tool_map_write false m map_text = Some (out, 78) /\
  (forall id d, (id, d) ∈ saved <-> bound m id d /\ d ∈ tool_blocks map_text) /\
  kv_tool_map_load_from_pos false (tool_memory_init 0 0) (out ++ bs "tail") None = Some (m2, zlen (List.filter (fun _ => true) saved)) /\ wf m2 l2.
Proof.
  destruct (map_state (fun m => writes 78 m && all_loadable m && (tool_memory_max_entries m <=? 400000))) as (m & rs & Hrun & Hm); [vm_compute; reflexivity|].
  apply andb_prop in Hm as [[Hm Hl]%andb_prop Hx]. destruct (writes_out _ _ Hm) as [out Hw].
  destruct (tool_map_roundtrip 0 0 map_ops m rs 0 0 [] (tool_memory_init 0 0) [] map_text out 78 None (bs "tail") Hrun) as (saved & l' & m2 & l2 & _ & Hs & Hload & _ & Hwf & _).
  - reflexivity.
  - apply Z.leb_le in Hx. etransitivity; [exact Hx|]. apply Z.leb_le. vm_compute. reflexivity.
  - apply all_loadable_ok, Hl.
  - exact Hw.
  - intros ->. destruct (writes_nonempty m 78 eq_refl Hw).
  - exists m, out, saved, m2, l2. split; [exact Hw|]. split; [exact Hs|]. split; [exact Hload | exact Hwf].
Defined.

(** The file ends inside the second binding: the first is loaded. *)
Definition truncated_map : bytes :=
  [75; 84; 77; 1] ++ le_bytes 4 2 ++ le_bytes 4 1 ++ le_bytes 4 4 ++ bs "k<x/>" ++ le_bytes 4 1 ++ le_bytes 4 400 ++ bs "q<y".

Lemma tool_map_load_total_witness : exists m' l' k,
  kv_tool_map_load_from_pos false (tool_memory_init 3 0) truncated_map None = Some (m', k) /\ wf m' l' /\ k <= 12.
Proof.
  destruct (tool_map_load_total 3 0 [] (tool_memory_init 3 0) [] false None truncated_map eq_refl) as (m' & l' & k & H1 & H2 & _ & _ & H3).
  exists m', l', k. split; [exact H1|]. split; [exact H2|]. exact (proj2 H3).
Defined.
