(* ===== verification/Continuation.v ===== *)
(** * Choosing the prompt a request continues from (ds4_server.c)

    A request is a full transcript, but the slot's session may hold tokens it can
    go on from: by the visible transcript, by tool call ids, by its tokens, by its
    text, or after loading a checkpoint from disk.  The ways are tried in order;
    each gives the tokens to synchronise with and how many of them are cached. *)

From Stdlib Require Import Floats.SpecFloat.
From S2P Require Import Prelude KvHeader KvPolicy KvStore KvSession Session LiveState.
#[local] Open Scope Z_scope.
#[local] Open Scope stdpp_scope.

Inductive cache_source :=
| Src_none | Src_responses_visible | Src_responses_tool_output | Src_anthropic_tool_output | Src_memory_rewind | Src_memory_token
| Src_thinking_visible | Src_memory_text | Src_disk_text.

#[export] Instance cache_source_eq_dec : EqDecision cache_source.
Proof. solve_decision. Defined.

Section Continuation.
Context {Cache Logits : Type} {kernels : CpuKernels Cache Logits}.
Abbreviation session := (Session.session Cache Logits).
Context (quant_bits model_id : Z) (token_text : Z -> bytes) (tokenize : bytes -> list Z)
  (stage_payload : session -> option bytes) (load_payload : session -> bytes -> Z -> bool * session * bytes).

(** The store's view of a session. *)
#[local] Instance kv_engine : KvEngine session := {|
  routed_quant_bits := quant_bits; engine_model_id := model_id;
  KvSession.token_text := token_text; tokenize_rendered_chat := tokenize;
  session_ctx := ss_ctx_size; session_tokens s := Some (ss_checkpoint s);
  session_stage_payload := stage_payload; session_load_payload := load_payload;
  KvSession.session_invalidate := Session.session_invalidate |}.

Context (exp2 : spec_float -> spec_float) (unlink_fails : bytes -> bool) (is_glm_dsa : bool).
(** Whether the backend's state of a session can be cut back to a position: that of a
    GLM graph as its speculation allows, that of a CPU session never. *)
Context (rewind_state_ok : session -> Z -> bool).

(** [ds4_session_rewind] of the server's session. *)
Definition slot_rewind (s : session) (pos : Z) : session :=
  let pos := if pos <? 0 then 0 else pos in
  if zlen (ss_checkpoint s) <=? pos then s
  else Session (ss_ctx_size s) (take (Z.to_nat pos) (ss_checkpoint s)) (ss_checkpoint_valid s && rewind_state_ok s pos) (ss_images s) (ss_cache s) (ss_logits s) false
         (ss_splitkv_segment s) (ss_splitkv_anchor_valid s).

(** ** The suffix of a live prompt *)

Definition wrapper : Z := if is_glm_dsa then 1 else 0.

(** The first image whose marker is in the suffix. *)
Fixpoint old_count_loop (markers : list bytes) (suffix : bytes) (i : nat) : nat :=
  match markers with
  | [] => i
  | m :: markers' => match strstr m suffix with Some _ => i | None => old_count_loop markers' suffix (S i) end
  end.

(** Text up to each new image's marker, then the image's tokens from the
    request's prompt. *)
Fixpoint suffix_loop (r : request) (images : list ds4_vision_span) (markers : list bytes) (cursor : bytes) (prompt : list Z)
  : option (bytes * list Z * list ds4_vision_span) :=
  match images with
  | [] => Some (cursor, prompt, [])
  | i :: images' =>
      match markers with
      | [] => None
      | m :: markers' =>
          let start := sp_token_start i - wrapper in
          let end_ := sp_token_start i + sp_token_count i + wrapper in
          match strstr m cursor with
          | None => None
          | Some k =>
              if (start <? 0) || (zlen (rq_prompt r) <? end_) then None
              else
                let prompt := prompt ++ tokenize (take k cursor) in
                let span := Span (u32 (zlen prompt + wrapper)) (sp_data i) (sp_token_count i) (sp_fingerprint i) in
                let prompt := prompt ++ take (Z.to_nat (end_ - start)) (drop (Z.to_nat start) (rq_prompt r)) in
                '(cursor, prompt, spans) ← suffix_loop r images' markers' (drop (k + length m) cursor) prompt;
                Some (cursor, prompt, span :: spans)
          end
      end
  end.

(** The prompt and the request's images where they are in it. *)
Definition build_live_prompt_suffix (s : session) (r : request) (suffix : bytes) : option (list Z * list ds4_vision_span) :=
  if (16 <? rq_image_count r)%nat then None
  else
    markers ← (if (rq_image_count r =? 0)%nat then Some [] else rq_image_markers r);
    let markers := take (rq_image_count r) markers in
    let old_count := old_count_loop markers suffix 0 in
    spans ← session_rebase_vision_state s (rq_images r) old_count;
    '(cursor, prompt, new) ← suffix_loop r (drop old_count (rq_images r)) (drop old_count markers) suffix (ss_checkpoint s);
    let prompt := prompt ++ tokenize cursor in
    let spans := take old_count spans ++ new in
    if session_vision_prefix_matches s spans then Some (prompt, spans) else None.

(** ** The ways to continue: the cached count, the prompt and the images. A valid
    session has tokens, so a way that succeeds has a positive count. *)
Abbreviation continuation := (option (Z * list Z * list ds4_vision_span)).

Definition live_continuation (s : session) (r : request) (suffix : bytes) : continuation :=
  '(prompt, images) ← build_live_prompt_suffix s r suffix; Some (zlen (ss_checkpoint s), prompt, images).

Definition live_text_prefix_prompt (s : session) (r : request) : continuation :=
  text ← rq_prompt_text r;
  if zlen (ss_checkpoint s) <=? 0 then None
  else
    let live_text := render_tokens_text (ss_checkpoint s) in
    if negb (byte_prefix_match text live_text) then None
    else live_continuation s r (drop (length live_text) text).

Definition tool_output_prompt (st : live_tool_state) (s : session) (r : request) (live_pos : Z) (ids : list bytes) (suffix : bytes) : continuation :=
  if (length ids =? 0)%nat then None
  else if negb (live_matches_request st ids live_pos) then None
  else if negb (zlen (ss_checkpoint s) =? live_pos) then None
  else live_continuation s r suffix.

Definition responses_live_continuation_prompt (st : live_tool_state) (s : session) (r : request) (live_pos : Z) : continuation :=
  match rq_api r, rq_responses_suffix r with
  | API_RESPONSES, Some suffix => tool_output_prompt st s r live_pos (rq_responses_ids r) suffix
  | _, _ => None
  end.

Definition anthropic_live_continuation_prompt (st : live_tool_state) (s : session) (r : request) (live_pos : Z) : continuation :=
  match rq_api r, rq_anthropic_suffix r with
  | API_ANTHROPIC, Some suffix => tool_output_prompt st s r live_pos (rq_anthropic_ids r) suffix
  | _, _ => None
  end.

Definition visible_prefix_prompt (valid : bool) (live_tokens : Z) (visible_text : option bytes) (images : visible_image_key)
    (s : session) (r : request) (live_pos : Z) : continuation :=
  text ← rq_prompt_text r;
  '(key, key_images) ← visible_prompt_key r text;
  if negb (visible_match valid live_tokens visible_text images live_pos key key_images) then None
  else if negb (zlen (ss_checkpoint s) =? live_pos) then None
  else live_continuation s r (drop (length (default [] visible_text)) text).

Definition responses_live_visible_prefix_prompt (st : live_tool_state) (s : session) (r : request) (live_pos : Z) : continuation :=
  match rq_api r with
  | API_RESPONSES => visible_prefix_prompt (lt_valid st) (lt_live_tokens st) (lt_visible_text st) (lt_images st) s r live_pos
  | _ => None
  end.

Definition thinking_live_visible_prefix_prompt (st : visible_live_state) (s : session) (r : request) (live_pos : Z) : continuation :=
  match rq_api r with
  | API_RESPONSES => None
  | _ =>
      if negb (rq_chat r) then None
      else visible_prefix_prompt (vl_valid st) (vl_live_tokens st) (vl_visible_text st) (vl_images st) s r live_pos
  end.

Definition live_prefix_rewind_target (backend_can_rewind : bool) (old_pos prompt_len common : Z) : Z :=
  if negb backend_can_rewind || (prompt_len <=? 1) || (old_pos <=? prompt_len) then -1
  else if negb (common =? prompt_len) then -1
  else prompt_len - 1.

(** ** The store *)

(** [io]: the outcomes of the calls that may fail. *)
Definition kv_cache_store_live_prefix_text (io : store_io) (fs : kvfs) (kc : ds4_kvstore) (s : session) (store_len : Z) (reason : bytes)
    (override : option bytes) (ext : Z) (hooks : option trailer_hooks) : bool * kvfs * ds4_kvstore :=
  if session_has_vision_state s then (false, fs, kc)
  else store_live_prefix_text exp2 unlink_fails io fs kc s (Some (ss_checkpoint s)) store_len (Some reason) override ext hooks.

Definition live_text_of (valid : bool) (live_tokens : Z) (visible_text : option bytes) (len : Z) : option bytes :=
  match visible_text with
  | Some ((_ :: _) as v) => if valid && (live_tokens =? len) then Some v else None
  | _ => None
  end.

Definition kv_cache_store_current (responses : live_tool_state) (thinking : visible_live_state) (io : store_io) (fs : kvfs) (kc : ds4_kvstore)
    (s : session) (reason : bytes) (hooks : option trailer_hooks) : bool * kvfs * ds4_kvstore :=
  let len := zlen (ss_checkpoint s) in
  match live_text_of (lt_valid responses) (lt_live_tokens responses) (lt_visible_text responses) len with
  | Some v => kv_cache_store_live_prefix_text io fs kc s len reason (Some v) DS4_KVSTORE_EXT_RESPONSES_VISIBLE hooks
  | None =>
      match live_text_of (vl_valid thinking) (vl_live_tokens thinking) (vl_visible_text thinking) len with
      | Some v => kv_cache_store_live_prefix_text io fs kc s len reason (Some v) DS4_KVSTORE_EXT_THINKING_VISIBLE hooks
      | None => kv_cache_store_live_prefix_text io fs kc s len reason None 0 hooks
      end
  end.

Definition kv_cache_try_load_text (now : Z) (fs : kvfs) (kc : ds4_kvstore) (s : session) (text : option bytes) (hooks : option trailer_hooks) : load_out :=
  let s := if session_has_vision_state s then Session.session_invalidate s else s in
  try_load_text unlink_fails now fs kc s text hooks.

(** ** The order *)

Record selection := Sel {
  se_session : session; se_cached : Z; se_source : cache_source;
  se_prompt : list Z;  (* prompt_for_sync *)
  se_images : list ds4_vision_span;
  se_responses : bool; se_anthropic : bool; se_thinking : bool;
  se_fs : kvfs; se_kc : ds4_kvstore }.

(** A request that needs live state that is gone is refused (409). *)
Inductive outcome := Conflict | Selected (x : selection).

Definition cached_of (c : continuation) : Z := match c with Some (n, _, _) => n | None => 0 end.

(** The ways that need nothing but the protocol's live state. *)
Definition live_ways (responses anthropic : live_tool_state) (s : session) (r : request) (old_pos : Z) : continuation * cache_source :=
  let visible := responses_live_visible_prefix_prompt responses s r old_pos in
  if 0 <? cached_of visible then (visible, Src_responses_visible)
  else
    let tool := responses_live_continuation_prompt responses s r old_pos in
    if 0 <? cached_of tool then (tool, Src_responses_tool_output)
    else
      let anth := anthropic_live_continuation_prompt anthropic s r old_pos in
      if 0 <? cached_of anth then (anth, Src_anthropic_tool_output) else (None, Src_none).

(** The ways that compare the request's text. *)
Definition session_ways (thinking : visible_live_state) (s : session) (r : request) (old_pos : Z) : continuation * cache_source :=
  let think := thinking_live_visible_prefix_prompt thinking s r old_pos in
  if 0 <? cached_of think then (think, Src_thinking_visible)
  else
    let text := live_text_prefix_prompt s r in
    if 0 <? cached_of text then (text, Src_memory_text) else (None, Src_none).

(** Tokens the session shares with the prompt: all of its own, or after a rewind. *)
Definition token_way (s : session) (r : request) (old_pos common : Z) : session * Z * cache_source :=
  let rewind_to := live_prefix_rewind_target is_glm_dsa old_pos (zlen (rq_prompt r)) common in
  if 0 <=? rewind_to then
    let s := slot_rewind s rewind_to in
    let rewind_valid := (session_common_prefix s (rq_prompt r) =? rewind_to) &&
      ((rq_image_count r =? 0)%nat || session_vision_prefix_matches s (rq_images r)) in
    if rewind_valid then (s, rewind_to, Src_memory_rewind) else (s, 0, Src_none)
  else
    let cached := if (common =? old_pos) && (old_pos <=? zlen (rq_prompt r)) then common else 0 in
    (s, cached, if 0 <? cached then Src_memory_token else Src_none).

Definition select_prompt (responses anthropic : live_tool_state) (thinking : visible_live_state) (s : session) (r : request)
    (now : Z) (io : store_io) (fs : kvfs) (kc : ds4_kvstore) (hooks : option trailer_hooks) : outcome :=
  let multimodal := negb (rq_image_count r =? 0)%nat in
  let old_pos := session_pos s in
  let common := session_common_prefix s (rq_prompt r) in
  let live_vision_match := session_vision_prefix_matches s (rq_images r) in
  match live_ways responses anthropic s r old_pos with
  | (Some (cached, prompt, images), source) =>
      Selected (Sel s cached source prompt images (bool_decide (source ∈ [Src_responses_visible; Src_responses_tool_output]))
        (bool_decide (source = Src_anthropic_tool_output)) false fs kc)
  | (None, _) =>
      if match rq_api r with API_RESPONSES => rq_responses_requires r | API_ANTHROPIC => rq_anthropic_requires r | API_OPENAI => false end then Conflict
      else
        let '(s, cached, source) := if live_vision_match then token_way s r old_pos common else (s, 0, Src_none) in
        if 0 <? cached then Selected (Sel s cached source (rq_prompt r) (rq_images r) false false false fs kc)
        else
          match session_ways thinking s r old_pos with
          | (Some (n, prompt, images), source) => Selected (Sel s n source prompt images false false (bool_decide (source = Src_thinking_visible)) fs kc)
          | (None, _) =>
              let '(fs, kc) :=
                if negb multimodal && kc_enabled kc && (o_min_tokens (kc_opt kc) <=? old_pos) then
                  let '(_, fs, kc) := kv_cache_store_current responses thinking io fs kc s (bs "evict") hooks in (fs, kc)
                else (fs, kc) in
              if multimodal then Selected (Sel s 0 Src_none (rq_prompt r) (rq_images r) false false false fs kc)
              else
                let o := kv_cache_try_load_text now fs kc s (rq_prompt_text r) hooks in
                if 0 <? lo_loaded o then Selected (Sel (lo_session o) (lo_loaded o) Src_disk_text (lo_prompt o) (rq_images r) false false false (lo_fs o) (lo_kc o))
                else Selected (Sel (lo_session o) 0 Src_none (rq_prompt r) (rq_images r) false false false (lo_fs o) (lo_kc o))
          end
  end.

(** After the prompt is read: a binding stays only when this request used it. *)
Definition clear_unused (x : selection) (responses anthropic : live_tool_state) (thinking : visible_live_state)
  : live_tool_state * live_tool_state * visible_live_state :=
  (if se_responses x then responses else live_tool_state_clear, if se_anthropic x then anthropic else live_tool_state_clear,
   if se_thinking x then thinking else visible_live_clear).

(** ** Lemmas *)

Lemma suffix_loop_ok r images : forall markers cursor prompt c p spans, suffix_loop r images markers cursor prompt = Some (c, p, spans) ->
  prompt `prefix_of` p /\ (images = [] -> c = cursor /\ p = prompt).
Proof.
  induction images as [|i images IH]; intros markers cursor prompt c p spans; cbn [suffix_loop]; [by intros [= <- <- <-]|].
  destruct markers as [|m markers]; [done|]. destruct (strstr m cursor) as [k|]; [|done]. destruct (_ || _); [done|].
  destruct (suffix_loop _ _ _ _ _) as [[[c' p'] spans']|] eqn:E; [|done]. cbn [mbind option_bind]. intros [= <- <- <-]. split; [|done].
  apply IH in E as [E _]. etransitivity; [|exact E]. rewrite <- app_assoc. by apply prefix_app_r.
Qed.

Lemma live_continuation_ok (s : session) r suffix n p images : live_continuation s r suffix = Some (n, p, images) ->
  n = zlen (ss_checkpoint s) /\ ss_checkpoint s `prefix_of` p /\ vision_prefix s images /\ (rq_image_count r = 0%nat -> p = ss_checkpoint s ++ tokenize suffix).
Proof.
  unfold live_continuation, build_live_prompt_suffix. destruct (16 <? _)%nat; [done|]. destruct (if (rq_image_count r =? 0)%nat then _ else _) as [markers|]; [|done].
  cbn [mbind option_bind]. destruct (session_rebase_vision_state _ _ _) as [spans|]; [|done]. cbn [mbind option_bind].
  destruct (suffix_loop _ _ _ _ _) as [[[c q] new]|] eqn:E; [|done]. cbn [mbind option_bind]. destruct (session_vision_prefix_matches _ _) eqn:Em; [|done].
  cbn [mbind option_bind]. intros [= <- <- <-]. apply suffix_loop_ok in E as [E1 E2]. split; [done|]. split; [by apply prefix_app_r|]. split; [by apply vision_prefix_iff|].
  intros H0. unfold rq_image_count in H0. destruct (rq_images r); [|done]. destruct E2 as [-> ->]; [by rewrite drop_nil | done].
Qed.

Lemma live_continuation_plain (s : session) r suffix : rq_images r = [] -> ss_images s = [] -> ss_checkpoint_valid s = true ->
  live_continuation s r suffix = Some (zlen (ss_checkpoint s), ss_checkpoint s ++ tokenize suffix, []).
Proof.
  intros Hi Hs Hv. unfold live_continuation, build_live_prompt_suffix, rq_image_count. rewrite Hi. cbn [length Nat.ltb Nat.leb Nat.eqb mbind option_bind take drop].
  change (old_count_loop [] suffix 0) with 0%nat. unfold session_rebase_vision_state. rewrite Hv, Hs. cbn [negb length Nat.eqb orb take drop zip forallb zip_with app mbind option_bind suffix_loop].
  unfold session_vision_prefix_matches. rewrite Hv, Hs. done.
Qed.

(** How a way accounts for the tokens behind the live ones, without images. *)
Definition continued (s : session) (prompt : list Z) (suffix : bytes) : Prop := prompt = ss_checkpoint s ++ tokenize suffix.

Definition accounts (responses anthropic : live_tool_state) (thinking : visible_live_state) (s : session) (r : request) (source : cache_source) (prompt : list Z) : Prop :=
  match source with
  | Src_responses_visible => lt_valid responses = true /\ lt_live_tokens responses = session_pos s /\ exists v suffix, lt_visible_text responses = Some v /\
      rq_prompt_text r = Some (v ++ suffix) /\ suffix <> [] /\ continued s prompt suffix
  | Src_thinking_visible => vl_valid thinking = true /\ vl_live_tokens thinking = session_pos s /\ exists v suffix, vl_visible_text thinking = Some v /\
      rq_prompt_text r = Some (v ++ suffix) /\ suffix <> [] /\ continued s prompt suffix
  | Src_responses_tool_output => live_matches_request responses (rq_responses_ids r) (session_pos s) = true /\ exists suffix, rq_responses_suffix r = Some suffix /\ continued s prompt suffix
  | Src_anthropic_tool_output => live_matches_request anthropic (rq_anthropic_ids r) (session_pos s) = true /\ exists suffix, rq_anthropic_suffix r = Some suffix /\ continued s prompt suffix
  | Src_memory_text => exists suffix, rq_prompt_text r = Some (render_tokens_text (ss_checkpoint s) ++ suffix) /\ continued s prompt suffix
  | _ => prompt = rq_prompt r
  end.

Lemma plain_key r text key images : rq_image_count r = 0%nat -> visible_prompt_key r text = Some (key, images) -> key = text.
Proof. unfold visible_prompt_key. intros ->. cbn. destruct (rq_image_markers r); [by intros [= -> _] | by intros [= -> _]]. Qed.

Lemma visible_way valid tokens visible images (s : session) r pos n p imgs : visible_prefix_prompt valid tokens visible images s r pos = Some (n, p, imgs) ->
  exists suffix, live_continuation s r suffix = Some (n, p, imgs) /\ zlen (ss_checkpoint s) = pos /\
  (rq_image_count r = 0%nat -> valid = true /\ tokens = pos /\ exists v, visible = Some v /\ rq_prompt_text r = Some (v ++ suffix) /\ suffix <> []).
Proof.
  unfold visible_prefix_prompt. destruct (rq_prompt_text r) as [text|]; [|done]. cbn [mbind option_bind].
  destruct (visible_prompt_key r text) as [[key key_images]|] eqn:Ek; [|done]. cbn [mbind option_bind].
  destruct (visible_match _ _ _ _ _ _ _) eqn:Em; [|done]. cbn [negb]. destruct (_ =? pos) eqn:Ep; [|done]. apply Z.eqb_eq in Ep. cbn [negb]. intros Hl. eexists.
  split; [exact Hl|]. split; [done|]. intros H0. rewrite (plain_key r text key key_images H0 Ek) in Em. destruct visible as [v|]; [|done].
  apply match_prefix in Em as (-> & -> & (suffix & Hs & ->) & _). split; [done|]. split; [done|]. exists v. cbn [default]. by rewrite drop_app_length.
Qed.

Lemma tool_way st (s : session) r pos ids suffix n p imgs : tool_output_prompt st s r pos ids suffix = Some (n, p, imgs) ->
  live_continuation s r suffix = Some (n, p, imgs) /\ zlen (ss_checkpoint s) = pos /\ live_matches_request st ids pos = true.
Proof.
  unfold tool_output_prompt. destruct (_ =? 0)%nat; [done|]. destruct (live_matches_request _ _ _) eqn:E; [|done]. cbn [negb].
  destruct (_ =? pos) eqn:Ep; [|done]. apply Z.eqb_eq in Ep. done.
Qed.

(** What every way that uses the live tokens gives. *)
Record uses_live (s : session) (n : Z) (prompt : list Z) (images : list ds4_vision_span) : Prop := {
  ul_count : n = zlen (ss_checkpoint s); ul_pos : 0 < n; ul_prefix : ss_checkpoint s `prefix_of` prompt; ul_vision : vision_prefix s images }.

Lemma uses_live_of (s : session) r suffix n p imgs : live_continuation s r suffix = Some (n, p, imgs) -> 0 < n -> uses_live s n p imgs.
Proof. intros H Hn. apply live_continuation_ok in H as (H1 & H2 & H3 & _). by split. Qed.

Lemma continued_of (s : session) r suffix n p imgs : live_continuation s r suffix = Some (n, p, imgs) -> rq_image_count r = 0%nat -> continued s p suffix.
Proof. intros H Hn. apply live_continuation_ok in H as (_ & _ & _ & H). by apply H. Qed.

Lemma live_ways_ok responses anthropic (s : session) r n p imgs source thinking : live_ways responses anthropic s r (session_pos s) = (Some (n, p, imgs), source) ->
  uses_live s n p imgs /\ (rq_image_count r = 0%nat -> accounts responses anthropic thinking s r source p) /\
  source ∈ [Src_responses_visible; Src_responses_tool_output; Src_anthropic_tool_output].
Proof.
  unfold live_ways. cbv zeta. destruct (0 <? cached_of (responses_live_visible_prefix_prompt responses s r (session_pos s))) eqn:E1.
  { intros [= Hw <-]. rewrite Hw in E1. apply Z.ltb_lt in E1. unfold responses_live_visible_prefix_prompt in Hw. destruct (rq_api r); try done.
    apply visible_way in Hw as (suffix & Hl & Hp & Ha). split; [by eapply uses_live_of|]. split; [|by left]. intros H0.
    destruct (Ha H0) as (Hv & Ht & v & Hvis & Htext & Hs). cbn [accounts]. split; [done|]. split; [done|]. exists v, suffix. split_and!; try done. by eapply continued_of. }
  destruct (0 <? cached_of (responses_live_continuation_prompt responses s r (session_pos s))) eqn:E2.
  { intros [= Hw <-]. rewrite Hw in E2. apply Z.ltb_lt in E2. unfold responses_live_continuation_prompt in Hw. destruct (rq_api r); try done.
    destruct (rq_responses_suffix r) as [suffix|] eqn:Es; [|done]. apply tool_way in Hw as (Hl & Hp & Hm). split; [by eapply uses_live_of|].
    split; [|by right; left]. intros H0. cbn [accounts]. split; [done|]. exists suffix. split; [done|]. by eapply continued_of. }
  destruct (0 <? cached_of (anthropic_live_continuation_prompt anthropic s r (session_pos s))) eqn:E3; [|done].
  intros [= Hw <-]. rewrite Hw in E3. apply Z.ltb_lt in E3. unfold anthropic_live_continuation_prompt in Hw. destruct (rq_api r); try done.
  destruct (rq_anthropic_suffix r) as [suffix|] eqn:Es; [|done]. apply tool_way in Hw as (Hl & Hp & Hm). split; [by eapply uses_live_of|].
  split; [|by right; right; left]. intros H0. cbn [accounts]. split; [done|]. exists suffix. split; [done|]. by eapply continued_of.
Qed.

Lemma session_ways_ok responses anthropic thinking (s : session) r pos n p imgs source : session_ways thinking s r pos = (Some (n, p, imgs), source) ->
  uses_live s n p imgs /\ (rq_image_count r = 0%nat -> accounts responses anthropic thinking s r source p) /\ source ∈ [Src_thinking_visible; Src_memory_text].
Proof.
  unfold session_ways. cbv zeta. destruct (0 <? cached_of (thinking_live_visible_prefix_prompt thinking s r pos)) eqn:E1.
  { intros [= Hw <-]. rewrite Hw in E1. apply Z.ltb_lt in E1. unfold thinking_live_visible_prefix_prompt in Hw.
    assert (Hv : visible_prefix_prompt (vl_valid thinking) (vl_live_tokens thinking) (vl_visible_text thinking) (vl_images thinking) s r pos = Some (n, p, imgs))
      by (destruct (rq_api r); try done; by destruct (rq_chat r)).
    apply visible_way in Hv as (suffix & Hl & Hp & Ha). split; [by eapply uses_live_of|]. split; [|by left]. intros H0.
    destruct (Ha H0) as (Hv & Ht & v & Hvis & Htext & Hs). cbn [accounts]. split; [done|]. split; [unfold session_pos; congruence|]. exists v, suffix. split_and!; try done. by eapply continued_of. }
  destruct (0 <? cached_of (live_text_prefix_prompt s r)) eqn:E2; [|done]. intros [= Hw <-]. rewrite Hw in E2. apply Z.ltb_lt in E2. unfold live_text_prefix_prompt in Hw.
  destruct (rq_prompt_text r) as [text|] eqn:Et; [|done]. cbn [mbind option_bind] in Hw. destruct (_ <=? 0); [done|].
  destruct (byte_prefix_match _ _) eqn:Eb; [|done]. cbn [negb] in Hw. apply starts_with_iff in Eb as [suffix Hsuf]. rewrite Hsuf, drop_app_length in Hw.
  split; [by eapply uses_live_of|]. split; [|by right; left]. intros H0. cbn [accounts]. exists suffix. rewrite Et, Hsuf. split; [done|]. by eapply continued_of.
Qed.

(** The session a request goes on from: the live one, or that one cut back. *)
Definition from_live (s s1 : session) : Prop :=
  s1 = s \/ exists pos, is_glm_dsa = true /\ 0 < pos < zlen (ss_checkpoint s) /\ s1 = slot_rewind s pos /\ (ss_checkpoint_valid s1 = true -> rewind_state_ok s pos = true).

Lemma slot_rewind_eq (s : session) pos : 0 < pos < zlen (ss_checkpoint s) ->
  slot_rewind s pos = Session (ss_ctx_size s) (take (Z.to_nat pos) (ss_checkpoint s)) (ss_checkpoint_valid s && rewind_state_ok s pos) (ss_images s) (ss_cache s) (ss_logits s) false
    (ss_splitkv_segment s) (ss_splitkv_anchor_valid s).
Proof. intros H. unfold slot_rewind. by rewrite (proj2 (Z.ltb_ge pos 0)), (proj2 (Z.leb_gt (zlen (ss_checkpoint s)) pos)) by lia. Qed.

Lemma rewind_target_range (s : session) (r : request) common : let target := live_prefix_rewind_target is_glm_dsa (session_pos s) (zlen (rq_prompt r)) common in
  0 <= target -> is_glm_dsa = true /\ 0 < target < zlen (ss_checkpoint s).
Proof.
  cbv zeta. unfold live_prefix_rewind_target, session_pos. destruct (_ || _ || _) eqn:Eb; [intros; lia|]. rewrite !orb_false_iff, !Z.leb_gt, negb_false_iff in Eb.
  destruct (negb (_ =? _)); [intros; lia|]. intros _. split; [tauto|lia].
Qed.

Lemma shares_all (s : session) prompt : ss_checkpoint_valid s = true -> session_common_prefix s prompt = zlen (ss_checkpoint s) -> ss_checkpoint s `prefix_of` prompt.
Proof.
  intros Hv. unfold session_common_prefix. rewrite Hv. destruct (common_loop_spec (ss_checkpoint s) prompt) as (k & -> & Htk & H1 & H2 & _). unfold zlen. intros Ec.
  assert (k = length (ss_checkpoint s)) as -> by lia. rewrite firstn_all in Htk. rewrite Htk. exists (drop (length (ss_checkpoint s)) prompt). by rewrite take_drop.
Qed.

Lemma no_images_prefix (s : session) : session_vision_prefix_matches s [] = true -> ss_images s = [].
Proof. intros H. apply vision_prefix_iff in H as (_ & H & _). destruct (ss_images s); [done|]. by destruct (length _). Qed.

Lemma token_way_ok (s s' : session) r n source : session_vision_prefix_matches s (rq_images r) = true ->
  token_way s r (session_pos s) (session_common_prefix s (rq_prompt r)) = (s', n, source) ->
  from_live s s' /\ (0 < n -> source ∈ [Src_memory_rewind; Src_memory_token] /\ uses_live s' n (rq_prompt r) (rq_images r)).
Proof.
  intros Hm. unfold token_way. set (target := live_prefix_rewind_target _ _ _ _). destruct (0 <=? target) eqn:Et.
  - apply Z.leb_le in Et. destruct (rewind_target_range s r _ Et) as [Hg Ht]. fold target in Ht. pose proof (slot_rewind_eq s target Ht) as Heq.
    assert (Hf : from_live s (slot_rewind s target)).
    { right. exists target. do 3 (split; [done|]). rewrite Heq. cbn. intros Hv. by apply andb_true_iff in Hv as [_ ?]. }
    cbv zeta. match goal with |- context [if ?b then _ else _] => destruct b eqn:Ev end; intros [= <- <- <-]; (split; [done|]); [|lia]. intros Hn. split; [by left|]. apply andb_true_iff in Ev as [Ec%Z.eqb_eq Ev].
    assert (Hlen : zlen (ss_checkpoint (slot_rewind s target)) = target) by (rewrite Heq; cbn; unfold zlen in *; rewrite length_take; lia).
    assert (Hv : ss_checkpoint_valid (slot_rewind s target) = true) by (unfold session_common_prefix in Ec; by destruct (ss_checkpoint_valid (slot_rewind s target)); [|lia]).
    split; [done|done|apply shares_all; [done|congruence]|]. apply orb_true_iff in Ev as [Ei%Nat.eqb_eq|Ei]; [|by apply vision_prefix_iff].
    unfold rq_image_count in Ei. destruct (rq_images r); [|done]. apply no_images_prefix in Hm. split; [done|]. rewrite Heq. cbn. rewrite Hm. split; [done|]. intros next; done.
  - intros [= <- <- <-]. split; [by left|]. intros Hn. destruct (session_common_prefix s (rq_prompt r) =? session_pos s) eqn:Ec; [|done].
    destruct (session_pos s <=? zlen (rq_prompt r)) eqn:El; [|done]. cbn [andb] in *. apply Z.eqb_eq in Ec. rewrite (proj2 (Z.ltb_lt 0 _)) by done.
    split; [by right; left|]. apply vision_prefix_iff in Hm. split; [done | done | | done]. by apply shares_all; [apply Hm|].
Qed.

Lemma try_way_session (b : bool) (s s1 : session) r n source : b = session_vision_prefix_matches s (rq_images r) ->
  (if b then token_way s r (session_pos s) (session_common_prefix s (rq_prompt r)) else (s, 0, Src_none)) = (s1, n, source) ->
  from_live s s1 /\ (0 < n -> source ∈ [Src_memory_rewind; Src_memory_token] /\ uses_live s1 n (rq_prompt r) (rq_images r)).
Proof. intros ->. destruct (session_vision_prefix_matches s (rq_images r)) eqn:E; [by apply token_way_ok|]. intros [= <- <- <-]. split; [by left|lia]. Qed.

(** A session that was loaded from disk is the one the payload's loader made. *)
Lemma try_load_loaded uf now fs kc (s : session) text hooks : let o := try_load_text uf now fs kc s text hooks in lo_loaded o <> 0 ->
  exists fp size rest, load_payload s fp size = (true, lo_session o, rest).
Proof.
  cbv zeta. unfold try_load_text. destruct text as [text|]; [|done]. destruct (negb (kc_enabled kc)); [done|]. case_if; [done|].
  destruct (find_text_prefix _ _ _ _ _ _) as [[[i e]|] kc1]; [|done]. destruct (fs_lookup fs (e_path e)); [|done]. destruct (read_header _ _) as [[[hdr tb] rest]|]; [|done].
  destruct (check_cached_text _ _ _ _ _ _) as [[cached rest']|]; [|done]. cbn [KvSession.session_load_payload kv_engine]. destruct (load_payload s rest' (e_payload_bytes hdr)) as [[ok s1] trailer] eqn:Eload.
  destruct ok; [|done]. cbn [session_tokens kv_engine]. cbv zeta. destruct (zlen (ss_checkpoint s1) =? i32 (e_tokens hdr)); [|done]. cbn [negb]. case_if; intros _; cbn [lo_session]; by exists rest', (e_payload_bytes hdr), trailer.
Qed.

(** How the selection came about. *)
Lemma select_cases responses anthropic thinking (s : session) r now io fs kc hooks x :
  select_prompt responses anthropic thinking s r now io fs kc hooks = Selected x -> 0 < se_cached x ->
  (from_live s (se_session x) /\ uses_live (se_session x) (se_cached x) (se_prompt x) (se_images x) /\ se_source x <> Src_disk_text /\
     (rq_image_count r = 0%nat -> accounts responses anthropic thinking (se_session x) r (se_source x) (se_prompt x))) \/
  (se_source x = Src_disk_text /\ rq_image_count r = 0%nat /\ se_images x = [] /\ exists stored suffix, rq_prompt_text r = Some (stored ++ suffix) /\
     continued (se_session x) (se_prompt x) suffix /\ se_cached x = zlen (ss_checkpoint (se_session x)) /\
     exists s1 fp size rest, session_has_vision_state s1 = false /\ ss_ctx_size s1 = ss_ctx_size s /\ load_payload s1 fp size = (true, se_session x, rest)).
Proof.
  unfold select_prompt. cbv zeta. destruct (live_ways responses anthropic s r (session_pos s)) as [[[[n p] imgs]|] source] eqn:El.
  { intros [= <-]. cbn. intros Hn. left. apply (live_ways_ok _ _ _ _ _ _ _ _ thinking) in El as (H1 & H2 & H3). split; [by left|]. split_and!; try done. by intros ->; rewrite !elem_of_cons in H3; destruct H3 as [|[|[|?%elem_of_nil]]]. }
  destruct (match rq_api r with API_RESPONSES => _ | _ => _ end); [done|].
  set (tw := if session_vision_prefix_matches s (rq_images r) then _ else _). destruct tw as [[s1 n] source1] eqn:Etw. apply (try_way_session _ s s1 r n source1 eq_refl) in Etw as [Hfrom Hway].
  destruct (0 <? n) eqn:En.
  { intros [= <-]. cbn. intros _. apply Z.ltb_lt in En. destruct (Hway En) as [H1 H2]. left. split_and!; try done; rewrite !elem_of_cons, elem_of_nil in H1; [|intros _]; by destruct H1 as [->|[->|]]. }
  destruct (session_ways thinking s1 r (session_pos s)) as [[[[n2 p] imgs]|] source2] eqn:Es.
  { intros [= <-]. cbn. intros Hn. left. apply (session_ways_ok responses anthropic) in Es as (H1 & H2 & H3). split_and!; try done. by intros ->; rewrite !elem_of_cons in H3; destruct H3 as [|[|?%elem_of_nil]]. }
  set (st := if negb _ && _ && _ then _ else _). destruct st as [fs1 kc1]. destruct (rq_image_count r =? 0)%nat eqn:Ei; cbn [negb].
  - set (o := kv_cache_try_load_text _ _ _ _ _ _). destruct (0 <? lo_loaded o) eqn:Eo; [|by intros [= <-]]. intros [= <-]. cbn. intros Hn. right. apply Nat.eqb_eq in Ei.
    split; [done|]. split; [done|]. split; [unfold rq_image_count in Ei; by apply nil_length_inv|]. unfold kv_cache_try_load_text in o. set (s2 := if session_has_vision_state s1 then _ else _) in o.
    assert (Hs2 : session_has_vision_state s2 = false /\ ss_ctx_size s2 = ss_ctx_size s).
    { assert (Hc : ss_ctx_size s1 = ss_ctx_size s) by (destruct Hfrom as [->|(pos & _ & Hp & -> & _)]; [done|]; by rewrite slot_rewind_eq). unfold s2. by destruct (session_has_vision_state s1) eqn:Ev. }
    assert (Hne : lo_loaded o <> 0) by lia. pose proof (try_load_loaded _ _ _ _ _ _ _ Hne) as (fp & size & rest0 & Hload). destruct (rq_prompt_text r) as [text|]; [|done].
    apply try_load_text_spec in Hne as (e & content & hdr & tb & cached & rest & suffix & live & _ & _ & _ & _ & _ & _ & Ht & Hl & Hz & _ & Hp).
    fold o in Hl, Hz, Hp, Hload. injection Hl as <-. exists cached, suffix. rewrite Ht. do 3 (split; [done|]). exists s2, fp, size, rest0. by destruct Hs2.
  - by intros [= <-].
Qed.

(** What the loader of payloads gives when it succeeds. *)
Definition loads_valid : Prop := forall s1 fp size s2 rest, load_payload s1 fp size = (true, s2, rest) ->
  ss_checkpoint_valid s2 = true /\ ss_images s2 = ss_images s1 /\ ss_ctx_size s2 = ss_ctx_size s1.

(** C13: Whatever way a request continues - from the live session, from that session
    cut back, or from a checkpoint on disk - the count that is reported as cached is
    real: the prompt begins with exactly the tokens of the session that is used, and
    its images match.  That session is the live one, or the live one cut back (only
    on a backend whose state can be), or the one loaded.  When the prompt leaves room
    in the context, synchronising evaluates only what is behind those tokens; a prompt
    that does not is refused. *)
Theorem continuation_is_reused responses anthropic thinking (s : session) r now io fs kc hooks x : loads_valid ->
  select_prompt responses anthropic thinking s r now io fs kc hooks = Selected x -> 0 < se_cached x ->
  let s1 := se_session x in
  (from_live s s1 \/ se_source x = Src_disk_text) /\ ss_checkpoint_valid s1 = true /\ ss_ctx_size s1 = ss_ctx_size s /\
  exists suffix, se_prompt x = ss_checkpoint s1 ++ suffix /\ se_cached x = zlen (ss_checkpoint s1) /\ vision_prefix s1 (se_images x) /\
    let '(rc, s') := session_sync s1 (se_images x) (se_prompt x) [] in
    if decide (zlen (se_prompt x) < ss_ctx_size s) then
      rc = 0 /\ let p := fold_left session_push suffix s1 in
      ss_cache s' = ss_cache p /\ ss_logits s' = ss_logits p /\ ss_checkpoint s' = ss_checkpoint p /\ ss_images s' = map identity (se_images x)
    else rc = 1 /\ s' = s1.
Proof.
  intros Hload Hx Hn. cbv zeta. assert (Hlive : (from_live s (se_session x) \/ se_source x = Src_disk_text) /\ ss_ctx_size (se_session x) = ss_ctx_size s /\ uses_live (se_session x) (se_cached x) (se_prompt x) (se_images x)).
  { destruct (select_cases _ _ _ _ _ _ _ _ _ _ _ Hx Hn) as [(H1 & H2 & _)|(Hd & _ & Hi & stored & suffix & _ & Hc & Hz & s1 & fp & size & rest & Hv1 & Hs1 & Hl)].
    - split; [by left|]. split; [|done]. destruct H1 as [->|(pos & _ & Hp & -> & _)]; [done|]. by rewrite slot_rewind_eq.
    - destruct (Hload _ _ _ _ _ Hl) as (Hv & Him & Hctx). split; [by right|]. split; [congruence|]. assert (Hno : ss_images s1 = []) by (unfold session_has_vision_state in Hv1; apply negb_false_iff, Nat.eqb_eq in Hv1; by apply nil_length_inv).
      split; [done|done|unfold continued in Hc; rewrite Hc; by eexists|]. rewrite Hi. split; [done|]. rewrite Him, Hno. split; [done|]. intros next; done. }
  destruct Hlive as (Hfrom & Hctx & [H1 H2 [suffix H3] H4]). split; [done|]. split; [by destruct H4|]. split; [done|]. exists suffix. do 3 (split; [done|]). rewrite H3, <- Hctx. case_decide as Hroom.
  - destruct (sync_reuse (se_session x) (se_images x) suffix) as (s' & E & H5); [by destruct H4|by apply vision_prefix_iff|rewrite zlen_app in *; pose proof (zlen_nonneg suffix); lia|]. rewrite E. by split.
  - unfold session_sync. apply vision_prefix_iff in H4 as Hm. rewrite Hm, andb_false_r. unfold session_sync_internal. rewrite (proj2 (Z.leb_gt _ 0)) by (rewrite zlen_app; pose proof (zlen_nonneg suffix); lia).
    rewrite (proj2 (Z.leb_le (ss_ctx_size (se_session x)) _)) by lia. done.
Qed.

(** Without images, every way but a fresh start accounts for the whole
    request: the session's tokens stand for a transcript, a tool turn or a text
    that the request repeats, and exactly the rest is tokenized behind them. *)
Theorem continuation_accounts responses anthropic thinking (s : session) r now io fs kc hooks x :
  select_prompt responses anthropic thinking s r now io fs kc hooks = Selected x -> 0 < se_cached x -> rq_image_count r = 0%nat ->
  if decide (se_source x = Src_disk_text) then
    exists stored suffix, rq_prompt_text r = Some (stored ++ suffix) /\ continued (se_session x) (se_prompt x) suffix /\ se_cached x = zlen (ss_checkpoint (se_session x))
  else accounts responses anthropic thinking (se_session x) r (se_source x) (se_prompt x).
Proof.
  intros Hx Hn H0. destruct (select_cases _ _ _ _ _ _ _ _ _ _ _ Hx Hn) as [(_ & _ & Hd & Ha)|(Hd & _ & _ & st & sf & H1 & H2 & H3 & _)]; case_decide; try done; [by apply Ha|by exists st, sf].
Qed.

(** The outputs of exactly the calls that ended the live Anthropic turn, in
    any order, continue it: the live tokens and then the outputs' text, nothing
    is refused and nothing is read again. *)
Theorem tool_outputs_continue (st : live_tool_state) responses thinking (s : session) r now io fs kc hooks calls outputs suffix :
  ss_checkpoint_valid s = true -> ss_images s = [] -> 0 < session_pos s -> calls <> [] -> ids_of outputs <> [] -> Permutation (ids_of outputs) (ids_of calls) ->
  rq_api r = API_ANTHROPIC -> rq_images r = [] -> rq_anthropic_ids r = ids_of outputs -> rq_anthropic_suffix r = Some suffix ->
  select_prompt responses (anthropic_live_remember st (session_pos s) calls) thinking s r now io fs kc hooks =
  Selected (Sel s (session_pos s) Src_anthropic_tool_output (ss_checkpoint s ++ tokenize suffix) [] false true false fs kc).
Proof.
  intros Hv Hi Hp Hc Ho Hperm Hapi Himg Hids Hsuf. assert (Hm : live_matches_request (anthropic_live_remember st (session_pos s) calls) (ids_of outputs) (session_pos s) = true).
  { by apply anthropic_match_iff. }
  unfold select_prompt, live_ways, responses_live_visible_prefix_prompt, responses_live_continuation_prompt, anthropic_live_continuation_prompt.
  rewrite Hapi, Hsuf, Hids. cbn [cached_of Z.ltb Z.compare]. unfold tool_output_prompt. rewrite (proj2 (Nat.eqb_neq _ 0)) by (intros H; by apply nil_length_inv in H).
  rewrite Hm. cbn [negb]. unfold session_pos in *. rewrite Z.eqb_refl. cbn [negb]. rewrite live_continuation_plain by done. cbn [cached_of].
  rewrite (proj2 (Z.ltb_lt 0 _)) by done. done.
Qed.

(** After an answer whose hidden reasoning clients do not replay, a request
    whose text repeats the visible transcript and goes on continues from the
    session's tokens: all of them count as cached. *)
Theorem remembered_answer_continues (st : visible_live_state) responses anthropic (s : session) r r0 now io fs kc hooks visible suffix :
  is_glm_dsa = false -> ss_checkpoint_valid s = true -> ss_images s = [] -> 0 < session_pos s -> visible <> [] -> suffix <> [] ->
  rq_images r0 = [] -> rq_image_markers r0 = None -> rq_images r = [] -> rq_image_markers r = None -> rq_api r = API_OPENAI -> rq_chat r = true ->
  rq_prompt_text r = Some (visible ++ suffix) ->
  exists x, select_prompt responses anthropic (thinking_live_remember st (session_pos s) visible r0) s r now io fs kc hooks = Selected x /\
    se_cached x = session_pos s /\ (se_source x = Src_memory_token /\ se_prompt x = rq_prompt r \/
                                   se_source x = Src_thinking_visible /\ se_prompt x = ss_checkpoint s ++ tokenize suffix).
Proof.
  intros Hglm Hv Hi Hp Hne Hsuf Hi0 Hm0 Him Hmk Hapi Hchat Htext. assert (Hkey : forall q t, rq_images q = [] -> rq_image_markers q = None -> visible_prompt_key q t = Some (t, [])).
  { intros q t H1 H2. unfold visible_prompt_key, rq_image_count. by rewrite H1, H2. }
  unfold thinking_live_remember. destruct visible as [|v0 visible0] eqn:Evis; [done|]. rewrite <- Evis in *. rewrite (Hkey r0 visible) by done.
  unfold select_prompt, live_ways, responses_live_visible_prefix_prompt, responses_live_continuation_prompt, anthropic_live_continuation_prompt. rewrite Hapi. cbn [cached_of Z.ltb Z.compare].
  assert (Hvis : session_vision_prefix_matches s (rq_images r) = true) by (apply vision_prefix_iff; rewrite Him; split; [done|]; rewrite Hi; split; [done | intros next; done]).
  rewrite Hvis. destruct (token_way s r (session_pos s) (session_common_prefix s (rq_prompt r))) as [[s1 n] source] eqn:Etw. destruct (0 <? n) eqn:En.
  - apply Z.ltb_lt in En. destruct (proj2 (token_way_ok _ _ _ _ _ Hvis Etw) En) as (_ & [Hn _ _ _]). assert (s1 = s /\ source = Src_memory_token) as [-> ->].
    { revert Etw. unfold token_way, live_prefix_rewind_target. rewrite Hglm. cbn [negb orb]. change (0 <=? -1) with false. cbn iota. intros [= <- Hx <-]. by rewrite Hx, (proj2 (Z.ltb_lt 0 n)). }
    eexists. split; [done|]. cbn. by split; [|left].
  - assert (s1 = s) as -> by (revert Etw; unfold token_way, live_prefix_rewind_target; rewrite Hglm; by intros [= <- _ _]).
    assert (Hw : session_ways (VisibleLive true (session_pos s) (Some visible) []) s r (session_pos s) =
      (Some (session_pos s, ss_checkpoint s ++ tokenize suffix, []), Src_thinking_visible)).
    { unfold session_ways, thinking_live_visible_prefix_prompt, visible_prefix_prompt. rewrite Hapi, Hchat, Htext. cbn [negb mbind option_bind vl_valid vl_live_tokens vl_visible_text vl_images].
      rewrite (Hkey r) by done. cbn [mbind option_bind].
      rewrite (proj2 (match_prefix true (session_pos s) visible [] (session_pos s) (visible ++ suffix) [])) by (split; [done|]; split; [done|]; split; [by exists suffix | by apply image_prefix_refl]).
      unfold session_pos. rewrite Z.eqb_refl. cbn [negb default]. rewrite drop_app_length, live_continuation_plain by done. cbn [cached_of]. by rewrite (proj2 (Z.ltb_lt 0 _)). }
    rewrite Hw. eexists. split; [done|]. cbn. split; [done | by right].
Qed.
End Continuation.

Section Samples.
Import Session.Toy.
Let s := extended.
Let no_stage (_ : session (list (Z * Z)) Z) : option bytes := None.
Let no_load (s : session (list (Z * Z)) Z) (_ : bytes) (_ : Z) := (false, s, [] : bytes).
Let none := live_tool_state_clear.
Let sel := select_prompt 2 0 (fun t => [t]) (fun b => b) no_stage no_load (fun f => f) (fun _ => false) false (fun _ _ => false).
Let io := StoreIO 0 0 true None true true.
Let kc := Store false [] 0 false default_options 0 [] 0.

(** The request's own tokens begin with the session's. *)
Definition token_request : request := Request true API_OPENAI (Some [5; 6; 7]) [5; 6; 7] [] None false [] None false [] None.
(** Its text does, but it is cut into other tokens. *)
Definition text_request : request := Request true API_OPENAI (Some [5; 6; 7]) [56; 7] [] None false [] None false [] None.
Definition tool_request : request := Request true API_ANTHROPIC (Some [9]) [9] [] None false [] None true (ids_of [bs "b"; bs "a"]) (Some [7; 8]).
Definition next_request : request := Request true API_OPENAI (Some [1; 2; 3]) [1; 2; 3] [] None false [] None false [] None.

(** A session with two tokens more than the next request. *)
Let longer : session (list (Z * Z)) Z := Session 32 [1; 2; 3; 4; 5] true [] (imap (fun i t => (t, Z.of_nat i)) [1; 2; 3; 4; 5]) (Some 5) false [] false.
Let glm_sel := select_prompt 2 0 (fun t => [t]) (fun b => b) no_stage no_load (fun f => f) (fun _ => false) true.

Lemma no_load_valid : loads_valid no_load.
Proof. intros s1 fp size s2 rest [=]. Qed.

(** A CPU session cannot be cut back: nothing is reused.  A session that can is cut
    back to the last token but one, which is evaluated again. *)
Example rewind_by_backend :
  let cached can := match glm_sel can none none visible_live_clear longer next_request 0 io [] kc None with Selected x => Some (se_source x, se_cached x) | Conflict => None end in
  cached (fun _ _ => false) = Some (Src_none, 0) /\ cached (fun _ _ => true) = Some (Src_memory_rewind, 2).
Proof. split; vm_compute; reflexivity. Qed.

Lemma continuation_is_reused_witness : exists x suffix, glm_sel (fun _ _ => true) none none visible_live_clear longer next_request 0 io [] kc None = Selected x /\
  se_cached x = 2 /\ se_prompt x = ss_checkpoint (se_session x) ++ suffix /\ (let '(rc, s') := session_sync (se_session x) (se_images x) (se_prompt x) [] in rc = 0).
Proof.
  set (x := Sel (slot_rewind (fun _ _ => true) longer 2) 2 Src_memory_rewind [1; 2; 3] [] false false false [] kc).
  assert (Hx : glm_sel (fun _ _ => true) none none visible_live_clear longer next_request 0 io [] kc None = Selected x) by (vm_compute; reflexivity).
  pose proof (continuation_is_reused 2 0 (fun t => [t]) (fun b => b) no_stage no_load (fun f => f) (fun _ => false) true (fun _ _ => true)
    none none visible_live_clear longer next_request 0 io [] kc None x no_load_valid Hx eq_refl) as (_ & _ & _ & suffix & H1 & _ & _ & H2).
  exists x, suffix. split; [exact Hx|]. split; [reflexivity|]. split; [exact H1|]. destruct (session_sync _ _ _ _) as [rc s']. exact (proj1 H2).
Defined.

Lemma continuation_accounts_witness : exists x, sel none none visible_live_clear s text_request 0 io [] kc None = Selected x /\ se_source x = Src_memory_text /\
  accounts 2 0 (fun t => [t]) (fun b => b) no_stage no_load none none visible_live_clear s text_request Src_memory_text (se_prompt x).
Proof.
  set (x := Sel s 2 Src_memory_text [5; 6; 7] [] false false false [] kc).
  assert (Hx : sel none none visible_live_clear s text_request 0 io [] kc None = Selected x) by (vm_compute; reflexivity).
  exists x. split; [exact Hx|]. split; [reflexivity|].
  exact (continuation_accounts 2 0 (fun t => [t]) (fun b => b) no_stage no_load (fun f => f) (fun _ => false) false (fun _ _ => false)
    none none visible_live_clear s text_request 0 io [] kc None x Hx eq_refl eq_refl).
Defined.

Lemma tool_outputs_continue_witness : sel none (anthropic_live_remember none 2 [bs "a"; bs "b"]) visible_live_clear s tool_request 0 io [] kc None =
  Selected (Sel s 2 Src_anthropic_tool_output [5; 6; 7; 8] [] false true false [] kc).
Proof.
  apply (tool_outputs_continue 2 0 (fun t => [t]) (fun b => b) no_stage no_load (fun f => f) (fun _ => false) false (fun _ _ => false)
    none none visible_live_clear s tool_request 0 io [] kc None [bs "a"; bs "b"] [bs "b"; bs "a"] [7; 8]); try reflexivity; try discriminate.
  vm_compute. apply Permutation.perm_swap.
Defined.

Lemma remembered_answer_continues_witness : exists x,
  sel none none (thinking_live_remember visible_live_clear 2 [1; 2] next_request) s next_request 0 io [] kc None = Selected x /\ se_cached x = 2.
Proof.
  destruct (remembered_answer_continues 2 0 (fun t => [t]) (fun b => b) no_stage no_load (fun f => f) (fun _ => false) false (fun _ _ => false)
    visible_live_clear none none s next_request next_request 0 io [] kc None [1; 2] [3]) as (x & H1 & H2 & _); try reflexivity; try discriminate.
  exists x. exact (conj H1 H2).
Defined.
End Samples.
