(* ===== verification/AgentTool.v ===== *)
(** * Tool calls read while they are generated (src/ds4_agent.c)

    The agent reads tool calls from the model's text byte by byte, in the DSML and
    in the GLM syntax: [agent_dsml_feed] and [agent_dsml_finish] on the parser's
    record. The text read so far ([raw]) is a list of bytes whose C string ends at
    its first NUL; positions are numbers. Growth of buffers is not modelled. *)

From S2P Require Import Prelude StreamText Libc ToolText Json ToolCalls.
#[local] Open Scope Z_scope.
#[local] Open Scope stdpp_scope.

(** ** Definitions *)

Inductive agent_tool_syntax := AGENT_TOOL_SYNTAX_DSML | AGENT_TOOL_SYNTAX_GLM.

Inductive agent_dsml_state :=
  | AGENT_DSML_SEARCH | AGENT_DSML_STRUCTURAL | AGENT_DSML_PARAM_VALUE | AGENT_DSML_DONE | AGENT_DSML_ERROR.

Record agent_tool_arg := AgentArg { aa_name : bytes; aa_value : bytes; aa_is_string : bool }.
Record agent_tool_call := AgentCall { ac_name : option bytes; ac_args : list agent_tool_arg }.

Record agent_dsml_parser := Parser {
  ps_syntax : agent_tool_syntax;
  ps_state : agent_dsml_state;
  ps_search_tail : bytes;
  ps_raw : bytes;
  ps_parse_pos : nat;
  ps_current : agent_tool_call;
  ps_param_name : option bytes;
  ps_param_is_string : bool;
  ps_param_value_start : nat;
  ps_param_close_prefix : bool;
  ps_glm_after_call : bool;
  ps_calls : list agent_tool_call;
  ps_error : bytes }.

(** Assignments to the fields. *)
Definition set_state v (p : agent_dsml_parser) := let '(Parser a _ c d e f g h i j k l m) := p in Parser a v c d e f g h i j k l m.
Definition set_tail v (p : agent_dsml_parser) := let '(Parser a b _ d e f g h i j k l m) := p in Parser a b v d e f g h i j k l m.
Definition set_raw v (p : agent_dsml_parser) := let '(Parser a b c _ e f g h i j k l m) := p in Parser a b c v e f g h i j k l m.
Definition set_pos v (p : agent_dsml_parser) := let '(Parser a b c d _ f g h i j k l m) := p in Parser a b c d v f g h i j k l m.
Definition set_current v (p : agent_dsml_parser) := let '(Parser a b c d e _ g h i j k l m) := p in Parser a b c d e v g h i j k l m.
Definition set_param_name v (p : agent_dsml_parser) := let '(Parser a b c d e f _ h i j k l m) := p in Parser a b c d e f v h i j k l m.
Definition set_is_string v (p : agent_dsml_parser) := let '(Parser a b c d e f g _ i j k l m) := p in Parser a b c d e f g v i j k l m.
Definition set_value_start v (p : agent_dsml_parser) := let '(Parser a b c d e f g h _ j k l m) := p in Parser a b c d e f g h v j k l m.
Definition set_close_prefix v (p : agent_dsml_parser) := let '(Parser a b c d e f g h i _ k l m) := p in Parser a b c d e f g h i v k l m.
Definition set_after_call v (p : agent_dsml_parser) := let '(Parser a b c d e f g h i j _ l m) := p in Parser a b c d e f g h i j v l m.
Definition set_calls v (p : agent_dsml_parser) := let '(Parser a b c d e f g h i j k _ m) := p in Parser a b c d e f g h i j k v m.
Definition set_err v (p : agent_dsml_parser) := let '(Parser a b c d e f g h i j k l _) := p in Parser a b c d e f g h i j k l v.

Definition no_call : agent_tool_call := AgentCall None [].

(** A parser of the syntax before any byte. *)
Definition agent_dsml_parser_reset (syntax : agent_tool_syntax) : agent_dsml_parser :=
  Parser syntax AGENT_DSML_SEARCH [] [] 0 no_call None false 0 false false [] [].

Definition agent_tool_call_add_arg (c : agent_tool_call) (name value : bytes) (is_string : bool) (end_tag : bytes) : agent_tool_call :=
  AgentCall (ac_name c) (ac_args c ++ [AgentArg name (if is_string then ds4_tool_text_unescape value end_tag else value) is_string]).

Definition agent_tool_calls_push (p : agent_dsml_parser) : agent_dsml_parser :=
  match ac_name (ps_current p) with
  | None => p
  | Some _ => set_current no_call (set_calls (ps_calls p ++ [ps_current p]) p)
  end.

Fixpoint find_arg (args : list agent_tool_arg) (name : bytes) : option bytes :=
  match args with
  | [] => None
  | a :: args' => if bytes_eqb (aa_name a) name then Some (aa_value a) else find_arg args' name
  end.
Definition agent_tool_arg_value (call : agent_tool_call) (name : bytes) : option bytes := find_arg (ac_args call) name.

Definition agent_parse_attr (tag name : bytes) : option bytes :=
  let pat := name ++ [61; 34] in
  i ← strstr pat tag;
  let v := drop (i + length pat) tag in
  j ← strstr [34] v;
  Some (take j v).

Definition agent_dsml_set_error (msg : bytes) (p : agent_dsml_parser) : agent_dsml_parser :=
  set_err msg (set_state AGENT_DSML_ERROR p).

Definition agent_ws (c : Z) : bool := (c =? 32) || (c =? 9) || (c =? 13) || (c =? 10).

Fixpoint agent_skip_ascii_space (s : bytes) : bytes :=
  match s with c :: s' => if agent_ws c then agent_skip_ascii_space s' else s | [] => [] end.

Definition agent_trim_span (s : bytes) : bytes := rev (agent_skip_ascii_space (rev (agent_skip_ascii_space s))).

Definition agent_dsml_open_tag_is (tag name : bytes) : bool :=
  let prefix := bs "<｜DSML｜" ++ name in
  starts_with prefix tag && (let c := cget tag (length prefix) in (c =? 62) || agent_ws c).

Definition dsml_bar : bytes := bs "｜".
Definition dsml_close : bytes := bs "</｜DSML｜".

(** The length of the closing tag that [s] begins with. *)
Definition agent_dsml_close_tag_at (s name : bytes) : option nat :=
  let prefix := dsml_close ++ name in
  if negb (starts_with prefix s) then None
  else
    let p := agent_skip_ascii_space (drop (length prefix) s) in
    let p := if starts_with dsml_bar p then drop (length dsml_bar) p else p in
    let p := agent_skip_ascii_space p in
    if cget p 0 =? 62 then Some (length s - length p + 1)%nat else None.

(** Result and [*complete]. *)
Fixpoint close_tail_rest (tail : bytes) : bool * bool :=
  match tail with
  | [] => (true, false)
  | c :: tail' =>
      if c =? 62 then (bool_decide (tail' = []), bool_decide (tail' = []))
      else if agent_ws c then close_tail_rest tail' else (false, false)
  end.
Definition agent_dsml_parameter_close_tail (tail : bytes) : bool * bool :=
  let prefix := dsml_close ++ bs "parameter" in
  if (length tail <=? length prefix)%nat then (starts_with tail prefix, false)
  else if negb (starts_with prefix tail) then (false, false)
  else
    let t := agent_skip_ascii_space (drop (length prefix) tail) in
    if (0 <? length t)%nat && (length t <=? length dsml_bar)%nat && starts_with t dsml_bar then (true, false)
    else close_tail_rest (if starts_with dsml_bar t then drop (length dsml_bar) t else t).

Definition agent_glm_arg_value_close_tail (tail : bytes) : bool * bool :=
  if starts_with tail GLM_VALUE_END then (true, bool_decide (length tail = length GLM_VALUE_END)) else (false, false).

Definition agent_tool_value_close_tail (syntax : agent_tool_syntax) (tail : bytes) : bool * bool :=
  match syntax with
  | AGENT_TOOL_SYNTAX_GLM => agent_glm_arg_value_close_tail tail
  | AGENT_TOOL_SYNTAX_DSML => agent_dsml_parameter_close_tail tail
  end.

Definition is_param_value (p : agent_dsml_parser) : bool :=
  match ps_state p with AGENT_DSML_PARAM_VALUE => true | _ => false end.

Definition agent_dsml_update_param_close_prefix (p : agent_dsml_parser) : agent_dsml_parser :=
  let raw_len := length (ps_raw p) in
  let holds :=
    if negb (is_param_value p) || (raw_len <=? ps_param_value_start p)%nat then false
    else match rfind (ps_raw p) 60 (ps_param_value_start p) raw_len with
         | None => false
         | Some lt =>
             let tail := drop lt (ps_raw p) in
             if (64 <? length tail)%nat then false
             else let '(found, complete) := agent_tool_value_close_tail (ps_syntax p) tail in found && negb complete
         end in
  set_close_prefix holds p.

(** The first closing tag: its place and its length. *)
Fixpoint find_close_loop (fuel : nat) (s name : bytes) (off : nat) : option (nat * nat) :=
  match fuel with
  | O => None
  | S fuel' =>
      match strstr dsml_close s with
      | None => None
      | Some i =>
          match agent_dsml_close_tag_at (drop i s) name with
          | Some n => Some ((off + i)%nat, n)
          | None => find_close_loop fuel' (drop (S i) s) name (off + S i)
          end
      end
  end.
Definition agent_dsml_find_close_tag (s name : bytes) : option (nat * nat) :=
  let s := c_string s in find_close_loop (S (length s)) s name 0.

(** [agent_bytes_starts_with] is [starts_with]. *)
Definition agent_bytes_partial_prefix_at (s prefix : bytes) : bool :=
  (length s <? length prefix)%nat && starts_with s prefix.

Definition is_active (p : agent_dsml_parser) : bool :=
  match ps_state p with AGENT_DSML_STRUCTURAL | AGENT_DSML_PARAM_VALUE => true | _ => false end.

(** The text at the cursor. *)
Definition at_pos (p : agent_dsml_parser) : bytes := drop (ps_parse_pos p) (ps_raw p).

(** The loop that moves the cursor over white space. *)
Definition skip_pos (p : agent_dsml_parser) : agent_dsml_parser :=
  set_pos (ps_parse_pos p + (length (at_pos p) - length (agent_skip_ascii_space (at_pos p))))%nat p.

(** A value that is complete becomes an argument; reading goes on behind its
    closing tag. *)
Definition close_value (e tag_len : nat) (end_tag : bytes) (is_string : bool) (p : agent_dsml_parser) : agent_dsml_parser :=
  let start := ps_param_value_start p in
  set_state AGENT_DSML_STRUCTURAL (set_pos (start + e + tag_len)%nat (set_close_prefix false (set_param_name None
    (set_current (agent_tool_call_add_arg (ps_current p) (default [] (ps_param_name p)) (take e (drop start (ps_raw p))) is_string end_tag) p)))).

(** A value begins at [pos]. *)
Definition open_value (pos : nat) (p : agent_dsml_parser) : agent_dsml_parser :=
  set_state AGENT_DSML_PARAM_VALUE (set_close_prefix false (set_value_start pos (set_pos pos p))).

Definition is_none {A} (o : option A) : bool := match o with None => true | Some _ => false end.

(** One round of the loop of [agent_glm_tool_parse] behind the name: the end of
    the call, or a key and the start of its value. *)
Definition glm_member (p : agent_dsml_parser) : agent_dsml_parser * bool :=
  let cur := at_pos p in
  if starts_with GLM_CALL_END cur then
    (set_after_call true (agent_tool_calls_push (set_pos (ps_parse_pos p + length GLM_CALL_END)%nat p)), true)
  else if agent_bytes_partial_prefix_at cur GLM_CALL_END then (p, false)
  else if negb (starts_with GLM_KEY_START cur) then
    if agent_bytes_partial_prefix_at cur GLM_KEY_START then (p, false)
    else (agent_dsml_set_error (bs "expected <arg_key> in GLM tool call") p, false)
  else
    let cur := drop (length GLM_KEY_START) cur in
    match strstr GLM_KEY_END (c_string cur) with
    | None => (p, false)
    | Some k =>
        let key := agent_trim_span (take k cur) in
        if bool_decide (key = []) then (agent_dsml_set_error (bs "empty <arg_key> in GLM tool call") p, false)
        else
          let key := ds4_tool_text_unescape key GLM_KEY_END in
          let cur := agent_skip_ascii_space (drop (k + length GLM_KEY_END) cur) in
          if negb (starts_with GLM_VALUE_START cur) then
            if agent_bytes_partial_prefix_at cur GLM_VALUE_START then (p, false)
            else (agent_dsml_set_error (bs "expected <arg_value> in GLM tool call") p, false)
          else (open_value (length (ps_raw p) - length cur + length GLM_VALUE_START)%nat (set_is_string true (set_param_name (Some key) p)), true)
    end.

(** The name of the call is behind [<tool_call>]: all that comes before a tag. *)
Definition glm_name (p : agent_dsml_parser) : agent_dsml_parser + agent_dsml_parser :=
  let s := agent_skip_ascii_space (at_pos p) in
  match strstr [60] s with
  | None => inl p
  | Some i =>
      let lt := drop i s in
      if negb (starts_with GLM_KEY_START lt) && negb (starts_with GLM_CALL_END lt) then
        if agent_bytes_partial_prefix_at lt GLM_KEY_START || agent_bytes_partial_prefix_at lt GLM_CALL_END then inl p
        else inl (agent_dsml_set_error (bs "expected <arg_key> or </tool_call> in GLM tool call") p)
      else
        let name := agent_trim_span (take i s) in
        if bool_decide (name = []) then inl (agent_dsml_set_error (bs "GLM tool call without function name") p)
        else inr (set_pos (length (ps_raw p) - length lt)%nat (set_current (AgentCall (Some (c_string name)) []) p))
  end.

Definition at_end (p : agent_dsml_parser) : bool := (length (ps_raw p) <=? ps_parse_pos p)%nat.

(** Behind the white space, outside a value. *)
Definition glm_structural (p : agent_dsml_parser) : agent_dsml_parser * bool :=
  if at_end p then (p, false)
  else
    let cur := at_pos p in
    if ps_glm_after_call p then
      if starts_with GLM_CALL_START cur then (set_after_call false (set_pos (ps_parse_pos p + length GLM_CALL_START)%nat p), true)
      else if agent_bytes_partial_prefix_at cur GLM_CALL_START then (p, false)
      else (set_state AGENT_DSML_DONE (set_after_call false p), false)
    else if is_none (ac_name (ps_current p)) then
      match glm_name p with inl p => (p, false) | inr p => glm_member p end
    else glm_member p.

Definition glm_iter (p : agent_dsml_parser) : agent_dsml_parser * bool :=
  if is_param_value p then
    match strstr GLM_VALUE_END (c_string (drop (ps_param_value_start p) (ps_raw p))) with
    | None => (p, false)
    | Some e => (close_value e (length GLM_VALUE_END) GLM_VALUE_END true p, true)
    end
  else glm_structural (skip_pos p).

(** A tag at the cursor that is not a closing tag. *)
Definition dsml_tag (tag : bytes) (p : agent_dsml_parser) : agent_dsml_parser * bool :=
  let next := (ps_parse_pos p + length tag)%nat in
  if agent_dsml_open_tag_is tag (bs "invoke") then
    let p := set_current (AgentCall (agent_parse_attr tag (bs "name")) []) p in
    if is_none (ac_name (ps_current p)) then (agent_dsml_set_error (bs "tool invoke without name") p, false)
    else (set_pos next p, true)
  else if agent_dsml_open_tag_is tag (bs "parameter") then
    let is_string := match agent_parse_attr tag (bs "string") with Some v => bytes_eqb v (bs "true") | None => false end in
    let p := set_is_string is_string (set_param_name (agent_parse_attr tag (bs "name")) p) in
    if is_none (ps_param_name p) then (agent_dsml_set_error (bs "tool parameter without name") p, false)
    else (open_value next p, true)
  else (agent_dsml_set_error (bs "unexpected DSML tag: " ++ take 80 tag) p, false).

Definition dsml_structural (p : agent_dsml_parser) : agent_dsml_parser * bool :=
  if at_end p then (p, false)
  else
    match agent_dsml_close_tag_at (at_pos p) (bs "tool_calls") with
    | Some n => (set_state AGENT_DSML_DONE (set_pos (ps_parse_pos p + n)%nat (agent_tool_calls_push p)), false)
    | None =>
        match agent_dsml_close_tag_at (at_pos p) (bs "invoke") with
        | Some n => (set_pos (ps_parse_pos p + n)%nat (agent_tool_calls_push p), true)
        | None =>
            match strstr [62] (c_string (at_pos p)) with
            | None => (p, false)
            | Some i => dsml_tag (take (S i) (at_pos p)) p
            end
        end
    end.

(** One round of the loop of [agent_dsml_parse]. *)
Definition dsml_iter (p : agent_dsml_parser) : agent_dsml_parser * bool :=
  if is_param_value p then
    match agent_dsml_find_close_tag (drop (ps_param_value_start p) (ps_raw p)) (bs "parameter") with
    | None => (p, false)
    | Some (e, tag_len) => (close_value e tag_len DSML_PARAM_END (ps_param_is_string p) p, true)
    end
  else dsml_structural (skip_pos p).

(** [while (p->state == AGENT_DSML_STRUCTURAL || ...)]. *)
Fixpoint parse_loop (iter : agent_dsml_parser -> agent_dsml_parser * bool) (fuel : nat) (p : agent_dsml_parser) : agent_dsml_parser :=
  match fuel with
  | O => p
  | S fuel' =>
      if is_active p then let '(p', more) := iter p in if more then parse_loop iter fuel' p' else p'
      else p
  end.

Definition parse_fuel (p : agent_dsml_parser) : nat := S (length (ps_raw p)).

Definition agent_glm_tool_parse (p : agent_dsml_parser) : agent_dsml_parser :=
  if negb (starts_with GLM_CALL_START (ps_raw p)) then p else parse_loop glm_iter (parse_fuel p) p.

Definition agent_dsml_parse (p : agent_dsml_parser) : agent_dsml_parser :=
  match ps_syntax p with
  | AGENT_TOOL_SYNTAX_GLM => agent_glm_tool_parse p
  | AGENT_TOOL_SYNTAX_DSML => parse_loop dsml_iter (parse_fuel p) p
  end.

Definition agent_dsml_finish (p : agent_dsml_parser) : agent_dsml_parser :=
  match ps_state p, ps_syntax p with
  | AGENT_DSML_DONE, _ | AGENT_DSML_ERROR, _ => p
  | _, AGENT_TOOL_SYNTAX_DSML => p
  | _, AGENT_TOOL_SYNTAX_GLM =>
      if negb (ps_glm_after_call p) then p
      else
        let p := skip_pos p in
        if at_end p then set_state AGENT_DSML_DONE (set_after_call false p) else p
  end.

Definition start_of (syntax : agent_tool_syntax) : bytes :=
  match syntax with AGENT_TOOL_SYNTAX_GLM => GLM_CALL_START | AGENT_TOOL_SYNTAX_DSML => DS4_TOOL_CALLS_START end.

Definition agent_dsml_start (p : agent_dsml_parser) : agent_dsml_parser :=
  let start := start_of (ps_syntax p) in
  set_pos (length start) (set_raw (ps_raw p ++ start) (set_tail [] (set_state AGENT_DSML_STRUCTURAL p))).

Definition SEARCH_TAIL : nat := 64.

Definition is_search (p : agent_dsml_parser) : bool :=
  match ps_state p with AGENT_DSML_SEARCH => true | _ => false end.

(** The body of the loop of [agent_dsml_feed]. *)
Definition feed_byte (p : agent_dsml_parser) (c : Z) : agent_dsml_parser :=
  if is_search p then
    let start := start_of (ps_syntax p) in
    let tail := ps_search_tail p in
    let tail := (if (length tail =? SEARCH_TAIL)%nat then drop 1 tail else tail) ++ [c] in
    let p := set_tail tail p in
    if (length start <=? length tail)%nat && starts_with start (drop (length tail - length start) tail)
    then agent_dsml_start p else p
  else
    let p := agent_dsml_parse (set_raw (ps_raw p ++ [c]) p) in
    if is_param_value p then agent_dsml_update_param_close_prefix p else set_close_prefix false p.

Definition is_finished (p : agent_dsml_parser) : bool :=
  match ps_state p with AGENT_DSML_DONE | AGENT_DSML_ERROR => true | _ => false end.

Definition agent_dsml_feed (p : agent_dsml_parser) (s : bytes) : agent_dsml_parser :=
  if is_finished p then p else foldl feed_byte p s.

Definition arg_of (n v : string) := AgentArg (bs n) (bs v) true.
Example feed_dsml :
  let p := foldl agent_dsml_feed (agent_dsml_parser_reset AGENT_TOOL_SYNTAX_DSML)
    [bs "I look. <｜DSML｜tool_calls><｜DSML｜invoke name=" ++ [34] ++ bs "bash" ++ [34] ++ bs "><｜DSML｜parameter name=" ++ [34] ++ bs "command" ++ [34; 32] ++ bs "string=" ++ [34];
     bs "true" ++ [34] ++ bs ">ls <x></｜DSML｜param"; bs "eter ｜ ></｜DSML｜invoke></｜DSML｜tool_calls>"; bs "more"] in
  ps_state p = AGENT_DSML_DONE /\ ps_calls p = [AgentCall (Some (bs "bash")) [arg_of "command" "ls <x>"]].
Proof. vm_compute. split; reflexivity. Qed.

Example feed_glm :
  let p := agent_dsml_feed (agent_dsml_parser_reset AGENT_TOOL_SYNTAX_GLM)
    (bs "<tool_call>bash<arg_key>command</arg_key> <arg_value>a&lt;/arg_value>b</arg_value></tool_call> <tool_call>x</tool_call> ") in
  ps_state p = AGENT_DSML_STRUCTURAL /\ ps_calls p = [AgentCall (Some (bs "bash")) [arg_of "command" "a</arg_value>b"]; AgentCall (Some (bs "x")) []] /\
  ps_state (agent_dsml_finish p) = AGENT_DSML_DONE.
Proof. vm_compute. split_and!; reflexivity. Qed.

(** ** What more text does not change *)

Section Append.
Lemma starts_with_more p v e : starts_with p v = true -> starts_with p (v ++ e) = true.
Proof. intros [r ->]%starts_with_iff. rewrite <- (assoc_L (++)). apply starts_with_app. Qed.

(** A prefix is decided where it fits, or where a byte differs. *)
Lemma starts_with_less p v e : (length p <= length v)%nat -> starts_with p (v ++ e) = starts_with p v.
Proof. apply starts_with_front. Qed.

Lemma starts_with_decided p v e : starts_with p v = false -> agent_bytes_partial_prefix_at v p = false ->
  starts_with p (v ++ e) = false /\ agent_bytes_partial_prefix_at (v ++ e) p = false.
Proof.
  unfold agent_bytes_partial_prefix_at. intros Hs Hp. destruct (decide (length p <= length v)%nat) as [Hl|Hl].
  - rewrite starts_with_less by done. split; [done|]. rewrite (proj2 (Nat.ltb_ge _ _)); [done|]. rewrite length_app. lia.
  - rewrite (proj2 (Nat.ltb_lt _ _)) in Hp by lia. cbn [andb] in Hp. split; apply not_true_iff_false; intros H.
    + apply starts_with_iff in H as [r Hr]. apply not_true_iff_false in Hp. apply Hp. apply starts_with_iff. exists (drop (length v) p).
      pose proof (f_equal (take (length v)) Hr) as Ht. rewrite take_app_length, take_app_le in Ht by lia. rewrite Ht at 1. symmetry. apply take_drop.
    + apply andb_true_iff in H as [_ H]. apply starts_with_iff in H as [r ->]. apply not_true_iff_false in Hp. apply Hp. rewrite <- (assoc_L (++)). apply starts_with_app.
Qed.

Lemma partial_not_start v p : agent_bytes_partial_prefix_at v p = true -> starts_with p v = false.
Proof.
  unfold agent_bytes_partial_prefix_at. intros [Hl%Nat.ltb_lt _]%andb_true_iff. apply not_true_iff_false. intros H%starts_with_length. lia.
Qed.

Lemma start_not_partial v p : starts_with p v = true -> agent_bytes_partial_prefix_at v p = false.
Proof. intros H. apply not_true_iff_false. intros Hp%partial_not_start. congruence. Qed.

Lemma strstr_more p v e i : strstr p v = Some i -> strstr p (v ++ e) = Some i.
Proof.
  intros H. pose proof (strstr_Some _ _ _ H) as [Hi Hb]. pose proof (starts_with_length _ _ Hi) as Hl. rewrite length_drop in Hl.
  assert (Hle : (i <= length v)%nat). { destruct (decide (i <= length v)%nat); [done|]. exfalso. specialize (Hb (length v) ltac:(lia)). rewrite drop_ge in Hb by done. rewrite drop_ge in Hi by lia. congruence. }
  apply strstr_at; [rewrite drop_app_le by done; by apply starts_with_more|]. intros j Hj. rewrite drop_app_le by lia. rewrite starts_with_less; [by apply Hb|]. rewrite length_drop. lia.
Qed.

Lemma strstr_le p v i : strstr p v = Some i -> (i + length p <= length v)%nat.
Proof.
  revert i. induction v as [|c v IH]; intros i; cbn [strstr]; case_if; try done; try (intros [= <-]; apply starts_with_length in E; cbn in *; lia).
  destruct (strstr p v) as [k|]; [|done]. intros [= <-]. specialize (IH k eq_refl). cbn. lia.
Qed.

(** The C string of a longer text. *)
Lemma c_string_more v e : c_string (v ++ e) = c_string v ++ (if bool_decide (0 ∈ v) then [] else c_string e).
Proof.
  induction v as [|c v IH]; [done|]. cbn [app c_string]. destruct (Z.eqb_spec c 0) as [->|Hc].
  - rewrite bool_decide_true by apply list_elem_of_here. done.
  - rewrite IH. cbn. f_equal. f_equal. destruct (decide (0 ∈ v)) as [H|H].
    + rewrite !bool_decide_true; [done| by apply list_elem_of_further|done].
    + rewrite !bool_decide_false; [done|set_solver|done].
Qed.

Lemma c_string_prefix v : exists w, v = c_string v ++ w.
Proof. induction v as [|c v [w IH]]; [by exists []|]. cbn [c_string]. destruct (c =? 0); [by exists (c :: v)|]. exists w. by rewrite IH at 1. Qed.

Lemma c_strstr_more p v e i : strstr p (c_string v) = Some i -> strstr p (c_string (v ++ e)) = Some i.
Proof. intros H. rewrite c_string_more. by apply strstr_more. Qed.

Lemma c_strstr_le p v i : strstr p (c_string v) = Some i -> (i + length p <= length v)%nat.
Proof. intros H%strstr_le. destruct (c_string_prefix v) as [w Hw]. apply (f_equal length) in Hw. rewrite length_app in Hw. lia. Qed.

(** White space. *)
Lemma skip_drop s : agent_skip_ascii_space s = drop (length s - length (agent_skip_ascii_space s)) s.
Proof.
  assert (Hle : forall s, (length (agent_skip_ascii_space s) <= length s)%nat) by (clear; induction s as [|c s IH]; cbn [agent_skip_ascii_space]; [done|]; case_if; cbn; lia).
  induction s as [|c s IH]; [done|]. cbn [agent_skip_ascii_space]. case_if; [|by rewrite Nat.sub_diag].
  replace (length (c :: s) - length (agent_skip_ascii_space s))%nat with (S (length s - length (agent_skip_ascii_space s))) by (specialize (Hle s); cbn; lia). exact IH.
Qed.

Lemma skip_le s : (length (agent_skip_ascii_space s) <= length s)%nat.
Proof. rewrite skip_drop, length_drop. lia. Qed.

Lemma skip_more s e : agent_skip_ascii_space (s ++ e) = agent_skip_ascii_space (agent_skip_ascii_space s ++ e).
Proof. induction s as [|c s IH]; [done|]. cbn [app agent_skip_ascii_space]. case_if; [exact IH|]. cbn [app agent_skip_ascii_space]. by rewrite E. Qed.

Lemma skip_skip s : agent_skip_ascii_space (agent_skip_ascii_space s) = agent_skip_ascii_space s.
Proof. pose proof (skip_more s []) as H. rewrite !app_nil_r in H. done. Qed.

Lemma skip_stop s c r : agent_skip_ascii_space s = c :: r -> agent_ws c = false.
Proof. induction s as [|x s IH]; [done|]. cbn [agent_skip_ascii_space]. case_if; [exact IH|]. by intros [= -> _]. Qed.

Lemma skip_ne_more s e : agent_skip_ascii_space s <> [] -> agent_skip_ascii_space (s ++ e) = agent_skip_ascii_space s ++ e.
Proof.
  intros H. rewrite skip_more. destruct (agent_skip_ascii_space s) as [|c r] eqn:E; [done|]. cbn. by rewrite (skip_stop _ _ _ E).
Qed.
End Append.

(** ** Closing tags are decided by the next [>] *)

Section Close.
Context (name : bytes) (Hgt : 62 ∉ dsml_close ++ name) (Hlt : 60 ∉ name).
Abbreviation prefix := (dsml_close ++ name).

(** What stands between the name and the [>]. *)
Definition strip_bar (t : bytes) : bytes := if starts_with dsml_bar t then drop (length dsml_bar) t else t.
Definition close_mid (a : bytes) : bool :=
  starts_with prefix a && bool_decide (agent_skip_ascii_space (strip_bar (agent_skip_ascii_space (drop (length prefix) a))) = []).

Lemma starts_with_stopped p c a r : c ∉ p -> starts_with p (a ++ c :: r) = starts_with p a.
Proof.
  revert p. induction a as [|x a IH]; intros [|y p] Hp; try done; apply not_elem_of_cons in Hp as [Hy Hp]; cbn.
  - rewrite (proj2 (Z.eqb_neq y c)) by (intros ->; by apply Hy). done.
  - by rewrite IH.
Qed.

Lemma skip_gt a r : agent_skip_ascii_space (a ++ 62 :: r) = agent_skip_ascii_space a ++ 62 :: r.
Proof. rewrite skip_more. destruct (agent_skip_ascii_space a) as [|c s] eqn:E; [done|]. cbn. by rewrite (skip_stop _ _ _ E). Qed.

Lemma skip_sub a c : c ∈ agent_skip_ascii_space a -> c ∈ a.
Proof. rewrite skip_drop. apply subseteq_drop. Qed.

Lemma bar_sub a c : c ∈ strip_bar a -> c ∈ a.
Proof. unfold strip_bar. case_if; [|done]. apply subseteq_drop. Qed.

Lemma bar_gt a r : strip_bar (a ++ 62 :: r) = strip_bar a ++ 62 :: r.
Proof.
  unfold strip_bar. rewrite starts_with_stopped by (by apply (bool_decide_unpack _)). case_if; [|done]. apply starts_with_length in E. by rewrite drop_app_le.
Qed.

Lemma close_tag_gt a r : 62 ∉ a -> agent_dsml_close_tag_at (a ++ 62 :: r) name = if close_mid a then Some (S (length a)) else None.
Proof using Hgt.
  intros Ha. unfold agent_dsml_close_tag_at, close_mid. rewrite starts_with_stopped by done. destruct (starts_with prefix a) eqn:E; cbn [negb andb]; [|done].
  rewrite drop_app_le by (by apply starts_with_length). fold (strip_bar (agent_skip_ascii_space (drop (length prefix) a ++ 62 :: r))). rewrite skip_gt, bar_gt, skip_gt.
  set (t := agent_skip_ascii_space (strip_bar (agent_skip_ascii_space (drop (length prefix) a)))). destruct t as [|c t'] eqn:Et.
  - cbn [app]. change (cget (62 :: r) 0 =? 62) with true. rewrite bool_decide_true by done. f_equal. rewrite length_app. cbn [length]. lia.
  - rewrite bool_decide_false by done. change (cget ((c :: t') ++ 62 :: r) 0) with c. rewrite (proj2 (Z.eqb_neq c 62)); [done|]. intros ->.
    apply Ha. apply (subseteq_drop (length prefix)), skip_sub, bar_sub, skip_sub. fold t. rewrite Et. apply list_elem_of_here.
Qed.

Lemma close_tag_no_gt s : 62 ∉ s -> agent_dsml_close_tag_at s name = None.
Proof.
  intros Hs. unfold agent_dsml_close_tag_at. destruct (starts_with prefix s) eqn:E; cbn [negb]; [|done]. fold (strip_bar (agent_skip_ascii_space (drop (length prefix) s))).
  set (t := agent_skip_ascii_space (strip_bar (agent_skip_ascii_space (drop (length prefix) s)))). destruct t as [|c t'] eqn:Et; [done|].
  change (cget (c :: t') 0) with c. rewrite (proj2 (Z.eqb_neq c 62)); [done|]. intros ->. apply Hs. apply (subseteq_drop (length prefix)), skip_sub, bar_sub, skip_sub. fold t. rewrite Et. apply list_elem_of_here.
Qed.

Lemma first_gt s : 62 ∈ s -> exists a r, s = a ++ 62 :: r /\ (62 ∉ a).
Proof. intros (a & r & -> & Ha)%list_elem_of_split_l. by exists a, r. Qed.

Lemma close_tag_Some s n : agent_dsml_close_tag_at s name = Some n ->
  exists a r, s = a ++ 62 :: r /\ (62 ∉ a) /\ n = S (length a) /\ close_mid a = true.
Proof using Hgt.
  intros H. destruct (decide (62 ∈ s)) as [Hin|Hin]; [|rewrite close_tag_no_gt in H; done]. destruct (first_gt s Hin) as (a & r & -> & Ha). rewrite close_tag_gt in H by done.
  destruct (close_mid a) eqn:E; [|done]. injection H as <-. by exists a, r.
Qed.

(** More text behind the [>] decides nothing. *)
Lemma close_tag_more s e : 62 ∈ s -> agent_dsml_close_tag_at (s ++ e) name = agent_dsml_close_tag_at s name.
Proof using Hgt. intros (a & r & -> & Ha)%first_gt. rewrite <- (assoc_L (++)), <- app_comm_cons. by rewrite !close_tag_gt. Qed.

Lemma close_tag_Some_more s e n : agent_dsml_close_tag_at s name = Some n -> agent_dsml_close_tag_at (s ++ e) name = Some n.
Proof using Hgt. intros H. rewrite close_tag_more; [done|]. destruct (close_tag_Some _ _ H) as (a & r & -> & _). rewrite elem_of_app. right. apply list_elem_of_here. Qed.

Lemma skip_all t : agent_skip_ascii_space t = [] -> Forall (fun c => agent_ws c = true) t.
Proof. induction t as [|c t IH]; [done|]. cbn [agent_skip_ascii_space]. case_if; [|done]. intros H. constructor; auto. Qed.

(** Such a text begins with its only [<], and has no NUL. *)
Lemma close_mid_head a : close_mid a = true -> exists a', a = 60 :: a' /\ (60 ∉ a') /\ (0 ∉ name -> 0 ∉ a).
Proof using Hlt.
  unfold close_mid. intros [(r & ->)%starts_with_iff H%bool_decide_eq_true]%andb_true_iff. rewrite drop_app_length in H. exists (drop 1 dsml_close ++ name ++ r). split; [done|].
  assert (Hr : forall c, agent_ws c = false -> c ∉ dsml_bar -> c ∉ r).
  { intros c Hc Hb. assert (Hs : c ∉ agent_skip_ascii_space r).
    { intros Hin. assert (Hs' : c ∈ strip_bar (agent_skip_ascii_space r)).
      { unfold strip_bar. case_if; [|done]. apply starts_with_iff in E as [x Ex]. rewrite Ex, drop_app_length. rewrite Ex in Hin. apply elem_of_app in Hin as [Hin|Hin]; done. }
      apply skip_all in H. rewrite Forall_forall in H. apply H in Hs'. congruence. }
    clear H. induction r as [|x r IH]; [set_solver|]. cbn [agent_skip_ascii_space] in Hs. destruct (agent_ws x) eqn:E; [|done]. apply not_elem_of_cons. split; [congruence|]. by apply IH. }
  assert (H60 : 60 ∉ r) by (apply Hr; [done|by apply (bool_decide_unpack _)]). assert (H0 : 0 ∉ r) by (apply Hr; [done|by apply (bool_decide_unpack _)]).
  split; [|intros Hn]; rewrite !elem_of_app.
  - intros [Hx|[Hx|Hx]]; [revert Hx; by apply (bool_decide_unpack _)|done|done].
  - intros [[Hx|Hx]|Hx]; [revert Hx; by apply (bool_decide_unpack _)|done|done].
Qed.

(** *** The first closing tag of a value *)

Definition first_close (s : bytes) (k n : nat) : Prop :=
  agent_dsml_close_tag_at (drop k s) name = Some n /\ forall j, (j < k)%nat -> agent_dsml_close_tag_at (drop j s) name = None.

Lemma close_tag_open s : starts_with dsml_close s = false -> agent_dsml_close_tag_at s name = None.
Proof.
  intros H. unfold agent_dsml_close_tag_at. destruct (starts_with prefix s) eqn:E; [|done]. exfalso. apply starts_with_iff in E as [r ->]. rewrite <- (assoc_L (++)), starts_with_app in H. done.
Qed.

Lemma find_close_spec fuel : forall s off, (length s < fuel)%nat ->
  match find_close_loop fuel s name off with
  | Some (k, n) => exists i, k = (off + i)%nat /\ first_close s i n
  | None => forall j, agent_dsml_close_tag_at (drop j s) name = None
  end.
Proof.
  induction fuel as [|fuel IH]; intros s off Hf; [lia|]. cbn [find_close_loop]. destruct (strstr dsml_close s) as [i|] eqn:Es.
  - pose proof (strstr_Some _ _ _ Es) as [Hi Hb]. pose proof (strstr_le _ _ _ Es) as Hle. change (length dsml_close) with 12%nat in Hle. assert (Hnone : forall j, (j < i)%nat -> agent_dsml_close_tag_at (drop j s) name = None) by (intros j Hj; by apply close_tag_open, Hb).
    destruct (agent_dsml_close_tag_at (drop i s) name) as [n|] eqn:Ei; [exists i; split; [done|split; done]|].
    specialize (IH (drop (S i) s) (off + S i)%nat). rewrite length_drop in IH. specialize (IH ltac:(lia)). destruct (find_close_loop fuel (drop (S i) s) name (off + S i)) as [[k n]|].
    + destruct IH as (x & -> & Hx & Hbx). exists (S i + x)%nat. split; [lia|]. split; [by rewrite drop_drop in Hx|]. intros j Hj. destruct (decide (j < i)%nat); [by apply Hnone|]. destruct (decide (j = i)) as [->|]; [done|].
      specialize (Hbx (j - S i)%nat ltac:(lia)). rewrite drop_drop in Hbx. replace (S i + (j - S i))%nat with j in Hbx by lia. done.
    + intros j. destruct (decide (j < i)%nat); [by apply Hnone|]. destruct (decide (j = i)) as [->|]; [done|]. specialize (IH (j - S i)%nat). rewrite drop_drop in IH. replace (S i + (j - S i))%nat with j in IH by lia. done.
  - intros j. apply close_tag_open. by apply strstr_None.
Qed.

Lemma first_close_find s k n : first_close (c_string s) k n <-> agent_dsml_find_close_tag s name = Some (k, n).
Proof.
  unfold agent_dsml_find_close_tag. pose proof (find_close_spec (S (length (c_string s))) (c_string s) 0 ltac:(lia)) as H.
  destruct (find_close_loop (S (length (c_string s))) (c_string s) name 0) as [[k' n']|]; split; try done.
  - destruct H as (i & -> & Hi & Hbi). intros [Hk Hbk]. assert (i = k) as ->; [|by rewrite Hk in Hi; injection Hi as ->]. apply Nat.le_antisymm; apply Nat.nlt_ge; intros Hx; [by rewrite (Hbi k Hx) in Hk|by rewrite (Hbk i Hx) in Hi].
  - intros [= -> ->]. by destruct H as (i & -> & Hi).
  - intros [Hk _]. by rewrite (H k) in Hk.
Qed.

Lemma find_close_more s e k n : agent_dsml_find_close_tag s name = Some (k, n) -> agent_dsml_find_close_tag (s ++ e) name = Some (k, n).
Proof using Hgt.
  rewrite <- !first_close_find, c_string_more. generalize (if bool_decide (0 ∈ s) then [] else c_string e) (c_string s). clear s e. intros x s [Hk Hb].
  destruct (close_tag_Some _ _ Hk) as (a & r & Hs & Ha & -> & Hm).
  assert (Hlen : (k < length s)%nat) by (apply (f_equal length) in Hs; rewrite length_drop, length_app in Hs; cbn [length] in Hs; lia).
  split; [rewrite drop_app_le by lia; by apply close_tag_Some_more|]. intros j Hj. rewrite drop_app_le by lia. destruct (decide (62 ∈ drop j s)) as [Hin|Hin]; [rewrite close_tag_more by done; by apply Hb|].
  exfalso. apply Hin. rewrite <- (take_drop (k - j) (drop j s)), drop_drop. replace (j + (k - j))%nat with k by lia. rewrite Hs, !elem_of_app. right. right. apply list_elem_of_here.
Qed.

Lemma find_close_bound s k n : agent_dsml_find_close_tag s name = Some (k, n) -> (k + n <= length s)%nat /\ (0 < n)%nat.
Proof using Hgt.
  rewrite <- first_close_find. intros [Hk _]. destruct (close_tag_Some _ _ Hk) as (a & r & Hs & _ & -> & _). destruct (c_string_prefix s) as [w Hw].
  apply (f_equal length) in Hs, Hw. rewrite length_drop, length_app in Hs. rewrite length_app in Hw. cbn [length] in *. lia.
Qed.
End Close.

(** ** A round of the loop, with more text behind *)

Section Rounds.
Definition ext (e : bytes) (p : agent_dsml_parser) : agent_dsml_parser := set_raw (ps_raw p ++ e) p.
Definition lift (e : bytes) (r : agent_dsml_parser * bool) : agent_dsml_parser * bool := (ext e r.1, r.2).

Definition parser_ok (p : agent_dsml_parser) : Prop :=
  (ps_parse_pos p <= length (ps_raw p))%nat /\ (is_param_value p = true -> ps_param_value_start p = ps_parse_pos p).

(** A round that goes on or ends the block does so whatever follows; one that
    waits has done nothing that the next attempt would not do again. *)
Definition round_stable (iter : agent_dsml_parser -> agent_dsml_parser * bool) (p : agent_dsml_parser) : Prop :=
  forall e, if (iter p).2 || negb (is_active (iter p).1) then iter (ext e p) = lift e (iter p)
            else iter (ext e (iter p).1) = iter (ext e p).

(** A round reads forward. *)
Definition round_forward (iter : agent_dsml_parser -> agent_dsml_parser * bool) (p : agent_dsml_parser) : Prop :=
  let r := iter p in
  parser_ok r.1 /\ ps_raw r.1 = ps_raw p /\ ps_syntax r.1 = ps_syntax p /\ is_search r.1 = false /\
  (r.2 = true -> is_active r.1 = true /\ (ps_parse_pos p < ps_parse_pos r.1)%nat).

Lemma at_pos_ext e p : parser_ok p -> at_pos (ext e p) = at_pos p ++ e.
Proof. intros [Hp _]. destruct p; unfold at_pos, ext in *; cbn in *. by rewrite drop_app_le. Qed.

Lemma at_skip p : at_pos (skip_pos p) = agent_skip_ascii_space (at_pos p).
Proof. destruct p; unfold skip_pos, at_pos; cbn. by rewrite <- drop_drop, <- skip_drop. Qed.

Lemma skip_pos_ok p : parser_ok p -> is_param_value p = false -> parser_ok (skip_pos p) /\ is_param_value (skip_pos p) = false.
Proof.
  intros [Hp _] Hv. destruct p; unfold parser_ok, skip_pos, at_pos, is_param_value in *; cbn in *. split; [split; [|congruence]|done]. rewrite length_drop. lia.
Qed.

Lemma skip_ext e p : parser_ok p -> agent_skip_ascii_space (at_pos p) <> [] -> skip_pos (ext e p) = ext e (skip_pos p).
Proof.
  intros Hp Hs. unfold skip_pos at 1. rewrite at_pos_ext, skip_ne_more by done. unfold skip_pos. destruct p; unfold ext; cbn in *. rewrite !length_app. f_equal. lia.
Qed.

Lemma skip_ext_skip e p : parser_ok p -> skip_pos (ext e (skip_pos p)) = skip_pos (ext e p).
Proof.
  intros Hp. assert (Hat : at_pos (ext e (skip_pos p)) = at_pos (skip_pos p) ++ e).
  { destruct Hp as [Hp _]. destruct p; unfold at_pos, skip_pos, ext in *; cbn in *. unfold at_pos. cbn. rewrite drop_app_le; [done|]. rewrite length_drop. lia. }
  assert (Hset : forall a v, set_pos a (ext e (set_pos v p)) = set_pos a (ext e p)) by (intros a v; by destruct p).
  assert (Hpos : ps_parse_pos (ext e (skip_pos p)) = (ps_parse_pos p + (length (at_pos p) - length (agent_skip_ascii_space (at_pos p))))%nat) by (by destruct p).
  unfold skip_pos at 1 3. rewrite Hat, at_skip, at_pos_ext, (skip_more (at_pos p)), Hpos by done. pose proof (skip_le (at_pos p)) as Hle. pose proof (skip_le (agent_skip_ascii_space (at_pos p) ++ e)) as Hle'. rewrite length_app in Hle'.
  replace (ps_parse_pos (ext e p)) with (ps_parse_pos p) by (by destruct p). unfold skip_pos. rewrite Hset. f_equal. rewrite !length_app. lia.
Qed.

Lemma skip_twice e p : parser_ok p -> agent_skip_ascii_space (at_pos p) = at_pos p -> at_pos p <> [] -> skip_pos (ext e p) = ext e p.
Proof.
  intros Hp Hs Hn. rewrite skip_ext by congruence. f_equal. destruct p; unfold skip_pos, at_pos in *; cbn in *. rewrite Hs. f_equal. lia.
Qed.

Lemma at_end_ext e p : at_end p = false -> at_end (ext e p) = false.
Proof. unfold at_end. rewrite !Nat.leb_gt. destruct p; cbn. rewrite length_app. lia. Qed.

Lemma at_end_pos p : at_end p = false -> at_pos p <> [].
Proof. unfold at_end, at_pos. rewrite Nat.leb_gt. intros H Hd. apply (f_equal length) in Hd. rewrite length_drop in Hd. cbn in Hd. lia. Qed.

Lemma close_value_ext e k n tag s p : (ps_param_value_start p + k <= length (ps_raw p))%nat -> close_value k n tag s (ext e p) = ext e (close_value k n tag s p).
Proof.
  intros H. destruct p; unfold close_value, ext; cbn in *. rewrite drop_app_le by lia. rewrite (take_app_le _ e); [done|]. rewrite length_drop. lia.
Qed.
End Rounds.

(** ** DSML *)

Section Dsml.
Lemma parameter_gt : 62 ∉ dsml_close ++ bs "parameter". Proof. by apply (bool_decide_unpack _). Qed.
Lemma invoke_gt : 62 ∉ dsml_close ++ bs "invoke". Proof. by apply (bool_decide_unpack _). Qed.
Lemma tool_calls_gt : 62 ∉ dsml_close ++ bs "tool_calls". Proof. by apply (bool_decide_unpack _). Qed.

Lemma push_ext e p : agent_tool_calls_push (ext e p) = ext e (agent_tool_calls_push p).
Proof. destruct p as [? ? ? ? ? [[|] ?]]; done. Qed.

Lemma push_same p : ps_raw (agent_tool_calls_push p) = ps_raw p /\ ps_parse_pos (agent_tool_calls_push p) = ps_parse_pos p /\
  ps_state (agent_tool_calls_push p) = ps_state p /\ ps_syntax (agent_tool_calls_push p) = ps_syntax p.
Proof. destruct p as [? ? ? ? ? [[|] ?]]; done. Qed.

Lemma dsml_tag_ext e tag p : dsml_tag tag (ext e p) = lift e (dsml_tag tag p).
Proof.
  unfold dsml_tag, lift. destruct (agent_dsml_open_tag_is tag (bs "invoke")), (agent_dsml_open_tag_is tag (bs "parameter")), (agent_parse_attr tag (bs "name")); by destruct p.
Qed.

Lemma dsml_tag_forward tag p : is_active p = true -> tag <> [] -> (ps_parse_pos p + length tag <= length (ps_raw p))%nat -> is_param_value p = false ->
  let r := dsml_tag tag p in
  parser_ok r.1 /\ ps_raw r.1 = ps_raw p /\ ps_syntax r.1 = ps_syntax p /\ is_search r.1 = false /\
  (if r.2 then is_active r.1 = true /\ (ps_parse_pos p < ps_parse_pos r.1)%nat else is_active r.1 = false).
Proof.
  intros Ha Ht Hl Hv. assert (Hpos : (0 < length tag)%nat) by (destruct tag; [done|cbn; lia]).
  unfold dsml_tag. destruct (agent_dsml_open_tag_is tag (bs "invoke")), (agent_dsml_open_tag_is tag (bs "parameter")), (agent_parse_attr tag (bs "name")); destruct p as [? [] ?];
    unfold parser_ok, is_param_value, is_search, is_active in *; cbn in *; split_and!; first [done|lia].
Qed.

Lemma is_active_ext e p : is_active (ext e p) = is_active p. Proof. by destruct p. Qed.
Lemma is_param_ext e p : is_param_value (ext e p) = is_param_value p. Proof. by destruct p. Qed.

(** At a byte that is no white space: the same with more text, or waiting. *)
Lemma dsml_structural_stable q : parser_ok q -> is_active q = true -> is_param_value q = false -> agent_skip_ascii_space (at_pos q) = at_pos q ->
  forall e, let r := dsml_structural q in
  if r.2 || negb (is_active r.1) then dsml_structural (skip_pos (ext e q)) = lift e r else r = (q, false).
Proof.
  intros Hq Ha Hv Hs e. cbv zeta. destruct (at_end q) eqn:Eend; [unfold dsml_structural; rewrite Eend; cbn [fst snd]; by rewrite Ha|].
  assert (Hsk : skip_pos (ext e q) = ext e q) by (apply skip_twice; [done|done|by apply at_end_pos]). rewrite Hsk.
  unfold dsml_structural. rewrite Eend, (at_end_ext e q Eend), (at_pos_ext e q Hq). set (s := at_pos q).
  destruct (agent_dsml_close_tag_at s (bs "tool_calls")) as [n|] eqn:E1.
  { rewrite (close_tag_Some_more _ tool_calls_gt _ _ _ E1). cbn [fst snd orb]. 
    assert (Hact : is_active (set_state AGENT_DSML_DONE (set_pos (ps_parse_pos q + n) (agent_tool_calls_push q))) = false) by (by destruct (agent_tool_calls_push q)). rewrite Hact. cbn [negb].
    rewrite push_ext. unfold lift. cbn [fst snd]. f_equal. replace (ps_parse_pos (ext e q)) with (ps_parse_pos q) by (by destruct q). by destruct (agent_tool_calls_push q). }
  destruct (agent_dsml_close_tag_at s (bs "invoke")) as [n|] eqn:E2.
  { cbn [fst snd orb]. pose proof (close_tag_Some _ invoke_gt _ _ E2) as (a & r & Hsa & _). assert (Hin : 62 ∈ s) by (rewrite Hsa, elem_of_app; right; apply list_elem_of_here).
    rewrite (close_tag_more _ tool_calls_gt _ _ Hin), E1, (close_tag_Some_more _ invoke_gt _ _ _ E2), push_ext. unfold lift. cbn [fst snd]. f_equal. replace (ps_parse_pos (ext e q)) with (ps_parse_pos q) by (by destruct q). by destruct (agent_tool_calls_push q). }
  destruct (strstr [62] (c_string s)) as [i|] eqn:E3; [|cbn [fst snd orb]; by rewrite Ha].
  pose proof (c_strstr_le _ _ _ E3) as Hle. cbn [length] in Hle.
  assert (Hin : 62 ∈ s). { destruct (strstr_Some _ _ _ E3) as [[r Hr]%starts_with_iff _]. destruct (c_string_prefix s) as [w ->]. rewrite elem_of_app. left. apply (subseteq_drop i). rewrite Hr. apply list_elem_of_here. }
  rewrite (close_tag_more _ tool_calls_gt _ _ Hin), E1, (close_tag_more _ invoke_gt _ _ Hin), E2, (c_strstr_more _ _ e _ E3), take_app_le by lia. rewrite dsml_tag_ext.
  pose proof (dsml_tag_forward (take (S i) s) q Ha) as Hf. destruct (dsml_tag (take (S i) s) q) as [q' [|]] eqn:Et; cbn [fst snd orb]; [done|].
  destruct Hf as (_ & _ & _ & _ & Hna); [| |done|cbn [fst snd] in Hna; by rewrite Hna].
  - destruct s; [cbn in Hle; lia|done].
  - rewrite length_take. subst s. unfold at_pos in *. rewrite length_drop in *. lia.
Qed.

Lemma skip_same p : ps_raw (skip_pos p) = ps_raw p /\ ps_syntax (skip_pos p) = ps_syntax p /\ ps_state (skip_pos p) = ps_state p /\ (ps_parse_pos p <= ps_parse_pos (skip_pos p))%nat.
Proof. destruct p. unfold skip_pos. cbn. split_and!; done || lia. Qed.

Lemma is_active_skip p : is_active (skip_pos p) = is_active p. Proof. by destruct p. Qed.

Lemma active_search p : is_active p = true -> is_search p = false.
Proof. unfold is_active, is_search. by destruct (ps_state p). Qed.

Lemma close_value_forward k n tag s p : parser_ok p -> is_param_value p = true -> (k + n <= length (drop (ps_param_value_start p) (ps_raw p)))%nat -> (0 < n)%nat ->
  let q := close_value k n tag s p in
  parser_ok q /\ ps_raw q = ps_raw p /\ ps_syntax q = ps_syntax p /\ is_search q = false /\ is_active q = true /\ (ps_parse_pos p < ps_parse_pos q)%nat.
Proof.
  intros [Hp Hv] Hpv Hk Hn. specialize (Hv Hpv). rewrite length_drop in Hk. destruct p. unfold close_value, parser_ok, is_param_value, is_search, is_active in *. cbn in *. split_and!; done || lia.
Qed.

Lemma dsml_stable p : is_active p = true -> parser_ok p -> round_stable dsml_iter p.
Proof.
  intros Ha Hp e. unfold dsml_iter. rewrite is_param_ext. destruct (is_param_value p) eqn:Hv.
  - pose proof Hp as [Hl Hvs]. specialize (Hvs Hv). destruct (agent_dsml_find_close_tag (drop (ps_param_value_start p) (ps_raw p)) (bs "parameter")) as [[k n]|] eqn:Ef; cbn [fst snd orb].
    + pose proof (find_close_bound _ parameter_gt _ _ _ Ef) as [Hb _]. rewrite length_drop in Hb.
      assert (Hd : drop (ps_param_value_start (ext e p)) (ps_raw (ext e p)) = drop (ps_param_value_start p) (ps_raw p) ++ e) by (destruct p; unfold ext; cbn in *; by rewrite drop_app_le by lia).
      rewrite Hd, (find_close_more _ parameter_gt _ e _ _ Ef). unfold lift. cbn [fst snd]. f_equal. rewrite close_value_ext by lia. by destruct p.
    + rewrite Ha. cbn [negb]. by rewrite is_param_ext, Hv.
  - destruct (skip_pos_ok p Hp Hv) as [Hq Hqv]. pose proof (dsml_structural_stable (skip_pos p) Hq ltac:(by rewrite is_active_skip) Hqv ltac:(by rewrite at_skip, skip_skip) e) as H. cbv zeta in H.
    rewrite skip_ext_skip in H by done. destruct (dsml_structural (skip_pos p)) as [q go] eqn:Er. cbn [fst snd] in *. destruct (go || negb (is_active q)); [done|]. injection H as -> ->.
    by rewrite is_param_ext, Hqv, skip_ext_skip.
Qed.

Lemma dsml_forward p : is_active p = true -> parser_ok p -> round_forward dsml_iter p.
Proof.
  intros Ha Hp. unfold round_forward, dsml_iter. destruct (is_param_value p) eqn:Hv.
  - destruct (agent_dsml_find_close_tag (drop (ps_param_value_start p) (ps_raw p)) (bs "parameter")) as [[k n]|] eqn:Ef; cbn [fst snd].
    + destruct (find_close_bound _ parameter_gt _ _ _ Ef) as [Hb Hn]. destruct (close_value_forward k n DSML_PARAM_END (ps_param_is_string p) p Hp Hv Hb Hn) as (? & ? & ? & ? & ? & ?). done.
    + split_and!; try done. by apply active_search.
  - destruct (skip_pos_ok p Hp Hv) as [Hq Hqv]. destruct (skip_same p) as (Hraw & Hsyn & _ & Hpos). rewrite <- is_active_skip in Ha. set (q := skip_pos p) in *. rewrite <- Hraw, <- Hsyn.
    assert (Hgen : forall r : agent_dsml_parser * bool, (parser_ok r.1 /\ ps_raw r.1 = ps_raw q /\ ps_syntax r.1 = ps_syntax q /\ is_search r.1 = false /\ (r.2 = true -> is_active r.1 = true /\ (ps_parse_pos q < ps_parse_pos r.1)%nat)) ->
      parser_ok r.1 /\ ps_raw r.1 = ps_raw q /\ ps_syntax r.1 = ps_syntax q /\ is_search r.1 = false /\ (r.2 = true -> is_active r.1 = true /\ (ps_parse_pos p < ps_parse_pos r.1)%nat)).
    { intros r (? & ? & ? & ? & Hr). split_and!; try done. intros Hgo. destruct (Hr Hgo). split; [done|lia]. }
    apply Hgen. clear Hgen Hpos Hraw Hsyn Hv. clearbody q. clear Hp p. unfold dsml_structural. pose proof (active_search q Ha) as Hns. destruct (at_end q); [done|].
    destruct (push_same q) as (P1 & P2 & P3 & P4). pose proof Hq as [Hl _]. assert (Hat : length (at_pos q) = (length (ps_raw q) - ps_parse_pos q)%nat) by (unfold at_pos; apply length_drop).
    destruct (agent_dsml_close_tag_at (at_pos q) (bs "tool_calls")) as [n|] eqn:E1.
    { destruct (close_tag_Some _ tool_calls_gt _ _ E1) as (a & r & Hs & _ & -> & _). rewrite Hs, length_app in Hat. cbn [length] in Hat. destruct (agent_tool_calls_push q). unfold parser_ok, is_param_value, is_search in *. cbn in *. subst. split_and!; done || lia. }
    destruct (agent_dsml_close_tag_at (at_pos q) (bs "invoke")) as [n|] eqn:E2.
    { destruct (close_tag_Some _ invoke_gt _ _ E2) as (a & r & Hs & _ & -> & _). rewrite Hs, length_app in Hat. cbn [length] in Hat. unfold is_active, is_search, is_param_value in *. rewrite <- P3 in *. destruct (agent_tool_calls_push q). unfold parser_ok, is_param_value in *. cbn in *. subst.
      match goal with H : context [match ?x with AGENT_DSML_SEARCH => _ | _ => _ end] |- _ => destruct x end; cbn in *; split_and!; done || lia. }
    destruct (strstr [62] (c_string (at_pos q))) as [i|] eqn:E3; [|by split_and!].
    pose proof (c_strstr_le _ _ _ E3) as Hle. cbn [length] in Hle. destruct (dsml_tag_forward (take (S i) (at_pos q)) q Ha) as (H1 & H2 & H3 & H4 & H5).
    + destruct (at_pos q); [cbn in Hle; lia|done].
    + rewrite length_take. lia.
    + done.
    + split_and!; try done. intros Hr. by rewrite Hr in H5.
Qed.
End Dsml.

(** ** GLM *)

Section Glm.
Lemma err_ext e msg p : agent_dsml_set_error msg (ext e p) = ext e (agent_dsml_set_error msg p).
Proof. by destruct p. Qed.

Lemma err_inactive msg p : is_active (agent_dsml_set_error msg p) = false.
Proof. by destruct p. Qed.

Lemma not_partial_ne v p : agent_bytes_partial_prefix_at v p = false -> p <> [] -> v <> [].
Proof. intros H Hp ->. destruct p; done. Qed.

Lemma glm_member_stable e q : parser_ok q -> is_active q = true -> let r := glm_member q in
  if r.2 || negb (is_active r.1) then glm_member (ext e q) = lift e r else r = (q, false).
Proof.
  intros Hq Ha. cbv zeta. unfold glm_member. rewrite (at_pos_ext e q Hq). set (cur := at_pos q).
  destruct (starts_with GLM_CALL_END cur) eqn:E1.
  { rewrite (starts_with_more _ _ e E1). cbn [fst snd orb]. unfold lift. cbn [fst snd]. f_equal. by destruct q as [? ? ? ? ? [[|] ?]]. }
  destruct (agent_bytes_partial_prefix_at cur GLM_CALL_END) eqn:E2; [cbn [fst snd orb]; by rewrite Ha|]. destruct (starts_with_decided _ _ e E1 E2) as [-> ->].
  destruct (starts_with GLM_KEY_START cur) eqn:E3; cbn [negb].
  2: { destruct (agent_bytes_partial_prefix_at cur GLM_KEY_START) eqn:E4; [cbn [fst snd orb]; by rewrite Ha|]. destruct (starts_with_decided _ _ e E3 E4) as [-> ->]. cbn [fst snd orb negb]. by rewrite err_inactive, err_ext. }
  rewrite (starts_with_more _ _ e E3). cbn [negb]. rewrite drop_app_le by (by apply starts_with_length). set (cur1 := drop (length GLM_KEY_START) cur).
  destruct (strstr GLM_KEY_END (c_string cur1)) as [k|] eqn:E4; [|cbn [fst snd orb]; by rewrite Ha]. rewrite (c_strstr_more _ _ e _ E4). pose proof (c_strstr_le _ _ _ E4) as Hk. change (length GLM_KEY_END) with 10%nat in *.
  rewrite (take_app_le cur1) by lia. case_bool_decide as E5; [cbn [fst snd orb]; by rewrite err_inactive, err_ext|]. rewrite (drop_app_le cur1) by lia. set (cur2 := drop (k + 10) cur1).
  destruct (starts_with GLM_VALUE_START (agent_skip_ascii_space cur2)) eqn:E6; cbn [negb].
  - assert (Hne : agent_skip_ascii_space cur2 <> []) by (intros Hx; rewrite Hx in E6; done). rewrite (skip_ne_more _ e Hne), (starts_with_more _ _ e E6). cbn [negb fst snd orb]. unfold lift. cbn [fst snd]. f_equal.
    rewrite length_app. destruct q. unfold ext, open_value. cbn [set_raw set_is_string set_param_name set_pos set_value_start set_close_prefix set_state ps_raw]. rewrite length_app. do 2 f_equal; lia.
  - destruct (agent_bytes_partial_prefix_at (agent_skip_ascii_space cur2) GLM_VALUE_START) eqn:E7; [cbn [fst snd orb]; by rewrite Ha|].
    rewrite (skip_ne_more _ e (not_partial_ne _ _ E7 ltac:(done))). destruct (starts_with_decided _ _ e E6 E7) as [-> ->]. cbn [fst snd orb negb]. by rewrite err_inactive, err_ext.
Qed.

Lemma glm_member_forward q : parser_ok q -> is_active q = true -> is_param_value q = false -> let r := glm_member q in
  parser_ok r.1 /\ ps_raw r.1 = ps_raw q /\ ps_syntax r.1 = ps_syntax q /\ is_search r.1 = false /\ (r.2 = true -> is_active r.1 = true /\ (ps_parse_pos q < ps_parse_pos r.1)%nat).
Proof.
  intros Hq Ha Hv. cbv zeta. pose proof (active_search q Ha) as Hns. assert (Herr : forall m, parser_ok (agent_dsml_set_error m q) /\ ps_raw (agent_dsml_set_error m q) = ps_raw q /\ ps_syntax (agent_dsml_set_error m q) = ps_syntax q /\ is_search (agent_dsml_set_error m q) = false).
  { intros m. destruct Hq. destruct q. by split_and!. }
  assert (Hat : length (at_pos q) = (length (ps_raw q) - ps_parse_pos q)%nat) by (unfold at_pos; apply length_drop). pose proof Hq as [Hl _].
  unfold glm_member. destruct (starts_with GLM_CALL_END (at_pos q)) eqn:E1.
  { apply starts_with_length in E1. change (length GLM_CALL_END) with 12%nat in *. unfold parser_ok, is_param_value, is_search, is_active in *. destruct q as [? [] ? ? ? [[|] ?]]; cbn in *; split_and!; done || lia. }
  destruct (agent_bytes_partial_prefix_at (at_pos q) GLM_CALL_END); [by split_and!|]. destruct (starts_with GLM_KEY_START (at_pos q)) eqn:E3; cbn [negb].
  2: { destruct (agent_bytes_partial_prefix_at (at_pos q) GLM_KEY_START); [by split_and!|]. destruct (Herr (bs "expected <arg_key> in GLM tool call")) as (? & ? & ? & ?). by split_and!. }
  apply starts_with_length in E3. set (cur1 := drop (length GLM_KEY_START) (at_pos q)). assert (H1 : length cur1 = (length (at_pos q) - 9)%nat) by (unfold cur1; apply length_drop). change (length GLM_KEY_START) with 9%nat in E3.
  destruct (strstr GLM_KEY_END (c_string cur1)) as [k|] eqn:E4; [|by split_and!]. case_bool_decide; [destruct (Herr (bs "empty <arg_key> in GLM tool call")) as (? & ? & ? & ?); by split_and!|].
  pose proof (skip_le (drop (k + length GLM_KEY_END) cur1)) as Hs. rewrite length_drop in Hs. set (cur2 := agent_skip_ascii_space (drop (k + length GLM_KEY_END) cur1)) in *. change (length GLM_KEY_END) with 10%nat in *.
  destruct (starts_with GLM_VALUE_START cur2) eqn:E6; cbn [negb].
  - apply starts_with_length in E6. change (length GLM_VALUE_START) with 11%nat in *. clear Herr. unfold parser_ok, is_param_value, is_search, is_active, open_value in *. clearbody cur1 cur2. destruct q. cbn in *. split_and!; done || lia.
  - destruct (agent_bytes_partial_prefix_at cur2 GLM_VALUE_START); [by split_and!|]. destruct (Herr (bs "expected <arg_value> in GLM tool call")) as (? & ? & ? & ?). by split_and!.
Qed.

(** With a name, the cursor is at the tag behind it. *)
Lemma glm_name_spec q : parser_ok q -> is_active q = true -> is_param_value q = false -> agent_skip_ascii_space (at_pos q) = at_pos q ->
  match glm_name q with
  | inl r => if is_active r then r = q else exists m, r = agent_dsml_set_error m q
  | inr r => parser_ok r /\ is_active r = true /\ is_param_value r = false /\ ps_raw r = ps_raw q /\ ps_syntax r = ps_syntax q /\ ps_glm_after_call r = ps_glm_after_call q /\
      (exists n, ac_name (ps_current r) = Some n) /\ (exists t, at_pos r = 60 :: t) /\ (ps_parse_pos q <= ps_parse_pos r)%nat
  end /\ forall e, match glm_name q with
    | inl r => if is_active r then True else glm_name (ext e q) = inl (ext e r)
    | inr r => glm_name (ext e q) = inr (ext e r) end.
Proof.
  intros Hq Ha Hv Hs. assert (Hext : forall e, agent_skip_ascii_space (at_pos (ext e q)) = agent_skip_ascii_space (at_pos q ++ e)) by (intros e; by rewrite at_pos_ext).
  unfold glm_name. rewrite Hs. set (s := at_pos q) in *. destruct (strstr [60] s) as [i|] eqn:E1; [|rewrite Ha; split; done].
  pose proof (strstr_le _ _ _ E1) as Hi. cbn [length] in Hi. set (lt := drop i s). assert (Hne : s <> []) by (intros Hx; rewrite Hx in Hi; cbn in Hi; lia).
  assert (Hlt : exists t, lt = 60 :: t) by (destruct (strstr_Some _ _ _ E1) as [[r Hr]%starts_with_iff _]; exists r; exact Hr).
  assert (Hse : forall e, agent_skip_ascii_space (s ++ e) = s ++ e) by (intros e; rewrite skip_ne_more; rewrite Hs; done).
  destruct (negb (starts_with GLM_KEY_START lt) && negb (starts_with GLM_CALL_END lt)) eqn:E2.
  - apply andb_true_iff in E2 as [E2 E3]. apply negb_true_iff in E2, E3. destruct (agent_bytes_partial_prefix_at lt GLM_KEY_START || agent_bytes_partial_prefix_at lt GLM_CALL_END) eqn:E4; [rewrite Ha; split; done|].
    rewrite err_inactive. split; [by eexists|]. intros e. rewrite Hext, Hse, (strstr_more _ _ e _ E1), drop_app_le by lia. fold lt. apply orb_false_iff in E4 as [E4 E5].
    destruct (starts_with_decided _ _ e E2 E4) as [-> ->]. destruct (starts_with_decided _ _ e E3 E5) as [-> ->]. cbn. by rewrite err_ext.
  - assert (Hee : forall e, negb (starts_with GLM_KEY_START (lt ++ e)) && negb (starts_with GLM_CALL_END (lt ++ e)) = false).
    { intros e. apply andb_false_iff in E2 as [E2|E2]; apply negb_false_iff in E2; rewrite (starts_with_more _ _ e E2); [done|]. by rewrite andb_false_r. }
    assert (Hl : length s = (length (ps_raw q) - ps_parse_pos q)%nat) by (unfold s, at_pos; apply length_drop). assert (Hll : length lt = (length s - i)%nat) by (unfold lt; apply length_drop). pose proof Hq as [Hlq _].
    case_bool_decide as E3.
    + rewrite err_inactive. split; [by eexists|]. intros e. rewrite Hext, Hse, (strstr_more _ _ e _ E1), drop_app_le by lia. fold lt. rewrite Hee, (take_app_le s) by lia. rewrite bool_decide_true by done. by rewrite err_ext.
    + split.
      * assert (Hat : drop (length (ps_raw q) - length lt) (ps_raw q) = lt). { replace (length (ps_raw q) - length lt)%nat with (ps_parse_pos q + i)%nat by lia. unfold lt, s, at_pos. by rewrite drop_drop. }
        unfold parser_ok, is_param_value, is_active, at_pos in *. destruct q as [? [] ?]; cbn in *; split_and!; try done; try lia; try (by eexists); by rewrite Hat.
      * intros e. rewrite Hext, Hse, (strstr_more _ _ e _ E1), drop_app_le by lia. fold lt. rewrite Hee, (take_app_le s) by lia. rewrite bool_decide_false by done. f_equal. rewrite length_app.
        clearbody lt. clear -Hll. destruct q. unfold ext. cbn. rewrite length_app. f_equal. lia.
Qed.

Lemma glm_structural_stable q : parser_ok q -> is_active q = true -> is_param_value q = false -> agent_skip_ascii_space (at_pos q) = at_pos q ->
  forall e, let r := glm_structural q in
  if r.2 || negb (is_active r.1) then glm_structural (skip_pos (ext e q)) = lift e r
  else glm_structural (skip_pos (ext e r.1)) = glm_structural (skip_pos (ext e q)) /\ is_param_value r.1 = false.
Proof.
  intros Hq Ha Hv Hs e. cbv zeta. destruct (at_end q) eqn:Eend.
  { assert (Hx : glm_structural q = (q, false)) by (unfold glm_structural; by rewrite Eend). rewrite Hx. cbn [fst snd orb]. by rewrite Ha. }
  assert (Hsk : skip_pos (ext e q) = ext e q) by (apply skip_twice; [done|done|by apply at_end_pos]). rewrite Hsk.
  assert (Hge : glm_structural (ext e q) = let cur := at_pos q ++ e in
    if ps_glm_after_call q then
      if starts_with GLM_CALL_START cur then (set_after_call false (set_pos (ps_parse_pos (ext e q) + length GLM_CALL_START)%nat (ext e q)), true)
      else if agent_bytes_partial_prefix_at cur GLM_CALL_START then (ext e q, false) else (set_state AGENT_DSML_DONE (set_after_call false (ext e q)), false)
    else if is_none (ac_name (ps_current q)) then match glm_name (ext e q) with inl p => (p, false) | inr p => glm_member p end else glm_member (ext e q)).
  { unfold glm_structural at 1. rewrite (at_end_ext e q Eend), (at_pos_ext e q Hq). by destruct q. }
  assert (Hg : glm_structural q = let cur := at_pos q in
    if ps_glm_after_call q then
      if starts_with GLM_CALL_START cur then (set_after_call false (set_pos (ps_parse_pos q + length GLM_CALL_START)%nat q), true)
      else if agent_bytes_partial_prefix_at cur GLM_CALL_START then (q, false) else (set_state AGENT_DSML_DONE (set_after_call false q), false)
    else if is_none (ac_name (ps_current q)) then match glm_name q with inl p => (p, false) | inr p => glm_member p end else glm_member q).
  { unfold glm_structural. by rewrite Eend. }
  rewrite Hg. cbv zeta in *. destruct (ps_glm_after_call q) eqn:Eac.
  { destruct (starts_with GLM_CALL_START (at_pos q)) eqn:E1; [rewrite Hge, (starts_with_more _ _ e E1); cbn [fst snd orb]; by destruct q|].
    destruct (agent_bytes_partial_prefix_at (at_pos q) GLM_CALL_START) eqn:E2; [cbn [fst snd orb]; rewrite Ha; cbn [negb]; by rewrite Hsk|].
    rewrite Hge. destruct (starts_with_decided _ _ e E1 E2) as [-> ->]. by destruct q. }
  destruct (is_none (ac_name (ps_current q))) eqn:En.
  - destruct (glm_name_spec q Hq Ha Hv Hs) as [Hspec He]. specialize (He e). destruct (glm_name q) as [r|r] eqn:Er; cbn [fst snd orb].
    + destruct (is_active r) eqn:Er'; cbn [negb]; [subst r; by rewrite Hsk|]. by rewrite Hge, He.
    + destruct Hspec as (Hr & Har & Hvr & _ & _ & Hac & (n & Hn) & (t & Ht) & _). pose proof (glm_member_stable e r Hr Har) as Hm. cbv zeta in Hm. rewrite Hge, He.
      destruct ((glm_member r).2 || negb (is_active (glm_member r).1)) eqn:E3; [exact Hm|]. rewrite Hm. cbn [fst snd]. split; [|done].
      rewrite skip_twice by (done || by rewrite Ht). unfold glm_structural. assert (Hend : at_end r = false). { unfold at_end. apply Nat.leb_gt. apply (f_equal length) in Ht. unfold at_pos in Ht. rewrite length_drop in Ht. cbn in Ht. lia. }
      rewrite (at_end_ext e r Hend). replace (ps_glm_after_call (ext e r)) with (ps_glm_after_call r) by (by destruct r). replace (ps_current (ext e r)) with (ps_current r) by (by destruct r). by rewrite Hac, Eac, Hn.
  - pose proof (glm_member_stable e q Hq Ha) as Hm. cbv zeta in Hm. rewrite Hge. destruct ((glm_member q).2 || negb (is_active (glm_member q).1)) eqn:E3; [exact Hm|]. rewrite Hm. cbn [fst snd]. split; [|done]. by rewrite Hsk, Hge.
Qed.

Lemma glm_stable p : is_active p = true -> parser_ok p -> round_stable glm_iter p.
Proof.
  intros Ha Hp e. unfold glm_iter. rewrite is_param_ext. destruct (is_param_value p) eqn:Hv.
  - pose proof Hp as [Hl Hvs]. specialize (Hvs Hv). destruct (strstr GLM_VALUE_END (c_string (drop (ps_param_value_start p) (ps_raw p)))) as [k|] eqn:Ef; cbn [fst snd orb].
    + pose proof (c_strstr_le _ _ _ Ef) as Hb. rewrite length_drop in Hb.
      assert (Hd : drop (ps_param_value_start (ext e p)) (ps_raw (ext e p)) = drop (ps_param_value_start p) (ps_raw p) ++ e) by (destruct p; unfold ext; cbn in *; by rewrite drop_app_le by lia).
      rewrite Hd, (c_strstr_more _ _ e _ Ef). unfold lift. cbn [fst snd]. f_equal. by rewrite close_value_ext by lia.
    + rewrite Ha. cbn [negb]. by rewrite is_param_ext, Hv.
  - destruct (skip_pos_ok p Hp Hv) as [Hq Hqv]. pose proof (glm_structural_stable (skip_pos p) Hq ltac:(by rewrite is_active_skip) Hqv ltac:(by rewrite at_skip, skip_skip) e) as H. cbv zeta in H.
    rewrite skip_ext_skip in H by done. destruct ((glm_structural (skip_pos p)).2 || negb (is_active (glm_structural (skip_pos p)).1)); [done|]. destruct H as [H1 H2]. by rewrite is_param_ext, H2.
Qed.

Lemma glm_structural_forward q : parser_ok q -> is_active q = true -> is_param_value q = false -> agent_skip_ascii_space (at_pos q) = at_pos q -> let r := glm_structural q in
  parser_ok r.1 /\ ps_raw r.1 = ps_raw q /\ ps_syntax r.1 = ps_syntax q /\ is_search r.1 = false /\ (r.2 = true -> is_active r.1 = true /\ (ps_parse_pos q < ps_parse_pos r.1)%nat).
Proof.
  intros Hq Ha Hv Hs. cbv zeta. unfold glm_structural. pose proof (active_search q Ha) as Hns. pose proof Hq as [Hl _]. destruct (at_end q); [done|].
  assert (Hat : length (at_pos q) = (length (ps_raw q) - ps_parse_pos q)%nat) by (unfold at_pos; apply length_drop).
  destruct (ps_glm_after_call q).
  { destruct (starts_with GLM_CALL_START (at_pos q)) eqn:E1.
    - apply starts_with_length in E1. change (length GLM_CALL_START) with 11%nat in *. unfold parser_ok, is_param_value, is_search, is_active in *. destruct q as [? [] ?]; cbn in *; split_and!; done || lia.
    - destruct (agent_bytes_partial_prefix_at (at_pos q) GLM_CALL_START); [done|]. unfold parser_ok, is_param_value, is_search, is_active in *. destruct q as [? [] ?]; cbn in *; split_and!; done || lia. }
  destruct (is_none (ac_name (ps_current q))); [|by apply glm_member_forward]. destruct (glm_name_spec q Hq Ha Hv Hs) as [Hspec _]. destruct (glm_name q) as [r|r]; cbn [fst snd].
  - destruct (is_active r) eqn:Er; [by subst r|]. destruct Hspec as [m ->]. clear Er. unfold parser_ok, is_param_value, is_search, is_active in *. destruct q as [? [] ?]; cbn in *; split_and!; done || lia.
  - destruct Hspec as (Hr & Har & Hvr & Hraw & Hsyn & _ & _ & _ & Hpos). destruct (glm_member_forward r Hr Har Hvr) as (H1 & H2 & H3 & H4 & H5). rewrite <- Hraw, <- Hsyn. split_and!; try done. intros Hgo. destruct (H5 Hgo). split; [done|lia].
Qed.

Lemma glm_forward p : is_active p = true -> parser_ok p -> round_forward glm_iter p.
Proof.
  intros Ha Hp. unfold round_forward, glm_iter. destruct (is_param_value p) eqn:Hv.
  - destruct (strstr GLM_VALUE_END (c_string (drop (ps_param_value_start p) (ps_raw p)))) as [k|] eqn:Ef; cbn [fst snd].
    + destruct (close_value_forward k (length GLM_VALUE_END) GLM_VALUE_END true p Hp Hv (c_strstr_le _ _ _ Ef) ltac:(cbn; lia)) as (? & ? & ? & ? & ? & ?). done.
    + split_and!; try done. by apply active_search.
  - destruct (skip_pos_ok p Hp Hv) as [Hq Hqv]. destruct (skip_same p) as (Hraw & Hsyn & _ & Hpos). rewrite <- is_active_skip in Ha.
    destruct (glm_structural_forward (skip_pos p) Hq Ha Hqv ltac:(by rewrite at_skip, skip_skip)) as (H1 & H2 & H3 & H4 & H5). rewrite <- Hraw, <- Hsyn. split_and!; try done. intros Hgo. destruct (H5 Hgo). split; [done|lia].
Qed.
End Glm.

(** The flag for the renderer is not read by the parser. *)
Section Flag.
Definition flag_free (iter : agent_dsml_parser -> agent_dsml_parser * bool) (p : agent_dsml_parser) : Prop :=
  forall b, exists b', iter (set_close_prefix b p) = (set_close_prefix b' (iter p).1, (iter p).2).

Ltac by_flag b := first [exists b; reflexivity | exists false; reflexivity].

Lemma glm_member_flag p : flag_free glm_member p.
Proof.
  intros b. unfold glm_member. replace (at_pos (set_close_prefix b p)) with (at_pos p) by (by destruct p).
  destruct (starts_with GLM_CALL_END (at_pos p)); [destruct p as [? ? ? ? ? [[|] ?]]; by_flag b|]. destruct (agent_bytes_partial_prefix_at (at_pos p) GLM_CALL_END); [by_flag b|].
  destruct (starts_with GLM_KEY_START (at_pos p)); cbn [negb]; [|destruct (agent_bytes_partial_prefix_at (at_pos p) GLM_KEY_START); destruct p; by_flag b].
  destruct (strstr GLM_KEY_END (c_string (drop (length GLM_KEY_START) (at_pos p)))) as [k|]; [|by_flag b]. case_bool_decide; [destruct p; by_flag b|].
  destruct (starts_with GLM_VALUE_START (agent_skip_ascii_space (drop (k + length GLM_KEY_END) (drop (length GLM_KEY_START) (at_pos p))))); cbn [negb]; [destruct p; by_flag b|].
  destruct (agent_bytes_partial_prefix_at (agent_skip_ascii_space (drop (k + length GLM_KEY_END) (drop (length GLM_KEY_START) (at_pos p)))) GLM_VALUE_START); destruct p; by_flag b.
Qed.

Lemma glm_name_flag b p : glm_name (set_close_prefix b p) = match glm_name p with inl q => inl (set_close_prefix b q) | inr q => inr (set_close_prefix b q) end.
Proof.
  unfold glm_name. replace (at_pos (set_close_prefix b p)) with (at_pos p) by (by destruct p). destruct (strstr [60] (agent_skip_ascii_space (at_pos p))) as [i|]; [|done].
  destruct (negb (starts_with GLM_KEY_START (drop i (agent_skip_ascii_space (at_pos p)))) && negb (starts_with GLM_CALL_END (drop i (agent_skip_ascii_space (at_pos p)))));
    [destruct (agent_bytes_partial_prefix_at (drop i (agent_skip_ascii_space (at_pos p))) GLM_KEY_START || agent_bytes_partial_prefix_at (drop i (agent_skip_ascii_space (at_pos p))) GLM_CALL_END)|case_bool_decide]; by destruct p.
Qed.

Lemma skip_flag b p : skip_pos (set_close_prefix b p) = set_close_prefix b (skip_pos p).
Proof. by destruct p. Qed.

Lemma glm_flag p : flag_free glm_iter p.
Proof.
  intros b. unfold glm_iter. replace (is_param_value (set_close_prefix b p)) with (is_param_value p) by (by destruct p). destruct (is_param_value p).
  - replace (drop (ps_param_value_start (set_close_prefix b p)) (ps_raw (set_close_prefix b p))) with (drop (ps_param_value_start p) (ps_raw p)) by (by destruct p).
    destruct (strstr GLM_VALUE_END (c_string (drop (ps_param_value_start p) (ps_raw p)))); [|by_flag b]. destruct p; by_flag b.
  - rewrite skip_flag. generalize (skip_pos p) as q. clear p. intros q. unfold glm_structural. replace (at_end (set_close_prefix b q)) with (at_end q) by (by destruct q). destruct (at_end q); [by_flag b|].
    replace (ps_glm_after_call (set_close_prefix b q)) with (ps_glm_after_call q) by (by destruct q). replace (at_pos (set_close_prefix b q)) with (at_pos q) by (by destruct q). replace (ps_current (set_close_prefix b q)) with (ps_current q) by (by destruct q).
    destruct (ps_glm_after_call q).
    + destruct (starts_with GLM_CALL_START (at_pos q)); [destruct q; by_flag b|]. destruct (agent_bytes_partial_prefix_at (at_pos q) GLM_CALL_START); destruct q; by_flag b.
    + destruct (is_none (ac_name (ps_current q))); [|apply glm_member_flag]. rewrite glm_name_flag. destruct (glm_name q); [by_flag b|apply glm_member_flag].
Qed.

Lemma dsml_flag p : flag_free dsml_iter p.
Proof.
  intros b. unfold dsml_iter. replace (is_param_value (set_close_prefix b p)) with (is_param_value p) by (by destruct p). destruct (is_param_value p).
  - replace (drop (ps_param_value_start (set_close_prefix b p)) (ps_raw (set_close_prefix b p))) with (drop (ps_param_value_start p) (ps_raw p)) by (by destruct p).
    destruct (agent_dsml_find_close_tag (drop (ps_param_value_start p) (ps_raw p)) (bs "parameter")) as [[k n]|]; [|by_flag b]. destruct p; by_flag b.
  - rewrite skip_flag. generalize (skip_pos p) as q. clear p. intros q. unfold dsml_structural. replace (at_end (set_close_prefix b q)) with (at_end q) by (by destruct q). destruct (at_end q); [by_flag b|].
    replace (at_pos (set_close_prefix b q)) with (at_pos q) by (by destruct q). destruct (agent_dsml_close_tag_at (at_pos q) (bs "tool_calls")); [destruct q as [? ? ? ? ? [[|] ?]]; by_flag b|].
    destruct (agent_dsml_close_tag_at (at_pos q) (bs "invoke")); [destruct q as [? ? ? ? ? [[|] ?]]; by_flag b|]. destruct (strstr [62] (c_string (at_pos q))); [|by_flag b].
    unfold dsml_tag. destruct (agent_dsml_open_tag_is (take (S n) (at_pos q)) (bs "invoke")), (agent_dsml_open_tag_is (take (S n) (at_pos q)) (bs "parameter")), (agent_parse_attr (take (S n) (at_pos q)) (bs "name")); destruct q; by_flag b.
Qed.
End Flag.

(** ** The loop *)

(** What both loops promise to the stream. *)
Class Rounds (iter : agent_dsml_parser -> agent_dsml_parser * bool) := {
  rounds_stable p : is_active p = true -> parser_ok p -> round_stable iter p;
  rounds_forward p : is_active p = true -> parser_ok p -> round_forward iter p;
  rounds_flag p : flag_free iter p }.
#[export] Instance dsml_rounds : Rounds dsml_iter := {| rounds_stable := dsml_stable; rounds_forward := dsml_forward; rounds_flag := dsml_flag |}.
#[export] Instance glm_rounds : Rounds glm_iter := {| rounds_stable := glm_stable; rounds_forward := glm_forward; rounds_flag := glm_flag |}.

Section Loop.
Context {iter : agent_dsml_parser -> agent_dsml_parser * bool} {R : Rounds iter}.
Abbreviation run p := (parse_loop iter (parse_fuel p) p).

(** What is left to read. *)
Definition left_of (p : agent_dsml_parser) : nat := (length (ps_raw p) - ps_parse_pos p)%nat.

(** The loop ends by itself: with enough fuel the result is that of more. *)
Lemma loop_fuel f : forall f' p, parser_ok p -> (left_of p < f)%nat -> (f <= f')%nat -> parse_loop iter f' p = parse_loop iter f p.
Proof using R.
  induction f as [|f IH]; intros f' p Hp Hf Hf'; [lia|]. destruct f' as [|f']; [lia|]. cbn [parse_loop]. destruct (is_active p) eqn:Ha; [|done].
  destruct (rounds_forward p Ha Hp) as (H1 & H2 & _ & _ & H4). destruct (iter p) as [q [|]]; cbn [fst snd] in *; [|done]. destruct (H4 eq_refl) as [_ Hpos]. destruct H1 as [Hl H1]. apply IH; [by split| |lia]. unfold left_of in *. rewrite H2 in *. lia.
Qed.

Lemma run_step p q : parser_ok p -> is_active p = true -> iter p = (q, true) -> run p = run q.
Proof using R.
  intros Hp Ha Hi. destruct (rounds_forward p Ha Hp) as (H1 & H2 & _ & _ & H4). rewrite Hi in *. cbn [fst snd] in *. destruct (H4 eq_refl) as [_ Hpos].
  unfold parse_fuel. rewrite H2. assert (Hr : parse_loop iter (S (length (ps_raw p))) p = parse_loop iter (length (ps_raw p)) q) by (cbn [parse_loop]; by rewrite Ha, Hi).
  rewrite Hr. symmetry. apply loop_fuel; [done| |lia]. destruct H1 as [Hl _]. unfold left_of. rewrite H2 in *. lia.
Qed.

Lemma run_stop p q : is_active p = true -> iter p = (q, false) -> run p = q.
Proof. intros Ha Hi. unfold parse_fuel. cbn [parse_loop]. by rewrite Ha, Hi. Qed.

Lemma run_idle p : is_active p = false -> run p = p.
Proof. intros Ha. unfold parse_fuel. cbn [parse_loop]. by rewrite Ha. Qed.

Lemma run_ind (P : agent_dsml_parser -> agent_dsml_parser -> Prop) :
  (forall p, parser_ok p -> is_active p = false -> P p p) ->
  (forall p q, parser_ok p -> is_active p = true -> iter p = (q, false) -> P p q) ->
  (forall p q r, parser_ok p -> is_active p = true -> iter p = (q, true) -> parser_ok q -> P q r -> P p r) ->
  forall p, parser_ok p -> P p (run p).
Proof using R.
  intros Hidle Hstop Hgo. assert (H : forall n p, (left_of p <= n)%nat -> parser_ok p -> P p (run p)); [|intros p; by apply (H (left_of p))].
  induction n as [n IH] using lt_wf_ind. intros p Hn Hp. destruct (is_active p) eqn:Ha; [|rewrite run_idle by done; by apply Hidle].
  destruct (iter p) as [q [|]] eqn:Hi; [|rewrite (run_stop p q Ha Hi); by apply Hstop]. rewrite (run_step p q Hp Ha Hi).
  destruct (rounds_forward p Ha Hp) as (H1 & H2 & _ & _ & H4). rewrite Hi in *. cbn [fst snd] in *. destruct (H4 eq_refl) as [_ Hpos]. eapply Hgo; [done..|]. pose proof H1 as [Hl _]. unfold left_of in *. rewrite H2 in *.
  apply (IH (length (ps_raw p) - ps_parse_pos q)%nat); [lia| |done]. rewrite H2. lia.
Qed.

Lemma run_stays p : parser_ok p -> parser_ok (run p) /\ ps_raw (run p) = ps_raw p /\ ps_syntax (run p) = ps_syntax p /\ (is_search p = false -> is_search (run p) = false).
Proof using R.
  apply (run_ind (fun p r => parser_ok r /\ ps_raw r = ps_raw p /\ ps_syntax r = ps_syntax p /\ (is_search p = false -> is_search r = false))); clear p.
  - done.
  - intros p q Hp Ha Hi. destruct (rounds_forward p Ha Hp) as (H1 & H2 & H3 & H4 & _). rewrite Hi in *. done.
  - intros p q r Hp Ha Hi Hq (Hr & H1 & H2 & H3). destruct (rounds_forward p Ha Hp) as (_ & K2 & K3 & K4 & _). rewrite Hi in *. cbn [fst snd] in *. split_and!; [done|congruence|congruence|]. auto.
Qed.

Lemma ext_ok e p : parser_ok p -> parser_ok (ext e p).
Proof. intros [Hl Hv]. destruct p. unfold parser_ok, ext in *. cbn in *. rewrite length_app. split; [lia|done]. Qed.

(** Reading what there is first changes nothing. *)
Lemma run_ext e p : parser_ok p -> run (ext e p) = run (ext e (run p)).
Proof using R.
  apply (run_ind (fun p r => run (ext e p) = run (ext e r))); clear p.
  - done.
  - intros p q Hp Ha Hi. pose proof (rounds_stable p Ha Hp e) as H. rewrite Hi in H. cbn [fst snd orb] in H. assert (Hae : is_active (ext e p) = true) by (by rewrite is_active_ext).
    destruct (is_active q) eqn:Hq; cbn [negb] in H.
    + (* the round is made again *) unfold parse_fuel. destruct (rounds_forward p Ha Hp) as (_ & K2 & _). rewrite Hi in K2. cbn [fst] in K2. assert (Hl : ps_raw (ext e q) = ps_raw (ext e p)) by (unfold ext; destruct p, q; cbn in *; by rewrite K2).
      rewrite Hl. cbn [parse_loop]. rewrite Hae, is_active_ext, Hq, H. done.
    + rewrite (run_stop (ext e p) (ext e q) Hae H). symmetry. apply run_idle. by rewrite is_active_ext.
  - intros p q r Hp Ha Hi Hq <-. pose proof (rounds_stable p Ha Hp e) as H. rewrite Hi in H. cbn [fst snd orb] in H. apply run_step; [by apply ext_ok|by rewrite is_active_ext|done].
Qed.

(** Nothing more can be read. *)
Lemma run_settled p : parser_ok p -> is_active (run p) = true -> (iter (run p)).2 = false.
Proof using R.
  apply (run_ind (fun p r => is_active r = true -> (iter r).2 = false)); clear p.
  - congruence.
  - intros p q Hp Ha Hi Hq. pose proof (rounds_stable p Ha Hp []) as H. rewrite Hi in H. cbn [fst snd orb] in H. rewrite Hq in H. cbn [negb] in H.
    assert (He : forall p, ext [] p = p) by (intros []; unfold ext; cbn; by rewrite app_nil_r). rewrite !He in H. by rewrite H, Hi.
  - done.
Qed.

Lemma run_flag f : forall p b, exists b', parse_loop iter f (set_close_prefix b p) = set_close_prefix b' (parse_loop iter f p).
Proof using R.
  induction f as [|f IH]; intros p b; [by exists b|]. cbn [parse_loop]. replace (is_active (set_close_prefix b p)) with (is_active p) by (by destruct p). destruct (is_active p); [|by exists b].
  destruct (rounds_flag p b) as [b' ->]. destruct (iter p) as [q [|]]; cbn [fst snd]; [apply IH|by exists b'].
Qed.
End Loop.

(** ** The stream *)

Section Stream.
Definition iter_of (syntax : agent_tool_syntax) : agent_dsml_parser -> agent_dsml_parser * bool :=
  match syntax with AGENT_TOOL_SYNTAX_GLM => glm_iter | AGENT_TOOL_SYNTAX_DSML => dsml_iter end.
#[local] Instance iter_of_rounds syntax : Rounds (iter_of syntax).
Proof. destruct syntax; apply _. Qed.

(** The parser behind the start of a block. *)
Definition opened (syntax : agent_tool_syntax) : agent_dsml_parser := agent_dsml_start (agent_dsml_parser_reset syntax).

(** What [agent_dsml_feed] does with the flag after each byte. *)
Definition show_prefix (p : agent_dsml_parser) : agent_dsml_parser :=
  if is_param_value p then agent_dsml_update_param_close_prefix p else set_close_prefix false p.

(** A text read at once: the start is searched in all of it, and the loop runs a
    single time over all that follows. *)
Definition agent_read_whole (syntax : agent_tool_syntax) (text : bytes) : agent_dsml_parser :=
  let start := start_of syntax in
  match strstr start text with
  | None => set_tail (drop (length text - SEARCH_TAIL) text) (agent_dsml_parser_reset syntax)
  | Some i => show_prefix (agent_dsml_parse (ext (drop (i + length start) text) (opened syntax)))
  end.

(** The buffer behind the cursor of a parser that has finished means nothing. *)
Definition forget_rest (p : agent_dsml_parser) : agent_dsml_parser :=
  if is_finished p then set_raw (take (ps_parse_pos p) (ps_raw p)) p else p.

Lemma start_length syntax : (11 <= length (start_of syntax) <= SEARCH_TAIL)%nat.
Proof. destruct syntax; vm_compute; lia. Qed.

Lemma opened_ok syntax e : parser_ok (ext e (opened syntax)).
Proof. apply ext_ok. destruct syntax; (split; [vm_compute; lia|done]). Qed.

Lemma parse_run p : starts_with (start_of (ps_syntax p)) (ps_raw p) = true -> agent_dsml_parse p = parse_loop (iter_of (ps_syntax p)) (parse_fuel p) p.
Proof. unfold agent_dsml_parse, agent_glm_tool_parse. intros H. destruct (ps_syntax p); [done|]. cbn [start_of] in H. by rewrite H. Qed.

Lemma parse_opened syntax e : agent_dsml_parse (ext e (opened syntax)) = parse_loop (iter_of syntax) (parse_fuel (ext e (opened syntax))) (ext e (opened syntax)).
Proof.
  rewrite parse_run; [by destruct syntax|]. replace (ps_syntax (ext e (opened syntax))) with syntax by (by destruct syntax).
  replace (ps_raw (ext e (opened syntax))) with (start_of syntax ++ e) by (by destruct syntax). apply starts_with_app.
Qed.

Lemma show_flag b p : show_prefix (set_close_prefix b p) = show_prefix p.
Proof. destruct p as [? []]; done. Qed.

Lemma show_is p : exists b, show_prefix p = set_close_prefix b p.
Proof. unfold show_prefix, agent_dsml_update_param_close_prefix. cbv zeta. destruct (is_param_value p); eexists; reflexivity. Qed.

Lemma parse_next syntax e c :
  show_prefix (agent_dsml_parse (ext [c] (show_prefix (agent_dsml_parse (ext e (opened syntax)))))) = show_prefix (agent_dsml_parse (ext (e ++ [c]) (opened syntax))).
Proof.
  set (p := ext e (opened syntax)). pose proof (opened_ok syntax e) as Hp. fold p in Hp. pose proof (run_stays (iter := iter_of syntax) p Hp) as (Hq & Hraw & Hsyn & _).
  pose proof (parse_opened syntax e : agent_dsml_parse p = _) as Hpe. pose proof (run_ext (iter := iter_of syntax) [c] p Hp) as Hx. fold p in Hpe. rewrite <- Hpe in *. destruct (show_is (agent_dsml_parse p)) as [b ->].
  replace (ps_raw p) with (start_of syntax ++ e) in Hraw by (by destruct syntax). replace (ps_syntax p) with syntax in Hsyn by (by destruct syntax).
  assert (Hee : ext (e ++ [c]) (opened syntax) = ext [c] p) by (unfold p, ext; destruct (opened syntax); cbn; by rewrite (assoc_L (++))).
  pose proof (parse_opened syntax (e ++ [c])) as Hr. rewrite Hee, Hx in Hr. rewrite Hee, Hr. revert Hraw Hsyn. generalize (agent_dsml_parse p) as q. clear. intros q Hraw Hsyn.
  assert (Hex : ext [c] (set_close_prefix b q) = set_close_prefix b (ext [c] q)) by (by destruct q). rewrite Hex.
  assert (Hs : ps_syntax (set_close_prefix b (ext [c] q)) = syntax) by (by destruct q).
  assert (Hr : ps_raw (set_close_prefix b (ext [c] q)) = start_of syntax ++ e ++ [c]) by (rewrite (assoc_L (++)), <- Hraw; by destruct q).
  rewrite parse_run by (rewrite Hs, Hr; apply starts_with_app). rewrite Hs. replace (parse_fuel (set_close_prefix b (ext [c] q))) with (parse_fuel (ext [c] q)) by (by destruct q).
  destruct (run_flag (iter := iter_of syntax) (parse_fuel (ext [c] q)) (ext [c] q) b) as [b' ->]. apply show_flag.
Qed.

(** *** Searching the start *)

Lemma strstr_grow s t c : s <> [] -> strstr s t = None ->
  strstr s (t ++ [c]) = if (length s <=? length (t ++ [c]))%nat && starts_with s (drop (length (t ++ [c]) - length s) (t ++ [c])) then Some (length (t ++ [c]) - length s)%nat else None.
Proof.
  intros Hs Hn. assert (Hb : forall j, (j + length s <= length t)%nat -> starts_with s (drop j (t ++ [c])) = false).
  { intros j Hj. rewrite drop_app_le by lia. rewrite starts_with_less by (rewrite length_drop; lia). by apply strstr_None. }
  destruct (_ && _) eqn:E.
  - apply andb_true_iff in E as [E1%Nat.leb_le E2]. apply strstr_at; [done|]. intros j Hj. apply Hb. rewrite length_app in *. cbn [length] in *. lia.
  - destruct (strstr s (t ++ [c])) as [i|] eqn:Ei; [|done]. exfalso. pose proof (strstr_le _ _ _ Ei) as Hle. destruct (strstr_Some _ _ _ Ei) as [Hi _]. rewrite length_app in Hle. cbn [length] in Hle.
    destruct (decide (i + length s <= length t)%nat) as [Hx|Hx]; [by rewrite Hb in Hi|]. assert (i = (length (t ++ [c]) - length s)%nat) as -> by (rewrite length_app; cbn [length]; lia).
    rewrite Hi, andb_true_r in E. apply Nat.leb_gt in E. rewrite length_app in E. cbn [length] in E. lia.
Qed.

Lemma tail_grow (t : bytes) (c : Z) n : (0 < n)%nat -> (let tail := drop (length t - n) t in (if (length tail =? n)%nat then drop 1 tail else tail) ++ [c]) = drop (length (t ++ [c]) - n) (t ++ [c]).
Proof.
  intros Hn. cbv zeta. rewrite length_app, length_drop. cbn [length]. destruct (Nat.eqb_spec (length t - (length t - n)) n) as [E|E].
  - rewrite drop_app_le by lia. rewrite drop_drop. f_equal. f_equal. lia.
  - replace (length t - n)%nat with 0%nat by lia. replace (length t + 1 - n)%nat with 0%nat by lia. by rewrite !drop_0.
Qed.

Lemma feed_whole syntax t c : feed_byte (agent_read_whole syntax t) c = agent_read_whole syntax (t ++ [c]).
Proof.
  pose proof (start_length syntax) as Hl. unfold agent_read_whole at 1. destruct (strstr (start_of syntax) t) as [i|] eqn:E.
  - unfold agent_read_whole. rewrite (strstr_more _ _ [c] _ E). pose proof (strstr_le _ _ _ E) as Hi. rewrite drop_app_le by done. rewrite <- parse_next. set (p := show_prefix _). unfold feed_byte.
    assert (Hns : is_search p = false).
    { unfold p. destruct (show_is (agent_dsml_parse (ext (drop (i + length (start_of syntax)) t) (opened syntax)))) as [b ->]. rewrite parse_opened. pose proof (run_stays (iter := iter_of syntax) _ (opened_ok syntax (drop (i + length (start_of syntax)) t))) as (_ & _ & _ & H).
      specialize (H ltac:(by destruct syntax)). destruct (parse_loop (iter_of syntax) _ _); done. }
    rewrite Hns. done.
  - unfold feed_byte. change (is_search (set_tail ?x (agent_dsml_parser_reset syntax))) with true. cbv iota. change (ps_search_tail (set_tail ?x (agent_dsml_parser_reset syntax))) with x. change (ps_syntax (set_tail ?x (agent_dsml_parser_reset syntax))) with syntax.
    cbv zeta. pose proof (tail_grow t c SEARCH_TAIL ltac:(unfold SEARCH_TAIL; lia)) as Ht. cbv zeta in Ht. rewrite Ht. unfold agent_read_whole. rewrite strstr_grow by (done || by destruct syntax).
    assert (Hd : length (drop (length (t ++ [c]) - SEARCH_TAIL) (t ++ [c])) = Nat.min SEARCH_TAIL (length (t ++ [c]))) by (rewrite length_drop; lia). rewrite Hd, drop_drop.
    replace (length (start_of syntax) <=? Nat.min SEARCH_TAIL (length (t ++ [c])))%nat with (length (start_of syntax) <=? length (t ++ [c]))%nat.
    2: { destruct (Nat.leb_spec (length (start_of syntax)) (length (t ++ [c]))), (Nat.leb_spec (length (start_of syntax)) (Nat.min SEARCH_TAIL (length (t ++ [c])))); try done; lia. }
    destruct (Nat.leb_spec (length (start_of syntax)) (length (t ++ [c]))) as [Hle|Hle]; cbn [andb]; [|done].
    replace (length (t ++ [c]) - SEARCH_TAIL + (Nat.min SEARCH_TAIL (length (t ++ [c])) - length (start_of syntax)))%nat with (length (t ++ [c]) - length (start_of syntax))%nat by lia.
    destruct (starts_with (start_of syntax) (drop (length (t ++ [c]) - length (start_of syntax)) (t ++ [c]))); [|done].
    rewrite (drop_ge (t ++ [c]) (length (t ++ [c]) - length (start_of syntax) + length (start_of syntax))) by lia. by destruct syntax.
Qed.

Lemma feed_bytes_whole syntax text : foldl feed_byte (agent_dsml_parser_reset syntax) text = agent_read_whole syntax text.
Proof.
  induction text as [|c t IH] using rev_ind; [by destruct syntax|]. by rewrite foldl_snoc, IH, feed_whole.
Qed.

(** *** Pieces *)

Lemma finished_parse p : is_finished p = true -> agent_dsml_parse p = p.
Proof.
  intros Hf. assert (Ha : is_active p = false) by (unfold is_finished, is_active in *; by destruct (ps_state p)). unfold agent_dsml_parse, agent_glm_tool_parse, parse_fuel. cbn [parse_loop]. rewrite Ha.
  destruct (ps_syntax p); [done|]. by destruct (starts_with GLM_CALL_START (ps_raw p)).
Qed.

Lemma finished_feed p s : is_finished p = true -> ps_param_close_prefix p = false -> foldl feed_byte p s = ext s p.
Proof.
  revert p. induction s as [|c s IH]; intros p Hf Hc; [destruct p; unfold ext; cbn; by rewrite app_nil_r|]. cbn [foldl]. assert (Hp : feed_byte p c = ext [c] p).
  { unfold feed_byte. replace (is_search p) with false by (unfold is_finished, is_search in *; by destruct (ps_state p)). change (set_raw (ps_raw p ++ [c]) p) with (ext [c] p).
    rewrite finished_parse by (by destruct p). replace (is_param_value (ext [c] p)) with false by (unfold is_finished, is_param_value in *; by destruct p as [? []]). destruct p; cbn in *; by subst. }
  rewrite Hp, IH; [|by destruct p..]. destruct p; unfold ext; cbn. by rewrite <- (assoc_L (++)).
Qed.

Lemma whole_ok syntax text : parser_ok (agent_read_whole syntax text) /\ (is_finished (agent_read_whole syntax text) = true -> ps_param_close_prefix (agent_read_whole syntax text) = false).
Proof.
  unfold agent_read_whole. destruct (strstr (start_of syntax) text) as [i|]; [|by destruct syntax]. rewrite parse_opened. set (p := ext (drop (i + length (start_of syntax)) text) (opened syntax)).
  destruct (run_stays (iter := iter_of syntax) p (opened_ok syntax _)) as (Hq & _). revert Hq. generalize (parse_loop (iter_of syntax) (parse_fuel p) p) as q. intros q Hq. split.
  - destruct (show_is q) as [b ->]. by destruct q.
  - unfold show_prefix, is_finished, is_param_value. by destruct q as [? []].
Qed.

Lemma forget_ext e p : parser_ok p -> is_finished p = true -> forget_rest (ext e p) = forget_rest p.
Proof.
  intros [Hl _] Hf. unfold forget_rest. replace (is_finished (ext e p)) with true by (by destruct p). rewrite Hf. destruct p; unfold ext; cbn in *. by rewrite take_app_le.
Qed.

Lemma forget_finished p q : forget_rest p = forget_rest q -> is_finished p = is_finished q /\ (is_finished q = false -> p = q).
Proof.
  intros H. assert (Hst : forall p, is_finished (forget_rest p) = is_finished p) by (intros [? []]; done). split; [by rewrite <- (Hst p), H, Hst|]. intros Hq. assert (Hp : is_finished p = false) by (by rewrite <- (Hst p), H, Hst).
  unfold forget_rest in H. by rewrite Hp, Hq in H.
Qed.

Lemma feed_piece syntax text piece p : forget_rest p = forget_rest (agent_read_whole syntax text) ->
  forget_rest (agent_dsml_feed p piece) = forget_rest (agent_read_whole syntax (text ++ piece)).
Proof.
  intros H. destruct (forget_finished _ _ H) as [Hf Heq]. unfold agent_dsml_feed. rewrite Hf. rewrite <- (feed_bytes_whole syntax (text ++ piece)), foldl_app, feed_bytes_whole.
  destruct (whole_ok syntax text) as [Hok Hc]. destruct (is_finished (agent_read_whole syntax text)) eqn:E; [|by rewrite Heq]. rewrite finished_feed by auto. rewrite H. symmetry. by apply forget_ext.
Qed.

Lemma feed_pieces syntax pieces : forall text p, forget_rest p = forget_rest (agent_read_whole syntax text) ->
  forget_rest (foldl agent_dsml_feed p pieces) = forget_rest (agent_read_whole syntax (text ++ concat pieces)).
Proof.
  induction pieces as [|piece pieces IH]; intros text p H; cbn [foldl concat]; [by rewrite app_nil_r|]. rewrite (assoc_L (++)). apply IH. by apply feed_piece.
Qed.

Lemma forget_finish p q : forget_rest p = forget_rest q -> forget_rest (agent_dsml_finish p) = forget_rest (agent_dsml_finish q).
Proof.
  intros H. destruct (forget_finished _ _ H) as [Hf Heq]. destruct (is_finished q) eqn:E; [|by rewrite Heq]. assert (Hid : forall p, is_finished p = true -> agent_dsml_finish p = p) by (intros [? []]; done). by rewrite !Hid.
Qed.
End Stream.

(** ** Reading calls that were written *)

Section Written.
Local Ltac flat := repeat first [rewrite <- (assoc_L (++)) | rewrite <- app_comm_cons].
Local Abbreviation attr := (flat_map attr_escape_char).

Lemma agent_attr_at pre name v rest : (forall j, (j < length pre)%nat -> starts_with (name ++ [61; 34]) (drop j (pre ++ (name ++ [61; 34]) ++ v ++ 34 :: rest)) = false) -> 34 ∉ v ->
  agent_parse_attr (pre ++ (name ++ [61; 34]) ++ v ++ 34 :: rest) name = Some v.
Proof.
  intros Hb Hv. unfold agent_parse_attr. rewrite (strstr_at (name ++ [61; 34]) _ (length pre)); [|rewrite drop_app_length; apply starts_with_app|exact Hb]. cbn [mbind option_bind].
  rewrite <- drop_drop, drop_app_length, drop_app_length, strstr_char by done. cbn [mbind option_bind]. by rewrite take_app_length.
Qed.

Lemma agent_param_name a : agent_parse_attr (DS4_PARAM_START ++ param_head a ++ [62]) (bs "name") = Some (attr (arg_key a)).
Proof.
  assert (Heq : DS4_PARAM_START ++ param_head a ++ [62] = (DS4_PARAM_START ++ [32]) ++ (bs "name" ++ [61; 34]) ++ attr (arg_key a) ++ 34 :: (bs " string=" ++ 34 :: (if arg_is_string a then bs "true" else bs "false") ++ [34]) ++ [62]).
  { unfold param_head, name_attr. flat. reflexivity. }
  rewrite Heq. apply agent_attr_at; [|by apply attr_bytes; left]. apply (no_earlier (DS4_PARAM_START ++ [32]) (bs "name" ++ [61; 34])). vm_compute. reflexivity.
Qed.

Lemma agent_param_string a : key_ok a -> agent_parse_attr (DS4_PARAM_START ++ param_head a ++ [62]) (bs "string") = Some (if arg_is_string a then bs "true" else bs "false").
Proof.
  intros Hk. assert (Heq : DS4_PARAM_START ++ param_head a ++ [62] = (DS4_PARAM_START ++ name_attr (arg_key a) ++ [32]) ++ (bs "string" ++ [61; 34]) ++ (if arg_is_string a then bs "true" else bs "false") ++ 34 :: [62]).
  { unfold param_head. flat. reflexivity. }
  rewrite Heq. apply agent_attr_at; [|destruct (arg_is_string a); by apply (bool_decide_unpack _)]. intros j Hj. exact (string_attr_first a _ Hk j Hj).
Qed.

Lemma agent_call_name tc : agent_parse_attr (DS4_INVOKE_START ++ name_attr (tc_name tc) ++ [62]) (bs "name") = Some (attr (tc_name tc)).
Proof.
  assert (Heq : DS4_INVOKE_START ++ name_attr (tc_name tc) ++ [62] = (DS4_INVOKE_START ++ [32]) ++ (bs "name" ++ [61; 34]) ++ attr (tc_name tc) ++ 34 :: [62]).
  { unfold name_attr. flat. reflexivity. }
  rewrite Heq. apply agent_attr_at; [|by apply attr_bytes; left]. apply (no_earlier (DS4_INVOKE_START ++ [32]) (bs "name" ++ [61; 34])). vm_compute. reflexivity.
Qed.

(** *** C strings *)

Lemma c_string_clean h t : 0 ∉ h -> c_string (h ++ t) = h ++ c_string t.
Proof. intros H. rewrite c_string_more, bool_decide_false, c_string_id by done. done. Qed.

Lemma attr_no_nul k : 0 ∉ k -> 0 ∉ attr k.
Proof.
  induction k as [|c k IH]; [done|]. intros [Hc Hk]%not_elem_of_cons. cbn [flat_map]. rewrite elem_of_app. intros [H|H]; [|by apply IH].
  unfold attr_escape_char in H. repeat case_match; revert H; try (by apply (bool_decide_unpack _)). rewrite list_elem_of_singleton. done.
Qed.

Lemma name_attr_no_nul k : 0 ∉ k -> 0 ∉ name_attr k.
Proof. intros Hk. unfold name_attr. rewrite elem_of_app, elem_of_cons, elem_of_app. intros [H|[H|[H|H]]]; [revert H; by apply (bool_decide_unpack _)|done|revert H; by apply attr_no_nul|set_solver]. Qed.

Lemma param_head_no_nul a : 0 ∉ arg_key a -> 0 ∉ param_head a.
Proof. intros Hk. unfold param_head. rewrite elem_of_app. intros [H|H]; [by apply name_attr_no_nul in H|]. revert H. destruct (arg_is_string a); by apply (bool_decide_unpack _). Qed.

(** A tag without NUL and other [>]. *)
Lemma tag_found h t : 62 ∉ h -> 0 ∉ h -> strstr [62] (c_string (h ++ 62 :: t)) = Some (length h) /\ take (S (length h)) (h ++ 62 :: t) = h ++ [62].
Proof.
  intros Hg H0. rewrite c_string_clean by done. split; [by apply (strstr_char 62 h (c_string t))|]. replace (h ++ 62 :: t) with ((h ++ [62]) ++ t) by (by rewrite <- (assoc_L (++))). replace (S (length h)) with (length (h ++ [62])) by (rewrite length_app; cbn; lia). apply take_app_length.
Qed.

(** *** DSML *)

Definition here (p : agent_dsml_parser) (s : bytes) : Prop := parser_ok p /\ ps_state p = AGENT_DSML_STRUCTURAL /\ at_pos p = s.
Definition same_calls (p q : agent_dsml_parser) : Prop := ps_current p = ps_current q /\ ps_calls p = ps_calls q.

Lemma here_skip p s : here p (10 :: 60 :: s) -> here (skip_pos p) (60 :: s) /\ same_calls (skip_pos p) p.
Proof.
  intros (Hp & Hs & Hat). assert (Hv : is_param_value p = false) by (unfold is_param_value; by rewrite Hs). destruct (skip_pos_ok p Hp Hv) as [Hq _].
  split; [|by destruct p]. split; [done|]. split; [by destruct p|]. by rewrite at_skip, Hat.
Qed.

Lemma here_structural p s : here p (10 :: 60 :: s) -> dsml_iter p = dsml_structural (skip_pos p) /\ at_end (skip_pos p) = false.
Proof.
  intros H. destruct (here_skip p s H) as [(_ & _ & Hat) _]. destruct H as (_ & Hs & _). unfold dsml_iter, is_param_value. rewrite Hs. split; [done|].
  unfold at_end. apply Nat.leb_gt. apply (f_equal length) in Hat. unfold at_pos in Hat. rewrite length_drop in Hat. cbn in Hat. lia.
Qed.

Lemma here_tag p h t : here p (10 :: 60 :: h ++ 62 :: t) -> 62 ∉ h -> 0 ∉ h -> cget h 0 <> 47 -> dsml_iter p = dsml_tag (60 :: h ++ [62]) (skip_pos p).
Proof.
  intros H Hg H0 Hh. destruct (here_structural p _ H) as [Hi Hend]. destruct (here_skip p _ H) as [(_ & _ & Hat) _]. rewrite Hi. unfold dsml_structural. rewrite Hend, Hat.
  assert (Hc : forall n, agent_dsml_close_tag_at (60 :: h ++ 62 :: t) n = None).
  { intros n. apply close_tag_open. destruct h as [|c h]; [done|]. change (cget (c :: h) 0) with c in Hh. apply not_true_iff_false. intros [r Hr]%starts_with_iff. by injection Hr as Hr _. }
  rewrite !Hc. destruct (tag_found (60 :: h) t) as [Hf Ht]; [set_solver|set_solver|]. cbn [app] in Hf, Ht. by rewrite Hf, Ht.
Qed.

Definition agent_arg (a : json_arg) : agent_tool_arg := AgentArg (attr (arg_key a)) (if arg_is_string a then arg_value a else json_literal_escape (arg_value a)) (arg_is_string a).
Definition agent_call (tc : tool_call) : agent_tool_call := AgentCall (Some (attr (tc_name tc))) (map agent_arg (call_args tc)).

(** What the agent can read: C strings, and values that hold no other spelling
    of the closing tag. *)
Definition agent_arg_ok (a : json_arg) : Prop :=
  key_ok a /\ (0 ∉ arg_key a) /\ (0 ∉ arg_body a) /\ agent_dsml_find_close_tag (arg_body a) (bs "parameter") = None.
Definition agent_call_ok (tc : tool_call) : Prop := (0 ∉ tc_name tc) /\ Forall agent_arg_ok (call_args tc).

(** No closing tag begins before another one. *)
Lemma close_none_before s t : s <> [] -> 62 ∉ s -> agent_dsml_close_tag_at (s ++ 60 :: t) (bs "parameter") = None.
Proof.
  intros Hne Hin. destruct (agent_dsml_close_tag_at _ _) as [n|] eqn:E; [|done]. exfalso. destruct (close_tag_Some _ parameter_gt _ _ E) as (b & r & Hs & Hb & -> & Hm).
  destruct (close_mid_head (bs "parameter") ltac:(by apply (bool_decide_unpack _)) b Hm) as (b' & -> & Hb' & _). destruct s as [|c d]; [done|].
  injection Hs as _ Hs. assert (Hlen : length d = length b').
  { apply Nat.le_antisymm; apply Nat.nlt_ge; intros Hx.
    - apply Hin. apply list_elem_of_further. apply (list_elem_of_lookup_2 _ (length b')). assert (Hl : (d ++ 60 :: t) !! length b' = Some 62) by (rewrite Hs; by apply list_lookup_middle). by rewrite lookup_app_l in Hl.
    - apply Hb'. apply (list_elem_of_lookup_2 _ (length d)). assert (Hl : (b' ++ 62 :: r) !! length d = Some 60) by (rewrite <- Hs; by apply (list_lookup_middle d _ 60)). by rewrite lookup_app_l in Hl. }
  apply app_inj_1 in Hs as [_ Hs]; [discriminate Hs|done].
Qed.

Lemma body_close a x : agent_arg_ok a -> agent_dsml_find_close_tag (arg_body a ++ DSML_PARAM_END ++ x) (bs "parameter") = Some (length (arg_body a), length DSML_PARAM_END).
Proof.
  intros (_ & _ & H0 & Hn). rewrite <- first_close_find by apply parameter_gt. rewrite c_string_clean by done. assert (He : c_string (DSML_PARAM_END ++ x) = (dsml_close ++ bs "parameter") ++ 62 :: c_string x) by reflexivity. rewrite He.
  assert (Hnone : forall j, agent_dsml_close_tag_at (drop j (arg_body a)) (bs "parameter") = None).
  { unfold agent_dsml_find_close_tag in Hn. pose proof (find_close_spec (bs "parameter") (S (length (c_string (arg_body a)))) (c_string (arg_body a)) 0 ltac:(lia)) as H. rewrite Hn in H. by rewrite c_string_id in H. }
  split; [rewrite drop_app_length, close_tag_gt by apply parameter_gt; vm_compute; reflexivity|]. intros j Hj. rewrite drop_app_le by lia. destruct (decide (62 ∈ drop j (arg_body a))) as [Hin|Hin]; [by rewrite (close_tag_more _ parameter_gt)|].
  apply close_none_before; [|done]. intros Hd. apply (f_equal length) in Hd. rewrite length_drop in Hd. cbn in Hd. lia.
Qed.

Lemma arg_body_value a : (if arg_is_string a then ds4_tool_text_unescape (arg_body a) DSML_PARAM_END else arg_body a) = aa_value (agent_arg a).
Proof.
  pose proof (body_value a) as H. unfold dsml_value in H. cbn [agent_arg aa_value]. rewrite <- H. by destruct (arg_is_string a).
Qed.

Lemma read_param p a r : here p (10 :: arg_text a ++ r) -> agent_arg_ok a -> exists q,
  parse_loop dsml_iter (parse_fuel p) p = parse_loop dsml_iter (parse_fuel q) q /\ here q (10 :: r) /\
  ps_calls q = ps_calls p /\ ps_current q = AgentCall (ac_name (ps_current p)) (ac_args (ps_current p) ++ [agent_arg a]).
Proof.
  intros Hh Hok. pose proof Hok as (Hkey & Hk0 & _). assert (Ht : arg_text a ++ r = 60 :: (drop 1 DS4_PARAM_START ++ param_head a) ++ 62 :: arg_body a ++ DSML_PARAM_END ++ 10 :: r) by (unfold arg_text; flat; reflexivity).
  rewrite Ht in Hh. pose proof (here_tag p _ _ Hh) as Hi. destruct (here_skip p _ Hh) as [(Hq & Hst & Hat) [Hc1 Hc2]]. set (q := skip_pos p) in *.
  assert (Htag : 60 :: (drop 1 DS4_PARAM_START ++ param_head a) ++ [62] = DS4_PARAM_START ++ param_head a ++ [62]) by (flat; reflexivity).
  rewrite Htag in Hi. specialize (Hi ltac:(rewrite elem_of_app; intros [H|H]; [revert H; by apply (bool_decide_unpack _)|by apply param_head_gt in H]) ltac:(rewrite elem_of_app; intros [H|H]; [revert H; by apply (bool_decide_unpack _)|by apply param_head_no_nul in H]) ltac:(done)).
  unfold dsml_tag in Hi. change (agent_dsml_open_tag_is (DS4_PARAM_START ++ param_head a ++ [62]) (bs "invoke")) with false in Hi. change (agent_dsml_open_tag_is (DS4_PARAM_START ++ param_head a ++ [62]) (bs "parameter")) with true in Hi. cbv iota in Hi.
  rewrite agent_param_name, agent_param_string in Hi by done. replace (bytes_eqb (if arg_is_string a then bs "true" else bs "false") (bs "true")) with (arg_is_string a) in Hi by (by destruct (arg_is_string a)).
  set (tag := DS4_PARAM_START ++ param_head a ++ [62]) in *. set (p1 := open_value (ps_parse_pos q + length tag) (set_is_string (arg_is_string a) (set_param_name (Some (attr (arg_key a))) q))).
  assert (Hi1 : dsml_iter p = (p1, true)) by (rewrite Hi; by destruct q). clear Hi. destruct Hh as (Hp & Hs & _). assert (Ha : is_active p = true) by (unfold is_active; by rewrite Hs).
  rewrite (run_step p p1 Hp Ha Hi1). destruct (rounds_forward (iter := dsml_iter) p Ha Hp) as (Hp1 & _). rewrite Hi1 in Hp1. cbn [fst] in Hp1.
  assert (Hd : drop (ps_param_value_start p1) (ps_raw p1) = arg_body a ++ DSML_PARAM_END ++ 10 :: r).
  { replace (drop (ps_param_value_start p1) (ps_raw p1)) with (drop (length tag) (at_pos q)) by (unfold at_pos; rewrite drop_drop; by destruct q). rewrite Hat.
    replace (60 :: (drop 1 DS4_PARAM_START ++ param_head a) ++ 62 :: arg_body a ++ DSML_PARAM_END ++ 10 :: r) with (tag ++ arg_body a ++ DSML_PARAM_END ++ 10 :: r) by (rewrite <- Htag; flat; reflexivity). apply drop_app_length. }
  set (p2 := close_value (length (arg_body a)) (length DSML_PARAM_END) DSML_PARAM_END (arg_is_string a) p1).
  assert (Hi2 : dsml_iter p1 = (p2, true)). { unfold dsml_iter. replace (is_param_value p1) with true by (by destruct q). rewrite Hd, body_close by done. by destruct q. }
  assert (Ha1 : is_active p1 = true) by (by destruct q). rewrite (run_step p1 p2 Hp1 Ha1 Hi2). destruct (rounds_forward (iter := dsml_iter) p1 Ha1 Hp1) as (Hp2 & _). rewrite Hi2 in Hp2. cbn [fst] in Hp2.
  exists p2. split; [done|]. split; [split; [done|]; split; [by destruct q|]|].
  - replace (at_pos p2) with (drop (length (arg_body a) + length DSML_PARAM_END) (drop (ps_param_value_start p1) (ps_raw p1))) by (unfold at_pos; rewrite drop_drop; destruct q; cbn; f_equal; lia). rewrite Hd, <- drop_drop, drop_app_length. apply drop_app_length.
  - rewrite <- Hc1, <- Hc2. assert (Ht2 : take (length (arg_body a)) (drop (ps_param_value_start p1) (ps_raw p1)) = arg_body a) by (rewrite Hd; apply take_app_length).
    split; [by destruct q|]. transitivity (agent_tool_call_add_arg (ps_current p1) (default [] (ps_param_name p1)) (take (length (arg_body a)) (drop (ps_param_value_start p1) (ps_raw p1))) (arg_is_string a) DSML_PARAM_END); [by destruct q|]. rewrite Ht2.
    unfold agent_tool_call_add_arg. rewrite arg_body_value. by destruct q.
Qed.

Local Abbreviation run p := (parse_loop dsml_iter (parse_fuel p) p).

Lemma run_here p s q : here p s -> dsml_iter p = (q, true) -> run p = run q /\ parser_ok q.
Proof.
  intros (Hp & Hs & _) Hi. assert (Ha : is_active p = true) by (unfold is_active; by rewrite Hs). split; [by apply (run_step p q Hp Ha)|].
  destruct (rounds_forward (iter := dsml_iter) p Ha Hp) as (Hq & _). by rewrite Hi in Hq.
Qed.

Lemma read_params args : forall p r, here p (10 :: args_text args ++ r) -> Forall agent_arg_ok args -> exists q,
  run p = run q /\ here q (10 :: r) /\ ps_calls q = ps_calls p /\ ps_current q = AgentCall (ac_name (ps_current p)) (ac_args (ps_current p) ++ map agent_arg args).
Proof.
  induction args as [|a args IH]; intros p r Hh Hok.
  - exists p. split_and!; try done. cbn [map]. rewrite app_nil_r. by destruct (ps_current p).
  - apply Forall_cons in Hok as [Ha Hok]. change (args_text (a :: args)) with (arg_text a ++ args_text args) in Hh. rewrite <- (assoc_L (++)) in Hh. destruct (read_param p a _ Hh Ha) as (q & Hr & Hq & Hc & Hcur).
    destruct (IH q r Hq Hok) as (q' & Hr' & Hq' & Hc' & Hcur'). exists q'. split_and!; [congruence|done|congruence|]. rewrite Hcur', Hcur. cbn [ac_name ac_args map]. by rewrite <- (assoc_L (++)).
Qed.

Lemma read_invoke_end p r n : here p (10 :: DS4_INVOKE_END ++ r) -> ac_name (ps_current p) = Some n -> exists q,
  run p = run q /\ here q r /\ ps_calls q = ps_calls p ++ [ps_current p] /\ ps_current q = no_call.
Proof.
  intros Hh Hn. change (DS4_INVOKE_END ++ r) with (60 :: drop 1 DS4_INVOKE_END ++ r) in Hh. destruct (here_structural p _ Hh) as [Hi Hend]. destruct (here_skip p _ Hh) as [(Hq & Hst & Hat) [Hc1 Hc2]]. set (q := skip_pos p) in *.
  unfold dsml_structural in Hi. rewrite Hend, Hat in Hi. change (60 :: drop 1 DS4_INVOKE_END ++ r) with ((dsml_close ++ bs "invoke") ++ 62 :: r) in Hi, Hat.
  change (agent_dsml_close_tag_at ((dsml_close ++ bs "invoke") ++ 62 :: r) (bs "tool_calls")) with (@None nat) in Hi. rewrite (close_tag_gt _ invoke_gt) in Hi by apply invoke_gt.
  change (close_mid (bs "invoke") (dsml_close ++ bs "invoke")) with true in Hi. cbv iota in Hi. destruct (run_here p _ _ Hh Hi) as [Hrun Hok]. eexists. split; [exact Hrun|].
  assert (Hpush : agent_tool_calls_push q = set_current no_call (set_calls (ps_calls q ++ [ps_current p]) q)) by (unfold agent_tool_calls_push; rewrite Hc1; by rewrite Hn). rewrite Hpush in *. split; [|by rewrite <- Hc2; destruct q].
  split; [done|]. split; [by destruct q|]. transitivity (drop (S (length (dsml_close ++ bs "invoke"))) (at_pos q)); [unfold at_pos; rewrite drop_drop; by destruct q|]. rewrite Hat. reflexivity.
Qed.

Lemma read_call_text tc p r : here p (10 :: call_text tc ++ r) -> agent_call_ok tc -> exists q,
  run p = run q /\ here q (10 :: r) /\ ps_calls q = ps_calls p ++ [agent_call tc] /\ ps_current q = no_call.
Proof.
  intros Hh [Hn0 Hargs]. assert (Ht : call_text tc ++ r = 60 :: (drop 1 DS4_INVOKE_START ++ name_attr (tc_name tc)) ++ 62 :: 10 :: args_text (call_args tc) ++ DS4_INVOKE_END ++ 10 :: r) by (unfold call_text; flat; reflexivity).
  rewrite Ht in Hh. pose proof (here_tag p _ _ Hh) as Hi. destruct (here_skip p _ Hh) as [(Hq & Hst & Hat) [Hc1 Hc2]]. set (q := skip_pos p) in *.
  assert (Htag : 60 :: (drop 1 DS4_INVOKE_START ++ name_attr (tc_name tc)) ++ [62] = DS4_INVOKE_START ++ name_attr (tc_name tc) ++ [62]) by (flat; reflexivity).
  rewrite Htag in Hi. specialize (Hi ltac:(rewrite elem_of_app; intros [H|H]; [revert H; by apply (bool_decide_unpack _)|by apply name_attr_gt in H]) ltac:(rewrite elem_of_app; intros [H|H]; [revert H; by apply (bool_decide_unpack _)|by apply name_attr_no_nul in H]) ltac:(done)).
  unfold dsml_tag in Hi. change (agent_dsml_open_tag_is (DS4_INVOKE_START ++ name_attr (tc_name tc) ++ [62]) (bs "invoke")) with true in Hi. cbv iota in Hi. rewrite agent_call_name in Hi.
  set (tag := DS4_INVOKE_START ++ name_attr (tc_name tc) ++ [62]) in *. set (p1 := set_pos (ps_parse_pos q + length tag) (set_current (AgentCall (Some (attr (tc_name tc))) []) q)).
  assert (Hi1 : dsml_iter p = (p1, true)) by (rewrite Hi; by destruct q). clear Hi. destruct (run_here p _ _ Hh Hi1) as [Hr1 Hp1].
  assert (Hh1 : here p1 (10 :: args_text (call_args tc) ++ DS4_INVOKE_END ++ 10 :: r)).
  { split; [done|]. split; [by destruct q|]. transitivity (drop (length tag) (at_pos q)); [unfold at_pos; rewrite drop_drop; by destruct q|]. rewrite Hat.
    replace (60 :: (drop 1 DS4_INVOKE_START ++ name_attr (tc_name tc)) ++ 62 :: 10 :: args_text (call_args tc) ++ DS4_INVOKE_END ++ 10 :: r) with (tag ++ 10 :: args_text (call_args tc) ++ DS4_INVOKE_END ++ 10 :: r) by (rewrite <- Htag; flat; reflexivity). apply drop_app_length. }
  destruct (read_params (call_args tc) p1 _ Hh1 Hargs) as (p2 & Hr2 & Hh2 & Hcalls2 & Hcur2). assert (Hcur1 : ps_current p1 = AgentCall (Some (attr (tc_name tc))) []) by (by destruct q). rewrite Hcur1 in Hcur2. cbn [ac_name ac_args app] in Hcur2.
  destruct (read_invoke_end p2 (10 :: r) (attr (tc_name tc)) Hh2 ltac:(by rewrite Hcur2)) as (p3 & Hr3 & Hh3 & Hcalls3 & Hcur3). exists p3. split_and!; [congruence|done| |done].
  rewrite Hcalls3, Hcalls2, Hcur2. f_equal. rewrite <- Hc2. by destruct q.
Qed.

Lemma read_calls v : forall p r, here p (10 :: calls_text v ++ DS4_TOOL_CALLS_END ++ r) -> ps_current p = no_call -> Forall agent_call_ok v ->
  ps_state (run p) = AGENT_DSML_DONE /\ ps_calls (run p) = ps_calls p ++ map agent_call v.
Proof.
  induction v as [|tc v IH]; intros p r Hh Hcur Hok.
  - change (calls_text []) with (@nil Z) in Hh. change ([] ++ DS4_TOOL_CALLS_END ++ r) with (60 :: drop 1 DS4_TOOL_CALLS_END ++ r) in Hh. destruct (here_structural p _ Hh) as [Hi Hend]. destruct (here_skip p _ Hh) as [(Hq & Hst & Hat) [Hc1 Hc2]]. set (q := skip_pos p) in *.
    unfold dsml_structural in Hi. rewrite Hend, Hat in Hi. change (60 :: drop 1 DS4_TOOL_CALLS_END ++ r) with ((dsml_close ++ bs "tool_calls") ++ 62 :: r) in Hi.
    rewrite (close_tag_gt _ tool_calls_gt) in Hi by apply tool_calls_gt. change (close_mid (bs "tool_calls") (dsml_close ++ bs "tool_calls")) with true in Hi. cbv iota in Hi.
    destruct Hh as (_ & Hs & _). assert (Ha : is_active p = true) by (unfold is_active; by rewrite Hs). rewrite (run_stop p _ Ha Hi). assert (Hpush : agent_tool_calls_push q = q) by (unfold agent_tool_calls_push; by rewrite Hc1, Hcur). rewrite Hpush, app_nil_r, <- Hc2. by destruct q.
  - apply Forall_cons in Hok as [Htc Hok]. change (calls_text (tc :: v)) with (call_text tc ++ calls_text v) in Hh. rewrite <- (assoc_L (++)) in Hh. destruct (read_call_text tc p _ Hh Htc) as (q & Hr & Hq & Hc & Hcur').
    destruct (IH q r Hq Hcur' Hok) as [H1 H2]. rewrite Hr. split; [done|]. rewrite H2, Hc. cbn [map]. by rewrite <- (assoc_L (++)).
Qed.

Lemma block_start_found content r : strstr DS4_TOOL_CALLS_START content = None -> strstr DS4_TOOL_CALLS_START (content ++ [10; 10] ++ DS4_TOOL_CALLS_START ++ r) = Some (length (content ++ [10; 10])).
Proof.
  intros Hc. rewrite (assoc_L (++)). change (DS4_TOOL_CALLS_START ++ r) with (60 :: drop 1 DS4_TOOL_CALLS_START ++ r). apply (strstr_tag (drop 1 DS4_TOOL_CALLS_START)); [by apply (bool_decide_unpack _)|].
  change (content ++ [10; 10]) with (content ++ [10] ++ [10]). rewrite (assoc_L (++)). assert (H10 : 10 ∉ DS4_TOOL_CALLS_START) by (by apply (bool_decide_unpack _)). apply (strstr_snoc DS4_TOOL_CALLS_START); [done|done|]. by apply (strstr_snoc DS4_TOOL_CALLS_START).
Qed.

Lemma read_whole_written content v r : v <> [] -> strstr DS4_TOOL_CALLS_START content = None -> Forall agent_call_ok v ->
  let q := agent_read_whole AGENT_TOOL_SYNTAX_DSML (content ++ append_dsml_tool_calls_text [] (ToolCalls v []) ++ r) in
  ps_state q = AGENT_DSML_DONE /\ ps_calls q = map agent_call v.
Proof.
  intros Hv Hc Hok. cbv zeta. rewrite dsml_calls_written by done.
  assert (Ht : content ++ ([] ++ [10; 10] ++ DS4_TOOL_CALLS_START ++ 10 :: calls_text v ++ DS4_TOOL_CALLS_END) ++ r = content ++ [10; 10] ++ DS4_TOOL_CALLS_START ++ 10 :: calls_text v ++ DS4_TOOL_CALLS_END ++ r) by (cbn [app]; flat; reflexivity). rewrite Ht.
  unfold agent_read_whole. cbn [start_of]. rewrite block_start_found by done.
  assert (Hl : Nat.add (length (content ++ [10; 10])) (length DS4_TOOL_CALLS_START) = length (content ++ [10; 10] ++ DS4_TOOL_CALLS_START)) by (rewrite !length_app; lia). rewrite Hl.
  replace (content ++ [10; 10] ++ DS4_TOOL_CALLS_START ++ 10 :: calls_text v ++ DS4_TOOL_CALLS_END ++ r) with ((content ++ [10; 10] ++ DS4_TOOL_CALLS_START) ++ 10 :: calls_text v ++ DS4_TOOL_CALLS_END ++ r) by (flat; reflexivity). rewrite drop_app_length.
  set (e := 10 :: calls_text v ++ DS4_TOOL_CALLS_END ++ r). pose proof (parse_opened AGENT_TOOL_SYNTAX_DSML e) as Hp. cbn [iter_of] in Hp. rewrite Hp. clear Hp.
  assert (Hh : here (ext e (opened AGENT_TOOL_SYNTAX_DSML)) e) by (split; [apply opened_ok|]; split; reflexivity).
  destruct (read_calls v _ r Hh eq_refl Hok) as [H1 H2]. destruct (show_is (parse_loop dsml_iter (parse_fuel (ext e (opened AGENT_TOOL_SYNTAX_DSML))) (ext e (opened AGENT_TOOL_SYNTAX_DSML)))) as [b ->].
  revert H1 H2. generalize (parse_loop dsml_iter (parse_fuel (ext e (opened AGENT_TOOL_SYNTAX_DSML))) (ext e (opened AGENT_TOOL_SYNTAX_DSML))) as q. intros q H1 H2. split; destruct q; [exact H1|exact H2].
Qed.

(** *** GLM *)

Local Abbreviation grun p := (parse_loop glm_iter (parse_fuel p) p).

Lemma agent_ws_isspace c : isspace c = false -> agent_ws c = false.
Proof.
  unfold isspace, agent_ws. intros [H1 H2]%orb_false_iff. rewrite H1. apply andb_false_iff in H2. apply Z.eqb_neq in H1. destruct (Z.eqb_spec c 9), (Z.eqb_spec c 13), (Z.eqb_spec c 10); subst; try done; cbn in H2; by destruct H2.
Qed.

Lemma skip_trimmed s r : s <> [] -> isspace (cget s 0) = false -> agent_skip_ascii_space (s ++ r) = s ++ r.
Proof. destruct s as [|c s]; [done|]. intros _ H. change (cget (c :: s) 0) with c in H. cbn [app agent_skip_ascii_space]. by rewrite agent_ws_isspace. Qed.

Lemma agent_trim_id s : s <> [] -> trimmed s -> agent_trim_span s = s.
Proof.
  intros Hs [H1 H2]. unfold agent_trim_span. pose proof (skip_trimmed s [] Hs H1) as Hx. rewrite app_nil_r in Hx. rewrite Hx. pose proof (skip_trimmed (rev s) []) as Hy. rewrite app_nil_r in Hy. rewrite Hy; [apply rev_involutive| |done].
  intros Hr. apply Hs. by rewrite <- (rev_involutive s), Hr.
Qed.

Lemma escape_no_nul s e : 0 ∉ s -> 0 ∉ tag_body_escape s e.
Proof.
  induction s as [|c s IH]; [done|]. intros [Hc Hs]%not_elem_of_cons. cbn [tag_body_escape]. specialize (IH Hs). case_if; [|set_solver]. rewrite elem_of_app. intros [H|H]; [|done]. revert H. destruct (c =? 60); by apply (bool_decide_unpack _).
Qed.

Lemma escape_unescape s tl : ToolText.plain tl -> ds4_tool_text_unescape (tag_body_escape s (60 :: tl)) (60 :: tl) = s.
Proof. intros H. rewrite unescape_unesc. by apply escape_roundtrip. Qed.

(** A closing tag behind an escaped body is the first one. *)
Lemma escaped_until s tl r : ToolText.plain tl -> 0 ∉ s -> 0 ∉ tl -> strstr (60 :: tl) (c_string (tag_body_escape s (60 :: tl) ++ 60 :: tl ++ r)) = Some (length (tag_body_escape s (60 :: tl))).
Proof.
  intros Hp Hs Ht. rewrite c_string_clean by (by apply escape_no_nul). assert (He : c_string (60 :: tl ++ r) = 60 :: tl ++ c_string r) by (pose proof (c_string_clean (60 :: tl) r) as H; cbn [app] in H; rewrite H by set_solver; done). rewrite He.
  apply strstr_tag; [by apply plain_lt|by apply escape_no_end].
Qed.

Definition glm_agent_arg (a : json_arg) : agent_tool_arg := AgentArg (arg_key a) (arg_value a) true.
Definition glm_agent_arg_ok (a : json_arg) : Prop := arg_key a <> [] /\ trimmed (arg_key a) /\ (0 ∉ arg_key a) /\ (0 ∉ arg_value a).

(** At a tag of a call whose name is known. *)
Definition at_member (p : agent_dsml_parser) (s : bytes) (c : agent_tool_call) : Prop :=
  parser_ok p /\ ps_state p = AGENT_DSML_STRUCTURAL /\ ps_glm_after_call p = false /\ at_pos p = 60 :: s /\ ps_current p = c /\ (exists n, ac_name c = Some n).

Lemma at_not_end p c s : at_pos p = c :: s -> at_end p = false.
Proof. intros H. unfold at_end. apply Nat.leb_gt. apply (f_equal length) in H. unfold at_pos in H. rewrite length_drop in H. cbn in H. lia. Qed.

Lemma skip_here p c s : at_pos p = c :: s -> agent_ws c = false -> skip_pos p = p.
Proof. intros H Hc. assert (Hs : agent_skip_ascii_space (at_pos p) = at_pos p) by (rewrite H; cbn [agent_skip_ascii_space]; by rewrite Hc). unfold skip_pos. rewrite Hs, Nat.sub_diag, Nat.add_0_r. by destruct p. Qed.

Lemma member_iter p s c : at_member p s c -> glm_iter p = glm_member p.
Proof.
  intros (_ & Hs & Ha & Hat & Hc & n & Hn). unfold glm_iter, is_param_value. rewrite Hs, (skip_here p 60 s Hat) by done. unfold glm_structural. by rewrite (at_not_end _ _ _ Hat), Ha, Hc, Hn.
Qed.

Lemma key_clean : (0 ∉ key_tail) /\ (0 ∉ value_tail). Proof. split; by apply (bool_decide_unpack _). Qed.

Lemma key_not_end x : agent_bytes_partial_prefix_at (GLM_KEY_START ++ x) GLM_CALL_END = false.
Proof. unfold agent_bytes_partial_prefix_at. change (starts_with (GLM_KEY_START ++ x) GLM_CALL_END) with false. apply andb_false_r. Qed.

(** One argument: what [glm_member] starts, the next round ends. *)
Lemma read_glm_arg p a s c : at_member p (drop 1 (glm_arg_text a) ++ 60 :: s) c -> glm_agent_arg_ok a -> exists p1 q,
  glm_member p = (p1, true) /\ glm_iter p1 = (q, true) /\ parser_ok p1 /\ is_active p1 = true /\
  at_member q s (AgentCall (ac_name c) (ac_args c ++ [glm_agent_arg a])) /\ ps_calls q = ps_calls p /\ ps_raw q = ps_raw p.
Proof.
  intros (Hp & Hst & Hac & Hat & Hc & Hn) (Hk & Htr & Hk0 & Hv0). assert (Ha : is_active p = true) by (unfold is_active; by rewrite Hst). assert (Hv : is_param_value p = false) by (unfold is_param_value; by rewrite Hst). destruct key_clean as [Kk Kv].
  set (k := tag_body_escape (arg_key a) (60 :: key_tail)). set (w := tag_body_escape (arg_value a) (60 :: value_tail)). set (tail := w ++ 60 :: value_tail ++ 60 :: s).
  assert (Ht : at_pos p = GLM_KEY_START ++ k ++ 60 :: key_tail ++ GLM_VALUE_START ++ tail) by (rewrite Hat; change (60 :: drop 1 (glm_arg_text a) ++ 60 :: s) with (glm_arg_text a ++ 60 :: s); unfold glm_arg_text, tail, k, w; flat; reflexivity).
  destruct (glm_member_forward p Hp Ha Hv) as (F1 & F2 & _ & _ & F5).
  assert (Htk : agent_trim_span k = k).
  { apply agent_trim_id; [|by apply escape_trimmed, Htr; [exact key_tail_plain|done]]. intros Hx. apply Hk. rewrite <- (escape_unescape (arg_key a) key_tail key_tail_plain). fold k. by rewrite Hx. }
  assert (Hkn : k <> []). { intros Hx. apply Hk. rewrite <- (escape_unescape (arg_key a) key_tail key_tail_plain). fold k. by rewrite Hx. }
  set (p1 := open_value (ps_parse_pos p + (length GLM_KEY_START + length k + length GLM_KEY_END + length GLM_VALUE_START)) (set_is_string true (set_param_name (Some (arg_key a)) p))).
  assert (H1 : glm_member p = (p1, true)).
  { unfold glm_member. rewrite Ht. change (starts_with GLM_CALL_END (GLM_KEY_START ++ ?x)) with false. rewrite key_not_end. cbv iota. rewrite starts_with_app. cbn [negb]. rewrite drop_app_length.
    pose proof (escaped_until (arg_key a) key_tail (GLM_VALUE_START ++ tail) key_tail_plain Hk0 Kk) as Hf. fold k in Hf. change (60 :: key_tail) with GLM_KEY_END in Hf at 1. rewrite Hf, take_app_length, Htk, bool_decide_false by done.
    rewrite <- drop_drop, drop_app_length. change (60 :: key_tail ++ GLM_VALUE_START ++ tail) with (GLM_KEY_END ++ GLM_VALUE_START ++ tail). rewrite drop_app_length. change (agent_skip_ascii_space (GLM_VALUE_START ++ tail)) with (GLM_VALUE_START ++ tail). rewrite starts_with_app. cbn [negb].
    f_equal. unfold p1. assert (Hu : ds4_tool_text_unescape k GLM_KEY_END = arg_key a) by apply (escape_unescape _ key_tail key_tail_plain). rewrite Hu. f_equal.
    destruct Hp as [Hl _]. assert (Hlen : length (at_pos p) = (length (ps_raw p) - ps_parse_pos p)%nat) by (unfold at_pos; apply length_drop). rewrite Ht, !length_app in Hlen. cbn [length] in Hlen. rewrite !length_app in Hlen. rewrite length_app.
    change (length key_tail) with 9%nat in Hlen. change (length GLM_KEY_END) with 10%nat. lia. }
  rewrite H1 in F1, F2, F5. cbn [fst snd] in F1, F2, F5. destruct (F5 eq_refl) as [Ha1 _]. clear F5.
  assert (Hd : drop (ps_param_value_start p1) (ps_raw p1) = tail).
  { transitivity (drop (length GLM_KEY_START + length k + length GLM_KEY_END + length GLM_VALUE_START) (at_pos p)); [unfold at_pos; rewrite drop_drop; by destruct p|]. rewrite Ht, <- !drop_drop, drop_app_length, drop_app_length.
    change (60 :: key_tail ++ GLM_VALUE_START ++ tail) with (GLM_KEY_END ++ GLM_VALUE_START ++ tail). by rewrite !drop_app_length. }
  set (q := close_value (length w) (length GLM_VALUE_END) GLM_VALUE_END true p1). assert (H2 : glm_iter p1 = (q, true)).
  { unfold glm_iter. replace (is_param_value p1) with true by (by destruct p). rewrite Hd. pose proof (escaped_until (arg_value a) value_tail (60 :: s) value_tail_plain Hv0 Kv) as Hf. fold w in Hf. change (60 :: value_tail) with GLM_VALUE_END in Hf at 1. unfold tail. by rewrite Hf. }
  destruct (rounds_forward (iter := glm_iter) p1 Ha1 F1) as (G1 & G2 & _). rewrite H2 in G1, G2. cbn [fst] in G1, G2. exists p1, q. split_and!; try done.
  - split; [done|]. split; [by destruct p|]. split; [rewrite <- Hac; by destruct p|]. split; [|split; [|done]].
    + transitivity (drop (length w + length GLM_VALUE_END) (drop (ps_param_value_start p1) (ps_raw p1))); [unfold at_pos; rewrite drop_drop; destruct p; cbn; f_equal; lia|]. rewrite Hd. unfold tail. rewrite <- drop_drop, drop_app_length. apply (drop_app_length (60 :: value_tail)).
    + transitivity (agent_tool_call_add_arg (ps_current p1) (default [] (ps_param_name p1)) (take (length w) (drop (ps_param_value_start p1) (ps_raw p1))) true GLM_VALUE_END); [by destruct p|]. rewrite Hd. unfold tail. rewrite take_app_length.
      unfold agent_tool_call_add_arg. assert (Hu : ds4_tool_text_unescape w GLM_VALUE_END = arg_value a) by apply (escape_unescape _ value_tail value_tail_plain). rewrite Hu. rewrite <- Hc. by destruct p.
  - by destruct p.
  - by rewrite G2, F2.
Qed.

(** A parser whose next round is [glm_member] at [m]. *)
Definition reads_member (p m : agent_dsml_parser) (t : bytes) (c : agent_tool_call) : Prop :=
  parser_ok p /\ is_active p = true /\ glm_iter p = glm_member m /\ exists s, t = 60 :: s /\ at_member m s c.

Lemma read_glm_args args : forall p m t c, reads_member p m (glm_args_text args ++ 60 :: t) c -> Forall glm_agent_arg_ok args -> exists p' m',
  grun p = grun p' /\ reads_member p' m' (60 :: t) (AgentCall (ac_name c) (ac_args c ++ map glm_agent_arg args)) /\ ps_calls m' = ps_calls m.
Proof.
  induction args as [|a args IH]; intros p m t c Hr Hok.
  - exists p, m. split; [done|]. split; [|done]. cbn [map]. rewrite app_nil_r. destruct c. exact Hr.
  - apply Forall_cons in Hok as [Ha Hok]. destruct Hr as (Hp & Hact & Hi & s & Ht & Hm). change (glm_args_text (a :: args)) with (glm_arg_text a ++ glm_args_text args) in Ht.
    assert (Hh : exists u, glm_args_text args ++ 60 :: t = 60 :: u) by (destruct args as [|b args]; [by eexists|]; eexists; reflexivity). destruct Hh as [u Hu].
    assert (Hs : s = drop 1 (glm_arg_text a) ++ 60 :: u). { rewrite <- (assoc_L (++)), Hu in Ht. change (glm_arg_text a) with (60 :: drop 1 (glm_arg_text a)) in Ht. rewrite <- app_comm_cons in Ht. by injection Ht as <-. }
    subst s. destruct (read_glm_arg m a u c Hm Ha) as (p1 & q & H1 & H2 & Hp1 & Ha1 & Hq & Hcalls & _). rewrite H1 in Hi.
    assert (Hrq : reads_member q q (glm_args_text args ++ 60 :: t) (AgentCall (ac_name c) (ac_args c ++ [glm_agent_arg a]))).
    { pose proof Hq as (Hqo & Hst & _). split; [done|]. split; [unfold is_active; by rewrite Hst|]. split; [by apply (member_iter q u _ Hq)|]. by exists u. }
    destruct (IH q q t _ Hrq Hok) as (p' & m' & Hr' & Hm' & Hc').
    exists p', m'. split; [rewrite <- Hr', (run_step (iter := glm_iter) p p1 Hp Hact Hi); by apply (run_step (iter := glm_iter))|]. cbn [ac_name ac_args] in Hm'. rewrite <- (assoc_L (++)) in Hm'. split; [exact Hm'|congruence].
Qed.

(** Between two calls. *)
Definition between (p : agent_dsml_parser) (s : bytes) : Prop :=
  parser_ok p /\ ps_state p = AGENT_DSML_STRUCTURAL /\ ps_glm_after_call p = true /\ ps_current p = no_call /\ at_pos p = s /\ ps_syntax p = AGENT_TOOL_SYNTAX_GLM.
Definition fresh (p : agent_dsml_parser) (s : bytes) : Prop :=
  parser_ok p /\ ps_state p = AGENT_DSML_STRUCTURAL /\ ps_glm_after_call p = false /\ ps_current p = no_call /\ at_pos p = s /\ ps_syntax p = AGENT_TOOL_SYNTAX_GLM.

Lemma run_syntax p q : parser_ok p -> is_active p = true -> glm_iter p = (q, true) -> ps_syntax q = ps_syntax p.
Proof. intros Hp Ha Hi. destruct (rounds_forward (iter := glm_iter) p Ha Hp) as (_ & _ & H & _). by rewrite Hi in H. Qed.

Lemma grun_syntax p : parser_ok p -> ps_syntax (grun p) = ps_syntax p.
Proof. intros Hp. by destruct (run_stays (iter := glm_iter) p Hp) as (_ & _ & H & _). Qed.

Lemma read_glm_name p name t : fresh p (name ++ t) -> name <> [] -> trimmed name -> 60 ∉ name -> 0 ∉ name ->
  (exists u, t = 60 :: u) -> starts_with GLM_KEY_START t || starts_with GLM_CALL_END t = true ->
  exists m, reads_member p m t (AgentCall (Some name) []) /\ ps_calls m = ps_calls p.
Proof.
  intros (Hp & Hs & Hac & Hc & Hat & _) Hn Htr Hlt H0 [u Hu] Htag. pose proof Htr as [Hh _]. assert (Hsk : agent_skip_ascii_space (at_pos p) = at_pos p) by (rewrite Hat; by apply skip_trimmed).
  assert (Hne : at_pos p <> []) by (rewrite Hat; destruct name; done). assert (Hend : at_end p = false) by (destruct (at_pos p) as [|c l] eqn:E; [done|by apply (at_not_end p c l)]).
  assert (Hskip : skip_pos p = p) by (unfold skip_pos; rewrite Hsk, Nat.sub_diag, Nat.add_0_r; by destruct p). assert (Hact : is_active p = true) by (unfold is_active; by rewrite Hs).
  set (m := set_pos (length (ps_raw p) - length t) (set_current (AgentCall (Some (c_string name)) []) p)). assert (Hname : glm_name p = inr m).
  { unfold glm_name. rewrite Hsk, Hat. subst t. rewrite strstr_char by done. rewrite drop_app_length, take_app_length, agent_trim_id by done. rewrite bool_decide_false by done.
    apply orb_true_iff in Htag as [Ht|Ht]; rewrite Ht; cbn [negb andb]; [done|]. by rewrite andb_false_r. }
  assert (Hatm : at_pos m = t). { unfold at_pos. transitivity (drop (length (ps_raw p) - length t) (ps_raw p)); [by destruct p|]. pose proof Hp as [Hl _]. assert (Hlen : length (at_pos p) = (length (ps_raw p) - ps_parse_pos p)%nat) by (unfold at_pos; apply length_drop). rewrite Hat, length_app in Hlen.
    replace (length (ps_raw p) - length t)%nat with (ps_parse_pos p + length name)%nat by lia. rewrite <- drop_drop. fold (at_pos p). rewrite Hat. apply drop_app_length. }
  destruct (glm_name_spec p Hp Hact ltac:(unfold is_param_value; by rewrite Hs) Hsk) as [Hspec _]. rewrite Hname in Hspec. destruct Hspec as (Hm & _). exists m. split; [|by destruct p]. split; [done|]. split; [done|]. split.
  - unfold glm_iter, is_param_value. rewrite Hs, Hskip. unfold glm_structural. by rewrite Hend, Hac, Hc, Hname.
  - exists u. split; [done|]. split; [done|]. split; [by destruct p|]. split; [rewrite <- Hac; by destruct p|]. split; [congruence|]. split; [|by eexists]. transitivity (AgentCall (Some (c_string name)) []); [by destruct p|]. by rewrite c_string_id.
Qed.

Lemma read_glm_end p m r c : reads_member p m (GLM_CALL_END ++ r) c -> ps_syntax p = AGENT_TOOL_SYNTAX_GLM -> exists q,
  grun p = grun q /\ between q r /\ ps_calls q = ps_calls m ++ [c].
Proof.
  intros (Hp & Ha & Hi & s & Hs & Hm & Hst & Hac & Hat & Hc & n & Hn) Hsyn. assert (Hatm : at_pos m = GLM_CALL_END ++ r) by congruence.
  assert (H1 : glm_member m = (set_after_call true (agent_tool_calls_push (set_pos (ps_parse_pos m + length GLM_CALL_END)%nat m)), true)) by (unfold glm_member; by rewrite Hatm, starts_with_app).
  assert (Hpush : agent_tool_calls_push (set_pos (ps_parse_pos m + length GLM_CALL_END)%nat m) = set_current no_call (set_calls (ps_calls m ++ [c]) (set_pos (ps_parse_pos m + length GLM_CALL_END)%nat m))).
  { unfold agent_tool_calls_push. replace (ps_current (set_pos (ps_parse_pos m + length GLM_CALL_END)%nat m)) with c by (rewrite <- Hc; by destruct m). rewrite Hn. by destruct m. }
  rewrite Hpush in H1. set (q := set_after_call true _) in H1. rewrite H1 in Hi. exists q. split; [by apply (run_step (iter := glm_iter))|]. split; [|by destruct m].
  destruct (rounds_forward (iter := glm_iter) p Ha Hp) as (Hq & _ & Hsy & _). rewrite Hi in Hq, Hsy. cbn [fst] in Hq, Hsy. split; [done|]. split; [by destruct m|]. split; [by destruct m|]. split; [by destruct m|]. split; [|congruence].
  transitivity (drop (length GLM_CALL_END) (at_pos m)); [unfold at_pos; rewrite drop_drop; by destruct m|]. rewrite Hatm. apply drop_app_length.
Qed.

Section Orders.
Context (orders : list tool_schema_order).

Definition glm_agent_call (tc : tool_call) : agent_tool_call := AgentCall (Some (tc_name tc)) (map glm_agent_arg (glm_args orders tc)).
Definition glm_agent_call_ok (tc : tool_call) : Prop :=
  tc_name tc <> [] /\ trimmed (tc_name tc) /\ (60 ∉ tc_name tc) /\ (0 ∉ tc_name tc) /\ Forall glm_agent_arg_ok (glm_args orders tc).

Lemma read_glm_call_text p tc r : fresh p (tc_name tc ++ glm_args_text (glm_args orders tc) ++ GLM_CALL_END ++ r) -> glm_agent_call_ok tc -> exists q,
  grun p = grun q /\ between q r /\ ps_calls q = ps_calls p ++ [glm_agent_call tc].
Proof.
  intros Hf (Hn & Htr & Hlt & H0 & Hargs). set (args := glm_args orders tc) in *. assert (Htag : (exists u, glm_args_text args ++ GLM_CALL_END ++ r = 60 :: u) /\ starts_with GLM_KEY_START (glm_args_text args ++ GLM_CALL_END ++ r) || starts_with GLM_CALL_END (glm_args_text args ++ GLM_CALL_END ++ r) = true).
  { destruct args as [|a args']; [split; [by eexists|]; change (glm_args_text [] ++ ?x) with x; by rewrite starts_with_app, orb_true_r|]. split; [by eexists|].
    change (glm_args_text (a :: args')) with (glm_arg_text a ++ glm_args_text args'). unfold glm_arg_text. rewrite <- !(assoc_L (++)), starts_with_app. done. }
  destruct Htag as [Hu Htag]. destruct (read_glm_name p (tc_name tc) _ Hf Hn Htr Hlt H0 Hu Htag) as (m & Hm & Hcm). destruct (read_glm_args args p m (drop 1 GLM_CALL_END ++ r) _ Hm Hargs) as (p' & m' & Hr & Hm' & Hc').
  cbn [ac_name ac_args app] in Hm'. destruct Hf as (Hp & _ & _ & _ & _ & Hsyn). pose proof (grun_syntax p Hp) as Hs1. pose proof Hm' as (Hp' & _). pose proof (grun_syntax p' Hp') as Hs2.
  destruct (read_glm_end p' m' r _ Hm' ltac:(congruence)) as (q & Hr' & Hq & Hcq). exists q. split; [congruence|]. split; [done|]. rewrite Hcq, Hc', Hcm. done.
Qed.

Lemma read_glm_calls v : forall p r, between p (glm_calls_text orders v ++ r) -> Forall glm_agent_call_ok v -> exists q,
  grun p = grun q /\ between q r /\ ps_calls q = ps_calls p ++ map glm_agent_call v.
Proof.
  induction v as [|tc v IH]; intros p r Hb Hok; [exists p; rewrite app_nil_r; done|]. apply Forall_cons in Hok as [Htc Hok]. pose proof Hb as (Hp & Hs & Hac & Hc & Hat & Hsyn). assert (Ha : is_active p = true) by (unfold is_active; by rewrite Hs).
  change (glm_calls_text orders (tc :: v)) with (glm_call_text orders tc ++ glm_calls_text orders v) in Hat. assert (Hat' : at_pos p = GLM_CALL_START ++ tc_name tc ++ glm_args_text (glm_args orders tc) ++ GLM_CALL_END ++ glm_calls_text orders v ++ r) by (rewrite Hat; unfold glm_call_text; flat; reflexivity).
  set (p1 := set_after_call false (set_pos (ps_parse_pos p + length GLM_CALL_START)%nat p)). assert (Hi : glm_iter p = (p1, true)).
  { unfold glm_iter, is_param_value. rewrite Hs, (skip_here p 60 _ Hat') by done. unfold glm_structural. by rewrite (at_not_end p 60 _ Hat'), Hac, Hat', starts_with_app. }
  destruct (rounds_forward (iter := glm_iter) p Ha Hp) as (Hp1 & _). rewrite Hi in Hp1. cbn [fst] in Hp1.
  assert (Hf : fresh p1 (tc_name tc ++ glm_args_text (glm_args orders tc) ++ GLM_CALL_END ++ glm_calls_text orders v ++ r)).
  { split; [done|]. split; [by destruct p|]. split; [by destruct p|]. split; [rewrite <- Hc; by destruct p|]. split; [|rewrite <- Hsyn; by destruct p].
    transitivity (drop (length GLM_CALL_START) (at_pos p)); [unfold at_pos; rewrite drop_drop; by destruct p|]. rewrite Hat'. apply drop_app_length. }
  destruct (read_glm_call_text p1 tc _ Hf Htc) as (q & Hr & Hq & Hcq). destruct (IH q r Hq Hok) as (q' & Hr' & Hq' & Hcq'). exists q'. split; [rewrite (run_step (iter := glm_iter) p p1 Hp Ha Hi); congruence|]. split; [done|].
  rewrite Hcq', Hcq. cbn [map]. rewrite <- (assoc_L (++)). f_equal. by destruct p.
Qed.

(** Behind the calls there is white space to the end, or something else than
    another call. *)
Definition quiet (r : bytes) : Prop :=
  agent_skip_ascii_space r = [] \/ (starts_with GLM_CALL_START (agent_skip_ascii_space r) = false /\ agent_bytes_partial_prefix_at (agent_skip_ascii_space r) GLM_CALL_START = false).

Lemma at_pos_end p : at_pos p = [] -> at_end p = true.
Proof. intros H. unfold at_end. apply Nat.leb_le. apply (f_equal length) in H. unfold at_pos in H. rewrite length_drop in H. cbn in H. lia. Qed.

Lemma skip_pos_twice p : skip_pos (skip_pos p) = skip_pos p.
Proof. unfold skip_pos at 1. rewrite at_skip, skip_skip, Nat.sub_diag, Nat.add_0_r. unfold skip_pos. by destruct p. Qed.

Lemma calls_end p r : between p r -> quiet r -> ps_state (agent_dsml_finish (show_prefix (grun p))) = AGENT_DSML_DONE /\ ps_calls (agent_dsml_finish (show_prefix (grun p))) = ps_calls p.
Proof.
  intros (Hp & Hs & Hac & Hc & Hat & Hsyn) Hq. assert (Ha : is_active p = true) by (unfold is_active; by rewrite Hs). assert (Hi : glm_iter p = glm_structural (skip_pos p)) by (unfold glm_iter, is_param_value; by rewrite Hs).
  assert (Hats : at_pos (skip_pos p) = agent_skip_ascii_space r) by (by rewrite at_skip, Hat). unfold glm_structural in Hi. assert (Hacs : ps_glm_after_call (skip_pos p) = true) by (rewrite <- Hac; by destruct p).
  destruct (at_end (skip_pos p)) eqn:Eend.
  - rewrite (run_stop (iter := glm_iter) p (skip_pos p) Ha Hi). assert (Hsh : show_prefix (skip_pos p) = set_close_prefix false (skip_pos p)) by (unfold show_prefix, is_param_value; replace (ps_state (skip_pos p)) with (ps_state p) by (by destruct p); by rewrite Hs). rewrite Hsh.
    unfold agent_dsml_finish. replace (ps_state (set_close_prefix false (skip_pos p))) with AGENT_DSML_STRUCTURAL by (rewrite <- Hs; by destruct p). replace (ps_syntax (set_close_prefix false (skip_pos p))) with AGENT_TOOL_SYNTAX_GLM by (rewrite <- Hsyn; by destruct p).
    replace (ps_glm_after_call (set_close_prefix false (skip_pos p))) with true by (rewrite <- Hac; by destruct p). cbn [negb]. rewrite skip_flag, skip_pos_twice. replace (at_end (set_close_prefix false (skip_pos p))) with true by (rewrite <- Eend; by destruct p). split; by destruct p.
  - destruct Hq as [Hq|[Hq1 Hq2]]; [rewrite Hq in Hats; apply at_pos_end in Hats; congruence|]. rewrite Hacs, Hats, Hq1, Hq2 in Hi. rewrite (run_stop (iter := glm_iter) p _ Ha Hi). split; by destruct p.
Qed.

Lemma read_glm_whole content v r : v <> [] -> strstr GLM_CALL_START content = None -> Forall glm_agent_call_ok v -> quiet r ->
  let q := agent_dsml_finish (agent_read_whole AGENT_TOOL_SYNTAX_GLM (content ++ append_glm_tool_calls_text [] (ToolCalls v []) orders ++ r)) in
  ps_state q = AGENT_DSML_DONE /\ ps_calls q = map glm_agent_call v.
Proof.
  intros Hv Hc Hok Hr. cbv zeta. rewrite glm_calls_written by done. destruct v as [|tc v]; [done|]. apply Forall_cons in Hok as [Htc Hok].
  set (e := tc_name tc ++ glm_args_text (glm_args orders tc) ++ GLM_CALL_END ++ glm_calls_text orders v ++ 10 :: r).
  assert (Ht : content ++ ([] ++ 10 :: glm_calls_text orders (tc :: v) ++ [10]) ++ r = (content ++ [10]) ++ GLM_CALL_START ++ e).
  { change (glm_calls_text orders (tc :: v)) with (glm_call_text orders tc ++ glm_calls_text orders v). unfold glm_call_text, e. cbn [app]. flat. reflexivity. }
  rewrite Ht. unfold agent_read_whole. cbn [start_of]. assert (Hf : strstr GLM_CALL_START ((content ++ [10]) ++ GLM_CALL_START ++ e) = Some (length (content ++ [10]))).
  { change (GLM_CALL_START ++ e) with (60 :: drop 1 GLM_CALL_START ++ e). apply (strstr_tag (drop 1 GLM_CALL_START)); [by apply (bool_decide_unpack _)|]. apply (strstr_snoc GLM_CALL_START); [done|by apply (bool_decide_unpack _)|done]. }
  rewrite Hf, <- drop_drop, drop_app_length, drop_app_length. pose proof (parse_opened AGENT_TOOL_SYNTAX_GLM e) as Hp. cbn [iter_of] in Hp. rewrite Hp. clear Hp Hf Ht.
  assert (Hfr : fresh (ext e (opened AGENT_TOOL_SYNTAX_GLM)) e) by (split; [apply opened_ok|]; split_and!; reflexivity). assert (H0 : ps_calls (ext e (opened AGENT_TOOL_SYNTAX_GLM)) = []) by done.
  revert Hfr H0. generalize (ext e (opened AGENT_TOOL_SYNTAX_GLM)) as p. intros p Hfr H0. destruct (read_glm_call_text p tc _ Hfr Htc) as (q & Hr1 & Hb & Hcq). destruct (read_glm_calls v q _ Hb Hok) as (q' & Hr2 & Hb' & Hcq').
  assert (Hq : quiet (10 :: r)) by exact Hr. destruct (calls_end q' _ Hb' Hq) as [E1 E2]. rewrite Hr1, Hr2. split; [done|]. rewrite E2, Hcq', Hcq, H0. done.
Qed.
End Orders.
End Written.

(** ** Properties *)

Lemma whole_settled syntax text : is_active (agent_read_whole syntax text) = true -> (iter_of syntax (agent_read_whole syntax text)).2 = false.
Proof.
  unfold agent_read_whole. destruct (strstr (start_of syntax) text) as [i|]; [|by destruct syntax]. rewrite parse_opened. set (p := ext (drop (i + length (start_of syntax)) text) (opened syntax)).
  pose proof (iter_of_rounds syntax) as R. pose proof (run_settled (iter := iter_of syntax) p (opened_ok syntax _)) as H. revert H. generalize (parse_loop (iter_of syntax) (parse_fuel p) p) as q. intros q H Ha. destruct (show_is q) as [b Hb]. rewrite Hb in *.
  destruct (rounds_flag q b) as [b' ->]. apply H. by destruct q.
Qed.

(** C7: However the generated text is cut into pieces - tokens, single bytes, tags
    cut in two, characters cut in two - the streaming parser ends in the state of
    a parser that sees the whole text at once: the same calls, the same error, the
    same cursor and pending value, the same held-back closing tag, and, while the
    block is open, the same buffer; the same after the end of the stream.  Where it
    waits, the text holds nothing more that could be read. *)
Theorem agent_stream_pieces (syntax : agent_tool_syntax) (pieces : list bytes) :
  let p := foldl agent_dsml_feed (agent_dsml_parser_reset syntax) pieces in
  let q := agent_read_whole syntax (concat pieces) in
  forget_rest p = forget_rest q /\ forget_rest (agent_dsml_finish p) = forget_rest (agent_dsml_finish q) /\
  is_active q && (iter_of syntax q).2 = false.
Proof.
  intros p q. assert (H : forget_rest p = forget_rest q) by (apply (feed_pieces syntax pieces [] _); by destruct syntax). split; [exact H|]. split; [by apply forget_finish|].
  destruct (is_active q) eqn:E; [|done]. by apply whole_settled.
Qed.

Lemma pieces_fields syntax pieces : let p := foldl agent_dsml_feed (agent_dsml_parser_reset syntax) pieces in let q := agent_read_whole syntax (concat pieces) in
  ps_state p = ps_state q /\ ps_calls p = ps_calls q /\ ps_state (agent_dsml_finish p) = ps_state (agent_dsml_finish q) /\ ps_calls (agent_dsml_finish p) = ps_calls (agent_dsml_finish q).
Proof.
  intros p q. assert (Hg : forall p q, forget_rest p = forget_rest q -> ps_state p = ps_state q /\ ps_calls p = ps_calls q).
  { clear. intros p q H. assert (Hf : forall p, ps_state (forget_rest p) = ps_state p /\ ps_calls (forget_rest p) = ps_calls p) by (intros [? []]; done). destruct (Hf p) as [<- <-], (Hf q) as [<- <-]. by rewrite H. }
  assert (H : forget_rest p = forget_rest q) by (apply (feed_pieces syntax pieces [] _); by destruct syntax). destruct (Hg p q H) as [-> ->]. destruct (Hg _ _ (forget_finish _ _ H)) as [-> ->]. done.
Qed.

(** Text without the characters that an attribute escapes. *)
Definition plain (s : bytes) : Prop := Forall (fun c => c ∉ [38; 60; 62; 34]) s.
Definition plain_call (tc : tool_call) : Prop := plain (tc_name tc) /\ Forall (fun a => plain (arg_key a)) (call_args tc).

(** The call with its names as the server has them. *)
Definition exact_call (tc : tool_call) : agent_tool_call :=
  AgentCall (Some (tc_name tc)) (map (fun a => AgentArg (arg_key a) (if arg_is_string a then arg_value a else json_literal_escape (arg_value a)) (arg_is_string a)) (call_args tc)).

Lemma attr_plain s : plain s -> flat_map attr_escape_char s = s.
Proof.
  induction 1 as [|c s Hc Hs IH]; [done|]. cbn [flat_map]. rewrite IH. unfold attr_escape_char. rewrite !elem_of_cons in Hc. repeat case_if; bool_prop; tauto.
Qed.

Lemma plain_call_exact tc : plain_call tc -> agent_call tc = exact_call tc.
Proof.
  intros [Hn Ha]. unfold agent_call, exact_call. rewrite attr_plain by done. f_equal. induction Ha as [|a args Hk Ha IH]; [done|]. cbn [map]. rewrite IH. unfold agent_arg. by rewrite attr_plain.
Qed.

(** C20: The agent reads back the calls that the server writes in DSML when their
    names and values hold no NUL, no argument key ends in [string=], and no value
    holds another spelling of the closing tag than the literal one (the writer
    escapes only that one: [close_variant_ends_value]).  Behind any content that
    holds no block, and in whatever pieces the text arrives, the parser then ends
    with exactly these calls, each with its arguments in order; a string value is
    the original one even where it holds the literal closing tag.  Names come as
    they stand in their attributes, escaped; names without the escaped characters
    come as they are. *)
Theorem agent_reads_dsml_calls (content r : bytes) (v : list tool_call) (pieces : list bytes) :
  v <> [] -> strstr DS4_TOOL_CALLS_START content = None -> Forall agent_call_ok v ->
  concat pieces = content ++ append_dsml_tool_calls_text [] (ToolCalls v []) ++ r ->
  let p := foldl agent_dsml_feed (agent_dsml_parser_reset AGENT_TOOL_SYNTAX_DSML) pieces in
  ps_state p = AGENT_DSML_DONE /\ ps_calls p = map agent_call v /\ (Forall plain_call v -> ps_calls p = map exact_call v).
Proof.
  intros Hv Hc Hok Hp p. destruct (pieces_fields AGENT_TOOL_SYNTAX_DSML pieces) as (H1 & H2 & _). unfold p. rewrite H1, H2, Hp. destruct (read_whole_written content v r Hv Hc Hok) as [H3 H4].
  split; [done|]. split; [done|]. intros Hpl. rewrite H4. apply map_ext_in. intros tc Htc. apply plain_call_exact. rewrite Forall_forall in Hpl. by apply Hpl, list_elem_of_In.
Qed.

Lemma agent_reads_dsml_calls_witness :
  let tc := ToolCall (bs "edit") (bs "{" ++ [34] ++ bs "old" ++ [34] ++ bs ": " ++ [34] ++ bs "a</｜DSML｜parameter>b" ++ [34] ++ bs ", " ++ [34] ++ bs "n" ++ [34] ++ bs ":[1, 2]}") in
  let text := bs "Now. " ++ append_dsml_tool_calls_text [] (ToolCalls [tc] []) ++ bs "<end>" in
  let p := foldl agent_dsml_feed (agent_dsml_parser_reset AGENT_TOOL_SYNTAX_DSML) (map (fun c => [c]) text) in
  (ps_state p = AGENT_DSML_DONE /\ ps_calls p = map agent_call [tc] /\ (Forall plain_call [tc] -> ps_calls p = map exact_call [tc])) /\
  agent_call tc = AgentCall (Some (bs "edit")) [AgentArg (bs "old") (bs "a</｜DSML｜parameter>b") true; AgentArg (bs "n") (bs "[1,2]") false].
Proof.
  intros tc text. split; [|vm_compute; reflexivity].
  assert (Hargs : call_args tc = [JsonArg (bs "old") (bs "a</｜DSML｜parameter>b") true; JsonArg (bs "n") (bs "[1,2]") false]) by (vm_compute; reflexivity).
  assert (Hok : Forall agent_call_ok [tc]).
  { constructor; [|constructor]. split; [apply (bool_decide_unpack _); vm_compute; exact I|]. rewrite Hargs. constructor; [|constructor; [|constructor]]; (split; [intros k Hk; apply (f_equal (fun s => last s)) in Hk; cbn [arg_key] in Hk; rewrite last_app in Hk; discriminate Hk|]);
      (split; [apply (bool_decide_unpack _); vm_compute; exact I|]); (split; [apply (bool_decide_unpack _); vm_compute; exact I|]); vm_compute; reflexivity. }
  assert (Hcat : concat (map (fun c => [c]) text) = text) by (vm_compute; reflexivity).
  exact (agent_reads_dsml_calls (bs "Now. ") (bs "<end>") [tc] (map (fun c => [c]) text) ltac:(discriminate) eq_refl Hok Hcat).
Defined.

(** C22: The agent reads the calls that the server writes in GLM's syntax, in
    whatever pieces the text arrives and whatever the keys and values hold, tags of
    the protocol included; behind the calls the text may end, or go on with
    anything that is not, and does not begin like, another call. *)
Theorem agent_reads_glm_calls (orders : list tool_schema_order) (content r : bytes) (v : list tool_call) (pieces : list bytes) :
  v <> [] -> strstr GLM_CALL_START content = None -> Forall (glm_agent_call_ok orders) v -> quiet r ->
  concat pieces = content ++ append_glm_tool_calls_text [] (ToolCalls v []) orders ++ r ->
  let p := agent_dsml_finish (foldl agent_dsml_feed (agent_dsml_parser_reset AGENT_TOOL_SYNTAX_GLM) pieces) in
  ps_state p = AGENT_DSML_DONE /\ ps_calls p = map (glm_agent_call orders) v.
Proof.
  intros Hv Hc Hok Hr Hp p. destruct (pieces_fields AGENT_TOOL_SYNTAX_GLM pieces) as (_ & _ & H1 & H2). unfold p. rewrite H1, H2, Hp. by apply read_glm_whole.
Qed.

Lemma agent_reads_glm_calls_witness :
  let tc := ToolCall (bs "bash") (bs "{" ++ [34] ++ bs "command" ++ [34] ++ bs ": " ++ [34] ++ bs "echo </arg_value></tool_call>" ++ [34] ++ bs "}") in
  let text := bs "Look:" ++ append_glm_tool_calls_text [] (ToolCalls [tc; tc] []) [] in
  let p := agent_dsml_finish (foldl agent_dsml_feed (agent_dsml_parser_reset AGENT_TOOL_SYNTAX_GLM) [take 40 text; drop 40 text]) in
  (ps_state p = AGENT_DSML_DONE /\ ps_calls p = map (glm_agent_call []) [tc; tc]) /\
  glm_agent_call [] tc = AgentCall (Some (bs "bash")) [AgentArg (bs "command") (bs "echo </arg_value></tool_call>") true].
Proof.
  intros tc text. split; [|vm_compute; reflexivity].
  assert (Hargs : glm_args [] tc = [JsonArg (bs "command") (bs "echo </arg_value></tool_call>") true]) by (vm_compute; reflexivity).
  assert (Htc : glm_agent_call_ok [] tc).
  { split; [discriminate|]. split; [split; reflexivity|]. split; [apply (bool_decide_unpack _); vm_compute; exact I|]. split; [apply (bool_decide_unpack _); vm_compute; exact I|]. rewrite Hargs.
    constructor; [|constructor]. split; [discriminate|]. split; [split; reflexivity|]. split; apply (bool_decide_unpack _); vm_compute; exact I. }
  assert (Hcat : concat [take 40 text; drop 40 text] = bs "Look:" ++ append_glm_tool_calls_text [] (ToolCalls [tc; tc] []) [] ++ []) by (vm_compute; reflexivity).
  exact (agent_reads_glm_calls [] (bs "Look:") [] [tc; tc] [take 40 text; drop 40 text] ltac:(discriminate) eq_refl (Forall_cons_2 _ _ _ Htc (Forall_cons_2 _ _ _ Htc (Forall_nil_2 _))) (or_introl eq_refl) Hcat).
Defined.

(** A value that holds another spelling of the closing tag is not escaped by the
    writer, and the agent's parser ends it there. *)
Example close_variant_ends_value :
  let tc := ToolCall (bs "t") (bs "{" ++ [34] ++ bs "x" ++ [34] ++ bs ": " ++ [34] ++ bs "a</｜DSML｜parameter >b" ++ [34] ++ bs "}") in
  let p := agent_dsml_feed (agent_dsml_parser_reset AGENT_TOOL_SYNTAX_DSML) (append_dsml_tool_calls_text [] (ToolCalls [tc] [])) in
  ps_state p = AGENT_DSML_ERROR /\ ps_current p = AgentCall (Some (bs "t")) [AgentArg (bs "x") (bs "a") true].
Proof. vm_compute. split; reflexivity. Qed.
