(* ===== verification/AgentEdit.v ===== *)
(** * Editing files for the model (src/ds4_agent.c)

    The [edit] and [write] tools of the agent: finding the text to replace, the
    marker [[upto]], the splice, and [agent_replace_file] on a file system that
    other processes change at the same time.  A file system is a map of names to
    files and a map of symbolic links; directories are not modelled.  The other
    processes act at three moments ([others]): between the reading of the file and
    its replacement, between the opening of the file to replace and the comparison
    with what was read, and before the last check; what they could still do between
    that check and the [rename] behind it is not modelled, and the code does not
    prevent it (they take no lock).  Every system
    call may fail with an errno given in advance; [strerror] and the name that
    [mkstemp] picks belong to the C library. *)

From S2P Require Import Prelude Libc ToolText ToolCalls AgentTool.
#[local] Open Scope Z_scope.
#[local] Open Scope stdpp_scope.

(** ** Definitions *)

(** *** Tool output *)

Definition AGENT_TOOL_MAX_BYTES : nat := Z.to_nat (128 * 1024).
Definition AGENT_FILE_MAX_BYTES : Z := 16 * 1024 * 1024.

(** [ab_limit] 0 is no limit. *)
Record agent_buf := AgentBuf { ab_limit : nat; ab_bytes : bytes; ab_truncated : bool }.

Definition utf8_tail (c : Z) : bool := Z.land c 0xc0 =? 0x80.

Fixpoint back_to_char (s : bytes) (n : nat) : nat :=
  match n with O => O | S m => if utf8_tail (cget s n) then back_to_char s m else n end.

Definition agent_buf_append (b : agent_buf) (s : bytes) : agent_buf :=
  if (length s =? 0)%nat || ab_truncated b then b
  else
    let len := length (ab_bytes b) in
    if negb (ab_limit b =? 0)%nat && (ab_limit b - len <? length s)%nat
    then AgentBuf (ab_limit b) (ab_bytes b ++ take (back_to_char s (ab_limit b - len)) s) true
    else AgentBuf (ab_limit b) (ab_bytes b ++ s) false.

Definition agent_buf_take (b : agent_buf) : bytes :=
  if ab_truncated b
  then ab_bytes b ++ [10] ++ bs "[Output truncated at the tool byte limit. Narrow the request.]" ++ [10]
  else ab_bytes b.

(** *** Lines *)

Record agent_line_span := Span { sp_start : nat; sp_content_end : nat; sp_end : nat }.

Fixpoint line_length (s : bytes) : nat :=
  match s with c :: s' => if (c =? 10) || (c =? 13) then O else S (line_length s') | [] => O end.

Fixpoint split_loop (fuel : nat) (data : bytes) (pos : nat) : list agent_line_span :=
  match fuel with
  | O => []
  | S fuel' =>
      if (length data <=? pos)%nat then []
      else
        let content_end := (pos + line_length (drop pos data))%nat in
        let end_ := if (content_end <? length data)%nat then
                      if (cget data content_end =? 13) && (S content_end <? length data)%nat && (cget data (S content_end) =? 10)
                      then (content_end + 2)%nat else S content_end
                    else content_end in
        Span pos content_end end_ :: split_loop fuel' data end_
  end.
Definition agent_split_lines (data : bytes) : list agent_line_span := split_loop (length data) data 0.

Fixpoint line_for (spans : list agent_line_span) (offset line : nat) : option nat :=
  match spans with
  | [] => None
  | sp :: spans' => if (offset <? sp_end sp)%nat then Some line else line_for spans' offset (S line)
  end.
Definition agent_line_for_offset (spans : list agent_line_span) (offset : nat) : nat :=
  match spans with [] => 1%nat | _ => default (length spans) (line_for spans offset 1) end.

(** First and last touched old line, and by how many lines the rest moves. *)
Definition agent_old_new_line_effect (old new : bytes) (edit_offset replaced_len : nat) : option (nat * nat * Z) :=
  let old_spans := agent_split_lines old in
  let new_spans := agent_split_lines new in
  if (length old_spans =? 0)%nat then None
  else
    let old_last := if (0 <? replaced_len)%nat then (edit_offset + replaced_len - 1)%nat else edit_offset in
    let old_last := if (length old <=? old_last)%nat then (length old - 1)%nat else old_last in
    Some (agent_line_for_offset old_spans edit_offset, agent_line_for_offset old_spans old_last, zlen new_spans - zlen old_spans).

Definition no_span : agent_line_span := Span 0 0 0.

Definition agent_edit_result_append_line (b : agent_buf) (data : bytes) (sp : agent_line_span) (line : nat) : agent_buf :=
  let b := agent_buf_append b (dec_print (Z.of_nat line) ++ [32]) in
  let b := agent_buf_append b (take (sp_content_end sp - sp_start sp) (drop (sp_start sp) data)) in
  agent_buf_append b [10].

(** The lines [from] to [to] inclusive. *)
Definition append_lines (b : agent_buf) (data : bytes) (spans : list agent_line_span) (from to : nat) : agent_buf :=
  foldl (fun b line => agent_edit_result_append_line b data (nth (line - 1) spans no_span) line) b (seq from (S to - from)).

Definition CONTEXT_BEFORE : nat := 5.
Definition CONTEXT_AFTER : nat := 8.
Definition EDITED_CONTEXT_HEAD : nat := 18.
Definition EDITED_CONTEXT_TAIL : nat := 18.

Definition agent_edit_result_append_context (b : agent_buf) (path data : bytes) (anchor_start anchor_end : Z) : agent_buf :=
  let spans := agent_split_lines data in
  if (length spans =? 0)%nat then b
  else
    let n := length spans in
    let a1 := Z.to_nat (Z.max 1 (Z.min anchor_start (zlen spans))) in
    let a2 := Z.to_nat (Z.min (Z.max anchor_end (Z.of_nat a1)) (zlen spans)) in
    let ctx_start := Nat.max 1 (a1 - CONTEXT_BEFORE) in
    let ctx_end := Nat.min (a2 + CONTEXT_AFTER) n in
    let b := agent_buf_append b (bs "Current file around edit: " ++ path ++ bs " lines " ++ dec_print (Z.of_nat ctx_start) ++ bs "-" ++
               dec_print (Z.of_nat ctx_end) ++ bs " of " ++ dec_print (Z.of_nat n) ++ [10]) in
    let edited_lines := (a2 - a1 + 1)%nat in
    if (edited_lines <=? EDITED_CONTEXT_HEAD + EDITED_CONTEXT_TAIL)%nat then append_lines b data spans ctx_start ctx_end
    else
      let head_end := (a1 + EDITED_CONTEXT_HEAD - 1)%nat in
      let tail_start := (a2 - EDITED_CONTEXT_TAIL + 1)%nat in
      let b := append_lines b data spans ctx_start head_end in
      let b := agent_buf_append b (bs "... " ++ dec_print (Z.of_nat (tail_start - head_end - 1)) ++ bs " edited lines omitted ..." ++ [10]) in
      append_lines b data spans tail_start ctx_end.

(** [%+d] *)
Definition print_signed (z : Z) : bytes := if z <? 0 then print_int z else 43 :: dec_print z.

Definition agent_edit_result (path : bytes) (start_line end_line : nat) (delta : Z) (new_data kind : bytes) : bytes :=
  let b := agent_buf_append (AgentBuf AGENT_TOOL_MAX_BYTES [] false) (bs "Edited " ++ path ++ bs " using " ++ kind ++ [10]) in
  let touched := (0 <? start_line)%nat && (start_line <=? end_line)%nat in
  let b := if touched then
             let b := agent_buf_append b (bs "Touched old lines " ++ dec_print (Z.of_nat start_line) ++ bs "-" ++ dec_print (Z.of_nat end_line) ++
                        bs "; current post-edit context follows." ++ [10]) in
             if negb (delta =? 0) then
               agent_buf_append b (bs "Line shift: old lines after " ++ dec_print (Z.of_nat end_line) ++ bs " moved by " ++ print_signed delta ++
                 bs " (old line " ++ dec_print (Z.of_nat end_line + 1) ++ bs " is now line " ++ print_int (Z.of_nat end_line + 1 + delta) ++
                 bs "). Re-read before relying on old line numbers there." ++ [10])
             else b
           else b in
  let b := if touched then agent_edit_result_append_context b path new_data (Z.of_nat start_line) (Z.max (Z.of_nat end_line + delta) (Z.of_nat start_line))
           else b in
  agent_buf_take b.

(** *** Finding the text to replace *)

Fixpoint memmem_loop (count : nat) (hay needle : bytes) (i : nat) : option nat :=
  match count with
  | O => None
  | S count' => if (cget hay i =? cget needle 0) && starts_with needle (drop i hay) then Some i else memmem_loop count' hay needle (S i)
  end.
Definition agent_memmem_simple (hay needle : bytes) : option nat :=
  if (length needle =? 0)%nat then Some O
  else if (length hay <? length needle)%nat then None
  else memmem_loop (S (length hay - length needle)) hay needle 0.

(** Place, or the error. *)
Definition agent_find_unique_from (data : bytes) (start : nat) (needle label where_ : bytes) : nat + bytes :=
  if (length needle =? 0)%nat then inr (label ++ bs " anchor is empty")
  else
    match agent_memmem_simple (drop start data) needle with
    | None => inr (label ++ bs " anchor not found" ++ where_)
    | Some i =>
        let first := (start + i)%nat in
        match (if (S first <=? length data)%nat then agent_memmem_simple (drop (S first) data) needle else None) with
        | Some _ => inr (label ++ bs " anchor is not unique" ++ where_)
        | None => inl first
        end
    end.
Definition agent_find_unique (data needle label : bytes) : nat + bytes := agent_find_unique_from data 0 needle label [].
Definition agent_find_unique_after (data : bytes) (start : nat) (needle label : bytes) : nat + bytes :=
  if negb (length needle =? 0)%nat && (length data <? start)%nat then inr (label ++ bs " search starts outside file")
  else agent_find_unique_from data start needle label (bs " after old head").

Definition UPTO : bytes := bs "[upto]".

Definition agent_span_has_nonspace (s : bytes) : bool := existsb (fun c => negb (isspace c)) s.

Fixpoint strip_newlines (s : bytes) : bytes :=
  match s with c :: s' => if (c =? 10) || (c =? 13) then strip_newlines s' else s | [] => [] end.

(** Offset and length of the text to replace, and whether it is anchored. *)
Definition agent_edit_find_old_span (data old : bytes) (allow_upto : bool) : (nat * nat * bool) + bytes :=
  match (if allow_upto then strstr UPTO old else None) with
  | None => match agent_find_unique data old (bs "old text") with inl k => inl (k, length old, false) | inr e => inr e end
  | Some u =>
      let after := drop (u + length UPTO) old in
      match strstr UPTO after with
      | Some _ => inr (bs "old text contains more than one [upto] marker")
      | None =>
          let tail := strip_newlines after in
          if negb (agent_span_has_nonspace tail) then inr (bs "old text after [upto] must include a unique tail anchor")
          else
            match agent_find_unique data (take u old) (bs "old head") with
            | inr e => inr e
            | inl head_pos =>
                match agent_find_unique_after data (head_pos + u) tail (bs "old tail") with
                | inr e => inr e
                | inl tail_pos => inl (head_pos, (tail_pos - head_pos + length tail)%nat, true)
                end
            end
      end
  end.

(** *** The file system *)

Definition ENOENT : Z := 2.
Definition EIO : Z := 5.
Definition EEXIST : Z := 17.
Definition EINVAL : Z := 22.
Definition ENAMETOOLONG : Z := 36.
Definition ELOOP : Z := 40.
Definition PATH_MAX : nat := 4096.

(** What [stat] tells, the metadata a copy keeps, and the bytes. *)
Record inode := Inode {
  st_dev : Z; st_ino : Z; st_nlink : Z; st_mtime : Z * Z; st_ctime : Z * Z; st_regular : bool;
  in_owner : Z * Z; in_mode : Z; in_xattrs : list (bytes * bytes);
  in_data : bytes }.
Definition st_size (n : inode) : Z := zlen (in_data n).

Record world := World { w_files : gmap bytes inode; w_links : gmap bytes bytes }.

Definition set_file (p : bytes) (n : inode) (w : world) : world := World (<[p := n]> (w_files w)) (w_links w).
Definition unlink (p : bytes) (w : world) : world := World (delete p (w_files w)) (w_links w).

(** [realpath]: links are followed at most 40 times. *)
Fixpoint resolve (hops : nat) (w : world) (p : bytes) : bytes + Z :=
  match w_links w !! p with
  | Some t => match hops with O => inr ELOOP | S hops' => resolve hops' w t end
  | None => match w_files w !! p with Some _ => inl p | None => inr ENOENT end
  end.
Definition realpath (w : world) (p : bytes) : bytes + Z := resolve 40 w p.

Definition agent_same_file_version (a b : inode) : bool :=
  (st_dev a =? st_dev b) && (st_ino a =? st_ino b) && (st_size a =? st_size b) && (st_nlink a =? st_nlink b) &&
  bool_decide (st_mtime a = st_mtime b) && bool_decide (st_ctime a = st_ctime b).

(** The errno of a call that fails. *)
Record outcomes := Outcomes {
  oc_fopen : option Z; oc_read : option Z; oc_lstat : option Z; oc_open : option Z; oc_compare : option Z; oc_temp : option Z; oc_reopen : option Z; oc_write : option Z;
  oc_metadata : option Z; oc_sync : option Z; oc_close : option Z; oc_stat : bool; oc_commit : option Z }.

Section FileSystem.
Context (strerror : Z -> bytes) (mkstemp_suffix : bytes) (new_inode : inode).

Definition agent_read_file_bytes (w : world) (oc : outcomes) (path : bytes) : bytes + bytes :=
  let open_error e := inr (bs "open " ++ path ++ bs ": " ++ strerror e) in
  match oc_fopen oc, realpath w path with
  | Some e, _ => open_error e
  | None, inr e => open_error e
  | None, inl target =>
      match w_files w !! target with
      | None => open_error ENOENT
      | Some node =>
          if negb (st_regular node) then open_error EINVAL
          else if AGENT_FILE_MAX_BYTES <? zlen (in_data node)
          then inr (bs "file too large: " ++ path ++ bs " exceeds " ++ print_int AGENT_FILE_MAX_BYTES ++ bs " bytes")
          else match oc_read oc with
               | Some e => inr (bs "read " ++ path ++ bs ": " ++ strerror e)
               | None => inl (in_data node)
               end
      end
  end.

Definition temp_name (target : bytes) : bytes := target ++ bs ".ds4-" ++ mkstemp_suffix.

(** The temporary file with all of [data]; with the metadata of the file it
    replaces. *)
Definition temp_file (before : option inode) (data : bytes) : inode :=
  Inode (st_dev new_inode) (st_ino new_inode) 1 (st_mtime new_inode) (st_ctime new_inode) true
    (match before with Some b => in_owner b | None => in_owner new_inode end)
    (match before with Some b => Z.land (in_mode b) 0xfff | None => in_mode new_inode end)
    (match before with Some b => in_xattrs b | None => [] end) data.

Definition changed_error (path : bytes) : bytes := bs "file changed while editing; read it again: " ++ path.

(** [rename] of a file over another, and [link] to a free name. *)
Definition rename_file (w : world) (from to : bytes) : world + Z :=
  match w_files w !! from with
  | Some n => inl (set_file to n (unlink from w))
  | None => inr ENOENT
  end.
Definition name_taken (w : world) (p : bytes) : bool :=
  match w_files w !! p, w_links w !! p with None, None => false | _, _ => true end.

(** What other processes do: after the tool has read the file; after
    [agent_replace_file] has opened it; before the last check. *)
Record others := Others { ot_read : world -> world; ot_open : world -> world; ot_check : world -> world }.
Definition idle : others := Others (fun w => w) (fun w => w) (fun w => w).

(** What the open descriptor reads: the bytes the file has now, or, once the name
    stands for another file, those it was opened with. *)
Definition held (w : world) (target : bytes) (before : inode) : bytes :=
  match w_files w !! target with
  | Some n => if (st_dev n =? st_dev before) && (st_ino n =? st_ino before) then in_data n else in_data before
  | None => in_data before
  end.

(** The second half of [agent_replace_file]: from the temporary file to the commit. *)
Definition commit_file (w : world) (o : others) (oc : outcomes) (path target : bytes) (before : option inode) (data : bytes) : world * option bytes :=
  let temp := temp_name target in
  let failed w e := (unlink temp w, Some (bs "replace " ++ path ++ bs ": " ++ strerror e)) in
  let changed w := (unlink temp w, Some (changed_error path)) in
  match oc_temp oc with
  | Some e => (w, Some (bs "replace " ++ path ++ bs ": " ++ strerror e))
  | None =>
      match (match before with None => oc_reopen oc | Some _ => None end) with
      | Some e => (w, Some (bs "replace " ++ path ++ bs ": " ++ strerror e))
      | None =>
          let w := set_file temp (temp_file before data) w in
          match (if (length data =? 0)%nat then None else oc_write oc), (match before with Some _ => oc_metadata oc | None => None end), oc_sync oc, oc_close oc with
          | None, None, None, None =>
              let w := ot_check o w in
              match before with
              | Some before =>
                  match realpath w path with
                  | inl resolved =>
                      if bytes_eqb resolved target && negb (oc_stat oc) &&
                         match w_files w !! target with Some after => agent_same_file_version before after | None => false end
                      then match oc_commit oc with
                           | Some e => failed w e
                           | None => match rename_file w temp target with inl w' => (w', None) | inr e => failed w e end
                           end
                      else changed w
                  | inr _ => changed w
                  end
              | None =>
                  match oc_commit oc with
                  | Some e => failed w e
                  | None =>
                      if name_taken w target then failed w EEXIST
                      else match w_files w !! temp with
                           | Some n => (unlink temp (set_file target n w), None)
                           | None => failed w ENOENT
                           end
                  end
              end
          | Some e, _, _, _ | None, Some e, _, _ | None, None, Some e, _ | None, None, None, Some e => failed w e
          end
      end
  end.

(** [expected] is what the file must still hold; the result is an error. *)
Definition agent_replace_file (w : world) (o : others) (oc : outcomes) (path data : bytes) (expected : option bytes) : world * option bytes :=
  let failed e := (w, Some (bs "replace " ++ path ++ bs ": " ++ strerror e)) in
  match oc_lstat oc with
  | Some e => failed e
  | None =>
      if name_taken w path then
        match realpath w path with
        | inr e => failed e
        | inl target =>
            match oc_open oc, w_files w !! target with
            | Some e, _ => failed e
            | None, None => failed ENOENT
            | None, Some before =>
                if negb (st_regular before) || negb (st_nlink before =? 1)
                then (w, Some (bs "refusing to replace non-regular or hard-linked file: " ++ path))
                else
                  let w := ot_open o w in
                  let failed e := (w, Some (bs "replace " ++ path ++ bs ": " ++ strerror e)) in
                  let commit := if (PATH_MAX <=? length (temp_name target))%nat then failed ENAMETOOLONG
                                else commit_file w o oc path target (Some before) data in
                  match expected with
                  | Some x =>
                      if negb (st_size before =? zlen x) then (w, Some (changed_error path))
                      else match (if (length x =? 0)%nat then None else oc_compare oc) with
                           | Some e => failed e
                           | None => if bytes_eqb (take (length x) (held w target before)) x then commit else (w, Some (changed_error path))
                           end
                  | None => commit
                  end
            end
        end
      else
        let w := ot_open o w in
        match expected with
        | Some _ => (w, Some (changed_error path))
        | None =>
            if (PATH_MAX <=? length path)%nat || (PATH_MAX <=? length (temp_name path))%nat
            then (w, Some (bs "replace " ++ path ++ bs ": " ++ strerror ENAMETOOLONG))
            else commit_file w o oc path path None data
        end
  end.

(** *** The tools *)

(** Errors pass through [char err[256]]. *)
Definition err_text (e : bytes) : bytes := take 255 e.
Definition tool_error (e : bytes) : bytes := bs "Tool error: " ++ err_text e ++ [10].

Definition agent_apply_file_splice (w : world) (o : others) (oc : outcomes) (path data : bytes) (offset remove_len : nat) (insert kind : bytes) : world * bytes :=
  let out := take offset data ++ insert ++ drop (offset + remove_len) data in
  match agent_replace_file w o oc path out (Some data) with
  | (w, Some err) => (w, tool_error err)
  | (w, None) =>
      let '(start_line, end_line, delta) := default (0%nat, 0%nat, 0) (agent_old_new_line_effect data out offset remove_len) in
      (w, agent_edit_result path start_line end_line delta out kind)
  end.

Definition nonempty (o : option bytes) : option bytes := match o with Some (c :: s) => Some (c :: s) | _ => None end.

Definition agent_tool_edit (w : world) (o : others) (oc : outcomes) (edit_upto : bool) (call : agent_tool_call) : world * bytes :=
  match nonempty (agent_tool_arg_value call (bs "path")) with
  | None => (w, bs "Tool error: edit requires path" ++ [10])
  | Some path =>
      match nonempty (agent_tool_arg_value call (bs "old")), agent_tool_arg_value call (bs "new") with
      | None, _ => (w, bs "Tool error: edit requires non-empty old text" ++ [10])
      | _, None => (w, bs "Tool error: edit requires new text" ++ [10])
      | Some old, Some new_text =>
          match agent_read_file_bytes w oc path with
          | inr err => (w, tool_error err)
          | inl data =>
              match agent_edit_find_old_span data old edit_upto with
              | inr err => (w, tool_error err)
              | inl (m, match_len, anchored) =>
                  agent_apply_file_splice (ot_read o w) o oc path data m match_len new_text
                    (if anchored then bs "anchored old/new replacement" else bs "old/new replacement")
              end
          end
      end
  end.

Definition agent_tool_write (w : world) (o : others) (oc : outcomes) (call : agent_tool_call) : world * bytes :=
  match nonempty (agent_tool_arg_value call (bs "path")) with
  | None => (w, bs "Tool error: write requires path" ++ [10])
  | Some path =>
      match agent_tool_arg_value call (bs "content") with
      | None => (w, bs "Tool error: write requires content" ++ [10])
      | Some content =>
          match agent_replace_file w o oc path content None with
          | (w, Some err) => (w, tool_error err)
          | (w, None) => (w, bs "Wrote " ++ dec_print (zlen content) ++ bs " bytes to " ++ path ++ [10])
          end
      end
  end.

(** While the call is still being generated: can its [old] be found?  An error
    stops the generation. *)
Definition agent_preflight_edit_old (w : world) (oc : outcomes) (edit_upto : bool) (call : agent_tool_call) : option bytes :=
  match nonempty (agent_tool_arg_value call (bs "path")) with
  | None => None
  | Some path =>
      match nonempty (agent_tool_arg_value call (bs "old")) with
      | None => Some (bs "edit requires non-empty old text")
      | Some old =>
          match agent_read_file_bytes w oc path with
          | inr err => Some (err_text err)
          | inl data => match agent_edit_find_old_span data old edit_upto with inr err => Some (err_text err) | inl _ => None end
          end
      end
  end.

(** *** Cutting a long [old] short *)

Record agent_edit_upto_forcer := Forcer { fo_active : bool; fo_done : bool }.

Definition AGENT_EDIT_UPTO_MIN_PREFIX_BYTES : nat := 64.
Definition AGENT_EDIT_UPTO_MIN_PREFIX_LINES : nat := 2.

Definition agent_edit_old_may_be_closing_tag (text : bytes) : bool := cget (agent_skip_ascii_space text) 0 =? 60.
Definition agent_edit_old_is_only_space (text : bytes) : bool := forallb agent_ws text.

Fixpoint nonempty_lines (s : bytes) (line_has_text : bool) (n : nat) : nat :=
  match s with
  | [] => n
  | c :: s' =>
      if c =? 10 then nonempty_lines s' false (if line_has_text then S n else n)
      else nonempty_lines s' (line_has_text || negb (isspace c)) n
  end.
Definition agent_edit_old_prefix_mature_for_upto (old : bytes) : bool :=
  (AGENT_EDIT_UPTO_MIN_PREFIX_BYTES <=? length old)%nat && (AGENT_EDIT_UPTO_MIN_PREFIX_LINES <=? nonempty_lines old false 0)%nat.

Fixpoint strip_blanks (rev_s : bytes) : bytes :=
  match rev_s with c :: s' => if (c =? 32) || (c =? 9) || (c =? 13) then strip_blanks s' else rev_s | [] => [] end.
Definition agent_edit_old_ready_for_upto (old : bytes) : bool :=
  if (length old =? 0)%nat || is_found (strstr UPTO (c_string old)) then false
  else agent_edit_old_prefix_mature_for_upto old && (cget (strip_blanks (rev old)) 0 =? 10).

Definition agent_edit_upto_forcer_should_replace (w : world) (oc : outcomes) (forcer : agent_edit_upto_forcer) (p : agent_dsml_parser) (next_text : bytes) : agent_edit_upto_forcer * bool :=
  let in_edit_old := is_param_value p && bool_decide (ac_name (ps_current p) = Some (bs "edit")) && bool_decide (ps_param_name p = Some (bs "old")) in
  if negb in_edit_old then (Forcer false false, false)
  else
    let forcer := if negb (fo_active forcer) then Forcer true false else forcer in
    if fo_done forcer then (forcer, false)
    else if agent_edit_old_may_be_closing_tag next_text || agent_edit_old_is_only_space next_text then (forcer, false)
    else
      match nonempty (agent_tool_arg_value (ps_current p) (bs "path")) with
      | None => (forcer, false)
      | Some path =>
          let old := drop (ps_param_value_start p) (ps_raw p) in
          if (length (ps_raw p) <? ps_param_value_start p)%nat || negb (agent_edit_old_ready_for_upto old) then (forcer, false)
          else
            match agent_read_file_bytes w oc path with
            | inr _ => (forcer, false)
            | inl data =>
                match agent_find_unique data old (bs "old prefix") with
                | inl _ => (Forcer (fo_active forcer) true, true)
                | inr _ => (forcer, false)
                end
            end
      end.
End FileSystem.

(** ** Finding *)

Section Find.
Lemma memmem_loop_spec needle count : forall hay i, needle <> [] ->
  match memmem_loop count hay needle i with
  | Some k => (i <= k < i + count)%nat /\ starts_with needle (drop k hay) = true /\ forall j, (i <= j < k)%nat -> starts_with needle (drop j hay) = false
  | None => forall j, (i <= j < i + count)%nat -> starts_with needle (drop j hay) = false
  end.
Proof.
  intros hay i Hn. revert i. induction count as [|count IH]; intros i; cbn [memmem_loop]; [intros j; lia|].
  assert (Hfirst : (cget hay i =? cget needle 0) && starts_with needle (drop i hay) = starts_with needle (drop i hay)).
  { destruct (starts_with needle (drop i hay)) eqn:E; [|apply andb_false_r]. rewrite andb_true_r. apply Z.eqb_eq. destruct needle as [|c needle]; [done|]. apply starts_with_iff in E as [r Hr]. change (cget (c :: needle) 0) with c.
    replace i with (i + 0)%nat by lia. rewrite <- cget_drop_add, Hr. done. }
  rewrite Hfirst. destruct (starts_with needle (drop i hay)) eqn:E; [split; [lia|]; split; [done|]; intros j; lia|].
  specialize (IH (S i)). destruct (memmem_loop count hay needle (S i)) as [k|].
  - destruct IH as (H1 & H2 & H3). split; [lia|]. split; [done|]. intros j Hj. destruct (decide (j = i)) as [->|]; [done|]. apply H3. lia.
  - intros j Hj. destruct (decide (j = i)) as [->|]; [done|]. apply IH. lia.
Qed.

Lemma memmem_strstr hay needle : needle <> [] -> agent_memmem_simple hay needle = strstr needle hay.
Proof.
  intros Hn. unfold agent_memmem_simple. destruct needle as [|c n] eqn:En; [done|]. rewrite <- En in *. replace (length needle =? 0)%nat with false by (by rewrite En). clear En c n.
  destruct (Nat.ltb_spec (length hay) (length needle)) as [Hl|Hl].
  - destruct (strstr needle hay) as [i|] eqn:E; [|done]. apply strstr_le in E. lia.
  - pose proof (memmem_loop_spec needle (S (length hay - length needle)) hay 0 Hn) as H. destruct (memmem_loop (S (length hay - length needle)) hay needle 0) as [k|].
    + destruct H as (_ & H1 & H2). symmetry. apply strstr_at; [done|]. intros j Hj. apply H2. lia.
    + destruct (strstr needle hay) as [i|] eqn:E; [|done]. pose proof (strstr_le _ _ _ E). destruct (strstr_Some _ _ _ E) as [Hi _]. rewrite H in Hi; [done|lia].
Qed.

(** [p] stands in [s] at [k] and nowhere else. *)
Definition only_at (p s : bytes) (k : nat) : Prop := forall j, starts_with p (drop j s) = true <-> j = k.

Lemma find_unique_spec data start needle label where_ : needle <> [] ->
  match agent_find_unique_from data start needle label where_ with
  | inl m => exists k, m = (start + k)%nat /\ only_at needle (drop start data) k
  | inr _ => forall k, ~ only_at needle (drop start data) k
  end.
Proof.
  intros Hn. unfold agent_find_unique_from. replace (length needle =? 0)%nat with false by (by destruct needle). rewrite !memmem_strstr by done.
  destruct (strstr needle (drop start data)) as [i|] eqn:E1.
  - destruct (strstr_Some _ _ _ E1) as [Hi Hb]. assert (Hd : drop (S (start + i)) data = drop (S i) (drop start data)) by (rewrite drop_drop; f_equal; lia).
    pose proof (strstr_le _ _ _ E1) as Hle. rewrite length_drop in Hle. assert (Hs : (S (start + i) <=? length data)%nat = true) by (apply Nat.leb_le; destruct needle; [done|cbn in Hle; lia]). rewrite Hs, Hd, (memmem_strstr (drop (S i) (drop start data))) by done.
    destruct (strstr needle (drop (S i) (drop start data))) as [x|] eqn:E2.
    + destruct (strstr_Some _ _ _ E2) as [Hx _]. rewrite drop_drop in Hx. intros k Hk. pose proof (proj1 (Hk i) Hi). pose proof (proj1 (Hk _) Hx). lia.
    + exists i. split; [done|]. intros j. split; [|intros ->; done]. intros Hj. destruct (lt_eq_lt_dec j i) as [[H| ->]|H]; [|done|].
      * rewrite Hb in Hj by done. done.
      * apply (strstr_None _ _ (j - S i) Hn) in E2. rewrite drop_drop in E2. replace (S i + (j - S i))%nat with j in E2 by lia. congruence.
  - intros k Hk. apply (strstr_None _ _ k Hn) in E1. rewrite (proj2 (Hk k) eq_refl) in E1. done.
Qed.

(** What [old] selects: its only occurrence, or, with a marker, all from the only
    occurrence of the head to the only occurrence of the tail behind it. *)
Inductive selects (data old : bytes) (allow_upto : bool) : nat -> nat -> bool -> Prop :=
  | selects_text k : (allow_upto = true -> strstr UPTO old = None) -> old <> [] -> only_at old data k -> selects data old allow_upto k (length old) false
  | selects_anchored head newlines tail k t : allow_upto = true ->
      old = head ++ UPTO ++ newlines ++ tail -> strstr UPTO old = Some (length head) -> strstr UPTO (newlines ++ tail) = None ->
      Forall (fun c => c = 10 \/ c = 13) newlines -> cget tail 0 <> 10 -> cget tail 0 <> 13 -> Exists (fun c => isspace c = false) tail ->
      head <> [] -> only_at head data k -> only_at tail (drop (k + length head) data) t ->
      selects data old allow_upto k (length head + t + length tail) true.

Lemma strip_newlines_spec s : exists nl, s = nl ++ strip_newlines s /\ Forall (fun c => c = 10 \/ c = 13) nl /\ cget (strip_newlines s) 0 <> 10 /\ cget (strip_newlines s) 0 <> 13.
Proof.
  induction s as [|c s IH]; [by exists []|]. cbn [strip_newlines]. destruct ((c =? 10) || (c =? 13)) eqn:E.
  - destruct IH as (nl & Hs & Hf & Hc). exists (c :: nl). split; [cbn; by rewrite <- Hs|]. split; [|done]. constructor; [|done]. apply orb_true_iff in E as [E|E]; apply Z.eqb_eq in E; auto.
  - exists []. split; [done|]. split; [constructor|]. apply orb_false_iff in E as [E1 E2]. apply Z.eqb_neq in E1, E2. done.
Qed.

Lemma strip_newlines_app nl s : Forall (fun c => c = 10 \/ c = 13) nl -> cget s 0 <> 10 -> cget s 0 <> 13 -> strip_newlines (nl ++ s) = s.
Proof.
  intros Hn H1 H2. induction Hn as [|c nl Hc Hn IH]; cbn [app strip_newlines].
  - destruct s as [|c s]; [done|]. change (cget (c :: s) 0) with c in *. cbn [strip_newlines]. rewrite (proj2 (Z.eqb_neq c 10)), (proj2 (Z.eqb_neq c 13)) by done. done.
  - destruct Hc as [-> | ->]; exact IH.
Qed.

Lemma has_nonspace s : agent_span_has_nonspace s = true <-> Exists (fun c => isspace c = false) s.
Proof.
  unfold agent_span_has_nonspace. induction s as [|c s IH]; cbn [existsb]; [split; [done|inversion 1]|]. rewrite orb_true_iff, negb_true_iff, IH, Exists_cons. done.
Qed.

Lemma only_at_le p s k : p <> [] -> only_at p s k -> (k + length p <= length s)%nat.
Proof.
  intros Hp H. pose proof (proj2 (H k) eq_refl) as Hs. apply starts_with_length in Hs. rewrite length_drop in Hs. destruct p; [done|]. cbn in *. lia.
Qed.

Lemma find_unique_nil data start label where_ : exists e, agent_find_unique_from data start [] label where_ = inr e.
Proof. by eexists. Qed.

Lemma find_plain data old allow_upto : (allow_upto = true -> strstr UPTO old = None) ->
  match agent_find_unique data old (bs "old text") with
  | inl k => selects data old allow_upto k (length old) false
  | inr _ => forall k n a, ~ selects data old allow_upto k n a
  end.
Proof.
  intros Hu. destruct (decide (old = [])) as [->|Hn].
  - cbn [agent_find_unique]. unfold agent_find_unique. destruct (find_unique_nil data 0 (bs "old text") []) as [e ->]. intros k n a H. inversion H; subst; [done|]. rewrite Hu in *; done.
  - pose proof (find_unique_spec data 0 old (bs "old text") [] Hn) as H. unfold agent_find_unique. rewrite drop_0 in H. destruct (agent_find_unique_from data 0 old (bs "old text") []) as [m|e].
    + destruct H as (k & -> & Hk). by constructor.
    + intros k n a Hs. inversion Hs; subst; [by apply (H k)|]. rewrite Hu in *; done.
Qed.

Lemma find_anchored data old u : strstr UPTO old = Some u ->
  match agent_edit_find_old_span data old true with
  | inl (k, n, a) => selects data old true k n a
  | inr _ => forall k n a, ~ selects data old true k n a
  end.
Proof.
  intros Hu. unfold agent_edit_find_old_span. cbv iota. rewrite Hu. set (after := drop (u + length UPTO) old). pose proof (strstr_le _ _ _ Hu) as Hle. change (length UPTO) with 6%nat in Hle.
  assert (Hold : old = take u old ++ UPTO ++ after). { rewrite <- (take_drop u old) at 1. f_equal. destruct (strstr_Some _ _ _ Hu) as [[r Hr]%starts_with_iff _]. rewrite Hr. f_equal. unfold after. rewrite <- drop_drop, Hr. symmetry. apply drop_app_length. }
  assert (Hlen : length (take u old) = u) by (rewrite length_take; lia).
  assert (Hinv : forall k n a, selects data old true k n a -> strstr UPTO after = None /\ exists t, a = true /\ Exists (fun c => isspace c = false) (strip_newlines after) /\ take u old <> [] /\ only_at (take u old) data k /\ only_at (strip_newlines after) (drop (k + u) data) t /\ n = (u + t + length (strip_newlines after))%nat).
  { intros k n a H. inversion H as [k' Hx|head nl tail k' t _ Heq Hh Hno Hnl H1 H2 Hex Hhn Hk Ht]; subst k n a; [rewrite Hx in Hu; done|]. rewrite Hu in Hh. injection Hh as Hh. rewrite Heq in Hold at 1.
    destruct (app_inj_1 _ _ _ _ (eq_sym (eq_trans Hlen Hh)) Hold) as [Hhd Hrest]. apply app_inv_head in Hrest. subst head. rewrite <- Hrest in *. rewrite strip_newlines_app by done. split; [done|]. exists t. rewrite Hlen in *. by split_and!. }
  destruct (strstr UPTO after) as [x|] eqn:Ea; [intros k n a Hs; destruct (Hinv _ _ _ Hs) as [Hx _]; done|].
  destruct (strip_newlines_spec after) as (nl & Hnl & Hf & Hc1 & Hc2). destruct (agent_span_has_nonspace (strip_newlines after)) eqn:Ens; cbn [negb].
  2: { intros k n a Hs. destruct (Hinv _ _ _ Hs) as (_ & t & _ & Hex & _). apply has_nonspace in Hex. congruence. }
  pose proof Ens as Hex. apply has_nonspace in Hex. set (tail := strip_newlines after) in *. assert (Htl : tail <> []) by (intros Hx; rewrite Hx in Hex; by inversion Hex).
  destruct (decide (take u old = [])) as [Hh|Hh].
  { rewrite Hh. unfold agent_find_unique. destruct (find_unique_nil data 0 (bs "old head") []) as [e ->]. intros k n a Hs. destruct (Hinv _ _ _ Hs) as (_ & t & _ & _ & Hx & _). done. }
  pose proof (find_unique_spec data 0 (take u old) (bs "old head") [] Hh) as H1. unfold agent_find_unique. rewrite drop_0 in H1. destruct (agent_find_unique_from data 0 (take u old) (bs "old head") []) as [m|e].
  2: { intros k n a Hs. destruct (Hinv _ _ _ Hs) as (_ & t & _ & _ & _ & Hx & _). by apply (H1 k). }
  destruct H1 as (k & -> & Hk). cbn [Nat.add]. pose proof (only_at_le _ _ _ Hh Hk) as Hkl. rewrite Hlen in Hkl. unfold agent_find_unique_after. rewrite (proj2 (Nat.ltb_ge _ _)), andb_false_r by lia.
  pose proof (find_unique_spec data (k + u) tail (bs "old tail") (bs " after old head") Htl) as H2. destruct (agent_find_unique_from data (k + u) tail (bs "old tail") (bs " after old head")) as [m|e].
  - destruct H2 as (t & -> & Ht). replace (k + u + t - k + length tail)%nat with (length (take u old) + t + length tail)%nat by lia. apply (selects_anchored data old true (take u old) nl tail k t); try done; [by rewrite <- Hnl|by rewrite Hlen|by rewrite <- Hnl|by rewrite Hlen].
  - intros k' n a Hs. destruct (Hinv _ _ _ Hs) as (_ & t & _ & _ & _ & Hk' & Ht & _). assert (k' = k) as -> by (by apply Hk, Hk'). by apply (H2 t).
Qed.

Lemma find_old_span_spec data old allow_upto :
  match agent_edit_find_old_span data old allow_upto with
  | inl (k, n, a) => selects data old allow_upto k n a
  | inr _ => forall k n a, ~ selects data old allow_upto k n a
  end.
Proof.
  destruct (if allow_upto then strstr UPTO old else None) as [u|] eqn:E.
  - destruct allow_upto; [|done]. by apply (find_anchored _ _ u).
  - pose proof (find_plain data old allow_upto ltac:(intros ->; done)) as H. unfold agent_edit_find_old_span. rewrite E. by destruct (agent_find_unique data old (bs "old text")).
Qed.

Lemma strstr_mark c tl a r : c ∉ tl -> strstr (c :: tl) a = None -> strstr (c :: tl) (a ++ (c :: tl) ++ r) = Some (length a).
Proof.
  intros Htl Ha. apply strstr_at; [rewrite drop_app_length; apply starts_with_app|]. intros j Hj. rewrite drop_app_le by lia. apply not_true_iff_false. intros Hs.
  destruct (starts_with_over _ _ c (tl ++ r) Hs) as [H|(i & -> & Hi)]; [by rewrite (strstr_None _ _ j) in H|]. rewrite length_drop in Hi. destruct (length a - j)%nat eqn:E; [lia|]. cbn in Hi. by apply list_elem_of_lookup_2 in Hi.
Qed.

Lemma selects_in data old allow_upto k n a : selects data old allow_upto k n a -> (k + n <= length data)%nat /\ (0 < n)%nat.
Proof.
  intros H. inversion H as [k' Hu Hn Hk|head nl tail k' t _ Heq Hh Hno Hnl H1 H2 Hex Hhn Hk Ht]; subst.
  - apply only_at_le in Hk; [|done]. destruct old; [done|]. cbn in *. lia.
  - apply only_at_le in Hk; [|done]. assert (Htn : tail <> []) by (intros ->; by inversion Hex). apply only_at_le in Ht; [|done]. rewrite length_drop in Ht. destruct head; [done|]. cbn in *. lia.
Qed.
End Find.

(** ** Replacing a file *)

Section Replace.
Context (strerror : Z -> bytes) (mkstemp_suffix : bytes) (new_inode : inode).
Abbreviation temp_of := (temp_name mkstemp_suffix).
Abbreviation temp_node := (temp_file new_inode).

(** What the code relies on while it replaces a file of [w]: [mkstemp] picks a free
    name, the other processes do not touch it, and a file whose identity, size and
    times are the same when it is opened and at the last check was not written in
    between. *)
Record fair (w : world) (o : others) : Prop := {
  fair_fresh target : w_files w !! temp_of target = None;
  fair_temp w1 target : w_files (ot_open o w1) !! temp_of target = w_files w1 !! temp_of target /\ w_files (ot_check o w1) !! temp_of target = w_files w1 !! temp_of target;
  fair_version target n before after : w_files w !! target = Some before -> w_files (ot_check o (set_file (temp_of target) n (ot_open o w))) !! target = Some after ->
    agent_same_file_version before after = true -> held (ot_open o w) target before = in_data before /\ in_data after = in_data before }.

Lemma temp_neq target : temp_of target <> target.
Proof. intros H. apply (f_equal length) in H. unfold temp_name in H. rewrite length_app in H. cbn in H. lia. Qed.

Lemma unlink_set w p n : w_files w !! p = None -> unlink p (set_file p n w) = w.
Proof. intros H. destruct w as [files links]. unfold unlink, set_file. cbn in *. by rewrite delete_insert_id. Qed.

(** A failed replacement leaves what the others left. *)
Definition undone (w : world) (o : others) (w' : world) : Prop :=
  w' = w \/ w' = ot_open o w \/ exists target n, w' = unlink (temp_of target) (ot_check o (set_file (temp_of target) n (ot_open o w))).

(** A file takes the place of the one that was there, with the bytes expected until
    the last check. *)
Definition replaced (w : world) (o : others) (path data : bytes) (expected : option bytes) (w' : world) : Prop :=
  exists target before after, realpath w path = inl target /\ w_files w !! target = Some before /\ st_regular before = true /\ st_nlink before = 1 /\
    let wc := ot_check o (set_file (temp_of target) (temp_node (Some before) data) (ot_open o w)) in
    realpath wc path = inl target /\ w_files wc !! target = Some after /\ in_data after = in_data before /\ (forall x, expected = Some x -> in_data after = x) /\
    w' = set_file target (temp_node (Some before) data) (unlink (temp_of target) wc).

(** A new file, where no name was and none has come. *)
Definition created (w : world) (o : others) (path data : bytes) (w' : world) : Prop :=
  name_taken w path = false /\
  let wc := ot_check o (set_file (temp_of path) (temp_node None data) (ot_open o w)) in
  name_taken wc path = false /\ w' = unlink (temp_of path) (set_file path (temp_node None data) wc).

Lemma commit_spec w o oc path target before data : fair w o ->
  match commit_file strerror mkstemp_suffix new_inode (ot_open o w) o oc path target before data with
  | (w', Some _) => undone w o w'
  | (w', None) =>
      let wc := ot_check o (set_file (temp_of target) (temp_node before data) (ot_open o w)) in
      match before with
      | Some b => exists after, realpath wc path = inl target /\ w_files wc !! target = Some after /\ agent_same_file_version b after = true /\
                    w' = set_file target (temp_node before data) (unlink (temp_of target) wc)
      | None => name_taken wc target = false /\ w' = unlink (temp_of target) (set_file target (temp_node before data) wc)
      end
  end.
Proof.
  intros [Hf Ht _]. unfold commit_file. assert (Hf1 : w_files (ot_open o w) !! temp_of target = None) by (by rewrite (proj1 (Ht w target))). destruct (Ht (set_file (temp_of target) (temp_node before data) (ot_open o w)) target) as (_ & Htc). cbn [set_file w_files] in Htc. rewrite lookup_insert_eq in Htc.
  assert (Hu0 : undone w o (ot_open o w)) by (right; by left). assert (Hu1 : undone w o (unlink (temp_of target) (set_file (temp_of target) (temp_node before data) (ot_open o w)))) by (by rewrite unlink_set).
  destruct (oc_temp oc); [done|]. destruct (match before with None => oc_reopen oc | Some _ => None end); [done|].
  destruct (if (length data =? 0)%nat then None else oc_write oc); [done|]. destruct (match before with Some _ => oc_metadata oc | None => None end); [done|].
  destruct (oc_sync oc); [done|]. destruct (oc_close oc); [done|]. set (wc := ot_check o (set_file (temp_of target) (temp_node before data) (ot_open o w))) in *. assert (Hu : undone w o (unlink (temp_of target) wc)) by (right; right; by exists target, (temp_node before data)).
  destruct before as [b|].
  - destruct (realpath wc path) as [resolved|] eqn:Er; [|done]. destruct (bytes_eqb resolved target && negb (oc_stat oc) && _) eqn:E; [|done]. apply andb_true_iff in E as [[E1%bytes_eqb_eq _]%andb_true_iff E2]. subst resolved.
    destruct (w_files wc !! target) as [after|] eqn:Ea; [|done]. destruct (oc_commit oc); [done|]. unfold rename_file. rewrite Htc. by exists after.
  - destruct (oc_commit oc); [done|]. destruct (name_taken wc target) eqn:En; [done|]. by rewrite Htc.
Qed.

(** With the comparison and the last check, the file holds [x] when it is replaced. *)
Lemma compared_holds w o target before after n x : fair w o -> w_files w !! target = Some before -> w_files (ot_check o (set_file (temp_of target) n (ot_open o w))) !! target = Some after ->
  agent_same_file_version before after = true -> (st_size before =? zlen x) = true -> bytes_eqb (take (length x) (held (ot_open o w) target before)) x = true -> in_data after = x.
Proof.
  intros Hf Hb Ha Hv Hs%Z.eqb_eq Hx%bytes_eqb_eq. destruct (fair_version _ _ Hf target n before after Hb Ha Hv) as [Hh ->]. rewrite Hh in Hx. rewrite <- Hx. symmetry. apply take_ge. unfold st_size, zlen in Hs. lia.
Qed.

Lemma replace_spec w o oc path data expected : fair w o ->
  match agent_replace_file strerror mkstemp_suffix new_inode w o oc path data expected with
  | (w', Some _) => undone w o w'
  | (w', None) => replaced w o path data expected w' \/ (expected = None /\ created w o path data w')
  end.
Proof.
  intros Hfair. unfold agent_replace_file. assert (Hu : undone w o w) by (by left). assert (Hu1 : undone w o (ot_open o w)) by (right; by left). destruct (oc_lstat oc); [done|]. destruct (name_taken w path) eqn:En.
  - destruct (realpath w path) as [target|] eqn:Er; [|done]. destruct (oc_open oc); [done|]. destruct (w_files w !! target) as [before|] eqn:Eb; [|done].
    destruct (negb (st_regular before) || negb (st_nlink before =? 1)) eqn:Ek; [done|]. apply orb_false_iff in Ek as [Ek1%negb_false_iff Ek2%negb_false_iff]. apply Z.eqb_eq in Ek2.
    assert (Hgo : (forall x, expected = Some x -> (st_size before =? zlen x) = true /\ bytes_eqb (take (length x) (held (ot_open o w) target before)) x = true) ->
      match commit_file strerror mkstemp_suffix new_inode (ot_open o w) o oc path target (Some before) data with
      | (w', Some _) => undone w o w' | (w', None) => replaced w o path data expected w' \/ (expected = None /\ created w o path data w') end).
    { intros Hx. pose proof (commit_spec w o oc path target (Some before) data Hfair) as Hc. destruct (commit_file _ _ _ _ o oc path target (Some before) data) as [w' [e|]]; [done|]. left.
      destruct Hc as (after & H1 & H2 & H3 & H4). exists target, before, after. do 4 (split; [done|]). cbv zeta. do 2 (split; [done|]). split; [|split; [|done]].
      - by apply (fair_version w o Hfair target (temp_node (Some before) data)).
      - intros x He. destruct (Hx x He) as [Hs Hd]. by apply (compared_holds w o target before after (temp_node (Some before) data) x). }
    destruct expected as [x|].
    + destruct (st_size before =? zlen x) eqn:Es; cbn [negb]; [|done]. destruct (if (length x =? 0)%nat then None else oc_compare oc); [done|]. destruct (bytes_eqb (take (length x) (held (ot_open o w) target before)) x) eqn:Ex; [|done]. case_if; [done|]. apply Hgo. by intros ? [= <-].
    + case_if; [done|]. by apply Hgo.
  - destruct expected; [done|]. case_if; [done|]. pose proof (commit_spec w o oc path path None data Hfair) as Hc. destruct (commit_file _ _ _ _ o oc path path None data) as [w' [e|]]; [done|]. right. by split.
Qed.
End Replace.

Section Text.
(** *** The text of the tools *)

Lemma buf_append_prefix b s : exists x, ab_bytes (agent_buf_append b s) = ab_bytes b ++ x.
Proof. unfold agent_buf_append. repeat case_if; eexists; cbn [ab_bytes]; [symmetry; apply app_nil_r|reflexivity|reflexivity]. Qed.

Definition keeps (f : agent_buf -> agent_buf) : Prop := forall b, exists x, ab_bytes (f b) = ab_bytes b ++ x.

Lemma keeps_append s : keeps (fun b => agent_buf_append b s).
Proof. intros b. apply buf_append_prefix. Qed.

Lemma keeps_comp f g : keeps f -> keeps g -> keeps (fun b => g (f b)).
Proof. intros Hf Hg b. destruct (Hf b) as [x Hx], (Hg (f b)) as [y Hy]. exists (x ++ y). by rewrite Hy, Hx, (assoc_L (++)). Qed.

Lemma keeps_lines data spans l : keeps (fun b => foldl (fun b line => agent_edit_result_append_line b data (nth (line - 1) spans no_span) line) b l).
Proof.
  induction l as [|line l IH]; intros b; cbn [foldl]; [exists []; symmetry; apply app_nil_r|]. unfold agent_edit_result_append_line at 2.
  set (b1 := agent_buf_append b _). set (b2 := agent_buf_append b1 _). set (b3 := agent_buf_append b2 _). destruct (buf_append_prefix b (dec_print (Z.of_nat line) ++ [32])) as [x1 H1], (buf_append_prefix b1 (take (sp_content_end (nth (line - 1) spans no_span) - sp_start (nth (line - 1) spans no_span)) (drop (sp_start (nth (line - 1) spans no_span)) data))) as [x2 H2], (buf_append_prefix b2 [10]) as [x3 H3], (IH b3) as [x4 H4].
  exists (x1 ++ x2 ++ x3 ++ x4). rewrite H4. fold b3 in H3. rewrite H3. fold b2 in H2. rewrite H2. fold b1 in H1. rewrite H1. by rewrite <- !(assoc_L (++)).
Qed.

Lemma keeps_context path data a e : keeps (fun b => agent_edit_result_append_context b path data a e).
Proof.
  intros b. unfold agent_edit_result_append_context. case_if; [exists []; symmetry; apply app_nil_r|]. cbv zeta. case_if.
  - refine (keeps_comp _ _ (keeps_append _) (keeps_lines _ _ _) b).
  - refine (keeps_comp _ _ (keeps_append _) (keeps_comp _ _ (keeps_lines _ _ _) (keeps_comp _ _ (keeps_append _) (keeps_lines _ _ _))) b).
Qed.

Lemma back_to_char_ge s n m : (m <= n)%nat -> utf8_tail (cget s m) = false -> (m <= back_to_char s n)%nat.
Proof. intros Hm Ht. induction n as [|n IH]; cbn [back_to_char]; [lia|]. case_if; [|lia]. destruct (decide (m = S n)) as [->|]; [congruence|]. apply IH. lia. Qed.

Lemma edit_result_text path s e d data kind : starts_with (bs "Edited") (agent_edit_result path s e d data kind) = true.
Proof.
  unfold agent_edit_result. set (b0 := agent_buf_append (AgentBuf AGENT_TOOL_MAX_BYTES [] false) _).
  assert (H0 : starts_with (bs "Edited") (ab_bytes b0) = true).
  { unfold b0, agent_buf_append. change (bs "Edited " ++ ?x) with (bs "Edited" ++ 32 :: x). set (t := bs "Edited" ++ 32 :: _). assert (Ht : starts_with (bs "Edited") t = true) by apply starts_with_app. cbn [length Nat.eqb orb ab_truncated ab_limit ab_bytes]. case_if; [done|]. case_if; [|exact Ht].
    cbn [ab_bytes app]. assert (Hb : (6 <= back_to_char t (AGENT_TOOL_MAX_BYTES - 0))%nat). { apply back_to_char_ge; [|reflexivity]. apply Nat.leb_le. vm_compute. reflexivity. }
    apply starts_with_iff. exists (drop 6 (take (back_to_char t (AGENT_TOOL_MAX_BYTES - 0)) t)). rewrite <- (take_drop 6 (take (back_to_char t (AGENT_TOOL_MAX_BYTES - 0)) t)) at 1. f_equal. rewrite take_take. replace (6 `min` back_to_char t (AGENT_TOOL_MAX_BYTES - 0))%nat with 6%nat by lia. reflexivity. }
  clearbody b0. match goal with |- context [if ?c then ?x else b0] => set (b1 := if c then x else b0) end. assert (H1 : starts_with (bs "Edited") (ab_bytes b1) = true).
  { unfold b1. case_if; [|done]. destruct (negb (d =? 0)).
    - destruct (keeps_comp _ _ (keeps_append (bs "Touched old lines " ++ dec_print (Z.of_nat s) ++ bs "-" ++ dec_print (Z.of_nat e) ++ bs "; current post-edit context follows." ++ [10]))
        (keeps_append (bs "Line shift: old lines after " ++ dec_print (Z.of_nat e) ++ bs " moved by " ++ print_signed d ++ bs " (old line " ++ dec_print (Z.of_nat e + 1) ++ bs " is now line " ++ print_int (Z.of_nat e + 1 + d) ++ bs "). Re-read before relying on old line numbers there." ++ [10])) b0) as [x Hx].
      cbv zeta. rewrite Hx. by apply starts_with_more.
    - cbv zeta. destruct (buf_append_prefix b0 (bs "Touched old lines " ++ dec_print (Z.of_nat s) ++ bs "-" ++ dec_print (Z.of_nat e) ++ bs "; current post-edit context follows." ++ [10])) as [x Hx]. rewrite Hx. by apply starts_with_more. }
  clearbody b1. match goal with |- context [if ?c then ?x else b1] => set (b2 := if c then x else b1) end. assert (H2 : starts_with (bs "Edited") (ab_bytes b2) = true).
  { unfold b2. case_if; [|done]. destruct (keeps_context path data (Z.of_nat s) (Z.max (Z.of_nat e + d) (Z.of_nat s)) b1) as [x Hx]. rewrite Hx. by apply starts_with_more. }
  unfold agent_buf_take. case_if; [|done]. by apply starts_with_more.
Qed.
End Text.

(** ** Properties *)

Section Tools.
Context (strerror : Z -> bytes) (mkstemp_suffix : bytes) (new_inode : inode).
Abbreviation temp_of := (temp_name mkstemp_suffix).
Abbreviation temp_node := (temp_file new_inode).
Abbreviation edit := (agent_tool_edit strerror mkstemp_suffix new_inode).

Lemma read_file_spec w oc path data : agent_read_file_bytes strerror w oc path = inl data ->
  exists target node, realpath w path = inl target /\ w_files w !! target = Some node /\ st_regular node = true /\ in_data node = data.
Proof.
  unfold agent_read_file_bytes. destruct (oc_fopen oc); [done|]. destruct (realpath w path) as [target|]; [|done]. destruct (w_files w !! target) as [node|] eqn:En; [|done].
  destruct (st_regular node) eqn:Er; cbn [negb]; [|done]. case_if; [done|]. destruct (oc_read oc); [done|]. intros [= <-]. by exists target, node.
Qed.

(** The text with the selected part replaced. *)
Definition spliced (data new : bytes) (k n : nat) : bytes := take k data ++ new ++ drop (k + n) data.

(** A successful edit: the part is found in the file as it was read, the file that
    is replaced still holds those bytes at the last check, and the new one is in its
    place. *)
Definition edited (w : world) (o : others) (upto : bool) (path old new : bytes) (w' : world) : Prop :=
  exists source node target before after k n anchored, realpath w path = inl source /\ w_files w !! source = Some node /\
    selects (in_data node) old upto k n anchored /\
    realpath (ot_read o w) path = inl target /\ w_files (ot_read o w) !! target = Some before /\ st_regular before = true /\ st_nlink before = 1 /\
    let edited_node := temp_node (Some before) (spliced (in_data node) new k n) in
    let wc := ot_check o (set_file (temp_of target) edited_node (ot_open o (ot_read o w))) in
    realpath wc path = inl target /\ w_files wc !! target = Some after /\ in_data before = in_data node /\ in_data after = in_data node /\
    w' = set_file target edited_node (unlink (temp_of target) wc).

Lemma splice_spec w o oc path data k n new kind : fair mkstemp_suffix w o ->
  match agent_apply_file_splice strerror mkstemp_suffix new_inode w o oc path data k n new kind with
  | (w', out) => (replaced mkstemp_suffix new_inode w o path (spliced data new k n) (Some data) w' /\ starts_with (bs "Edited") out = true) \/ (undone mkstemp_suffix w o w' /\ starts_with (bs "Tool error: ") out = true)
  end.
Proof.
  intros Hf. unfold agent_apply_file_splice. fold (spliced data new k n). set (text := spliced data new k n).
  pose proof (replace_spec strerror mkstemp_suffix new_inode w o oc path text (Some data) Hf) as H. destruct (agent_replace_file _ _ _ w o oc path text (Some data)) as [w' [e|]].
  - right. split; [done|]. apply starts_with_app.
  - destruct (default (0%nat, 0%nat, 0) (agent_old_new_line_effect data text k n)) as [[sl el] d]. left. split; [|apply edit_result_text]. by destruct H as [H|[H _]].
Qed.

Lemma edit_spec w o oc upto call : fair mkstemp_suffix (ot_read o w) o ->
  let '(w', out) := edit w o oc upto call in
  (exists path old new, nonempty (agent_tool_arg_value call (bs "path")) = Some path /\ nonempty (agent_tool_arg_value call (bs "old")) = Some old /\
     agent_tool_arg_value call (bs "new") = Some new /\ edited w o upto path old new w' /\ starts_with (bs "Edited") out = true) \/
  ((w' = w \/ undone mkstemp_suffix (ot_read o w) o w') /\ starts_with (bs "Tool error: ") out = true).
Proof.
  intros Hf. unfold agent_tool_edit. destruct (nonempty (agent_tool_arg_value call (bs "path"))) as [path|]; [|right; split; [by left|done]]. destruct (nonempty (agent_tool_arg_value call (bs "old"))) as [old|]; [|right; split; [by left|done]].
  destruct (agent_tool_arg_value call (bs "new")) as [new|]; [|right; split; [by left|done]]. destruct (agent_read_file_bytes strerror w oc path) as [data|e] eqn:Er; [|right; split; [by left|apply starts_with_app]].
  pose proof (find_old_span_spec data old upto) as Hs. destruct (agent_edit_find_old_span data old upto) as [[[k n] a]|e]; [|right; split; [by left|apply starts_with_app]].
  destruct (read_file_spec w oc path data Er) as (source & node & H1 & H2 & _ & <-). pose proof (splice_spec (ot_read o w) o oc path (in_data node) k n new (if a then bs "anchored old/new replacement" else bs "old/new replacement") Hf) as H.
  destruct (agent_apply_file_splice _ _ _ _ o oc path (in_data node) k n new _) as [w' out]. destruct H as [[H3 H4]|[H3 H4]]; [left|right; by split; [right|]].
  exists path, old, new. do 3 (split; [done|]). split; [|done]. destruct H3 as (target & before & after & H5 & H6 & H7 & H8 & H9 & H10 & H11 & H12 & H13). specialize (H12 _ eq_refl). exists source, node, target, before, after, k, n, a. split_and!; try done. by rewrite <- H11.
Qed.

Definition no_failure : outcomes := Outcomes None None None None None None None None None None None false None.

Lemma resolve_set hops w t n p : match resolve hops w p with inl x => resolve hops (set_file t n w) p = inl x | inr _ => True end.
Proof.
  revert p. induction hops as [|hops IH]; intros p; cbn [resolve set_file w_links w_files]; (destruct (w_links w !! p); [try done; apply IH|]); destruct (decide (p = t)) as [->|Hp].
  - destruct (w_files w !! t); [|done]. by rewrite lookup_insert_eq.
  - rewrite lookup_insert_ne by done. by destruct (w_files w !! p).
  - destruct (w_files w !! t); [|done]. by rewrite lookup_insert_eq.
  - rewrite lookup_insert_ne by done. by destruct (w_files w !! p).
Qed.

Lemma version_refl n : agent_same_file_version n n = true.
Proof. unfold agent_same_file_version. rewrite !Z.eqb_refl, !bool_decide_true by done. done. Qed.

Lemma realpath_taken w p t : realpath w p = inl t -> name_taken w p = true.
Proof. unfold realpath. cbn [resolve]. unfold name_taken. destruct (w_links w !! p); [by destruct (w_files w !! p)|]. by destruct (w_files w !! p). Qed.

(** With nothing in its way, the replacement is made. *)
Lemma replace_succeeds w path target before data : realpath w path = inl target -> w_files w !! target = Some before -> st_regular before = true -> st_nlink before = 1 ->
  (length (temp_of target) < PATH_MAX)%nat -> exists w', agent_replace_file strerror mkstemp_suffix new_inode w idle no_failure path data (Some (in_data before)) = (w', None).
Proof.
  intros Hr Hb Hreg Hl Hlen. unfold agent_replace_file. cbn [oc_lstat no_failure oc_open oc_compare idle ot_open]. rewrite (realpath_taken _ _ _ Hr), Hr, Hb, Hreg, Hl. cbn [negb orb Z.eqb Pos.eqb]. unfold st_size. rewrite Z.eqb_refl. cbn [negb].
  assert (Hh : held w target before = in_data before) by (unfold held; rewrite Hb; by case_if). rewrite Hh, firstn_all, bytes_eqb_refl. replace (if (length (in_data before) =? 0)%nat then None else None) with (@None Z) by (by case_if).
  rewrite (proj2 (Nat.leb_gt _ _)) by done. unfold commit_file. cbn [no_failure oc_temp oc_reopen oc_write oc_metadata oc_sync oc_close oc_stat oc_commit ot_check idle]. replace (if (length data =? 0)%nat then None else None) with (@None Z) by (by case_if).
  pose proof (resolve_set 40 w (temp_of target) (temp_node (Some before) data) path) as Hx. fold (realpath w path) in Hx. rewrite Hr in Hx. unfold realpath. rewrite Hx. rewrite bytes_eqb_refl.
  assert (Hfile : w_files (set_file (temp_of target) (temp_node (Some before) data) w) !! target = Some before) by (cbn [set_file w_files]; rewrite lookup_insert_ne; [done|apply temp_neq]).
  rewrite Hfile, version_refl. cbn [negb andb]. unfold rename_file. cbn [set_file w_files]. rewrite lookup_insert_eq. by eexists.
Qed.
Lemma read_no_failure w oc path data : agent_read_file_bytes strerror w oc path = inl data -> agent_read_file_bytes strerror w no_failure path = inl data.
Proof.
  unfold agent_read_file_bytes. cbn [oc_fopen oc_read no_failure]. destruct (oc_fopen oc); [done|]. destruct (realpath w path) as [target|]; [|done]. destruct (w_files w !! target) as [node|]; [|done].
  case_if; [done|]. case_if; [done|]. by destruct (oc_read oc).
Qed.

Lemma preflight_spec w oc upto call path new target before : fair mkstemp_suffix w idle ->
  agent_preflight_edit_old strerror w oc upto call = None -> nonempty (agent_tool_arg_value call (bs "path")) = Some path -> agent_tool_arg_value call (bs "new") = Some new ->
  realpath w path = inl target -> w_files w !! target = Some before -> st_nlink before = 1 -> (length (temp_of target) < PATH_MAX)%nat ->
  exists old, nonempty (agent_tool_arg_value call (bs "old")) = Some old /\
    let '(w', out) := edit w idle no_failure upto call in edited w idle upto path old new w' /\ starts_with (bs "Edited") out = true.
Proof.
  intros Hf Hpre Hpath Hnew Hr Hb Hl Hlen. pose proof (edit_spec w idle no_failure upto call Hf) as H. unfold agent_preflight_edit_old in Hpre. rewrite Hpath in Hpre. destruct (nonempty (agent_tool_arg_value call (bs "old"))) as [old|] eqn:Hold; [|done]. exists old. split; [done|].
  destruct (agent_read_file_bytes strerror w oc path) as [data|] eqn:Hread; [|done]. pose proof (read_no_failure w oc path data Hread) as Hread'. destruct (read_file_spec w oc path data Hread) as (target' & node & H1 & H2 & H3 & H4). rewrite Hr in H1. injection H1 as <-. rewrite Hb in H2. injection H2 as <-. subst data.
  assert (Hout : let '(w', out) := edit w idle no_failure upto call in starts_with (bs "Edited") out = true).
  { unfold agent_tool_edit. rewrite Hpath, Hold, Hnew, Hread'. cbn [idle ot_read]. destruct (agent_edit_find_old_span (in_data before) old upto) as [[[k n] a]|]; [|done]. unfold agent_apply_file_splice.
    destruct (replace_succeeds w path target before (take k (in_data before) ++ new ++ drop (k + n) (in_data before)) Hr Hb H3 Hl Hlen) as [w' ->]. destruct (default _ _) as [[sl el] d]. apply edit_result_text. }
  destruct (edit w idle no_failure upto call) as [w' out]. rewrite Hpath, Hnew in H. destruct H as [(p & o & nw & [= <-] & [= <-] & [= <-] & H5 & H6)|[_ H]]; [done|].
  exfalso. apply starts_with_iff in Hout as [x ->]. done.
Qed.

Lemma write_spec w o oc call : fair mkstemp_suffix w o ->
  let '(w', out) := agent_tool_write strerror mkstemp_suffix new_inode w o oc call in
  (exists path content, nonempty (agent_tool_arg_value call (bs "path")) = Some path /\ agent_tool_arg_value call (bs "content") = Some content /\
     (replaced mkstemp_suffix new_inode w o path content None w' \/ created mkstemp_suffix new_inode w o path content w') /\
     out = bs "Wrote " ++ dec_print (zlen content) ++ bs " bytes to " ++ path ++ [10]) \/
  (undone mkstemp_suffix w o w' /\ starts_with (bs "Tool error: ") out = true).
Proof.
  intros Hf. unfold agent_tool_write. assert (Hu : undone mkstemp_suffix w o w) by (by left). destruct (nonempty (agent_tool_arg_value call (bs "path"))) as [path|]; [|by right]. destruct (agent_tool_arg_value call (bs "content")) as [content|]; [|by right].
  pose proof (replace_spec strerror mkstemp_suffix new_inode w o oc path content None Hf) as H. destruct (agent_replace_file _ _ _ w o oc path content None) as [w' [e|]]; [right; split; [done|apply starts_with_app]|].
  left. exists path, content. do 2 (split; [done|]). split; [|done]. destruct H as [H|[_ H]]; [by left|by right].
Qed.

(** *** The marker that is put into a long [old] *)

Lemma forcer_spec w oc f p next f' : agent_edit_upto_forcer_should_replace strerror w oc f p next = (f', true) ->
  let old := drop (ps_param_value_start p) (ps_raw p) in
  fo_done f' = true /\ exists path data k, agent_tool_arg_value (ps_current p) (bs "path") = Some path /\ agent_read_file_bytes strerror w oc path = inl data /\
    strstr UPTO (c_string old) = None /\ old <> [] /\ only_at old data k.
Proof.
  intros H old. unfold agent_edit_upto_forcer_should_replace in H. case_if_in H; [done|]. set (f1 := if negb (fo_active f) then Forcer true false else f) in *. destruct (fo_done f1); [done|]. case_if_in H; [done|].
  destruct (agent_tool_arg_value (ps_current p) (bs "path")) as [[|c path]|] eqn:Hp; cbn [nonempty] in H; try done. fold old in H. destruct ((length (ps_raw p) <? ps_param_value_start p)%nat || negb (agent_edit_old_ready_for_upto old)) eqn:Er; [done|].
  apply orb_false_iff in Er as [_ Er%negb_false_iff]. unfold agent_edit_old_ready_for_upto in Er. destruct ((length old =? 0)%nat || is_found (strstr UPTO (c_string old))) eqn:E1; [done|]. apply orb_false_iff in E1 as [E1 E2].
  assert (Hn : old <> []) by (intros Hx; by rewrite Hx in E1). destruct (agent_read_file_bytes strerror w oc (c :: path)) as [data|] eqn:Hd; [|done]. pose proof (find_unique_spec data 0 old (bs "old prefix") [] Hn) as Hs. unfold agent_find_unique in H.
  destruct (agent_find_unique_from data 0 old (bs "old prefix") []) as [m|]; [|done]. injection H as <-. split; [done|]. destruct Hs as (k & _ & Hk). rewrite drop_0 in Hk. exists (c :: path), data, k. split_and!; try done. by destruct (strstr UPTO (c_string old)).
Qed.

(** The edit whose [old] was cut short there: it finds the same place, and goes to
    the tail that the model writes next. *)
Lemma forced_edit_found w oc f p next f' tail : agent_edit_upto_forcer_should_replace strerror w oc f p next = (f', true) ->
  let old := drop (ps_param_value_start p) (ps_raw p) in
  0 ∉ old -> strstr UPTO tail = None -> cget tail 0 <> 10 -> cget tail 0 <> 13 -> Exists (fun c => isspace c = false) tail ->
  exists path data k, agent_tool_arg_value (ps_current p) (bs "path") = Some path /\ agent_read_file_bytes strerror w oc path = inl data /\ only_at old data k /\
    forall t, only_at tail (drop (k + length old) data) t -> agent_edit_find_old_span data (old ++ UPTO ++ 10 :: tail) true = inl (k, (length old + t + length tail)%nat, true).
Proof.
  intros H old H0 Ht H1 H2 Hex. destruct (forcer_spec w oc f p next f' H) as (_ & path & data & k & Hp & Hd & Hu & Hn & Hk). fold old in Hu, Hn, Hk. exists path, data, k. split_and!; try done. intros t Htail. rewrite c_string_id in Hu by done.
  assert (Hm : strstr UPTO (old ++ UPTO ++ 10 :: tail) = Some (length old)) by (apply (strstr_mark 91 (bs "upto]")); [by apply (bool_decide_unpack _)|exact Hu]).
  assert (Hsel : selects data (old ++ UPTO ++ 10 :: tail) true k (length old + t + length tail) true).
  { apply (selects_anchored _ _ _ old [10] tail k t); try done; [|by constructor; [left|]]. cbn [app strstr]. by rewrite Ht. }
  pose proof (find_anchored data _ _ Hm) as Hf. destruct (agent_edit_find_old_span data (old ++ UPTO ++ 10 :: tail) true) as [[[k' n] a]|e]; [|by apply Hf in Hsel].
  inversion Hf as [x Hx|head nl tail' k2 t' _ Heq Hh Hno Hnl Hc1 Hc2 Hex' Hhn Hk' Ht']; subst k' n a; [rewrite Hx in Hm; done|]. rewrite Hm in Hh. injection Hh as Hh.
  destruct (app_inj_1 _ _ _ _ Hh Heq) as [<- Hrest]. apply app_inv_head in Hrest. pose proof (strip_newlines_app nl tail' Hnl Hc1 Hc2) as Hs. rewrite <- Hrest in Hs. assert (Hst : strip_newlines (10 :: tail) = tail) by (apply (strip_newlines_app [10] tail); [by constructor; [left|]|done..]). rewrite Hst in Hs. subst tail'.
  assert (k2 = k) as -> by (by apply Hk, Hk'). assert (t' = t) as -> by (by apply Htail, Ht'). done.
Qed.
End Tools.

(** C8: The edit tool replaces exactly what was asked for, or nothing.  An edit
    that reports success found the old text at the only place where it stands - or
    a head, and behind it a tail, each standing once - in the file as it was read;
    whatever other processes did after that, to the file or to the links that lead
    to it, the file that is replaced holds exactly the bytes that were read, when it
    is compared and still at the last check; the new file is the old one with that
    part replaced and keeps its owner, mode and attributes; nothing else changes, and
    the temporary file is gone.  Any other answer is an error and leaves the files
    as the others left them. *)
Theorem edit_exact_or_untouched (strerror : Z -> bytes) (mkstemp_suffix : bytes) (new_inode : inode) (w : world) (o : others) (oc : outcomes) (upto : bool) (call : agent_tool_call) :
  fair mkstemp_suffix (ot_read o w) o ->
  let '(w', out) := agent_tool_edit strerror mkstemp_suffix new_inode w o oc upto call in
  (exists path old new, nonempty (agent_tool_arg_value call (bs "path")) = Some path /\ nonempty (agent_tool_arg_value call (bs "old")) = Some old /\
     agent_tool_arg_value call (bs "new") = Some new /\ edited mkstemp_suffix new_inode w o upto path old new w' /\ starts_with (bs "Edited") out = true) \/
  ((w' = w \/ undone mkstemp_suffix (ot_read o w) o w') /\ starts_with (bs "Tool error: ") out = true).
Proof. apply edit_spec. Qed.

Definition example_file : inode := Inode 1 7 1 (100, 0) (100, 0) true (1000, 1000) 0x1a4 [] (bs "int a;" ++ [10] ++ bs "int b;" ++ [10]).
Definition example_world : world := World {[ bs "/a.c" := example_file; bs "/other" := example_file ]} {[ bs "/link.c" := bs "/a.c" ]}.
Definition example_new : inode := Inode 1 8 1 (200, 0) (200, 0) true (0, 0) 0x180 [] [].
Definition example_suffix : bytes := bs "abcdef".
Definition example_error (e : Z) : bytes := bs "error".
Definition example_call (old new : bytes) : agent_tool_call := AgentCall (Some (bs "edit")) [AgentArg (bs "path") (bs "/link.c") true; AgentArg (bs "old") old true; AgentArg (bs "new") new true].

(** Another process removes another file. *)
Definition example_others : others := Others (unlink (bs "/other")) (fun w => w) (fun w => w).

(** Another process writes [data] to the file: after it was read, or before the last
    check. *)
Definition rewritten (data : bytes) : inode := Inode 1 7 1 (150, 0) (150, 0) true (1000, 1000) 0x1a4 [] data.
Definition overwrite (data : bytes) : others := Others (set_file (bs "/a.c") (rewritten data)) (fun w => w) (fun w => w).
Definition overwrite_late (data : bytes) : others := Others (fun w => w) (fun w => w) (set_file (bs "/a.c") (rewritten data)).

Lemma example_fresh p target : last p <> Some 102 -> temp_name example_suffix target <> p.
Proof. intros Hp H. apply Hp. rewrite <- H. unfold temp_name. rewrite !last_app. reflexivity. Qed.

(** Others that act only before the replacement are fair. *)
Lemma fair_early f w : (forall target, w_files w !! temp_name example_suffix target = None) -> fair example_suffix w (Others f (fun w => w) (fun w => w)).
Proof.
  intros Hf. constructor; cbn [ot_read ot_open ot_check]; [done|done|].
  intros target n b a Hb Ha _. cbn [set_file w_files] in Ha. rewrite lookup_insert_ne in Ha by apply temp_neq. unfold held. rewrite Hb in *. injection Ha as <-. by case_if.
Qed.

Lemma example_no_temp target : w_files example_world !! temp_name example_suffix target = None.
Proof. unfold example_world. cbn [w_files]. by rewrite lookup_insert_ne, lookup_singleton_ne by (intros H; symmetry in H; revert H; by apply example_fresh). Qed.

Lemma example_fair : fair example_suffix (ot_read example_others example_world) example_others.
Proof. apply fair_early. intros target. cbn [example_others ot_read unlink w_files]. rewrite lookup_delete_ne; [apply example_no_temp|]. intros H. symmetry in H. revert H. by apply example_fresh. Qed.

Lemma overwrite_fair data : fair example_suffix (ot_read (overwrite data) example_world) (overwrite data).
Proof. apply fair_early. intros target. cbn [overwrite ot_read set_file w_files]. rewrite lookup_insert_ne; [apply example_no_temp|]. intros H. symmetry in H. revert H. by apply example_fresh. Qed.

Lemma overwrite_late_fair data : fair example_suffix (ot_read (overwrite_late data) example_world) (overwrite_late data).
Proof.
  constructor; cbn [overwrite_late ot_read ot_open ot_check].
  - apply example_no_temp.
  - intros w1 target. split; [done|]. cbn [set_file w_files]. rewrite lookup_insert_ne; [done|]. intros H. symmetry in H. revert H. by apply example_fresh.
  - intros target n b a Hb Ha Hv. unfold held. rewrite Hb. split; [by case_if|]. cbn [set_file w_files] in Ha. destruct (decide (target = bs "/a.c")) as [->|Ht].
    + rewrite lookup_insert_eq in Ha. injection Ha as <-. vm_compute in Hb. injection Hb as <-. exfalso. unfold agent_same_file_version in Hv. rewrite !andb_true_iff in Hv. by destruct Hv as [[_ Hv] _].
    + rewrite lookup_insert_ne in Ha by done. rewrite lookup_insert_ne in Ha by apply temp_neq. congruence.
Qed.

Lemma edit_exact_or_untouched_witness :
  let call := example_call (bs "int b;") (bs "long b;") in
  let '(w', out) := agent_tool_edit example_error example_suffix example_new example_world example_others no_failure true call in
  ((exists path old new, nonempty (agent_tool_arg_value call (bs "path")) = Some path /\ nonempty (agent_tool_arg_value call (bs "old")) = Some old /\
     agent_tool_arg_value call (bs "new") = Some new /\ edited example_suffix example_new example_world example_others true path old new w' /\ starts_with (bs "Edited") out = true) \/
   ((w' = example_world \/ undone example_suffix (ot_read example_others example_world) example_others w') /\ starts_with (bs "Tool error: ") out = true)) /\
  in_data <$> w_files w' !! bs "/a.c" = Some (bs "int a;" ++ [10] ++ bs "long b;" ++ [10]).
Proof.
  intros call. pose proof (edit_exact_or_untouched example_error example_suffix example_new example_world example_others no_failure true call example_fair) as H.
  assert (Hd : in_data <$> w_files (agent_tool_edit example_error example_suffix example_new example_world example_others no_failure true call).1 !! bs "/a.c" = Some (bs "int a;" ++ [10] ++ bs "long b;" ++ [10])) by (vm_compute; reflexivity).
  destruct (agent_tool_edit example_error example_suffix example_new example_world example_others no_failure true call) as [w' out]. split; [exact H|exact Hd].
Defined.

(** A file rewritten after it was read, with as many bytes, is not replaced; nor is
    one that only grew, or one rewritten before the last check. *)
Example rewritten_file_is_kept :
  let call := example_call (bs "int b;") (bs "long b;") in
  let run o := agent_tool_edit example_error example_suffix example_new example_world o no_failure true call in
  let other := bs "int c;" ++ [10] ++ bs "int b;" ++ [10] in
  map (fun o => (in_data <$> w_files (run o).1 !! bs "/a.c", starts_with (bs "Tool error: file changed while editing") (run o).2))
    [overwrite other; overwrite (in_data example_file ++ bs "int c;"); overwrite_late other] =
  [(Some other, true); (Some (in_data example_file ++ bs "int c;"), true); (Some other, true)].
Proof. vm_compute. reflexivity. Qed.

(** C21: An edit that was found good while it was still being generated can be
    made: if the check of [old] finds nothing wrong, the file has one name, no
    other process interferes and no system call fails, the edit succeeds, whatever
    the failures the check itself would have met. *)
Theorem preflight_edit_succeeds (strerror : Z -> bytes) (mkstemp_suffix : bytes) (new_inode : inode) (w : world) (oc : outcomes) (upto : bool) (call : agent_tool_call) (path new target : bytes) (before : inode) :
  fair mkstemp_suffix w idle -> agent_preflight_edit_old strerror w oc upto call = None ->
  nonempty (agent_tool_arg_value call (bs "path")) = Some path -> agent_tool_arg_value call (bs "new") = Some new ->
  realpath w path = inl target -> w_files w !! target = Some before -> st_nlink before = 1 -> (length (temp_name mkstemp_suffix target) < PATH_MAX)%nat ->
  exists old, nonempty (agent_tool_arg_value call (bs "old")) = Some old /\
    let '(w', out) := agent_tool_edit strerror mkstemp_suffix new_inode w idle no_failure upto call in
    edited mkstemp_suffix new_inode w idle upto path old new w' /\ starts_with (bs "Edited") out = true.
Proof. apply preflight_spec. Qed.

Lemma example_fair_id : fair example_suffix example_world idle.
Proof. apply fair_early, example_no_temp. Qed.

Lemma preflight_edit_succeeds_witness :
  let call := example_call (bs "int a;[upto]" ++ [10] ++ bs "int b;") (bs "long c;") in
  exists old, nonempty (agent_tool_arg_value call (bs "old")) = Some old /\
    let '(w', out) := agent_tool_edit example_error example_suffix example_new example_world idle no_failure true call in
    edited example_suffix example_new example_world idle true (bs "/link.c") old (bs "long c;") w' /\ starts_with (bs "Edited") out = true.
Proof.
  intros call. apply (preflight_edit_succeeds example_error example_suffix example_new example_world no_failure true call (bs "/link.c") (bs "long c;") (bs "/a.c") example_file example_fair_id); try (vm_compute; reflexivity).
  apply Nat.ltb_lt. vm_compute. reflexivity.
Defined.
