(* ===== verification/AgentRead.v ===== *)
(** * Reading files for the model (src/ds4_agent.c)

    The [read] and [more] tools: a part of a file by lines, numbered or raw, within
    the limit of a tool's output, and the place from which [more] goes on.  The
    file system is that of [AgentEdit]; a stream over a file is a position in its
    bytes. *)

From S2P Require Import Prelude Libc ToolCalls AgentTool AgentEdit.
#[local] Open Scope Z_scope.
#[local] Open Scope stdpp_scope.

(** ** Definitions *)

Fixpoint strcasecmp_eq (a b : bytes) : bool :=
  match a, b with
  | [], [] => true
  | x :: a', y :: b' => (tolower x =? tolower y) && strcasecmp_eq a' b'
  | _, _ => false
  end.

Definition agent_parse_bool_default (s : option bytes) (def : bool) : bool :=
  match nonempty s with
  | None => def
  | Some s =>
      if strcasecmp_eq s (bs "true") || strcasecmp_eq s (bs "yes") || bytes_eqb s (bs "1") then true
      else if strcasecmp_eq s (bs "false") || strcasecmp_eq s (bs "no") || bytes_eqb s (bs "0") then false
      else def
  end.

Definition agent_parse_int_default (s : option bytes) (def min max : Z) : Z :=
  match nonempty s with
  | None => def
  | Some s =>
      match strtol s with
      | None => def
      | Some (v, rest, _) =>
          if bool_decide (agent_skip_ascii_space rest = []) then
            let v := if v <? min then min else v in
            if max <? v then max else v
          else def
      end
  end.

Definition agent_read_default_lines (ctx : Z) : Z :=
  if (0 <? ctx) && (ctx <=? 8192) then 120
  else if (0 <? ctx) && (ctx <=? 16384) then 240
  else 500.

(** Where [more] goes on: [w->more_*]. *)
Record more_state := More { mo_path : bytes; mo_next_line : Z; mo_bare : bool; mo_valid : bool; mo_byte_offset : nat; mo_mid_line : bool }.

Definition agent_worker_set_more (path : bytes) (next_line : Z) (bare : bool) : more_state :=
  More path next_line bare (negb (length path =? 0)%nat && (0 <? next_line)) 0 false.

Definition is_eol (c : Z) : bool := (c =? 10) || (c =? 13).

(** The byte at a position; -1 is [EOF]. *)
Definition fgetc (data : bytes) (pos : nat) : Z := match data !! pos with Some c => c | None => -1 end.

(** Over the lines before [start_line]. *)
Fixpoint skip_lines (fuel : nat) (data : bytes) (start_line : Z) (pos : nat) (line : Z) : nat * Z :=
  match fuel with
  | O => (pos, line)
  | S fuel' =>
      let c := fgetc data pos in
      if negb (line <? start_line) || (c <? 0) then (pos, line)
      else
        let pos := if (c =? 13) && (fgetc data (S pos) =? 10) then (pos + 2)%nat else S pos in
        skip_lines fuel' data start_line pos (if is_eol c then line + 1 else line)
  end.

Record scan := Scan { sc_pos : nat; sc_line : Z; sc_lines : Z; sc_body : bytes; sc_beginning : bool; sc_prefix : bool; sc_last_line : Z }.
Inductive scan_result := Scanned (s : scan) | ScanBinary | ScanOverflow.

Definition READ_LIMIT : nat := (AGENT_TOOL_MAX_BYTES - 4096)%nat.

(** The loop that fills [body]. *)
Fixpoint scan_loop (fuel : nat) (data : bytes) (bare whole : bool) (max_lines : Z) (s : scan) : scan_result :=
  match fuel with
  | O => Scanned s
  | S fuel' =>
      let c := fgetc data (sc_pos s) in
      if negb (whole || (sc_lines s <? max_lines)) || (c <? 0) then Scanned s
      else if (READ_LIMIT <=? length (sc_body s))%nat && (negb (utf8_tail c) || (READ_LIMIT + 3 <=? length (sc_body s))%nat) then Scanned s
      else if c =? 0 then ScanBinary
      else
        let body := if sc_prefix s && negb bare
                    then sc_body s ++ print_int (sc_line s) ++ (if sc_beginning s then [] else bs " (continued)") ++ [32]
                    else sc_body s in
        let crlf := (c =? 13) && (fgetc data (S (sc_pos s)) =? 10) in
        let body := if (c =? 13) && bare then body ++ [c] else body in
        let ch := if c =? 13 then (if crlf then 10 else if bare then 0 else 10) else c in
        let body := if ch =? 0 then body else body ++ [ch] in
        let pos := if crlf then (sc_pos s + 2)%nat else S (sc_pos s) in
        if is_eol c then
          if sc_line s =? INT32_MAX then ScanOverflow
          else scan_loop fuel' data bare whole max_lines (Scan pos (sc_line s + 1) (sc_lines s + 1) body true true (sc_line s))
        else scan_loop fuel' data bare whole max_lines (Scan pos (sc_line s) (sc_lines s) body false false (sc_line s))
  end.

Definition EOVERFLOW : Z := 75.

Section Read.
Context (strerror : Z -> bytes) (ctx : Z).

(** What [more] is told at the end of the text. *)
Definition truncation_note (line : Z) (offset : nat) (beginning : bool) : bytes :=
  [10] ++ bs "[Read truncated. continue_offset=" ++ print_int line ++ bs "; continue_byte_offset=" ++ dec_print (Z.of_nat offset) ++
  (if beginning then [] else bs " (within line)") ++ bs ". Call more to continue.]" ++ [10].

(** The result and, where [set_more], the new place. *)
Definition agent_read_range_from (w : world) (oc : outcomes) (m : more_state) (path : bytes) (start_line max_lines : Z) (whole_file bare set_more : bool) (offset : nat) (mid_line : bool) : more_state * bytes :=
  let done text := (if set_more then agent_worker_set_more [] 0 false else m, text) in
  let failed e := done (bs "Tool error: read failed: " ++ strerror e ++ [10]) in
  if (length path =? 0)%nat then (m, bs "Tool error: read requires path" ++ [10])
  else
    match oc_fopen oc, realpath w path with
    | Some e, _ => failed e
    | None, inr e => failed e
    | None, inl target =>
        match w_files w !! target with
        | None => failed ENOENT
        | Some node =>
            if negb (st_regular node) then failed EINVAL
            else
              let data := in_data node in
              let start_line := if start_line <? 1 then 1 else start_line in
              let max_lines := if max_lines <=? 0 then agent_read_default_lines ctx else max_lines in
              let '(pos, line) := if (0 <? offset)%nat then skip_lines (S (length data)) data start_line offset start_line
                                  else skip_lines (S (length data)) data start_line 0 1 in
              match oc_read oc, scan_loop (S (length data)) data bare whole_file max_lines (Scan pos line 0 [] (negb mid_line) true 0) with
              | Some e, _ => failed e
              | None, ScanBinary => done (bs "Tool error: read encountered binary data" ++ [10])
              | None, ScanOverflow => failed EOVERFLOW
              | None, Scanned s =>
                  let more := 0 <=? fgetc data (sc_pos s) in
                  if whole_file && more then done (bs "Tool error: whole read exceeds the 128 KiB output limit; use read and more for chunks" ++ [10])
                  else
                    let header := if bare then [] else
                      path ++ bs ": lines " ++ print_int (if sc_last_line s =? 0 then 0 else start_line) ++ bs "-" ++ print_int (sc_last_line s) ++
                      (if more then bs " (partial read)" else bs " (end of file)") ++ [10] in
                    let note := if more then truncation_note (sc_line s) (sc_pos s) (sc_beginning s) else [] in
                    (if set_more then
                       let m := agent_worker_set_more (if more then path else []) (if more then sc_line s else 0) bare in
                       More (mo_path m) (mo_next_line m) (mo_bare m) (mo_valid m) (sc_pos s) (negb (sc_beginning s))
                     else m, header ++ sc_body s ++ note)
              end
        end
    end.

Definition agent_tool_read (w : world) (oc : outcomes) (m : more_state) (call : agent_tool_call) : more_state * bytes :=
  let path := default [] (agent_tool_arg_value call (bs "path")) in
  let whole := agent_parse_bool_default (agent_tool_arg_value call (bs "whole")) false in
  let start := agent_parse_int_default (agent_tool_arg_value call (bs "start_line")) 1 1 INT32_MAX in
  let count := agent_parse_int_default (agent_tool_arg_value call (bs "max_lines")) (agent_read_default_lines ctx) 1 INT32_MAX in
  let raw := agent_parse_bool_default (agent_tool_arg_value call (bs "raw")) false in
  agent_read_range_from w oc m path start count whole raw true 0 false.

Definition agent_tool_more (w : world) (oc : outcomes) (m : more_state) (call : agent_tool_call) : more_state * bytes :=
  let count := agent_parse_int_default (agent_tool_arg_value call (bs "count")) (agent_read_default_lines ctx) 1 INT32_MAX in
  if negb (mo_valid m) then (m, bs "Tool error: no previous output to continue" ++ [10])
  else agent_read_range_from w oc m (mo_path m) (mo_next_line m) count false (mo_bare m) true (mo_byte_offset m) (mo_mid_line m).

(** [more] is called until it has nothing left, with any counts. *)
Fixpoint drain (w : world) (m : more_state) (calls : list agent_tool_call) : more_state * list bytes :=
  match calls with
  | [] => (m, [])
  | call :: calls' =>
      if mo_valid m then
        let '(m, text) := agent_tool_more w no_failure m call in
        let '(m, texts) := drain w m calls' in (m, text :: texts)
      else (m, [])
  end.
End Read.

Definition rd_call (args : list (string * string)) : agent_tool_call := AgentCall (Some (bs "read")) (map (fun '(k, v) => AgentArg (bs k) (bs v) true) args).
Example read_two_lines :
  let data := bs "one" ++ [13; 10] ++ bs "two" ++ [10] ++ bs "three" in
  let w := World {[ bs "/f" := temp_file example_new None data ]} ∅ in
  let '(m, text) := agent_tool_read example_error 4096 w no_failure (More [] 0 false false 0 false) (rd_call [("path", "/f"); ("max_lines", "2")]) in
  text = bs "/f: lines 1-2 (partial read)" ++ [10] ++ bs "1 one" ++ [10] ++ bs "2 two" ++ [10; 10] ++ bs "[Read truncated. continue_offset=3; continue_byte_offset=9. Call more to continue.]" ++ [10] /\
  (agent_tool_more example_error 4096 w no_failure m (rd_call [])).2 = bs "/f: lines 3-3 (end of file)" ++ [10] ++ bs "3 three".
Proof. vm_compute. split; reflexivity. Qed.

(** ** Raw reading *)

#[local] Opaque READ_LIMIT.

Section Raw.
Context (data : bytes) (Hok : bytes_ok data) (H0 : 0 ∉ data).

Lemma fgetc_at pos c : data !! pos = Some c -> fgetc data pos = c /\ 0 < c < 256.
Proof using Hok H0.
  intros H. unfold fgetc. rewrite H. split; [done|]. rewrite Forall_forall in Hok. apply list_elem_of_lookup_2 in H. pose proof (Hok c H) as Hc. unfold is_byte in Hc. assert (c <> 0) by (intros ->; done). lia.
Qed.

Lemma fgetc_end pos : fgetc data pos < 0 <-> (length data <= pos)%nat.
Proof using Hok H0.
  destruct (data !! pos) as [c|] eqn:E; [destruct (fgetc_at pos c E) as [-> Hc]; apply lookup_lt_Some in E; lia|]. unfold fgetc. rewrite E. apply lookup_ge_None in E. split; lia.
Qed.

Lemma shown_snoc pos n c : data !! (pos + n)%nat = Some c -> take (S n) (drop pos data) = take n (drop pos data) ++ [c].
Proof. intros H. apply take_S_r. by rewrite lookup_drop. Qed.

(** The bytes of the scan are those between its positions. *)
Lemma scan_bare fuel : forall whole max s, (length data - sc_pos s < fuel)%nat -> (sc_pos s <= length data)%nat -> 1 <= sc_line s -> sc_line s + (zlen data - Z.of_nat (sc_pos s)) < INT32_MAX ->
  exists s', scan_loop fuel data true whole max s = Scanned s' /\ (sc_pos s <= sc_pos s' <= length data)%nat /\
    sc_body s' = sc_body s ++ take (sc_pos s' - sc_pos s) (drop (sc_pos s) data) /\ sc_line s <= sc_line s' /\ sc_line s' + (zlen data - Z.of_nat (sc_pos s')) < INT32_MAX /\
    ((sc_pos s < length data)%nat -> (length (sc_body s) < READ_LIMIT)%nat -> whole || (sc_lines s <? max) = true -> (sc_pos s < sc_pos s')%nat).
Proof using Hok H0.
  induction fuel as [|fuel IH]; intros whole max s Hf Hp Hl Hover; [lia|]. cbn [scan_loop].
  assert (Hstay : exists s', Scanned s = Scanned s' /\ (sc_pos s <= sc_pos s' <= length data)%nat /\ sc_body s' = sc_body s ++ take (sc_pos s' - sc_pos s) (drop (sc_pos s) data) /\ sc_line s <= sc_line s' /\ sc_line s' + (zlen data - Z.of_nat (sc_pos s')) < INT32_MAX).
  { exists s. rewrite Nat.sub_diag, take_0, app_nil_r. split_and!; done || lia. }
  destruct (data !! sc_pos s) as [c|] eqn:Ec.
  2: { apply lookup_ge_None in Ec. pose proof (proj2 (fgetc_end (sc_pos s)) Ec) as He. rewrite (proj2 (Z.ltb_lt (fgetc data (sc_pos s)) 0) He), orb_true_r. destruct Hstay as (s' & H1 & H2 & H3 & H4 & H5). exists s'. split_and!; try done; try lia. }
  destruct (fgetc_at _ _ Ec) as [Hc Hr]. rewrite Hc. rewrite (proj2 (Z.ltb_ge c 0)) by lia. rewrite orb_false_r. destruct (whole || (sc_lines s <? max)) eqn:Ew; cbn [negb].
  2: { destruct Hstay as (s' & H1 & H2 & H3 & H4 & H5). exists s'. split_and!; try done; lia. }
  destruct ((READ_LIMIT <=? length (sc_body s))%nat && (negb (utf8_tail c) || (READ_LIMIT + 3 <=? length (sc_body s))%nat)) eqn:El.
  { destruct Hstay as (s' & H1 & H2 & H3 & H4 & H5). exists s'. do 5 (split; [assumption|]). intros _ Hlim. apply andb_true_iff in El as [El _]. apply Nat.leb_le in El. lia. }
  rewrite (proj2 (Z.eqb_neq c 0)) by lia. rewrite andb_false_r. cbn [negb]. pose proof (lookup_lt_Some _ _ _ Ec) as Hlt.
  set (crlf := (c =? 13) && (fgetc data (S (sc_pos s)) =? 10)). set (pos := if crlf then (sc_pos s + 2)%nat else S (sc_pos s)).
  match goal with |- context [Scan pos _ _ ?b true true] => set (body := b) end.
  assert (Hbody : body = sc_body s ++ take (pos - sc_pos s) (drop (sc_pos s) data) /\ (sc_pos s < pos <= length data)%nat).
  { subst body pos. pose proof (shown_snoc (sc_pos s) 0 c) as S1. rewrite Nat.add_0_r in S1. specialize (S1 Ec). cbn [take app] in S1. destruct (Z.eqb_spec c 13) as [->|Hn13]; cbn [andb] in *.
    - subst crlf. cbn [andb]. destruct (Z.eqb_spec (fgetc data (S (sc_pos s))) 10) as [E10|E10].
      + assert (Hn : data !! (sc_pos s + 1)%nat = Some 10). { rewrite Nat.add_1_r. unfold fgetc in E10. destruct (data !! S (sc_pos s)); [by subst|lia]. }
        cbn [Z.eqb Pos.eqb]. replace (sc_pos s + 2 - sc_pos s)%nat with 2%nat by lia. rewrite (shown_snoc _ 1 10 Hn), S1. rewrite <- (assoc_L (++)). split; [done|]. apply lookup_lt_Some in Hn. lia.
      + cbn [Z.eqb]. replace (S (sc_pos s) - sc_pos s)%nat with 1%nat by lia. rewrite S1. split; [done|lia].
    - subst crlf. cbn [andb]. rewrite (proj2 (Z.eqb_neq c 0)) by lia. replace (S (sc_pos s) - sc_pos s)%nat with 1%nat by lia. rewrite S1. split; [done|lia]. }
  destruct Hbody as [Hbody Hpos]. clearbody body pos. clear Hstay El. unfold zlen in *.
  assert (Hgo : forall s2, sc_pos s2 = pos -> sc_body s2 = body -> sc_line s <= sc_line s2 <= sc_line s + 1 -> exists s', scan_loop fuel data true whole max s2 = Scanned s' /\ (sc_pos s <= sc_pos s' <= length data)%nat /\ sc_body s' = sc_body s ++ take (sc_pos s' - sc_pos s) (drop (sc_pos s) data) /\
     sc_line s <= sc_line s' /\ sc_line s' + (Z.of_nat (length data) - Z.of_nat (sc_pos s')) < INT32_MAX /\ (sc_pos s < sc_pos s')%nat).
  { intros s2 E1 E2 E3. destruct (IH whole max s2) as (s' & G1 & G2 & G3 & G4 & G5 & _); [lia|lia|lia|unfold zlen; lia|]. exists s'. unfold zlen in G5. split; [done|]. split; [lia|]. split; [|split_and!; lia].
    rewrite G3, E2, Hbody, E1, <- (assoc_L (++)). f_equal. replace (sc_pos s' - sc_pos s)%nat with ((pos - sc_pos s) + (sc_pos s' - pos))%nat by lia. rewrite <- take_take_drop, drop_drop. f_equal. f_equal. f_equal. lia. }
  destruct (is_eol c).
  - rewrite (proj2 (Z.eqb_neq (sc_line s) INT32_MAX)) by lia. destruct (Hgo (Scan pos (sc_line s + 1) (sc_lines s + 1) body true true (sc_line s)) eq_refl eq_refl ltac:(cbn; lia)) as (s' & G1 & G2 & G3 & G4 & G5 & G6). exists s'. do 5 (split; [assumption|]). by intros _ _ _.
  - destruct (Hgo (Scan pos (sc_line s) (sc_lines s) body false false (sc_line s)) eq_refl eq_refl ltac:(cbn; lia)) as (s' & G1 & G2 & G3 & G4 & G5 & G6). exists s'. do 5 (split; [assumption|]). by intros _ _ _.
Qed.

Lemma skip_lines_ok fuel start : forall pos line, (pos <= length data)%nat -> 1 <= line -> line + (zlen data - Z.of_nat pos) < INT32_MAX ->
  let '(pos', line') := skip_lines fuel data start pos line in (pos <= pos' <= length data)%nat /\ 1 <= line' /\ line' + (zlen data - Z.of_nat pos') < INT32_MAX.
Proof using Hok H0.
  induction fuel as [|fuel IH]; intros pos line Hp Hl Ho; cbn [skip_lines]; [lia|]. case_if; [lia|]. apply orb_false_iff in E as [_ E%Z.ltb_ge].
  assert (Hlt : (pos < length data)%nat). { destruct (decide (pos < length data)%nat); [done|]. pose proof (proj2 (fgetc_end pos) ltac:(lia)). lia. }
  set (pos2 := if _ && _ then (pos + 2)%nat else S pos). assert (Hp2 : (pos < pos2 <= length data)%nat).
  { subst pos2. destruct ((fgetc data pos =? 13) && (fgetc data (S pos) =? 10)) eqn:Ecr; [|lia]. apply andb_true_iff in Ecr as [_ Ecr%Z.eqb_eq]. destruct (decide (S pos < length data)%nat); [lia|]. pose proof (proj2 (fgetc_end (S pos)) ltac:(lia)). lia. }
  specialize (IH pos2 (if is_eol (fgetc data pos) then line + 1 else line)). unfold zlen in *. destruct (skip_lines fuel data start pos2 _) as [pos' line']. destruct IH as (? & ? & ?); [lia|case_if; lia|case_if; lia|]. lia.
Qed.
End Raw.

Lemma parse_int_min s def max : 1 <= def -> 1 <= max -> 1 <= agent_parse_int_default s def 1 max.
Proof.
  intros Hd Hm. unfold agent_parse_int_default. destruct (nonempty s) as [v|]; [|done]. destruct (strtol v) as [[[x rest] r]|]; [|done]. case_bool_decide; [|done]. cbv zeta. destruct (Z.ltb_spec x 1); case_if; lia.
Qed.

Lemma default_lines_pos ctx : 1 <= agent_read_default_lines ctx.
Proof. unfold agent_read_default_lines. repeat case_if; lia. Qed.

Lemma read_limit_pos : (length (@nil Z) < READ_LIMIT)%nat.
Proof. apply Nat.ltb_lt. vm_compute. reflexivity. Qed.

(** A part of a raw reading: bytes of the file, and a note unless it is the last. *)
Definition shows (piece text : bytes) : Prop :=
  text = piece \/ exists line offset beginning, text = piece ++ truncation_note line offset beginning.

Section Drain.
Context (strerror : Z -> bytes) (ctx : Z) (w : world) (path target : bytes) (node : inode).
Context (Hpath : path <> []) (Hreal : realpath w path = inl target) (Hnode : w_files w !! target = Some node) (Hreg : st_regular node = true).
Abbreviation data := (in_data node).
Context (Hok : bytes_ok data) (H0 : 0 ∉ data) (Hsize : zlen data + 1 < INT32_MAX).

(** The bytes before [pos] have been shown. *)
Definition at_place (m : more_state) (pos : nat) : Prop :=
  (pos <= length data)%nat /\ mo_valid m = (pos <? length data)%nat /\
  (mo_valid m = true -> mo_path m = path /\ mo_bare m = true /\ mo_byte_offset m = pos /\ (0 < pos)%nat /\ 1 <= mo_next_line m /\ mo_next_line m + (zlen data - Z.of_nat pos) < INT32_MAX).

Lemma read_chunk m start max offset mid pos line : 1 <= max -> 1 <= start ->
  (if (0 <? offset)%nat then skip_lines (S (length data)) data start offset start else skip_lines (S (length data)) data start 0 1) = (pos, line) ->
  (pos <= length data)%nat -> 1 <= line -> line + (zlen data - Z.of_nat pos) < INT32_MAX ->
  let '(m', text) := agent_read_range_from strerror ctx w no_failure m path start max false true true offset mid in
  exists pos', at_place m' pos' /\ (pos <= pos')%nat /\ ((pos < length data)%nat -> (pos < pos')%nat) /\ shows (take (pos' - pos) (drop pos data)) text.
Proof using Hpath Hreal Hnode Hreg Hok H0.
  intros Hmax Hstart Hskip Hp Hl Ho. unfold agent_read_range_from. replace (length path =? 0)%nat with false by (by destruct path). cbn [no_failure oc_fopen oc_read]. rewrite Hreal, Hnode, Hreg. cbn [negb].
  rewrite (proj2 (Z.ltb_ge start 1)), (proj2 (Z.leb_gt max 0)) by lia. rewrite Hskip.
  destruct (scan_bare data Hok H0 (S (length data)) false max (Scan pos line 0 [] (negb mid) true 0)) as (s & Hs & H1 & H2 & H3 & H4 & H5); [cbn; lia|done|done|done|]. cbn [sc_pos sc_line sc_body sc_lines] in *. rewrite Hs. cbn [andb app].
  assert (Hprog : (pos < length data)%nat -> (pos < sc_pos s)%nat) by (intros Hx; exact (H5 Hx read_limit_pos (proj2 (Z.ltb_lt 0 max) (Z.lt_le_trans _ _ _ Z.lt_0_1 Hmax)))). clear H5.
  assert (Hmore : (0 <=? fgetc data (sc_pos s)) = (sc_pos s <? length data)%nat). { pose proof (fgetc_end data Hok H0 (sc_pos s)) as He. destruct (Z.leb_spec 0 (fgetc data (sc_pos s))), (Nat.ltb_spec (sc_pos s) (length data)); done || lia. }
  rewrite Hmore. exists (sc_pos s). split; [|split; [lia|split]].
  - destruct (Nat.ltb_spec (sc_pos s) (length data)) as [Hlt|Hge].
    + assert (Hpp : (pos < sc_pos s)%nat). { apply Hprog. lia. }
      split; [lia|]. cbn [agent_worker_set_more mo_valid mo_path mo_bare mo_next_line mo_byte_offset]. replace (length path =? 0)%nat with false by (by destruct path). rewrite (proj2 (Z.ltb_lt 0 (sc_line s))) by lia. cbn [negb andb]. split; [symmetry; by apply Nat.ltb_lt|].
      intros _. split_and!; done || lia.
    + split; [lia|]. cbn [agent_worker_set_more mo_valid]. split; [symmetry; by apply Nat.ltb_ge|done].
  - exact Hprog.
  - rewrite H2. destruct (sc_pos s <? length data)%nat; [right; by do 3 eexists|left; by rewrite app_nil_r].
Qed.

Lemma more_chunk m pos call : at_place m pos -> mo_valid m = true ->
  let '(m', text) := agent_tool_more strerror ctx w no_failure m call in
  exists pos', at_place m' pos' /\ (pos < pos')%nat /\ shows (take (pos' - pos) (drop pos data)) text.
Proof using Hpath Hreal Hnode Hreg Hok H0.
  intros (Hp & Hv & Hm) Hvalid. specialize (Hm Hvalid). destruct Hm as (H1 & H2 & H3 & H4 & H5 & H6). rewrite Hvalid in Hv. symmetry in Hv. apply Nat.ltb_lt in Hv. unfold agent_tool_more. rewrite Hvalid, H1, H2, H3. cbn [negb].
  set (count := agent_parse_int_default _ _ _ _). assert (Hc : 1 <= count) by (apply parse_int_min; [apply default_lines_pos|done]). clearbody count.
  pose proof (read_chunk m (mo_next_line m) count pos (mo_mid_line m) pos (mo_next_line m) Hc H5) as H. rewrite (proj2 (Nat.ltb_lt 0 pos) H4) in H. specialize (H ltac:(cbn [skip_lines]; by rewrite Z.ltb_irrefl) Hp H5 H6).
  destruct (agent_read_range_from _ _ _ _ _ _ _ _ _ _ _ _ _) as [m' text]. destruct H as (pos' & G1 & G2 & G3 & G4). exists pos'. split_and!; auto.
Qed.

Lemma drain_exact calls : forall m pos, at_place m pos -> let '(m', texts) := drain strerror ctx w m calls in
  exists pos' pieces, at_place m' pos' /\ (pos <= pos')%nat /\ concat pieces = take (pos' - pos) (drop pos data) /\ Forall2 shows pieces texts /\
    ((length data - pos <= length calls)%nat -> mo_valid m' = false).
Proof using Hpath Hreal Hnode Hreg Hok H0.
  induction calls as [|call calls IH]; intros m pos Hat; cbn [drain].
  - exists pos, []. rewrite Nat.sub_diag. cbn [length]. split_and!; try done. intros Hlen. destruct Hat as (_ & -> & _). apply Nat.ltb_ge. lia.
  - destruct (mo_valid m) eqn:Ev.
    + pose proof (more_chunk m pos call Hat Ev) as Hm. destruct (agent_tool_more strerror ctx w no_failure m call) as [m1 text]. destruct Hm as (p1 & Hat1 & Hp1 & Hs1). specialize (IH m1 p1 Hat1). destruct (drain strerror ctx w m1 calls) as [m' texts].
      destruct IH as (p2 & pieces & Hat2 & Hp2 & Hc & Hf & Hend). exists p2, (take (p1 - pos) (drop pos data) :: pieces). split; [done|]. split; [lia|]. split; [|split; [by constructor|]].
      * cbn [concat]. rewrite Hc. replace (p2 - pos)%nat with ((p1 - pos) + (p2 - p1))%nat by lia. rewrite <- take_take_drop, drop_drop. f_equal. f_equal. f_equal. lia.
      * intros Hlen. apply Hend. cbn [length] in Hlen. lia.
    + exists pos, []. rewrite Nat.sub_diag. by split_and!.
Qed.

Lemma read_and_drain m call calls : agent_tool_arg_value call (bs "path") = Some path -> agent_parse_bool_default (agent_tool_arg_value call (bs "raw")) false = true ->
  agent_parse_bool_default (agent_tool_arg_value call (bs "whole")) false = false ->
  let start := (skip_lines (S (length data)) data (agent_parse_int_default (agent_tool_arg_value call (bs "start_line")) 1 1 INT32_MAX) 0 1).1 in
  let '(m1, text) := agent_tool_read strerror ctx w no_failure m call in
  let '(m2, texts) := drain strerror ctx w m1 calls in
  exists pieces rest, Forall2 shows pieces (text :: texts) /\ drop start data = concat pieces ++ rest /\ mo_valid m2 = negb (length rest =? 0)%nat /\
    ((length data <= length calls)%nat -> rest = []).
Proof using Hpath Hreal Hnode Hreg Hok H0 Hsize.
  intros Hp Hraw Hwhole. cbv zeta. unfold agent_tool_read. rewrite Hp, Hraw, Hwhole. cbn [default from_option id]. set (start := agent_parse_int_default (agent_tool_arg_value call (bs "start_line")) 1 1 INT32_MAX). assert (Hst : 1 <= start) by (by apply parse_int_min).
  set (count := agent_parse_int_default _ (agent_read_default_lines ctx) _ _). assert (Hc : 1 <= count) by (apply parse_int_min; [apply default_lines_pos|done]). clearbody count start.
  pose proof (skip_lines_ok data Hok H0 (S (length data)) start 0 1 ltac:(lia) ltac:(lia) ltac:(lia)) as Hskip. destruct (skip_lines (S (length data)) data start 0 1) as [pos line] eqn:Esk. destruct Hskip as (Hpos & Hl & Hov). cbn [fst].
  pose proof (read_chunk m start count 0 false pos line Hc Hst Esk (proj2 Hpos) Hl Hov) as H. destruct (agent_read_range_from _ _ _ _ _ _ _ _ _ _ _ _ _) as [m1 text]. destruct H as (p1 & Hat1 & Hp1 & Hprog & Hs1).
  pose proof (drain_exact calls m1 p1 Hat1) as Hd. destruct (drain strerror ctx w m1 calls) as [m2 texts]. destruct Hd as (p2 & pieces & Hat2 & Hp2 & Hcat & Hf & Hend). destruct Hat2 as (Hle & Hv & _).
  exists (take (p1 - pos) (drop pos data) :: pieces), (drop p2 data). split; [by constructor|]. split; [|split].
  - cbn [concat]. rewrite Hcat. assert (E : take (p1 - pos) (drop pos data) ++ take (p2 - p1) (drop p1 data) = take (p2 - pos) (drop pos data)). { replace (p2 - pos)%nat with ((p1 - pos) + (p2 - p1))%nat by lia. rewrite <- take_take_drop, drop_drop. f_equal. f_equal. f_equal. lia. }
    rewrite E. rewrite <- (take_drop (p2 - pos) (drop pos data)) at 1. f_equal. rewrite drop_drop. f_equal. lia.
  - rewrite Hv, length_drop. destruct (Nat.ltb_spec p2 (length data)), (Nat.eqb_spec (length data - p2) 0); done || lia.
  - intros Hlen. apply drop_ge. specialize (Hend ltac:(lia)). rewrite Hv in Hend. apply Nat.ltb_ge in Hend. lia.
Qed.
End Drain.

(** ** Properties *)

(** C23: A file that is read raw, and then with [more] as often as it takes, is
    shown exactly: the texts are consecutive parts of the file from the first line
    asked for - nothing lost, repeated or changed, line ends included, however many
    lines each call asks for - each followed by the note that there is more, but
    for the last; every call shows something, so that at most as many calls as
    there are bytes show all, and [more] knows whether anything is left. *)
Theorem raw_reading_is_exact (strerror : Z -> bytes) (ctx : Z) (w : world) (path target : bytes) (node : inode) (m : more_state) (call : agent_tool_call) (calls : list agent_tool_call) :
  path <> [] -> realpath w path = inl target -> w_files w !! target = Some node -> st_regular node = true ->
  bytes_ok (in_data node) -> 0 ∉ in_data node -> zlen (in_data node) + 1 < INT32_MAX ->
  agent_tool_arg_value call (bs "path") = Some path -> agent_parse_bool_default (agent_tool_arg_value call (bs "raw")) false = true ->
  agent_parse_bool_default (agent_tool_arg_value call (bs "whole")) false = false ->
  let start := (skip_lines (S (length (in_data node))) (in_data node) (agent_parse_int_default (agent_tool_arg_value call (bs "start_line")) 1 1 INT32_MAX) 0 1).1 in
  let '(m1, text) := agent_tool_read strerror ctx w no_failure m call in
  let '(m2, texts) := drain strerror ctx w m1 calls in
  exists pieces rest, Forall2 shows pieces (text :: texts) /\ drop start (in_data node) = concat pieces ++ rest /\ mo_valid m2 = negb (length rest =? 0)%nat /\
    ((length (in_data node) <= length calls)%nat -> rest = []).
Proof. intros. by apply (read_and_drain strerror ctx w path target node). Qed.

Definition raw_file : inode := temp_file example_new None (bs "one" ++ [13; 10] ++ bs "two" ++ [10] ++ bs "three").
Definition raw_world : world := World {[ bs "/f" := raw_file ]} ∅.

Lemma raw_reading_is_exact_witness :
  let call := rd_call [("path", "/f"); ("raw", "true"); ("max_lines", "1"); ("start_line", "2")] in
  let '(m1, text) := agent_tool_read example_error 4096 raw_world no_failure (More [] 0 false false 0 false) call in
  let '(m2, texts) := drain example_error 4096 raw_world m1 [rd_call [("count", "1")]; rd_call []] in
  (exists pieces rest, Forall2 shows pieces (text :: texts) /\ drop 5 (in_data raw_file) = concat pieces ++ rest /\ mo_valid m2 = negb (length rest =? 0)%nat /\
    ((length (in_data raw_file) <= 2)%nat -> rest = [])) /\ texts = [bs "three"].
Proof.
  intros call. pose proof (raw_reading_is_exact example_error 4096 raw_world (bs "/f") (bs "/f") raw_file (More [] 0 false false 0 false) call [rd_call [("count", "1")]; rd_call []]
    ltac:(discriminate) eq_refl eq_refl eq_refl ltac:(apply (bool_decide_unpack _); vm_compute; exact I) ltac:(apply (bool_decide_unpack _); vm_compute; exact I) eq_refl eq_refl eq_refl eq_refl) as H.
  assert (Ht : (drain example_error 4096 raw_world (agent_tool_read example_error 4096 raw_world no_failure (More [] 0 false false 0 false) call).1 [rd_call [("count", "1")]; rd_call []]).2 = [bs "three"]) by (vm_compute; reflexivity).
  cbv zeta in H. change (skip_lines (S (length (in_data raw_file))) (in_data raw_file) (agent_parse_int_default (agent_tool_arg_value call (bs "start_line")) 1 1 INT32_MAX) 0 1).1 with 5%nat in H.
  destruct (agent_tool_read example_error 4096 raw_world no_failure (More [] 0 false false 0 false) call) as [m1 text]. cbn [fst] in Ht. destruct (drain example_error 4096 raw_world m1 [rd_call [("count", "1")]; rd_call []]) as [m2 texts]. split; [exact H|exact Ht].
Defined.
