(* ===== verification/DistWire.v ===== *)
(** * Distributed inference: the wire (ds4_distributed.c)

    What the coordinator and the workers of a distributed session exchange:
    frames of big-endian records, token prefix hashes, activations packed to 32,
    16 or 8 bits, work and result frames.  A record's memory is its 32-bit words
    in little-endian order; [htonl] swaps them, so the bytes on the wire are big
    endian.  A socket that is read is the bytes still to come and how it ends; a
    write is the bytes written (a failed write ends the connection and is not
    modelled).  Every record is an instance of the class [Wire], for which
    packing and unpacking are proved once. *)

From Stdlib Require Import Floats.SpecFloat.
From S2P Require Import Prelude Float64 Half.
#[local] Open Scope Z_scope.
#[local] Open Scope stdpp_scope.

Definition DS4_DIST_MAGIC : Z := 0x44533444.
Definition DS4_DIST_MSG_HELLO : Z := 1.
Definition DS4_DIST_MSG_ERROR : Z := 2.
Definition DS4_DIST_MSG_WORK : Z := 3.
Definition DS4_DIST_MSG_RESULT : Z := 4.
Definition DS4_DIST_MAX_MODEL_NAME : Z := 127.
Definition DS4_DIST_WORK_F_INPUT_HC : Z := 1.
Definition DS4_DIST_WORK_F_OUTPUT_LOGITS : Z := 2.
Definition DS4_DIST_WORK_F_RESET_SESSION : Z := 4.
Definition DS4_DIST_WORK_F_ACK_ONLY : Z := 8.
Definition DS4_DIST_WORK_F_VALID_MASK : Z :=
  Z.lor (Z.lor (Z.lor DS4_DIST_WORK_F_INPUT_HC DS4_DIST_WORK_F_OUTPUT_LOGITS) DS4_DIST_WORK_F_RESET_SESSION) DS4_DIST_WORK_F_ACK_ONLY.
Definition DS4_DIST_RESULT_ACK : Z := 0.
Definition DS4_DIST_RESULT_HIDDEN_STATE : Z := 1.
Definition DS4_DIST_RESULT_LOGITS : Z := 2.
Definition DS4_DIST_ACTIVATION_BITS_DEFAULT : Z := 32.
Definition DS4_DIST_RECV_TRANSPORT_ERROR : Z := 1.
Definition DS4_DIST_RECV_REMOTE_ERROR : Z := 2.

(** ** Records *)

(** On a little-endian machine. *)
Definition htonl (x : Z) : Z := le_val (rev (le_bytes 4 x)).
Definition ntohl (x : Z) : Z := le_val (rev (le_bytes 4 x)).

(** The memory of an array of 32-bit words, and back. *)
Definition image (ws : list Z) : bytes := ws ≫= le_bytes 4.
Fixpoint le_words (n : nat) (b : bytes) : list Z :=
  match n with O => [] | S n' => le_val (take 4 b) :: le_words n' (drop 4 b) end.

(** A struct of 32-bit fields that is sent: its words in memory, [memcpy] into
    it, and the conversions of its fields. *)
Class Wire (A : Type) := {
  wire_words : nat;
  words : A -> list Z;
  of_words : list Z -> A;
  to_wire : A -> A;
  from_wire : A -> A;
  words_length a : length (words a) = wire_words;
  words_of_words l : length l = wire_words -> words (of_words l) = l;
  of_words_words a : of_words (words a) = a;
  words_to_wire a : words (to_wire a) = map htonl (words a);
  words_from_wire a : words (from_wire a) = map ntohl (words a) }.

Definition wire_size (A : Type) `{Wire A} : Z := 4 * Z.of_nat (wire_words (A := A)).

(** The bytes that are sent, and the record read from received bytes. *)
Definition wire_image {A} `{Wire A} (a : A) : bytes := image (words (to_wire a)).
Definition wire_parse {A} `{Wire A} (b : bytes) : A := from_wire (of_words (le_words wire_words b)).

Ltac wire_laws :=
  intros; try done;
  match goal with
  | l : list Z, H : length ?l = _ |- _ => repeat (destruct l as [|? l]; try discriminate H); done
  | a : _ |- _ => by destruct a
  end.

Record ds4_dist_frame_header := Frame {
  fr_magic : Z; fr_type : Z; fr_bytes : Z }.

Definition dist_frame_to_wire (h : ds4_dist_frame_header) : ds4_dist_frame_header := Frame (htonl (fr_magic h)) (htonl (fr_type h)) (htonl (fr_bytes h)).

Definition dist_frame_from_wire (h : ds4_dist_frame_header) : ds4_dist_frame_header := Frame (ntohl (fr_magic h)) (ntohl (fr_type h)) (ntohl (fr_bytes h)).

#[export] Program Instance frame_wire : Wire ds4_dist_frame_header := {|
  wire_words := 3;
  words h :=
    [fr_magic h; fr_type h; fr_bytes h];
  of_words l := match l with [a0; a1; a2] => Frame a0 a1 a2 | _ => Frame 0 0 0 end;
  to_wire := dist_frame_to_wire;
  from_wire := dist_frame_from_wire |}.
Solve All Obligations with wire_laws.

Record ds4_dist_hello_fixed := Hello {
  he_model_id : Z; he_quant_bits : Z; he_layer_start : Z; he_layer_end : Z; he_has_output : Z; he_has_hidden : Z; he_ctx_size : Z; he_n_layers : Z;
  he_listen_port : Z; he_model_name_len : Z }.

Definition dist_hello_to_wire (h : ds4_dist_hello_fixed) : ds4_dist_hello_fixed :=
  Hello
    (htonl (he_model_id h)) (htonl (he_quant_bits h)) (htonl (he_layer_start h)) (htonl (he_layer_end h)) (htonl (he_has_output h))
    (htonl (he_has_hidden h)) (htonl (he_ctx_size h)) (htonl (he_n_layers h)) (htonl (he_listen_port h)) (htonl (he_model_name_len h)).

Definition dist_hello_from_wire (h : ds4_dist_hello_fixed) : ds4_dist_hello_fixed :=
  Hello
    (ntohl (he_model_id h)) (ntohl (he_quant_bits h)) (ntohl (he_layer_start h)) (ntohl (he_layer_end h)) (ntohl (he_has_output h))
    (ntohl (he_has_hidden h)) (ntohl (he_ctx_size h)) (ntohl (he_n_layers h)) (ntohl (he_listen_port h)) (ntohl (he_model_name_len h)).

#[export] Program Instance hello_wire : Wire ds4_dist_hello_fixed := {|
  wire_words := 10;
  words h :=
    [he_model_id h; he_quant_bits h; he_layer_start h; he_layer_end h; he_has_output h; he_has_hidden h; he_ctx_size h; he_n_layers h; he_listen_port h;
    he_model_name_len h];
  of_words l := match l with [a0; a1; a2; a3; a4; a5; a6; a7; a8; a9] => Hello a0 a1 a2 a3 a4 a5 a6 a7 a8 a9 | _ => Hello 0 0 0 0 0 0 0 0 0 0 end;
  to_wire := dist_hello_to_wire;
  from_wire := dist_hello_from_wire |}.
Solve All Obligations with wire_laws.

Record ds4_dist_work_fixed := Work {
  wk_model_id : Z; wk_session_hi : Z; wk_session_lo : Z; wk_request_hi : Z; wk_request_lo : Z; wk_prefix_hash_hi : Z; wk_prefix_hash_lo : Z;
  wk_result_hash_hi : Z; wk_result_hash_lo : Z; wk_pos0 : Z; wk_n_tokens : Z; wk_layer_start : Z; wk_layer_end : Z; wk_flags : Z; wk_token_bytes : Z;
  wk_input_hc_bytes : Z; wk_input_hc_bits : Z; wk_route_count : Z; wk_route_index : Z; wk_route_bytes : Z }.

Definition dist_work_to_wire (h : ds4_dist_work_fixed) : ds4_dist_work_fixed :=
  Work
    (htonl (wk_model_id h)) (htonl (wk_session_hi h)) (htonl (wk_session_lo h)) (htonl (wk_request_hi h)) (htonl (wk_request_lo h))
    (htonl (wk_prefix_hash_hi h)) (htonl (wk_prefix_hash_lo h)) (htonl (wk_result_hash_hi h)) (htonl (wk_result_hash_lo h)) (htonl (wk_pos0 h))
    (htonl (wk_n_tokens h)) (htonl (wk_layer_start h)) (htonl (wk_layer_end h)) (htonl (wk_flags h)) (htonl (wk_token_bytes h))
    (htonl (wk_input_hc_bytes h)) (htonl (wk_input_hc_bits h)) (htonl (wk_route_count h)) (htonl (wk_route_index h)) (htonl (wk_route_bytes h)).

Definition dist_work_from_wire (h : ds4_dist_work_fixed) : ds4_dist_work_fixed :=
  Work
    (ntohl (wk_model_id h)) (ntohl (wk_session_hi h)) (ntohl (wk_session_lo h)) (ntohl (wk_request_hi h)) (ntohl (wk_request_lo h))
    (ntohl (wk_prefix_hash_hi h)) (ntohl (wk_prefix_hash_lo h)) (ntohl (wk_result_hash_hi h)) (ntohl (wk_result_hash_lo h)) (ntohl (wk_pos0 h))
    (ntohl (wk_n_tokens h)) (ntohl (wk_layer_start h)) (ntohl (wk_layer_end h)) (ntohl (wk_flags h)) (ntohl (wk_token_bytes h))
    (ntohl (wk_input_hc_bytes h)) (ntohl (wk_input_hc_bits h)) (ntohl (wk_route_count h)) (ntohl (wk_route_index h)) (ntohl (wk_route_bytes h)).

#[export] Program Instance work_wire : Wire ds4_dist_work_fixed := {|
  wire_words := 20;
  words h :=
    [wk_model_id h; wk_session_hi h; wk_session_lo h; wk_request_hi h; wk_request_lo h; wk_prefix_hash_hi h; wk_prefix_hash_lo h; wk_result_hash_hi h;
    wk_result_hash_lo h; wk_pos0 h; wk_n_tokens h; wk_layer_start h; wk_layer_end h; wk_flags h; wk_token_bytes h; wk_input_hc_bytes h; wk_input_hc_bits h;
    wk_route_count h; wk_route_index h; wk_route_bytes h];
  of_words l := match l with [a0; a1; a2; a3; a4; a5; a6; a7; a8; a9; a10; a11; a12; a13; a14; a15; a16; a17; a18; a19] => Work a0 a1 a2 a3 a4 a5 a6 a7 a8 a9 a10 a11 a12 a13 a14 a15 a16 a17 a18 a19 | _ => Work 0 0 0 0 0 0 0 0 0 0 0 0 0 0 0 0 0 0 0 0 end;
  to_wire := dist_work_to_wire;
  from_wire := dist_work_from_wire |}.
Solve All Obligations with wire_laws.

Record ds4_dist_route_fixed := RouteFixed {
  rt_host_len : Z; rt_port : Z; rt_layer_start : Z; rt_layer_end : Z; rt_flags : Z }.

Definition dist_route_to_wire (h : ds4_dist_route_fixed) : ds4_dist_route_fixed :=
  RouteFixed
    (htonl (rt_host_len h)) (htonl (rt_port h)) (htonl (rt_layer_start h)) (htonl (rt_layer_end h)) (htonl (rt_flags h)).

Definition dist_route_from_wire (h : ds4_dist_route_fixed) : ds4_dist_route_fixed :=
  RouteFixed
    (ntohl (rt_host_len h)) (ntohl (rt_port h)) (ntohl (rt_layer_start h)) (ntohl (rt_layer_end h)) (ntohl (rt_flags h)).

#[export] Program Instance route_wire : Wire ds4_dist_route_fixed := {|
  wire_words := 5;
  words h :=
    [rt_host_len h; rt_port h; rt_layer_start h; rt_layer_end h; rt_flags h];
  of_words l := match l with [a0; a1; a2; a3; a4] => RouteFixed a0 a1 a2 a3 a4 | _ => RouteFixed 0 0 0 0 0 end;
  to_wire := dist_route_to_wire;
  from_wire := dist_route_from_wire |}.
Solve All Obligations with wire_laws.

Record ds4_dist_route_return_fixed := RouteReturn {
  rr_kind : Z; rr_host_len : Z; rr_port : Z }.

Definition dist_route_return_to_wire (h : ds4_dist_route_return_fixed) : ds4_dist_route_return_fixed :=
  RouteReturn
    (htonl (rr_kind h)) (htonl (rr_host_len h)) (htonl (rr_port h)).

Definition dist_route_return_from_wire (h : ds4_dist_route_return_fixed) : ds4_dist_route_return_fixed :=
  RouteReturn
    (ntohl (rr_kind h)) (ntohl (rr_host_len h)) (ntohl (rr_port h)).

#[export] Program Instance route_return_wire : Wire ds4_dist_route_return_fixed := {|
  wire_words := 3;
  words h :=
    [rr_kind h; rr_host_len h; rr_port h];
  of_words l := match l with [a0; a1; a2] => RouteReturn a0 a1 a2 | _ => RouteReturn 0 0 0 end;
  to_wire := dist_route_return_to_wire;
  from_wire := dist_route_return_from_wire |}.
Solve All Obligations with wire_laws.

Record ds4_dist_result_fixed := ResultFixed {
  re_request_hi : Z; re_request_lo : Z; re_result_hash_hi : Z; re_result_hash_lo : Z; re_status : Z; re_result_kind : Z; re_telemetry_count : Z;
  re_telemetry_bytes : Z; re_payload_bytes : Z; re_payload_bits : Z }.

Definition dist_result_to_wire (h : ds4_dist_result_fixed) : ds4_dist_result_fixed :=
  ResultFixed
    (htonl (re_request_hi h)) (htonl (re_request_lo h)) (htonl (re_result_hash_hi h)) (htonl (re_result_hash_lo h)) (htonl (re_status h))
    (htonl (re_result_kind h)) (htonl (re_telemetry_count h)) (htonl (re_telemetry_bytes h)) (htonl (re_payload_bytes h)) (htonl (re_payload_bits h)).

Definition dist_result_from_wire (h : ds4_dist_result_fixed) : ds4_dist_result_fixed :=
  ResultFixed
    (ntohl (re_request_hi h)) (ntohl (re_request_lo h)) (ntohl (re_result_hash_hi h)) (ntohl (re_result_hash_lo h)) (ntohl (re_status h))
    (ntohl (re_result_kind h)) (ntohl (re_telemetry_count h)) (ntohl (re_telemetry_bytes h)) (ntohl (re_payload_bytes h)) (ntohl (re_payload_bits h)).

#[export] Program Instance result_wire : Wire ds4_dist_result_fixed := {|
  wire_words := 10;
  words h :=
    [re_request_hi h; re_request_lo h; re_result_hash_hi h; re_result_hash_lo h; re_status h; re_result_kind h; re_telemetry_count h; re_telemetry_bytes h;
    re_payload_bytes h; re_payload_bits h];
  of_words l := match l with [a0; a1; a2; a3; a4; a5; a6; a7; a8; a9] => ResultFixed a0 a1 a2 a3 a4 a5 a6 a7 a8 a9 | _ => ResultFixed 0 0 0 0 0 0 0 0 0 0 end;
  to_wire := dist_result_to_wire;
  from_wire := dist_result_from_wire |}.
Solve All Obligations with wire_laws.

Record ds4_dist_telemetry_fixed := Telemetry {
  te_layer_start : Z; te_layer_end : Z; te_route_index : Z; te_pos0 : Z; te_n_tokens : Z; te_eval_usec : Z; te_downstream_wait_usec : Z;
  te_forward_send_usec : Z; te_input_bytes : Z; te_output_bytes : Z }.

Definition dist_telemetry_to_wire (h : ds4_dist_telemetry_fixed) : ds4_dist_telemetry_fixed :=
  Telemetry
    (htonl (te_layer_start h)) (htonl (te_layer_end h)) (htonl (te_route_index h)) (htonl (te_pos0 h)) (htonl (te_n_tokens h))
    (htonl (te_eval_usec h)) (htonl (te_downstream_wait_usec h)) (htonl (te_forward_send_usec h)) (htonl (te_input_bytes h))
    (htonl (te_output_bytes h)).

Definition dist_telemetry_from_wire (h : ds4_dist_telemetry_fixed) : ds4_dist_telemetry_fixed :=
  Telemetry
    (ntohl (te_layer_start h)) (ntohl (te_layer_end h)) (ntohl (te_route_index h)) (ntohl (te_pos0 h)) (ntohl (te_n_tokens h))
    (ntohl (te_eval_usec h)) (ntohl (te_downstream_wait_usec h)) (ntohl (te_forward_send_usec h)) (ntohl (te_input_bytes h))
    (ntohl (te_output_bytes h)).

#[export] Program Instance telemetry_wire : Wire ds4_dist_telemetry_fixed := {|
  wire_words := 10;
  words h :=
    [te_layer_start h; te_layer_end h; te_route_index h; te_pos0 h; te_n_tokens h; te_eval_usec h; te_downstream_wait_usec h; te_forward_send_usec h;
    te_input_bytes h; te_output_bytes h];
  of_words l := match l with [a0; a1; a2; a3; a4; a5; a6; a7; a8; a9] => Telemetry a0 a1 a2 a3 a4 a5 a6 a7 a8 a9 | _ => Telemetry 0 0 0 0 0 0 0 0 0 0 end;
  to_wire := dist_telemetry_to_wire;
  from_wire := dist_telemetry_from_wire |}.
Solve All Obligations with wire_laws.

Record ds4_dist_snapshot_req_fixed := SnapshotReq {
  sq_model_id : Z; sq_session_hi : Z; sq_session_lo : Z; sq_request_hi : Z; sq_request_lo : Z; sq_token_hash_hi : Z; sq_token_hash_lo : Z;
  sq_token_count : Z; sq_layer_start : Z; sq_layer_end : Z }.

Definition dist_snapshot_req_to_wire (h : ds4_dist_snapshot_req_fixed) : ds4_dist_snapshot_req_fixed :=
  SnapshotReq
    (htonl (sq_model_id h)) (htonl (sq_session_hi h)) (htonl (sq_session_lo h)) (htonl (sq_request_hi h)) (htonl (sq_request_lo h))
    (htonl (sq_token_hash_hi h)) (htonl (sq_token_hash_lo h)) (htonl (sq_token_count h)) (htonl (sq_layer_start h)) (htonl (sq_layer_end h)).

Definition dist_snapshot_req_from_wire (h : ds4_dist_snapshot_req_fixed) : ds4_dist_snapshot_req_fixed :=
  SnapshotReq
    (ntohl (sq_model_id h)) (ntohl (sq_session_hi h)) (ntohl (sq_session_lo h)) (ntohl (sq_request_hi h)) (ntohl (sq_request_lo h))
    (ntohl (sq_token_hash_hi h)) (ntohl (sq_token_hash_lo h)) (ntohl (sq_token_count h)) (ntohl (sq_layer_start h)) (ntohl (sq_layer_end h)).

#[export] Program Instance snapshot_req_wire : Wire ds4_dist_snapshot_req_fixed := {|
  wire_words := 10;
  words h :=
    [sq_model_id h; sq_session_hi h; sq_session_lo h; sq_request_hi h; sq_request_lo h; sq_token_hash_hi h; sq_token_hash_lo h; sq_token_count h;
    sq_layer_start h; sq_layer_end h];
  of_words l := match l with [a0; a1; a2; a3; a4; a5; a6; a7; a8; a9] => SnapshotReq a0 a1 a2 a3 a4 a5 a6 a7 a8 a9 | _ => SnapshotReq 0 0 0 0 0 0 0 0 0 0 end;
  to_wire := dist_snapshot_req_to_wire;
  from_wire := dist_snapshot_req_from_wire |}.
Solve All Obligations with wire_laws.

Record ds4_dist_snapshot_begin_fixed := SnapshotBegin {
  sb_model_id : Z; sb_session_hi : Z; sb_session_lo : Z; sb_request_hi : Z; sb_request_lo : Z; sb_token_hash_hi : Z; sb_token_hash_lo : Z;
  sb_token_count : Z; sb_layer_start : Z; sb_layer_end : Z; sb_payload_hi : Z; sb_payload_lo : Z; sb_status : Z; sb_token_bytes : Z;
  sb_message_bytes : Z }.

Definition dist_snapshot_begin_to_wire (h : ds4_dist_snapshot_begin_fixed) : ds4_dist_snapshot_begin_fixed :=
  SnapshotBegin
    (htonl (sb_model_id h)) (htonl (sb_session_hi h)) (htonl (sb_session_lo h)) (htonl (sb_request_hi h)) (htonl (sb_request_lo h))
    (htonl (sb_token_hash_hi h)) (htonl (sb_token_hash_lo h)) (htonl (sb_token_count h)) (htonl (sb_layer_start h)) (htonl (sb_layer_end h))
    (htonl (sb_payload_hi h)) (htonl (sb_payload_lo h)) (htonl (sb_status h)) (htonl (sb_token_bytes h)) (htonl (sb_message_bytes h)).

Definition dist_snapshot_begin_from_wire (h : ds4_dist_snapshot_begin_fixed) : ds4_dist_snapshot_begin_fixed :=
  SnapshotBegin
    (ntohl (sb_model_id h)) (ntohl (sb_session_hi h)) (ntohl (sb_session_lo h)) (ntohl (sb_request_hi h)) (ntohl (sb_request_lo h))
    (ntohl (sb_token_hash_hi h)) (ntohl (sb_token_hash_lo h)) (ntohl (sb_token_count h)) (ntohl (sb_layer_start h)) (ntohl (sb_layer_end h))
    (ntohl (sb_payload_hi h)) (ntohl (sb_payload_lo h)) (ntohl (sb_status h)) (ntohl (sb_token_bytes h)) (ntohl (sb_message_bytes h)).

#[export] Program Instance snapshot_begin_wire : Wire ds4_dist_snapshot_begin_fixed := {|
  wire_words := 15;
  words h :=
    [sb_model_id h; sb_session_hi h; sb_session_lo h; sb_request_hi h; sb_request_lo h; sb_token_hash_hi h; sb_token_hash_lo h; sb_token_count h;
    sb_layer_start h; sb_layer_end h; sb_payload_hi h; sb_payload_lo h; sb_status h; sb_token_bytes h; sb_message_bytes h];
  of_words l := match l with [a0; a1; a2; a3; a4; a5; a6; a7; a8; a9; a10; a11; a12; a13; a14] => SnapshotBegin a0 a1 a2 a3 a4 a5 a6 a7 a8 a9 a10 a11 a12 a13 a14 | _ => SnapshotBegin 0 0 0 0 0 0 0 0 0 0 0 0 0 0 0 end;
  to_wire := dist_snapshot_begin_to_wire;
  from_wire := dist_snapshot_begin_from_wire |}.
Solve All Obligations with wire_laws.

Record ds4_dist_snapshot_chunk_fixed := SnapshotChunk {
  sc_request_hi : Z; sc_request_lo : Z; sc_chunk_bytes : Z }.

Definition dist_snapshot_chunk_to_wire (h : ds4_dist_snapshot_chunk_fixed) : ds4_dist_snapshot_chunk_fixed :=
  SnapshotChunk
    (htonl (sc_request_hi h)) (htonl (sc_request_lo h)) (htonl (sc_chunk_bytes h)).

Definition dist_snapshot_chunk_from_wire (h : ds4_dist_snapshot_chunk_fixed) : ds4_dist_snapshot_chunk_fixed :=
  SnapshotChunk
    (ntohl (sc_request_hi h)) (ntohl (sc_request_lo h)) (ntohl (sc_chunk_bytes h)).

#[export] Program Instance snapshot_chunk_wire : Wire ds4_dist_snapshot_chunk_fixed := {|
  wire_words := 3;
  words h :=
    [sc_request_hi h; sc_request_lo h; sc_chunk_bytes h];
  of_words l := match l with [a0; a1; a2] => SnapshotChunk a0 a1 a2 | _ => SnapshotChunk 0 0 0 end;
  to_wire := dist_snapshot_chunk_to_wire;
  from_wire := dist_snapshot_chunk_from_wire |}.
Solve All Obligations with wire_laws.

Record ds4_dist_snapshot_done_fixed := SnapshotDone {
  sd_request_hi : Z; sd_request_lo : Z; sd_status : Z; sd_message_bytes : Z }.

Definition dist_snapshot_done_to_wire (h : ds4_dist_snapshot_done_fixed) : ds4_dist_snapshot_done_fixed :=
  SnapshotDone
    (htonl (sd_request_hi h)) (htonl (sd_request_lo h)) (htonl (sd_status h)) (htonl (sd_message_bytes h)).

Definition dist_snapshot_done_from_wire (h : ds4_dist_snapshot_done_fixed) : ds4_dist_snapshot_done_fixed :=
  SnapshotDone
    (ntohl (sd_request_hi h)) (ntohl (sd_request_lo h)) (ntohl (sd_status h)) (ntohl (sd_message_bytes h)).

#[export] Program Instance snapshot_done_wire : Wire ds4_dist_snapshot_done_fixed := {|
  wire_words := 4;
  words h :=
    [sd_request_hi h; sd_request_lo h; sd_status h; sd_message_bytes h];
  of_words l := match l with [a0; a1; a2; a3] => SnapshotDone a0 a1 a2 a3 | _ => SnapshotDone 0 0 0 0 end;
  to_wire := dist_snapshot_done_to_wire;
  from_wire := dist_snapshot_done_from_wire |}.
Solve All Obligations with wire_laws.

(** ** Sockets and frames *)

(** The bytes a socket still delivers, and what the read behind them returns:
    0 (closed by the peer) or -1. *)
Record stream := Stream { st_in : bytes; st_end : Z }.

Definition dist_read_full (s : stream) (len : Z) : Z * bytes * stream :=
  if len <=? zlen (st_in s) then (1, take (Z.to_nat len) (st_in s), Stream (drop (Z.to_nat len) (st_in s)) (st_end s))
  else (st_end s, st_in s, Stream [] (st_end s)).

Fixpoint dist_discard_bytes (fuel : nat) (s : stream) (bytes : Z) : Z * stream :=
  match fuel with
  | O => (1, s)
  | S fuel' =>
      if bytes <=? 0 then (1, s)
      else
        let n := if bytes <? 4096 then bytes else 4096 in
        let '(rc, _, s) := dist_read_full s n in
        if rc <=? 0 then ((if rc =? 0 then 0 else -1), s) else dist_discard_bytes fuel' s (bytes - n)
  end.

Definition discard (s : stream) (bytes : Z) : Z * stream := dist_discard_bytes (S (Z.to_nat bytes)) s bytes.

Definition dist_write_frame_header (type bytes : Z) : Prelude.bytes := wire_image (Frame DS4_DIST_MAGIC type bytes).

(** The type and size of the frame, or the code of the failure. *)
Definition dist_read_frame_header (s : stream) : (Z + Z * Z) * stream :=
  let '(rc, b, s) := dist_read_full s (wire_size ds4_dist_frame_header) in
  if rc <=? 0 then (inl rc, s)
  else
    let h := wire_parse b : ds4_dist_frame_header in
    if negb (fr_magic h =? DS4_DIST_MAGIC) then (inl (-1), s) else (inr (fr_type h, fr_bytes h), s).

Definition dist_bytes_have_nul (p : bytes) (len : Z) : bool := negb (len =? 0) && existsb (Z.eqb 0) (take (Z.to_nat len) p).

Definition dist_u64_from_halves (hi lo : Z) : Z := Z.lor (Z.shiftl hi 32) lo.
Definition dist_u64_to_halves (v : Z) : Z * Z := (u32 (Z.shiftr v 32), u32 v).

(** ** Greeting *)

(** [has_output] and [layer_end] are those of the worker's options. *)
Definition dist_send_hello (model_id quant_bits layer_start layer_end : Z) (has_output : bool) (ctx_size n_layers listen_port : Z)
  (model_name : bytes) : bytes :=
  let model_name_len := if DS4_DIST_MAX_MODEL_NAME <? zlen model_name then DS4_DIST_MAX_MODEL_NAME else zlen model_name in
  let h := Hello (u32 model_id) (u32 quant_bits) layer_start layer_end (if has_output then 1 else 0) 1
             (if 0 <? ctx_size then ctx_size else 0) n_layers listen_port model_name_len in
  dist_write_frame_header DS4_DIST_MSG_HELLO (wire_size ds4_dist_hello_fixed + model_name_len) ++
  wire_image h ++ take (Z.to_nat model_name_len) model_name.

Definition dist_recv_hello (s : stream) : (Z + ds4_dist_hello_fixed * bytes) * stream :=
  match dist_read_frame_header s with
  | (inl rc, s) => (inl rc, s)
  | (inr (type, bytes), s) =>
    if negb (type =? DS4_DIST_MSG_HELLO) then (inl (-1), snd (discard s bytes))
    else if (bytes <? wire_size ds4_dist_hello_fixed) || (wire_size ds4_dist_hello_fixed + DS4_DIST_MAX_MODEL_NAME <? bytes) then
      (inl (-1), snd (discard s bytes))
    else
      let '(rc, b, s) := dist_read_full s (wire_size ds4_dist_hello_fixed) in
      if rc <=? 0 then (inl (if rc =? 0 then 0 else -1), s)
      else
        let wire := wire_parse b : ds4_dist_hello_fixed in
        let remaining := bytes - wire_size ds4_dist_hello_fixed in
        if negb (he_model_name_len wire =? remaining) || (DS4_DIST_MAX_MODEL_NAME <? he_model_name_len wire) then
          (inl (-1), snd (discard s remaining))
        else if he_model_name_len wire =? 0 then (inr (wire, []), s)
        else
          let '(rc, tmp, s) := dist_read_full s (he_model_name_len wire) in
          if rc <=? 0 then (inl (if rc =? 0 then 0 else -1), s)
          else if dist_bytes_have_nul tmp (he_model_name_len wire) then (inl (-1), s)
          else (inr (wire, tmp), s)
  end.

(** ** Token hashes *)

Definition DS4_DIST_TOKEN_HASH_INIT : Z := 1469598103934665603.
Definition DS4_DIST_TOKEN_HASH_PRIME : Z := 1099511628211.

Definition dist_token_hash_update (h token : Z) : Z :=
  foldl (fun h i => u64 (Z.lxor h (Z.land (Z.shiftr (u32 token) (i * 8)) 0xff) * DS4_DIST_TOKEN_HASH_PRIME)) h [0; 1; 2; 3].

Definition dist_token_hash_update_span (h : Z) (tokens : list Z) : Z := foldl dist_token_hash_update h tokens.

Definition dist_token_hash_prefix (tokens : list Z) : Z := dist_token_hash_update_span DS4_DIST_TOKEN_HASH_INIT tokens.

(** ** Activations *)

Definition dist_activation_bits_or_default (bits : Z) : Z := if bits =? 0 then DS4_DIST_ACTIVATION_BITS_DEFAULT else bits.

Definition dist_activation_bits_valid (bits : Z) : bool :=
  let bits := dist_activation_bits_or_default bits in (bits =? 32) || (bits =? 16) || (bits =? 8).

Definition dist_activation_wire_bytes (bits values : Z) : option Z :=
  let bits := dist_activation_bits_or_default bits in
  if negb (dist_activation_bits_valid bits) || negb (bits mod 8 =? 0) then None
  else let bytes := u64 (values * (bits / 8)) in if U32_MAX <? bytes then None else Some bytes.

Definition dist_activation_values_from_wire_bytes (bits bytes : Z) : option Z :=
  let bits := dist_activation_bits_or_default bits in
  if negb (dist_activation_bits_valid bits) || negb (bits mod 8 =? 0) then None
  else
    let bytes_per_value := bits / 8 in
    if (bytes_per_value =? 0) || negb (bytes mod bytes_per_value =? 0) then None else Some (bytes / bytes_per_value).

Definition dist_activation_wire_bytes_from_f32_bytes (bits f32_bytes : Z) : option Z :=
  if negb (f32_bytes mod 4 =? 0) then None else dist_activation_wire_bytes bits (f32_bytes / 4).

(** [dist_f32_to_f16] is the text of [f32_to_f16]. *)
Definition dist_f32_to_f16 (bits : Z) : Z :=
  let sign := Z.land (Z.shiftr bits 16) 0x8000 in
  let exp := Z.land (Z.shiftr bits 23) 0xff - 127 + 15 in
  let mant := Z.land bits 0x7fffff in
  if exp <=? 0 then
    if exp <? -10 then sign
    else
      let mant := Z.lor mant 0x800000 in
      let shift := 14 - exp in
      let half_mant := Z.shiftr mant shift in
      let round_bit := Z.land (Z.shiftr mant (shift - 1)) 1 in
      let sticky := Z.land mant (Z.shiftl 1 (shift - 1) - 1) in
      let half_mant := if negb (round_bit =? 0) && (negb (sticky =? 0) || negb (Z.land half_mant 1 =? 0)) then half_mant + 1 else half_mant in
      u16 (Z.lor sign half_mant)
  else if 31 <=? exp then
    if (Z.land (Z.shiftr bits 23) 0xff =? 0xff) && negb (mant =? 0) then Z.lor sign 0x7e00 else Z.lor sign 0x7c00
  else
    let half := Z.lor sign (Z.lor (Z.shiftl exp 10) (Z.shiftr mant 13)) in
    let round := Z.land mant 0x1fff in
    let half := if (0x1000 <? round) || ((round =? 0x1000) && negb (Z.land half 1 =? 0)) then half + 1 else half in
    u16 half.

(** Here the exponent is a signed [int]. *)
Fixpoint dist_normalize (fuel : nat) (exp mant : Z) : Z * Z :=
  match fuel with
  | O => (exp, mant)
  | S fuel' => if Z.land mant 0x0400 =? 0 then dist_normalize fuel' (exp - 1) (u32 (Z.shiftl mant 1)) else (exp, mant)
  end.

Definition dist_f16_to_f32 (h : Z) : Z :=
  let sign := Z.shiftl (Z.land h 0x8000) 16 in
  let exp := Z.land (Z.shiftr h 10) 0x1f in
  let mant := Z.land h 0x03ff in
  if exp =? 0 then
    if mant =? 0 then sign
    else
      let '(exp, mant) := dist_normalize 10 1 mant in
      let mant := Z.land mant 0x03ff in
      Z.lor sign (Z.lor (u32 (Z.shiftl (u32 (exp + 127 - 15)) 23)) (Z.shiftl mant 13))
  else if exp =? 31 then Z.lor sign (Z.lor 0x7f800000 (Z.shiftl mant 13))
  else Z.lor sign (Z.lor (u32 (Z.shiftl (u32 (exp + 127 - 15)) 23)) (Z.shiftl mant 13)).

(** The pattern of a binary32 value. *)
Definition bits_of_f32 (f : spec_float) : Z :=
  let sign (s : bool) := if s then 0x80000000 else 0 in
  match f with
  | S754_zero s => sign s
  | S754_infinity s => sign s + 0x7f800000
  | S754_nan => 0x7fc00000
  | S754_finite s m e => sign s + (if Zpos m <? 2 ^ 23 then Zpos m else (e + 150) * 2 ^ 23 + (Zpos m - 2 ^ 23))
  end.

(** [(int)floorf(f)] of a finite value. *)
Definition floor_int (f : spec_float) : Z :=
  match f with
  | S754_finite s m e => let m := if s then Zneg m else Zpos m in if 0 <=? e then m * 2 ^ e else m / 2 ^ (- e)
  | _ => 0
  end.

(** The exponent [frexpf] gives, and [ldexpf]. *)
Definition frexp_exp (f : spec_float) : Z := match f with S754_finite _ m e => e + Zpos (digits2_pos m) | _ => 0 end.
Definition ldexpf (f : spec_float) (k : Z) : spec_float :=
  match f with S754_finite s m e => binary_normalize 24 128 (if s then Zneg m else Zpos m) (e + k) s | _ => f end.

Definition f32_ratio (p q : Z) : spec_float := F32.div (F32.of_Z p) (F32.of_Z q).

(** [a < b]. *)
Definition flt (a b : spec_float) : bool := SFltb a b.

Definition dist_f32_to_f8_e4m3 (bits : Z) : Z :=
  let sign := if Z.testbit bits 31 then 0x80 else 0 in
  let a := SFabs (f32_of_bits bits) in
  let small :=
    let mant := floor_int (F32.add (F32.mul a (F32.of_Z 512)) (f32_ratio 1 2)) in
    if mant <=? 0 then sign else Z.lor sign (if 7 <? mant then 7 else mant) in
  if SFeqb a (F32.of_Z 0) then sign
  else if negb (isfinite a) || fle (F32.of_Z 240) a then Z.lor sign 0x77
  else if flt a (f32_ratio 1 512) then small
  else
    let exp2 := frexp_exp a in
    let exp := exp2 - 1 + 7 in
    if exp <=? 0 then small
    else
      let base := ldexpf (F32.of_Z 1) (exp2 - 1) in
      let mant := floor_int (F32.add (F32.mul (F32.sub (F32.div a base) (F32.of_Z 1)) (F32.of_Z 8)) (f32_ratio 1 2)) in
      let '(mant, exp) := if 8 <=? mant then (0, exp + 1) else (mant, exp) in
      if 15 <=? exp then Z.lor sign 0x77 else Z.lor (Z.lor sign (u8 (Z.shiftl exp 3))) mant.

Definition dist_f8_e4m3_to_f32 (h : Z) : Z :=
  let sign := if negb (Z.land h 0x80 =? 0) then F32.of_Z (-1) else F32.of_Z 1 in
  let exp := Z.land (Z.shiftr h 3) 0x0f in
  let mant := Z.land h 0x07 in
  bits_of_f32
    (if exp =? 0 then F32.mul (F32.mul sign (F32.of_Z mant)) (f32_ratio 1 512)
     else if 15 <=? exp then F32.mul sign (F32.of_Z 240)
     else F32.mul sign (ldexpf (F32.add (F32.of_Z 1) (F32.div (F32.of_Z mant) (F32.of_Z 8))) (exp - 7))).

Example f8_max : dist_f8_e4m3_to_f32 0x77 = 0x43700000. Proof. reflexivity. Qed.
Example f8_of_one : dist_f32_to_f8_e4m3 0x3f800000 = 0x38. Proof. reflexivity. Qed.
Example f8_of_minus_third : dist_f32_to_f8_e4m3 0xbeaaaaab = 0xab. Proof. reflexivity. Qed.
Example f8_of_tiny : dist_f32_to_f8_e4m3 0x00000001 = 0. Proof. reflexivity. Qed.

(** The loop over chunks of at most [cap] values. *)
Fixpoint activation_chunks (fuel : nat) (cap values done : Z) (bits : Z) (src : list Z) : bytes :=
  match fuel with
  | O => []
  | S fuel' =>
      if done <? values then
        let n := if cap <? values - done then cap else values - done in
        let chunk := take (Z.to_nat n) (drop (Z.to_nat done) src) in
        (if bits =? 16 then chunk ≫= (fun v => le_bytes 2 (dist_f32_to_f16 v)) else map dist_f32_to_f8_e4m3 chunk) ++
        activation_chunks fuel' cap values (done + n) bits src
      else []
  end.

(** [None]: -1. *)
Definition dist_write_activation_payload (src : list Z) (values bits : Z) : option bytes :=
  let bits := dist_activation_bits_or_default bits in
  if negb (dist_activation_bits_valid bits) then None
  else if values =? 0 then Some []
  else if bits =? 32 then
    match dist_activation_wire_bytes bits values with
    | None => None
    | Some n => Some (take (Z.to_nat n) (image src))
    end
  else
    let cap := if values <? 1048576 then values else 1048576 in
    Some (activation_chunks (Z.to_nat values) cap values 0 bits src).

Fixpoint le_halves (n : nat) (b : bytes) : list Z :=
  match n with O => [] | S n' => le_val (take 2 b) :: le_halves n' (drop 2 b) end.

(** The floats, or the message of the failure. *)
Definition dist_decode_activation_payload (wire : bytes) (bits wire_bytes : Z) : bytes + list Z :=
  let bits := dist_activation_bits_or_default bits in
  if negb (dist_activation_bits_valid bits) then inl (bs "invalid distributed activation width: " ++ dec_digits 20 bits ++ bs " bits")
  else
    match dist_activation_values_from_wire_bytes bits wire_bytes with
    | None => inl (bs "invalid distributed activation payload size")
    | Some values =>
        if U32_MAX <? u64 (values * 4) then inl (bs "distributed activation payload is too large")
        else if bits =? 32 then inr (le_words (Z.to_nat values) wire)
        else if bits =? 16 then inr (map dist_f16_to_f32 (le_halves (Z.to_nat values) wire))
        else inr (map dist_f8_e4m3_to_f32 (take (Z.to_nat values) wire))
    end.

(** ** Work and result frames *)

Definition dist_send_work_frame (work : ds4_dist_work_fixed) (tokens input_hc : list Z) (route_blob : bytes) : option bytes :=
  if wk_n_tokens work =? 0 then None
  else
    let token_bytes := wk_n_tokens work * 4 in
    if (U32_MAX <? token_bytes) || negb (wk_token_bytes work =? u32 token_bytes) then None
    else
      match (if negb (wk_input_hc_bytes work =? 0) then dist_activation_values_from_wire_bytes (wk_input_hc_bits work) (wk_input_hc_bytes work) else Some 0) with
      | None => None
      | Some input_hc_values =>
          let frame_bytes := wire_size ds4_dist_work_fixed + wk_token_bytes work + wk_input_hc_bytes work + wk_route_bytes work in
          if U32_MAX <? frame_bytes then None
          else
            match (if negb (wk_input_hc_bytes work =? 0) then dist_write_activation_payload input_hc input_hc_values (wk_input_hc_bits work) else Some []) with
            | None => None
            | Some hc =>
                Some (dist_write_frame_header DS4_DIST_MSG_WORK (u32 frame_bytes) ++ wire_image work ++
                      image (map (fun t => htonl (u32 t)) (take (Z.to_nat (wk_n_tokens work)) tokens)) ++ hc ++
                      take (Z.to_nat (wk_route_bytes work)) route_blob)
            end
      end.

(** [payload] is the memory at [payload], all of it. *)
Definition dist_send_work_result (request_id result_hash status result_kind payload_bits : Z) (telemetry : list ds4_dist_telemetry_fixed)
  (payload : bytes) : option bytes :=
  let payload_bytes := zlen payload in
  let hidden := (status =? 0) && (result_kind =? DS4_DIST_RESULT_HIDDEN_STATE) in
  let bits := if hidden then dist_activation_bits_or_default payload_bits
              else if (status =? 0) && (result_kind =? DS4_DIST_RESULT_LOGITS) then 32 else 0 in
  let hidden_values := payload_bytes / 4 in
  match (if hidden then
           if negb (dist_activation_bits_valid bits) || negb (payload_bytes mod 4 =? 0) then None else dist_activation_wire_bytes bits hidden_values
         else Some payload_bytes) with
  | None => None
  | Some wire_payload_bytes =>
      let telemetry_bytes := zlen telemetry * wire_size ds4_dist_telemetry_fixed in
      if U32_MAX <? telemetry_bytes then None
      else
        let frame_bytes := wire_size ds4_dist_result_fixed + telemetry_bytes + wire_payload_bytes in
        if U32_MAX <? frame_bytes then None
        else
          let '(request_hi, request_lo) := dist_u64_to_halves request_id in
          let '(hash_hi, hash_lo) := dist_u64_to_halves (if status =? 0 then result_hash else 0) in
          let r := ResultFixed request_hi request_lo hash_hi hash_lo status result_kind (zlen telemetry) telemetry_bytes wire_payload_bytes bits in
          match (if hidden && negb (wire_payload_bytes =? 0) then
                   dist_write_activation_payload (le_words (Z.to_nat hidden_values) payload) hidden_values bits
                 else Some payload) with
          | None => None
          | Some body =>
              Some (dist_write_frame_header DS4_DIST_MSG_RESULT (u32 frame_bytes) ++ wire_image r ++ (telemetry ≫= wire_image) ++ body)
          end
  end.

Definition dist_send_work_error (request_id : Z) (msg : bytes) : option bytes :=
  let len := if U32_MAX <? zlen msg then U32_MAX else zlen msg in
  dist_send_work_result request_id 0 1 0 0 [] (take (Z.to_nat len) msg).

(** The metadata every reader of a result checks: the parts fill the frame. *)
Definition result_sizes_ok (r : ds4_dist_result_fixed) (body_bytes : Z) : bool :=
  (re_telemetry_bytes r mod wire_size ds4_dist_telemetry_fixed =? 0) &&
  (re_telemetry_count r =? re_telemetry_bytes r / wire_size ds4_dist_telemetry_fixed) &&
  (re_telemetry_bytes r <=? body_bytes) && (re_payload_bytes r =? u32 (body_bytes - re_telemetry_bytes r)).

(** Nothing is read when there is nothing to read. *)
Definition skip_telemetry (s : stream) (bytes : Z) : Z * stream := if bytes =? 0 then (1, s) else discard s bytes.
Definition read_payload (s : stream) (bytes : Z) : Z * Prelude.bytes * stream := if bytes =? 0 then (1, [], s) else dist_read_full s bytes.

(** The result, or the code of the failure: a broken transport, whose message is
    left out, or an error the remote side reports with its message. *)
Definition dist_recv_result_alloc (s : stream) (request_id : Z) : (Z * bytes + Z * Z * bytes) * stream :=
  match dist_read_frame_header s with
  | (inl _, s) => (inl (DS4_DIST_RECV_TRANSPORT_ERROR, []), s)
  | (inr (type, bytes), s) =>
    if negb (type =? DS4_DIST_MSG_RESULT) || (bytes <? wire_size ds4_dist_result_fixed) then
      (inl (DS4_DIST_RECV_TRANSPORT_ERROR, []), snd (discard s bytes))
    else
      let '(rc, b, s) := dist_read_full s (wire_size ds4_dist_result_fixed) in
      if rc <=? 0 then (inl (DS4_DIST_RECV_TRANSPORT_ERROR, []), s)
      else
        let result := wire_parse b : ds4_dist_result_fixed in
        let got_request := dist_u64_from_halves (re_request_hi result) (re_request_lo result) in
        let got_hash := dist_u64_from_halves (re_result_hash_hi result) (re_result_hash_lo result) in
        let body_bytes := bytes - wire_size ds4_dist_result_fixed in
        if negb (result_sizes_ok result body_bytes) then
          (inl (DS4_DIST_RECV_TRANSPORT_ERROR, []), snd (discard s body_bytes))
        else if negb (got_request =? request_id) then (inl (DS4_DIST_RECV_TRANSPORT_ERROR, []), snd (discard s body_bytes))
        else
          let '(rc, s) := skip_telemetry s (re_telemetry_bytes result) in
          if rc <=? 0 then (inl (DS4_DIST_RECV_TRANSPORT_ERROR, []), s)
          else
            let '(rc, buf, s) := read_payload s (re_payload_bytes result) in
            if rc <=? 0 then (inl (DS4_DIST_RECV_TRANSPORT_ERROR, []), s)
            else if negb (re_status result =? 0) then
              (inl (DS4_DIST_RECV_REMOTE_ERROR, if re_payload_bytes result =? 0 then bs "distributed worker returned an error" else buf), s)
            else if (re_result_kind result =? DS4_DIST_RESULT_HIDDEN_STATE) && negb (re_payload_bytes result =? 0) then
              match dist_decode_activation_payload buf (re_payload_bits result) (re_payload_bytes result) with
              | inl _ => (inl (DS4_DIST_RECV_TRANSPORT_ERROR, []), s)
              | inr floats => (inr (re_result_kind result, got_hash, image floats), s)
              end
            else (inr (re_result_kind result, got_hash, buf), s)
  end.

(** ** Words *)

Lemma rev_bytes_ok n x : bytes_ok (rev (le_bytes n x)).
Proof. apply Forall_rev, le_bytes_ok. Qed.

Lemma htonl_u32 x : is_u32 (htonl x).
Proof.
  unfold htonl. pose proof (le_val_range _ (rev_bytes_ok 4 x)) as H. unfold zlen in H. rewrite length_rev, le_bytes_length in H.
  change (2 ^ (8 * Z.of_nat 4)) with 4294967296 in H. unfold is_u32, U32_MAX. lia.
Qed.

(** The swap undoes itself. *)
Lemma ntohl_htonl x : is_u32 x -> ntohl (htonl x) = x.
Proof.
  intros Hx. unfold ntohl, htonl. pose proof (le_bytes_le_val _ (rev_bytes_ok 4 x)) as H. rewrite length_rev, le_bytes_length in H.
  rewrite H, rev_involutive. by apply le_val_bytes4.
Qed.

Lemma image_cons w ws : image (w :: ws) = le_bytes 4 w ++ image ws.
Proof. reflexivity. Qed.

Lemma zlen_image ws : zlen (image ws) = 4 * zlen ws.
Proof. induction ws as [|w ws IH]; [done|]. rewrite image_cons, zlen_app, IH. unfold zlen. rewrite le_bytes_length. cbn [length]. lia. Qed.

Lemma image_ok ws : bytes_ok (image ws).
Proof. induction ws as [|w ws IH]; [constructor|]. apply Forall_app. split; [apply le_bytes_ok | exact IH]. Qed.

Lemma le_words_length n b : length (le_words n b) = n.
Proof. revert b. induction n; intros b; cbn; by f_equal. Qed.

Lemma le_words_app ws rest : Forall is_u32 ws -> le_words (length ws) (image ws ++ rest) = ws.
Proof.
  induction 1 as [|w ws Hw Hws IH]; [done|]. cbn [length le_words]. rewrite image_cons, <- (assoc_L (++)).
  rewrite take_app_length', drop_app_length' by by rewrite le_bytes_length. rewrite IH. by rewrite le_val_bytes4.
Qed.

Lemma le_words_image ws n : Forall is_u32 ws -> length ws = n -> le_words n (image ws) = ws.
Proof. intros H <-. rewrite <- (app_nil_r (image ws)). by apply le_words_app. Qed.

(** The words of received bytes are 32 bits wide, and make the bytes again. *)
Lemma le_words_u32 n b : bytes_ok b -> Forall is_u32 (le_words n b).
Proof.
  revert b. induction n as [|n IH]; intros b Hb; cbn [le_words]; constructor.
  - pose proof (le_val_range (take 4 b) ltac:(by apply Forall_take)) as H.
    assert (H4 : zlen (take 4 b) <= 4) by (unfold zlen; rewrite length_take; lia).
    assert (2 ^ (8 * zlen (take 4 b)) <= 2 ^ 32) by (apply Z.pow_le_mono_r; lia). change (2 ^ 32) with 4294967296 in *. unfold is_u32, U32_MAX. lia.
  - apply IH. by apply Forall_drop.
Qed.

Lemma image_le_words n b : bytes_ok b -> length b = (4 * n)%nat -> image (le_words n b) = b.
Proof.
  revert b. induction n as [|n IH]; intros b Hb Hl; [by destruct b|]. cbn [le_words]. rewrite image_cons.
  rewrite IH by (try apply Forall_drop; try rewrite length_drop; done || lia).
  assert (H4 : length (take 4 b) = 4%nat) by (rewrite length_take; lia). rewrite <- H4 at 1. rewrite le_bytes_le_val by by apply Forall_take.
  apply take_drop.
Qed.

Section Records.
Context {A : Type} `{Wire A}.

Definition record_ok (a : A) : Prop := Forall is_u32 (words a).

Lemma wire_size_image (a : A) : zlen (wire_image a) = wire_size A.
Proof. unfold wire_image, wire_size. rewrite zlen_image. unfold zlen. by rewrite words_length. Qed.

Lemma wire_image_ok (a : A) : bytes_ok (wire_image a).
Proof. apply image_ok. Qed.

Lemma from_to_wire (a : A) : record_ok a -> from_wire (to_wire a) = a.
Proof.
  intros Ha. rewrite <- (of_words_words (from_wire (to_wire a))), words_from_wire, words_to_wire, map_map.
  rewrite <- (of_words_words a) at 2. f_equal. unfold record_ok in Ha. induction Ha as [|w ws Hw Hws IH]; [done|]. cbn [map]. rewrite IH. by rewrite ntohl_htonl.
Qed.

(** Every record is read back as it was sent. *)
Lemma wire_roundtrip (a : A) : record_ok a -> wire_parse (wire_image a) = a.
Proof.
  intros Ha. unfold wire_parse, wire_image. rewrite le_words_image.
  - rewrite of_words_words. by apply from_to_wire.
  - rewrite words_to_wire. apply Forall_map, Forall_true. intros x. apply htonl_u32.
  - apply words_length.
Qed.

Lemma wire_parse_ok (b : bytes) : bytes_ok b -> record_ok (wire_parse b).
Proof.
  intros Hb. unfold record_ok, wire_parse. rewrite words_from_wire. apply Forall_map, Forall_true. intros x. apply htonl_u32.
Qed.

(** And the bytes received are those the record read from them would be sent as. *)
Lemma wire_image_parse (b : bytes) : bytes_ok b -> zlen b = wire_size A -> wire_image (wire_parse b : A) = b.
Proof.
  intros Hb Hl. unfold wire_size, zlen in Hl. unfold wire_image, wire_parse. rewrite words_to_wire, words_from_wire, words_of_words, map_map by apply le_words_length.
  rewrite <- (image_le_words wire_words b) at 2 by (done || lia). f_equal. pose proof (le_words_u32 wire_words b Hb) as Hw.
  induction Hw as [|w ws Hw _ IH]; [done|]. cbn [map]. rewrite IH. by rewrite (ntohl_htonl w Hw : htonl (ntohl w) = w).
Qed.
End Records.

(** The fields of a record in range, one goal each. *)
Ltac words_ok := unfold record_ok; cbn; repeat apply Forall_cons_2; try apply Forall_nil; try done.

(** ** Sockets *)

Lemma read_full_app a rest e : dist_read_full (Stream (a ++ rest) e) (zlen a) = (1, a, Stream rest e).
Proof.
  unfold dist_read_full. cbn [st_in st_end]. rewrite (proj2 (Z.leb_le _ _)) by (rewrite zlen_app; pose proof (zlen_nonneg rest); lia).
  unfold zlen. rewrite Nat2Z.id. by rewrite take_app_length, drop_app_length.
Qed.

Lemma read_full_exact a rest e n : zlen a = n -> dist_read_full (Stream (a ++ rest) e) n = (1, a, Stream rest e).
Proof. intros <-. apply read_full_app. Qed.

(** What a read gives: the bytes asked for, or the end. *)
Lemma read_full_spec s n rc b s' : 0 <= n -> st_end s <= 0 -> dist_read_full s n = (rc, b, s') ->
  st_in s = b ++ st_in s' /\ st_end s' = st_end s /\ (rc = 1 /\ zlen b = n \/ rc = st_end s /\ st_in s' = [] /\ zlen b < n).
Proof.
  unfold dist_read_full. intros Hn He. destruct (Z.leb_spec n (zlen (st_in s))) as [Hl|Hl]; intros [= <- <- <-]; cbn [st_in st_end].
  - rewrite take_drop. split_and!; try done. left. split; [done|]. unfold zlen in *. rewrite length_take. lia.
  - rewrite app_nil_r. split_and!; try done. right. done.
Qed.

Lemma discard_loop_app fuel a rest e : (length a < fuel)%nat -> dist_discard_bytes fuel (Stream (a ++ rest) e) (zlen a) = (1, Stream rest e).
Proof.
  revert a. induction fuel as [|fuel IH]; intros a Hf; [lia|]. cbn [dist_discard_bytes].
  destruct (Z.leb_spec (zlen a) 0) as [H0|H0]; [destruct a; [done|unfold zlen in H0; cbn [length] in H0; lia]|].
  set (n := if zlen a <? 4096 then zlen a else 4096). assert (Hn : 0 < n <= zlen a) by (unfold n; destruct (Z.ltb_spec (zlen a) 4096); lia).
  rewrite <- (take_drop (Z.to_nat n) a) at 1. rewrite <- (assoc_L (++)).
  rewrite read_full_exact by (unfold zlen in *; rewrite length_take; lia). cbn [Z.leb Z.compare].
  replace (zlen a - n) with (zlen (drop (Z.to_nat n) a)) by (unfold zlen in *; rewrite length_drop; lia).
  apply IH. rewrite length_drop. unfold zlen in *. lia.
Qed.

Lemma discard_app a rest e n : zlen a = n -> discard (Stream (a ++ rest) e) n = (1, Stream rest e).
Proof. intros <-. apply discard_loop_app. unfold zlen. rewrite Nat2Z.id. lia. Qed.

Lemma frame_header_roundtrip type bytes rest e : is_u32 type -> is_u32 bytes ->
  dist_read_frame_header (Stream (dist_write_frame_header type bytes ++ rest) e) = (inr (type, bytes), Stream rest e).
Proof.
  intros Ht Hb. unfold dist_read_frame_header, dist_write_frame_header. rewrite read_full_exact by apply wire_size_image. cbn [Z.leb Z.compare].
  rewrite wire_roundtrip by words_ok. reflexivity.
Qed.

Lemma halves_roundtrip v : is_u64 v -> dist_u64_from_halves (fst (dist_u64_to_halves v)) (snd (dist_u64_to_halves v)) = v.
Proof.
  intros Hv. unfold dist_u64_from_halves, dist_u64_to_halves. cbn [fst snd]. unfold is_u64, U64_MAX in Hv.
  pose proof (u32_range v) as Hl. unfold is_u32, U32_MAX in Hl. rewrite Z.lor_comm, lor_shiftl_add by lia. rewrite Z.shiftr_div_pow2 by lia.
  unfold u32. change (2 ^ 32) with 4294967296. rewrite (Z.mod_small (v / _)) by zdiv. zdiv.
Qed.

Lemma halves_u32 v : is_u32 (fst (dist_u64_to_halves v)) /\ is_u32 (snd (dist_u64_to_halves v)).
Proof. split; apply u32_range. Qed.

Lemma from_halves_u64 hi lo : is_u32 hi -> is_u32 lo -> is_u64 (dist_u64_from_halves hi lo).
Proof.
  unfold dist_u64_from_halves, is_u32, is_u64, U32_MAX, U64_MAX. intros Hh Hl. rewrite Z.lor_comm, lor_shiftl_add by lia. lia.
Qed.

(** ** Greeting *)

Lemma hello_loop (h : ds4_dist_hello_fixed) name rest e : record_ok h -> he_model_name_len h = zlen name -> zlen name <= DS4_DIST_MAX_MODEL_NAME -> 0 ∉ name ->
  dist_recv_hello (Stream ((dist_write_frame_header DS4_DIST_MSG_HELLO (wire_size ds4_dist_hello_fixed + zlen name) ++ wire_image h ++ name) ++ rest) e) =
  (inr (h, name), Stream rest e).
Proof.
  intros Hh Hlen Hmax Hnul. pose proof (zlen_nonneg name) as H0. unfold DS4_DIST_MAX_MODEL_NAME in Hmax. unfold dist_recv_hello. rewrite <- !(assoc_L (++)).
  rewrite frame_header_roundtrip by (unfold is_u32, U32_MAX; change (wire_size ds4_dist_hello_fixed) with 40; unfold DS4_DIST_MSG_HELLO; lia).
  change (negb (DS4_DIST_MSG_HELLO =? DS4_DIST_MSG_HELLO)) with false. cbv iota.
  rewrite (proj2 (Z.ltb_ge _ (wire_size _))) by lia. rewrite (proj2 (Z.ltb_ge _ (_ + _))) by (unfold DS4_DIST_MAX_MODEL_NAME; lia). cbn [orb].
  rewrite read_full_exact by apply wire_size_image. cbn [Z.leb Z.compare]. rewrite wire_roundtrip by done.
  replace (wire_size ds4_dist_hello_fixed + zlen name - wire_size ds4_dist_hello_fixed) with (zlen name) by lia.
  rewrite Hlen, Z.eqb_refl, (proj2 (Z.ltb_ge _ _)) by (unfold DS4_DIST_MAX_MODEL_NAME; lia). cbn [negb orb].
  destruct (Z.eqb_spec (zlen name) 0) as [Hz|Hz]; [by destruct name|]. rewrite read_full_exact by done. cbn [Z.leb Z.compare].
  replace (dist_bytes_have_nul name (zlen name)) with false; [done|]. unfold dist_bytes_have_nul. rewrite (proj2 (Z.eqb_neq _ _)) by done. cbn [negb andb].
  unfold zlen. rewrite Nat2Z.id, firstn_all. symmetry. apply not_true_iff_false. rewrite existsb_exists. intros (x & Hx & Heq). apply Z.eqb_eq in Heq. subst x.
  apply Hnul. by apply list_elem_of_In.
Qed.

(** ** Activations *)

Lemma dist_f32_to_f16_eq bits : dist_f32_to_f16 bits = f32_to_f16 bits.
Proof. reflexivity. Qed.

Lemma dist_normalize_eq fuel e m : normalize fuel (u32 e) m = (u32 (fst (dist_normalize fuel e m)), snd (dist_normalize fuel e m)).
Proof.
  revert e m. induction fuel as [|fuel IH]; intros e m; [done|]. cbn [normalize dist_normalize]. destruct (_ =? 0); [|done].
  rewrite <- IH. f_equal. unfold u32. by rewrite Zminus_mod_idemp_l.
Qed.

(** The two conversions agree though one keeps its exponent signed. *)
Lemma dist_f16_to_f32_eq h : dist_f16_to_f32 h = f16_to_f32 h.
Proof.
  unfold dist_f16_to_f32, f16_to_f32. set (exp := Z.land (Z.shiftr h 10) 0x1f).
  assert (He : 0 <= exp < 32) by (unfold exp; change 0x1f with (Z.ones 5); rewrite Z.land_ones by lia; apply Z.mod_pos_bound; done).
  destruct (Z.eqb_spec exp 0) as [H0|H0].
  - destruct (_ =? 0); [done|]. rewrite (dist_normalize_eq 10 1 (Z.land h 0x03ff) : normalize 10 1 (Z.land h 0x03ff) = _). destruct (dist_normalize 10 1 _) as [e m]. cbn [fst snd].
    assert (Hu : u32 (u32 e + 127 - 15) = u32 (e + 127 - 15)); [|by rewrite Hu].
    unfold u32. replace (e mod 4294967296 + 127 - 15) with (e mod 4294967296 + 112) by lia. rewrite Zplus_mod_idemp_l. f_equal. lia.
  - destruct (Z.eqb_spec exp 31); [done|]. do 2 f_equal. rewrite (u32_small (exp + 127 - 15)) by (unfold is_u32, U32_MAX; lia).
    apply u32_small. rewrite Z.shiftl_mul_pow2 by lia. unfold is_u32, U32_MAX. lia.
Qed.

(** What a value is after its way over the wire. *)
Definition transported (bits v : Z) : Z :=
  let bits := dist_activation_bits_or_default bits in
  if bits =? 32 then v else if bits =? 16 then f16_round v else dist_f8_e4m3_to_f32 (dist_f32_to_f8_e4m3 v).

(** The bytes of a row of values. *)
Definition packed (bits : Z) (src : list Z) : bytes :=
  if bits =? 32 then image src else if bits =? 16 then src ≫= (fun v => le_bytes 2 (dist_f32_to_f16 v)) else map dist_f32_to_f8_e4m3 src.

Lemma packed_app bits a b : packed bits (a ++ b) = packed bits a ++ packed bits b.
Proof. unfold packed, image. repeat case_if; [apply bind_app | apply bind_app | apply map_app]. Qed.

Lemma zlen_packed bits src : bits = 32 \/ bits = 16 \/ bits = 8 -> zlen (packed bits src) = zlen src * (bits / 8).
Proof.
  intros [-> | [-> | ->]]; unfold packed; cbn [Z.eqb Pos.eqb].
  - rewrite zlen_image. change (32 / 8) with 4. lia.
  - change (16 / 8) with 2. induction src as [|v src IH]; [done|]. rewrite bind_cons, zlen_app, IH. unfold zlen. rewrite le_bytes_length. cbn [length]. lia.
  - unfold zlen. rewrite length_map. change (8 / 8) with 1. lia.
Qed.

Lemma activation_chunks_packed fuel cap values done_ bits src : bits = 16 \/ bits = 8 -> 0 < cap -> 0 <= done_ <= values -> values <= zlen src ->
  values - done_ <= Z.of_nat fuel ->
  activation_chunks fuel cap values done_ bits src = packed bits (take (Z.to_nat (values - done_)) (drop (Z.to_nat done_) src)).
Proof.
  intros Hbits Hcap. revert done_. induction fuel as [|fuel IH]; intros done_ Hd Hv Hf.
  - replace (values - done_) with 0 by lia. unfold packed. repeat case_if; done.
  - cbn [activation_chunks]. destruct (Z.ltb_spec done_ values) as [Hlt|Hge]; [|replace (values - done_) with 0 by lia; unfold packed; repeat case_if; done].
    set (n := if cap <? values - done_ then cap else values - done_). assert (Hn : 0 < n <= values - done_) by (unfold n; destruct (Z.ltb_spec cap (values - done_)); lia).
    rewrite IH by lia. replace (if bits =? 16 then _ else _) with (packed bits (take (Z.to_nat n) (drop (Z.to_nat done_) src))) by (unfold packed; by destruct Hbits as [-> | ->]).
    rewrite <- packed_app. f_equal. replace (Z.to_nat (done_ + n)) with (Z.to_nat done_ + Z.to_nat n)%nat by lia. rewrite <- drop_drop.
    replace (Z.to_nat (values - done_)) with (Z.to_nat n + Z.to_nat (values - (done_ + n)))%nat by lia. apply take_take_drop.
Qed.

Lemma bits_cases bits : dist_activation_bits_valid bits = true -> let b := dist_activation_bits_or_default bits in b = 32 \/ b = 16 \/ b = 8.
Proof. unfold dist_activation_bits_valid. cbv zeta. intros H. destruct (Z.eqb_spec (dist_activation_bits_or_default bits) 32); [by left|]. destruct (Z.eqb_spec (dist_activation_bits_or_default bits) 16); [by right; left|]. right; right. by apply Z.eqb_eq. Qed.

Lemma bits_default_idemp bits : dist_activation_bits_or_default (dist_activation_bits_or_default bits) = dist_activation_bits_or_default bits.
Proof. unfold dist_activation_bits_or_default, DS4_DIST_ACTIVATION_BITS_DEFAULT. destruct (Z.eqb_spec bits 0); [done|]. by rewrite (proj2 (Z.eqb_neq bits 0)). Qed.

Lemma valid_default bits : dist_activation_bits_valid (dist_activation_bits_or_default bits) = dist_activation_bits_valid bits.
Proof. unfold dist_activation_bits_valid. by rewrite bits_default_idemp. Qed.

Lemma wire_bytes_exact bits values : dist_activation_bits_valid bits = true -> 0 <= values -> values * 4 <= U32_MAX ->
  dist_activation_wire_bytes bits values = Some (values * (dist_activation_bits_or_default bits / 8)).
Proof.
  intros Hb H0 Hv. unfold dist_activation_wire_bytes. rewrite valid_default, Hb. unfold U32_MAX in Hv.
  destruct (bits_cases bits Hb) as [E | [E | E]]; rewrite E; [change (32 / 8) with 4 | change (16 / 8) with 2 | change (8 / 8) with 1];
    cbn; rewrite u64_small by (unfold is_u64, U64_MAX; lia); rewrite (proj2 (Z.ltb_ge _ _)) by (unfold U32_MAX; lia); done.
Qed.

Lemma write_activations bits src : dist_activation_bits_valid bits = true -> zlen src * 4 <= U32_MAX ->
  dist_write_activation_payload src (zlen src) bits = Some (packed (dist_activation_bits_or_default bits) src).
Proof.
  intros Hb Hs. pose proof (zlen_nonneg src) as H0. unfold dist_write_activation_payload. rewrite valid_default, Hb. cbn [negb].
  destruct (Z.eqb_spec (zlen src) 0) as [Hz|Hz]; [destruct src; [|unfold zlen in Hz; cbn [length] in Hz; lia]; unfold packed; repeat case_if; done|].
  pose proof (bits_cases bits Hb) as Hc. cbv zeta in Hc. set (b := dist_activation_bits_or_default bits) in *. destruct (Z.eqb_spec b 32) as [E|E].
  - assert (Hvb : dist_activation_bits_valid b = true) by (unfold b; by rewrite valid_default). rewrite wire_bytes_exact by (done || lia).
    unfold b. rewrite bits_default_idemp. fold b. rewrite E. unfold packed. cbn [Z.eqb Pos.eqb]. f_equal. change (32 / 8) with 4.
    apply take_ge. pose proof (zlen_image src). unfold zlen in *. lia.
  - f_equal. rewrite activation_chunks_packed by (try (destruct Hc as [?|[?|?]]; lia || auto); try case_if; bool_prop; lia).
    rewrite Z.sub_0_r. unfold zlen. rewrite Nat2Z.id. by rewrite drop_0, firstn_all.
Qed.

Lemma f32_to_f16_u16 v : is_u32 v -> 0 <= f32_to_f16 v < 2 ^ 16.
Proof.
  intros Hv. destruct (f32_to_f16_split v Hv) as (Hs & Hm & Hr). unfold mag16 in Hm. pose proof (narrow_range _ Hr) as Hn.
  unfold is_u32, U32_MAX in Hv. change (2 ^ 31) with 2147483648 in *. change (2 ^ 15) with 32768 in *. change (2 ^ 16) with 65536. zdiv.
Qed.

Lemma f16_round_u32 v : is_u32 v -> is_u32 (f16_round v).
Proof. intros Hv. unfold f16_round. apply (f16_to_f32_split (f32_to_f16 v)). by apply f32_to_f16_u16. Qed.

Lemma le_halves_packed src rest : Forall is_u32 src ->
  map dist_f16_to_f32 (le_halves (length src) ((src ≫= fun v => le_bytes 2 (dist_f32_to_f16 v)) ++ rest)) = map f16_round src.
Proof.
  induction 1 as [|v src Hv _ IH]; [done|]. rewrite bind_cons, <- (assoc_L (++)). cbn [length le_halves map].
  rewrite take_app_length', drop_app_length' by by rewrite le_bytes_length. rewrite IH. f_equal.
  rewrite le_val_le_bytes, dist_f16_to_f32_eq, dist_f32_to_f16_eq, Z.mod_small by by apply f32_to_f16_u16. done.
Qed.

(** What the other side decodes: the values, to the transport's precision. *)
Lemma decode_packed bits src : dist_activation_bits_valid bits = true -> Forall is_u32 src -> zlen src * 4 <= U32_MAX ->
  dist_decode_activation_payload (packed (dist_activation_bits_or_default bits) src) bits (zlen (packed (dist_activation_bits_or_default bits) src)) =
  inr (map (transported bits) src).
Proof.
  intros Hb Hs Hl. pose proof (zlen_nonneg src) as H0. unfold U32_MAX in Hl. pose proof (bits_cases bits Hb) as Hc. cbv zeta in Hc.
  unfold dist_decode_activation_payload, dist_activation_values_from_wire_bytes. rewrite !bits_default_idemp, !valid_default, Hb, zlen_packed by done. cbn [negb orb].
  unfold transported. set (b := dist_activation_bits_or_default bits) in *.
  assert (Hn : Z.to_nat (zlen src) = length src) by (unfold zlen; lia).
  destruct Hc as [E | [E | E]]; rewrite E; [change (32 / 8) with 4 | change (16 / 8) with 2 | change (8 / 8) with 1];
    change (32 mod 8 =? 0) with true; change (16 mod 8 =? 0) with true; change (8 mod 8 =? 0) with true; cbn [Z.eqb Pos.eqb negb orb];
    rewrite Z.mod_mul, Z.div_mul by lia; cbn [Z.eqb negb]; rewrite u64_small by (unfold is_u64, U64_MAX; lia);
    rewrite (proj2 (Z.ltb_ge _ _)) by (unfold U32_MAX; lia); rewrite Hn; unfold packed; cbn [Z.eqb Pos.eqb]; f_equal.
  - rewrite le_words_image by done. by rewrite map_id.
  - rewrite <- (app_nil_r (src ≫= _)). by apply le_halves_packed.
  - rewrite take_ge by (rewrite length_map; lia). by rewrite map_map.
Qed.

(** ** Results *)

Lemma telemetry_image_length (t : list ds4_dist_telemetry_fixed) : zlen (t ≫= wire_image) = zlen t * wire_size ds4_dist_telemetry_fixed.
Proof. induction t as [|x t IH]; [done|]. rewrite bind_cons, zlen_app, IH, wire_size_image. unfold zlen. cbn [length]. lia. Qed.

(** A result frame as it is sent. *)
Definition result_frame (r : ds4_dist_result_fixed) (telemetry : list ds4_dist_telemetry_fixed) (body : bytes) : bytes :=
  dist_write_frame_header DS4_DIST_MSG_RESULT (wire_size ds4_dist_result_fixed + zlen telemetry * wire_size ds4_dist_telemetry_fixed + zlen body) ++
  wire_image r ++ (telemetry ≫= wire_image) ++ body.

(** The record of a result with its telemetry and body. *)
Definition result_record (request_id hash status kind bits : Z) (telemetry : list ds4_dist_telemetry_fixed) (body : bytes) : ds4_dist_result_fixed :=
  ResultFixed (fst (dist_u64_to_halves request_id)) (snd (dist_u64_to_halves request_id)) (fst (dist_u64_to_halves hash)) (snd (dist_u64_to_halves hash))
    status kind (zlen telemetry) (zlen telemetry * wire_size ds4_dist_telemetry_fixed) (zlen body) bits.

Lemma result_record_ok request_id hash status kind bits telemetry body : is_u32 status -> is_u32 kind -> is_u32 bits ->
  wire_size ds4_dist_result_fixed + zlen telemetry * wire_size ds4_dist_telemetry_fixed + zlen body <= U32_MAX ->
  record_ok (result_record request_id hash status kind bits telemetry body).
Proof.
  intros Hs Hk Hb Hl. pose proof (zlen_nonneg telemetry). pose proof (zlen_nonneg body). change (wire_size ds4_dist_telemetry_fixed) with 40 in *.
  change (wire_size ds4_dist_result_fixed) with 40 in *. words_ok; try apply u32_range; unfold is_u32; change (wire_size ds4_dist_telemetry_fixed) with 40; lia.
Qed.

Lemma result_record_sizes request_id hash status kind bits telemetry body :
  wire_size ds4_dist_result_fixed + zlen telemetry * wire_size ds4_dist_telemetry_fixed + zlen body <= U32_MAX ->
  result_sizes_ok (result_record request_id hash status kind bits telemetry body) (zlen telemetry * wire_size ds4_dist_telemetry_fixed + zlen body) = true.
Proof.
  intros Hl. pose proof (zlen_nonneg telemetry). pose proof (zlen_nonneg body). unfold result_sizes_ok. cbn [result_record re_telemetry_bytes re_telemetry_count re_payload_bytes].
  change (wire_size ds4_dist_telemetry_fixed) with 40 in *. change (wire_size ds4_dist_result_fixed) with 40 in *. rewrite Z.mod_mul, Z.div_mul by lia.
  rewrite !Z.eqb_refl. cbn [andb]. rewrite (proj2 (Z.leb_le _ _)) by lia. apply Z.eqb_eq. rewrite u32_small by (unfold is_u32; lia). lia.
Qed.

(** What the reader of [body] makes of it. *)
Definition received (status kind bits hash : Z) (body : bytes) : Z * bytes + Z * Z * bytes :=
  if negb (status =? 0) then inl (DS4_DIST_RECV_REMOTE_ERROR, if zlen body =? 0 then bs "distributed worker returned an error" else body)
  else if (kind =? DS4_DIST_RESULT_HIDDEN_STATE) && negb (zlen body =? 0) then
    match dist_decode_activation_payload body bits (zlen body) with
    | inl _ => inl (DS4_DIST_RECV_TRANSPORT_ERROR, [])
    | inr floats => inr (kind, hash, image floats)
    end
  else inr (kind, hash, body).

Lemma recv_result_frame request_id hash status kind bits telemetry body rest e :
  is_u64 request_id -> is_u64 hash -> is_u32 status -> is_u32 kind -> is_u32 bits ->
  wire_size ds4_dist_result_fixed + zlen telemetry * wire_size ds4_dist_telemetry_fixed + zlen body <= U32_MAX ->
  dist_recv_result_alloc (Stream (result_frame (result_record request_id hash status kind bits telemetry body) telemetry body ++ rest) e) request_id =
  (received status kind bits hash body, Stream rest e).
Proof.
  intros Hr Hh Hs Hk Hb Hl. pose proof (zlen_nonneg telemetry) as Ht0. pose proof (zlen_nonneg body) as Hb0.
  unfold dist_recv_result_alloc, result_frame. rewrite <- !(assoc_L (++)).
  assert (Hsz : wire_size ds4_dist_result_fixed = 40) by reflexivity. assert (Htz : wire_size ds4_dist_telemetry_fixed = 40) by reflexivity.
  rewrite frame_header_roundtrip; [|unfold is_u32, U32_MAX, DS4_DIST_MSG_RESULT; lia | unfold is_u32; rewrite ?Hsz, ?Htz in *; lia].
  change (negb (DS4_DIST_MSG_RESULT =? DS4_DIST_MSG_RESULT)) with false. cbn [orb]. rewrite (proj2 (Z.ltb_ge _ (wire_size _))) by (rewrite ?Hsz, ?Htz; lia).
  rewrite read_full_exact by apply wire_size_image. cbn [Z.leb Z.compare]. rewrite wire_roundtrip by by apply result_record_ok.
  replace (wire_size ds4_dist_result_fixed + zlen telemetry * wire_size ds4_dist_telemetry_fixed + zlen body - wire_size ds4_dist_result_fixed)
    with (zlen telemetry * wire_size ds4_dist_telemetry_fixed + zlen body) by lia.
  rewrite result_record_sizes by done. cbn [negb]. cbn [result_record re_request_hi re_request_lo re_result_hash_hi re_result_hash_lo re_telemetry_bytes re_payload_bytes re_status re_result_kind re_payload_bits].
  rewrite !halves_roundtrip by done. rewrite Z.eqb_refl. cbn [negb].
  assert (Htel : skip_telemetry (Stream ((telemetry ≫= wire_image) ++ body ++ rest) e) (zlen telemetry * wire_size ds4_dist_telemetry_fixed) = (1, Stream (body ++ rest) e)).
  { unfold skip_telemetry. destruct (Z.eqb_spec (zlen telemetry * wire_size ds4_dist_telemetry_fixed) 0) as [Hz|_].
    - destruct telemetry; [done|]. unfold zlen in Hz. cbn [length] in Hz. lia.
    - apply discard_app, telemetry_image_length. }
  rewrite Htel. cbn [Z.leb Z.compare].
  assert (Hbody : read_payload (Stream (body ++ rest) e) (zlen body) = (1, body, Stream rest e)).
  { unfold read_payload. destruct (Z.eqb_spec (zlen body) 0) as [Hz|_]; [by destruct body | apply read_full_app]. }
  rewrite Hbody. cbn [Z.leb Z.compare]. unfold received. destruct (negb (status =? 0)); [done|]. destruct (_ && _); [|done].
  by destruct (dist_decode_activation_payload _ _ _).
Qed.

(** The body of a result that is sent. *)
Definition result_body (kind bits : Z) (payload : bytes) : bytes :=
  if kind =? DS4_DIST_RESULT_HIDDEN_STATE then packed (dist_activation_bits_or_default bits) (le_words (Z.to_nat (zlen payload / 4)) payload) else payload.

Definition result_bits (kind bits : Z) : Z :=
  if kind =? DS4_DIST_RESULT_HIDDEN_STATE then dist_activation_bits_or_default bits else if kind =? DS4_DIST_RESULT_LOGITS then 32 else 0.

Lemma bits_default_range bits : dist_activation_bits_valid bits = true -> is_u32 (dist_activation_bits_or_default bits).
Proof. intros H. destruct (bits_cases bits H) as [-> | [-> | ->]]; done. Qed.

Lemma result_body_bound kind bits payload : dist_activation_bits_valid bits = true -> 0 <= zlen (result_body kind bits payload) <= zlen payload.
Proof.
  intros Hb. pose proof (zlen_nonneg payload). unfold result_body. case_if; [|lia]. rewrite zlen_packed by by apply bits_cases.
  assert (Hw : zlen (le_words (Z.to_nat (zlen payload / 4)) payload) = zlen payload / 4) by (unfold zlen at 1; rewrite le_words_length; zdiv). rewrite Hw.
  destruct (bits_cases bits Hb) as [-> | [-> | ->]]; [change (32 / 8) with 4 | change (16 / 8) with 2 | change (8 / 8) with 1]; zdiv.
Qed.

Lemma send_result_frame request_id hash kind bits telemetry payload : dist_activation_bits_valid bits = true -> zlen payload mod 4 = 0 ->
  wire_size ds4_dist_result_fixed + zlen telemetry * wire_size ds4_dist_telemetry_fixed + zlen payload <= U32_MAX ->
  dist_send_work_result request_id hash 0 kind bits telemetry payload =
  Some (result_frame (result_record request_id hash 0 kind (result_bits kind bits) telemetry (result_body kind bits payload)) telemetry (result_body kind bits payload)).
Proof.
  intros Hb H4 Hl. pose proof (zlen_nonneg payload) as Hp0. pose proof (zlen_nonneg telemetry) as Ht0. pose proof (result_body_bound kind bits payload Hb) as Hbody.
  assert (Hsz : wire_size ds4_dist_result_fixed = 40) by reflexivity. assert (Htz : wire_size ds4_dist_telemetry_fixed = 40) by reflexivity.
  set (ws := le_words (Z.to_nat (zlen payload / 4)) payload). assert (Hws : zlen ws = zlen payload / 4) by (unfold zlen at 1, ws; rewrite le_words_length; zdiv).
  assert (Hlw : zlen ws * 4 <= U32_MAX) by (rewrite Hws; zdiv).
  assert (Hgoal : forall wire_bytes body, wire_bytes = zlen body -> body = result_body kind bits payload ->
    (if U32_MAX <? zlen telemetry * wire_size ds4_dist_telemetry_fixed then None
     else if U32_MAX <? wire_size ds4_dist_result_fixed + zlen telemetry * wire_size ds4_dist_telemetry_fixed + wire_bytes then None
     else Some (dist_write_frame_header DS4_DIST_MSG_RESULT (u32 (wire_size ds4_dist_result_fixed + zlen telemetry * wire_size ds4_dist_telemetry_fixed + wire_bytes)) ++
       wire_image (ResultFixed (fst (dist_u64_to_halves request_id)) (snd (dist_u64_to_halves request_id)) (fst (dist_u64_to_halves hash)) (snd (dist_u64_to_halves hash))
         0 kind (zlen telemetry) (zlen telemetry * wire_size ds4_dist_telemetry_fixed) wire_bytes (result_bits kind bits)) ++ (telemetry ≫= wire_image) ++ body)) =
    Some (result_frame (result_record request_id hash 0 kind (result_bits kind bits) telemetry (result_body kind bits payload)) telemetry (result_body kind bits payload))).
  { intros wb body -> ->. rewrite !(proj2 (Z.ltb_ge U32_MAX _)) by (rewrite ?Hsz, ?Htz in *; lia). rewrite u32_small by (unfold is_u32; rewrite ?Hsz, ?Htz in *; lia). done. }
  unfold dist_send_work_result. cbn [dist_u64_to_halves]. change (0 =? 0) with true. cbn [andb]. unfold result_bits, result_body in *. fold ws in Hgoal |- *.
  revert Hgoal Hbody. destruct (kind =? DS4_DIST_RESULT_HIDDEN_STATE); intros Hgoal Hbody.
  - rewrite valid_default, Hb, H4. cbn [negb orb Z.eqb]. rewrite <- Hws.
    assert (Hvb : dist_activation_bits_valid (dist_activation_bits_or_default bits) = true) by by rewrite valid_default.
    rewrite wire_bytes_exact, bits_default_idemp by (done || apply zlen_nonneg). rewrite <- zlen_packed by by apply bits_cases.
    rewrite <- (Hgoal _ _ eq_refl eq_refl). cbv zeta. do 2 (case_if; [done|]).
    rewrite Hws. fold ws. rewrite <- Hws. destruct (Z.eqb_spec (zlen (packed (dist_activation_bits_or_default bits) ws)) 0) as [Hz|Hz]; cbn [negb].
    + destruct (packed (dist_activation_bits_or_default bits) ws) eqn:Ep; [|unfold zlen in Hz; cbn [length] in Hz; lia].
      destruct payload; [done|]. exfalso. apply (f_equal zlen) in Ep. rewrite zlen_packed, Hws in Ep by by apply bits_cases. unfold zlen in H4, Ep. cbn [length] in *.
      destruct (bits_cases bits Hb) as [E' | [E' | E']]; rewrite E' in Ep; [change (32 / 8) with 4 in Ep | change (16 / 8) with 2 in Ep | change (8 / 8) with 1 in Ep]; zdiv.
    + by rewrite write_activations, bits_default_idemp by done.
  - destruct (kind =? DS4_DIST_RESULT_LOGITS); exact (Hgoal (zlen payload) payload eq_refl eq_refl).
Qed.

(** ** Arbitrary bytes *)

Lemma frame_header_spec s : bytes_ok (st_in s) -> st_end s <= 0 ->
  match dist_read_frame_header s with
  | (inr (type, bytes), s') => st_in s = dist_write_frame_header type bytes ++ st_in s' /\ is_u32 type /\ is_u32 bytes /\ st_end s' = st_end s
  | (inl _, _) => True
  end.
Proof.
  intros Hb He. unfold dist_read_frame_header. destruct (dist_read_full s (wire_size ds4_dist_frame_header)) as [[rc b] s'] eqn:E.
  apply read_full_spec in E as (Hin & Hend & Hrc); [|done|done]. destruct (Z.leb_spec rc 0); [done|]. destruct Hrc as [[-> Hl]|[Hrc _]]; [|lia].
  assert (Hbb : bytes_ok b) by (rewrite Hin in Hb; by apply Forall_app in Hb as [? _]).
  pose proof (wire_parse_ok (A := ds4_dist_frame_header) b Hbb) as Hok. pose proof (wire_image_parse (A := ds4_dist_frame_header) b Hbb Hl) as Him.
  set (h := wire_parse b : ds4_dist_frame_header) in *. destruct (Z.eqb_spec (fr_magic h) DS4_DIST_MAGIC) as [Hm|]; [|done]. cbn [negb].
  unfold record_ok in Hok. cbn [words frame_wire] in Hok. rewrite !Forall_cons in Hok. destruct Hok as (_ & Ht & Hby & _).
  split_and!; try done. rewrite Hin. f_equal. unfold dist_write_frame_header. rewrite <- Hm, <- Him. by destruct h.
Qed.

Lemma discard_loop_got fuel s n : st_end s <= 0 -> (Z.to_nat n < fuel)%nat -> 0 <= n ->
  match dist_discard_bytes fuel s n with
  | (rc, s') => rc <= 0 \/ exists a, st_in s = a ++ st_in s' /\ zlen a = n /\ st_end s' = st_end s
  end.
Proof.
  revert s n. induction fuel as [|fuel IH]; intros s n He Hf Hn; [lia|]. cbn [dist_discard_bytes]. destruct (Z.leb_spec n 0).
  - right. exists []. split_and!; [done| |done]. unfold zlen. cbn [length]. lia.
  - set (k := if n <? 4096 then n else 4096). assert (Hk : 0 < k <= n) by (unfold k; destruct (Z.ltb_spec n 4096); lia).
    destruct (dist_read_full s k) as [[rc b] s1] eqn:E. apply read_full_spec in E as (Hin & Hend & Hrc); [|lia|done].
    destruct (Z.leb_spec rc 0); [left; destruct (rc =? 0); lia|]. destruct Hrc as [[-> Hl]|[Hrc _]]; [|lia].
    pose proof (IH s1 (n - k) ltac:(lia) ltac:(lia) ltac:(lia)) as Hd. destruct (dist_discard_bytes fuel s1 (n - k)) as [rc s'].
    destruct Hd as [?|(a & Ha & Hla & Hea)]; [by left|]. right. exists (b ++ a). rewrite Hin, Ha, zlen_app, <- (assoc_L (++)). split_and!; [done|lia|congruence].
Qed.

(** Parts that were read, or the connection ended. *)
Lemma skip_telemetry_got s n : st_end s <= 0 -> 0 <= n ->
  match skip_telemetry s n with (rc, s') => rc <= 0 \/ exists a, st_in s = a ++ st_in s' /\ zlen a = n /\ st_end s' = st_end s end.
Proof.
  intros He Hn. unfold skip_telemetry. destruct (Z.eqb_spec n 0) as [->|]; [by right; exists []|]. unfold discard. apply discard_loop_got; [done|lia|done].
Qed.

Lemma read_full_got s n : st_end s <= 0 -> 0 <= n ->
  match dist_read_full s n with (rc, b, s') => rc <= 0 \/ (st_in s = b ++ st_in s' /\ zlen b = n /\ st_end s' = st_end s) end.
Proof.
  intros He Hn. destruct (dist_read_full s n) as [[rc b] s'] eqn:E. apply read_full_spec in E as (Hi & Hend & [[_ Hl]|[Hrc _]]); [by right|left; lia|done|done].
Qed.

Lemma read_payload_got s n : st_end s <= 0 -> 0 <= n ->
  match read_payload s n with (rc, b, s') => rc <= 0 \/ (st_in s = b ++ st_in s' /\ zlen b = n /\ st_end s' = st_end s) end.
Proof.
  intros He Hn. unfold read_payload. destruct (Z.eqb_spec n 0) as [->|]; [by right|]. by apply read_full_got.
Qed.

(** A record that was read. *)
Lemma read_record_got {A} `{Wire A} s : bytes_ok (st_in s) -> st_end s <= 0 ->
  match dist_read_full s (wire_size A) with
  | (rc, b, s') => rc <= 0 \/ (st_in s = wire_image (wire_parse b : A) ++ st_in s' /\ record_ok (wire_parse b : A) /\ st_end s' = st_end s)
  end.
Proof.
  intros Hb He. pose proof (read_full_got s (wire_size A) He ltac:(unfold wire_size; lia)) as Hr. destruct (dist_read_full s _) as [[rc b] s'].
  destruct Hr as [?|(Hi & Hl & Hend)]; [by left|]. assert (Hbb : bytes_ok b) by (rewrite Hi in Hb; by apply Forall_app in Hb as [? _]).
  right. rewrite wire_image_parse by done. split_and!; [done|by apply wire_parse_ok|done].
Qed.

(** The frame that was read to accept a result. *)
Definition accepted_result (request_id kind hash : Z) (payload : bytes) (s s' : stream) : Prop :=
  exists r telemetry body, record_ok r /\ result_sizes_ok r (zlen telemetry + zlen body) = true /\
    st_in s = dist_write_frame_header DS4_DIST_MSG_RESULT (wire_size ds4_dist_result_fixed + zlen telemetry + zlen body) ++
              wire_image r ++ telemetry ++ body ++ st_in s' /\
    dist_u64_from_halves (re_request_hi r) (re_request_lo r) = request_id /\
    dist_u64_from_halves (re_result_hash_hi r) (re_result_hash_lo r) = hash /\ re_status r = 0 /\ re_result_kind r = kind /\
    received 0 kind (re_payload_bits r) hash body = inr (kind, hash, payload).

Lemma recv_accepted s request_id kind hash payload s' : bytes_ok (st_in s) -> st_end s <= 0 ->
  dist_recv_result_alloc s request_id = (inr (kind, hash, payload), s') -> accepted_result request_id kind hash payload s s'.
Proof.
  intros Hb He. unfold dist_recv_result_alloc. pose proof (frame_header_spec s Hb He) as Hh. destruct (dist_read_frame_header s) as [[|[type bytes]] s1]; [discriminate|].
  destruct Hh as (Hin & _ & Hby & He1). destruct (Z.eqb_spec type DS4_DIST_MSG_RESULT) as [->|]; [|discriminate]. cbn [negb orb].
  destruct (Z.ltb_spec bytes (wire_size ds4_dist_result_fixed)); [discriminate|]. unfold is_u32, U32_MAX in Hby.
  assert (Hsz : wire_size ds4_dist_result_fixed = 40) by reflexivity.
  assert (Hb1 : bytes_ok (st_in s1)) by (rewrite Hin in Hb; by apply Forall_app in Hb as [_ ?]).
  pose proof (read_record_got (A := ds4_dist_result_fixed) s1 Hb1 ltac:(lia)) as Hr. destruct (dist_read_full s1 _) as [[rc b] s2].
  destruct (Z.leb_spec rc 0); [discriminate|]. destruct Hr as [?|(Hin2 & Hok & He2)]; [lia|]. set (r := wire_parse b : ds4_dist_result_fixed) in *.
  destruct (result_sizes_ok r (bytes - wire_size ds4_dist_result_fixed)) eqn:Hs; [|discriminate]. cbn [negb].
  destruct (Z.eqb_spec (dist_u64_from_halves (re_request_hi r) (re_request_lo r)) request_id) as [Hreq|]; [|discriminate]. cbn [negb].
  pose proof Hok as Hok'. unfold record_ok in Hok'. cbn [words result_wire] in Hok'. rewrite !Forall_cons in Hok'.
  destruct Hok' as (_ & _ & _ & _ & _ & _ & _ & Htb & Hpb & _). unfold is_u32, U32_MAX in Htb, Hpb.
  pose proof (skip_telemetry_got s2 (re_telemetry_bytes r) ltac:(lia) ltac:(lia)) as Ht. destruct (skip_telemetry s2 _) as [rc3 s3].
  destruct (Z.leb_spec rc3 0); [discriminate|]. destruct Ht as [?|(tel & Hin3 & Hlt & He3)]; [lia|].
  pose proof (read_payload_got s3 (re_payload_bytes r) ltac:(lia) ltac:(lia)) as Hp. destruct (read_payload s3 _) as [[rc4 buf] s4].
  destruct (Z.leb_spec rc4 0); [discriminate|]. destruct Hp as [?|(Hin4 & Hlb4 & _)]; [lia|].
  destruct (Z.eqb_spec (re_status r) 0) as [Hst|]; [|discriminate]. cbn [negb]. intros Hrecv.
  assert (Hsum : zlen tel + zlen buf = bytes - wire_size ds4_dist_result_fixed).
  { unfold result_sizes_ok in Hs. bool_prop. rewrite u32_small in * by (unfold is_u32, U32_MAX; lia). lia. }
  assert (Hkind : re_result_kind r = kind /\ dist_u64_from_halves (re_result_hash_hi r) (re_result_hash_lo r) = hash /\ s4 = s' /\
    received 0 (re_result_kind r) (re_payload_bits r) hash buf = inr (re_result_kind r, hash, payload)).
  { unfold received. cbn [Z.eqb negb]. rewrite Hlb4. destruct (_ && _).
    - destruct (dist_decode_activation_payload _ _ _); [discriminate|]. injection Hrecv as <- <- <- <-. done.
    - injection Hrecv as <- <- <- <-. done. }
  destruct Hkind as (Hk & Hhash & -> & Hrec). subst kind. exists r, tel, buf. rewrite <- Z.add_assoc, Hsum. replace (wire_size _ + _) with bytes by lia.
  split_and!; try done. by rewrite Hin, Hin2, Hin3, Hin4.
Qed.

(** What the receiver makes of the body of a result. *)
Lemma received_body kind bits hash payload : dist_activation_bits_valid bits = true -> bytes_ok payload -> zlen payload <= U32_MAX ->
  received 0 kind (result_bits kind bits) hash (result_body kind bits payload) =
  inr (kind, hash, if kind =? DS4_DIST_RESULT_HIDDEN_STATE then image (map (transported bits) (le_words (Z.to_nat (zlen payload / 4)) payload)) else payload).
Proof.
  intros Hb Hp Hl. unfold received, result_bits, result_body. cbn [Z.eqb negb]. destruct (Z.eqb_spec kind DS4_DIST_RESULT_HIDDEN_STATE) as [->|]; [|done]. cbn [andb].
  set (ws := le_words (Z.to_nat (zlen payload / 4)) payload).
  assert (Hws : zlen ws = zlen payload / 4) by (unfold zlen at 1, ws; rewrite le_words_length; pose proof (zlen_nonneg payload); zdiv).
  destruct (Z.eqb_spec (zlen (packed (dist_activation_bits_or_default bits) ws)) 0) as [Hz|Hz]; cbn [negb].
  - rewrite zlen_packed in Hz by by apply bits_cases. destruct ws as [|w ws']; [by unfold packed; repeat case_if|]. exfalso. unfold zlen in Hz. cbn [length] in Hz.
    destruct (bits_cases bits Hb) as [E' | [E' | E']]; rewrite E' in Hz; [change (32 / 8) with 4 in Hz | change (16 / 8) with 2 in Hz | change (8 / 8) with 1 in Hz]; lia.
  - pose proof (decode_packed (dist_activation_bits_or_default bits) ws) as Hd. rewrite bits_default_idemp in Hd.
    rewrite Hd; [|by rewrite valid_default|by apply le_words_u32|rewrite Hws; pose proof (zlen_nonneg payload); zdiv].
    do 3 f_equal. apply map_ext. intros v. unfold transported. by rewrite bits_default_idemp.
Qed.

Lemma send_error_frame request_id msg : wire_size ds4_dist_result_fixed + zlen msg <= U32_MAX ->
  dist_send_work_error request_id msg = Some (result_frame (result_record request_id 0 1 0 0 [] msg) [] msg).
Proof.
  intros Hlm. unfold dist_send_work_error, dist_send_work_result. pose proof (zlen_nonneg msg). change (wire_size ds4_dist_result_fixed) with 40 in Hlm.
  rewrite (proj2 (Z.ltb_ge U32_MAX (zlen msg))) by lia. rewrite take_ge by (unfold zlen; lia). cbn [Z.eqb andb dist_u64_to_halves].
  change (zlen [] * _) with 0. rewrite !(proj2 (Z.ltb_ge U32_MAX _)) by (change (wire_size ds4_dist_result_fixed) with 40; lia).
  rewrite u32_small by (unfold is_u32; change (wire_size ds4_dist_result_fixed) with 40; lia). reflexivity.
Qed.

(** Every 8-bit code after another hop. *)
Lemma f8_all_codes :
  forallb (fun c => dist_f32_to_f8_e4m3 (dist_f8_e4m3_to_f32 c) =? (if Z.land c 0x7f <? 120 then c else Z.lor (Z.land c 0x80) 0x77)) (map Z.of_nat (seq 0 256)) = true.
Proof. vm_compute. reflexivity. Qed.

(** ** Properties *)

(** Every record of the protocol is read back as it was sent, and whatever
    bytes of its size arrive are those of the record read from them. *)
Theorem records_roundtrip (A : Type) (W : Wire A) (a : A) (b : bytes) :
  record_ok a -> bytes_ok b -> zlen b = wire_size A ->
  wire_parse (wire_image a) = a /\ bytes_ok (wire_image a) /\ zlen (wire_image a) = wire_size A /\ wire_image (wire_parse b : A) = b.
Proof. intros Ha Hb Hl. split_and!; [by apply wire_roundtrip | apply wire_image_ok | apply wire_size_image | by apply wire_image_parse]. Qed.

Lemma records_roundtrip_witness :
  wire_parse (wire_image (RouteFixed 9 8080 3 7 1)) = RouteFixed 9 8080 3 7 1 /\ wire_image (RouteFixed 9 8080 3 7 1) = [0;0;0;9; 0;0;31;144; 0;0;0;3; 0;0;0;7; 0;0;0;1].
Proof.
  split; [|reflexivity]. apply (records_roundtrip ds4_dist_route_fixed _ (RouteFixed 9 8080 3 7 1) (wire_image (RouteFixed 1 2 3 4 5))).
  - words_ok.
  - apply wire_image_ok.
  - reflexivity.
Defined.

(** Activations arrive as they were sent in 32 bits, rounded to nearest
    halves in 16, and as the nearest the 8-bit coder knows in 8; the receiver
    accepts exactly the size the sender announces. *)
Theorem activations_transported (bits : Z) (src : list Z) :
  dist_activation_bits_valid bits = true -> Forall is_u32 src -> zlen src * 4 <= U32_MAX ->
  exists wire, dist_write_activation_payload src (zlen src) bits = Some wire /\
    dist_activation_wire_bytes bits (zlen src) = Some (zlen wire) /\
    dist_decode_activation_payload wire bits (zlen wire) = inr (map (transported bits) src).
Proof.
  intros Hb Hs Hl. exists (packed (dist_activation_bits_or_default bits) src). split; [by apply write_activations|]. split.
  - rewrite wire_bytes_exact, zlen_packed by (done || apply zlen_nonneg || by apply bits_cases). done.
  - by apply decode_packed.
Qed.

Lemma activations_transported_witness : exists wire, dist_write_activation_payload [0x3f800000; 0x40490fdb] 2 16 = Some wire /\
  dist_decode_activation_payload wire 16 4 = inr [0x3f800000; 0x40490000].
Proof.
  destruct (activations_transported 16 [0x3f800000; 0x40490fdb]) as (wire & H1 & H2 & H3); [done|by repeat constructor|done|].
  exists wire. split; [exact H1|]. assert (Hz : Some 4 = Some (zlen wire)) by exact H2. injection Hz as Hz. rewrite <- Hz in H3. exact H3.
Defined.

(** A result that is sent is received whole, for its request, with the hash of
    its tokens, and the connection stands at the next frame; a failure arrives
    as the message it was sent with. *)
Theorem result_roundtrip (request_id hash kind bits : Z) (telemetry : list ds4_dist_telemetry_fixed) (payload msg rest : bytes) (e : Z) :
  is_u64 request_id -> is_u64 hash -> is_u32 kind -> dist_activation_bits_valid bits = true -> bytes_ok payload -> zlen payload mod 4 = 0 ->
  wire_size ds4_dist_result_fixed + zlen telemetry * wire_size ds4_dist_telemetry_fixed + zlen payload <= U32_MAX ->
  msg <> [] -> wire_size ds4_dist_result_fixed + zlen msg <= U32_MAX ->
  exists frame failure,
    dist_send_work_result request_id hash 0 kind bits telemetry payload = Some frame /\
    dist_recv_result_alloc (Stream (frame ++ rest) e) request_id =
      (inr (kind, hash, if kind =? DS4_DIST_RESULT_HIDDEN_STATE then image (map (transported bits) (le_words (Z.to_nat (zlen payload / 4)) payload)) else payload),
       Stream rest e) /\
    dist_send_work_error request_id msg = Some failure /\
    dist_recv_result_alloc (Stream (failure ++ rest) e) request_id = (inl (DS4_DIST_RECV_REMOTE_ERROR, msg), Stream rest e).
Proof.
  intros Hr Hh Hk Hb Hp H4 Hl Hm Hlm. pose proof (result_body_bound kind bits payload Hb).
  assert (Hpl : zlen payload <= U32_MAX) by (pose proof (zlen_nonneg telemetry); change (wire_size ds4_dist_result_fixed) with 40 in Hl; change (wire_size ds4_dist_telemetry_fixed) with 40 in Hl; lia).
  eexists _, _. split; [by apply send_result_frame|]. split; [|split; [by apply send_error_frame|]].
  - rewrite recv_result_frame; try done; [by rewrite received_body by done| |lia]. unfold result_bits. repeat case_if; [by apply bits_default_range|done|done].
  - rewrite recv_result_frame; try done. unfold received. cbn [Z.eqb negb].
    destruct (Z.eqb_spec (zlen msg) 0) as [Hz|]; [|done]. destruct msg; [done|]. unfold zlen in Hz. cbn [length] in Hz. lia.
Qed.

Lemma result_roundtrip_witness :
  exists frame, dist_send_work_result 7 99 0 DS4_DIST_RESULT_LOGITS 32 [] (image [0x3f800000; 1]) = Some frame /\
    dist_recv_result_alloc (Stream (frame ++ [5; 6]) 0) 7 = (inr ((DS4_DIST_RESULT_LOGITS, 99, image [0x3f800000; 1])), Stream [5; 6] 0).
Proof.
  destruct (result_roundtrip 7 99 DS4_DIST_RESULT_LOGITS 32 [] (image [0x3f800000; 1]) (bs "no") [5; 6] 0) as (frame & failure & H1 & H2 & _);
    [done|done|done|done|apply image_ok|done|done|done|done|]. exists frame. split; [exact H1 | exact H2].
Defined.

(** Of arbitrary bytes only a whole result frame is accepted, one for this very
    request, with no failure reported, whose sizes agree; its telemetry and its
    payload are exactly what lies between its header and the next frame. *)
Theorem result_accepted_is_ours (s : stream) (request_id kind hash : Z) (payload : bytes) (s' : stream) :
  bytes_ok (st_in s) -> st_end s <= 0 -> dist_recv_result_alloc s request_id = (inr (kind, hash, payload), s') ->
  accepted_result request_id kind hash payload s s'.
Proof. apply recv_accepted. Qed.

Lemma result_accepted_is_ours_witness :
  accepted_result 7 DS4_DIST_RESULT_ACK 99 [] (Stream (result_frame (result_record 7 99 0 DS4_DIST_RESULT_ACK 0 [] []) [] []) 0) (Stream [] 0).
Proof.
  apply result_accepted_is_ours; [|done|vm_compute; reflexivity].
  cbn [st_in]. unfold result_frame. rewrite !Forall_app. split_and!; first [apply wire_image_ok | apply Forall_nil_2].
Defined.

(** A worker's greeting arrives as it was sent, its model name cut to 127
    bytes, and the connection stands behind it. *)
Theorem hello_roundtrip (model_id quant_bits layer_start layer_end : Z) (has_output : bool) (ctx_size n_layers listen_port : Z) (model_name rest : bytes) (e : Z) :
  is_u32 layer_start -> is_u32 layer_end -> ctx_size <= INT32_MAX -> is_u32 n_layers -> is_u32 listen_port -> 0 ∉ model_name ->
  let name := take 127 model_name in
  dist_recv_hello (Stream (dist_send_hello model_id quant_bits layer_start layer_end has_output ctx_size n_layers listen_port model_name ++ rest) e) =
  (inr (Hello (u32 model_id) (u32 quant_bits) layer_start layer_end (if has_output then 1 else 0) 1 (if 0 <? ctx_size then ctx_size else 0) n_layers
          listen_port (zlen name), name), Stream rest e).
Proof.
  intros Hs He Hc Hn Hp Hnul name. assert (Hlen : (if DS4_DIST_MAX_MODEL_NAME <? zlen model_name then DS4_DIST_MAX_MODEL_NAME else zlen model_name) = zlen name /\
    name = take (Z.to_nat (zlen name)) model_name).
  { unfold name, zlen, DS4_DIST_MAX_MODEL_NAME. rewrite length_take. destruct (Z.ltb_spec 127 (Z.of_nat (length model_name))).
    - rewrite Nat.min_l by lia. done.
    - rewrite Nat.min_r by lia. rewrite Nat2Z.id, firstn_all, take_ge by lia. done. }
  destruct Hlen as [Hlen Hname]. assert (H127 : 0 <= zlen name <= 127) by (unfold name, zlen; rewrite length_take; lia).
  unfold dist_send_hello. rewrite Hlen, <- Hname. apply hello_loop; [|done|exact (proj2 H127)|].
  - words_ok; try apply u32_range; unfold is_u32, U32_MAX; unfold INT32_MAX in Hc; repeat case_if; bool_prop; lia.
  - intros Hin. apply Hnul. apply elem_of_take in Hin as (i & Hi & _). by apply list_elem_of_lookup_2 in Hi.
Qed.

Lemma hello_roundtrip_witness :
  dist_recv_hello (Stream (dist_send_hello 1 2 4 7 true 4096 8 5000 (bs "flash") ++ [9]) 0) = (inr (Hello 1 2 4 7 1 1 4096 8 5000 5, bs "flash"), Stream [9] 0).
Proof. apply (hello_roundtrip 1 2 4 7 true 4096 8 5000 (bs "flash") [9] 0); try done. cbn. set_solver. Defined.

(** The 8-bit codes the coder produces are stable under another hop, and the
    codes it never produces mean the largest magnitude. *)
Theorem f8_stable (c : Z) : 0 <= c < 256 ->
  dist_f32_to_f8_e4m3 (dist_f8_e4m3_to_f32 c) = if Z.land c 0x7f <? 120 then c else Z.lor (Z.land c 0x80) 0x77.
Proof.
  intros Hc. pose proof (f8_all_codes) as H. rewrite forallb_forall in H. apply Z.eqb_eq, H. apply in_map_iff. exists (Z.to_nat c). split; [lia|]. apply in_seq. lia.
Qed.

Lemma f8_stable_witness : dist_f32_to_f8_e4m3 (dist_f8_e4m3_to_f32 0xab) = 0xab.
Proof. exact (f8_stable 0xab ltac:(done)). Defined.
