(* ===== verification/DistRoute.v ===== *)
(** * Distributed inference: workers and routes (ds4_distributed.c)

    The coordinator's registry of workers, the search for a chain of workers that
    runs the layers behind its own, the plan and its encoding for the wire, and
    the parsers with which a worker reads a route it is sent.  The registry is
    the linked list of entries; every change bumps its generation, by which a
    session knows whether its plan is still current.  Strings are bytes without
    their NUL; a peer's address fits its buffer.  [qsort] of the C library is the
    class [Qsort]: it permutes and sorts. *)

From Stdlib Require Import Sorted.
From stdpp Require Import sorting.
From S2P Require Import Prelude DistWire.
#[local] Open Scope Z_scope.
#[local] Open Scope stdpp_scope.

(** Of the system's [netdb.h]. *)
Definition NI_MAXHOST : Z := 1025.

Definition DS4_DIST_ROUTE_F_OUTPUT_LOGITS : Z := 1.
Definition DS4_DIST_ROUTE_RETURN_UPSTREAM : Z := 1.

(** ** State *)

Record ds4_dist_worker_entry := WorkerEntry {
  we_fd : Z; we_peer_host : bytes; we_peer_port : bytes; we_model_name : bytes; we_model_id : Z; we_quant_bits : Z;
  we_layer_start : Z; we_layer_end : Z; we_has_output : Z; we_has_hidden : Z; we_ctx_size : Z; we_n_layers : Z; we_listen_port : Z }.

Record ds4_dist_coordinator_state := Coordinator {
  co_model_id : Z; co_model_name : bytes; co_n_layers : Z; co_local_start : Z; co_local_end : Z; co_ctx_size : Z;
  co_local_has_output : bool; co_local_can_output_head : bool; co_use_control_for_work : bool; co_activation_bits : Z;
  co_generation : Z; co_workers : list ds4_dist_worker_entry; co_shutting_down : bool }.

Definition set_workers (workers : list ds4_dist_worker_entry) (generation : Z) (s : ds4_dist_coordinator_state) : ds4_dist_coordinator_state :=
  Coordinator (co_model_id s) (co_model_name s) (co_n_layers s) (co_local_start s) (co_local_end s) (co_ctx_size s) (co_local_has_output s)
    (co_local_can_output_head s) (co_use_control_for_work s) (co_activation_bits s) generation workers (co_shutting_down s).

Record ds4_dist_route_entry := RouteEntry {
  ro_host : bytes; ro_port : Z; ro_layer_start : Z; ro_layer_end : Z; ro_flags : Z; ro_fd : Z }.

Record ds4_dist_route_return := RouteTarget { rg_host : bytes; rg_port : Z; rg_kind : Z }.

Record ds4_dist_route_plan := Plan { pl_entry : list ds4_dist_route_entry; pl_blob : bytes }.

(** ** Registration *)

(** The checks of [dist_coordinator_client_main]; the message of a rejection. *)
Definition check_worker (s : ds4_dist_coordinator_state) (hello : ds4_dist_hello_fixed) (model_name : bytes) : option bytes :=
  let u := dec_print in
  if negb (he_model_id hello =? co_model_id s) then
    Some (bs "model id mismatch: worker=" ++ u (he_model_id hello) ++ bs " coordinator=" ++ u (co_model_id s))
  else if negb (bytes_eqb model_name (co_model_name s)) then
    Some (bs "model family mismatch: worker=" ++ model_name ++ bs " coordinator=" ++ co_model_name s)
  else if negb (he_n_layers hello =? co_n_layers s) then
    Some (bs "layer count mismatch: worker=" ++ u (he_n_layers hello) ++ bs " coordinator=" ++ u (co_n_layers s))
  else if negb (he_quant_bits hello =? 2) && negb (he_quant_bits hello =? 4) then Some (bs "unsupported worker quant profile Q" ++ u (he_quant_bits hello))
  else if 1 <? he_has_output hello then Some (bs "invalid worker output-head flag " ++ u (he_has_output hello))
  else if 1 <? he_has_hidden hello then Some (bs "invalid worker hidden-state flag " ++ u (he_has_hidden hello))
  else if (he_n_layers hello <=? he_layer_start hello) || (he_n_layers hello <=? he_layer_end hello) || (he_layer_end hello <? he_layer_start hello) then
    Some (bs "invalid worker layer range " ++ u (he_layer_start hello) ++ bs ":" ++ u (he_layer_end hello) ++ bs " for " ++ u (he_n_layers hello) ++ bs " layers")
  else if negb (he_has_output hello =? 0) && negb (u32 (he_layer_end hello + 1) =? he_n_layers hello) then
    Some (bs "worker output head requires final layer: range=" ++ u (he_layer_start hello) ++ bs ":" ++ u (he_layer_end hello) ++ bs " layers=" ++ u (he_n_layers hello))
  else if negb (co_ctx_size s =? 0) && (he_ctx_size hello <? co_ctx_size s) then
    Some (bs "worker context too small: worker=" ++ u (he_ctx_size hello) ++ bs " coordinator=" ++ u (co_ctx_size s))
  else if (he_listen_port hello =? 0) || (65535 <? he_listen_port hello) then Some (bs "invalid worker data listen port " ++ u (he_listen_port hello))
  else None.

(** An earlier registration of the same worker. *)
Definition stale (peer_host : bytes) (hello : ds4_dist_hello_fixed) (old : ds4_dist_worker_entry) : bool :=
  bytes_eqb (we_peer_host old) peer_host && (we_model_id old =? he_model_id hello) && (we_layer_start old =? he_layer_start hello) &&
  (we_layer_end old =? he_layer_end hello) && (we_has_output old =? he_has_output hello).

Definition worker_entry (fd : Z) (peer_host peer_port : bytes) (hello : ds4_dist_hello_fixed) (model_name : bytes) : ds4_dist_worker_entry :=
  WorkerEntry fd peer_host peer_port model_name (he_model_id hello) (he_quant_bits hello) (he_layer_start hello) (he_layer_end hello)
    (he_has_output hello) (he_has_hidden hello) (he_ctx_size hello) (he_n_layers hello) (he_listen_port hello).

Definition dist_coordinator_add_worker (s : ds4_dist_coordinator_state) (fd : Z) (peer_host peer_port : bytes) (hello : ds4_dist_hello_fixed)
  (model_name : bytes) : ds4_dist_coordinator_state :=
  if co_shutting_down s then s
  else set_workers (worker_entry fd peer_host peer_port hello model_name :: List.filter (fun old => negb (stale peer_host hello old)) (co_workers s))
         (u64 (co_generation s + 1)) s.

(** Greeting to registration: a rejected worker changes nothing. *)
Definition dist_coordinator_client (s : ds4_dist_coordinator_state) (fd : Z) (peer_host peer_port : bytes) (hello : ds4_dist_hello_fixed)
  (model_name : bytes) : option bytes * ds4_dist_coordinator_state :=
  match check_worker s hello model_name with
  | Some msg => (Some msg, s)
  | None => (None, dist_coordinator_add_worker s fd peer_host peer_port hello model_name)
  end.

(** The first entry that satisfies [p] is unlinked. *)
Fixpoint unlink_first (p : ds4_dist_worker_entry -> bool) (ws : list ds4_dist_worker_entry) : option (list ds4_dist_worker_entry) :=
  match ws with
  | [] => None
  | w :: ws' => if p w then Some ws' else cons w <$> unlink_first p ws'
  end.

Definition dist_coordinator_remove_worker (s : ds4_dist_coordinator_state) (fd : Z) : ds4_dist_coordinator_state :=
  match unlink_first (fun w => we_fd w =? fd) (co_workers s) with
  | Some ws => set_workers ws (u64 (co_generation s + 1)) s
  | None => s
  end.

Definition dist_route_entry_matches_worker (route : ds4_dist_route_entry) (worker : ds4_dist_worker_entry) : bool :=
  let route_has_output := negb (Z.land (ro_flags route) DS4_DIST_ROUTE_F_OUTPUT_LOGITS =? 0) in
  (ro_port route =? we_listen_port worker) && bytes_eqb (ro_host route) (we_peer_host worker) && (ro_layer_start route =? we_layer_start worker) &&
  (ro_layer_end route =? we_layer_end worker) && Bool.eqb route_has_output (negb (we_has_output worker =? 0)).

Definition forget_step (acc : list ds4_dist_worker_entry * bool) (route : ds4_dist_route_entry) : list ds4_dist_worker_entry * bool :=
  match unlink_first (dist_route_entry_matches_worker route) (fst acc) with
  | Some ws => (ws, true)
  | None => acc
  end.

Definition dist_coordinator_forget_route_workers (s : ds4_dist_coordinator_state) (plan : ds4_dist_route_plan) : ds4_dist_coordinator_state :=
  let '(ws, removed_any) := foldl forget_step (co_workers s, false) (pl_entry plan) in
  set_workers ws (if removed_any then u64 (co_generation s + 1) else co_generation s) s.

(** ** The search *)

Definition dist_worker_route_cmp (a b : ds4_dist_worker_entry) : Z :=
  if we_layer_start a <? we_layer_start b then -1
  else if we_layer_start b <? we_layer_start a then 1
  else if negb (we_has_output a =? we_has_output b) then (if negb (we_has_output a =? 0) then -1 else 1)
  else if we_layer_end b <? we_layer_end a then -1
  else if we_layer_end a <? we_layer_end b then 1
  else 0.

Definition dist_worker_route_candidate_ok (s : ds4_dist_coordinator_state) (w : ds4_dist_worker_entry) (last : Z) : bool :=
  let needs_hidden := (we_layer_end w <? last) || (we_has_output w =? 0) in
  if needs_hidden && (we_has_hidden w =? 0) then false
  else if (last <=? we_layer_end w) && (we_has_output w =? 0) && negb (co_local_can_output_head s) then false
  else true.

(** The loop over the sorted workers from [ws] on; [search] is the recursion for
    the layers behind a worker. *)
Fixpoint scan_workers (s : ds4_dist_coordinator_state) (search : Z -> option (option (list ds4_dist_worker_entry) * Z)) (next last : Z)
  (ws : list ds4_dist_worker_entry) (saw_start : bool) (missing_layer : Z) : option (option (list ds4_dist_worker_entry) * Z) :=
  let not_found := (None, if negb saw_start && (missing_layer <? next) then next else missing_layer) in
  match ws with
  | [] => Some not_found
  | w :: ws' =>
      if we_layer_start w <? next then scan_workers s search next last ws' saw_start missing_layer
      else if next <? we_layer_start w then Some not_found
      else if negb (dist_worker_route_candidate_ok s w last) then scan_workers s search next last ws' true missing_layer
      else if last <=? we_layer_end w then Some (Some [w], missing_layer)
      else
        match search (u32 (we_layer_end w + 1)) with
        | None => None
        | Some (Some path, _) => Some (Some (w :: path), missing_layer)
        | Some (None, child_missing) =>
            scan_workers s search next last ws' true (if missing_layer <? child_missing then child_missing else missing_layer)
        end
  end.

(** The path found, if any, and the layer that is missing; [None] when the
    recursion is deeper than the fuel. *)
Fixpoint dist_route_search_workers (s : ds4_dist_coordinator_state) (fuel : nat) (workers : list ds4_dist_worker_entry) (next last missing_layer : Z) :
  option (option (list ds4_dist_worker_entry) * Z) :=
  match fuel with
  | O => None
  | S fuel' =>
      scan_workers s (fun child_missing => dist_route_search_workers s fuel' workers child_missing last child_missing) next last workers false missing_layer
  end.

(** ** The plan *)

Definition dist_route_plan_append_blob (blob : bytes) (entry : ds4_dist_route_entry) : bytes + bytes :=
  let host_len := zlen (ro_host entry) in
  if (host_len =? 0) || (NI_MAXHOST <=? host_len) then inl (bs "invalid route host")
  else
    let add := wire_size ds4_dist_route_fixed + host_len in
    if (U32_MAX <? add) || (U32_MAX - add <? zlen blob) then inl (bs "route payload is too large")
    else inr (blob ++ wire_image (RouteFixed host_len (ro_port entry) (ro_layer_start entry) (ro_layer_end entry) (ro_flags entry)) ++ ro_host entry).

Definition dist_route_plan_append_return_upstream (blob : bytes) : bytes + bytes :=
  let add := wire_size ds4_dist_route_return_fixed in
  if U32_MAX - add <? zlen blob then inl (bs "route payload is too large")
  else inr (blob ++ wire_image (RouteReturn DS4_DIST_ROUTE_RETURN_UPSTREAM 0 0)).

Definition route_entry (w : ds4_dist_worker_entry) (fd : Z) : ds4_dist_route_entry :=
  RouteEntry (we_peer_host w) (we_listen_port w) (we_layer_start w) (we_layer_end w)
    (if negb (we_has_output w =? 0) then DS4_DIST_ROUTE_F_OUTPUT_LOGITS else 0) fd.

(** The loop over the path; [dup w] is what duplicating the worker's connection
    returns. *)
Fixpoint plan_entries (use_control : bool) (dup : ds4_dist_worker_entry -> Z) (path : list ds4_dist_worker_entry) (plan : ds4_dist_route_plan) :
  bytes + ds4_dist_route_plan :=
  match path with
  | [] => inr plan
  | w :: path' =>
      let first := use_control && (length (pl_entry plan) =? 0)%nat in
      if first && (dup w <? 0) then inl (bs "failed to duplicate first-hop worker connection")
      else
        let entry := route_entry w (if first then dup w else -1) in
        match dist_route_plan_append_blob (pl_blob plan) entry with
        | inl err => inl err
        | inr blob => plan_entries use_control dup path' (Plan (pl_entry plan ++ [entry]) blob)
        end
  end.

(** [qsort] of the C library on the workers: it permutes them and sorts them. *)
Class Qsort := {
  qsort : (ds4_dist_worker_entry -> ds4_dist_worker_entry -> Z) -> list ds4_dist_worker_entry -> list ds4_dist_worker_entry;
  qsort_permutes cmp l : qsort cmp l ≡ₚ l;
  qsort_sorts l : Sorted (fun a b => dist_worker_route_cmp a b <= 0) (qsort dist_worker_route_cmp l) }.

Section Routes.
Context `{Qsort}.

(** The plan and the generation it is for, or the message of the failure. *)
Definition dist_coordinator_build_route_plan (s : ds4_dist_coordinator_state) (dup : ds4_dist_worker_entry -> Z) : bytes + ds4_dist_route_plan * Z :=
  let workers := qsort dist_worker_route_cmp (co_workers s) in
  let last := u32 (co_n_layers s - 1) in
  if negb (co_local_start s =? 0) then inl (bs "coordinator route does not start at layer 0")
  else if (co_local_end s =? last) && (co_local_has_output s || co_local_can_output_head s) then inr (Plan [] [], co_generation s)
  else
    let next := u32 (co_local_end s + 1) in
    match dist_route_search_workers s (S (length workers)) workers next last next with
    | None => inl []
    | Some (None, missing) => inl (bs "distributed route incomplete: missing layer " ++ dec_print missing)
    | Some (Some path, _) =>
        match plan_entries (co_use_control_for_work s) dup path (Plan [] []) with
        | inl err => inl err
        | inr plan =>
            if negb (length (pl_entry plan) =? 0)%nat then
              match dist_route_plan_append_return_upstream (pl_blob plan) with
              | inl err => inl err
              | inr blob => inr (Plan (pl_entry plan) blob, co_generation s)
              end
            else inr (plan, co_generation s)
        end
    end.

(** A session's plan and the generation it was built for. *)
Record route_cache := RouteCache { rc_plan : ds4_dist_route_plan; rc_ready : bool; rc_generation : Z }.

Definition dist_session_ensure_route (s : ds4_dist_coordinator_state) (dup : ds4_dist_worker_entry -> Z) (d : route_cache) : (bytes + unit) * route_cache :=
  if rc_ready d && (rc_generation d =? co_generation s) then (inr (), d)
  else
    match dist_coordinator_build_route_plan s dup with
    | inl err => (inl err, RouteCache (Plan [] []) false 0)
    | inr (plan, generation) => (inr (), RouteCache plan true generation)
    end.
End Routes.

(** ** Reading a route *)

(** The fixed part of the next entry and what is behind it. *)
Definition take_fixed (blob : bytes) : option (ds4_dist_route_fixed * bytes) :=
  let n := Z.to_nat (wire_size ds4_dist_route_fixed) in
  if (length blob <? n)%nat then None else Some (wire_parse (take n blob), drop n blob).

Fixpoint get_entry_loop (route_count : nat) (blob : bytes) (target_index : nat) : bytes + ds4_dist_route_entry :=
  match route_count with
  | O => if negb (length blob =? 0)%nat then inl (bs "route payload has trailing bytes") else inl (bs "route entry not found")
  | S count' =>
      match take_fixed blob with
      | None => inl (bs "truncated route entry")
      | Some (fixed, p) =>
          if (rt_host_len fixed =? 0) || (NI_MAXHOST <=? rt_host_len fixed) || (zlen p <? rt_host_len fixed) then inl (bs "invalid route host length")
          else if dist_bytes_have_nul p (rt_host_len fixed) then inl (bs "route host contains NUL bytes")
          else
            match target_index with
            | O => inr (RouteEntry (take (Z.to_nat (rt_host_len fixed)) p) (rt_port fixed) (rt_layer_start fixed) (rt_layer_end fixed) (rt_flags fixed) (-1))
            | S target' => get_entry_loop count' (drop (Z.to_nat (rt_host_len fixed)) p) target'
            end
      end
  end.

(** A route of no bytes is a null pointer. *)
Definition dist_route_get_entry (route_count : nat) (blob : bytes) (target_index : nat) : bytes + ds4_dist_route_entry :=
  if (length blob =? 0)%nat || (route_count <=? target_index)%nat then inl (bs "invalid route entry index")
  else get_entry_loop route_count blob target_index.

Definition take_return (blob : bytes) : option (ds4_dist_route_return_fixed * bytes) :=
  let n := Z.to_nat (wire_size ds4_dist_route_return_fixed) in
  if (length blob <? n)%nat then None else Some (wire_parse (take n blob), drop n blob).

Fixpoint skip_entries (route_count : nat) (blob : bytes) : bytes + bytes :=
  match route_count with
  | O => inr blob
  | S count' =>
      match take_fixed blob with
      | None => inl (bs "truncated route entry")
      | Some (fixed, p) =>
          if zlen p <? rt_host_len fixed then inl (bs "invalid route host length")
          else if dist_bytes_have_nul p (rt_host_len fixed) then inl (bs "route host contains NUL bytes")
          else skip_entries count' (drop (Z.to_nat (rt_host_len fixed)) p)
      end
  end.

Definition dist_route_get_return_target (route_count : nat) (blob : bytes) : bytes + ds4_dist_route_return :=
  if (length blob =? 0)%nat || (route_count =? 0)%nat then inl (bs "invalid route final destination")
  else
    match skip_entries route_count blob with
    | inl err => inl err
    | inr blob =>
        match take_return blob with
        | None => inl (bs "route payload missing final destination")
        | Some (fixed, p) =>
            if (NI_MAXHOST <=? rr_host_len fixed) || (zlen p <? rr_host_len fixed) then inl (bs "invalid route final destination host length")
            else if dist_bytes_have_nul p (rr_host_len fixed) then inl (bs "route final destination host contains NUL bytes")
            else if negb (length (drop (Z.to_nat (rr_host_len fixed)) p) =? 0)%nat then inl (bs "route payload has trailing bytes")
            else inr (RouteTarget (take (Z.to_nat (rr_host_len fixed)) p) (rr_port fixed) (rr_kind fixed))
        end
    end.

(** The checks of one entry; [i] is its index and [prev_end] the last layer of
    the entry before. *)
Definition check_entry (fixed : ds4_dist_route_fixed) (p : bytes) (first : bool) (prev_end n_layers : Z) : option bytes :=
  if (rt_host_len fixed =? 0) || (NI_MAXHOST <=? rt_host_len fixed) || (zlen p <? rt_host_len fixed) then Some (bs "invalid route host length")
  else if dist_bytes_have_nul p (rt_host_len fixed) then Some (bs "route host contains NUL bytes")
  else if (rt_port fixed =? 0) || (65535 <? rt_port fixed) then Some (bs "invalid route port")
  else if (n_layers <=? rt_layer_start fixed) || (n_layers <=? rt_layer_end fixed) || (rt_layer_end fixed <? rt_layer_start fixed) then
    Some (bs "invalid route layer range")
  else if negb (Z.land (rt_flags fixed) (U32_MAX - DS4_DIST_ROUTE_F_OUTPUT_LOGITS) =? 0) then Some (bs "invalid route flags")
  else if negb (Z.land (rt_flags fixed) DS4_DIST_ROUTE_F_OUTPUT_LOGITS =? 0) && negb (u32 (rt_layer_end fixed + 1) =? n_layers) then
    Some (bs "route logits require final layer")
  else if negb first && negb (rt_layer_start fixed =? u32 (prev_end + 1)) then Some (bs "route layer ranges are not contiguous")
  else None.

Fixpoint validate_entries (route_count : nat) (blob : bytes) (first : bool) (prev_end n_layers : Z) : bytes + bytes :=
  match route_count with
  | O => inr blob
  | S count' =>
      match take_fixed blob with
      | None => inl (bs "truncated route entry")
      | Some (fixed, p) =>
          match check_entry fixed p first prev_end n_layers with
          | Some err => inl err
          | None => validate_entries count' (drop (Z.to_nat (rt_host_len fixed)) p) false (rt_layer_end fixed) n_layers
          end
      end
  end.

(** [None]: the route is accepted. *)
Definition dist_route_validate_blob (route_count : nat) (blob : bytes) (n_layers : Z) : option bytes :=
  if (route_count =? 0)%nat then
    if (length blob =? 0)%nat then None else Some (bs "route payload has entries without a route count")
  else if (length blob =? 0)%nat then Some (bs "route payload is missing")
  else
    match validate_entries route_count blob true U32_MAX n_layers with
    | inl err => Some err
    | inr blob =>
        match take_return blob with
        | None => Some (bs "route payload missing final destination")
        | Some (ret, p) =>
            if (NI_MAXHOST <=? rr_host_len ret) || (zlen p <? rr_host_len ret) then Some (bs "invalid route final destination host length")
            else if dist_bytes_have_nul p (rr_host_len ret) then Some (bs "route final destination host contains NUL bytes")
            else if negb (rr_kind ret =? DS4_DIST_ROUTE_RETURN_UPSTREAM) then Some (bs "unsupported route final destination")
            else if negb (rr_host_len ret =? 0) || negb (rr_port ret =? 0) then Some (bs "invalid upstream route final destination")
            else if negb (length (drop (Z.to_nat (rr_host_len ret)) p) =? 0)%nat then Some (bs "route payload has trailing bytes")
            else None
        end
    end.

(** ** Registered workers *)

(** A host name that fits its buffer. *)
Definition host_ok (h : bytes) : Prop := 0 < zlen h < NI_MAXHOST /\ (0 ∉ h) /\ bytes_ok h.

(** What the checks of a greeting leave. *)
Record registered (s : ds4_dist_coordinator_state) (w : ds4_dist_worker_entry) : Prop := {
  rg_model : we_model_id w = co_model_id s;
  rg_host_ok : host_ok (we_peer_host w);
  rg_layers : 0 <= we_layer_start w <= we_layer_end w /\ we_layer_end w < co_n_layers s;
  rg_output : we_has_output w = 0 \/ (we_has_output w = 1 /\ we_layer_end w + 1 = co_n_layers s);
  rg_hidden : we_has_hidden w = 0 \/ we_has_hidden w = 1;
  rg_context : co_ctx_size s <= we_ctx_size w \/ co_ctx_size s = 0;
  rg_listen : 0 < we_listen_port w <= 65535 }.

Definition worker_key (w : ds4_dist_worker_entry) : bytes * Z * Z * Z * Z :=
  (we_peer_host w, we_model_id w, we_layer_start w, we_layer_end w, we_has_output w).

Record registry_ok (s : ds4_dist_coordinator_state) : Prop := {
  ro_layers : 0 < co_n_layers s <= U32_MAX;
  ro_workers : Forall (registered s) (co_workers s);
  ro_keys : NoDup (worker_key <$> co_workers s) }.

Lemma registered_set_workers ws g s w : registered (set_workers ws g s) w <-> registered s w.
Proof. split; intros []; by constructor. Qed.

Lemma registry_ok_set ws g s : Forall (registered s) ws -> NoDup (worker_key <$> ws) -> 0 < co_n_layers s <= U32_MAX -> registry_ok (set_workers ws g s).
Proof. intros Hw Hk Hn. constructor; [done| |done]. apply (Forall_impl _ _ _ Hw). intros w. by apply registered_set_workers. Qed.

Lemma check_worker_registered s hello name fd host port : record_ok hello -> host_ok host -> 0 < co_n_layers s <= U32_MAX -> check_worker s hello name = None ->
  registered s (worker_entry fd host port hello name).
Proof.
  intros Hok Hh Hn. unfold record_ok in Hok. cbn [words hello_wire] in Hok. rewrite !Forall_cons in Hok.
  destruct Hok as (_ & _ & Hls & Hle & Hho & Hhh & _ & _ & Hlp & _). unfold is_u32, U32_MAX in *.
  unfold check_worker. cbv zeta. do 10 (case_if; [discriminate|]). intros _.
  bool_prop. repeat match goal with H : _ \/ _ |- _ => destruct H; bool_prop end; try rewrite u32_small in * by (unfold is_u32, U32_MAX; lia);
    (constructor; cbn [worker_entry we_model_id we_peer_host we_layer_start we_layer_end we_has_output we_has_hidden we_ctx_size we_listen_port]; first [done | lia]).
Qed.

Lemma add_worker_ok s fd host port hello name : registry_ok s -> record_ok hello -> host_ok host -> check_worker s hello name = None ->
  registry_ok (dist_coordinator_add_worker s fd host port hello name).
Proof.
  intros [Hn Hw Hk] Hok Hh Hc. unfold dist_coordinator_add_worker. destruct (co_shutting_down s); [done|].
  pose proof (check_worker_registered s hello name fd host port Hok Hh Hn Hc) as Hr. apply registry_ok_set; [| |done].
  - constructor; [done|]. apply Forall_forall. intros w Hin. apply list_elem_of_In, filter_In in Hin as [Hin _]. rewrite Forall_forall in Hw. apply Hw. by apply list_elem_of_In.
  - cbn [fmap list_fmap]. constructor.
    + intros Hin. apply list_elem_of_fmap in Hin as (w & Heq & Hin). apply list_elem_of_In, filter_In in Hin as [_ Hs]. apply negb_true_iff in Hs.
      unfold worker_key in Heq. cbn [worker_entry we_peer_host we_model_id we_layer_start we_layer_end we_has_output] in Heq. injection Heq as E1 E2 E3 E4 E5.
      unfold stale in Hs. by rewrite <- E1, <- E2, <- E3, <- E4, <- E5, bytes_eqb_refl, !Z.eqb_refl in Hs.
    + clear -Hk. induction (co_workers s) as [|w ws IH]; [constructor|]. cbn [fmap list_fmap] in Hk. apply NoDup_cons in Hk as [Hnin Hk]. cbn [List.filter].
      destruct (negb _); [|by apply IH]. cbn [fmap list_fmap]. constructor; [|by apply IH]. intros Hin. apply Hnin.
      apply list_elem_of_fmap in Hin as (x & Hx & Hin). apply list_elem_of_fmap. exists x. split; [done|]. apply list_elem_of_In, filter_In in Hin as [Hin _]. by apply list_elem_of_In.
Qed.

(** Unlinking an entry keeps the others. *)
Lemma unlink_first_split p ws ws' : unlink_first p ws = Some ws' -> exists a w b, ws = a ++ w :: b /\ ws' = a ++ b /\ p w = true /\ Forall (fun x => p x = false) a.
Proof.
  revert ws'. induction ws as [|w ws IH]; intros ws' H; [done|]. cbn [unlink_first] in H. destruct (p w) eqn:Ep.
  - injection H as <-. by exists [], w, ws.
  - destruct (unlink_first p ws) as [ws1|]; [|done]. injection H as <-. destruct (IH ws1 eq_refl) as (a & x & b & -> & -> & Hx & Ha).
    exists (w :: a), x, b. split_and!; try done. by constructor.
Qed.

Lemma unlink_first_ok s p l ws : Forall (registered s) l -> NoDup (worker_key <$> l) -> unlink_first p l = Some ws ->
  Forall (registered s) ws /\ NoDup (worker_key <$> ws).
Proof.
  intros Hw Hk Hu. apply unlink_first_split in Hu as (a & x & b & -> & -> & _). apply Forall_app in Hw as [Ha Hb].
  apply Forall_cons in Hb as [_ Hb]. split; [by apply Forall_app|]. rewrite fmap_app in Hk |- *. cbn [fmap list_fmap] in Hk.
  apply NoDup_app in Hk as (H1 & H2 & H3). apply NoDup_cons in H3 as [_ H3]. apply NoDup_app. split_and!; try done.
  intros y Hy Hin. apply (H2 y Hy). by right.
Qed.

Lemma remove_worker_ok s fd : registry_ok s -> registry_ok (dist_coordinator_remove_worker s fd).
Proof.
  intros [Hn Hw Hk]. unfold dist_coordinator_remove_worker. destruct (unlink_first _ _) as [ws|] eqn:E; [|done].
  destruct (unlink_first_ok s _ _ ws Hw Hk E). by apply registry_ok_set.
Qed.

Lemma forget_fold s routes ws flag : Forall (registered s) ws -> NoDup (worker_key <$> ws) ->
  let '(ws', flag') := foldl forget_step (ws, flag) routes in
  Forall (registered s) ws' /\ NoDup (worker_key <$> ws') /\ (flag = true -> flag' = true) /\ (flag' = flag -> ws' = ws \/ flag = true).
Proof.
  revert ws flag. induction routes as [|r routes IH]; intros ws flag Hw Hk; [cbn [foldl]; by split_and!; auto|]. cbn [foldl]. unfold forget_step at 2. cbn [fst].
  destruct (unlink_first (dist_route_entry_matches_worker r) ws) as [ws1|] eqn:E.
  - destruct (unlink_first_ok s _ _ ws1 Hw Hk E) as [H1 H2]. pose proof (IH ws1 true H1 H2) as Hf. destruct (foldl _ _ _) as [ws' flag'].
    destruct Hf as (? & ? & Ht & _). split_and!; try done; [intros _; by apply Ht|]. intros Heq. right. rewrite <- Heq. by apply Ht.
  - exact (IH ws flag Hw Hk).
Qed.

Lemma forget_ok s plan : registry_ok s -> registry_ok (dist_coordinator_forget_route_workers s plan).
Proof.
  intros [Hn Hw Hk]. unfold dist_coordinator_forget_route_workers. pose proof (forget_fold s (pl_entry plan) (co_workers s) false Hw Hk) as Hf.
  destruct (foldl _ _ _) as [ws removed]. destruct Hf as (H1 & H2 & _). by apply registry_ok_set.
Qed.

(** ** The search *)

Section Search.
Context (s : ds4_dist_coordinator_state) (workers : list ds4_dist_worker_entry) (last : Z).

(** A chain of workers that runs the layers from [next] to the last. *)
Inductive chain : Z -> list ds4_dist_worker_entry -> Prop :=
  | chain_last next w : w ∈ workers -> we_layer_start w = next -> dist_worker_route_candidate_ok s w last = true -> last <= we_layer_end w -> chain next [w]
  | chain_step next w path : w ∈ workers -> we_layer_start w = next -> dist_worker_route_candidate_ok s w last = true -> we_layer_end w < last ->
      chain (we_layer_end w + 1) path -> chain next (w :: path).

(** A worker that begins a chain. *)
Definition leads (w : ds4_dist_worker_entry) : Prop :=
  dist_worker_route_candidate_ok s w last = true /\ (last <= we_layer_end w \/ exists path, chain (we_layer_end w + 1) path).

Lemma chain_leads next path : chain next path -> exists w, w ∈ workers /\ we_layer_start w = next /\ leads w.
Proof. intros [? w Hw Hs Hc Hl | ? w p Hw Hs Hc Hl Hp]; exists w; (split_and!; [done|done|]); (split; [done|]); [by left | right; by exists p]. Qed.

Context (Hsorted : StronglySorted (fun a b => we_layer_start a <= we_layer_start b) workers).
Context (Hvalid : Forall (fun w => 0 <= we_layer_start w <= we_layer_end w /\ we_layer_end w < U32_MAX) workers).

Lemma next_small w : w ∈ workers -> u32 (we_layer_end w + 1) = we_layer_end w + 1.
Proof. intros Hw. rewrite Forall_forall in Hvalid. specialize (Hvalid w Hw). apply u32_small. unfold is_u32. lia. Qed.

(** How a search from [next] ends. *)
Definition search_result (next : Z) (r : option (list ds4_dist_worker_entry) * Z) : Prop :=
  match fst r with Some path => chain next path | None => forall path, ~ chain next path end.

(** Workers that start at [next] or behind: the recursion uses one up. *)
Definition ahead (next : Z) : nat := length (List.filter (fun w => next <=? we_layer_start w) workers).

Lemma ahead_mono a b ws : a <= b ->
  (length (List.filter (fun w => Z.leb b (we_layer_start w)) ws) <= length (List.filter (fun w => Z.leb a (we_layer_start w)) ws))%nat.
Proof.
  intros Hab. induction ws as [|x ws IH]; [done|]. cbn [List.filter]. destruct (Z.leb_spec b (we_layer_start x)), (Z.leb_spec a (we_layer_start x)); cbn [length]; lia.
Qed.

Lemma ahead_step w : w ∈ workers -> (ahead (we_layer_end w + 1) < ahead (we_layer_start w))%nat.
Proof.
  intros Hw. unfold ahead. assert (Hlt : we_layer_start w < we_layer_end w + 1) by (rewrite Forall_forall in Hvalid; specialize (Hvalid w Hw); lia).
  apply list_elem_of_split in Hw as (a & b & ->). rewrite !List.filter_app, !length_app. cbn [List.filter]. rewrite (proj2 (Z.leb_gt _ _)), Z.leb_refl by lia. cbn [length].
  pose proof (ahead_mono _ _ a (Z.lt_le_incl _ _ Hlt)). pose proof (ahead_mono _ _ b (Z.lt_le_incl _ _ Hlt)). lia.
Qed.

Lemma scan_spec search next ws saw missing : ws ⊆ workers -> StronglySorted (fun a b => we_layer_start a <= we_layer_start b) ws ->
  (forall w, w ∈ workers -> we_layer_start w = next -> exists r, search (we_layer_end w + 1) = Some r /\ search_result (we_layer_end w + 1) r) ->
  exists r, scan_workers s search next last ws saw missing = Some r /\
    match fst r with Some path => chain next path | None => forall w, w ∈ ws -> we_layer_start w = next -> ~ leads w end.
Proof.
  intros Hsub Hs Hsearch. revert saw missing. induction Hs as [|w ws Hs IH Hle]; intros saw missing; cbn [scan_workers].
  - eexists. split; [done|]. cbn [fst]. intros w Hw. by apply not_elem_of_nil in Hw.
  - assert (Hin : w ∈ workers) by (apply Hsub; left). assert (Hsub' : ws ⊆ workers) by (intros x Hx; apply Hsub; by right). specialize (IH Hsub').
    (* a worker that leads nowhere is passed over *)
    assert (Hskip : ~ (we_layer_start w = next /\ leads w) -> forall saw missing, exists r, scan_workers s search next last ws saw missing = Some r /\
      match fst r with Some path => chain next path | None => forall x, x ∈ w :: ws -> we_layer_start x = next -> ~ leads x end).
    { intros Hno saw' missing'. destruct (IH saw' missing') as (r & Hr & Hres). exists r. split; [done|]. destruct (fst r); [done|].
      intros x Hx Hxs Hl. apply elem_of_cons in Hx as [->|Hx]; [by apply Hno | by apply (Hres x)]. }
    destruct (Z.ltb_spec (we_layer_start w) next); [apply Hskip; intros [? _]; lia|].
    destruct (Z.ltb_spec next (we_layer_start w)).
    + eexists. split; [done|]. cbn [fst]. intros x Hx Hxs. apply elem_of_cons in Hx as [->|Hx]; [lia|]. rewrite Forall_forall in Hle. specialize (Hle x Hx). lia.
    + destruct (dist_worker_route_candidate_ok s w last) eqn:Hc; cbn [negb]; [|apply Hskip; intros [_ [Hc' _]]; congruence].
      destruct (Z.leb_spec last (we_layer_end w)) as [Hlast|Hlast].
      * eexists. split; [done|]. cbn [fst]. apply chain_last; [done|lia|done|done].
      * rewrite next_small by done. destruct (Hsearch w Hin ltac:(lia)) as ([[path|] m] & Hr & Hres); rewrite Hr; cbn [search_result fst] in Hres.
        -- eexists. split; [done|]. cbn [fst]. apply chain_step; [done|lia|done|done|done].
        -- apply Hskip. intros [_ [_ [Hl|[p Hp]]]]; [lia | by apply (Hres p)].
Qed.

(** Enough fuel: the search ends, finds only chains, and finds one if there is one. *)
Lemma search_spec fuel next missing : (ahead next < fuel)%nat ->
  exists r, dist_route_search_workers s fuel workers next last missing = Some r /\ search_result next r.
Proof.
  revert next missing. induction fuel as [|fuel IH]; intros next missing Hf; [lia|]. cbn [dist_route_search_workers].
  destruct (scan_spec (fun child => dist_route_search_workers s fuel workers child last child) next workers false missing) as (r & Hr & Hres); [done|done| |].
  - intros w Hw <-. apply IH. pose proof (ahead_step w Hw). lia.
  - exists r. split; [exact Hr|]. unfold search_result. destruct (fst r); [done|]. intros path Hp. destruct (chain_leads _ _ Hp) as (w & Hw & Hws & Hl). by apply (Hres w).
Qed.

Lemma ahead_bound next : (ahead next < S (length workers))%nat.
Proof. unfold ahead. pose proof (filter_length_le (fun w => next <=? we_layer_start w) workers). lia. Qed.

(** A chain is made of different workers, in the order of their layers. *)
Lemma chain_in next path : chain next path -> Forall (fun w => w ∈ workers /\ next <= we_layer_start w) path.
Proof.
  induction 1 as [next w Hw Hs _ _|next w path Hw Hs _ _ _ IH].
  - constructor; [|constructor]. split; [done|lia].
  - constructor; [split; [done|lia]|]. apply (Forall_impl _ _ _ IH). intros x [Hx Hn]. split; [done|]. rewrite Forall_forall in Hvalid. specialize (Hvalid w Hw). lia.
Qed.

Lemma chain_NoDup next path : chain next path -> NoDup path.
Proof.
  induction 1 as [next w Hw Hs _ _|next w path Hw Hs _ _ Hp IH]; [apply NoDup_singleton|]. constructor; [|done].
  intros Hin. apply chain_in in Hp. rewrite Forall_forall in Hp, Hvalid. destruct (Hp w Hin) as [_ Hn]. specialize (Hvalid w Hw). lia.
Qed.

Lemma chain_short next path : chain next path -> (length path <= length workers)%nat.
Proof.
  intros Hp. apply NoDup_incl_length; [apply NoDup_ListNoDup; by eapply chain_NoDup|]. intros w Hw. apply list_elem_of_In. apply list_elem_of_In in Hw.
  apply chain_in in Hp. rewrite Forall_forall in Hp. by apply Hp.
Qed.
End Search.

(** ** The encoded route *)

Definition fixed_of (e : ds4_dist_route_entry) : ds4_dist_route_fixed :=
  RouteFixed (zlen (ro_host e)) (ro_port e) (ro_layer_start e) (ro_layer_end e) (ro_flags e).

Definition encode_entry (e : ds4_dist_route_entry) : bytes := wire_image (fixed_of e) ++ ro_host e.

Definition upstream : bytes := wire_image (RouteReturn DS4_DIST_ROUTE_RETURN_UPSTREAM 0 0).

(** The bytes of a route. *)
Definition route_bytes (es : list ds4_dist_route_entry) : bytes := (es ≫= encode_entry) ++ upstream.

Record entry_ok (n_layers : Z) (e : ds4_dist_route_entry) : Prop := {
  eo_host : host_ok (ro_host e);
  eo_port : 0 < ro_port e <= 65535;
  eo_layers : 0 <= ro_layer_start e <= ro_layer_end e /\ ro_layer_end e < n_layers;
  eo_flags : ro_flags e = 0 \/ (ro_flags e = DS4_DIST_ROUTE_F_OUTPUT_LOGITS /\ ro_layer_end e + 1 = n_layers) }.

(** Layers run without gap or overlap from [next] to [last]. *)
Fixpoint tiles (next last : Z) (es : list ds4_dist_route_entry) : Prop :=
  match es with
  | [] => False
  | [e] => ro_layer_start e = next /\ ro_layer_end e = last
  | e :: es' => ro_layer_start e = next /\ ro_layer_end e < last /\ tiles (ro_layer_end e + 1) last es'
  end.

Section Blob.
Context (n_layers : Z) (Hn : n_layers <= U32_MAX).

Lemma fixed_of_ok e : entry_ok n_layers e -> record_ok (fixed_of e).
Proof.
  intros [[Hh _] Hp Hl Hf]. unfold NI_MAXHOST, U32_MAX in *. words_ok; unfold is_u32, U32_MAX; try lia. destruct Hf as [-> | [-> _]]; done.
Qed.

Lemma take_fixed_encode e rest : entry_ok n_layers e -> take_fixed (encode_entry e ++ rest) = Some (fixed_of e, ro_host e ++ rest).
Proof.
  intros He. unfold take_fixed, encode_entry. rewrite <- (assoc_L (++)). pose proof (wire_size_image (fixed_of e)) as Hz.
  assert (Hl : length (wire_image (fixed_of e)) = Z.to_nat (wire_size ds4_dist_route_fixed)) by (unfold zlen in Hz; lia).
  rewrite (proj2 (Nat.ltb_ge _ _)) by (rewrite length_app; lia). rewrite take_app_length', drop_app_length' by done. rewrite wire_roundtrip; [done|]. by apply fixed_of_ok.
Qed.

Lemma have_nul_false p rest n : zlen p = n -> 0 ∉ p -> dist_bytes_have_nul (p ++ rest) n = false.
Proof.
  intros <- Hp. unfold dist_bytes_have_nul. destruct (zlen p =? 0); [done|]. cbn [negb andb]. unfold zlen. rewrite Nat2Z.id, take_app_length.
  apply not_true_iff_false. rewrite existsb_exists. intros (x & Hx & Heq). apply Z.eqb_eq in Heq. subst x. apply Hp. by apply list_elem_of_In.
Qed.

Lemma host_parsed e rest : entry_ok n_layers e ->
  (rt_host_len (fixed_of e) =? 0) || (NI_MAXHOST <=? rt_host_len (fixed_of e)) || (zlen (ro_host e ++ rest) <? rt_host_len (fixed_of e)) = false /\
  dist_bytes_have_nul (ro_host e ++ rest) (rt_host_len (fixed_of e)) = false /\
  take (Z.to_nat (rt_host_len (fixed_of e))) (ro_host e ++ rest) = ro_host e /\ drop (Z.to_nat (rt_host_len (fixed_of e))) (ro_host e ++ rest) = rest.
Proof.
  intros [[Hh [Hnul _]] _ _ _]. cbn [fixed_of rt_host_len]. rewrite zlen_app. pose proof (zlen_nonneg rest).
  rewrite (proj2 (Z.eqb_neq _ 0)), (proj2 (Z.leb_gt NI_MAXHOST _)), (proj2 (Z.ltb_ge _ (zlen (ro_host e)))) by lia. split; [done|].
  split; [by apply have_nul_false|]. unfold zlen. rewrite Nat2Z.id. by rewrite take_app_length, drop_app_length.
Qed.

Lemma get_entry_encoded es rest i e : Forall (entry_ok n_layers) es -> es !! i = Some e ->
  get_entry_loop (length es) ((es ≫= encode_entry) ++ rest) i = inr (RouteEntry (ro_host e) (ro_port e) (ro_layer_start e) (ro_layer_end e) (ro_flags e) (-1)).
Proof.
  intros Hes. revert i. induction Hes as [|x es Hx Hes IH]; intros i Hi; [done|]. rewrite bind_cons, <- (assoc_L (++)). cbn [length get_entry_loop].
  rewrite take_fixed_encode by done. destruct (host_parsed x ((es ≫= encode_entry) ++ rest) Hx) as (-> & -> & Ht & Hd). destruct i as [|i]; cbn [lookup list_lookup] in Hi.
  - injection Hi as ->. by rewrite Ht.
  - rewrite Hd. by apply IH.
Qed.

Lemma skip_encoded es rest : Forall (entry_ok n_layers) es -> skip_entries (length es) ((es ≫= encode_entry) ++ rest) = inr rest.
Proof.
  induction 1 as [|x es Hx Hes IH]; [done|]. rewrite bind_cons, <- (assoc_L (++)). cbn [length skip_entries].
  rewrite take_fixed_encode by done. destruct (host_parsed x ((es ≫= encode_entry) ++ rest) Hx) as (Hb & -> & _ & Hd).
  apply orb_false_iff in Hb as [_ ->]. rewrite Hd. apply IH.
Qed.

Lemma take_return_upstream : take_return upstream = Some (RouteReturn DS4_DIST_ROUTE_RETURN_UPSTREAM 0 0, []).
Proof. reflexivity. Qed.

(** [prev] is the layer before the first entry, or there is none. *)
Lemma validate_encoded es rest first prev next last : Forall (entry_ok n_layers) es -> tiles next last es -> (first = true \/ next = prev + 1 /\ 0 <= prev) ->
  validate_entries (length es) ((es ≫= encode_entry) ++ rest) first prev n_layers = inr rest.
Proof.
  intros Hes. revert first prev next. induction Hes as [|x es Hx Hes IH]; intros first prev next Ht Hfirst; [done|]. rewrite bind_cons, <- (assoc_L (++)).
  cbn [length validate_entries]. rewrite take_fixed_encode by done.
  destruct (host_parsed x ((es ≫= encode_entry) ++ rest) Hx) as (Hb & Hnul & _ & Hd). unfold check_entry. rewrite Hb, Hnul, Hd. cbn [fixed_of rt_port rt_layer_start rt_layer_end rt_flags].
  destruct Hx as [_ Hp Hl Hf].
  assert (Hstart : ro_layer_start x = next) by (destruct es; apply Ht). unfold U32_MAX in Hn.
  rewrite (proj2 (Z.eqb_neq _ 0)), (proj2 (Z.ltb_ge 65535 _)), !(proj2 (Z.leb_gt n_layers _)), (proj2 (Z.ltb_ge _ (ro_layer_start x))) by lia. cbn [orb].
  assert (Hflags : (negb (Z.land (ro_flags x) (U32_MAX - DS4_DIST_ROUTE_F_OUTPUT_LOGITS) =? 0) = false) /\
    (negb (Z.land (ro_flags x) DS4_DIST_ROUTE_F_OUTPUT_LOGITS =? 0) && negb (u32 (ro_layer_end x + 1) =? n_layers)) = false).
  { destruct Hf as [-> | [-> He]]; [done|]. split; [done|]. rewrite u32_small by (unfold is_u32, U32_MAX; lia). rewrite He, Z.eqb_refl. done. }
  destruct Hflags as [-> ->].
  assert (Hcont : negb first && negb (ro_layer_start x =? u32 (prev + 1)) = false).
  { destruct Hfirst as [-> | [Hnext Hprev]]; [done|]. rewrite u32_small by (unfold is_u32, U32_MAX; lia). rewrite (proj2 (Z.eqb_eq _ _)) by lia. apply andb_false_r. }
  rewrite Hcont. destruct es as [|y es]; [done|]. destruct Ht as (_ & _ & Ht). apply (IH _ _ _ Ht). right. lia.
Qed.

Lemma route_bytes_nonempty es : (length (route_bytes es) =? 0)%nat = false.
Proof. unfold route_bytes. apply Nat.eqb_neq. rewrite length_app. change (length upstream) with 12%nat. lia. Qed.

(** A worker that is sent a route reads back what the coordinator planned. *)
Lemma route_read es next last : Forall (entry_ok n_layers) es -> tiles next last es ->
  dist_route_validate_blob (length es) (route_bytes es) n_layers = None /\
  (forall i e, es !! i = Some e -> dist_route_get_entry (length es) (route_bytes es) i =
     inr (RouteEntry (ro_host e) (ro_port e) (ro_layer_start e) (ro_layer_end e) (ro_flags e) (-1))) /\
  dist_route_get_return_target (length es) (route_bytes es) = inr (RouteTarget [] 0 DS4_DIST_ROUTE_RETURN_UPSTREAM).
Proof.
  intros Hes Ht. assert (Hne : (length es =? 0)%nat = false) by by destruct es. split_and!.
  - unfold dist_route_validate_blob. rewrite Hne, route_bytes_nonempty. unfold route_bytes. rewrite (validate_encoded es upstream true U32_MAX next last) by (done || by left). done.
  - intros i e Hi. unfold dist_route_get_entry. rewrite route_bytes_nonempty. apply lookup_lt_Some in Hi as Hlt. rewrite (proj2 (Nat.leb_gt _ _)) by lia. by apply get_entry_encoded.
  - unfold dist_route_get_return_target. rewrite Hne, route_bytes_nonempty. unfold route_bytes. by rewrite skip_encoded.
Qed.
End Blob.

(** ** Planning *)

(** The entries of a path; the first one has the connection. *)
Fixpoint entries_of (use_control first : bool) (dup : ds4_dist_worker_entry -> Z) (path : list ds4_dist_worker_entry) : list ds4_dist_route_entry :=
  match path with
  | [] => []
  | w :: path' => route_entry w (if use_control && first then dup w else -1) :: entries_of use_control false dup path'
  end.

Lemma entries_of_length uc first dup path : length (entries_of uc first dup path) = length path.
Proof. revert first. induction path; intros first; cbn; by f_equal. Qed.

Lemma encode_length e : zlen (encode_entry e) = 20 + zlen (ro_host e).
Proof. unfold encode_entry. rewrite zlen_app, wire_size_image. reflexivity. Qed.

Lemma snoc_length {A} (l : list A) x : (length (l ++ [x]) =? 0)%nat = false.
Proof. apply Nat.eqb_neq. rewrite length_app. cbn. lia. Qed.

Lemma plan_entries_inr uc dup path es blob plan : plan_entries uc dup path (Plan es blob) = inr plan ->
  pl_entry plan = es ++ entries_of uc (length es =? 0)%nat dup path /\ pl_blob plan = blob ++ (entries_of uc (length es =? 0)%nat dup path ≫= encode_entry).
Proof.
  revert es blob. induction path as [|w path IH]; intros es blob; cbn [plan_entries entries_of pl_entry pl_blob].
  - intros [= <-]. cbn. by rewrite !app_nil_r.
  - destruct (_ && (dup w <? 0)); [discriminate|]. destruct (dist_route_plan_append_blob _ _) as [err|blob'] eqn:E; [discriminate|]. intros H.
    apply IH in H. rewrite snoc_length in H. destruct H as [-> ->]. rewrite bind_cons. rewrite <- (assoc_L (++)). split; [done|].
    unfold dist_route_plan_append_blob in E. cbv zeta in E. do 2 (destruct (_ || _) in E; [discriminate E|]). injection E as <-. unfold encode_entry, fixed_of. by rewrite <- !(assoc_L (++)).
Qed.

(** The room a route takes: an entry is at most 1044 bytes. *)
Lemma plan_entries_succeeds uc dup path es blob : Forall (fun w => host_ok (we_peer_host w)) path -> zlen blob + 1044 * zlen path <= U32_MAX ->
  (forall w, head path = Some w -> uc && (length es =? 0)%nat = true -> 0 <= dup w) -> exists plan, plan_entries uc dup path (Plan es blob) = inr plan.
Proof.
  intros Hh. revert es blob. induction Hh as [|w path Hw Hh IH]; intros es blob Hz Hd; cbn [plan_entries pl_entry pl_blob]; [by eexists|].
  assert (Hdup : uc && (length es =? 0)%nat && (dup w <? 0) = false).
  { destruct (uc && (length es =? 0)%nat) eqn:E; [|done]. cbn [andb]. apply Z.ltb_ge. by apply Hd. }
  rewrite Hdup. unfold dist_route_plan_append_blob. cbn [route_entry ro_host]. destruct Hw as [Hl _]. unfold NI_MAXHOST in Hl. pose proof (zlen_nonneg blob). pose proof (zlen_nonneg path).
  assert (Hcons : zlen (w :: path) = 1 + zlen path) by (unfold zlen; cbn [length]; lia). rewrite Hcons in Hz. unfold U32_MAX in *.
  rewrite (proj2 (Z.eqb_neq _ 0)), (proj2 (Z.leb_gt NI_MAXHOST _)) by (unfold NI_MAXHOST; lia). cbn [orb]. change (wire_size ds4_dist_route_fixed) with 20.
  rewrite (proj2 (Z.ltb_ge 4294967295 _)), (proj2 (Z.ltb_ge _ (zlen blob))) by lia. cbn [orb]. apply IH.
  - rewrite !zlen_app, wire_size_image. change (wire_size ds4_dist_route_fixed) with 20. lia.
  - intros x _. rewrite snoc_length, andb_false_r. discriminate.
Qed.

Section Plans.
Context (s : ds4_dist_coordinator_state) (Hs : registry_ok s).

Let last := co_n_layers s - 1.

Lemma entry_of_registered w fd : registered s w -> entry_ok (co_n_layers s) (route_entry w fd).
Proof.
  intros [_ Hh Hl Ho _ _ Hp]. constructor; cbn [route_entry ro_host ro_port ro_layer_start ro_layer_end ro_flags]; try done.
  destruct Ho as [-> | [-> Ho]]; [by left | by right].
Qed.

Lemma entries_ok uc first dup path : Forall (registered s) path -> Forall (entry_ok (co_n_layers s)) (entries_of uc first dup path).
Proof.
  intros Hp. revert first. induction Hp as [|w path Hw Hp IH]; intros first; [constructor|]. cbn [entries_of]. constructor; [by apply entry_of_registered | apply IH].
Qed.

(** Every worker of a chain is in the registry, its layers follow, and the last
    one gives logits or a hidden state the coordinator can finish. *)
Lemma chain_tiles ws next path uc first dup : Forall (registered s) ws -> chain s ws last next path ->
  tiles next last (entries_of uc first dup path) /\ Forall (registered s) path /\
  exists w, List.last path (WorkerEntry 0 [] [] [] 0 0 0 0 0 0 0 0 0) = w /\ (we_has_output w = 1 \/ co_local_can_output_head s = true).
Proof.
  intros Hws Hc. rewrite Forall_forall in Hws. revert first. induction Hc as [next w Hw Hst Hok Hl|next w path Hw Hst Hok Hl Hc IH]; intros first; pose proof (Hws w Hw) as Hr; pose proof Hr as [_ _ Hlay Ho _ _ _].
  - cbn [entries_of tiles route_entry ro_layer_start ro_layer_end]. split_and!; [done|unfold last in *; lia|by constructor|]. exists w. split; [done|].
    unfold dist_worker_route_candidate_ok in Hok. cbv zeta in Hok. case_if_in Hok; [done|]. rewrite (proj2 (Z.leb_le _ _)) in Hok by done. cbn [andb] in Hok.
    destruct Ho as [Ho | [Ho _]]; [|by left]. right. rewrite Ho in Hok. cbn [Z.eqb andb] in Hok. by destruct (co_local_can_output_head s).
  - destruct (IH false) as (Ht & Hf & Hlast). split_and!.
    + destruct path as [|x path]; [inversion Hc|]. cbn [entries_of tiles route_entry ro_layer_start ro_layer_end] in *. split_and!; [done|lia|exact Ht].
    + by constructor.
    + destruct path as [|x path]; [inversion Hc|]. exact Hlast.
Qed.
End Plans.

Section Building.
Context `{Qsort} (s : ds4_dist_coordinator_state) (Hs : registry_ok s) (Hend : 0 <= co_local_end s < co_n_layers s).

Lemma cmp_starts a b : dist_worker_route_cmp a b <= 0 -> we_layer_start a <= we_layer_start b.
Proof. unfold dist_worker_route_cmp. repeat case_if; bool_prop; lia. Qed.

Lemma sorted_starts ws : Sorted (fun a b => dist_worker_route_cmp a b <= 0) ws -> StronglySorted (fun a b => we_layer_start a <= we_layer_start b) ws.
Proof.
  induction 1 as [|w ws Hw IH Hh]; [constructor|]. constructor; [done|]. destruct Hh as [|x ws Hx]; [constructor|].
  apply cmp_starts in Hx. apply StronglySorted_inv in IH as [_ Hf]. constructor; [done|]. apply (Forall_impl _ _ _ Hf). intros y Hy. lia.
Qed.

Let workers := qsort dist_worker_route_cmp (co_workers s).
Let last := co_n_layers s - 1.

Lemma workers_registered : Forall (registered s) workers.
Proof. unfold workers. rewrite qsort_permutes. apply Hs. Qed.

Lemma workers_valid_of : Forall (fun w => 0 <= we_layer_start w <= we_layer_end w /\ we_layer_end w < U32_MAX) (co_workers s).
Proof.
  apply (Forall_impl _ _ _ (ro_workers _ Hs)). intros w [_ _ Hl _ _ _ _]. destruct Hs as [Hn _ _]. lia.
Qed.

Lemma workers_valid : Forall (fun w => 0 <= we_layer_start w <= we_layer_end w /\ we_layer_end w < U32_MAX) workers.
Proof. unfold workers. rewrite qsort_permutes. apply workers_valid_of. Qed.

Lemma last_small : u32 (co_n_layers s - 1) = last.
Proof. destruct Hs as [Hn _ _]. unfold U32_MAX in Hn. apply u32_small. unfold is_u32, U32_MAX. lia. Qed.

Lemma next_local : u32 (co_local_end s + 1) = co_local_end s + 1.
Proof. destruct Hs as [Hn _ _]. unfold U32_MAX in Hn. apply u32_small. unfold is_u32, U32_MAX. lia. Qed.

(** The search of the plan. *)
Lemma plan_search : exists r, dist_route_search_workers s (S (length workers)) workers (co_local_end s + 1) last (co_local_end s + 1) = Some r /\
  search_result s workers last (co_local_end s + 1) r.
Proof.
  apply search_spec; [apply sorted_starts, qsort_sorts | apply workers_valid | apply ahead_bound].
Qed.

(** Whether the coordinator runs the whole model itself. *)
Definition local_complete : bool := (co_local_end s =? co_n_layers s - 1) && (co_local_has_output s || co_local_can_output_head s).

Lemma chain_workers next path : chain s workers last next path <-> chain s (co_workers s) last next path.
Proof.
  assert (Hin : forall w, w ∈ workers <-> w ∈ co_workers s) by (intros w; unfold workers; by rewrite qsort_permutes).
  split; (induction 1; [apply chain_last | apply chain_step]; try done; by apply Hin).
Qed.

(** What a plan for a chain is. *)
Definition plans (dup : ds4_dist_worker_entry -> Z) (plan : ds4_dist_route_plan) : Prop :=
  exists path, chain s (co_workers s) (co_n_layers s - 1) (co_local_end s + 1) path /\
    pl_entry plan = entries_of (co_use_control_for_work s) true dup path /\ pl_blob plan = route_bytes (pl_entry plan).

Lemma build_inr dup plan g : dist_coordinator_build_route_plan s dup = inr (plan, g) ->
  g = co_generation s /\ co_local_start s = 0 /\ ((local_complete = true /\ plan = Plan [] []) \/ (local_complete = false /\ plans dup plan)).
Proof.
  unfold dist_coordinator_build_route_plan. fold workers. cbv zeta. rewrite last_small, next_local. change ((co_local_end s =? last) && _) with local_complete.
  destruct (Z.eqb_spec (co_local_start s) 0) as [Hst|]; [|discriminate]. cbn [negb].
  destruct local_complete; [intros [= <- <-]; by auto|]. destruct plan_search as ([[path|] m] & Hr & Hres); rewrite Hr; [|discriminate].
  cbn [search_result fst] in Hres. destruct (plan_entries _ _ _ _) as [err|p] eqn:E; [discriminate|]. apply plan_entries_inr in E as [He Hb]. cbn [length Nat.eqb app] in He, Hb.
  assert (Hne : (length (pl_entry p) =? 0)%nat = false) by (rewrite He, entries_of_length; by destruct Hres). rewrite Hne. cbn [negb].
  unfold dist_route_plan_append_return_upstream. destruct (_ <? _); [discriminate|]. intros [= <- <-]. split; [done|]. split; [done|]. right. split; [done|].
  exists path. cbn [pl_entry pl_blob]. split; [by apply chain_workers|]. split; [done|]. unfold route_bytes. by rewrite Hb, <- He.
Qed.

Lemma entries_room uc first dup path : Forall (registered s) path -> zlen (entries_of uc first dup path ≫= encode_entry) <= 1044 * zlen path.
Proof.
  intros Hp. revert first. induction Hp as [|w path Hw Hp IH]; intros first; [done|]. cbn [entries_of]. rewrite bind_cons, zlen_app, encode_length. cbn [route_entry ro_host].
  destruct Hw as [_ [Hh _] _ _ _ _ _]. unfold NI_MAXHOST in Hh. specialize (IH false). unfold zlen in *. cbn [length]. lia.
Qed.

(** With room for the route and a connection to duplicate, a chain is planned. *)
Lemma build_succeeds dup path : co_local_start s = 0 -> local_complete = false -> chain s (co_workers s) last (co_local_end s + 1) path ->
  1044 * zlen (co_workers s) + 12 <= U32_MAX -> (forall w, w ∈ co_workers s -> 0 <= dup w) -> exists plan, dist_coordinator_build_route_plan s dup = inr (plan, co_generation s).
Proof.
  intros Hst Hl Hc Hroom Hdup. apply chain_workers in Hc. unfold dist_coordinator_build_route_plan. fold workers. cbv zeta. rewrite last_small, next_local, Hst. cbn [Z.eqb negb].
  change ((co_local_end s =? last) && _) with local_complete. rewrite Hl. destruct plan_search as ([[path'|] m] & Hr & Hres); rewrite Hr; [|by destruct (Hres path)].
  cbn [search_result fst] in Hres. pose proof (chain_short s workers last workers_valid _ _ Hres) as Hlen. unfold workers in Hlen. rewrite qsort_permutes in Hlen.
  pose proof (chain_tiles s workers _ _ (co_use_control_for_work s) true dup workers_registered Hres) as (_ & Hreg & _).
  pose proof (chain_in s workers last workers_valid _ _ Hres) as Hin. unfold U32_MAX, zlen in Hroom.
  destruct (plan_entries_succeeds (co_use_control_for_work s) dup path' [] []) as [p Hp].
  - apply (Forall_impl _ _ _ Hreg). by intros w [].
  - unfold zlen, U32_MAX. cbn [length]. lia.
  - intros w Hw _. apply Hdup. destruct path'; [done|]. injection Hw as ->. apply Forall_cons in Hin as [[Hw _] _]. unfold workers in Hw. by rewrite qsort_permutes in Hw.
  - rewrite Hp. apply plan_entries_inr in Hp as [He Hb]. cbn [length Nat.eqb app] in He, Hb. destruct (negb _); [|by eexists].
    unfold dist_route_plan_append_return_upstream. change (wire_size ds4_dist_route_return_fixed) with 12. rewrite (proj2 (Z.ltb_ge _ _)); [by eexists|].
    rewrite Hb. pose proof (entries_room (co_use_control_for_work s) true dup path' Hreg). unfold U32_MAX, zlen in *. lia.
Qed.

(** Without a chain there is no plan. *)
Lemma build_fails dup : local_complete = false -> (forall path, ~ chain s (co_workers s) last (co_local_end s + 1) path) ->
  exists err, dist_coordinator_build_route_plan s dup = inl err.
Proof.
  intros Hl Hno. destruct (dist_coordinator_build_route_plan s dup) as [err|[plan g]] eqn:E; [by exists err|]. apply build_inr in E as (_ & _ & [[Hc _]|[_ (path & Hp & _)]]); [congruence|by destruct (Hno path)].
Qed.
End Building.

(** ** The registry and the session's plan over time *)

Inductive route_op :=
  | OpJoin (fd : Z) (peer_host peer_port : bytes) (hello : ds4_dist_hello_fixed) (model_name : bytes)
  | OpLeave (fd : Z)
  | OpForget
  | OpEnsure (dup : ds4_dist_worker_entry -> Z).

(** A greeting as [dist_recv_hello] delivers it, from an address that fits. *)
Definition op_ok (o : route_op) : Prop :=
  match o with OpJoin _ host _ hello _ => record_ok hello /\ host_ok host | _ => True end.

Section Trace.
Context `{Qsort}.

Definition route_step (st : ds4_dist_coordinator_state * route_cache) (o : route_op) : ds4_dist_coordinator_state * route_cache :=
  let '(s, d) := st in
  match o with
  | OpJoin fd host port hello name => (snd (dist_coordinator_client s fd host port hello name), d)
  | OpLeave fd => (dist_coordinator_remove_worker s fd, d)
  | OpForget => (dist_coordinator_forget_route_workers s (rc_plan d), d)
  | OpEnsure dup => (s, snd (dist_session_ensure_route s dup d))
  end.

(** The plan a session holds is one for the registry as it is, if it is marked
    with the registry's generation. *)
Definition plan_current (s : ds4_dist_coordinator_state) (d : route_cache) : Prop :=
  rc_ready d = true -> rc_generation d = co_generation s -> exists dup, dist_coordinator_build_route_plan s dup = inr (rc_plan d, co_generation s).

Record trace_inv (n : Z) (s0 : ds4_dist_coordinator_state) (st : ds4_dist_coordinator_state * route_cache) : Prop := {
  ti_registry : registry_ok (fst st);
  ti_generation : 0 <= co_generation (fst st) <= n;
  ti_cache : rc_ready (snd st) = true -> rc_generation (snd st) <= co_generation (fst st);
  ti_plan : plan_current (fst st) (snd st);
  ti_fixed : co_local_end (fst st) = co_local_end s0 /\ co_n_layers (fst st) = co_n_layers s0 }.

Lemma trace_changed n s0 s d ws : n < U64_MAX -> trace_inv n s0 (s, d) -> registry_ok (set_workers ws (u64 (co_generation s + 1)) s) ->
  trace_inv (n + 1) s0 (set_workers ws (u64 (co_generation s + 1)) s, d).
Proof.
  intros Hn [Hr Hg Hc Hp Hf] Hr'. unfold U64_MAX in Hn. cbn [fst snd] in *. assert (Hu : u64 (co_generation s + 1) = co_generation s + 1) by (apply u64_small; unfold is_u64, U64_MAX; lia).
  rewrite Hu in *. constructor; cbn [fst snd]; [done|cbn [set_workers co_generation]; lia| | |done].
  - cbn [set_workers co_generation]. intros Hready. specialize (Hc Hready). lia.
  - intros Hready Heq. cbn [set_workers co_generation] in Heq. specialize (Hc Hready). lia.
Qed.

Lemma trace_same n s0 st : trace_inv n s0 st -> trace_inv (n + 1) s0 st.
Proof. intros [Hr Hg Hc Hp Hf]. constructor; try done. lia. Qed.

Lemma trace_step n s0 st o : n < U64_MAX -> op_ok o -> trace_inv n s0 st -> trace_inv (n + 1) s0 (route_step st o).
Proof.
  destruct st as [s d]. intros Hn Ho Hi. pose proof Hi as [Hr Hg Hc Hp Hf]. cbn [fst snd] in *. destruct o as [fd host port hello name|fd| |dup]; cbn [route_step].
  - unfold dist_coordinator_client. destruct (check_worker s hello name) eqn:E; cbn [snd]; [by apply trace_same|]. destruct Ho as [Hok Hh].
    pose proof (add_worker_ok s fd host port hello name Hr Hok Hh E) as Hadd. unfold dist_coordinator_add_worker in *. destruct (co_shutting_down s); [by apply trace_same | by apply trace_changed].
  - pose proof (remove_worker_ok s fd Hr) as Hrem. unfold dist_coordinator_remove_worker in *. destruct (unlink_first _ _); [by apply trace_changed | by apply trace_same].
  - pose proof (forget_ok s (rc_plan d) Hr) as Hfo. unfold dist_coordinator_forget_route_workers in *.
    pose proof (forget_fold s (pl_entry (rc_plan d)) (co_workers s) false (ro_workers _ Hr) (ro_keys _ Hr)) as Hfold. destruct (foldl _ _ _) as [ws [|]]; [by apply trace_changed|].
    destruct Hfold as (_ & _ & _ & Hsame). destruct (Hsame eq_refl) as [-> |]; [|done]. replace (set_workers (co_workers s) (co_generation s) s) with s by by destruct s. by apply trace_same.
  - unfold dist_session_ensure_route. destruct (rc_ready d && _) eqn:E; cbn [snd]; [by apply trace_same|].
    destruct (dist_coordinator_build_route_plan s dup) as [err|[plan g]] eqn:Eb; (constructor; cbn [fst snd rc_ready rc_generation rc_plan]; try done; try lia).
    + assert (Hg' : g = co_generation s); [|lia]. unfold dist_coordinator_build_route_plan in Eb. repeat (case_if_in Eb || case_match); simplify_eq; done.
    + intros _ Hgen. cbn [rc_generation] in Hgen. exists dup. cbn [rc_plan]. by rewrite Eb, Hgen.
Qed.

Lemma trace_run ops n s0 st : n + zlen ops <= U64_MAX -> Forall op_ok ops -> trace_inv n s0 st -> trace_inv (n + zlen ops) s0 (foldl route_step st ops).
Proof.
  intros Hn Ho. revert n st Hn. induction Ho as [|o ops Ho Hos IH]; intros n st Hn Hi.
  - cbn [foldl]. by rewrite Z.add_0_r.
  - assert (Hl : zlen (o :: ops) = 1 + zlen ops) by (unfold zlen; cbn [length]; lia). rewrite Hl in *. pose proof (zlen_nonneg ops). cbn [foldl].
    rewrite Z.add_assoc. apply IH; [lia|]. apply trace_step; [lia|done|done].
Qed.
End Trace.

(** The entries of a chain name its workers. *)
Lemma entries_match s uc first dup path : Forall (registered s) path ->
  Forall2 (fun e w => dist_route_entry_matches_worker e w = true) (entries_of uc first dup path) path.
Proof.
  intros Hp. revert first. induction Hp as [|w path Hw Hp IH]; intros first; [constructor|]. cbn [entries_of]. constructor; [|apply IH].
  unfold dist_route_entry_matches_worker, route_entry. cbn [ro_flags ro_port ro_host ro_layer_start ro_layer_end]. rewrite !Z.eqb_refl, bytes_eqb_refl. cbn [andb].
  destruct Hw as [_ _ _ [-> | [-> _]] _ _ _]; done.
Qed.

(** Only the last entry can ask for logits: they need the final layer. *)
Lemma tiles_output n_layers next es i e : Forall (entry_ok n_layers) es -> tiles next (n_layers - 1) es -> es !! i = Some e ->
  ro_flags e = DS4_DIST_ROUTE_F_OUTPUT_LOGITS -> S i = length es.
Proof.
  intros Hes. revert next i. induction Hes as [|x es Hx Hes IH]; intros next i Ht Hi Hf; [done|]. destruct i as [|i]; cbn [lookup list_lookup] in Hi.
  - injection Hi as ->. destruct es as [|y es]; [done|]. destruct Ht as (_ & Hlt & _). destruct Hx as [_ _ _ [Hz | [_ Ho]]]; [by rewrite Hf in Hz | lia].
  - destruct es as [|y es]; [done|]. destruct Ht as (_ & _ & Ht). cbn [length]. f_equal. by apply (IH _ _ Ht Hi).
Qed.

Lemma last_flag s uc first dup path i e : Forall (registered s) path ->
  (exists w, List.last path (WorkerEntry 0 [] [] [] 0 0 0 0 0 0 0 0 0) = w /\ (we_has_output w = 1 \/ co_local_can_output_head s = true)) ->
  entries_of uc first dup path !! i = Some e -> S i = length path -> ro_flags e = DS4_DIST_ROUTE_F_OUTPUT_LOGITS \/ co_local_can_output_head s = true.
Proof.
  intros Hreg (w & Hw & Ho) Hi Hlen. revert first i Hi Hlen Hw. induction Hreg as [|x path Hx Hreg IH]; intros first i Hi Hlen Hw; [done|]. cbn [entries_of] in Hi.
  destruct path as [|y path].
  - cbn in Hlen, Hw. subst x. destruct i; [|lia]. injection Hi as <-. destruct Ho as [Ho|Ho]; [left|by right]. cbn [route_entry ro_flags]. by rewrite Ho.
  - destruct i as [|i]; [cbn in Hlen; lia|]. apply (IH false i); [exact Hi|cbn in *; lia|exact Hw].
Qed.

Lemma cached_chain `{Qsort} s dup plan g : registry_ok s -> 0 <= co_local_end s < co_n_layers s -> dist_coordinator_build_route_plan s dup = inr (plan, g) ->
  (local_complete s = true /\ plan = Plan [] []) \/
  exists path, Forall (fun w => w ∈ co_workers s) path /\ Forall2 (fun e w => dist_route_entry_matches_worker e w = true) (pl_entry plan) path /\
    tiles (co_local_end s + 1) (co_n_layers s - 1) (pl_entry plan).
Proof.
  intros Hs He Hb. apply build_inr in Hb as (_ & _ & [Hc|[_ (path & Hc & Hpe & _)]]); [by left| |done|done]. right. exists path.
  pose proof (chain_in _ _ _ (workers_valid_of s Hs He) _ _ Hc) as Hin. pose proof (chain_tiles s (co_workers s) _ _ (co_use_control_for_work s) true dup (ro_workers _ Hs) Hc) as (Ht & Hreg & _).
  rewrite Hpe. split_and!; [|by apply (entries_match s)|exact Ht]. apply (Forall_impl _ _ _ Hin). by intros w [].
Qed.

(** A coordinator that begins. *)
Definition coordinator_fresh (s : ds4_dist_coordinator_state) : Prop :=
  co_workers s = [] /\ co_generation s = 0 /\ 0 < co_n_layers s <= U32_MAX /\ 0 <= co_local_end s < co_n_layers s.

(** ** Properties *)

(** Whatever workers greet, leave or are forgotten: only valid workers are
    registered and none twice, and a session whose plan carries the registry's
    generation holds a plan made of workers registered now, whose layers follow
    the coordinator's own without gap or overlap up to the last. *)
Theorem cached_route_current `{Qsort} (s0 : ds4_dist_coordinator_state) (ops : list route_op) :
  coordinator_fresh s0 -> Forall op_ok ops -> zlen ops <= U64_MAX ->
  let '(s, d) := foldl route_step (s0, RouteCache (Plan [] []) false 0) ops in
  registry_ok s /\
  (rc_ready d = true -> rc_generation d = co_generation s ->
     (local_complete s = true /\ rc_plan d = Plan [] []) \/
     exists path, Forall (fun w => w ∈ co_workers s) path /\
       Forall2 (fun e w => dist_route_entry_matches_worker e w = true) (pl_entry (rc_plan d)) path /\
       tiles (co_local_end s + 1) (co_n_layers s - 1) (pl_entry (rc_plan d))).
Proof.
  intros (Hw & Hg & Hn & He) Ho Hl. pose proof (trace_run ops 0 s0 (s0, RouteCache (Plan [] []) false 0) Hl Ho) as Ht.
  destruct (foldl _ _ _) as [s d]. destruct Ht as [Hr _ _ Hp [Hle Hnl]].
  - constructor; cbn [fst snd rc_ready]; try done; [|lia]. constructor; [done|by rewrite Hw|rewrite Hw; apply NoDup_nil_2].
  - cbn [fst snd] in *. split; [done|]. intros Hready Hgen. destruct (Hp Hready Hgen) as [dup Hb]. apply cached_chain in Hb; [done|done|lia].
Qed.

Module Farm.
(** A sort, and a model of four layers on two workers. *)
Lemma cmp_total (a b : ds4_dist_worker_entry) : dist_worker_route_cmp a b <= 0 \/ dist_worker_route_cmp b a <= 0.
Proof. unfold dist_worker_route_cmp. repeat case_if; bool_prop; lia. Qed.

#[export] Instance le0_dec (cmp : ds4_dist_worker_entry -> ds4_dist_worker_entry -> Z) : RelDecision (fun a b => cmp a b <= 0).
Proof. intros a b. unfold Decision. apply Z_le_dec. Defined.

#[export] Program Instance merge_qsort : Qsort := {| qsort cmp l := merge_sort (fun a b => cmp a b <= 0) l |}.
Next Obligation. intros cmp l. apply merge_sort_Permutation. Qed.
Next Obligation. intros l. apply Sorted_merge_sort. intros a b. apply cmp_total. Qed.

Definition host (n : Z) : bytes := bs "10.0.0." ++ [48 + n].
Definition hello (a b out : Z) : ds4_dist_hello_fixed := Hello 7 2 a b out 1 4096 4 5000 5.
Definition s0 : ds4_dist_coordinator_state := Coordinator 7 (bs "flash") 4 0 0 4096 false false true 32 0 [] false.
Definition join (fd a b out : Z) : route_op := OpJoin fd (host fd) (bs "9") (hello a b out) (bs "flash").
Definition ops : list route_op := [join 3 3 3 1; join 1 1 2 0; join 2 1 1 0; OpEnsure (fun w => we_fd w + 10)].
Definition s : ds4_dist_coordinator_state := fst (foldl route_step (s0, RouteCache (Plan [] []) false 0) ops).
Definition path : list ds4_dist_worker_entry := [worker_entry 1 (host 1) (bs "9") (hello 1 2 0) (bs "flash"); worker_entry 3 (host 3) (bs "9") (hello 3 3 1) (bs "flash")].

Lemma ops_ok : Forall op_ok ops.
Proof. repeat constructor; try done; try (cbn; set_solver). Qed.
End Farm.

#[local] Existing Instance Farm.merge_qsort.

Lemma cached_route_current_witness :
  let '(s, d) := foldl route_step (Farm.s0, RouteCache (Plan [] []) false 0) Farm.ops in
  registry_ok s /\ tiles 1 3 (pl_entry (rc_plan d)).
Proof.
  pose proof (cached_route_current Farm.s0 Farm.ops ltac:(done) Farm.ops_ok ltac:(done)) as H. destruct (foldl _ _ _) as [s d] eqn:E. destruct H as [Hr Hp].
  split; [exact Hr|]. vm_compute in E. injection E as <- <-. destruct (Hp eq_refl eq_refl) as [[Hc _]|(path & _ & _ & Ht)]; [vm_compute in Hc; discriminate Hc | exact Ht].
Defined.

(** A plan is made exactly when the coordinator runs the whole model itself
    or some chain of registered workers runs the rest of it; a route that fits
    its frame never fails for another reason than its first connection. *)
Theorem route_found_exactly `{Qsort} (s : ds4_dist_coordinator_state) (dup : ds4_dist_worker_entry -> Z) :
  registry_ok s -> co_local_start s = 0 -> 0 <= co_local_end s < co_n_layers s ->
  1044 * zlen (co_workers s) + 12 <= U32_MAX -> (forall w, w ∈ co_workers s -> 0 <= dup w) ->
  (exists plan, dist_coordinator_build_route_plan s dup = inr (plan, co_generation s)) <->
  (local_complete s = true \/ exists path, chain s (co_workers s) (co_n_layers s - 1) (co_local_end s + 1) path).
Proof.
  intros Hs Hst He Hroom Hdup. split.
  - intros [plan Hb]. apply build_inr in Hb as (_ & _ & [[Hc _]|[_ (path & Hp & _)]]); [by left|right; by exists path|done|done].
  - destruct (local_complete s) eqn:Hc; [intros _|intros [?|[path Hp]]; [done|by apply (build_succeeds s Hs He dup path)]].
    exists (Plan [] []). unfold dist_coordinator_build_route_plan. cbv zeta. rewrite Hst, last_small by done. cbn [Z.eqb negb]. unfold local_complete in Hc. by rewrite Hc.
Qed.

Lemma route_found_exactly_witness : exists plan, dist_coordinator_build_route_plan Farm.s (fun w => we_fd w + 10) = inr (plan, 3).
Proof.
  refine (proj2 (route_found_exactly Farm.s (fun w => we_fd w + 10) _ eq_refl _ _ _) _).
  - pose proof (trace_run Farm.ops 0 Farm.s0 (Farm.s0, RouteCache (Plan [] []) false 0) ltac:(done) Farm.ops_ok) as Ht. apply Ht.
    constructor; cbn; try done. constructor; [done|constructor|constructor].
  - done.
  - done.
  - intros w Hw. assert (Hf : Forall (fun w => 0 <= we_fd w + 10) (co_workers Farm.s)) by (vm_compute; repeat constructor; discriminate). rewrite Forall_forall in Hf. by apply Hf.
  - right. exists Farm.path. apply chain_step; [vm_compute; set_solver|done|done|done|]. apply chain_last; [vm_compute; set_solver|done|done|done].
Defined.

(** C16: What the coordinator plans is what every worker on the route reads: the
    route is valid for the model, each worker finds its own entry under its
    index, and the result goes back upstream; only the last entry may ask for
    logits, and if it does not the coordinator has the output head. *)
Theorem route_read_as_planned `{Qsort} (s : ds4_dist_coordinator_state) (dup : ds4_dist_worker_entry -> Z) (plan : ds4_dist_route_plan) (g : Z) :
  registry_ok s -> 0 <= co_local_end s < co_n_layers s -> dist_coordinator_build_route_plan s dup = inr (plan, g) -> local_complete s = false ->
  let count := length (pl_entry plan) in
  tiles (co_local_end s + 1) (co_n_layers s - 1) (pl_entry plan) /\
  dist_route_validate_blob count (pl_blob plan) (co_n_layers s) = None /\
  (forall i e, pl_entry plan !! i = Some e ->
     dist_route_get_entry count (pl_blob plan) i = inr (RouteEntry (ro_host e) (ro_port e) (ro_layer_start e) (ro_layer_end e) (ro_flags e) (-1)) /\
     (ro_flags e = DS4_DIST_ROUTE_F_OUTPUT_LOGITS -> S i = count) /\
     (S i = count -> ro_flags e = DS4_DIST_ROUTE_F_OUTPUT_LOGITS \/ co_local_can_output_head s = true)) /\
  dist_route_get_return_target count (pl_blob plan) = inr (RouteTarget [] 0 DS4_DIST_ROUTE_RETURN_UPSTREAM).
Proof.
  intros Hs He Hb Hl count. apply build_inr in Hb as (_ & _ & [[Hc _]|[_ (path & Hc & Hpe & Hpb)]]); [congruence| |done|done].
  pose proof (chain_tiles s _ _ _ (co_use_control_for_work s) true dup (ro_workers _ Hs) Hc) as (Ht & Hreg & Hlast).
  pose proof (entries_ok s (co_use_control_for_work s) true dup path Hreg) as Heo. rewrite <- Hpe in Ht, Heo.
  pose proof (proj2 (ro_layers _ Hs)) as Hn. destruct (route_read (co_n_layers s) Hn (pl_entry plan) _ _ Heo Ht) as (Hv & Hg & Hret). unfold count. rewrite Hpb.
  split_and!; [exact Ht|exact Hv| |exact Hret]. intros i e Hi. split; [by apply Hg|]. split.
  - intros Hf. by apply (tiles_output (co_n_layers s) _ _ _ _ Heo Ht Hi).
  - intros Hi'. apply (last_flag s (co_use_control_for_work s) true dup path i e Hreg Hlast); [by rewrite <- Hpe|]. by rewrite <- (entries_of_length (co_use_control_for_work s) true dup), <- Hpe.
Qed.

Lemma route_read_as_planned_witness :
  exists plan, dist_coordinator_build_route_plan Farm.s (fun w => we_fd w + 10) = inr (plan, 3) /\ dist_route_validate_blob (length (pl_entry plan)) (pl_blob plan) 4 = None.
Proof.
  destruct (dist_coordinator_build_route_plan Farm.s (fun w => we_fd w + 10)) as [e|[plan g]] eqn:E; [vm_compute in E; discriminate E|].
  assert (g = 3) as -> by (vm_compute in E; congruence). exists plan. split; [done|].
  assert (Hr : registry_ok Farm.s).
  { pose proof (trace_run Farm.ops 0 Farm.s0 (Farm.s0, RouteCache (Plan [] []) false 0) ltac:(done) Farm.ops_ok) as Ht. apply Ht.
    constructor; cbn; try done. constructor; [done|constructor|constructor]. }
  exact (proj1 (proj2 (route_read_as_planned Farm.s (fun w => we_fd w + 10) plan 3 Hr ltac:(done) E ltac:(done)))).
Defined.
