(* ===== verification/LayerSlice.v ===== *)
(** * Layer slices (ds4.c, graph backend)

    A session of a graph backend evaluates a span of tokens on a range of layers:
    from the token embeddings or from hidden states that came from elsewhere, to
    hidden states, logits, or only the KV cache.  It is what every party of a
    distributed route runs.  The checks, the timeline and the loops over the
    layers are modelled; the GPU kernels of one layer are the class
    [SliceKernels].  DeepSeek models without SSD streaming; GLM graphs, tensor
    parallelism and draft models are not modelled.  Floats are their bits. *)

From S2P Require Import Prelude.
#[local] Open Scope Z_scope.
#[local] Open Scope stdpp_scope.

(** [LC] is what the kernels read of a layer's cache; [None] is a failure of the
    device.  A hidden state has [hc_values] floats for each token. *)
Class SliceKernels (LC : Type) := {
  hc_values : Z;
  n_vocab : Z;
  empty_layer : LC;
  reset_layer : Z -> LC -> option LC;
  embed_token : Z -> option (list Z);
  embed_prompt : list Z -> option (list Z);
  decode_layer : Z -> Z -> Z -> LC -> list Z -> option (LC * list Z);
  batch_layer : Z -> Z -> list Z -> LC -> list Z -> option (LC * list Z);
  encode_output_head : list Z -> option (list Z);
  eval_token_raw_swa : (Z -> LC) -> Z -> Z -> option ((Z -> LC) * list Z);
  prefill_layer_major : (Z -> LC) -> list Z -> Z -> option ((Z -> LC) * list Z);
  gpu_synchronize : (Z -> LC) -> bool }.

Definition hidden_ok {LC} `{SliceKernels LC} (n : Z) (h : list Z) : Prop := zlen h = n * hc_values /\ Forall is_u32 h.

(** What the kernels promise: a reset layer is empty, and tensors have the size
    of the model. *)
Class SliceKernelLaws (LC : Type) `{SliceKernels LC} := {
  hc_values_positive : 0 < hc_values;
  n_vocab_range : 0 < n_vocab <= INT32_MAX;
  reset_layer_empty il c c' : reset_layer il c = Some c' -> c' = empty_layer;
  embed_token_ok token h : embed_token token = Some h -> hidden_ok 1 h;
  embed_prompt_ok tokens h : embed_prompt tokens = Some h -> hidden_ok (zlen tokens) h;
  decode_layer_ok il pos token c h c' h' : hidden_ok 1 h -> decode_layer il pos token c h = Some (c', h') -> hidden_ok 1 h';
  batch_layer_ok il pos tokens c h c' h' : hidden_ok (zlen tokens) h -> batch_layer il pos tokens c h = Some (c', h') -> hidden_ok (zlen tokens) h';
  output_head_ok h l : hidden_ok 1 h -> encode_output_head h = Some l -> zlen l = n_vocab /\ Forall is_u32 l }.

(** What a session reads of its engine. *)
Record slice_engine := SliceEngine {
  sg_is_cpu : bool;
  sg_n_layer : Z;
  sg_layer_required : Z -> bool;
  sg_token_embd : bool;
  sg_output_head : bool;
  sg_backend_name : bytes;
  sg_alloc : Z -> option (Z * Z) }.

Section Slice.
Context {LC : Type} `{SliceKernels LC} (e : slice_engine).

Record slice_session := SliceSession {
  sl_ctx_size : Z;
  sl_prefill_cap : Z;
  sl_raw_cap : Z;
  sl_checkpoint : list Z;
  sl_checkpoint_valid : bool;
  sl_mtp_draft_valid : bool;
  sl_layers : Z -> LC }.

(** [sg_alloc] is the allocation of the graph: its prefill capacity and raw rows. *)
Definition slice_session_create (ctx_size : Z) : option slice_session :=
  if ctx_size <=? 0 then None
  else '(prefill_cap, raw_cap) ← sg_alloc e ctx_size; Some (SliceSession ctx_size prefill_cap raw_cap [] false false (fun _ => empty_layer)).

Definition set_checkpoint (checkpoint : list Z) (valid : bool) (s : slice_session) : slice_session :=
  SliceSession (sl_ctx_size s) (sl_prefill_cap s) (sl_raw_cap s) checkpoint valid false (sl_layers s).
Definition set_layers (layers : Z -> LC) (s : slice_session) : slice_session :=
  SliceSession (sl_ctx_size s) (sl_prefill_cap s) (sl_raw_cap s) (sl_checkpoint s) (sl_checkpoint_valid s) (sl_mtp_draft_valid s) layers.
Definition checkpoint_lost (s : slice_session) : slice_session :=
  SliceSession (sl_ctx_size s) (sl_prefill_cap s) (sl_raw_cap s) (sl_checkpoint s) false (sl_mtp_draft_valid s) (sl_layers s).

Definition slice_invalidate (s : slice_session) : slice_session := set_checkpoint [] false s.

Definition set_layer (il : Z) (c : LC) (layers : Z -> LC) : Z -> LC := fun j => if j =? il then c else layers j.

Definition layer_range (layer_start layer_end : Z) : list Z := seqZ layer_start (layer_end - layer_start + 1).

(** The loop of [metal_graph_reset_prefill_state] stops at a failure. *)
Fixpoint reset_layers (ils : list Z) (layers : Z -> LC) : bool * (Z -> LC) :=
  match ils with
  | [] => (true, layers)
  | il :: ils' =>
      match reset_layer il (layers il) with
      | None => (false, layers)
      | Some c => reset_layers ils' (set_layer il c layers)
      end
  end.

(** The message of a failure, or success. *)
Definition session_layer_slice_reset (s : slice_session) : option bytes * slice_session :=
  let s := slice_invalidate s in
  if sg_is_cpu e then (None, set_layers (fun _ => empty_layer) s)
  else
    let '(ok, layers) := reset_layers (layer_range 0 (sg_n_layer e - 1)) (sl_layers s) in
    if negb ok then (Some (sg_backend_name e ++ bs " layer-slice state reset failed"), set_layers layers s) else (None, set_layers layers s).

Definition weights_layers_bound (layer_start layer_end : Z) : bool :=
  if sg_n_layer e <=? layer_start then false
  else
    let layer_end := if layer_end =? U32_MAX then sg_n_layer e - 1 else layer_end in
    if (sg_n_layer e <=? layer_end) || (layer_end <? layer_start) then false
    else forallb (sg_layer_required e) (layer_range layer_start layer_end).

Definition slice_check_timeline (s : slice_session) (tokens : list Z) (pos0 : Z) : option bytes :=
  let n_tokens := zlen tokens in
  if n_tokens =? 0 then Some (bs "invalid layer-slice token span")
  else if (INT32_MAX <? pos0) || (INT32_MAX <? n_tokens) || (sl_ctx_size s <? pos0) || (sl_ctx_size s - pos0 <? n_tokens) then
    Some (bs "layer-slice token span exceeds context")
  else if negb (sl_checkpoint_valid s) then
    if negb (pos0 =? 0) then Some (bs "layer-slice session needs reset before pos " ++ dec_print pos0) else None
  else if negb (zlen (sl_checkpoint s) =? pos0) then
    Some (bs "layer-slice KV position mismatch: have " ++ dec_print (zlen (sl_checkpoint s)) ++ bs " want " ++ dec_print pos0)
  else None.

Definition slice_commit_timeline (s : slice_session) (tokens : list Z) : slice_session := set_checkpoint (sl_checkpoint s ++ tokens) true s.

(** The loop over the layers; it stops at a failure. *)
Fixpoint run_layers (step : Z -> LC -> list Z -> option (LC * list Z)) (ils : list Z) (layers : Z -> LC) (h : list Z) : (Z -> LC) * option (list Z) :=
  match ils with
  | [] => (layers, Some h)
  | il :: ils' =>
      match step il (layers il) h with
      | None => (layers, None)
      | Some (c, h') => run_layers step ils' (set_layer il c layers) h'
      end
  end.

Definition slice_row (h : list Z) (i : Z) : list Z := take (Z.to_nat hc_values) (drop (Z.to_nat (i * hc_values)) h).

(** The three ways through the graph; [None]: not ok. *)
Definition slice_full (s : slice_session) (tokens : list Z) (pos0 : Z) : option ((Z -> LC) * list Z) :=
  match tokens with
  | [token] => if pos0 =? 0 then prefill_layer_major (sl_layers s) tokens pos0 else eval_token_raw_swa (sl_layers s) token pos0
  | _ => prefill_layer_major (sl_layers s) tokens pos0
  end.

Definition slice_decode (s : slice_session) (token pos0 layer_start layer_end : Z) (input_hc : option (list Z)) : (Z -> LC) * option (list Z) :=
  match (match input_hc with Some h => Some (take (Z.to_nat hc_values) h) | None => embed_token token end) with
  | None => (sl_layers s, None)
  | Some h => run_layers (fun il => decode_layer il pos0 token) (layer_range layer_start layer_end) (sl_layers s) h
  end.

Definition slice_batch (s : slice_session) (tokens : list Z) (pos0 layer_start layer_end : Z) (input_hc : option (list Z)) : (Z -> LC) * option (list Z) :=
  match (match input_hc with Some h => Some (take (Z.to_nat (zlen tokens * hc_values)) h) | None => embed_prompt tokens end) with
  | None => (sl_layers s, None)
  | Some h => run_layers (fun il => batch_layer il pos0 tokens) (layer_range layer_start layer_end) (sl_layers s) h
  end.

(** What is read back: the hidden states and the logits of the last token. *)
Definition slice_outputs (layers : Z -> LC) (n_tokens : Z) (h : list Z) (want_hc output_logits : bool) : option (option (list Z) * option (list Z)) :=
  if negb want_hc && negb output_logits then if gpu_synchronize layers then Some (None, None) else None
  else
    let hc := if want_hc then Some (take (Z.to_nat (n_tokens * hc_values)) h) else None in
    if output_logits then l ← encode_output_head (slice_row h (n_tokens - 1)); Some (hc, Some (take (Z.to_nat n_vocab) l)) else Some (hc, None).

(** The hidden states and logits that were asked for, or the message. *)
Definition session_eval_layer_slice (s : slice_session) (tokens : list Z) (pos0 layer_start layer_end : Z) (input_hc : option (list Z))
  (want_hc output_logits : bool) : (bytes + option (list Z) * option (list Z)) * slice_session :=
  let executable_layers := sg_n_layer e in
  let n_tokens := zlen tokens in
  let no_input := match input_hc with None => true | Some _ => false end in
  let fails (msg : bytes) (layers : Z -> LC) := (inl (sg_backend_name e ++ msg), checkpoint_lost (set_layers layers s)) in
  if (executable_layers =? 0) || (layer_end <? layer_start) || (executable_layers <=? layer_end) then
    (inl (bs "invalid layer-slice layer range " ++ dec_print layer_start ++ bs ":" ++ dec_print layer_end), s)
  else if negb (layer_start =? 0) && no_input then (inl (bs "layer-slice layer " ++ dec_print layer_start ++ bs " requires input hidden-state"), s)
  else if output_logits && negb (u32 (layer_end + 1) =? executable_layers) then (inl (bs "layer-slice logits require final transformer layer"), s)
  else if negb (weights_layers_bound layer_start layer_end) then
    (inl (bs "requested layer slice " ++ dec_print layer_start ++ bs ":" ++ dec_print layer_end ++ bs " is not loaded"), s)
  else if no_input && negb (sg_token_embd e) then (inl (bs "token embedding is not loaded"), s)
  else if output_logits && negb (sg_output_head e) then (inl (bs "output head is not loaded"), s)
  else
    match slice_check_timeline s tokens pos0 with
    | Some err => (inl err, s)
    | None =>
      if sg_is_cpu e then (inl (bs "layer slices require the graph backend"), checkpoint_lost s)
      else if sl_prefill_cap s <? n_tokens then
        (inl (bs "layer-slice chunk " ++ dec_print n_tokens ++ bs " exceeds prefill cap " ++ dec_print (sl_prefill_cap s)), s)
      else if no_input && negb want_hc && output_logits && (layer_start =? 0) && (u32 (layer_end + 1) =? sg_n_layer e) then
        match slice_full s tokens pos0 with
        | None => fails (bs " layer-slice full evaluation failed") (sl_layers s)
        | Some (layers, logits) => (inr (None, Some logits), slice_commit_timeline (set_layers layers s) tokens)
        end
      else
        let decode := (n_tokens =? 1) && (0 <? pos0) in
        if decode && (sl_raw_cap s =? 0) then (inl (sg_backend_name e ++ bs " layer-slice decode has no raw KV cache"), checkpoint_lost s)
        else
          let '(layers, h) := if decode then slice_decode s (List.hd 0 tokens) pos0 layer_start layer_end input_hc
                              else slice_batch s tokens pos0 layer_start layer_end input_hc in
          match h ≫= (fun h => slice_outputs layers n_tokens h want_hc output_logits) with
          | None => fails (if decode then bs " layer-slice decode failed" else bs " layer-slice failed") layers
          | Some out => (inr out, slice_commit_timeline (set_layers layers s) tokens)
          end
    end.

(** The logits of the last of [n_tokens] hidden states, or the message. *)
Definition session_eval_output_head_from_hc (hidden_hc : list Z) (n_tokens : Z) : bytes + list Z :=
  if n_tokens =? 0 then inl (bs "invalid output-head hidden-state input")
  else if negb (sg_output_head e) then inl (bs "output head is not loaded")
  else
    match encode_output_head (slice_row hidden_hc (n_tokens - 1)) with
    | None => inl (sg_backend_name e ++ bs " output-head hidden-state evaluation failed")
    | Some l => inr (take (Z.to_nat n_vocab) l)
    end.
End Slice.
#[global] Arguments slice_session : clear implicits.

(** ** Running layers *)

Section Running.
Context {LC : Type} `{SliceKernels LC}.

(** Two caches have the same layers [ils]. *)
Definition layers_agree (ils : list Z) (l1 l2 : Z -> LC) : Prop := Forall (fun il => l1 il = l2 il) ils.

Lemma set_layer_eq il c (layers : Z -> LC) : set_layer il c layers il = c.
Proof. unfold set_layer. by rewrite Z.eqb_refl. Qed.

Lemma set_layer_ne il j c (layers : Z -> LC) : j <> il -> set_layer il c layers j = layers j.
Proof. intros Hj. unfold set_layer. by rewrite (proj2 (Z.eqb_neq _ _)). Qed.

Lemma run_layers_app step a b (layers : Z -> LC) h :
  run_layers step (a ++ b) layers h = match run_layers step a layers h with (l, Some h') => run_layers step b l h' | r => r end.
Proof.
  revert layers h. induction a as [|il a IH]; intros layers h; [done|]. cbn [app run_layers].
  destruct (step il (layers il) h) as [[c h']|]; [apply IH|done].
Qed.

Lemma run_layers_outside step ils (layers : Z -> LC) h j : ~ In j ils -> fst (run_layers step ils layers h) j = layers j.
Proof.
  revert layers h. induction ils as [|il ils IH]; intros layers h Hj; [done|]. cbn [run_layers].
  destruct (step il (layers il) h) as [[c h']|]; [|done]. rewrite IH by (intros ?; apply Hj; by right).
  apply set_layer_ne. intros ->. apply Hj. by left.
Qed.

(** Only the layers that are run matter. *)
Lemma run_layers_agree step ils (l1 l2 : Z -> LC) h : NoDup ils -> layers_agree ils l1 l2 ->
  snd (run_layers step ils l1 h) = snd (run_layers step ils l2 h) /\ layers_agree ils (fst (run_layers step ils l1 h)) (fst (run_layers step ils l2 h)).
Proof.
  intros Hnd. revert l1 l2 h. induction Hnd as [|il ils Hni Hnd IH]; intros l1 l2 h Hag; [by split|]. inversion_clear Hag as [|? ? Heq Hag'].
  cbn [run_layers]. rewrite <- Heq. destruct (step il (l1 il) h) as [[c h']|]; [|split; [done|by constructor]].
  assert (Hn : ~ In il ils) by (by rewrite <- list_elem_of_In).
  assert (Hag2 : layers_agree ils (set_layer il c l1) (set_layer il c l2)).
  { apply Forall_forall. intros j Hj. apply list_elem_of_In in Hj. unfold layers_agree in Hag'. rewrite Forall_forall in Hag'.
    rewrite !set_layer_ne by (intros ->; contradiction). apply Hag'. by apply list_elem_of_In. }
  destruct (IH _ _ h' Hag2) as [Hh Hl]. split; [exact Hh|]. constructor; [|exact Hl].
  rewrite !run_layers_outside by done. by rewrite !set_layer_eq.
Qed.

Lemma layers_agree_refl ils (l : Z -> LC) : layers_agree ils l l.
Proof. by apply Forall_forall. Qed.

Lemma layers_agree_sym ils (l1 l2 : Z -> LC) : layers_agree ils l1 l2 -> layers_agree ils l2 l1.
Proof. intros Hf. eapply Forall_impl; [exact Hf|]. by intros ? ->. Qed.

Lemma layers_agree_trans ils (l1 l2 l3 : Z -> LC) : layers_agree ils l1 l2 -> layers_agree ils l2 l3 -> layers_agree ils l1 l3.
Proof. unfold layers_agree. rewrite !Forall_forall. intros H1 H2 j Hj. by rewrite H1, H2. Qed.

Lemma layers_agree_app a b (l1 l2 : Z -> LC) : layers_agree (a ++ b) l1 l2 <-> layers_agree a l1 l2 /\ layers_agree b l1 l2.
Proof. apply Forall_app. Qed.

(** Running other layers does not change these. *)
Lemma run_layers_keeps step ils js (layers : Z -> LC) h : (forall j, In j js -> ~ In j ils) -> layers_agree js (fst (run_layers step ils layers h)) layers.
Proof. intros Hd. apply Forall_forall. intros j Hj. apply run_layers_outside, Hd. by apply list_elem_of_In. Qed.

Lemma layer_range_split a b c : a <= b -> b < c -> layer_range a c = layer_range a b ++ layer_range (b + 1) c.
Proof.
  intros H1 H2. unfold layer_range. replace (c - a + 1) with ((b - a + 1) + (c - (b + 1) + 1)) by lia.
  rewrite seqZ_app by lia. do 2 f_equal; lia.
Qed.

Lemma layer_range_NoDup a b : NoDup (layer_range a b).
Proof. apply NoDup_seqZ. Qed.

Lemma in_layer_range a b j : In j (layer_range a b) <-> a <= j <= b.
Proof. rewrite <- list_elem_of_In. unfold layer_range. rewrite elem_of_seqZ. lia. Qed.

Lemma ranges_disjoint a b c j : In j (layer_range (b + 1) c) -> ~ In j (layer_range a b).
Proof. rewrite !in_layer_range. lia. Qed.

Lemma ranges_disjoint' a b c j : In j (layer_range a b) -> ~ In j (layer_range (b + 1) c).
Proof. rewrite !in_layer_range. lia. Qed.

Context {laws : SliceKernelLaws LC}.

Lemma run_layers_hidden step ils (layers : Z -> LC) h n : hidden_ok n h ->
  (forall il c h c' h', hidden_ok n h -> step il c h = Some (c', h') -> hidden_ok n h') ->
  match snd (run_layers step ils layers h) with Some h' => hidden_ok n h' | None => True end.
Proof.
  intros Hh Hstep. revert layers h Hh. induction ils as [|il ils IH]; intros layers h Hh; [done|]. cbn [run_layers].
  destruct (step il (layers il) h) as [[c h']|] eqn:E; [|done]. apply IH. by apply (Hstep _ _ _ _ _ Hh E).
Qed.

Lemma take_hidden n h : hidden_ok n h -> take (Z.to_nat (n * hc_values)) h = h.
Proof. intros [Hl _]. apply take_ge. unfold zlen in Hl. lia. Qed.

Lemma slice_row_ok n h : hidden_ok n h -> 0 < n -> hidden_ok 1 (slice_row h (n - 1)).
Proof.
  intros [Hl Hu] Hn. pose proof hc_values_positive as Hhc. unfold slice_row. split.
  - unfold zlen in *. rewrite length_take, length_drop. nia.
  - by apply Forall_take, Forall_drop.
Qed.
End Running.

(** ** When a slice succeeds *)

Section Success.
Context {LC : Type} `{SliceKernels LC} (e : slice_engine).

(** The way that is taken when it is not the whole model at once. *)
Definition slice_decodes (tokens : list Z) (pos0 : Z) : bool := (zlen tokens =? 1) && (0 <? pos0).

Definition slice_step (tokens : list Z) (pos0 il : Z) : LC -> list Z -> option (LC * list Z) :=
  if slice_decodes tokens pos0 then decode_layer il pos0 (List.hd 0 tokens) else batch_layer il pos0 tokens.

Definition slice_embed (tokens : list Z) (pos0 : Z) : option (list Z) :=
  if slice_decodes tokens pos0 then embed_token (List.hd 0 tokens) else embed_prompt tokens.

Definition slice_input (tokens : list Z) (pos0 : Z) (input_hc : option (list Z)) : option (list Z) :=
  match input_hc with Some h => Some (take (Z.to_nat (zlen tokens * hc_values)) h) | None => slice_embed tokens pos0 end.

(** Running a range of layers on a span of tokens. *)
Definition slice_run (tokens : list Z) (pos0 a b : Z) (layers : Z -> LC) (h : list Z) : (Z -> LC) * option (list Z) :=
  run_layers (slice_step tokens pos0) (layer_range a b) layers h.

Definition slice_pass (s : slice_session LC) (tokens : list Z) (pos0 a b : Z) (input_hc : option (list Z)) : (Z -> LC) * option (list Z) :=
  match slice_input tokens pos0 input_hc with
  | None => (sl_layers s, None)
  | Some h => slice_run tokens pos0 a b (sl_layers s) h
  end.

(** A span that is accepted continues the session's tokens and fits. *)
Lemma check_spec (s : slice_session LC) tokens pos0 : slice_check_timeline s tokens pos0 = None ->
  0 < zlen tokens /\ pos0 + zlen tokens <= sl_ctx_size s /\
  (if sl_checkpoint_valid s then zlen (sl_checkpoint s) = pos0 else pos0 = 0).
Proof.
  unfold slice_check_timeline. cbv zeta. pose proof (zlen_nonneg tokens). destruct (Z.eqb_spec (zlen tokens) 0); [discriminate|].
  destruct (_ || _) eqn:E; [discriminate|]. bool_prop. destruct (sl_checkpoint_valid s); cbn [negb].
  - destruct (Z.eqb_spec (zlen (sl_checkpoint s)) pos0); [|discriminate]. intros _. split; [lia|]. split; [lia|done].
  - destruct (Z.eqb_spec pos0 0); [|discriminate]. intros _. split; [lia|]. split; [lia|done].
Qed.

Lemma check_nonempty (s : slice_session LC) tokens pos0 : slice_check_timeline s tokens pos0 = None -> 0 < zlen tokens.
Proof. intros Hc. exact (proj1 (check_spec _ _ _ Hc)). Qed.

Record slice_ready (s : slice_session LC) (tokens : list Z) (pos0 a b : Z) (has_input output_logits : bool) : Prop := {
  sr_range : a <= b < sg_n_layer e;
  sr_positive : sg_n_layer e <> 0;
  sr_input : a = 0 \/ has_input = true;
  sr_logits : output_logits = true -> u32 (b + 1) = sg_n_layer e /\ sg_output_head e = true;
  sr_bound : weights_layers_bound e a b = true;
  sr_embd : has_input = true \/ sg_token_embd e = true;
  sr_timeline : slice_check_timeline s tokens pos0 = None;
  sr_graph : sg_is_cpu e = false;
  sr_cap : zlen tokens <= sl_prefill_cap s;
  sr_raw : slice_decodes tokens pos0 = true -> sl_raw_cap s <> 0 }.

Definition is_input (input_hc : option (list Z)) : bool := match input_hc with Some _ => true | None => false end.

(** The whole model from tokens to logits takes a way of its own. *)
Definition whole (a b : Z) (input_hc : option (list Z)) (want_hc output_logits : bool) : bool :=
  negb (is_input input_hc) && negb want_hc && output_logits && (a =? 0) && (u32 (b + 1) =? sg_n_layer e).

Lemma pass_cases s tokens pos0 a b input_hc : 0 < zlen tokens ->
  (if slice_decodes tokens pos0 then slice_decode s (List.hd 0 tokens) pos0 a b input_hc else slice_batch s tokens pos0 a b input_hc) = slice_pass s tokens pos0 a b input_hc.
Proof.
  intros Hn. unfold slice_pass, slice_input, slice_run, slice_step, slice_embed. destruct (slice_decodes tokens pos0) eqn:E; unfold slice_decode, slice_batch.
  - unfold slice_decodes in E. bool_prop. destruct input_hc; [|done]. replace (zlen tokens * hc_values) with hc_values by lia. done.
  - by destruct input_hc.
Qed.

(** A slice that succeeds had everything it needs and ran its layers. *)
Lemma eval_slice_inv s tokens pos0 a b input_hc want_hc lg out s' : whole a b input_hc want_hc lg = false ->
  session_eval_layer_slice e s tokens pos0 a b input_hc want_hc lg = (inr out, s') ->
  slice_ready s tokens pos0 a b (is_input input_hc) lg /\
  exists layers h, slice_pass s tokens pos0 a b input_hc = (layers, Some h) /\ slice_outputs layers (zlen tokens) h want_hc lg = Some out /\
    s' = slice_commit_timeline (set_layers layers s) tokens.
Proof.
  intros Hw E. unfold session_eval_layer_slice in E. cbv zeta in E.
  replace (match input_hc with Some _ => false | None => true end) with (negb (is_input input_hc)) in E by by destruct input_hc.
  destruct (_ || _ || _) eqn:E1 in E; [discriminate E|]. destruct (_ && _) eqn:E2 in E; [discriminate E|].
  destruct (_ && _) eqn:E3 in E; [discriminate E|]. destruct (negb _) eqn:E4 in E; [discriminate E|].
  destruct (_ && _) eqn:E5 in E; [discriminate E|]. destruct (_ && _) eqn:E6 in E; [discriminate E|].
  destruct (slice_check_timeline s tokens pos0) eqn:E7; [discriminate E|]. destruct (sg_is_cpu e) eqn:E8; [discriminate E|].
  destruct (_ <? _) eqn:E9 in E; [discriminate E|]. fold (whole a b input_hc want_hc lg) in E. rewrite Hw in E. fold (slice_decodes tokens pos0) in E.
  destruct (_ && _) eqn:E10 in E; [discriminate E|].
  pose proof (check_nonempty _ _ _ E7) as Hn.
  rewrite pass_cases in E by done. destruct (slice_pass s tokens pos0 a b input_hc) as [layers [h|]]; [|discriminate E]. cbn [mbind option_bind] in E.
  destruct (slice_outputs layers (zlen tokens) h want_hc lg) as [o|] eqn:Eo; [|discriminate E]. injection E as <- <-. split.
  - bool_prop. constructor; try done.
    + destruct E2; bool_prop; [by left|by right].
    + intros ->. destruct E3, E6; bool_prop; try discriminate. done.
    + destruct E5; bool_prop; [by left|by right].
    + intros Hd. rewrite Hd in E10. destruct E10; bool_prop; [discriminate|done].
  - by exists layers, h.
Qed.

Lemma eval_slice_intro s tokens pos0 a b input_hc want_hc lg layers h out : whole a b input_hc want_hc lg = false ->
  slice_ready s tokens pos0 a b (is_input input_hc) lg -> slice_pass s tokens pos0 a b input_hc = (layers, Some h) ->
  slice_outputs layers (zlen tokens) h want_hc lg = Some out ->
  session_eval_layer_slice e s tokens pos0 a b input_hc want_hc lg = (inr out, slice_commit_timeline (set_layers layers s) tokens).
Proof.
  intros Hw [Hr Hp Hi Hl Hb He Ht Hg Hc Hraw] Hpass Hout. unfold session_eval_layer_slice. cbv zeta.
  replace (match input_hc with Some _ => false | None => true end) with (negb (is_input input_hc)) by by destruct input_hc.
  rewrite (proj2 (Z.eqb_neq _ _) Hp), (proj2 (Z.ltb_ge b a)), (proj2 (Z.leb_gt _ _)) by lia. cbn [orb].
  replace (negb (a =? 0) && negb (is_input input_hc)) with false by (destruct Hi as [-> | ->]; [done|by rewrite andb_false_r]).
  replace (lg && negb (u32 (b + 1) =? sg_n_layer e)) with false by (destruct lg; [rewrite (proj1 (Hl eq_refl)), Z.eqb_refl; done|done]).
  rewrite Hb. cbn [negb]. replace (negb (is_input input_hc) && negb (sg_token_embd e)) with false by (destruct He as [-> | ->]; [done|by rewrite andb_false_r]).
  replace (lg && negb (sg_output_head e)) with false by (destruct lg; [rewrite (proj2 (Hl eq_refl)); done|done]).
  rewrite Ht, Hg, (proj2 (Z.ltb_ge _ _)) by lia. fold (whole a b input_hc want_hc lg). rewrite Hw. fold (slice_decodes tokens pos0).
  replace (slice_decodes tokens pos0 && (sl_raw_cap s =? 0)) with false
    by (destruct (slice_decodes tokens pos0) eqn:E; [by rewrite (proj2 (Z.eqb_neq _ _) (Hraw eq_refl))|done]).
  pose proof (check_nonempty _ _ _ Ht) as Hn.
  rewrite pass_cases by done. rewrite Hpass. cbn [mbind option_bind]. by rewrite Hout.
Qed.

(** Sessions at the same point of the same conversation. *)
Record same_timeline (s1 s2 : slice_session LC) : Prop := {
  st_ctx : sl_ctx_size s1 = sl_ctx_size s2;
  st_cap : sl_prefill_cap s1 = sl_prefill_cap s2;
  st_raw : sl_raw_cap s1 = sl_raw_cap s2;
  st_checkpoint : sl_checkpoint s1 = sl_checkpoint s2;
  st_valid : sl_checkpoint_valid s1 = sl_checkpoint_valid s2 }.

Lemma same_commit s1 s2 l1 l2 tokens : same_timeline s1 s2 ->
  same_timeline (slice_commit_timeline (set_layers l1 s1) tokens) (slice_commit_timeline (set_layers l2 s2) tokens).
Proof. intros [H1 H2 H3 H4 H5]. constructor; cbn; try done. by rewrite H4. Qed.

Lemma same_check s1 s2 tokens pos0 : same_timeline s1 s2 -> slice_check_timeline s1 tokens pos0 = slice_check_timeline s2 tokens pos0.
Proof. intros [H1 H2 H3 H4 H5]. unfold slice_check_timeline. by rewrite H1, H4, H5. Qed.

Lemma bound_sub a b a' b' : 0 <= a -> a <= a' -> a' <= b' -> b' <= b -> b < sg_n_layer e -> sg_n_layer e <= U32_MAX -> weights_layers_bound e a b = true -> weights_layers_bound e a' b' = true.
Proof.
  intros H0 Ha Hab Hb Hbn Hn. unfold weights_layers_bound. cbv zeta. rewrite !(proj2 (Z.eqb_neq _ U32_MAX)) by lia.
  rewrite !(proj2 (Z.leb_gt _ _)), !(proj2 (Z.ltb_ge _ _)) by lia. cbn [orb]. rewrite !forallb_forall. intros Hf j Hj. apply Hf.
  rewrite in_layer_range in *. lia.
Qed.

Lemma ready_part s s' tokens pos0 a b a' b' has lg has' lg' : same_timeline s s' -> 0 <= a -> a <= a' -> a' <= b' -> b' <= b -> sg_n_layer e <= U32_MAX ->
  (a' = a /\ has' = has \/ has' = true) -> (lg' = true -> lg = true /\ b' = b) ->
  slice_ready s tokens pos0 a b has lg -> slice_ready s' tokens pos0 a' b' has' lg'.
Proof.
  intros Hst H0 Ha Hab Hb Hn Hhas Hlg [Hr Hp Hi Hl Hbd He Ht Hg Hc Hraw]. constructor; try done.
  - lia.
  - destruct Hhas as [[-> ->] | ->]; [done|by right].
  - intros Hlg'. destruct (Hlg Hlg') as [-> ->]. by apply Hl.
  - apply (bound_sub a b); done || lia.
  - destruct Hhas as [[_ ->] | ->]; [done|by left].
  - by rewrite <- (same_check _ _ _ _ Hst).
  - by rewrite <- (st_cap _ _ Hst).
  - by rewrite <- (st_raw _ _ Hst).
Qed.
End Success.

(** ** Slices compose *)

Section Compose.
Context {LC : Type} `{laws : SliceKernelLaws LC} (e : slice_engine).

Lemma slice_step_ok tokens pos0 : 0 < zlen tokens -> forall il c h c' h', hidden_ok (zlen tokens) h ->
  slice_step tokens pos0 il c h = Some (c', h') -> hidden_ok (zlen tokens) h'.
Proof.
  intros Hn il c h c' h' Hh. unfold slice_step. destruct (slice_decodes tokens pos0) eqn:E; [|by apply batch_layer_ok].
  unfold slice_decodes in E. bool_prop. replace (zlen tokens) with 1 in * by lia. by apply decode_layer_ok.
Qed.

Lemma slice_embed_ok tokens pos0 h : 0 < zlen tokens -> slice_embed tokens pos0 = Some h -> hidden_ok (zlen tokens) h.
Proof.
  intros Hn. unfold slice_embed. destruct (slice_decodes tokens pos0) eqn:E; [|apply embed_prompt_ok].
  unfold slice_decodes in E. bool_prop. replace (zlen tokens) with 1 by lia. apply embed_token_ok.
Qed.

Lemma slice_run_ok tokens pos0 a b layers h l h' : 0 < zlen tokens -> hidden_ok (zlen tokens) h -> slice_run tokens pos0 a b layers h = (l, Some h') ->
  hidden_ok (zlen tokens) h'.
Proof.
  intros Hn Hh E. pose proof (run_layers_hidden (slice_step tokens pos0) (layer_range a b) layers h (zlen tokens) Hh (slice_step_ok tokens pos0 Hn)) as Ho.
  unfold slice_run in E. by rewrite E in Ho.
Qed.

(** Running two neighbouring ranges, each on its own caches, is running both. *)
Lemma slice_run_split tokens pos0 a b c (layers la lb : Z -> LC) h : a <= b -> b < c ->
  layers_agree (layer_range a b) layers la -> layers_agree (layer_range (b + 1) c) layers lb ->
  let '(l1, m) := slice_run tokens pos0 a b la h in
  match m with
  | None => snd (slice_run tokens pos0 a c layers h) = None
  | Some hm =>
      let '(l2, r) := slice_run tokens pos0 (b + 1) c lb hm in
      snd (slice_run tokens pos0 a c layers h) = r /\ layers_agree (layer_range a b) (fst (slice_run tokens pos0 a c layers h)) l1 /\
      layers_agree (layer_range (b + 1) c) (fst (slice_run tokens pos0 a c layers h)) l2
  end.
Proof.
  intros Hab Hbc Ha Hb. unfold slice_run. rewrite (layer_range_split a b c) by done. set (st := slice_step tokens pos0). rewrite run_layers_app.
  destruct (run_layers_agree st _ _ _ h (layer_range_NoDup a b) Ha) as [Hm Hl1].
  pose proof (run_layers_keeps st (layer_range a b) (layer_range (b + 1) c) layers h (ranges_disjoint a b c)) as Hk.
  destruct (run_layers st (layer_range a b) layers h) as [l1 m1], (run_layers st (layer_range a b) la h) as [l1' m]. cbn [fst snd] in *. subst m1.
  destruct m as [hm|]; [|done].
  destruct (run_layers_agree st _ _ _ hm (layer_range_NoDup (b + 1) c) (layers_agree_trans _ _ _ _ Hk Hb)) as [Hr Hl2].
  pose proof (run_layers_keeps st (layer_range (b + 1) c) (layer_range a b) l1 hm (ranges_disjoint' a b c)) as Hk2.
  destruct (run_layers st (layer_range (b + 1) c) lb hm) as [l2 r], (run_layers st (layer_range (b + 1) c) l1 hm) as [l3 r']. cbn [fst snd] in *.
  split; [done|]. split; [|done]. by eapply layers_agree_trans.
Qed.

Lemma whole_hidden a b input_hc lg : whole e a b input_hc true lg = false.
Proof. unfold whole. by rewrite andb_false_r. Qed.

Lemma slice_outputs_hidden layers n h : hidden_ok n h -> slice_outputs layers n h true false = Some (Some h, None).
Proof. intros Hh. unfold slice_outputs. cbn [negb andb]. by rewrite take_hidden. Qed.

(** Input that came from another session is what that session gave. *)
Lemma slice_pass_input s tokens pos0 a b h : hidden_ok (zlen tokens) h -> slice_pass s tokens pos0 a b (Some h) = slice_run tokens pos0 a b (sl_layers s) h.
Proof. intros Hh. unfold slice_pass, slice_input. by rewrite take_hidden. Qed.

Lemma slice_input_ok tokens pos0 input_hc h : 0 < zlen tokens -> match input_hc with Some h => hidden_ok (zlen tokens) h | None => True end ->
  slice_input tokens pos0 input_hc = Some h -> hidden_ok (zlen tokens) h.
Proof.
  intros Hn Hin. unfold slice_input. destruct input_hc as [h0|]; [|by apply slice_embed_ok]. rewrite take_hidden by done. by intros [= <-].
Qed.
End Compose.

(** Sessions that hold the layers up to [b], and those behind, of a third. *)
Record split_sessions {LC : Type} `{SliceKernels LC} (a b c : Z) (s sa sb : slice_session LC) : Prop := {
  sp_first : same_timeline s sa;
  sp_second : same_timeline s sb;
  sp_first_layers : layers_agree (layer_range a b) (sl_layers s) (sl_layers sa);
  sp_second_layers : layers_agree (layer_range (b + 1) c) (sl_layers s) (sl_layers sb) }.

Section Parts.
Context {LC : Type} `{laws : SliceKernelLaws LC} (e : slice_engine) (s sa sb : slice_session LC) (tokens : list Z) (pos0 a b c : Z) (input_hc : option (list Z)).
Context (Ha : 0 <= a) (Hab : a <= b) (Hbc : b < c) (Hn : sg_n_layer e <= U32_MAX) (Hin : match input_hc with Some h => hidden_ok (zlen tokens) h | None => True end).
Context (Hs : split_sessions a b c s sa sb).

Lemma bound_join : weights_layers_bound e a b = true -> weights_layers_bound e (b + 1) c = true -> weights_layers_bound e a c = true.
Proof.
  unfold weights_layers_bound. cbv zeta. destruct (sg_n_layer e <=? a) eqn:E1; [discriminate|]. destruct (sg_n_layer e <=? b + 1) eqn:E2; [discriminate|]. bool_prop.
  destruct (Z.eqb_spec b U32_MAX); [lia|]. destruct (_ || _) eqn:E3; [discriminate|]. intros Hf. destruct (Z.eqb_spec c U32_MAX) as [->|Hc].
  - rewrite (proj2 (Z.leb_gt _ _)), !(proj2 (Z.ltb_ge _ _)) by lia. cbn [orb]. intros Hg. rewrite (layer_range_split a b) by lia. by rewrite forallb_app, Hf, Hg.
  - destruct (sg_n_layer e <=? c) eqn:E4; [discriminate|]. rewrite !(proj2 (Z.ltb_ge _ _)) by lia. cbn [orb]. intros Hg.
    rewrite (layer_range_split a b) by lia. by rewrite forallb_app, Hf, Hg.
Qed.

Lemma parts_of_whole lg out s' : session_eval_layer_slice e s tokens pos0 a c input_hc true lg = (inr out, s') ->
  exists hm sa' sb', session_eval_layer_slice e sa tokens pos0 a b input_hc true false = (inr (Some hm, None), sa') /\
    session_eval_layer_slice e sb tokens pos0 (b + 1) c (Some hm) true lg = (inr out, sb') /\ split_sessions a b c s' sa' sb'.
Proof.
  intros E. destruct Hs as [Hta Htb Hla Hlb]. apply eval_slice_inv in E as (Hr & layers & h & Hp & Hout & ->); [|apply whole_hidden].
  pose proof (check_nonempty _ _ _ (sr_timeline _ _ _ _ _ _ _ _ Hr)) as Hlen.
  unfold slice_pass in Hp. destruct (slice_input tokens pos0 input_hc) as [h0|] eqn:Ei; [|discriminate Hp].
  pose proof (slice_input_ok tokens pos0 input_hc h0 Hlen Hin Ei) as Hh0.
  pose proof (slice_run_split tokens pos0 a b c _ _ _ h0 Hab Hbc Hla Hlb) as Hsp.
  destruct (slice_run tokens pos0 a b (sl_layers sa) h0) as [l1 [hm|]] eqn:E1; [|rewrite Hp in Hsp; discriminate Hsp].
  pose proof (slice_run_ok _ _ _ _ _ _ _ _ Hlen Hh0 E1) as Hhm.
  destruct (slice_run tokens pos0 (b + 1) c (sl_layers sb) hm) as [l2 r] eqn:E2. rewrite Hp in Hsp. cbn [fst snd] in Hsp. destruct Hsp as (<- & Hag1 & Hag2).
  assert (Hr1 : slice_ready e sa tokens pos0 a b (is_input input_hc) false).
  { refine (ready_part e s sa tokens pos0 a c a b (is_input input_hc) lg (is_input input_hc) false Hta Ha _ Hab _ Hn _ _ Hr); [lia|lia|by left|done]. }
  assert (Hr2 : slice_ready e sb tokens pos0 (b + 1) c true lg).
  { refine (ready_part e s sb tokens pos0 a c (b + 1) c (is_input input_hc) lg true lg Htb Ha _ _ _ Hn _ _ Hr); [lia|lia|lia|by right|done]. }
  exists hm, (slice_commit_timeline (set_layers l1 sa) tokens), (slice_commit_timeline (set_layers l2 sb) tokens). split_and!.
  - eapply eval_slice_intro; [apply whole_hidden|exact Hr1| |by apply slice_outputs_hidden]. unfold slice_pass. by rewrite Ei.
  - eapply (eval_slice_intro e sb tokens pos0 (b + 1) c (Some hm) true lg l2 h); [apply whole_hidden|exact Hr2|by rewrite slice_pass_input|exact Hout].
  - constructor; try done; by apply same_commit.
Qed.

Lemma whole_of_parts lg out hm sa' sb' : session_eval_layer_slice e sa tokens pos0 a b input_hc true false = (inr (Some hm, None), sa') ->
  session_eval_layer_slice e sb tokens pos0 (b + 1) c (Some hm) true lg = (inr out, sb') ->
  exists s', session_eval_layer_slice e s tokens pos0 a c input_hc true lg = (inr out, s') /\ split_sessions a b c s' sa' sb'.
Proof.
  intros Ea Eb. destruct Hs as [Hta Htb Hla Hlb]. apply eval_slice_inv in Ea as (Hra & l1 & h1 & Hp1 & Ho1 & ->); [|apply whole_hidden].
  apply eval_slice_inv in Eb as (Hrb & l2 & h2 & Hp2 & Ho2 & ->); [|apply whole_hidden].
  pose proof (check_nonempty _ _ _ (sr_timeline _ _ _ _ _ _ _ _ Hra)) as Hlen.
  unfold slice_pass in Hp1. destruct (slice_input tokens pos0 input_hc) as [h0|] eqn:Ei; [|discriminate Hp1].
  pose proof (slice_input_ok tokens pos0 input_hc h0 Hlen Hin Ei) as Hh0. pose proof (slice_run_ok _ _ _ _ _ _ _ _ Hlen Hh0 Hp1) as Hh1.
  rewrite slice_outputs_hidden in Ho1 by done. injection Ho1 as <-. rewrite slice_pass_input in Hp2 by done.
  pose proof (slice_run_split tokens pos0 a b c _ _ _ h0 Hab Hbc Hla Hlb) as Hsp. rewrite Hp1, Hp2 in Hsp. destruct Hsp as (Hsnd & Hag1 & Hag2).
  destruct (slice_run tokens pos0 a c (sl_layers s) h0) as [l h] eqn:E. cbn [fst snd] in *. subst h.
  exists (slice_commit_timeline (set_layers l s) tokens). split.
  - destruct Hra as [Hra1 Hra2 Hra3 Hra4 Hra5 Hra6 Hra7 Hra8 Hra9 Hra10], Hrb as [Hrb1 Hrb2 Hrb3 Hrb4 Hrb5 Hrb6 Hrb7 Hrb8 Hrb9 Hrb10].
    eapply eval_slice_intro; [apply whole_hidden| | unfold slice_pass; by rewrite Ei | exact Ho2].
    constructor; try done; [lia|by apply bound_join|by rewrite (same_check _ _ _ _ Hta)|by rewrite (st_cap _ _ Hta)|by rewrite (st_raw _ _ Hta)].
  - constructor; try done; by apply same_commit.
Qed.
End Parts.

(** ** Properties *)

(** C17: Evaluating a range of layers succeeds exactly when evaluating its two
    parts one after the other does, each in a session of its own with the caches
    of its layers and the second on the hidden states of the first; then hidden
    states and logits are the same and every cache holds the same afterwards. *)
Theorem slices_compose {LC : Type} `{laws : SliceKernelLaws LC} (e : slice_engine) (s sa sb : slice_session LC) (tokens : list Z) (pos0 a b c : Z)
  (input_hc : option (list Z)) (lg : bool) (out : option (list Z) * option (list Z)) :
  0 <= a -> a <= b -> b < c -> sg_n_layer e <= U32_MAX -> match input_hc with Some h => hidden_ok (zlen tokens) h | None => True end ->
  split_sessions a b c s sa sb ->
  (forall s', session_eval_layer_slice e s tokens pos0 a c input_hc true lg = (inr out, s') ->
     exists hm sa' sb', session_eval_layer_slice e sa tokens pos0 a b input_hc true false = (inr (Some hm, None), sa') /\
       session_eval_layer_slice e sb tokens pos0 (b + 1) c (Some hm) true lg = (inr out, sb') /\ split_sessions a b c s' sa' sb') /\
  (forall hm sa' sb', session_eval_layer_slice e sa tokens pos0 a b input_hc true false = (inr (Some hm, None), sa') ->
     session_eval_layer_slice e sb tokens pos0 (b + 1) c (Some hm) true lg = (inr out, sb') ->
     exists s', session_eval_layer_slice e s tokens pos0 a c input_hc true lg = (inr out, s') /\ split_sessions a b c s' sa' sb').
Proof.
  intros Ha Hab Hbc Hn Hin Hs. split.
  - intros s' E. by apply (parts_of_whole e s sa sb tokens pos0 a b c input_hc Ha Hab Hbc Hn Hin Hs lg out s').
  - intros hm sa' sb' Ea Eb. by apply (whole_of_parts e s sa sb tokens pos0 a b c input_hc Hab Hbc Hn Hin Hs lg out hm sa' sb').
Qed.

Lemma pass_outside {LC : Type} `{SliceKernels LC} (s : slice_session LC) tokens pos0 a b input_hc j : ~ (a <= j <= b) ->
  fst (slice_pass s tokens pos0 a b input_hc) j = sl_layers s j.
Proof.
  intros Hj. unfold slice_pass. destruct (slice_input _ _ _); [|done]. apply run_layers_outside. by rewrite in_layer_range.
Qed.

Lemma slice_timeline {LC : Type} `{SliceKernels LC} (e : slice_engine) (s : slice_session LC) (tokens : list Z) (pos0 a b : Z)
  (input_hc : option (list Z)) (want_hc lg : bool) :
  let '(out, s') := session_eval_layer_slice e s tokens pos0 a b input_hc want_hc lg in
  (forall j, whole e a b input_hc want_hc lg = false \/ 0 <= j < sg_n_layer e -> ~ (a <= j <= b) -> sl_layers s' j = sl_layers s j) /\
  match out with
  | inr _ => sl_checkpoint s' = sl_checkpoint s ++ tokens /\ sl_checkpoint_valid s' = true /\ tokens <> [] /\ pos0 + zlen tokens <= sl_ctx_size s /\
             (if sl_checkpoint_valid s then zlen (sl_checkpoint s) = pos0 else pos0 = 0)
  | inl _ => s' = s \/ sl_checkpoint s' = sl_checkpoint s /\ sl_checkpoint_valid s' = false
  end.
Proof.
  unfold session_eval_layer_slice. cbv zeta.
  replace (match input_hc with Some _ => false | None => true end) with (negb (is_input input_hc)) by by destruct input_hc.
  fold (whole e a b input_hc want_hc lg). fold (slice_decodes tokens pos0).
  destruct (_ || _ || _) eqn:E1; [by split; [|left]|]. do 5 (case_if; [by split; [|left]|]).
  destruct (slice_check_timeline s tokens pos0) eqn:Ht; [by split; [|left]|]. pose proof (check_spec _ _ _ Ht) as (Hn & Hfit & Hpos).
  assert (Hne : tokens <> []) by (intros ->; done). do 2 (case_if; [by split; auto|]).
  destruct (whole e a b input_hc want_hc lg) eqn:Hw.
  { assert (Hall : forall j, whole e a b input_hc want_hc lg = false \/ 0 <= j < sg_n_layer e -> ~ (a <= j <= b) -> False).
    { intros j Hj Hn'. destruct Hj as [Hj|Hj]; [congruence|]. unfold whole in Hw. bool_prop. assert (Hu : u32 (b + 1) = b + 1); [|lia]. pose proof (u32_range (b + 1)). apply u32_small. unfold is_u32, U32_MAX in *. lia. }
    by destruct (slice_full s tokens pos0) as [[layers logits]|]; (split; [intros j H1 H2; exfalso; rewrite Hw in Hall; by apply (Hall j)|]); auto. }
  case_if; [by split; auto|]. rewrite pass_cases by done. pose proof (fun j => pass_outside s tokens pos0 a b input_hc j) as Hout.
  destruct (slice_pass s tokens pos0 a b input_hc) as [layers h]. cbn [fst] in Hout.
  destruct (h ≫= _); (split; [intros j _; apply Hout|]); [done|by right].
Qed.

(** Evaluating a slice, whatever its arguments, either appends the tokens
    behind the session's own and leaves it valid, or keeps its tokens and fails,
    and then the session has lost its validity if any cache changed.  Only the
    caches of the slice's layers change. *)
Theorem slice_timeline_exact {LC : Type} `{SliceKernels LC} (e : slice_engine) (s : slice_session LC) (tokens : list Z) (pos0 a b : Z)
  (input_hc : option (list Z)) (want_hc lg : bool) :
  let '(out, s') := session_eval_layer_slice e s tokens pos0 a b input_hc want_hc lg in
  (forall j, whole e a b input_hc want_hc lg = false \/ 0 <= j < sg_n_layer e -> ~ (a <= j <= b) -> sl_layers s' j = sl_layers s j) /\
  match out with
  | inr _ => sl_checkpoint s' = sl_checkpoint s ++ tokens /\ sl_checkpoint_valid s' = true /\ tokens <> [] /\ pos0 + zlen tokens <= sl_ctx_size s /\
             (if sl_checkpoint_valid s then zlen (sl_checkpoint s) = pos0 else pos0 = 0)
  | inl _ => s' = s \/ sl_checkpoint s' = sl_checkpoint s /\ sl_checkpoint_valid s' = false
  end.
Proof. exact (slice_timeline e s tokens pos0 a b input_hc want_hc lg). Qed.

(** ** A small model *)

Module Toy.
(** A layer keeps the hidden states it has seen and adds its number and their
    count to each. *)
Definition layer (il : Z) (c : list Z) (h : list Z) : list Z * list Z := (c ++ h, map (fun x => u32 (x + il + zlen c)) h).

#[export] Instance kernels : SliceKernels (list Z) := {
  hc_values := 1;
  n_vocab := 2;
  empty_layer := [];
  reset_layer _ _ := Some [];
  embed_token t := Some [u32 t];
  embed_prompt ts := Some (map u32 ts);
  decode_layer il _ _ c h := Some (layer il c h);
  batch_layer il _ _ c h := Some (layer il c h);
  encode_output_head h := Some [u32 (List.hd 0 h); u32 (7 * List.hd 0 h)];
  eval_token_raw_swa layers t _ := Some (layers, [u32 t; 0]);
  prefill_layer_major layers ts _ := Some (layers, [u32 (List.hd 0 ts); 0]);
  gpu_synchronize _ := true }.

#[export] Instance laws : SliceKernelLaws (list Z).
Proof.
  assert (Hmap : forall (f : Z -> Z) l, Forall is_u32 (map (fun x => u32 (f x)) l)) by (intros f l; apply Forall_map, Forall_true; intros x; apply u32_range).
  assert (Hlen : forall (f : Z -> Z) l, zlen (map f l) = zlen l) by (intros; unfold zlen; by rewrite length_map).
  constructor; cbn; try done.
  - intros il c c' [= <-]. done.
  - intros t h [= <-]. split; [done|]. constructor; [apply u32_range|constructor].
  - intros ts h [= <-]. split; [cbn; rewrite Hlen; lia|apply (Hmap (fun x => x))].
  - intros il pos t c h c' h' [Hl _] [= <- <-]. split; [by rewrite Hlen|apply Hmap].
  - intros il pos ts c h c' h' [Hl _] [= <- <-]. split; [by rewrite Hlen|apply Hmap].
  - intros h l _ [= <-]. split; [done|]. repeat constructor; apply u32_range.
Qed.

Definition engine : slice_engine := SliceEngine false 4 (fun _ => true) true true (bs "Metal") (fun _ => Some (8, 4)).
Definition fresh : slice_session (list Z) := SliceSession 16 8 4 [] false false (fun _ => []).
End Toy.
#[local] Existing Instance Toy.kernels.
#[local] Existing Instance Toy.laws.

Lemma slices_compose_witness : exists s', session_eval_layer_slice Toy.engine Toy.fresh [5; 6] 0 0 3 None true true = (inr (Some [11; 12], Some [12; 84]), s').
Proof.
  destruct (slices_compose Toy.engine Toy.fresh Toy.fresh Toy.fresh [5; 6] 0 0 1 3 None true (Some [11; 12], Some [12; 84])) as [_ Hparts]; try done.
  - constructor; done || by apply layers_agree_refl.
  - destruct (session_eval_layer_slice Toy.engine Toy.fresh [5; 6] 0 0 1 None true false) as [o sa'] eqn:Ea.
    destruct (session_eval_layer_slice Toy.engine Toy.fresh [5; 6] 0 2 3 (Some [6; 7]) true true) as [o' sb'] eqn:Eb.
    assert (Ho : o = inr (Some [6; 7], None)) by (vm_compute in Ea; congruence). assert (Ho' : o' = inr (Some [11; 12], Some [12; 84])) by (vm_compute in Eb; congruence).
    subst o o'. destruct (Hparts [6; 7] sa' sb' eq_refl Eb) as (s' & E & _). by exists s'.
Defined.
