(* ===== verification/DistWork.v ===== *)
(** * Distributed inference: workers and the coordinator's spans (ds4_distributed.c)

    What a worker does with a work frame, from its bytes to the frame it sends on
    or back; the queue of forwarded requests and the relay that returns their
    results; the coordinator's evaluation of a span of tokens over a route, its
    sequential prefill, and the recovery from a failure.  A connection is the
    bytes it delivers; the network between a worker and the next one is a map of
    nodes, and a request is followed until its result is back.  Measured times
    are arguments.  Allocation failures, the pipelined prefill and the worker's
    prefetch threads are not modelled. *)

From stdpp Require Import gmap.
From S2P Require Import Prelude DistWire DistRoute LayerSlice.
#[local] Open Scope Z_scope.
#[local] Open Scope stdpp_scope.

(** ** Forwarded requests *)

Record ds4_dist_pending_request := Pending { pe_request_id : Z; pe_telemetry : ds4_dist_telemetry_fixed }.

Record ds4_dist_worker_forwarder := Forwarder {
  fw_host : bytes; fw_port : Z; fw_pending : list ds4_dist_pending_request; fw_pending_depth : Z; fw_closing : bool }.

Definition set_pending (pending : list ds4_dist_pending_request) (f : ds4_dist_worker_forwarder) : ds4_dist_worker_forwarder :=
  Forwarder (fw_host f) (fw_port f) pending (fw_pending_depth f) (fw_closing f).

(** [None]: the caller waits for room. *)
Definition dist_worker_forwarder_enqueue_request (f : ds4_dist_worker_forwarder) (request_id : Z) (telemetry : ds4_dist_telemetry_fixed) :
  option (bool * ds4_dist_worker_forwarder) :=
  if negb (fw_closing f) && negb (fw_pending_depth f =? 0) && (fw_pending_depth f <=? zlen (fw_pending f)) then None
  else if fw_closing f then Some (false, f)
  else Some (true, set_pending (fw_pending f ++ [Pending request_id telemetry]) f).

Definition dist_worker_forwarder_pop_request (f : ds4_dist_worker_forwarder) : option ds4_dist_pending_request * ds4_dist_worker_forwarder :=
  match fw_pending f with
  | [] => (None, f)
  | node :: rest => (Some node, set_pending rest f)
  end.

Fixpoint remove_pending (request_id : Z) (pending : list ds4_dist_pending_request) : list ds4_dist_pending_request :=
  match pending with
  | [] => []
  | node :: rest => if pe_request_id node =? request_id then rest else node :: remove_pending request_id rest
  end.

Definition dist_worker_forwarder_remove_request (f : ds4_dist_worker_forwarder) (request_id : Z) : ds4_dist_worker_forwarder :=
  set_pending (remove_pending request_id (fw_pending f)) f.

Definition note_sent (usec : Z) (t : ds4_dist_telemetry_fixed) : ds4_dist_telemetry_fixed :=
  Telemetry (te_layer_start t) (te_layer_end t) (te_route_index t) (te_pos0 t) (te_n_tokens t) (te_eval_usec t) (te_downstream_wait_usec t) usec
    (te_input_bytes t) (te_output_bytes t).
Definition note_waited (usec : Z) (t : ds4_dist_telemetry_fixed) : ds4_dist_telemetry_fixed :=
  Telemetry (te_layer_start t) (te_layer_end t) (te_route_index t) (te_pos0 t) (te_n_tokens t) (te_eval_usec t) usec (te_forward_send_usec t)
    (te_input_bytes t) (te_output_bytes t).

Fixpoint note_pending (request_id usec : Z) (pending : list ds4_dist_pending_request) : list ds4_dist_pending_request :=
  match pending with
  | [] => []
  | node :: rest =>
      if pe_request_id node =? request_id then Pending (pe_request_id node) (note_sent usec (pe_telemetry node)) :: rest
      else node :: note_pending request_id usec rest
  end.

Definition dist_worker_forwarder_note_send_done (f : ds4_dist_worker_forwarder) (request_id usec : Z) : ds4_dist_worker_forwarder :=
  set_pending (note_pending request_id usec (fw_pending f)) f.

Definition dist_worker_forwarder_close_queue (f : ds4_dist_worker_forwarder) : ds4_dist_worker_forwarder :=
  Forwarder (fw_host f) (fw_port f) (fw_pending f) (fw_pending_depth f) true.

Definition is_forwarder (host : bytes) (port : Z) (f : ds4_dist_worker_forwarder) : bool := (fw_port f =? port) && bytes_eqb (fw_host f) host.

(** The first forwarder for an address, updated. *)
Fixpoint update_forwarder (host : bytes) (port : Z) (f : ds4_dist_worker_forwarder) (fs : list ds4_dist_worker_forwarder) : list ds4_dist_worker_forwarder :=
  match fs with
  | [] => []
  | g :: fs' => if is_forwarder host port g then f :: fs' else g :: update_forwarder host port f fs'
  end.

(** [connect]: the message when the address cannot be reached; [window] is the
    depth of a new queue. *)
Definition dist_worker_get_forwarder (connect : bytes -> Z -> option bytes) (window : Z) (fs : list ds4_dist_worker_forwarder) (host : bytes) (port : Z) :
  (bytes + ds4_dist_worker_forwarder) * list ds4_dist_worker_forwarder :=
  match List.find (is_forwarder host port) fs with
  | Some f => (inr f, fs)
  | None =>
      match connect host port with
      | Some err => (inl err, fs)
      | None => let f := Forwarder host port [] window false in (inr f, f :: fs)
      end
  end.

(** ** Relaying results *)

(** The loop that copies [remaining] bytes in chunks of 1 MiB: what is written
    upstream and whether all of it was. *)
Fixpoint relay_copy (fuel : nat) (s : stream) (remaining : Z) : bytes * stream * bool :=
  match fuel with
  | O => ([], s, true)
  | S fuel' =>
      if remaining <=? 0 then ([], s, true)
      else
        let n := if remaining <? 1048576 then remaining else 1048576 in
        let '(rc, b, s) := dist_read_full s n in
        if rc <=? 0 then ([], s, false)
        else let '(rest, s, ok) := relay_copy fuel' s (remaining - n) in (b ++ rest, s, ok)
  end.

Definition relay_bytes (s : stream) (remaining : Z) : bytes * stream * bool := relay_copy (S (Z.to_nat remaining)) s remaining.

Definition opt_bytes (o : option bytes) : bytes := default [] o.

(** One round of [dist_worker_forwarder_relay_main]: the bytes it sends upstream
    and whether it goes on. *)
Definition relay_round (f : ds4_dist_worker_forwarder) (wait_usec : Z) (s : stream) : bytes * ds4_dist_worker_forwarder * stream * bool :=
  let fail (msg : bytes) (s : stream) :=
    let '(p, f) := dist_worker_forwarder_pop_request f in
    (match p with Some p => opt_bytes (dist_send_work_error (pe_request_id p) msg) | None => [] end, f, s, false) in
  match dist_read_frame_header s with
  | (inl _, s) => fail (bs "next worker closed connection") s
  | (inr (type, bytes), s) =>
    if negb (type =? DS4_DIST_MSG_RESULT) || (bytes <? wire_size ds4_dist_result_fixed) then
      fail (bs "next worker did not return valid RESULT") (snd (discard s bytes))
    else
      let '(rc, b, s) := dist_read_full s (wire_size ds4_dist_result_fixed) in
      if rc <=? 0 then fail (bs "next worker closed while returning RESULT") s
      else
        let result := wire_parse b : ds4_dist_result_fixed in
        let got_request := dist_u64_from_halves (re_request_hi result) (re_request_lo result) in
        let body_bytes := bytes - wire_size ds4_dist_result_fixed in
        if negb (result_sizes_ok result body_bytes) then fail (bs "next worker RESULT metadata mismatch") (snd (discard s body_bytes))
        else
          match dist_worker_forwarder_pop_request f with
          | (None, f) => ([], f, snd (discard s body_bytes), false)
          | (Some p, f) =>
            let error (msg : Prelude.bytes) := (opt_bytes (dist_send_work_error (pe_request_id p) msg), f, snd (discard s body_bytes), false) in
            if negb (got_request =? pe_request_id p) then error (bs "next worker RESULT metadata mismatch")
            else
              let out_telemetry_bytes := re_telemetry_bytes result + wire_size ds4_dist_telemetry_fixed in
              let out_telemetry_count := u32 (re_telemetry_count result + 1) in
              if (U32_MAX <? out_telemetry_bytes) || (out_telemetry_count =? 0) then error (bs "distributed telemetry chain is too large")
              else
                let out_frame_bytes := wire_size ds4_dist_result_fixed + out_telemetry_bytes + re_payload_bytes result in
                if U32_MAX <? out_frame_bytes then error (bs "distributed RESULT frame is too large")
                else
                  let out := ResultFixed (re_request_hi result) (re_request_lo result) (re_result_hash_hi result) (re_result_hash_lo result) (re_status result)
                               (re_result_kind result) out_telemetry_count out_telemetry_bytes (re_payload_bytes result) (re_payload_bits result) in
                  let head := dist_write_frame_header DS4_DIST_MSG_RESULT (u32 out_frame_bytes) ++ wire_image out in
                  let '(telemetry, s, ok) := relay_bytes s (out_telemetry_bytes - wire_size ds4_dist_telemetry_fixed) in
                  if negb ok then (head ++ telemetry, f, s, false)
                  else
                    let local := wire_image (note_waited wait_usec (pe_telemetry p)) in
                    let '(payload, s, ok) := relay_bytes s (re_payload_bytes result) in
                    (head ++ telemetry ++ local ++ payload, f, s, ok)
          end
  end.

(** ** A worker *)

Section Worker.
Context {LC : Type} `{SliceKernels LC}.

Record ds4_dist_worker_session := WorkerSession { wn_session_id : Z; wn_token_hash : Z; wn_token_hash_valid : bool; wn_session : slice_session LC }.

Record ds4_dist_worker_state := WorkerState {
  wo_engine : slice_engine; wo_model_id : Z; wo_layer_start : Z; wo_layer_end : Z; wo_has_output : bool; wo_ctx_size : Z;
  wo_sessions : list ds4_dist_worker_session }.

Definition set_sessions (sessions : list ds4_dist_worker_session) (st : ds4_dist_worker_state) : ds4_dist_worker_state :=
  WorkerState (wo_engine st) (wo_model_id st) (wo_layer_start st) (wo_layer_end st) (wo_has_output st) (wo_ctx_size st) sessions.

Definition is_session (session_id : Z) (ws : ds4_dist_worker_session) : bool := wn_session_id ws =? session_id.

Definition dist_worker_find_session_locked (st : ds4_dist_worker_state) (session_id : Z) : option ds4_dist_worker_session :=
  List.find (is_session session_id) (wo_sessions st).

(** The session, made when it is not there. *)
Definition dist_worker_get_session_locked (st : ds4_dist_worker_state) (session_id : Z) : (bytes + ds4_dist_worker_session) * ds4_dist_worker_state :=
  match List.find (is_session session_id) (wo_sessions st) with
  | Some ws => (inr ws, st)
  | None =>
      match slice_session_create (wo_engine st) (wo_ctx_size st) with
      | None => (inl (bs "failed to create distributed worker session"), st)
      | Some session => let ws := WorkerSession session_id 0 false session in (inr ws, set_sessions (ws :: wo_sessions st) st)
      end
  end.

(** The session the pointer is to, after writing through it. *)
Fixpoint update_session (ws : ds4_dist_worker_session) (sessions : list ds4_dist_worker_session) : list ds4_dist_worker_session :=
  match sessions with
  | [] => []
  | x :: rest => if is_session (wn_session_id ws) x then ws :: rest else x :: update_session ws rest
  end.

Definition store_session (ws : ds4_dist_worker_session) (st : ds4_dist_worker_state) : ds4_dist_worker_state :=
  set_sessions (update_session ws (wo_sessions st)) st.

Definition set_hash (hash : Z) (valid : bool) (ws : ds4_dist_worker_session) : ds4_dist_worker_session :=
  WorkerSession (wn_session_id ws) hash valid (wn_session ws).
Definition set_slice (s : slice_session LC) (ws : ds4_dist_worker_session) : ds4_dist_worker_session :=
  WorkerSession (wn_session_id ws) (wn_token_hash ws) (wn_token_hash_valid ws) s.

Definition has_flag (flags f : Z) : bool := negb (Z.land flags f =? 0).

(** The checks of the fixed part of a work frame of [remaining] further bytes;
    the message of a refusal. *)
Definition check_work (st : ds4_dist_worker_state) (work : ds4_dist_work_fixed) (remaining : Z) : option bytes :=
  let u := dec_print in
  let n_layers := sg_n_layer (wo_engine st) in
  let output_logits := has_flag (wk_flags work) DS4_DIST_WORK_F_OUTPUT_LOGITS in
  let input_hc_present := has_flag (wk_flags work) DS4_DIST_WORK_F_INPUT_HC in
  if negb (wk_token_bytes work =? wk_n_tokens work * 4) || negb (wk_token_bytes work + wk_input_hc_bytes work + wk_route_bytes work =? remaining) then
    Some (bs "invalid distributed WORK payload sizes")
  else if wk_route_count work =? 0 then Some (bs "WORK frame is missing distributed route")
  else if wk_route_count work <=? wk_route_index work then Some (bs "invalid distributed WORK route metadata")
  else if negb (wk_model_id work =? wo_model_id st) then Some (bs "model id mismatch: work=" ++ u (wk_model_id work) ++ bs " worker=" ++ u (wo_model_id st))
  else if negb (wk_layer_start work =? wo_layer_start st) || negb (wk_layer_end work =? wo_layer_end st) then
    Some (bs "worker is assigned layers " ++ u (wo_layer_start st) ++ bs ":" ++ u (wo_layer_end st) ++ bs " but request asked for " ++
          u (wk_layer_start work) ++ bs ":" ++ u (wk_layer_end work))
  else if negb (Z.land (wk_flags work) (U32_MAX - DS4_DIST_WORK_F_VALID_MASK) =? 0) then Some (bs "invalid distributed WORK flags")
  else if wk_n_tokens work =? 0 then Some (bs "WORK frame has no tokens")
  else if (wo_ctx_size st <? wk_pos0 work) || (wo_ctx_size st - wk_pos0 work <? wk_n_tokens work) then Some (bs "WORK token span exceeds worker context")
  else if input_hc_present && (wk_layer_start work =? 0) then Some (bs "layer 0 WORK must not provide input hidden-state")
  else if negb input_hc_present && negb (wk_layer_start work =? 0) then Some (bs "nonzero layer WORK requires input hidden-state")
  else if output_logits && negb (wo_has_output st) then Some (bs "worker was not assigned the output head")
  else if output_logits && negb (u32 (wk_layer_end work + 1) =? n_layers) then Some (bs "WORK logits require final transformer layer")
  else None.

(** The next [len] bytes; [None]: they are not there. *)
Definition dist_mem_read (r : bytes) (len : Z) : option (bytes * bytes) :=
  if zlen r <? len then None else Some (take (Z.to_nat len) r, drop (Z.to_nat len) r).

(** The loop over the tokens.  [None]: the frame ends within them. *)
Fixpoint read_work_tokens (n : nat) (r : bytes) : option (bytes + list Z * bytes) :=
  match n with
  | O => Some (inr ([], r))
  | S n' =>
      '(b, r) ← dist_mem_read r 4;
      let token := ntohl (le_val b) in
      if (INT32_MAX <? token) || (n_vocab <=? token) then Some (inl (bs "WORK token id is outside the model vocabulary"))
      else
        rest ← read_work_tokens n' r;
        Some (match rest with inl err => inl err | inr (tokens, r) => inr (token :: tokens, r) end)
  end.

(** What a frame asks for, once everything that can be checked without the
    session is. *)
Record work_request := Request {
  rq_tokens : list Z; rq_input : option (list Z); rq_bits : Z; rq_next : option ds4_dist_route_entry; rq_route : bytes;
  rq_kind : Z; rq_logits : bool; rq_hidden : bool }.

(** The checks of the route, and the worker behind this one. *)
Definition check_route (st : ds4_dist_worker_state) (work : ds4_dist_work_fixed) (blob : bytes) : bytes + option ds4_dist_route_entry :=
  let count := Z.to_nat (wk_route_count work) in
  let index := Z.to_nat (wk_route_index work) in
  let output_logits := has_flag (wk_flags work) DS4_DIST_WORK_F_OUTPUT_LOGITS in
  let has_next := u32 (wk_route_index work + 1) <? wk_route_count work in
  match dist_route_validate_blob count blob (sg_n_layer (wo_engine st)) with
  | Some err => inl err
  | None =>
    match dist_route_get_entry count blob index with
    | inl err => inl err
    | inr current =>
      if negb (ro_layer_start current =? wk_layer_start work) || negb (ro_layer_end current =? wk_layer_end work) then
        inl (bs "WORK layer range does not match route entry")
      else if negb (Bool.eqb (has_flag (ro_flags current) DS4_DIST_ROUTE_F_OUTPUT_LOGITS) output_logits) then
        inl (bs "WORK logits flag does not match route entry")
      else if has_next then
        match dist_route_get_entry count blob (S index) with
        | inl err => inl err
        | inr next => if output_logits then inl (bs "non-final route entry requested logits") else inr (Some next)
        end
      else
        match dist_route_get_return_target count blob with
        | inl err => inl err
        | inr ret => if negb (rg_kind ret =? DS4_DIST_ROUTE_RETURN_UPSTREAM) then inl (bs "unsupported final result destination") else inr None
        end
    end
  end.

(** The rest of the frame behind its fixed part.  [None]: the frame ends early. *)
Definition read_work (st : ds4_dist_worker_state) (work : ds4_dist_work_fixed) (r : bytes) : option (bytes + work_request) :=
  let output_logits := has_flag (wk_flags work) DS4_DIST_WORK_F_OUTPUT_LOGITS in
  let input_hc_present := has_flag (wk_flags work) DS4_DIST_WORK_F_INPUT_HC in
  let ack_only := has_flag (wk_flags work) DS4_DIST_WORK_F_ACK_ONLY in
  read ← read_work_tokens (Z.to_nat (wk_n_tokens work)) r;
  match read with
  | inl err => Some (inl err)
  | inr (tokens, r) =>
    if negb (dist_token_hash_update_span (dist_u64_from_halves (wk_prefix_hash_hi work) (wk_prefix_hash_lo work)) tokens =?
             dist_u64_from_halves (wk_result_hash_hi work) (wk_result_hash_lo work)) then Some (inl (bs "WORK token prefix hash metadata mismatch"))
    else
      let expected_hc_values := u64 (wk_n_tokens work * hc_values) in
      let expected_hc_bytes := u64 (expected_hc_values * 4) in
      if U32_MAX <? expected_hc_bytes then Some (inl (bs "distributed hidden-state payload is too large"))
      else
        let bits := dist_activation_bits_or_default (wk_input_hc_bits work) in
        let checked :=
          if input_hc_present then
            match (if dist_activation_bits_valid bits then dist_activation_wire_bytes bits expected_hc_values else None) with
            | None => Some (bs "invalid distributed activation width")
            | Some n => if negb (wk_input_hc_bytes work =? n) then Some (bs "input hidden-state size does not match token span") else None
            end
          else if negb (wk_input_hc_bytes work =? 0) then Some (bs "WORK frame has hidden bytes without input flag") else None in
        match checked with
        | Some err => Some (inl err)
        | None =>
          '(wire, r) ← (if input_hc_present then dist_mem_read r (wk_input_hc_bytes work) else Some ([], r));
          '(blob, _) ← (if negb (wk_route_bytes work =? 0) then dist_mem_read r (wk_route_bytes work) else Some ([], r));
          match check_route st work blob with
          | inl err => Some (inl err)
          | inr next =>
            let has_next := match next with Some _ => true | None => false end in
            let final_ack_only := ack_only && negb has_next in
            let local_output_logits := output_logits && negb has_next && negb final_ack_only in
            let kind := if final_ack_only then DS4_DIST_RESULT_ACK else if local_output_logits then DS4_DIST_RESULT_LOGITS else DS4_DIST_RESULT_HIDDEN_STATE in
            let request input := Request tokens input bits next blob kind local_output_logits (negb local_output_logits && negb final_ack_only) in
            if input_hc_present then
              match dist_decode_activation_payload wire bits (wk_input_hc_bytes work) with
              | inl err => Some (inl err)
              | inr floats =>
                  if negb (zlen floats * 4 =? expected_hc_bytes) then Some (inl (bs "decoded input hidden-state size does not match token span"))
                  else Some (inr (request (Some floats)))
              end
            else Some (inr (request None))
          end
        end
  end.

(** The part under the lock: the session and the evaluation.  The result's bytes,
    or the message of the failure. *)
Definition run_work (st : ds4_dist_worker_state) (work : ds4_dist_work_fixed) (rq : work_request) : (bytes + bytes) * ds4_dist_worker_state :=
  let e := wo_engine st in
  let prefix_hash := dist_u64_from_halves (wk_prefix_hash_hi work) (wk_prefix_hash_lo work) in
  let result_hash := dist_u64_from_halves (wk_result_hash_hi work) (wk_result_hash_lo work) in
  match dist_worker_get_session_locked st (dist_u64_from_halves (wk_session_hi work) (wk_session_lo work)) with
  | (inl err, st) => (inl err, st)
  | (inr ws, st) =>
    let reset := has_flag (wk_flags work) DS4_DIST_WORK_F_RESET_SESSION in
    let '(failed, ws) := if reset then let '(err, s) := session_layer_slice_reset e (wn_session ws) in (err, set_slice s ws) else (None, ws) in
    match failed with
    | Some err => (inl err, store_session ws st)
    | None =>
      let ws :=
        if reset then set_hash DS4_DIST_TOKEN_HASH_INIT true ws
        else if negb (wn_token_hash_valid ws) then set_hash (dist_token_hash_prefix (sl_checkpoint (wn_session ws))) true ws
        else ws in
      if negb (wn_token_hash ws =? prefix_hash) then (inl (bs "worker KV prefix hash mismatch"), store_session ws st)
      else
        let '(out, s) := session_eval_layer_slice e (wn_session ws) (rq_tokens rq) (wk_pos0 work) (wk_layer_start work) (wk_layer_end work)
                           (rq_input rq) (rq_hidden rq) (rq_logits rq) in
        match out with
        | inl err => (inl err, store_session (set_hash (wn_token_hash ws) false (set_slice s ws)) st)
        | inr (hc, logits) =>
            (inr (image (default [] (if rq_logits rq then logits else hc))), store_session (set_hash result_hash true (set_slice s ws)) st)
        end
    end
  end.

(** Where a worker sends what, or that it waits for room, or that the
    connection is broken. *)
Inductive worker_out :=
  | WReply (frame : bytes)
  | WForward (next : ds4_dist_route_entry) (frame : bytes)
  | WWait
  | WBroken.

Definition reply_error (request_id : Z) (msg : bytes) : worker_out :=
  match dist_send_work_error request_id msg with Some b => WReply b | None => WBroken end.

(** The frame for the worker behind. *)
Definition forwarded_work (next : ds4_dist_route_entry) (work : ds4_dist_work_fixed) (bits hc_bytes : Z) : ds4_dist_work_fixed :=
  let flags := Z.lor (wk_flags work) DS4_DIST_WORK_F_INPUT_HC in
  Work (wk_model_id work) (wk_session_hi work) (wk_session_lo work) (wk_request_hi work) (wk_request_lo work) (wk_prefix_hash_hi work) (wk_prefix_hash_lo work)
    (wk_result_hash_hi work) (wk_result_hash_lo work) (wk_pos0 work) (wk_n_tokens work) (ro_layer_start next) (ro_layer_end next)
    (if has_flag (ro_flags next) DS4_DIST_ROUTE_F_OUTPUT_LOGITS then Z.lor flags DS4_DIST_WORK_F_OUTPUT_LOGITS
     else Z.land flags (U32_MAX - DS4_DIST_WORK_F_OUTPUT_LOGITS))
    (wk_token_bytes work) hc_bytes bits (wk_route_count work) (u32 (wk_route_index work + 1)) (wk_route_bytes work).

Definition dist_forward_work_to_next (connect : bytes -> Z -> option bytes) (window send_usec : Z) (fs : list ds4_dist_worker_forwarder)
  (next : ds4_dist_route_entry) (work : ds4_dist_work_fixed) (tokens hidden : list Z) (telemetry : ds4_dist_telemetry_fixed) (blob : bytes) :
  worker_out * list ds4_dist_worker_forwarder :=
  let request_id := dist_u64_from_halves (wk_request_hi work) (wk_request_lo work) in
  let '(got, fs) := dist_worker_get_forwarder connect window fs (ro_host next) (ro_port next) in
  match got with
  | inl err => (reply_error request_id err, fs)
  | inr f =>
    let bits := dist_activation_bits_or_default (wk_input_hc_bits work) in
    match dist_activation_wire_bytes_from_f32_bytes bits (u32 (zlen hidden * 4)) with
    | None => (reply_error request_id (bs "invalid forwarded hidden-state size"), fs)
    | Some hc_bytes =>
      let forwarded := forwarded_work next work bits hc_bytes in
      match dist_worker_forwarder_enqueue_request f request_id telemetry with
      | None => (WWait, fs)
      | Some (false, _) => (reply_error request_id (bs "out of memory tracking forwarded request"), fs)
      | Some (true, f) =>
        let f := dist_worker_forwarder_note_send_done f request_id send_usec in
        match dist_send_work_frame forwarded tokens hidden blob with
        | None => (reply_error request_id (bs "failed to forward distributed work"),
                   update_forwarder (ro_host next) (ro_port next) (dist_worker_forwarder_remove_request f request_id) fs)
        | Some frame => (WForward next frame, update_forwarder (ro_host next) (ro_port next) f fs)
        end
      end
    end
  end.

(** [eval_usec] and [send_usec] are measured. *)
Definition dist_worker_process_work_payload (connect : bytes -> Z -> option bytes) (window eval_usec send_usec : Z) (st : ds4_dist_worker_state)
  (fs : list ds4_dist_worker_forwarder) (payload : bytes) : worker_out * ds4_dist_worker_state * list ds4_dist_worker_forwarder :=
  match dist_mem_read payload (wire_size ds4_dist_work_fixed) with
  | None => (reply_error 0 (bs "truncated distributed WORK frame"), st, fs)
  | Some (b, r) =>
    let work := wire_parse b : ds4_dist_work_fixed in
    let request_id := dist_u64_from_halves (wk_request_hi work) (wk_request_lo work) in
    match check_work st work (zlen payload - wire_size ds4_dist_work_fixed) with
    | Some err => (reply_error request_id err, st, fs)
    | None =>
      match read_work st work r with
      | None => (WBroken, st, fs)
      | Some (inl err) => (reply_error request_id err, st, fs)
      | Some (inr rq) =>
        let '(ran, st) := run_work st work rq in
        match ran with
        | inl err => (reply_error request_id err, st, fs)
        | inr result =>
          match (if rq_kind rq =? DS4_DIST_RESULT_HIDDEN_STATE then dist_activation_wire_bytes_from_f32_bytes (rq_bits rq) (zlen result) else Some (zlen result)) with
          | None => (reply_error request_id (bs "invalid output hidden-state size"), st, fs)
          | Some result_wire_bytes =>
            let telemetry := Telemetry (wk_layer_start work) (wk_layer_end work) (wk_route_index work) (wk_pos0 work) (wk_n_tokens work) eval_usec 0 0
                               (u32 (wk_token_bytes work + wk_input_hc_bytes work)) result_wire_bytes in
            match rq_next rq with
            | Some next =>
                let '(out, fs) := dist_forward_work_to_next connect window send_usec fs next work (rq_tokens rq) (le_words (Z.to_nat (zlen result / 4)) result)
                                    telemetry (rq_route rq) in
                (out, st, fs)
            | None =>
                (match dist_send_work_result request_id (dist_u64_from_halves (wk_result_hash_hi work) (wk_result_hash_lo work)) 0 (rq_kind rq)
                         (if rq_kind rq =? DS4_DIST_RESULT_HIDDEN_STATE then rq_bits rq else 32) [telemetry] result with
                 | Some frame => WReply frame
                 | None => WBroken
                 end, st, fs)
            end
          end
        end
      end
    end
  end.
End Worker.
#[global] Arguments ds4_dist_worker_session : clear implicits.
#[global] Arguments ds4_dist_worker_state : clear implicits.

(** ** The network *)

Section Network.
Context {LC : Type} `{SliceKernels LC}.

(** A worker and the forwarders of the connection it is reached by. *)
Record node := Node { nd_state : ds4_dist_worker_state LC; nd_forwarders : list ds4_dist_worker_forwarder }.

Definition address : Type := bytes * Z.
Definition network : Type := gmap address node.

Definition connects (net : network) (host : bytes) (port : Z) : option bytes :=
  match net !! (host, port) with Some _ => None | None => Some (bs "connection refused") end.

(** The measured times of the hop to each address, and the queue depth. *)
Record timing := Timing { tm_eval : address -> Z; tm_send : address -> Z; tm_wait : address -> Z; tm_window : Z }.

(** The payload of a work frame, and its handling. *)
Definition dist_worker_handle_work (tm : timing) (net : network) (at_ : address) (nd : node) (s : stream) (bytes : Z) : worker_out * node :=
  let '(rc, payload, _) := dist_read_full s bytes in
  if rc <=? 0 then (WBroken, nd)
  else
    let '(out, st, fs) := dist_worker_process_work_payload (connects net) (tm_window tm) (tm_eval tm at_) (tm_send tm at_) (nd_state nd) (nd_forwarders nd) payload in
    (out, Node st fs).

(** A frame is sent to a worker: what comes back on the connection when the
    request is done, by way of the workers behind.  [None]: the fuel, or a worker
    waits. *)
Fixpoint deliver (tm : timing) (fuel : nat) (net : network) (at_ : address) (frame : bytes) : option (stream * network) :=
  match fuel with
  | O => None
  | S fuel' =>
    match net !! at_ with
    | None => Some (Stream [] (-1), net)
    | Some nd =>
      match dist_read_frame_header (Stream frame 0) with
      | (inl _, _) => Some (Stream [] 0, net)
      | (inr (type, bytes), s) =>
        if negb (type =? DS4_DIST_MSG_WORK) then Some (Stream [] 0, net)
        else
          let '(out, nd) := dist_worker_handle_work tm net at_ nd s bytes in
          let net := <[at_ := nd]> net in
          match out with
          | WReply reply => Some (Stream reply 0, net)
          | WBroken => Some (Stream [] (-1), net)
          | WWait => None
          | WForward next forwarded =>
            match deliver tm fuel' net (ro_host next, ro_port next) forwarded with
            | None => None
            | Some (back, net) =>
              match net !! at_ with
              | None => None
              | Some nd =>
                match List.find (is_forwarder (ro_host next) (ro_port next)) (nd_forwarders nd) with
                | None => None
                | Some f =>
                  let '(reply, f, _, go_on) := relay_round f (tm_wait tm at_) back in
                  let f := if go_on then f else dist_worker_forwarder_close_queue f in
                  Some (Stream reply 0, <[at_ := Node (nd_state nd) (update_forwarder (ro_host next) (ro_port next) f (nd_forwarders nd))]> net)
                end
              end
            end
          end
      end
    end
  end.

(** ** The coordinator *)

(** The engine of the coordinator and its session. *)
Context (e : slice_engine).

Definition plan_head (plan : ds4_dist_route_plan) : option ds4_dist_route_entry := head (pl_entry plan).

(** The frame, or the message of the failure. *)
Definition dist_coordinator_send_remote_work (co : ds4_dist_coordinator_state) (plan : ds4_dist_route_plan) (tokens : list Z)
  (pos0 session_id request_id prefix_hash result_hash : Z) (reset_session ack_only : bool) (hidden_hc : list Z) (hidden_hc_bytes : Z) : bytes + bytes :=
  match plan_head plan with
  | None => inl (bs "distributed route has no remote worker")
  | Some first =>
    let flag (b : bool) (f : Z) := if b then f else 0 in
    let flags := Z.lor (Z.lor (Z.lor DS4_DIST_WORK_F_INPUT_HC (flag reset_session DS4_DIST_WORK_F_RESET_SESSION)) (flag ack_only DS4_DIST_WORK_F_ACK_ONLY))
                   (flag (has_flag (ro_flags first) DS4_DIST_ROUTE_F_OUTPUT_LOGITS) DS4_DIST_WORK_F_OUTPUT_LOGITS) in
    match dist_activation_wire_bytes_from_f32_bytes (co_activation_bits co) hidden_hc_bytes with
    | None => inl (bs "invalid distributed hidden-state size")
    | Some wire_hidden_hc_bytes =>
      let '(session_hi, session_lo) := dist_u64_to_halves session_id in
      let '(request_hi, request_lo) := dist_u64_to_halves request_id in
      let '(prefix_hi, prefix_lo) := dist_u64_to_halves prefix_hash in
      let '(result_hi, result_lo) := dist_u64_to_halves result_hash in
      let work := Work (co_model_id co) session_hi session_lo request_hi request_lo prefix_hi prefix_lo result_hi result_lo pos0 (zlen tokens)
                    (ro_layer_start first) (ro_layer_end first) flags (u32 (zlen tokens * 4)) wire_hidden_hc_bytes (co_activation_bits co)
                    (zlen (pl_entry plan)) 0 (zlen (pl_blob plan)) in
      match dist_send_work_frame work tokens hidden_hc (pl_blob plan) with
      | None => inl (bs "failed to send distributed work")
      | Some frame => inr frame
      end
    end
  end.

(** A frame goes out and the answer comes back. *)
Definition exchange : Type := network -> bytes -> option (stream * network).

(** The logits, or the code and message of the failure.  [None]: no answer. *)
Definition dist_coordinator_eval_remote (ex : exchange) (co : ds4_dist_coordinator_state) (plan : ds4_dist_route_plan) (net : network) (tokens : list Z)
  (pos0 session_id request_id prefix_hash expected_result_hash : Z) (reset_session : bool) (hidden_hc : list Z) (hidden_hc_bytes : Z) :
  option ((Z * bytes + list Z) * network) :=
  match dist_coordinator_send_remote_work co plan tokens pos0 session_id request_id prefix_hash expected_result_hash reset_session false hidden_hc hidden_hc_bytes with
  | inl err => Some (inl (1, err), net)
  | inr frame =>
    '(s, net) ← ex net frame;
    Some
      (match fst (dist_recv_result_alloc s request_id) with
       | inl (code, err) => inl (code, err)
       | inr (kind, result_hash, payload) =>
         let logits_bytes := u32 (n_vocab * 4) in
         if negb (result_hash =? expected_result_hash) then inl (1, bs "distributed result prefix hash mismatch")
         else if (kind =? DS4_DIST_RESULT_LOGITS) && (zlen payload =? logits_bytes) then inr (le_words (Z.to_nat n_vocab) payload)
         else if (kind =? DS4_DIST_RESULT_HIDDEN_STATE) && (zlen payload =? hidden_hc_bytes) then
           match session_eval_output_head_from_hc e (le_words (Z.to_nat (zlen payload / 4)) payload) (zlen tokens) with
           | inl err => inl (1, err)
           | inr logits => inr logits
           end
         else if kind =? DS4_DIST_RESULT_HIDDEN_STATE then inl (1, bs "distributed route returned invalid hidden-state size")
         else inl (1, bs "distributed route did not return logits or hidden-state")
       end, net)
  end.

Definition dist_session_token_hash_prefix (s : slice_session LC) (n_tokens : Z) : bytes + Z :=
  if zlen (sl_checkpoint s) <? n_tokens then inl (bs "distributed session has no " ++ dec_print n_tokens ++ bs "-token prefix")
  else inr (dist_token_hash_prefix (take (Z.to_nat n_tokens) (sl_checkpoint s))).

Definition dist_coordinator_eval_span (ex : exchange) (co : ds4_dist_coordinator_state) (plan : ds4_dist_route_plan) (session : slice_session LC)
  (net : network) (tokens : list Z) (pos0 session_id request_id : Z) (reset_session : bool) : option ((Z * bytes + list Z) * slice_session LC * network) :=
  let n_tokens := zlen tokens in
  let hidden_bytes := u64 (u64 (n_tokens * hc_values) * 4) in
  let fail (err : bytes) (s : slice_session LC) := Some (inl (1, err), s, net) in
  if U32_MAX <? hidden_bytes then fail (bs "distributed coordinator hidden-state chunk is too large") session
  else
    match (if reset_session then if negb (pos0 =? 0) then inl (bs "distributed reset span must start at position 0") else inr DS4_DIST_TOKEN_HASH_INIT
           else dist_session_token_hash_prefix session pos0) with
    | inl err => fail err session
    | inr prefix_hash =>
      let result_hash := dist_token_hash_update_span prefix_hash tokens in
      let '(failed, session) := if reset_session then session_layer_slice_reset e session else (None, session) in
      match failed with
      | Some err => fail err session
      | None =>
        let local_logits := match pl_entry plan with [] => true | _ => false end in
        if negb local_logits && match plan_head plan with Some first => ro_fd first <? 0 | None => false end then
          fail (bs "distributed route has no live first-hop connection") session
        else
          let '(out, session) := session_eval_layer_slice e session tokens pos0 (co_local_start co) (co_local_end co) None (negb local_logits) local_logits in
          match out with
          | inl err => fail err session
          | inr (hidden, logits) =>
            if local_logits then Some (inr (default [] logits), session, net)
            else
              '(r, net) ← dist_coordinator_eval_remote ex co plan net tokens pos0 session_id request_id prefix_hash result_hash reset_session
                            (default [] hidden) hidden_bytes;
              Some (r, session, net)
          end
      end
    end.
End Network.
#[global] Arguments node : clear implicits.
#[global] Arguments network : clear implicits.
