(* ===== verification/DistSpan.v ===== *)
(** * Distributed inference: a span over a route is the model on one machine

    The proofs about DistWork.v: a work frame is read as it was sent, a worker
    that is in step with the coordinator runs its layers and forwards the rest,
    results come back through the relays, and the span the coordinator evaluates
    over a planned route is the model run layer after layer, with the hidden
    states rounded to the width of the transport at every hop. *)

From stdpp Require Import gmap.
From S2P Require Import Prelude Half DistWire DistRoute LayerSlice DistWork.
#[local] Open Scope Z_scope.
#[local] Open Scope stdpp_scope.

(** ** Reading a frame *)

Lemma mem_read_app a rest n : zlen a = n -> dist_mem_read (a ++ rest) n = Some (a, rest).
Proof.
  intros <-. unfold dist_mem_read. rewrite (proj2 (Z.ltb_ge _ _)) by (rewrite zlen_app; pose proof (zlen_nonneg rest); lia).
  unfold zlen. rewrite Nat2Z.id. by rewrite take_app_length, drop_app_length.
Qed.

Lemma zlen_map {A B} (f : A -> B) l : zlen (map f l) = zlen l.
Proof. unfold zlen. by rewrite length_map. Qed.

Lemma f8_value_u32 h : is_u32 (dist_f8_e4m3_to_f32 h).
Proof.
  assert (Hall : forallb (fun c => (0 <=? dist_f8_e4m3_to_f32 c) && (dist_f8_e4m3_to_f32 c <=? U32_MAX)) (map Z.of_nat (seq 0 256)) = true) by (vm_compute; reflexivity).
  assert (Hmod : dist_f8_e4m3_to_f32 h = dist_f8_e4m3_to_f32 (Z.land h 255)).
  { unfold dist_f8_e4m3_to_f32. rewrite Z.shiftr_land. rewrite <- !Z.land_assoc. reflexivity. }
  rewrite Hmod. pose proof (Z.land_nonneg h 255). assert (Hr : 0 <= Z.land h 255 < 256).
  { change 255 with (Z.ones 8). rewrite Z.land_ones by lia. apply Z.mod_pos_bound. lia. }
  rewrite forallb_forall in Hall. specialize (Hall (Z.land h 255)). assert (Hin : In (Z.land h 255) (map Z.of_nat (seq 0 256))).
  { apply in_map_iff. exists (Z.to_nat (Z.land h 255)). split; [lia|]. apply in_seq. lia. }
  specialize (Hall Hin). bool_prop. unfold is_u32. lia.
Qed.

Lemma transported_u32 bits v : is_u32 v -> is_u32 (transported bits v).
Proof. intros Hv. unfold transported. cbv zeta. repeat case_if; [done|by apply f16_round_u32|apply f8_value_u32]. Qed.

Lemma last_cons_default {A} (l : list A) x d : List.last (x :: l) d = List.last l x.
Proof. revert x d. induction l as [|y l IH]; intros x d; [done|]. change (List.last (x :: y :: l) d) with (List.last (y :: l) d). by rewrite !IH. Qed.

Section Frames.
Context {LC : Type} `{laws : SliceKernelLaws LC}.

Lemma transported_hidden bits n h : hidden_ok n h -> hidden_ok n (map (transported bits) h).
Proof. intros [Hl Hu]. split; [by rewrite zlen_map|]. apply Forall_map. eapply Forall_impl; [exact Hu|]. intros v. apply transported_u32. Qed.

Lemma read_tokens_image tokens rest : Forall (fun t => 0 <= t < n_vocab) tokens ->
  read_work_tokens (length tokens) (image (map (fun t => htonl (u32 t)) tokens) ++ rest) = Some (inr (tokens, rest)).
Proof.
  pose proof n_vocab_range as Hv. unfold INT32_MAX in Hv. induction 1 as [|t tokens Ht _ IH]; [done|]. cbn [length map read_work_tokens]. rewrite image_cons, <- (assoc_L (++)).
  rewrite mem_read_app by (unfold zlen; by rewrite le_bytes_length). cbn [mbind option_bind].
  rewrite le_val_bytes4 by apply htonl_u32. rewrite (u32_small t) by (unfold is_u32, U32_MAX; lia). rewrite ntohl_htonl by (unfold is_u32, U32_MAX; lia).
  rewrite !(proj2 (Z.ltb_ge _ t)), (proj2 (Z.leb_gt _ _)) by (unfold INT32_MAX; lia). cbn [orb]. by rewrite IH.
Qed.
End Frames.

Lemma hash_u64 tokens : is_u64 (dist_token_hash_prefix tokens).
Proof.
  unfold dist_token_hash_prefix, dist_token_hash_update_span. assert (Hi : is_u64 DS4_DIST_TOKEN_HASH_INIT) by done.
  revert Hi. generalize DS4_DIST_TOKEN_HASH_INIT. induction tokens as [|t tokens IH]; intros h Hh; [done|]. cbn [foldl]. apply IH.
  unfold dist_token_hash_update. cbn [foldl]. apply u64_range.
Qed.

Lemma hash_span_prefix prefix tokens : dist_token_hash_update_span (dist_token_hash_prefix prefix) tokens = dist_token_hash_prefix (prefix ++ tokens).
Proof. unfold dist_token_hash_prefix, dist_token_hash_update_span. by rewrite foldl_app. Qed.

(** ** Relays *)

Lemma relay_copy_app fuel a rest z : (length a < fuel)%nat -> relay_copy fuel (Stream (a ++ rest) z) (zlen a) = (a, Stream rest z, true).
Proof.
  revert a. induction fuel as [|fuel IH]; intros a Hf; [lia|]. cbn [relay_copy]. destruct (Z.leb_spec (zlen a) 0) as [H0|H0].
  - destruct a; [done|]. unfold zlen in H0. cbn [length] in H0. lia.
  - set (k := if zlen a <? 1048576 then zlen a else 1048576). assert (Hk : 0 < k <= zlen a) by (unfold k; destruct (Z.ltb_spec (zlen a) 1048576); lia).
    rewrite <- (take_drop (Z.to_nat k) a) at 1. rewrite <- (assoc_L (++)).
    assert (Hlt : zlen (take (Z.to_nat k) a) = k) by (unfold zlen in *; rewrite length_take; lia).
    rewrite read_full_exact by done. cbn [Z.leb Z.compare].
    replace (zlen a - k) with (zlen (drop (Z.to_nat k) a)) by (unfold zlen in *; rewrite length_drop; lia).
    rewrite IH by (rewrite length_drop; unfold zlen in *; lia). by rewrite take_drop.
Qed.

Lemma relay_bytes_app a rest z : relay_bytes (Stream (a ++ rest) z) (zlen a) = (a, Stream rest z, true).
Proof. apply relay_copy_app. unfold zlen. lia. Qed.

(** A result for the oldest request passes with this hop's telemetry added. *)
Lemma relay_result f wait_usec request hash status kind bits telemetry body t rest p z rest_pending :
  is_u64 request -> is_u32 status -> is_u32 kind -> is_u32 bits ->
  wire_size ds4_dist_result_fixed + (zlen telemetry + 1) * wire_size ds4_dist_telemetry_fixed + zlen body <= U32_MAX ->
  fw_pending f = p :: rest_pending -> p = Pending request t ->
  relay_round f wait_usec (Stream (result_frame (result_record request hash status kind bits telemetry body) telemetry body ++ rest) z) =
  (result_frame (result_record request hash status kind bits (telemetry ++ [note_waited wait_usec t]) body) (telemetry ++ [note_waited wait_usec t]) body,
   set_pending rest_pending f, Stream rest z, true).
Proof.
  intros Hr Hs Hk Hb Hl Hp ->. pose proof (zlen_nonneg telemetry) as Ht0. pose proof (zlen_nonneg body) as Hb0.
  assert (Hsz : wire_size ds4_dist_result_fixed = 40) by reflexivity. assert (Htz : wire_size ds4_dist_telemetry_fixed = 40) by reflexivity. rewrite Hsz, Htz in Hl.
  assert (Hsnoc : zlen (telemetry ++ [note_waited wait_usec t]) = zlen telemetry + 1) by (rewrite zlen_app; done).
  unfold relay_round, result_frame at 1. rewrite <- !(assoc_L (++)).
  rewrite frame_header_roundtrip; [|done|unfold is_u32; rewrite Hsz, Htz; lia].
  change (negb (DS4_DIST_MSG_RESULT =? DS4_DIST_MSG_RESULT)) with false. cbn [orb]. rewrite Hsz, Htz. rewrite (proj2 (Z.ltb_ge _ 40)) by lia.
  rewrite read_full_exact by (rewrite <- Hsz; apply wire_size_image). cbn [Z.leb Z.compare].
  rewrite wire_roundtrip by (apply result_record_ok; rewrite ?Hsz, ?Htz; done || lia).
  replace (40 + zlen telemetry * 40 + zlen body - 40) with (zlen telemetry * wire_size ds4_dist_telemetry_fixed + zlen body) by (rewrite Htz; lia).
  rewrite result_record_sizes by (rewrite Hsz, Htz; lia). cbn [negb]. unfold dist_worker_forwarder_pop_request. rewrite Hp. cbn [pe_request_id pe_telemetry].
  cbn [result_record re_request_hi re_request_lo re_telemetry_bytes re_telemetry_count re_payload_bytes re_result_hash_hi re_result_hash_lo re_status re_result_kind re_payload_bits].
  rewrite !halves_roundtrip by done. rewrite Z.eqb_refl, Htz. cbn [negb]. rewrite (u32_small (zlen telemetry + 1)) by (unfold is_u32, U32_MAX in *; lia).
  rewrite !(proj2 (Z.ltb_ge U32_MAX _)), (proj2 (Z.eqb_neq _ 0)) by lia. cbn [orb].
  replace (zlen telemetry * 40 + 40 - 40) with (zlen (telemetry ≫= wire_image)) by (rewrite telemetry_image_length, Htz; lia).
  rewrite relay_bytes_app. cbn [negb]. rewrite relay_bytes_app. unfold result_frame, result_record. rewrite Hsnoc, Hsz, Htz.
  rewrite u32_small by (unfold is_u32; lia). replace ((zlen telemetry + 1) * 40) with (zlen telemetry * 40 + 40) by lia.
  rewrite bind_app. cbn [mbind list_bind app]. rewrite app_nil_r, <- !(assoc_L (++)). reflexivity.
Qed.

(** ** Sessions in step *)

Section Sessions.
Context {LC : Type} `{laws : SliceKernelLaws LC}.

(** Room for [ctx] tokens, [cap] at once. *)
Record session_room (ctx cap : Z) (s : slice_session LC) : Prop := {
  sm_ctx : ctx <= sl_ctx_size s;
  sm_cap : cap <= sl_prefill_cap s;
  sm_raw : sl_raw_cap s <> 0 }.

(** A slice session that has computed [toks] on the layers [a] to [b]. *)
Record slice_holds (toks : list Z) (layers : Z -> LC) (a b : Z) (s : slice_session LC) : Prop := {
  sh_checkpoint : sl_checkpoint s = toks;
  sh_valid : sl_checkpoint_valid s = true;
  sh_layers : layers_agree (layer_range a b) layers (sl_layers s) }.

Lemma room_commit ctx cap s l toks : session_room ctx cap s -> session_room ctx cap (slice_commit_timeline (set_layers l s) toks).
Proof. by intros []. Qed.

Lemma reset_layers_empty ils (l l' : Z -> LC) : reset_layers ils l = (true, l') -> NoDup ils ->
  Forall (fun il => l' il = empty_layer) ils /\ (forall j, j ∉ ils -> l' j = l j).
Proof.
  intros E Hnd. revert l E. induction Hnd as [|il ils Hni Hnd IH]; intros l; cbn [reset_layers]; [intros [= <-]; split; [constructor|done]|].
  destruct (reset_layer il (l il)) as [c|] eqn:Er; [|discriminate]. intros E. apply IH in E as [Hall Hout]. apply reset_layer_empty in Er as ->. split.
  - constructor; [|done]. rewrite Hout by done. by rewrite set_layer_eq.
  - intros j Hj. rewrite not_elem_of_cons in Hj. rewrite Hout by apply Hj. by apply set_layer_ne, Hj.
Qed.

(** A session that can be reset, and what it is then. *)
Definition resets (e : slice_engine) (s : slice_session LC) : Prop := exists l, reset_layers (layer_range 0 (sg_n_layer e - 1)) (sl_layers s) = (true, l).

Lemma reset_session e s ctx cap : sg_is_cpu e = false -> resets e s -> session_room ctx cap s ->
  exists s', session_layer_slice_reset e s = (None, s') /\ session_room ctx cap s' /\ sl_checkpoint s' = [] /\ sl_checkpoint_valid s' = false /\
    forall a b, 0 <= a -> b < sg_n_layer e -> layers_agree (layer_range a b) (fun _ => empty_layer) (sl_layers s').
Proof.
  intros Hg [l Hl] [H1 H2 H3]. unfold session_layer_slice_reset. rewrite Hg. cbn [slice_invalidate set_checkpoint sl_layers]. rewrite Hl. cbn [negb].
  eexists. split; [reflexivity|]. split; [by constructor|]. split; [done|]. split; [done|]. intros a b Ha Hb.
  apply reset_layers_empty in Hl as [Hall _]; [|apply layer_range_NoDup]. rewrite Forall_forall in Hall. apply Forall_forall. intros j Hj. cbn. symmetry. apply Hall.
  apply list_elem_of_In, in_layer_range. apply list_elem_of_In, in_layer_range in Hj. lia.
Qed.

(** Before a span: after a reset nothing is held, else the prefix is. *)
Definition slice_prepared (reset : bool) (toks : list Z) (layers : Z -> LC) (a b : Z) (s : slice_session LC) : Prop :=
  if reset then toks = [] /\ sl_checkpoint s = [] /\ sl_checkpoint_valid s = false /\ layers_agree (layer_range a b) layers (sl_layers s)
  else slice_holds toks layers a b s.

(** A span on a prepared session: hidden states, logits, or both. *)
Lemma eval_prepared (e : slice_engine) (s : slice_session LC) (reset : bool) prefix tokens layers ctx cap a b input_hc want_hc lg h0 layers' h out :
  0 <= a -> slice_prepared reset prefix layers a b s -> session_room ctx cap s -> 0 < zlen tokens -> zlen prefix + zlen tokens <= INT32_MAX ->
  zlen prefix + zlen tokens <= ctx -> zlen tokens <= cap -> a <= b < sg_n_layer e -> sg_n_layer e <= U32_MAX -> sg_is_cpu e = false ->
  weights_layers_bound e a b = true -> (a = 0 /\ sg_token_embd e = true \/ is_input input_hc = true) ->
  (lg = true -> b + 1 = sg_n_layer e /\ sg_output_head e = true) -> whole e a b input_hc want_hc lg = false ->
  slice_input tokens (zlen prefix) input_hc = Some h0 -> slice_run tokens (zlen prefix) a b layers h0 = (layers', Some h) ->
  slice_outputs (fst (slice_run tokens (zlen prefix) a b (sl_layers s) h0)) (zlen tokens) h want_hc lg = Some out ->
  exists s', session_eval_layer_slice e s tokens (zlen prefix) a b input_hc want_hc lg = (inr out, s') /\ session_room ctx cap s' /\
    slice_holds (prefix ++ tokens) layers' a b s'.
Proof.
  intros Ha0 Hprep Hroom Hn Hint Hctx Hcap Hab Hnl Hg Hb Hin Hlg Hw Hi Hrun Hout. pose proof (zlen_nonneg prefix).
  assert (Hag : layers_agree (layer_range a b) layers (sl_layers s)) by (destruct reset; [apply Hprep | apply Hprep]).
  destruct (run_layers_agree (slice_step tokens (zlen prefix)) _ _ _ h0 (layer_range_NoDup a b) Hag) as [Hh Hl'].
  fold (slice_run tokens (zlen prefix) a b layers h0) in Hh, Hl'. fold (slice_run tokens (zlen prefix) a b (sl_layers s) h0) in Hh, Hl'.
  rewrite Hrun in Hh, Hl'. destruct (slice_run tokens (zlen prefix) a b (sl_layers s) h0) as [ls hs] eqn:Es. cbn [fst snd] in *. subst hs.
  assert (Hck : slice_check_timeline s tokens (zlen prefix) = None).
  { unfold slice_check_timeline. cbv zeta. destruct Hroom as [Hr1 Hr2 Hr3]. rewrite (proj2 (Z.eqb_neq _ 0)), !(proj2 (Z.ltb_ge _ _)) by lia. cbn [orb].
    destruct reset; cbn [slice_prepared] in Hprep.
    - destruct Hprep as (-> & _ & -> & _). done.
    - destruct Hprep as [Hc Hv _]. rewrite Hv, Hc, Z.eqb_refl. done. }
  exists (slice_commit_timeline (set_layers ls s) tokens). split.
  - apply (eval_slice_intro e s tokens (zlen prefix) a b input_hc want_hc lg ls h out Hw); [|unfold slice_pass; by rewrite Hi|exact Hout].
    constructor; try done.
    + lia.
    + destruct Hin as [[-> _] | ->]; [by left|by right].
    + intros Hl. destruct (Hlg Hl) as [Hbn Ho]. split; [|done]. rewrite u32_small; [done|]. unfold is_u32, U32_MAX in *. lia.
    + destruct Hin as [[_ ->] | ->]; [by right|by left].
    + by apply (Z.le_trans _ cap); [|apply Hroom].
    + intros _. apply Hroom.
  - split; [by apply room_commit|]. constructor; cbn; [|done|exact Hl'].
    destruct reset; cbn [slice_prepared] in Hprep; [destruct Hprep as (-> & -> & _); done | by rewrite (sh_checkpoint _ _ _ _ _ Hprep)].
Qed.
End Sessions.

(** ** A worker's sessions *)

Section WorkerSessions.
Context {LC : Type} `{laws : SliceKernelLaws LC}.

Lemma find_session_id id (sessions : list (ds4_dist_worker_session LC)) ws : List.find (is_session id) sessions = Some ws -> wn_session_id ws = id.
Proof. intros Hf. apply find_some in Hf as [_ Hf]. by apply Z.eqb_eq. Qed.

Lemma find_update (ws ws' : ds4_dist_worker_session LC) sessions : List.find (is_session (wn_session_id ws')) sessions = Some ws ->
  List.find (is_session (wn_session_id ws')) (update_session ws' sessions) = Some ws'.
Proof.
  induction sessions as [|x rest IH]; cbn [List.find update_session]; [done|]. destruct (is_session (wn_session_id ws') x) eqn:E; cbn [List.find].
  - intros _. unfold is_session at 1. by rewrite Z.eqb_refl.
  - rewrite E. apply IH.
Qed.

Lemma find_update_other id (ws' : ds4_dist_worker_session LC) sessions : id <> wn_session_id ws' ->
  List.find (is_session id) (update_session ws' sessions) = List.find (is_session id) sessions.
Proof.
  intros Hne. induction sessions as [|x rest IH]; cbn [List.find update_session]; [done|]. destruct (is_session (wn_session_id ws') x) eqn:E; cbn [List.find].
  - unfold is_session in E |- *. bool_prop. rewrite E. by rewrite (proj2 (Z.eqb_neq _ _)) by congruence.
  - by rewrite IH.
Qed.

Lemma get_session_spec (st st' : ds4_dist_worker_state LC) id ws : dist_worker_get_session_locked st id = (inr ws, st') ->
  wn_session_id ws = id /\ List.find (is_session id) (wo_sessions st') = Some ws /\ st' = set_sessions (wo_sessions st') st /\
  (forall id', id' <> id -> List.find (is_session id') (wo_sessions st') = List.find (is_session id') (wo_sessions st)).
Proof.
  unfold dist_worker_get_session_locked. destruct (List.find (is_session id) (wo_sessions st)) as [x|] eqn:E.
  - intros [= <- <-]. split_and!; [by apply (find_session_id id (wo_sessions st)) | done | by destruct st | done].
  - destruct (slice_session_create _ _) as [s|]; [|discriminate]. intros [= <- <-]. cbn [wn_session_id set_sessions wo_sessions List.find is_session].
    unfold is_session at 1. cbn [wn_session_id]. rewrite Z.eqb_refl. split_and!; try done. intros id' Hne. unfold is_session at 1. cbn [wn_session_id]. by rewrite (proj2 (Z.eqb_neq _ _)) by congruence.
Qed.

(** A worker whose session [id] holds [toks] on layers [a] to [b]. *)
Definition worker_holds (id : Z) (toks : list Z) (ctx cap : Z) (layers : Z -> LC) (a b : Z) (st : ds4_dist_worker_state LC) : Prop :=
  exists ws, dist_worker_find_session_locked st id = Some ws /\ (wn_token_hash_valid ws = true -> wn_token_hash ws = dist_token_hash_prefix toks) /\
    session_room ctx cap (wn_session ws) /\ slice_holds toks layers a b (wn_session ws).

(** A worker that can start the session [id] anew. *)
Definition worker_starts (id ctx cap : Z) (st : ds4_dist_worker_state LC) : Prop :=
  exists ws st', dist_worker_get_session_locked st id = (inr ws, st') /\ session_room ctx cap (wn_session ws) /\ resets (wo_engine st) (wn_session ws).

Definition worker_prepared (reset : bool) (id : Z) (toks : list Z) (ctx cap : Z) (layers : Z -> LC) (a b : Z) (st : ds4_dist_worker_state LC) : Prop :=
  if reset then toks = [] /\ layers_agree (layer_range a b) layers (fun _ => empty_layer) /\ worker_starts id ctx cap st else worker_holds id toks ctx cap layers a b st.

(** Only the worker's layers matter. *)
Lemma holds_agree id toks ctx cap (l1 l2 : Z -> LC) a b st : layers_agree (layer_range a b) l2 l1 -> worker_holds id toks ctx cap l1 a b st -> worker_holds id toks ctx cap l2 a b st.
Proof.
  intros Hag (ws & Hf & Hh & Hr & [Hc Hv Hl]). exists ws. split_and!; try done. constructor; try done. by eapply layers_agree_trans.
Qed.

Lemma prepared_agree reset id toks ctx cap (l1 l2 : Z -> LC) a b st : layers_agree (layer_range a b) l2 l1 ->
  worker_prepared reset id toks ctx cap l1 a b st -> worker_prepared reset id toks ctx cap l2 a b st.
Proof.
  intros Hag. destruct reset; cbn [worker_prepared]; [|by apply holds_agree]. intros (Ht & He & Hs). split_and!; try done. by eapply layers_agree_trans.
Qed.
End WorkerSessions.

(** ** A span on its way *)

(** What the work frames of a span have in common. *)
Record span_job := Job {
  jb_model : Z; jb_layers : Z; jb_session : Z; jb_request : Z; jb_prefix : list Z; jb_tokens : list Z; jb_reset : bool; jb_bits : Z;
  jb_entries : list ds4_dist_route_entry }.

Definition jb_pos0 (jb : span_job) : Z := zlen (jb_prefix jb).
Definition jb_hash (jb : span_job) : Z := dist_token_hash_prefix (jb_prefix jb ++ jb_tokens jb).
Definition asks_logits (e : ds4_dist_route_entry) : bool := has_flag (ro_flags e) DS4_DIST_ROUTE_F_OUTPUT_LOGITS.

Definition job_flags (reset output : bool) : Z :=
  Z.lor (Z.lor (Z.lor DS4_DIST_WORK_F_INPUT_HC (if reset then DS4_DIST_WORK_F_RESET_SESSION else 0)) 0) (if output then DS4_DIST_WORK_F_OUTPUT_LOGITS else 0).

Definition job_work (jb : span_job) (i : Z) (e : ds4_dist_route_entry) (hc_bytes : Z) : ds4_dist_work_fixed :=
  let hi x := fst (dist_u64_to_halves x) in
  let lo x := snd (dist_u64_to_halves x) in
  let prefix := dist_token_hash_prefix (jb_prefix jb) in
  Work (jb_model jb) (hi (jb_session jb)) (lo (jb_session jb)) (hi (jb_request jb)) (lo (jb_request jb)) (hi prefix) (lo prefix) (hi (jb_hash jb)) (lo (jb_hash jb))
    (jb_pos0 jb) (zlen (jb_tokens jb)) (ro_layer_start e) (ro_layer_end e) (job_flags (jb_reset jb) (asks_logits e)) (zlen (jb_tokens jb) * 4) hc_bytes (jb_bits jb)
    (zlen (jb_entries jb)) i (zlen (route_bytes (jb_entries jb))).

Definition job_frame (jb : span_job) (i : Z) (e : ds4_dist_route_entry) (h : list Z) : bytes :=
  let body := image (map (fun t => htonl (u32 t)) (jb_tokens jb)) ++ packed (jb_bits jb) h ++ route_bytes (jb_entries jb) in
  dist_write_frame_header DS4_DIST_MSG_WORK (wire_size ds4_dist_work_fixed + zlen body) ++ wire_image (job_work jb i e (zlen (packed (jb_bits jb) h))) ++ body.

(** A worker that is assigned an entry's layers. *)
Record worker_fits {LC : Type} (model n_layers ctx : Z) (e : ds4_dist_route_entry) (st : ds4_dist_worker_state LC) : Prop := {
  wf_model : wo_model_id st = model;
  wf_start : wo_layer_start st = ro_layer_start e;
  wf_end : wo_layer_end st = ro_layer_end e;
  wf_output : asks_logits e = true -> wo_has_output st = true /\ sg_output_head (wo_engine st) = true;
  wf_context : ctx <= wo_ctx_size st;
  wf_engine : sg_n_layer (wo_engine st) = n_layers /\ sg_is_cpu (wo_engine st) = false;
  wf_bound : weights_layers_bound (wo_engine st) (ro_layer_start e) (ro_layer_end e) = true }.

Section Jobs.
Context {LC : Type} `{laws : SliceKernelLaws LC} (jb : span_job).

Let n := zlen (jb_tokens jb).

Record job_ok : Prop := {
  jo_model : is_u32 (jb_model jb);
  jo_layers : 0 < jb_layers jb <= U32_MAX;
  jo_session : is_u64 (jb_session jb);
  jo_request : is_u64 (jb_request jb);
  jo_tokens : Forall (fun t => 0 <= t < n_vocab) (jb_tokens jb);
  jo_some : 0 < n;
  jo_context : jb_pos0 jb + n <= INT32_MAX;
  jo_bits : jb_bits jb = 32 \/ jb_bits jb = 16 \/ jb_bits jb = 8;
  jo_entries : Forall (entry_ok (jb_layers jb)) (jb_entries jb);
  jo_room : 92 + 4 * n + 4 * (n * hc_values) + 4 * n_vocab + zlen (route_bytes (jb_entries jb)) + 40 * zlen (jb_entries jb) <= U32_MAX }.

Context (Hjb : job_ok).

Lemma job_n : 0 < n. Proof. apply Hjb. Qed.

Lemma bits_default : dist_activation_bits_or_default (jb_bits jb) = jb_bits jb /\ dist_activation_bits_valid (jb_bits jb) = true.
Proof. by destruct (jo_bits Hjb) as [-> | [-> | ->]]. Qed.

Lemma packed_bound h : hidden_ok n h -> 0 <= zlen (packed (jb_bits jb) h) <= 4 * (n * hc_values) /\
  zlen (packed (jb_bits jb) h) = n * hc_values * (jb_bits jb / 8) /\ (zlen (packed (jb_bits jb) h) =? 0) = false.
Proof.
  intros [Hl _]. pose proof job_n. pose proof hc_values_positive. rewrite zlen_packed by apply Hjb. rewrite Hl.
  destruct (jo_bits Hjb) as [-> | [-> | ->]]; [change (32 / 8) with 4 | change (16 / 8) with 2 | change (8 / 8) with 1]; rewrite Z.eqb_neq; split_and!; nia.
Qed.

Lemma hidden_size h : hidden_ok n h -> zlen h * 4 <= U32_MAX /\ zlen h = n * hc_values.
Proof.
  intros [Hl _]. pose proof (jo_room Hjb) as Hr. pose proof n_vocab_range. pose proof (zlen_nonneg (route_bytes (jb_entries jb))). pose proof (zlen_nonneg (jb_entries jb)). pose proof job_n.
  fold n in Hr. split; [lia|done].
Qed.

Lemma job_frame_size h : hidden_ok n h ->
  wire_size ds4_dist_work_fixed + (n * 4 + zlen (packed (jb_bits jb) h) + zlen (route_bytes (jb_entries jb))) <= U32_MAX.
Proof.
  intros Hh. destruct (packed_bound h Hh) as [Hp _]. pose proof (jo_room Hjb) as Hr. fold n in Hr. pose proof n_vocab_range. pose proof (zlen_nonneg (jb_entries jb)).
  change (wire_size ds4_dist_work_fixed) with 80. lia.
Qed.

Lemma job_work_ok i e h : entry_ok (jb_layers jb) e -> is_u32 i -> hidden_ok n h -> record_ok (job_work jb i e (zlen (packed (jb_bits jb) h))).
Proof.
  intros He Hi Hh. pose proof (job_frame_size h Hh) as Hsz. destruct (packed_bound h Hh) as [Hp _]. change (wire_size ds4_dist_work_fixed) with 80 in Hsz.
  pose proof (jo_room Hjb) as Hr. fold n in Hr. pose proof (zlen_nonneg (jb_entries jb)). pose proof (zlen_nonneg (route_bytes (jb_entries jb))). pose proof job_n. pose proof (jo_context Hjb) as Hc. fold n in Hc.
  pose proof (zlen_nonneg (jb_prefix jb)). pose proof (jo_layers Hjb). pose proof (eo_layers _ _ He). pose proof n_vocab_range. pose proof hc_values_positive. unfold jb_pos0, INT32_MAX in *.
  unfold record_ok. cbn [words work_wire job_work wk_model_id wk_session_hi wk_session_lo wk_request_hi wk_request_lo wk_prefix_hash_hi wk_prefix_hash_lo wk_result_hash_hi wk_result_hash_lo wk_pos0 wk_n_tokens wk_layer_start wk_layer_end wk_flags wk_token_bytes wk_input_hc_bytes wk_input_hc_bits wk_route_count wk_route_index wk_route_bytes].
  fold n. repeat apply Forall_cons_2; try apply Forall_nil; try apply halves_u32; try apply Hjb; try done; unfold is_u32, U32_MAX, jb_pos0 in *; try nia.
  - by destruct (jb_reset jb), (asks_logits e).
  - destruct (jo_bits Hjb) as [-> | [-> | ->]]; lia.
Qed.

Lemma send_job_frame i e h : hidden_ok n h ->
  dist_send_work_frame (job_work jb i e (zlen (packed (jb_bits jb) h))) (jb_tokens jb) h (route_bytes (jb_entries jb)) = Some (job_frame jb i e h).
Proof.
  intros Hh. pose proof (job_frame_size h Hh) as Hsz. destruct (packed_bound h Hh) as (Hp & Hlen & Hne). destruct (hidden_size h Hh) as [Hh4 Hhl].
  destruct bits_default as [Hbd Hbv]. pose proof job_n as Hn. pose proof (zlen_nonneg (route_bytes (jb_entries jb))). change (wire_size ds4_dist_work_fixed) with 80 in Hsz.
  unfold dist_send_work_frame. cbn [job_work wk_n_tokens wk_token_bytes wk_input_hc_bytes wk_input_hc_bits wk_route_bytes]. fold n.
  rewrite (proj2 (Z.eqb_neq n 0)) by lia. rewrite (proj2 (Z.ltb_ge U32_MAX (n * 4))), u32_small, Z.eqb_refl by (unfold is_u32; lia). cbn [orb negb].
  rewrite Hne. cbn [negb].
  assert (Hvals : dist_activation_values_from_wire_bytes (jb_bits jb) (zlen (packed (jb_bits jb) h)) = Some (zlen h)).
  { unfold dist_activation_values_from_wire_bytes. rewrite Hbd, Hbv, Hlen, Hhl.
    destruct (jo_bits Hjb) as [-> | [-> | ->]]; [change (32 / 8) with 4 | change (16 / 8) with 2 | change (8 / 8) with 1]; cbn [negb orb Z.eqb]; rewrite Z.mod_mul, Z.div_mul by lia; done. }
  rewrite Hvals. cbv zeta. change (wire_size ds4_dist_work_fixed) with 80. rewrite (proj2 (Z.ltb_ge U32_MAX _)) by lia. rewrite write_activations by done. rewrite Hbd.
  rewrite u32_small by (unfold is_u32; lia). unfold job_frame. change (wire_size ds4_dist_work_fixed) with 80. cbn [wk_route_bytes]. f_equal.
  rewrite !zlen_app, zlen_image, zlen_map. fold n. rewrite !take_ge by (unfold n, zlen; lia).
  replace (80 + (4 * n + _)) with (80 + n * 4 + zlen (packed (jb_bits jb) h) + zlen (route_bytes (jb_entries jb))) by lia. done.
Qed.

(** ** What a worker reads *)

Lemma flags_of_job reset output :
  has_flag (job_flags reset output) DS4_DIST_WORK_F_OUTPUT_LOGITS = output /\ has_flag (job_flags reset output) DS4_DIST_WORK_F_INPUT_HC = true /\
  has_flag (job_flags reset output) DS4_DIST_WORK_F_ACK_ONLY = false /\ has_flag (job_flags reset output) DS4_DIST_WORK_F_RESET_SESSION = reset /\
  Z.land (job_flags reset output) (U32_MAX - DS4_DIST_WORK_F_VALID_MASK) = 0.
Proof. by destruct reset, output. Qed.

Lemma asks_logits_last_layer e : entry_ok (jb_layers jb) e -> asks_logits e = true -> u32 (ro_layer_end e + 1) = jb_layers jb.
Proof.
  intros [_ _ Hl Hf] Ha. pose proof (jo_layers Hjb). destruct Hf as [Hf | [_ Hf]]; [unfold asks_logits, has_flag in Ha; by rewrite Hf in Ha|].
  rewrite u32_small; [done|]. unfold is_u32, U32_MAX in *. lia.
Qed.

Lemma check_work_job ctx e (st : ds4_dist_worker_state LC) i hc remaining : jb_pos0 jb + n <= ctx -> worker_fits (jb_model jb) (jb_layers jb) ctx e st -> entry_ok (jb_layers jb) e -> 0 < ro_layer_start e -> 0 <= i < zlen (jb_entries jb) ->
  remaining = n * 4 + hc + zlen (route_bytes (jb_entries jb)) -> check_work st (job_work jb i e hc) remaining = None.
Proof.
  intros Hroom [Hm Hs He Ho Hc [Hn _] _] Heo Hpos Hi ->. destruct (flags_of_job (jb_reset jb) (asks_logits e)) as (Hf1 & Hf2 & _ & _ & Hf3). pose proof job_n as Hn0.
  unfold check_work. cbn [job_work wk_token_bytes wk_n_tokens wk_input_hc_bytes wk_route_bytes wk_route_count wk_route_index wk_model_id wk_layer_start wk_layer_end wk_flags wk_pos0]. fold n.
  rewrite Hf1, Hf2, Hf3, Hm, Hs, He, Hn, !Z.eqb_refl. cbn [negb orb andb].
  rewrite (proj2 (Z.eqb_neq (zlen (jb_entries jb)) 0)), (proj2 (Z.leb_gt _ i)), (proj2 (Z.eqb_neq n 0)), !(proj2 (Z.ltb_ge _ _)) by lia. cbn [orb].
  rewrite (proj2 (Z.eqb_neq (ro_layer_start e) 0)) by lia. destruct (asks_logits e) eqn:Ea; [|done]. destruct (Ho eq_refl) as [-> _]. cbn [negb andb].
  by rewrite asks_logits_last_layer, Z.eqb_refl.
Qed.

(** The entry as it is read from the wire. *)
Definition entry_read (e : ds4_dist_route_entry) : ds4_dist_route_entry := RouteEntry (ro_host e) (ro_port e) (ro_layer_start e) (ro_layer_end e) (ro_flags e) (-1).

Context (first : Z) (Hfirst : 0 < first) (Htiles : tiles first (jb_layers jb - 1) (jb_entries jb)).

Lemma entry_is_ok i e : jb_entries jb !! i = Some e -> entry_ok (jb_layers jb) e.
Proof. intros Hi. pose proof (jo_entries Hjb) as He. rewrite Forall_lookup in He. by apply (He i). Qed.

Lemma asks_logits_last i e : jb_entries jb !! i = Some e -> asks_logits e = true -> S i = length (jb_entries jb).
Proof.
  intros Hi Ha. pose proof (entry_is_ok i e Hi) as [_ _ _ Hf]. destruct Hf as [Hf | [Hf _]]; [unfold asks_logits, has_flag in Ha; by rewrite Hf in Ha|].
  exact (tiles_output (jb_layers jb) first (jb_entries jb) i e (jo_entries Hjb) Htiles Hi Hf).
Qed.

Lemma has_next_job i e : jb_entries jb !! i = Some e -> (u32 (Z.of_nat i + 1) <? zlen (jb_entries jb)) = (S i <? length (jb_entries jb))%nat.
Proof.
  intros Hi. apply lookup_lt_Some in Hi. pose proof (jo_room Hjb) as Hr. fold n in Hr. pose proof job_n. pose proof n_vocab_range. pose proof hc_values_positive. pose proof (zlen_nonneg (route_bytes (jb_entries jb))).
  unfold zlen in Hr at 2. rewrite u32_small by (unfold is_u32; nia). unfold zlen. destruct (Nat.ltb_spec (S i) (length (jb_entries jb))); [apply Z.ltb_lt|apply Z.ltb_ge]; lia.
Qed.

Lemma check_route_job ctx i e (st : ds4_dist_worker_state LC) hc : worker_fits (jb_model jb) (jb_layers jb) ctx e st -> jb_entries jb !! i = Some e ->
  check_route st (job_work jb (Z.of_nat i) e hc) (route_bytes (jb_entries jb)) = inr (entry_read <$> jb_entries jb !! S i).
Proof.
  intros [Hm Hs He Ho Hc [Hn _] _] Hi. destruct (flags_of_job (jb_reset jb) (asks_logits e)) as (Hf1 & _).
  destruct (route_read (jb_layers jb) (proj2 (jo_layers Hjb)) (jb_entries jb) first (jb_layers jb - 1) (jo_entries Hjb) Htiles) as (Hv & Hg & Hret).
  unfold check_route. cbn [job_work wk_route_count wk_route_index wk_flags wk_layer_start wk_layer_end]. rewrite Hf1, Hn.
  assert (Hcount : Z.to_nat (zlen (jb_entries jb)) = length (jb_entries jb)) by (unfold zlen; lia). rewrite Hcount, Nat2Z.id, Hv, (Hg i e Hi).
  cbn [ro_layer_start ro_layer_end ro_flags]. rewrite !Z.eqb_refl. cbn [negb orb]. fold (asks_logits e). rewrite Bool.eqb_reflx. cbn [negb].
  rewrite (has_next_job i e Hi). destruct (Nat.ltb_spec (S i) (length (jb_entries jb))) as [Hlt|Hge].
  - destruct (lookup_lt_is_Some_2 _ _ Hlt) as [e' He']. rewrite (Hg (S i) e' He'), He'. destruct (asks_logits e) eqn:Ea; [|done].
    pose proof (asks_logits_last i e Hi Ea). lia.
  - rewrite Hret, lookup_ge_None_2 by lia. done.
Qed.

Definition job_kind (i : nat) (e : ds4_dist_route_entry) : Z := if asks_logits e then DS4_DIST_RESULT_LOGITS else DS4_DIST_RESULT_HIDDEN_STATE.

Lemma read_work_job ctx i e (st : ds4_dist_worker_state LC) h : worker_fits (jb_model jb) (jb_layers jb) ctx e st -> jb_entries jb !! i = Some e -> hidden_ok n h ->
  read_work st (job_work jb (Z.of_nat i) e (zlen (packed (jb_bits jb) h)))
    (image (map (fun t => htonl (u32 t)) (jb_tokens jb)) ++ packed (jb_bits jb) h ++ route_bytes (jb_entries jb)) =
  Some (inr (Request (jb_tokens jb) (Some (map (transported (jb_bits jb)) h)) (jb_bits jb) (entry_read <$> jb_entries jb !! S i) (route_bytes (jb_entries jb))
    (job_kind i e) (asks_logits e) (negb (asks_logits e)))).
Proof.
  intros Hw Hi Hh. destruct (flags_of_job (jb_reset jb) (asks_logits e)) as (Hf1 & Hf2 & Hf3 & _). destruct (packed_bound h Hh) as (Hp & Hlen & Hne).
  destruct (hidden_size h Hh) as [Hh4 Hhl]. destruct bits_default as [Hbd Hbv]. pose proof job_n as Hn0. pose proof hc_values_positive as Hhc.
  pose proof (check_route_job ctx i e st (zlen (packed (jb_bits jb) h)) Hw Hi) as Hroute.
  unfold read_work. cbn [wk_n_tokens wk_flags wk_input_hc_bytes wk_input_hc_bits wk_route_bytes wk_prefix_hash_hi wk_prefix_hash_lo wk_result_hash_hi wk_result_hash_lo job_work] in *. fold n.
  rewrite Hf1, Hf2, Hf3. replace (Z.to_nat n) with (length (jb_tokens jb)) by (unfold n, zlen; lia). rewrite read_tokens_image by apply Hjb. cbn [mbind option_bind].
  rewrite !halves_roundtrip by apply hash_u64. rewrite hash_span_prefix. unfold jb_hash at 1. rewrite Z.eqb_refl. cbn [negb].
  assert (Hv : u64 (n * hc_values) = zlen h) by (rewrite u64_small by (unfold is_u64, U64_MAX, U32_MAX in *; lia); lia). rewrite Hv.
  rewrite (u64_small (zlen h * 4)) by (unfold is_u64, U64_MAX, U32_MAX in *; pose proof (zlen_nonneg h); lia).
  rewrite (proj2 (Z.ltb_ge U32_MAX _)) by lia. rewrite Hbd, Hbv, wire_bytes_exact by (done || apply zlen_nonneg). rewrite Hbd.
  replace (zlen h * (jb_bits jb / 8)) with (zlen (packed (jb_bits jb) h)) by by rewrite Hlen, Hhl. rewrite Z.eqb_refl. cbn [negb].
  rewrite mem_read_app by done. cbn [mbind option_bind].
  assert (Hrb : (zlen (route_bytes (jb_entries jb)) =? 0) = false).
  { pose proof (route_bytes_nonempty (jb_entries jb)) as Hr. apply Nat.eqb_neq in Hr. apply Z.eqb_neq. unfold zlen. lia. }
  rewrite Hrb. cbn [negb]. rewrite <- (app_nil_r (route_bytes (jb_entries jb))) at 1. rewrite mem_read_app by done. cbn [mbind option_bind]. rewrite Hroute.
  pose proof (decode_packed (jb_bits jb) h) as Hdec. rewrite Hbd in Hdec. rewrite Hdec by (done || apply Hh). rewrite zlen_map, Z.eqb_refl. cbn [negb andb].
  do 2 f_equal. unfold job_kind. destruct (asks_logits e) eqn:Ea; cbn [andb negb]; [|done]. rewrite lookup_ge_None_2 by (rewrite <- (asks_logits_last i e Hi Ea); lia). done.
Qed.

(** What a worker's layers give: the logits when they are asked for. *)
Definition entry_output (e : ds4_dist_route_entry) (h : list Z) : option (list Z) :=
  if asks_logits e then encode_output_head (slice_row h (n - 1)) else Some h.

(** A prepared worker runs its layers, and then holds the span as well. *)
Lemma run_work_job i e (st : ds4_dist_worker_state LC) h ctx cap layers layers' hout r hc next blob kind : worker_fits (jb_model jb) (jb_layers jb) ctx e st -> entry_ok (jb_layers jb) e -> 0 < ro_layer_start e -> hidden_ok n h ->
  jb_pos0 jb + n <= ctx -> n <= cap -> worker_prepared (jb_reset jb) (jb_session jb) (jb_prefix jb) ctx cap layers (ro_layer_start e) (ro_layer_end e) st ->
  slice_run (jb_tokens jb) (jb_pos0 jb) (ro_layer_start e) (ro_layer_end e) layers h = (layers', Some hout) -> entry_output e hout = Some r ->
  exists st', run_work st (job_work jb i e hc) (Request (jb_tokens jb) (Some h) (jb_bits jb) next blob kind (asks_logits e) (negb (asks_logits e))) = (inr (image r), st') /\
    st' = set_sessions (wo_sessions st') st /\ worker_holds (jb_session jb) (jb_prefix jb ++ jb_tokens jb) ctx cap layers' (ro_layer_start e) (ro_layer_end e) st'.
Proof.
  intros Hw Heo Hpos Hh Hctx Hcap Hprep Hrun Hout. pose proof Hw as [_ _ _ Ho _ [Hen Heg] Hb]. destruct (flags_of_job (jb_reset jb) (asks_logits e)) as (_ & _ & _ & Hfr & _).
  pose proof job_n as Hn0. pose proof (jo_layers Hjb) as Hl. pose proof (eo_layers _ _ Heo) as Hel.
  pose proof (slice_run_ok _ _ _ _ _ _ _ _ Hn0 Hh Hrun) as Hhout.
  assert (Heval : forall s, session_room ctx cap s -> slice_prepared (jb_reset jb) (jb_prefix jb) layers (ro_layer_start e) (ro_layer_end e) s ->
    exists o s', session_eval_layer_slice (wo_engine st) s (jb_tokens jb) (jb_pos0 jb) (ro_layer_start e) (ro_layer_end e) (Some h) (negb (asks_logits e)) (asks_logits e) = (inr o, s') /\
      default [] (if asks_logits e then snd o else fst o) = r /\ session_room ctx cap s' /\ slice_holds (jb_prefix jb ++ jb_tokens jb) layers' (ro_layer_start e) (ro_layer_end e) s').
  { intros s Hroom Hp. unfold entry_output in Hout.
    assert (Hso : exists o, slice_outputs (fst (slice_run (jb_tokens jb) (jb_pos0 jb) (ro_layer_start e) (ro_layer_end e) (sl_layers s) h)) n hout (negb (asks_logits e)) (asks_logits e) = Some o /\
      default [] (if asks_logits e then snd o else fst o) = r).
    { unfold slice_outputs. destruct (asks_logits e); cbn [negb andb].
      - rewrite Hout. cbn [mbind option_bind]. eexists. split; [reflexivity|]. cbn. apply output_head_ok in Hout as [Hlen _]; [|by apply slice_row_ok]. apply take_ge. unfold zlen in Hlen. lia.
      - injection Hout as <-. eexists. split; [reflexivity|]. cbn. by apply take_hidden. }
    destruct Hso as (o & Hso & Hr).
    edestruct (eval_prepared (wo_engine st) s (jb_reset jb) (jb_prefix jb) (jb_tokens jb) layers ctx cap (ro_layer_start e) (ro_layer_end e) (Some h) (negb (asks_logits e)) (asks_logits e) h layers' hout o)
      as (s' & Hev & Hroom' & Hholds'); try done; try lia.
    - exact (jo_context Hjb).
    - by right.
    - intros Ha. split; [|by apply Ho]. pose proof (asks_logits_last_layer e Heo Ha) as Hu. rewrite u32_small in Hu by (unfold is_u32, U32_MAX in *; lia). lia.
    - unfold slice_input. by rewrite take_hidden.
    - exists o, s'. done. }
  unfold run_work. cbn [job_work wk_prefix_hash_hi wk_prefix_hash_lo wk_result_hash_hi wk_result_hash_lo wk_session_hi wk_session_lo wk_flags wk_pos0 wk_layer_start wk_layer_end rq_tokens rq_input rq_hidden rq_logits].
  rewrite !halves_roundtrip by (apply hash_u64 || apply Hjb). rewrite Hfr.
  destruct (jb_reset jb) eqn:Er; cbn [worker_prepared slice_prepared] in *.
  - destruct Hprep as (Hpre & Hempty & ws & st1 & Hget & Hroom & Hres). rewrite Hget. destruct (get_session_spec _ _ _ _ Hget) as (Hid & Hfind & Hst1 & _).
    destruct (reset_session (wo_engine st) (wn_session ws) ctx cap Heg Hres Hroom) as (s' & Hreset & Hroom' & Hck & Hval & Hlay). rewrite Hreset.
    cbn [set_slice set_hash wn_token_hash wn_session wn_session_id]. replace (dist_token_hash_prefix (jb_prefix jb)) with DS4_DIST_TOKEN_HASH_INIT by by rewrite Hpre. rewrite Z.eqb_refl. cbn [negb].
    destruct (Heval s' Hroom') as (o & s2 & Hev & Hr & Hroom2 & Hholds2).
    { split_and!; try done. eapply layers_agree_trans; [exact Hempty|apply Hlay; lia]. }
    rewrite Hev. destruct o as [hc' lg']. cbn [fst snd] in Hr. rewrite Hr. eexists. split; [reflexivity|]. split; [rewrite Hst1; done|].
    exists (WorkerSession (wn_session_id ws) (jb_hash jb) true s2). split; [|done].
    unfold dist_worker_find_session_locked, store_session. cbn [wo_sessions set_sessions]. rewrite <- Hid. refine (find_update ws (WorkerSession (wn_session_id ws) (jb_hash jb) true s2) _ _). cbn [wn_session_id]. rewrite Hid. exact Hfind.
  - destruct Hprep as (ws & Hfind & Hhash & Hroom & Hholds). unfold dist_worker_find_session_locked in Hfind. unfold dist_worker_get_session_locked. rewrite Hfind.
    destruct (Heval (wn_session ws) Hroom Hholds) as (o & s2 & Hev & Hr & Hroom2 & Hholds2).
    set (ws1 := if negb (wn_token_hash_valid ws) then set_hash (dist_token_hash_prefix (sl_checkpoint (wn_session ws))) true ws else ws).
    assert (Hws1 : wn_token_hash ws1 = dist_token_hash_prefix (jb_prefix jb) /\ wn_session ws1 = wn_session ws /\ wn_session_id ws1 = wn_session_id ws).
    { unfold ws1. destruct (wn_token_hash_valid ws); cbn [negb]; [by rewrite Hhash|]. cbn. by rewrite (sh_checkpoint _ _ _ _ _ Hholds). }
    destruct Hws1 as (Hh1 & Hs1 & Hid1). rewrite Hh1, Hs1, Z.eqb_refl. cbn [negb]. rewrite Hev. destruct o as [hc' lg']. cbn [fst snd] in Hr. rewrite Hr.
    eexists. split; [reflexivity|]. split; [by destruct st|].
    exists (WorkerSession (wn_session_id ws) (jb_hash jb) true s2). split; [|done]. pose proof (find_session_id _ _ _ Hfind) as Hid.
    unfold dist_worker_find_session_locked, store_session, set_hash, set_slice. cbn [wo_sessions set_sessions wn_session_id wn_session]. rewrite Hid1. rewrite <- Hid. refine (find_update ws (WorkerSession (wn_session_id ws) (jb_hash jb) true s2) _ _). cbn [wn_session_id]. rewrite Hid. exact Hfind.
Qed.

(** ** What a worker sends *)

Definition idle (f : ds4_dist_worker_forwarder) : Prop := fw_closing f = false /\ fw_pending f = [] /\ 0 <= fw_pending_depth f.

Lemma find_update_forwarder host port f g fs : List.find (is_forwarder host port) fs = Some g -> is_forwarder host port f = true ->
  List.find (is_forwarder host port) (update_forwarder host port f fs) = Some f.
Proof.
  intros Hf Hi. induction fs as [|x fs IH]; cbn [List.find update_forwarder] in *; [done|]. destruct (is_forwarder host port x) eqn:E; cbn [List.find].
  - by rewrite Hi.
  - rewrite E. by apply IH.
Qed.

Lemma update_forwarder_idle host port f fs : Forall idle fs -> idle f -> Forall idle (update_forwarder host port f fs).
Proof. intros Hfs Hf. induction Hfs as [|x fs Hx Hfs IH]; cbn [update_forwarder]; [constructor|]. case_if; by constructor. Qed.

Lemma update_forwarder_twice host port f g fs : is_forwarder host port g = true -> update_forwarder host port f (update_forwarder host port g fs) = update_forwarder host port f fs.
Proof.
  intros Hg. induction fs as [|x fs IH]; cbn [update_forwarder]; [done|]. destruct (is_forwarder host port x) eqn:E; cbn [update_forwarder]; [by rewrite Hg|]. by rewrite E, IH.
Qed.

Lemma get_forwarder_idle connect window fs host port : Forall idle fs -> 0 <= window -> connect host port = None ->
  exists f fs', dist_worker_get_forwarder connect window fs host port = (inr f, fs') /\ idle f /\ Forall idle fs' /\ is_forwarder host port f = true /\
    List.find (is_forwarder host port) fs' = Some f.
Proof.
  intros Hfs Hw Hc. unfold dist_worker_get_forwarder. destruct (List.find (is_forwarder host port) fs) as [f|] eqn:E.
  - exists f, fs. pose proof (find_some _ _ E) as [Hin Hf]. rewrite Forall_forall in Hfs. split_and!; try done; [apply Hfs; by apply list_elem_of_In|by apply Forall_forall].
  - rewrite Hc. eexists _, _. split; [reflexivity|]. assert (Hi : is_forwarder host port (Forwarder host port [] window false) = true).
    { unfold is_forwarder. cbn [fw_port fw_host]. rewrite Z.eqb_refl. cbn [andb]. by apply bytes_eqb_eq. }
    split_and!; [done|by constructor|done|]. cbn [List.find]. by rewrite Hi.
Qed.

Lemma image_size r : zlen (image r) = 4 * zlen r. Proof. apply zlen_image. Qed.

Lemma wire_bytes_of_hidden h : hidden_ok n h -> dist_activation_wire_bytes_from_f32_bytes (jb_bits jb) (zlen h * 4) = Some (zlen (packed (jb_bits jb) h)).
Proof.
  intros Hh. destruct (packed_bound h Hh) as (_ & Hlen & _). destruct (hidden_size h Hh) as [Hh4 Hhl]. destruct bits_default as [Hbd Hbv].
  unfold dist_activation_wire_bytes_from_f32_bytes. rewrite Z.mod_mul, Z.div_mul by lia. cbn [Z.eqb negb].
  rewrite wire_bytes_exact by (done || apply zlen_nonneg). by rewrite Hbd, Hlen, Hhl.
Qed.

Lemma forwarded_job i e next hc hc' : jb_entries jb !! i = Some e -> jb_entries jb !! S i = Some next ->
  forwarded_work (entry_read next) (job_work jb (Z.of_nat i) e hc) (jb_bits jb) hc' = job_work jb (Z.of_nat (S i)) next hc'.
Proof.
  intros Hi Hs. pose proof (has_next_job i e Hi) as Hn. apply lookup_lt_Some in Hs as Hlt. rewrite (proj2 (Nat.ltb_lt _ _) Hlt) in Hn. apply Z.ltb_lt in Hn. unfold zlen in Hn.
  assert (Hu : u32 (Z.of_nat i + 1) = Z.of_nat (S i)).
  { pose proof (jo_room Hjb) as Hr. fold n in Hr. pose proof job_n. pose proof n_vocab_range. pose proof hc_values_positive. pose proof (zlen_nonneg (route_bytes (jb_entries jb))).
    unfold zlen in Hr at 2. rewrite u32_small by (unfold is_u32; nia). lia. }
  unfold forwarded_work, job_work.
  cbn [wk_flags wk_model_id wk_session_hi wk_session_lo wk_request_hi wk_request_lo wk_prefix_hash_hi wk_prefix_hash_lo wk_result_hash_hi wk_result_hash_lo wk_pos0 wk_n_tokens wk_token_bytes
       wk_route_count wk_route_index wk_route_bytes ro_layer_start ro_layer_end ro_flags entry_read]. rewrite Hu. fold (asks_logits next).
  replace (if asks_logits next then _ else _) with (job_flags (jb_reset jb) (asks_logits next)) by (destruct (asks_logits next), (asks_logits e), (jb_reset jb); reflexivity). done.
Qed.

(** The last worker's result frame. *)
Definition job_result (e : ds4_dist_route_entry) (telemetry : list ds4_dist_telemetry_fixed) (r : list Z) : bytes :=
  let kind := if asks_logits e then DS4_DIST_RESULT_LOGITS else DS4_DIST_RESULT_HIDDEN_STATE in
  let body := result_body kind (jb_bits jb) (image r) in
  result_frame (result_record (jb_request jb) (jb_hash jb) 0 kind (result_bits kind (jb_bits jb)) telemetry body) telemetry body.

Lemma job_body_size e h r : hidden_ok n h -> entry_output e h = Some r ->
  Forall is_u32 r /\ 40 + 40 * zlen (jb_entries jb) + zlen (image r) <= U32_MAX /\ zlen r = (if asks_logits e then n_vocab else n * hc_values).
Proof.
  intros Hh Hr. pose proof (jo_room Hjb) as Hroom. fold n in Hroom. pose proof job_n. pose proof (zlen_nonneg (route_bytes (jb_entries jb))). pose proof hc_values_positive. pose proof n_vocab_range.
  rewrite image_size. unfold entry_output in Hr. destruct (asks_logits e).
  - apply output_head_ok in Hr as [Hl Hu]; [|by apply slice_row_ok]. split_and!; [done|nia|done].
  - injection Hr as <-. destruct Hh as [Hl Hu]. split_and!; [done|nia|done].
Qed.

Lemma send_job_result i e h r t : jb_entries jb !! i = Some e -> hidden_ok n h -> entry_output e h = Some r ->
  dist_send_work_result (jb_request jb) (jb_hash jb) 0 (job_kind i e) (if job_kind i e =? DS4_DIST_RESULT_HIDDEN_STATE then jb_bits jb else 32) [t] (image r) =
  Some (job_result e [t] r).
Proof.
  intros Hi Hh Hr. destruct (job_body_size e h r Hh Hr) as (Hu & Hsz & Hl). destruct bits_default as [Hbd Hbv]. apply lookup_lt_Some in Hi.
  assert (Hcount : 1 <= zlen (jb_entries jb)) by (unfold zlen; lia).
  assert (Hres : forall kind bits, dist_activation_bits_valid bits = true ->
    dist_send_work_result (jb_request jb) (jb_hash jb) 0 kind bits [t] (image r) =
    Some (result_frame (result_record (jb_request jb) (jb_hash jb) 0 kind (result_bits kind bits) [t] (result_body kind bits (image r))) [t] (result_body kind bits (image r)))).
  { intros kind bits Hv. apply send_result_frame; [done|rewrite image_size, Z.mul_comm; by apply Z.mod_mul|]. change (wire_size ds4_dist_result_fixed) with 40. change (zlen [t] * _) with 40. lia. }
  unfold job_kind, job_result. destruct (asks_logits e); cbn [Z.eqb Pos.eqb DS4_DIST_RESULT_LOGITS DS4_DIST_RESULT_HIDDEN_STATE]; rewrite Hres by done; reflexivity.
Qed.

(** The frame without its header. *)
Definition job_payload (i : Z) (e : ds4_dist_route_entry) (h : list Z) : bytes :=
  wire_image (job_work jb i e (zlen (packed (jb_bits jb) h))) ++ image (map (fun t => htonl (u32 t)) (jb_tokens jb)) ++ packed (jb_bits jb) h ++ route_bytes (jb_entries jb).

(** A prepared worker runs its layers, and sends the hidden states on or the
    result back. *)
Lemma process_job connect window eval_usec send_usec (st : ds4_dist_worker_state LC) fs i e h ctx cap layers layers' hout r : jb_entries jb !! i = Some e -> worker_fits (jb_model jb) (jb_layers jb) ctx e st -> 0 < ro_layer_start e ->
  hidden_ok n h -> jb_pos0 jb + n <= ctx -> n <= cap ->
  worker_prepared (jb_reset jb) (jb_session jb) (jb_prefix jb) ctx cap layers (ro_layer_start e) (ro_layer_end e) st ->
  slice_run (jb_tokens jb) (jb_pos0 jb) (ro_layer_start e) (ro_layer_end e) layers (map (transported (jb_bits jb)) h) = (layers', Some hout) ->
  entry_output e hout = Some r -> Forall idle fs -> 0 <= window ->
  (forall next, jb_entries jb !! S i = Some next -> connect (ro_host next) (ro_port next) = None) ->
  exists st' t, st' = set_sessions (wo_sessions st') st /\
    worker_holds (jb_session jb) (jb_prefix jb ++ jb_tokens jb) ctx cap layers' (ro_layer_start e) (ro_layer_end e) st' /\
    match jb_entries jb !! S i with
    | None => dist_worker_process_work_payload connect window eval_usec send_usec st fs (job_payload (Z.of_nat i) e h) = (WReply (job_result e [t] r), st', fs)
    | Some next => exists f fs', idle f /\ Forall idle fs' /\ is_forwarder (ro_host next) (ro_port next) f = true /\
        List.find (is_forwarder (ro_host next) (ro_port next)) fs' = Some f /\
        dist_worker_process_work_payload connect window eval_usec send_usec st fs (job_payload (Z.of_nat i) e h) =
        (WForward (entry_read next) (job_frame jb (Z.of_nat (S i)) next hout), st',
         update_forwarder (ro_host next) (ro_port next) (set_pending [Pending (jb_request jb) t] f) fs')
    end.
Proof.
  intros Hi Hw Hpos Hh Hctx Hcap Hprep Hrun Hout Hfs Hwin Hconn. pose proof (entry_is_ok i e Hi) as Heo. pose proof job_n as Hn0.
  pose proof (job_frame_size h Hh) as Hfsz. destruct bits_default as [Hbd Hbv].
  assert (Hui : is_u32 (Z.of_nat i) /\ 0 <= Z.of_nat i < zlen (jb_entries jb)).
  { apply lookup_lt_Some in Hi. pose proof (jo_room Hjb) as Hr. fold n in Hr. pose proof n_vocab_range. pose proof hc_values_positive. pose proof (zlen_nonneg (route_bytes (jb_entries jb))).
    unfold zlen in Hr at 2 |- *. unfold is_u32. split; [nia|lia]. }
  pose proof (slice_run_ok _ _ _ _ _ _ _ _ Hn0 (transported_hidden (jb_bits jb) n h Hh) Hrun) as Hhout.
  destruct (run_work_job (Z.of_nat i) e st _ ctx cap layers layers' hout r (zlen (packed (jb_bits jb) h)) (entry_read <$> jb_entries jb !! S i) (route_bytes (jb_entries jb)) (job_kind i e)
    Hw Heo Hpos (transported_hidden (jb_bits jb) n h Hh) Hctx Hcap Hprep Hrun Hout) as (st' & Hrw & Hst' & Hholds).
  destruct (job_body_size e hout r Hhout Hout) as (Hru & Hrsz & Hrl).
  exists st'. unfold dist_worker_process_work_payload, job_payload. rewrite mem_read_app by apply wire_size_image. rewrite wire_roundtrip by (apply job_work_ok; [done|apply Hui|done]).
  rewrite (check_work_job ctx e st (Z.of_nat i) (zlen (packed (jb_bits jb) h))); [|done|done|done|done|apply Hui|
    rewrite !zlen_app, wire_size_image, zlen_image, zlen_map; fold n; lia].
  rewrite (read_work_job ctx) by done. rewrite Hrw. cbn [rq_kind rq_bits rq_next rq_tokens rq_route].
  cbn [wk_request_hi wk_request_lo wk_result_hash_hi wk_result_hash_lo job_work]. rewrite !halves_roundtrip by (apply hash_u64 || apply Hjb).
  assert (Hwire : exists w, (if job_kind i e =? DS4_DIST_RESULT_HIDDEN_STATE then dist_activation_wire_bytes_from_f32_bytes (jb_bits jb) (zlen (image r)) else Some (zlen (image r))) = Some w).
  { unfold job_kind. destruct (asks_logits e) eqn:Ea; cbn [Z.eqb Pos.eqb DS4_DIST_RESULT_LOGITS DS4_DIST_RESULT_HIDDEN_STATE]; [by eexists|]. unfold entry_output in Hout. rewrite Ea in Hout.
    injection Hout as <-. rewrite image_size, Z.mul_comm. eexists. by apply wire_bytes_of_hidden. }
  destruct Hwire as [w Hwire]. rewrite Hwire. destruct (jb_entries jb !! S i) as [next|] eqn:Hs; cbn [fmap option_fmap option_map].
  - assert (Ha : asks_logits e = false) by (destruct (asks_logits e) eqn:Ea; [|done]; pose proof (asks_logits_last i e Hi Ea); apply lookup_lt_Some in Hs; lia).
    unfold entry_output in Hout. rewrite Ha in Hout. injection Hout as <-.
    replace (le_words (Z.to_nat (zlen (image hout) / 4)) (image hout)) with hout.
    2: { rewrite le_words_image; [done|done|]. rewrite image_size, Z.mul_comm, Z.div_mul by lia. unfold zlen. lia. }
    destruct (get_forwarder_idle connect window fs (ro_host next) (ro_port next) Hfs Hwin (Hconn next eq_refl)) as (f & fs' & Hget & Hidle & Hfs' & Hisf & Hfind).
    eexists. split; [exact Hst'|]. split; [exact Hholds|]. exists f, fs'. split; [done|]. split; [done|]. split; [done|]. split; [done|].
    unfold dist_forward_work_to_next. cbn [wk_request_hi wk_request_lo wk_input_hc_bits job_work entry_read ro_host ro_port]. rewrite !halves_roundtrip by (apply hash_u64 || apply Hjb). rewrite Hget. cbn [wk_input_hc_bits job_work]. rewrite Hbd.
    destruct (hidden_size hout Hhout) as [Hh4 Hhl]. rewrite u32_small by (unfold is_u32; pose proof (zlen_nonneg hout); lia). rewrite (wire_bytes_of_hidden hout Hhout).
    change (RouteEntry (ro_host next) (ro_port next) (ro_layer_start next) (ro_layer_end next) (ro_flags next) (-1)) with (entry_read next).
    destruct Hidle as (Hcl & Hpe & Hdepth). unfold dist_worker_forwarder_enqueue_request. rewrite Hcl, Hpe. cbn [negb andb]. change (zlen []) with 0.
    replace (negb (fw_pending_depth f =? 0) && (fw_pending_depth f <=? 0)) with false by (destruct (Z.eqb_spec (fw_pending_depth f) 0); cbn [negb andb]; [done|]; symmetry; apply Z.leb_gt; lia).
    cbn [app]. unfold dist_worker_forwarder_note_send_done. cbn [set_pending fw_pending note_pending pe_request_id pe_telemetry]. rewrite Z.eqb_refl.
    change (Work (jb_model jb) _ _ _ _ _ _ _ _ _ _ _ _ _ _ _ _ _ _ _) with (job_work jb (Z.of_nat i) e (zlen (packed (jb_bits jb) h))).
    rewrite (forwarded_job i e next _ _ Hi Hs). rewrite send_job_frame by done. reflexivity.
  - eexists. split; [exact Hst'|]. split; [exact Hholds|]. rewrite (send_job_result i e hout r) by done. reflexivity.
Qed.

(** ** The way of a span *)

Definition addr (e : ds4_dist_route_entry) : address := (ro_host e, ro_port e).

(** The route's layers one worker after the other; between them the hidden
    states are as precise as the transport. *)
Fixpoint route_run (es : list ds4_dist_route_entry) (layers : Z -> LC) (h : list Z) : option ((Z -> LC) * list Z) :=
  match es with
  | [] => Some (layers, h)
  | e :: es' =>
      match slice_run (jb_tokens jb) (jb_pos0 jb) (ro_layer_start e) (ro_layer_end e) layers (map (transported (jb_bits jb)) h) with
      | (layers', Some h') => route_run es' layers' h'
      | (_, None) => None
      end
  end.

Definition node_ready (ctx cap : Z) (layers : Z -> LC) (net : network LC) (e : ds4_dist_route_entry) : Prop :=
  exists nd, net !! addr e = Some nd /\ worker_fits (jb_model jb) (jb_layers jb) ctx e (nd_state nd) /\ Forall idle (nd_forwarders nd) /\
    worker_prepared (jb_reset jb) (jb_session jb) (jb_prefix jb) ctx cap layers (ro_layer_start e) (ro_layer_end e) (nd_state nd).

Definition node_done (ctx cap : Z) (layers : Z -> LC) (net : network LC) (e : ds4_dist_route_entry) : Prop :=
  exists nd, net !! addr e = Some nd /\ worker_fits (jb_model jb) (jb_layers jb) ctx e (nd_state nd) /\ Forall idle (nd_forwarders nd) /\
    worker_holds (jb_session jb) (jb_prefix jb ++ jb_tokens jb) ctx cap layers (ro_layer_start e) (ro_layer_end e) (nd_state nd).

Lemma node_ready_agree ctx cap layers layers' net net' e : net' !! addr e = net !! addr e ->
  layers_agree (layer_range (ro_layer_start e) (ro_layer_end e)) layers' layers -> node_ready ctx cap layers net e -> node_ready ctx cap layers' net' e.
Proof. intros Hn Hag (nd & Hnd & Hf & Hi & Hp). exists nd. rewrite Hn. split_and!; try done. by eapply prepared_agree. Qed.

Lemma node_done_agree ctx cap layers layers' net net' e : net' !! addr e = net !! addr e ->
  layers_agree (layer_range (ro_layer_start e) (ro_layer_end e)) layers' layers -> node_done ctx cap layers net e -> node_done ctx cap layers' net' e.
Proof. intros Hn Hag (nd & Hnd & Hf & Hi & Hp). exists nd. rewrite Hn. split_and!; try done. by eapply holds_agree. Qed.

Lemma tiles_tail next l x y es : tiles next l (x :: y :: es) -> ro_layer_end x < l /\ tiles (ro_layer_end x + 1) l (y :: es).
Proof. by intros (_ & H1 & H2). Qed.

Lemma tiles_head next l x es : tiles next l (x :: es) -> ro_layer_start x = next.
Proof. by destruct es; intros [? _]. Qed.

Lemma tiles_starts next l es e : tiles next l es -> Forall (entry_ok (jb_layers jb)) es -> In e es -> next <= ro_layer_start e.
Proof.
  revert next. induction es as [|x es IH]; intros next Ht Hok Hin; [done|]. inversion_clear Hok as [|? ? Hx Hes]. pose proof (eo_layers _ _ Hx).
  destruct es as [|y es]; cbn [tiles] in Ht.
  - destruct Hin as [->|[]]. lia.
  - destruct Ht as (Hst & _ & Ht). destruct Hin as [->|Hin]; [lia|]. pose proof (IH _ Ht Hes Hin). lia.
Qed.

Lemma route_run_outside es layers h layers' hout j : route_run es layers h = Some (layers', hout) -> (forall e, In e es -> ~ (ro_layer_start e <= j <= ro_layer_end e)) ->
  layers' j = layers j.
Proof.
  revert layers h. induction es as [|e es IH]; intros layers h Hr Hout; cbn [route_run] in Hr; [by injection Hr as <- <-|].
  destruct (slice_run _ _ _ _ layers _) as [l1 [h1|]] eqn:E; [|discriminate Hr]. rewrite (IH l1 h1 Hr) by (intros e' He'; apply Hout; by right).
  pose proof (run_layers_outside (slice_step (jb_tokens jb) (jb_pos0 jb)) (layer_range (ro_layer_start e) (ro_layer_end e)) layers (map (transported (jb_bits jb)) h) j) as Ho.
  unfold slice_run in E. rewrite E in Ho. apply Ho. rewrite in_layer_range. apply Hout. by left.
Qed.

Lemma job_frame_payload i e h : job_frame jb i e h = dist_write_frame_header DS4_DIST_MSG_WORK (zlen (job_payload i e h)) ++ job_payload i e h.
Proof. unfold job_frame, job_payload. by rewrite (zlen_app (wire_image _)), wire_size_image. Qed.

(** A frame that reaches its worker is processed. *)
Lemma receive_job tm net e nd i h : hidden_ok n h -> zlen (job_payload i e h) <= U32_MAX ->
  exists s, dist_read_frame_header (Stream (job_frame jb i e h) 0) = (inr (DS4_DIST_MSG_WORK, zlen (job_payload i e h)), s) /\
  dist_worker_handle_work tm net (addr e) nd s (zlen (job_payload i e h)) =
    let '(out, st, fs) := dist_worker_process_work_payload (connects net) (tm_window tm) (tm_eval tm (addr e)) (tm_send tm (addr e)) (nd_state nd) (nd_forwarders nd) (job_payload i e h) in
    (out, Node st fs).
Proof.
  intros Hh Hsz. exists (Stream (job_payload i e h) 0). rewrite job_frame_payload. split.
  - apply frame_header_roundtrip; [done|]. unfold is_u32. pose proof (zlen_nonneg (job_payload i e h)). lia.
  - unfold dist_worker_handle_work. pose proof (read_full_app (job_payload i e h) [] 0) as Hrd. rewrite app_nil_r in Hrd. by rewrite Hrd.
Qed.

Lemma fits_sessions ctx e (st st' : ds4_dist_worker_state LC) : st' = set_sessions (wo_sessions st') st -> worker_fits (jb_model jb) (jb_layers jb) ctx e st -> worker_fits (jb_model jb) (jb_layers jb) ctx e st'.
Proof. intros -> []. by constructor. Qed.

Lemma job_payload_size i e h : hidden_ok n h -> zlen (job_payload i e h) <= U32_MAX.
Proof.
  intros Hh. pose proof (job_frame_size h Hh) as Hsz. unfold job_payload. rewrite !zlen_app, wire_size_image, zlen_image, zlen_map. fold n. lia.
Qed.

Lemma connects_known (net : network LC) e nd : net !! addr e = Some nd -> connects net (ro_host e) (ro_port e) = None.
Proof. intros Hx. unfold connects. case_match eqn:E; [done|]. exfalso. assert (E2 : net !! addr e = None) by exact E. congruence. Qed.

Lemma route_run_ok es layers h layers' hout : hidden_ok n h -> route_run es layers h = Some (layers', hout) -> hidden_ok n hout.
Proof.
  revert layers h. induction es as [|e es IH]; intros layers h Hh Hr; cbn [route_run] in Hr; [by injection Hr as <- <-|].
  destruct (slice_run _ _ _ _ layers _) as [l1 [h1|]] eqn:E; [|discriminate Hr]. apply (IH l1 h1); [|done].
  by apply (slice_run_ok _ _ _ _ _ _ _ _ job_n (transported_hidden (jb_bits jb) n h Hh) E).
Qed.

(** The rest of a route from entry [i]: the frame for it comes back as the last
    worker's result, and every worker behind holds the span. *)
Lemma deliver_job tm ctx cap fuel es e i layers h layers' hout r net : 0 <= tm_window tm -> jb_pos0 jb + n <= ctx -> n <= cap ->
  (length es < fuel)%nat -> (exists pre, jb_entries jb = pre ++ e :: es /\ length pre = i) ->
  tiles (ro_layer_start e) (jb_layers jb - 1) (e :: es) -> 0 < ro_layer_start e -> Forall (node_ready ctx cap layers net) (e :: es) -> hidden_ok n h ->
  route_run (e :: es) layers h = Some (layers', hout) -> entry_output (List.last es e) hout = Some r ->
  exists net' ts, deliver tm fuel net (addr e) (job_frame jb (Z.of_nat i) e h) = Some (Stream (job_result (List.last es e) ts r) 0, net') /\
    length ts = length (e :: es) /\ (forall a, ~ In a (map addr (e :: es)) -> net' !! a = net !! a) /\ Forall (node_done ctx cap layers' net') (e :: es).
Proof.
  intros Hwin Hctx Hcap. revert es e i layers h layers' net. induction fuel as [|fuel IH]; intros es e i layers h layers' net Hf Hpre Ht Hpos Hready Hh Hrun Hout; [lia|].
  apply Forall_cons in Hready as [(nd & Hnd & Hfit & Hidle & Hprep) Hready'].
  destruct Hpre as (pre & Hent & Hlen). assert (Hi : jb_entries jb !! i = Some e) by (rewrite Hent, <- Hlen; by apply list_lookup_middle).
  assert (Hnext : jb_entries jb !! S i = head es).
  { rewrite Hent, lookup_app_r by lia. replace (S i - length pre)%nat with 1%nat by lia. by destruct es. }
  assert (Hok : Forall (entry_ok (jb_layers jb)) (e :: es)) by (pose proof (jo_entries Hjb) as Hj; rewrite Hent in Hj; by apply Forall_app in Hj as [_ Hj]).
  pose proof (Forall_inv Hok) as Heo. pose proof (eo_layers _ _ Heo) as Hel. pose proof job_n as Hn0.
  cbn [route_run] in Hrun. destruct (slice_run (jb_tokens jb) (jb_pos0 jb) (ro_layer_start e) (ro_layer_end e) layers (map (transported (jb_bits jb)) h)) as [l1 [h1|]] eqn:Es; [|discriminate Hrun].
  pose proof (slice_run_ok _ _ _ _ _ _ _ _ Hn0 (transported_hidden (jb_bits jb) n h Hh) Es) as Hh1.
  assert (Hout1 : exists r1, entry_output e h1 = Some r1 /\ (es = [] -> r1 = r)).
  { destruct es as [|e2 es]; [cbn [route_run] in Hrun; injection Hrun as <- <-; by exists r|]. exists h1. split; [|done]. unfold entry_output.
    destruct (asks_logits e) eqn:Ea; [|done]. pose proof (asks_logits_last i e Hi Ea) as Hl. rewrite Hent, length_app in Hl. cbn [length] in Hl. lia. }
  destruct Hout1 as (r1 & Hout1 & Hr1).
  assert (Hconn : forall next, jb_entries jb !! S i = Some next -> connects net (ro_host next) (ro_port next) = None).
  { intros next Hx. rewrite Hnext in Hx. destruct es as [|e2 es]; [done|]. injection Hx as ->. apply Forall_cons in Hready' as [(nd2 & Hnd2 & _) _]. by apply (connects_known net next nd2). }
  destruct (process_job (connects net) (tm_window tm) (tm_eval tm (addr e)) (tm_send tm (addr e)) (nd_state nd) (nd_forwarders nd) i e h ctx cap layers l1 h1 r1
    Hi Hfit Hpos Hh Hctx Hcap Hprep Es Hout1 Hidle Hwin Hconn) as (st' & t & Hst' & Hholds & Hproc).
  destruct (receive_job tm net e nd (Z.of_nat i) h Hh (job_payload_size _ _ _ Hh)) as (s & Hhead & Hhandle).
  cbn [deliver]. rewrite Hnd, Hhead. cbn [negb Z.eqb]. change (DS4_DIST_MSG_WORK =? DS4_DIST_MSG_WORK) with true. cbn [negb]. rewrite Hhandle.
  pose proof (fits_sessions ctx e (nd_state nd) st' Hst' Hfit) as Hfit'.
  rewrite Hnext in Hproc. destruct es as [|e2 es]; cbn [head] in Hproc.
  - rewrite Hproc. cbn [route_run] in Hrun. injection Hrun as <- <-. rewrite (Hr1 eq_refl). eexists _, [t]. split; [reflexivity|]. split; [done|]. split.
    + intros a Ha. apply (lookup_insert_ne (M := gmap address)). intros <-. apply Ha. by left.
    + constructor; [|constructor]. exists (Node st' (nd_forwarders nd)). split; [apply (lookup_insert_eq (M := gmap address))|]. done.
  - destruct Hproc as (f & fs' & Hf1 & Hfs' & Hisf & Hfind & Hproc). rewrite Hproc.
    set (P := Pending (jb_request jb) t). set (nd1 := Node st' (update_forwarder (ro_host e2) (ro_port e2) (set_pending [P] f) fs')). set (net1 := <[addr e := nd1]> net : network LC).
    apply tiles_tail in Ht as (Hend & Ht2). pose proof Hok as Hok2. apply Forall_cons in Hok2 as [_ Hok2].
    assert (Hst2 : ro_layer_end e + 1 = ro_layer_start e2) by (symmetry; exact (tiles_head _ _ _ _ Ht2)).
    assert (Hbehind : forall e', In e' (e2 :: es) -> ro_layer_end e < ro_layer_start e').
    { intros e' Hin. pose proof (tiles_starts _ _ _ _ Ht2 Hok2 Hin). lia. }
    assert (Haddr : ~ In (addr e) (map addr (e2 :: es))).
    { intros Hin. apply in_map_iff in Hin as (e' & Ha & Hin). pose proof (Hbehind e' Hin). rewrite Forall_forall in Hready'. apply list_elem_of_In in Hin.
      destruct (Hready' e' Hin) as (nd' & Hnd' & Hfit2 & _). rewrite Ha, Hnd in Hnd'. injection Hnd' as <-. pose proof (wf_start _ _ _ _ _ Hfit). pose proof (wf_start _ _ _ _ _ Hfit2). lia. }
    assert (Hl1 : forall e', In e' (e2 :: es) -> layers_agree (layer_range (ro_layer_start e') (ro_layer_end e')) l1 layers).
    { intros e' Hin. apply Forall_forall. intros j Hj. apply list_elem_of_In, in_layer_range in Hj. pose proof (Hbehind e' Hin).
      pose proof (run_layers_outside (slice_step (jb_tokens jb) (jb_pos0 jb)) (layer_range (ro_layer_start e) (ro_layer_end e)) layers (map (transported (jb_bits jb)) h) j) as Ho.
      unfold slice_run in Es. rewrite Es in Ho. apply Ho. rewrite in_layer_range. lia. }
    assert (Hready2 : Forall (node_ready ctx cap l1 net1) (e2 :: es)).
    { rewrite Forall_forall in Hready' |- *. intros e' Hin. pose proof (Hready' e' Hin) as Hr'. apply list_elem_of_In in Hin.
      apply (node_ready_agree ctx cap layers l1 net net1 e'); [|by apply Hl1|exact Hr']. apply (lookup_insert_ne (M := gmap address)). intros Ha. apply Haddr. rewrite Ha. by apply in_map. }
    destruct (IH es e2 (S i) l1 h1 layers' net1) as (net2 & ts & Hdel & Hts & Hsame & Hdone); try done.
    { cbn [length] in Hf. lia. }
    { exists (pre ++ [e]). rewrite Hent, <- (assoc_L (++)). split; [done|]. rewrite length_app. cbn. lia. }
    { by rewrite <- Hst2. }
    { lia. }
    { by rewrite last_cons_default in Hout. }
    change (ro_host (entry_read e2), ro_port (entry_read e2)) with (addr e2). fold net1. fold nd1. rewrite Hdel.
    assert (Hnd2 : net2 !! addr e = Some nd1) by (rewrite Hsame by done; apply (lookup_insert_eq (M := gmap address))). rewrite Hnd2.
    change (ro_host (entry_read e2)) with (ro_host e2). change (ro_port (entry_read e2)) with (ro_port e2). cbn [nd_forwarders nd1].
    rewrite (find_update_forwarder _ _ _ f) by done. pose proof last_cons_default es e2 e as Hlast. rewrite Hlast in Hout |- *.
    assert (Hhout : hidden_ok n hout) by (exact (route_run_ok _ _ _ _ _ Hh1 Hrun)).
    destruct (job_body_size (List.last es e2) hout r Hhout Hout) as (Hru & Hrsz & Hrl). destruct bits_default as [Hbd Hbv].
    pose proof (result_body_bound (if asks_logits (List.last es e2) then DS4_DIST_RESULT_LOGITS else DS4_DIST_RESULT_HIDDEN_STATE) (jb_bits jb) (image r) Hbv) as Hbody.
    assert (Hcount : zlen ts + 1 <= zlen (jb_entries jb)) by (rewrite Hent, zlen_app; unfold zlen; rewrite Hts; cbn [length]; lia).
    unfold job_result at 1. rewrite <- (app_nil_r (result_frame _ _ _)).
    rewrite (relay_result (set_pending [P] f) (tm_wait tm (addr e)) (jb_request jb) (jb_hash jb) 0 _ _ ts _ t [] P 0 []); try done; [|apply Hjb|by case_if| |].
    + set (g := set_pending [] (set_pending [P] f)).
      assert (Hg : is_forwarder (ro_host e2) (ro_port e2) (set_pending [P] f) = true) by exact Hisf. rewrite update_forwarder_twice by done.
      eexists _, (ts ++ [note_waited (tm_wait tm (addr e)) t]). split; [reflexivity|]. split; [rewrite length_app, Hts; cbn; lia|]. split.
      * intros a Ha. etransitivity; [apply (lookup_insert_ne (M := gmap address)); intros <-; apply Ha; by left|]. rewrite Hsame by (intros Hin; apply Ha; by right).
        apply (lookup_insert_ne (M := gmap address)). intros <-. apply Ha. by left.
      * assert (Hout_e : forall j, ro_layer_start e <= j <= ro_layer_end e -> layers' j = l1 j).
        { intros j Hj. apply (route_run_outside (e2 :: es) l1 h1 layers' hout j Hrun). intros e' Hin. pose proof (Hbehind e' Hin). lia. }
        constructor.
        -- exists (Node st' (update_forwarder (ro_host e2) (ro_port e2) g fs')). split; [apply (lookup_insert_eq (M := gmap address))|]. split; [done|]. split.
           ++ apply update_forwarder_idle; [done|]. destruct Hf1 as (H1 & _ & H3). by split.
           ++ eapply holds_agree; [|exact Hholds]. apply Forall_forall. intros j Hj. apply list_elem_of_In, in_layer_range in Hj. by apply Hout_e.
        -- rewrite Forall_forall in Hdone |- *. intros e' Hin. apply (node_done_agree ctx cap layers' layers' net2 _ e'); [|apply layers_agree_refl|by apply Hdone].
           apply (lookup_insert_ne (M := gmap address)). intros Ha. apply Haddr. rewrite Ha. apply in_map. by apply list_elem_of_In.
    + unfold result_bits. destruct (asks_logits _); [done|]. cbn [Z.eqb Pos.eqb DS4_DIST_RESULT_HIDDEN_STATE]. rewrite Hbd. by destruct (jo_bits Hjb) as [-> | [-> | ->]].
    + change (wire_size ds4_dist_result_fixed) with 40. change (wire_size ds4_dist_telemetry_fixed) with 40. lia.
Qed.
End Jobs.

(** ** The coordinator *)

Section Coordinator.
Context {LC : Type} `{laws : SliceKernelLaws LC} (e : slice_engine) (co : ds4_dist_coordinator_state) (plan : ds4_dist_route_plan).

Definition span_of (session_id request_id : Z) (prefix tokens : list Z) (reset : bool) : span_job :=
  Job (co_model_id co) (co_n_layers co) session_id request_id prefix tokens reset (co_activation_bits co) (pl_entry plan).

(** The first worker behind the coordinator and the last one. *)
Context (first : ds4_dist_route_entry) (rest : list ds4_dist_route_entry).
Let last := List.last rest first.

(** A coordinator with its layers loaded and a plan for the rest. *)
Record coordinator_ready : Prop := {
  cr_plan : pl_entry plan = first :: rest;
  cr_blob : pl_blob plan = route_bytes (pl_entry plan);
  cr_tiles : tiles (co_local_end co + 1) (co_n_layers co - 1) (pl_entry plan);
  cr_fd : 0 <= ro_fd first;
  cr_local : co_local_start co = 0 /\ 0 <= co_local_end co < co_n_layers co;
  cr_engine : sg_n_layer e = co_n_layers co /\ sg_is_cpu e = false /\ sg_token_embd e = true;
  cr_bound : weights_layers_bound e 0 (co_local_end co) = true;
  cr_head : asks_logits last = true \/ sg_output_head e = true }.

(** The model over the route, and the logits of the last token. *)
Definition span_reference (jb : span_job) (layers : Z -> LC) : option ((Z -> LC) * list Z) :=
  h0 ← slice_embed (jb_tokens jb) (jb_pos0 jb);
  match slice_run (jb_tokens jb) (jb_pos0 jb) 0 (co_local_end co) layers h0 with
  | (_, None) => None
  | (l1, Some h1) =>
      '(l2, h) ← route_run jb (jb_entries jb) l1 h1;
      logits ← encode_output_head (slice_row (if asks_logits last then h else map (transported (jb_bits jb)) h) (zlen (jb_tokens jb) - 1));
      Some (l2, logits)
  end.

(** Before a span, the coordinator's session. *)
Definition local_prepared (jb : span_job) (ctx cap : Z) (layers : Z -> LC) (s : slice_session LC) : Prop :=
  session_room ctx cap s /\
  if jb_reset jb then jb_prefix jb = [] /\ layers_agree (layer_range 0 (co_local_end co)) layers (fun _ => empty_layer) /\ resets e s
  else slice_holds (jb_prefix jb) layers 0 (co_local_end co) s.

Lemma send_remote_job session_id request_id prefix tokens reset h : let jb := span_of session_id request_id prefix tokens reset in
  coordinator_ready -> job_ok jb -> hidden_ok (zlen tokens) h ->
  dist_coordinator_send_remote_work co plan tokens (zlen prefix) session_id request_id (dist_token_hash_prefix prefix) (dist_token_hash_prefix (prefix ++ tokens)) reset false h (zlen h * 4) =
  inr (job_frame jb 0 first h).
Proof.
  intros jb Hc Hjb Hh. unfold dist_coordinator_send_remote_work, plan_head. pose proof (cr_plan Hc) as Hp. rewrite Hp. cbn [head].
  pose proof (wire_bytes_of_hidden jb Hjb h Hh) as Hw. cbn [jb span_of jb_bits] in Hw. rewrite Hw. cbv zeta.
  pose proof (jo_room jb Hjb) as Hroom. pose proof (job_n jb Hjb) as Hn. pose proof (zlen_nonneg (route_bytes (jb_entries jb))). pose proof (zlen_nonneg (jb_entries jb)). pose proof n_vocab_range. pose proof hc_values_positive.
  cbn [jb span_of jb_tokens] in Hroom, Hn.
  rewrite (u32_small (zlen tokens * 4)) by (unfold is_u32; nia). rewrite (cr_blob Hc), Hp.
  pose proof (send_job_frame jb Hjb 0 first h Hh) as Hs. unfold job_work in Hs. cbn [jb span_of jb_model jb_session jb_request jb_prefix jb_tokens jb_reset jb_bits jb_entries] in Hs. rewrite Hp in Hs.
  unfold jb_pos0, jb_hash in Hs. cbn [jb span_of jb_prefix jb_tokens] in Hs. unfold dist_u64_to_halves in Hs |- *. cbn [fst snd] in Hs. unfold job_flags in Hs. unfold asks_logits in Hs.
  rewrite Hs. reflexivity.
Qed.

(** The request goes to the first worker of the route. *)
Definition send_to_route (tm : timing) (fuel : nat) : exchange (LC := LC) := fun net frame => deliver tm fuel net (addr first) frame.

Context (tm : timing) (fuel : nat) (ctx cap : Z).
Context (Hwin : 0 <= tm_window tm) (Hfuel : (length rest < fuel)%nat) (Hc : coordinator_ready).

Lemma final_logits jb net l1 h1 l2 hout logits : jb_entries jb = pl_entry plan -> jb_layers jb = co_n_layers co -> job_ok jb ->
  jb_pos0 jb + zlen (jb_tokens jb) <= ctx -> zlen (jb_tokens jb) <= cap -> Forall (node_ready jb ctx cap l1 net) (jb_entries jb) ->
  hidden_ok (zlen (jb_tokens jb)) h1 -> route_run jb (jb_entries jb) l1 h1 = Some (l2, hout) ->
  encode_output_head (slice_row (if asks_logits last then hout else map (transported (jb_bits jb)) hout) (zlen (jb_tokens jb) - 1)) = Some logits ->
  exists s net' kind payload, send_to_route tm fuel net (job_frame jb 0 first h1) = Some (s, net') /\
    fst (dist_recv_result_alloc s (jb_request jb)) = inr (kind, jb_hash jb, payload) /\
    (kind = DS4_DIST_RESULT_LOGITS /\ asks_logits last = true /\ payload = image logits \/
     kind = DS4_DIST_RESULT_HIDDEN_STATE /\ asks_logits last = false /\ payload = image (map (transported (jb_bits jb)) hout)) /\
    hidden_ok (zlen (jb_tokens jb)) hout /\ Forall (node_done jb ctx cap l2 net') (jb_entries jb) /\
    (forall a, ~ In a (map addr (jb_entries jb)) -> net' !! a = net !! a).
Proof.
  intros He Hl Hjb Hctx Hcap Hready Hh1 Hrun Hlog. pose proof (job_n jb Hjb) as Hn. rewrite He, (cr_plan Hc) in *.
  pose proof (route_run_ok jb Hjb _ _ _ _ _ Hh1 Hrun) as Hhout. pose proof (transported_hidden (jb_bits jb) _ _ Hhout) as Htr.
  set (r := if asks_logits last then logits else hout).
  assert (Hout : entry_output jb last hout = Some r) by (unfold entry_output, r; by destruct (asks_logits last)).
  pose proof (cr_tiles Hc) as Ht. rewrite (cr_plan Hc), <- Hl in Ht. pose proof (tiles_head _ _ _ _ Ht) as Hst. pose proof (cr_local Hc) as [_ Hloc].
  rewrite <- Hst in Ht.
  destruct (deliver_job jb Hjb (ro_layer_start first) ltac:(rewrite He; exact Ht) tm ctx cap fuel rest first 0 l1 h1 l2 hout r net)
    as (net' & ts & Hdel & Hts & Hsame & Hdone); try done.
  { exists []. by rewrite He. }
  { lia. }
  destruct (job_body_size jb Hjb last hout r Hhout Hout) as (Hru & Hrsz & Hrl). destruct (bits_default jb Hjb) as [Hbd Hbv]. fold last in Hdel.
  pose proof (result_body_bound (if asks_logits last then DS4_DIST_RESULT_LOGITS else DS4_DIST_RESULT_HIDDEN_STATE) (jb_bits jb) (image r) Hbv) as Hbody.
  assert (Hcount : zlen ts <= zlen (jb_entries jb)) by (rewrite He; unfold zlen; rewrite Hts; lia).
  change (Z.of_nat 0) with 0 in Hdel. unfold send_to_route. rewrite Hdel. unfold job_result. rewrite <- (app_nil_r (result_frame _ _ _)).
  eexists _, net', (if asks_logits last then DS4_DIST_RESULT_LOGITS else DS4_DIST_RESULT_HIDDEN_STATE), (if asks_logits last then image logits else image (map (transported (jb_bits jb)) hout)).
  split; [reflexivity|].
  rewrite recv_result_frame; [|apply Hjb|apply hash_u64|done|by case_if| |change (wire_size ds4_dist_result_fixed) with 40; change (wire_size ds4_dist_telemetry_fixed) with 40; lia].
  2: { unfold result_bits. destruct (asks_logits last); [done|]. cbn [Z.eqb Pos.eqb DS4_DIST_RESULT_HIDDEN_STATE]. rewrite Hbd. by destruct (jo_bits jb Hjb) as [-> | [-> | ->]]. }
  cbn [fst]. rewrite received_body by (try apply image_ok; try done; pose proof (zlen_nonneg (jb_entries jb)); lia).
  split_and!; try done.
  - unfold r. destruct (asks_logits last); [done|]. cbn [Z.eqb Pos.eqb DS4_DIST_RESULT_HIDDEN_STATE].
    rewrite le_words_image; [done|apply Hhout|]. rewrite zlen_image, Z.mul_comm, Z.div_mul by lia. unfold zlen. lia.
  - destruct (asks_logits last); [by left|by right].
Qed.

Lemma eval_remote_job session_id request_id prefix tokens reset net l1 h1 l2 hout logits : let jb := span_of session_id request_id prefix tokens reset in
  job_ok jb -> jb_pos0 jb + zlen tokens <= ctx -> zlen tokens <= cap -> Forall (node_ready jb ctx cap l1 net) (pl_entry plan) ->
  hidden_ok (zlen tokens) h1 -> route_run jb (pl_entry plan) l1 h1 = Some (l2, hout) ->
  encode_output_head (slice_row (if asks_logits last then hout else map (transported (jb_bits jb)) hout) (zlen tokens - 1)) = Some logits ->
  exists net', dist_coordinator_eval_remote e (send_to_route tm fuel) co plan net tokens (zlen prefix) session_id request_id (dist_token_hash_prefix prefix)
      (dist_token_hash_prefix (prefix ++ tokens)) reset h1 (zlen h1 * 4) = Some (inr logits, net') /\
    Forall (node_done jb ctx cap l2 net') (pl_entry plan) /\ (forall a, ~ In a (map addr (pl_entry plan)) -> net' !! a = net !! a).
Proof.
  intros jb Hjb Hctx Hcap Hready Hh1 Hrun Hlog.
  destruct (final_logits jb net l1 h1 l2 hout logits eq_refl eq_refl Hjb Hctx Hcap Hready Hh1 Hrun Hlog) as (s & net' & kind & payload & Hsend & Hrecv & Hpay & Hhout & Hdone & Hsame).
  exists net'. split; [|done]. unfold dist_coordinator_eval_remote. rewrite (send_remote_job session_id request_id prefix tokens reset h1 Hc Hjb Hh1). fold jb. rewrite Hsend. cbn [mbind option_bind].
  change (jb_request jb) with request_id in Hrecv. rewrite Hrecv. change (jb_hash jb) with (dist_token_hash_prefix (prefix ++ tokens)). rewrite Z.eqb_refl. cbn [negb].
  pose proof n_vocab_range as Hv. unfold INT32_MAX in Hv. 
  pose proof (job_n jb Hjb) as Hn. change (jb_tokens jb) with tokens in *. pose proof (transported_hidden (jb_bits jb) _ _ Hhout) as Htr.
  destruct Hpay as [(-> & Ha & ->) | (-> & Ha & ->)]; rewrite Ha in Hlog.
  - pose proof (slice_row_ok _ _ Hhout Hn) as Hrow. apply output_head_ok in Hlog as [Hll Hlu]; [|done]. rewrite zlen_image, Hll.
    assert (Hu : u32 (n_vocab * 4) = 4 * n_vocab).
    { pose proof (jo_room jb Hjb) as Hroom. pose proof (zlen_nonneg (route_bytes (jb_entries jb))). pose proof (zlen_nonneg (jb_entries jb)). pose proof hc_values_positive. change (jb_tokens jb) with tokens in Hroom. rewrite u32_small by (unfold is_u32; nia). lia. }
    rewrite Hu, !Z.eqb_refl. cbn [andb]. rewrite le_words_image; [done|done|]. unfold zlen in Hll. lia.
  - cbn [Z.eqb Pos.eqb DS4_DIST_RESULT_HIDDEN_STATE DS4_DIST_RESULT_LOGITS andb]. rewrite zlen_image. rewrite (proj1 Htr), <- (proj1 Hh1), (Z.mul_comm 4), Z.eqb_refl. cbn [andb].
    rewrite Z.div_mul by lia. rewrite le_words_image; [|apply Htr|pose proof (proj1 Htr); pose proof (proj1 Hh1); unfold zlen in *; lia].
    unfold session_eval_output_head_from_hc. rewrite (proj2 (Z.eqb_neq _ 0)) by lia. destruct (cr_head Hc) as [Hx | Hx]; [congruence|]. rewrite Hx. cbn [negb]. rewrite Hlog.
    apply output_head_ok in Hlog as [Hll _]; [|by apply slice_row_ok]. rewrite take_ge by (unfold zlen in Hll; lia). done.
Qed.
End Coordinator.
