(* ===== verification/DistModel.v ===== *)
(** * Distributed inference: a conversation over a route

    What DistSpan.v shows of the parts, put together: one span evaluated by the
    coordinator over its route, several spans one after another, and the same
    model on one machine. *)

From stdpp Require Import gmap.
From S2P Require Import Prelude Half DistWire DistRoute LayerSlice DistWork DistSpan.
#[local] Open Scope Z_scope.
#[local] Open Scope stdpp_scope.

#[local] Arguments cr_plan {e co plan first rest} _.
#[local] Arguments cr_tiles {e co plan first rest} _.
#[local] Arguments cr_fd {e co plan first rest} _.
#[local] Arguments cr_local {e co plan first rest} _.

Section Span.
Context {LC : Type} `{laws : SliceKernelLaws LC} (e : slice_engine) (co : ds4_dist_coordinator_state) (plan : ds4_dist_route_plan).
Context (first : ds4_dist_route_entry) (rest : list ds4_dist_route_entry).
Context (tm : timing) (fuel : nat) (ctx cap : Z).
Context (Hwin : 0 <= tm_window tm) (Hfuel : (length rest < fuel)%nat) (Hc : coordinator_ready e co plan first rest).

(** The coordinator's session and its workers' before and after a span. *)
Record span_ready (jb : span_job) (layers : Z -> LC) (s : slice_session LC) (net : network LC) : Prop := {
  sr_job : job_ok jb;
  sr_context : jb_pos0 jb + zlen (jb_tokens jb) <= ctx;
  sr_chunk : zlen (jb_tokens jb) <= cap;
  sr_local : local_prepared e co jb ctx cap layers s;
  sr_route : Forall (node_ready jb ctx cap layers net) (pl_entry plan) }.

Record span_done (jb : span_job) (layers : Z -> LC) (s : slice_session LC) (net : network LC) : Prop := {
  sd_room : session_room ctx cap s;
  sd_local : slice_holds (jb_prefix jb ++ jb_tokens jb) layers 0 (co_local_end co) s;
  sd_route : Forall (node_done jb ctx cap layers net) (pl_entry plan) }.

(** The coordinator's own layers. *)
Lemma local_slice jb layers s l1 h0 h1 : jb_layers jb = co_n_layers co -> job_ok jb -> jb_pos0 jb + zlen (jb_tokens jb) <= ctx -> zlen (jb_tokens jb) <= cap ->
  local_prepared e co jb ctx cap layers s -> slice_embed (jb_tokens jb) (jb_pos0 jb) = Some h0 ->
  slice_run (jb_tokens jb) (jb_pos0 jb) 0 (co_local_end co) layers h0 = (l1, Some h1) ->
  exists s1 s', (if jb_reset jb then session_layer_slice_reset e s else (None, s)) = (None, s1) /\
    session_eval_layer_slice e s1 (jb_tokens jb) (jb_pos0 jb) 0 (co_local_end co) None true false = (inr (Some h1, None), s') /\
    session_room ctx cap s' /\ slice_holds (jb_prefix jb ++ jb_tokens jb) l1 0 (co_local_end co) s'.
Proof.
  intros Hl Hjb Hctx Hcap [Hroom Hprep] Hemb Hrun. destruct Hc as [_ _ _ _ [_ Hloc] (Hn & Hg & Hte) Hb _].
  pose proof (job_n jb Hjb) as Hn0. pose proof (slice_embed_ok _ _ _ Hn0 Hemb) as Hh0. pose proof (slice_run_ok _ _ _ _ _ _ _ _ Hn0 Hh0 Hrun) as Hh1.
  pose proof (jo_layers jb Hjb) as Hlay.
  assert (Hs1 : exists s1, (if jb_reset jb then session_layer_slice_reset e s else (None, s)) = (None, s1) /\ session_room ctx cap s1 /\
    slice_prepared (jb_reset jb) (jb_prefix jb) layers 0 (co_local_end co) s1).
  { destruct (jb_reset jb); [|by exists s]. destruct Hprep as (Hp & Hag & Hres).
    destruct (reset_session e s ctx cap Hg Hres Hroom) as (s1 & Hr & Hroom1 & Hck & Hv & Hem). exists s1. split; [done|]. split; [done|].
    split_and!; [done..|]. eapply layers_agree_trans; [exact Hag|apply Hem; lia]. }
  destruct Hs1 as (s1 & Hs1 & Hroom1 & Hprep1). exists s1.
  edestruct (eval_prepared e s1 (jb_reset jb) (jb_prefix jb) (jb_tokens jb) layers ctx cap 0 (co_local_end co) None true false h0 l1 h1 (Some h1, None))
    as (s' & Hev & Hroom' & Hh'); try done; try lia.
  - exact (jo_context jb Hjb).
  - by left.
  - by apply slice_outputs_hidden.
  - exists s'. done.
Qed.

(** What the way of a span does to the layers of others. *)
Lemma local_outside jb layers l1 h0 h1 ent : slice_run (jb_tokens jb) (jb_pos0 jb) 0 (co_local_end co) layers h0 = (l1, h1) ->
  co_local_end co < ro_layer_start ent -> layers_agree (layer_range (ro_layer_start ent) (ro_layer_end ent)) l1 layers.
Proof.
  intros Hrun Hlt. apply Forall_forall. intros j Hj. apply list_elem_of_In, in_layer_range in Hj.
  pose proof (run_layers_outside (slice_step (jb_tokens jb) (jb_pos0 jb)) (layer_range 0 (co_local_end co)) layers h0 j) as Ho.
  unfold slice_run in Hrun. rewrite Hrun in Ho. apply Ho. rewrite in_layer_range. lia.
Qed.

Context (session_id request_id : Z) (prefix tokens : list Z) (reset : bool).
Let jb := span_of co plan session_id request_id prefix tokens reset.

Lemma remote_starts : job_ok jb -> forall ent, In ent (pl_entry plan) -> co_local_end co < ro_layer_start ent.
Proof. intros Hjb ent Hin. pose proof (tiles_starts jb _ _ _ ent (cr_tiles Hc) (jo_entries jb Hjb) Hin). lia. Qed.

Lemma eval_span_job layers s net l2 logits : span_ready jb layers s net -> span_reference co first rest jb layers = Some (l2, logits) ->
  exists s' net', dist_coordinator_eval_span e (send_to_route first tm fuel) co plan s net tokens (zlen prefix) session_id request_id reset =
    Some (inr logits, s', net') /\ span_done jb l2 s' net' /\ (forall a, ~ In a (map addr (pl_entry plan)) -> net' !! a = net !! a).
Proof.
  intros [Hjb Hctx Hcap Hloc Hroute] Href. unfold span_reference in Href. cbn [jb_tokens jb span_of jb_bits] in *.
  destruct (slice_embed tokens (jb_pos0 jb)) as [h0|] eqn:Hemb; [|discriminate]. cbn [mbind option_bind] in Href.
  destruct (slice_run tokens (jb_pos0 jb) 0 (co_local_end co) layers h0) as [l1 [h1|]] eqn:Hrun; [|discriminate].
  destruct (route_run jb (jb_entries jb) l1 h1) as [[l2' h]|] eqn:Hrr; [|discriminate]. cbn [mbind option_bind] in Href.
  destruct (encode_output_head _) as [lg|] eqn:Hlog; [|discriminate]. injection Href as -> ->.
  pose proof (job_n jb Hjb) as Hn0. cbn [jb_tokens jb span_of] in Hn0. pose proof (slice_embed_ok _ _ _ Hn0 Hemb) as Hh0. pose proof (slice_run_ok _ _ _ _ _ _ _ _ Hn0 Hh0 Hrun) as Hh1.
  destruct (local_slice jb layers s l1 h0 h1 eq_refl Hjb Hctx Hcap Hloc Hemb Hrun) as (s1 & s' & Hreset & Hev & Hroom' & Hholds).
  assert (Hready : Forall (node_ready jb ctx cap l1 net) (pl_entry plan)).
  { rewrite Forall_forall in Hroute |- *. intros ent Hin. apply (node_ready_agree jb ctx cap layers l1 net net ent); [done| |by apply Hroute].
    apply (local_outside jb layers l1 h0 (Some h1) ent Hrun). apply (remote_starts Hjb). by apply list_elem_of_In. }
  destruct (eval_remote_job e co plan first rest tm fuel ctx cap Hwin Hfuel Hc session_id request_id prefix tokens reset net l1 h1 l2 h logits Hjb Hctx Hcap Hready Hh1 Hrr Hlog)
    as (net' & Hrem & Hdone & Hsame).
  exists s', net'. split.
  - destruct (hidden_size jb Hjb h1 Hh1) as [Hsz Hhl]. cbn [jb_tokens jb span_of] in Hhl.
    unfold dist_coordinator_eval_span. cbv zeta. rewrite (u64_small (zlen tokens * hc_values)), <- Hhl, u64_small by (unfold is_u64, U64_MAX, U32_MAX in *; pose proof (zlen_nonneg h1); lia).
    rewrite (proj2 (Z.ltb_ge _ _)) by lia. cbn [jb_reset jb span_of] in Hreset.
    assert (Hpre : (if reset then if negb (zlen prefix =? 0) then inl (bs "distributed reset span must start at position 0") else inr DS4_DIST_TOKEN_HASH_INIT
      else dist_session_token_hash_prefix s (zlen prefix)) = inr (dist_token_hash_prefix prefix)).
    { destruct reset; destruct Hloc as [_ Hloc]; cbn [jb_reset jb span_of jb_prefix] in Hloc.
      - by destruct Hloc as (-> & _).
      - unfold dist_session_token_hash_prefix. rewrite (sh_checkpoint _ _ _ _ _ Hloc), (proj2 (Z.ltb_ge _ _)) by lia. unfold zlen. by rewrite Nat2Z.id, take_ge by lia. }
    rewrite Hpre, Hreset, hash_span_prefix. unfold plan_head. rewrite (cr_plan Hc). cbn [head negb andb]. rewrite (proj2 (Z.ltb_ge _ 0)) by exact (cr_fd Hc).
    rewrite (proj1 (cr_local Hc)). cbn [jb_tokens jb span_of] in Hev. change (jb_pos0 jb) with (zlen prefix) in Hev. rewrite Hev. change (default [] (Some h1)) with h1. rewrite Hrem. done.
  - split; [|done]. constructor; [done| |done]. destruct Hholds as [Hk Hv Hag]. constructor; [done..|]. eapply layers_agree_trans; [|exact Hag].
    apply Forall_forall. intros j Hj. apply list_elem_of_In, in_layer_range in Hj. apply (route_run_outside jb _ _ _ _ _ j Hrr). intros ent Hin Hbad. pose proof (remote_starts Hjb ent Hin). lia.
Qed.
End Span.
