(* ===== verification/DistSession.v ===== *)
(** * The distributed session API (src/ds4_distributed.c)

    How a session with remote layers reads a prompt and decodes a token: the
    chunks of a prefill, the recovery that replays a transcript over a new route,
    [ds4_dist_session_sync] and [ds4_dist_session_eval].  A long prompt
    whose chunks go through a pipeline is sent by three threads: those are in
    DistPipeline.v, and here such a prefill has no outcome. *)

From stdpp Require Import gmap.
From S2P Require Import Prelude Libc DistWire DistRoute LayerSlice DistWork DistSpan DistModel.
#[local] Open Scope Z_scope.
#[local] Open Scope stdpp_scope.

(** The environment variables, and the tunables of the coordinator's options. *)
Record dist_tunables := Tunables {
  tu_prefill_chunk : Z;
  tu_prefill_window : Z;
  tu_env_prefill_chunk : option bytes;
  tu_env_prefill_window : option bytes;
  tu_env_disable_pipeline : bool }.

Definition dist_parse_positive_u32 (s : option bytes) (name : bytes) : bytes + Z :=
  match s with
  | None => inl (name ++ bs " requires a positive integer")
  | Some s =>
      let invalid := inl (bs "invalid value for " ++ name ++ bs ": " ++ s) in
      match strtoul s with
      | None => invalid
      | Some (v, rest, erange) =>
          if erange || (length s =? 0)%nat || negb (cget rest 0 =? 0) || (v =? 0) || (U32_MAX <? v) then invalid else inr v
      end
  end.

(** A set, non-empty variable is parsed when the option is zero. *)
Definition tunable (requested : Z) (env : option bytes) (name : bytes) : bytes + Z :=
  match env with
  | Some s => if (requested =? 0) && negb (cget s 0 =? 0) then dist_parse_positive_u32 (Some s) name else inr requested
  | None => inr requested
  end.

Definition dist_coordinator_prefill_chunk_cap (tu : dist_tunables) (prefill_cap : Z) : bytes + Z :=
  if i32 prefill_cap <=? 0 then inl (bs "distributed coordinator has no prefill capacity")
  else
    let prefill_cap := u32 prefill_cap in
    match tunable (tu_prefill_chunk tu) (tu_env_prefill_chunk tu) (bs "DS4_DIST_PREFILL_CHUNK") with
    | inl err => inl err
    | inr requested =>
        let requested := if requested =? 0 then prefill_cap else requested in
        if prefill_cap <? requested then
          inl (bs "distributed prefill chunk " ++ dec_print requested ++ bs " exceeds session prefill cap " ++ dec_print prefill_cap)
        else inr requested
    end.

(** How many chunks may be under way. *)
Definition dist_coordinator_prefill_window (tu : dist_tunables) (plan : ds4_dist_route_plan) (chunk_count : Z) : bytes + Z :=
  match tunable (tu_prefill_window tu) (tu_env_prefill_window tu) (bs "DS4_DIST_PREFILL_WINDOW") with
  | inl err => inl err
  | inr requested =>
      if 64 <? requested then inl (bs "distributed prefill window " ++ dec_print requested ++ bs " exceeds limit 64")
      else
        let requested :=
          if requested =? 0 then
            let r := u32 (zlen (pl_entry plan) + 2) in
            let r := if r <? 2 then 2 else r in
            if 8 <? r then 8 else r
          else requested in
        let requested := if negb (chunk_count =? 0) && (chunk_count <? requested) then chunk_count else requested in
        inr (if negb (requested =? 0) then requested else 1)
  end.

Definition dist_coordinator_can_pipeline_prefill (tu : dist_tunables) (co : ds4_dist_coordinator_state) (plan : ds4_dist_route_plan) (n_tokens chunk_cap : Z) : bool :=
  if tu_env_disable_pipeline tu then false
  else if (chunk_cap =? 0) || (n_tokens <=? chunk_cap) then false
  else
    match plan_head plan, last (pl_entry plan) with
    | Some first, Some final =>
        if ro_fd first <? 0 then false
        else if negb (has_flag (ro_flags final) DS4_DIST_ROUTE_F_OUTPUT_LOGITS) then
          (u32 (ro_layer_end final + 1) =? co_n_layers co) && co_local_can_output_head co
        else true
    | _, _ => false
    end.

Section Api.
Context {LC : Type} `{SliceKernels LC} `{Qsort} (e : slice_engine) (tu : dist_tunables) (session_id : Z) (tm : timing) (fuel : nat).
(** [dup] of a worker's connection for the plan. *)
Context (dup : ds4_dist_worker_entry -> Z).

(** All that a call reads and writes: the registry, the session's route and
    counter, the owner's session, the workers, and the caller's logits. *)
Record dist_world := World {
  dw_state : ds4_dist_coordinator_state;
  dw_route : route_cache;
  dw_request_id : Z;
  dw_owner : slice_session LC;
  dw_net : network LC;
  dw_logits : list Z }.

Definition set_route (d : route_cache) (w : dist_world) : dist_world := World (dw_state w) d (dw_request_id w) (dw_owner w) (dw_net w) (dw_logits w).
Definition set_registry (co : ds4_dist_coordinator_state) (w : dist_world) : dist_world := World co (dw_route w) (dw_request_id w) (dw_owner w) (dw_net w) (dw_logits w).
Definition set_ready (ready : bool) (w : dist_world) : dist_world := set_route (RouteCache (rc_plan (dw_route w)) ready (rc_generation (dw_route w))) w.
(** A plan whose replay failed is forgotten, its connections stay with it. *)
Definition route_lost (w : dist_world) : dist_world := set_route (RouteCache (rc_plan (dw_route w)) false 0) w.

(** The first worker of the plan has the connection. *)
Definition plan_exchange (plan : ds4_dist_route_plan) : exchange (LC := LC) := fun net frame =>
  match plan_head plan with Some first => deliver tm fuel net (ro_host first, ro_port first) frame | None => None end.

(** The result of a call: a code and a message, or success.  [None]: no answer. *)
Definition outcome : Type := option ((Z * bytes + unit) * dist_world).

(** One span at the next request id. *)
Definition eval_span (tokens : list Z) (pos0 : Z) (reset : bool) (w : dist_world) : outcome :=
  '(r, owner, net) ← dist_coordinator_eval_span e (plan_exchange (rc_plan (dw_route w))) (dw_state w) (rc_plan (dw_route w)) (dw_owner w) (dw_net w) tokens pos0 session_id (dw_request_id w) reset;
  let next logits := World (dw_state w) (dw_route w) (u64 (dw_request_id w + 1)) owner net logits in
  Some (match r with inl err => (inl err, next (dw_logits w)) | inr logits => (inr (), next logits) end).

(** Chunks from [pos] on; the first one of a fresh prompt resets. *)
Fixpoint prefill_chunks (chunks : nat) (prompt : list Z) (chunk_cap pos : Z) (fresh : bool) (w : dist_world) : outcome :=
  match chunks with
  | O => None
  | S chunks' =>
      if pos <? zlen prompt then
        let remaining := zlen prompt - pos in
        let chunk := if remaining <? chunk_cap then remaining else chunk_cap in
        '(r, w) ← eval_span (take (Z.to_nat chunk) (drop (Z.to_nat pos) prompt)) pos (fresh && (pos =? 0)) w;
        match r with
        | inl err => Some (inl err, w)
        | inr _ => prefill_chunks chunks' prompt chunk_cap (pos + chunk) fresh w
        end
      else Some (inr (), w)
  end.

Definition dist_coordinator_prefill_prompt (prompt : list Z) (w : dist_world) : outcome :=
  match dist_coordinator_prefill_chunk_cap tu (sl_prefill_cap (dw_owner w)) with
  | inl err => Some (inl (1, err), w)
  | inr chunk_cap =>
      if dist_coordinator_can_pipeline_prefill tu (dw_state w) (rc_plan (dw_route w)) (zlen prompt) chunk_cap then None
      else prefill_chunks (S (length prompt)) prompt chunk_cap 0 true w
  end.

(** A new plan for a session whose plan is empty or whose route is forgotten.
    A plan is released before the new one is built. *)
Definition replan (w : dist_world) : (bytes + unit) * dist_world :=
  match dist_coordinator_build_route_plan (dw_state w) dup with
  | inl err => (inl err, set_route (RouteCache (Plan [] []) (rc_ready (dw_route w)) (rc_generation (dw_route w))) w)
  | inr (plan, generation) => (inr (), set_route (RouteCache plan (rc_ready (dw_route w)) generation) w)
  end.

Definition dist_coordinator_rebuild_from_transcript (transcript : list Z) (forget_route : bool) (w : dist_world) : outcome :=
  let '(r, w) :=
    if forget_route then replan (set_registry (dist_coordinator_forget_route_workers (dw_state w) (rc_plan (dw_route w))) w)
    else if (length (pl_entry (rc_plan (dw_route w))) =? 0)%nat then replan w
    else (inr (), w) in
  match r with
  | inl err => Some (inl (1, err), w)
  | inr _ =>
      '(r, w) ← dist_coordinator_prefill_prompt transcript w;
      Some (match r with inl (_, err) => (inl (1, err), w) | inr _ => (inr (), w) end)
  end.

(** A failure is answered by a replay of the transcript: over the same route when
    a worker said that it failed, over another one when the route broke. *)
Definition recover (transcript : list Z) (code : Z) (w : dist_world) : outcome :=
  '(r, w) ← dist_coordinator_rebuild_from_transcript transcript (negb (code =? DS4_DIST_RECV_REMOTE_ERROR)) w;
  Some (match r with inl (_, err) => (inl (1, err), route_lost w) | inr _ => (inr (), set_ready true w) end).

Definition or_recover (transcript : list Z) (o : outcome) : outcome :=
  '(r, w) ← o;
  match r with
  | inl (code, _) => recover transcript code w
  | inr _ => Some (inr (), w)
  end.

(** The prompt goes on from the owner's checkpoint when it is a prefix. *)
Definition ds4_dist_session_sync (checkpoint : option (list Z)) (prompt : list Z) (w : dist_world) : outcome :=
  if zlen prompt <=? 0 then Some (inl (1, bs "invalid distributed sync request"), w)
  else
    match dist_session_ensure_route (dw_state w) dup (dw_route w) with
    | (inl err, d) => Some (inl (1, err), set_route d w)
    | (inr _, d) =>
        let w := set_route d w in
        match checkpoint with
        | Some cp =>
            if (zlen cp <=? zlen prompt) && bool_decide (take (length cp) prompt = cp) then
              if zlen cp =? zlen prompt then Some (inr (), w)
              else
                match dist_coordinator_prefill_chunk_cap tu (sl_prefill_cap (dw_owner w)) with
                | inl err => Some (inl (1, err), w)
                | inr chunk_cap =>
                    if dist_coordinator_can_pipeline_prefill tu (dw_state w) (rc_plan (dw_route w)) (zlen prompt - zlen cp) chunk_cap then None
                    else or_recover prompt (prefill_chunks (S (length prompt)) prompt chunk_cap (zlen cp) false w)
                end
            else or_recover prompt (dist_coordinator_prefill_prompt prompt w)
        | None => or_recover prompt (dist_coordinator_prefill_prompt prompt w)
        end
    end.

(** The checkpoint of the call is the owner's own vector: it is read again after
    the span, for the transcript. *)
Definition ds4_dist_session_eval (token : Z) (w : dist_world) : outcome :=
  match dist_session_ensure_route (dw_state w) dup (dw_route w) with
  | (inl err, d) => Some (inl (1, err), set_route d w)
  | (inr _, d) =>
      let w := set_route d w in
      '(r, w) ← eval_span [token] (zlen (sl_checkpoint (dw_owner w))) false w;
      match r with
      | inl (code, _) => recover (sl_checkpoint (dw_owner w) ++ [token]) code w
      | inr _ => Some (inr (), w)
      end
  end.

(** ** The owner's calls *)

(** What the owner's session does with a prompt and a token: [ds4_session_sync_internal]
    and [ds4_session_eval_internal] of src/ds4.c, for a distributed session that
    nobody cancels. *)
Inductive turn := Say (prompt : list Z) | Decode (token : Z).

Definition owner_sync (prompt : list Z) (w : dist_world) : outcome :=
  if zlen prompt <=? 0 then Some (inl (1, bs "empty prompt"), w)
  else if sl_ctx_size (dw_owner w) <=? zlen prompt then
    Some (inl (1, bs "prompt length " ++ dec_print (zlen prompt) ++ bs " exceeds context " ++ dec_print (sl_ctx_size (dw_owner w)) ++
                  bs " (one token of generation room is required)"), w)
  else ds4_dist_session_sync (if sl_checkpoint_valid (dw_owner w) then Some (sl_checkpoint (dw_owner w)) else None) prompt w.

Definition owner_eval (token : Z) (w : dist_world) : outcome :=
  if negb (sl_checkpoint_valid (dw_owner w)) then Some (inl (1, bs "distributed decode requires a valid checkpoint"), w)
  else ds4_dist_session_eval token w.

Definition run_turn (t : turn) (w : dist_world) : outcome := match t with Say prompt => owner_sync prompt w | Decode token => owner_eval token w end.

Fixpoint run_turns (ts : list turn) (w : dist_world) : outcome :=
  match ts with
  | [] => Some (inr (), w)
  | t :: ts' =>
      '(r, w) ← run_turn t w;
      match r with inl err => Some (inl err, w) | inr _ => run_turns ts' w end
  end.
End Api.
#[global] Arguments dist_world : clear implicits.

(** ** What a span leaves alone *)

(** The sizes of a session. *)
Definition slice_sizes {LC} (s : slice_session LC) : Z * Z * Z := (sl_ctx_size s, sl_prefill_cap s, sl_raw_cap s).

Lemma eval_slice_sizes {LC : Type} `{SliceKernels LC} (e : slice_engine) (s : slice_session LC) tokens pos0 a b input_hc want_hc lg :
  slice_sizes (snd (session_eval_layer_slice e s tokens pos0 a b input_hc want_hc lg)) = slice_sizes s.
Proof.
  unfold session_eval_layer_slice. cbv zeta. by repeat (case_match; try done).
Qed.

Lemma reset_sizes {LC : Type} `{SliceKernels LC} (e : slice_engine) (s : slice_session LC) : slice_sizes (snd (session_layer_slice_reset e s)) = slice_sizes s.
Proof. unfold session_layer_slice_reset. cbv zeta. by repeat (case_match; try done). Qed.

Lemma coordinator_span_sizes {LC : Type} `{SliceKernels LC} (e : slice_engine) ex co plan (s s' : slice_session LC) net net' tokens pos0 sid rid reset r :
  dist_coordinator_eval_span e ex co plan s net tokens pos0 sid rid reset = Some (r, s', net') -> slice_sizes s' = slice_sizes s.
Proof.
  unfold dist_coordinator_eval_span. cbv zeta. case_if; [by intros [= <- <- <-]|].
  destruct (if reset then if negb (pos0 =? 0) then _ else _ else _) as [err|prefix_hash]; [by intros [= <- <- <-]|].
  assert (Hr : forall o s1, (if reset then session_layer_slice_reset e s else (None, s)) = (o, s1) -> slice_sizes s1 = slice_sizes s).
  { intros o s1. destruct reset; [|by intros [= <- <-]]. intros Hx. pose proof (reset_sizes e s) as Hs. by rewrite Hx in Hs. }
  destruct (if reset then session_layer_slice_reset e s else (None, s)) as [[err|] s1]; (pose proof (Hr _ _ eq_refl) as Hs1; clear Hr); [by intros [= <- <- <-]|].
  set (ll := match pl_entry plan with [] => true | _ => false end). destruct (negb ll && _); [by intros [= <- <- <-]|].
  match goal with |- context [session_eval_layer_slice ?a ?b ?c ?d ?f ?g ?h ?i ?j] => pose proof (eval_slice_sizes a b c d f g h i j) as Hsl; destruct (session_eval_layer_slice a b c d f g h i j) as [out s2] end.
  cbn [snd] in Hsl. destruct out as [err|[hid lg]]; [by intros [= <- <- <-]; congruence|]. destruct ll; [by intros [= <- <- <-]; congruence|].
  destruct (dist_coordinator_eval_remote _ _ _ _ _ _ _ _ _ _ _ _ _ _) as [[r' n']|]; [|done]. cbn. intros [= <- <- <-]. congruence.
Qed.

(** ** The owner's tokens *)

Lemma reset_clears {LC : Type} `{SliceKernels LC} (e : slice_engine) (s s' : slice_session LC) : session_layer_slice_reset e s = (None, s') -> sl_checkpoint s' = [].
Proof. unfold session_layer_slice_reset. case_if; [by intros [= <-]|]. destruct (reset_layers _ _) as [ok l]. destruct ok; cbn [negb]; [by intros [= <-]|done]. Qed.

(** A span that succeeds has put its tokens behind the owner's. *)
Lemma coordinator_span_appends {LC : Type} `{SliceKernels LC} (e : slice_engine) ex co plan (s s' : slice_session LC) net net' tokens pos0 sid rid reset logits :
  dist_coordinator_eval_span e ex co plan s net tokens pos0 sid rid reset = Some (inr logits, s', net') ->
  tokens <> [] /\ sl_checkpoint s' = (if reset then [] else sl_checkpoint s) ++ tokens.
Proof.
  unfold dist_coordinator_eval_span. cbv zeta. case_if; [done|].
  destruct (if reset then if negb (pos0 =? 0) then _ else _ else _) as [err|prefix_hash]; [done|].
  assert (Hr : forall s1, (if reset then session_layer_slice_reset e s else (None, s)) = (None, s1) -> sl_checkpoint s1 = if reset then [] else sl_checkpoint s).
  { intros s1. destruct reset; [apply reset_clears|by intros [= <-]]. }
  destruct (if reset then session_layer_slice_reset e s else (None, s)) as [[err|] s1]; [done|]. rewrite <- (Hr _ eq_refl). clear Hr.
  set (ll := match pl_entry plan with [] => true | _ => false end). destruct (negb ll && _); [done|].
  match goal with |- context [session_eval_layer_slice ?a ?b ?c ?d ?f ?g ?h ?i ?j] => pose proof (slice_timeline a b c d f g h i j) as Ht; destruct (session_eval_layer_slice a b c d f g h i j) as [out s2] end.
  destruct out as [err|[hid lg]]; [done|]. destruct Ht as [_ (Hc & _ & Hne & _)]. destruct ll; [by intros [= _ <- _]|].
  destruct (dist_coordinator_eval_remote _ _ _ _ _ _ _ _ _ _ _ _ _ _) as [[r' n']|]; [|done]. cbn. by intros [= _ <- _].
Qed.

(** When the owner's own layers succeed, its session is theirs, whatever the workers
    do then. *)
Lemma coordinator_span_local {LC : Type} `{SliceKernels LC} (e : slice_engine) ex co plan (s s1 s' : slice_session LC) net net' tokens sid rid first o r :
  u64 (u64 (zlen tokens * hc_values) * 4) <= U32_MAX -> plan_head plan = Some first -> 0 <= ro_fd first ->
  session_eval_layer_slice e s tokens (zlen (sl_checkpoint s)) (co_local_start co) (co_local_end co) None true false = (inr o, s1) ->
  dist_coordinator_eval_span e ex co plan s net tokens (zlen (sl_checkpoint s)) sid rid false = Some (r, s', net') -> s' = s1.
Proof.
  intros Hb Hp Hfd He. unfold dist_coordinator_eval_span, dist_session_token_hash_prefix. cbv zeta. rewrite (proj2 (Z.ltb_ge _ _)) by exact Hb.
  rewrite Z.ltb_irrefl, Hp. destruct (pl_entry plan) as [|x l] eqn:Hl; [unfold plan_head in Hp; by rewrite Hl in Hp|].
  cbn [negb andb]. rewrite (proj2 (Z.ltb_ge _ _)) by exact Hfd. rewrite He. destruct o as [hid lg].
  destruct (dist_coordinator_eval_remote _ _ _ _ _ _ _ _ _ _ _ _ _ _) as [[r' n']|]; [|done]. cbn. by intros [= _ <- _].
Qed.

Section Replayed.
Context {LC : Type} `{SliceKernels LC} `{Qsort} (e : slice_engine) (tu : dist_tunables) (session_id : Z) (tm : timing) (fuel : nat) (dup : ds4_dist_worker_entry -> Z).

Lemma eval_span_appends tokens pos0 reset (w w' : dist_world LC) : eval_span e session_id tm fuel tokens pos0 reset w = Some (inr (), w') ->
  tokens <> [] /\ sl_checkpoint (dw_owner w') = (if reset then [] else sl_checkpoint (dw_owner w)) ++ tokens.
Proof.
  unfold eval_span. destruct (dist_coordinator_eval_span _ _ _ _ _ _ _ _ _ _ _) as [[[[err|lg] s'] net']|] eqn:E; cbn; try done.
  intros [= <-]. by apply coordinator_span_appends in E.
Qed.

Lemma prefill_appends chunks prompt cap pos fresh (w w' : dist_world LC) : 0 <= pos -> (pos = 0 -> fresh = true) ->
  (0 < pos -> sl_checkpoint (dw_owner w) = take (Z.to_nat pos) prompt) -> 0 < zlen prompt ->
  prefill_chunks e session_id tm fuel chunks prompt cap pos fresh w = Some (inr (), w') -> sl_checkpoint (dw_owner w') = prompt.
Proof.
  revert pos w. induction chunks as [|chunks IH]; intros pos w Hpos Hfresh Hcp Hne; cbn [prefill_chunks]; [done|].
  destruct (Z.ltb_spec pos (zlen prompt)) as [Hlt|Hge].
  2: { intros [= <-]. rewrite Hcp by lia. apply take_ge. unfold zlen in *. lia. }
  cbv zeta. set (chunk := if zlen prompt - pos <? cap then zlen prompt - pos else cap). destruct (eval_span _ _ _ _ _ _ _ w) as [[[err|[]] w1]|] eqn:E; cbn; try done.
  apply eval_span_appends in E as [Htne Hw1]. assert (Hchunk : 0 < chunk).
  { destruct (Z.lt_ge_cases 0 chunk) as [|Hc]; [done|]. exfalso. apply Htne. by replace (Z.to_nat chunk) with 0%nat by lia. }
  assert (Hcp' : (if fresh && (pos =? 0) then [] else sl_checkpoint (dw_owner w)) = take (Z.to_nat pos) prompt).
  { destruct (Z.eqb_spec pos 0) as [->|]; [by rewrite Hfresh|]. rewrite andb_false_r. apply Hcp. lia. }
  rewrite Hcp' in Hw1. apply IH; [lia|lia| |done]. intros _. rewrite Hw1, Z2Nat.inj_add by lia. apply take_take_drop.
Qed.

(** A recovery that succeeds leaves the transcript it was given. *)
Lemma recover_replays transcript code (w w' : dist_world LC) : transcript <> [] ->
  recover e tu session_id tm fuel dup transcript code w = Some (inr (), w') -> sl_checkpoint (dw_owner w') = transcript.
Proof.
  intros Hne. unfold recover. destruct (dist_coordinator_rebuild_from_transcript _ _ _ _ _ _ _ _ w) as [[[[c err]|[]] w1]|] eqn:E; cbn; try done.
  intros [= <-]. unfold dist_coordinator_rebuild_from_transcript in E.
  destruct (if negb (code =? DS4_DIST_RECV_REMOTE_ERROR) then _ else _) as [[err|[]] w2] in E; [done|].
  destruct (dist_coordinator_prefill_prompt _ _ _ _ _ _ w2) as [[[[c err]|[]] w3]|] eqn:Ep; cbn in E; try done. injection E as <-.
  unfold dist_coordinator_prefill_prompt in Ep. destruct (dist_coordinator_prefill_chunk_cap _ _) as [err|cap]; [done|]. case_if_in Ep; [done|].
  apply prefill_appends in Ep; [done|lia|done|lia|]. destruct transcript; [done|unfold zlen; cbn; lia].
Qed.
End Replayed.

(** ** The model behind a conversation *)

(** The model over the chunks of a prompt from [pos] on; [span] is the model
    over one chunk behind the tokens before it. *)
Section Chunks.
Context {LC : Type} (span : list Z -> list Z -> (Z -> LC) -> option ((Z -> LC) * list Z)).

Fixpoint chunks_model (chunks : nat) (prompt : list Z) (chunk_cap pos : Z) (layers : Z -> LC) (logits : list Z) : option ((Z -> LC) * list Z) :=
  match chunks with
  | O => None
  | S chunks' =>
      if pos <? zlen prompt then
        let chunk := Z.min (zlen prompt - pos) chunk_cap in
        '(layers, logits) ← span (take (Z.to_nat pos) prompt) (take (Z.to_nat chunk) (drop (Z.to_nat pos) prompt)) layers;
        chunks_model chunks' prompt chunk_cap (pos + chunk) layers logits
      else Some (layers, logits)
  end.

Definition prompt_model (prompt : list Z) (chunk_cap pos : Z) (layers : Z -> LC) (logits : list Z) : option ((Z -> LC) * list Z) :=
  chunks_model (S (length prompt)) prompt chunk_cap pos layers logits.

(** The tokens, layers and logits after a turn.  A prompt that does not go on
    from the tokens starts from the empty layers [none]. *)
Definition turn_model (none : Z -> LC) (chunk : Z) (t : turn) (m : list Z * (Z -> LC) * list Z) : option (list Z * (Z -> LC) * list Z) :=
  let '(toks, layers, logits) := m in
  match t with
  | Say prompt =>
      if negb (length toks =? 0)%nat && bool_decide (take (length toks) prompt = toks) then
        if zlen toks =? zlen prompt then Some m else '(l, g) ← prompt_model prompt chunk (zlen toks) layers logits; Some (prompt, l, g)
      else '(l, g) ← prompt_model prompt chunk 0 none logits; Some (prompt, l, g)
  | Decode token => '(l, g) ← span toks [token] layers; Some (toks ++ [token], l, g)
  end.

Fixpoint turns_model (none : Z -> LC) (chunk : Z) (ts : list turn) (m : list Z * (Z -> LC) * list Z) : option (list Z * (Z -> LC) * list Z) :=
  match ts with
  | [] => Some m
  | t :: ts' => m ← turn_model none chunk t m; turns_model none chunk ts' m
  end.
End Chunks.

(** The tokens a turn ends with, and how many of them are new. *)
Definition turn_tokens (t : turn) (toks : list Z) : list Z := match t with Say prompt => prompt | Decode token => toks ++ [token] end.

Definition turn_new (t : turn) (toks : list Z) : Z :=
  match t with
  | Say prompt => if negb (length toks =? 0)%nat && bool_decide (take (length toks) prompt = toks) then zlen prompt - zlen toks else zlen prompt
  | Decode _ => 1
  end.

Section Conversation.
Context {LC : Type} `{laws : SliceKernelLaws LC} `{Qsort} (e : slice_engine) (tu : dist_tunables) (session_id : Z) (tm : timing) (fuel : nat).
Context (dup : ds4_dist_worker_entry -> Z) (co : ds4_dist_coordinator_state) (d : route_cache) (first : ds4_dist_route_entry) (rest : list ds4_dist_route_entry).
Context (ctx cap prefill_cap : Z) (Hwin : 0 <= tm_window tm) (Hfuel : (length rest < fuel)%nat) (Hready : coordinator_ready e co (rc_plan d) first rest).

(** The job of a span without its request. *)
Definition span_at (prefix tokens : list Z) (reset : bool) : span_job := span_of co (rc_plan d) session_id 0 prefix tokens reset.

(** Every session can start anew, or holds the tokens. *)
Record in_step (reset : bool) (toks : list Z) (layers : Z -> LC) (w : dist_world LC) : Prop := {
  is_state : dw_state w = co;
  is_route : dw_route w = d;
  is_cap : sl_prefill_cap (dw_owner w) = prefill_cap;
  is_owner : local_prepared e co (span_at toks [] reset) ctx cap layers (dw_owner w);
  is_workers : Forall (node_ready (span_at toks [] reset) ctx cap layers (dw_net w)) (pl_entry (rc_plan d)) }.

(** The tokens fit the model, the context and the frames. *)
Record tokens_fit (toks : list Z) (chunk : Z) : Prop := {
  tf_tokens : Forall (fun t => 0 <= t < n_vocab) toks;
  tf_context : zlen toks <= ctx /\ zlen toks <= INT32_MAX;
  tf_chunk : 0 < chunk <= cap;
  tf_model : is_u32 (co_model_id co) /\ is_u64 session_id /\ co_n_layers co <= U32_MAX;
  tf_bits : co_activation_bits co = 32 \/ co_activation_bits co = 16 \/ co_activation_bits co = 8;
  tf_entries : Forall (entry_ok (co_n_layers co)) (pl_entry (rc_plan d));
  tf_room : 92 + 4 * chunk + 4 * (chunk * hc_values) + 4 * n_vocab + zlen (route_bytes (pl_entry (rc_plan d))) + 40 * zlen (pl_entry (rc_plan d)) <= U32_MAX }.

Lemma job_fits all chunk prefix tokens suffix reset request : tokens_fit all chunk -> all = prefix ++ tokens ++ suffix -> 0 < zlen tokens <= chunk -> is_u64 request ->
  job_ok (span_of co (rc_plan d) session_id request prefix tokens reset).
Proof.
  intros [Ht [Hc Hi] Hch (Hm & Hs & Hn) Hb He Hr] -> Hlen Hreq. destruct (cr_local _ _ _ _ _ Hready) as [_ Hl]. rewrite !zlen_app in Hi. pose proof (zlen_nonneg suffix). pose proof hc_values_positive.
  constructor; cbn [span_of jb_model jb_layers jb_session jb_request jb_tokens jb_prefix jb_bits jb_entries]; try done; try lia.
  - by apply Forall_app in Ht as [_ [Ht _]%Forall_app].
  - unfold jb_pos0. cbn. lia.
  - nia.
Qed.

Definition span_model (prefix tokens : list Z) (layers : Z -> LC) : option ((Z -> LC) * list Z) := span_reference co first rest (span_at prefix tokens false) layers.

Lemma eval_span_exact all chunk toks tokens suffix reset layers w l2 logits : in_step reset toks layers w ->
  tokens_fit all chunk -> all = toks ++ tokens ++ suffix -> 0 < zlen tokens <= chunk -> is_u64 (dw_request_id w) ->
  span_model toks tokens layers = Some (l2, logits) ->
  exists w', eval_span e session_id tm fuel tokens (zlen toks) reset w = Some (inr (), w') /\ in_step false (toks ++ tokens) l2 w' /\ is_u64 (dw_request_id w') /\ dw_logits w' = logits.
Proof.
  intros [Hst Hro Hpc Ho Hwk] Hf Hall Hn Hreq Hm. set (jb := span_of co (rc_plan d) session_id (dw_request_id w) toks tokens reset).
  pose proof (job_fits all chunk toks tokens suffix reset (dw_request_id w) Hf Hall Hn Hreq) as Hjb. pose proof (tf_context _ _ Hf) as [Hc _]. rewrite Hall, !zlen_app in Hc. pose proof (zlen_nonneg suffix). pose proof (tf_chunk _ _ Hf).
  destruct (eval_span_job e co (rc_plan d) first rest tm fuel ctx cap Hwin Hfuel Hready session_id (dw_request_id w) toks tokens reset layers (dw_owner w) (dw_net w) l2 logits)
    as (s' & net' & Hev & [Hroom Hloc Hnodes] & _).
  { constructor; [exact Hjb|change (zlen toks + zlen tokens <= ctx); lia|change (zlen tokens <= cap); lia|exact Ho|exact Hwk]. }
  { exact Hm. }
  unfold eval_span. rewrite Hst, Hro. unfold plan_exchange, plan_head. rewrite (cr_plan _ _ _ _ _ Hready). cbn [head].
  unfold send_to_route, addr in Hev. rewrite Hev. cbn [mbind option_bind]. eexists. split; [reflexivity|]. split; [|split; [apply u64_range|done]].
  apply coordinator_span_sizes in Hev. injection Hev as _ Hpc2 _. constructor; cbn; try done. congruence.
Qed.

Lemma take_span (prompt : list Z) pos k : 0 <= pos -> 0 <= k ->
  take (Z.to_nat (pos + k)) prompt = take (Z.to_nat pos) prompt ++ take (Z.to_nat k) (drop (Z.to_nat pos) prompt).
Proof. intros Hp Hk. rewrite Z2Nat.inj_add by done. symmetry. apply take_take_drop. Qed.

Lemma prefill_exact chunks prompt chunk_cap pos fresh layers w l2 logits : tokens_fit prompt chunk_cap -> 0 <= pos <= zlen prompt ->
  in_step (fresh && (pos =? 0)) (take (Z.to_nat pos) prompt) layers w -> is_u64 (dw_request_id w) -> (0 < zlen prompt) ->
  chunks_model span_model chunks prompt chunk_cap pos layers (dw_logits w) = Some (l2, logits) ->
  exists w', prefill_chunks e session_id tm fuel chunks prompt chunk_cap pos fresh w = Some (inr (), w') /\
    in_step false prompt l2 w' /\ is_u64 (dw_request_id w') /\ dw_logits w' = logits.
Proof.
  intros Hf Hpos Hin Hreq Hne. revert pos layers w Hpos Hin Hreq. induction chunks as [|chunks IH]; intros pos layers w Hpos Hin Hreq Hm; [discriminate|].
  cbn [chunks_model prefill_chunks] in *. destruct (Z.ltb_spec pos (zlen prompt)) as [Hlt|Hge].
  - set (k := Z.min (zlen prompt - pos) chunk_cap) in *. pose proof (tf_chunk _ _ Hf) as Hch.
    assert (Hk : (if zlen prompt - pos <? chunk_cap then zlen prompt - pos else chunk_cap) = k) by (unfold k; case_if; bool_prop; lia). rewrite Hk.
    set (tokens := take (Z.to_nat k) (drop (Z.to_nat pos) prompt)) in *.
    assert (Htl : zlen tokens = k) by (unfold tokens, zlen in *; rewrite length_take, length_drop; lia).
    assert (Hpl : zlen (take (Z.to_nat pos) prompt) = pos) by (unfold zlen in *; rewrite length_take; lia).
    destruct (span_model _ tokens layers) as [[l1 lg1]|] eqn:Hs; [|discriminate]. cbn [mbind option_bind] in Hm.
    destruct (eval_span_exact prompt chunk_cap (take (Z.to_nat pos) prompt) tokens (drop (Z.to_nat (pos + k)) prompt) (fresh && (pos =? 0)) layers w l1 lg1 Hin Hf)
      as (w1 & Hev & Hin1 & Hreq1 & Hlg); [|lia|done|done|].
    { rewrite (assoc_L (++)). unfold tokens. rewrite <- take_span by lia. by rewrite take_drop. }
    rewrite Hpl in Hev. rewrite Hev. cbn [mbind option_bind]. apply (IH (pos + k) l1 w1); try done; [lia| |by rewrite Hlg].
    rewrite take_span by lia. rewrite (proj2 (Z.eqb_neq (pos + k) 0)), andb_false_r by lia. exact Hin1.
  - injection Hm as <- <-. assert (pos = zlen prompt) as -> by lia. rewrite (proj2 (Z.eqb_neq _ 0)), andb_false_r in Hin by lia.
    exists w. split; [done|]. split; [|done]. unfold zlen in Hin. by rewrite Nat2Z.id, take_ge in Hin by lia.
Qed.

(** A prompt from scratch. *)
Lemma sync_fresh_exact checkpoint prompt chunk_cap layers w l2 logits :
  match checkpoint with Some cp => (zlen cp <=? zlen prompt) && bool_decide (take (length cp) prompt = cp) = false | None => True end ->
  dist_session_ensure_route (dw_state w) dup (dw_route w) = (inr (), d) ->
  0 < zlen prompt -> dist_coordinator_prefill_chunk_cap tu prefill_cap = inr chunk_cap -> tokens_fit prompt chunk_cap ->
  dist_coordinator_can_pipeline_prefill tu co (rc_plan d) (zlen prompt) chunk_cap = false ->
  in_step true [] layers (set_route d w) -> is_u64 (dw_request_id w) -> prompt_model span_model prompt chunk_cap 0 layers (dw_logits w) = Some (l2, logits) ->
  exists w', ds4_dist_session_sync e tu session_id tm fuel dup checkpoint prompt w = Some (inr (), w') /\
    in_step false prompt l2 w' /\ is_u64 (dw_request_id w') /\ dw_logits w' = logits.
Proof.
  intros Hcp Hroute Hne Hcap Hf Hp Hin Hreq Hm.
  assert (Hs : ds4_dist_session_sync e tu session_id tm fuel dup checkpoint prompt w = or_recover e tu session_id tm fuel dup prompt (dist_coordinator_prefill_prompt e tu session_id tm fuel prompt (set_route d w))).
  { unfold ds4_dist_session_sync. rewrite (proj2 (Z.leb_gt _ _)) by done. rewrite Hroute. destruct checkpoint as [cp|]; [by rewrite Hcp|done]. }
  rewrite Hs. unfold dist_coordinator_prefill_prompt. pose proof (is_cap _ _ _ _ Hin) as Hpc. cbn [dw_owner set_route dw_state dw_route] in *. rewrite Hpc, Hcap. pose proof (is_state _ _ _ _ Hin) as Hst. cbn [set_route dw_state] in Hst. rewrite Hst, Hp.
  destruct (prefill_exact (S (length prompt)) prompt chunk_cap 0 true layers (set_route d w) l2 logits) as (w' & Hpf & Hrest); try done; [lia|].
  rewrite Hpf. by exists w'.
Qed.

(** A prompt that goes on from the tokens the session holds. *)
Lemma sync_extend_exact toks suffix chunk_cap layers w l2 logits : dist_session_ensure_route (dw_state w) dup (dw_route w) = (inr (), d) ->
  0 < zlen toks -> 0 < zlen suffix -> dist_coordinator_prefill_chunk_cap tu prefill_cap = inr chunk_cap -> tokens_fit (toks ++ suffix) chunk_cap ->
  dist_coordinator_can_pipeline_prefill tu co (rc_plan d) (zlen suffix) chunk_cap = false ->
  in_step false toks layers (set_route d w) -> is_u64 (dw_request_id w) -> prompt_model span_model (toks ++ suffix) chunk_cap (zlen toks) layers (dw_logits w) = Some (l2, logits) ->
  exists w', ds4_dist_session_sync e tu session_id tm fuel dup (Some toks) (toks ++ suffix) w = Some (inr (), w') /\
    in_step false (toks ++ suffix) l2 w' /\ is_u64 (dw_request_id w') /\ dw_logits w' = logits.
Proof.
  intros Hroute Hne Hsuf Hcap Hf Hp Hin Hreq Hm. unfold ds4_dist_session_sync. rewrite zlen_app. rewrite (proj2 (Z.leb_gt _ _)) by lia. rewrite Hroute.
  rewrite (proj2 (Z.leb_le _ _)) by lia. rewrite bool_decide_true by by rewrite take_app_length. cbn [andb]. rewrite (proj2 (Z.eqb_neq _ _)) by lia.
  pose proof (is_cap _ _ _ _ Hin) as Hpc. cbn [dw_owner set_route dw_state dw_route] in *. rewrite Hpc, Hcap. pose proof (is_state _ _ _ _ Hin) as Hst. cbn [set_route dw_state] in Hst. rewrite Hst.
  replace (zlen toks + zlen suffix - zlen toks) with (zlen suffix) by lia. rewrite Hp.
  destruct (prefill_exact (S (length (toks ++ suffix))) (toks ++ suffix) chunk_cap (zlen toks) false layers (set_route d w) l2 logits) as (w' & Hpf & Hrest); try done.
  - rewrite zlen_app. lia.
  - unfold zlen. rewrite Nat2Z.id, take_app_length. exact Hin.
  - rewrite zlen_app. lia.
  - rewrite Hpf. by exists w'.
Qed.

(** One token. *)
Lemma eval_exact toks token chunk layers w l2 logits : dist_session_ensure_route (dw_state w) dup (dw_route w) = (inr (), d) ->
  tokens_fit (toks ++ [token]) chunk -> in_step false toks layers (set_route d w) -> is_u64 (dw_request_id w) -> span_model toks [token] layers = Some (l2, logits) ->
  exists w', ds4_dist_session_eval e tu session_id tm fuel dup token w = Some (inr (), w') /\
    in_step false (toks ++ [token]) l2 w' /\ is_u64 (dw_request_id w') /\ dw_logits w' = logits.
Proof.
  intros Hroute Hf Hin Hreq Hm. unfold ds4_dist_session_eval. rewrite Hroute. pose proof (is_owner _ _ _ _ Hin) as [_ Ho]. cbn [dw_owner set_route] in *.
  rewrite (sh_checkpoint _ _ _ _ _ Ho). change (jb_prefix _) with toks.
  destruct (eval_span_exact (toks ++ [token]) chunk toks [token] [] false layers (set_route d w) l2 logits Hin Hf) as (w' & Hev & Hrest); try done.
  { pose proof (tf_chunk _ _ Hf). change (zlen [token]) with 1. lia. }
  cbn [dw_owner set_route]. rewrite Hev. by exists w'.
Qed.

(** ** Conversations *)

Context (chunk : Z) (Hchunk : dist_coordinator_prefill_chunk_cap tu prefill_cap = inr chunk).
Context (Hreset : forall il c, reset_layer il c = Some empty_layer).
Context (Hcurrent : rc_ready d = true /\ rc_generation d = co_generation co).

(** What a conversation has come to: nothing yet, or its tokens. *)
Definition talking (toks : list Z) (layers : Z -> LC) (w : dist_world LC) : Prop :=
  is_u64 (dw_request_id w) /\
  match toks with
  | [] => in_step true [] layers w /\ layers = (fun _ => empty_layer) /\ sl_checkpoint_valid (dw_owner w) = false
  | _ => in_step false toks layers w
  end.

Record turn_fits (t : turn) (toks : list Z) : Prop := {
  tt_tokens : tokens_fit (turn_tokens t toks) chunk;
  tt_room : zlen (turn_tokens t toks) < ctx;
  tt_some : 0 < zlen (turn_tokens t toks);
  tt_unpiped : dist_coordinator_can_pipeline_prefill tu co (rc_plan d) (turn_new t toks) chunk = false;
  tt_decode : match t with Decode _ => toks <> [] | Say _ => True end }.

Fixpoint turns_fit (ts : list turn) (toks : list Z) : Prop :=
  match ts with [] => True | t :: ts' => turn_fits t toks /\ turns_fit ts' (turn_tokens t toks) end.

Lemma resets_always (e' : slice_engine) (s : slice_session LC) : resets e' s.
Proof.
  unfold resets. generalize (layer_range 0 (sg_n_layer e' - 1)). intros ils. generalize (sl_layers s). induction ils as [|il ils IH]; intros l; cbn [reset_layers]; [by exists l|].
  rewrite Hreset. apply IH.
Qed.

(** A conversation can start over. *)
Lemma restart toks layers w : in_step false toks layers w -> in_step true [] (fun _ => empty_layer) w.
Proof.
  intros [Hst Hro Hpc [Hroom Ho] Hwk]. constructor; try done.
  - split; [done|]. cbn. split_and!; [done|apply layers_agree_refl|apply resets_always].
  - rewrite Forall_forall in Hwk |- *. intros ent Hin. destruct (Hwk ent Hin) as (nd & Hnd & Hfit & Hidle & Hp). exists nd. split_and!; try done.
    cbn in Hp |- *. destruct Hp as (ws & Hfind & _ & Hr & _). split_and!; [done|apply layers_agree_refl|].
    exists ws, (nd_state nd). split_and!; [|done|apply resets_always]. unfold dist_worker_get_session_locked. unfold dist_worker_find_session_locked in Hfind. by rewrite Hfind.
Qed.

Lemma ensured (w : dist_world LC) : dw_state w = co -> dw_route w = d -> dist_session_ensure_route (dw_state w) dup (dw_route w) = (inr (), d) /\ set_route d w = w.
Proof.
  intros Hs Hd. destruct Hcurrent as [Hr Hg]. unfold dist_session_ensure_route. rewrite Hs, Hd, Hr, Hg, Z.eqb_refl. split; [done|]. destruct w. cbn in *. by subst.
Qed.

Lemma goes_on (toks prompt : list Z) : toks <> [] ->
  (zlen toks <=? zlen prompt) && bool_decide (take (length toks) prompt = toks) = negb (length toks =? 0)%nat && bool_decide (take (length toks) prompt = toks).
Proof.
  intros Hne. assert (Hl : negb (length toks =? 0)%nat = true) by (by destruct toks). rewrite Hl. cbn [andb]. case_bool_decide as Hp; [|by rewrite andb_false_r].
  rewrite andb_true_r. apply Z.leb_le. rewrite <- Hp. unfold zlen. rewrite length_take. lia.
Qed.

Let sync_model := turn_model (LC := LC) span_model (fun _ => empty_layer) chunk.

(** A prompt that starts over. *)
Lemma say_anew checkpoint prompt layers w l2 logits :
  match checkpoint with Some cp => (zlen cp <=? zlen prompt) && bool_decide (take (length cp) prompt = cp) = false | None => True end ->
  0 < zlen prompt -> tokens_fit prompt chunk -> dist_coordinator_can_pipeline_prefill tu co (rc_plan d) (zlen prompt) chunk = false ->
  in_step true [] layers w -> is_u64 (dw_request_id w) -> prompt_model span_model prompt chunk 0 layers (dw_logits w) = Some (l2, logits) ->
  exists w', ds4_dist_session_sync e tu session_id tm fuel dup checkpoint prompt w = Some (inr (), w') /\ talking prompt l2 w' /\ dw_logits w' = logits.
Proof.
  intros Hcp Hne Hf Hp Hin Hreq Hm. destruct (ensured w (is_state _ _ _ _ Hin) (is_route _ _ _ _ Hin)) as [Hr Hw].
  destruct (sync_fresh_exact checkpoint prompt chunk layers w l2 logits Hcp Hr Hne Hchunk Hf Hp) as (w' & Hs & Hin' & Hreq' & Hlg); try done; [by rewrite Hw|].
  exists w'. split; [done|]. split; [|done]. split; [done|]. by destruct prompt.
Qed.

Lemma owner_syncs toks layers prompt w : talking toks layers w -> 0 < zlen prompt < ctx ->
  owner_sync e tu session_id tm fuel dup prompt w =
  ds4_dist_session_sync e tu session_id tm fuel dup (match toks with [] => None | _ => Some toks end) prompt w.
Proof.
  intros [_ Ht] Hp. unfold owner_sync. rewrite (proj2 (Z.leb_gt _ _)) by lia.
  assert (Hroom : ctx <= sl_ctx_size (dw_owner w)) by (destruct toks; [destruct Ht as [Ht _]|]; apply (is_owner _ _ _ _ Ht)).
  rewrite (proj2 (Z.leb_gt (sl_ctx_size _) _)) by lia. destruct toks as [|t toks]; [by destruct Ht as (_ & _ & ->)|].
  pose proof (is_owner _ _ _ _ Ht) as [_ Ho]. change (jb_reset _) with false in Ho. cbv iota in Ho. by rewrite (sh_valid _ _ _ _ _ Ho), (sh_checkpoint _ _ _ _ _ Ho).
Qed.

Lemma say_exact prompt toks layers w toks2 l2 logits : talking toks layers w -> turn_fits (Say prompt) toks ->
  sync_model (Say prompt) (toks, layers, dw_logits w) = Some (toks2, l2, logits) ->
  exists w', owner_sync e tu session_id tm fuel dup prompt w = Some (inr (), w') /\ toks2 = prompt /\ talking prompt l2 w' /\ dw_logits w' = logits.
Proof.
  intros Ht [Hf Hroom Hne Hp _] Hm. cbn [turn_tokens turn_new sync_model turn_model] in *. rewrite (owner_syncs toks layers prompt w Ht) by lia. destruct Ht as [Hreq Ht].
  destruct toks as [|t toks].
  - cbn [length Nat.eqb negb andb] in *. destruct Ht as (Hin & -> & _). destruct (prompt_model _ _ _ _ _ _) as [[l g]|] eqn:E; [|discriminate]. injection Hm as <- <- <-.
    destruct (say_anew None prompt (fun _ => empty_layer) w l g I Hne Hf Hp Hin Hreq E) as (w' & Hs & Hrest). by exists w'.
  - set (all := t :: toks) in *. rewrite <- goes_on in Hm, Hp by done. destruct (ensured w (is_state _ _ _ _ Ht) (is_route _ _ _ _ Ht)) as [Hr Hw].
    destruct ((zlen all <=? zlen prompt) && _) eqn:Hg; cbn [andb] in *.
    + pose proof Hg as Hg2. apply andb_true_iff in Hg2 as [Hle Hpre]. apply bool_decide_eq_true in Hpre. destruct (Z.eqb_spec (zlen all) (zlen prompt)) as [Heq|Hneq].
      * injection Hm as <- <- <-. exists w. assert (all = prompt) as <- by (rewrite <- Hpre; unfold zlen in Heq; apply take_ge; lia). split; [|done].
        unfold ds4_dist_session_sync. rewrite (proj2 (Z.leb_gt _ _)), Hr, Hg, Z.eqb_refl, Hw by done. done.
      * destruct (prompt_model _ _ _ _ _ _) as [[l g]|] eqn:E; [|discriminate]. injection Hm as <- <- <-.
        assert (Hsplit : prompt = all ++ drop (length all) prompt) by (rewrite <- Hpre at 1; by rewrite take_drop). pose proof (f_equal zlen Hsplit) as Hz. rewrite zlen_app in Hz.
        bool_prop. rewrite Hsplit in Hf, E |- *.
        destruct (sync_extend_exact all (drop (length all) prompt) chunk layers w l g Hr ltac:(done) ltac:(lia) Hchunk Hf) as (w' & Hs & Hin' & Hreq' & Hlg); try done.
        { by replace (zlen (drop (length all) prompt)) with (zlen prompt - zlen all) by lia. }
        { by rewrite Hw. }
        exists w'. done.
    + destruct (prompt_model _ _ _ _ _ _) as [[l g]|] eqn:E; [|discriminate]. injection Hm as <- <- <-.
      destruct (say_anew (Some all) prompt (fun _ => empty_layer) w l g Hg Hne Hf Hp (restart _ _ _ Ht) Hreq E) as (w' & Hs & Hrest). by exists w'.
Qed.

Lemma decode_exact token toks layers w toks2 l2 logits : talking toks layers w -> turn_fits (Decode token) toks ->
  sync_model (Decode token) (toks, layers, dw_logits w) = Some (toks2, l2, logits) ->
  exists w', owner_eval e tu session_id tm fuel dup token w = Some (inr (), w') /\ toks2 = toks ++ [token] /\ talking (toks ++ [token]) l2 w' /\ dw_logits w' = logits.
Proof.
  intros [Hreq Ht] [Hf _ _ _ Hne] Hm. cbn [turn_tokens turn_new sync_model turn_model] in *. destruct (span_model toks [token] layers) as [[l g]|] eqn:E; [|discriminate]. injection Hm as <- <- <-.
  assert (Hin : in_step false toks layers w) by (by destruct toks). destruct (ensured w (is_state _ _ _ _ Hin) (is_route _ _ _ _ Hin)) as [Hr Hw].
  destruct (eval_exact toks token chunk layers w l g Hr Hf) as (w' & Hev & Hin' & Hreq' & Hlg); try done; [by rewrite Hw|].
  exists w'. split; [|split; [done|split; [|done]]].
  - unfold owner_eval. pose proof (is_owner _ _ _ _ Hin) as [_ Ho]. by rewrite (sh_valid _ _ _ _ _ Ho).
  - split; [done|]. by destruct (toks ++ [token]) eqn:Ex; [destruct toks|].
Qed.

Lemma turns_exact ts toks layers w toks2 l2 logits : talking toks layers w -> turns_fit ts toks ->
  turns_model span_model (fun _ => empty_layer) chunk ts (toks, layers, dw_logits w) = Some (toks2, l2, logits) ->
  exists w', run_turns e tu session_id tm fuel dup ts w = Some (inr (), w') /\ talking toks2 l2 w' /\ dw_logits w' = logits.
Proof.
  revert toks layers w. induction ts as [|t ts IH]; intros toks layers w Ht Hf Hm; cbn [turns_model run_turns turns_fit] in *; [injection Hm as <- <- <-; by exists w|].
  destruct Hf as [Hf Hfs]. destruct (turn_model _ _ _ t _) as [[[t1 l1] g1]|] eqn:E; [|discriminate]. cbn [mbind option_bind] in Hm.
  assert (Hturn : exists w1, run_turn e tu session_id tm fuel dup t w = Some (inr (), w1) /\ t1 = turn_tokens t toks /\ talking t1 l1 w1 /\ dw_logits w1 = g1).
  { destruct t as [prompt|token].
    - destruct (say_exact prompt toks layers w t1 l1 g1 Ht Hf E) as (w1 & H1 & -> & H3 & H4). by exists w1.
    - destruct (decode_exact token toks layers w t1 l1 g1 Ht Hf E) as (w1 & H1 & -> & H3 & H4). by exists w1. }
  destruct Hturn as (w1 & Hrun & -> & Ht1 & Hg1). rewrite Hrun. cbn [mbind option_bind]. apply (IH _ _ _ Ht1 Hfs). by rewrite Hg1.
Qed.
End Conversation.

(** ** One machine *)

Section Machine.
Context {LC : Type} `{laws : SliceKernelLaws LC}.

(** All layers of the model over a chunk, one after another. *)
Definition machine_span (n_layers : Z) (prefix tokens : list Z) (layers : Z -> LC) : option ((Z -> LC) * list Z) :=
  h0 ← slice_embed tokens (zlen prefix);
  match slice_run tokens (zlen prefix) 0 (n_layers - 1) layers h0 with
  | (_, None) => None
  | (l, Some h) => logits ← encode_output_head (slice_row h (zlen tokens - 1)); Some (l, logits)
  end.

Lemma transported_full h : map (transported 32) h = h.
Proof. induction h as [|v h IH]; [done|]. cbn [map]. by rewrite IH. Qed.

Lemma slice_run_app tokens pos0 a b c (layers : Z -> LC) h : a <= b -> b < c ->
  slice_run tokens pos0 a c layers h = match slice_run tokens pos0 a b layers h with (l, Some h') => slice_run tokens pos0 (b + 1) c l h' | r => r end.
Proof. intros Hab Hbc. unfold slice_run. rewrite (layer_range_split a b c) by done. apply run_layers_app. Qed.

(** A route of full precision is one run over its layers. *)
Lemma route_run_full (jb : span_job) next l es (layers : Z -> LC) h : jb_bits jb = 32 -> tiles next l es -> es <> [] -> Forall (entry_ok (jb_layers jb)) es ->
  route_run jb es layers h = match slice_run (jb_tokens jb) (jb_pos0 jb) next l layers h with (l', Some h') => Some (l', h') | (_, None) => None end.
Proof.
  intros Hb Ht Hne Hok. revert next layers h Ht. induction Hok as [|x es Hx Hok IH]; intros next layers h Ht; [done|]. pose proof (eo_layers _ _ Hx). cbn [route_run]. rewrite Hb, transported_full.
  destruct es as [|y es].
  - cbn [tiles] in Ht. destruct Ht as [-> ->]. destruct (slice_run _ _ _ _ layers h) as [l1 [h1|]]; done.
  - destruct Ht as (<- & Hlt & Ht). rewrite (slice_run_app _ _ (ro_layer_start x) (ro_layer_end x) l) by lia.
    destruct (slice_run _ _ (ro_layer_start x) (ro_layer_end x) layers h) as [l1 [h1|]]; [|done]. by rewrite (IH ltac:(done) _ l1 h1 Ht).
Qed.

Lemma span_model_full (e : slice_engine) session_id co d first rest prefix tokens (layers : Z -> LC) : coordinator_ready e co (rc_plan d) first rest ->
  Forall (entry_ok (co_n_layers co)) (pl_entry (rc_plan d)) -> co_activation_bits co = 32 ->
  span_model session_id co d first rest prefix tokens layers = machine_span (co_n_layers co) prefix tokens layers.
Proof.
  intros Hc Hok Hb. destruct (cr_local _ _ _ _ _ Hc) as [_ Hl]. unfold span_model, machine_span, span_reference. cbn [span_at span_of jb_tokens jb_bits jb_entries]. change (jb_pos0 _) with (zlen prefix).
  destruct (slice_embed tokens (zlen prefix)) as [h0|]; [|done]. cbn [mbind option_bind].
  pose proof (cr_tiles _ _ _ _ _ Hc) as Ht. assert (Hne : pl_entry (rc_plan d) <> []) by by rewrite (cr_plan _ _ _ _ _ Hc).
  assert (Hlt : co_local_end co < co_n_layers co - 1).
  { rewrite (cr_plan _ _ _ _ _ Hc) in Ht, Hok. pose proof (tiles_head _ _ _ _ Ht) as Hst. apply Forall_cons in Hok as [Hx _]. pose proof (eo_layers _ _ Hx). lia. }
  rewrite (slice_run_app tokens (zlen prefix) 0 (co_local_end co) (co_n_layers co - 1)) by lia.
  destruct (slice_run tokens (zlen prefix) 0 (co_local_end co) layers h0) as [l1 [h1|]]; [|done].
  rewrite (route_run_full (span_at session_id co d prefix tokens false) _ _ _ _ _ Hb Ht Hne Hok). cbn [jb_tokens jb_pos0 span_at span_of jb_prefix].
  destruct (slice_run _ _ _ (co_n_layers co - 1) l1 h1) as [l2 [h2|]]; [|done]. cbn [mbind option_bind]. rewrite Hb, transported_full. by case_if.
Qed.

(** Models that agree over chunks agree over conversations. *)
Lemma chunks_model_ext (f g : list Z -> list Z -> (Z -> LC) -> option ((Z -> LC) * list Z)) : (forall p t l, f p t l = g p t l) ->
  forall n prompt cap pos l lg, chunks_model f n prompt cap pos l lg = chunks_model g n prompt cap pos l lg.
Proof.
  intros Hfg n. induction n as [|n IH]; intros prompt cap pos l lg; [done|]. cbn [chunks_model]. case_if; [|done]. rewrite Hfg.
  destruct (g _ _ l) as [[l1 g1]|]; [|done]. apply IH.
Qed.

Lemma turns_model_ext (f g : list Z -> list Z -> (Z -> LC) -> option ((Z -> LC) * list Z)) none chunk : (forall p t l, f p t l = g p t l) ->
  forall ts m, turns_model f none chunk ts m = turns_model g none chunk ts m.
Proof.
  intros Hfg ts. induction ts as [|t ts IH]; intros m; [done|]. cbn [turns_model]. assert (Ht : turn_model f none chunk t m = turn_model g none chunk t m).
  { destruct m as [[toks l] lg]. destruct t; cbn [turn_model]; [|by rewrite Hfg]. unfold prompt_model. by repeat (case_match; rewrite ?(chunks_model_ext f g Hfg); try done). }
  rewrite Ht. destruct (turn_model g none chunk t m); [apply IH|done].
Qed.
End Machine.

(** ** A planned route *)

Record planned `{Qsort} (e : slice_engine) (dup : ds4_dist_worker_entry -> Z) (co : ds4_dist_coordinator_state) (d : route_cache) : Prop := {
  pn_registry : registry_ok co;
  pn_plan : dist_coordinator_build_route_plan co dup = inr (rc_plan d, rc_generation d);
  pn_cached : rc_ready d = true;
  pn_partial : local_complete co = false;
  pn_local : 0 <= co_local_end co < co_n_layers co;
  pn_dup : forall w, w ∈ co_workers co -> 0 <= dup w;
  pn_control : co_use_control_for_work co = true;
  pn_engine : sg_n_layer e = co_n_layers co /\ sg_is_cpu e = false /\ sg_token_embd e = true;
  pn_head : co_local_can_output_head co = sg_output_head e;
  pn_bound : weights_layers_bound e 0 (co_local_end co) = true }.

Lemma tiles_last (co : ds4_dist_coordinator_state) first rest (can : bool) : (forall i x, (first :: rest) !! i = Some x -> S i = length (first :: rest) ->
  ro_flags x = DS4_DIST_ROUTE_F_OUTPUT_LOGITS \/ can = true) -> asks_logits (List.last rest first) = true \/ can = true.
Proof.
  intros Hx. destruct (Hx (length rest) (List.last rest first)) as [Hf|Hf]; [|done| |by right].
  - clear Hx. revert first. induction rest as [|y rest IH]; intros first; [done|]. rewrite last_cons_default. apply IH.
  - left. unfold asks_logits, has_flag. by rewrite Hf.
Qed.

Lemma planned_ready `{Qsort} e dup co d : planned e dup co d -> exists first rest, coordinator_ready e co (rc_plan d) first rest /\
  Forall (entry_ok (co_n_layers co)) (pl_entry (rc_plan d)) /\ rc_ready d = true /\ rc_generation d = co_generation co.
Proof.
  intros [Hreg Hplan Hcached Hpart Hloc Hdup Hctl Heng Hhead Hb]. pose proof (build_inr co Hreg Hloc dup (rc_plan d) (rc_generation d) Hplan) as (Hgen & Hst & [[Hc _]|[_ (path & Hch & Hpe & Hpb)]]); [congruence|].
  pose proof (chain_tiles co _ _ _ (co_use_control_for_work co) true dup (ro_workers _ Hreg) Hch) as (Ht & Hregp & Hlast). rewrite <- Hpe in Ht.
  pose proof (entries_ok co (co_use_control_for_work co) true dup path Hregp) as Hok. rewrite <- Hpe in Hok.
  assert (Hhd : exists w path', path = w :: path' /\ w ∈ co_workers co) by (destruct Hch; by eauto). destruct Hhd as (w & path' & -> & Hin).
  rewrite Hctl in *. cbn [entries_of andb] in Hpe. eexists _, _. split; [|split; [exact Hok|done]].
  constructor; [exact Hpe|exact Hpb|exact Ht|exact (Hdup w Hin)|done|done|exact Hb|]. rewrite <- Hhead. apply (tiles_last co). intros i x Hx Hlen.
  apply (last_flag co true true dup (w :: path') i x Hregp Hlast Hx). rewrite Hlen. cbn [length]. by rewrite entries_of_length.
Qed.

(** Before a conversation: the owner and the workers can start anew. *)
Record idle_world {LC : Type} `{SliceKernels LC} (e : slice_engine) (session_id ctx cap : Z) (co : ds4_dist_coordinator_state) (d : route_cache) (w : dist_world LC) : Prop := {
  iw_state : dw_state w = co;
  iw_route : dw_route w = d;
  iw_request : is_u64 (dw_request_id w);
  iw_owner : session_room ctx cap (dw_owner w) /\ sl_checkpoint_valid (dw_owner w) = false;
  iw_workers : Forall (node_ready (span_at session_id co d [] [] true) ctx cap (fun _ => empty_layer) (dw_net w)) (pl_entry (rc_plan d)) }.

Section Start.
Context {LC : Type} `{laws : SliceKernelLaws LC} `{Qsort} (e : slice_engine) (tu : dist_tunables) (session_id : Z) (tm : timing) (fuel : nat).
Context (dup : ds4_dist_worker_entry -> Z) (co : ds4_dist_coordinator_state) (d : route_cache) (ctx cap : Z) (chunk : Z) (w : dist_world LC).
Context (Hplan : planned e dup co d) (Hwin : 0 <= tm_window tm) (Hfuel : (length (pl_entry (rc_plan d)) <= fuel)%nat).
Context (Hreset : forall il (c : LC), reset_layer il c = Some empty_layer).
Context (Hchunk : dist_coordinator_prefill_chunk_cap tu (sl_prefill_cap (dw_owner w)) = inr chunk) (Hw : idle_world e session_id ctx cap co d w).

Lemma conversation_run ts : turns_fit tu session_id co d ctx cap chunk ts [] -> exists first rest,
  coordinator_ready e co (rc_plan d) first rest /\ Forall (entry_ok (co_n_layers co)) (pl_entry (rc_plan d)) /\
  forall toks layers logits, turns_model (span_model session_id co d first rest) (fun _ => empty_layer) chunk ts ([], (fun _ => empty_layer), dw_logits w) = Some (toks, layers, logits) ->
  exists w', run_turns e tu session_id tm fuel dup ts w = Some (inr (), w') /\ talking e session_id co d ctx cap (sl_prefill_cap (dw_owner w)) toks layers w' /\ dw_logits w' = logits.
Proof.
  intros Hfit. destruct (planned_ready e dup co d Hplan) as (first & rest & Hready & Hok & Hcur). exists first, rest. split; [done|]. split; [done|]. intros toks layers logits Hm.
  assert (Hf : (length rest < fuel)%nat) by (rewrite (cr_plan _ _ _ _ _ Hready) in Hfuel; cbn [length] in Hfuel; lia).
  destruct Hw as [Hst Hro Hreq [Hroom Hval] Hwk].
  apply (turns_exact e tu session_id tm fuel dup co d first rest ctx cap (sl_prefill_cap (dw_owner w)) Hwin Hf Hready chunk Hchunk Hreset Hcur ts [] (fun _ => empty_layer) w toks layers logits); [|done|done].
  split; [done|]. split; [|done]. constructor; try done. split; [done|]. cbn. split_and!; [done|apply layers_agree_refl|by apply resets_always].
Qed.
End Start.

(** C1: A conversation over a planned route, however its turns extend, rewind or
    decode, ends with the tokens of its last turn in every session and with the
    logits of the model run layer by layer over its tokens, the hidden states
    rounded to the width of the transport at every hop. *)
Theorem distributed_conversation_exact {LC : Type} `{laws : SliceKernelLaws LC} `{Qsort} (e : slice_engine) (tu : dist_tunables) (session_id : Z) (tm : timing)
  (fuel : nat) (dup : ds4_dist_worker_entry -> Z) (co : ds4_dist_coordinator_state) (d : route_cache) (ctx cap chunk : Z) (w : dist_world LC) (ts : list turn) :
  planned e dup co d -> 0 <= tm_window tm -> (length (pl_entry (rc_plan d)) <= fuel)%nat -> (forall il (c : LC), reset_layer il c = Some empty_layer) ->
  dist_coordinator_prefill_chunk_cap tu (sl_prefill_cap (dw_owner w)) = inr chunk -> idle_world e session_id ctx cap co d w ->
  turns_fit tu session_id co d ctx cap chunk ts [] ->
  exists first rest, pl_entry (rc_plan d) = first :: rest /\ forall toks layers logits,
  turns_model (span_model session_id co d first rest) (fun _ => empty_layer) chunk ts ([], (fun _ => empty_layer), dw_logits w) = Some (toks, layers, logits) ->
  exists w', run_turns e tu session_id tm fuel dup ts w = Some (inr (), w') /\ talking e session_id co d ctx cap (sl_prefill_cap (dw_owner w)) toks layers w' /\ dw_logits w' = logits.
Proof.
  intros Hp Hwin Hf Hr Hc Hw Hts. destruct (conversation_run e tu session_id tm fuel dup co d ctx cap chunk w Hp Hwin Hf Hr Hc Hw ts Hts) as (first & rest & Hready & _ & Hrun).
  exists first, rest. split; [exact (cr_plan _ _ _ _ _ Hready)|exact Hrun].
Qed.

(** C2: With hidden states sent at full width, a conversation over a planned
    route gives exactly the logits of one machine that runs all the layers. *)
Theorem distributed_equals_one_machine {LC : Type} `{laws : SliceKernelLaws LC} `{Qsort} (e : slice_engine) (tu : dist_tunables) (session_id : Z) (tm : timing)
  (fuel : nat) (dup : ds4_dist_worker_entry -> Z) (co : ds4_dist_coordinator_state) (d : route_cache) (ctx cap chunk : Z) (w : dist_world LC) (ts : list turn) :
  planned e dup co d -> 0 <= tm_window tm -> (length (pl_entry (rc_plan d)) <= fuel)%nat -> (forall il (c : LC), reset_layer il c = Some empty_layer) ->
  dist_coordinator_prefill_chunk_cap tu (sl_prefill_cap (dw_owner w)) = inr chunk -> idle_world e session_id ctx cap co d w ->
  turns_fit tu session_id co d ctx cap chunk ts [] -> co_activation_bits co = 32 ->
  forall toks layers logits,
  turns_model (machine_span (co_n_layers co)) (fun _ => empty_layer) chunk ts ([], (fun _ => empty_layer), dw_logits w) = Some (toks, layers, logits) ->
  exists w', run_turns e tu session_id tm fuel dup ts w = Some (inr (), w') /\ dw_logits w' = logits.
Proof.
  intros Hp Hwin Hf Hr Hc Hw Hts Hb toks layers logits Hm. destruct (conversation_run e tu session_id tm fuel dup co d ctx cap chunk w Hp Hwin Hf Hr Hc Hw ts Hts) as (first & rest & Hready & Hok & Hrun).
  rewrite <- (turns_model_ext (span_model session_id co d first rest)) in Hm by (intros; by apply (span_model_full e)). destruct (Hrun _ _ _ Hm) as (w' & H1 & _ & H3). by exists w'.
Qed.

(** ** Two workers *)

#[local] Existing Instance Farm.merge_qsort.
#[local] Existing Instance Toy.kernels.
#[local] Existing Instance Toy.laws.

Module Net.
(** A model of four layers: one on the coordinator, three on two workers. *)
Definition engine : slice_engine := SliceEngine false 4 (fun _ => true) true false (bs "Metal") (fun _ => Some (8, 4)).
Definition tunables : dist_tunables := Tunables 0 0 None None true.
Definition timing : timing := Timing (fun _ => 1) (fun _ => 1) (fun _ => 1) 4.
Definition joined (a b : Z) (out : bool) : node (list Z) := Node (WorkerState Toy.engine 7 a b out 16 []) [].
Definition at_ (n : Z) : address := (Farm.host n, 5000).
Definition workers : network (list Z) := <[at_ 1 := joined 1 2 false]> (<[at_ 3 := joined 3 3 true]> ∅).
Definition dup (w : ds4_dist_worker_entry) : Z := we_fd w + 10.
Definition cache : route_cache := snd (dist_session_ensure_route Farm.s dup (RouteCache (Plan [] []) false 0)).
Definition start : dist_world (list Z) := World Farm.s cache 1 Toy.fresh workers [].
Definition turns : list turn := [Say [1; 0]; Decode 1; Say [1; 0; 1; 1; 0]; Say [0; 1]].
Definition run : list turn -> dist_world (list Z) -> outcome := run_turns engine tunables 9 timing 2 dup.

Lemma registry : registry_ok Farm.s.
Proof.
  pose proof (trace_run Farm.ops 0 Farm.s0 (Farm.s0, RouteCache (Plan [] []) false 0) ltac:(done) Farm.ops_ok) as Ht. apply Ht.
  constructor; cbn; try done. constructor; [done|constructor|constructor].
Qed.

Lemma plan_ok : planned engine dup Farm.s cache.
Proof.
  constructor; try done; [exact registry|]. intros w Hw.
  assert (Hf : Forall (fun w => 0 <= dup w) (co_workers Farm.s)) by (vm_compute; repeat constructor; discriminate). rewrite Forall_forall in Hf. by apply Hf.
Qed.

Lemma start_ok : idle_world engine 9 16 8 Farm.s cache start.
Proof.
  constructor; [done|done|done|by split|].
  - assert (He : pl_entry (rc_plan cache) = [RouteEntry (Farm.host 1) 5000 1 2 0 11; RouteEntry (Farm.host 3) 5000 3 3 1 (-1)]) by (vm_compute; reflexivity). rewrite He.
    assert (Hg : forall nd ent, workers !! addr ent = Some nd -> worker_fits 7 4 16 ent (nd_state nd) -> nd_forwarders nd = [] -> wo_engine (nd_state nd) = Toy.engine -> wo_sessions (nd_state nd) = [] -> wo_ctx_size (nd_state nd) = 16 ->
      node_ready (span_at 9 Farm.s cache [] [] true) 16 8 (fun _ => empty_layer) workers ent).
    { intros nd ent Hnd Hfit Hfw Heng Hs Hcx. exists nd. split_and!; [done|exact Hfit|by rewrite Hfw|]. cbn. split_and!; [done|apply layers_agree_refl|].
      eexists _, _. unfold dist_worker_get_session_locked. rewrite Hs, Heng, Hcx. split_and!; [reflexivity|by constructor|by apply resets_always]. }
    constructor; [|constructor; [|constructor]]; eapply Hg; try (vm_compute; reflexivity); by constructor.
Qed.

Lemma turns_ok : turns_fit tunables 9 Farm.s cache 16 8 8 turns [].
Proof.
  assert (He : Forall (entry_ok 4) (pl_entry (rc_plan cache))).
  { destruct (planned_ready engine dup Farm.s cache plan_ok) as (? & ? & _ & Hok & _). exact Hok. }
  repeat split; try done; try (vm_compute; repeat constructor; discriminate); try exact He; try (left; reflexivity).
Qed.
End Net.

Lemma distributed_conversation_exact_witness : exists w', Net.run Net.turns Net.start = Some (inr (), w') /\ sl_checkpoint (dw_owner w') = [0; 1] /\ zlen (dw_logits w') = 2.
Proof.
  destruct (distributed_conversation_exact Net.engine Net.tunables 9 Net.timing 2 Net.dup Farm.s Net.cache 16 8 8 Net.start Net.turns Net.plan_ok ltac:(done) ltac:(vm_compute; lia)
    ltac:(done) eq_refl Net.start_ok Net.turns_ok) as (first & rest & Hp & Hrun).
  assert (Hfr : first = RouteEntry (Farm.host 1) 5000 1 2 0 11 /\ rest = [RouteEntry (Farm.host 3) 5000 3 3 1 (-1)]) by (vm_compute in Hp; injection Hp as <- <-; done). destruct Hfr as [-> ->].
  edestruct Hrun as (w' & Hr & [_ Ht] & Hl); [vm_compute; reflexivity|]. exists w'. split; [exact Hr|]. split; [|by rewrite Hl].
  exact (sh_checkpoint _ _ _ _ _ (proj2 (is_owner _ _ _ _ _ _ _ _ _ _ _ Ht))).
Defined.

Lemma distributed_equals_one_machine_witness : exists w', Net.run Net.turns Net.start = Some (inr (), w') /\ zlen (dw_logits w') = 2.
Proof.
  edestruct (distributed_equals_one_machine Net.engine Net.tunables 9 Net.timing 2 Net.dup Farm.s Net.cache 16 8 8 Net.start Net.turns Net.plan_ok ltac:(done) ltac:(vm_compute; lia)
    ltac:(done) eq_refl Net.start_ok Net.turns_ok eq_refl) as (w' & Hr & Hl); [vm_compute; reflexivity|]. exists w'. split; [exact Hr|by rewrite Hl].
Defined.

(** ** A decode that fails behind the coordinator *)

(** C18: A decode that the owner's own layers carry out and that fails behind them
    is repaired with the token in the transcript twice - the owner's layers have
    put it behind the checkpoint, and the checkpoint the transcript starts from is
    that same vector - and if the repair succeeds, so does the decode, with the
    owner's session at the tokens and then twice the new one. *)
Theorem failed_decode_replays_token_twice {LC : Type} `{SliceKernels LC} `{Qsort} (e : slice_engine) (tu : dist_tunables) (session_id : Z) (tm : timing)
  (fuel : nat) (dup : ds4_dist_worker_entry -> Z) (token code : Z) (msg : bytes) (w w1 : dist_world LC) (first : ds4_dist_route_entry)
  (o : option (list Z) * option (list Z)) (s1 : slice_session LC) :
  let toks := sl_checkpoint (dw_owner w) in
  dist_session_ensure_route (dw_state w) dup (dw_route w) = (inr (), dw_route w) ->
  u64 (u64 (1 * hc_values) * 4) <= U32_MAX -> plan_head (rc_plan (dw_route w)) = Some first -> 0 <= ro_fd first ->
  session_eval_layer_slice e (dw_owner w) [token] (zlen toks) (co_local_start (dw_state w)) (co_local_end (dw_state w)) None true false = (inr o, s1) ->
  eval_span e session_id tm fuel [token] (zlen toks) false w = Some (inl (code, msg), w1) ->
  ds4_dist_session_eval e tu session_id tm fuel dup token w = recover e tu session_id tm fuel dup (toks ++ [token; token]) code w1 /\
  forall w', ds4_dist_session_eval e tu session_id tm fuel dup token w = Some (inr (), w') -> sl_checkpoint (dw_owner w') = toks ++ [token; token].
Proof.
  intros toks Hr Hb Hp Hfd Hl Hev. assert (Heq : ds4_dist_session_eval e tu session_id tm fuel dup token w = recover e tu session_id tm fuel dup (toks ++ [token; token]) code w1).
  { assert (Hw1 : sl_checkpoint (dw_owner w1) = toks ++ [token]).
    { pose proof Hev as Hev'. unfold eval_span in Hev'. destruct (dist_coordinator_eval_span _ _ _ _ _ _ _ _ _ _ _) as [[[[err|lg] s'] net']|] eqn:E in Hev'; cbn in Hev'; try done.
      injection Hev' as _ <-. apply (coordinator_span_local _ _ _ _ _ s1 _ _ _ _ _ _ first o) in E; [|done..]. subst s'.
      pose proof (slice_timeline e (dw_owner w) [token] (zlen toks) (co_local_start (dw_state w)) (co_local_end (dw_state w)) None true false) as Ht. rewrite Hl in Ht. apply Ht. }
    unfold ds4_dist_session_eval. rewrite Hr. assert (Hw : set_route (dw_route w) w = w) by (by destruct w). rewrite Hw. fold toks. rewrite Hev. cbn [mbind option_bind].
    by rewrite Hw1, <- (assoc_L (++)). }
  split; [exact Heq|]. intros w' Hw'. rewrite Heq in Hw'. apply recover_replays in Hw'; [done|]. intros Hnil. by apply app_nil in Hnil as [_ ?].
Qed.

(** A worker that has restarted: the decode of one token is answered, and every
    session then holds it twice. *)
Lemma failed_decode_replays_token_twice_witness :
  exists w, Net.run [Say [1; 0]] Net.start = Some (inr (), w) /\
  let w := World (dw_state w) (dw_route w) (dw_request_id w) (dw_owner w) (<[Net.at_ 3 := Net.joined 3 3 true]> (dw_net w)) (dw_logits w) in
  exists w', ds4_dist_session_eval Net.engine Net.tunables 9 Net.timing 2 Net.dup 1 w = Some (inr (), w') /\ sl_checkpoint (dw_owner w') = [1; 0; 1; 1].
Proof.
  destruct (Net.run [Say [1; 0]] Net.start) as [[r w]|] eqn:E; [|vm_compute in E; discriminate E]. vm_compute in E. injection E as <- <-. eexists. split; [reflexivity|]. intros w.
  destruct (eval_span Net.engine 9 Net.timing 2 [1] 2 false w) as [[r w1]|] eqn:Ev; [|vm_compute in Ev; discriminate Ev].
  destruct r as [[code msg]|]; [|vm_compute in Ev; discriminate Ev].
  destruct (session_eval_layer_slice Net.engine (dw_owner w) [1] 2 (co_local_start (dw_state w)) (co_local_end (dw_state w)) None true false) as [[err|o] s1] eqn:El;
    [vm_compute in El; discriminate El|].
  destruct (plan_head (rc_plan (dw_route w))) as [first|] eqn:Ep; [|vm_compute in Ep; discriminate Ep].
  assert (Hfd : 0 <= ro_fd first) by (vm_compute in Ep; injection Ep as <-; vm_compute; discriminate).
  destruct (failed_decode_replays_token_twice Net.engine Net.tunables 9 Net.timing 2 Net.dup 1 code msg w w1 first o s1 ltac:(vm_compute; reflexivity) ltac:(vm_compute; discriminate) Ep Hfd El Ev) as [_ He].
  destruct (ds4_dist_session_eval Net.engine Net.tunables 9 Net.timing 2 Net.dup 1 w) as [[[x|[]] w']|] eqn:Ed; [vm_compute in Ed; discriminate Ed| |vm_compute in Ed; discriminate Ed].
  exists w'. split; [reflexivity|]. exact (He w' eq_refl).
Defined.
