(* ===== verification/DistPipeline.v ===== *)
(** * Pipelined prefill (src/ds4_distributed.c)

    A long prompt is sent by three threads: the caller computes the coordinator's
    layers chunk by chunk into the slots of a ring, a sender writes the slots to
    the first worker, a reader takes the results.  The threads meet in two
    mutexes with their condition variables and in [shutdown] on the connection.
    Every atomic section is a step; a wait is a step that is not enabled.  What
    the worker answers, and when it hangs up, is arbitrary. *)

From stdpp Require Import gmap.
From S2P Require Import Prelude Libc DistWire DistRoute LayerSlice DistWork DistSession.
#[local] Open Scope Z_scope.
#[local] Open Scope stdpp_scope.

Record ds4_dist_prefill_send_slot := SendSlot {
  sn_pos : Z; sn_n_tokens : Z; sn_request_id : Z; sn_prefix_hash : Z; sn_result_hash : Z; sn_reset_session : bool; sn_ack_only : bool; sn_hidden : list Z }.

(** A result as [dist_recv_result_alloc] gives it. *)
Definition received : Type := (Z * bytes + Z * Z * bytes)%type.

(** Where the caller is: waiting for the window, acquiring a slot, computing,
    enqueueing; and after the loop. *)
Inductive main_at := MWindow | MSlot | MEval | MEnqueue | MClose | MJoinSender | MProgress | MJoinReader | MEnd.
Inductive sender_at := SWait | SSend | SEnd.

Definition dist_prefill_send_depth (env : option bytes) (chunk_count : Z) : Z :=
  let depth :=
    match env with
    | Some s =>
        if negb (cget s 0 =? 0) then
          match strtol s with
          | Some (v, rest, erange) => if negb erange && (cget rest 0 =? 0) && (1 <=? v) && (v <=? 8) then v else 2
          | None => 2
          end
        else 2
    | None => 2
    end in
  let depth := if negb (chunk_count =? 0) && (chunk_count <? depth) then chunk_count else depth in
  if negb (depth =? 0) then depth else 1.

Section Pipeline.
Context {LC : Type} `{SliceKernels LC} (e : slice_engine) (co : ds4_dist_coordinator_state) (plan : ds4_dist_route_plan).
(** The arguments of the call, and what it computes before its threads start. *)
Context (prompt : list Z) (span_start n_tokens : Z) (reset_first_chunk ack_disabled : bool) (chunk_cap session_id first_request flow_window slot_count : Z).

Definition span_end : Z := span_start + n_tokens.
Definition chunk_count : Z := u32 (n_tokens + chunk_cap - 1) / chunk_cap.

(** The loop over the expected hashes. *)
Fixpoint expected_from (chunks : nat) (hash hash_pos : Z) : list Z :=
  match chunks with
  | O => []
  | S chunks' =>
      let remaining := span_end - hash_pos in
      let chunk := if remaining <? chunk_cap then remaining else chunk_cap in
      let hash := dist_token_hash_update_span hash (take (Z.to_nat chunk) (drop (Z.to_nat hash_pos) prompt)) in
      hash :: expected_from chunks' hash (hash_pos + chunk)
  end.

Definition expected_hashes : list Z :=
  expected_from (Z.to_nat chunk_count) (dist_token_hash_prefix (take (Z.to_nat span_start) prompt)) span_start.

Record pipe := Pipe {
  (* the caller *)
  pp_main : main_at; pp_owner : slice_session LC; pp_pos : Z; pp_request_id : Z; pp_next_hash : Z; pp_submitted : Z; pp_err : option bytes;
  (* the ring *)
  pp_slots : list ds4_dist_prefill_send_slot; pp_head : Z; pp_tail : Z; pp_queued : Z; pp_producer_done : bool; pp_stop : bool; pp_sender_err : option bytes;
  pp_sender : sender_at;
  (* the connection: frames written, results to read, how many came *)
  pp_open : bool; pp_sent : list bytes; pp_answers : list received; pp_answered : Z;
  (* the reader *)
  pp_reading : bool; pp_index : Z; pp_completed : Z; pp_done : bool; pp_reader_err : option (Z * bytes); pp_final : option (Z * bytes) }.

Definition start (owner : slice_session LC) (blank : ds4_dist_prefill_send_slot) : pipe :=
  Pipe MWindow owner span_start first_request (dist_token_hash_prefix (take (Z.to_nat span_start) prompt)) 0 None
    (replicate (Z.to_nat slot_count) blank) 0 0 0 false false None SWait true [] [] 0 true 0 0 false None None.

(** Updates of a thread's own part and of the shared ones. *)
Definition to_main (at_ : main_at) (s : pipe) : pipe :=
  Pipe at_ (pp_owner s) (pp_pos s) (pp_request_id s) (pp_next_hash s) (pp_submitted s) (pp_err s) (pp_slots s) (pp_head s) (pp_tail s) (pp_queued s)
    (pp_producer_done s) (pp_stop s) (pp_sender_err s) (pp_sender s) (pp_open s) (pp_sent s) (pp_answers s) (pp_answered s) (pp_reading s) (pp_index s) (pp_completed s)
    (pp_done s) (pp_reader_err s) (pp_final s).
Definition main_fails (err : bytes) (s : pipe) : pipe :=
  Pipe MClose (pp_owner s) (pp_pos s) (pp_request_id s) (pp_next_hash s) (pp_submitted s) (Some err) (pp_slots s) (pp_head s) (pp_tail s) (pp_queued s)
    (pp_producer_done s) (pp_stop s) (pp_sender_err s) (pp_sender s) (pp_open s) (pp_sent s) (pp_answers s) (pp_answered s) (pp_reading s) (pp_index s) (pp_completed s)
    (pp_done s) (pp_reader_err s) (pp_final s).
Definition set_owner (owner : slice_session LC) (s : pipe) : pipe :=
  Pipe (pp_main s) owner (pp_pos s) (pp_request_id s) (pp_next_hash s) (pp_submitted s) (pp_err s) (pp_slots s) (pp_head s) (pp_tail s) (pp_queued s)
    (pp_producer_done s) (pp_stop s) (pp_sender_err s) (pp_sender s) (pp_open s) (pp_sent s) (pp_answers s) (pp_answered s) (pp_reading s) (pp_index s) (pp_completed s)
    (pp_done s) (pp_reader_err s) (pp_final s).
Definition set_slot (i : Z) (slot : ds4_dist_prefill_send_slot) (s : pipe) : pipe :=
  Pipe (pp_main s) (pp_owner s) (pp_pos s) (pp_request_id s) (pp_next_hash s) (pp_submitted s) (pp_err s) (<[Z.to_nat i := slot]> (pp_slots s)) (pp_head s) (pp_tail s) (pp_queued s)
    (pp_producer_done s) (pp_stop s) (pp_sender_err s) (pp_sender s) (pp_open s) (pp_sent s) (pp_answers s) (pp_answered s) (pp_reading s) (pp_index s) (pp_completed s)
    (pp_done s) (pp_reader_err s) (pp_final s).
Definition set_flags (producer_done stop open : bool) (s : pipe) : pipe :=
  Pipe (pp_main s) (pp_owner s) (pp_pos s) (pp_request_id s) (pp_next_hash s) (pp_submitted s) (pp_err s) (pp_slots s) (pp_head s) (pp_tail s) (pp_queued s)
    producer_done stop (pp_sender_err s) (pp_sender s) open (pp_sent s) (pp_answers s) (pp_answered s) (pp_reading s) (pp_index s) (pp_completed s)
    (pp_done s) (pp_reader_err s) (pp_final s).
Definition shutdown (s : pipe) : pipe := set_flags (pp_producer_done s) (pp_stop s) false s.
Definition to_sender (at_ : sender_at) (err : option bytes) (s : pipe) : pipe :=
  Pipe (pp_main s) (pp_owner s) (pp_pos s) (pp_request_id s) (pp_next_hash s) (pp_submitted s) (pp_err s) (pp_slots s) (pp_head s) (pp_tail s) (pp_queued s)
    (pp_producer_done s) (pp_stop s) err at_ (pp_open s) (pp_sent s) (pp_answers s) (pp_answered s) (pp_reading s) (pp_index s) (pp_completed s)
    (pp_done s) (pp_reader_err s) (pp_final s).
Definition set_reader (reading : bool) (index completed : Z) (done : bool) (err : option (Z * bytes)) (final : option (Z * bytes)) (s : pipe) : pipe :=
  Pipe (pp_main s) (pp_owner s) (pp_pos s) (pp_request_id s) (pp_next_hash s) (pp_submitted s) (pp_err s) (pp_slots s) (pp_head s) (pp_tail s) (pp_queued s)
    (pp_producer_done s) (pp_stop s) (pp_sender_err s) (pp_sender s) (pp_open s) (pp_sent s) (pp_answers s) (pp_answered s) reading index completed done err final.
Definition set_answers (answers : list received) (answered : Z) (s : pipe) : pipe :=
  Pipe (pp_main s) (pp_owner s) (pp_pos s) (pp_request_id s) (pp_next_hash s) (pp_submitted s) (pp_err s) (pp_slots s) (pp_head s) (pp_tail s) (pp_queued s)
    (pp_producer_done s) (pp_stop s) (pp_sender_err s) (pp_sender s) (pp_open s) (pp_sent s) answers answered (pp_reading s) (pp_index s) (pp_completed s)
    (pp_done s) (pp_reader_err s) (pp_final s).

Definition sender_stopped (s : pipe) : bytes := default (bs "distributed prefill sender stopped") (pp_sender_err s).
Definition sender_failed (s : pipe) : bool := match pp_sender_err s with Some _ => true | None => false end.

(** How many tokens the chunk at the caller's position has. *)
Definition chunk_at (pos : Z) : Z := let remaining := span_end - pos in if remaining <? chunk_cap then remaining else chunk_cap.

(** *** The caller *)

Definition dist_prefill_reader_wait_flow_window (s : pipe) : option pipe :=
  if span_end <=? pp_pos s then Some (to_main MClose s)
  else if flow_window =? 0 then Some (to_main MSlot s)
  else
    let has_room := pp_submitted s <? u32 (pp_completed s + flow_window) in
    if pp_done s || has_room then Some (if negb (pp_done s) && has_room then to_main MSlot s else main_fails (bs "distributed prefill result reader stopped") s)
    else None.

Definition dist_prefill_sender_acquire_slot (s : pipe) : option pipe :=
  if negb (pp_stop s) && (pp_queued s =? slot_count) then None
  else Some (if pp_stop s || sender_failed s then main_fails (sender_stopped s) s else to_main MEval s).

(** The coordinator's layers on a chunk, and the slot for the sender. *)
Definition chunk_slot (pos request_id next_hash index : Z) (owner : slice_session LC) : (bytes + ds4_dist_prefill_send_slot) * slice_session LC :=
  let chunk := chunk_at pos in
  let first := reset_first_chunk && (pos =? span_start) in
  let '(failed, owner) := if first then session_layer_slice_reset e owner else (None, owner) in
  match failed with
  | Some err => (inl err, owner)
  | None =>
      let '(out, owner) := session_eval_layer_slice e owner (take (Z.to_nat chunk) (drop (Z.to_nat pos) prompt)) pos (co_local_start co) (co_local_end co) None true false in
      match out with
      | inl err => (inl err, owner)
      | inr (hidden, _) =>
          (inr (SendSlot pos chunk request_id next_hash (nth (Z.to_nat index) expected_hashes 0) first (negb ack_disabled && (pos + chunk <? span_end)) (default [] hidden)), owner)
      end
  end.

(** The slot at the tail is written while nobody holds the mutex. *)
Definition prefill_eval_chunk (s : pipe) : pipe :=
  let '(out, owner) := chunk_slot (pp_pos s) (pp_request_id s) (pp_next_hash s) (pp_submitted s) (pp_owner s) in
  match out with
  | inl err => main_fails err (set_owner owner s)
  | inr slot => to_main MEnqueue (set_slot (pp_tail s) slot (set_owner owner s))
  end.

Definition dist_prefill_sender_enqueue_slot (s : pipe) : pipe :=
  if pp_stop s || sender_failed s then main_fails (sender_stopped s) s
  else
    Pipe MWindow (pp_owner s) (pp_pos s + chunk_at (pp_pos s)) (u64 (pp_request_id s + 1)) (nth (Z.to_nat (pp_submitted s)) expected_hashes 0) (pp_submitted s + 1) (pp_err s)
      (pp_slots s) (pp_head s) ((pp_tail s + 1) mod slot_count) (pp_queued s + 1) (pp_producer_done s) (pp_stop s) (pp_sender_err s) (pp_sender s) (pp_open s) (pp_sent s)
      (pp_answers s) (pp_answered s) (pp_reading s) (pp_index s) (pp_completed s) (pp_done s) (pp_reader_err s) (pp_final s).

(** [dist_prefill_sender_finish] or [dist_prefill_sender_cancel]. *)
Definition prefill_close (s : pipe) : pipe :=
  to_main MJoinSender (match pp_err s with None => set_flags true (pp_stop s) (pp_open s) s | Some _ => set_flags true true false s end).

Definition prefill_join_sender (s : pipe) : option pipe :=
  match pp_sender s with
  | SEnd =>
      let s := match pp_err s, pp_sender_err s with None, Some err => main_fails err s | _, _ => s end in
      Some (match pp_err s with Some _ => to_main MJoinReader (shutdown s) | None => to_main MProgress s end)
  | _ => None
  end.

(** The progress is reported until the reader is done. *)
Definition dist_prefill_reader_wait_emit_progress (s : pipe) : option pipe := if pp_done s then Some (to_main MJoinReader s) else None.

Definition main_step (s : pipe) : option pipe :=
  match pp_main s with
  | MWindow => dist_prefill_reader_wait_flow_window s
  | MSlot => dist_prefill_sender_acquire_slot s
  | MEval => Some (prefill_eval_chunk s)
  | MEnqueue => Some (dist_prefill_sender_enqueue_slot s)
  | MClose => Some (prefill_close s)
  | MJoinSender => prefill_join_sender s
  | MProgress => dist_prefill_reader_wait_emit_progress s
  | MJoinReader => if pp_reading s then None else Some (to_main MEnd s)
  | MEnd => None
  end.

(** *** The sender *)

Definition slot_frame (slot : ds4_dist_prefill_send_slot) : bytes + bytes :=
  dist_coordinator_send_remote_work co plan (take (Z.to_nat (sn_n_tokens slot)) (drop (Z.to_nat (sn_pos slot)) prompt)) (sn_pos slot) session_id (sn_request_id slot)
    (sn_prefix_hash slot) (sn_result_hash slot) (sn_reset_session slot) (sn_ack_only slot) (sn_hidden slot) (u32 (sn_n_tokens slot * hc_values * 4)).

Definition sender_fails (err : bytes) (s : pipe) : pipe := to_sender SEnd (Some err) (set_flags (pp_producer_done s) true false s).

(** [ok]: whether the write succeeds. *)
Definition sender_step (ok : bool) (s : pipe) : option pipe :=
  match pp_sender s with
  | SWait =>
      if negb (pp_stop s) && (pp_queued s =? 0) && negb (pp_producer_done s) then None
      else Some (to_sender (if pp_stop s || (pp_queued s =? 0) && pp_producer_done s then SEnd else SSend) (pp_sender_err s) s)
  | SSend =>
      match pp_slots s !! Z.to_nat (pp_head s) with
      | None => None
      | Some slot =>
          Some (match slot_frame slot with
                | inl err => sender_fails err s
                | inr frame =>
                    if negb (ok && pp_open s) then sender_fails (bs "failed to send distributed work") s
                    else
                      Pipe (pp_main s) (pp_owner s) (pp_pos s) (pp_request_id s) (pp_next_hash s) (pp_submitted s) (pp_err s) (pp_slots s) ((pp_head s + 1) mod slot_count) (pp_tail s)
                        (pp_queued s - 1) (pp_producer_done s) (pp_stop s) (pp_sender_err s) SWait (pp_open s) (pp_sent s ++ [frame]) (pp_answers s) (pp_answered s)
                        (pp_reading s) (pp_index s) (pp_completed s) (pp_done s) (pp_reader_err s) (pp_final s)
                end)
      end
  | SEnd => None
  end.

(** *** The reader *)

Definition reader_signal (completed : Z) (done : bool) (s : pipe) : Z * bool := (Z.max (pp_completed s) completed, pp_done s || done).

Definition reader_fails (code : Z) (err : bytes) (s : pipe) : pipe :=
  let '(completed, done) := reader_signal (pp_index s) true s in
  shutdown (set_reader false (pp_index s) completed done (Some (code, err)) (pp_final s) s).

Definition allow_hidden : bool := match last (pl_entry plan) with Some final => negb (has_flag (ro_flags final) DS4_DIST_ROUTE_F_OUTPUT_LOGITS) | None => false end.

(** The checks of a result. *)
Definition reader_accepts (i kind payload_bytes : Z) : bool :=
  let remaining := u32 (n_tokens - i * chunk_cap) in
  let chunk := if remaining <? chunk_cap then remaining else chunk_cap in
  let hidden_bytes := u64 (u64 (chunk * hc_values) * 4) in
  let final_chunk := i + 1 =? chunk_count in
  negb final_chunk && (kind =? DS4_DIST_RESULT_ACK) && (payload_bytes =? 0) ||
  (kind =? DS4_DIST_RESULT_LOGITS) && (payload_bytes =? u32 (n_vocab * 4)) ||
  allow_hidden && (hidden_bytes <=? U32_MAX) && (kind =? DS4_DIST_RESULT_HIDDEN_STATE) && (payload_bytes =? hidden_bytes).

Definition reader_takes (r : received) (s : pipe) : pipe :=
  let i := pp_index s in
  match r with
  | inl (code, err) => reader_fails code err s
  | inr (kind, result_hash, payload) =>
      if negb (result_hash =? nth (Z.to_nat i) expected_hashes 0) then reader_fails 1 (bs "distributed pipelined prefill prefix hash mismatch") s
      else if negb (reader_accepts i kind (zlen payload)) then reader_fails 1 (bs "distributed pipelined prefill returned invalid result") s
      else
        let final_chunk := i + 1 =? chunk_count in
        let '(completed, done) := reader_signal (i + 1) final_chunk s in
        set_reader true (i + 1) completed done (pp_reader_err s) (if final_chunk then Some (kind, payload) else pp_final s) s
  end.

(** [lost]: what has come is not read once the connection is shut down. *)
Definition reader_step (lost : bool) (s : pipe) : option pipe :=
  if negb (pp_reading s) then None
  else if chunk_count <=? pp_index s then
    let '(completed, done) := reader_signal chunk_count true s in Some (set_reader false (pp_index s) completed done (pp_reader_err s) (pp_final s) s)
  else
    match pp_answers s with
    | r :: rest => if lost && negb (pp_open s) then Some (reader_fails DS4_DIST_RECV_TRANSPORT_ERROR [] s) else Some (reader_takes r (set_answers rest (pp_answered s) s))
    | [] => if pp_open s then None else Some (reader_fails DS4_DIST_RECV_TRANSPORT_ERROR [] s)
    end.

(** *** Everybody *)

Inductive pipe_event := EvMain | EvSender (ok : bool) | EvReader (lost : bool) | EvAnswer (r : received) | EvHangup.

Definition pipe_step (ev : pipe_event) (s : pipe) : option pipe :=
  match ev with
  | EvMain => main_step s
  | EvSender ok => sender_step ok s
  | EvReader lost => reader_step lost s
  | EvAnswer r => if pp_open s && (pp_answered s <? chunk_count) then Some (set_answers (pp_answers s ++ [r]) (pp_answered s + 1) s) else None
  | EvHangup => if pp_open s then Some (shutdown s) else None
  end.

Fixpoint pipe_run (evs : list pipe_event) (s : pipe) : option pipe :=
  match evs with
  | [] => Some s
  | ev :: evs' => s ← pipe_step ev s; pipe_run evs' s
  end.

(** What the call returns when its threads are joined. *)
Definition prefill_result (s : pipe) : Z * bytes + list Z :=
  match pp_reader_err s, pp_err s with
  | Some (code, err), _ => inl (code, err)
  | None, Some err => inl (1, err)
  | None, None =>
      match pp_final s with
      | Some (kind, payload) =>
          if (kind =? DS4_DIST_RESULT_LOGITS) && (zlen payload =? u32 (n_vocab * 4)) then inr (le_words (Z.to_nat n_vocab) payload)
          else if kind =? DS4_DIST_RESULT_HIDDEN_STATE then
            let last_pos := (chunk_count - 1) * chunk_cap in
            match session_eval_output_head_from_hc e (le_words (Z.to_nat (zlen payload / 4)) payload) (n_tokens - last_pos) with
            | inl err => inl (1, err)
            | inr logits => inr logits
            end
          else inl (1, bs "distributed pipelined prefill did not return a final result")
      | None => inl (1, bs "distributed pipelined prefill did not return a final result")
      end
  end.
End Pipeline.

(** *** The call before its threads *)

(** The window and the number of slots, or why the call does not start. *)
Definition prefill_pipelined_start {LC : Type} `{SliceKernels LC} (tu : dist_tunables) (env_depth : option bytes) (plan : ds4_dist_route_plan) (prompt : list Z) (span_start n_tokens chunk_cap : Z) : bytes + Z * Z :=
  if (zlen prompt <? span_start) || (n_tokens =? 0) || (zlen prompt - span_start <? n_tokens) then inl (bs "invalid distributed pipelined prefill span")
  else
    let count := chunk_count n_tokens chunk_cap in
    if U32_MAX <? u64 (u64 (chunk_cap * hc_values) * 4) then inl (bs "distributed coordinator hidden-state chunk is too large")
    else
      match dist_coordinator_prefill_window tu plan count with
      | inl err => inl err
      | inr window => inr (window, dist_prefill_send_depth env_depth count)
      end.

(** ** Frames in order *)

Section Order.
Context {LC : Type} `{SliceKernels LC} (e : slice_engine) (co : ds4_dist_coordinator_state) (plan : ds4_dist_route_plan).
Context (prompt : list Z) (span_start n_tokens : Z) (reset_first_chunk ack_disabled : bool) (chunk_cap session_id first_request flow_window slot_count : Z) (owner0 : slice_session LC).

(** The caller alone: its first [k] chunks one after another. *)
Definition chunk_pos (k : nat) : Z := span_start + Z.min (Z.of_nat k * chunk_cap) n_tokens.
Definition chunk_hash (k : nat) : Z :=
  match k with
  | O => dist_token_hash_prefix (take (Z.to_nat span_start) prompt)
  | S k' => nth k' (expected_hashes prompt span_start n_tokens chunk_cap) 0
  end.

Fixpoint local_chunks (k : nat) : option (list ds4_dist_prefill_send_slot * slice_session LC) :=
  match k with
  | O => Some ([], owner0)
  | S k' =>
      '(slots, owner) ← local_chunks k';
      match chunk_slot e co prompt span_start n_tokens reset_first_chunk ack_disabled chunk_cap (chunk_pos k') (u64 (first_request + Z.of_nat k')) (chunk_hash k') (Z.of_nat k') owner with
      | (inl _, _) => None
      | (inr slot, owner) => Some (slots ++ [slot], owner)
      end
  end.

Local Abbreviation pipe := (pipe (LC := LC)).
Local Abbreviation frame_of := (slot_frame (LC := LC) co plan prompt session_id).
Local Abbreviation step := (pipe_step e co plan prompt span_start n_tokens reset_first_chunk ack_disabled chunk_cap session_id flow_window slot_count).

Definition looping (s : pipe) : bool := match pp_main s with MWindow | MSlot | MEval | MEnqueue => true | _ => false end.

(** A slot is being filled. *)
Definition filling (s : pipe) : bool := match pp_main s with MEval | MEnqueue => true | _ => false end.
Definition computed (s : pipe) : nat := Z.to_nat (pp_submitted s) + match pp_main s with MEnqueue => 1 | _ => 0 end.

Record ring_ok (s : pipe) : Prop := {
  rg_slots : zlen (pp_slots s) = slot_count;
  rg_queued : pp_queued s = pp_submitted s - zlen (pp_sent s);
  rg_range : 0 <= pp_queued s <= slot_count;
  rg_head : pp_head s = zlen (pp_sent s) mod slot_count;
  rg_tail : pp_tail s = pp_submitted s mod slot_count;
  rg_room : filling s = true -> pp_queued s < slot_count;
  rg_send : pp_sender s = SSend -> 0 < pp_queued s }.

Record caller_ok (s : pipe) : Prop := {
  cl_pos : pp_pos s = chunk_pos (Z.to_nat (pp_submitted s));
  cl_request : pp_request_id s = u64 (first_request + pp_submitted s);
  cl_hash : pp_next_hash s = chunk_hash (Z.to_nat (pp_submitted s));
  cl_err : match pp_main s with MWindow | MSlot | MEval | MEnqueue => pp_err s = None | _ => True end;
  cl_more : match pp_main s with MSlot | MEval | MEnqueue => pp_pos s < span_end span_start n_tokens | _ => True end;
  cl_completed : 0 <= pp_completed s <= chunk_count n_tokens chunk_cap /\ 0 <= pp_index s <= chunk_count n_tokens chunk_cap;
  cl_window : pp_submitted s <= pp_completed s + flow_window /\ (match pp_main s with MSlot | MEval | MEnqueue => pp_submitted s < pp_completed s + flow_window | _ => True end) }.

Record jobs_ok (s : pipe) (jobs : list ds4_dist_prefill_send_slot) (owner : slice_session LC) : Prop := {
  jo_local : local_chunks (computed s) = Some (jobs, owner);
  jo_owner : pp_err s = None -> pp_owner s = owner;
  jo_slots : forall k slot, zlen (pp_sent s) <= Z.of_nat k -> jobs !! k = Some slot -> pp_slots s !! Z.to_nat (Z.of_nat k mod slot_count) = Some slot;
  jo_sent : Forall2 (fun job frame => frame_of job = inr frame) (take (length (pp_sent s)) jobs) (pp_sent s) }.

Definition order_ok (s : pipe) : Prop := ring_ok s /\ caller_ok s /\ exists jobs owner, jobs_ok s jobs owner.

Context (Hslots : 0 < slot_count) (Hwindow : 0 < flow_window) (Hcap : 0 < chunk_cap) (Htokens : 0 < n_tokens) (Hrequest : is_u64 first_request) (Hstart : 0 <= span_start).
Context (Hwide : chunk_count n_tokens chunk_cap + flow_window <= U32_MAX).

Lemma local_length k jobs owner : local_chunks k = Some (jobs, owner) -> length jobs = k.
Proof.
  revert jobs owner. induction k as [|k IH]; intros jobs owner; cbn [local_chunks]; [by intros [= <- <-]|]. destruct (local_chunks k) as [[js o]|]; [|discriminate]. cbn [mbind option_bind].
  destruct (chunk_slot _ _ _ _ _ _ _ _ _ _ _ _ o) as [[err|slot] o']; [discriminate|]. intros [= <- <-]. rewrite length_app, (IH js o eq_refl). cbn. lia.
Qed.

Lemma local_before k jobs owner : local_chunks (S k) = Some (jobs, owner) -> exists slot o, local_chunks k = Some (take k jobs, o) /\ jobs = take k jobs ++ [slot].
Proof.
  cbn [local_chunks]. destruct (local_chunks k) as [[js o]|] eqn:Hk; [|discriminate]. cbn [mbind option_bind].
  destruct (chunk_slot _ _ _ _ _ _ _ _ _ _ _ _ o) as [[err|slot] o']; [discriminate|]. intros [= <- <-]. pose proof (local_length _ _ _ Hk) as Hl.
  exists slot, o. by rewrite take_app_le, take_ge by lia.
Qed.

(** Two chunks that are in the ring together have different slots. *)
Lemma ring_apart a b : 0 <= a -> a < b < a + slot_count -> a mod slot_count <> b mod slot_count.
Proof.
  intros Ha Hb He. assert (Hd : (b - a) mod slot_count = 0) by (rewrite Zminus_mod, He, Z.sub_diag; apply Z.mod_0_l; lia).
  rewrite Z.mod_small in Hd by lia. lia.
Qed.

Lemma mod_index a : 0 <= a mod slot_count < slot_count.
Proof. apply Z.mod_pos_bound. lia. Qed.

(** *** Steps that do not touch the ring *)

(** States that differ in nothing the invariant speaks of but the caller's place
    and its error. *)
Lemma order_moves (s s' : pipe) : order_ok s -> pp_slots s' = pp_slots s -> pp_queued s' = pp_queued s -> pp_submitted s' = pp_submitted s -> pp_sent s' = pp_sent s ->
  pp_head s' = pp_head s -> pp_tail s' = pp_tail s -> (pp_sender s' = SSend -> 0 < pp_queued s) -> pp_pos s' = pp_pos s -> pp_request_id s' = pp_request_id s -> pp_next_hash s' = pp_next_hash s ->
  (pp_completed s <= pp_completed s' <= chunk_count n_tokens chunk_cap /\ 0 <= pp_index s' <= chunk_count n_tokens chunk_cap) ->
  (pp_err s' = pp_err s /\ pp_owner s' = pp_owner s \/ pp_err s' <> None /\ looping s' = false) ->
  (pp_main s' = pp_main s \/ looping s' = false /\ (pp_main s <> MEnqueue \/ pp_err s' <> None) \/
   pp_main s' = MSlot /\ pp_main s = MWindow /\ pp_submitted s < pp_completed s + flow_window /\ pp_pos s < span_end span_start n_tokens \/ pp_main s' = MEval /\ pp_main s = MSlot /\ pp_queued s < slot_count) ->
  order_ok s'.
Proof.
  intros ([R1 R2 R3 R4 R5 R6 R7] & [C1 C2 C3 Ce Cm C4 C5] & (jobs & owner & [J1 J2 J3 J4])) Hsl Hq Hsub Hsent Hh Ht Hsd Hp Hr Hn Hc He Hm. unfold looping, filling in *. split; [|split].
  - constructor; rewrite ?Hsl, ?Hq, ?Hsub, ?Hsent, ?Hh, ?Ht; try done. unfold filling. destruct Hm as [Hm | [(Hm & _) | [(Hm & _) | (_ & _ & Hm)]]]; [by rewrite Hm|by destruct (pp_main s')|by rewrite Hm|done].
  - constructor; rewrite ?Hp, ?Hr, ?Hn, ?Hsub; try done; [| |lia|].
    + destruct He as [[-> _] | [_ He]]; [|by destruct (pp_main s')]. destruct Hm as [-> | [(Hm & _) | [(-> & Hs & _) | (-> & Hs & _)]]]; [done|by destruct (pp_main s')|by rewrite Hs in Ce|by rewrite Hs in Ce].
    + destruct Hm as [-> | [(Hm & _) | [(-> & _ & _ & Hw) | (-> & Hs & _)]]]; [done|by destruct (pp_main s')|done|by rewrite Hs in Cm].
    + split; [lia|]. destruct Hm as [-> | [(Hm & _) | [(-> & _ & Hw & _) | (-> & Hs & _)]]]; [destruct (pp_main s); (done || lia)|by destruct (pp_main s')|lia|rewrite Hs in C5; lia].
  - assert (Hcomp : computed s' = computed s \/ pp_main s = MEnqueue /\ computed s = S (computed s') /\ pp_err s' <> None).
    { unfold computed. rewrite Hsub. destruct Hm as [-> | [(Hm & Hx) | [(-> & Hs & _) | (-> & Hs & _)]]]; [by left| |by left; rewrite Hs|by left; rewrite Hs].
      assert (Hne : (match pp_main s' with MEnqueue => 1 | _ => 0 end = 0)%nat) by by destruct (pp_main s'). rewrite Hne. destruct (pp_main s) eqn:Em; try by left. right. destruct Hx as [Hx|Hx]; [done|]. split_and!; [done|lia|done]. }
    destruct Hcomp as [Hcomp | (Hme & Hcomp & Herr)].
    + exists jobs, owner. constructor; rewrite ?Hcomp, ?Hsl, ?Hsent; try done. intros Hx. destruct He as [[He1 ->] | [He _]]; [|done]. apply J2. by rewrite <- He1.
    + rewrite Hcomp in J1. destruct (local_before _ _ _ J1) as (slot & o & Hloc & Hj). exists (take (computed s') jobs), o.
      assert (Hle : (length (pp_sent s) <= computed s')%nat) by (unfold computed in *; rewrite Hme, Hsub in *; unfold zlen in R2; lia).
      constructor; rewrite ?Hsl, ?Hsent; try done.
      * intros k sl Hk Hl. apply J3; [done|]. apply lookup_take_Some in Hl. apply Hl.
      * rewrite take_take, Nat.min_l by lia. exact J4.
Qed.

(** *** Steps on the ring *)

Lemma fill_ok (s : pipe) slot owner : order_ok s -> pp_main s = MEval ->
  chunk_slot e co prompt span_start n_tokens reset_first_chunk ack_disabled chunk_cap (pp_pos s) (pp_request_id s) (pp_next_hash s) (pp_submitted s) (pp_owner s) = (inr slot, owner) ->
  order_ok (to_main MEnqueue (set_slot (pp_tail s) slot (set_owner owner s))).
Proof.
  intros ([R1 R2 R3 R4 R5 R6 R7] & [C1 C2 C3 Ce Cm C4 C5] & (jobs & own & [J1 J2 J3 J4])) Hm Hslot. unfold filling in R6. rewrite Hm in *. specialize (R6 eq_refl). rewrite (J2 Ce) in Hslot. unfold computed in J1. rewrite Hm, Nat.add_0_r in J1.
  pose proof (local_length _ _ _ J1) as Hlen. pose proof (zlen_nonneg (pp_sent s)) as Hs0.
  assert (Hsub : pp_submitted s = Z.of_nat (Z.to_nat (pp_submitted s))) by lia.
  split; [|split].
  - constructor; cbn; try done. unfold zlen in *. by rewrite length_insert.
  - by constructor.
  - exists (jobs ++ [slot]), owner. constructor; cbn [to_main set_slot set_owner pp_main pp_submitted pp_err pp_owner pp_sent pp_slots].
    + unfold computed. cbn [to_main set_slot set_owner pp_main pp_submitted]. rewrite Nat.add_comm. cbn [Nat.add local_chunks]. rewrite J1. cbn [mbind option_bind]. rewrite <- C1, <- C3, <- Hsub, <- C2, Hslot. done.
    + done.
    + intros k sl Hk Hl. rewrite R5. pose proof (mod_index (Z.of_nat k)). pose proof (mod_index (pp_submitted s)). apply lookup_app_Some in Hl as [Hl | [Hge Hl]].
      * apply lookup_lt_Some in Hl as Hlt. rewrite list_lookup_insert_ne; [by apply J3|]. pose proof (ring_apart (Z.of_nat k) (pp_submitted s)). lia.
      * destruct (k - length jobs)%nat eqn:Ek; [|done]. injection Hl as <-. assert (Z.of_nat k = pp_submitted s) as -> by lia. apply list_lookup_insert_eq. unfold zlen in R1. lia.
    + rewrite take_app_le by (unfold zlen in *; lia). exact J4.
Qed.

Lemma enqueue_ok (s : pipe) : order_ok s -> pp_main s = MEnqueue -> pp_stop s || sender_failed s = false ->
  order_ok (dist_prefill_sender_enqueue_slot prompt span_start n_tokens chunk_cap slot_count s).
Proof.
  intros ([R1 R2 R3 R4 R5 R6 R7] & [C1 C2 C3 Ce Cm C4 C5] & (jobs & own & [J1 J2 J3 J4])) Hm Hok. unfold dist_prefill_sender_enqueue_slot. rewrite Hok. unfold filling in R6. rewrite Hm in *. specialize (R6 eq_refl). rename Cm into Hpos.
  pose proof (zlen_nonneg (pp_sent s)) as Hs0. assert (Hn : Z.to_nat (pp_submitted s + 1) = S (Z.to_nat (pp_submitted s))) by lia.
  split; [|split].
  - constructor; cbn; try done; try lia. rewrite R5, Zplus_mod_idemp_l. done.
  - constructor; cbn; try done; try lia.
    + rewrite Hn, C1. unfold chunk_pos, chunk_at, span_end in *. rewrite C1 in Hpos. unfold chunk_pos in Hpos. rewrite Nat2Z.inj_succ, Z2Nat.id by lia. rewrite Z2Nat.id in Hpos by lia. case_if; bool_prop; nia.
    + rewrite C2. unfold u64. rewrite Zplus_mod_idemp_l. f_equal. lia.
    + by rewrite Hn.
  - exists jobs, own. constructor; try done. unfold computed in *. cbn. rewrite Hm in J1. rewrite Hn. rewrite <- J1. f_equal. lia.
Qed.

Lemma send_ok (s : pipe) slot frame : order_ok s -> pp_sender s = SSend -> pp_slots s !! Z.to_nat (pp_head s) = Some slot -> frame_of slot = inr frame ->
  order_ok (Pipe (pp_main s) (pp_owner s) (pp_pos s) (pp_request_id s) (pp_next_hash s) (pp_submitted s) (pp_err s) (pp_slots s) ((pp_head s + 1) mod slot_count) (pp_tail s)
    (pp_queued s - 1) (pp_producer_done s) (pp_stop s) (pp_sender_err s) SWait (pp_open s) (pp_sent s ++ [frame]) (pp_answers s) (pp_answered s)
    (pp_reading s) (pp_index s) (pp_completed s) (pp_done s) (pp_reader_err s) (pp_final s)).
Proof.
  intros ([R1 R2 R3 R4 R5 R6 R7] & [C1 C2 C3 Ce Cm C4 C5] & (jobs & own & [J1 J2 J3 J4])) Hm Hslot Hframe. specialize (R7 Hm).
  pose proof (local_length _ _ _ J1) as Hlen. pose proof (zlen_nonneg (pp_sent s)) as Hs0. assert (Hsent : zlen (pp_sent s ++ [frame]) = zlen (pp_sent s) + 1) by by rewrite zlen_app.
  assert (Hlt : (length (pp_sent s) < length jobs)%nat) by (rewrite Hlen; unfold computed, zlen in *; lia).
  destruct (lookup_lt_is_Some_2 _ _ Hlt) as [job Hjob]. pose proof (J3 (length (pp_sent s)) job) as Hin. rewrite R4 in Hslot. unfold zlen in Hslot. rewrite Hin in Hslot; [|unfold zlen; lia|done]. injection Hslot as ->.
  split; [|split].
  - constructor; cbn [pp_slots pp_queued pp_submitted pp_sent pp_head pp_tail pp_main pp_sender]; rewrite ?Hsent; try done; try lia.
    by rewrite R4, Zplus_mod_idemp_l.
  - by constructor.
  - exists jobs, own. constructor; cbn; try done.
    + intros k sl Hk. rewrite Hsent in Hk. apply J3. lia.
    + rewrite length_app. cbn [length]. rewrite Nat.add_1_r, (take_S_r _ _ slot) by done. by apply Forall2_app; [|constructor; [|constructor]].
Qed.

(** *** All steps *)

Local Ltac moves s Hsend := apply (order_moves s); try done; try exact Hsend; try (cbn; lia).

Lemma main_step_ok (s s' : pipe) : order_ok s -> main_step e co prompt span_start n_tokens reset_first_chunk ack_disabled chunk_cap flow_window slot_count s = Some s' -> order_ok s'.
Proof.
  intros Hok. pose proof Hok as (HR & HC & _). pose proof (cl_completed _ HC) as Hcc. pose proof (rg_send _ HR) as Hsend. unfold main_step. destruct (pp_main s) eqn:Hm.
  - unfold dist_prefill_reader_wait_flow_window. rewrite (u32_small (pp_completed s + flow_window)) by (unfold is_u32; lia).
    destruct (Z.leb_spec (span_end span_start n_tokens) (pp_pos s)) as [Hp|Hp].
    { intros [= <-]. moves s Hsend; [by left|]. right. left. split; [done|by left; rewrite Hm]. }
    rewrite (proj2 (Z.eqb_neq flow_window 0)) by lia. case_if; [|discriminate]. destruct (negb (pp_done s) && _) eqn:Hw.
    + intros [= <-]. moves s Hsend; [by left|]. right. right. left. bool_prop. done.
    + intros [= <-]. moves s Hsend; [by right|]. right. left. split; [done|by right].
  - unfold dist_prefill_sender_acquire_slot. destruct (negb (pp_stop s) && _) eqn:Hq; [discriminate|]. destruct (pp_stop s || _) eqn:Hst.
    + intros [= <-]. moves s Hsend; [by right|]. right. left. split; [done|by right].
    + intros [= <-]. moves s Hsend; [by left|]. right. right. right. pose proof (rg_range _ HR). destruct (pp_stop s); [done|]. cbn [negb andb] in Hq. apply Z.eqb_neq in Hq. split_and!; [done|done|lia].
  - unfold prefill_eval_chunk. destruct (chunk_slot _ _ _ _ _ _ _ _ _ _ _ _ _) as [[err|slot] owner] eqn:Hs.
    + intros [= <-]. moves s Hsend; [by right|]. right. left. split; [done|by right].
    + intros [= <-]. by apply fill_ok.
  - destruct (pp_stop s || sender_failed s) eqn:Hst; [|intros [= <-]; by apply enqueue_ok]. intros [= <-]. unfold dist_prefill_sender_enqueue_slot. rewrite Hst.
    moves s Hsend; [by right|]. right. left. split; [done|by right].
  - intros [= <-]. unfold prefill_close. destruct (pp_err s) eqn:He; (moves s Hsend; [by left|]; right; left; split; [done|left; by rewrite Hm]).
  - unfold prefill_join_sender. destruct (pp_sender s) eqn:Hsd; [done|done|]. intros [= <-].
    destruct (pp_err s) eqn:He; [|destruct (pp_sender_err s) eqn:Hse]; cbn [pp_err main_fails]; rewrite ?He;
      (moves s Hsend; [cbn; by rewrite ?He, ?Hse, ?Hsd|cbn; rewrite ?He; (by left) || (by right)|right; left; split; [done|left; by rewrite Hm]]).
  - unfold dist_prefill_reader_wait_emit_progress. case_if; [|done]. intros [= <-]. moves s Hsend; [by left|]. right. left. split; [done|left; by rewrite Hm].
  - case_if; [done|]. intros [= <-]. moves s Hsend; [by left|]. right. left. split; [done|left; by rewrite Hm].
  - done.
Qed.

Lemma sender_step_ok ok (s s' : pipe) : order_ok s -> sender_step co plan prompt session_id slot_count ok s = Some s' -> order_ok s'.
Proof.
  intros Hok. pose proof Hok as (HR & HC & _). pose proof (cl_completed _ HC) as Hcc. pose proof (rg_range _ HR) as Hq. pose proof (rg_send _ HR) as Hsend. unfold sender_step. destruct (pp_sender s) eqn:Hsd; [| |done].
  - destruct (negb (pp_stop s) && (pp_queued s =? 0) && negb (pp_producer_done s)) eqn:Hw; [discriminate|]. intros [= <-].
    moves s Hq; [|by left|by left]. cbn. destruct (pp_stop s); [done|]. destruct (Z.eqb_spec (pp_queued s) 0); [|intros _; lia]. by destruct (pp_producer_done s).
  - destruct (pp_slots s !! _) as [slot|] eqn:Hslot; [|discriminate]. intros [= <-]. destruct (frame_of slot) as [err|frame] eqn:Hf; [moves s Hsend; [by left|by left]|].
    case_if; [moves s Hsend; [by left|by left]|]. by apply send_ok with (slot := slot).
Qed.

Lemma reader_step_ok lost (s s' : pipe) : order_ok s -> reader_step plan prompt span_start n_tokens chunk_cap lost s = Some s' -> order_ok s'.
Proof.
  intros Hok. pose proof Hok as (HR & HC & _). pose proof (cl_completed _ HC) as Hcc. pose proof (rg_send _ HR) as Hsend.
  assert (Hfail : forall (s1 : pipe) code err, s1 = s \/ (exists l, s1 = set_answers l (pp_answered s) s) -> order_ok (reader_fails code err s1)).
  { intros s1 code err [-> | [l ->]]; (moves s Hsend; [by left|by left]). }
  unfold reader_step. destruct (pp_reading s); [|discriminate]. cbn [negb]. destruct (Z.leb_spec (chunk_count n_tokens chunk_cap) (pp_index s)) as [Hi|Hi].
  - intros [= <-]. moves s Hsend; [by left|by left].
  - destruct (pp_answers s) as [|r rest]; [case_if; [discriminate|]; intros [= <-]; apply Hfail; by left|]. case_if; intros [= <-]; [apply Hfail; by left|].
    unfold reader_takes. destruct r as [[code err]|[[kind hash] payload]]; [apply Hfail; right; by exists rest|]. case_if; [apply Hfail; right; by exists rest|]. case_if; [apply Hfail; right; by exists rest|].
    moves s Hsend; [by left|by left].
Qed.

Lemma pipe_step_ok ev (s s' : pipe) : order_ok s -> step ev s = Some s' -> order_ok s'.
Proof.
  intros Hok. pose proof Hok as (HR & HC & _). pose proof (cl_completed _ HC) as Hcc. pose proof (rg_send _ HR) as Hsend. destruct ev as [|ok|lost|r|]; cbn [pipe_step].
  - by apply main_step_ok.
  - by apply sender_step_ok.
  - by apply reader_step_ok.
  - case_if; [|discriminate]. intros [= <-]. moves s Hsend; [by left|by left].
  - case_if; [|discriminate]. intros [= <-]. moves s Hsend; [by left|by left].
Qed.

Lemma start_order blank : order_ok (start prompt span_start first_request slot_count owner0 blank).
Proof.
  assert (Hc : 0 <= chunk_count n_tokens chunk_cap) by (unfold chunk_count; apply Z.div_pos; [apply u32_range|lia]).
  split; [|split].
  - constructor; cbn; try done; try lia. unfold zlen. rewrite length_replicate. lia.
  - constructor; cbn; try done; try lia.
    + unfold chunk_pos. cbn. lia.
    + rewrite Z.add_0_r. by rewrite u64_small.
  - exists [], owner0. by constructor.
Qed.

Lemma pipe_run_ok evs (s s' : pipe) : order_ok s -> pipe_run e co plan prompt span_start n_tokens reset_first_chunk ack_disabled chunk_cap session_id flow_window slot_count evs s = Some s' -> order_ok s'.
Proof.
  revert s. induction evs as [|ev evs IH]; intros s Hok; cbn [pipe_run]; [by intros [= <-]|]. destruct (pipe_step _ _ _ _ _ _ _ _ _ _ _ _ ev s) as [s1|] eqn:Hst; [|discriminate].
  cbn [mbind option_bind]. apply IH. by apply (pipe_step_ok ev s).
Qed.

End Order.

(** ** Every call returns *)

Section Returns.
Context {LC : Type} `{SliceKernels LC} (e : slice_engine) (co : ds4_dist_coordinator_state) (plan : ds4_dist_route_plan).
Context (prompt : list Z) (span_start n_tokens : Z) (reset_first_chunk ack_disabled : bool) (chunk_cap session_id first_request flow_window slot_count : Z) (owner0 : slice_session LC).
Context (Hslots : 0 < slot_count) (Hwindow : 0 < flow_window) (Hcap : 0 < chunk_cap) (Htokens : 0 < n_tokens) (Hrequest : is_u64 first_request) (Hstart : 0 <= span_start).
Context (Hwide : chunk_count n_tokens chunk_cap + flow_window <= U32_MAX) (Hsum : n_tokens + chunk_cap - 1 <= U32_MAX).

Local Abbreviation pipe := (pipe (LC := LC)).
Local Abbreviation step := (pipe_step e co plan prompt span_start n_tokens reset_first_chunk ack_disabled chunk_cap session_id flow_window slot_count).
Local Abbreviation order_ok := (order_ok e co plan prompt span_start n_tokens reset_first_chunk ack_disabled chunk_cap session_id first_request flow_window slot_count owner0).
Local Abbreviation count := (chunk_count n_tokens chunk_cap).

Lemma count_spec : count = (n_tokens + chunk_cap - 1) / chunk_cap /\ 0 < count.
Proof.
  assert (Hc : count = (n_tokens + chunk_cap - 1) / chunk_cap) by (unfold chunk_count; rewrite u32_small; [done|unfold is_u32; lia]). split; [done|]. rewrite Hc. apply Z.div_str_pos. lia.
Qed.

Lemma before_end k : 0 <= k -> span_start + Z.min (k * chunk_cap) n_tokens < span_end span_start n_tokens <-> k < count.
Proof.
  destruct count_spec as [-> _]. unfold span_end. intros Hk. pose proof (Z.div_mod (n_tokens + chunk_cap - 1) chunk_cap ltac:(lia)) as Hd. pose proof (Z.mod_pos_bound (n_tokens + chunk_cap - 1) chunk_cap Hcap).
  split; intros Hlt; nia.
Qed.

(** The caller is past its loop and has closed the ring. *)
Definition closed (s : pipe) : bool := match pp_main s with MJoinSender | MProgress | MJoinReader | MEnd => true | _ => false end.
Definition joined (s : pipe) : bool := match pp_main s with MProgress | MJoinReader | MEnd => true | _ => false end.

Record live_ok (s : pipe) : Prop := {
  lv_submitted : 0 <= pp_submitted s <= count /\ (looping s = false -> pp_err s = None -> pp_submitted s = count);
  lv_reader : (pp_reading s = true -> pp_index s = pp_completed s /\ pp_answered s = pp_index s + zlen (pp_answers s)) /\ (pp_reading s = false -> pp_done s = true) /\
              (pp_done s = true -> pp_reading s = false \/ pp_index s = count);
  lv_answered : 0 <= pp_answered s <= count;
  lv_sender : pp_sender s = SEnd -> pp_stop s = true \/ pp_queued s = 0 /\ pp_producer_done s = true;
  lv_failed : pp_sender_err s <> None -> pp_sender s = SEnd /\ pp_stop s = true;
  lv_stop : pp_stop s = true -> pp_open s = false;
  lv_closed : pp_producer_done s = closed s;
  lv_broken : closed s = true -> pp_err s <> None -> pp_open s = false;
  lv_joined : joined s = true -> pp_sender s = SEnd;
  lv_waits : (pp_main s = MProgress -> pp_err s = None) /\ (joined s = true -> pp_err s = None -> pp_sender_err s = None);
  lv_why : pp_stop s = true -> pp_sender_err s <> None \/ pp_err s <> None;
  lv_last : pp_main s = MJoinReader \/ pp_main s = MEnd -> pp_done s = true \/ pp_open s = false;
  lv_end : pp_main s = MEnd -> pp_reading s = false }.

(** Who can go on. *)
Definition can_go (s : pipe) : Prop := exists ev s', (match ev with EvMain | EvSender _ | EvReader _ => True | _ => False end) /\ step ev s = Some s'.

Lemma main_goes (s s' : pipe) : main_step e co prompt span_start n_tokens reset_first_chunk ack_disabled chunk_cap flow_window slot_count s = Some s' -> can_go s.
Proof. intros Hm. by exists EvMain, s'. Qed.

Lemma sender_goes (s : pipe) : order_ok s -> (pp_sender s = SSend \/ pp_sender s = SWait /\ (pp_queued s <> 0 \/ pp_producer_done s = true \/ pp_stop s = true)) -> can_go s.
Proof.
  intros (HR & _) Hs. assert (Hgo : exists s', sender_step co plan prompt session_id slot_count true s = Some s'); [|destruct Hgo as [s' Hgo]; by exists (EvSender true), s'].
  unfold sender_step. destruct Hs as [Hs | [Hs Hw]]; rewrite Hs.
  - pose proof (mod_index slot_count Hslots (zlen (pp_sent s))) as Hi. rewrite <- (rg_head _ _ HR) in Hi. pose proof (rg_slots _ _ HR) as Hl.
    destruct (lookup_lt_is_Some_2 (pp_slots s) (Z.to_nat (pp_head s))) as [slot ->]; [unfold zlen in Hl; lia|]. by eexists.
  - destruct (negb (pp_stop s) && (pp_queued s =? 0) && negb (pp_producer_done s)) eqn:E; [|by eexists]. bool_prop. destruct Hw as [Hw | [Hw | Hw]]; [lia|congruence|congruence].
Qed.

Lemma reader_goes (s : pipe) : pp_reading s = true -> (count <= pp_index s \/ pp_answers s <> [] \/ pp_open s = false) -> can_go s.
Proof.
  intros Hr Hw. assert (Hgo : exists s', reader_step plan prompt span_start n_tokens chunk_cap false s = Some s'); [|destruct Hgo as [s' Hgo]; by exists (EvReader false), s'].
  unfold reader_step. rewrite Hr. cbn [negb andb]. destruct (Z.leb_spec count (pp_index s)); [by eexists|]. destruct Hw as [Hw | [Hw | Hw]]; [lia| |].
  - destruct (pp_answers s); [done|by eexists].
  - rewrite Hw. destruct (pp_answers s); by eexists.
Qed.

(** While the call has not returned, a thread can go on, or the worker owes an
    answer. *)
Lemma never_stuck (s : pipe) : order_ok s -> live_ok s -> pp_main s <> MEnd -> can_go s \/ pp_open s = true /\ pp_answered s < zlen (pp_sent s).
Proof.
  intros Hok [L1 [L2 [L2b L2c]] L3 L4 L5 L6 L7 L8 L9 L10 Lw L11 L12] Hend. pose proof Hok as (HR & HC & _). pose proof (rg_queued _ _ HR) as Hq. pose proof (cl_completed _ _ _ _ _ _ _ HC) as Hcc. pose proof (rg_range _ _ HR) as Hqr.
  assert (Hread : pp_reading s = true -> can_go s \/ pp_open s = true /\ pp_answered s = pp_index s /\ pp_index s = pp_completed s /\ pp_index s < count).
  { intros Hr. destruct (L2 Hr) as [Hi Ha]. destruct (Z_le_gt_dec count (pp_index s)); [left; apply reader_goes; by auto|].
    destruct (pp_answers s) eqn:Ean; [|left; apply reader_goes; [done|right; left; congruence]]. destruct (pp_open s) eqn:Eo; [|left; apply reader_goes; by auto].
    right. change (zlen []) with 0 in Ha. split_and!; try done; lia. }
  unfold closed, joined, looping in *. destruct (pp_main s) eqn:Hm; try done.
  - destruct (main_step e co prompt span_start n_tokens reset_first_chunk ack_disabled chunk_cap flow_window slot_count s) as [s'|] eqn:Hst; [left; by apply (main_goes s s')|].
    unfold main_step in Hst. rewrite Hm in Hst. unfold dist_prefill_reader_wait_flow_window in Hst. case_if_in Hst; [discriminate|]. rewrite (proj2 (Z.eqb_neq flow_window 0)) in Hst by lia.
    rewrite (u32_small (pp_completed s + flow_window)) in Hst by (unfold is_u32; lia). destruct (pp_done s) eqn:Hd; [discriminate|]. cbn [orb] in Hst. destruct (Z.ltb_spec (pp_submitted s) (pp_completed s + flow_window)) as [|Hfull]; [discriminate|].
    destruct (pp_reading s) eqn:Hr; [|by discriminate L2b]. destruct (Hread eq_refl) as [|(Ho & Ha & Hi & Hc)]; [by left|].
    destruct (pp_sender s) eqn:Hsd; [|left; apply sender_goes; by auto|destruct (L4 eq_refl) as [Hs|[_ Hs]]; [rewrite (L6 Hs) in Ho; done|congruence]].
    destruct (Z.eq_dec (pp_queued s) 0); [right; split; [done|lia]|left; apply sender_goes; by auto].
  - destruct (main_step e co prompt span_start n_tokens reset_first_chunk ack_disabled chunk_cap flow_window slot_count s) as [s'|] eqn:Hst; [left; by apply (main_goes s s')|].
    unfold main_step in Hst. rewrite Hm in Hst. unfold dist_prefill_sender_acquire_slot in Hst. destruct (negb (pp_stop s) && _) eqn:Hw in Hst; [|discriminate]. bool_prop.
    left. destruct (pp_sender s) eqn:Hsd; [apply sender_goes; [done|]; right; split; [done|left; lia]|apply sender_goes; by auto|destruct (L4 eq_refl) as [Hs|[_ Hs]]; congruence].
  - left. eapply main_goes. unfold main_step. by rewrite Hm.
  - left. eapply main_goes. unfold main_step. by rewrite Hm.
  - left. eapply main_goes. unfold main_step. by rewrite Hm.
  - left. destruct (pp_sender s) eqn:Hsd; [apply sender_goes; by auto|apply sender_goes; by auto|]. eapply main_goes. unfold main_step. rewrite Hm. unfold prefill_join_sender. by rewrite Hsd.
  - destruct (pp_done s) eqn:Hd; [left; eapply main_goes; unfold main_step; rewrite Hm; unfold dist_prefill_reader_wait_emit_progress; by rewrite Hd|].
    destruct (pp_reading s) eqn:Hr; [|by discriminate L2b]. destruct (Hread eq_refl) as [|(Ho & Ha & Hi & Hc)]; [by left|]. right. split; [done|].
    pose proof (proj1 L10 eq_refl) as He. destruct L1 as [_ L1]. specialize (L1 eq_refl He). destruct (L4 (L9 eq_refl)) as [Hs|[Hz _]]; [rewrite (L6 Hs) in Ho; done|lia].
  - left. destruct (pp_reading s) eqn:Hr; [|eapply main_goes; unfold main_step; rewrite Hm; by rewrite Hr].
    destruct (L11 ltac:(by left)) as [Hd|Ho]; [destruct (L2c Hd) as [|Hi]; [done|]; apply reader_goes; [done|left; lia]|apply reader_goes; by auto].
Qed.

(** *** The steps are bounded *)

Definition main_rank (s : pipe) : Z :=
  match pp_main s with MWindow => 8 | MSlot => 7 | MEval => 6 | MEnqueue => 5 | MClose => 4 | MJoinSender => 3 | MProgress => 2 | MJoinReader => 1 | MEnd => 0 end.
Definition sender_rank (s : pipe) : Z := match pp_sender s with SWait => 2 | SSend => 1 | SEnd => 0 end.
Definition flag (b : bool) : Z := if b then 1 else 0.

(** What is left to do. *)
Definition measure (s : pipe) : Z :=
  5 * (count - pp_submitted s) + main_rank s + 2 * (count - zlen (pp_sent s)) + sender_rank s + (count - pp_index s) + flag (pp_reading s) + (count - pp_answered s) + flag (pp_open s).

Local Ltac live := unfold closed, joined, looping, measure, main_rank, sender_rank, flag in *; cbn in *.

(** The invariant field by field, and the measure. *)
Local Ltac lives Hm :=
  split; [constructor; live; rewrite ?Hm in *; try done; try lia; try (intuition congruence); try naive_solver lia | live; rewrite ?Hm; repeat case_match; lia].

Lemma main_live (s s' : pipe) : order_ok s -> live_ok s -> step EvMain s = Some s' -> live_ok s' /\ measure s' < measure s.
Proof.
  intros Hok [L1 L2 L3 L4 L5 L6 L7 L8 L9 L10 Lw L11 L12]. pose proof Hok as (HR & HC & _). pose proof (cl_completed _ _ _ _ _ _ _ HC) as Hcc. pose proof (cl_pos _ _ _ _ _ _ _ HC) as Hpos. pose proof (cl_err _ _ _ _ _ _ _ HC) as Herr.
  unfold chunk_pos in Hpos. rewrite Z2Nat.id in Hpos by apply L1. pose proof (before_end (pp_submitted s) (proj1 (proj1 L1))) as Hbe. rewrite <- Hpos in Hbe.
  cbn [pipe_step]. unfold main_step. destruct (pp_main s) eqn:Hm.
  - unfold dist_prefill_reader_wait_flow_window. destruct (Z.leb_spec (span_end span_start n_tokens) (pp_pos s)) as [Hp|Hp]; [intros [= <-]; lives Hm|].
    case_if; [intros [= <-]; lives Hm|]. case_if; [|discriminate]. intros [= <-]. destruct (negb _ && _); lives Hm.
  - unfold dist_prefill_sender_acquire_slot. case_if; [discriminate|]. intros [= <-]. case_if; lives Hm.
  - intros [= <-]. unfold prefill_eval_chunk. destruct (chunk_slot _ _ _ _ _ _ _ _ _ _ _ _ _) as [[err|slot] owner]; lives Hm.
  - pose proof (cl_more _ _ _ _ _ _ _ HC) as Hmore. rewrite Hm in Hmore. apply Hbe in Hmore. intros [= <-]. unfold dist_prefill_sender_enqueue_slot. case_if; [lives Hm|].
    pose proof (rg_queued _ _ HR). split; [|live; rewrite ?Hm; lia]. constructor; live; rewrite ?Hm in *; try done; try lia; [|by intros [|]].
    intros Hs. destruct (L4 Hs) as [|[_ Hp]]; [by left|congruence].
  - intros [= <-]. unfold prefill_close. destruct (pp_err s) eqn:He; lives Hm.
  - unfold prefill_join_sender. destruct (pp_sender s) eqn:Hsd; [done|done|]. intros [= <-]. destruct (pp_err s) eqn:He; [|destruct (pp_sender_err s) eqn:Hse]; cbn [pp_err main_fails]; rewrite ?He; lives Hm.
  - unfold dist_prefill_reader_wait_emit_progress. case_if; [|done]. intros [= <-]. lives Hm.
  - destruct (pp_reading s) eqn:Hr; [done|]. intros [= <-]. split; [constructor; live; rewrite ?Hm in *; try done; try lia|live; rewrite ?Hm; repeat case_match; lia].
    all: try (by rewrite Hr). all: try (split; [done|apply L10]). intros _. apply L11. by left.
  - done.
Qed.

Lemma sender_live ok (s s' : pipe) : order_ok s -> live_ok s -> step (EvSender ok) s = Some s' -> live_ok s' /\ measure s' < measure s.
Proof.
  intros Hok [L1 L2 L3 L4 L5 L6 L7 L8 L9 L10 Lw L11 L12]. pose proof Hok as (HR & HC & _). pose proof (rg_queued _ _ HR) as Hq.
  cbn [pipe_step]. unfold sender_step. destruct (pp_sender s) eqn:Hs; [| |done].
  - destruct (negb (pp_stop s) && (pp_queued s =? 0) && negb (pp_producer_done s)) eqn:Hw; [discriminate|]. intros [= <-].
    assert (Hne : pp_sender_err s = None) by (destruct (pp_sender_err s); [destruct L5; done|done]).
    destruct (pp_stop s || (pp_queued s =? 0) && pp_producer_done s) eqn:Hx; (split; [|live; rewrite ?Hs; lia]); constructor; live; try done; try (by rewrite Hne).
    + intros _. destruct (pp_stop s); [by left|]. cbn [orb] in Hx. apply andb_true_iff in Hx as [Hx Hp]. right. split; [by apply Z.eqb_eq|done].
    + intros Hj. specialize (L9 Hj). done.
  - destruct (pp_slots s !! _) as [slot|]; [|discriminate]. intros [= <-].
    assert (Hfail : forall err, live_ok (sender_fails err s) /\ measure (sender_fails err s) < measure s).
    { intros err. split; [|live; rewrite ?Hs; destruct (pp_open s); lia]. constructor; live; try done; try (by left); try (by right).
      split; [apply L10|]. intros Hj. by specialize (L9 Hj). }
    destruct (slot_frame _ _ _ _ slot) as [err|frame]; [apply Hfail|]. case_if; [apply Hfail|]. split; [|live; rewrite ?Hs, zlen_app; change (zlen [frame]) with 1; lia].
    constructor; live; try done.
    + intros Hne. by destruct (L5 Hne).
    + intros Hj. by specialize (L9 Hj).
Qed.

Lemma reader_fails_live code err (s s0 : pipe) : live_ok s -> pp_reading s = true -> s0 = s \/ (exists l, s0 = set_answers l (pp_answered s) s) -> order_ok s ->
  live_ok (reader_fails code err s0) /\ measure (reader_fails code err s0) < measure s.
Proof.
  intros [L1 L2 L3 L4 L5 L6 L7 L8 L9 L10 Lw L11 L12] Hr Hs Hok.
  destruct Hs as [-> | [l ->]]; (split; [|live; rewrite Hr; destruct (pp_open s); lia]); constructor; live; try done; (try by rewrite orb_true_r); (try by left); try (by right);
    (split; [done|split; [by rewrite orb_true_r|by left]]).
Qed.

Lemma reader_live lost (s s' : pipe) : order_ok s -> live_ok s -> step (EvReader lost) s = Some s' -> live_ok s' /\ measure s' < measure s.
Proof.
  intros Hok Hlive. pose proof Hok as (HR & HC & _). pose proof (cl_completed _ _ _ _ _ _ _ HC) as Hcc. pose proof count_spec as [_ Hcount].
  cbn [pipe_step]. unfold reader_step. destruct (pp_reading s) eqn:Hr; [|discriminate]. cbn [negb]. pose proof Hlive as [L1 L2 L3 L4 L5 L6 L7 L8 L9 L10 Lw L11 L12]. destruct (Z.leb_spec count (pp_index s)) as [Hi|Hi].
  - intros [= <-]. split; [|live; rewrite Hr; lia]. constructor; live; try done; (try by rewrite orb_true_r); [|by rewrite orb_true_r; left].
    split; [done|]. split; [by rewrite orb_true_r|by left].
  - assert (Hf : forall code err s0, s0 = s \/ (exists l, s0 = set_answers l (pp_answered s) s) -> live_ok (reader_fails code err s0) /\ measure (reader_fails code err s0) < measure s) by (intros; by apply reader_fails_live).
    destruct (pp_answers s) as [|r rest] eqn:Ha; [case_if; [discriminate|]; intros [= <-]; apply Hf; by left|]. case_if; intros [= <-]; [apply Hf; by left|].
    unfold reader_takes. destruct r as [[code err]|[[kind hash] payload]]; [apply Hf; right; by exists rest|]. case_if; [apply Hf; right; by exists rest|]. case_if; [apply Hf; right; by exists rest|].
    destruct L2 as [L2 [L2b L2c]]. destruct (L2 Hr) as [Hi1 Hi2]. change (zlen (_ :: rest)) with (zlen ([inr (kind, hash, payload)] ++ rest)) in Hi2. rewrite zlen_app in Hi2. change (zlen [_]) with 1 in Hi2.
    assert (Hnd : pp_done s = false) by (apply not_true_iff_false; intros Hd; destruct (L2c Hd); [congruence|lia]).
    split; [|live; rewrite Hr; lia]. constructor; live; try done.
    + rewrite Hnd. cbn [orb]. unfold received in *. split; [intros _; lia|]. split; [done|]. intros He. right. apply Z.eqb_eq in He. lia.
    + intros Hm. destruct (L11 Hm) as [Hd|Ho]; [congruence|by right].
    + intros Hm. specialize (L12 Hm). congruence.
Qed.

Lemma step_live ev (s s' : pipe) : order_ok s -> live_ok s -> step ev s = Some s' -> live_ok s' /\ measure s' < measure s.
Proof.
  intros Hok Hlive. destruct ev as [|ok|lost|r|]; [by apply main_live|by apply sender_live|by apply reader_live| |]; cbn [pipe_step]; destruct Hlive as [L1 L2 L3 L4 L5 L6 L7 L8 L9 L10 Lw L11 L12].
  - destruct (pp_open s) eqn:Ho; [|discriminate]. cbn [andb]. destruct (Z.ltb_spec (pp_answered s) count) as [Hlt|]; [|discriminate]. intros [= <-]. split; [|live; rewrite Ho; lia].
    constructor; live; try done; [|lia|by rewrite Ho|by rewrite Ho|by rewrite Ho]. destruct L2 as [L2 L2b]. split; [|done]. intros Hr. destruct (L2 Hr) as [Hi ->]. rewrite zlen_app. change (zlen [r]) with 1. lia.
  - destruct (pp_open s) eqn:Ho; [|discriminate]. intros [= <-]. split; [|live; rewrite Ho; lia]. constructor; live; try done. intros _. by right.
Qed.

Lemma run_live evs (s s' : pipe) : order_ok s -> live_ok s ->
  pipe_run e co plan prompt span_start n_tokens reset_first_chunk ack_disabled chunk_cap session_id flow_window slot_count evs s = Some s' ->
  order_ok s' /\ live_ok s' /\ measure s' + Z.of_nat (length evs) <= measure s.
Proof.
  revert s. induction evs as [|ev evs IH]; intros s Hok Hl; cbn [pipe_run]; [intros [= <-]; split; [done|]; split; [done|cbn; lia]|]. destruct (pipe_step _ _ _ _ _ _ _ _ _ _ _ _ ev s) as [s1|] eqn:Hst; [|discriminate].
  cbn [mbind option_bind]. intros Hrun. destruct (step_live ev s s1 Hok Hl Hst) as [Hl1 Hlt]. assert (Hok1 : order_ok s1) by by eapply pipe_step_ok.
  destruct (IH s1 Hok1 Hl1 Hrun) as (H1 & H2 & H3). split; [done|]. split; [done|]. cbn [length]. lia.
Qed.

Lemma start_live blank : live_ok (start prompt span_start first_request slot_count owner0 blank).
Proof. pose proof count_spec as [_ Hc]. constructor; cbn; try done; try lia. by intros [|]. Qed.

Lemma measure_nonneg (s : pipe) : order_ok s -> live_ok s -> 0 <= measure s.
Proof.
  intros (HR & HC & _) [L1 L2 L3 _ _ _ _ _ _ _ _ _ _]. pose proof (rg_queued _ _ HR). pose proof (rg_range _ _ HR). pose proof (cl_completed _ _ _ _ _ _ _ HC). live.
  destruct (pp_main s), (pp_sender s), (pp_reading s), (pp_open s); lia.
Qed.
End Returns.

(** ** The results that were taken *)

Section Results.
Context {LC : Type} `{SliceKernels LC} (e : slice_engine) (co : ds4_dist_coordinator_state) (plan : ds4_dist_route_plan).
Context (prompt : list Z) (span_start n_tokens : Z) (reset_first_chunk ack_disabled : bool) (chunk_cap session_id first_request flow_window slot_count : Z).

Local Abbreviation pipe := (pipe (LC := LC)).
Local Abbreviation step := (pipe_step e co plan prompt span_start n_tokens reset_first_chunk ack_disabled chunk_cap session_id flow_window slot_count).
Local Abbreviation run := (pipe_run e co plan prompt span_start n_tokens reset_first_chunk ack_disabled chunk_cap session_id flow_window slot_count).
Local Abbreviation count := (chunk_count n_tokens chunk_cap).

Definition answers_of (ev : pipe_event) : list received := match ev with EvAnswer r => [r] | _ => [] end.
Definition all_answers (evs : list pipe_event) : list received := flat_map answers_of evs.

(** The result of chunk [i]: the hash of the transcript up to its end, and a
    payload of its kind. *)
Definition result_for (i : Z) (r : received) : Prop :=
  exists kind payload, r = inr (kind, nth (Z.to_nat i) (expected_hashes prompt span_start n_tokens chunk_cap) 0, payload) /\ reader_accepts plan n_tokens chunk_cap i kind (zlen payload) = true.

Definition results_ok (taken : list received) : Prop := forall i r, taken !! i = Some r -> result_for (Z.of_nat i) r.

Definition taken_ok (got : list received) (s : pipe) : Prop :=
  exists taken, got = taken ++ pp_answers s /\
  (pp_reader_err s = None -> zlen taken = pp_index s /\ results_ok taken /\
     match pp_final s with Some (kind, payload) => pp_index s = count /\ exists hash, last taken = Some (inr (kind, hash, payload)) | None => True end).

Lemma taken_same got (s s' : pipe) : pp_answers s' = pp_answers s -> pp_reader_err s' = pp_reader_err s -> pp_index s' = pp_index s -> pp_final s' = pp_final s -> taken_ok got s -> taken_ok got s'.
Proof. unfold taken_ok. by intros -> -> -> ->. Qed.

Lemma results_snoc taken r : results_ok taken -> result_for (zlen taken) r -> results_ok (taken ++ [r]).
Proof.
  intros Ht Hr i r' Hl. apply lookup_app_Some in Hl as [Hl | [Hge Hl]]; [by apply Ht|]. destruct (i - length taken)%nat eqn:E; [|done]. injection Hl as <-. by replace (Z.of_nat i) with (zlen taken) by (unfold zlen; lia).
Qed.

Local Ltac same := apply taken_same; by unfold dist_prefill_sender_enqueue_slot, prefill_close; repeat (cbn; case_match).

Lemma taken_failed got code err (s : pipe) : (exists taken, got = taken ++ pp_answers s) -> taken_ok got (reader_fails code err s).
Proof. intros [taken ->]. by exists taken. Qed.

Lemma taken_reader lost got (s s' : pipe) : reader_step plan prompt span_start n_tokens chunk_cap lost s = Some s' -> taken_ok got s -> taken_ok got s'.
Proof.
  intros Hst (taken & -> & Ht). revert Hst. unfold reader_step. destruct (pp_reading s); [|discriminate]. cbn [negb]. destruct (Z.leb_spec count (pp_index s)) as [Hi|Hi].
  - intros [= <-]. by exists taken.
  - destruct (pp_answers s) as [|r rest] eqn:Ha; [case_if; [discriminate|]; intros [= <-]; apply taken_failed; exists taken; by rewrite Ha|].
    case_if; intros [= <-]; [apply taken_failed; exists taken; by rewrite Ha|].
    assert (Hsnoc : taken ++ r :: rest = (taken ++ [r]) ++ rest) by by rewrite <- (assoc_L (++)). rewrite Hsnoc. unfold reader_takes.
    destruct r as [[code err]|[[kind hash] payload]]; [apply taken_failed; by eexists|]. case_if; [apply taken_failed; by eexists|]. case_if; [apply taken_failed; by eexists|]. cbn [set_answers pp_index] in *. bool_prop.
    eexists. split; [reflexivity|]. cbn [set_reader pp_reader_err reader_signal set_answers pp_index pp_final]. intros He. specialize (Ht He) as (Hz & Hr & Hf). rewrite zlen_app, Hz. change (zlen [_]) with 1. split; [done|].
    split; [apply results_snoc; [done|]; rewrite Hz; exists kind, payload; by subst|]. destruct (Z.eqb_spec (pp_index s + 1) count) as [Hc|Hc]; [split; [done|]; exists hash; by rewrite last_snoc|].
    destruct (pp_final s) as [[k p]|]; [lia|done].
Qed.

Lemma taken_step ev got (s s' : pipe) : step ev s = Some s' -> taken_ok got s -> taken_ok (got ++ answers_of ev) s'.
Proof.
  destruct ev as [|ok|lost|r|]; cbn [pipe_step answers_of]; rewrite ?app_nil_r.
  - unfold main_step, dist_prefill_reader_wait_flow_window, dist_prefill_sender_acquire_slot, prefill_join_sender, dist_prefill_reader_wait_emit_progress, prefill_eval_chunk.
    destruct (pp_main s); repeat case_match; try discriminate; intros [= <-]; same.
  - unfold sender_step. repeat case_match; try discriminate; intros [= <-]; same.
  - apply taken_reader.
  - case_if; [|discriminate]. intros [= <-] (taken & -> & Ht). exists taken. split; [by rewrite <- (assoc_L (++))|exact Ht].
  - case_if; [|discriminate]. intros [= <-]. same.
Qed.

Lemma taken_run evs got (s s' : pipe) : run evs s = Some s' -> taken_ok got s -> taken_ok (got ++ all_answers evs) s'.
Proof.
  revert got s. induction evs as [|ev evs IH]; intros got s; cbn [pipe_run]; [intros [= <-]; by rewrite app_nil_r|].
  destruct (pipe_step _ _ _ _ _ _ _ _ _ _ _ _ ev s) as [s1|] eqn:Hst; [|discriminate]. cbn [mbind option_bind]. intros Hrun Ht.
  change (all_answers (ev :: evs)) with (answers_of ev ++ all_answers evs). rewrite (assoc_L (++)). apply (IH _ s1 Hrun). by apply (taken_step ev got s).
Qed.
End Results.

(** ** The whole call *)

Section Call.
Context {LC : Type} `{SliceKernels LC} (e : slice_engine) (co : ds4_dist_coordinator_state) (tu : dist_tunables) (env_depth : option bytes) (plan : ds4_dist_route_plan).
Context (prompt : list Z) (span_start n_tokens : Z) (reset_first_chunk ack_disabled : bool) (chunk_cap session_id first_request window slots : Z) (owner0 : slice_session LC) (blank : ds4_dist_prefill_send_slot).

(** The ranges of the arguments' types. *)
Record call_ok : Prop := {
  ca_start : 0 <= span_start;
  ca_tokens : 0 <= n_tokens;
  ca_cap : 0 < chunk_cap <= INT32_MAX;
  ca_prompt : zlen prompt <= INT32_MAX;
  ca_request : is_u64 first_request;
  ca_window : 0 <= tu_prefill_window tu }.

Context (Hcall : call_ok) (Hbegin : prefill_pipelined_start tu env_depth plan prompt span_start n_tokens chunk_cap = inr (window, slots)).

Local Abbreviation count := (chunk_count n_tokens chunk_cap).
Local Abbreviation run := (pipe_run e co plan prompt span_start n_tokens reset_first_chunk ack_disabled chunk_cap session_id window slots).
Local Abbreviation begun := (start prompt span_start first_request slots owner0 blank).

Lemma tunable_range requested env name v : 0 <= requested -> tunable requested env name = inr v -> 0 <= v.
Proof.
  unfold tunable, dist_parse_positive_u32, strtoul. intros Hr. destruct env as [s|]; [|by intros [= <-]]. case_if; [|by intros [= <-]]. destruct (strtoull s) as [[[w rest] er]|] eqn:Es; [|discriminate].
  apply strtoull_spec in Es as [Hw _]. case_if; [discriminate|]. intros [= <-]. apply Hw.
Qed.

Lemma window_range n w : 0 <= n -> dist_coordinator_prefill_window tu plan n = inr w -> 0 < w <= 64.
Proof.
  unfold dist_coordinator_prefill_window. intros Hn. destruct (tunable _ _ _) as [err|requested] eqn:Et; [discriminate|]. apply tunable_range in Et; [|apply Hcall].
  destruct (Z.ltb_spec 64 requested); [discriminate|]. intros [= <-]. repeat case_if; bool_prop; lia.
Qed.

Lemma depth_range env n : 0 <= n -> 0 < dist_prefill_send_depth env n <= 8.
Proof.
  intros Hn. unfold dist_prefill_send_depth. set (depth := match env with Some _ => _ | None => _ end). assert (Hd : 1 <= depth <= 8).
  { subst depth. destruct env as [s|]; [|lia]. case_if; [|lia]. destruct (Libc.strtol s) as [[[v rest] er]|]; [|lia]. case_if; bool_prop; lia. }
  clearbody depth. repeat case_if; bool_prop; lia.
Qed.

(** What the checks before the threads establish. *)
Lemma begin_facts : 0 < n_tokens /\ span_start + n_tokens <= zlen prompt /\ n_tokens + chunk_cap - 1 <= U32_MAX /\ 0 < window <= 64 /\ 0 < slots <= 8 /\ count + window <= U32_MAX.
Proof.
  destruct Hcall as [C1 C2 C3 C4 C5 C6]. revert Hbegin. unfold prefill_pipelined_start, INT32_MAX, U32_MAX in *. case_if; [discriminate|]. bool_prop. case_if; [discriminate|].
  assert (Hc : 0 <= count <= n_tokens).
  { unfold chunk_count. rewrite u32_small by (unfold is_u32, U32_MAX; lia). split; [apply Z.div_pos; lia|]. apply Z.div_le_upper_bound; nia. }
  destruct (dist_coordinator_prefill_window tu plan count) as [err|w] eqn:Ew; [discriminate|]. intros [= <- <-]. apply window_range in Ew; [|lia]. pose proof (depth_range env_depth count). split_and!; lia.
Qed.

(** The invariants at every state a schedule reaches. *)
Lemma pipe_reached evs s : run evs begun = Some s ->
  order_ok e co plan prompt span_start n_tokens reset_first_chunk ack_disabled chunk_cap session_id first_request window slots owner0 s /\
  live_ok n_tokens chunk_cap s /\ measure n_tokens chunk_cap s + Z.of_nat (length evs) <= measure n_tokens chunk_cap begun /\
  taken_ok plan prompt span_start n_tokens chunk_cap (all_answers evs) s.
Proof.
  intros Hrun. destruct begin_facts as (B1 & B2 & B3 & B4 & B5 & B6). destruct Hcall as [C1 C2 C3 C4 C5 C6].
  assert (Ho : order_ok e co plan prompt span_start n_tokens reset_first_chunk ack_disabled chunk_cap session_id first_request window slots owner0 begun) by (apply start_order; (done || lia)).
  assert (Hl : live_ok n_tokens chunk_cap begun) by (apply start_live; (done || lia)).
  edestruct run_live as (H1 & H2 & H3); [..|exact Ho|exact Hl|exact Hrun|]; try done; try lia. split; [done|]. split; [done|]. split; [done|].
  apply (taken_run e co plan prompt span_start n_tokens reset_first_chunk ack_disabled chunk_cap session_id window slots evs [] begun s Hrun). exists []. split; [done|]. by intros _.
Qed.

(** What a successful call has done. *)
Lemma finished evs s logits : run evs begun = Some s -> pp_main s = MEnd -> prefill_result e n_tokens chunk_cap s = inr logits ->
  pp_submitted s = count /\ zlen (pp_sent s) = count /\ pp_err s = None /\
  exists results kind hash payload, results `prefix_of` all_answers evs /\ zlen results = count /\ results_ok plan prompt span_start n_tokens chunk_cap results /\
    last results = Some (inr (kind, hash, payload)) /\ pp_final s = Some (kind, payload).
Proof.
  intros Hrun Hm Hres. destruct (pipe_reached evs s Hrun) as ((HR & _) & HL & _ & (taken & Hgot & Htaken)). unfold prefill_result in Hres. destruct (pp_reader_err s) as [[code err]|]; [discriminate|]. destruct (pp_err s) eqn:He; [discriminate|].
  destruct (pp_final s) as [[kind payload]|] eqn:Hf; [|discriminate]. destruct (Htaken eq_refl) as (Hz & Hr & Hi & hash & Hlast). clear Hres Htaken.
  pose proof (lv_submitted _ _ _ HL) as [_ Hsub]. unfold looping in Hsub. rewrite Hm in Hsub. specialize (Hsub eq_refl He). pose proof (lv_joined _ _ _ HL) as Hj. pose proof (proj2 (lv_waits _ _ _ HL)) as Hw. unfold joined in Hj, Hw. rewrite Hm in Hj, Hw.
  specialize (Hj eq_refl). specialize (Hw eq_refl He). pose proof (rg_queued _ _ HR) as Hq. split; [done|]. split.
  - destruct (lv_sender _ _ _ HL Hj) as [Hs | [Hs _]]; [destruct (lv_why _ _ _ HL Hs); congruence|lia].
  - split; [done|]. exists taken, kind, hash, payload. split_and!; try done; [by rewrite Hgot; apply prefix_app_r|lia].
Qed.
End Call.

(** C4: Whatever the order in which the caller, the sender and the reader of a
    pipelined prefill run, and whatever the workers answer: the ring holds no
    more chunks than it has slots, no more chunks are under way than the
    window, and the frames on the connection are the caller's chunks in
    order, each as it was computed.  When the call succeeds, all of them
    were written, the coordinator's session is the one that evaluates the
    chunks one after another, and every chunk has had a result that carries
    the hash of the transcript up to its end, the last of which is returned. *)
Theorem pipelined_prefill_in_order {LC : Type} `{SliceKernels LC} (e : slice_engine) (co : ds4_dist_coordinator_state) (tu : dist_tunables) (env_depth : option bytes) (plan : ds4_dist_route_plan)
  (prompt : list Z) (span_start n_tokens : Z) (reset_first_chunk ack_disabled : bool) (chunk_cap session_id first_request window slots : Z) (owner0 : slice_session LC) (blank : ds4_dist_prefill_send_slot)
  (evs : list pipe_event) (s : pipe (LC := LC)) :
  call_ok tu prompt span_start n_tokens chunk_cap first_request -> prefill_pipelined_start tu env_depth plan prompt span_start n_tokens chunk_cap = inr (window, slots) ->
  pipe_run e co plan prompt span_start n_tokens reset_first_chunk ack_disabled chunk_cap session_id window slots evs (start prompt span_start first_request slots owner0 blank) = Some s ->
  0 <= pp_queued s <= slots /\ pp_submitted s <= pp_completed s + window /\
  exists chunks owner, local_chunks e co prompt span_start n_tokens reset_first_chunk ack_disabled chunk_cap first_request owner0 (computed s) = Some (chunks, owner) /\
    Forall2 (fun chunk frame => slot_frame (LC := LC) co plan prompt session_id chunk = inr frame) (take (length (pp_sent s)) chunks) (pp_sent s) /\
    forall logits, pp_main s = MEnd -> prefill_result e n_tokens chunk_cap s = inr logits ->
      computed s = Z.to_nat (chunk_count n_tokens chunk_cap) /\ length (pp_sent s) = length chunks /\ pp_owner s = owner /\
      exists results kind hash payload, results `prefix_of` all_answers evs /\ zlen results = chunk_count n_tokens chunk_cap /\ results_ok plan prompt span_start n_tokens chunk_cap results /\
        last results = Some (inr (kind, hash, payload)) /\ pp_final s = Some (kind, payload).
Proof.
  intros Hcall Hbegin Hrun. destruct (pipe_reached _ _ _ _ _ _ _ _ _ _ _ _ _ _ _ _ _ Hcall Hbegin evs s Hrun) as ((HR & HC & chunks & owner & [J1 J2 J3 J4]) & _).
  split; [exact (rg_range _ _ HR)|]. split; [exact (proj1 (cl_window _ _ _ _ _ _ _ HC))|]. exists chunks, owner. split; [exact J1|]. split; [exact J4|]. intros logits Hm Hres.
  destruct (finished _ _ _ _ _ _ _ _ _ _ _ _ _ _ _ _ _ Hcall Hbegin evs s logits Hrun Hm Hres) as (Hsub & Hsent & He & Hresults).
  assert (Hcomp : computed s = Z.to_nat (chunk_count n_tokens chunk_cap)) by (unfold computed; rewrite Hm, Hsub; lia). apply local_length in J1. unfold zlen in Hsent. split_and!; [done|lia|by apply J2|done].
Qed.

(** C5: A pipelined prefill returns: no schedule has more than
    [9 * chunks + 12] steps, and while the call has not returned one of its
    three threads can go on, unless the connection is open and the worker owes
    the answer of a frame that was written. *)
Theorem pipelined_prefill_returns {LC : Type} `{SliceKernels LC} (e : slice_engine) (co : ds4_dist_coordinator_state) (tu : dist_tunables) (env_depth : option bytes) (plan : ds4_dist_route_plan)
  (prompt : list Z) (span_start n_tokens : Z) (reset_first_chunk ack_disabled : bool) (chunk_cap session_id first_request window slots : Z) (owner0 : slice_session LC) (blank : ds4_dist_prefill_send_slot)
  (evs : list pipe_event) (s : pipe (LC := LC)) :
  call_ok tu prompt span_start n_tokens chunk_cap first_request -> prefill_pipelined_start tu env_depth plan prompt span_start n_tokens chunk_cap = inr (window, slots) ->
  pipe_run e co plan prompt span_start n_tokens reset_first_chunk ack_disabled chunk_cap session_id window slots evs (start prompt span_start first_request slots owner0 blank) = Some s ->
  Z.of_nat (length evs) <= 9 * chunk_count n_tokens chunk_cap + 12 /\
  (pp_main s <> MEnd -> can_go e co plan prompt span_start n_tokens reset_first_chunk ack_disabled chunk_cap session_id window slots s \/ pp_open s = true /\ pp_answered s < zlen (pp_sent s)).
Proof.
  intros Hcall Hbegin Hrun. destruct (pipe_reached _ _ _ _ _ _ _ _ _ _ _ _ _ _ _ _ _ Hcall Hbegin evs s Hrun) as (Hok & Hlive & Hlen & _).
  destruct (begin_facts _ _ _ _ _ _ _ _ _ _ Hcall Hbegin) as (B1 & B2 & B3 & B4 & B5 & B6). pose proof (ca_cap _ _ _ _ _ _ Hcall) as Hcap. pose proof (measure_nonneg _ _ _ _ _ _ _ _ _ _ _ _ _ _ _ Hok Hlive). split.
  - change (measure n_tokens chunk_cap (start prompt span_start first_request slots owner0 blank)) with
      (5 * (chunk_count n_tokens chunk_cap - 0) + 8 + 2 * (chunk_count n_tokens chunk_cap - 0) + 2 + (chunk_count n_tokens chunk_cap - 0) + 1 + (chunk_count n_tokens chunk_cap - 0) + 1) in Hlen. lia.
  - intros Hm. eapply never_stuck; try exact Hok; try exact Hlive; try done; lia.
Qed.

(** ** Three chunks through two workers *)

#[local] Existing Instance Farm.merge_qsort.
#[local] Existing Instance Toy.kernels.

Module Conveyor.
Definition tunables : dist_tunables := Tunables 0 0 None None false.
Definition prompt : list Z := [1; 0; 1; 1; 0].
Definition plan : ds4_dist_route_plan := rc_plan Net.cache.
Definition hash (i : nat) : Z := nth i (expected_hashes prompt 0 5 2) 0.
Definition answers : list received := [inr (DS4_DIST_RESULT_ACK, hash 0, []); inr (DS4_DIST_RESULT_ACK, hash 1, []); inr (DS4_DIST_RESULT_LOGITS, hash 2, [1; 0; 0; 0; 2; 0; 0; 0])].
Definition blank : ds4_dist_prefill_send_slot := SendSlot 0 0 0 0 0 false false [].
Definition begun : pipe := start prompt 0 1 2 Toy.fresh blank.
Definition step : pipe_event -> pipe (LC := list Z) -> option pipe := pipe_step Net.engine Farm.s plan prompt 0 5 true false 2 9 3 2.
(** The first of the threads that can go on; an answer when none can. *)
Fixpoint schedule (fuel : nat) (answers : list received) (s : pipe) : list pipe_event :=
  match fuel with
  | O => []
  | S fuel' =>
      match step EvMain s, step (EvSender true) s, step (EvReader false) s, answers with
      | Some s', _, _, _ => EvMain :: schedule fuel' answers s'
      | None, Some s', _, _ => EvSender true :: schedule fuel' answers s'
      | None, None, Some s', _ => EvReader false :: schedule fuel' answers s'
      | None, None, None, r :: rest => match step (EvAnswer r) s with Some s' => EvAnswer r :: schedule fuel' rest s' | None => [] end
      | None, None, None, [] => []
      end
  end.
Definition evs := schedule 60 answers begun.

Lemma called : call_ok tunables prompt 0 5 2 1.
Proof. constructor; by vm_compute. Qed.
Lemma begins : prefill_pipelined_start tunables None plan prompt 0 5 2 = inr (3, 2).
Proof. vm_compute. reflexivity. Qed.
End Conveyor.

Lemma pipelined_prefill_in_order_witness :
  exists s, pipe_run Net.engine Farm.s Conveyor.plan Conveyor.prompt 0 5 true false 2 9 3 2 Conveyor.evs Conveyor.begun = Some s /\
  prefill_result Net.engine 5 2 s = inr [1; 2] /\ zlen (pp_sent s) = 3 /\ sl_checkpoint (pp_owner s) = Conveyor.prompt.
Proof.
  destruct (pipe_run Net.engine Farm.s Conveyor.plan Conveyor.prompt 0 5 true false 2 9 3 2 Conveyor.evs Conveyor.begun) as [s|] eqn:Hrun; [|vm_compute in Hrun; discriminate Hrun]. exists s. split; [reflexivity|].
  pose proof (pipelined_prefill_in_order Net.engine Farm.s Conveyor.tunables None Conveyor.plan Conveyor.prompt 0 5 true false 2 9 1 3 2 Toy.fresh Conveyor.blank Conveyor.evs s Conveyor.called Conveyor.begins Hrun) as Hall.
  destruct Hall as (_ & _ & chunks & owner & Hlocal & _ & Hend).
  assert (Hs : pp_main s = MEnd /\ prefill_result Net.engine 5 2 s = inr [1; 2]) by (vm_compute in Hrun; injection Hrun as <-; split; reflexivity). destruct Hs as [Hm Hr].
  clear Hrun. destruct (Hend [1; 2] Hm Hr) as (Hc & Hlen & Ho & _). rewrite Hc in Hlocal. vm_compute in Hlocal. injection Hlocal as <- <-. split; [exact Hr|]. unfold zlen. rewrite Hlen, Ho. split; reflexivity.
Defined.

(** The worker hangs up when the first chunk is in the ring. *)
Lemma pipelined_prefill_returns_witness :
  exists s, pipe_run Net.engine Farm.s Conveyor.plan Conveyor.prompt 0 5 true false 2 9 3 2 [EvMain; EvMain; EvMain; EvMain; EvHangup] Conveyor.begun = Some s /\
  can_go Net.engine Farm.s Conveyor.plan Conveyor.prompt 0 5 true false 2 9 3 2 s.
Proof.
  destruct (pipe_run Net.engine Farm.s Conveyor.plan Conveyor.prompt 0 5 true false 2 9 3 2 [EvMain; EvMain; EvMain; EvMain; EvHangup] Conveyor.begun) as [s|] eqn:Hrun; [|vm_compute in Hrun; discriminate Hrun]. exists s. split; [reflexivity|].
  pose proof (pipelined_prefill_returns Net.engine Farm.s Conveyor.tunables None Conveyor.plan Conveyor.prompt 0 5 true false 2 9 1 3 2 Toy.fresh Conveyor.blank _ s Conveyor.called Conveyor.begins Hrun) as [_ Hgo].
  assert (Hs : pp_main s = MWindow /\ pp_open s = false) by (vm_compute in Hrun; injection Hrun as <-; split; reflexivity). destruct Hs as [Hm Ho].
  clear Hrun. destruct Hgo as [Hgo | [Hopen _]]; [rewrite Hm; discriminate|exact Hgo|rewrite Ho in Hopen; discriminate].
Defined.
