(* ===== verification/DistGuard.v ===== *)
(** * Distributed inference: what a work frame can do to a worker

    The worker of DistWork.v against any bytes: which of its sessions and layers a
    frame can touch, and that a session's token hash always is the hash of the
    tokens it holds, so that a frame for another prefix is refused. *)

From stdpp Require Import gmap.
From S2P Require Import Prelude DistWire DistRoute LayerSlice DistWork DistSpan DistSession.
#[local] Open Scope Z_scope.
#[local] Open Scope stdpp_scope.

Section Guard.
Context {LC : Type} `{SliceKernels LC}.

(** A stored hash that is in use is that of the session's tokens. *)
Definition hash_ok (ws : ds4_dist_worker_session LC) : Prop :=
  wn_token_hash_valid ws = true -> wn_token_hash ws = dist_token_hash_prefix (sl_checkpoint (wn_session ws)).

(** Nothing, or the reset of the session, and then nothing, or a span of layers
    [a] to [b] that appends its tokens or fails. *)
Definition frame_effect (e : slice_engine) (a b : Z) (s s' : slice_session LC) : Prop :=
  exists s0, (s0 = s \/ s0 = snd (session_layer_slice_reset e s)) /\
  (s' = s0 \/
   (exists tokens, sl_checkpoint s' = sl_checkpoint s0 ++ tokens /\ (tokens = [] -> sl_checkpoint_valid s' = false)) /\
   forall j, 0 <= j < sg_n_layer e -> ~ (a <= j <= b) -> sl_layers s' j = sl_layers s0 j).

Lemma eval_effect e (s : slice_session LC) tokens pos0 a b input_hc want_hc lg out s' :
  session_eval_layer_slice e s tokens pos0 a b input_hc want_hc lg = (out, s') ->
  (s' = s \/ (exists ts, sl_checkpoint s' = sl_checkpoint s ++ ts /\ (ts = [] -> sl_checkpoint_valid s' = false)) /\
   forall j, 0 <= j < sg_n_layer e -> ~ (a <= j <= b) -> sl_layers s' j = sl_layers s j) /\
  match out with inr _ => sl_checkpoint s' = sl_checkpoint s ++ tokens | inl _ => sl_checkpoint s' = sl_checkpoint s end.
Proof.
  intros E. pose proof (slice_timeline e s tokens pos0 a b input_hc want_hc lg) as Ht. rewrite E in Ht. destruct Ht as [Hl Ho].
  assert (Hj : forall j, 0 <= j < sg_n_layer e -> ~ (a <= j <= b) -> sl_layers s' j = sl_layers s j) by (intros j H1 H2; apply Hl; [by right|done]).
  destruct out as [msg|o].
  - destruct Ho as [-> | [Hc Hv]]; [by split; [left|]|]. split; [|done]. right. split; [|done]. exists []. by rewrite app_nil_r.
  - destruct Ho as (Hc & Hv & Hne & _). split; [|done]. right. split; [|done]. by exists tokens.
Qed.

(** The hash that is compared with the frame's: it is the one of the tokens, as
    long as a reset does not fail. *)
Lemma in_use_hash (ws : ds4_dist_worker_session LC) : hash_ok ws ->
  hash_ok (if negb (wn_token_hash_valid ws) then set_hash (dist_token_hash_prefix (sl_checkpoint (wn_session ws))) true ws else ws) /\
  wn_token_hash (if negb (wn_token_hash_valid ws) then set_hash (dist_token_hash_prefix (sl_checkpoint (wn_session ws))) true ws else ws) =
    dist_token_hash_prefix (sl_checkpoint (wn_session ws)).
Proof. intros Hh. unfold hash_ok in *. destruct (wn_token_hash_valid ws); cbn [negb]; [by auto|done]. Qed.

(** What the part of a frame under the lock does to the session it names. *)
Record guarded (st st' : ds4_dist_worker_state LC) (id a b : Z) : Prop := {
  gd_sessions : st' = set_sessions (wo_sessions st') st;
  gd_others : forall id', id' <> id -> dist_worker_find_session_locked st' id' = dist_worker_find_session_locked st id';
  gd_effect : st' = st \/ exists s ws', (slice_session_create (wo_engine st) (wo_ctx_size st) = Some s \/ exists ws, dist_worker_find_session_locked st id = Some ws /\ s = wn_session ws) /\
    dist_worker_find_session_locked st' id = Some ws' /\ frame_effect (wo_engine st) a b s (wn_session ws');
  gd_hash : (forall il c, reset_layer il c <> None) -> Forall hash_ok (wo_sessions st) -> Forall hash_ok (wo_sessions st') }.

Lemma get_session_cases (st st1 : ds4_dist_worker_state LC) id ws : dist_worker_get_session_locked st id = (inr ws, st1) ->
  (dist_worker_find_session_locked st id = Some ws /\ st1 = st) \/
  (slice_session_create (wo_engine st) (wo_ctx_size st) = Some (wn_session ws) /\ wn_token_hash_valid ws = false /\ st1 = set_sessions (ws :: wo_sessions st) st).
Proof.
  unfold dist_worker_get_session_locked, dist_worker_find_session_locked. destruct (List.find _ _) as [x|]; [intros [= <- <-]; by left|].
  destruct (slice_session_create _ _) as [s|]; [|discriminate]. intros [= <- <-]. by right.
Qed.

Lemma update_hash_ok ws (sessions : list (ds4_dist_worker_session LC)) : Forall hash_ok sessions -> hash_ok ws -> Forall hash_ok (update_session ws sessions).
Proof. intros Hs Hw. induction Hs as [|x xs Hx Hs IH]; cbn [update_session]; [constructor|]. case_if; by constructor. Qed.

Lemma store_guard (st st1 : ds4_dist_worker_state LC) id ws ws' a b : dist_worker_get_session_locked st id = (inr ws, st1) -> wn_session_id ws' = id ->
  frame_effect (wo_engine st) a b (wn_session ws) (wn_session ws') -> ((forall il c, reset_layer il c <> None) -> hash_ok ws -> hash_ok ws') ->
  guarded st (store_session ws' st1) id a b.
Proof.
  intros Hget Hid Heff Hh. pose proof (get_session_spec _ _ _ _ Hget) as (_ & Hfind & Hst1 & Hoth). constructor.
  - rewrite Hst1. done.
  - intros id' Hne. unfold dist_worker_find_session_locked, store_session. cbn [set_sessions wo_sessions]. rewrite find_update_other by congruence. by apply Hoth.
  - right. exists (wn_session ws), ws'. split_and!; [|unfold dist_worker_find_session_locked, store_session; cbn [set_sessions wo_sessions]; rewrite <- Hid in Hfind |- *; by apply (find_update ws)|done].
    destruct (get_session_cases _ _ _ _ Hget) as [[Hf _]|[Hc _]]; [right; by exists ws|by left].
  - intros Hr Hall. unfold store_session. cbn [set_sessions wo_sessions]. destruct (get_session_cases _ _ _ _ Hget) as [[Hf ->]|(_ & Hv & ->)].
    + assert (Hws : hash_ok ws). { unfold dist_worker_find_session_locked in Hf. apply find_some in Hf as [Hin _]. rewrite Forall_forall in Hall. apply Hall. by apply list_elem_of_In. }
      apply update_hash_ok; [done|by apply Hh].
    + assert (Hws : hash_ok ws) by (unfold hash_ok; congruence). cbn [set_sessions wo_sessions]. apply update_hash_ok; [by constructor|by apply Hh].
Qed.

Lemma reset_total e (s s' : slice_session LC) msg : (forall il c, reset_layer il c <> None) -> session_layer_slice_reset e s <> (Some msg, s').
Proof.
  intros Hr. unfold session_layer_slice_reset. case_if; [done|]. generalize (sl_layers (slice_invalidate s)). generalize (layer_range 0 (sg_n_layer e - 1)). intros ils.
  induction ils as [|il ils IH]; intros l; cbn [reset_layers]; [done|]. destruct (reset_layer il (l il)) eqn:Hx; [apply IH|by destruct (Hr il (l il))].
Qed.

(** The span on a session whose hash agrees. *)
Lemma span_guard (st st1 : ds4_dist_worker_state LC) id ws ws0 a b tokens pos0 input_hc want_hc lg out s prefix result : dist_worker_get_session_locked st id = (inr ws, st1) ->
  wn_session_id ws0 = id -> (wn_session ws0 = wn_session ws \/ wn_session ws0 = snd (session_layer_slice_reset (wo_engine st) (wn_session ws))) ->
  ((forall il c, reset_layer il c <> None) -> hash_ok ws -> wn_token_hash ws0 = dist_token_hash_prefix (sl_checkpoint (wn_session ws0))) ->
  wn_token_hash ws0 = prefix -> result = dist_token_hash_update_span prefix tokens ->
  session_eval_layer_slice (wo_engine st) (wn_session ws0) tokens pos0 a b input_hc want_hc lg = (out, s) ->
  guarded st (store_session (match out with inl _ => set_hash (wn_token_hash ws0) false (set_slice s ws0) | inr _ => set_hash result true (set_slice s ws0) end) st1) id a b.
Proof.
  intros Hget Hid Hbase Hhash Hp Hr He. apply eval_effect in He as [Heff Hck]. apply (store_guard st st1 id ws); [done|by destruct out| |].
  - exists (wn_session ws0). split; [done|]. destruct out; exact Heff.
  - intros Htot Hws. destruct out as [msg|o]; [done|]. unfold hash_ok. cbn [set_hash set_slice wn_token_hash wn_session]. intros _. rewrite Hck, Hr, <- Hp, (Hhash Htot Hws). apply hash_span_prefix.
Qed.

Lemma run_work_guarded (st st' : ds4_dist_worker_state LC) work rq r :
  dist_u64_from_halves (wk_result_hash_hi work) (wk_result_hash_lo work) =
    dist_token_hash_update_span (dist_u64_from_halves (wk_prefix_hash_hi work) (wk_prefix_hash_lo work)) (rq_tokens rq) ->
  run_work st work rq = (r, st') -> guarded st st' (dist_u64_from_halves (wk_session_hi work) (wk_session_lo work)) (wk_layer_start work) (wk_layer_end work).
Proof.
  intros Hres. unfold run_work. set (id := dist_u64_from_halves (wk_session_hi work) (wk_session_lo work)).
  set (prefix := dist_u64_from_halves (wk_prefix_hash_hi work) _) in *. set (result := dist_u64_from_halves (wk_result_hash_hi work) _) in *.
  destruct (dist_worker_get_session_locked st id) as [[err|ws] st1] eqn:Hget.
  { intros [= <- <-]. unfold dist_worker_get_session_locked in Hget. destruct (List.find _ _); [discriminate|]. destruct (slice_session_create _ _); [discriminate|]. injection Hget as _ <-.
    constructor; [by destruct st|done|by left|done]. }
  pose proof (get_session_spec _ _ _ _ Hget) as (Hid & _).
  assert (Hspan : forall ws0, wn_session_id ws0 = id -> (wn_session ws0 = wn_session ws \/ wn_session ws0 = snd (session_layer_slice_reset (wo_engine st) (wn_session ws))) ->
    ((forall il c, reset_layer il c <> None) -> hash_ok ws -> wn_token_hash ws0 = dist_token_hash_prefix (sl_checkpoint (wn_session ws0))) ->
    (if negb (wn_token_hash ws0 =? prefix) then (inl (bs "worker KV prefix hash mismatch"), store_session ws0 st1)
     else let '(out, s) := session_eval_layer_slice (wo_engine st) (wn_session ws0) (rq_tokens rq) (wk_pos0 work) (wk_layer_start work) (wk_layer_end work) (rq_input rq) (rq_hidden rq) (rq_logits rq) in
       match out with
       | inl err => (inl err, store_session (set_hash (wn_token_hash ws0) false (set_slice s ws0)) st1)
       | inr (hc, logits) => (inr (image (default [] (if rq_logits rq then logits else hc))), store_session (set_hash result true (set_slice s ws0)) st1)
       end) = (r, st') -> guarded st st' id (wk_layer_start work) (wk_layer_end work)).
  { intros ws0 Hid0 Hb Hh. destruct (Z.eqb_spec (wn_token_hash ws0) prefix) as [Hp|Hp]; cbn [negb].
    - destruct (session_eval_layer_slice _ _ _ _ _ _ _ _ _) as [out s] eqn:He. pose proof (span_guard st st1 id ws ws0 _ _ _ _ _ _ _ out s prefix result Hget Hid0 Hb Hh Hp Hres He) as Hg.
      destruct out as [err|[hc lg]]; by intros [= <- <-].
    - intros [= <- <-]. apply (store_guard st st1 id ws); [done|done| |].
      + exists (wn_session ws0). split; [done|by left].
      + intros Htot Hws _. by apply Hh. }
  destruct (has_flag (wk_flags work) DS4_DIST_WORK_F_RESET_SESSION).
  - destruct (session_layer_slice_reset (wo_engine st) (wn_session ws)) as [[err|] s0] eqn:Hr.
    + intros [= <- <-]. apply (store_guard st st1 id ws); [done|done| |].
      * exists s0. split; [right; by rewrite Hr|by left].
      * intros Htot. by destruct (reset_total _ _ _ _ Htot Hr).
    + apply Hspan; [done|by right|]. intros _ _. cbn [set_hash set_slice wn_token_hash wn_session]. by rewrite (reset_clears _ _ _ Hr).
  - apply Hspan.
    + by destruct (negb (wn_token_hash_valid ws)).
    + left. by destruct (negb (wn_token_hash_valid ws)).
    + intros _ Hws. destruct (in_use_hash ws Hws) as [_ ->]. by destruct (negb (wn_token_hash_valid ws)).
Qed.

(** A frame for other tokens than the session's is refused. *)
Lemma run_work_refuses (st st' : ds4_dist_worker_state LC) work rq r ws : let id := dist_u64_from_halves (wk_session_hi work) (wk_session_lo work) in
  run_work st work rq = (r, st') -> has_flag (wk_flags work) DS4_DIST_WORK_F_RESET_SESSION = false -> dist_worker_find_session_locked st id = Some ws -> hash_ok ws ->
  dist_u64_from_halves (wk_prefix_hash_hi work) (wk_prefix_hash_lo work) <> dist_token_hash_prefix (sl_checkpoint (wn_session ws)) ->
  r = inl (bs "worker KV prefix hash mismatch") /\ exists ws', dist_worker_find_session_locked st' id = Some ws' /\ wn_session ws' = wn_session ws.
Proof.
  intros id E Hr Hf Hh Hne. pose proof (find_session_id _ _ _ Hf) as Hid. destruct (in_use_hash ws Hh) as [_ Hu]. unfold run_work in E. rewrite Hr in E. unfold dist_worker_get_session_locked in E.
  fold id in E. pose proof Hf as Hf2. unfold dist_worker_find_session_locked in Hf2. rewrite Hf2 in E. rewrite Hu in E. rewrite (proj2 (Z.eqb_neq _ _)) in E by congruence. cbn [negb] in E. injection E as <- <-. split; [done|].
  set (ws0 := if negb (wn_token_hash_valid ws) then _ else ws). assert (Hid0 : wn_session_id ws0 = id) by (unfold ws0; by destruct (wn_token_hash_valid ws)).
  exists ws0. split; [|unfold ws0; by destruct (wn_token_hash_valid ws)]. unfold dist_worker_find_session_locked, store_session. cbn [set_sessions wo_sessions].
  rewrite <- Hid0 in Hf2 |- *. by apply (find_update ws).
Qed.

Lemma read_work_hash (st : ds4_dist_worker_state LC) work p rq : read_work st work p = Some (inr rq) ->
  dist_u64_from_halves (wk_result_hash_hi work) (wk_result_hash_lo work) =
    dist_token_hash_update_span (dist_u64_from_halves (wk_prefix_hash_hi work) (wk_prefix_hash_lo work)) (rq_tokens rq).
Proof.
  unfold read_work. cbv zeta. destruct (read_work_tokens _ p) as [[err|[tokens q]]|]; cbn [mbind option_bind]; [done| |done].
  destruct (Z.eqb_spec (dist_token_hash_update_span (dist_u64_from_halves (wk_prefix_hash_hi work) (wk_prefix_hash_lo work)) tokens)
    (dist_u64_from_halves (wk_result_hash_hi work) (wk_result_hash_lo work))) as [Heq|]; cbn [negb]; [|done].
  intros E. assert (Ht : rq_tokens rq = tokens); [|by rewrite Ht]. revert E. clear. unfold mbind, option_bind. intros E. repeat (case_match; try discriminate E); by simplify_eq.
Qed.

(** The session a frame names: eight bytes of its header, whatever follows. *)
Definition frame_session (payload : bytes) : option Z :=
  match dist_mem_read payload (wire_size ds4_dist_work_fixed) with
  | None => None
  | Some (b, _) =>
      let work := wire_parse b : ds4_dist_work_fixed in
      Some (dist_u64_from_halves (wk_session_hi work) (wk_session_lo work))
  end.

Lemma guarded_same (st : ds4_dist_worker_state LC) id a b : guarded st st id a b.
Proof. constructor; [by destruct st|done|by left|done]. Qed.

Lemma payload_guarded connect window eval_usec send_usec (st : ds4_dist_worker_state LC) fs payload out st' fs' :
  dist_worker_process_work_payload connect window eval_usec send_usec st fs payload = (out, st', fs') ->
  match frame_session payload with
  | None => st' = st
  | Some id => guarded st st' id (wo_layer_start st) (wo_layer_end st)
  end.
Proof.
  unfold dist_worker_process_work_payload, frame_session. destruct (dist_mem_read _ _) as [[b r]|]; [|by intros [= _ <- _]].
  set (work := wire_parse b : ds4_dist_work_fixed).
  destruct (check_work st work _) as [err|] eqn:Hc; [intros [= _ <- _]; apply guarded_same|].
  destruct (read_work st work r) as [[err|rq]|] eqn:Hrd; [intros [= _ <- _]; apply guarded_same| |intros [= _ <- _]; apply guarded_same].
  assert (Hl : wk_layer_start work = wo_layer_start st /\ wk_layer_end work = wo_layer_end st).
  { unfold check_work in Hc. cbv zeta in Hc. do 4 (case_if_in Hc; [discriminate Hc|]). destruct (_ || _) eqn:El in Hc; [discriminate Hc|]. bool_prop. lia. }
  destruct Hl as [Hls Hle]. destruct (run_work st work rq) as [ran st1] eqn:Hrun.
  pose proof (run_work_guarded st st1 work rq ran (read_work_hash st work r rq Hrd) Hrun) as Hg. rewrite Hls, Hle in Hg.
  intros E. assert (Hst : st' = st1); [|by rewrite Hst].
  revert E. clear. intros E. repeat case_match; by simplify_eq.
Qed.
End Guard.

(** C3: Whatever bytes a worker is sent, its assignment stays, and of its sessions
    only the one whose id stands in the frame's header can change, there only by a
    reset or by tokens appended or a failed span on the worker's own layers; a frame
    too short for a header changes nothing.  As long as the kernels' resets do not
    fail, the token hash of every session stays the hash of its tokens. *)
Theorem any_frame_is_guarded {LC : Type} `{SliceKernels LC} (connect : bytes -> Z -> option bytes) (window eval_usec send_usec : Z) (st : ds4_dist_worker_state LC)
  (fs : list ds4_dist_worker_forwarder) (payload : bytes) :
  let '(_, st', _) := dist_worker_process_work_payload connect window eval_usec send_usec st fs payload in
  match frame_session payload with
  | None => st' = st
  | Some id => guarded st st' id (wo_layer_start st) (wo_layer_end st)
  end.
Proof. destruct (dist_worker_process_work_payload _ _ _ _ _ _ _) as [[out st'] fs'] eqn:E. by apply payload_guarded in E. Qed.
